(* ===== verification/_CoqProject ===== *)
-Q . S2P
Prelude.v
Text.v
Protocol.v
Config.v
Heartbeat.v
Runtime.v
Role.v
RoleSession.v
Handover.v
Clipboard.v
NotificationStore.v
NotificationLink.v
Transport.v
ClipboardSync.v
Identity.v
ConfigMigration.v
Audio.v
NotificationMirror.v
PhoneProjection.v
NotificationHub.v
PhoneHistory.v
NotificationBridge.v
PhoneAccess.v
PhoneSessions.v
PhoneSession.v
Tray.v
Control.v
Keymap.v
Acceptor.v
Float.v
Geometry.v
WindowsCapture.v
CaptureSafety.v
WindowsInjection.v
InputSupervisor.v
Utf16.v
WindowsClipboard.v
WindowsPaste.v
WindowsTray.v
WindowsLiveInput.v
WindowsSession.v
WindowsFrames.v
WindowsHandover.v
CaptureSwitch.v
WindowsControl.v
WindowsSystem.v
Pairing.v
WindowsConnect.v
LinuxNode.v
PairingSafety.v
PairingProgress.v
LinuxNodeSafety.v
WindowsApplication.v
LinuxCapture.v
LinuxCaptureSafety.v
LinuxInjection.v
Uinput.v
WaylandInput.v
LibeiInput.v
Pcm.v
FloatAbove.v
Resample.v
AudioRing.v
AudioOutput.v
AudioRouting.v
