(* ===== verification/Prelude.v ===== *)
(** * A verification library for MouseWithoutBorders

    The program lets one mouse and keyboard drive two computers and shares their
    clipboard, notifications and audio; phones may join for the last three.  Two
    nodes hold one encrypted session.  The node that dialled is the connector
    and owns the decision who controls; the other is the listener and follows.
    This library models the parts of it that decide, without the devices: every
    operation is a Rocq function that can be evaluated, errors are values,
    integers keep their width, and what the program takes from other crates is
    a parameter whose laws are stated where it is used.

    ** Files, in order

    - [Prelude] (this file): results and the [let?], [ensure!] and [do!] notations
      for code with [?]; machine integers and time as [Z]; bytes, UTF-8 and the
      string operations of the standard library; big-endian fields; the tactics
      [reflect_bools], [cases], [cases_in] and [field_setter], which builds the update of a
      record's field; the hint databases; [within], [keeps] and [succeeds], what a stateful
      computation preserves, and [hoare], its triples.
    - [Protocol] (crates/edge-protocol): every frame and constant of the protocol.
    - [Heartbeat] (edge-protocol, HeartbeatPing): the round trip measured on
      heartbeats: an echo measures it, and no echo is ever echoed.
    - [Runtime] (crates/edge-runtime, lib.rs and audio_route.rs): LivenessTracker,
      InputEpochGate, resolve_pairing, CommittedAudioRoute.  Input is released
      before a silent peer is disconnected, the hard timeout is reported once,
      suspended input needs a fresh entry, both screens resolve a pairing alike.
    - [Role] (crates/edge-runtime/src/role.rs): RoleCoordinator and the validation
      of prepares and commits; epochs advance by one and only with a commit.
    - [RoleSession] (apps/edge-receiver-linux/src/main.rs): one function per handler
      of the two session loops, for role, pause, input and control frames, capture
      events, tray commands and the watchdog; [System] is the two nodes with the
      two streams between them and [system_step] its transition.
    - [Handover]: the invariant of [System] and what follows from it.  At any time
      and however user requests, failures, timeouts and deliveries interleave, the
      nodes never both control one epoch, and injected input comes from the
      controller; a commit is applied or ends the session; with working backends a
      user's request to switch completes in six deliveries, in whatever order they come.  The last two theorems are about defects: a
      fallback request that the listener ignores, and the readiness of an aborted
      attempt that commits the next one.
    - [Clipboard] (crates/edge-clipboard): the state machines that send and receive
      text and images in chunks, their limits, timeouts and identifiers; offer
      numbers; the schedule that interleaves chunks with other frames.  What is
      sent is what arrives, a receiver is bounded, and errors end only a transfer.
    - [NotificationStore], [NotificationLink] (apps/edge-receiver-linux/src/
      notification_hub.rs): the history of notifications, the merge it implements,
      and its replication from the computer that owns it to the other.
    - [Transport] (crates/edge-crypto and the framing of edge-protocol and
      edge-runtime): packets, sealed frames, the handshake.  Two sessions whose
      ciphers are in step deliver exactly the frames written, in order, however
      the tasks of both ends interleave; the handshake leaves them in step.
    - [Identity] (crates/edge-crypto): fingerprints, pairing codes, pins, and the
      replacement of a file, which is atomic under failures and crashes, and lasting on Unix.
    - [Audio] (crates/edge-audio): datagrams and the jitter buffer.
    - [Text]: the string operations of the standard library that the following
      components share: splitting, trimming, lines, decimal numbers, lossy UTF-8.
    - [Config], [ConfigMigration] (crates/edge-common): the configuration, read in
      its current and its legacy layout and written; loading and saving on the file
      system of [Identity], and the migration of an old file.  What is saved loads
      back, what loads is in range, and a migration keeps the old text.
    - [ClipboardSync] (main.rs, clipboard_hub.rs, crates/edge-linux-input): the
      clipboard of a session, with a PC or a phone, over [Clipboard]: what it
      offers, applies and withholds, and the queue of background reads.
    - [NotificationMirror] (notifications.rs): a phone's notifications on the desktop.
    - [PhoneProjection] (phone_projection.rs): the same shown by the desktop shell.
    - [NotificationHub] (notification_hub.rs): the hub's own changes of the history
      and the phones as sources of it; [PhoneHistory] has its theorems.
    - [NotificationBridge] (notification_hub.rs): the connection to the shell.
    - [PhoneAccess] (phone_pairing.rs, phone.rs): the pairing token and its limits,
      the link, admission, and the frames a phone may send.
    - [PhoneSessions] (phone.rs): the phones of a receiver: pairing, unpairing and
      listing as requests to the receiver loop, with the pins in memory and on disk.
    - [PhoneSession] (phone.rs, run_phone_session): the loop of one session as a step
      per wake-up, over [ClipboardSync], [NotificationMirror] and [NotificationHub].
    - [Tray] (tray.rs): what the tray shows, its menu and what the rows send, the
      choice of audio, and the counters that reach it without waiting.
    - [Control] (control.rs, control_link.rs): the line protocol between the receiver
      and its command line and windows, over [Tray] and [PhoneSessions].
    - [Keymap] (crates/edge-keymap): both tables of key codes.
    - [Acceptor] (acceptor.rs): the bounded handshakes of incoming connections.
    - [Float]: the arithmetic of f64 and f32 the source uses, over the binary formats
      of SpecFloat; which operations on integers are exact, and the order.
    - [Geometry] (crates/edge-geometry): screens, edges and the mapping between them.
    - [WindowsCapture] (crates/edge-windows-input/src/lib.rs): the capture of mouse and
      keyboard on Windows: a hook callback, a raw report or an exported call is a
      function of the environment of its moment and of the process's state.
      [CaptureSafety] has its theorems: the peer is told whole captures, an event
      reaches one computer, the hotkey returns control and the cooldown keeps it,
      the remote pointer stays on its screen, the edge is that of the pixels.  Two
      more are about defects: raw motion that enters a suspended or a guarded capture.
    - [WindowsInjection] (edge-windows-input/src/injection.rs): what Windows holds down
      is what the injector remembers, and a release tries every key and button.
    - [InputSupervisor] (edge-windows-input/src/lib.rs): the loop that replaces the hook
      and raw input threads: a dead pipeline is replaced, at most every eight seconds.
    - [Utf16]: the strings of Windows, and back.
    - [WindowsClipboard] (apps/edge-controller-win/src/main.rs and the clipboard of
      edge-windows-input): the clipboard functions over Win32, LiveClipboardState and the arms
      of the session loop that serve it: a paste of an image is held, with all input after it,
      until the image has been sent.  [WindowsPaste] has its theorems: input keeps its order,
      leaves in time, and a paste waits for its image.  Two more are about defects: an image
      copied again that is pasted stale, and a cancelled image that is not sent.
    - [WindowsTray] (edge-windows-input and main.rs): what the tray shows, its menu and what
      the application does with a command.
    - [WindowsLiveInput] (main.rs): the thread that brings captured input to the session, which
      loses nothing but motion, and the watcher that gives control back at the edge.
    - [WindowsSession] (main.rs, run_connected_inner): the state of a session of the Windows
      application and one function per arm of its loop; [session_step] is the loop.
      [WindowsFrames] shows that the arms of the clipboard write only frames a predicate allows,
      [WindowsHandover] that every arm writes only what a listener can follow, [CaptureSwitch]
      that no hook switches the capture on, and [WindowsControl] what the role, the pause and
      the sharing of input decide.  A theorem there is about a defect: a silence of two seconds
      stops the sharing of input for good.
    - [WindowsSystem]: a Windows connector and a Linux listener with the two streams between
      them; the guarantees of [Handover] for this pair.
    - [Pairing] (main.rs): a conversation before a session, [Attempt], and the Linux computer
      that dials, [connect_linux_peer].  [WindowsConnect] (apps/edge-controller-win/src/main.rs)
      is the Windows one, connect_and_initialize and connect_for_tray.
    - [LinuxNode] (main.rs, run_node): the receiver loop, which dials, sets up the computer that
      dialled it, turns others away, follows the tray and starts and ends sessions; a function
      per event, [node_step] is a turn.
    - [PairingSafety]: every way to pair asks both users for the same code and saves nothing
      before both accepted, whoever dials.  [PairingProgress]: conversations end in bounded time,
      two new computers get to a session, a failed attempt asks at most once and changes nothing
      that was not accepted, layouts line up; one theorem is
      about a wait without limit.  [LinuxNodeSafety]: what the loop keeps, what remains of two
      dials that meet and what the other one shows of it, which keys are pinned; four theorems are about defects.
    - [WindowsApplication] (main.rs of the controller, run_main): the rounds between sessions;
      one confirmation window is opened at most, and dials keep their distance.
    - [LinuxCapture] (crates/edge-linux-input/src/portal_capture.rs): the capture of mouse and
      keyboard through the desktop's portal: the lease of the receiver, the wait for a stable
      portal, barriers, the events of the devices, the commands, and the loop of the task.
      [LinuxCaptureSafety] has its theorems: the receiver knows the held keys, a receiver that
      falls silent loses the capture, the chord gives the input back, an ended capture is given
      up, an activation names its monitor, a portal that hung is not asked again.
    - [LinuxInjection] (main.rs, ReceiverBackend): the choice of what plays a peer's input.
      [Uinput] (uinput.rs), [WaylandInput] (wayland_virtual_input.rs) and [LibeiInput] (lib.rs,
      LibeiSender) are the senders: what the kernel, the compositor and libei hold down is what
      each remembers, and a release leaves nothing.  Three theorems are about defects.
    - [Pcm] (crates/edge-audio): samples on the network and back, and the fade for a lost frame.
    - [FloatAbove]: bounds from below of the rounding of [Float].
    - [Resample] (crates/edge-audio-output): the conversion to the rate of the device, which
      ends, whose output is bounded and which reads only frames it has.
    - [AudioRing]: the queue between the network and the device, with its loads and stores
      interleaved: it is a bounded queue.
    - [AudioOutput]: the player over both and the jitter buffer, and the callback of the device.
    - [AudioRouting] (crates/edge-linux-audio): the redirection of the computer's sound and its
      journal; what a crash leaves is undone, and two theorems are about defects.

    [RoleSession] uses [Role] and [Runtime], [Transport] the schedule of
    [Clipboard], and [Identity] the key validation of [NotificationStore], as the
    crates depend on each other.  The phone files build on one another in the order
    above.

    ** What the theorems show

    Of two computers: one controller at a time, input only from it, handovers that
    complete or end the session ([Handover]); captured input that is told whole and returned
    ([CaptureSafety], [LinuxCaptureSafety]); frames delivered in order ([Transport]);
    a history that is replicated exactly ([NotificationLink]); clipboard content that
    arrives as it was sent ([Clipboard]), that never overwrites an unseen copy and
    never reveals a phone's ([ClipboardSync]).  Of phones: only authenticated and
    admitted ones are served ([Acceptor], [PhoneAccess]), pins are saved before they
    count ([PhoneSessions]), features stay apart ([PhoneSession]), and history,
    desktop and shell show what the phone has ([PhoneHistory], [NotificationMirror],
    [NotificationBridge]).  Of the computer itself: files survive failures and crashes
    ([Identity], [ConfigMigration]), and what tray and windows show is what the
    receiver knows ([Tray], [Control]); no key stays down on a computer that is played to
    ([WindowsInjection], [Uinput], [WaylandInput], [LibeiInput]).  Of connecting: keys are saved only
    when both users accepted the same code ([PairingSafety]), new computers reach a session and what fails leaves nothing behind
    ([PairingProgress]), and two computers that dial each other keep one connection
    ([LinuxNodeSafety]).  Of the Windows computer: it captures only as the controller and plays
    only the controller's input ([WindowsSystem]).  Some theorems are about defects and say so in
    their comments.

    ** Conventions

    A doc comment that holds a bracket with lines names the source a definition
    translates: a crate (its src/lib.rs) or a file of it, or rx/file for
    apps/edge-receiver-linux/src/file.rs, the lines, and the item.  Definitions keep
    the names of the source, prefixed where Rocq has one name space.  A method on
    [&mut self] that may fail is a [stateful] computation, which keeps the state
    it reached when it fails.  [usize] is 64 bits wide.  A [BTreeMap] is a [gmap]
    where its order does not matter and a sorted list where it does.  What other
    tasks and the system answer while a step runs is an argument of the step.

    ** Parameters

    SHA-256, hexadecimal, the image codec, the cipher and handshake of the snow
    crate, ChaCha20-Poly1305 and MessagePack are type classes ([ClipboardLibraries],
    [Hashing], [Noise], [NoiseHandshake], [Aead], [FrameCodec]), and so are the TOML
    crate ([TomlText], and [JournalText] for the journal of the audio routing), the Wayland clipboard ([WaylandClipboard]), the notification
    daemon ([Desktop]), the shell ([Shell]) and the Windows clipboard ([WindowsClipboardApi]), with laws in classes of their own;
    each has an instance, used by the witnesses, that shows the laws can hold.  The
    capture backend is the record [Env] of its answers, and writing the notification
    store to disk is a function that may fail.  On Windows what the system answers is the record [Env] of
    [WindowsCapture], a [Moment] for an arm of the session, and [SendInput] a function of the
    calls so far.  [abort_fits] says that the frame which announces an abort fits a packet, as
    every frame of its kind does.  The digests that tell whether a
    notification changed are functions, injective where a theorem says so.

    ** Fuel

    [link_next_loop] is given two passes: a pass either returns, or clears the mark
    that made it refill a queue, so there is no third.  [link_drain] and [drain]
    repeat a call that ends on its own; [snapshot_replicates_history] and the
    transfer theorems give a number of calls that is enough and show that nothing
    is left.  Decimal numbers are printed with as many digits as their type needs.
    Every other recursion is structural.

    ** What is not modelled

    The operating system (D-Bus, sockets, sound servers, the drawing of the tray and of the
    windows), the devices and tasks of audio, the test modes, command lines and
    logs of both applications.  A stream here never loses bytes; a connection that breaks is one
    that is not read further. *)
From stdpp Require Export base tactics numbers option list strings gmap sets relations.
From stdpp Require Import sorting.
From Stdlib Require Export ZArith Lia.
From coqutil Require Import Tactics.RecordEta.
#[global] Open Scope Z_scope.

(** ** Records

    [field_setter getter] is the function that replaces one field of a record: the record with
    [getter] replaced by [v] and the other fields kept. *)
Ltac field_setter getter :=
  lazymatch type of getter with
  | ?R -> ?E =>
      let eta := RecordEta.eta R in
      lazymatch eval pattern getter in eta with
      | ?f _ => let u := eval cbv beta in (fun v : E => f (fun _ => v)) in exact u
      end
  end.

(** ** Results and the control flow of fallible code *)

(** [Result<A, E>] of the source. *)
Inductive result (A E : Type) : Type :=
| Ok (a : A)
| Err (e : E).
Arguments Ok {A E} a.
Arguments Err {A E} e.

#[export] Instance result_eq_dec {A E} `{EqDecision A} `{EqDecision E} :
  EqDecision (result A E).
Proof. solve_decision. Defined.

Definition is_Ok {A E} (r : result A E) : bool :=
  match r with Ok _ => true | Err _ => false end.

(** [Option::ok_or] and [Context::context]. *)
Definition ok_or {A E} (o : option A) (e : E) : result A E :=
  match o with Some a => Ok a | None => Err e end.

(** [Result::map_err]. *)
Definition map_err {A E F} (f : E -> F) (r : result A E) : result A F :=
  match r with Ok a => Ok a | Err e => Err (f e) end.

(** [Option::is_some_and] and [Option::is_none_or]. *)
Definition is_some_and {A} (f : A -> bool) (o : option A) : bool :=
  match o with Some a => f a | None => false end.
Definition is_none_or {A} (f : A -> bool) (o : option A) : bool :=
  match o with Some a => f a | None => true end.

(** [Option::or]. *)
Definition option_or {A} (o p : option A) : option A :=
  match o with Some _ => o | None => p end.

Declare Scope edge_scope.
Delimit Scope edge_scope with edge.

(** [let? x := c in k] is the [?] operator on a pure computation;
    [ensure! b else e ;; k] is [ensure!(b, e)] followed by [k]. *)
Notation "'let?' x ':=' c 'in' k" :=
  (match c with Ok x => k | Err e => Err e end)
  (at level 10, x name, c at level 100, k at level 200) : edge_scope.
Notation "'ensure!' b 'else' e ';;' k" :=
  (if b then k else Err e)
  (at level 10, b at level 99, e at level 99, k at level 200) : edge_scope.
#[global] Open Scope edge_scope.

(** *** A state and error monad

    A method taking [&mut self] and returning [Result<A, E>] keeps the changes
    it made to [self] before it failed, so both outcomes carry the state. *)
Definition stateful (S E A : Type) : Type := S -> S * result A E.

Definition st_ret {S E A} (a : A) : stateful S E A := fun s => (s, Ok a).
Definition st_fail {S E A} (e : E) : stateful S E A := fun s => (s, Err e).
Definition st_get {S E} : stateful S E S := fun s => (s, Ok s).
Definition st_put {S E} (s' : S) : stateful S E unit := fun _ => (s', Ok tt).
Definition st_bind {S E A B} (m : stateful S E A) (k : A -> stateful S E B) :
  stateful S E B :=
  fun s => match m s with
           | (s', Ok a) => k a s'
           | (s', Err e) => (s', Err e)
           end.
Definition st_lift {S E A} (r : result A E) : stateful S E A := fun s => (s, r).
Definition st_ensure {S E} (b : bool) (e : E) : stateful S E unit :=
  if b then st_ret tt else st_fail e.

Notation "x '<-!' m ';;' k" := (st_bind m (fun x => k))
  (at level 100, m at next level, right associativity) : edge_scope.
Notation "'do!' m ';;' k" := (st_bind m (fun _ => k))
  (at level 100, m at next level, right associativity) : edge_scope.

(** ** Machine integers

    A [u8], [u16], [u32], [u64] or [usize] is a [Z] in its range; the target
    is 64-bit, so [usize] has the range of [u64]. *)
Definition u8_max : Z := 2 ^ 8 - 1.
Definition u16_max : Z := 2 ^ 16 - 1.
Definition u32_max : Z := 2 ^ 32 - 1.
Definition u64_max : Z := 2 ^ 64 - 1.
Definition usize_max : Z := u64_max.

Definition in_range (max z : Z) : Prop := 0 <= z <= max.
Abbreviation in_u8 := (in_range u8_max).
Abbreviation in_u16 := (in_range u16_max).
Abbreviation in_u32 := (in_range u32_max).
Abbreviation in_u64 := (in_range u64_max).

Definition saturating_add (max a b : Z) : Z := Z.min max (a + b).
Definition saturating_sub (a b : Z) : Z := Z.max 0 (a - b).
Definition checked_add (max a b : Z) : option Z :=
  if a + b <=? max then Some (a + b) else None.
Definition checked_mul (max a b : Z) : option Z :=
  if a * b <=? max then Some (a * b) else None.
Definition wrapping_add (max a b : Z) : Z := (a + b) mod (max + 1).
Definition wrapping_sub (max a b : Z) : Z := (a - b) mod (max + 1).
(** [x as uN] for a wider unsigned [x]. *)
Definition truncate_to (max a : Z) : Z := a mod (max + 1).
(** [uN::try_from]. *)
Definition try_from (max a : Z) : option Z :=
  if (0 <=? a) && (a <=? max) then Some a else None.

Lemma checked_add_Some max a b c :
  checked_add max a b = Some c <-> c = a + b /\ a + b <= max.
Proof. unfold checked_add. case_match; split; intros; intuition (congruence || lia). Qed.

Lemma checked_add_None max a b : checked_add max a b = None <-> max < a + b.
Proof. unfold checked_add. case_match; split; intros; intuition (congruence || lia). Qed.

(** ** Time

    [Instant] and [Duration] count nanoseconds.  [Instant::duration_since] and
    [saturating_duration_since] both return zero for a later argument. *)
Abbreviation Instant := Z (only parsing).
Abbreviation Duration := Z (only parsing).
Definition from_millis (ms : Z) : Duration := ms * 1000000.
Definition from_secs (s : Z) : Duration := s * 1000000000.
Definition duration_since (now earlier : Instant) : Duration :=
  Z.max 0 (now - earlier).

(** A [BTreeSet] of integers iterates in ascending order. *)
Definition ascending (s : gset Z) : list Z := merge_sort Z.le (elements s).
Lemma elem_of_ascending c s : c ∈ ascending s <-> c ∈ s.
Proof. unfold ascending. rewrite merge_sort_Permutation. apply elem_of_elements. Qed.

(** ** Bytes and strings

    A byte is a [Z] in [0, 255]; a Rust [String] is a [string] of its UTF-8
    bytes. *)
Abbreviation bytes := (list Z) (only parsing).
Definition is_bytes (bs : bytes) : Prop := Forall in_u8 bs.
Definition len {A} (l : list A) : Z := Z.of_nat (length l).

Definition byte_of_ascii (a : Ascii.ascii) : Z := Z.of_N (Ascii.N_of_ascii a).
Definition ascii_of_byte (b : Z) : Ascii.ascii := Ascii.ascii_of_N (Z.to_N b).

Fixpoint str_bytes (s : string) : bytes :=
  match s with
  | EmptyString => []
  | String a s' => byte_of_ascii a :: str_bytes s'
  end.
Fixpoint bytes_str (bs : bytes) : string :=
  match bs with
  | [] => EmptyString
  | b :: bs' => String (ascii_of_byte b) (bytes_str bs')
  end.

(** [String::len]. *)
Definition str_len (s : string) : Z := len (str_bytes s).
Definition str_is_empty (s : string) : bool :=
  match s with EmptyString => true | _ => false end.
(** [str == str]. *)
Definition str_eqb (a b : string) : bool := bool_decide (a = b).

(** A UTF-8 continuation byte. *)
Definition is_cont (b : Z) : bool := (128 <=? b) && (b <=? 191).

(** [str::from_utf8] succeeds: the well-formed byte sequences of the Unicode
    standard, table 3-7. *)
Fixpoint utf8_valid (bs : bytes) : bool :=
  match bs with
  | [] => true
  | b0 :: r =>
      if (0 <=? b0) && (b0 <=? 127) then utf8_valid r
      else if (194 <=? b0) && (b0 <=? 223) then
        match r with b1 :: r1 => is_cont b1 && utf8_valid r1 | _ => false end
      else if (224 <=? b0) && (b0 <=? 239) then
        match r with
        | b1 :: b2 :: r2 =>
            (if b0 =? 224 then (160 <=? b1) && (b1 <=? 191)
             else if b0 =? 237 then (128 <=? b1) && (b1 <=? 159)
             else is_cont b1) && is_cont b2 && utf8_valid r2
        | _ => false
        end
      else if (240 <=? b0) && (b0 <=? 244) then
        match r with
        | b1 :: b2 :: b3 :: r3 =>
            (if b0 =? 240 then (144 <=? b1) && (b1 <=? 191)
             else if b0 =? 244 then (128 <=? b1) && (b1 <=? 143)
             else is_cont b1) && is_cont b2 && is_cont b3 && utf8_valid r3
        | _ => false
        end
      else false
  end.

(** [String::from_utf8]. *)
Definition from_utf8 (bs : bytes) : option string :=
  if utf8_valid bs then Some (bytes_str bs) else None.

(** [s.chars().count()]: the bytes that start a character. *)
Definition chars_count (s : string) : Z :=
  len (List.filter (fun b => negb (is_cont b)) (str_bytes s)).

(** [s.chars().take(n).collect()]. *)
Fixpoint take_chars (n : nat) (s : string) : string :=
  match s with
  | EmptyString => EmptyString
  | String a s' =>
      if is_cont (byte_of_ascii a) then String a (take_chars n s')
      else match n with
           | O => EmptyString
           | S n' => String a (take_chars n' s')
           end
  end.

(** [s.split(sep)] for a single-byte separator. *)
Fixpoint str_split (sep : Ascii.ascii) (s : string) : list string :=
  match s with
  | EmptyString => [EmptyString]
  | String a s' =>
      if Ascii.eqb a sep then EmptyString :: str_split sep s'
      else match str_split sep s' with
           | part :: parts => String a part :: parts
           | [] => [String a EmptyString]
           end
  end.

(** [s.bytes().all(f)]. *)
Definition all_bytes (f : Z -> bool) (s : string) : bool := forallb f (str_bytes s).

Definition starts_with (prefix s : string) : bool := String.prefix prefix s.

Definition is_ascii_digit (b : Z) : bool := (48 <=? b) && (b <=? 57).
Definition is_ascii_alphabetic (b : Z) : bool :=
  ((65 <=? b) && (b <=? 90)) || ((97 <=? b) && (b <=? 122)).
Definition is_ascii_alphanumeric (b : Z) : bool :=
  is_ascii_digit b || is_ascii_alphabetic b.
Definition is_ascii_hexdigit (b : Z) : bool :=
  is_ascii_digit b || ((65 <=? b) && (b <=? 70)) || ((97 <=? b) && (b <=? 102)).

(** *** Big-endian fields: [to_be_bytes] and [from_be_bytes]. *)
Fixpoint be_encode (n : nat) (z : Z) : bytes :=
  match n with
  | O => []
  | S m => Z.shiftr z (8 * Z.of_nat m) mod 256 :: be_encode m z
  end.
Definition be_decode (bs : bytes) : Z := fold_left (fun acc b => acc * 256 + b) bs 0.

(** ** Shared lemmas *)

Section ByteLemmas.
Lemma byte_of_ascii_range a : in_u8 (byte_of_ascii a).
Proof.
  unfold in_range, byte_of_ascii, u8_max.
  pose proof (Ascii.N_ascii_bounded a). lia.
Qed.

Lemma ascii_byte_ascii a : ascii_of_byte (byte_of_ascii a) = a.
Proof.
  unfold ascii_of_byte, byte_of_ascii. rewrite N2Z.id. apply Ascii.ascii_N_embedding.
Qed.

Lemma byte_ascii_byte b : in_u8 b -> byte_of_ascii (ascii_of_byte b) = b.
Proof.
  intros [? ?]. unfold ascii_of_byte, byte_of_ascii, u8_max in *.
  rewrite Ascii.N_ascii_embedding; lia.
Qed.

Lemma bytes_str_bytes s : bytes_str (str_bytes s) = s.
Proof. induction s; simpl; f_equal; auto using ascii_byte_ascii. Qed.

Lemma str_bytes_str bs : is_bytes bs -> str_bytes (bytes_str bs) = bs.
Proof. induction 1; simpl; f_equal; auto using byte_ascii_byte. Qed.

Lemma str_bytes_is_bytes s : is_bytes (str_bytes s).
Proof. induction s; constructor; auto using byte_of_ascii_range. Qed.

Lemma len_nonneg {A} (l : list A) : 0 <= len l.
Proof. unfold len. lia. Qed.

Lemma len_app {A} (l k : list A) : len (l ++ k) = len l + len k.
Proof. unfold len. rewrite length_app. lia. Qed.

Lemma len_cons {A} (x : A) l : len (x :: l) = 1 + len l.
Proof. unfold len. simpl. lia. Qed.

Lemma len_nil {A} : len (@nil A) = 0.
Proof. reflexivity. Qed.

Lemma len_0 {A} (l : list A) : len l = 0 -> l = [].
Proof. destruct l; [done|rewrite len_cons; pose proof (len_nonneg l); lia]. Qed.

(** Well-formed UTF-8 consists of bytes. *)
Lemma utf8_valid_is_bytes bs : utf8_valid bs = true -> is_bytes bs.
Proof.
  remember (length bs) as n eqn:Hn. assert (length bs <= n)%nat as Hle by lia. clear Hn.
  revert bs Hle. induction n as [|n IH]; intros bs Hle Hv.
  - destruct bs; [constructor|simpl in Hle; lia].
  - destruct bs as [|b0 r]; [constructor|]. cbn [utf8_valid] in Hv. simpl in Hle.
    unfold is_cont in Hv.
    repeat (case_match; try done);
      repeat match goal with
      | H : (_ && _)%bool = true |- _ => apply andb_true_iff in H; destruct H
      | H : (_ <=? _) = true |- _ => apply Z.leb_le in H
      end;
      repeat (constructor; [unfold in_range, u8_max; lia|]); apply IH; simpl in *; auto; lia.
Qed.

Lemma from_utf8_bytes bs s : from_utf8 bs = Some s -> str_bytes s = bs.
Proof.
  unfold from_utf8. destruct (utf8_valid bs) eqn:E; [|done]. intros [= <-].
  by apply str_bytes_str, utf8_valid_is_bytes.
Qed.

Lemma from_utf8_str s : utf8_valid (str_bytes s) = true -> from_utf8 (str_bytes s) = Some s.
Proof. unfold from_utf8. intros ->. by rewrite bytes_str_bytes. Qed.

Lemma len_filter_le {A} (f : A -> bool) (l : list A) : len (List.filter f l) <= len l.
Proof. unfold len. apply Nat2Z.inj_le, filter_length_le. Qed.

Lemma be_encode_length n z : length (be_encode n z) = n.
Proof. induction n; simpl; congruence. Qed.

Lemma len_be_encode n z : len (be_encode n z) = Z.of_nat n.
Proof. unfold len. by rewrite be_encode_length. Qed.

Lemma be_encode_is_bytes n z : is_bytes (be_encode n z).
Proof.
  induction n; simpl; constructor; auto.
  unfold in_range, u8_max. pose proof (Z.mod_pos_bound (Z.shiftr z (8 * Z.of_nat n)) 256).
  lia.
Qed.

Lemma be_fold_acc bs : forall acc,
  fold_left (fun acc b => acc * 256 + b) bs acc = acc * 256 ^ len bs + be_decode bs.
Proof.
  unfold be_decode, len. induction bs as [|b bs IH]; intros acc.
  - simpl. lia.
  - cbn [fold_left length]. rewrite (IH (acc * 256 + b)), (IH (0 * 256 + b)).
    rewrite Nat2Z.inj_succ, Z.pow_succ_r by lia. ring.
Qed.

Lemma be_decode_cons b bs : be_decode (b :: bs) = b * 256 ^ len bs + be_decode bs.
Proof. unfold be_decode at 1. cbn [fold_left]. rewrite be_fold_acc. lia. Qed.

Lemma be_decode_encode n : forall z, be_decode (be_encode n z) = z mod 256 ^ Z.of_nat n.
Proof.
  induction n as [|n IH]; intros z.
  - change (be_decode (be_encode 0 z)) with 0. simpl. by rewrite Z.mod_1_r.
  - cbn [be_encode]. rewrite be_decode_cons, IH, len_be_encode.
    rewrite Z.shiftr_div_pow2 by lia.
    replace (2 ^ (8 * Z.of_nat n)) with (256 ^ Z.of_nat n)
      by (rewrite Z.pow_mul_r by lia; reflexivity).
    rewrite Nat2Z.inj_succ, Z.pow_succ_r by lia.
    rewrite (Z.mul_comm 256), Z.rem_mul_r by lia. ring.
Qed.

Lemma be_decode_encode_small n z :
  0 <= z < 256 ^ Z.of_nat n -> be_decode (be_encode n z) = z.
Proof. intros. rewrite be_decode_encode. by apply Z.mod_small. Qed.

Lemma be_decode_bound bs : is_bytes bs -> 0 <= be_decode bs < 256 ^ len bs.
Proof.
  induction 1 as [|b bs Hb _ IH].
  - change (0 <= 0 < 1). lia.
  - rewrite be_decode_cons, len_cons, Z.pow_add_r by (pose proof (len_nonneg bs); lia).
    unfold in_range, u8_max in Hb. change (256 ^ 1) with 256.
    set (p := 256 ^ len bs) in *. change (2 ^ 8 - 1) with 255 in Hb. nia.
Qed.

Lemma be_encode_shift n : forall m k z, (n <= m)%nat ->
  be_encode n (k * 256 ^ Z.of_nat m + z) = be_encode n z.
Proof.
  induction n as [|n IH]; intros m k z Hm; [done|]. cbn [be_encode].
  rewrite (IH m) by lia. f_equal. rewrite !Z.shiftr_div_pow2 by lia.
  replace (2 ^ (8 * Z.of_nat n)) with (256 ^ Z.of_nat n)
    by (rewrite Z.pow_mul_r by lia; reflexivity).
  replace (Z.of_nat m) with (Z.of_nat (m - S n) + 1 + Z.of_nat n) by lia.
  rewrite !Z.pow_add_r by lia. change (256 ^ 1) with 256.
  set (q := 256 ^ Z.of_nat (m - S n)).
  replace (k * (q * 256 * 256 ^ Z.of_nat n)) with (k * q * 256 * 256 ^ Z.of_nat n) by ring.
  rewrite Z.div_add_l by lia. rewrite Z.add_comm. apply Z.mod_add. lia.
Qed.

Lemma be_encode_decode bs : is_bytes bs -> be_encode (length bs) (be_decode bs) = bs.
Proof.
  induction 1 as [|b bs Hb Hbs IH]; [done|]. cbn [length be_encode].
  rewrite be_decode_cons. unfold len. rewrite be_encode_shift, IH by lia. f_equal.
  rewrite Z.shiftr_div_pow2 by lia.
  replace (2 ^ (8 * Z.of_nat (length bs))) with (256 ^ Z.of_nat (length bs))
    by (rewrite Z.pow_mul_r by lia; reflexivity).
  pose proof (be_decode_bound bs Hbs) as Hd. unfold len in Hd.
  rewrite Z.div_add_l, Z.div_small, Z.add_0_r by lia.
  unfold in_range, u8_max in Hb. apply Z.mod_small. lia.
Qed.
End ByteLemmas.

Section TimeLemmas.
Lemma duration_since_nonneg now t : 0 <= duration_since now t.
Proof. unfold duration_since. lia. Qed.

Lemma duration_since_mono now now' t :
  now <= now' -> duration_since now t <= duration_since now' t.
Proof. unfold duration_since. lia. Qed.
End TimeLemmas.

(** A [usize] length fits the range of a length. *)
Lemma wrapping_add_small max a b :
  0 <= a -> 0 <= b -> a + b <= max -> wrapping_add max a b = a + b.
Proof. intros. unfold wrapping_add. apply Z.mod_small. lia. Qed.

Lemma truncate_to_small max a : 0 <= a <= max -> truncate_to max a = a.
Proof. intros. unfold truncate_to. apply Z.mod_small. lia. Qed.

Lemma str_eqb_spec a b : str_eqb a b = true <-> a = b.
Proof. unfold str_eqb. apply bool_decide_eq_true. Qed.

Lemma str_eqb_refl a : str_eqb a a = true.
Proof. by apply str_eqb_spec. Qed.

Lemma str_eqb_neq a b : str_eqb a b = false <-> a <> b.
Proof. unfold str_eqb. apply bool_decide_eq_false. Qed.

Lemma str_len_nonneg s : 0 <= str_len s.
Proof. apply len_nonneg. Qed.

(** ** Automation *)

Create HintDb edge.
#[export] Hint Resolve len_nonneg str_len_nonneg duration_since_nonneg
  str_bytes_is_bytes be_encode_is_bytes str_eqb_refl : edge.
Create HintDb edge_rw.
#[export] Hint Rewrite @len_app @len_cons @len_nil len_be_encode bytes_str_bytes
  str_eqb_refl : edge_rw.

(** Turns the boolean tests in hypotheses and goal into propositions. *)
Ltac reflect_bools :=
  repeat match goal with
  | H : andb _ _ = true |- _ => apply andb_true_iff in H; destruct H
  | H : orb _ _ = false |- _ => apply orb_false_iff in H; destruct H
  | H : andb _ _ = false |- _ => apply andb_false_iff in H
  | H : orb _ _ = true |- _ => apply orb_true_iff in H
  | H : negb _ = true |- _ => apply negb_true_iff in H
  | H : negb _ = false |- _ => apply negb_false_iff in H
  | H : Z.ltb _ _ = true |- _ => apply Z.ltb_lt in H
  | H : Z.ltb _ _ = false |- _ => apply Z.ltb_ge in H
  | H : Z.leb _ _ = true |- _ => apply Z.leb_le in H
  | H : Z.leb _ _ = false |- _ => apply Z.leb_gt in H
  | H : Z.eqb _ _ = true |- _ => apply Z.eqb_eq in H
  | H : Z.eqb _ _ = false |- _ => apply Z.eqb_neq in H
  | H : str_eqb _ _ = true |- _ => apply str_eqb_spec in H
  | H : str_eqb _ _ = false |- _ => apply str_eqb_neq in H
  | H : bool_decide _ = true |- _ => apply bool_decide_eq_true in H
  | H : bool_decide _ = false |- _ => apply bool_decide_eq_false in H
  | |- andb _ _ = true => apply andb_true_iff; split
  | |- orb _ _ = false => apply orb_false_iff; split
  | |- negb _ = true => apply negb_true_iff
  | |- negb _ = false => apply negb_false_iff
  | |- Z.ltb _ _ = true => apply Z.ltb_lt
  | |- Z.ltb _ _ = false => apply Z.ltb_ge
  | |- Z.leb _ _ = true => apply Z.leb_le
  | |- Z.leb _ _ = false => apply Z.leb_gt
  | |- Z.eqb _ _ = true => apply Z.eqb_eq
  | |- Z.eqb _ _ = false => apply Z.eqb_neq
  | |- bool_decide _ = true => apply bool_decide_eq_true
  | |- bool_decide _ = false => apply bool_decide_eq_false
  end.

(** Case analysis on every test left in the goal, discarding the impossible
    branches. *)
Ltac cases :=
  repeat (case_match; simplify_eq/=; try done).

(** The same on a hypothesis [H] describing the outcome of an operation. *)
Ltac cases_in H :=
  repeat (match type of H with context [match ?x with _ => _ end] => destruct x eqn:? end;
          simplify_eq/=; try done).

Lemma st_bind_Ok {S E A B} (m : stateful S E A) (k : A -> stateful S E B) s s' b :
  st_bind m k s = (s', Ok b) <->
  exists s1 a, m s = (s1, Ok a) /\ k a s1 = (s', Ok b).
Proof. unfold st_bind. destruct (m s) as [? []]; naive_solver. Qed.

(** A failure kept as a value: a result that is looked at later. *)
Definition attempt {S E F A} (m : stateful S E A) : stateful S F (result A E) :=
  fun s => let r := m s in (r.1, Ok r.2).

(** *** What a computation changes

    A computation stays within a reflexive and transitive relation of the states before and after,
    whether it fails or not. *)
Definition within {S E A} (R : S -> S -> Prop) (m : stateful S E A) : Prop := forall s, R s (m s).1.

Section Within.
Context {S E : Type} (R : S -> S -> Prop) `{!PreOrder R}.

Lemma within_at {A} (m : stateful S E A) s : within R m -> R s (m s).1.
Proof. intros Hm. apply Hm. Qed.
Lemma within_ret {A} (a : A) : within R (st_ret a : stateful S E A).
Proof. by intros s. Qed.
Lemma within_get : within R (st_get : stateful S E S).
Proof. by intros s. Qed.
Lemma within_fail {A} (e : E) : within R (st_fail e : stateful S E A).
Proof. by intros s. Qed.
Lemma within_lift {A} (r : result A E) : within R (st_lift r : stateful S E A).
Proof. by intros s. Qed.
Lemma within_ensure (b : bool) (e : E) : within R (st_ensure b e : stateful S E unit).
Proof. by destruct b; intros s. Qed.
Lemma within_bind {A B} (m : stateful S E A) (k : A -> stateful S E B) :
  within R m -> (forall a, within R (k a)) -> within R (st_bind m k).
Proof.
  intros Hm Hk s. unfold st_bind. specialize (Hm s).
  destruct (m s) as [s1 [a|e]]; [|done]. etrans; [exact Hm|apply Hk].
Qed.
Lemma within_if {A} (b : bool) (m k : stateful S E A) :
  within R m -> within R k -> within R (if b then m else k).
Proof. by destruct b. Qed.
Lemma within_attempt {F A} (m : stateful S F A) : within R m ->
  within R (attempt m : stateful S E (result A F)).
Proof. intros Hm s. apply Hm. Qed.
End Within.

(** Takes the first step off a computation that succeeded. *)
Ltac unbind E s x E1 := apply st_bind_Ok in E; destruct E as (s & x & E1 & E).

(** A computation that keeps an invariant [I], moves only within [R] and returns what [Q] says:
    [keeps] whatever it returns, [succeeds] when it does not fail. *)
Section Keeps.
Context {S E : Type} (I : S -> Prop) (R : S -> S -> Prop) `{!PreOrder R}.

Definition keeps {A} (Q : A -> Prop) (m : stateful S E A) : Prop := forall s, I s ->
  I (m s).1 /\ R s (m s).1 /\ match (m s).2 with Ok a => Q a | Err _ => True end.
Definition succeeds {A} (Q : A -> Prop) (m : stateful S E A) : Prop := forall s s' a, I s ->
  m s = (s', Ok a) -> I s' /\ R s s' /\ Q a.

Lemma keeps_succeeds {A} (Q : A -> Prop) m : keeps Q m -> succeeds Q m.
Proof. intros Hm s s' a Hs E1. specialize (Hm s Hs). by rewrite E1 in Hm. Qed.
Lemma keeps_weaken {A} (Q Q' : A -> Prop) m : (forall a, Q a -> Q' a) -> keeps Q m -> keeps Q' m.
Proof.
  intros HQ Hm s Hs. destruct (Hm s Hs) as (H1 & H2 & H3). split_and!; auto.
  destruct (m s).2; auto.
Qed.
Lemma keeps_ret {A} (Q : A -> Prop) a : Q a -> keeps Q (st_ret a).
Proof. by intros Ha s Hs. Qed.
Lemma keeps_fail {A} (Q : A -> Prop) e : keeps Q (st_fail e).
Proof. by intros s Hs. Qed.
Lemma keeps_lift {A} (Q : A -> Prop) (r : result A E) : (forall a, r = Ok a -> Q a) ->
  keeps Q (st_lift r).
Proof. intros Hr s Hs. split_and!; [done|done|]. cbn. destruct r; auto. Qed.
Lemma keeps_bind {A B} (P : A -> Prop) (Q : B -> Prop) (m : stateful S E A) (k : A -> stateful S E B) :
  keeps P m -> (forall a, P a -> keeps Q (k a)) -> keeps Q (st_bind m k).
Proof.
  intros Hm Hk s Hs. unfold st_bind. destruct (Hm s Hs) as (H1 & H2 & H3).
  destruct (m s) as [s1 [a|e]]; cbn in *; [|done].
  destruct (Hk a H3 s1 H1) as (H4 & H5 & H6). split_and!; [done| |done]. by etrans.
Qed.
Lemma keeps_attempt {A} (Q : A -> Prop) (m : stateful S E A) : keeps Q m ->
  keeps (fun r => match r with Ok a => Q a | Err _ => True end)
        (attempt m : stateful S E (result A E)).
Proof. intros Hm s Hs. by destruct (Hm s Hs) as (H1 & H2 & H3). Qed.

Lemma succeeds_weaken {A} (Q Q' : A -> Prop) m :
  (forall a, Q a -> Q' a) -> succeeds Q m -> succeeds Q' m.
Proof. intros HQ Hm s s' a Hs E1. destruct (Hm s s' a Hs E1) as (?&?&?). auto. Qed.
Lemma succeeds_bind {A B} (P : A -> Prop) (Q : B -> Prop) (m : stateful S E A)
    (k : A -> stateful S E B) :
  succeeds P m -> (forall a, P a -> succeeds Q (k a)) -> succeeds Q (st_bind m k).
Proof.
  intros Hm Hk s s' b Hs. unfold st_bind. destruct (m s) as [s1 [a|e]] eqn:E1; [|done].
  destruct (Hm s s1 a Hs E1) as (H1 & H2 & H3). intros E2.
  destruct (Hk a H3 s1 s' b H1 E2) as (H4 & H5 & H6). split_and!; [done| |done]. by etrans.
Qed.
End Keeps.

(** *** Triples

    From a state with [P] the computation ends in one with [Q] of its result, or fails in one
    with [X]. *)
Definition hoare {S E A} (P : S -> Prop) (m : stateful S E A) (Q : A -> S -> Prop)
    (X : S -> Prop) : Prop :=
  forall s, P s -> match (m s).2 with Ok a => Q a (m s).1 | Err _ => X (m s).1 end.

Section Triples.
Context {S E : Type}.
Implicit Types P X : S -> Prop.

Lemma hoare_ret {A} P (Q : A -> S -> Prop) X (a : A) :
  (forall s, P s -> Q a s) -> hoare P (st_ret a : stateful S E A) Q X.
Proof. intros H s. apply H. Qed.
Lemma hoare_fail {A} P (Q : A -> S -> Prop) X (e : E) :
  (forall s, P s -> X s) -> hoare P (st_fail e : stateful S E A) Q X.
Proof. intros H s. apply H. Qed.
Lemma hoare_get P (Q : S -> S -> Prop) X :
  (forall s, P s -> Q s s) -> hoare P (st_get : stateful S E S) Q X.
Proof. intros H s. apply H. Qed.
Lemma hoare_bind {A B} P (Q : A -> S -> Prop) (R : B -> S -> Prop) X
    (m : stateful S E A) (k : A -> stateful S E B) :
  hoare P m Q X -> (forall a, hoare (Q a) (k a) R X) -> hoare P (st_bind m k) R X.
Proof.
  intros Hm Hk s Hs. specialize (Hm s Hs). unfold st_bind.
  destruct (m s) as [s1 [a|e]]; cbn in *; [by apply Hk|done].
Qed.
Lemma hoare_weaken {A} (P P' : S -> Prop) (Q Q' : A -> S -> Prop) (X X' : S -> Prop)
    (m : stateful S E A) :
  hoare P m Q X -> (forall s, P' s -> P s) -> (forall a s, Q a s -> Q' a s) ->
  (forall s, X s -> X' s) -> hoare P' m Q' X'.
Proof.
  intros Hm HP HQ HX s Hs. specialize (Hm s (HP s Hs)). destruct (m s) as [s1 [a|e]]; cbn in *; auto.
Qed.
Lemma hoare_attempt {F A} P (Q : A -> S -> Prop) X (m : stateful S F A) :
  hoare P m Q X ->
  hoare P (attempt m : stateful S E (result A F))
    (fun r s => match r with Ok a => Q a s | Err _ => X s end) X.
Proof. intros Hm s Hs. specialize (Hm s Hs). cbn. by destruct (m s) as [s1 [a|e]]. Qed.
End Triples.

(** One step of following the structure of a computation. *)
Ltac within_step :=
  match goal with
  | |- within _ (st_bind _ _) => apply within_bind; [apply _| |intros]
  | |- within _ (st_ret _) => apply within_ret; apply _
  | |- within _ st_get => apply within_get; apply _
  | |- within _ (st_fail _) => apply within_fail; apply _
  | |- within _ (st_lift _) => apply within_lift; apply _
  | |- within _ (st_ensure _ _) => apply within_ensure; apply _
  | |- within _ (attempt _) => apply within_attempt
  | |- within _ (if ?b then _ else _) => destruct b
  | |- within _ (match ?x with _ => _ end) => destruct x
  end.
