(* ===== verification/Text.v ===== *)
(** * Text: the string operations of the standard library the components share

    [str::trim], [lines], [split_once], [rsplit_once], [strip_prefix], [contains],
    [String::from_utf8_lossy], and the decimal integers of [format!] and
    [str::parse].  Strings are UTF-8 bytes, as in [Prelude]. *)
From S2P Require Export Prelude.

(** ** Searching and splitting *)

(** [s.strip_prefix(prefix)]. *)
Fixpoint str_strip_prefix (prefix s : string) : option string :=
  match prefix, s with
  | EmptyString, _ => Some s
  | String a p, String b r => if Ascii.eqb a b then str_strip_prefix p r else None
  | String _ _, EmptyString => None
  end.

(** [s.split_once(sep)]: around the first occurrence. *)
Fixpoint split_once (sep s : string) : option (string * string) :=
  match str_strip_prefix sep s with
  | Some rest => Some (EmptyString, rest)
  | None =>
      match s with
      | EmptyString => None
      | String a r =>
          match split_once sep r with
          | Some (before, after) => Some (String a before, after)
          | None => None
          end
      end
  end.

(** [s.rsplit_once(sep)] for a single-byte separator: around the last occurrence. *)
Fixpoint rsplit_once (sep : Ascii.ascii) (s : string) : option (string * string) :=
  match s with
  | EmptyString => None
  | String a r =>
      match rsplit_once sep r with
      | Some (before, after) => Some (String a before, after)
      | None => if Ascii.eqb a sep then Some (EmptyString, r) else None
      end
  end.

(** [s.contains(c)] for a single-byte character. *)
Fixpoint str_contains (c : Ascii.ascii) (s : string) : bool :=
  match s with
  | EmptyString => false
  | String a r => Ascii.eqb a c || str_contains c r
  end.

(** [s.ends_with(c)] for a single-byte character. *)
Fixpoint ends_with (c : Ascii.ascii) (s : string) : bool :=
  match s with
  | EmptyString => false
  | String a EmptyString => Ascii.eqb a c
  | String _ r => ends_with c r
  end.

(** [str::replace] of a single-byte character. *)
Fixpoint replace_char (c : Ascii.ascii) (by_ : string) (s : string) : string :=
  match s with
  | EmptyString => EmptyString
  | String a r => if Ascii.eqb a c then (by_ ++ replace_char c by_ r)%string
                  else String a (replace_char c by_ r)
  end.

(** [parts.join(sep)]. *)
Definition str_join (sep : string) (parts : list string) : string := String.concat sep parts.

(** ** Whitespace: [char::is_whitespace], in UTF-8 *)

Definition is_space1 (b : Z) : bool := ((9 <=? b) && (b <=? 13)) || (b =? 32).
(** U+0085 and U+00A0. *)
Definition is_space2 (b0 b1 : Z) : bool := (b0 =? 194) && ((b1 =? 133) || (b1 =? 160)).
(** U+1680, U+2000 to U+200A, U+2028, U+2029, U+202F, U+205F and U+3000. *)
Definition is_space3 (b0 b1 b2 : Z) : bool :=
  ((b0 =? 225) && (b1 =? 154) && (b2 =? 128))
  || ((b0 =? 226) && (b1 =? 128)
      && (((128 <=? b2) && (b2 <=? 138)) || (b2 =? 168) || (b2 =? 169) || (b2 =? 175)))
  || ((b0 =? 226) && (b1 =? 129) && (b2 =? 159))
  || ((b0 =? 227) && (b1 =? 128) && (b2 =? 128)).

(** The bytes after the leading whitespace; [flip] reads the bytes of a character backwards,
    to trim the reversed string. *)
Fixpoint trim_bytes (flip : bool) (bs : bytes) : bytes :=
  match bs with
  | [] => []
  | b0 :: r0 =>
      if is_space1 b0 then trim_bytes flip r0
      else match r0 with
           | [] => bs
           | b1 :: r1 =>
               if (if flip then is_space2 b1 b0 else is_space2 b0 b1) then trim_bytes flip r1
               else match r1 with
                    | [] => bs
                    | b2 :: r2 =>
                        if (if flip then is_space3 b2 b1 b0 else is_space3 b0 b1 b2)
                        then trim_bytes flip r2 else bs
                    end
           end
  end.

(** [s.trim_start()], [s.trim_end()] and [s.trim()]. *)
Definition trim_start (s : string) : string := bytes_str (trim_bytes false (str_bytes s)).
Definition trim_end (s : string) : string :=
  bytes_str (reverse (trim_bytes true (reverse (str_bytes s)))).
Definition trim (s : string) : string := trim_end (trim_start s).

(** [s.split_whitespace()]: the runs of other characters; [word] is the current one. *)
Fixpoint words_of (word bs : bytes) : list bytes :=
  let flush := match word with [] => [] | _ => [word] end in
  match bs with
  | [] => flush
  | b0 :: r0 =>
      if is_space1 b0 then flush ++ words_of [] r0
      else match r0 with
           | [] => words_of (word ++ [b0]) r0
           | b1 :: r1 =>
               if is_space2 b0 b1 then flush ++ words_of [] r1
               else match r1 with
                    | [] => words_of (word ++ [b0]) r0
                    | b2 :: r2 =>
                        if is_space3 b0 b1 b2 then flush ++ words_of [] r2
                        else words_of (word ++ [b0]) r0
                    end
           end
  end.
Definition split_whitespace (s : string) : list string := map bytes_str (words_of [] (str_bytes s)).

(** [u8::to_ascii_lowercase], of the bytes of a string and of the words of Windows. *)
Definition to_ascii_lowercase (w : Z) : Z := if (65 <=? w) && (w <=? 90) then w + 32 else w.
Definition str_to_ascii_lowercase (s : string) : string :=
  bytes_str (map to_ascii_lowercase (str_bytes s)).

Definition newline : Ascii.ascii := ascii_of_byte 10.
Definition carriage_return : Ascii.ascii := ascii_of_byte 13.

(** [s.lines()]: a line loses one carriage return before its newline, and a last empty line is
    not a line. *)
Fixpoint strip_cr (line : string) : string :=
  match line with
  | EmptyString => EmptyString
  | String a EmptyString => if Ascii.eqb a carriage_return then EmptyString else line
  | String a r => String a (strip_cr r)
  end.
Fixpoint lines_of (parts : list string) : list string :=
  match parts with
  | [] => []
  | [last] => if str_is_empty last then [] else [last]
  | line :: rest => strip_cr line :: lines_of rest
  end.
Definition str_lines (s : string) : list string := lines_of (str_split newline s).

(** ** [String::from_utf8_lossy]

    Each maximal prefix of a well-formed sequence that the input breaks off, and each byte that
    starts none, becomes U+FFFD. *)
Definition replacement : bytes := [239; 191; 189].

Definition second_ok (b0 b1 : Z) : bool :=
  if b0 =? 224 then (160 <=? b1) && (b1 <=? 191)
  else if b0 =? 237 then (128 <=? b1) && (b1 <=? 159)
  else if b0 =? 240 then (144 <=? b1) && (b1 <=? 191)
  else if b0 =? 244 then (128 <=? b1) && (b1 <=? 143)
  else is_cont b1.

Fixpoint lossy_bytes (bs : bytes) : bytes :=
  match bs with
  | [] => []
  | b0 :: r0 =>
      if b0 <=? 127 then b0 :: lossy_bytes r0
      else if (194 <=? b0) && (b0 <=? 244) then
        match r0 with
        | [] => replacement
        | b1 :: r1 =>
            if second_ok b0 b1 then
              if b0 <=? 223 then b0 :: b1 :: lossy_bytes r1
              else match r1 with
                   | [] => replacement
                   | b2 :: r2 =>
                       if is_cont b2 then
                         if b0 <=? 239 then b0 :: b1 :: b2 :: lossy_bytes r2
                         else match r2 with
                              | [] => replacement
                              | b3 :: r3 =>
                                  if is_cont b3 then b0 :: b1 :: b2 :: b3 :: lossy_bytes r3
                                  else replacement ++ lossy_bytes r2
                              end
                       else replacement ++ lossy_bytes r1
                   end
            else replacement ++ lossy_bytes r0
        end
      else replacement ++ lossy_bytes r0
  end.
Definition from_utf8_lossy (bs : bytes) : string := bytes_str (lossy_bytes bs).

(** ** Decimal integers *)

(** [n.to_string()] for [0 <= n < 10 ^ fuel]. *)
Fixpoint dec_digits (fuel : nat) (n : Z) (rest : string) : string :=
  match fuel with
  | O => rest
  | S f =>
      let s := String (ascii_of_byte (48 + n mod 10)) rest in
      if n <? 10 then s else dec_digits f (n / 10) s
  end.
(** A [u64] has at most twenty digits. *)
Definition print_dec (n : Z) : string := dec_digits 20 n EmptyString.

Fixpoint dec_value (acc : Z) (s : string) : option Z :=
  match s with
  | EmptyString => Some acc
  | String a r =>
      let b := byte_of_ascii a in
      if is_ascii_digit b then dec_value (acc * 10 + (b - 48)) r else None
  end.
(** [s.parse::<uN>()]: an optional plus sign, at least one digit, no overflow. *)
Definition parse_dec (max : Z) (s : string) : option Z :=
  let digits := match s with
                | String a r => if byte_of_ascii a =? 43 then r else s
                | EmptyString => s
                end in
  if str_is_empty digits then None
  else match dec_value 0 digits with
       | Some n => if n <=? max then Some n else None
       | None => None
       end.

(** ** Lemmas *)

Section Splitting.
Lemma str_length_app a b :
  String.length (a ++ b)%string = (String.length a + String.length b)%nat.
Proof. induction a as [|x a IH]; [done|]. simpl. by rewrite IH. Qed.

Lemma str_bytes_app a b : str_bytes (a ++ b)%string = str_bytes a ++ str_bytes b.
Proof. induction a as [|x a IH]; [done|]. simpl. by rewrite IH. Qed.

Lemma str_bytes_length s : length (str_bytes s) = String.length s.
Proof. induction s; simpl; congruence. Qed.

Lemma all_bytes_app f a b : all_bytes f (a ++ b)%string = all_bytes f a && all_bytes f b.
Proof. unfold all_bytes. by rewrite str_bytes_app, forallb_app. Qed.

Lemma str_app_cons x a b : (String x a ++ b = String x (a ++ b))%string.
Proof. reflexivity. Qed.

Lemma str_app_assoc a b c : ((a ++ b) ++ c = a ++ (b ++ c))%string.
Proof. induction a as [|x a IH]; [done|]. by rewrite !str_app_cons, IH. Qed.

Lemma str_app_nil_r a : (a ++ "" = a)%string.
Proof. induction a as [|x a IH]; [done|]. by rewrite str_app_cons, IH. Qed.

(** Splitting at a separator that a part does not hold. *)
Lemma replace_char_app c by_ a b :
  replace_char c by_ (a ++ b)%string = (replace_char c by_ a ++ replace_char c by_ b)%string.
Proof.
  induction a as [|x a IH]; [done|]. rewrite str_app_cons. cbn [replace_char].
  destruct (Ascii.eqb x c); rewrite IH; [by rewrite str_app_assoc|by rewrite str_app_cons].
Qed.

Lemma str_split_part sep s rest :
  all_bytes (fun b => negb (b =? byte_of_ascii sep)) s = true ->
  str_split sep (s ++ String sep rest)%string = s :: str_split sep rest.
Proof.
  unfold all_bytes. induction s as [|a s IH]; cbn [str_bytes forallb]; intros Hs.
  - simpl. by rewrite Ascii.eqb_refl.
  - apply andb_true_iff in Hs as [Ha Hs]. simpl. rewrite (IH Hs).
    destruct (Ascii.eqb_spec a sep) as [->|]; [|done]. by rewrite Z.eqb_refl in Ha.
Qed.

Lemma str_split_last sep s :
  all_bytes (fun b => negb (b =? byte_of_ascii sep)) s = true -> str_split sep s = [s].
Proof.
  unfold all_bytes. induction s as [|a s IH]; cbn [str_bytes forallb]; [done|].
  intros [Ha Hs]%andb_true_iff. simpl. rewrite (IH Hs).
  destruct (Ascii.eqb_spec a sep) as [->|]; [|done]. by rewrite Z.eqb_refl in Ha.
Qed.

Lemma all_bytes_impl (f g : Z -> bool) s :
  (forall b, f b = true -> g b = true) -> all_bytes f s = true -> all_bytes g s = true.
Proof.
  unfold all_bytes. rewrite !forallb_forall. auto.
Qed.

Lemma str_contains_app c a b : str_contains c (a ++ b)%string = str_contains c a || str_contains c b.
Proof.
  induction a as [|x a IH]; [done|]. rewrite str_app_cons. cbn [str_contains].
  by rewrite IH, orb_assoc.
Qed.

Lemma strip_prefix_app p s : str_strip_prefix p (p ++ s) = Some s.
Proof.
  induction p as [|a p IH]; [done|]. rewrite str_app_cons. cbn [str_strip_prefix].
  by rewrite Ascii.eqb_refl.
Qed.

Lemma strip_prefix_Some p s r : str_strip_prefix p s = Some r <-> s = (p ++ r)%string.
Proof.
  split; [|intros ->; apply strip_prefix_app].
  revert s; induction p as [|a p IH]; intros s Hs.
  - assert (s = r) as -> by (by destruct s; injection Hs). done.
  - destruct s as [|b s]; simpl in Hs; [done|].
    destruct (Ascii.eqb a b) eqn:E; [|done]. apply Ascii.eqb_eq in E as ->.
    rewrite str_app_cons. f_equal; auto.
Qed.

(** Splitting at a separator whose first byte the first part does not contain. *)
Lemma split_once_app c sep before after :
  str_contains c before = false ->
  split_once (String c sep) (before ++ String c sep ++ after) = Some (before, after).
Proof.
  induction before as [|a before IH]; cbn [str_contains]; intros Hc.
  - change ("" ++ String c sep ++ after)%string with (String c (sep ++ after)).
    cbn [split_once str_strip_prefix]. by rewrite Ascii.eqb_refl, strip_prefix_app.
  - apply orb_false_iff in Hc as [Ha Hb].
    rewrite str_app_cons. cbn [split_once str_strip_prefix].
    assert (Ascii.eqb c a = false) as -> by (by rewrite Ascii.eqb_sym).
    by rewrite IH.
Qed.

Lemma split_once_char c before after :
  str_contains c before = false ->
  split_once (String c EmptyString) (before ++ String c after) = Some (before, after).
Proof. apply (split_once_app c EmptyString). Qed.

Lemma split_once_none c s : str_contains c s = false -> split_once (String c EmptyString) s = None.
Proof.
  induction s as [|a s IH]; simpl; [done|]. intros Hc. apply orb_false_iff in Hc as [Ha Hb].
  assert (Ascii.eqb c a = false) as -> by (by rewrite Ascii.eqb_sym).
  by rewrite IH.
Qed.

(** Splitting at the last occurrence of a byte. *)
Lemma rsplit_once_char c before after :
  str_contains c after = false ->
  rsplit_once c (before ++ String c after) = Some (before, after).
Proof.
  intros Hc. assert (rsplit_once c after = None) as Hn.
  { induction after as [|a after IH]; simpl in *; [done|].
    apply orb_false_iff in Hc as [Ha Hb]. by rewrite IH, Ha. }
  induction before as [|a before IH].
  - change ("" ++ String c after)%string with (String c after). cbn [rsplit_once].
    by rewrite Hn, Ascii.eqb_refl.
  - rewrite str_app_cons. cbn [rsplit_once]. by rewrite IH.
Qed.

Lemma rsplit_once_Some c s before after :
  rsplit_once c s = Some (before, after) -> s = (before ++ String c after)%string.
Proof.
  revert before. induction s as [|a s IH]; intros before Hs; simpl in *; [done|].
  destruct (rsplit_once c s) as [[b r]|].
  - injection Hs as <- <-. rewrite str_app_cons. f_equal. by apply IH.
  - destruct (Ascii.eqb a c) eqn:E; [|done]. apply Ascii.eqb_eq in E as ->.
    by injection Hs as <- <-.
Qed.
End Splitting.

Section Whitespace.
(** Text without a whitespace byte at its ends is its own trimming; a byte that starts or ends
    a wider space is not ASCII. *)
Definition trimmed_byte (b : Z) : bool := (0 <=? b) && (b <=? 127) && negb (is_space1 b).

Lemma trim_bytes_id flip b bs : trimmed_byte b = true -> trim_bytes flip (b :: bs) = b :: bs.
Proof.
  unfold trimmed_byte. intros Hb. reflect_bools. cbn [trim_bytes].
  assert (forall x, is_space2 b x = false) as H2b
    by (intros; unfold is_space2; destruct (Z.eqb_spec b 194); lia || done).
  assert (forall x, is_space2 x b = false) as H2e.
  { intros x. unfold is_space2. destruct (Z.eqb_spec b 133), (Z.eqb_spec b 160); lia. }
  assert (forall x y, is_space3 b x y = false /\ is_space3 y x b = false) as H3.
  { intros x y. unfold is_space3. split.
    - destruct (Z.eqb_spec b 225), (Z.eqb_spec b 226), (Z.eqb_spec b 227); try lia; done.
    - destruct (Z.eqb_spec b 128), (Z.leb_spec 128 b), (Z.eqb_spec b 168), (Z.eqb_spec b 169),
        (Z.eqb_spec b 175), (Z.eqb_spec b 159); lia. }
  destruct (is_space1 b); [done|].
  destruct bs as [|b1 [|b2 r]]; [done|by rewrite H2b, H2e; destruct flip|].
  rewrite H2b, H2e. destruct (H3 b1 b2) as [-> ->]. by destruct flip.
Qed.
End Whitespace.

Section Lossy.
Lemma bytes_str_app a b : bytes_str (a ++ b) = (bytes_str a ++ bytes_str b)%string.
Proof. induction a as [|x a IH]; [done|]. cbn. by rewrite IH. Qed.

(** Well-formed text is read as it is. *)
Lemma lossy_valid n : forall bs, (length bs <= n)%nat -> utf8_valid bs = true -> lossy_bytes bs = bs.
Proof.
  induction n as [|n IH]; intros bs Hn Hv; [by destruct bs; simpl in Hn; [|lia]|].
  destruct bs as [|b0 r0]; [done|]. cbn [utf8_valid] in Hv. simpl in Hn.
  cbn [lossy_bytes]. unfold second_ok, is_cont in *.
  repeat (case_match; try done); reflect_bools; subst; try lia;
    repeat match goal with
    | |- _ :: _ = _ :: _ => f_equal
    | |- lossy_bytes _ = _ => apply IH; [simpl in *; lia|assumption]
    end; try lia; try (exfalso; intuition lia).
Qed.

Lemma from_utf8_lossy_str s : utf8_valid (str_bytes s) = true -> from_utf8_lossy (str_bytes s) = s.
Proof.
  intros Hv. unfold from_utf8_lossy. rewrite (lossy_valid _ _ (Nat.le_refl _) Hv).
  apply bytes_str_bytes.
Qed.
End Lossy.

Section Decimal.
Lemma digit_byte d : 0 <= d < 10 -> byte_of_ascii (ascii_of_byte (48 + d)) = 48 + d.
Proof. intros. apply byte_ascii_byte. unfold in_range, u8_max. lia. Qed.

Lemma dec_digits_value fuel : forall n rest acc, 0 <= n < 10 ^ Z.of_nat fuel ->
  exists k, dec_value acc (dec_digits fuel n rest) = dec_value (acc * k + n) rest.
Proof.
  induction fuel as [|fuel IH]; intros n rest acc Hn.
  - change (10 ^ Z.of_nat 0) with 1 in Hn. exists 1. simpl. f_equal. lia.
  - cbn [dec_digits]. pose proof (Z.mod_pos_bound n 10).
    assert (forall a, dec_value a (String (ascii_of_byte (48 + n mod 10)) rest)
                      = dec_value (a * 10 + n mod 10) rest) as Hd.
    { intros a. cbn [dec_value]. rewrite digit_byte by lia. unfold is_ascii_digit.
      destruct (_ && _) eqn:E; [f_equal; lia|].
      apply andb_false_iff in E as [E|E]; apply Z.leb_gt in E; lia. }
    destruct (Z.ltb_spec n 10).
    + exists 10. rewrite Hd, Z.mod_small by lia. done.
    + rewrite Nat2Z.inj_succ, Z.pow_succ_r in Hn by lia.
      destruct (IH (n / 10) (String (ascii_of_byte (48 + n mod 10)) rest) acc) as [k ->].
      { split; [apply Z.div_pos; lia|]. apply Z.div_lt_upper_bound; lia. }
      exists (k * 10). rewrite Hd. f_equal. pose proof (Z.div_mod n 10). lia.
Qed.

(** The first byte written is a digit, and the text is not empty. *)
Lemma dec_digits_head fuel : forall n rest, (0 < fuel)%nat -> 0 <= n ->
  exists a r, dec_digits fuel n rest = String a r /\ is_ascii_digit (byte_of_ascii a) = true.
Proof.
  induction fuel as [|fuel IH]; intros n rest Hf Hn; [lia|]. cbn [dec_digits].
  assert (is_ascii_digit (byte_of_ascii (ascii_of_byte (48 + n mod 10))) = true) as Hd.
  { pose proof (Z.mod_pos_bound n 10). rewrite digit_byte by lia. unfold is_ascii_digit.
    apply andb_true_iff. split; apply Z.leb_le; lia. }
  destruct (n <? 10); [by eexists _, _|]. destruct fuel as [|fuel]; [by eexists _, _|].
  apply IH; [lia|]. apply Z.div_pos; lia.
Qed.

(** [n.to_string().parse() == Ok(n)]. *)
Lemma parse_print max n : 0 <= n <= max -> n <= u64_max -> parse_dec max (print_dec n) = Some n.
Proof.
  intros Hn Hu. unfold parse_dec, print_dec.
  destruct (dec_digits_head 20 n EmptyString) as (a & r & E & Hd); [lia..|].
  destruct (dec_digits_value 20 n EmptyString 0) as [k Hk].
  { split; [lia|]. unfold u64_max in Hu. change (10 ^ Z.of_nat 20) with 100000000000000000000.
    change (2 ^ 64) with 18446744073709551616 in Hu. lia. }
  rewrite E in *. destruct (Z.eqb_spec (byte_of_ascii a) 43) as [E43|_].
  { rewrite E43 in Hd. discriminate Hd. }
  cbn [str_is_empty]. rewrite Hk. cbn [dec_value].
  replace (0 * k + n) with n by lia. by rewrite (proj2 (Z.leb_le n max)) by lia.
Qed.

Lemma dec_digits_contains c fuel : forall n rest, is_ascii_digit (byte_of_ascii c) = false ->
  0 <= n -> str_contains c (dec_digits fuel n rest) = str_contains c rest.
Proof.
  induction fuel as [|fuel IH]; intros n rest Hc Hn; [done|]. cbn [dec_digits].
  assert (str_contains c (String (ascii_of_byte (48 + n mod 10)) rest) = str_contains c rest) as E.
  { cbn [str_contains]. destruct (Ascii.eqb _ c) eqn:E; [|done]. apply Ascii.eqb_eq in E as <-.
    pose proof (Z.mod_pos_bound n 10). rewrite digit_byte in Hc by lia.
    unfold is_ascii_digit in Hc. apply andb_false_iff in Hc as [Hc|Hc];
      apply Z.leb_gt in Hc; lia. }
  destruct (n <? 10); [done|]. rewrite IH; [done|done|]. apply Z.div_pos; lia.
Qed.
Lemma print_dec_contains c n : is_ascii_digit (byte_of_ascii c) = false -> 0 <= n ->
  str_contains c (print_dec n) = false.
Proof. intros. unfold print_dec. by rewrite dec_digits_contains. Qed.
End Decimal.
