(* ===== verification/Protocol.v ===== *)
(** * The wire protocol: [crates/edge-protocol/src/lib.rs]

    The frames exchanged by two nodes, the classification of clipboard
    transfers, the round-trip measurement over heartbeats ([HeartbeatPing]) and
    the length-prefixed framing.  MessagePack ([rmp_serde]) is a parameter of
    the framing section. *)
From Stdlib Require Import SpecFloat.
From S2P Require Export Prelude.

(** An [f32] or [f64] in a message: a datum the protocol never computes with. *)
Abbreviation float := spec_float.
#[export] Instance float_eq_dec : EqDecision spec_float.
Proof. solve_decision. Defined.

(** ** Constants *)

(** [edge-protocol 5-5 PROTOCOL_VERSION] *)
Definition PROTOCOL_VERSION : Z := 2.
(** [edge-protocol 6-6 INITIAL_ROLE_EPOCH] *)
Definition INITIAL_ROLE_EPOCH : Z := 1.
(** [edge-protocol 7-7 DEFAULT_PORT] *)
Definition DEFAULT_PORT : Z := 42420.
(** [edge-protocol 8-8 MAX_FRAME_BYTES] *)
Definition MAX_FRAME_BYTES : Z := 4 * 1024 * 1024.
(** [edge-protocol 9-9 CLIPBOARD_IMAGE_EXTENSION] *)
Definition CLIPBOARD_IMAGE_EXTENSION : string := "clipboard-image-v1".
(** [edge-protocol 10-10 INPUT_TOGGLE_EXTENSION] *)
Definition INPUT_TOGGLE_EXTENSION : string := "input-toggle-v1".
(** [edge-protocol 11-11 PAIRING_CONFIRMATION_EXTENSION] *)
Definition PAIRING_CONFIRMATION_EXTENSION : string := "pairing-confirmation-v1".
(** [edge-protocol 12-12 AUDIO_ROUTE_EXTENSION] *)
Definition AUDIO_ROUTE_EXTENSION : string := "audio-route-v1".
(** [edge-protocol 13-15 CLIPBOARD_TEXT_CHUNKS_EXTENSION] *)
Definition CLIPBOARD_TEXT_CHUNKS_EXTENSION : string := "clipboard-text-chunks-v1".
(** [edge-protocol 16-18 MAX_SECURE_FRAME_BYTES] *)
Definition MAX_SECURE_FRAME_BYTES : Z := 65535 - 16.
(** [edge-protocol 19-21 HYPR_PHONE_EXTENSION] *)
Definition HYPR_PHONE_EXTENSION : string := "hypr-phone-v1".
(** [edge-protocol 22-24 NOTIFICATIONS_EXTENSION] *)
Definition NOTIFICATIONS_EXTENSION : string := "notifications-v1".
(** [edge-protocol 25-26 NOTIFICATION_SYNC_EXTENSION] *)
Definition NOTIFICATION_SYNC_EXTENSION : string := "notification-sync-v2".
(** [edge-protocol 27-29 PHONE_AUDIO_INVITE_EXTENSION] *)
Definition PHONE_AUDIO_INVITE_EXTENSION : string := "phone-audio-invite-v1".

(** ** Data *)

(** [edge-common 48-53 Role] *)
Inductive Role := Role_Controller | Role_Receiver.

(** [edge-protocol 65-69 NotificationKey] *)
Record NotificationKey := { key_origin : string; key_instance : string }.

(** [edge-protocol 71-83 SharedNotification] *)
Record SharedNotification := {
  sn_app_name : string;
  sn_title : string;
  sn_body : string;
  sn_icon : string;
  sn_icon_png : option bytes;
  sn_posted_ms : Z;
  sn_urgency : Z;
}.

(** [edge-protocol 85-91 NotificationOperation] *)
Record NotificationOperation := {
  op_sequence : Z;
  op_key : NotificationKey;
  op_content : option SharedNotification;
}.

(** [edge-protocol 93-98 NotificationRecord] *)
Record NotificationRecord := {
  rec_key : NotificationKey;
  rec_source_sequence : Z;
  rec_content : option SharedNotification;
}.

(** [edge-protocol 100-108 NotificationSync] *)
Inductive NotificationSync :=
| Sync_Submit (operation : NotificationOperation)
| Sync_Ack (sequence : Z)
| Sync_SnapshotStart (epoch : string)
| Sync_Record (record : NotificationRecord)
| Sync_SnapshotEnd
| Sync_Settings (coordinator : string).

(** [edge-protocol 134-138 PairingEvent] *)
Inductive PairingEvent :=
| Pairing_Status (trusted armed : bool)
| Pairing_Decision (accepted : bool).

(** [edge-protocol 179-185 AudioDirection] *)
Inductive AudioDirection := ToPhone | FromPhone.

(** [edge-protocol 140-177 PhoneEvent] *)
Inductive PhoneEvent :=
| Phone_PairRequest (token : string)
| Phone_PairAccepted
| Phone_Unpair
| Phone_AudioRequest (direction : option AudioDirection) (udp_port : Z)
| Phone_AudioStart (direction : AudioDirection)
    (session_id session_salt session_key : bytes) (jitter_target_ms : Z)
| Phone_AudioStopped (reason : string)
| Phone_AudioInvite (direction : AudioDirection).

(** [edge-protocol 203-214 PhoneNotification] *)
Record PhoneNotification := {
  pn_id : Z;
  pn_app_name : string;
  pn_title : string;
  pn_body : string;
  pn_icon_png : option bytes;
  pn_posted_ms : Z;
}.

(** [edge-protocol 217-217 PhoneNotification::MAX_APP_NAME_CHARS] *)
Definition MAX_APP_NAME_CHARS : Z := 64.
(** [edge-protocol 218-218 PhoneNotification::MAX_TITLE_CHARS] *)
Definition MAX_TITLE_CHARS : Z := 256.
(** [edge-protocol 219-219 PhoneNotification::MAX_BODY_BYTES] *)
Definition MAX_BODY_BYTES : Z := 4096.
(** [edge-protocol 220-222 PhoneNotification::MAX_ICON_BYTES] *)
Definition MAX_ICON_BYTES : Z := 24 * 1024.

(** [edge-protocol 187-201 NotificationEvent] *)
Inductive NotificationEvent :=
| Event_Posted (notification : PhoneNotification)
| Event_Removed (id : Z)
| Event_SnapshotStart
| Event_SnapshotEnd.

(** [edge-protocol 239-242 Capability] *)
Inductive Capability := AudioV1.

(** [edge-protocol 244-252 NodeCapability] *)
Inductive NodeCapability :=
| InputCaptureV1 | InputInjectV1 | RoleSwitchV1 | ScreenInfoBothSidesV1
| AudioCaptureV1 | AudioPlaybackV1.

(** [edge-protocol 225-237 Hello] *)
Record Hello := {
  protocol_version : Z;
  device_name : string;
  hello_role : Role;
  public_key_fingerprint : string;
  capabilities : list Capability;
  extensions : list string;
  node_capabilities : list NodeCapability;
}.

(** [edge-protocol 350-357 MouseButton] *)
Inductive MouseButton :=
| Button_Left | Button_Right | Button_Middle | Button_Back | Button_Forward.

(** [edge-protocol 341-348 InputEvent] *)
Inductive InputEvent :=
| PointerMotion (dx dy : float)
| PointerButton (button : MouseButton) (down : bool)
| PointerWheel (x y : float)
| Key (evdev_code : Z) (down : bool)
| AllKeysUp.

(** [edge-protocol 254-258 InputFrame] *)
Record InputFrame := { input_role_epoch : Z; input_event : InputEvent }.

(** [edge-protocol 510-516 Edge] *)
Inductive Edge := Edge_Left | Edge_Right | Edge_Top | Edge_Bottom.

(** [edge-protocol 518-526 ReleaseReason] *)
Inductive ReleaseReason :=
| Hotkey | Release_PeerDisconnected | HeartbeatTimeout | BackendFailure
| Release_UserRequest | Release_Shutdown.

(** [edge-protocol 450-466 ControlEvent] *)
Inductive ControlEvent :=
| EnterRemote (edge : Edge) (normalized_position : float)
| LeaveRemote (edge : Edge) (normalized_position : float)
| ReleaseToLocal (reason : ReleaseReason)
| SetInputForwarding (enabled : bool).

(** [edge-protocol 260-264 ControlFrame] *)
Record ControlFrame := { control_role_epoch : Z; control_event : ControlEvent }.

(** [edge-protocol 266-269 AudioCodec] *)
Inductive AudioCodec := PcmS16Stereo48Khz.

(** [edge-protocol 271-278 AudioStreamState] *)
Inductive AudioStreamState :=
| Stream_Disabled | WaitingForUdp | Starting | Streaming | Stream_Error.

(** [edge-protocol 280-288 AudioStopReason] *)
Inductive AudioStopReason :=
| Stop_UserRequest | Stop_PeerDisconnected | TransportFailure | CaptureFailure
| PlaybackFailure | Stop_Shutdown.

(** [edge-protocol 290-323 AudioControl] *)
Inductive AudioControl :=
| RequestRoute (source_fingerprint : option string)
| SetRoute (source_fingerprint : option string)
| Audio_Offer (udp_port : Z) (codecs : list AudioCodec)
| Audio_Start (udp_port : Z) (session_id session_salt session_key : bytes)
    (codec : AudioCodec) (frame_ms jitter_target_ms : Z)
| SetEnabled (enabled : bool)
| Audio_State (state : AudioStreamState) (detail : option string)
| Audio_Stop (reason : AudioStopReason).

(** [edge-protocol 331-339 OutputInfo] *)
Record OutputInfo := {
  out_name : string;
  out_width : Z;
  out_height : Z;
  out_scale : float;
  out_x : Z;
  out_y : Z;
}.

(** [edge-protocol 325-329 ScreenInfo] *)
Record ScreenInfo := { outputs : list OutputInfo; primary_output : string }.

(** [edge-protocol 442-448 ClipboardCancelReason] *)
Inductive ClipboardCancelReason :=
| Replaced | Cancel_Rejected | TimedOut | Cancel_Invalid.

(** [edge-protocol 359-405 ClipboardEvent] *)
Inductive ClipboardEvent :=
| TextOffer (sequence : Z) (text : string)
| TextRequest
| ContentRequest
| ImageStart (transfer_id sequence width height total_bytes : Z)
    (content_sha256 : bytes)
| ImageChunk (transfer_id offset : Z) (payload : bytes)
| ImageEnd (transfer_id : Z)
| ImageCancel (transfer_id : Z) (reason : ClipboardCancelReason)
| TextStart (transfer_id sequence total_bytes : Z) (content_sha256 : bytes)
| TextChunk (transfer_id offset : Z) (payload : bytes)
| TextEnd (transfer_id : Z).

(** [edge-protocol 468-475 RoleTransitionState] *)
Inductive RoleTransitionState :=
| Stable
| Preparing (proposed_controller_fingerprint : string)
| Failed.

(** [edge-protocol 477-485 RoleState] *)
Record RoleState := {
  controller_fingerprint : option string;
  role_epoch : Z;
  transition : RoleTransitionState;
  listener_position : Edge;
  paused : bool;
  failure_detail : option string;
}.

(** [edge-protocol 487-508 RoleEvent] *)
Inductive RoleEvent :=
| SessionState (state : RoleState)
| Role_Request (controller_fingerprint : string)
| Prepare (state : RoleState)
| Ready (role_epoch : Z) (capture_ready inject_ready : bool)
    (failure_detail : option string)
| Role_Commit (state : RoleState)
| Applied (role_epoch : Z)
| Role_Abort (state : RoleState)
| SetPaused (paused : bool).

(** [edge-protocol 528-531 Heartbeat] *)
Record Heartbeat := { heartbeat_sequence : Z }.

(** [edge-protocol 614-618 RemoteError] *)
Record RemoteError := { code : string; message : string }.

(** [edge-protocol 45-63 Frame] *)
Inductive Frame :=
| Frame_Hello (hello : Hello)
| Frame_ScreenInfo (info : ScreenInfo)
| Frame_Input (input : InputFrame)
| Frame_Clipboard (event : ClipboardEvent)
| Frame_Control (control : ControlFrame)
| Frame_Heartbeat (heartbeat : Heartbeat)
| Frame_Error (error : RemoteError)
| Frame_Audio (control : AudioControl)
| Frame_Pairing (event : PairingEvent)
| Frame_Role (event : RoleEvent)
| Frame_Phone (event : PhoneEvent)
| Frame_Notification (event : NotificationEvent)
| Frame_NotificationSync (event : NotificationSync).

#[export] Instance NodeCapability_eq_dec : EqDecision NodeCapability.
Proof. solve_decision. Defined.
#[export] Instance Role_eq_dec : EqDecision Role.
Proof. solve_decision. Defined.
#[export] Instance Edge_eq_dec : EqDecision Edge.
Proof. solve_decision. Defined.
#[export] Instance NotificationKey_eq_dec : EqDecision NotificationKey.
Proof. solve_decision. Defined.
#[export] Instance SharedNotification_eq_dec : EqDecision SharedNotification.
Proof. solve_decision. Defined.
#[export] Instance NotificationRecord_eq_dec : EqDecision NotificationRecord.
Proof. solve_decision. Defined.
#[export] Instance NotificationOperation_eq_dec : EqDecision NotificationOperation.
Proof. solve_decision. Defined.
#[export] Instance RoleTransitionState_eq_dec : EqDecision RoleTransitionState.
Proof. solve_decision. Defined.
#[export] Instance RoleState_eq_dec : EqDecision RoleState.
Proof. solve_decision. Defined.
#[export] Instance AudioDirection_eq_dec : EqDecision AudioDirection.
Proof. solve_decision. Defined.

(** ** Frame constructors and projections *)

(** [edge-protocol 111-113 Frame::input] *)
Definition Frame_input (role_epoch : Z) (event : InputEvent) : Frame :=
  Frame_Input {| input_role_epoch := role_epoch; input_event := event |}.

(** [edge-protocol 115-117 Frame::control] *)
Definition Frame_control (role_epoch : Z) (event : ControlEvent) : Frame :=
  Frame_Control {| control_role_epoch := role_epoch; control_event := event |}.

(** [edge-protocol 119-124 Frame::input_event] *)
Definition Frame_input_event (f : Frame) : option InputEvent :=
  match f with Frame_Input input => Some (input_event input) | _ => None end.

(** [edge-protocol 126-131 Frame::control_event] *)
Definition Frame_control_event (f : Frame) : option ControlEvent :=
  match f with Frame_Control control => Some (control_event control) | _ => None end.

(** [edge-protocol 408-421 ClipboardEvent::image_transfer_id] *)
Definition image_transfer_id (e : ClipboardEvent) : option Z :=
  match e with
  | ImageStart transfer_id _ _ _ _ _ | ImageChunk transfer_id _ _
  | ImageEnd transfer_id | ImageCancel transfer_id _ => Some transfer_id
  | TextStart _ _ _ _ | TextChunk _ _ _ | TextEnd _ | TextOffer _ _
  | TextRequest | ContentRequest => None
  end.

(** [edge-protocol 423-431 ClipboardEvent::transfer_id] *)
Definition transfer_id (e : ClipboardEvent) : option Z :=
  match e with
  | TextStart transfer_id _ _ _ | TextChunk transfer_id _ _ | TextEnd transfer_id =>
      Some transfer_id
  | _ => image_transfer_id e
  end.

(** [edge-protocol 433-439 ClipboardEvent::is_text_transfer] *)
Definition is_text_transfer (e : ClipboardEvent) : bool :=
  match e with TextStart _ _ _ _ | TextChunk _ _ _ | TextEnd _ => true | _ => false end.
