(* ===== verification/Config.v ===== *)
(** * Configuration: [crates/edge-common/src/lib.rs]

    The configuration, what its file may hold ([ConfigFile], which also accepts the first
    version of the format), the conversion between them, and the listen address.  The
    functions that serde derives are written out on trees of TOML values; the TOML text itself
    is the crate toml's and a parameter ([TomlText]). *)
From S2P Require Export Text Protocol.

(** ** Data *)

(** [edge-common 55-62 PeerPosition] *)
Inductive PeerPosition := Left | Right | Top | Bottom.
(** [edge-common 129-134 TransportMode] *)
Inductive TransportMode := Mode_Connect | Mode_Listen.
(** [edge-common 136-141 AudioLocalPlayback] *)
Inductive AudioLocalPlayback := Redirect | Mirror.
(** [edge-common 143-149 AudioRoutePreference] *)
Inductive AudioRoutePreference := Route_Disabled | Route_LocalToPeer | Route_PeerToLocal.
(** [edge-common 242-249 GameCompatibilityMode] *)
Inductive GameCompatibilityMode := Compatible | Borderless | AlwaysEnabled.

(** [edge-common 90-97 NotificationConfig] *)
Record NotificationConfig := {
  notif_enabled : bool;
  coordinator_fingerprint : string;
  notif_peers : list string;
}.
(** [edge-common 105-113 PhoneConfig] *)
Record PhoneConfig := { forward_clipboard_to_pcs : bool }.
(** [edge-common 151-161 AudioConfig] *)
Record AudioConfig := {
  audio_route : option AudioRoutePreference;
  audio_enabled : bool;
  local_playback : AudioLocalPlayback;
  jitter_target_ms : Z;
}.
(** [edge-common 174-184 PeerConfig] *)
Record PeerConfig := {
  peer_name : string;
  peer_host : string;
  peer_port : Z;
  pinned_fingerprint : string;
}.
(** [edge-common 205-208 LayoutConfig] *)
Record LayoutConfig := { listener_position : PeerPosition }.
(** [edge-common 224-233 InputCaptureConfig] *)
Record InputCaptureConfig := {
  capture_backend : string;
  capture_output : string;
  capture_release_hotkey : string;
  capture_game_compatibility : GameCompatibilityMode;
}.
(** [edge-common 235-240 InputInjectConfig] *)
Record InputInjectConfig := { inject_backend : string; inject_output : string }.
(** [edge-common 218-222 InputConfig] *)
Record InputConfig := { capture : InputCaptureConfig; inject : InputInjectConfig }.
(** [edge-common 275-283 ClipboardConfig] *)
Record ClipboardConfig := {
  clip_enabled : bool;
  images_enabled : bool;
  clip_max_bytes : Z;
  clip_max_image_bytes : Z;
}.
(** [edge-common 64-88 AppConfig] *)
Record AppConfig := {
  device_name : string;
  start_with_windows : bool;
  preferred_role : Role;
  transport : TransportMode;
  listen : option string;
  cfg_peer : PeerConfig;
  cfg_layout : LayoutConfig;
  cfg_input : InputConfig;
  cfg_clipboard : ClipboardConfig;
  cfg_audio : AudioConfig;
  cfg_phone : PhoneConfig;
  cfg_notifications : NotificationConfig;
}.

#[export] Instance NotificationConfig_eq_dec : EqDecision NotificationConfig.
Proof. solve_decision. Defined.
#[export] Instance PhoneConfig_eq_dec : EqDecision PhoneConfig.
Proof. solve_decision. Defined.

(** [edge-common 197-199 default_peer_name] *)
Definition default_peer_name : string := "Peer".
(** [edge-common 201-203 default_port] *)
Definition default_port : Z := 42420.
(** [edge-common 271-273 default_release_hotkey] *)
Definition default_release_hotkey : string := "Ctrl+Alt+Pause".
(** [edge-common 300-302 default_max_image_bytes] *)
Definition default_max_image_bytes : Z := 4 * 1024 * 1024.
Definition default_notifications : NotificationConfig :=
  {| notif_enabled := false; coordinator_fingerprint := ""; notif_peers := [] |}.
(** [edge-common 116-120 PhoneConfig::default] *)
Definition default_phone : PhoneConfig := {| forward_clipboard_to_pcs := true |}.
(** [edge-common 164-171 AudioConfig::default] *)
Definition default_audio : AudioConfig :=
  {| audio_route := Some Route_Disabled; audio_enabled := false; local_playback := Redirect;
     jitter_target_ms := 60 |}.
(** [edge-common 187-194 PeerConfig::default] *)
Definition default_peer : PeerConfig :=
  {| peer_name := default_peer_name; peer_host := ""; peer_port := default_port;
     pinned_fingerprint := "" |}.
(** [edge-common 211-215 LayoutConfig::default] *)
Definition default_layout : LayoutConfig := {| listener_position := Left |}.
(** [edge-common 252-259 InputCaptureConfig::default] *)
Definition default_capture : InputCaptureConfig :=
  {| capture_backend := "auto"; capture_output := ""; capture_release_hotkey :=
     default_release_hotkey; capture_game_compatibility := AlwaysEnabled |}.
(** [edge-common 263-268 InputInjectConfig::default] *)
Definition default_inject : InputInjectConfig := {| inject_backend := "auto"; inject_output := "" |}.
Definition default_input : InputConfig := {| capture := default_capture; inject := default_inject |}.
(** [edge-common 286-293 ClipboardConfig::default] *)
Definition default_clipboard : ClipboardConfig :=
  {| clip_enabled := true; images_enabled := true; clip_max_bytes := 1048576;
     clip_max_image_bytes := default_max_image_bytes |}.

(** [edge-common 489-513 AppConfig::controller_default] *)
Definition controller_default : AppConfig :=
  {| device_name := "Main PC"; start_with_windows := false; preferred_role := Role_Controller;
     transport := Mode_Connect; listen := None;
     cfg_peer := {| peer_name := "Linux PC"; peer_host := "192.168.0.11";
                    peer_port := default_port; pinned_fingerprint := "" |};
     cfg_layout := default_layout; cfg_input := default_input;
     cfg_clipboard := default_clipboard;
     cfg_audio := {| audio_route := Some Route_PeerToLocal; audio_enabled := true;
                     local_playback := local_playback default_audio;
                     jitter_target_ms := jitter_target_ms default_audio |};
     cfg_phone := default_phone; cfg_notifications := default_notifications |}.

(** [edge-common 515-536 AppConfig::receiver_default] *)
Definition receiver_default : AppConfig :=
  {| device_name := "Lua"; start_with_windows := false; preferred_role := Role_Receiver;
     transport := Mode_Listen; listen := Some "0.0.0.0:42420"%string;
     cfg_peer := default_peer; cfg_layout := default_layout;
     cfg_input := {| capture := capture default_input;
                     inject := {| inject_backend := inject_backend default_inject;
                                  inject_output := "eDP-1" |} |};
     cfg_clipboard := default_clipboard; cfg_audio := default_audio;
     cfg_phone := default_phone; cfg_notifications := default_notifications |}.

(** ** What the file may hold *)

(** [edge-common 351-358 LegacyPeerConfig] *)
Record LegacyPeerConfig := {
  legacy_host : string;
  legacy_port : Z;
  legacy_position : PeerPosition;
  legacy_pinned_fingerprint : string;
}.
(** [edge-common 337-349 ConfigPeer] *)
Record ConfigPeer := {
  cp_name : option string;
  cp_host : option string;
  cp_port : option Z;
  cp_pinned_fingerprint : option string;
  cp_laptop : option LegacyPeerConfig;
}.
(** [edge-common 372-382 ConfigInputCapture] *)
Record ConfigInputCapture := {
  cc_backend : option string;
  cc_output : option string;
  cc_release_hotkey : option string;
  cc_game_compatibility : option GameCompatibilityMode;
}.
(** [edge-common 384-390 ConfigInputInject] *)
Record ConfigInputInject := { cj_backend : option string; cj_output : option string }.
(** [edge-common 360-370 ConfigInput] *)
Record ConfigInput := {
  ci_backend : option string;
  ci_game_compatibility : option GameCompatibilityMode;
  ci_capture : option ConfigInputCapture;
  ci_inject : option ConfigInputInject;
}.
(** [edge-common 304-335 ConfigFile] *)
Record ConfigFile := {
  cf_device_name : string;
  cf_start_with_windows : bool;
  cf_preferred_role : option Role;
  cf_transport : option TransportMode;
  cf_role : option Role;
  cf_release_hotkey : option string;
  cf_listen : option string;
  cf_monitor : option string;
  cf_peer : ConfigPeer;
  cf_layout : option LayoutConfig;
  cf_input : ConfigInput;
  cf_clipboard : ClipboardConfig;
  cf_audio : option AudioConfig;
  cf_phone : PhoneConfig;
  cf_notifications : NotificationConfig;
}.

(** [edge-common 393-476 ConfigFile::into_app_config] *)
Definition into_app_config (self : ConfigFile) : AppConfig :=
  let legacy_role := cf_role self in
  let preferred_role :=
    default Role_Receiver
      (option_or (option_or (cf_preferred_role self) legacy_role)
         match cf_transport self with
         | Some Mode_Connect => Some Role_Controller
         | Some Mode_Listen => Some Role_Receiver
         | None => None
         end) in
  let transport :=
    default match legacy_role with
            | Some Role_Controller => Mode_Connect
            | Some Role_Receiver | None => Mode_Listen
            end (cf_transport self) in
  let laptop := cp_laptop (cf_peer self) in
  let position :=
    default Left (option_or (listener_position <$> cf_layout self) (legacy_position <$> laptop)) in
  let peer :=
    {| peer_name := default default_peer_name (cp_name (cf_peer self));
       peer_host := default EmptyString
                      (option_or (cp_host (cf_peer self)) (legacy_host <$> laptop));
       peer_port := default default_port
                      (option_or (cp_port (cf_peer self)) (legacy_port <$> laptop));
       pinned_fingerprint :=
         default EmptyString (option_or (cp_pinned_fingerprint (cf_peer self))
                                (legacy_pinned_fingerprint <$> laptop)) |} in
  let legacy_backend := default "auto"%string (ci_backend (cf_input self)) in
  let cap := default {| cc_backend := None; cc_output := None; cc_release_hotkey := None;
                        cc_game_compatibility := None |} (ci_capture (cf_input self)) in
  let inj := default {| cj_backend := None; cj_output := None |} (ci_inject (cf_input self)) in
  let input :=
    {| capture :=
         {| capture_backend := default legacy_backend (cc_backend cap);
            capture_output := default EmptyString (cc_output cap);
            capture_release_hotkey :=
              default default_release_hotkey
                (option_or (cc_release_hotkey cap) (cf_release_hotkey self));
            capture_game_compatibility :=
              default AlwaysEnabled (option_or (cc_game_compatibility cap)
                                       (ci_game_compatibility (cf_input self))) |};
       inject :=
         {| inject_backend := default legacy_backend (cj_backend inj);
            inject_output := default EmptyString (option_or (cj_output inj) (cf_monitor self)) |} |} in
  let audio :=
    default {| audio_route := None;
               audio_enabled := match legacy_role with Some Role_Controller => true | _ => false end;
               local_playback := local_playback default_audio;
               jitter_target_ms := jitter_target_ms default_audio |} (cf_audio self) in
  {| device_name := cf_device_name self; start_with_windows := cf_start_with_windows self;
     preferred_role := preferred_role; transport := transport; listen := cf_listen self;
     cfg_peer := peer; cfg_layout := {| listener_position := position |}; cfg_input := input;
     cfg_clipboard := cf_clipboard self; cfg_audio := audio; cfg_phone := cf_phone self;
     cfg_notifications := cf_notifications self |}.

(** ** TOML *)

(** A TOML value; the kinds no field has are one constructor. *)
Inductive Toml :=
| Toml_String (s : string)
| Toml_Integer (z : Z)
| Toml_Boolean (b : bool)
| Toml_Array (values : list Toml)
| Toml_Table (entries : gmap string Toml)
| Toml_Other (text : string).
Abbreviation Table := (gmap string Toml) (only parsing).

(** toml::from_str::<toml::Value> and toml::to_string_pretty of a value. *)
Class TomlText := {
  toml_parse : string -> result Toml string;
  toml_print : Toml -> result string string;
}.
(** What is written reads back. *)
Class TomlTextLaws `{TomlText} :=
  parse_print_toml t text : toml_print t = Ok text -> toml_parse text = Ok t.

(** *** Writing: the derived [Serialize] of AppConfig

    A field that is [None] is left out, an integer beyond an [i64] is an error. *)
Definition i64_max : Z := 2 ^ 63 - 1.
Definition ser_uint (n : Z) : result Toml string :=
  if n <=? i64_max then Ok (Toml_Integer n) else Err "integer out of range"%string.

(** A field that is present, and one that may be left out. *)
Definition field (key : string) (value : Toml) : list (string * Toml) := [(key, value)].
Definition opt_field {A} (key : string) (f : A -> Toml) (value : option A) : list (string * Toml) :=
  match value with Some a => [(key, f a)] | None => [] end.
Definition table (fields : list (string * Toml)) : Toml := Toml_Table (list_to_map fields).

Definition ser_role (r : Role) : Toml :=
  Toml_String match r with Role_Controller => "controller" | Role_Receiver => "receiver" end.
Definition ser_position (p : PeerPosition) : Toml :=
  Toml_String match p with Left => "left" | Right => "right" | Top => "top" | Bottom => "bottom" end.
Definition ser_transport (t : TransportMode) : Toml :=
  Toml_String match t with Mode_Connect => "connect" | Mode_Listen => "listen" end.
Definition ser_playback (p : AudioLocalPlayback) : Toml :=
  Toml_String match p with Redirect => "redirect" | Mirror => "mirror" end.
Definition ser_route (r : AudioRoutePreference) : Toml :=
  Toml_String match r with
              | Route_Disabled => "disabled"
              | Route_LocalToPeer => "local-to-peer"
              | Route_PeerToLocal => "peer-to-local"
              end.
Definition ser_game (m : GameCompatibilityMode) : Toml :=
  Toml_String match m with
              | Compatible => "compatible"
              | Borderless => "borderless"
              | AlwaysEnabled => "always-enabled"
              end.

Definition ser_notifications (c : NotificationConfig) : Toml :=
  table (field "enabled" (Toml_Boolean (notif_enabled c))
         ++ field "coordinator_fingerprint" (Toml_String (coordinator_fingerprint c))
         ++ field "peers" (Toml_Array (Toml_String <$> notif_peers c))).
Definition ser_phone (c : PhoneConfig) : Toml :=
  table (field "forward_clipboard_to_pcs" (Toml_Boolean (forward_clipboard_to_pcs c))).
Definition ser_audio (c : AudioConfig) : Toml :=
  table (opt_field "route" ser_route (audio_route c)
         ++ field "enabled" (Toml_Boolean (audio_enabled c))
         ++ field "local_playback" (ser_playback (local_playback c))
         ++ field "jitter_target_ms" (Toml_Integer (jitter_target_ms c))).
Definition ser_peer (c : PeerConfig) : Toml :=
  table (field "name" (Toml_String (peer_name c)) ++ field "host" (Toml_String (peer_host c))
         ++ field "port" (Toml_Integer (peer_port c))
         ++ field "pinned_fingerprint" (Toml_String (pinned_fingerprint c))).
Definition ser_layout (c : LayoutConfig) : Toml :=
  table (field "listener_position" (ser_position (listener_position c))).
Definition ser_capture (c : InputCaptureConfig) : Toml :=
  table (field "backend" (Toml_String (capture_backend c))
         ++ field "output" (Toml_String (capture_output c))
         ++ field "release_hotkey" (Toml_String (capture_release_hotkey c))
         ++ field "game_compatibility" (ser_game (capture_game_compatibility c))).
Definition ser_inject (c : InputInjectConfig) : Toml :=
  table (field "backend" (Toml_String (inject_backend c))
         ++ field "output" (Toml_String (inject_output c))).
Definition ser_input (c : InputConfig) : Toml :=
  table (field "capture" (ser_capture (capture c)) ++ field "inject" (ser_inject (inject c))).
Definition ser_clipboard (c : ClipboardConfig) : result Toml string :=
  let? max_bytes := ser_uint (clip_max_bytes c) in
  let? max_image_bytes := ser_uint (clip_max_image_bytes c) in
  Ok (table (field "enabled" (Toml_Boolean (clip_enabled c))
             ++ field "images_enabled" (Toml_Boolean (images_enabled c))
             ++ field "max_bytes" max_bytes ++ field "max_image_bytes" max_image_bytes)).

(** [edge-common 100-102 NotificationConfig::is_default] *)
Definition notifications_is_default (c : NotificationConfig) : bool :=
  bool_decide (c = default_notifications).
(** [edge-common 124-126 PhoneConfig::is_default] *)
Definition phone_is_default (c : PhoneConfig) : bool := bool_decide (c = default_phone).

(** [edge-common 64-88 AppConfig] *)
Definition config_fields (c : AppConfig) (clipboard : Toml) : list (string * Toml) :=
  field "device_name" (Toml_String (device_name c))
  ++ field "start_with_windows" (Toml_Boolean (start_with_windows c))
  ++ field "preferred_role" (ser_role (preferred_role c))
  ++ field "transport" (ser_transport (transport c))
  ++ opt_field "listen" Toml_String (listen c)
  ++ field "peer" (ser_peer (cfg_peer c)) ++ field "layout" (ser_layout (cfg_layout c))
  ++ field "input" (ser_input (cfg_input c)) ++ field "clipboard" clipboard
  ++ field "audio" (ser_audio (cfg_audio c))
  ++ opt_field "phone" ser_phone
       (if phone_is_default (cfg_phone c) then None else Some (cfg_phone c))
  ++ opt_field "notifications" ser_notifications
       (if notifications_is_default (cfg_notifications c) then None
        else Some (cfg_notifications c)).
(** [edge-common 64-88 AppConfig (Serialize)] *)
Definition ser_config (c : AppConfig) : result Toml string :=
  let? clipboard := ser_clipboard (cfg_clipboard c) in
  Ok (table (config_fields c clipboard)).

(** *** Reading: the derived [Deserialize] of ConfigFile

    A struct is a table, an enum the name of its variant; other fields are ignored. *)
Definition de_bool (t : Toml) : result bool string :=
  match t with Toml_Boolean b => Ok b | _ => Err "expected a boolean"%string end.
Definition de_string (t : Toml) : result string string :=
  match t with Toml_String s => Ok s | _ => Err "expected a string"%string end.
Definition de_uint (max : Z) (t : Toml) : result Z string :=
  match t with
  | Toml_Integer z => ok_or (try_from max z) "invalid value"%string
  | _ => Err "expected an integer"%string
  end.
Definition de_table (t : Toml) : result Table string :=
  match t with Toml_Table entries => Ok entries | _ => Err "expected a table"%string end.
Fixpoint de_strings (ts : list Toml) : result (list string) string :=
  match ts with
  | [] => Ok []
  | t :: ts => let? s := de_string t in let? rest := de_strings ts in Ok (s :: rest)
  end.
Definition de_list (t : Toml) : result (list string) string :=
  match t with Toml_Array ts => de_strings ts | _ => Err "expected an array"%string end.
Definition de_enum {A} (variants : list (string * A)) (t : Toml) : result A string :=
  let? s := de_string t in
  ok_or (snd <$> List.find (fun v => str_eqb v.1 s) variants) "unknown variant"%string.

(** A field without [#[serde(default)]], with it, and an optional field. *)
Definition required {A} (de : Toml -> result A string) (key : string) (t : Table) :
  result A string :=
  match t !! key with Some v => de v | None => Err ("missing field " ++ key)%string end.
Definition defaulted {A} (d : A) (de : Toml -> result A string) (key : string) (t : Table) :
  result A string :=
  match t !! key with Some v => de v | None => Ok d end.
Definition optional {A} (de : Toml -> result A string) (key : string) (t : Table) :
  result (option A) string :=
  match t !! key with Some v => let? a := de v in Ok (Some a) | None => Ok None end.

Definition de_role := de_enum [("controller", Role_Controller); ("receiver", Role_Receiver)]%string.
Definition de_position :=
  de_enum [("left", Left); ("right", Right); ("top", Top); ("bottom", Bottom)]%string.
Definition de_transport := de_enum [("connect", Mode_Connect); ("listen", Mode_Listen)]%string.
Definition de_playback := de_enum [("redirect", Redirect); ("mirror", Mirror)]%string.
Definition de_route :=
  de_enum [("disabled", Route_Disabled); ("local-to-peer", Route_LocalToPeer);
           ("peer-to-local", Route_PeerToLocal)]%string.
Definition de_game :=
  de_enum [("compatible", Compatible); ("borderless", Borderless);
           ("always-enabled", AlwaysEnabled)]%string.

Definition de_notifications (v : Toml) : result NotificationConfig string :=
  let? t := de_table v in
  let? enabled := defaulted false de_bool "enabled" t in
  let? coordinator := defaulted EmptyString de_string "coordinator_fingerprint" t in
  let? peers := defaulted [] de_list "peers" t in
  Ok {| notif_enabled := enabled; coordinator_fingerprint := coordinator; notif_peers := peers |}.
Definition de_phone (v : Toml) : result PhoneConfig string :=
  let? t := de_table v in
  let? forward := defaulted true de_bool "forward_clipboard_to_pcs" t in
  Ok {| forward_clipboard_to_pcs := forward |}.
Definition de_audio (v : Toml) : result AudioConfig string :=
  let? t := de_table v in
  let? route := optional de_route "route" t in
  let? enabled := defaulted false de_bool "enabled" t in
  let? playback := required de_playback "local_playback" t in
  let? jitter := required (de_uint u32_max) "jitter_target_ms" t in
  Ok {| audio_route := route; audio_enabled := enabled; local_playback := playback;
        jitter_target_ms := jitter |}.
Definition de_layout (v : Toml) : result LayoutConfig string :=
  let? t := de_table v in
  let? position := required de_position "listener_position" t in
  Ok {| listener_position := position |}.
Definition de_clipboard (v : Toml) : result ClipboardConfig string :=
  let? t := de_table v in
  let? enabled := required de_bool "enabled" t in
  let? images := defaulted true de_bool "images_enabled" t in
  let? max_bytes := required (de_uint usize_max) "max_bytes" t in
  let? max_image_bytes := defaulted default_max_image_bytes (de_uint usize_max) "max_image_bytes" t in
  Ok {| clip_enabled := enabled; images_enabled := images; clip_max_bytes := max_bytes;
        clip_max_image_bytes := max_image_bytes |}.
(** [edge-common 351-358 LegacyPeerConfig (Deserialize)] *)
Definition de_legacy_peer (v : Toml) : result LegacyPeerConfig string :=
  let? t := de_table v in
  let? host := required de_string "host" t in
  let? port := required (de_uint u16_max) "port" t in
  let? position := required de_position "position" t in
  let? pinned := defaulted EmptyString de_string "pinned_fingerprint" t in
  Ok {| legacy_host := host; legacy_port := port; legacy_position := position;
        legacy_pinned_fingerprint := pinned |}.
(** [edge-common 337-349 ConfigPeer (Deserialize)] *)
Definition de_config_peer (v : Toml) : result ConfigPeer string :=
  let? t := de_table v in
  let? name := optional de_string "name" t in
  let? host := optional de_string "host" t in
  let? port := optional (de_uint u16_max) "port" t in
  let? pinned := optional de_string "pinned_fingerprint" t in
  let? laptop := optional de_legacy_peer "laptop" t in
  Ok {| cp_name := name; cp_host := host; cp_port := port; cp_pinned_fingerprint := pinned;
        cp_laptop := laptop |}.
(** [edge-common 372-382 ConfigInputCapture (Deserialize)] *)
Definition de_config_capture (v : Toml) : result ConfigInputCapture string :=
  let? t := de_table v in
  let? backend := optional de_string "backend" t in
  let? output := optional de_string "output" t in
  let? hotkey := optional de_string "release_hotkey" t in
  let? game := optional de_game "game_compatibility" t in
  Ok {| cc_backend := backend; cc_output := output; cc_release_hotkey := hotkey;
        cc_game_compatibility := game |}.
(** [edge-common 384-390 ConfigInputInject (Deserialize)] *)
Definition de_config_inject (v : Toml) : result ConfigInputInject string :=
  let? t := de_table v in
  let? backend := optional de_string "backend" t in
  let? output := optional de_string "output" t in
  Ok {| cj_backend := backend; cj_output := output |}.
(** [edge-common 360-370 ConfigInput (Deserialize)] *)
Definition de_config_input (v : Toml) : result ConfigInput string :=
  let? t := de_table v in
  let? backend := optional de_string "backend" t in
  let? game := optional de_game "game_compatibility" t in
  let? cap := optional de_config_capture "capture" t in
  let? inj := optional de_config_inject "inject" t in
  Ok {| ci_backend := backend; ci_game_compatibility := game; ci_capture := cap;
        ci_inject := inj |}.

Definition empty_peer : ConfigPeer :=
  {| cp_name := None; cp_host := None; cp_port := None; cp_pinned_fingerprint := None;
     cp_laptop := None |}.
Definition empty_input : ConfigInput :=
  {| ci_backend := None; ci_game_compatibility := None; ci_capture := None; ci_inject := None |}.

(** [edge-common 304-335 ConfigFile (Deserialize)] *)
Definition de_config_file (v : Toml) : result ConfigFile string :=
  let? t := de_table v in
  let? name := required de_string "device_name" t in
  let? start := defaulted false de_bool "start_with_windows" t in
  let? preferred := optional de_role "preferred_role" t in
  let? mode := optional de_transport "transport" t in
  let? role := optional de_role "role" t in
  let? hotkey := optional de_string "release_hotkey" t in
  let? address := optional de_string "listen" t in
  let? monitor := optional de_string "monitor" t in
  let? peer := defaulted empty_peer de_config_peer "peer" t in
  let? layout := optional de_layout "layout" t in
  let? input := defaulted empty_input de_config_input "input" t in
  let? clipboard := defaulted default_clipboard de_clipboard "clipboard" t in
  let? audio := optional de_audio "audio" t in
  let? phone := defaulted default_phone de_phone "phone" t in
  let? notifications := defaulted default_notifications de_notifications "notifications" t in
  Ok {| cf_device_name := name; cf_start_with_windows := start; cf_preferred_role := preferred;
        cf_transport := mode; cf_role := role; cf_release_hotkey := hotkey;
        cf_listen := address; cf_monitor := monitor; cf_peer := peer; cf_layout := layout;
        cf_input := input; cf_clipboard := clipboard; cf_audio := audio; cf_phone := phone;
        cf_notifications := notifications |}.

(** [edge-common 480-485 AppConfig::deserialize] *)
Definition de_config (v : Toml) : result AppConfig string :=
  let? file := de_config_file v in Ok (into_app_config file).

Section ConfigText.
Context `{TomlText}.

(** toml::from_str::<AppConfig>. *)
Definition config_from_str (text : string) : result AppConfig string :=
  let? t := toml_parse text in de_config t.
(** toml::to_string_pretty of an AppConfig. *)
Definition config_to_string (c : AppConfig) : result string string :=
  let? t := ser_config c in toml_print t.

Definition as_table (t : Toml) : option Table :=
  match t with Toml_Table entries => Some entries | _ => None end.
Definition contains_key (key : string) (t : Table) : bool := bool_decide (is_Some (t !! key)).

(** [edge-common 620-639 config_needs_v2_migration] *)
Definition config_needs_v2_migration (text : string) : bool :=
  match toml_parse text with
  | Ok (Toml_Table root) =>
      contains_key "role" root || contains_key "release_hotkey" root
      || contains_key "monitor" root
      || negb (contains_key "preferred_role" root) || negb (contains_key "transport" root)
      || is_some_and (contains_key "laptop") (root !! "peer"%string ≫= as_table)
      || is_some_and (fun input => contains_key "backend" input
                                   || contains_key "game_compatibility" input)
           (root !! "input"%string ≫= as_table)
  | _ => false
  end.
End ConfigText.

(** ** Names, hosts and ports *)

(** [edge-common 34-46 ConfigValidationError] *)
Inductive ConfigValidationError :=
| EmptyDeviceName | InvalidPort | EmptyHost | MissingListenPort | InvalidListenPort.

Definition colon : Ascii.ascii := ascii_of_byte 58.
Definition open_bracket : Ascii.ascii := ascii_of_byte 91.
Definition close_bracket : Ascii.ascii := ascii_of_byte 93.

(** [edge-common 793-800 split_host_port] *)
Definition split_host_port (value : string) : option (string * string) :=
  match str_strip_prefix "[" value with
  | Some rest => split_once "]:" rest
  | None => rsplit_once colon value
  end.

(** [edge-common 745-751 parse_listen_port] *)
Definition parse_listen_port (listen : string) : result Z ConfigValidationError :=
  let? parts := ok_or (split_host_port listen) MissingListenPort in
  ok_or (port ← parse_dec u16_max parts.2; if negb (port =? 0) then Some port else None)
    InvalidListenPort.

(** [edge-common 753-767 update_listen_port] *)
Definition update_listen_port (listen : option string) (port : Z) : string :=
  let host :=
    default "0.0.0.0"%string
      (parts ← listen ≫= split_host_port;
       if negb (str_is_empty (trim parts.1)) then Some parts.1 else None) in
  if starts_with "[" host && ends_with close_bracket host then (host ++ ":" ++ print_dec port)%string
  else if str_contains colon host then ("[" ++ host ++ "]:" ++ print_dec port)%string
  else (host ++ ":" ++ print_dec port)%string.

(** [edge-common 769-775 validate_device_name] *)
Definition validate_device_name (name : string) : result unit ConfigValidationError :=
  if str_is_empty (trim name) then Err EmptyDeviceName else Ok tt.
(** [edge-common 777-783 validate_port] *)
Definition validate_port (port : Z) : result unit ConfigValidationError :=
  if port =? 0 then Err InvalidPort else Ok tt.
(** [edge-common 785-791 validate_host] *)
Definition validate_host (host : string) : result unit ConfigValidationError :=
  if str_is_empty (trim host) then Err EmptyHost else Ok tt.

(** ** Properties *)

(** *** Written configurations load *)

(** Looking a key up in the fields of a table, in order. *)
Fixpoint field_of (key : string) (fields : list (string * Toml)) : option Toml :=
  match fields with
  | [] => None
  | (k, v) :: rest => if String.eqb k key then Some v else field_of key rest
  end.

Lemma lookup_table key fields : (list_to_map fields : Table) !! key = field_of key fields.
Proof.
  induction fields as [|[k v] rest IH]; [done|]. cbn [list_to_map foldr field_of fst snd].
  destruct (String.eqb_spec k key) as [->|Hne].
  - by rewrite lookup_insert_eq.
  - by rewrite lookup_insert_ne.
Qed.

(** The integers of a configuration are in the range of their types. *)
Definition config_in_range (c : AppConfig) : Prop :=
  in_u16 (peer_port (cfg_peer c)) /\ in_u32 (jitter_target_ms (cfg_audio c))
  /\ in_u64 (clip_max_bytes (cfg_clipboard c)) /\ in_u64 (clip_max_image_bytes (cfg_clipboard c)).

Lemma de_uint_integer max z : in_range max z -> de_uint max (Toml_Integer z) = Ok z.
Proof.
  intros [? ?]. unfold de_uint, try_from.
  by rewrite (proj2 (Z.leb_le 0 z)), (proj2 (Z.leb_le z max)).
Qed.

(** Evaluates reading a table that was just written. *)
Ltac read_table :=
  unfold table; cbn [de_table];
  unfold required, defaulted, optional; rewrite !lookup_table;
  cbn [field opt_field app field_of String.eqb Ascii.eqb Bool.eqb de_bool de_string].

Lemma de_ser_role r : de_role (ser_role r) = Ok r.
Proof. by destruct r. Qed.
Lemma de_ser_position p : de_position (ser_position p) = Ok p.
Proof. by destruct p. Qed.
Lemma de_ser_transport t : de_transport (ser_transport t) = Ok t.
Proof. by destruct t. Qed.
Lemma de_ser_playback p : de_playback (ser_playback p) = Ok p.
Proof. by destruct p. Qed.
Lemma de_ser_route r : de_route (ser_route r) = Ok r.
Proof. by destruct r. Qed.
Lemma de_ser_game m : de_game (ser_game m) = Ok m.
Proof. by destruct m. Qed.
Create HintDb config.
#[local] Hint Rewrite de_ser_role de_ser_position de_ser_transport de_ser_playback de_ser_route
  de_ser_game : config.

Lemma de_strings_map l : de_strings (Toml_String <$> l) = Ok l.
Proof. induction l as [|s l IH]; [done|]. cbn. by rewrite IH. Qed.

Lemma de_ser_notifications c : de_notifications (ser_notifications c) = Ok c.
Proof.
  unfold de_notifications, ser_notifications. read_table. cbn [de_list].
  rewrite de_strings_map. by destruct c.
Qed.
Lemma de_ser_phone c : de_phone (ser_phone c) = Ok c.
Proof. unfold de_phone, ser_phone. read_table. by destruct c. Qed.
Lemma de_ser_audio c : in_u32 (jitter_target_ms c) -> de_audio (ser_audio c) = Ok c.
Proof.
  intros Hj. unfold de_audio, ser_audio. destruct (audio_route c) as [route|] eqn:Hr;
    read_table; autorewrite with config; rewrite de_uint_integer by done;
    rewrite <- Hr; by destruct c.
Qed.
Lemma de_ser_layout c : de_layout (ser_layout c) = Ok c.
Proof. unfold de_layout, ser_layout. read_table. autorewrite with config. by destruct c. Qed.
Lemma de_ser_peer c : in_u16 (peer_port c) ->
  de_config_peer (ser_peer c)
  = Ok {| cp_name := Some (peer_name c); cp_host := Some (peer_host c);
          cp_port := Some (peer_port c); cp_pinned_fingerprint := Some (pinned_fingerprint c);
          cp_laptop := None |}.
Proof. intros. unfold de_config_peer, ser_peer. read_table. by rewrite de_uint_integer. Qed.
Lemma de_ser_input c :
  de_config_input (ser_input c)
  = Ok {| ci_backend := None; ci_game_compatibility := None;
          ci_capture := Some {| cc_backend := Some (capture_backend (capture c));
            cc_output := Some (capture_output (capture c));
            cc_release_hotkey := Some (capture_release_hotkey (capture c));
            cc_game_compatibility := Some (capture_game_compatibility (capture c)) |};
          ci_inject := Some {| cj_backend := Some (inject_backend (inject c));
            cj_output := Some (inject_output (inject c)) |} |}.
Proof.
  unfold de_config_input, ser_input. read_table.
  unfold de_config_capture, ser_capture. read_table. autorewrite with config.
  unfold de_config_inject, ser_inject. by read_table.
Qed.
Lemma de_ser_clipboard c t : in_u64 (clip_max_bytes c) -> in_u64 (clip_max_image_bytes c) ->
  ser_clipboard c = Ok t -> de_clipboard t = Ok c.
Proof.
  intros Hb Hi. unfold ser_clipboard, ser_uint.
  destruct (clip_max_bytes c <=? i64_max) eqn:?; [|done].
  destruct (clip_max_image_bytes c <=? i64_max) eqn:?; [|done].
  intros Heq. injection Heq as <-. unfold de_clipboard. read_table.
  rewrite !de_uint_integer by done. by destruct c.
Qed.
#[local] Hint Rewrite de_ser_notifications de_ser_phone de_ser_layout de_ser_input : config.

(** The optional tables come back as they were, the default when they are left out. *)
Lemma read_default {A} (d : A) (de : Toml -> result A string) (ser : A -> Toml) (is_default : bool) a :
  (is_default = true -> a = d) -> de (ser a) = Ok a ->
  match ser <$> (if is_default then None else Some a) with Some v => de v | None => Ok d end = Ok a.
Proof. intros Hd Hs. destruct is_default; simpl; [by rewrite Hd|done]. Qed.

Lemma field_of_opt {A} key k (f : A -> Toml) o rest :
  field_of key (opt_field k f o ++ rest)
  = if String.eqb k key then match f <$> o with Some v => Some v | None => field_of key rest end
    else field_of key rest.
Proof. destruct o; simpl; by destruct (String.eqb k key). Qed.

Lemma ser_config_Ok c t : ser_config c = Ok t ->
  exists clip, ser_clipboard (cfg_clipboard c) = Ok clip /\ t = table (config_fields c clip).
Proof.
  unfold ser_config. destruct (ser_clipboard (cfg_clipboard c)) as [clip|]; [|done].
  intros Heq. exists clip. split; [done|]. congruence.
Qed.

(** What a written configuration has under a key. *)
Lemma config_field c clip key :
  field_of key (config_fields c clip)
  = if String.eqb "listen" key then Toml_String <$> listen c
    else if String.eqb "phone" key then
      ser_phone <$> (if phone_is_default (cfg_phone c) then None else Some (cfg_phone c))
    else if String.eqb "notifications" key then
      ser_notifications <$> (if notifications_is_default (cfg_notifications c) then None
                             else Some (cfg_notifications c))
    else field_of key
      [("device_name", Toml_String (device_name c));
       ("start_with_windows", Toml_Boolean (start_with_windows c));
       ("preferred_role", ser_role (preferred_role c));
       ("transport", ser_transport (transport c)); ("peer", ser_peer (cfg_peer c));
       ("layout", ser_layout (cfg_layout c)); ("input", ser_input (cfg_input c));
       ("clipboard", clip); ("audio", ser_audio (cfg_audio c))]%string.
Proof.
  unfold config_fields. rewrite <- (app_nil_r (opt_field "notifications" _ _)).
  cbn [field app field_of]. rewrite !field_of_opt. cbn [field app field_of].
  rewrite !field_of_opt. cbn [field_of].
  destruct (String.eqb_spec "listen" key) as [<-|]; [simpl; by destruct (listen c)|].
  destruct (String.eqb_spec "phone" key) as [<-|].
  { simpl. by destruct (phone_is_default (cfg_phone c)). }
  destruct (String.eqb_spec "notifications" key) as [<-|].
  { simpl. by destruct (notifications_is_default (cfg_notifications c)). }
  done.
Qed.

(** Reading back the tables an application configuration was written as. *)
Lemma de_ser_config c t : config_in_range c -> ser_config c = Ok t -> de_config t = Ok c.
Proof.
  intros (Hport & Hj & Hb & Hi) (clip & Hclip & ->)%ser_config_Ok.
  unfold de_config, de_config_file. unfold table. cbn [de_table].
  unfold required, defaulted, optional. rewrite !lookup_table, !config_field.
  cbn [field_of String.eqb Ascii.eqb Bool.eqb de_bool de_string].
  autorewrite with config. rewrite (de_ser_peer _ Hport), (de_ser_audio _ Hj).
  rewrite (de_ser_clipboard _ _ Hb Hi Hclip).
  destruct (phone_is_default (cfg_phone c)) eqn:Hp,
    (notifications_is_default (cfg_notifications c)) eqn:Hn, (listen c) as [l|] eqn:Hl;
    cbn [fmap option_fmap option_map]; autorewrite with config;
    unfold phone_is_default, notifications_is_default in *; reflect_bools;
    f_equal; unfold into_app_config; simpl; rewrite <- ?Hp, <- ?Hn, <- ?Hl;
    by destruct c as [? ? ? ? ? [] [] [[] []] ? ? ? ?].
Qed.

Lemma written_needs_no_migration c clip :
  contains_key "role" (list_to_map (config_fields c clip)) = false
  /\ contains_key "release_hotkey" (list_to_map (config_fields c clip)) = false
  /\ contains_key "monitor" (list_to_map (config_fields c clip)) = false
  /\ contains_key "preferred_role" (list_to_map (config_fields c clip)) = true
  /\ contains_key "transport" (list_to_map (config_fields c clip)) = true.
Proof.
  unfold contains_key. rewrite !lookup_table, !config_field.
  cbn [field_of String.eqb Ascii.eqb Bool.eqb].
  repeat split; apply bool_decide_eq_true || apply bool_decide_eq_false;
    solve [by eexists|by intros [? ?]].
Qed.

Lemma saved_config_reads `{TomlTextLaws} (c : AppConfig) (text : string) :
  config_in_range c -> config_to_string c = Ok text ->
  config_from_str text = Ok c /\ config_needs_v2_migration text = false.
Proof.
  intros Hc. unfold config_to_string, config_from_str, config_needs_v2_migration.
  destruct (ser_config c) as [t|] eqn:Hs; [|done]. intros Hp.
  rewrite (parse_print_toml _ _ Hp). split; [by apply de_ser_config|].
  apply ser_config_Ok in Hs as (clip & _ & ->). unfold table.
  destruct (written_needs_no_migration c clip) as (-> & -> & -> & -> & ->).
  rewrite !lookup_table, !config_field. cbn [field_of String.eqb Ascii.eqb Bool.eqb].
  unfold ser_peer, ser_input, table. cbn [mbind option_bind as_table is_some_and orb negb].
  unfold contains_key. rewrite !lookup_table. cbn [field app field_of String.eqb Ascii.eqb Bool.eqb].
  repeat (apply orb_false_iff; split); try done; apply bool_decide_eq_false; by intros [? ?].
Qed.

(** C37. A configuration that is saved loads back as it was, and the saved file is in the current
    format: loading it again starts no migration. *)
Theorem saved_config_loads_back `{TomlTextLaws} (c : AppConfig) (text : string) :
  config_in_range c -> config_to_string c = Ok text ->
  config_from_str text = Ok c /\ config_needs_v2_migration text = false.
Proof. apply saved_config_reads. Qed.

(** *** Loaded configurations are well typed *)

Lemma de_uint_range max t z : de_uint max t = Ok z -> in_range max z.
Proof.
  unfold de_uint, try_from. destruct t; try done.
  destruct (_ && _) eqn:E; [|done]. intros Heq. injection Heq as <-. reflect_bools. done.
Qed.

Lemma defaulted_Ok {A} (P : A -> Prop) d de key t a :
  P d -> (forall v a, de v = Ok a -> P a) -> defaulted d de key t = Ok a -> P a.
Proof. unfold defaulted. intros Hd Hde. destruct (t !! key); [apply Hde|by intros [= <-]]. Qed.
Lemma optional_Ok {A} (P : A -> Prop) de key t o a :
  (forall v a, de v = Ok a -> P a) -> optional de key t = Ok o -> o = Some a -> P a.
Proof.
  unfold optional. intros Hde. destruct (t !! key) as [v|]; [|by intros [= <-]].
  destruct (de v) eqn:E; [|done]. intros [= <-] [= <-]. eauto.
Qed.
Lemma required_Ok {A} (P : A -> Prop) de key t a :
  (forall v a, de v = Ok a -> P a) -> required de key t = Ok a -> P a.
Proof. unfold required. intros Hde. destruct (t !! key); [apply Hde|done]. Qed.

Lemma de_audio_range v c : de_audio v = Ok c -> in_u32 (jitter_target_ms c).
Proof.
  unfold de_audio. intros Hd. cases_in Hd.
  match goal with Hj : required (de_uint _) _ _ = Ok _ |- _ =>
    exact (required_Ok _ _ _ _ _ (de_uint_range u32_max) Hj) end.
Qed.

Lemma de_clipboard_range v c : de_clipboard v = Ok c ->
  in_u64 (clip_max_bytes c) /\ in_u64 (clip_max_image_bytes c).
Proof.
  unfold de_clipboard. intros Hd. cases_in Hd. split.
  - match goal with Hj : required (de_uint _) _ _ = Ok _ |- _ =>
      exact (required_Ok _ _ _ _ _ (de_uint_range usize_max) Hj) end.
  - match goal with Hj : defaulted _ (de_uint _) _ _ = Ok _ |- _ =>
      refine (defaulted_Ok _ _ _ _ _ _ _ (de_uint_range usize_max) Hj) end.
    vm_compute. split; congruence.
Qed.

Lemma de_legacy_range v c : de_legacy_peer v = Ok c -> in_u16 (legacy_port c).
Proof.
  unfold de_legacy_peer. intros Hd. cases_in Hd.
  match goal with Hj : required (de_uint _) _ _ = Ok _ |- _ =>
    exact (required_Ok _ _ _ _ _ (de_uint_range u16_max) Hj) end.
Qed.

Definition peer_in_range (c : ConfigPeer) : Prop :=
  (forall port, cp_port c = Some port -> in_u16 port)
  /\ (forall laptop, cp_laptop c = Some laptop -> in_u16 (legacy_port laptop)).
Lemma de_peer_range v c : de_config_peer v = Ok c -> peer_in_range c.
Proof.
  unfold de_config_peer. intros Hd. cases_in Hd. split; intros x Hx.
  - match goal with Hj : optional (de_uint _) _ _ = Ok _ |- _ =>
      exact (optional_Ok _ _ _ _ _ x (de_uint_range u16_max) Hj Hx) end.
  - match goal with Hj : optional de_legacy_peer _ _ = Ok _ |- _ =>
      exact (optional_Ok _ _ _ _ _ x de_legacy_range Hj Hx) end.
Qed.

Definition clipboard_in_range (c : ClipboardConfig) : Prop :=
  in_u64 (clip_max_bytes c) /\ in_u64 (clip_max_image_bytes c).
Lemma empty_peer_in_range : peer_in_range empty_peer.
Proof. by split. Qed.
Lemma default_clipboard_in_range : clipboard_in_range default_clipboard.
Proof. repeat split; vm_compute; congruence. Qed.

Lemma de_file_range v f : de_config_file v = Ok f ->
  peer_in_range (cf_peer f) /\ clipboard_in_range (cf_clipboard f)
  /\ forall audio, cf_audio f = Some audio -> in_u32 (jitter_target_ms audio).
Proof.
  unfold de_config_file. intros Hf. cases_in Hf.
  cbn [cf_peer cf_clipboard cf_audio]. split; [|split].
  - eapply (defaulted_Ok _ _ _ _ _ _ empty_peer_in_range de_peer_range). eassumption.
  - eapply (defaulted_Ok _ _ _ _ _ _ default_clipboard_in_range de_clipboard_range). eassumption.
  - intros audio Ha. eapply (optional_Ok _ _ _ _ _ audio de_audio_range); eassumption.
Qed.

Lemma loaded_config_range `{TomlText} (text : string) (c : AppConfig) :
  config_from_str text = Ok c -> config_in_range c.
Proof.
  unfold config_from_str, de_config. destruct (toml_parse text) as [t|]; [|done].
  destruct (de_config_file t) as [f|] eqn:Hf; [|done]. intros [= <-].
  apply de_file_range in Hf as ([Hport Hlap] & Hclip & Haudio).
  unfold config_in_range, into_app_config. cbn [cfg_peer peer_port cfg_audio cfg_clipboard].
  split; [|split; [|done]].
  - destruct (cp_port _) as [port|] eqn:Hp; [by apply Hport|]. simpl.
    destruct (cp_laptop _) as [laptop|] eqn:Hl; simpl; [by apply Hlap|done].
  - destruct (cf_audio f) as [audio|] eqn:Ha; [by apply Haudio|done].
Qed.

(** *** The listen address *)

(** The host an address is given back with. *)
Definition kept_host (listen : option string) : string :=
  default "0.0.0.0"%string
    (parts ← listen ≫= split_host_port;
     if negb (str_is_empty (trim parts.1)) then Some parts.1 else None).
Definition no_brackets (host : string) : Prop :=
  str_contains open_bracket host = false /\ str_contains close_bracket host = false.

Lemma kept_host_not_empty listen : kept_host listen <> EmptyString.
Proof.
  unfold kept_host. destruct (listen ≫= split_host_port) as [[host port]|]; [|done]. simpl.
  destruct (str_is_empty (trim host)) eqn:E; [done|]. simpl. by intros ->.
Qed.

Lemma parse_printed_port port : 1 <= port <= u16_max ->
  parse_dec u16_max (print_dec port) = Some port.
Proof. intros. apply parse_print; unfold u16_max, u64_max in *; lia. Qed.

(** Changing the port of a listen address keeps its host, bracketed when it holds a colon,
    and the result parses to the new port: for any old address, or none, whose host has no
    bracket. *)
Theorem updated_listen_port_parses (listen : option string) (port : Z) :
  1 <= port <= u16_max -> no_brackets (kept_host listen) ->
  split_host_port (update_listen_port listen port) = Some (kept_host listen, print_dec port)
  /\ parse_listen_port (update_listen_port listen port) = Ok port.
Proof.
  intros Hp [Hopen Hclose]. pose proof (kept_host_not_empty listen) as Hne.
  assert (split_host_port (update_listen_port listen port)
          = Some (kept_host listen, print_dec port)) as Hsplit.
  { unfold update_listen_port. fold (kept_host listen).
    set (host := kept_host listen) in *. clearbody host.
    destruct host as [|a host]; [done|].
    assert (Ascii.eqb open_bracket a = false) as Ha.
    { cbn [str_contains] in Hopen. apply orb_false_iff in Hopen as [Ha _].
      by rewrite Ascii.eqb_sym. }
    assert (starts_with "[" (String a host) = false) as ->.
    { unfold starts_with. cbn [String.prefix]. destruct (Ascii.ascii_dec _ a) as [E|]; [|done].
      rewrite <- E in Ha. discriminate Ha. }
    cbn [andb]. destruct (str_contains colon (String a host)) eqn:Hc; unfold split_host_port.
    - change ("[" ++ String a host ++ "]:" ++ print_dec port)%string
        with (String open_bracket (String a host ++ "]:" ++ print_dec port)).
      cbn [str_strip_prefix]. change (Ascii.eqb _ open_bracket) with true.
      by apply (split_once_app close_bracket ":").
    - rewrite str_app_cons. cbn [str_strip_prefix]. change (Ascii.eqb _ a) with (Ascii.eqb open_bracket a). rewrite Ha.
      rewrite <- str_app_cons. apply rsplit_once_char, print_dec_contains; [done|lia]. }
  split; [done|]. unfold parse_listen_port. rewrite Hsplit. simpl.
  rewrite (parse_printed_port _ Hp). simpl. destruct (Z.eqb_spec port 0); [lia|done].
Qed.

(** *** Witnesses *)

#[export] Instance Toml_eq_dec : EqDecision Toml.
Proof.
  refine (fix go x y :=
    let _ : EqDecision Toml := go in
    match x, y with
    | Toml_String a, Toml_String b => cast_if (decide (a = b))
    | Toml_Integer a, Toml_Integer b => cast_if (decide (a = b))
    | Toml_Boolean a, Toml_Boolean b => cast_if (decide (a = b))
    | Toml_Array a, Toml_Array b => cast_if (decide (a = b))
    | Toml_Table a, Toml_Table b => cast_if (decide (a = b))
    | Toml_Other a, Toml_Other b => cast_if (decide (a = b))
    | _, _ => right _
    end); congruence.
Defined.

(** A few documents and their texts: enough for the law, and for what follows. *)
Definition texts_of (documents : list (string * Toml)) : TomlText :=
  {| toml_parse text :=
       ok_or (snd <$> List.find (fun d => str_eqb d.1 text) documents) "syntax"%string;
     toml_print t :=
       ok_or (fst <$> List.find (fun d => bool_decide (d.2 = t)) documents) "unsupported"%string |}.
Lemma texts_of_laws documents : NoDup documents.*1 -> @TomlTextLaws (texts_of documents).
Proof.
  intros Hnd t text. cbn. induction documents as [|[name d] rest IH]; [done|].
  cbn [fmap list_fmap fst] in Hnd. apply NoDup_cons in Hnd as [Hnin Hnd]. cbn [List.find fst snd].
  case_bool_decide as Ht.
  - intros [= <-]. rewrite str_eqb_refl. simpl. by rewrite Ht.
  - intros Hf. destruct (str_eqb name text) eqn:E; [|by apply IH].
    apply str_eqb_spec in E as ->. destruct Hnin.
    destruct (List.find _ rest) as [[n' d']|] eqn:Hfind; [|done]. injection Hf as ->.
    apply find_some in Hfind as [Hin _]. apply list_elem_of_fmap. exists (text, d').
    split; [done|]. by apply list_elem_of_In.
Qed.
Definition text_of (document : Toml) (name : string) : TomlText := texts_of [(name, document)].
Lemma text_of_laws document name : @TomlTextLaws (text_of document name).
Proof. apply texts_of_laws. simpl. apply NoDup_singleton. Qed.

Definition sample_document : Toml :=
  match ser_config receiver_default with Ok t => t | Err _ => Toml_Other "" end.

Example saved_config_loads_back_witness :
  @config_from_str (text_of sample_document "receiver.toml") "receiver.toml"
  = Ok receiver_default
  /\ @config_needs_v2_migration (text_of sample_document "receiver.toml") "receiver.toml" = false.
Proof.
  apply (@saved_config_loads_back _ (text_of_laws sample_document "receiver.toml")
           receiver_default "receiver.toml").
  - repeat split; vm_compute; congruence.
  - vm_compute. reflexivity.
Defined.

(** The first version of the format, as in crates/edge-common/fixtures/controller-v1.toml. *)
Definition legacy_document : Toml :=
  table (field "device_name" (Toml_String "Main PC") ++ field "role" (Toml_String "controller")
         ++ field "release_hotkey" (Toml_String "Ctrl+Alt+Pause")
         ++ field "peer" (table (field "laptop" (table
              (field "host" (Toml_String "192.168.0.11") ++ field "port" (Toml_Integer 42420)
               ++ field "position" (Toml_String "left")
               ++ field "pinned_fingerprint" (Toml_String "")))))
         ++ field "input" (table (field "backend" (Toml_String "auto")
              ++ field "game_compatibility" (Toml_String "always-enabled")))
         ++ field "clipboard" (table (field "enabled" (Toml_Boolean true)
              ++ field "images_enabled" (Toml_Boolean true)
              ++ field "max_bytes" (Toml_Integer 1048576)
              ++ field "max_image_bytes" (Toml_Integer 4194304)))
         ++ field "audio" (table (field "enabled" (Toml_Boolean true)
              ++ field "local_playback" (Toml_String "redirect")
              ++ field "jitter_target_ms" (Toml_Integer 60)))).

Definition legacy_config : AppConfig :=
  match de_config legacy_document with Ok c => c | Err _ => receiver_default end.

Example legacy_fixture_loads :
  let text := text_of legacy_document "controller-v1.toml" in
  @config_from_str text "controller-v1.toml" = Ok legacy_config
  /\ preferred_role legacy_config = Role_Controller /\ transport legacy_config = Mode_Connect
  /\ peer_host (cfg_peer legacy_config) = "192.168.0.11"%string
  /\ audio_route (cfg_audio legacy_config) = None /\ audio_enabled (cfg_audio legacy_config) = true
  /\ @config_needs_v2_migration text "controller-v1.toml" = true.
Proof. vm_compute. repeat split. Qed.

Example updated_listen_port_parses_witness :
  split_host_port (update_listen_port (Some "[::1]:42420"%string) 80)
  = Some ("::1"%string, print_dec 80)
  /\ parse_listen_port (update_listen_port (Some "[::1]:42420"%string) 80) = Ok 80.
Proof.
  apply (updated_listen_port_parses (Some "[::1]:42420"%string) 80);
    vm_compute; repeat split; congruence.
Defined.
