(* ===== verification/Heartbeat.v ===== *)
(** * Round-trip measurement over heartbeats: [HeartbeatPing]

    The model of [crates/edge-protocol/src/lib.rs], lines 533-612.  A node calls
    [HeartbeatPing_outgoing] for every heartbeat it sends and
    [HeartbeatPing_incoming] for every one it receives. *)
From stdpp Require Import sorting.
From S2P Require Export Protocol.

(** [edge-protocol 541-546 HeartbeatPing] *)
Record HeartbeatPing := {
  ping_pending : option (Z * Instant);
  last_asked : option Instant;
  samples : list Duration;
}.

Definition HeartbeatPing_default : HeartbeatPing :=
  {| ping_pending := None; last_asked := None; samples := [] |}.

(** [edge-protocol 549-549 HeartbeatPing::ECHO_REQUEST] *)
Definition ECHO_REQUEST : Z := Z.shiftl 1 62.
(** [edge-protocol 550-550 HeartbeatPing::ECHO_REPLY] *)
Definition ECHO_REPLY : Z := Z.shiftl 1 61.
(** [edge-protocol 551-551 HeartbeatPing::SEQUENCE] *)
Definition SEQUENCE : Z := u64_max - Z.lor ECHO_REQUEST ECHO_REPLY.
(** [edge-protocol 552-553 HeartbeatPing::INTERVAL] *)
Definition INTERVAL : Duration := from_secs 2.
(** [edge-protocol 554-555 HeartbeatPing::SAMPLES] *)
Definition SAMPLES : nat := 5.
(** [edge-protocol 556-557 HeartbeatPing::ECHO_TIMEOUT] *)
Definition ECHO_TIMEOUT : Duration := from_secs 5.

(** [edge-protocol 559-577 HeartbeatPing::outgoing] *)
Definition HeartbeatPing_outgoing (self : HeartbeatPing) (sequence : Z) (now : Instant) :
  HeartbeatPing * Heartbeat :=
  let sequence := Z.land sequence SEQUENCE in
  let waiting :=
    is_some_and (fun '(_, sent) => duration_since now sent <? ECHO_TIMEOUT) (ping_pending self) in
  let too_soon :=
    is_some_and (fun asked => duration_since now asked <? INTERVAL) (last_asked self) in
  if waiting || too_soon then (self, {| heartbeat_sequence := sequence |})
  else
    ({| ping_pending := Some (sequence, now); last_asked := Some now;
        samples := samples self |},
     {| heartbeat_sequence := Z.lor sequence ECHO_REQUEST |}).

Definition push_sample (s : list Duration) (d : Duration) : list Duration :=
  (if bool_decide (length s = SAMPLES) then tail s else s) ++ [d].

(** [edge-protocol 579-603 HeartbeatPing::incoming] *)
Definition HeartbeatPing_incoming (self : HeartbeatPing) (heartbeat : Heartbeat)
    (now : Instant) : HeartbeatPing * option Heartbeat :=
  let sequence := Z.land (heartbeat_sequence heartbeat) SEQUENCE in
  if negb (Z.land (heartbeat_sequence heartbeat) ECHO_REPLY =? 0) then
    (match ping_pending self with
     | Some (pending, sent) =>
         if pending =? sequence then
           {| ping_pending := None; last_asked := last_asked self;
              samples := push_sample (samples self) (duration_since now sent) |}
         else self
     | None => self
     end, None)
  else
    (self,
     if negb (Z.land (heartbeat_sequence heartbeat) ECHO_REQUEST =? 0)
     then Some {| heartbeat_sequence := Z.lor sequence ECHO_REPLY |}
     else None).

(** [edge-protocol 605-611 HeartbeatPing::round_trip] *)
Definition HeartbeatPing_round_trip (self : HeartbeatPing) : option Duration :=
  match try_from u32_max (len (samples self)) with
  | Some count =>
      if 0 <? count then Some (foldr Z.add 0 (samples self) / count) else None
  | None => None
  end.

(** ** A node's use of it: an arbitrary interleaving of sends and receptions *)

Inductive ping_step := Send (sequence : Z) | Receive (heartbeat : Heartbeat).

Definition ping_run_step (p : HeartbeatPing) (s : ping_step) (now : Instant) : HeartbeatPing :=
  match s with
  | Send sequence => (HeartbeatPing_outgoing p sequence now).1
  | Receive heartbeat => (HeartbeatPing_incoming p heartbeat now).1
  end.

(** Whether the step sends a heartbeat that asks for an echo. *)
Definition asks (p : HeartbeatPing) (s : ping_step) (now : Instant) : bool :=
  match s with
  | Send sequence =>
      negb (Z.land (heartbeat_sequence (HeartbeatPing_outgoing p sequence now).2)
              ECHO_REQUEST =? 0)
  | Receive _ => false
  end.

Fixpoint ping_run (p : HeartbeatPing) (trace : list (ping_step * Instant)) : HeartbeatPing :=
  match trace with
  | [] => p
  | (s, now) :: rest => ping_run (ping_run_step p s now) rest
  end.

(** The instants at which an echo was asked for. *)
Fixpoint ask_times (p : HeartbeatPing) (trace : list (ping_step * Instant)) : list Instant :=
  match trace with
  | [] => []
  | (s, now) :: rest =>
      let later := ask_times (ping_run_step p s now) rest in
      if asks p s now then now :: later else later
  end.

(** ** Lemmas *)

Lemma land_lor_disjoint s a b :
  Z.land SEQUENCE a = 0 -> Z.land (Z.lor (Z.land s SEQUENCE) b) a = Z.land b a.
Proof.
  intros H. by rewrite Z.land_lor_distr_l, <- Z.land_assoc, H, Z.land_0_r, Z.lor_0_l.
Qed.

Lemma land_sequence_flag s a : Z.land SEQUENCE a = 0 -> Z.land (Z.land s SEQUENCE) a = 0.
Proof. intros H. by rewrite <- Z.land_assoc, H, Z.land_0_r. Qed.

Lemma sequence_of_marked s b :
  Z.land b SEQUENCE = 0 -> Z.land (Z.lor (Z.land s SEQUENCE) b) SEQUENCE = Z.land s SEQUENCE.
Proof.
  intros H. by rewrite Z.land_lor_distr_l, H, Z.lor_0_r, <- Z.land_assoc, Z.land_diag.
Qed.

#[local] Hint Resolve eq_refl : edge.

(** What a send does, by whether it asks. *)
Lemma outgoing_cases p s now :
  (asks p (Send s) now = false /\ ping_run_step p (Send s) now = p
   /\ (HeartbeatPing_outgoing p s now).2 = {| heartbeat_sequence := Z.land s SEQUENCE |}) \/
  (asks p (Send s) now = true
   /\ (forall t, last_asked p = Some t -> INTERVAL <= duration_since now t)
   /\ (forall q t, ping_pending p = Some (q, t) -> ECHO_TIMEOUT <= duration_since now t)
   /\ ping_run_step p (Send s) now
      = {| ping_pending := Some (Z.land s SEQUENCE, now); last_asked := Some now;
           samples := samples p |}
   /\ (HeartbeatPing_outgoing p s now).2
      = {| heartbeat_sequence := Z.lor (Z.land s SEQUENCE) ECHO_REQUEST |}).
Proof.
  unfold asks, ping_run_step, HeartbeatPing_outgoing.
  destruct (_ || _) eqn:E; cbn [fst snd heartbeat_sequence].
  - left. split_and!; auto. by rewrite land_sequence_flag.
  - right. apply orb_false_iff in E as [Hw Hs]. split_and!; auto.
    + by rewrite land_lor_disjoint.
    + intros t Ht. rewrite Ht in Hs. simpl in Hs. by apply Z.ltb_ge in Hs.
    + intros q t Hq. rewrite Hq in Hw. simpl in Hw. by apply Z.ltb_ge in Hw.
Qed.

Lemma receive_keeps_last_asked p hb now :
  last_asked (ping_run_step p (Receive hb) now) = last_asked p.
Proof.
  unfold ping_run_step, HeartbeatPing_incoming. repeat case_match; reflexivity.
Qed.

(** Every later request comes at least [INTERVAL] after the last one. *)
Lemma ask_times_after trace : forall p t,
  last_asked p = Some t -> Forall (fun a => t + INTERVAL <= a) (ask_times p trace).
Proof.
  induction trace as [|[[s|hb] now] trace IH]; intros p t Ht; cbn [ask_times]; [done| |].
  - destruct (outgoing_cases p s now) as [(-> & -> & _)|(-> & Hi & _ & -> & _)]; [by apply IH|].
    assert (t + INTERVAL <= now) as Hle.
    { specialize (Hi t Ht). unfold duration_since, INTERVAL, from_secs in *. lia. }
    constructor; [done|].
    eapply Forall_impl; [by apply (IH _ now)|].
    intros a Ha. simpl in Ha. unfold INTERVAL, from_secs in *. lia.
  - cbn [asks]. apply IH. by rewrite receive_keeps_last_asked.
Qed.

Lemma push_sample_length s d :
  (length s <= SAMPLES)%nat -> (length (push_sample s d) <= SAMPLES)%nat.
Proof.
  unfold push_sample, SAMPLES. intros H. case_bool_decide as E; rewrite length_app.
  - destruct s; simpl in *; lia.
  - simpl. lia.
Qed.

Lemma sum_bounds lo hi (l : list Z) :
  Forall (fun d => lo <= d <= hi) l ->
  lo * len l <= foldr Z.add 0 l <= hi * len l.
Proof.
  induction 1; simpl; [unfold len; simpl; lia|]. rewrite len_cons. lia.
Qed.

Definition ping_inv (p : HeartbeatPing) : Prop :=
  (length (samples p) <= SAMPLES)%nat /\
  Forall (fun d => 0 <= d) (samples p) /\
  (forall q t, ping_pending p = Some (q, t) -> last_asked p = Some t).

Lemma ping_inv_step p s now : ping_inv p -> ping_inv (ping_run_step p s now).
Proof.
  intros (Hl & Hp & Hq). destruct s as [s|hb].
  - destruct (outgoing_cases p s now) as [(_ & -> & _)|(_ & _ & _ & -> & _)]; split_and!; auto.
    simpl. congruence.
  - unfold ping_run_step, HeartbeatPing_incoming.
    assert (ping_inv p) as Hinv by by split_and!.
    destruct (negb _); [|exact Hinv].
    destruct (ping_pending p) as [[q t]|] eqn:E; [|exact Hinv].
    destruct (q =? _); cbn [fst]; [|exact Hinv].
    split_and!; simpl; [by apply push_sample_length| |done].
    unfold push_sample. apply Forall_app. split; [|constructor; auto with edge].
    case_bool_decide; [by apply Forall_tail|done].
Qed.

Lemma ping_inv_run trace : forall p, ping_inv p -> ping_inv (ping_run p trace).
Proof.
  induction trace as [|[s now] trace IH]; intros p H; simpl; auto using ping_inv_step.
Qed.

Lemma ping_inv_default : ping_inv HeartbeatPing_default.
Proof. by split_and!; [simpl; unfold SAMPLES; lia|constructor|]. Qed.

#[export] Hint Resolve ping_inv_default ping_inv_step ping_inv_run : edge.

(** ** Properties *)

(** However sends and receptions interleave, a node asks for an echo at most once
    every [INTERVAL] (two seconds): any two requests are at least that far apart. *)
Theorem echo_requests_are_spaced (trace : list (ping_step * Instant)) (p : HeartbeatPing) :
  StronglySorted (fun a b => a + INTERVAL <= b) (ask_times p trace).
Proof.
  revert p. induction trace as [|[[s|hb] now] trace IH]; intros p; cbn [ask_times];
    [constructor| |by cbn [asks]].
  destruct (outgoing_cases p s now) as [(-> & -> & _)|(-> & _ & _ & -> & _)]; [done|].
  constructor; [done|]. by apply ask_times_after.
Qed.

(** The heartbeat exchange terminates: whatever heartbeat arrives, the echo sent
    back (if any) carries the reply bit, so the node that receives it sends nothing
    in return. *)
Theorem echo_is_never_echoed (p q : HeartbeatPing) (hb : Heartbeat) (now now' : Instant) :
  match (HeartbeatPing_incoming p hb now).2 with
  | Some echo => (HeartbeatPing_incoming q echo now').2 = None
                 /\ (HeartbeatPing_incoming p hb now).1 = p
  | None => True
  end.
Proof.
  unfold HeartbeatPing_incoming at 1 3.
  destruct (negb (Z.land (heartbeat_sequence hb) ECHO_REPLY =? 0)); [done|].
  cbn [fst snd].
  destruct (negb (Z.land (heartbeat_sequence hb) ECHO_REQUEST =? 0)); [|done].
  split; [|done].
  unfold HeartbeatPing_incoming. cbn [heartbeat_sequence].
  by rewrite land_lor_disjoint.
Qed.

(** A request echoed by the peer measures the round trip: the peer's echo of a
    heartbeat that asked clears the pending request and appends exactly the time since
    it was sent, keeping the latest [SAMPLES] samples. *)
Theorem echo_measures_round_trip (p peer : HeartbeatPing) (s : Z) (sent at_peer back : Instant)
    (Hask : asks p (Send s) sent = true) :
  let p1 := (HeartbeatPing_outgoing p s sent).1 in
  let hb := (HeartbeatPing_outgoing p s sent).2 in
  exists echo,
    HeartbeatPing_incoming peer hb at_peer = (peer, Some echo) /\
    HeartbeatPing_incoming p1 echo back
    = ({| ping_pending := None; last_asked := Some sent;
          samples := push_sample (samples p) (duration_since back sent) |}, None).
Proof.
  destruct (outgoing_cases p s sent) as [(H & _)|(_ & _ & _ & Hp & Hhb)]; [congruence|].
  unfold ping_run_step in Hp. cbv zeta. rewrite Hp, Hhb.
  eexists. unfold HeartbeatPing_incoming at 1. cbn [heartbeat_sequence].
  rewrite sequence_of_marked, !land_lor_disjoint by reflexivity.
  split; [reflexivity|].
  unfold HeartbeatPing_incoming. cbn [heartbeat_sequence ping_pending].
  rewrite sequence_of_marked, !land_lor_disjoint by reflexivity.
  by rewrite Z.eqb_refl.
Qed.

Example echo_measures_round_trip_witness :
  let p1 := (HeartbeatPing_outgoing HeartbeatPing_default 7 100).1 in
  let hb := (HeartbeatPing_outgoing HeartbeatPing_default 7 100).2 in
  exists echo,
    HeartbeatPing_incoming HeartbeatPing_default hb 130 = (HeartbeatPing_default, Some echo) /\
    HeartbeatPing_incoming p1 echo 160
    = ({| ping_pending := None; last_asked := Some 100;
          samples := push_sample [] (duration_since 160 100) |}, None).
Proof.
  exact (echo_measures_round_trip HeartbeatPing_default HeartbeatPing_default 7 100 130 160
           (eq_refl true)).
Defined.

(** The reported round trip is an average of at most [SAMPLES] measurements: it lies
    between any bounds of the samples, and is unknown exactly when nothing was measured. *)
Theorem round_trip_is_average (trace : list (ping_step * Instant)) :
  let p := ping_run HeartbeatPing_default trace in
  (length (samples p) <= SAMPLES)%nat /\
  match HeartbeatPing_round_trip p with
  | Some d => samples p <> [] /\
      forall lo hi, Forall (fun x => lo <= x <= hi) (samples p) -> lo <= d <= hi
  | None => samples p = []
  end.
Proof.
  cbv zeta. destruct (ping_inv_run trace HeartbeatPing_default ping_inv_default) as (Hl & _ & _).
  set (p := ping_run _ _) in *. split; [done|].
  unfold HeartbeatPing_round_trip, try_from.
  assert (0 <= len (samples p) <= u32_max) as [H0 H1].
  { unfold SAMPLES, len, u32_max in *. lia. }
  apply Z.leb_le in H0 as ->, H1 as ->. simpl.
  destruct (0 <? len (samples p)) eqn:E; reflect_bools.
  - split; [by intros H; rewrite H in E|].
    intros lo hi Hb. apply sum_bounds in Hb.
    split; [apply Z.div_le_lower_bound|apply Z.div_le_upper_bound];
      rewrite ?(Z.mul_comm (len _)); lia.
  - apply len_0. pose proof (len_nonneg (samples p)). lia.
Qed.
