(* ===== verification/Runtime.v ===== *)
(** * Session liveness, input gating and PC pairing: [crates/edge-runtime/src/lib.rs]

    [LivenessTracker] (when input is released and when the session is dropped),
    [InputEpochGate] (whether received input may be injected), [resolve_pairing]
    (the outcome of the two-sided PC pairing) and the committed audio route of
    [audio_route.rs]. *)
From S2P Require Export Protocol.

(** ** Liveness *)

(** [edge-runtime 125-131 LivenessConfig] *)
Record LivenessConfig := {
  active_heartbeat_interval : Duration;
  idle_heartbeat_interval : Duration;
  soft_input_timeout : Duration;
  hard_session_timeout : Duration;
}.

(** [edge-runtime 134-144 LivenessConfig::default] *)
Definition LivenessConfig_default : LivenessConfig :=
  {| active_heartbeat_interval := from_millis 250;
     idle_heartbeat_interval := from_secs 1;
     soft_input_timeout := from_secs 2;
     hard_session_timeout := from_secs 5 |}.

(** [edge-runtime 148-154 LivenessConfig::heartbeat_interval] *)
Definition heartbeat_interval (self : LivenessConfig) (input_armed_or_transitioning : bool) :
  Duration :=
  if input_armed_or_transitioning then active_heartbeat_interval self
  else idle_heartbeat_interval self.

(** [edge-runtime 157-161 LivenessEvent] *)
Inductive LivenessEvent := SoftInputTimeout | HardSessionTimeout.
#[export] Instance LivenessEvent_eq_dec : EqDecision LivenessEvent.
Proof. solve_decision. Defined.

(** [edge-runtime 163-170 LivenessTracker] *)
Record LivenessTracker := {
  live_config : LivenessConfig;
  last_authenticated_activity : Instant;
  input_active_since : option Instant;
  soft_timeout_reported : bool;
  hard_timeout_reported : bool;
}.

(** [edge-runtime 173-185 LivenessTracker::new]; [None] is the failed assertion. *)
Definition LivenessTracker_new (config : LivenessConfig) (now : Instant) :
  option LivenessTracker :=
  if soft_input_timeout config <? hard_session_timeout config then
    Some {| live_config := config; last_authenticated_activity := now;
            input_active_since := None; soft_timeout_reported := false;
            hard_timeout_reported := false |}
  else None.

(** [edge-runtime 187-191 LivenessTracker::observe_authenticated_frame] *)
Definition observe_authenticated_frame (self : LivenessTracker) (now : Instant) :
  LivenessTracker :=
  {| live_config := live_config self; last_authenticated_activity := now;
     input_active_since := input_active_since self;
     soft_timeout_reported := false; hard_timeout_reported := false |}.

(** [edge-runtime 193-195 LivenessTracker::elapsed] *)
Definition live_elapsed (self : LivenessTracker) (now : Instant) : Duration :=
  duration_since now (last_authenticated_activity self).

(** [edge-runtime 197-219 LivenessTracker::poll] *)
Definition LivenessTracker_poll (self : LivenessTracker) (now : Instant) (input_active : bool) :
  LivenessTracker * option LivenessEvent :=
  let elapsed := live_elapsed self now in
  if (hard_session_timeout (live_config self) <=? elapsed)
     && negb (hard_timeout_reported self) then
    ({| live_config := live_config self;
        last_authenticated_activity := last_authenticated_activity self;
        input_active_since := input_active_since self;
        soft_timeout_reported := soft_timeout_reported self;
        hard_timeout_reported := true |}, Some HardSessionTimeout)
  else if negb input_active then
    ({| live_config := live_config self;
        last_authenticated_activity := last_authenticated_activity self;
        input_active_since := None;
        soft_timeout_reported := false;
        hard_timeout_reported := hard_timeout_reported self |}, None)
  else
    let since := default now (input_active_since self) in
    let soft_timeout_baseline := Z.max (last_authenticated_activity self) since in
    let fires := (soft_input_timeout (live_config self)
                  <=? duration_since now soft_timeout_baseline)
                 && negb (soft_timeout_reported self) in
    ({| live_config := live_config self;
        last_authenticated_activity := last_authenticated_activity self;
        input_active_since := Some since;
        soft_timeout_reported := soft_timeout_reported self || fires;
        hard_timeout_reported := hard_timeout_reported self |},
     if fires then Some SoftInputTimeout else None).

(** The events of a sequence of polls with no frame received in between. *)
Fixpoint poll_events (t : LivenessTracker) (polls : list (Instant * bool)) :
  list LivenessEvent :=
  match polls with
  | [] => []
  | (now, active) :: rest =>
      let '(t', e) := LivenessTracker_poll t now active in
      match e with
      | Some e => e :: poll_events t' rest
      | None => poll_events t' rest
      end
  end.

(** ** The input gate *)

(** [edge-runtime 222-225 InputEpochGate] *)
Record InputEpochGate := { suspended : bool }.
(** [edge-runtime 228-230 InputEpochGate::default] *)
Definition InputEpochGate_default : InputEpochGate := {| suspended := true |}.
(** [edge-runtime 267-269 InputEpochGate::suspend] *)
Definition gate_suspend (self : InputEpochGate) : InputEpochGate := {| suspended := true |}.
(** [edge-runtime 271-273 InputEpochGate::is_suspended] *)
Definition is_suspended (self : InputEpochGate) : bool := suspended self.
(** [edge-runtime 275-279 InputEpochGate::observe_control] *)
Definition gate_observe_control (self : InputEpochGate) (control : ControlEvent) :
  InputEpochGate :=
  match control with EnterRemote _ _ => {| suspended := false |} | _ => self end.
(** [edge-runtime 281-283 InputEpochGate::accepts_input] *)
Definition accepts_input (self : InputEpochGate) : bool := negb (suspended self).

Inductive gate_step := Gate_suspend | Gate_control (control : ControlEvent).
Definition gate_run_step (g : InputEpochGate) (s : gate_step) : InputEpochGate :=
  match s with Gate_suspend => gate_suspend g | Gate_control c => gate_observe_control g c end.

(** ** Pairing two computers *)

(** [edge-runtime 233-237 PairingStatus] *)
Record PairingStatus := { trusted : bool; armed : bool }.
(** [edge-runtime 239-246 PairingResolution] *)
Inductive PairingResolution :=
| AlreadyTrusted | ApprovalRequired | NotArmed | Declined | Accepted.

(** [edge-runtime 248-264 resolve_pairing] *)
Definition resolve_pairing (local peer : PairingStatus) (decisions : option (bool * bool)) :
  PairingResolution :=
  if trusted local && trusted peer then AlreadyTrusted
  else if negb (armed local) || negb (armed peer) then NotArmed
  else match decisions with
       | None => ApprovalRequired
       | Some (true, true) => Accepted
       | Some _ => Declined
       end.

(** ** The committed audio route *)

(** [edge-runtime/audio_route 9-9 AUDIO_ROUTE_STATE_VERSION] *)
Definition AUDIO_ROUTE_STATE_VERSION : Z := 1.
(** [edge-runtime/audio_route 11-21 CommittedAudioRoute] *)
Record CommittedAudioRoute := { route_version : Z; route_source : option string }.
(** [edge-runtime/audio_route 24-29 CommittedAudioRoute::disabled] *)
Definition route_disabled : CommittedAudioRoute :=
  {| route_version := AUDIO_ROUTE_STATE_VERSION; route_source := None |}.
(** [edge-runtime/audio_route 31-36 CommittedAudioRoute::from_source] *)
Definition route_from_source (source_fingerprint : string) : CommittedAudioRoute :=
  {| route_version := AUDIO_ROUTE_STATE_VERSION; route_source := Some source_fingerprint |}.
(** [edge-runtime/audio_route 38-44 CommittedAudioRoute::belongs_to] *)
Definition route_belongs_to (self : CommittedAudioRoute) (first second : string) : bool :=
  (route_version self =? AUDIO_ROUTE_STATE_VERSION)
  && is_none_or (fun source => str_eqb source first || str_eqb source second)
       (route_source self).

(** ** Lemmas *)

Lemma poll_config t now a : live_config (LivenessTracker_poll t now a).1 = live_config t.
Proof. unfold LivenessTracker_poll. by repeat case_match. Qed.

Lemma poll_activity t now a :
  last_authenticated_activity (LivenessTracker_poll t now a).1
  = last_authenticated_activity t.
Proof. unfold LivenessTracker_poll. by repeat case_match. Qed.

(** Once a hard timeout is reported it is not reported again. *)
Lemma hard_reported_once t polls :
  hard_timeout_reported t = true -> HardSessionTimeout ∉ poll_events t polls.
Proof.
  revert t. induction polls as [|[now a] polls IH]; intros t H; simpl; [set_solver|].
  unfold LivenessTracker_poll. rewrite H, andb_false_r.
  destruct a; simpl; [|by apply IH].
  destruct (_ && negb (soft_timeout_reported t)); [|by apply IH].
  apply not_elem_of_cons. split; [congruence|by apply IH].
Qed.

(** An active poll before the soft deadline reports nothing, one at or after it
    reports the soft timeout, provided the hard deadline is not reached. *)
Lemma active_poll t now since
    (Hsince : input_active_since t = Some since)
    (Hbefore : since <= last_authenticated_activity t)
    (Hhard : hard_timeout_reported t = true
             \/ now < last_authenticated_activity t + hard_session_timeout (live_config t)) 
    (Hpos : 0 < soft_input_timeout (live_config t) < hard_session_timeout (live_config t)) :
  let fires := (last_authenticated_activity t + soft_input_timeout (live_config t) <=? now)
               && negb (soft_timeout_reported t) in
  LivenessTracker_poll t now true
  = ({| live_config := live_config t;
        last_authenticated_activity := last_authenticated_activity t;
        input_active_since := Some since;
        soft_timeout_reported := soft_timeout_reported t || fires;
        hard_timeout_reported := hard_timeout_reported t |},
     if fires then Some SoftInputTimeout else None).
Proof.
  unfold LivenessTracker_poll, live_elapsed. rewrite Hsince. cbn [default].
  replace ((_ <=? duration_since now (last_authenticated_activity t))
           && negb (hard_timeout_reported t)) with false.
  2: { symmetry. apply andb_false_iff. destruct Hhard as [->|H]; [by right|left].
       apply Z.leb_gt. unfold duration_since. lia. }
  rewrite Z.max_l by done. cbn [negb].
  assert ((soft_input_timeout (live_config t)
           <=? duration_since now (last_authenticated_activity t))
          = (last_authenticated_activity t + soft_input_timeout (live_config t) <=? now)) as ->.
  { apply eq_true_iff_eq. rewrite !Z.leb_le. unfold duration_since. lia. }
  reflexivity.
Qed.

(** Nothing is left to report once both timeouts were. *)
Lemma all_reported t since polls
    (Hsince : input_active_since t = Some since)
    (Hbefore : since <= last_authenticated_activity t)
    (Hpos : 0 < soft_input_timeout (live_config t) < hard_session_timeout (live_config t)) :
  soft_timeout_reported t = true -> hard_timeout_reported t = true ->
  poll_events t (map (fun now => (now, true)) polls) = [].
Proof.
  revert t Hsince Hbefore Hpos.
  induction polls as [|now polls IH]; intros t Hsince Hb Hpos Hs Hh; simpl; [done|].
  rewrite (active_poll t now since) by eauto. rewrite Hs, Hh, andb_false_r. simpl.
  by apply IH.
Qed.

(** After the soft timeout only the hard one is left. *)
Lemma after_soft t since polls
    (Hsince : input_active_since t = Some since)
    (Hbefore : since <= last_authenticated_activity t)
    (Hpos : 0 < soft_input_timeout (live_config t) < hard_session_timeout (live_config t)) :
  soft_timeout_reported t = true -> hard_timeout_reported t = false ->
  poll_events t (map (fun now => (now, true)) polls) = [] \/
  poll_events t (map (fun now => (now, true)) polls) = [HardSessionTimeout].
Proof.
  revert t Hsince Hbefore Hpos.
  induction polls as [|now polls IH]; intros t Hsince Hb Hpos Hs Hh; simpl; [by left|].
  destruct (decide (now < last_authenticated_activity t
                          + hard_session_timeout (live_config t))) as [Hlt|Hge].
  - rewrite (active_poll t now since) by eauto. rewrite Hs, andb_false_r. simpl.
    by apply IH.
  - right. unfold LivenessTracker_poll, live_elapsed. rewrite Hh.
    replace (_ <=? _) with true.
    2: { symmetry. apply Z.leb_le. unfold duration_since. lia. }
    simpl. f_equal. by apply (all_reported _ since).
Qed.

(** ** Properties *)

(** With input continuously owned since the last authenticated frame, and polls spaced
    by at most the margin between the two timeouts, a silent peer produces nothing, then
    one soft release, then one hard disconnect: input is always released before the
    session is dropped, and neither is reported twice. *)
Theorem soft_release_precedes_disconnect (t : LivenessTracker) (since : Instant)
    (polls : list Instant)
    (Hconfig : 0 < soft_input_timeout (live_config t) < hard_session_timeout (live_config t))
    (Hsince : input_active_since t = Some since)
    (Hbefore : since <= last_authenticated_activity t)
    (Hfresh : soft_timeout_reported t = false /\ hard_timeout_reported t = false)
    (Hgaps : forall i earlier later,
        (last_authenticated_activity t :: polls) !! i = Some earlier ->
        polls !! i = Some later ->
        later <= earlier + (hard_session_timeout (live_config t)
                            - soft_input_timeout (live_config t))) :
  let events := poll_events t (map (fun now => (now, true)) polls) in
  events = [] \/ events = [SoftInputTimeout]
  \/ events = [SoftInputTimeout; HardSessionTimeout].
Proof.
  cbv zeta. destruct Hfresh as [Hs Hh].
  assert (exists prev, prev < last_authenticated_activity t
                              + soft_input_timeout (live_config t) /\
    forall i earlier later, (prev :: polls) !! i = Some earlier ->
        polls !! i = Some later ->
        later <= earlier + (hard_session_timeout (live_config t)
                            - soft_input_timeout (live_config t)))
    as (prev & Hprev & Hg) by (exists (last_authenticated_activity t); split; [lia|done]).
  clear Hgaps. revert prev t Hprev Hg Hconfig Hsince Hbefore Hs Hh.
  induction polls as [|now polls IH]; intros prev t Hprev Hg Hpos Hsince Hb Hs Hh; simpl;
    [by left|].
  assert (now < last_authenticated_activity t + hard_session_timeout (live_config t)).
  { pose proof (Hg 0%nat prev now eq_refl eq_refl). lia. }
  rewrite (active_poll t now since) by eauto. rewrite Hs. cbn [negb orb]. rewrite andb_true_r.
  destruct (_ <=? now) eqn:E; reflect_bools.
  - edestruct (after_soft
      {| live_config := live_config t;
         last_authenticated_activity := last_authenticated_activity t;
         input_active_since := Some since; soft_timeout_reported := true;
         hard_timeout_reported := hard_timeout_reported t |} since polls) as [->| ->];
      naive_solver.
  - apply (IH now); simpl; auto.
    intros i earlier later He Hl. by apply (Hg (S i) earlier later).
Qed.

Example soft_release_precedes_disconnect_witness :
  let t := {| live_config := LivenessConfig_default; last_authenticated_activity := 0;
              input_active_since := Some 0; soft_timeout_reported := false;
              hard_timeout_reported := false |} in
  let events := poll_events t (map (fun now => (now, true)) [from_secs 2; from_secs 5]) in
  events = [] \/ events = [SoftInputTimeout]
  \/ events = [SoftInputTimeout; HardSessionTimeout].
Proof.
  apply (soft_release_precedes_disconnect _ 0); simpl; try (vm_compute; intuition congruence).
  intros [|[|i]] earlier later; simpl; intros; simplify_eq; vm_compute; congruence.
Defined.

(** Between two received frames the hard timeout is reported at most once, and it is
    reported exactly when some poll comes at least [hard_session_timeout] after the last
    frame, whatever the polls said about input. *)
Theorem hard_timeout_reported_exactly_once (t : LivenessTracker)
    (polls : list (Instant * bool)) (Hfresh : hard_timeout_reported t = false) :
  count_occ (decide_rel (=)) (poll_events t polls) HardSessionTimeout
  = if existsb (fun '(now, _) =>
          hard_session_timeout (live_config t) <=? live_elapsed t now) polls
    then 1%nat else 0%nat.
Proof.
  revert t Hfresh. induction polls as [|[now a] polls IH]; intros t H; [done|].
  cbn [poll_events existsb].
  assert (forall t', live_config t' = live_config t ->
     last_authenticated_activity t' = last_authenticated_activity t ->
     hard_timeout_reported t' = false ->
     count_occ (decide_rel (=)) (poll_events t' polls) HardSessionTimeout
     = if existsb (fun '(now, _) =>
            hard_session_timeout (live_config t) <=? live_elapsed t now) polls
       then 1%nat else 0%nat) as IH'.
  { intros t' Hc Ha Hf. rewrite IH by done. unfold live_elapsed. by rewrite Hc, Ha. }
  unfold LivenessTracker_poll at 1. rewrite H, andb_true_r.
  destruct (hard_session_timeout _ <=? live_elapsed t now); cbn [orb].
  - rewrite count_occ_cons_eq by done. f_equal. apply count_occ_not_In.
    rewrite <- list_elem_of_In. by apply hard_reported_once.
  - destruct a; cbn [negb]; [|by apply IH'].
    destruct (_ && negb (soft_timeout_reported t));
      [rewrite count_occ_cons_neq by done|]; by apply IH'.
Qed.

Example hard_timeout_reported_exactly_once_witness :
  count_occ (decide_rel (=))
    (poll_events {| live_config := LivenessConfig_default; last_authenticated_activity := 0;
                    input_active_since := None; soft_timeout_reported := false;
                    hard_timeout_reported := false |}
       [(from_secs 4, false); (from_secs 5, false); (from_secs 6, true)])
    HardSessionTimeout = 1%nat.
Proof. rewrite hard_timeout_reported_exactly_once; reflexivity. Defined.

(** Input is injected only inside an entry: after any sequence of suspensions and control
    events a gate that started closed accepts input if and only if an [EnterRemote] came
    after the last suspension. *)
Theorem input_needs_fresh_entry (steps : list gate_step) :
  accepts_input (fold_left gate_run_step steps InputEpochGate_default) = true <->
  exists before edge position after,
    steps = before ++ Gate_control (EnterRemote edge position) :: after
    /\ Gate_suspend ∉ after.
Proof.
  induction steps as [|s steps IH] using rev_ind.
  - split; [done|]. intros ([] & ? & ? & ? & ? & _); done.
  - rewrite fold_left_app. cbn [fold_left].
    set (g := fold_left _ _ _) in *. destruct s as [|c].
    + split; [done|]. intros (b & e & p & a & Heq & Ha). exfalso. apply Ha.
      destruct a as [|x a _] using rev_ind; [by apply app_inj_tail in Heq as [_ ?]|].
      rewrite app_comm_cons, app_assoc in Heq. apply app_inj_tail in Heq as [_ <-].
      set_solver.
    + assert ((exists e p, c = EnterRemote e p) \/ forall e p, c <> EnterRemote e p)
        as [(e & p & ->)|Hc] by (destruct c; eauto; right; congruence).
      * split; [|done]. intros _. exists steps, e, p, []. set_solver.
      * assert (gate_run_step g (Gate_control c) = g) as ->.
        { destruct c; try done. by edestruct Hc. }
        rewrite IH. split; intros (b & e & p & a & Heq & Ha).
        -- exists b, e, p, (a ++ [Gate_control c]). rewrite Heq, <- app_assoc. set_solver.
        -- destruct a as [|x a _] using rev_ind.
           ++ apply app_inj_tail in Heq as [_ [= ->]]. by edestruct Hc.
           ++ rewrite app_comm_cons, app_assoc in Heq.
              apply app_inj_tail in Heq as [-> _]. exists b, e, p, a. set_solver.
Qed.

(** The two computers that exchange their status and decision reach the same resolution,
    and pairing is accepted only when both sides were armed, one did not yet trust the
    other, and both users said yes. *)
Theorem pairing_resolution_agrees (local peer : PairingStatus)
    (decisions : option (bool * bool)) :
  resolve_pairing peer local (prod_swap <$> decisions) = resolve_pairing local peer decisions
  /\ (resolve_pairing local peer decisions = Accepted <->
      armed local = true /\ armed peer = true
      /\ (trusted local = false \/ trusted peer = false)
      /\ decisions = Some (true, true)).
Proof.
  destruct local as [[] []], peer as [[] []], decisions as [[[] []]|];
    (split; [reflexivity|]); split; naive_solver.
Qed.
