(* ===== verification/Role.v ===== *)
(** * Who controls: [crates/edge-runtime/src/role.rs]

    [RoleCoordinator] is the connector's serialization of the two-node role
    assignment; [validate_prepare] and [validate_commit] are the checks the
    listener makes on what the coordinator sends.  The methods that take
    [&mut self] are computations of the state and error monad: a failed method
    keeps the changes it made. *)
From S2P Require Export Protocol.

(** [edge-runtime/role 10-10 ROLE_STATE_VERSION] *)
Definition ROLE_STATE_VERSION : Z := 1.

(** [edge-runtime/role 12-16 InputDirectionCapabilities] *)
Record InputDirectionCapabilities := {
  controller_can_capture : bool;
  receiver_can_inject : bool;
}.

(** [edge-runtime/role 19-21 InputDirectionCapabilities::complete] *)
Definition capabilities_complete (self : InputDirectionCapabilities) : bool :=
  controller_can_capture self && receiver_can_inject self.

(** [edge-runtime/role 24-46 select_initial_controller] *)
Definition select_initial_controller (connector_fingerprint listener_fingerprint : string)
    (prefer_connector : bool) (connector_controls listener_controls : InputDirectionCapabilities) :
  option string :=
  let preferred := if prefer_connector then (connector_fingerprint, connector_controls)
                   else (listener_fingerprint, listener_controls) in
  let fallback := if prefer_connector then (listener_fingerprint, listener_controls)
                  else (connector_fingerprint, connector_controls) in
  if capabilities_complete preferred.2 then Some preferred.1
  else if capabilities_complete fallback.2 then Some fallback.1
  else None.

(** [edge-runtime/role 48-64 RoleStateError] *)
Inductive RoleStateError :=
| UnknownController
| TransitionInProgress
| EpochOverflow
| UnexpectedEpoch (expected actual : Z)
| ControllerMismatch
| InvalidTransition
| NoTransition.
#[export] Instance RoleStateError_eq_dec : EqDecision RoleStateError.
Proof. solve_decision. Defined.

(** [edge-runtime/role 66-70 RoleDecision] *)
Inductive RoleDecision := Decision_Commit (state : RoleState) | Decision_Abort (state : RoleState).

(** [edge-runtime/role 72-77 PendingRole] *)
Record PendingRole := {
  previous : RoleState;
  pending_controller_fingerprint : string;
  proposed_epoch : Z;
}.

(** [edge-runtime/role 79-86 RoleCoordinator] *)
Record RoleCoordinator := {
  connector_fingerprint : string;
  listener_fingerprint : string;
  stable : RoleState;
  pending : option PendingRole;
}.

Definition with_stable : RoleState -> RoleCoordinator -> RoleCoordinator :=
  ltac:(field_setter stable).
Definition with_pending : option PendingRole -> RoleCoordinator -> RoleCoordinator :=
  ltac:(field_setter pending).

Abbreviation coordinated := (stateful RoleCoordinator RoleStateError).

(** [edge-runtime/role 89-115 RoleCoordinator::new] *)
Definition RoleCoordinator_new (connector listener : string) (controller : option string)
    (epoch : Z) (position : Edge) (is_paused : bool) : result RoleCoordinator RoleStateError :=
  if is_some_and (fun c => negb (str_eqb c connector) && negb (str_eqb c listener)) controller
  then Err UnknownController
  else Ok {| connector_fingerprint := connector; listener_fingerprint := listener;
             stable := {| controller_fingerprint := controller; role_epoch := epoch;
                          transition := Stable; listener_position := position;
                          paused := is_paused; failure_detail := None |};
             pending := None |}.

(** [edge-runtime/role 117-119 RoleCoordinator::state] *)
Definition coordinator_state (self : RoleCoordinator) : RoleState := stable self.

(** [edge-runtime/role 121-123 RoleCoordinator::is_transitioning] *)
Definition is_transitioning (self : RoleCoordinator) : bool :=
  bool_decide (is_Some (pending self)).

(** [edge-runtime/role 125-131 RoleCoordinator::set_paused] *)
Definition RoleCoordinator_set_paused (is_paused : bool) : coordinated RoleState :=
  self <-! st_get;;
  do! st_ensure (negb (is_transitioning self)) TransitionInProgress;;
  let s := stable self in
  let s' := {| controller_fingerprint := controller_fingerprint s; role_epoch := role_epoch s;
               transition := transition s; listener_position := listener_position s;
               paused := is_paused; failure_detail := failure_detail s |} in
  do! st_put (with_stable s' self);;
  st_ret s'.

(** [edge-runtime/role 133-163 RoleCoordinator::prepare] *)
Definition RoleCoordinator_prepare (controller : string) : coordinated RoleState :=
  self <-! st_get;;
  do! st_ensure (negb (is_transitioning self)) TransitionInProgress;;
  do! st_ensure (str_eqb controller (connector_fingerprint self)
                 || str_eqb controller (listener_fingerprint self)) UnknownController;;
  epoch <-! st_lift (ok_or (checked_add u64_max (role_epoch (stable self)) 1) EpochOverflow);;
  let prepare :=
    {| controller_fingerprint := Some controller; role_epoch := epoch;
       transition := Preparing controller;
       listener_position := listener_position (stable self);
       paused := paused (stable self); failure_detail := None |} in
  do! st_put (with_pending (Some {| previous := stable self;
                                    pending_controller_fingerprint := controller;
                                    proposed_epoch := epoch |}) self);;
  st_ret prepare.

(** The state reported for a transition given up with [detail]. *)
Definition failed_state (s : RoleState) (detail : option string) : RoleState :=
  {| controller_fingerprint := controller_fingerprint s; role_epoch := role_epoch s;
     transition := Failed; listener_position := listener_position s;
     paused := paused s; failure_detail := detail |}.

(** The state the pending transition [p] commits. *)
Definition committed_state (p : PendingRole) : RoleState :=
  {| controller_fingerprint := Some (pending_controller_fingerprint p);
     role_epoch := proposed_epoch p; transition := Stable;
     listener_position := listener_position (previous p);
     paused := paused (previous p); failure_detail := None |}.

(** [edge-runtime/role 165-202 RoleCoordinator::finish_ready] *)
Definition finish_ready (epoch : Z) (local_capture local_inject remote_capture remote_inject : bool)
    (detail : option string) : coordinated RoleDecision :=
  self <-! st_get;;
  match pending self with
  | None => st_fail NoTransition
  | Some p =>
      if negb (epoch =? proposed_epoch p) then st_fail (UnexpectedEpoch (proposed_epoch p) epoch)
      else if local_capture && local_inject && remote_capture && remote_inject then
        do! st_put (with_pending None (with_stable (committed_state p) self));;
        st_ret (Decision_Commit (committed_state p))
      else
        do! st_put (with_pending None (with_stable (previous p) self));;
        st_ret (Decision_Abort (failed_state (previous p)
          (option_or detail (Some "one or more input backends were not ready"))))
  end.

(** [edge-runtime/role 204-211 RoleCoordinator::abort] *)
Definition RoleCoordinator_abort (detail : string) : coordinated RoleState :=
  self <-! st_get;;
  match pending self with
  | None => st_fail NoTransition
  | Some p =>
      do! st_put (with_pending None (with_stable (previous p) self));;
      st_ret (failed_state (previous p) (Some detail))
  end.

(** [edge-runtime/role 214-243 validate_prepare] *)
Definition validate_prepare (current prepare : RoleState) (connector listener : string) :
  result unit RoleStateError :=
  match transition prepare with
  | Preparing proposed =>
      ensure! str_eqb proposed connector || str_eqb proposed listener
        else UnknownController;;
      ensure! bool_decide (controller_fingerprint prepare = Some proposed)
        else ControllerMismatch;;
      let? expected := ok_or (checked_add u64_max (role_epoch current) 1) EpochOverflow in
      ensure! role_epoch prepare =? expected
        else UnexpectedEpoch expected (role_epoch prepare);;
      Ok tt
  | _ => Err InvalidTransition
  end.

(** [edge-runtime/role 245-261 validate_commit] *)
Definition validate_commit (prepared commit : RoleState) : result unit RoleStateError :=
  match transition prepared, transition commit with
  | Preparing _, Stable =>
      ensure! role_epoch prepared =? role_epoch commit
        else UnexpectedEpoch (role_epoch prepared) (role_epoch commit);;
      ensure! bool_decide (controller_fingerprint prepared = controller_fingerprint commit)
        else ControllerMismatch;;
      Ok tt
  | _, _ => Err InvalidTransition
  end.

(** [edge-runtime/role 263-268 CommittedRole] *)
Record CommittedRole := { committed_version : Z; committed_controller : string }.

(** [edge-runtime/role 275-280 CommittedRole::new] *)
Definition CommittedRole_new (controller : string) : CommittedRole :=
  {| committed_version := ROLE_STATE_VERSION; committed_controller := controller |}.

(** [edge-runtime/role 282-285 CommittedRole::belongs_to] *)
Definition CommittedRole_belongs_to (self : CommittedRole) (first second : string) : bool :=
  (committed_version self =? ROLE_STATE_VERSION)
  && (str_eqb (committed_controller self) first || str_eqb (committed_controller self) second).

(** ** The coordinator as a transition system *)

Inductive role_op :=
| Op_SetPaused (is_paused : bool)
| Op_Prepare (controller : string)
| Op_Ready (epoch : Z) (local_capture local_inject remote_capture remote_inject : bool)
    (detail : option string)
| Op_Abort (detail : string).

(** The state after an operation, whether it succeeded or not. *)
Definition run_role_op (c : RoleCoordinator) (o : role_op) : RoleCoordinator :=
  match o with
  | Op_SetPaused b => (RoleCoordinator_set_paused b c).1
  | Op_Prepare f => (RoleCoordinator_prepare f c).1
  | Op_Ready e lc li rc ri d => (finish_ready e lc li rc ri d c).1
  | Op_Abort d => (RoleCoordinator_abort d c).1
  end.

Definition in_pair (c : RoleCoordinator) (f : string) : Prop :=
  f = connector_fingerprint c \/ f = listener_fingerprint c.

(** What every reachable coordinator satisfies. *)
Record coordinator_inv (c : RoleCoordinator) : Prop := {
  inv_stable : transition (stable c) = Stable;
  inv_detail : failure_detail (stable c) = None;
  inv_controller : forall f, controller_fingerprint (stable c) = Some f -> in_pair c f;
  inv_epoch : in_u64 (role_epoch (stable c));
  inv_pending : forall p, pending c = Some p ->
    previous p = stable c
    /\ in_pair c (pending_controller_fingerprint p)
    /\ proposed_epoch p = role_epoch (stable c) + 1
    /\ in_u64 (proposed_epoch p);
}.

Lemma run_role_op_identities c o :
  connector_fingerprint (run_role_op c o) = connector_fingerprint c
  /\ listener_fingerprint (run_role_op c o) = listener_fingerprint c.
Proof.
  destruct o; cbn [run_role_op];
    unfold RoleCoordinator_set_paused, RoleCoordinator_prepare, finish_ready,
      RoleCoordinator_abort, st_bind, st_get, st_put, st_ret, st_fail, st_lift, st_ensure, ok_or;
    destruct (is_transitioning c), (pending c); simpl;
    try destruct (_ || _), (checked_add _ _ _); simpl; try done;
    repeat match goal with |- context [if ?b then _ else _] => destruct b; simpl end; done.
Qed.

(** [prepare], branch by branch. *)
Lemma prepare_spec c f (Hinv : coordinator_inv c) :
  RoleCoordinator_prepare f c =
  if is_transitioning c then (c, Err TransitionInProgress)
  else if negb (str_eqb f (connector_fingerprint c) || str_eqb f (listener_fingerprint c))
  then (c, Err UnknownController)
  else if role_epoch (stable c) =? u64_max then (c, Err EpochOverflow)
  else (with_pending (Some {| previous := stable c; pending_controller_fingerprint := f;
                              proposed_epoch := role_epoch (stable c) + 1 |}) c,
        Ok {| controller_fingerprint := Some f; role_epoch := role_epoch (stable c) + 1;
              transition := Preparing f; listener_position := listener_position (stable c);
              paused := paused (stable c); failure_detail := None |}).
Proof.
  unfold RoleCoordinator_prepare, st_bind, st_get, st_ensure, st_lift, st_put, st_ret, st_fail.
  destruct (is_transitioning c); [done|]; cbn [negb].
  destruct (_ || _); [|done]; cbn [negb].
  destruct (inv_epoch _ Hinv) as [H0 H1]. unfold checked_add.
  destruct (Z.leb_spec (role_epoch (stable c) + 1) u64_max),
    (Z.eqb_spec (role_epoch (stable c)) u64_max); try lia; done.
Qed.

Lemma coordinator_inv_step c o : coordinator_inv c -> coordinator_inv (run_role_op c o).
Proof.
  intros Hinv. pose proof Hinv as [Hs Hd Hc He Hp].
  destruct o as [b|f|e lc li rc ri d|d]; cbn [run_role_op].
  - unfold RoleCoordinator_set_paused, st_bind, st_get, st_ensure, st_put, st_ret, st_fail,
      is_transitioning.
    case_bool_decide as Hb; [done|]. cbn [negb fst].
    split; simpl; try done. intros p Hpp. destruct Hb. eauto.
  - rewrite prepare_spec by done. destruct (is_transitioning c); [done|].
    destruct (negb _) eqn:E; [done|]. destruct (Z.eqb_spec (role_epoch (stable c)) u64_max);
      [done|].
    split; simpl; try done. intros p [= <-]; simpl.
    apply negb_false_iff, orb_true_iff in E.
    rewrite !str_eqb_spec in E. split_and!; try done; unfold in_range in *; lia.
  - unfold finish_ready, st_bind, st_get, st_put, st_ret, st_fail.
    destruct (pending c) as [p|] eqn:Ep; [|done].
    destruct (Hp p eq_refl) as (H1 & H2 & H3 & H4).
    destruct (negb _); [done|]. destruct (_ && ri); split; simpl; try done.
    + intros g [= <-]. done.
    + by rewrite H1.
    + by rewrite H1.
    + by rewrite H1.
    + by rewrite H1.
  - unfold RoleCoordinator_abort, st_bind, st_get, st_put, st_ret, st_fail.
    destruct (pending c) as [p|] eqn:Ep; [|done].
    destruct (Hp p eq_refl) as (H1 & _).
    split; simpl; rewrite ?H1; done.
Qed.

Lemma coordinator_inv_run c ops :
  coordinator_inv c -> coordinator_inv (fold_left run_role_op ops c).
Proof.
  revert c. induction ops as [|o ops IH]; intros c H; simpl; [done|].
  by apply IH, coordinator_inv_step.
Qed.

Lemma coordinator_inv_new connector listener controller epoch position is_paused c :
  in_u64 epoch ->
  RoleCoordinator_new connector listener controller epoch position is_paused = Ok c ->
  coordinator_inv c.
Proof.
  intros He. unfold RoleCoordinator_new. destruct controller as [f|]; simpl.
  - destruct (_ && _) eqn:E; [done|]. intros [= <-]. split; simpl; try done.
    intros g [= <-]. unfold in_pair; simpl. reflect_bools.
    destruct E as [E|E]; reflect_bools; auto.
  - intros [= <-]. by split.
Qed.

(** Only a commit changes the epoch, by one. *)
Lemma role_op_epoch c o (Hinv : coordinator_inv c) :
  role_epoch (stable (run_role_op c o)) = role_epoch (stable c)
  /\ controller_fingerprint (stable (run_role_op c o)) = controller_fingerprint (stable c)
  \/ role_epoch (stable (run_role_op c o)) = role_epoch (stable c) + 1
     /\ exists f d, pending c = Some f /\ o = Op_Ready (role_epoch (stable c) + 1)
                                             true true true true d
     /\ controller_fingerprint (stable (run_role_op c o))
        = Some (pending_controller_fingerprint f).
Proof.
  destruct o as [b|f|e lc li rc ri d|d]; cbn [run_role_op].
  - left. unfold RoleCoordinator_set_paused, st_bind, st_get, st_ensure, st_put, st_ret, st_fail.
    by destruct (negb _).
  - left. rewrite prepare_spec by done. by repeat case_match.
  - unfold finish_ready, st_bind, st_get, st_put, st_ret, st_fail.
    destruct (pending c) as [p|] eqn:Ep; [|by left].
    destruct (inv_pending _ Hinv p Ep) as (H1 & H2 & H3 & H4).
    destruct (Z.eqb_spec e (proposed_epoch p)) as [->|]; cbn [negb]; [|by left].
    destruct lc, li, rc, ri; cbn; try (left; by rewrite H1).
    right. split; [done|]. exists p, d. by rewrite H3.
  - left. unfold RoleCoordinator_abort, st_bind, st_get, st_put, st_ret, st_fail.
    destruct (pending c) as [p|] eqn:Ep; [|done].
    destruct (inv_pending _ Hinv p Ep) as (H1 & _). simpl. by rewrite H1.
Qed.

(** The coordinator of a fresh session of ["a"], which controls, with ["b"]. *)
Definition sample_coordinator : RoleCoordinator :=
  {| connector_fingerprint := "a"; listener_fingerprint := "b";
     stable := {| controller_fingerprint := Some "a"%string; role_epoch := 1;
                  transition := Stable; listener_position := Edge_Left;
                  paused := false; failure_detail := None |};
     pending := None |}.

Lemma sample_coordinator_inv : coordinator_inv sample_coordinator.
Proof.
  by apply (coordinator_inv_new "a" "b" (Some "a"%string) 1 Edge_Left false).
Qed.

(** ** Properties *)

(** Whatever operations follow its creation, the coordinator's stable state stays
    well-formed: it is [Stable] without failure detail, its controller is one of the two
    authenticated nodes, and a pending transition proposes one of the two nodes at exactly
    the next epoch over the current stable state. *)
Theorem coordinator_stays_well_formed (connector listener : string)
    (controller : option string) (epoch : Z) (position : Edge) (is_paused : bool)
    (c : RoleCoordinator) (ops : list role_op)
    (Hepoch : in_u64 epoch)
    (Hnew : RoleCoordinator_new connector listener controller epoch position is_paused = Ok c) :
  coordinator_inv (fold_left run_role_op ops c).
Proof. eauto using coordinator_inv_run, coordinator_inv_new. Qed.

Example coordinator_stays_well_formed_witness :
  coordinator_inv
    (fold_left run_role_op [Op_Prepare "b"; Op_Ready 2 true true true true None; Op_Prepare "a"] sample_coordinator).
Proof.
  apply (coordinator_stays_well_formed "a" "b" (Some "a"%string) 1 Edge_Left false);
    [by unfold in_range, u64_max|reflexivity].
Defined.

(** The epoch and the controller change together and only by a commit: any single
    operation on a well-formed coordinator either leaves both alone, or is the [Ready] of
    the pending epoch with all four readiness bits set, which advances the epoch by exactly
    one and installs the prepared controller. *)
Theorem epoch_advances_only_on_commit (c : RoleCoordinator) (o : role_op)
    (Hinv : coordinator_inv c) :
  role_epoch (stable (run_role_op c o)) = role_epoch (stable c)
  /\ controller_fingerprint (stable (run_role_op c o)) = controller_fingerprint (stable c)
  \/ role_epoch (stable (run_role_op c o)) = role_epoch (stable c) + 1
     /\ exists p d, pending c = Some p /\ o = Op_Ready (role_epoch (stable c) + 1)
                                             true true true true d
     /\ controller_fingerprint (stable (run_role_op c o))
        = Some (pending_controller_fingerprint p).
Proof. by apply role_op_epoch. Qed.

Example epoch_advances_only_on_commit_witness :
  let c := (RoleCoordinator_prepare "b" sample_coordinator).1 in
  coordinator_inv c /\
  role_epoch (stable (run_role_op c (Op_Abort "gone"))) = role_epoch (stable c).
Proof.
  match goal with |- let c := ?c0 in _ => assert (coordinator_inv c0) as H end.
  { apply (coordinator_inv_step _ (Op_Prepare "b")), sample_coordinator_inv. }
  split; [exact H|].
  destruct (epoch_advances_only_on_commit _ (Op_Abort "gone") H) as [[? _]|(_ & p & d & _ & Ho & _)];
    [done|discriminate Ho].
Defined.

(** The coordinator and its peer agree on the protocol: what [prepare] sends passes the
    listener's [validate_prepare] against the coordinator's stable state, and when every
    backend is ready the [Commit] that follows passes [validate_commit] against that
    prepare, carries the same controller and epoch, and becomes the new stable state. *)
Theorem prepare_then_commit_accepted (c c1 : RoleCoordinator) (f : string) (prepare : RoleState)
    (detail : option string) (Hinv : coordinator_inv c)
    (Hprepare : RoleCoordinator_prepare f c = (c1, Ok prepare)) :
  validate_prepare (stable c) prepare (connector_fingerprint c) (listener_fingerprint c) = Ok tt
  /\ exists c2 commit,
       finish_ready (role_epoch prepare) true true true true detail c1
       = (c2, Ok (Decision_Commit commit))
     /\ validate_commit prepare commit = Ok tt
     /\ stable c2 = commit /\ pending c2 = None
     /\ controller_fingerprint commit = Some f
     /\ role_epoch commit = role_epoch (stable c) + 1.
Proof.
  rewrite prepare_spec in Hprepare by done.
  destruct (is_transitioning c); [done|].
  destruct (str_eqb f _ || _) eqn:Ef; [|done]; cbn [negb] in Hprepare.
  destruct (Z.eqb_spec (role_epoch (stable c)) u64_max) as [|Hne]; [done|].
  simplify_eq/=. split.
  - unfold validate_prepare; cbn [transition role_epoch controller_fingerprint]. rewrite Ef. simpl.
    destruct (inv_epoch _ Hinv). rewrite bool_decide_true by done.
    unfold checked_add. destruct (Z.leb_spec (role_epoch (stable c) + 1) u64_max); [|lia].
    simpl. by rewrite Z.eqb_refl.
  - eexists _, _. unfold finish_ready, st_bind, st_get, st_put, st_ret, st_fail; simpl.
    rewrite Z.eqb_refl; simpl. split; [reflexivity|].
    unfold validate_commit; simpl. rewrite Z.eqb_refl. by rewrite bool_decide_true.
Qed.

Example prepare_then_commit_accepted_witness :
  exists prepare, validate_prepare (stable sample_coordinator) prepare "a" "b" = Ok tt.
Proof.
  destruct (prepare_then_commit_accepted sample_coordinator _ "b" _ None
              sample_coordinator_inv eq_refl) as [Hv _].
  eexists. exact Hv.
Defined.

(** Any refusal keeps the roles: a [Ready] for another epoch is an error that leaves the
    transition pending, and a [Ready] in which some backend is not ready, like an explicit
    abort, ends the transition with the controller, epoch and pause flag it started from,
    reporting a [Failed] state with a reason. *)
Theorem refusal_keeps_roles (c : RoleCoordinator) (p : PendingRole) (e : Z)
    (lc li rc ri : bool) (detail : option string) (reason : string)
    (Hinv : coordinator_inv c) (Hpending : pending c = Some p) :
  (e <> proposed_epoch p ->
     finish_ready e lc li rc ri detail c = (c, Err (UnexpectedEpoch (proposed_epoch p) e)))
  /\ (lc && li && rc && ri = false ->
      exists abort,
        finish_ready (proposed_epoch p) lc li rc ri detail c
        = (with_pending None c, Ok (Decision_Abort abort))
        /\ controller_fingerprint abort = controller_fingerprint (stable c)
        /\ role_epoch abort = role_epoch (stable c) /\ paused abort = paused (stable c)
        /\ transition abort = Failed /\ is_Some (failure_detail abort))
  /\ RoleCoordinator_abort reason c
     = (with_pending None c, Ok (failed_state (stable c) (Some reason))).
Proof.
  destruct (inv_pending _ Hinv p Hpending) as (H1 & _).
  unfold finish_ready, RoleCoordinator_abort, st_bind, st_get, st_put, st_ret, st_fail.
  rewrite Hpending. split_and!.
  - intros He. by rewrite (proj2 (Z.eqb_neq _ _) He).
  - intros ->. rewrite Z.eqb_refl; simpl. rewrite H1. eexists. split; [by destruct c|].
    simpl. split_and!; try done. destruct detail; simpl; eauto.
  - rewrite H1. by destruct c.
Qed.

Example refusal_keeps_roles_witness :
  let c := (RoleCoordinator_prepare "b" sample_coordinator).1 in
  finish_ready 7 true true true true None c = (c, Err (UnexpectedEpoch 2 7)).
Proof.
  match goal with |- let c := ?c0 in _ => assert (coordinator_inv c0) as H end.
  { apply (coordinator_inv_step _ (Op_Prepare "b")), sample_coordinator_inv. }
  apply (refusal_keeps_roles _ _ 7 true true true true None "x" H eq_refl). done.
Defined.
