(* ===== verification/RoleSession.v ===== *)
(** * The role handover between two Linux nodes: [apps/edge-receiver-linux/src/main.rs]

    The dialling node ([Connector], [run_linux_controller_session]) owns a
    [RoleCoordinator]; the accepting node ([Listener], [handle_controller])
    follows it.  Each handler of the two session loops is a function from the
    node's state and its environment to the new state and the effects it has
    (frames written, input injected), or to the error that ends the session.
    A [System] is the two nodes and the two ordered streams between them.

    The handlers are those of the role, pause, input and control frames, of the
    capture events, of the tray's role commands and of the watchdog; tray and
    log output, the pointer-return watcher and the clipboard are left out, and
    the audio tasks appear only where these handlers stop them. *)
From S2P Require Export Role Runtime.

(** ** Environment, effects and errors *)

(** What the capture backend answers while a handler runs: the outcomes of
    [PortalCaptureBackend::preflight], [arm], [release] and [disarm], the clock and
    the local port of the audio socket. *)
Record Env := {
  now : Instant;
  preflight : result unit string;
  arm : result unit string;
  release : result unit string;
  disarm : result unit string;
  audio_port : Z;
}.

(** A frame written to the peer, an event injected locally, or
    [all_keys_up] on the local injector. *)
Inductive effect :=
| Send (f : Frame)
| Inject (e : InputEvent)
| ReleaseAll.

(** The errors that end a session. *)
Inductive SessionError :=
| RoleFailed (e : RoleStateError)
| CaptureFailed (e : string)
| CommitWithoutPrepare
| CommitWithoutController
| OutsidePair
| InvalidRoleEpoch
| SessionClosed.

Abbreviation outcome S := (result (S * list effect) SessionError).

Definition role_result {A} (r : RoleCoordinator * result A RoleStateError) :
  result (RoleCoordinator * A) SessionError :=
  match r with (c, Ok a) => Ok (c, a) | (_, Err e) => Err (RoleFailed e) end.

Definition capture_result (r : result unit string) : result unit SessionError :=
  match r with Ok _ => Ok tt | Err e => Err (CaptureFailed e) end.

(** The frames an outcome writes, in order. *)
Definition sent (effects : list effect) : list Frame :=
  omap (fun e => match e with Send f => Some f | _ => None end) effects.

(** The audio tasks of a session: [audio_start_task], [audio_start_generation],
    [audio_sender] and [audio_receiver], by whether they are present. *)
Record AudioState := {
  audio_starting : bool;
  audio_start_generation : Z;
  audio_sending : bool;
  audio_receiving : bool;
}.

(** Pausing drops both audio tasks and invalidates a start in progress. *)
Definition stop_audio (a : AudioState) : AudioState :=
  {| audio_starting := false;
     audio_start_generation := wrapping_add u64_max (audio_start_generation a) 1;
     audio_sending := false; audio_receiving := false |}.

(** ** The connector *)

(** [rx/main 2159-2164 ConnectorRoleReadiness] *)
Record ConnectorRoleReadiness := {
  capture_ready : bool;
  inject_ready : bool;
  readiness_detail : option string;
}.

(** [rx/main 816-860 run_linux_controller_session] *)
Record Connector := {
  coordinator : RoleCoordinator;
  c_role_epoch : Z;
  c_local_is_controller : bool;
  c_session_paused : bool;
  c_input_forwarding_enabled : bool;
  c_capture : bool;
  c_input_epoch : InputEpochGate;
  c_input_active : bool;
  pending_readiness : option ConnectorRoleReadiness;
  transition_deadline : option Instant;
  pending_role_persistence : option (Z * string);
  c_role_store : option CommittedRole;
  connector_pause : bool;
  c_audio : AudioState;
  c_audio_source : option string;
  c_role_switch_available : bool;
  peer_supports_audio_route : bool;
}.

Definition set_coordinator : RoleCoordinator -> Connector -> Connector :=
  ltac:(field_setter coordinator).
Definition set_c_role_epoch : Z -> Connector -> Connector := ltac:(field_setter c_role_epoch).
Definition set_c_local_is_controller : bool -> Connector -> Connector :=
  ltac:(field_setter c_local_is_controller).
Definition set_c_session_paused : bool -> Connector -> Connector :=
  ltac:(field_setter c_session_paused).
Definition set_c_input_forwarding_enabled : bool -> Connector -> Connector :=
  ltac:(field_setter c_input_forwarding_enabled).
Definition set_c_capture : bool -> Connector -> Connector := ltac:(field_setter c_capture).
Definition set_c_input_epoch : InputEpochGate -> Connector -> Connector :=
  ltac:(field_setter c_input_epoch).
Definition set_c_input_active : bool -> Connector -> Connector :=
  ltac:(field_setter c_input_active).
Definition set_pending_readiness : option ConnectorRoleReadiness -> Connector -> Connector :=
  ltac:(field_setter pending_readiness).
Definition set_transition_deadline : option Instant -> Connector -> Connector :=
  ltac:(field_setter transition_deadline).
Definition set_pending_role_persistence : option (Z * string) -> Connector -> Connector :=
  ltac:(field_setter pending_role_persistence).
Definition set_c_role_store : option CommittedRole -> Connector -> Connector :=
  ltac:(field_setter c_role_store).
Definition set_connector_pause : bool -> Connector -> Connector :=
  ltac:(field_setter connector_pause).
Definition set_c_audio : AudioState -> Connector -> Connector := ltac:(field_setter c_audio).

Definition c_local (c : Connector) : string := connector_fingerprint (coordinator c).
Definition c_peer (c : Connector) : string := listener_fingerprint (coordinator c).

(** [rx/main 2242-2258 send_linux_audio_route] *)
Definition send_linux_audio_route (supports : bool) (source : option string) (peer : string) :
  effect :=
  Send (Frame_Audio (if supports then SetRoute source
                     else SetEnabled (bool_decide (source = Some peer)))).

(** [rx/main 2126-2142 arm_connector_capture]; a failure ends the session. *)
Definition arm_connector_capture (env : Env) (c : Connector) : result unit SessionError :=
  if c_capture c then capture_result (arm env)
  else Err (CaptureFailed "capture backend is unavailable").

(** [rx/main 2144-2157 disarm_connector_capture]; its callers log a failure, which drops the
    backend. *)
Definition disarm_connector_capture (env : Env) (c : Connector) : Connector :=
  set_c_capture (c_capture c && is_Ok (disarm env)) c.

(** The guard under which the connector arms its capture again. *)
Definition arm_if_controlling (env : Env) (c : Connector) : result unit SessionError :=
  if c_local_is_controller c && c_input_forwarding_enabled c && negb (c_session_paused c)
  then arm_connector_capture env c else Ok tt.

(** [rx/main 2270-2295 request_connector_control_after_capture_failure] *)
Definition request_connector_control_after_capture_failure (fingerprint : string) : effect :=
  Send (Frame_Role (Role_Request fingerprint)).

(** [rx/main 2167-2211 begin_connector_role_switch] *)
Definition begin_connector_role_switch (env : Env) (requested : string) (c : Connector) :
  outcome Connector :=
  let state := stable (coordinator c) in
  let first :=
    if bool_decide (controller_fingerprint state = Some (c_local c))
    then Send (Frame_input (role_epoch state) AllKeysUp) else ReleaseAll in
  let? prepared := role_result (RoleCoordinator_prepare requested (coordinator c)) in
  let c := set_coordinator prepared.1 c in
  let needs := str_eqb requested (c_local c) && negb (c_capture c) in
  let failure := if needs then match preflight env with Ok _ => None | Err e => Some e end
                 else None in
  let readiness := {| capture_ready := negb (bool_decide (is_Some failure));
                      inject_ready := true;
                      readiness_detail :=
                        (fun e => "capture preflight failed: " ++ e)%string <$> failure |} in
  let c := set_c_capture (c_capture c || needs && negb (bool_decide (is_Some failure))) c in
  Ok (set_pending_readiness (Some readiness) c,
      [first; Send (Frame_Role (Prepare prepared.2))]).

(** The role switch as its two callers run it.  [rx/main 1698-1713 RoleEvent::Request] *)
Definition start_role_switch (env : Env) (requested : string) (c : Connector) :
  outcome Connector :=
  let c := set_c_input_epoch (gate_suspend (c_input_epoch c)) c in
  let? r := begin_connector_role_switch env requested c in
  Ok (set_c_input_active false
        (set_transition_deadline
           ((fun _ => now env + from_secs 5) <$> pending_readiness r.1) r.1), r.2).

(** [rx/main 1689-1717 RoleEvent::Request] *)
Definition connector_on_request (env : Env) (requested : string) (c : Connector) :
  outcome Connector :=
  if negb (c_session_paused c) && c_role_switch_available c
     && (str_eqb requested (c_local c) || str_eqb requested (c_peer c))
     && negb (bool_decide (controller_fingerprint (coordinator_state (coordinator c))
                           = Some requested))
     && negb (is_transitioning (coordinator c))
  then start_role_switch env requested c
  else Ok (c, []).

(** [rx/main 1311-1341 TrayCommand::SetController] *)
Definition connector_set_controller (env : Env) (local : bool) (c : Connector) :
  outcome Connector :=
  let requested := if local then c_local c else c_peer c in
  if c_session_paused c || negb (c_role_switch_available c) then Ok (c, [])
  else if negb (bool_decide (controller_fingerprint (coordinator_state (coordinator c))
                             = Some requested))
          && negb (is_transitioning (coordinator c))
  then start_role_switch env requested c
  else Ok (c, []).

(** [rx/main 1718-1818 RoleEvent::Ready] *)
Definition connector_on_ready (env : Env) (ready_epoch : Z) (capture inject : bool)
    (failure_detail : option string) (c : Connector) : outcome Connector :=
  match pending_readiness c with
  | None => Ok (c, [])
  | Some local_ready =>
      let c := set_pending_readiness None c in
      let c := set_transition_deadline None c in
      let failure := option_or failure_detail (readiness_detail local_ready) in
      match finish_ready ready_epoch (capture_ready local_ready) (inject_ready local_ready)
              capture inject failure (coordinator c) with
      | (coord, Ok (Decision_Commit commit)) =>
          let c := set_coordinator coord c in
          match controller_fingerprint commit with
          | None => Err CommitWithoutController
          | Some controller =>
              let c := set_pending_role_persistence
                         (Some (role_epoch commit, controller)) c in
              let c := set_c_role_epoch (role_epoch commit) c in
              let c := set_c_local_is_controller (str_eqb controller (c_local c)) c in
              let c := set_c_input_epoch (gate_suspend (c_input_epoch c)) c in
              let? _ := arm_if_controlling env c in
              Ok (c, [Send (Frame_Role (Role_Commit commit)); ReleaseAll])
          end
      | (coord, Ok (Decision_Abort abort)) =>
          let c := set_coordinator coord c in
          let? _ := arm_if_controlling env c in
          Ok (c, [Send (Frame_Role (Role_Abort abort))])
      | (coord, Err (UnexpectedEpoch _ _)) =>
          let c := set_coordinator coord c in
          let c := set_pending_readiness (Some local_ready) c in
          Ok (set_transition_deadline (Some (now env + from_secs 5)) c, [])
      | (_, Err e) => Err (RoleFailed e)
      end
  end.

(** [rx/main 1819-1845 RoleEvent::Applied] *)
Definition connector_on_applied (applied_epoch : Z) (c : Connector) : outcome Connector :=
  match pending_role_persistence c with
  | None => Ok (c, [])
  | Some (expected_epoch, controller) =>
      if negb (applied_epoch =? expected_epoch) || negb (applied_epoch =? c_role_epoch c)
      then Ok (set_pending_role_persistence (Some (expected_epoch, controller)) c, [])
      else Ok (set_c_role_store (Some (CommittedRole_new controller))
                 (set_pending_role_persistence None c), [])
  end.

(** [send_linux_audio_route] and, for the source, [send_linux_audio_offer]. *)
Definition resume_audio (env : Env) (c : Connector) : list effect :=
  send_linux_audio_route (peer_supports_audio_route c) (c_audio_source c) (c_peer c)
  :: (if bool_decide (c_audio_source c = Some (c_local c))
      then [Send (Frame_Audio (Audio_Offer (audio_port env) [PcmS16Stereo48Khz]))] else []).

(** [rx/main 1860-1915 RoleEvent::SetPaused] *)
Definition connector_on_set_paused (env : Env) (is_paused : bool) (c : Connector) :
  outcome Connector :=
  if is_transitioning (coordinator c) then Ok (c, [])
  else
    let? r := role_result (RoleCoordinator_set_paused is_paused (coordinator c)) in
    let c := set_coordinator r.1 c in
    let c := set_c_session_paused is_paused c in
    let c := set_connector_pause is_paused c in
    if is_paused then
      let c := set_c_input_epoch (gate_suspend (c_input_epoch c)) c in
      let c := set_c_audio (stop_audio (c_audio c)) c in
      Ok (c, [ReleaseAll; Send (Frame_Role (SetPaused is_paused))])
    else
      let? _ := (if c_local_is_controller c && c_input_forwarding_enabled c
                 then arm_connector_capture env c else Ok tt) in
      Ok (c, Send (Frame_Role (SetPaused is_paused)) :: resume_audio env c).

(** [rx/main 1381-1420 TrayCommand::Disconnect] *)
Definition connector_disconnect (c : Connector) : outcome Connector :=
  if is_transitioning (coordinator c) then Ok (c, [])
  else
    let? r := role_result (RoleCoordinator_set_paused true (coordinator c)) in
    let c := set_coordinator r.1 c in
    let c := set_c_session_paused true c in
    let c := set_connector_pause true c in
    let c := set_c_input_epoch (gate_suspend (c_input_epoch c)) c in
    let c := set_c_audio (stop_audio (c_audio c)) c in
    Ok (c, [ReleaseAll; Send (Frame_Audio (Audio_Stop Stop_UserRequest));
            Send (Frame_Role (SetPaused true))]).

(** [rx/main 1421-1458 TrayCommand::Reconnect] *)
Definition connector_reconnect (env : Env) (c : Connector) : outcome Connector :=
  let? r := role_result (RoleCoordinator_set_paused false (coordinator c)) in
  let c := set_coordinator r.1 c in
  let c := set_c_session_paused false c in
  let c := set_connector_pause false c in
  let? _ := (if c_local_is_controller c && c_input_forwarding_enabled c
             then arm_connector_capture env c else Ok tt) in
  Ok (c, Send (Frame_Role (SetPaused false)) :: resume_audio env c).

(** [rx/main 990-1014 watchdog] *)
Definition connector_on_watchdog (env : Env) (c : Connector) : outcome Connector :=
  if is_some_and (fun deadline => deadline <=? now env) (transition_deadline c)
     && is_transitioning (coordinator c)
  then
    let c := set_transition_deadline None c in
    let c := set_pending_readiness None c in
    let? r := role_result (RoleCoordinator_abort
                "peer did not complete role preflight in time" (coordinator c)) in
    let c := set_coordinator r.1 c in
    let? _ := arm_if_controlling env c in
    Ok (c, [Send (Frame_Role (Role_Abort r.2))])
  else Ok (c, []).

(** [rx/main 1139-1164 CaptureEvent::LayoutChanged] *)
Definition connector_on_layout_changed (env : Env) (c : Connector) : outcome Connector :=
  let c := set_c_input_active false c in
  if is_transitioning (coordinator c) then
    let? r := role_result (RoleCoordinator_abort
                "monitor layout changed during capture preflight" (coordinator c)) in
    let c := set_coordinator r.1 c in
    let c := set_pending_readiness None c in
    let c := set_transition_deadline None c in
    let? _ := arm_if_controlling env c in
    Ok (c, [Send (Frame_Role (Role_Abort r.2))])
  else
    let? _ := arm_if_controlling env c in
    Ok (c, []).

(** [rx/main 1165-1193 CaptureEvent::BackendFailed] *)
Definition connector_on_backend_failed (c : Connector) : outcome Connector :=
  let c := set_c_capture false c in
  let c := set_c_input_active false c in
  Ok (c, Send (Frame_input (c_role_epoch c) AllKeysUp)
         :: (if c_local_is_controller c && c_role_switch_available c
                && negb (c_session_paused c) && negb (is_transitioning (coordinator c))
             then [request_connector_control_after_capture_failure (c_peer c)] else [])).

(** [rx/main 1087-1106 CaptureEvent::Activated] *)
Definition connector_on_activated (edge : Edge) (position : float) (c : Connector) :
  outcome Connector :=
  if c_session_paused c || negb (c_local_is_controller c) || negb (c_input_forwarding_enabled c)
  then Ok (c, [])
  else Ok (set_c_input_active true c,
           [Send (Frame_control (c_role_epoch c) (EnterRemote edge position))]).

(** [rx/main 1107-1119 CaptureEvent::Input] *)
Definition connector_on_captured (event : InputEvent) (c : Connector) : outcome Connector :=
  if c_session_paused c || negb (c_local_is_controller c) || negb (c_input_forwarding_enabled c)
  then Ok (c, [])
  else Ok (c, [Send (Frame_input (c_role_epoch c) event)]).

(** [rx/main 1120-1138 CaptureEvent::Deactivated, EmergencyReleased] *)
Definition connector_on_deactivated (c : Connector) : outcome Connector :=
  Ok (set_c_input_active false c, [Send (Frame_input (c_role_epoch c) AllKeysUp)]).

(** [rx/main 1263-1310 TrayCommand::ToggleInputForwarding] *)
Definition connector_toggle_forwarding (env : Env) (c : Connector) : outcome Connector :=
  if negb (c_session_paused c) && negb (is_transitioning (coordinator c))
     && bool_decide (is_Some (controller_fingerprint (coordinator_state (coordinator c))))
  then
    let enabled := negb (c_input_forwarding_enabled c) in
    let c := set_c_input_forwarding_enabled enabled c in
    let c := set_c_input_active false c in
    let? _ := (if c_local_is_controller c && enabled then arm_connector_capture env c
               else Ok tt) in
    let c := if c_local_is_controller c && negb enabled then disarm_connector_capture env c
             else c in
    Ok (c, (if negb (c_local_is_controller c) && negb enabled then [ReleaseAll] else [])
           ++ [Send (Frame_control (c_role_epoch c) (SetInputForwarding enabled))])
  else Ok (c, []).

(** [rx/main 1573-1604 Frame::Input] *)
Definition connector_on_input (input : InputFrame) (c : Connector) : outcome Connector :=
  if (input_role_epoch input =? c_role_epoch c) && negb (c_local_is_controller c)
     && c_input_forwarding_enabled c && negb (c_session_paused c)
  then match input_event input with
       | AllKeysUp => Ok (c, [ReleaseAll])
       | event => if accepts_input (c_input_epoch c) then Ok (c, [Inject event]) else Ok (c, [])
       end
  else Ok (c, []).

(** [rx/main 1605-1688 Frame::Control] *)
Definition connector_on_control (env : Env) (control : ControlFrame) (c : Connector) :
  outcome Connector :=
  if control_role_epoch control =? c_role_epoch c then
    match control_event control with
    | LeaveRemote _ _ =>
        if c_local_is_controller c then
          let? _ := (if c_capture c then capture_result (release env) else Ok tt) in
          Ok (set_c_input_active false c, [Send (Frame_input (c_role_epoch c) AllKeysUp)])
        else Ok (c, [])
    | ReleaseToLocal _ =>
        if c_local_is_controller c then
          let? _ := (if c_capture c then capture_result (release env) else Ok tt) in
          Ok (set_c_input_active false c, [])
        else Ok (c, [])
    | EnterRemote edge position =>
        if c_local_is_controller c then Ok (c, [])
        else Ok (set_c_input_epoch
                   (gate_observe_control (c_input_epoch c) (EnterRemote edge position)) c, [])
    | SetInputForwarding enabled =>
        let c := set_c_input_forwarding_enabled enabled c in
        let c := set_c_input_active false c in
        if c_local_is_controller c then
          let? _ := (if enabled && negb (c_session_paused c)
                     then arm_connector_capture env c else Ok tt) in
          Ok (if enabled then c else disarm_connector_capture env c, [])
        else if negb enabled then
          Ok (set_c_input_epoch (gate_suspend (c_input_epoch c)) c, [ReleaseAll])
        else Ok (c, [])
    end
  else Ok (c, []).

(** The connector's dispatch on a received frame; the frames left out concern
    components that keep none of this state. *)
Definition connector_on_frame (env : Env) (f : Frame) (c : Connector) : outcome Connector :=
  match f with
  | Frame_Input input => connector_on_input input c
  | Frame_Control control => connector_on_control env control c
  | Frame_Role (Role_Request requested) => connector_on_request env requested c
  | Frame_Role (Ready epoch capture inject detail) =>
      connector_on_ready env epoch capture inject detail c
  | Frame_Role (Applied epoch) => connector_on_applied epoch c
  | Frame_Role (SetPaused is_paused) => connector_on_set_paused env is_paused c
  | Frame_Role (SessionState _ | Prepare _ | Role_Commit _ | Role_Abort _) => Ok (c, [])
  | _ => Ok (c, [])
  end.

(** ** The listener *)

(** [rx/main 3745-3775 handle_controller] *)
Record Listener := {
  l_local_fingerprint : string;
  l_controller_fingerprint : string;
  l_role_epoch : Z;
  l_local_is_controller : bool;
  l_session_paused : bool;
  l_input_forwarding_enabled : bool;
  l_capture : bool;
  l_input_epoch : InputEpochGate;
  capture_input_active : bool;
  current_role_state : RoleState;
  prepared_role : option RoleState;
  role_request_deadline : option Instant;
  l_role_store : option CommittedRole;
  l_audio : AudioState;
  l_role_switch_available : bool;
  controller_supports_role_switch : bool;
  controller_supports_input_toggle : bool;
}.

Definition set_l_role_epoch : Z -> Listener -> Listener := ltac:(field_setter l_role_epoch).
Definition set_l_local_is_controller : bool -> Listener -> Listener :=
  ltac:(field_setter l_local_is_controller).
Definition set_l_session_paused : bool -> Listener -> Listener :=
  ltac:(field_setter l_session_paused).
Definition set_l_input_forwarding_enabled : bool -> Listener -> Listener :=
  ltac:(field_setter l_input_forwarding_enabled).
Definition set_l_capture : bool -> Listener -> Listener := ltac:(field_setter l_capture).
Definition set_l_input_epoch : InputEpochGate -> Listener -> Listener :=
  ltac:(field_setter l_input_epoch).
Definition set_capture_input_active : bool -> Listener -> Listener :=
  ltac:(field_setter capture_input_active).
Definition set_current_role_state : RoleState -> Listener -> Listener :=
  ltac:(field_setter current_role_state).
Definition set_prepared_role : option RoleState -> Listener -> Listener :=
  ltac:(field_setter prepared_role).
Definition set_role_request_deadline : option Instant -> Listener -> Listener :=
  ltac:(field_setter role_request_deadline).
Definition set_l_role_store : option CommittedRole -> Listener -> Listener :=
  ltac:(field_setter l_role_store).
Definition set_l_audio : AudioState -> Listener -> Listener := ltac:(field_setter l_audio).

Definition l_controls (l : Listener) : bool :=
  l_local_is_controller l && l_input_forwarding_enabled l && negb (l_session_paused l).

(** [capture.arm().await?] where a backend is present; a failure ends the session. *)
Definition arm_listener_capture (env : Env) (guard : bool) (l : Listener) :
  result unit SessionError :=
  if guard && l_capture l then capture_result (arm env) else Ok tt.

(** [rx/main 4741-4844 RoleEvent::SessionState] *)
Definition listener_on_session_state (env : Env) (state : RoleState) (l : Listener) :
  outcome Listener :=
  if is_some_and (fun controller => negb (str_eqb controller (l_controller_fingerprint l))
                                    && negb (str_eqb controller (l_local_fingerprint l)))
       (controller_fingerprint state)
  then Err OutsidePair
  else if (role_epoch state =? 0) || negb (bool_decide (transition state = Stable))
  then Err InvalidRoleEpoch
  else
    let l := set_l_role_epoch (role_epoch state) l in
    let l := set_l_session_paused (paused state) l in
    let l := set_l_local_is_controller
               (bool_decide (controller_fingerprint state = Some (l_local_fingerprint l))) l in
    let preflight_failure :=
      if l_local_is_controller l && negb (l_capture l)
      then match preflight env with Ok _ => None | Err e => Some e end else None in
    let l := set_l_capture (l_capture l || l_local_is_controller l
                            && negb (bool_decide (is_Some preflight_failure))) l in
    let capture_failure :=
      match preflight_failure with
      | Some e => Some e
      | None => if l_controls l && l_capture l
                then match arm env with Ok _ => None | Err e => Some e end else None
      end in
    let l := set_l_capture (l_capture l && negb (bool_decide (is_Some capture_failure))) l in
    let suspend := paused state || bool_decide (controller_fingerprint state = None) in
    let l := set_l_input_epoch
               (if suspend then gate_suspend (l_input_epoch l) else l_input_epoch l) l in
    let l := set_l_role_store
               (match controller_fingerprint state with
                | Some controller => Some (CommittedRole_new controller)
                | None => l_role_store l
                end) l in
    let l := set_current_role_state state l in
    let l := set_capture_input_active false l in
    let l := set_prepared_role None l in
    let fallback := bool_decide (is_Some capture_failure) && l_role_switch_available l
                    && negb (l_session_paused l) in
    let l := set_role_request_deadline
               (if fallback then Some (now env + from_secs 5) else None) l in
    Ok (l, (if l_local_is_controller l then [ReleaseAll] else [])
           ++ (if suspend then [ReleaseAll] else [])
           ++ (if fallback then [request_connector_control_after_capture_failure
                                   (l_controller_fingerprint l)] else [])).

(** [rx/main 4845-4925 RoleEvent::Prepare] *)
Definition listener_on_prepare (env : Env) (prepare : RoleState) (l : Listener) :
  outcome Listener :=
  if l_session_paused l || negb (l_role_switch_available l) then
    Ok (l, [Send (Frame_Role (Ready (role_epoch prepare) false false
              (Some "role switching is unavailable while this session is paused"%string)))])
  else
    match validate_prepare (current_role_state l) prepare (l_controller_fingerprint l)
            (l_local_fingerprint l) with
    | Err _ => Ok (l, [])
    | Ok _ =>
        let first := if l_local_is_controller l
                     then Send (Frame_input (l_role_epoch l) AllKeysUp) else ReleaseAll in
        let l := if l_local_is_controller l then set_capture_input_active false l
                 else set_l_input_epoch (gate_suspend (l_input_epoch l)) l in
        let proposed_local :=
          bool_decide (controller_fingerprint prepare = Some (l_local_fingerprint l)) in
        let failure := if proposed_local && negb (l_capture l)
                       then match preflight env with Ok _ => None | Err e => Some e end
                       else None in
        let l := set_l_capture (l_capture l || proposed_local
                                && negb (bool_decide (is_Some failure))) l in
        let l := set_prepared_role (Some prepare) l in
        let l := set_role_request_deadline (Some (now env + from_secs 5)) l in
        Ok (l, [first;
                Send (Frame_Role (Ready (role_epoch prepare)
                  (negb (bool_decide (is_Some failure))) true
                  ((fun e => "listener capture preflight failed: " ++ e)%string <$> failure)))])
    end.

(** [rx/main 4926-4993 RoleEvent::Commit] *)
Definition listener_on_commit (env : Env) (commit : RoleState) (l : Listener) :
  outcome Listener :=
  match prepared_role l with
  | None => Err CommitWithoutPrepare
  | Some prepared =>
      match validate_commit prepared commit with
      | Err _ => Ok (l, [])
      | Ok _ =>
          match controller_fingerprint commit with
          | None => Err CommitWithoutController
          | Some controller =>
              let l := set_l_role_epoch (role_epoch commit) l in
              let l := set_l_local_is_controller (str_eqb controller (l_local_fingerprint l)) l in
              let l := set_capture_input_active false l in
              let l := set_current_role_state commit l in
              let l := set_prepared_role None l in
              let l := set_role_request_deadline None l in
              let l := set_l_input_epoch (gate_suspend (l_input_epoch l)) l in
              if l_controls l && l_capture l && negb (is_Ok (arm env)) then
                let l := set_l_capture false l in
                if l_role_switch_available l && negb (l_session_paused l) then
                  Ok (set_role_request_deadline (Some (now env + from_secs 5)) l,
                      [ReleaseAll; request_connector_control_after_capture_failure
                                     (l_controller_fingerprint l)])
                else Err (CaptureFailed "failed to apply Linux controller role")
              else
                Ok (set_l_role_store (Some (CommittedRole_new controller)) l,
                    [ReleaseAll; Send (Frame_Role (Applied (l_role_epoch l)))])
          end
      end
  end.

(** [rx/main 4994-5027 RoleEvent::Abort] *)
Definition listener_on_abort (env : Env) (abort : RoleState) (l : Listener) :
  outcome Listener :=
  match prepared_role l with
  | None => Ok (l, [])
  | Some _ =>
      if negb (role_epoch abort =? role_epoch (current_role_state l))
         || negb (bool_decide (controller_fingerprint abort
                               = controller_fingerprint (current_role_state l)))
      then Ok (l, [])
      else
        let l := set_prepared_role None l in
        let l := set_role_request_deadline None l in
        let? _ := arm_listener_capture env (l_controls l) l in
        Ok (l, [])
  end.

(** [rx/main 5028-5057 RoleEvent::SetPaused] *)
Definition listener_on_set_paused (env : Env) (is_paused : bool) (l : Listener) :
  outcome Listener :=
  let l := set_l_session_paused is_paused l in
  if is_paused then
    let l := set_capture_input_active false l in
    let l := set_l_audio (stop_audio (l_audio l)) l in
    let l := set_l_input_epoch (gate_suspend (l_input_epoch l)) l in
    Ok (l, [ReleaseAll])
  else
    let? _ := arm_listener_capture env (l_local_is_controller l) l in
    Ok (l, []).

(** [rx/main 3897-3921 CaptureEvent::LayoutChanged] *)
Definition listener_on_layout_changed (env : Env) (l : Listener) : outcome Listener :=
  let l := set_capture_input_active false l in
  match prepared_role l with
  | Some prepared =>
      Ok (set_role_request_deadline None (set_prepared_role None l),
          [Send (Frame_Role (Ready (role_epoch prepared) false true
             (Some "monitor layout changed during capture preflight"%string)))])
  | None =>
      let? _ := arm_listener_capture env (l_controls l) l in
      Ok (l, [])
  end.

(** [rx/main 3922-3950 CaptureEvent::BackendFailed] *)
Definition listener_on_backend_failed (env : Env) (error : string) (l : Listener) :
  outcome Listener :=
  let up := Send (Frame_input (l_role_epoch l) AllKeysUp) in
  let l := set_capture_input_active false l in
  let l := set_l_capture false l in
  if l_local_is_controller l && l_role_switch_available l && negb (l_session_paused l)
     && negb (bool_decide (is_Some (role_request_deadline l)))
  then Ok (set_role_request_deadline (Some (now env + from_secs 5)) l,
           [up; request_connector_control_after_capture_failure (l_controller_fingerprint l)])
  else Err (CaptureFailed error).

(** [rx/main 3863-3875 CaptureEvent::Activated] *)
Definition listener_on_activated (edge : Edge) (position : float) (l : Listener) :
  outcome Listener :=
  if l_controls l
  then Ok (set_capture_input_active true l,
           [Send (Frame_control (l_role_epoch l) (EnterRemote edge position))])
  else Ok (l, []).

(** [rx/main 3876-3887 CaptureEvent::Input] *)
Definition listener_on_captured (event : InputEvent) (l : Listener) : outcome Listener :=
  if l_controls l then Ok (l, [Send (Frame_input (l_role_epoch l) event)]) else Ok (l, []).

(** [rx/main 3888-3896 CaptureEvent::Deactivated, EmergencyReleased] *)
Definition listener_on_deactivated (l : Listener) : outcome Listener :=
  Ok (set_capture_input_active false l, [Send (Frame_input (l_role_epoch l) AllKeysUp)]).

(** [rx/main 3805-3828 connection_watchdog] *)
Definition listener_on_watchdog (env : Env) (l : Listener) : outcome Listener :=
  if is_some_and (fun deadline => deadline <=? now env) (role_request_deadline l)
  then Ok (set_prepared_role None (set_role_request_deadline None l), [])
  else Ok (l, []).

(** [rx/main 4090-4136 TrayCommand::Disconnect]; a peer without role support is
    disconnected. *)
Definition listener_disconnect (l : Listener) : outcome Listener :=
  if controller_supports_role_switch l then
    let l := set_l_session_paused true l in
    let l := set_l_audio (stop_audio (l_audio l)) l in
    Ok (l, [ReleaseAll; Send (Frame_Role (SetPaused true))])
  else Err SessionClosed.

(** [rx/main 4137-4162 TrayCommand::Reconnect] *)
Definition listener_reconnect (env : Env) (l : Listener) : outcome Listener :=
  if controller_supports_role_switch l then
    let l := set_l_session_paused false l in
    let? _ := arm_listener_capture env
                (l_local_is_controller l && l_input_forwarding_enabled l) l in
    Ok (l, [Send (Frame_Role (SetPaused false))])
  else Ok (l, []).

(** [rx/main 4163-4189 TrayCommand::SetController] *)
Definition listener_set_controller (env : Env) (local : bool) (l : Listener) :
  outcome Listener :=
  let requested := if local then l_local_fingerprint l else l_controller_fingerprint l in
  if l_session_paused l || negb (l_role_switch_available l) then Ok (l, [])
  else if bool_decide (prepared_role l = None) && bool_decide (role_request_deadline l = None)
          && negb (bool_decide (controller_fingerprint (current_role_state l)
                                = Some requested))
  then Ok (set_role_request_deadline (Some (now env + from_secs 5)) l,
           [Send (Frame_Role (Role_Request requested))])
  else Ok (l, []).

(** [rx/main 4190-4231 TrayCommand::ToggleInputForwarding] *)
Definition listener_toggle_forwarding (env : Env) (l : Listener) : outcome Listener :=
  if bool_decide (is_Some (prepared_role l)) then Ok (l, [])
  else
    let enabled := negb (l_input_forwarding_enabled l) in
    let l := set_l_input_forwarding_enabled enabled l in
    let? _ := arm_listener_capture env (enabled && l_local_is_controller l) l in
    Ok (l, (if enabled then [] else [ReleaseAll])
           ++ (if controller_supports_input_toggle l
               then [Send (Frame_control (l_role_epoch l) (SetInputForwarding enabled))]
               else if enabled then []
               else [Send (Frame_control (l_role_epoch l) (ReleaseToLocal BackendFailure))])).

(** [rx/main 4347-4386 Frame::Input] *)
Definition listener_on_input (input : InputFrame) (l : Listener) : outcome Listener :=
  if negb (input_role_epoch input =? l_role_epoch l) then Ok (l, [])
  else if l_session_paused l || l_local_is_controller l then Ok (l, [])
  else match input_event input with
       | AllKeysUp => Ok (l, [ReleaseAll])
       | event =>
           if negb (l_input_forwarding_enabled l) then Ok (l, [])
           else if negb (accepts_input (l_input_epoch l)) then Ok (l, [])
           else Ok (l, [Inject event])
       end.

(** [rx/main 5611-5619 should_release_legacy_controller] *)
Definition should_release_legacy_controller (input_forwarding_enabled supports_toggle : bool)
    (control : ControlEvent) : bool :=
  negb input_forwarding_enabled && negb supports_toggle
  && match control with EnterRemote _ _ => true | _ => false end.

(** [rx/main 4414-4507 Frame::Control] *)
Definition listener_on_control (env : Env) (frame : ControlFrame) (l : Listener) :
  outcome Listener :=
  if negb (control_role_epoch frame =? l_role_epoch l) then Ok (l, [])
  else
    match control_event frame with
    | SetInputForwarding enabled =>
        if controller_supports_input_toggle l then
          let l := set_l_input_forwarding_enabled enabled l in
          if enabled then
            let? _ := arm_listener_capture env (l_local_is_controller l) l in Ok (l, [])
          else
            let l := set_capture_input_active false l in
            Ok (set_l_input_epoch (gate_suspend (l_input_epoch l)) l, [ReleaseAll])
        else Ok (l, [])
    | control =>
        if l_local_is_controller l then
          match control with
          | LeaveRemote _ _ =>
              let l := set_capture_input_active false l in
              let? _ := (if l_capture l then capture_result (release env) else Ok tt) in
              Ok (l, [Send (Frame_input (l_role_epoch l) AllKeysUp)])
          | ReleaseToLocal _ =>
              let l := set_capture_input_active false l in
              let? _ := (if l_capture l then capture_result (release env) else Ok tt) in
              Ok (l, [])
          | _ => Ok (l, [])
          end
        else
          let l := set_l_input_epoch (gate_observe_control (l_input_epoch l) control) l in
          Ok (l, if should_release_legacy_controller (l_input_forwarding_enabled l)
                      (controller_supports_input_toggle l) control
                 then [Send (Frame_control (l_role_epoch l) (ReleaseToLocal BackendFailure))]
                 else [])
    end.

(** The listener's dispatch on a received frame. *)
Definition listener_on_frame (env : Env) (f : Frame) (l : Listener) : outcome Listener :=
  match f with
  | Frame_Input input => listener_on_input input l
  | Frame_Control control => listener_on_control env control l
  | Frame_Role (SessionState state) => listener_on_session_state env state l
  | Frame_Role (Prepare prepare) => listener_on_prepare env prepare l
  | Frame_Role (Role_Commit commit) => listener_on_commit env commit l
  | Frame_Role (Role_Abort abort) => listener_on_abort env abort l
  | Frame_Role (SetPaused is_paused) => listener_on_set_paused env is_paused l
  | Frame_Role (Role_Request _ | Ready _ _ _ _ | Applied _) => Ok (l, [])
  | _ => Ok (l, [])
  end.

(** ** The two nodes *)

(** [rx/main 664-700 connect_linux_peer]: the assignment a new session starts with; it is
    persisted before it is announced, see [connector_init]. *)
Definition initial_role_state (persisted : option CommittedRole) (local peer : string)
    (prefer_controller peer_captures peer_injects : bool) (position : Edge)
    (session_paused : bool) : RoleState :=
  let persisted_controller :=
    match persisted with
    | Some role => if CommittedRole_belongs_to role local peer
                   then Some (committed_controller role) else None
    | None => None
    end in
  {| controller_fingerprint :=
       option_or persisted_controller
         (select_initial_controller local peer prefer_controller
            {| controller_can_capture := true; receiver_can_inject := peer_injects |}
            {| controller_can_capture := peer_captures; receiver_can_inject := true |});
     role_epoch := INITIAL_ROLE_EPOCH;
     transition := Stable;
     listener_position := position;
     paused := session_paused;
     failure_detail := None |}.

(** [rx/main 814-860 run_linux_controller_session]: the connector when its loop starts, and
    the request it sends when its capture is unavailable (lines 921-934). *)
Definition connector_init (env : Env) (initial : RoleState) (local peer : string)
    (peer_captures peer_injects peer_switches peer_routes capture : bool)
    (audio_source : option string) : outcome Connector :=
  match RoleCoordinator_new local peer (controller_fingerprint initial) (role_epoch initial)
          (listener_position initial) (paused initial) with
  | Err e => Err (RoleFailed e)
  | Ok coord =>
      let controls := bool_decide (controller_fingerprint initial = Some local) in
      let forwarding := bool_decide (is_Some (controller_fingerprint initial)) in
      let available := peer_switches && peer_captures && peer_injects in
      let preflight_failed := controls && peer_injects && negb capture
                              && negb (is_Ok (preflight env)) in
      let capture := capture || controls && peer_injects && is_Ok (preflight env) in
      let arm_failed := controls && peer_injects && negb preflight_failed && forwarding
                        && negb (paused initial) && capture && negb (is_Ok (arm env)) in
      Ok ({| coordinator := coord; c_role_epoch := role_epoch initial;
             c_local_is_controller := controls; c_session_paused := paused initial;
             c_input_forwarding_enabled := forwarding;
             c_capture := capture && negb arm_failed;
             c_input_epoch := InputEpochGate_default; c_input_active := false;
             pending_readiness := None; transition_deadline := None;
             pending_role_persistence := None;
             c_role_store := CommittedRole_new <$> controller_fingerprint initial;
             connector_pause := paused initial;
             c_audio := {| audio_starting := false; audio_start_generation := 0;
                           audio_sending := false; audio_receiving := false |};
             c_audio_source := audio_source; c_role_switch_available := available;
             peer_supports_audio_route := peer_routes |},
          if (preflight_failed || arm_failed) && available && negb (paused initial)
          then [request_connector_control_after_capture_failure peer] else [])
  end.

(** [rx/main 3751-3768 handle_controller]: the listener when its loop starts. *)
Definition listener_init (local peer : string) (position : Edge) (capture : bool)
    (switches captures injects toggles : bool) (stored : option CommittedRole) : Listener :=
  {| l_local_fingerprint := local; l_controller_fingerprint := peer;
     l_role_epoch := INITIAL_ROLE_EPOCH; l_local_is_controller := false;
     l_session_paused := false; l_input_forwarding_enabled := true; l_capture := capture;
     l_input_epoch := InputEpochGate_default; capture_input_active := false;
     current_role_state :=
       {| controller_fingerprint := Some peer; role_epoch := INITIAL_ROLE_EPOCH;
          transition := Stable; listener_position := position; paused := false;
          failure_detail := None |};
     prepared_role := None; role_request_deadline := None; l_role_store := stored;
     l_audio := {| audio_starting := false; audio_start_generation := 0;
                   audio_sending := false; audio_receiving := false |};
     l_role_switch_available := switches && captures && injects;
     controller_supports_role_switch := switches;
     controller_supports_input_toggle := toggles |}.

(** What happens at a node other than the arrival of a frame. *)
Inductive connector_event :=
| C_SetController (local : bool) | C_Disconnect | C_Reconnect | C_ToggleForwarding
| C_Watchdog | C_LayoutChanged | C_BackendFailed
| C_Activated (edge : Edge) (position : float) | C_Captured (event : InputEvent)
| C_Deactivated.

Inductive listener_event :=
| L_SetController (local : bool) | L_Disconnect | L_Reconnect | L_ToggleForwarding
| L_Watchdog | L_LayoutChanged | L_BackendFailed (error : string)
| L_Activated (edge : Edge) (position : float) | L_Captured (event : InputEvent)
| L_Deactivated.

Definition connector_on_event (env : Env) (e : connector_event) (c : Connector) :
  outcome Connector :=
  match e with
  | C_SetController local => connector_set_controller env local c
  | C_Disconnect => connector_disconnect c
  | C_Reconnect => connector_reconnect env c
  | C_ToggleForwarding => connector_toggle_forwarding env c
  | C_Watchdog => connector_on_watchdog env c
  | C_LayoutChanged => connector_on_layout_changed env c
  | C_BackendFailed => connector_on_backend_failed c
  | C_Activated edge position => connector_on_activated edge position c
  | C_Captured event => connector_on_captured event c
  | C_Deactivated => connector_on_deactivated c
  end.

Definition listener_on_event (env : Env) (e : listener_event) (l : Listener) :
  outcome Listener :=
  match e with
  | L_SetController local => listener_set_controller env local l
  | L_Disconnect => listener_disconnect l
  | L_Reconnect => listener_reconnect env l
  | L_ToggleForwarding => listener_toggle_forwarding env l
  | L_Watchdog => listener_on_watchdog env l
  | L_LayoutChanged => listener_on_layout_changed env l
  | L_BackendFailed error => listener_on_backend_failed env error l
  | L_Activated edge position => listener_on_activated edge position l
  | L_Captured event => listener_on_captured event l
  | L_Deactivated => listener_on_deactivated l
  end.

(** A live session: the nodes and the frames in flight, oldest first. *)
Record System := {
  cn : Connector;
  ln : Listener;
  to_listener : list Frame;
  to_connector : list Frame;
}.

Inductive system_step : System -> System -> Prop :=
| step_connector_event env e s c eff :
    connector_on_event env e (cn s) = Ok (c, eff) ->
    system_step s {| cn := c; ln := ln s; to_listener := to_listener s ++ sent eff;
                     to_connector := to_connector s |}
| step_listener_event env e s l eff :
    listener_on_event env e (ln s) = Ok (l, eff) ->
    system_step s {| cn := cn s; ln := l; to_listener := to_listener s;
                     to_connector := to_connector s ++ sent eff |}
| step_connector_frame env s f rest c eff :
    to_connector s = f :: rest -> connector_on_frame env f (cn s) = Ok (c, eff) ->
    system_step s {| cn := c; ln := ln s; to_listener := to_listener s ++ sent eff;
                     to_connector := rest |}
| step_listener_frame env s f rest l eff :
    to_listener s = f :: rest -> listener_on_frame env f (ln s) = Ok (l, eff) ->
    system_step s {| cn := cn s; ln := l; to_listener := rest;
                     to_connector := to_connector s ++ sent eff |}.

(** A session just after both loops started: the connector's initial state is the first
    frame on its stream. *)
Inductive session_start : System -> Prop :=
| session_starts env initial local peer peer_captures peer_injects peer_switches peer_routes
    capture audio_source c eff l_capture0 position switches captures injects toggles
    l_stored :
    local <> peer ->
    role_epoch initial = INITIAL_ROLE_EPOCH ->
    connector_init env initial local peer peer_captures peer_injects peer_switches peer_routes
      capture audio_source = Ok (c, eff) ->
    session_start
      {| cn := c;
         ln := listener_init peer local position l_capture0 switches captures injects toggles
                 l_stored;
         to_listener := Frame_Role (SessionState initial) :: sent eff;
         to_connector := [] |}.

Definition reachable (s : System) : Prop := exists s0, session_start s0 /\ rtc system_step s0 s.
