(* ===== verification/Handover.v ===== *)
(** * What the role handover guarantees

    The invariant of a live session of [RoleSession], and what follows from it:
    one controller per epoch, input injected only from the controller, a
    listener that follows, commits that are applied or end the session, and the
    completion of a handover. *)
From S2P Require Export RoleSession.

(** ** What is in flight

    A listener that processes the frames still in flight follows the
    connector: [follow] says which frames the connector may have written, given
    the assignment the listener will have reached when it reads them. *)
Record view := View {
  v_epoch : Z;
  v_controller : option string;
  v_open : option RoleState;
}.

(** Frames that do not concern the assignment; neither does input of an earlier epoch, which a
    connector may have held back. *)
Definition neutral (f : Frame) : bool :=
  match f with
  | Frame_Input {| input_event := AllKeysUp |} => true
  | Frame_Input _ => false
  | Frame_Role (SessionState _ | Prepare _ | Role_Commit _ | Role_Abort _) => false
  | _ => true
  end.

Inductive follow (connector : string) : view -> Frame -> view -> Prop :=
| follow_session v st :
    v_open v = None -> role_epoch st = v_epoch v -> v_controller v = Some connector ->
    follow connector v (Frame_Role (SessionState st))
      (View (v_epoch v) (controller_fingerprint st) None)
| follow_prepare v p :
    v_open v = None -> role_epoch p = v_epoch v + 1 ->
    follow connector v (Frame_Role (Prepare p)) (View (v_epoch v) (v_controller v) (Some p))
| follow_commit v p st :
    v_open v = Some p -> validate_commit p st = Ok tt -> role_epoch st = v_epoch v + 1 ->
    is_Some (controller_fingerprint st) ->
    follow connector v (Frame_Role (Role_Commit st))
      (View (v_epoch v + 1) (controller_fingerprint st) None)
| follow_abort v p st :
    v_open v = Some p -> role_epoch st = v_epoch v ->
    controller_fingerprint st = v_controller v ->
    follow connector v (Frame_Role (Role_Abort st)) (View (v_epoch v) (v_controller v) None)
| follow_input v i :
    input_role_epoch i = v_epoch v -> v_controller v = Some connector ->
    follow connector v (Frame_Input i) v
| follow_neutral v f : neutral f = true -> follow connector v f v
| follow_stale v i : input_role_epoch i < v_epoch v -> follow connector v (Frame_Input i) v.

Inductive follow_all (connector : string) : view -> list Frame -> view -> Prop :=
| follow_nil v : follow_all connector v [] v
| follow_cons v v' v'' f q :
    follow connector v f v' -> follow_all connector v' q v'' ->
    follow_all connector v (f :: q) v''.

Section Follow.
Context (connector : string).

Lemma follow_all_app v q v' q' v'' :
  follow_all connector v q v' -> follow_all connector v' q' v'' ->
  follow_all connector v (q ++ q') v''.
Proof. induction 1; simpl; eauto using follow_all. Qed.

Lemma follow_all_neutral v q : forallb neutral q = true -> follow_all connector v q v.
Proof.
  induction q as [|f q IH]; simpl; intros; reflect_bools;
    econstructor; eauto using follow_neutral.
Qed.

Lemma follow_all_nil v v' : follow_all connector v [] v' -> v' = v.
Proof. inversion 1. done. Qed.

Lemma follow_epoch v f v' :
  follow connector v f v' -> v_epoch v <= v_epoch v'.
Proof. destruct 1; simpl; lia. Qed.

Lemma follow_all_epoch v q v' :
  follow_all connector v q v' -> v_epoch v <= v_epoch v'.
Proof. induction 1 as [|v v' v'' f q H _ IH]; [lia|]. apply follow_epoch in H. lia. Qed.

(** Within an epoch the assignment changes only when it is first announced. *)
Lemma follow_all_same_epoch v q v' :
  follow_all connector v q v' -> v_epoch v' = v_epoch v ->
  v_controller v' = v_controller v \/ v_controller v = Some connector.
Proof.
  induction 1 as [|v v1 v2 f q H Hq IH]; intros He; [by left|].
  pose proof (follow_all_epoch _ _ _ Hq). pose proof (follow_epoch _ _ _ H).
  destruct IH as [IH|IH]; [lia| |].
  - destruct H; simpl in *; auto. lia.
  - destruct H; simpl in *; auto. lia.
Qed.
End Follow.

(** The preparation announced for a pending transition. *)
Definition prepare_of (p : PendingRole) : RoleState :=
  {| controller_fingerprint := Some (pending_controller_fingerprint p);
     role_epoch := proposed_epoch p;
     transition := Preparing (pending_controller_fingerprint p);
     listener_position := listener_position (previous p); paused := paused (previous p);
     failure_detail := None |}.

(** The assignment a connector has announced. *)
Definition connector_view (c : Connector) : view :=
  View (c_role_epoch c) (controller_fingerprint (stable (coordinator c)))
    (prepare_of <$> pending (coordinator c)).

(** The assignment a listener has applied, with [open] the preparation it was last sent. *)
Definition listener_view (l : Listener) (open : option RoleState) : view :=
  View (l_role_epoch l) (controller_fingerprint (current_role_state l)) open.

Record connector_ok (c : Connector) : Prop := {
  co_inv : coordinator_inv (coordinator c);
  co_epoch : c_role_epoch c = role_epoch (stable (coordinator c));
  co_controls : c_local_is_controller c
                = bool_decide (controller_fingerprint (stable (coordinator c)) = Some (c_local c));
}.

(** A step of the connector that keeps its assignment well-formed, writes only frames a
    listener can follow, and names what may have changed. *)
Record connector_moves (c : Connector) (eff : list effect) (c' : Connector) : Prop := {
  cm_ok : connector_ok c';
  cm_local : c_local c' = c_local c;
  cm_peer : c_peer c' = c_peer c;
  cm_follow : follow_all (c_local c) (connector_view c) (sent eff) (connector_view c');
}.

Definition same_assignment (c c' : Connector) : Prop :=
  c_role_epoch c' = c_role_epoch c
  /\ controller_fingerprint (stable (coordinator c'))
     = controller_fingerprint (stable (coordinator c)).

Section ConnectorMoves.
Context (c : Connector) (Hc : connector_ok c).

(** A handler that leaves the coordinator's assignment alone. *)
Lemma quiet_moves eff c' :
  coordinator c' = coordinator c -> c_role_epoch c' = c_role_epoch c ->
  c_local_is_controller c' = c_local_is_controller c ->
  forallb neutral (sent eff) = true ->
  connector_moves c eff c' /\ same_assignment c c'.
Proof.
  destruct Hc as [H1 H2 H3]. intros E1 E2 E3 Hn. unfold same_assignment, c_local, c_peer.
  split; [split|]; unfold connector_view, c_local, c_peer; rewrite ?E1, ?E2, ?E3; try done.
  - split; unfold c_local; rewrite ?E1, ?E2, ?E3; done.
  - by apply follow_all_neutral.
Qed.

Lemma input_moves eff c' i :
  coordinator c' = coordinator c -> c_role_epoch c' = c_role_epoch c ->
  c_local_is_controller c' = c_local_is_controller c ->
  c_local_is_controller c = true -> input_role_epoch i = c_role_epoch c ->
  sent eff = [Frame_Input i] ->
  connector_moves c eff c' /\ same_assignment c c'.
Proof.
  destruct Hc as [H1 H2 H3]. intros E1 E2 E3 Hctl Hi Hs. unfold same_assignment.
  split; [split|]; unfold connector_view, c_local, c_peer; rewrite ?E1, ?E2, ?E3; try done.
  - split; unfold c_local; rewrite ?E1, ?E2, ?E3; done.
  - rewrite Hctl in H3. symmetry in H3. apply bool_decide_eq_true in H3.
    rewrite Hs. econstructor; [by apply follow_input|constructor].
Qed.

Lemma pause_moves c1 is_paused st :
  RoleCoordinator_set_paused is_paused (coordinator c) = (c1, Ok st) ->
  connector_fingerprint c1 = connector_fingerprint (coordinator c)
  /\ listener_fingerprint c1 = listener_fingerprint (coordinator c)
  /\ coordinator_inv c1
  /\ role_epoch (stable c1) = role_epoch (stable (coordinator c))
  /\ controller_fingerprint (stable c1) = controller_fingerprint (stable (coordinator c))
  /\ pending c1 = None /\ pending (coordinator c) = None.
Proof.
  intros H. pose proof (coordinator_inv_step _ (Op_SetPaused is_paused) (co_inv _ Hc)) as Hi.
  cbn [run_role_op] in Hi. rewrite H in Hi. simpl in Hi. revert H.
  unfold RoleCoordinator_set_paused, st_bind, st_get, st_ensure, st_put, st_ret, st_fail,
    is_transitioning.
  case_bool_decide as E; simpl; [done|]. intros. simplify_eq/=.
  split_and!; try done; destruct (pending (coordinator c)); try done; destruct E; eauto.
Qed.
End ConnectorMoves.

Section ConnectorHandlers.
Context (c : Connector) (Hc : connector_ok c).

Lemma abort_moves c1 detail st :
  RoleCoordinator_abort detail (coordinator c) = (c1, Ok st) ->
  c1 = with_pending None (coordinator c) /\ coordinator_inv c1
  /\ is_Some (pending (coordinator c))
  /\ st = failed_state (stable (coordinator c)) (Some detail).
Proof.
  intros H. pose proof (coordinator_inv_step _ (Op_Abort detail) (co_inv _ Hc)) as Hi.
  cbn [run_role_op] in Hi. rewrite H in Hi. simpl in Hi. revert H.
  unfold RoleCoordinator_abort, st_bind, st_get, st_put, st_ret, st_fail.
  destruct (pending (coordinator c)) as [p|] eqn:E; [|done].
  destruct (inv_pending _ (co_inv _ Hc) p E) as (H1 & _). rewrite H1. intros. simplify_eq/=.
  split_and!; eauto.
Qed.

(** Announcing the end of a pending transition. *)
Lemma abort_announced c' eff st detail :
  coordinator c' = with_pending None (coordinator c) ->
  c_role_epoch c' = c_role_epoch c ->
  c_local_is_controller c' = c_local_is_controller c ->
  is_Some (pending (coordinator c)) -> coordinator_inv (coordinator c') ->
  st = failed_state (stable (coordinator c)) detail ->
  sent eff = [Frame_Role (Role_Abort st)] ->
  connector_moves c eff c' /\ same_assignment c c'.
Proof.
  destruct Hc as [H1 H2 H3]. intros E1 E2 E3 [p Hp] Hi -> Hs. unfold same_assignment.
  split; [split|]; unfold connector_view, c_local, c_peer; rewrite ?E1, ?E2, ?E3; try done.
  - rewrite E1 in Hi. split; unfold c_local; rewrite ?E1, ?E2, ?E3; done.
  - rewrite Hs, Hp. simpl. econstructor; [|constructor].
    by eapply (follow_abort _ (View _ _ _) (prepare_of p)).
Qed.

Lemma start_moves env requested c' eff :
  is_transitioning (coordinator c) = false ->
  start_role_switch env requested c = Ok (c', eff) ->
  connector_moves c eff c' /\ same_assignment c c'.
Proof.
  destruct Hc as [H1 H2 H3]. intros Ht. unfold start_role_switch, begin_connector_role_switch.
  cbn [coordinator set_c_input_epoch].
  rewrite prepare_spec, Ht by done.
  destruct (str_eqb requested _ || _) eqn:Er; cbn [negb]; [|done].
  destruct (Z.eqb_spec (role_epoch (stable (coordinator c))) u64_max); [done|].
  cbn [role_result]. intros. simplify_eq/=.
  assert (pending (coordinator c) = None) as Hp.
  { unfold is_transitioning in Ht. apply bool_decide_eq_false in Ht.
    destruct (pending (coordinator c)); [destruct Ht; eauto|done]. }
  assert (coordinator_inv (with_pending (Some {| previous := stable (coordinator c);
      pending_controller_fingerprint := requested;
      proposed_epoch := role_epoch (stable (coordinator c)) + 1 |}) (coordinator c))) as Hi.
  { pose proof (coordinator_inv_step _ (Op_Prepare requested) H1) as Hi.
    cbn [run_role_op] in Hi. rewrite prepare_spec, Ht, Er in Hi by done. cbn [negb] in Hi.
    by rewrite (proj2 (Z.eqb_neq _ _)) in Hi. }
  split; [split|]; [split| | | |split]; try done.
  unfold connector_view; simpl. rewrite Hp. simpl.
  destruct (bool_decide (controller_fingerprint (stable (coordinator c)) = _)); simpl.
  - econstructor; [by apply follow_neutral|]. econstructor; [|constructor].
    by apply (follow_prepare _ (View _ _ None)); simpl; [|lia].
  - econstructor; [|constructor].
    by apply (follow_prepare _ (View _ _ None)); simpl; [|lia].
Qed.

Lemma set_paused_moves eff c' c1 is_paused st :
  RoleCoordinator_set_paused is_paused (coordinator c) = (c1, Ok st) ->
  coordinator c' = c1 -> c_role_epoch c' = c_role_epoch c ->
  c_local_is_controller c' = c_local_is_controller c ->
  forallb neutral (sent eff) = true ->
  connector_moves c eff c' /\ same_assignment c c'.
Proof.
  intros (I1 & I2 & I3 & I4 & I5 & I6 & I7)%pause_moves <- E2 E3 Hn; [|done].
  destruct Hc as [H1 H2 H3].
  unfold same_assignment, c_local, c_peer.
  split; [split|]; unfold connector_view, c_local, c_peer;
    rewrite ?I1, ?I2, ?I4, ?I5, ?I6, ?I7, ?E2, ?E3; try done.
  - split; unfold c_local; rewrite ?I1, ?I4, ?I5, ?E2, ?E3; done.
  - by apply follow_all_neutral.
Qed.

(** A readiness that ends the transition. *)
Lemma ready_moves env e capture inject detail c' eff :
  connector_on_ready env e capture inject detail c = Ok (c', eff) ->
  connector_moves c eff c'
  /\ (same_assignment c c' \/ e = c_role_epoch c + 1 /\ c_role_epoch c' = c_role_epoch c + 1).
Proof.
  pose proof Hc as [H1 H2 H3].
  assert (forall c' eff, connector_moves c eff c' /\ same_assignment c c' ->
    connector_moves c eff c' /\ (same_assignment c c'
      \/ e = c_role_epoch c + 1 /\ c_role_epoch c' = c_role_epoch c + 1)) as W by naive_solver.
  unfold connector_on_ready.
  destruct (pending_readiness c) as [r|]; [|intros; simplify_eq; by apply W, quiet_moves].
  cbn [coordinator set_pending_readiness set_transition_deadline].
  pose proof (coordinator_inv_step _ (Op_Ready e (capture_ready r) (inject_ready r) capture
    inject (option_or detail (readiness_detail r))) H1) as Hi.
  cbn [run_role_op] in Hi. revert Hi.
  unfold finish_ready, st_bind, st_get, st_put, st_ret, st_fail.
  destruct (pending (coordinator c)) as [p|] eqn:Ep; [|done].
  destruct (inv_pending _ H1 p Ep) as (P1 & P2 & P3 & P4).
  destruct (Z.eqb_spec e (proposed_epoch p)) as [->|]; cbn [negb].
  2: { intros _ ?. simplify_eq. by apply W, quiet_moves. }
  destruct (_ && inject); cbn [fst]; intros Hi.
  - cbn [controller_fingerprint committed_state].
    match goal with |- context [arm_if_controlling ?e ?x] =>
      destruct (arm_if_controlling e x); [|done] end.
    intros. simplify_eq/=. split.
    + split; [split| | |]; try done.
      * simpl. unfold c_local. simpl. unfold str_eqb. apply bool_decide_ext.
        split; congruence.
      * unfold connector_view; simpl. rewrite Ep. simpl. econstructor; [|constructor].
        rewrite P3, <- H2.
        apply (follow_commit _ (View _ _ _) (prepare_of p)); simpl; [done| |lia|eauto].
        unfold validate_commit, prepare_of, committed_state; simpl.
        by rewrite Z.eqb_refl, bool_decide_true.
    + right. simpl. lia.
  - match goal with |- context [arm_if_controlling ?e ?x] =>
      destruct (arm_if_controlling e x); [|done] end.
    intros. simplify_eq/=.
    assert (with_pending None (with_stable (previous p) (coordinator c))
            = with_pending None (coordinator c)) as Ew
      by (rewrite P1; by destruct (coordinator c)).
    rewrite Ew in *.
    edestruct (abort_announced (set_coordinator (with_pending None (coordinator c))
      (set_transition_deadline None (set_pending_readiness None c)))); try done; eauto.
    by rewrite P1.
Qed.
End ConnectorHandlers.

Lemma connector_event_moves env e c c' eff (Hc : connector_ok c) :
  connector_on_event env e c = Ok (c', eff) ->
  connector_moves c eff c' /\ same_assignment c c'.
Proof.
  destruct e; cbn [connector_on_event].
  - unfold connector_set_controller. destruct (_ || _).
    { intros. simplify_eq. by apply quiet_moves. }
    destruct (_ && negb (is_transitioning (coordinator c))) eqn:E; reflect_bools.
    + by apply start_moves.
    + intros. simplify_eq. by apply quiet_moves.
  - unfold connector_disconnect. destruct (is_transitioning _).
    { intros. simplify_eq. by apply quiet_moves. }
    destruct (RoleCoordinator_set_paused _ _) as [c1 [st|]] eqn:E; [|done].
    intros. simplify_eq/=. by eapply set_paused_moves.
  - unfold connector_reconnect.
    destruct (RoleCoordinator_set_paused _ _) as [c1 [st|]] eqn:E; [|done]. cbn [role_result].
    match goal with |- context [if ?b then _ else Ok tt] => destruct (if b then _ else _) end;
      [|done].
    intros. simplify_eq/=. eapply set_paused_moves; try done.
    unfold resume_audio. by case_bool_decide.
  - unfold connector_toggle_forwarding. destruct (_ && _).
    2: { intros. simplify_eq. by apply quiet_moves. }
    match goal with |- context [if ?b then _ else Ok tt] => destruct (if b then _ else Ok tt) end;
      [|done].
    intros. simplify_eq/=. apply quiet_moves; try done; destruct (_ && _); done.
  - unfold connector_on_watchdog. destruct (_ && _).
    2: { intros. simplify_eq. by apply quiet_moves. }
    cbn [coordinator set_pending_readiness set_transition_deadline].
    destruct (RoleCoordinator_abort _ _) as [c1 [st|]] eqn:E; [|done]. cbn [role_result].
    apply abort_moves in E as (-> & Hi & Hp & Hst); [|done].
    destruct (arm_if_controlling _ _); [|done]. intros. simplify_eq/=.
    by eapply abort_announced.
  - unfold connector_on_layout_changed. cbn [coordinator set_c_input_active].
    destruct (is_transitioning _).
    + destruct (RoleCoordinator_abort _ _) as [c1 [st|]] eqn:E; [|done]. cbn [role_result].
      apply abort_moves in E as (-> & Hi & Hp & Hst); [|done].
      destruct (arm_if_controlling _ _); [|done]. intros. simplify_eq/=.
      by eapply abort_announced.
    + destruct (arm_if_controlling _ _); [|done]. intros. simplify_eq/=. by apply quiet_moves.
  - unfold connector_on_backend_failed. intros. simplify_eq/=. apply quiet_moves; try done.
    simpl. by destruct (_ && _).
  - unfold connector_on_activated. destruct (_ || _); intros; simplify_eq/=; by apply quiet_moves.
  - unfold connector_on_captured. destruct (_ || _) eqn:E; intros; simplify_eq/=.
    + by apply quiet_moves.
    + reflect_bools.
      by eapply (input_moves _ Hc _ _ {| input_role_epoch := _; input_event := event |}).
  - unfold connector_on_deactivated. intros; simplify_eq/=; by apply quiet_moves.
Qed.

Lemma connector_frame_moves env f c c' eff (Hc : connector_ok c) :
  connector_on_frame env f c = Ok (c', eff) ->
  connector_moves c eff c'
  /\ (same_assignment c c'
      \/ (exists capture inject detail,
            f = Frame_Role (Ready (c_role_epoch c + 1) capture inject detail))
         /\ c_role_epoch c' = c_role_epoch c + 1).
Proof.
  assert (forall c' eff, connector_moves c eff c' /\ same_assignment c c' ->
    connector_moves c eff c'
    /\ (same_assignment c c'
        \/ (exists capture inject detail,
              f = Frame_Role (Ready (c_role_epoch c + 1) capture inject detail))
           /\ c_role_epoch c' = c_role_epoch c + 1)) as W by naive_solver.
  destruct f as [| |i| |ctl| | | | |[]| | |]; cbn [connector_on_frame];
    try (intros; simplify_eq; by apply W, quiet_moves).
  - unfold connector_on_input. intros H. apply W. cases_in H; by apply quiet_moves.
  - unfold connector_on_control. intros H. apply W.
    cases_in H; apply quiet_moves; try done; by destruct enabled.
  - unfold connector_on_request. intros H. apply W. revert H. destruct (_ && _) eqn:E.
    + reflect_bools. by apply start_moves.
    + intros. simplify_eq. by apply quiet_moves.
  - intros H. apply ready_moves in H as [H [?|[-> ?]]]; [| |done]; eauto 10.
  - unfold connector_on_applied. intros H. apply W. cases_in H; by apply quiet_moves.
  - unfold connector_on_set_paused. intros H. apply W. revert H. destruct (is_transitioning _).
    { intros. simplify_eq. by apply quiet_moves. }
    destruct (RoleCoordinator_set_paused _ _) as [c1 [st|]] eqn:E; [|done]. cbn [role_result].
    match goal with |- context [if ?b then let c := _ in _ else _] => destruct b
      | |- context [set_c_session_paused ?b] => destruct b end.
    + intros. simplify_eq/=. by eapply set_paused_moves.
    + match goal with |- context [if ?b then _ else Ok tt] => destruct (if b then _ else _) end;
        [|done].
      intros. simplify_eq/=. eapply set_paused_moves; try done.
      unfold resume_audio. simpl. by case_bool_decide.
Qed.

(** What a listener's state says about [open], the preparation it was last sent. *)
Record listener_ok (open : option RoleState) (l : Listener) : Prop := {
  lo_epoch : l_role_epoch l = role_epoch (current_role_state l);
  lo_controls : l_local_is_controller l
    = bool_decide (controller_fingerprint (current_role_state l)
                   = Some (l_local_fingerprint l));
  lo_prepared : prepared_role l = None \/ prepared_role l = open;
  lo_open : forall p, open = Some p -> role_epoch p = l_role_epoch l + 1;
}.

(** The frames a listener writes: captured input only while it controls, readiness only
    for the next epoch. *)
Definition reply_ok (l : Listener) (f : Frame) : Prop :=
  match f with
  | Frame_Input i =>
      input_event i = AllKeysUp
      \/ input_role_epoch i = l_role_epoch l
         /\ controller_fingerprint (current_role_state l) = Some (l_local_fingerprint l)
  | Frame_Role (Ready epoch _ _ _) => epoch = l_role_epoch l + 1
  | _ => True
  end.

Record listener_moves (l : Listener) (open : option RoleState) (eff : list effect)
    (l' : Listener) (open' : option RoleState) : Prop := {
  lm_ok : listener_ok open' l';
  lm_local : l_local_fingerprint l' = l_local_fingerprint l;
  lm_peer : l_controller_fingerprint l' = l_controller_fingerprint l;
  lm_replies : Forall (reply_ok l') (sent eff);
}.

Section ListenerMoves.
Context (l : Listener) (open : option RoleState) (Hl : listener_ok open l).

(** A handler that leaves the applied assignment alone. *)
Lemma listener_quiet eff l' :
  l_role_epoch l' = l_role_epoch l -> current_role_state l' = current_role_state l ->
  l_local_is_controller l' = l_local_is_controller l ->
  prepared_role l' = None \/ prepared_role l' = prepared_role l ->
  l_local_fingerprint l' = l_local_fingerprint l ->
  l_controller_fingerprint l' = l_controller_fingerprint l ->
  Forall (reply_ok l) (sent eff) ->
  listener_moves l open eff l' open /\ listener_view l' open = listener_view l open.
Proof.
  destruct Hl as [H1 H2 H3 H4]. intros E1 E2 E3 E4 E5 E6 Hr.
  split; [split; try done|unfold listener_view; by rewrite E1, E2].
  - split; rewrite ?E1, ?E2, ?E3, ?E5; try done.
    destruct E4 as [->| ->]; auto.
  - eapply Forall_impl; [exact Hr|]. intros f. unfold reply_ok.
    by rewrite E1, E2, E5.
Qed.

Lemma controls_controller :
  l_controls l = true ->
  controller_fingerprint (current_role_state l) = Some (l_local_fingerprint l).
Proof.
  destruct Hl as [_ J _ _]. unfold l_controls. rewrite J. intros. by reflect_bools.
Qed.

End ListenerMoves.

Ltac quiet := apply listener_quiet; simpl; auto; try done;
  repeat (apply List.Forall_cons; [simpl; auto|]); try apply List.Forall_nil.

Lemma listener_event_moves l open (Hl : listener_ok open l) env e l' eff :
  listener_on_event env e l = Ok (l', eff) ->
  listener_moves l open eff l' open /\ listener_view l' open = listener_view l open.
Proof.
  destruct e; cbn [listener_on_event]; intros H.
  - unfold listener_set_controller in H. cases_in H; quiet.
  - unfold listener_disconnect in H. cases_in H; quiet.
  - unfold listener_reconnect in H. cases_in H; quiet.
  - unfold listener_toggle_forwarding in H.
    destruct (bool_decide _); [simplify_eq/=; quiet|].
    destruct (arm_listener_capture _ _ _); simplify_eq/=. quiet.
    destruct (negb (l_input_forwarding_enabled l)), (controller_supports_input_toggle l);
      repeat constructor.
  - unfold listener_on_watchdog in H. cases_in H; quiet.
  - unfold listener_on_layout_changed in H. cbn [prepared_role set_capture_input_active] in H.
    destruct (prepared_role l) as [p|] eqn:E; [|cases_in H; quiet].
    injection H as <- <-. quiet.
    destruct Hl as [_ _ [?|Ho] Hp]; [congruence|]. apply Hp. congruence.
  - unfold listener_on_backend_failed in H. cases_in H; quiet.
  - unfold listener_on_activated in H. cases_in H; quiet.
  - unfold listener_on_captured in H. destruct (l_controls l) eqn:E; injection H as <- <-; [|quiet].
    quiet. right. split; [done|]. exact (controls_controller _ _ Hl E).
  - unfold listener_on_deactivated in H. simplify_eq/=. quiet.
Qed.

Lemma listener_session_moves l open env st l' eff
    (Hl : listener_ok open l) (Hopen : open = None) (He : role_epoch st = l_role_epoch l) :
  listener_on_session_state env st l = Ok (l', eff) ->
  listener_moves l open eff l' None
  /\ listener_view l' None = View (l_role_epoch l) (controller_fingerprint st) None.
Proof.
  unfold listener_on_session_state.
  destruct (is_some_and _ _); [done|]. destruct (_ || negb _); [done|].
  set (suspend := paused st || _).
  intros H. injection H as <- <-. unfold listener_view. split; [split|].
  - by split; simpl; auto.
  - done.
  - done.
  - match goal with |- context [sent (_ ++ _ ++ if ?b then _ else _)] => destruct b end;
      match goal with |- context [sent ((if ?b then _ else _) ++ _)] => destruct b end;
      destruct suspend; repeat constructor.
  - simpl. by rewrite He.
Qed.

Lemma listener_prepare_moves l open env p l' eff
    (Hl : listener_ok open l) (Hopen : open = None) (He : role_epoch p = l_role_epoch l + 1) :
  listener_on_prepare env p l = Ok (l', eff) ->
  listener_moves l open eff l' (Some p)
  /\ listener_view l' (Some p) = listener_view l (Some p).
Proof.
  destruct Hl as [H1 H2 H3 H4]. rewrite Hopen in H3.
  assert (prepared_role l = None) as Hp by naive_solver.
  assert (forall q, Some p = Some q -> role_epoch q = l_role_epoch l + 1) as Hq
    by (intros; simplify_eq; done).
  unfold listener_on_prepare. destruct (_ || _).
  { intros. simplify_eq/=. split; [split|]; try done; [by split; auto|]. by repeat constructor. }
  destruct (validate_prepare _ _ _ _).
  2: { intros. simplify_eq/=. split; [split|]; try done. by split; auto. }
  intros H. injection H as <- <-. unfold listener_view.
  split; [split|]; destruct (l_local_is_controller l) eqn:E; try done; simpl.
  - split; simpl; auto; congruence.
  - split; simpl; auto; congruence.
  - repeat constructor; simpl; auto.
  - repeat constructor; simpl; auto.
Qed.

Lemma listener_commit_moves l env p st l' eff
    (Hl : listener_ok (Some p) l) (Hv : validate_commit p st = Ok tt)
    (He : role_epoch st = l_role_epoch l + 1) :
  listener_on_commit env st l = Ok (l', eff) ->
  listener_moves l (Some p) eff l' None
  /\ listener_view l' None = View (l_role_epoch l + 1) (controller_fingerprint st) None.
Proof.
  destruct Hl as [H1 H2 H3 H4]. unfold listener_on_commit.
  destruct (prepared_role l) as [p'|] eqn:Ep; [|done].
  assert (p' = p) as -> by (destruct H3; congruence). rewrite Hv.
  destruct (controller_fingerprint st) as [f|] eqn:Ef; [|done].
  assert (str_eqb f (l_local_fingerprint l) = bool_decide (Some f = Some (l_local_fingerprint l)))
    as Hf by (apply bool_decide_ext; split; congruence).
  intros H. cases_in H; (split; [split|unfold listener_view; simpl; by rewrite He, Ef]);
    simpl; try done; try (by split; simpl; rewrite ?Ef; auto); by repeat constructor.
Qed.

Lemma listener_abort_moves l env p st l' eff
    (Hl : listener_ok (Some p) l) (He : role_epoch st = l_role_epoch l)
    (Hc : controller_fingerprint st = controller_fingerprint (current_role_state l)) :
  listener_on_abort env st l = Ok (l', eff) ->
  listener_moves l (Some p) eff l' None
  /\ listener_view l' None = listener_view l None.
Proof.
  destruct Hl as [H1 H2 H3 H4]. unfold listener_on_abort.
  destruct (prepared_role l) as [p'|] eqn:Ep.
  - rewrite He, <- H1, Z.eqb_refl, bool_decide_true by done. cbn [negb orb].
    destruct (arm_listener_capture _ _ _); [|done]. intros. simplify_eq/=.
    split; [split|]; try done. by split; auto.
  - intros. simplify_eq. split; [split|]; try done. by split; auto.
Qed.

(** A listener that processes a frame the connector may have written reaches the
    assignment the frame carries. *)
Lemma listener_frame_moves l open env connector f v' l' eff
    (Hl : listener_ok open l) (Hf : follow connector (listener_view l open) f v') :
  listener_on_frame env f l = Ok (l', eff) ->
  exists open', listener_moves l open eff l' open' /\ listener_view l' open' = v'.
Proof.
  inversion Hf as [v st Ho He Hc|v p Ho He|v p st Ho Hv He Hsome|v p st Ho He Hc|v i He Hc|v g Hn|v i He];
    subst; simpl in *; subst; cbn [listener_on_frame]; intros H.
  - eexists. by eapply listener_session_moves in H.
  - eexists. eapply listener_prepare_moves in H; [|done..]. exact H.
  - eexists. by eapply listener_commit_moves in H.
  - eexists. eapply listener_abort_moves in H; [|done..]. exact H.
  - exists open. unfold listener_on_input in H. cases_in H; quiet.
  - exists open. destruct f as [| |i| |ctl| | | | |[]| | |]; try done;
      cbn [listener_on_frame] in H; try (injection H as <- <-; quiet; done).
    + unfold listener_on_input in H. cases_in H; quiet.
    + unfold listener_on_control in H.
      destruct (negb _); [simplify_eq/=; quiet|].
      destruct (control_event ctl); cases_in H; simplify_eq/=; quiet;
        by destruct (should_release_legacy_controller _ _ _); repeat constructor.
    + unfold listener_on_set_paused in H. cases_in H; quiet.
  - exists open. unfold listener_on_input in H. cases_in H; quiet.
Qed.

(** ** The invariant of a session *)

(** What a frame on its way to the connector says, whenever it was written. *)
Definition in_flight_ok (s : System) (f : Frame) : Prop :=
  match f with
  | Frame_Input i =>
      input_event i = AllKeysUp
      \/ input_role_epoch i <= l_role_epoch (ln s)
         /\ (input_role_epoch i = c_role_epoch (cn s) ->
             controller_fingerprint (stable (coordinator (cn s))) = Some (c_peer (cn s)))
  | Frame_Role (Ready epoch _ _ _) => epoch <= l_role_epoch (ln s) + 1
  | _ => True
  end.

Record system_inv (s : System) : Prop := {
  si_connector : connector_ok (cn s);
  si_local : l_controller_fingerprint (ln s) = c_local (cn s);
  si_peer : l_local_fingerprint (ln s) = c_peer (cn s);
  si_distinct : c_local (cn s) <> c_peer (cn s);
  si_follow : exists open, listener_ok open (ln s)
    /\ follow_all (c_local (cn s)) (listener_view (ln s) open) (to_listener s)
         (connector_view (cn s));
  si_lag : c_role_epoch (cn s) <= l_role_epoch (ln s) + 1;
  si_replies : Forall (in_flight_ok s) (to_connector s);
}.

Lemma system_inv_start s : session_start s -> system_inv s.
Proof.
  destruct 1 as [env initial local peer pc pi ps pr cap src c eff lc pos sw ca inj tg ls
                   Hne He H].
  unfold connector_init in H.
  destruct (RoleCoordinator_new _ _ _ _ _ _) as [coord|] eqn:Ec; [|done].
  assert (in_u64 (role_epoch initial)) as Hu by (by rewrite He).
  pose proof (coordinator_inv_new _ _ _ _ _ _ _ Hu Ec) as Hi.
  assert (coord = {| connector_fingerprint := local; listener_fingerprint := peer;
    stable := {| controller_fingerprint := controller_fingerprint initial;
                 role_epoch := role_epoch initial; transition := Stable;
                 listener_position := listener_position initial; paused := paused initial;
                 failure_detail := None |}; pending := None |}) as ->.
  { unfold RoleCoordinator_new in Ec. by destruct (is_some_and _ _); simplify_eq. }
  injection H as <- <-.
  split; unfold c_local, c_peer; simpl; try done.
  - exists None. split.
    + split; simpl; auto; [|done].
      symmetry. apply bool_decide_eq_false. congruence.
    + econstructor; [by apply follow_session|]. simpl.
      destruct (_ && negb (paused initial)); simpl; unfold connector_view; simpl; rewrite He;
        repeat (econstructor; try by apply follow_neutral).
  - rewrite He. done.
Qed.

Lemma reply_in_flight s l' f :
  reply_ok l' f -> l_role_epoch l' <= c_role_epoch (cn s) ->
  (l_role_epoch l' = c_role_epoch (cn s) ->
   controller_fingerprint (current_role_state l') = Some (l_local_fingerprint l') ->
   controller_fingerprint (stable (coordinator (cn s))) = Some (c_peer (cn s))) ->
  l_role_epoch (ln s) = l_role_epoch l' ->
  in_flight_ok s f.
Proof.
  unfold reply_ok, in_flight_ok. intros Hf Hle Hsame ->.
  destruct f as [| |i| | | | | | |[]| | |]; auto; [|lia].
  destruct Hf as [?|[Hi ?]]; [by left|right]. split; [lia|]. intros. apply Hsame; [lia|done].
Qed.

(** When both nodes are in one epoch and the listener controls, the connector knows. *)
Lemma same_epoch_peer s open :
  system_inv s -> listener_ok open (ln s) ->
  follow_all (c_local (cn s)) (listener_view (ln s) open) (to_listener s)
    (connector_view (cn s)) ->
  l_role_epoch (ln s) = c_role_epoch (cn s) ->
  controller_fingerprint (current_role_state (ln s)) = Some (l_local_fingerprint (ln s)) ->
  controller_fingerprint (stable (coordinator (cn s))) = Some (c_peer (cn s)).
Proof.
  intros Hs Hl Hf He Hc. apply follow_all_same_epoch in Hf; simpl in Hf; [|done].
  destruct Hs as [_ Hlo Hpe Hd _ _ _]. rewrite <- Hpe. destruct Hf as [Hf|Hf]; congruence.
Qed.

Lemma system_inv_connector s c eff rest (Hs : system_inv s)
    (Hm : connector_moves (cn s) eff c)
    (Hepoch : same_assignment (cn s) c
              \/ c_role_epoch c = c_role_epoch (cn s) + 1
                 /\ c_role_epoch (cn s) <= l_role_epoch (ln s))
    (Hrest : Forall (in_flight_ok s) rest) :
  system_inv {| cn := c; ln := ln s; to_listener := to_listener s ++ sent eff;
                to_connector := rest |}.
Proof.
  pose proof Hs as [H1 H2 H3 H4 (open & Hl & Hf) H6 H7]. destruct Hm as [M1 M2 M3 M4].
  pose proof (follow_all_epoch _ _ _ _ Hf) as Hle. simpl in Hle.
  split; simpl; rewrite ?M2, ?M3; try done.
  - exists open. split; [done|]. by eapply follow_all_app.
  - destruct Hepoch as [[E _]|[E ?]]; lia.
  - eapply Forall_impl; [exact Hrest|]. intros f. unfold in_flight_ok; simpl.
    destruct f as [| |i| | | | | | | | | |]; auto.
    intros [?|[Hi He]]; [by left|right]. split; [done|]. rewrite M3.
    destruct Hepoch as [[E ->]|[E ?]]; [rewrite E; done|lia].
Qed.

Lemma system_inv_listener s l open eff rest (Hs : system_inv s)
    (Hm : exists open0, listener_moves (ln s) open0 eff l open)
    (Hf : follow_all (c_local (cn s)) (listener_view l open) rest (connector_view (cn s)))
    (Hle : l_role_epoch (ln s) <= l_role_epoch l) :
  system_inv {| cn := cn s; ln := l; to_listener := rest;
                to_connector := to_connector s ++ sent eff |}.
Proof.
  pose proof Hs as [H1 H2 H3 H4 _ H6 H7]. destruct Hm as (open0 & [M1 M2 M3 M4]).
  pose proof (follow_all_epoch _ _ _ _ Hf) as Hep. simpl in Hep.
  split; simpl; rewrite ?M2, ?M3; try done; eauto; [lia|].
  apply Forall_app. split.
  - eapply Forall_impl; [exact H7|]. intros f. unfold in_flight_ok; simpl.
    destruct f as [| |i| | | | | | |[]| | |]; auto; [|lia].
    intros [?|[Hi He]]; [by left|right]. split; [lia|done].
  - eapply Forall_impl; [exact M4|]. intros f Hr.
    eapply (reply_in_flight {| cn := cn s; ln := l; to_listener := rest;
                               to_connector := to_connector s ++ sent eff |}); try done.
    simpl. intros He Hc. apply follow_all_same_epoch in Hf; simpl in Hf; [|done].
    destruct Hf as [Hf|Hf]; congruence.
Qed.

Lemma system_inv_step s s' : system_inv s -> system_step s s' -> system_inv s'.
Proof.
  intros Hs. destruct 1 as [env e s c eff H|env e s l eff H|env s f rest c eff Hq H
                            |env s f rest l eff Hq H].
  - apply connector_event_moves in H as [Hm Ha]; [|by apply si_connector].
    apply system_inv_connector; auto. by apply si_replies.
  - destruct (si_follow _ Hs) as (open & Hl & Hf).
    eapply listener_event_moves in H as [Hm Hv]; [|done].
    eapply system_inv_listener; eauto; [by rewrite Hv|].
    injection Hv. lia.
  - pose proof (si_replies _ Hs) as Hr. rewrite Hq in Hr.
    apply Forall_cons in Hr as [Hf0 Hr].
    apply connector_frame_moves in H as [Hm Ha]; [|by apply si_connector].
    apply system_inv_connector; auto.
    destruct Ha as [?|[(ca & inj & d & ->) He]]; [by left|right]. split; [done|].
    simpl in Hf0. lia.
  - destruct (si_follow _ Hs) as (open & Hl & Hf). rewrite Hq in Hf.
    inversion Hf as [|v v1 v2 g q Hf1 Hf2]; subst.
    eapply listener_frame_moves in H as (open' & Hm & Hv); [|done..].
    eapply system_inv_listener; eauto; [by rewrite Hv|].
    apply follow_epoch in Hf1. rewrite <- Hv in Hf1. done.
Qed.

Lemma reachable_inv s : reachable s -> system_inv s.
Proof.
  intros (s0 & H0 & Hs). apply system_inv_start in H0.
  induction Hs as [|s0 s1 s2 H _ IH]; eauto using system_inv_step.
Qed.

(** What it takes for a frame to be injected. *)
Lemma listener_injects env f l l' eff e :
  listener_on_frame env f l = Ok (l', eff) -> Inject e ∈ eff ->
  exists i, f = Frame_Input i /\ input_role_epoch i = l_role_epoch l /\ input_event i = e
    /\ e <> AllKeysUp /\ l_session_paused l = false /\ accepts_input (l_input_epoch l) = true.
Proof.
  intros H He. destruct f as [| |i| |ctl| | | | |[]| | |]; cbn [listener_on_frame] in H.
  3: { exists i. unfold listener_on_input in H. cases_in H; reflect_bools; set_solver. }
  all: exfalso.
  all: try (simplify_eq; set_solver).
  - unfold listener_on_control in H. destruct (negb _); [simplify_eq; set_solver|].
    destruct (control_event ctl); cases_in H; simplify_eq/=;
      try destruct (should_release_legacy_controller _ _ _); set_solver.
  - unfold listener_on_session_state in H. cases_in H. simplify_eq/=.
    repeat (rewrite elem_of_app in He). decompose [or] He;
      match goal with H : _ ∈ (if ?b then _ else _) |- _ => destruct b end; set_solver.
  - unfold listener_on_prepare in H. destruct (_ || _); [simplify_eq; set_solver|].
    destruct (validate_prepare _ _ _ _); [|simplify_eq; set_solver].
    injection H as _ <-. destruct (l_local_is_controller l); set_solver.
  - unfold listener_on_commit in H. cases_in H; set_solver.
  - unfold listener_on_abort in H. cases_in H; set_solver.
  - unfold listener_on_set_paused in H. cases_in H; set_solver.
Qed.

Lemma connector_injects env f c c' eff e :
  connector_on_frame env f c = Ok (c', eff) -> Inject e ∈ eff ->
  exists i, f = Frame_Input i /\ input_role_epoch i = c_role_epoch c /\ input_event i = e
    /\ e <> AllKeysUp /\ c_session_paused c = false /\ accepts_input (c_input_epoch c) = true.
Proof.
  intros H He. destruct f as [| |i| |ctl| | | | |[]| | |]; cbn [connector_on_frame] in H.
  3: { exists i. unfold connector_on_input in H. cases_in H; reflect_bools; set_solver. }
  all: exfalso.
  all: try (simplify_eq; set_solver).
  - unfold connector_on_control in H. cases_in H; set_solver.
  - unfold connector_on_request, start_role_switch, begin_connector_role_switch in H.
    destruct (_ && _); [|simplify_eq; set_solver].
    destruct (role_result _); [|done]. cbn in H. injection H as _ <-.
    destruct (bool_decide _); set_solver.
  - unfold connector_on_ready in H. cases_in H; set_solver.
  - unfold connector_on_applied in H. cases_in H; set_solver.
  - unfold connector_on_set_paused, resume_audio, send_linux_audio_route in H.
    cases_in H; repeat destruct (bool_decide _); set_solver.
Qed.

(** ** Schedules

    A schedule names who acts next; running it is executable, and every run is
    a sequence of steps of the system. *)
Inductive action :=
| Act_connector (env : Env) (e : connector_event)
| Act_listener (env : Env) (e : listener_event)
| Act_deliver_to_connector (env : Env)
| Act_deliver_to_listener (env : Env).

Definition run_action (s : System) (a : action) : option System :=
  match a with
  | Act_connector env e =>
      match connector_on_event env e (cn s) with
      | Ok (c, eff) => Some {| cn := c; ln := ln s; to_listener := to_listener s ++ sent eff;
                               to_connector := to_connector s |}
      | Err _ => None
      end
  | Act_listener env e =>
      match listener_on_event env e (ln s) with
      | Ok (l, eff) => Some {| cn := cn s; ln := l; to_listener := to_listener s;
                               to_connector := to_connector s ++ sent eff |}
      | Err _ => None
      end
  | Act_deliver_to_connector env =>
      match to_connector s with
      | [] => None
      | f :: rest =>
          match connector_on_frame env f (cn s) with
          | Ok (c, eff) => Some {| cn := c; ln := ln s;
                                   to_listener := to_listener s ++ sent eff;
                                   to_connector := rest |}
          | Err _ => None
          end
      end
  | Act_deliver_to_listener env =>
      match to_listener s with
      | [] => None
      | f :: rest =>
          match listener_on_frame env f (ln s) with
          | Ok (l, eff) => Some {| cn := cn s; ln := l; to_listener := rest;
                                   to_connector := to_connector s ++ sent eff |}
          | Err _ => None
          end
      end
  end.

Fixpoint run_schedule (s : System) (schedule : list action) : option System :=
  match schedule with
  | [] => Some s
  | a :: rest => match run_action s a with Some s' => run_schedule s' rest | None => None end
  end.

Lemma run_action_step s a s' : run_action s a = Some s' -> system_step s s'.
Proof.
  intros H. destruct a; cbn [run_action] in H; cases_in H; eauto using system_step.
Qed.

Lemma run_schedule_steps schedule : forall s s',
  run_schedule s schedule = Some s' -> rtc system_step s s'.
Proof.
  induction schedule as [|a schedule IH]; intros s s' H; simpl in H; [by simplify_eq|].
  destruct (run_action s a) eqn:E; [|done]. eauto using rtc_l, run_action_step.
Qed.

Lemma reachable_run s schedule s' :
  reachable s -> run_schedule s schedule = Some s' -> reachable s'.
Proof.
  intros (s0 & H0 & Hs) H. exists s0. split; [done|].
  etrans; eauto using run_schedule_steps.
Qed.

(** A session of ["a"], which dialled and controls, with ["b"]. *)
Definition sample_env : Env :=
  {| now := 0; preflight := Ok tt; arm := Ok tt; release := Ok tt; disarm := Ok tt;
     audio_port := 40000 |}.
Definition sample_initial : RoleState :=
  initial_role_state None "a" "b" true true true Edge_Left false.
Definition sample_session : System :=
  {| cn := match connector_init sample_env sample_initial "a" "b" true true true true false
                   None with
           | Ok (c, _) => c
           | Err _ => {| coordinator := sample_coordinator; c_role_epoch := 0;
                         c_local_is_controller := false; c_session_paused := false;
                         c_input_forwarding_enabled := false; c_capture := false;
                         c_input_epoch := InputEpochGate_default; c_input_active := false;
                         pending_readiness := None; transition_deadline := None;
                         pending_role_persistence := None; c_role_store := None;
                         connector_pause := false;
                         c_audio := {| audio_starting := false; audio_start_generation := 0;
                                       audio_sending := false; audio_receiving := false |};
                         c_audio_source := None; c_role_switch_available := false;
                         peer_supports_audio_route := false |}
           end;
     ln := listener_init "b" "a" Edge_Left false true true true true None;
     to_listener := [Frame_Role (SessionState sample_initial)];
     to_connector := [] |}.

Lemma sample_session_reachable schedule s :
  run_schedule sample_session schedule = Some s -> reachable s.
Proof.
  apply reachable_run. exists sample_session. split; [|done].
  by apply (session_starts sample_env sample_initial "a" "b" true true true true false None
              _ []).
Qed.

(** The handover of control to ["b"], frame by frame. *)
Definition sample_handover : list action :=
  [Act_deliver_to_listener sample_env; Act_connector sample_env (C_SetController false);
   Act_deliver_to_listener sample_env; Act_deliver_to_listener sample_env;
   Act_deliver_to_connector sample_env; Act_deliver_to_listener sample_env;
   Act_deliver_to_connector sample_env].

Definition after_handover : System :=
  match run_schedule sample_session sample_handover with
  | Some s => s | None => sample_session end.

Lemma after_handover_reachable : reachable after_handover.
Proof. apply (sample_session_reachable sample_handover). vm_compute. reflexivity. Qed.

(** ** Properties *)

(** C1. At no moment of a session do both nodes act as the controller of one epoch, however
    user requests, timeouts, layout changes, capture failures, pauses and deliveries
    interleave. *)
Theorem one_controller_per_epoch (s : System) (Hs : reachable s)
    (Hepoch : c_role_epoch (cn s) = l_role_epoch (ln s)) :
  ~ (c_local_is_controller (cn s) = true /\ l_local_is_controller (ln s) = true).
Proof.
  apply reachable_inv in Hs. intros [H1 H2].
  destruct (si_follow _ Hs) as (open & Hl & Hf).
  rewrite (lo_controls _ _ Hl) in H2. apply bool_decide_eq_true in H2.
  rewrite (co_controls _ (si_connector _ Hs)) in H1. apply bool_decide_eq_true in H1.
  pose proof (same_epoch_peer s open Hs Hl Hf (eq_sym Hepoch) H2).
  pose proof (si_distinct _ Hs). congruence.
Qed.

Example one_controller_per_epoch_witness :
  l_local_is_controller (ln after_handover) = true
  /\ ~ (c_local_is_controller (cn after_handover) = true
        /\ l_local_is_controller (ln after_handover) = true).
Proof.
  split; [vm_compute; reflexivity|].
  apply (one_controller_per_epoch _ after_handover_reachable). vm_compute. reflexivity.
Defined.

(** The listener follows: its epoch is never ahead of the connector's and never more than
    one behind, and once it has read everything in flight both nodes are in the same epoch
    under the same controller, unless the listener still waits for a first announcement. *)
Theorem listener_follows_connector (s : System) (Hs : reachable s) :
  l_role_epoch (ln s) <= c_role_epoch (cn s) <= l_role_epoch (ln s) + 1
  /\ (to_listener s = [] ->
      l_role_epoch (ln s) = c_role_epoch (cn s)
      /\ controller_fingerprint (current_role_state (ln s))
         = controller_fingerprint (stable (coordinator (cn s)))).
Proof.
  apply reachable_inv in Hs. destruct (si_follow _ Hs) as (open & Hl & Hf).
  pose proof (follow_all_epoch _ _ _ _ Hf) as He. simpl in He.
  split; [split; [done|by apply si_lag]|].
  intros Hq. rewrite Hq in Hf. by inversion Hf.
Qed.

Example listener_follows_connector_witness :
  l_role_epoch (ln after_handover) = c_role_epoch (cn after_handover).
Proof.
  destruct (listener_follows_connector _ after_handover_reachable) as [_ Hf].
  assert (to_listener after_handover = []) as Hq by (vm_compute; reflexivity).
  destruct (Hf Hq) as [E _]. exact E.
Defined.

(** What the listener injects, in any system that keeps the invariant. *)
Lemma injects_from_the_controller (s : System) (env : Env) (f : Frame) (rest : list Frame)
    (e : InputEvent) (Hs : system_inv s) l eff :
  to_listener s = f :: rest -> listener_on_frame env f (ln s) = Ok (l, eff) -> Inject e ∈ eff ->
  f = Frame_input (l_role_epoch (ln s)) e
  /\ controller_fingerprint (current_role_state (ln s)) = Some (c_local (cn s))
  /\ l_session_paused (ln s) = false /\ accepts_input (l_input_epoch (ln s)) = true.
Proof.
  intros Hq H He. destruct (si_follow _ Hs) as (open & Hl & Hf).
  rewrite Hq in Hf. inversion Hf as [|v v1 v2 g q Hf1 Hf2]; subst.
  destruct (listener_injects _ _ _ _ _ _ H He) as (i & -> & Hi & Hev & Hne & Hp & Hg).
  inversion Hf1 as [| | | |v' i' Hi' Hc|v' g Hn|v' i' Hi']; subst; simpl in *.
  - destruct i; simpl in *; subst. done.
  - destruct i as [ep []]; simpl in *; simplify_eq; done.
  - lia.
Qed.

(** C3. Input is injected only for the node that controls: an event injected by the listener
    was captured by the connector in the epoch the listener has applied and in which the
    connector is the controller, and an event injected by the connector was captured by the
    listener while the listener was the controller of the connector's current epoch; in
    both cases the injecting node is not paused and has been entered since it was last
    suspended. *)
Theorem injected_input_comes_from_the_controller (s : System) (env : Env) (f : Frame)
    (rest : list Frame) (e : InputEvent) (Hs : reachable s) :
  (forall l eff, to_listener s = f :: rest -> listener_on_frame env f (ln s) = Ok (l, eff) ->
     Inject e ∈ eff ->
     f = Frame_input (l_role_epoch (ln s)) e
     /\ controller_fingerprint (current_role_state (ln s)) = Some (c_local (cn s))
     /\ l_session_paused (ln s) = false /\ accepts_input (l_input_epoch (ln s)) = true)
  /\ (forall c eff, to_connector s = f :: rest -> connector_on_frame env f (cn s) = Ok (c, eff) ->
     Inject e ∈ eff ->
     f = Frame_input (c_role_epoch (cn s)) e
     /\ controller_fingerprint (stable (coordinator (cn s))) = Some (c_peer (cn s))
     /\ c_session_paused (cn s) = false /\ accepts_input (c_input_epoch (cn s)) = true).
Proof.
  apply reachable_inv in Hs. split.
  - by apply injects_from_the_controller.
  - intros c eff Hq H He. pose proof (si_replies _ Hs) as Hr. rewrite Hq in Hr.
    apply Forall_cons in Hr as [Hf _].
    destruct (connector_injects _ _ _ _ _ _ H He) as (i & -> & Hi & Hev & Hne & Hp & Hg).
    destruct Hf as [?|[_ Hf]]; [congruence|].
    destruct i; simpl in *; subst. auto.
Qed.

Definition input_schedule : list action :=
  [Act_deliver_to_listener sample_env;
   Act_connector sample_env (C_Activated Edge_Left (SpecFloat.S754_zero false));
   Act_connector sample_env (C_Captured (Key 30 true));
   Act_deliver_to_listener sample_env].

Definition during_input : System :=
  match run_schedule sample_session input_schedule with Some s => s | None => sample_session end.

Lemma during_input_reachable : reachable during_input.
Proof. apply (sample_session_reachable input_schedule). vm_compute. reflexivity. Qed.

Example injected_input_comes_from_the_controller_witness :
  listener_on_frame sample_env (Frame_input 1 (Key 30 true)) (ln during_input)
  = Ok (ln during_input, [Inject (Key 30 true)])
  /\ controller_fingerprint (current_role_state (ln during_input)) = Some "a"%string.
Proof.
  assert (listener_on_frame sample_env (Frame_input 1 (Key 30 true)) (ln during_input)
          = Ok (ln during_input, [Inject (Key 30 true)])) as E by (vm_compute; reflexivity).
  assert (to_listener during_input = [Frame_input 1 (Key 30 true)]) as Hq
    by (vm_compute; reflexivity).
  split; [exact E|].
  destruct (injected_input_comes_from_the_controller during_input sample_env
              (Frame_input 1 (Key 30 true)) [] (Key 30 true) during_input_reachable) as [Hl _].
  destruct (Hl _ _ Hq E (list_elem_of_here _ _)) as (_ & Hc & _).
  rewrite Hc. vm_compute. reflexivity.
Defined.

(** A commit is never silently dropped: the listener that receives one either holds the
    matching preparation and moves to the commit's epoch and controller, writing [Applied]
    or asking for control to be returned, or has given its preparation up and ends the
    session; only a failing capture backend is the other way to end it. *)
Theorem commit_applies_or_ends (s : System) (env : Env) (commit : RoleState) (rest : list Frame)
    (Hs : reachable s) (Hq : to_listener s = Frame_Role (Role_Commit commit) :: rest) :
  role_epoch commit = l_role_epoch (ln s) + 1
  /\ match listener_on_frame env (Frame_Role (Role_Commit commit)) (ln s) with
     | Ok (l, eff) =>
         l_role_epoch l = role_epoch commit
         /\ current_role_state l = commit
         /\ l_local_is_controller l
            = bool_decide (controller_fingerprint commit = Some (l_local_fingerprint l))
         /\ prepared_role l = None /\ accepts_input (l_input_epoch l) = false
         /\ (Send (Frame_Role (Applied (role_epoch commit))) ∈ eff
             \/ Send (Frame_Role (Role_Request (c_local (cn s)))) ∈ eff)
     | Err e => e = CommitWithoutPrepare /\ prepared_role (ln s) = None
                \/ exists reason, e = CaptureFailed reason
     end.
Proof.
  apply reachable_inv in Hs. destruct (si_follow _ Hs) as (open & [H1 H2 H3 H4] & Hf).
  rewrite Hq in Hf. inversion Hf as [|v v1 v2 g q Hf1 Hf2]; subst.
  inversion Hf1 as [| |v p st Ho Hv He [f Ef]| | | |]; subst; simpl in *; [|done].
  split; [done|]. unfold listener_on_commit.
  destruct (prepared_role (ln s)) as [p'|] eqn:Ep; [|by left].
  assert (p' = p) as -> by (destruct H3; congruence). rewrite Hv.
  rewrite Ef.
  assert (str_eqb f (l_local_fingerprint (ln s))
          = bool_decide (Some f = Some (l_local_fingerprint (ln s)))) as Hf'
    by (apply bool_decide_ext; split; congruence).
  rewrite <- (si_local _ Hs).
  destruct (_ && negb (is_Ok (arm env))); cbv zeta.
  - destruct (_ && negb (l_session_paused _)); [|right; by eexists].
    cbn. split_and!; try done. right. apply list_elem_of_further, list_elem_of_here.
  - cbn. split_and!; try done. left. apply list_elem_of_further, list_elem_of_here.
Qed.

Definition before_commit : System :=
  match run_schedule sample_session (take 5 sample_handover) with
  | Some s => s | None => sample_session end.

Lemma before_commit_reachable : reachable before_commit.
Proof. apply (sample_session_reachable (take 5 sample_handover)). vm_compute. reflexivity. Qed.

Definition sample_commit : RoleState :=
  {| controller_fingerprint := Some "b"%string; role_epoch := 2; transition := Stable;
     listener_position := Edge_Left; paused := false; failure_detail := None |}.

Example commit_applies_or_ends_witness :
  role_epoch sample_commit = l_role_epoch (ln before_commit) + 1.
Proof.
  assert (to_listener before_commit = [Frame_Role (Role_Commit sample_commit)]) as Hq
    by (vm_compute; reflexivity).
  destruct (commit_applies_or_ends before_commit sample_env sample_commit []
              before_commit_reachable Hq) as [E _].
  exact E.
Defined.

(** A readiness answers whichever attempt is pending, not the one it was given for: epochs
    are reused after an abort, so there is a run in which the connector commits on the
    readiness of an attempt it aborted while the listener, paused meanwhile, has refused the
    current attempt; that refusal is still in flight when the commit ends the session. *)
Theorem aborted_attempt_readiness_commits :
  exists s commit detail,
    reachable s
    /\ to_listener s = [Frame_Role (Role_Commit commit)]
    /\ to_connector s = [Frame_Role (SetPaused true);
                         Frame_Role (Ready (role_epoch commit) false false detail)]
    /\ c_role_epoch (cn s) = role_epoch commit
    /\ forall env, listener_on_frame env (Frame_Role (Role_Commit commit)) (ln s)
                   = Err CommitWithoutPrepare.
Proof.
  set (schedule :=
    [Act_deliver_to_listener sample_env; Act_connector sample_env (C_SetController false);
     Act_deliver_to_listener sample_env; Act_deliver_to_listener sample_env;
     Act_connector sample_env C_LayoutChanged;
     Act_connector sample_env (C_SetController false);
     Act_deliver_to_listener sample_env; Act_listener sample_env L_Disconnect;
     Act_deliver_to_listener sample_env; Act_deliver_to_listener sample_env;
     Act_deliver_to_connector sample_env]).
  destruct (run_schedule sample_session schedule) as [s|] eqn:E; [|by vm_compute in E].
  exists s, sample_commit,
    (Some "role switching is unavailable while this session is paused"%string).
  split; [by eapply sample_session_reachable|].
  vm_compute in E. injection E as <-. split_and!; reflexivity.
Qed.

(** When its capture backend fails, a controlling connector asks for control to be
    returned with a role request to its peer, but a listener does nothing on a role request:
    neither node's assignment changes, and the connector remains the controller without a
    capture backend. *)
Theorem connector_capture_fallback_is_ignored (c : Connector) (l : Listener) (env : Env)
    (Hcontrols : c_local_is_controller c = true)
    (Havailable : c_role_switch_available c = true)
    (Hpaused : c_session_paused c = false)
    (Hidle : is_transitioning (coordinator c) = false) :
  exists c',
    connector_on_backend_failed c
    = Ok (c', [Send (Frame_input (c_role_epoch c) AllKeysUp);
               Send (Frame_Role (Role_Request (c_peer c)))])
    /\ listener_on_frame env (Frame_Role (Role_Request (c_peer c))) l = Ok (l, [])
    /\ c_local_is_controller c' = true /\ c_capture c' = false
    /\ coordinator c' = coordinator c /\ pending_readiness c' = pending_readiness c.
Proof.
  unfold connector_on_backend_failed; simpl. rewrite Hcontrols, Havailable, Hpaused, Hidle.
  eexists. by split_and!.
Qed.

Example connector_capture_fallback_is_ignored_witness :
  exists c', connector_on_backend_failed (cn during_input)
    = Ok (c', [Send (Frame_input 1 AllKeysUp); Send (Frame_Role (Role_Request "b"))]).
Proof.
  edestruct (connector_capture_fallback_is_ignored (cn during_input) (ln during_input)
    sample_env) as (c' & H & _); [vm_compute; reflexivity..|].
  exists c'. exact H.
Defined.

(** *** A handover with working backends *)

Section Handover.
Context (env : Env) (Hpre : preflight env = Ok tt) (Harm : arm env = Ok tt).

Lemma arm_listener_ok guard l : arm_listener_capture env guard l = Ok tt.
Proof. unfold arm_listener_capture. rewrite Harm. by destruct (_ && _). Qed.

Lemma begin_connector c f (Hc : connector_ok c) :
  is_transitioning (coordinator c) = false ->
  f = c_local c \/ f = c_peer c -> role_epoch (stable (coordinator c)) < u64_max ->
  exists c' x,
    start_role_switch env f c = Ok (c', [x; Send (Frame_Role (Prepare (prepare_of
      {| previous := stable (coordinator c); pending_controller_fingerprint := f;
         proposed_epoch := role_epoch (stable (coordinator c)) + 1 |})))])
    /\ (x = Send (Frame_input (role_epoch (stable (coordinator c))) AllKeysUp)
        \/ x = ReleaseAll)
    /\ pending_readiness c' = Some {| capture_ready := true; inject_ready := true;
                                      readiness_detail := None |}
    /\ pending (coordinator c')
       = Some {| previous := stable (coordinator c); pending_controller_fingerprint := f;
                 proposed_epoch := role_epoch (stable (coordinator c)) + 1 |}
    /\ (f = c_local c -> c_capture c' = true)
    /\ c_session_paused c' = c_session_paused c.
Proof.
  intros Ht Hf He. unfold start_role_switch, begin_connector_role_switch.
  cbn [coordinator set_c_input_epoch]. rewrite prepare_spec, Ht by apply Hc.
  assert (str_eqb f (connector_fingerprint (coordinator c))
          || str_eqb f (listener_fingerprint (coordinator c)) = true) as ->
    by (apply orb_true_iff; rewrite !str_eqb_spec; done).
  rewrite (proj2 (Z.eqb_neq _ _)) by lia. cbn [negb role_result]. rewrite Hpre.
  match goal with |- context [if ?b then None else None] =>
    replace (if b then None else None) with (@None string) by (by destruct b) end.
  eexists _, _. split; [reflexivity|]. split_and!.
  - destruct (bool_decide _); auto.
  - done.
  - done.
  - intros ->. simpl. unfold c_local at 1; simpl. unfold str_eqb.
    rewrite bool_decide_true by done. by destruct (c_capture c).
  - done.
Qed.
Lemma ready_connector c p (Hp : pending (coordinator c) = Some p) :
  pending_readiness c = Some {| capture_ready := true; inject_ready := true;
                                readiness_detail := None |} ->
  (pending_controller_fingerprint p = c_local c -> c_capture c = true) ->
  exists c', connector_on_ready env (proposed_epoch p) true true None c
    = Ok (c', [Send (Frame_Role (Role_Commit (committed_state p))); ReleaseAll])
  /\ pending_role_persistence c' = Some (proposed_epoch p, pending_controller_fingerprint p)
  /\ c_role_epoch c' = proposed_epoch p
  /\ stable (coordinator c') = committed_state p.
Proof.
  intros Hr Hcap. unfold connector_on_ready. rewrite Hr.
  cbn [coordinator set_pending_readiness set_transition_deadline].
  unfold finish_ready, st_bind, st_get, st_put, st_ret, st_fail. rewrite Hp, Z.eqb_refl.
  cbn -[arm_if_controlling].
  match goal with |- context [arm_if_controlling env ?x] =>
    assert (arm_if_controlling env x = Ok tt) as -> end; [|by eexists].
  unfold arm_if_controlling, arm_connector_capture. simpl. rewrite Harm.
  destruct (str_eqb _ _) eqn:E; simpl; [|done].
  apply str_eqb_spec in E. rewrite Hcap by done. by destruct (_ && _).
Qed.

Lemma all_keys_up_listener l epoch :
  exists eff, listener_on_frame env (Frame_input epoch AllKeysUp) l = Ok (l, eff)
              /\ sent eff = [].
Proof.
  cbn. unfold listener_on_input. simpl. destruct (negb _); [|destruct (_ || _)]; eauto.
Qed.

Lemma all_keys_up_connector c epoch :
  exists eff, connector_on_frame env (Frame_input epoch AllKeysUp) c = Ok (c, eff)
              /\ sent eff = [].
Proof. cbn. unfold connector_on_input. simpl. destruct (_ && _); eauto. Qed.

Lemma prepare_listener l p :
  l_session_paused l = false -> l_role_switch_available l = true ->
  validate_prepare (current_role_state l) p (l_controller_fingerprint l)
    (l_local_fingerprint l) = Ok tt ->
  exists l' x, listener_on_prepare env p l
    = Ok (l', [x; Send (Frame_Role (Ready (role_epoch p) true true None))])
  /\ (x = Send (Frame_input (l_role_epoch l) AllKeysUp) \/ x = ReleaseAll)
  /\ prepared_role l' = Some p /\ l_session_paused l' = false
  /\ l_role_switch_available l' = true.
Proof.
  intros Hp Ha Hv. unfold listener_on_prepare. rewrite Hp, Ha, Hv. cbn [orb negb].
  rewrite Hpre. eexists _, _. split; [|split; [|split_and!]].
  - destruct (_ && negb (l_capture _)); reflexivity.
  - destruct (l_local_is_controller l); auto.
  - done.
  - by destruct (l_local_is_controller l).
  - by destruct (l_local_is_controller l).
Qed.

Lemma commit_listener l p :
  prepared_role l = Some (prepare_of p) ->
  exists l', listener_on_commit env (committed_state p) l
    = Ok (l', [ReleaseAll; Send (Frame_Role (Applied (proposed_epoch p)))])
  /\ l_role_store l' = Some (CommittedRole_new (pending_controller_fingerprint p)).
Proof.
  intros Hp. unfold listener_on_commit. rewrite Hp. unfold validate_commit. simpl.
  rewrite Z.eqb_refl, bool_decide_true by done. rewrite Harm, andb_false_r. by eexists.
Qed.
End Handover.

(** *** Deliveries

    From a state on, the frames in flight arrive, in any order of the two streams and whatever the
    clocks say, while the capture backends work and nobody asks for anything else. *)

Definition backends_work (env : Env) : Prop := preflight env = Ok tt /\ arm env = Ok tt.
Inductive arrival : System -> System -> Prop :=
| arrival_at_connector env s f rest c eff : backends_work env ->
    to_connector s = f :: rest -> connector_on_frame env f (cn s) = Ok (c, eff) ->
    arrival s {| cn := c; ln := ln s; to_listener := to_listener s ++ sent eff;
                 to_connector := rest |}
| arrival_at_listener env s f rest l eff : backends_work env ->
    to_listener s = f :: rest -> listener_on_frame env f (ln s) = Ok (l, eff) ->
    arrival s {| cn := cn s; ln := l; to_listener := rest;
                 to_connector := to_connector s ++ sent eff |}.
Definition nothing_in_flight (s : System) : Prop := to_listener s = [] /\ to_connector s = [].
(** The next frame of neither stream ends the session. *)
Definition session_holds (s : System) : Prop := forall env, backends_work env ->
  (forall f rest, to_connector s = f :: rest -> is_Ok (connector_on_frame env f (cn s)) = true)
  /\ (forall f rest, to_listener s = f :: rest -> is_Ok (listener_on_frame env f (ln s)) = true).

Lemma arrival_step s s' : arrival s s' -> system_step s s'.
Proof. destruct 1; [by eapply step_connector_frame|by eapply step_listener_frame]. Qed.

(** Every way to deliver ends after at most [n] arrivals, with [P], and none ends the session. *)
Fixpoint settles (P : System -> Prop) (n : nat) (s : System) : Prop :=
  session_holds s /\ (nothing_in_flight s -> P s)
  /\ forall s', arrival s s' -> match n with O => False | S n => settles P n s' end.

Lemma settles_runs P n : forall m s s', settles P n s -> nsteps arrival m s s' ->
  (m <= n)%nat /\ session_holds s' /\ (nothing_in_flight s' -> P s').
Proof.
  induction n as [|n IH]; intros m s s' (Hh & Hq & Hn) Hr;
    (destruct m as [|m]; [inversion Hr; subst; split_and!; (done || lia)|]);
    inversion Hr as [|? ? s1 ? H1 H2]; subst; specialize (Hn s1 H1); [done|].
  destruct (IH m s1 s' Hn H2) as (? & ? & ?). split_and!; [lia|done|done].
Qed.

(** A step of the only stream with a frame. *)
Lemma settles_listener P n c l f rest :
  (forall env, backends_work env -> exists l' eff, listener_on_frame env f l = Ok (l', eff)
     /\ settles P n {| cn := c; ln := l'; to_listener := rest; to_connector := sent eff |}) ->
  settles P (S n) {| cn := c; ln := l; to_listener := f :: rest; to_connector := [] |}.
Proof.
  intros Hf. split_and!; [|by intros []|].
  - intros env He. split; cbn; [done|]. intros ? ? [= <- <-]. by destruct (Hf env He) as (? & ? & -> & _).
  - intros s' Ha. inversion Ha as [|env s g ? l' eff He Hg Hl]; subst; cbn in *; [done|].
    injection Hg as <- <-. destruct (Hf env He) as (l2 & e2 & E & Hs). rewrite Hl in E. by injection E as <- <-.
Qed.
Lemma settles_connector P n c l f rest :
  (forall env, backends_work env -> exists c' eff, connector_on_frame env f c = Ok (c', eff)
     /\ settles P n {| cn := c'; ln := l; to_listener := sent eff; to_connector := rest |}) ->
  settles P (S n) {| cn := c; ln := l; to_listener := []; to_connector := f :: rest |}.
Proof.
  intros Hf. split_and!; [|by intros []|].
  - intros env He. split; cbn; [|done]. intros ? ? [= <- <-]. by destruct (Hf env He) as (? & ? & -> & _).
  - intros s' Ha. inversion Ha as [env s g ? c' eff He Hg Hl|]; subst; cbn in *; [|done].
    injection Hg as <- <-. destruct (Hf env He) as (c2 & e2 & E & Hs). rewrite Hl in E. by injection E as <- <-.
Qed.
Lemma settles_more P n s : settles P n s -> settles P (S n) s.
Proof.
  revert s. induction n as [|n IH]; intros s (Hh & Hq & Hn); (split_and!; [done|done|]); intros s' Ha;
    specialize (Hn s' Ha); [done|by apply IH].
Qed.
(** A release of all keys is the only frame or none before what follows it. *)
Lemma settles_keys_up_listener P n c l x epoch eff :
  x = Send (Frame_input epoch AllKeysUp) \/ x = ReleaseAll ->
  settles P n {| cn := c; ln := l; to_listener := sent eff; to_connector := [] |} ->
  settles P (S n) {| cn := c; ln := l; to_listener := sent (x :: eff); to_connector := [] |}.
Proof.
  intros [-> | ->] Hs; [|by apply settles_more]. apply settles_listener. intros env _.
  destruct (all_keys_up_listener env l epoch) as (none & -> & He). exists l, none. by rewrite He.
Qed.
Lemma settles_keys_up_connector P n c l x epoch eff :
  x = Send (Frame_input epoch AllKeysUp) \/ x = ReleaseAll ->
  settles P n {| cn := c; ln := l; to_listener := []; to_connector := sent eff |} ->
  settles P (S n) {| cn := c; ln := l; to_listener := []; to_connector := sent (x :: eff) |}.
Proof.
  intros [-> | ->] Hs; [|by apply settles_more]. apply settles_connector. intros env _.
  destruct (all_keys_up_connector env c epoch) as (none & -> & He). exists c, none. by rewrite He.
Qed.

(** Both nodes committed [f] in the epoch. *)
Definition committed (f : string) (epoch : Z) (s : System) : Prop :=
  c_role_epoch (cn s) = epoch /\ controller_fingerprint (stable (coordinator (cn s))) = Some f
  /\ c_role_store (cn s) = Some (CommittedRole_new f)
  /\ l_role_store (ln s) = Some (CommittedRole_new f).

(** From the moment the preparation is in flight, a handover needs five arrivals at most. *)
Lemma handover_from_prepare c l p
    (Hp : pending (coordinator c) = Some p)
    (Hr : pending_readiness c = Some {| capture_ready := true; inject_ready := true;
                                        readiness_detail := None |})
    (Hcap : pending_controller_fingerprint p = c_local c -> c_capture c = true)
    (Hl : l_session_paused l = false) (Ha : l_role_switch_available l = true)
    (Hv : validate_prepare (current_role_state l) (prepare_of p) (l_controller_fingerprint l)
            (l_local_fingerprint l) = Ok tt) :
  settles (committed (pending_controller_fingerprint p) (proposed_epoch p)) 5
    {| cn := c; ln := l; to_listener := [Frame_Role (Prepare (prepare_of p))]; to_connector := [] |}.
Proof.
  apply settles_listener. intros env [Hpre Harm].
  destruct (prepare_listener env Hpre l (prepare_of p)) as (l1 & y & H1 & Hy & P1 & _); try done.
  exists l1, [y; Send (Frame_Role (Ready (role_epoch (prepare_of p)) true true None))]. split; [exact H1|].
  apply (settles_keys_up_connector _ 3 c l1 y (l_role_epoch l) _ Hy).
  clear env Hpre Harm H1. apply settles_connector. intros env [Hpre Harm].
  destruct (ready_connector env Harm c p Hp Hr Hcap) as (c2 & H2 & P2 & P2' & P2s).
  eexists c2, _. split; [exact H2|]. clear env Hpre Harm H2. apply settles_listener. intros env [Hpre Harm].
  destruct (commit_listener env Harm l1 p P1) as (l3 & H3 & P3).
  eexists l3, _. split; [exact H3|]. clear env Hpre Harm H3. apply settles_connector. intros env _.
  cbn. unfold connector_on_applied. rewrite P2, P2', Z.eqb_refl. cbn. eexists _, []. split; [reflexivity|].
  split_and!; [|intros _|].
  - by intros e _.
  - split_and!; [exact P2'|cbn; by rewrite P2s|done|exact P3].
  - intros s' Harr. by inversion Harr.
Qed.

(** The connector's request, and what is in flight then. *)
Lemma handover_settles (s : System) (env : Env) (local : bool) (f : string)
    (Hs : reachable s) (Hwork : backends_work env)
    (Hf : f = if local then c_local (cn s) else c_peer (cn s))
    (Hquiet : nothing_in_flight s)
    (Hidle : is_transitioning (coordinator (cn s)) = false)
    (Hpaused : c_session_paused (cn s) = false /\ l_session_paused (ln s) = false)
    (Havailable : c_role_switch_available (cn s) = true
                  /\ l_role_switch_available (ln s) = true)
    (Hother : controller_fingerprint (stable (coordinator (cn s))) <> Some f)
    (Hroom : c_role_epoch (cn s) < u64_max) :
  exists c eff, connector_on_event env (C_SetController local) (cn s) = Ok (c, eff)
  /\ settles (committed f (c_role_epoch (cn s) + 1)) 6
       {| cn := c; ln := ln s; to_listener := sent eff; to_connector := [] |}.
Proof.
  pose proof (reachable_inv _ Hs) as Hi. destruct Hi as [Hc Hlo Hpe Hd (o & Hl & Hfo) _ _].
  destruct Hquiet as [Hq1 Hq2]. rewrite Hq1 in Hfo.
  assert (listener_view (ln s) o = connector_view (cn s)) as Ev
    by (symmetry; by eapply follow_all_nil).
  injection Ev as Ev1 Ev2 _. subst f.
  destruct Hpaused as [Hp1 Hp2], Havailable as [Ha1 Ha2].
  set (f := if local then _ else _) in *. destruct Hwork as [Hpre Harm].
  destruct (begin_connector env Hpre (cn s) f Hc Hidle) as (c1 & x & H1 & Hx & Hre & Hpd & Hcap & _).
  { destruct local; auto. }
  { by rewrite <- (co_epoch _ Hc). }
  assert (c_local c1 = c_local (cn s)) as Hlc.
  { apply start_moves in H1 as [[_ Hlc _ _] _]; done. }
  eexists c1, _. split.
  { cbn. unfold connector_set_controller. rewrite Hp1, Ha1, Hidle.
    rewrite bool_decide_false by done. exact H1. }
  apply (settles_keys_up_listener _ 5 c1 (ln s) x (role_epoch (stable (coordinator (cn s)))) _ Hx).
  rewrite (co_epoch _ Hc). eapply (handover_from_prepare c1 (ln s) _ Hpd Hre); [by rewrite Hlc|done|done|].
  unfold validate_prepare; simpl. rewrite Hlo, Hpe.
  assert (str_eqb f (c_local (cn s)) || str_eqb f (c_peer (cn s)) = true) as ->.
  { apply orb_true_iff. rewrite !str_eqb_spec. destruct local; auto. }
  rewrite bool_decide_true by done.
  assert (role_epoch (current_role_state (ln s)) = role_epoch (stable (coordinator (cn s))))
    as -> by (rewrite <- (lo_epoch _ _ Hl), <- (co_epoch _ Hc); congruence).
  unfold checked_add. rewrite (proj2 (Z.leb_le _ _)) by (rewrite <- (co_epoch _ Hc); lia).
  simpl. by rewrite Z.eqb_refl.
Qed.

(** C8. A handover completes: in a session with nothing in flight, both nodes unpaused and able
    to switch, when the connector's user asks for the other controller and the capture backends
    work from then on, the request is taken, and however the frames it causes are delivered, no
    arrival ends the session, nothing is in flight after six arrivals at most, and then both
    nodes are in the next epoch, follow the requested controller and have saved it. *)
Theorem handover_completes (s : System) (env : Env) (local : bool) (f : string)
    (Hs : reachable s) (Hwork : backends_work env)
    (Hf : f = if local then c_local (cn s) else c_peer (cn s))
    (Hquiet : nothing_in_flight s)
    (Hidle : is_transitioning (coordinator (cn s)) = false)
    (Hpaused : c_session_paused (cn s) = false /\ l_session_paused (ln s) = false)
    (Havailable : c_role_switch_available (cn s) = true
                  /\ l_role_switch_available (ln s) = true)
    (Hother : controller_fingerprint (stable (coordinator (cn s))) <> Some f)
    (Hroom : c_role_epoch (cn s) < u64_max) :
  exists c eff, connector_on_event env (C_SetController local) (cn s) = Ok (c, eff)
  /\ forall n s', nsteps arrival n {| cn := c; ln := ln s; to_listener := sent eff; to_connector := [] |} s' ->
       (n <= 6)%nat /\ session_holds s'
       /\ (nothing_in_flight s' ->
            c_role_epoch (cn s') = c_role_epoch (cn s) + 1
            /\ l_role_epoch (ln s') = c_role_epoch (cn s) + 1
            /\ controller_fingerprint (stable (coordinator (cn s'))) = Some f
            /\ controller_fingerprint (current_role_state (ln s')) = Some f
            /\ c_role_store (cn s') = Some (CommittedRole_new f)
            /\ l_role_store (ln s') = Some (CommittedRole_new f)).
Proof.
  destruct (handover_settles s env local f Hs Hwork Hf Hquiet Hidle Hpaused Havailable Hother Hroom)
    as (c & eff & He & Hset). exists c, eff. split; [exact He|]. intros n s' Hr.
  destruct (settles_runs _ _ _ _ _ Hset Hr) as (Hn & Hh & Hend). split_and!; [done|done|].
  intros Hq. destruct (Hend Hq) as (E1 & E2 & E3 & E4).
  assert (reachable s') as Hs'.
  { destruct Hs as (s0 & H0 & Hs0). exists s0. split; [done|]. etrans; [exact Hs0|].
    eapply rtc_l.
    - pose proof (step_connector_event env (C_SetController local) s c eff He) as Hst.
      destruct Hquiet as [Hq1 Hq2]. rewrite Hq1, Hq2 in Hst. exact Hst.
    - apply (rtc_nsteps_2 n). eapply (nsteps_congruence (fun x => x)); [|exact Hr]. apply arrival_step. }
  apply reachable_inv in Hs'. destruct (si_follow _ Hs') as (o & Hl & Hfo).
  destruct Hq as [Hq _]. rewrite Hq in Hfo.
  assert (listener_view (ln s') o = connector_view (cn s')) as Ev
      by (symmetry; by eapply follow_all_nil).
  injection Ev as Ev1 Ev2 _. split_and!; try done; congruence.
Qed.

Definition settled_session : System :=
  match run_schedule sample_session [Act_deliver_to_listener sample_env] with
  | Some s => s | None => sample_session end.

Lemma settled_session_reachable : reachable settled_session.
Proof.
  apply (sample_session_reachable [Act_deliver_to_listener sample_env]). vm_compute. reflexivity.
Qed.

(** Delivering the five frames that follow a request. *)
Definition after_request : System :=
  match run_schedule settled_session [Act_connector sample_env (C_SetController false)] with
  | Some s => s | None => settled_session end.
Definition handed_over : System :=
  match run_schedule after_request
    [Act_deliver_to_listener sample_env; Act_deliver_to_listener sample_env;
     Act_deliver_to_connector sample_env; Act_deliver_to_listener sample_env;
     Act_deliver_to_connector sample_env] with
  | Some s => s | None => settled_session end.
Lemma delivered_handover : nsteps arrival 5 after_request handed_over.
Proof.
  assert (backends_work sample_env) as Hw by by split.
  eapply nsteps_l; [eapply (arrival_at_listener sample_env); [exact Hw|vm_compute; reflexivity..]|].
  eapply nsteps_l; [eapply (arrival_at_listener sample_env); [exact Hw|vm_compute; reflexivity..]|].
  eapply nsteps_l; [eapply (arrival_at_connector sample_env); [exact Hw|vm_compute; reflexivity..]|].
  eapply nsteps_l; [eapply (arrival_at_listener sample_env); [exact Hw|vm_compute; reflexivity..]|].
  eapply nsteps_l; [eapply (arrival_at_connector sample_env); [exact Hw|vm_compute; reflexivity..]|].
  match goal with |- nsteps _ _ ?a ?b => assert (a = b) as -> by (vm_compute; reflexivity) end.
  constructor.
Qed.

Example handover_completes_witness :
  c_role_store (cn handed_over) = Some (CommittedRole_new "b")
  /\ l_role_store (ln handed_over) = Some (CommittedRole_new "b").
Proof.
  assert (controller_fingerprint (stable (coordinator (cn settled_session))) <> Some "b"%string)
    as Hne by (vm_compute; congruence).
  destruct (handover_completes settled_session sample_env false "b" settled_session_reachable
              (conj eq_refl eq_refl) eq_refl (conj eq_refl eq_refl) eq_refl (conj eq_refl eq_refl)
              (conj eq_refl eq_refl) Hne eq_refl) as (c & eff & E & H).
  assert ({| cn := c; ln := ln settled_session; to_listener := sent eff; to_connector := [] |} = after_request)
    as Ea by (vm_compute in E; injection E as <- <-; vm_compute; reflexivity).
  rewrite Ea in H. destruct (H 5%nat handed_over delivered_handover) as (_ & _ & Hend).
  destruct Hend as (_ & _ & _ & _ & Hc & Hl); [split; vm_compute; reflexivity|].
  split; [exact Hc|exact Hl].
Defined.
