(* ===== verification/Clipboard.v ===== *)
(** * Clipboard transfers: [crates/edge-clipboard/src/lib.rs]

    A clipboard item travels as a start frame, chunks of at most
    [TRANSFER_CHUNK_BYTES] bytes and an end frame.  [OutgoingClipboardTransfer]
    produces them, [IncomingClipboardTransfer] checks and assembles them,
    [ImageTransferSchedule] keeps a transfer from being starved by other frames
    and [ClipboardChangeTracker] numbers the offers.  SHA-256 and the image codec
    are third-party code: parameters of the definitions that use them. *)
From S2P Require Export Protocol.

(** ** Constants *)

(** [edge-clipboard 13-13 MAX_IMAGE_PIXELS] *)
Definition MAX_IMAGE_PIXELS : Z := 16777216.
(** [edge-clipboard 14-15 TRANSFER_CHUNK_BYTES] *)
Definition TRANSFER_CHUNK_BYTES : Z := 16 * 1024.
(** [edge-clipboard 17-17 IMAGE_TRANSFER_TIMEOUT] *)
Definition IMAGE_TRANSFER_TIMEOUT : Duration := from_secs 10.
(** [edge-clipboard 18-18 MAX_HIGH_PRIORITY_FRAMES_BEFORE_IMAGE_CHUNK] *)
Definition MAX_HIGH_PRIORITY_FRAMES_BEFORE_IMAGE_CHUNK : Z := 64.

(** ** The transfer schedule *)

(** [edge-clipboard 20-23 ImageTransferSchedule] *)
Record ImageTransferSchedule := { high_priority_frames_since_chunk : Z }.
Definition ImageTransferSchedule_default : ImageTransferSchedule :=
  {| high_priority_frames_since_chunk := 0 |}.

(** [edge-clipboard 26-29 ImageTransferSchedule::record_high_priority_frame] *)
Definition record_high_priority_frame (self : ImageTransferSchedule) : ImageTransferSchedule :=
  {| high_priority_frames_since_chunk :=
       saturating_add u8_max (high_priority_frames_since_chunk self) 1 |}.

(** [edge-clipboard 31-33 ImageTransferSchedule::record_image_chunk] *)
Definition record_image_chunk (self : ImageTransferSchedule) : ImageTransferSchedule :=
  {| high_priority_frames_since_chunk := 0 |}.

(** [edge-clipboard 35-37 ImageTransferSchedule::image_chunk_is_due] *)
Definition image_chunk_is_due (self : ImageTransferSchedule) : bool :=
  MAX_HIGH_PRIORITY_FRAMES_BEFORE_IMAGE_CHUNK <=? high_priority_frames_since_chunk self.

Definition is_chunk_frame (frame : Frame) : bool :=
  match frame with Frame_Clipboard (ImageChunk _ _ _ | TextChunk _ _ _) => true | _ => false end.
Definition is_clipboard_frame (frame : Frame) : bool :=
  match frame with Frame_Clipboard _ => true | _ => false end.

(** [edge-clipboard 39-50 ImageTransferSchedule::record_sent_frame] *)
Definition record_sent_frame (self : ImageTransferSchedule) (frame : Frame) :
  ImageTransferSchedule :=
  if is_chunk_frame frame then record_image_chunk self else record_high_priority_frame self.

(** [edge-clipboard 52-63 ImageTransferSchedule::record_received_frame] *)
Definition record_received_frame (self : ImageTransferSchedule) (frame : Frame) :
  ImageTransferSchedule :=
  if negb (is_clipboard_frame frame) then record_high_priority_frame self else self.

(** ** Peer features, errors and content *)

(** [edge-clipboard 66-71 ClipboardPeerFeatures] *)
Record ClipboardPeerFeatures := { images : bool; text_chunks : bool }.

(** [edge-clipboard 74-80 ClipboardPeerFeatures::from_extensions] *)
Definition ClipboardPeerFeatures_from_extensions (exts : list string) :
  ClipboardPeerFeatures :=
  let has name := existsb (fun extension => str_eqb extension name) exts in
  {| images := has CLIPBOARD_IMAGE_EXTENSION; text_chunks := has CLIPBOARD_TEXT_CHUNKS_EXTENSION |}.

(** [edge-clipboard 83-107 ClipboardError]; an error of the image library is a [string]. *)
Inductive ClipboardError :=
| InvalidDimensions
| TooManyPixels (pixels : Z)
| InvalidRgbaLength (width height : Z)
| EncodedTooLarge (actual max : Z)
| UnsupportedMime (mime : string)
| ImageFailed (error : string)
| InvalidTransfer
| OffsetMismatch (expected actual : Z)
| HashMismatch
| TransferExpired
| InvalidText.

(** [edge-clipboard 126-130 ClipboardContentId] *)
Inductive ClipboardContentId := Id_Text (hash : bytes) | Id_Image (hash : bytes).
#[export] Instance ClipboardContentId_eq_dec : EqDecision ClipboardContentId.
Proof. solve_decision. Defined.

(** [edge-clipboard 132-139 CanonicalImage] *)
Record CanonicalImage := {
  width : Z;
  height : Z;
  rgba : bytes;
  png : bytes;
  image_sha256 : bytes;
}.

(** [edge-clipboard 111-115 ClipboardItem] *)
Inductive ClipboardItem := Item_Text (text : string) | Item_Image (image : CanonicalImage).

(** The formats [from_encoded] asks the image library for. *)
Inductive ImageFormat := Png | Jpeg | Bmp.

(** ** The change tracker *)

(** [edge-clipboard 198-202 ClipboardChangeTracker] *)
Record ClipboardChangeTracker := {
  tracker_sequence : Z;
  last_observed : option ClipboardContentId;
}.

(** [edge-clipboard 205-210 ClipboardChangeTracker::new] *)
Definition ClipboardChangeTracker_new (id : option ClipboardContentId) : ClipboardChangeTracker :=
  {| tracker_sequence := 0; last_observed := id |}.

(** [edge-clipboard 212-214 ClipboardChangeTracker::is_observed] *)
Definition is_observed (self : ClipboardChangeTracker) (current : option ClipboardContentId) :
  bool := bool_decide (last_observed self = current).

(** [edge-clipboard 216-218 ClipboardChangeTracker::mark_observed] *)
Definition mark_observed (self : ClipboardChangeTracker) (current : option ClipboardContentId) :
  ClipboardChangeTracker :=
  {| tracker_sequence := tracker_sequence self; last_observed := current |}.

(** [edge-clipboard 227-232 ClipboardChangeTracker::offer_current] *)
Definition offer_current (self : ClipboardChangeTracker) (current : option ClipboardContentId) :
  ClipboardChangeTracker * option Z :=
  match current with
  | None => (mark_observed self None, None)
  | Some _ =>
      let sequence := saturating_add u64_max (tracker_sequence self) 1 in
      ({| tracker_sequence := sequence; last_observed := current |}, Some sequence)
  end.

(** [edge-clipboard 220-225 ClipboardChangeTracker::offer_if_changed] *)
Definition offer_if_changed (self : ClipboardChangeTracker)
    (current : option ClipboardContentId) : ClipboardChangeTracker * option Z :=
  if is_observed self current then (self, None) else offer_current self current.

(** ** Transfers *)

(** [edge-clipboard 235-242 OutgoingPayload] *)
Inductive OutgoingPayload :=
| Payload_Image (image : CanonicalImage)
| Payload_Text (contents content_sha256 : bytes).

(** [edge-clipboard 245-250 OutgoingPayload::bytes] *)
Definition payload_bytes (p : OutgoingPayload) : bytes :=
  match p with Payload_Image image => png image | Payload_Text contents _ => contents end.

(** [edge-clipboard 263-269 OutgoingStage] *)
Inductive OutgoingStage := Stage_Start | Stage_Chunks | Stage_End | Stage_Done.

(** [edge-clipboard 253-261 OutgoingClipboardTransfer] *)
Record OutgoingClipboardTransfer := {
  out_transfer_id : Z;
  out_sequence : Z;
  out_payload : OutgoingPayload;
  out_offset : Z;
  out_stage : OutgoingStage;
}.

(** [edge-clipboard 289-297 OutgoingClipboardTransfer::with_payload] *)
Definition outgoing_with_payload (transfer_id sequence : Z) (payload : OutgoingPayload) :
  OutgoingClipboardTransfer :=
  {| out_transfer_id := transfer_id; out_sequence := sequence; out_payload := payload;
     out_offset := 0; out_stage := Stage_Start |}.

(** [edge-clipboard 272-274 OutgoingClipboardTransfer::image] *)
Definition outgoing_image (transfer_id sequence : Z) (image : CanonicalImage) :
  OutgoingClipboardTransfer :=
  outgoing_with_payload transfer_id sequence (Payload_Image image).

(** [edge-clipboard 303-305 OutgoingClipboardTransfer::is_text] *)
Definition outgoing_is_text (self : OutgoingClipboardTransfer) : bool :=
  match out_payload self with Payload_Text _ _ => true | _ => false end.

(** [edge-clipboard 307-309 OutgoingClipboardTransfer::is_done] *)
Definition outgoing_is_done (self : OutgoingClipboardTransfer) : bool :=
  match out_stage self with Stage_Done => true | _ => false end.

(** [edge-clipboard 311-316 OutgoingClipboardTransfer::cancel_event] *)
Definition cancel_event (self : OutgoingClipboardTransfer) (reason : ClipboardCancelReason) :
  ClipboardEvent := ImageCancel (out_transfer_id self) reason.

Definition outgoing_at (self : OutgoingClipboardTransfer) (offset : Z) (stage : OutgoingStage) :
  OutgoingClipboardTransfer :=
  {| out_transfer_id := out_transfer_id self; out_sequence := out_sequence self;
     out_payload := out_payload self; out_offset := offset; out_stage := stage |}.

(** The [End] stage of [next_event]. *)
Definition end_event (self : OutgoingClipboardTransfer) :
  OutgoingClipboardTransfer * option ClipboardEvent :=
  (outgoing_at self (out_offset self) Stage_Done,
   Some (match out_payload self with
         | Payload_Image _ => ImageEnd (out_transfer_id self)
         | Payload_Text _ _ => TextEnd (out_transfer_id self)
         end)).

(** [payload[from..to]] for indices in range. *)
Definition slice {A} (l : list A) (from to : Z) : list A :=
  take (Z.to_nat (to - from)) (drop (Z.to_nat from) l).

(** [edge-clipboard 318-376 OutgoingClipboardTransfer::next_event]; the recursive call of the
    source is to the [End] stage. *)
Definition next_event (self : OutgoingClipboardTransfer) :
  OutgoingClipboardTransfer * option ClipboardEvent :=
  let payload := payload_bytes (out_payload self) in
  let id := out_transfer_id self in
  match out_stage self with
  | Stage_Start =>
      let total_bytes := truncate_to u32_max (len payload) in
      (outgoing_at self (out_offset self) Stage_Chunks,
       Some (match out_payload self with
             | Payload_Image image =>
                 ImageStart id (out_sequence self) (width image) (height image) total_bytes
                   (image_sha256 image)
             | Payload_Text _ content_sha256 =>
                 TextStart id (out_sequence self) total_bytes content_sha256
             end))
  | Stage_Chunks =>
      if len payload <=? out_offset self
      then end_event (outgoing_at self (out_offset self) Stage_End)
      else
        let fin := Z.min (out_offset self + TRANSFER_CHUNK_BYTES) (len payload) in
        let chunk := slice payload (out_offset self) fin in
        let offset := truncate_to u32_max (out_offset self) in
        (outgoing_at self fin Stage_Chunks,
         Some (match out_payload self with
               | Payload_Image _ => ImageChunk id offset chunk
               | Payload_Text _ _ => TextChunk id offset chunk
               end))
  | Stage_End => end_event self
  | Stage_Done => (self, None)
  end.

(** [edge-clipboard 379-384 TransferLimits] *)
Record TransferLimits := { max_image_bytes : Z; max_text_bytes : Z }.

(** [edge-clipboard 391-395 IncomingKind] *)
Inductive IncomingKind := Kind_Image (width height : Z) | Kind_Text.
Definition is_text_kind (k : IncomingKind) : bool :=
  match k with Kind_Text => true | _ => false end.

(** [edge-clipboard 397-405 IncomingState] *)
Record IncomingState := {
  in_transfer_id : Z;
  in_kind : IncomingKind;
  in_total_bytes : Z;
  in_sha256 : bytes;
  in_bytes : bytes;
  last_progress : Instant;
}.

(** [edge-clipboard 386-389 IncomingClipboardTransfer] *)
Definition IncomingClipboardTransfer : Type := option IncomingState.

Abbreviation receiving := (stateful IncomingClipboardTransfer ClipboardError).

(** [edge-clipboard 475-498 IncomingClipboardTransfer::start] *)
Definition incoming_start (now : Instant) (transfer_id : Z) (kind : IncomingKind)
    (total_bytes max_bytes : Z) (sha : bytes) : receiving (option ClipboardItem) :=
  do! st_ensure (negb ((total_bytes =? 0) || (max_bytes <? total_bytes)))
        (EncodedTooLarge total_bytes max_bytes);;
  do! st_put (Some {| in_transfer_id := transfer_id; in_kind := kind;
                      in_total_bytes := total_bytes; in_sha256 := sha;
                      in_bytes := []; last_progress := now |});;
  st_ret None.

(** [edge-clipboard 500-530 IncomingClipboardTransfer::chunk] *)
Definition incoming_chunk (now : Instant) (transfer_id : Z) (text : bool) (offset : Z)
    (chunk : bytes) : receiving (option ClipboardItem) :=
  active <-! st_get;;
  match active with
  | None => st_fail InvalidTransfer
  | Some state =>
      do! st_ensure (negb (negb (in_transfer_id state =? transfer_id)
                           || negb (Bool.eqb (is_text_kind (in_kind state)) text)))
            InvalidTransfer;;
      let expected := truncate_to u32_max (len (in_bytes state)) in
      do! st_ensure (offset =? expected) (OffsetMismatch expected offset);;
      do! st_ensure (negb ((len chunk =? 0) || (TRANSFER_CHUNK_BYTES <? len chunk)
              || (in_total_bytes state
                  <? saturating_add usize_max (len (in_bytes state)) (len chunk))))
            InvalidTransfer;;
      do! st_put (Some {| in_transfer_id := in_transfer_id state; in_kind := in_kind state;
                          in_total_bytes := in_total_bytes state; in_sha256 := in_sha256 state;
                          in_bytes := in_bytes state ++ chunk; last_progress := now |});;
      st_ret None
  end.

(** [edge-clipboard 578-587 IncomingClipboardTransfer::expire_transfer_id] *)
Definition expire_transfer_id (now : Instant) (self : IncomingClipboardTransfer) :
  IncomingClipboardTransfer * option Z :=
  if is_some_and (fun active => IMAGE_TRANSFER_TIMEOUT
                                <? duration_since now (last_progress active)) self
  then (None, in_transfer_id <$> self) else (self, None).

(** [edge-clipboard 571-576 IncomingClipboardTransfer::expire] *)
Definition incoming_expire (now : Instant) : receiving unit := fun self =>
  match expire_transfer_id now self with
  | (self, Some _) => (self, Err TransferExpired)
  | (self, None) => (self, Ok tt)
  end.

(** [edge-clipboard 589-591 IncomingClipboardTransfer::clear] *)
Definition incoming_clear (self : IncomingClipboardTransfer) : IncomingClipboardTransfer := None.

(** [edge-clipboard 594-610 validate_dimensions] *)
Definition validate_dimensions (width height rgba_len : Z) : result unit ClipboardError :=
  ensure! negb ((width =? 0) || (height =? 0)) else InvalidDimensions;;
  let pixels := width * height in
  ensure! negb (MAX_IMAGE_PIXELS <? pixels) else TooManyPixels pixels;;
  let? expected := ok_or (checked_mul u64_max pixels 4) InvalidDimensions in
  ensure! rgba_len =? expected else InvalidRgbaLength width height;;
  Ok tt.

(** SHA-256 and the image library. *)
Class ClipboardLibraries := {
  sha256 : bytes -> bytes;
  encode_png : Z -> Z -> bytes -> result bytes string;
  into_dimensions : ImageFormat -> bytes -> result (Z * Z) string;
  decode_rgba8 : ImageFormat -> Z -> Z -> bytes -> result bytes string;
}.

Section WithLibraries.
Context `{Lib : ClipboardLibraries}.

(** [edge-clipboard 612-618 hash_image] *)
Definition hash_image (width height : Z) (pixels : bytes) : bytes :=
  sha256 (be_encode 4 width ++ be_encode 4 height ++ pixels).

(** [edge-clipboard 620-622 hash_bytes] *)
Definition hash_bytes (contents : bytes) : bytes := sha256 contents.

(** [edge-clipboard 118-123 ClipboardItem::id] *)
Definition item_id (self : ClipboardItem) : ClipboardContentId :=
  match self with
  | Item_Text text => Id_Text (hash_bytes (str_bytes text))
  | Item_Image image => Id_Image (image_sha256 image)
  end.

(** [edge-clipboard 276-287 OutgoingClipboardTransfer::text] *)
Definition outgoing_text (transfer_id sequence : Z) (text : string) : OutgoingClipboardTransfer :=
  let contents := str_bytes text in
  outgoing_with_payload transfer_id sequence (Payload_Text contents (hash_bytes contents)).

Definition image_result {A} (r : result A string) : result A ClipboardError :=
  match r with Ok a => Ok a | Err e => Err (ImageFailed e) end.

(** [edge-clipboard 142-163 CanonicalImage::from_rgba] *)
Definition CanonicalImage_from_rgba (w h : Z) (pixels : bytes) (max_bytes : Z) :
  result CanonicalImage ClipboardError :=
  let? _ := validate_dimensions w h (len pixels) in
  let? encoded := image_result (encode_png w h pixels) in
  ensure! negb (max_bytes <? len encoded) else EncodedTooLarge (len encoded) max_bytes;;
  Ok {| width := w; height := h; rgba := pixels; png := encoded;
        image_sha256 := hash_image w h pixels |}.

(** The format named by a MIME type. *)
Definition mime_format (mime : string) : result ImageFormat ClipboardError :=
  if str_eqb mime "image/png" then Ok Png
  else if str_eqb mime "image/jpeg" || str_eqb mime "image/jpg" then Ok Jpeg
  else if str_eqb mime "image/bmp" || str_eqb mime "image/x-bmp" then Ok Bmp
  else Err (UnsupportedMime mime).

(** [edge-clipboard 165-195 CanonicalImage::from_encoded] *)
Definition CanonicalImage_from_encoded (encoded : bytes) (mime : string) (max_bytes : Z) :
  result CanonicalImage ClipboardError :=
  ensure! negb (max_bytes <? len encoded) else EncodedTooLarge (len encoded) max_bytes;;
  let? format := mime_format mime in
  let? dims := image_result (into_dimensions format encoded) in
  let pixels := dims.1 * dims.2 in
  ensure! negb ((dims.1 =? 0) || (dims.2 =? 0)) else InvalidDimensions;;
  ensure! negb (MAX_IMAGE_PIXELS <? pixels) else TooManyPixels pixels;;
  let? decoded := image_result (decode_rgba8 format dims.1 dims.2 encoded) in
  CanonicalImage_from_rgba dims.1 dims.2 decoded max_bytes.

(** [edge-clipboard 532-569 IncomingClipboardTransfer::finish] *)
Definition incoming_finish (transfer_id : Z) (text : bool) (limits : TransferLimits) :
  receiving (option ClipboardItem) :=
  active <-! st_get;;
  do! st_put None;;
  match active with
  | None => st_fail InvalidTransfer
  | Some state =>
      do! st_ensure (negb (negb (in_transfer_id state =? transfer_id)
                           || negb (Bool.eqb (is_text_kind (in_kind state)) text)
                           || negb (len (in_bytes state) =? in_total_bytes state)))
            InvalidTransfer;;
      match in_kind state with
      | Kind_Image w h =>
          image <-! st_lift (CanonicalImage_from_encoded (in_bytes state) "image/png"
                               (max_image_bytes limits));;
          do! st_ensure (negb (negb (width image =? w) || negb (height image =? h)
                               || negb (bool_decide (image_sha256 image = in_sha256 state))))
                HashMismatch;;
          st_ret (Some (Item_Image image))
      | Kind_Text =>
          do! st_ensure (bool_decide (hash_bytes (in_bytes state) = in_sha256 state))
                HashMismatch;;
          text <-! st_lift (ok_or (from_utf8 (in_bytes state)) InvalidText);;
          st_ret (Some (Item_Text text))
      end
  end.

(** [edge-clipboard 408-473 IncomingClipboardTransfer::handle] *)
Definition incoming_handle (now : Instant) (event : ClipboardEvent) (limits : TransferLimits) :
  receiving (option ClipboardItem) :=
  match event with
  | ImageStart transfer_id _ w h total_bytes sha =>
      rgba_len <-! st_lift (ok_or (pixels ← checked_mul u64_max w h;
                                   checked_mul u64_max pixels 4) InvalidDimensions);;
      do! st_lift (validate_dimensions w h rgba_len);;
      incoming_start now transfer_id (Kind_Image w h) total_bytes (max_image_bytes limits) sha
  | TextStart transfer_id _ total_bytes sha =>
      incoming_start now transfer_id Kind_Text total_bytes (max_text_bytes limits) sha
  | ImageChunk transfer_id offset chunk => incoming_chunk now transfer_id false offset chunk
  | TextChunk transfer_id offset chunk => incoming_chunk now transfer_id true offset chunk
  | ImageEnd transfer_id => incoming_finish transfer_id false limits
  | TextEnd transfer_id => incoming_finish transfer_id true limits
  | ImageCancel transfer_id _ =>
      active <-! st_get;;
      do! st_put (if is_some_and (fun a => in_transfer_id a =? transfer_id) active
                  then None else active);;
      st_ret None
  | _ => st_fail InvalidTransfer
  end.
End WithLibraries.

(** ** Sending and receiving a whole transfer *)

(** The events [next_event] produces until it returns [None]. *)
Fixpoint drain (fuel : nat) (o : OutgoingClipboardTransfer) : list ClipboardEvent :=
  match fuel with
  | O => []
  | S fuel => match next_event o with
              | (o', Some e) => e :: drain fuel o'
              | (_, None) => []
              end
  end.

Lemma drain_S fuel o :
  drain (S fuel) o = match next_event o with
                     | (o', Some e) => e :: drain fuel o'
                     | (_, None) => []
                     end.
Proof. reflexivity. Qed.

Section Transfers.
Context `{Lib : ClipboardLibraries}.

(** The items a sequence of events completes; the first error stops it. *)
Fixpoint receive_all (now : Instant) (limits : TransferLimits) (events : list ClipboardEvent) :
  receiving (list ClipboardItem) :=
  match events with
  | [] => st_ret []
  | e :: events =>
      r <-! incoming_handle now e limits;;
      rs <-! receive_all now limits events;;
      st_ret (match r with Some i => i :: rs | None => rs end)
  end.

Lemma receive_all_cons now limits e events :
  receive_all now limits (e :: events)
  = (r <-! incoming_handle now e limits;;
     rs <-! receive_all now limits events;;
     st_ret (match r with Some i => i :: rs | None => rs end)).
Proof. reflexivity. Qed.

(** The state of a transfer of which [received] has arrived. *)
Definition received_state (now : Instant) (id : Z) (kind : IncomingKind) (sha received : bytes)
    (total : Z) : IncomingState :=
  {| in_transfer_id := id; in_kind := kind; in_total_bytes := total; in_sha256 := sha;
     in_bytes := received; last_progress := now |}.

Lemma chunk_accepted now id kind sha total received chunk :
  len received + len chunk <= total -> total <= u32_max -> 0 < len chunk <= TRANSFER_CHUNK_BYTES ->
  incoming_chunk now id (is_text_kind kind) (truncate_to u32_max (len received)) chunk
    (Some (received_state now id kind sha received total))
  = (Some (received_state now id kind sha (received ++ chunk) total), Ok None).
Proof.
  intros Ht Hu Hc. unfold incoming_chunk, st_bind, st_get, st_put, st_ret, st_ensure; simpl.
  rewrite Z.eqb_refl, eqb_reflx, Z.eqb_refl. simpl.
  pose proof (len_nonneg received).
  assert (len received + len chunk <= usize_max) by (unfold u32_max, usize_max, u64_max in *; lia).
  unfold saturating_add. rewrite Z.min_r by done.
  rewrite (proj2 (Z.eqb_neq _ _)), (proj2 (Z.ltb_ge TRANSFER_CHUNK_BYTES _)),
    (proj2 (Z.ltb_ge total _)) by lia. done.
Qed.

Lemma take_slice {A} (l : list A) from to :
  0 <= from <= to -> take (Z.to_nat from) l ++ slice l from to = take (Z.to_nat to) l.
Proof.
  intros. unfold slice. replace (Z.to_nat to) with (Z.to_nat from + Z.to_nat (to - from))%nat by lia.
  apply take_take_drop.
Qed.

Lemma len_take {A} (l : list A) n : 0 <= n <= len l -> len (take (Z.to_nat n) l) = n.
Proof. unfold len. intros. rewrite length_take. lia. Qed.

Lemma take_len {A} (l : list A) : take (Z.to_nat (len l)) l = l.
Proof. unfold len. by rewrite Nat2Z.id, firstn_all. Qed.

Lemma len_slice {A} (l : list A) from to :
  0 <= from <= to -> to <= len l -> len (slice l from to) = to - from.
Proof. unfold len, slice. intros. rewrite length_take, length_drop. lia. Qed.

Definition payload_kind (p : OutgoingPayload) : IncomingKind :=
  match p with Payload_Image image => Kind_Image (width image) (height image)
             | Payload_Text _ _ => Kind_Text end.
Definition payload_sha (p : OutgoingPayload) : bytes :=
  match p with Payload_Image image => image_sha256 image | Payload_Text _ sha => sha end.

Definition complete_state (now : Instant) (o : OutgoingClipboardTransfer) : IncomingState :=
  received_state now (out_transfer_id o) (payload_kind (out_payload o))
    (payload_sha (out_payload o)) (payload_bytes (out_payload o))
    (len (payload_bytes (out_payload o))).

(** What finishing the whole transfer gives the receiver. *)
Definition finish_transfer (now : Instant) (limits : TransferLimits)
    (o : OutgoingClipboardTransfer) : IncomingClipboardTransfer * result (list ClipboardItem) _ :=
  (r <-! incoming_finish (out_transfer_id o) (outgoing_is_text o) limits;;
   st_ret (match r with Some i => [i] | None => [] end)) (Some (complete_state now o)).

(** From any offset, the remaining chunks and the end frame complete the buffer. *)
Lemma chunks_received now limits o (n : nat) : forall off,
  0 <= off <= len (payload_bytes (out_payload o)) ->
  len (payload_bytes (out_payload o)) <= u32_max ->
  len (payload_bytes (out_payload o)) - off <= TRANSFER_CHUNK_BYTES * Z.of_nat n ->
  receive_all now limits (drain (S n) (outgoing_at o off Stage_Chunks))
    (Some (received_state now (out_transfer_id o) (payload_kind (out_payload o))
             (payload_sha (out_payload o))
             (take (Z.to_nat off) (payload_bytes (out_payload o)))
             (len (payload_bytes (out_payload o)))))
  = finish_transfer now limits o.
Proof.
  set (p := payload_bytes (out_payload o)).
  induction n as [|n IH]; intros off Hoff Hu Hn; unfold TRANSFER_CHUNK_BYTES in Hn;
    rewrite drain_S; unfold next_event; cbn [outgoing_at out_stage out_offset out_payload];
    fold p; destruct (Z.leb_spec (len p) off) as [Hle|Hlt]; try lia.
  - assert (off = len p) as -> by lia.
    unfold end_event, finish_transfer, complete_state. fold p.
    cbn [outgoing_at out_payload out_transfer_id]. rewrite take_len.
    unfold outgoing_is_text. by destruct (out_payload o).
  - assert (off = len p) as -> by lia.
    unfold end_event, finish_transfer, complete_state. fold p.
    cbn [outgoing_at out_payload out_transfer_id]. rewrite take_len.
    unfold outgoing_is_text. by destruct (out_payload o).
  - set (fin := Z.min (off + TRANSFER_CHUNK_BYTES) (len p)).
    assert (off < fin <= len p /\ fin - off <= TRANSFER_CHUNK_BYTES
            /\ (len p - fin <= TRANSFER_CHUNK_BYTES * Z.of_nat n)) as (H1 & H2 & H3).
    { unfold fin, TRANSFER_CHUNK_BYTES in *. lia. }
    rewrite <- (IH fin) by (fold p; lia). fold p.
    change (outgoing_at (outgoing_at o off Stage_Chunks) fin Stage_Chunks)
      with (outgoing_at o fin Stage_Chunks).
    pose proof (chunk_accepted now (out_transfer_id o) (payload_kind (out_payload o))
      (payload_sha (out_payload o)) (len p) (take (Z.to_nat off) p) (slice p off fin)) as Hc.
    rewrite len_take, len_slice, take_slice in Hc by lia.
    specialize (Hc ltac:(lia) Hu ltac:(lia)).
    remember (drain (S n) (outgoing_at o fin Stage_Chunks)) as rest.
    cbn [out_transfer_id]. rewrite receive_all_cons. unfold st_bind at 1.
    match goal with |- context [incoming_handle now ?e limits] =>
      replace (incoming_handle now e limits)
        with (incoming_chunk now (out_transfer_id o) (is_text_kind (payload_kind (out_payload o)))
                (truncate_to u32_max off) (slice p off fin))
        by (by destruct (out_payload o)) end.
    rewrite Hc. unfold st_bind, st_ret.
    destruct (receive_all now limits rest _) as [? []]; reflexivity.
Qed.

(** A whole transfer, whatever was being received before it. *)
Lemma transfer_received now limits o st n :
  out_stage o = Stage_Start -> out_offset o = 0 ->
  0 < len (payload_bytes (out_payload o)) <= u32_max ->
  len (payload_bytes (out_payload o)) <= TRANSFER_CHUNK_BYTES * Z.of_nat n ->
  (forall e o', next_event o = (o', Some e) ->
     incoming_handle now e limits st
     = (Some (received_state now (out_transfer_id o) (payload_kind (out_payload o))
                (payload_sha (out_payload o)) [] (len (payload_bytes (out_payload o)))),
        Ok None)) ->
  receive_all now limits (drain (S (S n)) o) st = finish_transfer now limits o.
Proof.
  intros Hs Ho Hlen Hn Hstart. rewrite drain_S.
  destruct (next_event o) as [o' [e|]] eqn:E.
  2: { unfold next_event in E. rewrite Hs in E. done. }
  assert (o' = outgoing_at o 0 Stage_Chunks) as ->.
  { unfold next_event in E. rewrite Hs, Ho in E. by injection E. }
  rewrite receive_all_cons. unfold st_bind at 1. rewrite (Hstart _ _ eq_refl).
  rewrite <- (chunks_received now limits o n 0) by lia. unfold st_bind, st_ret. simpl take.
  destruct (receive_all now limits _ _) as [? []]; reflexivity.
Qed.

(** What a well-formed receiver holds: never more than was announced, and no more was
    announced than the limit for its kind. *)
Definition incoming_ok (limits : TransferLimits) (st : IncomingClipboardTransfer) : Prop :=
  match st with
  | None => True
  | Some s =>
      len (in_bytes s) <= in_total_bytes s /\ 0 < in_total_bytes s
      /\ in_total_bytes s <= u32_max
      /\ in_total_bytes s <= (if is_text_kind (in_kind s) then max_text_bytes limits
                              else max_image_bytes limits)
  end.

Definition event_ok (e : ClipboardEvent) : Prop :=
  match e with
  | ImageStart _ _ _ _ total _ | TextStart _ _ total _ => in_u32 total
  | _ => True
  end.

Lemma incoming_start_inv now limits id kind total max sha st st' r :
  incoming_ok limits st -> in_u32 total ->
  max = (if is_text_kind kind then max_text_bytes limits else max_image_bytes limits) ->
  incoming_start now id kind total max sha st = (st', r) ->
  incoming_ok limits st' /\ (r = Ok None \/ exists e, r = Err e /\ st' = st).
Proof.
  intros Hst [Ht Hu] -> . unfold incoming_start, st_bind, st_ensure, st_put, st_ret, st_fail.
  destruct (negb _) eqn:E; intros; simplify_eq/=; [|split; eauto].
  reflect_bools. split; [|by left]. unfold len; simpl. lia.
Qed.

Lemma incoming_chunk_inv now limits id text offset chunk st st' r :
  incoming_ok limits st ->
  incoming_chunk now id text offset chunk st = (st', r) ->
  incoming_ok limits st' /\ (r = Ok None \/ exists e, r = Err e /\ st' = st).
Proof.
  intros Hst. unfold incoming_chunk, st_bind, st_ensure, st_get, st_put, st_ret, st_fail.
  destruct st as [s|]; [|intros; simplify_eq; eauto].
  destruct (negb (_ || _)); [|intros; simplify_eq; eauto].
  destruct (offset =? _); [|intros; simplify_eq; eauto].
  destruct (negb _) eqn:E; intros; simplify_eq/=; [|split; eauto].
  reflect_bools. destruct Hst as (J1 & J2 & J3 & J4). split; [|by left]. rewrite len_app.
  unfold saturating_add, u32_max, usize_max, u64_max in *. lia.
Qed.

Lemma incoming_finish_none id text limits st : (incoming_finish id text limits st).1 = None.
Proof.
  unfold incoming_finish, st_bind, st_ensure, st_get, st_put, st_ret, st_fail, st_lift.
  destruct st as [s|]; [|done]. destruct (negb _); [|done].
  destruct (in_kind s); repeat (case_match; simplify_eq/=); done.
Qed.

Lemma incoming_finish_item id text limits st i :
  (incoming_finish id text limits st).2 = Ok (Some i) ->
  exists s, st = Some s /\ len (in_bytes s) = in_total_bytes s /\ in_transfer_id s = id
    /\ match i with
       | Item_Text t => in_kind s = Kind_Text /\ str_bytes t = in_bytes s
                        /\ hash_bytes (str_bytes t) = in_sha256 s
       | Item_Image image =>
           in_kind s = Kind_Image (width image) (height image)
           /\ image_sha256 image = in_sha256 s
           /\ CanonicalImage_from_encoded (in_bytes s) "image/png" (max_image_bytes limits)
              = Ok image
       end.
Proof.
  unfold incoming_finish, st_bind, st_ensure, st_get, st_put, st_ret, st_fail, st_lift.
  destruct st as [s|]; [|done]. destruct (negb _) eqn:E; [|done].
  cbn [fst snd]. intros Hr. exists s. split; [done|].
  assert (in_transfer_id s = id /\ len (in_bytes s) = in_total_bytes s) as [-> ->]
    by (reflect_bools; done).
  destruct (in_kind s) as [w h|] eqn:Ek.
  - destruct (CanonicalImage_from_encoded _ _ _) as [image|] eqn:Ei; [|done].
    cbn [fst snd] in Hr. destruct (negb (negb (width image =? w) || _ || _)) eqn:E2; [|done]. simplify_eq/=.
    reflect_bools. by subst.
  - destruct (bool_decide _) eqn:Eb; [|done]. cbn [fst snd] in Hr.
    destruct (from_utf8 (in_bytes s)) as [t|] eqn:Et; [|done]. simplify_eq/=. reflect_bools.
    apply from_utf8_bytes in Et. rewrite Et. done.
Qed.

(** *** Properties of transfers *)

(** C33. Text survives a transfer: the frames [next_event] produces for a non-empty text within
    the receiver's limit are finitely many (two more than the chunks the text needs), and a
    receiver in any state that handles them in order ends with exactly that text and no
    transfer in progress. *)
Theorem text_transfer_round_trip (now : Instant) (limits : TransferLimits)
    (st : IncomingClipboardTransfer) (id sequence : Z) (text : string) (chunks : nat)
    (Hutf8 : utf8_valid (str_bytes text) = true)
    (Hsize : 0 < str_len text <= Z.min (max_text_bytes limits) u32_max)
    (Hchunks : str_len text <= TRANSFER_CHUNK_BYTES * Z.of_nat chunks) :
  receive_all now limits (drain (2 + chunks) (outgoing_text id sequence text)) st
  = (None, Ok [Item_Text text]).
Proof.
  unfold str_len in *. change (2 + chunks)%nat with (S (S chunks)).
  rewrite transfer_received; simpl; try done; [|lia|].
  - unfold finish_transfer, incoming_finish, st_bind, st_get, st_put, st_ensure, st_ret, st_lift.
    simpl. rewrite !Z.eqb_refl. simpl. rewrite bool_decide_true by done. simpl.
    by rewrite from_utf8_str.
  - intros e o' [= _ <-]. cbn [incoming_handle].
    unfold incoming_start, st_bind, st_put, st_ret, st_ensure.
    rewrite truncate_to_small by lia.
    rewrite (proj2 (Z.eqb_neq _ _)), (proj2 (Z.ltb_ge _ _)) by lia. done.
Qed.

(** An image survives a transfer when the image library's PNG is lossless: the frames of an
    image made by [CanonicalImage_from_rgba] give a receiver whose limit it meets exactly that
    image, pixels, encoding and hash. *)
Theorem image_transfer_round_trip (now : Instant) (limits : TransferLimits)
    (st : IncomingClipboardTransfer) (id sequence : Z) (w h max : Z) (pixels : bytes)
    (image : CanonicalImage) (chunks : nat)
    (Hlossless : forall w h pixels encoded, encode_png w h pixels = Ok encoded ->
       into_dimensions Png encoded = Ok (w, h) /\ decode_rgba8 Png w h encoded = Ok pixels)
    (Himage : CanonicalImage_from_rgba w h pixels max = Ok image)
    (Hdims : in_u32 w /\ in_u32 h)
    (Hsize : 0 < len (png image) <= Z.min (max_image_bytes limits) u32_max)
    (Hchunks : len (png image) <= TRANSFER_CHUNK_BYTES * Z.of_nat chunks) :
  receive_all now limits (drain (2 + chunks) (outgoing_image id sequence image)) st
  = (None, Ok [Item_Image image]).
Proof.
  unfold CanonicalImage_from_rgba in Himage.
  destruct (validate_dimensions w h (len pixels)) as [[]|] eqn:Ev; [|done].
  destruct (encode_png w h pixels) as [encoded|] eqn:Ee; [|done]. cbn [image_result] in Himage.
  destruct (negb (max <? len encoded)); [|done].
  apply Hlossless in Ee as Hl. destruct Hl as [Hd Hpx].
  assert (validate_dimensions w h (4 * (w * h)) = Ok tt /\ len pixels = 4 * (w * h)
          /\ (w =? 0) || (h =? 0) = false /\ MAX_IMAGE_PIXELS <? w * h = false)
    as (Ev' & Hlen & Hz & Hm).
  { revert Ev. unfold validate_dimensions. destruct ((w =? 0) || (h =? 0)); [done|]. cbn [negb].
    destruct (MAX_IMAGE_PIXELS <? w * h); [done|]. cbn [negb].
    unfold checked_mul. destruct (w * h * 4 <=? u64_max); [|done]. cbn [ok_or].
    destruct (Z.eqb_spec (len pixels) (w * h * 4)); [|done]. intros _.
    rewrite (proj2 (Z.eqb_eq _ _)) by lia. split_and!; try done. lia. }
  injection Himage as <-. cbn [png] in *. change (2 + chunks)%nat with (S (S chunks)).
  rewrite transfer_received; simpl; try done; [|lia|].
  - unfold finish_transfer, incoming_finish, st_bind, st_get, st_put, st_ensure, st_ret, st_lift.
    simpl. rewrite !Z.eqb_refl. simpl.
    unfold CanonicalImage_from_encoded, mime_format. rewrite str_eqb_refl, Hd. simpl.
    rewrite (proj2 (Z.ltb_ge _ _)) by lia. cbn [negb]. rewrite Hz, Hm, Hpx. simpl.
    unfold CanonicalImage_from_rgba. rewrite Ev, Ee. simpl.
    rewrite (proj2 (Z.ltb_ge _ _)) by lia. simpl.
    by rewrite !Z.eqb_refl, bool_decide_true by done.
  - intros e o' [= _ <-]. cbn [incoming_handle].
    unfold st_bind at 1, st_lift at 1.
    assert (checked_mul u64_max w h = Some (w * h)) as ->.
    { unfold checked_mul. destruct (Z.leb_spec (w * h) u64_max) as [|Hgt]; [done|].
      unfold MAX_IMAGE_PIXELS in Hm. reflect_bools. unfold u64_max in Hgt. lia. }
    simpl. unfold checked_mul.
    rewrite (proj2 (Z.leb_le _ _))
      by (unfold MAX_IMAGE_PIXELS in Hm; reflect_bools; unfold u64_max; lia).
    simpl. unfold st_bind at 1, st_lift. replace (w * h * 4) with (4 * (w * h)) by lia.
    rewrite Ev'. unfold incoming_start, st_bind, st_put, st_ret, st_ensure.
    rewrite truncate_to_small by lia.
    rewrite (proj2 (Z.eqb_neq _ _)), (proj2 (Z.ltb_ge _ _)) by lia. done.
Qed.

(** One event at the receiver, ignoring whether it was accepted. *)
Definition receive_step (limits : TransferLimits) (st : IncomingClipboardTransfer)
    (e : Instant * ClipboardEvent) : IncomingClipboardTransfer :=
  (incoming_handle e.1 e.2 limits st).1.

Lemma incoming_handle_inv now e limits st :
  incoming_ok limits st -> event_ok e -> incoming_ok limits (incoming_handle now e limits st).1.
Proof.
  intros Hst He. destruct e; simpl; try done.
  - unfold st_bind at 1, st_lift at 1. destruct (ok_or _ _); [|done].
    unfold st_bind at 1, st_lift. destruct (validate_dimensions _ _ _); [|done].
    destruct (incoming_start _ _ _ _ _ _ _) as [st' r] eqn:E.
    by apply (incoming_start_inv _ limits) in E as [? _].
  - destruct (incoming_chunk _ _ _ _ _ _) as [st' r] eqn:E.
    by apply (incoming_chunk_inv _ limits) in E as [? _].
  - by rewrite incoming_finish_none.
  - unfold st_bind, st_get, st_put, st_ret; simpl. by destruct (is_some_and _ _).
  - destruct (incoming_start _ _ _ _ _ _ _) as [st' r] eqn:E.
    by apply (incoming_start_inv _ limits) in E as [? _].
  - destruct (incoming_chunk _ _ _ _ _ _) as [st' r] eqn:E.
    by apply (incoming_chunk_inv _ limits) in E as [? _].
  - by rewrite incoming_finish_none.
Qed.

(** However a peer orders, repeats or forges clipboard frames, the receiver never buffers
    more than the transfer announced, never accepts an announcement over the limit of its
    kind, and releases an item only when every announced byte has arrived and its hash is
    the announced one. *)
Theorem receiver_is_bounded (limits : TransferLimits) (events : list (Instant * ClipboardEvent))
    (now : Instant) (last : ClipboardEvent) (i : ClipboardItem)
    (Hevents : Forall (fun e => event_ok e.2) events) :
  let st := fold_left (receive_step limits) events None in
  incoming_ok limits st
  /\ ((incoming_handle now last limits st).2 = Ok (Some i) ->
      exists s, st = Some s /\ len (in_bytes s) = in_total_bytes s
      /\ item_id i = (if is_text_kind (in_kind s) then Id_Text else Id_Image) (in_sha256 s)
      /\ (forall t, i = Item_Text t -> str_bytes t = in_bytes s)).
Proof.
  intros st. split.
  - unfold st. assert (incoming_ok limits None) as H0 by done. revert H0.
    generalize (@None IncomingState).
    induction Hevents as [|e events He _ IH]; intros s0 Hs0; [done|].
    apply IH. by apply incoming_handle_inv.
  - assert (forall id text, (incoming_finish id text limits st).2 = Ok (Some i) ->
      exists s, st = Some s /\ len (in_bytes s) = in_total_bytes s
      /\ item_id i = (if is_text_kind (in_kind s) then Id_Text else Id_Image) (in_sha256 s)
      /\ (forall t, i = Item_Text t -> str_bytes t = in_bytes s)) as Hfin.
    { intros id text (s & Hs & Hl & _ & Hi)%incoming_finish_item. exists s.
      destruct i as [t|image]; simpl.
      - destruct Hi as (-> & Ht & <-). split_and!; try done. by intros ? [= <-].
      - destruct Hi as (-> & <- & _). done. }
    destruct last; simpl; try done; try apply Hfin.
    + unfold st_bind at 1, st_lift at 1. destruct (ok_or _ _); [|done].
      unfold st_bind at 1, st_lift. destruct (validate_dimensions _ _ _); [|done].
      unfold incoming_start, st_bind, st_ensure, st_put, st_ret. by destruct (negb _).
    + intros Hr. unfold incoming_chunk, st_bind, st_ensure, st_get, st_put, st_ret in Hr.
      cases_in Hr.
    + unfold incoming_start, st_bind, st_ensure, st_put, st_ret. by destruct (negb _).
    + intros Hr. unfold incoming_chunk, st_bind, st_ensure, st_get, st_put, st_ret in Hr.
      cases_in Hr.
Qed.

(** A rejected start or chunk leaves the transfer in progress as it was, so a stray frame
    cannot destroy it, while an end frame, accepted or not, always ends it, and so does an
    inactivity of more than [IMAGE_TRANSFER_TIMEOUT]. *)
Theorem rejected_frames_and_ends (limits : TransferLimits) (now : Instant)
    (st : IncomingClipboardTransfer) (id offset sequence total : Z) (text : bool)
    (chunk sha : bytes) (e : ClipboardError) :
  ((incoming_chunk now id text offset chunk st).2 = Err e ->
     (incoming_chunk now id text offset chunk st).1 = st)
  /\ ((incoming_handle now (TextStart id sequence total sha) limits st).2 = Err e ->
      (incoming_handle now (TextStart id sequence total sha) limits st).1 = st)
  /\ (incoming_finish id text limits st).1 = None
  /\ (forall s, st = Some s ->
      (expire_transfer_id now st).1
      = if IMAGE_TRANSFER_TIMEOUT <? duration_since now (last_progress s) then None else st).
Proof.
  split_and!.
  - unfold incoming_chunk, st_bind, st_ensure, st_get, st_put, st_ret, st_fail.
    destruct st as [s|]; [|done].
    destruct (negb (_ || negb (eqb _ _))); [|done]. destruct (offset =? _); [|done].
    by destruct (negb _).
  - simpl. unfold incoming_start, st_bind, st_ensure, st_put, st_ret, st_fail.
    by destruct (negb _).
  - apply incoming_finish_none.
  - intros s ->. unfold expire_transfer_id. simpl. by destruct (_ <? _).
Qed.
End Transfers.

(** *** Witnesses *)

(** A concrete choice of the libraries: an uncompressed image format and a hash that keeps the
    last 32 bytes. *)
Definition sample_libraries : ClipboardLibraries :=
  {| sha256 b := be_encode 32 (be_decode b);
     encode_png w h pixels :=
       if (0 <=? w) && (w <=? u32_max) && (0 <=? h) && (h <=? u32_max)
       then Ok (be_encode 4 w ++ be_encode 4 h ++ pixels) else Err "dimensions"%string;
     into_dimensions _ b := Ok (be_decode (take 4 b), be_decode (take 4 (drop 4 b)));
     decode_rgba8 _ _ _ b := Ok (drop 8 b) |}.

Definition sample_limits : TransferLimits :=
  {| max_image_bytes := 1000; max_text_bytes := 1000 |}.

Example text_transfer_round_trip_witness :
  @receive_all sample_libraries 0 sample_limits
    (drain 3 (@outgoing_text sample_libraries 7 1 "hello")) None
  = (None, Ok [Item_Text "hello"]).
Proof.
  apply (@text_transfer_round_trip sample_libraries 0 sample_limits None 7 1 "hello" 1);
    vm_compute; intuition congruence.
Defined.

Lemma sample_libraries_lossless w h pixels encoded :
  @encode_png sample_libraries w h pixels = Ok encoded ->
  @into_dimensions sample_libraries Png encoded = Ok (w, h)
  /\ @decode_rgba8 sample_libraries Png w h encoded = Ok pixels.
Proof.
  unfold encode_png, into_dimensions, decode_rgba8; cbn [sample_libraries].
  destruct (_ && (h <=? u32_max)) eqn:E; [|done]. intros Heq.
  assert (encoded = be_encode 4 w ++ be_encode 4 h ++ pixels) as -> by congruence.
  reflect_bools.
  rewrite (take_app_length' (be_encode 4 w)), (drop_app_length' (be_encode 4 w))
    by (by rewrite be_encode_length).
  rewrite (take_app_length' (be_encode 4 h)) by (by rewrite be_encode_length).
  rewrite !be_decode_encode_small by (unfold u32_max in *; lia). split; [done|].
  by rewrite app_assoc, drop_app_length' by (by rewrite length_app, !be_encode_length).
Qed.

Definition sample_image : CanonicalImage :=
  match @CanonicalImage_from_rgba sample_libraries 1 1 [1; 2; 3; 4] 1000 with
  | Ok image => image
  | Err _ => {| width := 0; height := 0; rgba := []; png := []; image_sha256 := [] |}
  end.

Example image_transfer_round_trip_witness :
  @receive_all sample_libraries 0 sample_limits (drain 3 (outgoing_image 7 1 sample_image)) None
  = (None, Ok [Item_Image sample_image]).
Proof.
  apply (@image_transfer_round_trip sample_libraries 0 sample_limits None 7 1 1 1 1000
           [1; 2; 3; 4] sample_image 1 sample_libraries_lossless);
    vm_compute; intuition congruence.
Defined.

Example receiver_is_bounded_witness :
  incoming_ok sample_limits
    (fold_left (@receive_step sample_libraries sample_limits)
       [(0, TextStart 7 1 5 []); (0, TextChunk 7 0 [104; 105]); (0, TextChunk 7 0 [104])] None).
Proof.
  apply (@receiver_is_bounded sample_libraries sample_limits
           [(0, TextStart 7 1 5 []); (0, TextChunk 7 0 [104; 105]); (0, TextChunk 7 0 [104])]
           0 (TextEnd 7) (Item_Text "hi")).
  repeat constructor; vm_compute; congruence.
Defined.

(** *** The schedule and the tracker *)

(** The frames that spent the budget since the last chunk was sent, most recent first; [true]
    marks a sent frame. *)
Fixpoint since_chunk (recent : list (bool * Frame)) : Z :=
  match recent with
  | [] => 0
  | (true, frame) :: rest => if is_chunk_frame frame then 0 else 1 + since_chunk rest
  | (false, frame) :: rest =>
      if is_clipboard_frame frame then since_chunk rest else 1 + since_chunk rest
  end.

Definition schedule_step (s : ImageTransferSchedule) (f : bool * Frame) : ImageTransferSchedule :=
  if f.1 then record_sent_frame s f.2 else record_received_frame s f.2.

(** A transfer is never starved and never jumps the queue: whatever was sent and received,
    a chunk is due exactly when at least 64 other frames have been sent, or received outside
    the clipboard, since the last chunk; the counter saturates and cannot wrap back to "not
    due". *)
Theorem chunk_due_after_64_frames (frames : list (bool * Frame)) :
  image_chunk_is_due (fold_left schedule_step frames ImageTransferSchedule_default) = true
  <-> 64 <= since_chunk (rev frames).
Proof.
  assert (high_priority_frames_since_chunk
            (fold_left schedule_step frames ImageTransferSchedule_default)
          = Z.min u8_max (since_chunk (rev frames)) /\ 0 <= since_chunk (rev frames)) as [E ?].
  2: { unfold image_chunk_is_due, MAX_HIGH_PRIORITY_FRAMES_BEFORE_IMAGE_CHUNK.
       rewrite E, Z.leb_le. unfold u8_max. lia. }
  induction frames as [|[b f] frames IH] using rev_ind; [done|].
  rewrite fold_left_app, rev_app_distr. simpl. destruct IH as [IH IH0].
  unfold schedule_step at 1, record_sent_frame, record_received_frame; simpl.
  destruct b; [destruct (is_chunk_frame f)|destruct (is_clipboard_frame f)]; simpl;
    rewrite ?IH; unfold saturating_add, u8_max; lia.
Qed.

Inductive tracker_op :=
| Track_mark (id : option ClipboardContentId)
| Track_changed (id : option ClipboardContentId)
| Track_current (id : option ClipboardContentId).

Definition tracker_run_op (t : ClipboardChangeTracker) (o : tracker_op) :
  ClipboardChangeTracker * option Z :=
  match o with
  | Track_mark id => (mark_observed t id, None)
  | Track_changed id => offer_if_changed t id
  | Track_current id => offer_current t id
  end.

(** The sequence numbers offered along a list of operations. *)
Fixpoint offers (t : ClipboardChangeTracker) (ops : list tracker_op) : list Z :=
  match ops with
  | [] => []
  | o :: ops => match tracker_run_op t o with
                | (t', Some n) => n :: offers t' ops
                | (t', None) => offers t' ops
                end
  end.

(** Offers are numbered consecutively, so a peer can order them, as long as the counter has
    room; and content that was just observed, for instance because the peer sent it, is not
    offered back. *)
Theorem offers_are_consecutive (t : ClipboardChangeTracker) (ops : list tracker_op)
    (id : option ClipboardContentId)
    (Hroom : tracker_sequence t + len ops <= u64_max) :
  offers t ops = seqZ (tracker_sequence t + 1) (len (offers t ops))
  /\ offer_if_changed (mark_observed t id) id = (mark_observed t id, None).
Proof.
  split.
  - revert t Hroom. induction ops as [|o ops IH]; intros t Hroom; [done|].
    rewrite len_cons in Hroom. cbn [offers].
    assert (forall t', tracker_sequence t' = tracker_sequence t ->
      offers t' ops = seqZ (tracker_sequence t + 1) (len (offers t' ops))) as Hsame.
    { intros t' E. rewrite IH at 1 by lia. by rewrite E. }
    assert (forall i, (forall t', offer_current t i = (t', None) -> tracker_sequence t' = tracker_sequence t)
      /\ forall t' n, offer_current t i = (t', Some n) ->
           n = tracker_sequence t + 1 /\ tracker_sequence t' = tracker_sequence t + 1) as Hc.
    { pose proof (len_nonneg ops). intros i. unfold offer_current. destruct i; split; intros;
        simplify_eq/=; unfold saturating_add; lia. }
    destruct (tracker_run_op t o) as [t' [n|]] eqn:E.
    + assert (n = tracker_sequence t + 1 /\ tracker_sequence t' = tracker_sequence t + 1)
        as [-> E'].
      { destruct o as [i|i|i]; simpl in E; [done| |by eapply Hc].
        unfold offer_if_changed in E. destruct (is_observed t i); [done|by eapply Hc]. }
      rewrite len_cons, seqZ_cons by (pose proof (len_nonneg (offers t' ops)); lia). f_equal.
      rewrite IH at 1 by lia. rewrite E'. f_equal; lia.
    + apply Hsame. destruct o as [i|i|i]; simpl in E; [by simplify_eq| |by eapply Hc].
      unfold offer_if_changed in E. destruct (is_observed t i); [by simplify_eq|by eapply Hc].
  - unfold offer_if_changed, is_observed, mark_observed; simpl.
    by rewrite bool_decide_true.
Qed.

Example offers_are_consecutive_witness :
  offers (ClipboardChangeTracker_new None)
    [Track_changed (Some (Id_Text [1])); Track_changed (Some (Id_Text [1]));
     Track_changed (Some (Id_Text [2]))] = [1; 2].
Proof.
  rewrite (proj1 (offers_are_consecutive (ClipboardChangeTracker_new None)
    [Track_changed (Some (Id_Text [1])); Track_changed (Some (Id_Text [1]));
     Track_changed (Some (Id_Text [2]))] None ltac:(vm_compute; congruence))).
  vm_compute. reflexivity.
Defined.
