(* ===== verification/NotificationStore.v ===== *)
(** * The notification history: [Store] of [apps/edge-receiver-linux/src/notification_hub.rs]

    One computer, the coordinator, owns the history; the other keeps a replica
    and an outbox of operations not yet acknowledged.  [Store] is the durable
    state of either.  [history] abstracts its record list to a finite map, on
    which [merge_operation] specifies what applying an operation means. *)
From Stdlib Require Import Ascii.
From S2P Require Export Protocol.

(** [rx/notification_hub 26-26 MAX_RECORDS] *)
Definition MAX_RECORDS : Z := 4096.
(** [rx/notification_hub 27-27 MAX_PENDING] *)
Definition MAX_PENDING : Z := 1024.
(** [rx/notification_hub 28-28 MAX_STORE_BYTES] *)
Definition MAX_STORE_BYTES : Z := 32 * 1024 * 1024.

(** [rx/notification_hub 45-49 PhoneInstance] *)
Record PhoneInstance := { phone_instance : string; phone_present : bool }.

(** [rx/notification_hub 31-43 Store] *)
Record Store := {
  coordinator : string;
  epoch : string;
  local_identity : string;
  store_sequence : Z;
  records : list NotificationRecord;
  pending_operations : list NotificationOperation;
  phone_instances : gmap string PhoneInstance;
  imported_phones : gmap string string;
}.

(** [Store::default]. *)
Definition Store_default : Store :=
  {| coordinator := ""; epoch := ""; local_identity := ""; store_sequence := 0; records := [];
     pending_operations := []; phone_instances := ∅; imported_phones := ∅ |}.

Definition with_records : list NotificationRecord -> Store -> Store := ltac:(field_setter records).
Definition with_pending_operations : list NotificationOperation -> Store -> Store :=
  ltac:(field_setter pending_operations).
Definition with_sequence : Z -> Store -> Store := ltac:(field_setter store_sequence).
Definition with_owner (c e : string) (s : Store) : Store :=
  {| coordinator := c; epoch := e; local_identity := local_identity s;
     store_sequence := store_sequence s; records := records s;
     pending_operations := pending_operations s; phone_instances := phone_instances s;
     imported_phones := imported_phones s |}.

(** [rx/notification_hub 51-58 Store::coordinator_locked] *)
Definition coordinator_locked (self : Store) : bool :=
  negb (str_is_empty (epoch self)) || negb (bool_decide (records self = []))
  || existsb (fun op => negb (str_eqb (key_origin (op_key op)) (local_identity self)))
       (pending_operations self).

(** [rx/notification_hub 165-185 validate_key] *)
Definition validate_key (key : NotificationKey) : result unit string :=
  ensure! (str_len (key_origin key) =? 35)
          && (len (str_split ":"%char (key_origin key)) =? 4)
          && forallb (fun part => (str_len part =? 8) && all_bytes is_ascii_hexdigit part)
               (str_split ":"%char (key_origin key))
    else "invalid notification origin"%string;;
  ensure! negb (str_is_empty (key_instance key)) && (str_len (key_instance key) <=? 160)
          && all_bytes (fun c => is_ascii_alphanumeric c || existsb (Z.eqb c) [45; 95; 47])
               (key_instance key)
    else "invalid notification instance"%string;;
  Ok tt.

(** [rx/notification_hub 186-210 validate_content] *)
Definition validate_content (content : SharedNotification) : result unit string :=
  ensure! (chars_count (sn_app_name content) <=? 64) && (chars_count (sn_title content) <=? 256)
          && (str_len (sn_body content) <=? 4096)
    else "notification content too large"%string;;
  ensure! (str_len (sn_icon content) <=? 128)
          && all_bytes (fun c => is_ascii_alphanumeric c || existsb (Z.eqb c) [45; 95; 46])
               (sn_icon content)
    else "notification icon must be a theme name"%string;;
  ensure! sn_urgency content <=? 2 else "invalid notification urgency"%string;;
  ensure! is_none_or (fun icon => len icon <=? MAX_ICON_BYTES) (sn_icon_png content)
    else "notification icon too large"%string;;
  Ok tt.

Definition is_key (key : NotificationKey) (r : NotificationRecord) : bool :=
  bool_decide (rec_key r = key).

(** [records.iter_mut().find(|r| r.key == key)] followed by an assignment. *)
Fixpoint update_record (key : NotificationKey) (f : NotificationRecord -> NotificationRecord)
    (rs : list NotificationRecord) : list NotificationRecord :=
  match rs with
  | [] => []
  | r :: rs => if is_key key r then f r :: rs else r :: update_record key f rs
  end.

(** The checks [apply] starts with. *)
Definition check_operation (sender : string) (operation : NotificationOperation) :
  result unit string :=
  let? _ := validate_key (op_key operation) in
  ensure! 0 <? op_sequence operation else "zero notification operation sequence"%string;;
  match op_content operation with
  | Some content =>
      ensure! str_eqb (key_origin (op_key operation)) sender
        else "notification source impersonation"%string;;
      validate_content content
  | None => Ok tt
  end.

(** [rx/notification_hub 59-97 Store::apply]; an error leaves the store as it was. *)
Definition store_apply (self : Store) (sender : string) (operation : NotificationOperation) :
  result (Store * bool) string :=
  let? _ := check_operation sender operation in
  match List.find (is_key (op_key operation)) (records self) with
  | Some record =>
      if bool_decide (rec_content record = None) then Ok (self, false)
      else if bool_decide (op_content operation = None)
              || (rec_source_sequence record <? op_sequence operation)
      then
        let set r :=
          {| rec_key := rec_key r;
             rec_source_sequence := if bool_decide (is_Some (op_content operation))
                                    then op_sequence operation else rec_source_sequence r;
             rec_content := op_content operation |} in
        Ok (with_records (update_record (op_key operation) set (records self)) self, true)
      else Ok (self, false)
  | None =>
      ensure! len (records self) <? MAX_RECORDS
        else "notification state is full; explicit reset required"%string;;
      Ok (with_records (records self ++
            [{| rec_key := op_key operation; rec_source_sequence := op_sequence operation;
                rec_content := op_content operation |}]) self, true)
  end.

(** [let _ = overlay.apply(..)]. *)
Definition apply_ignoring (sender : string) (s : Store) (op : NotificationOperation) : Store :=
  match store_apply s sender op with Ok (s', _) => s' | Err _ => s end.

(** [rx/notification_hub 156-163 Store::view] *)
Definition store_view (self : Store) : list NotificationRecord :=
  records (fold_left (apply_ignoring (local_identity self)) (pending_operations self) self).

(** [rx/notification_hub 142-155 Store::record] *)
Definition store_record (self : Store) (key : NotificationKey) : option NotificationRecord :=
  let current := List.find (is_key key) (records self) in
  match List.find (fun op => bool_decide (op_key op = key)) (pending_operations self) with
  | None => current
  | Some operation =>
      let overlay := with_records (match current with Some r => [r] | None => [] end)
                       Store_default in
      last (records (apply_ignoring (local_identity self) overlay operation))
  end.

(** The checks [queue_local] makes on the content of an operation. *)
Definition check_local (identity : string) (key : NotificationKey)
    (content : option SharedNotification) : stateful Store string unit :=
  match content with
  | Some c =>
      do! st_lift (validate_content c);;
      st_ensure (str_eqb (key_origin key) identity) "invalid local origin"%string
  | None => st_ret tt
  end.

(** [rx/notification_hub 98-141 Store::queue_local]; a failure keeps the changes made so far. *)
Definition queue_local (key : NotificationKey) (content : option SharedNotification)
    (is_coordinator : bool) : stateful Store string bool :=
  self <-! st_get;;
  if is_some_and (fun r => bool_decide (rec_content r = None)
                           || bool_decide (rec_content r = content))
       (List.find (is_key key) (store_view self))
  then st_ret false
  else
    n <-! st_lift (ok_or (checked_add u64_max (store_sequence self) 1)
                     "notification sequence exhausted"%string);;
    do! st_put (with_sequence n self);;
    let operation := {| op_sequence := n; op_key := key; op_content := content |} in
    do! st_lift (validate_key key);;
    do! check_local (local_identity self) key content;;
    self <-! st_get;;
    if is_coordinator then
      r <-! st_lift (store_apply self (local_identity self) operation);;
      do! st_put r.1;;
      st_ret true
    else
      let kept := List.filter (fun op => negb (bool_decide (op_key op = key)))
                    (pending_operations self) in
      do! st_put (with_pending_operations kept self);;
      do! st_ensure ((len kept <? MAX_PENDING) && (len (records self) + len kept <? MAX_RECORDS))
            "notification outbox is full"%string;;
      do! st_put (with_pending_operations (kept ++ [operation]) self);;
      st_ret true.

(** ** The abstract history *)

#[export] Instance NotificationKey_countable : Countable NotificationKey.
Proof.
  refine (inj_countable' (fun k => (key_origin k, key_instance k))
    (fun p => {| key_origin := p.1; key_instance := p.2 |}) _).
  by intros [].
Defined.

(** What is known of one notification: the source's sequence number and the content, [None]
    once removed. *)
Abbreviation entry := (Z * option SharedNotification)%type.

Definition record_entry (r : NotificationRecord) : NotificationKey * entry :=
  (rec_key r, (rec_source_sequence r, rec_content r)).

Definition history_of (rs : list NotificationRecord) : gmap NotificationKey entry :=
  list_to_map (record_entry <$> rs).
Definition history (s : Store) : gmap NotificationKey entry := history_of (records s).

(** What an accepted operation does to the history; the flag says whether it changed it.  A
    removed notification stays removed, a removal always wins, and a post wins over an older
    post. *)
Definition merge_operation (h : gmap NotificationKey entry) (op : NotificationOperation) :
  gmap NotificationKey entry * bool :=
  match h !! op_key op with
  | Some (_, None) => (h, false)
  | Some (n, Some _) =>
      match op_content op with
      | None => (<[op_key op := (n, None)]> h, true)
      | Some c => if n <? op_sequence op
                  then (<[op_key op := (op_sequence op, Some c)]> h, true) else (h, false)
      end
  | None => (<[op_key op := (op_sequence op, op_content op)]> h, true)
  end.

Lemma history_cons r rs :
  history_of (r :: rs) = <[rec_key r := (rec_source_sequence r, rec_content r)]> (history_of rs).
Proof. reflexivity. Qed.

Lemma find_lookup key rs :
  history_of rs !! key
  = (fun r => (rec_source_sequence r, rec_content r)) <$> List.find (is_key key) rs.
Proof.
  induction rs as [|r rs IH]; [done|]. rewrite history_cons. cbn [List.find].
  unfold is_key at 1. case_bool_decide as E; [by rewrite <- E, lookup_insert_eq|].
  by rewrite lookup_insert_ne.
Qed.

Lemma update_history key f rs r :
  List.find (is_key key) rs = Some r -> (forall r, rec_key (f r) = rec_key r) ->
  history_of (update_record key f rs)
  = <[key := (rec_source_sequence (f r), rec_content (f r))]> (history_of rs).
Proof.
  intros Hr Hf. induction rs as [|r' rs IH]; [done|].
  cbn [List.find update_record] in *. unfold is_key in Hr at 1. unfold is_key at 1.
  case_bool_decide as E.
  - simplify_eq. rewrite !history_cons, Hf. by rewrite insert_insert_eq.
  - rewrite !history_cons, IH by done. by rewrite insert_insert_ne.
Qed.

Lemma append_history rs r :
  List.find (is_key (rec_key r)) rs = None ->
  history_of (rs ++ [r]) = <[rec_key r := (rec_source_sequence r, rec_content r)]> (history_of rs).
Proof.
  induction rs as [|r' rs IH]; [done|]. intros H.
  cbn [List.find] in H. unfold is_key in H at 1. case_bool_decide as E; [done|].
  rewrite <- app_comm_cons, !history_cons, IH by done. by rewrite insert_insert_ne.
Qed.

Definition record_keys (rs : list NotificationRecord) : list NotificationKey := rec_key <$> rs.

Lemma update_keys key f rs :
  (forall r, rec_key (f r) = rec_key r) -> record_keys (update_record key f rs) = record_keys rs.
Proof.
  intros Hf. unfold record_keys. induction rs as [|r rs IH]; [done|]. cbn [update_record].
  destruct (is_key key r); rewrite !fmap_cons; [by rewrite Hf|by rewrite IH].
Qed.

Lemma update_length key f rs : len (update_record key f rs) = len rs.
Proof.
  induction rs as [|r rs IH]; [done|]. cbn [update_record].
  destruct (is_key key r); rewrite !len_cons; [done|by rewrite IH].
Qed.

Lemma find_none_keys key rs : List.find (is_key key) rs = None <-> key ∉ record_keys rs.
Proof.
  unfold record_keys. induction rs as [|r rs IH]; [set_solver|]. cbn [List.find].
  rewrite fmap_cons, not_elem_of_cons. unfold is_key at 1.
  case_bool_decide as E; [split; [done|intros [? _]; congruence]|].
  rewrite IH. split; [|by intros [_ ?]]. intros. split; [congruence|done].
Qed.

(** ** Invariants *)

Definition valid_record (r : NotificationRecord) : Prop :=
  validate_key (rec_key r) = Ok tt
  /\ forall c, rec_content r = Some c -> validate_content c = Ok tt.

(** A store that stays within its limits with at most one record and one queued operation for
    a notification, every record valid. *)
Record store_ok (s : Store) : Prop := {
  ok_keys : NoDup (record_keys (records s));
  ok_records : len (records s) <= MAX_RECORDS;
  ok_pending_keys : NoDup (op_key <$> pending_operations s);
  ok_pending : len (pending_operations s) <= MAX_PENDING;
  ok_valid : Forall valid_record (records s);
}.

(** The outcomes of [store_apply]: it fails, does nothing, or changes the records only. *)
Lemma store_apply_cases s sender op s' b :
  store_apply s sender op = Ok (s', b) ->
  s' = with_records (records s') s
  /\ merge_operation (history s) op = (history s', b)
  /\ (b = false -> s' = s)
  /\ (record_keys (records s') = record_keys (records s)
       /\ len (records s') = len (records s)
      \/ op_key op ∉ record_keys (records s) /\ len (records s) < MAX_RECORDS
         /\ record_keys (records s') = record_keys (records s) ++ [op_key op]
         /\ len (records s') = len (records s) + 1).
Proof.
  unfold store_apply. destruct (check_operation _ _); [|done].
  unfold merge_operation, history. rewrite find_lookup.
  destruct (List.find _ _) as [r|] eqn:Ef; simpl.
  - case_bool_decide as Ec.
    { intros. simplify_eq. rewrite Ec. split_and!; auto. by destruct s'. }
    destruct (rec_content r) as [c|] eqn:Er; [|done].
    destruct (bool_decide (op_content op = None) || _) eqn:E.
    + intros [= <- <-]. simpl.
      erewrite update_history by (done || exact Ef). simpl.
      split_and!; [done| |done|left; by rewrite update_keys, update_length].
      destruct (op_content op) as [c'|]; simpl in *; [|done]. by rewrite E.
    + intros. simplify_eq. apply orb_false_iff in E as [E1 E2].
      destruct (op_content op) as [c'|]; [|done]. rewrite E2. split_and!; auto. by destruct s'.
  - destruct (Z.ltb_spec (len (records s)) MAX_RECORDS); [|done]. intros [= <- <-]. simpl.
    rewrite append_history by done. split_and!; try done. right.
    unfold record_keys. rewrite fmap_app, len_app. by rewrite find_none_keys in Ef.
Qed.

Lemma check_operation_ok sender op :
  check_operation sender op = Ok tt <->
  validate_key (op_key op) = Ok tt /\ 0 < op_sequence op
  /\ (forall c, op_content op = Some c ->
        key_origin (op_key op) = sender /\ validate_content c = Ok tt).
Proof.
  unfold check_operation. destruct (validate_key (op_key op)) as [[]|]; [|naive_solver].
  destruct (Z.ltb_spec 0 (op_sequence op)); [|naive_solver lia].
  destruct (op_content op) as [c|]; [|naive_solver].
  destruct (str_eqb _ _) eqn:E; reflect_bools; naive_solver.
Qed.

Lemma update_record_forall (P : NotificationRecord -> Prop) key f rs :
  Forall P rs -> (forall r, rec_key r = key -> P r -> P (f r)) ->
  Forall P (update_record key f rs).
Proof.
  intros Hrs Hf. induction Hrs as [|r rs Hr Hrs IH]; cbn [update_record]; [constructor|].
  destruct (is_key key r) eqn:E; constructor; auto. apply Hf; [|done].
  unfold is_key in E. by reflect_bools.
Qed.

Lemma store_apply_valid s sender op s' b :
  Forall valid_record (records s) -> store_apply s sender op = Ok (s', b) ->
  Forall valid_record (records s').
Proof.
  intros Hv. unfold store_apply.
  destruct (check_operation sender op) as [[]|] eqn:Ec; [|done].
  apply check_operation_ok in Ec as (Hk & _ & Hc).
  destruct (List.find _ _) as [r|].
  - destruct (bool_decide _); [by intros [= <- _]|].
    destruct (_ || _); intros [= <- _]; [|done]. apply update_record_forall; [done|].
    intros r' E [Hr _]. split; [done|]. intros c Hcc. by apply Hc in Hcc as [_ ?].
  - destruct (_ <? _); [|done]. intros [= <- _]. simpl. apply Forall_app. split; [done|].
    constructor; [|constructor]. split; [done|]. intros c Hcc. by apply Hc in Hcc as [_ ?].
Qed.

Lemma store_apply_ok s sender op s' b :
  store_ok s -> store_apply s sender op = Ok (s', b) -> store_ok s'.
Proof.
  intros [H1 H2 H3 H4 H5] H. pose proof (store_apply_valid _ _ _ _ _ H5 H). apply store_apply_cases in H as (E & _ & _ & Hk).
  rewrite E. split; simpl; try done; destruct Hk as [[K1 K2]|(? & ? & K1 & K2)];
    rewrite ?K1, ?K2; auto; [|lia].
  apply NoDup_app. split_and!; [done|set_solver|apply NoDup_singleton].
Qed.

Lemma apply_ignoring_ok sender op s : store_ok s -> store_ok (apply_ignoring sender s op).
Proof.
  intros Hs. unfold apply_ignoring.
  destruct (store_apply s sender op) as [[s' b]|] eqn:E; [|done]. by eapply store_apply_ok.
Qed.

Lemma filter_is_filter {A} (P : A -> bool) (l : list A) :
  List.filter P l = filter (fun x => P x = true) l.
Proof.
  induction l as [|x l IH]; [done|]. simpl. rewrite filter_cons, IH.
  destruct (P x) eqn:E; case_decide; congruence.
Qed.

Lemma kept_operations key ops :
  NoDup (op_key <$> ops) ->
  let kept := List.filter (fun op => negb (bool_decide (op_key op = key))) ops in
  NoDup (op_key <$> kept) /\ key ∉ op_key <$> kept /\ len kept <= len ops.
Proof.
  intros Hnd kept. split_and!.
  - revert Hnd. unfold kept. induction ops as [|op ops IH]; [done|].
    rewrite fmap_cons, NoDup_cons. intros [Hn Hnd]. simpl.
    case_bool_decide; simpl; [by apply IH|]. rewrite NoDup_cons. split; [|by apply IH].
    intros (o & E & Ho)%list_elem_of_fmap. apply Hn. apply list_elem_of_fmap.
    exists o. split; [done|]. rewrite filter_is_filter in Ho.
    by apply list_elem_of_filter in Ho as [_ ?].
  - intros (o & -> & Ho)%list_elem_of_fmap. unfold kept in Ho. rewrite filter_is_filter in Ho.
    apply list_elem_of_filter in Ho as [E _]. by rewrite bool_decide_true in E.
  - apply len_filter_le.
Qed.

Lemma check_local_state identity key content s : (check_local identity key content s).1 = s.
Proof.
  unfold check_local, st_bind, st_lift, st_ensure, st_ret, st_fail.
  destruct content as [c|]; [|done]. destruct (validate_content c); [|done].
  by destruct (str_eqb _ _).
Qed.

Lemma queue_local_ok key content is_coordinator s :
  store_ok s -> store_ok (queue_local key content is_coordinator s).1.
Proof.
  intros Hs. unfold queue_local, st_bind, st_get, st_put, st_ret, st_ensure, st_lift.
  destruct (is_some_and _ _); [done|].
  destruct (ok_or _ _) as [n|]; [|done].
  assert (store_ok (with_sequence n s)) as Hn by (by destruct Hs; split).
  destruct (validate_key key); [|done].
  pose proof (check_local_state (local_identity s) key content (with_sequence n s)) as Hst.
  destruct (check_local _ _ _ _) as [s1 [?|?]]; simpl in Hst; subst s1; [|done].
  destruct is_coordinator; simpl.
  - destruct (store_apply _ _ _) as [[s2 b]|] eqn:Ea; [|done]. simpl.
    by eapply store_apply_ok.
  - destruct (kept_operations key _ (ok_pending_keys _ Hs)) as (K1 & K2 & K3).
    destruct (_ && _) eqn:El; simpl; destruct Hn as [N1 N2 N3 N4 N5]; simpl in *; split; simpl;
      try done; try lia.
    + rewrite fmap_app. apply NoDup_app. split_and!; [done| |apply NoDup_singleton].
      intros k Hk ->%list_elem_of_singleton. done.
    + reflect_bools. rewrite len_app. unfold len at 2; simpl. lia.
Qed.

(** The senders and operations a store accepts over time. *)
Definition apply_all (s : Store) (ops : list (string * NotificationOperation)) : Store :=
  fold_left (fun s o => apply_ignoring o.1 s o.2) ops s.

Lemma apply_ignoring_history sender s op :
  store_apply s sender op = Ok (apply_ignoring sender s op,
                                (merge_operation (history s) op).2)
  /\ history (apply_ignoring sender s op) = (merge_operation (history s) op).1
  \/ apply_ignoring sender s op = s.
Proof.
  unfold apply_ignoring. destruct (store_apply s sender op) as [[s' b]|] eqn:E; [|by right].
  left. apply store_apply_cases in E as (_ & E & _). by rewrite E.
Qed.

(** Merging keeps what is removed removed and never lowers a sequence number. *)
Lemma merge_grows h op key n c :
  h !! key = Some (n, c) ->
  exists n' c', (merge_operation h op).1 !! key = Some (n', c') /\ n <= n'
  /\ (c = None -> n' = n /\ c' = None).
Proof.
  intros Hk. unfold merge_operation.
  destruct (decide (op_key op = key)) as [->|Hne].
  - rewrite Hk. destruct c as [c|]; [|naive_solver].
    destruct (op_content op) as [c'|]; [|simpl; rewrite lookup_insert_eq; naive_solver].
    destruct (Z.ltb_spec n (op_sequence op)); simpl;
      [rewrite lookup_insert_eq; eexists _, _; split_and!; [done|lia|done]|].
    rewrite Hk. naive_solver.
  - repeat case_match; simpl; rewrite ?lookup_insert_ne by done; naive_solver lia.
Qed.

(** *** Properties *)

(** Whatever happens to it, a store stays within its limits and holds at most one record
    and one queued operation per notification: applying an operation from any sender and
    queueing a local change, whether they succeed or fail, keep a well-formed store
    well-formed. *)
Theorem store_stays_well_formed (s : Store) (sender : string) (op : NotificationOperation)
    (key : NotificationKey) (content : option SharedNotification) (is_coordinator : bool)
    (Hs : store_ok s) :
  store_ok (apply_ignoring sender s op)
  /\ store_ok (queue_local key content is_coordinator s).1.
Proof.
  split; [by apply apply_ignoring_ok|by apply queue_local_ok].
Qed.

Lemma Store_default_ok : store_ok Store_default.
Proof. by split; try apply NoDup_nil_2; try apply Forall_nil. Qed.

Definition sample_origin : string := "aaaaaaaa:aaaaaaaa:aaaaaaaa:aaaaaaaa".
Definition sample_key (instance : string) : NotificationKey :=
  {| key_origin := sample_origin; key_instance := instance |}.
Definition sample_content (title : string) : SharedNotification :=
  {| sn_app_name := "mail"; sn_title := title; sn_body := ""; sn_icon := "mail"; 
     sn_icon_png := None; sn_posted_ms := 0; sn_urgency := 1 |}.
Definition sample_post (n : Z) (instance title : string) : NotificationOperation :=
  {| op_sequence := n; op_key := sample_key instance;
     op_content := Some (sample_content title) |}.
Definition sample_removal (n : Z) (instance : string) : NotificationOperation :=
  {| op_sequence := n; op_key := sample_key instance; op_content := None |}.

Example store_stays_well_formed_witness :
  store_ok (apply_ignoring sample_origin Store_default (sample_post 1 "m1" "hello")).
Proof.
  apply (store_stays_well_formed Store_default sample_origin (sample_post 1 "m1" "hello")
           (sample_key "m1") None true Store_default_ok).
Defined.

(** C30. Applying an operation implements the merge on the abstract history: an operation is
    accepted exactly when its key and number are valid, its content, if any, is valid and
    comes from the notification's own origin, and there is room for a new notification; it
    then changes the history as [merge_operation] says, reports whether it did, and touches
    nothing else in the store. *)
Theorem apply_refines_merge (s : Store) (sender : string) (op : NotificationOperation) :
  match store_apply s sender op with
  | Ok (s', changed) =>
      merge_operation (history s) op = (history s', changed)
      /\ s' = with_records (records s') s /\ (changed = false -> s' = s)
  | Err _ => True
  end
  /\ (is_Ok (store_apply s sender op) = true <->
      validate_key (op_key op) = Ok tt /\ 0 < op_sequence op
      /\ (forall c, op_content op = Some c ->
            key_origin (op_key op) = sender /\ validate_content c = Ok tt)
      /\ (history s !! op_key op = None -> len (records s) < MAX_RECORDS)).
Proof.
  split.
  - destruct (store_apply s sender op) as [[s' b]|] eqn:E; [|done].
    apply store_apply_cases in E as (? & ? & ? & _). done.
  - unfold history. rewrite find_lookup, (and_assoc (0 < _)), (and_assoc (validate_key _ = _)),
      <- check_operation_ok. unfold store_apply.
    destruct (check_operation sender op) as [[]|]; [|split; [done|by intros [? _]]].
    destruct (List.find _ _) as [r|]; simpl.
    + split; [done|]. intros _. repeat case_match; done.
    + destruct (Z.ltb_spec (len (records s)) MAX_RECORDS); simpl; split; try done;
        naive_solver lia.
Qed.

(** A dismissal is final and news never goes backwards: after any further operations from
    any senders, a notification that was known is still known, with a source number that has
    not decreased, and one that was removed is still removed. *)
Theorem removal_is_terminal (s : Store) (ops : list (string * NotificationOperation))
    (key : NotificationKey) (n : Z) (content : option SharedNotification)
    (Hknown : history s !! key = Some (n, content)) :
  exists n' content', history (apply_all s ops) !! key = Some (n', content') /\ n <= n'
  /\ (content = None -> n' = n /\ content' = None).
Proof.
  revert s n content Hknown. induction ops as [|[sender op] ops IH]; intros s n c Hk.
  - exists n, c. naive_solver lia.
  - cbn [apply_all fold_left].
    assert (exists n1 c1, history (apply_ignoring sender s op) !! key = Some (n1, c1)
      /\ n <= n1 /\ (c = None -> n1 = n /\ c1 = None)) as (n1 & c1 & H1 & H2 & H3).
    { destruct (apply_ignoring_history sender s op) as [[_ ->]| ->].
      - by apply merge_grows.
      - naive_solver lia. }
    destruct (IH _ _ _ H1) as (n2 & c2 & H4 & H5 & H6). exists n2, c2.
    split_and!; [done|lia|]. intros ->. destruct (H3 eq_refl) as [-> ->]. auto.
Qed.

Example removal_is_terminal_witness :
  exists n, history (apply_all Store_default
    [(sample_origin, sample_post 1 "m1" "hello"); ("peer"%string, sample_removal 9 "m1");
     (sample_origin, sample_post 5 "m1" "again")]) !! sample_key "m1" = Some (n, None).
Proof.
  destruct (removal_is_terminal
    (apply_all Store_default [(sample_origin, sample_post 1 "m1" "hello");
                              ("peer"%string, sample_removal 9 "m1")])
    [(sample_origin, sample_post 5 "m1" "again")] (sample_key "m1") 1 None)
    as (n & c & H & _ & Hn); [vm_compute; reflexivity|].
  destruct (Hn eq_refl) as [_ E]. exists n. rewrite <- E. exact H.
Defined.

(** *** [record] against [view] *)

Lemma find_none_forall {A} (f : A -> bool) (l : list A) :
  (forall x, In x l -> f x = false) -> List.find f l = None.
Proof.
  induction l as [|x l IH]; intros Hl; [done|]. simpl. rewrite Hl by (by left).
  apply IH. intros. apply Hl. by right.
Qed.

Lemma find_update_same key f rs r :
  List.find (is_key key) rs = Some r -> (forall r, rec_key (f r) = rec_key r) ->
  List.find (is_key key) (update_record key f rs) = Some (f r).
Proof.
  intros Hr Hf. induction rs as [|r' rs IH]; [done|].
  cbn [List.find update_record] in *. destruct (is_key key r') eqn:E; simpl.
  - simplify_eq. unfold is_key in *. by rewrite Hf, E.
  - rewrite E. by apply IH.
Qed.

Lemma find_update_other key key' f rs :
  key <> key' -> (forall r, rec_key (f r) = rec_key r) ->
  List.find (is_key key) (update_record key' f rs) = List.find (is_key key) rs.
Proof.
  intros Hne Hf. induction rs as [|r' rs IH]; [done|].
  cbn [List.find update_record]. destruct (is_key key' r') eqn:E; simpl.
  - unfold is_key in *. rewrite Hf. reflect_bools. rewrite bool_decide_false by congruence. done.
  - destruct (is_key key r'); [done|apply IH].
Qed.

Lemma find_app_record key rs r :
  List.find (is_key key) (rs ++ [r])
  = match List.find (is_key key) rs with
    | Some r' => Some r'
    | None => if is_key key r then Some r else None
    end.
Proof.
  induction rs as [|r' rs IH]; [done|]. simpl. destruct (is_key key r'); [done|apply IH].
Qed.

Lemma find_key key rs r : List.find (is_key key) rs = Some r -> rec_key r = key.
Proof.
  intros [_ H]%List.find_some. unfold is_key in H. by reflect_bools.
Qed.

Definition overlay_of (current : option NotificationRecord) : Store :=
  with_records (match current with Some r => [r] | None => [] end) Store_default.

(** Applying an operation does to its own record what it does to an overlay holding only that
    record, and nothing to the others. *)
Lemma apply_one_record sender s op key :
  len (records s) < MAX_RECORDS ->
  List.find (is_key key) (records (apply_ignoring sender s op))
  = if bool_decide (op_key op = key)
    then last (records (apply_ignoring sender
                          (overlay_of (List.find (is_key key) (records s))) op))
    else List.find (is_key key) (records s).
Proof.
  intros Hroom. unfold apply_ignoring, store_apply.
  assert (last (records (overlay_of (List.find (is_key key) (records s))))
          = List.find (is_key key) (records s)) as Hlast
    by (by destruct (List.find (is_key key) (records s))).
  destruct (check_operation sender op); [|by rewrite Hlast; case_bool_decide].
  destruct (decide (op_key op = key)) as [Ek|Ek];
    [rewrite (bool_decide_true _ Ek)|rewrite (bool_decide_false _ Ek)].
  - rewrite Ek. destruct (List.find (is_key key) (records s)) as [r|] eqn:Ef.
    + pose proof (find_key _ _ _ Ef) as Hk.
      assert (is_key key r = true) as Hr by (unfold is_key; by rewrite bool_decide_true).
      change (records (overlay_of (Some r))) with [r]. cbn [List.find]. rewrite Hr. destruct (bool_decide (rec_content r = None)); [by rewrite Ef|].
      destruct (_ || _); [|by rewrite Ef].
      cbn [records with_records update_record]. rewrite Hr. cbn [last].
      by rewrite (find_update_same _ _ _ _ Ef).
    + change (records (overlay_of None)) with (@nil NotificationRecord). cbn [List.find].
      rewrite (proj2 (Z.ltb_lt _ _)) by done. simpl. rewrite find_app_record, Ef. simpl.
      unfold is_key; simpl. by rewrite bool_decide_true.
  - destruct (List.find (is_key (op_key op)) (records s)) as [r|].
    + destruct (bool_decide (rec_content r = None)); [done|]. destruct (_ || _); [|done].
      by apply find_update_other.
    + rewrite (proj2 (Z.ltb_lt _ _)) by done. simpl. rewrite find_app_record. unfold is_key at 2.
      simpl. rewrite bool_decide_false by done. by destruct (List.find _ _).
Qed.

Lemma apply_ignoring_length sender s op :
  len (records (apply_ignoring sender s op)) <= len (records s) + 1.
Proof.
  unfold apply_ignoring. destruct (store_apply s sender op) as [[s' b]|] eqn:E; [|lia].
  apply store_apply_cases in E as (_ & _ & _ & [[_ ?]|(_ & _ & _ & ?)]); lia.
Qed.

Lemma fold_one_record sender key ops : forall s,
  NoDup (op_key <$> ops) -> len (records s) + len ops <= MAX_RECORDS ->
  List.find (is_key key) (records (fold_left (apply_ignoring sender) ops s))
  = match List.find (fun op => bool_decide (op_key op = key)) ops with
    | None => List.find (is_key key) (records s)
    | Some op => last (records (apply_ignoring sender
                                  (overlay_of (List.find (is_key key) (records s))) op))
    end.
Proof.
  induction ops as [|op ops IH]; intros s Hnd Hroom; [done|].
  rewrite fmap_cons, NoDup_cons in Hnd. destruct Hnd as [Hn Hnd].
  rewrite len_cons in Hroom. pose proof (len_nonneg ops).
  pose proof (apply_ignoring_length sender s op).
  cbn [fold_left List.find]. rewrite IH by (done || lia).
  rewrite apply_one_record by lia. case_bool_decide as E; [|done].
  assert (List.find (fun op => bool_decide (op_key op = key)) ops = None) as ->; [|done].
  apply find_none_forall. intros o Ho. apply bool_decide_eq_false. intros E'.
  apply Hn. rewrite E, <- E'. apply list_elem_of_fmap_2. by apply list_elem_of_In.
Qed.

(** [record], which looks at one notification without copying the history, answers what
    looking the notification up in the full [view] would, as long as records and outbox fit
    the limit together. *)
Theorem record_is_view_lookup (s : Store) (key : NotificationKey) (Hs : store_ok s)
    (Hroom : len (records s) + len (pending_operations s) <= MAX_RECORDS) :
  store_record s key = List.find (is_key key) (store_view s).
Proof.
  unfold store_view, store_record. rewrite fold_one_record by (done || apply Hs). done.
Qed.

Example record_is_view_lookup_witness :
  let s := with_pending_operations [sample_removal 2 "m1"]
             (apply_ignoring sample_origin Store_default (sample_post 1 "m1" "hello")) in
  store_record s (sample_key "m1") = List.find (is_key (sample_key "m1")) (store_view s).
Proof.
  apply record_is_view_lookup.
  - assert (store_ok (apply_ignoring sample_origin Store_default (sample_post 1 "m1" "hello")))
      as [H1 H2 _ _ H5] by (by apply apply_ignoring_ok, Store_default_ok).
    split; [exact H1|exact H2|apply NoDup_singleton|vm_compute; congruence|exact H5].
  - vm_compute. congruence.
Defined.
