(* ===== verification/NotificationLink.v ===== *)
(** * Notification replication: [apps/edge-receiver-linux/src/notification_hub.rs]

    A [NotificationLink] joins the hub of one computer to the other over a
    session.  The coordinator answers submissions and sends snapshots; the
    replica submits its outbox and adopts snapshots.  An [Endpoint] is a hub's
    store with one link to it.  Writing the store to disk is a parameter, which
    may fail; [SessionLink] bounds the memory of a snapshot being received. *)
From S2P Require Export NotificationStore.

(** ** One end of a link *)

(** [rx/notification_hub 1051-1061 NotificationLink], with the fields of the hub it uses. *)
Record Endpoint := {
  ep_identity : string;
  ep_coordinator : string;
  ep_peer : string;
  ep_store : Store;
  ep_active : bool;
  ep_sent_through : Z;
  ep_changed : bool;
  ep_outgoing : list NotificationSync;
  ep_staged : option (string * list NotificationRecord);
  ep_dirty : bool;
}.

Definition set_store : Store -> Endpoint -> Endpoint := ltac:(field_setter ep_store).
Definition set_active : bool -> Endpoint -> Endpoint := ltac:(field_setter ep_active).
Definition set_staged : option (string * list NotificationRecord) -> Endpoint -> Endpoint :=
  ltac:(field_setter ep_staged).
Definition set_outgoing : list NotificationSync -> Endpoint -> Endpoint :=
  ltac:(field_setter ep_outgoing).
Definition set_wakeup (through : Z) (changed dirty : bool) (e : Endpoint) : Endpoint :=
  {| ep_identity := ep_identity e; ep_coordinator := ep_coordinator e; ep_peer := ep_peer e;
     ep_store := ep_store e; ep_active := ep_active e; ep_sent_through := through;
     ep_changed := changed; ep_outgoing := ep_outgoing e; ep_staged := ep_staged e;
     ep_dirty := dirty |}.

(** [rx/notification_hub 733-735 NotificationHub::is_coordinator] *)
Definition ep_is_coordinator (e : Endpoint) : bool := str_eqb (ep_identity e) (ep_coordinator e).

(** [rx/notification_hub 762-766 NotificationHub::publish] wakes the links. *)
Definition publish (e : Endpoint) : Endpoint :=
  set_wakeup (ep_sent_through e) true (ep_dirty e) e.

(** [rx/notification_hub 792-815 NotificationHub::link] *)
Definition hub_link (identity configured : string) (peers : list string) (store : Store)
    (peer : string) (supported : bool) : option Endpoint :=
  if negb supported || negb (existsb (fun p => str_eqb p peer) peers)
     || (negb (str_eqb identity configured) && negb (str_eqb peer configured))
  then None
  else Some {| ep_identity := identity; ep_coordinator := configured; ep_peer := peer;
               ep_store := store; ep_active := false; ep_sent_through := 0;
               ep_changed := true; ep_outgoing := [Sync_Settings configured];
               ep_staged := None; ep_dirty := false |}.

(** The largest pending sequence: [pending.iter().map(..).max()]. *)
Definition latest_pending (ops : list NotificationOperation) : option Z :=
  foldr (fun op acc => Some (match acc with
                             | Some n => Z.max (op_sequence op) n
                             | None => op_sequence op
                             end)) None ops.

(** What a woken link queues for its peer. *)
Definition refill (e : Endpoint) : Endpoint :=
  let state := ep_store e in
  let changed := if ep_dirty e then ep_changed e else false in
  if ep_is_coordinator e then
    set_wakeup (ep_sent_through e) changed false
      (set_outgoing (ep_outgoing e ++ [Sync_SnapshotStart (epoch state)]
                     ++ (Sync_Record <$> records state) ++ [Sync_SnapshotEnd]) e)
  else
    let unsent := List.filter (fun op => ep_sent_through e <? op_sequence op)
                    (pending_operations state) in
    let through := match latest_pending (pending_operations state) with
                   | Some latest => Z.max (ep_sent_through e) latest
                   | None => ep_sent_through e
                   end in
    set_wakeup through changed false (set_outgoing (ep_outgoing e ++ (Sync_Submit <$> unsent)) e).

(** [rx/notification_hub 1063-1101 NotificationLink::next]: [None] when it waits.  A pass of the
    loop consumes [dirty] or a change, so two refills are the most it makes. *)
Fixpoint link_next_loop (fuel : nat) (e : Endpoint) : Endpoint * option NotificationSync :=
  match ep_outgoing e with
  | event :: rest => (set_outgoing rest e, Some event)
  | [] =>
      if negb (ep_active e) then (e, None)
      else if negb (ep_dirty e) && negb (ep_changed e) then (e, None)
      else match fuel with
           | O => (e, None)
           | S fuel => link_next_loop fuel (refill e)
           end
  end.
Definition link_next (e : Endpoint) : Endpoint * option NotificationSync := link_next_loop 2 e.

Section Receiving.
(** The outcome of [NotificationHub::persist] for a store. *)
Context (persist : Store -> result unit string).

(** Persist, then adopt and publish a new store. *)
Definition commit_store (next : Store) : stateful Endpoint string unit :=
  do! st_lift (persist next);;
  e <-! st_get;;
  st_put (publish (set_store next e)).

(** [rx/notification_hub 1102-1203 NotificationLink::receive] *)
Definition link_receive (event : NotificationSync) : stateful Endpoint string unit :=
  e <-! st_get;;
  match event with
  | Sync_Settings configured =>
      do! st_ensure (str_eqb configured (ep_coordinator e))
            "History owner differs between PCs. Choose the same computer in Notifications settings on both PCs"%string;;
      st_put (set_active true e)
  | _ =>
      do! st_ensure (ep_active e) "Notification peer did not confirm the history owner"%string;;
      match event, ep_is_coordinator e with
      | Sync_Submit operation, true =>
          r <-! st_lift (store_apply (ep_store e) (ep_peer e) operation);;
          do! (if r.2 : bool then commit_store r.1 else st_ret tt);;
          e <-! st_get;;
          do! st_ensure (len (ep_outgoing e) <? MAX_RECORDS + MAX_PENDING + 4)
                "notification output queue full"%string;;
          st_put (set_outgoing (ep_outgoing e ++ [Sync_Ack (op_sequence operation)]) e)
      | Sync_Ack sequence, false =>
          let state := ep_store e in
          match List.find (fun op => op_sequence op =? sequence) (pending_operations state) with
          | None => st_ret tt
          | Some op =>
              let next := with_pending_operations
                            (List.filter (fun op => negb (op_sequence op =? sequence))
                               (pending_operations state)) state in
              r <-! st_lift (store_apply next (ep_identity e) op);;
              commit_store r.1
          end
      | Sync_SnapshotStart snapshot_epoch, false =>
          do! st_ensure ((str_len snapshot_epoch =? 32)
                         && all_bytes is_ascii_hexdigit snapshot_epoch)
                "invalid coordinator store epoch"%string;;
          do! st_ensure (str_is_empty (epoch (ep_store e))
                         || str_eqb (epoch (ep_store e)) snapshot_epoch)
                "coordinator store reset; explicit recovery required"%string;;
          do! st_ensure (bool_decide (ep_staged e = None)) "nested notification snapshot"%string;;
          st_put (set_staged (Some (snapshot_epoch, [])) e)
      | Sync_Record record, false =>
          do! st_lift (validate_key (rec_key record));;
          do! st_lift (match rec_content record with
                       | Some content => validate_content content
                       | None => Ok tt
                       end);;
          match ep_staged e with
          | None => st_fail "notification record outside snapshot"%string
          | Some (snapshot_epoch, staged) =>
              do! st_ensure ((len staged <? MAX_RECORDS)
                             && negb (existsb (is_key (rec_key record)) staged))
                    "notification snapshot capacity/duplicate key"%string;;
              st_put (set_staged (Some (snapshot_epoch, staged ++ [record])) e)
          end
      | Sync_SnapshotEnd, false =>
          do! st_put (set_staged None e);;
          match ep_staged e with
          | None => st_fail "notification snapshot end without start"%string
          | Some (snapshot_epoch, staged) =>
              if str_eqb (epoch (ep_store e)) snapshot_epoch
                 && bool_decide (records (ep_store e) = staged)
              then st_ret tt
              else commit_store (with_records staged
                     (with_owner (coordinator (ep_store e)) snapshot_epoch (ep_store e)))
          end
      | _, _ => st_fail "notification event from incorrect authority"%string
      end
  end.

Fixpoint link_receive_all (events : list NotificationSync) : stateful Endpoint string unit :=
  match events with
  | [] => st_ret tt
  | e :: events => do! link_receive e;; link_receive_all events
  end.
End Receiving.

(** The events a link produces until it waits. *)
Fixpoint link_drain (fuel : nat) (e : Endpoint) : Endpoint * list NotificationSync :=
  match fuel with
  | O => (e, [])
  | S fuel =>
      match link_next e with
      | (e', Some event) => let r := link_drain fuel e' in (r.1, event :: r.2)
      | (e', None) => (e', [])
      end
  end.

(** ** Starting the hub *)

(** [rx/notification_hub 554-606 NotificationHub::start]: the store a hub starts from, given the
    one on disk, the configured coordinator and a fresh epoch. *)
Definition hub_start (on_disk : option Store) (identity configured new_epoch : string) :
  result Store string :=
  match on_disk with
  | None =>
      Ok (with_owner configured (if str_eqb configured identity then new_epoch else EmptyString)
            {| coordinator := ""; epoch := ""; local_identity := identity; store_sequence := 0;
               records := []; pending_operations := []; phone_instances := ∅;
               imported_phones := ∅ |})
  | Some state =>
      ensure! str_eqb (local_identity state) identity
        else "notification identity changed; explicit migration required"%string;;
      let? state :=
        (if str_eqb (coordinator state) configured then Ok state
         else
           ensure! negb (coordinator_locked state)
             else "notification history owner changed; explicit migration required"%string;;
           let state := with_owner configured (epoch state) state in
           if str_eqb (coordinator state) identity then
             let? state := fold_left (fun acc operation =>
                             let? s := acc in
                             let? r := store_apply s identity operation in Ok r.1)
                           (pending_operations state)
                           (Ok (with_pending_operations [] state)) in
             Ok (with_owner configured new_epoch state)
           else Ok state) in
      ensure! (len (records state) <=? MAX_RECORDS)
              && (len (pending_operations state) <=? MAX_PENDING)
        else "notification store limits exceeded"%string;;
      Ok state
  end.

(** ** Lemmas *)

Section Link.
Context (persist : Store -> result unit string).

Ltac receive_unfold :=
  unfold link_receive, commit_store, st_bind, st_get, st_put, st_ret, st_fail, st_ensure, st_lift.

(** A queue is emptied one event per call. *)
Lemma drain_queue events e :
  ep_outgoing e = events -> forall fuel,
  link_drain (length events + fuel) e
  = let r := link_drain fuel (set_outgoing [] e) in (r.1, events ++ r.2).
Proof.
  revert e. induction events as [|event events IH]; intros e Ho fuel.
  - assert (set_outgoing [] e = e) as -> by (destruct e; simpl in *; by subst).
    simpl. by destruct (link_drain fuel e).
  - cbn [length Nat.add link_drain]. unfold link_next, link_next_loop at 1. rewrite Ho.
    rewrite (IH (set_outgoing events e)) by done.
    change (set_outgoing [] (set_outgoing events e)) with (set_outgoing [] e).
    by destruct (link_drain fuel (set_outgoing [] e)).
Qed.

(** An active link with an empty queue and a change to report sends its refill, then waits. *)
Lemma drain_refill e fuel :
  ep_active e = true -> ep_outgoing e = [] -> ep_changed e = true -> ep_dirty e = false ->
  ep_outgoing (refill e) <> [] ->
  link_drain (length (ep_outgoing (refill e)) + S fuel) e
  = (set_outgoing [] (refill e), ep_outgoing (refill e)).
Proof.
  intros Ha Ho Hc Hd Hne.
  assert (link_next e = link_next_loop 1 (refill e)) as Hn.
  { unfold link_next. cbn [link_next_loop]. by rewrite Ho, Ha, Hc, Hd. }
  assert (link_next (refill e) = link_next_loop 1 (refill e)) as Hn'.
  { unfold link_next. cbn [link_next_loop]. by destruct (ep_outgoing (refill e)). }
  assert (forall n, link_drain (S n) e = link_drain (S n) (refill e)) as Hdr.
  { intros n. cbn [link_drain]. by rewrite Hn, Hn'. }
  rewrite <- plus_n_Sm, Hdr, plus_n_Sm, (drain_queue (ep_outgoing (refill e))) by done.
  assert (link_next (set_outgoing [] (refill e)) = (set_outgoing [] (refill e), None)) as Hw.
  { unfold link_next. cbn [link_next_loop ep_outgoing set_outgoing].
    assert (ep_dirty (set_outgoing [] (refill e)) = false
            /\ ep_changed (set_outgoing [] (refill e)) = false) as [-> ->]
      by (unfold refill; rewrite Hd; by destruct (ep_is_coordinator e)).
    by destruct (negb _). }
  cbn [link_drain]. rewrite Hw. simpl. by rewrite app_nil_r.
Qed.

(** Adopting the records of a snapshot one by one. *)
Lemma records_received se rs : forall staged e,
  ep_active e = true -> ep_is_coordinator e = false -> ep_staged e = Some (se, staged) ->
  Forall valid_record rs -> NoDup (record_keys (staged ++ rs)) ->
  len (staged ++ rs) <= MAX_RECORDS ->
  link_receive_all persist (Sync_Record <$> rs) e
  = (set_staged (Some (se, staged ++ rs)) e, Ok tt).
Proof.
  induction rs as [|r rs IH]; intros staged e Ha Hc Hs Hv Hnd Hlen.
  - simpl. rewrite app_nil_r. unfold st_ret. f_equal. destruct e; simpl in *; by subst.
  - apply Forall_cons in Hv as [[Hk Hcont] Hv].
    rewrite fmap_cons. cbn [link_receive_all]. unfold st_bind at 1.
    assert (link_receive persist (Sync_Record r) e
            = (set_staged (Some (se, staged ++ [r])) e, Ok tt)) as ->.
    { receive_unfold. rewrite Ha, Hc. rewrite Hk.
      assert (match rec_content r with Some c => validate_content c | None => Ok tt end = Ok tt)
        as -> by (destruct (rec_content r); auto).
      rewrite Hs.
      assert (len staged <? MAX_RECORDS = true) as ->.
      { apply Z.ltb_lt. rewrite len_app, len_cons in Hlen. pose proof (len_nonneg rs). lia. }
      assert (existsb (is_key (rec_key r)) staged = false) as ->; [|done].
      apply not_true_is_false. intros (r' & Hin & Hr')%existsb_exists.
      unfold is_key in Hr'. reflect_bools. unfold record_keys in Hnd.
      rewrite fmap_app, fmap_cons in Hnd. apply NoDup_app in Hnd as (_ & Hdis & _).
      apply (Hdis (rec_key r)); [|by left]. rewrite <- Hr'. apply list_elem_of_fmap_2.
      by apply list_elem_of_In. }
    rewrite (IH (staged ++ [r])); rewrite <- ?app_assoc; done.
Qed.

Lemma receive_all_app es es' e e1 :
  link_receive_all persist es e = (e1, Ok tt) ->
  link_receive_all persist (es ++ es') e = link_receive_all persist es' e1.
Proof.
  revert e. induction es as [|ev es IH]; intros e He; simpl in *.
  - unfold st_ret in He. by simplify_eq.
  - unfold st_bind in *. destruct (link_receive persist ev e) as [e2 [u|err]]; [|done].
    by apply IH.
Qed.

Lemma commit_store_cases next e e' r :
  commit_store persist next e = (e', r) ->
  (r = Ok tt /\ persist next = Ok tt /\ e' = publish (set_store next e))
  \/ (exists x, r = Err x /\ e' = e).
Proof.
  unfold commit_store, st_bind, st_lift, st_get, st_put.
  destruct (persist next) as [[]|x]; intros [= <- <-]; [by left|right; by exists x].
Qed.

(** ** Properties *)

(** C25. A snapshot replicates the history exactly: when a coordinator has changes to report,
    its link sends a finite sequence of events and then waits, and a replica that has agreed
    on the owner, follows the same epoch (or none yet) and can write its store accepts all of
    them and ends with the coordinator's records and epoch and its own outbox untouched. *)
Theorem snapshot_replicates_history (c r : Endpoint)
    (Hc : ep_is_coordinator c = true /\ ep_active c = true /\ ep_outgoing c = []
          /\ ep_changed c = true /\ ep_dirty c = false)
    (Hstore : store_ok (ep_store c))
    (Hepoch : str_len (epoch (ep_store c)) = 32
              /\ all_bytes is_ascii_hexdigit (epoch (ep_store c)) = true)
    (Hr : ep_is_coordinator r = false /\ ep_active r = true /\ ep_staged r = None)
    (Hsame : epoch (ep_store r) = EmptyString \/ epoch (ep_store r) = epoch (ep_store c))
    (Hpersist : forall s, persist s = Ok tt) :
  exists c' events r',
    link_drain (length (records (ep_store c)) + 3) c = (c', events)
    /\ link_next c' = (c', None)
    /\ link_receive_all persist events r = (r', Ok tt)
    /\ records (ep_store r') = records (ep_store c)
    /\ epoch (ep_store r') = epoch (ep_store c)
    /\ pending_operations (ep_store r') = pending_operations (ep_store r)
    /\ ep_staged r' = None.
Proof.
  destruct Hc as (C1 & C2 & C3 & C4 & C5), Hr as (R1 & R2 & R3), Hepoch as [E1 E2].
  set (rs := records (ep_store c)) in *. set (se := epoch (ep_store c)) in *.
  assert (ep_outgoing (refill c)
          = Sync_SnapshotStart se :: (Sync_Record <$> rs) ++ [Sync_SnapshotEnd]) as Hout
    by (unfold refill; rewrite C1; simpl; by rewrite C3).
  pose proof (drain_refill c 0 C2 C3 C4 C5 ltac:(by rewrite Hout)) as Hdrain.
  assert (length (ep_outgoing (refill c)) + 1 = length rs + 3)%nat as Hlen.
  { rewrite Hout. cbn [length]. rewrite length_app, length_fmap. simpl. lia. }
  rewrite Hlen, Hout in Hdrain.
  assert (link_next (set_outgoing [] (refill c)) = (set_outgoing [] (refill c), None)) as Hw.
  { unfold link_next. cbn [link_next_loop ep_outgoing set_outgoing].
    assert (ep_dirty (set_outgoing [] (refill c)) = false
            /\ ep_changed (set_outgoing [] (refill c)) = false) as [-> ->]
      by (unfold refill; rewrite C5; by destruct (ep_is_coordinator c)).
    by destruct (negb _). }
  set (r1 := set_staged (Some (se, [])) r).
  assert (link_receive persist (Sync_SnapshotStart se) r = (r1, Ok tt)) as Hstart.
  { receive_unfold. rewrite R2, R1. rewrite (proj2 (Z.eqb_eq _ _) E1), E2. cbn [andb].
    assert (str_is_empty (epoch (ep_store r)) || str_eqb (epoch (ep_store r)) se = true) as ->.
    { destruct Hsame as [-> | ->]; [done|]. rewrite str_eqb_refl. apply orb_true_r. }
    by rewrite R3. }
  pose proof (records_received se rs [] r1 R2 R1 eq_refl (ok_valid _ Hstore)
    (ok_keys _ Hstore) (ok_records _ Hstore)) as Hrecs.
  simpl in Hrecs. set (r2 := set_staged (Some (se, rs)) r1) in *.
  assert (exists r3, link_receive persist Sync_SnapshotEnd r2 = (r3, Ok tt)
    /\ records (ep_store r3) = rs /\ epoch (ep_store r3) = se
    /\ pending_operations (ep_store r3) = pending_operations (ep_store r)
    /\ ep_staged r3 = None) as (r3 & Hend & F).
  { receive_unfold. unfold r2, r1; simpl. rewrite R2.
    change (ep_is_coordinator (set_staged _ (set_staged _ r))) with (ep_is_coordinator r).
    rewrite R1. destruct (str_eqb (epoch (ep_store r)) se && bool_decide _) eqn:E.
    - eexists. split; [reflexivity|]. simpl. reflect_bools. done.
    - rewrite Hpersist. eexists. split; [reflexivity|]. done. }
  exists (set_outgoing [] (refill c)), (Sync_SnapshotStart se :: (Sync_Record <$> rs)
                                        ++ [Sync_SnapshotEnd]), r3.
  split; [exact Hdrain|]. split; [exact Hw|]. split; [|exact F].
  cbn [link_receive_all]. unfold st_bind at 1. rewrite Hstart.
  rewrite (receive_all_app _ _ _ _ Hrecs). simpl. unfold st_bind. by rewrite Hend.
Qed.

(** The store changes only by authority and only durably: an event changes it only after
    the owner was agreed on, and only as a submission at the coordinator or as an
    acknowledgement or the end of a snapshot at a replica; the new store has been written
    to disk; and an event that fails leaves the store alone or, if its reply could not be
    queued, already durable. *)
Theorem store_changes_by_authority (event : NotificationSync) (e e' : Endpoint)
    (r : result unit string)
    (Hreceive : link_receive persist event e = (e', r))
    (Hchanged : ep_store e' <> ep_store e) :
  ep_active e = true /\ persist (ep_store e') = Ok tt
  /\ ((exists op, event = Sync_Submit op /\ ep_is_coordinator e = true
         /\ exists b, store_apply (ep_store e) (ep_peer e) op = Ok (ep_store e', b))
      \/ ep_is_coordinator e = false
         /\ ((exists n, event = Sync_Ack n)
             \/ event = Sync_SnapshotEnd
                /\ exists se rs, ep_staged e = Some (se, rs)
                   /\ records (ep_store e') = rs /\ epoch (ep_store e') = se)).
Proof.
  revert Hreceive. unfold link_receive, st_bind, st_get, st_put, st_ret, st_fail, st_ensure,
    st_lift.
  destruct event as [op|n|se|rec| |owner];
    try (destruct (ep_active e) eqn:Ha; [|intros [= <- _]; done]);
    try (destruct (ep_is_coordinator e) eqn:Hco); try (intros [= <- _]; done).
  - destruct (store_apply _ _ op) as [[s b]|] eqn:Ea; [|intros [= <- _]; done].
    cbn [fst snd]. destruct b.
    + cbn -[commit_store Z.add]. destruct (commit_store persist s e) as [e1 r1] eqn:Ecs.
      apply commit_store_cases in Ecs as [(-> & Hp & ->)|(x & -> & ->)];
        [|intros [= <- _]; done].
      intros H. assert (ep_store e' = s) as Es
        by (destruct (len _ <? _); injection H as <- _; done).
      rewrite Es. split_and!; [done|done|]. left. exists op. split_and!; [done|done|by exists true].
    + cbn -[Z.add]. intros H. destruct (_ <? _); injection H as <- _; done.
  - destruct (List.find _ _) as [op|]; [|intros [= <- _]; done].
    destruct (store_apply _ _ op) as [[s b]|] eqn:Ea; [|intros [= <- _]; done].
    intros [(-> & Hp & ->)|(x & -> & ->)]%commit_store_cases; [|done].
    split_and!; [done|done|]. right. split; [done|]. left. by exists n.
  - intros H. destruct (_ && _); [|injection H as <- _; done].
    destruct (_ || _); [|injection H as <- _; done].
    destruct (bool_decide _); injection H as <- _; done.
  - intros H. destruct (validate_key _); [|injection H as <- _; done].
    destruct (match rec_content rec with Some _ => _ | None => _ end);
      [|injection H as <- _; done].
    destruct (ep_staged e) as [[se rs]|]; [|injection H as <- _; done].
    destruct (_ && _); injection H as <- _; done.
  - destruct (ep_staged e) as [[se rs]|]; [|intros [= <- _]; done].
    destruct (_ && _); [intros [= <- _]; done|].
    intros [(-> & Hp & ->)|(x & -> & ->)]%commit_store_cases; [|done].
    split_and!; [done|done|]. right. split; [done|]. right. split; [done|].
    by exists se, rs.
  - intros H. destruct (str_eqb _ _); injection H as <- _; done.
  - intros H. destruct (str_eqb _ _); injection H as <- _; done.
Qed.

Lemma same_key (ops : list NotificationOperation) o o' :
  NoDup (op_key <$> ops) -> In o ops -> In o' ops -> op_key o = op_key o' -> o = o'.
Proof.
  intros Hnd Ho Ho' E. apply list_elem_of_In, list_elem_of_lookup in Ho as [i Hi].
  apply list_elem_of_In, list_elem_of_lookup in Ho' as [j Hj].
  assert (i = j) as ->; [|congruence].
  apply (NoDup_lookup (op_key <$> ops) i j (op_key o)); [done| |];
    rewrite list_lookup_fmap, ?Hi, ?Hj; simpl; congruence.
Qed.

Lemma find_by_key (ops : list NotificationOperation) key op :
  NoDup (op_key <$> ops) -> In op ops -> op_key op = key ->
  List.find (fun o => bool_decide (op_key o = key)) ops = Some op.
Proof.
  intros Hnd Hin Hk.
  destruct (List.find (fun o => bool_decide (op_key o = key)) ops) as [o|] eqn:E.
  - apply List.find_some in E as [Ho E]. reflect_bools. f_equal. eapply same_key; eauto.
    congruence.
  - eapply List.find_none in E; [|exact Hin]. by rewrite bool_decide_true in E.
Qed.

Lemma find_removed key n ops op :
  NoDup (op_sequence <$> ops) ->
  List.find (fun o => op_sequence o =? n) ops = Some op ->
  List.find (fun o => bool_decide (op_key o = key))
    (List.filter (fun o => negb (op_sequence o =? n)) ops)
  = if bool_decide (op_key op = key)
    then List.find (fun o => bool_decide (op_key o = key))
           (List.filter (fun o => negb (op_sequence o =? n)) ops)
    else List.find (fun o => bool_decide (op_key o = key)) ops.
Proof.
  intros Hnd Hf. case_bool_decide as Hk; [done|]. revert Hnd Hf.
  induction ops as [|o ops IH]; [done|]. rewrite fmap_cons, NoDup_cons. intros [Hn Hnd].
  simpl. destruct (Z.eqb_spec (op_sequence o) n) as [E|E]; simpl.
  - intros [= ->]. rewrite bool_decide_false by done. f_equal.
    clear IH. induction ops as [|o ops IH]; [done|]. rewrite fmap_cons in Hn. simpl.
    rewrite (proj2 (Z.eqb_neq _ _)) by set_solver. simpl. f_equal. apply IH; [set_solver|].
    rewrite fmap_cons, NoDup_cons in Hnd. apply Hnd.
  - intros Hf. case_bool_decide; [done|]. by apply IH.
Qed.

Lemma filter_removed_length n ops op :
  List.find (fun o => op_sequence o =? n) ops = Some op ->
  len (List.filter (fun o => negb (op_sequence o =? n)) ops) + 1 <= len ops.
Proof.
  induction ops as [|o ops IH]; [done|]. simpl. destruct (op_sequence o =? n); simpl; intros H.
  - rewrite len_cons. pose proof (len_filter_le (fun o => negb (op_sequence o =? n)) ops). lia.
  - rewrite !len_cons. apply IH in H. lia.
Qed.

Lemma filter_keys_nodup n ops :
  NoDup (op_key <$> ops) ->
  NoDup (op_key <$> List.filter (fun o => negb (op_sequence o =? n)) ops).
Proof.
  induction ops as [|o ops IH]; [done|]. rewrite fmap_cons, NoDup_cons. intros [Hn Hnd].
  simpl. destruct (negb _); [|by apply IH]. rewrite fmap_cons, NoDup_cons.
  split; [|by apply IH]. intros (o' & E & Ho)%list_elem_of_fmap. apply Hn. rewrite E.
  apply list_elem_of_fmap_2. rewrite filter_is_filter in Ho.
  by apply list_elem_of_filter in Ho as [_ ?].
Qed.

(** An acknowledgement never makes a local action flicker: at a replica whose history and
    outbox fit the limit together, the operation leaves the outbox and every notification
    looks, in the view shown to the user, exactly as before. *)
Theorem acknowledged_operation_stays_visible (e e' : Endpoint) (n : Z) (op : NotificationOperation)
    (key : NotificationKey)
    (Hreceive : link_receive persist (Sync_Ack n) e = (e', Ok tt))
    (Hreplica : ep_is_coordinator e = false)
    (Hidentity : ep_identity e = local_identity (ep_store e))
    (Hstore : store_ok (ep_store e))
    (Hroom : len (records (ep_store e)) + len (pending_operations (ep_store e)) <= MAX_RECORDS)
    (Hsequences : NoDup (op_sequence <$> pending_operations (ep_store e)))
    (Hop : List.find (fun o => op_sequence o =? n) (pending_operations (ep_store e)) = Some op) :
  pending_operations (ep_store e')
  = List.filter (fun o => negb (op_sequence o =? n)) (pending_operations (ep_store e))
  /\ List.find (is_key key) (store_view (ep_store e'))
     = List.find (is_key key) (store_view (ep_store e)).
Proof.
  revert Hreceive. unfold link_receive, st_bind, st_get, st_ensure, st_lift, st_ret, st_fail.
  destruct (ep_active e); [|done]. rewrite Hreplica, Hop.
  set (ps := pending_operations (ep_store e)) in *.
  set (ps' := List.filter (fun o => negb (op_sequence o =? n)) ps).
  set (next := with_pending_operations ps' (ep_store e)).
  destruct (store_apply next (ep_identity e) op) as [[s b]|] eqn:Ea; [|done].
  intros [(_ & _ & ->)|(x & ? & _)]%commit_store_cases; [|done].
  cbn [fst publish set_wakeup set_store ep_store].
  assert (s = with_records (records s) next) as Es by (by apply store_apply_cases in Ea as [? _]).
  assert (pending_operations s = ps') as Hps by (by rewrite Es).
  assert (local_identity s = local_identity (ep_store e)) as Hid by (by rewrite Es).
  split; [done|].
  assert (apply_ignoring (ep_identity e) next op = s) as Hign
    by (unfold apply_ignoring; by rewrite Ea).
  pose proof (apply_ignoring_length (ep_identity e) next op) as Hlen. rewrite Hign in Hlen.
  pose proof (filter_removed_length _ _ _ Hop) as Hlen'. fold ps ps' in Hlen'.
  change (records next) with (records (ep_store e)) in Hlen.
  pose proof (len_nonneg ps').
  unfold store_view. rewrite Hps, Hid.
  rewrite !fold_one_record; [|apply Hstore|done|by apply filter_keys_nodup, Hstore|lia].
  pose proof (apply_one_record (ep_identity e) next op key) as Hone. rewrite Hign in Hone.
  change (records next) with (records (ep_store e)) in Hone. specialize (Hone ltac:(lia)).
  pose proof (find_removed key n ps op Hsequences Hop) as Hrem. fold ps' in Hrem.
  fold ps. destruct (decide (op_key op = key)) as [Hk|Hk].
  - rewrite (bool_decide_true _ Hk) in Hone.
    assert (List.find (fun o => bool_decide (op_key o = key)) ps = Some op) as ->.
    { apply find_by_key; [by apply Hstore|by apply List.find_some in Hop as [? _]|done]. }
    assert (List.find (fun o => bool_decide (op_key o = key)) ps' = None) as ->;
      [|by rewrite Hone, Hidentity].
    apply find_none_forall. intros o Ho. apply bool_decide_eq_false. intros Hk'.
    apply List.filter_In in Ho as [Ho Hne]. apply List.find_some in Hop as [Hin Hn].
    assert (o = op) as -> by (eapply same_key; eauto; [apply Hstore|congruence]).
    by rewrite Hn in Hne.
  - rewrite (bool_decide_false _ Hk) in Hone, Hrem. by rewrite Hone, Hrem.
Qed.
End Link.

(** ** Bounded reception of a snapshot *)

(** [rx/notification_hub 1229-1233 IncomingSnapshot], with the bytes its [ByteBudget] holds. *)
Record IncomingSnapshot := {
  snap_epoch : string;
  snap_records : list NotificationRecord;
  snap_bytes : Z;
}.

(** [rx/notification_hub 1234-1237 IncomingNotification] *)
Inductive IncomingNotification :=
| Incoming_Event (event : NotificationSync)
| Incoming_Snapshot (snapshot : IncomingSnapshot).

(** [rx/notification_hub 1239-1248 SessionLink]: the snapshot being staged, the shared byte
    counter, and the budgets of the snapshots handed to the worker. *)
Record SessionLink := {
  session_staged : option IncomingSnapshot;
  buffered_bytes : Z;
  in_worker : list Z;
}.

(** [rx/notification_hub 1211-1222 ByteBudget::reserve] *)
Definition budget_reserve (shared bytes : Z) : result Z string :=
  match checked_add usize_max shared bytes with
  | Some total => if total <=? MAX_STORE_BYTES then Ok total
                  else Err "Notification snapshot buffer is full; reconnect to retry"%string
  | None => Err "Notification snapshot buffer is full; reconnect to retry"%string
  end.

(** [rx/notification_hub 1225-1227 ByteBudget::drop] *)
Definition budget_drop (shared bytes : Z) : Z := wrapping_sub usize_max shared bytes.

(** The size [enqueue] accounts a record at. *)
Definition record_bytes (r : NotificationRecord) : Z :=
  str_len (key_origin (rec_key r)) + str_len (key_instance (rec_key r)) + 256
  + match rec_content r with
    | Some c => str_len (sn_app_name c) + str_len (sn_title c) + str_len (sn_body c)
                + str_len (sn_icon c)
                + match sn_icon_png c with Some icon => len icon | None => 0 end
    | None => 0
    end.

(** [rx/notification_hub 1250-1311 SessionLink::enqueue]; [accepts] is whether the worker's
    queue takes the request, which drops it otherwise. *)
Definition session_enqueue (accepts : bool) (event : NotificationSync) :
  stateful SessionLink string (option IncomingNotification) :=
  s <-! st_get;;
  match event with
  | Sync_SnapshotStart e =>
      do! st_ensure (bool_decide (is_Some (session_staged s) -> False))
            "nested notification snapshot"%string;;
      do! st_ensure (str_len e =? 32) "invalid notification snapshot epoch"%string;;
      do! st_put {| session_staged := Some {| snap_epoch := e; snap_records := [];
                                              snap_bytes := 0 |};
                    buffered_bytes := buffered_bytes s; in_worker := in_worker s |};;
      st_ret None
  | Sync_Record record =>
      match session_staged s with
      | None => st_fail "notification record outside snapshot"%string
      | Some snapshot =>
          do! st_ensure (len (snap_records snapshot) <? MAX_RECORDS)
                "notification snapshot too large"%string;;
          total <-! st_lift (budget_reserve (buffered_bytes s) (record_bytes record));;
          do! st_put {| session_staged :=
                          Some {| snap_epoch := snap_epoch snapshot;
                                  snap_records := snap_records snapshot ++ [record];
                                  snap_bytes := snap_bytes snapshot + record_bytes record |};
                        buffered_bytes := total; in_worker := in_worker s |};;
          st_ret None
      end
  | Sync_SnapshotEnd =>
      match session_staged s with
      | None => st_fail "notification snapshot end without start"%string
      | Some snapshot =>
          if accepts then
            do! st_put {| session_staged := None; buffered_bytes := buffered_bytes s;
                          in_worker := in_worker s ++ [snap_bytes snapshot] |};;
            st_ret (Some (Incoming_Snapshot snapshot))
          else
            do! st_put {| session_staged := None;
                          buffered_bytes := budget_drop (buffered_bytes s) (snap_bytes snapshot);
                          in_worker := in_worker s |};;
            st_fail "Notification worker queue is full; reconnect to retry"%string
      end
  | event =>
      do! st_ensure (bool_decide (is_Some (session_staged s) -> False))
            "notification control interrupted a snapshot"%string;;
      if accepts then st_ret (Some (Incoming_Event event))
      else st_fail "Notification worker queue is full; reconnect to retry"%string
  end.

(** The worker commits the oldest snapshot it holds and drops its budget. *)
Definition worker_release (s : SessionLink) : SessionLink :=
  match in_worker s with
  | [] => s
  | bytes :: rest =>
      {| session_staged := session_staged s;
         buffered_bytes := budget_drop (buffered_bytes s) bytes; in_worker := rest |}
  end.

Inductive session_op := Session_enqueue (accepts : bool) (event : NotificationSync)
                      | Session_release.
Definition run_session_op (s : SessionLink) (o : session_op) : SessionLink :=
  match o with
  | Session_enqueue accepts event => (session_enqueue accepts event s).1
  | Session_release => worker_release s
  end.

Definition sum_bytes (bs : list Z) : Z := foldr Z.add 0 bs.

(** The counter is exactly what is held. *)
Record session_ok (s : SessionLink) : Prop := {
  so_counter : buffered_bytes s
    = sum_bytes (in_worker s) + match session_staged s with
                                | Some snapshot => snap_bytes snapshot
                                | None => 0
                                end;
  so_worker : Forall (fun b => 0 <= b) (in_worker s);
  so_staged : forall snapshot, session_staged s = Some snapshot ->
    snap_bytes snapshot = sum_bytes (record_bytes <$> snap_records snapshot)
    /\ len (snap_records snapshot) <= MAX_RECORDS;
  so_bound : buffered_bytes s <= MAX_STORE_BYTES;
}.

Lemma record_bytes_pos r : 256 <= record_bytes r.
Proof.
  unfold record_bytes.
  assert (0 <= match rec_content r with
               | Some c => str_len (sn_app_name c) + str_len (sn_title c) + str_len (sn_body c)
                           + str_len (sn_icon c)
                           + match sn_icon_png c with Some icon => len icon | None => 0 end
               | None => 0 end).
  { destruct (rec_content r) as [c|]; [|lia].
    pose proof (str_len_nonneg (sn_app_name c)). pose proof (str_len_nonneg (sn_title c)).
    pose proof (str_len_nonneg (sn_body c)). pose proof (str_len_nonneg (sn_icon c)).
    destruct (sn_icon_png c) as [i|]; [pose proof (len_nonneg i)|]; lia. }
  pose proof (str_len_nonneg (key_origin (rec_key r))).
  pose proof (str_len_nonneg (key_instance (rec_key r))). lia.
Qed.

Lemma sum_bytes_app a b : sum_bytes (a ++ b) = sum_bytes a + sum_bytes b.
Proof. induction a as [|x a IH]; simpl; [lia|]. unfold sum_bytes in *. simpl. lia. Qed.

Lemma sum_bytes_nonneg bs : Forall (fun b => 0 <= b) bs -> 0 <= sum_bytes bs.
Proof. induction 1; unfold sum_bytes in *; simpl; lia. Qed.

Lemma sum_records_nonneg rs : 0 <= sum_bytes (record_bytes <$> rs).
Proof.
  apply sum_bytes_nonneg, Forall_fmap, Forall_true. intros r; simpl.
  pose proof (record_bytes_pos r). lia.
Qed.

Lemma budget_drop_exact shared bytes :
  0 <= bytes <= shared -> shared <= MAX_STORE_BYTES -> budget_drop shared bytes = shared - bytes.
Proof.
  intros. unfold budget_drop, wrapping_sub. apply Z.mod_small.
  unfold MAX_STORE_BYTES, usize_max, u64_max in *. lia.
Qed.

Lemma session_ok_step s o : session_ok s -> session_ok (run_session_op s o).
Proof.
  intros [H1 H2 H3 H4]. pose proof (sum_bytes_nonneg _ H2) as Hw.
  destruct o as [accepts event|]; cbn [run_session_op].
  - unfold session_enqueue, st_bind, st_get, st_put, st_ret, st_fail, st_ensure, st_lift.
    assert (session_ok s) as Hs by done.
    destruct event as [op|n|e|record| |owner];
      try (destruct (bool_decide _); [|done]; by destruct accepts).
    + destruct (bool_decide _) eqn:Eb; [|done]. destruct (_ =? 32); [|done]. reflect_bools.
      destruct (session_staged s) as [sn|] eqn:Es; [destruct Eb; eauto|].
      split; simpl; try done; try lia; intros ? [= <-]; done.
    + destruct (session_staged s) as [sn|] eqn:Es; [|done].
      destruct (H3 sn eq_refl) as [Hb Hl].
      destruct (Z.ltb_spec (len (snap_records sn)) MAX_RECORDS); [|done].
      unfold budget_reserve. destruct (checked_add _ _ _) as [total|] eqn:Et; [|done].
      apply checked_add_Some in Et as [-> _].
      destruct (Z.leb_spec (buffered_bytes s + record_bytes record) MAX_STORE_BYTES); [|done].
      split; simpl; [lia|done| |done]. intros ? [= <-]. simpl.
      rewrite fmap_app, sum_bytes_app, len_app.
      change (sum_bytes (record_bytes <$> [record])) with (record_bytes record + 0).
      change (len [record]) with 1. lia.
    + destruct (session_staged s) as [sn|] eqn:Es; [|done].
      destruct (H3 sn eq_refl) as [Hb Hl]. pose proof (sum_records_nonneg (snap_records sn)).
      destruct accepts; simpl; split; simpl; try done; try lia.
      * rewrite sum_bytes_app. change (sum_bytes [snap_bytes sn]) with (snap_bytes sn + 0). lia.
      * apply Forall_app. split; [done|]. constructor; [lia|constructor].
      * rewrite budget_drop_exact by lia. lia.
      * rewrite budget_drop_exact by lia. lia.
  - unfold worker_release. destruct (in_worker s) as [|b rest] eqn:Ew; [by split; rewrite ?Ew|].
    apply Forall_cons in H2 as [Hb Hr]. pose proof (sum_bytes_nonneg _ Hr).
    change (sum_bytes (b :: rest)) with (b + sum_bytes rest) in *.
    assert (0 <= match session_staged s with Some sn => snap_bytes sn | None => 0 end).
    { destruct (session_staged s) as [sn|]; [|lia]. destruct (H3 sn eq_refl) as [-> _].
      apply sum_records_nonneg. }
    split; simpl; rewrite ?budget_drop_exact by lia; try done; lia.
Qed.

Definition SessionLink_new : SessionLink :=
  {| session_staged := None; buffered_bytes := 0; in_worker := [] |}.

(** Receiving snapshots is bounded in memory: whatever a peer sends and however slowly the
    worker writes, the snapshots staged and waiting never hold more than [MAX_STORE_BYTES]
    accounted bytes, nor one more than [MAX_RECORDS] records, and the shared counter is
    exactly the bytes held: no budget is lost or returned twice. *)
Theorem snapshot_memory_is_bounded (ops : list session_op) :
  let s := fold_left run_session_op ops SessionLink_new in
  buffered_bytes s <= MAX_STORE_BYTES
  /\ buffered_bytes s = sum_bytes (in_worker s)
       + match session_staged s with
         | Some snapshot => sum_bytes (record_bytes <$> snap_records snapshot)
         | None => 0
         end
  /\ (forall snapshot, session_staged s = Some snapshot ->
        len (snap_records snapshot) <= MAX_RECORDS).
Proof.
  intros s. assert (session_ok s) as [H1 _ H3 H4].
  { unfold s. assert (session_ok SessionLink_new) as H0 by (by split; try constructor).
    revert H0. generalize SessionLink_new.
    induction ops as [|o ops IH]; intros s0 Hs0; [done|]. by apply IH, session_ok_step. }
  split_and!; [done| |by intros ? [_ ?]%H3]. rewrite H1.
  destruct (session_staged s) as [sn|]; [|done]. by destruct (H3 sn eq_refl) as [<- _].
Qed.

(** ** Examples *)

Definition sample_epoch : string := "0123456789abcdef0123456789abcdef"%string.

(** The history of a coordinator that has imported one notification. *)
Definition sample_history : Store :=
  with_owner sample_origin sample_epoch
    (apply_ignoring sample_origin Store_default (sample_post 1 "m1" "hello")).

(** A replica of identity [other] with a removal of that notification in its outbox. *)
Definition sample_replica : Store :=
  {| coordinator := sample_origin; epoch := sample_epoch; local_identity := "other";
     store_sequence := 1; records := records sample_history;
     pending_operations := [sample_removal 1 "m1"];
     phone_instances := ∅; imported_phones := ∅ |}.

Definition sample_endpoint (identity peer : string) (store : Store) : Endpoint :=
  {| ep_identity := identity; ep_coordinator := sample_origin; ep_peer := peer;
     ep_store := store; ep_active := true; ep_sent_through := 0; ep_changed := true;
     ep_outgoing := []; ep_staged := None; ep_dirty := false |}.

Lemma sample_history_ok : store_ok sample_history.
Proof.
  assert (store_ok (apply_ignoring sample_origin Store_default (sample_post 1 "m1" "hello")))
    as [H1 H2 H3 H4 H5] by (by apply apply_ignoring_ok, Store_default_ok).
  by split.
Qed.

Lemma sample_replica_ok : store_ok sample_replica.
Proof.
  destruct sample_history_ok as [H1 H2 _ _ H5].
  split; [exact H1|exact H2|apply NoDup_singleton|vm_compute; congruence|exact H5].
Qed.

Example snapshot_replicates_history_witness :
  exists c' events r',
    link_drain 4 (sample_endpoint sample_origin "other" sample_history) = (c', events)
    /\ link_receive_all (fun _ => Ok tt) events
         (sample_endpoint "other" sample_origin sample_replica) = (r', Ok tt)
    /\ records (ep_store r') = records sample_history.
Proof.
  destruct (snapshot_replicates_history (fun _ => Ok tt)
    (sample_endpoint sample_origin "other" sample_history)
    (sample_endpoint "other" sample_origin sample_replica))
    as (c' & events & r' & H1 & _ & H2 & H3 & _).
  - split_and!; vm_compute; reflexivity.
  - exact sample_history_ok.
  - split; vm_compute; reflexivity.
  - split_and!; vm_compute; reflexivity.
  - right. reflexivity.
  - reflexivity.
  - exists c', events, r'. split_and!; [exact H1|exact H2|exact H3].
Defined.

Example store_changes_by_authority_witness :
  ep_active (sample_endpoint sample_origin "other" sample_history) = true.
Proof.
  apply (store_changes_by_authority (fun _ => Ok tt) (Sync_Submit (sample_removal 1 "m1"))
    (sample_endpoint sample_origin "other" sample_history)
    (link_receive (fun _ => Ok tt) (Sync_Submit (sample_removal 1 "m1"))
       (sample_endpoint sample_origin "other" sample_history)).1
    (link_receive (fun _ => Ok tt) (Sync_Submit (sample_removal 1 "m1"))
       (sample_endpoint sample_origin "other" sample_history)).2).
  - vm_compute. reflexivity.
  - vm_compute. congruence.
Defined.

Example acknowledged_operation_stays_visible_witness :
  let e := sample_endpoint "other" sample_origin sample_replica in
  let e' := (link_receive (fun _ => Ok tt) (Sync_Ack 1) e).1 in
  pending_operations (ep_store e') = []
  /\ List.find (is_key (sample_key "m1")) (store_view (ep_store e'))
     = List.find (is_key (sample_key "m1")) (store_view sample_replica).
Proof.
  apply (acknowledged_operation_stays_visible (fun _ => Ok tt)
    (sample_endpoint "other" sample_origin sample_replica)
    (link_receive (fun _ => Ok tt) (Sync_Ack 1)
       (sample_endpoint "other" sample_origin sample_replica)).1
    1 (sample_removal 1 "m1") (sample_key "m1")).
  - vm_compute. reflexivity.
  - vm_compute. reflexivity.
  - reflexivity.
  - exact sample_replica_ok.
  - vm_compute. congruence.
  - apply NoDup_singleton.
  - vm_compute. reflexivity.
Defined.
