(* ===== verification/Transport.v ===== *)
(** * Sessions: packets, encrypted frames and the Noise handshake

    [crates/edge-crypto/src/lib.rs] (packets and handshake), the framing of
    [crates/edge-protocol/src/lib.rs] and the frame sessions of
    [crates/edge-runtime/src/lib.rs].  The cipher and the handshake are those of
    the [snow] crate and the serialization that of [rmp_serde]: type classes
    whose laws state what the sessions rely on.  A byte stream is the list of the
    bytes that have arrived and were not read; a read that needs more of them
    is [Pending] until they come, or fails when the stream is closed. *)
From S2P Require Export Clipboard.

(** ** Errors *)

Inductive IoError := UnexpectedEof | Io_Other (description : string).

(** [edge-crypto 24-42 CryptoError]; the errors of other crates by their text. *)
Inductive CryptoError :=
| Crypto_Noise (e : string) | InvalidKeyLength (n : Z) | Crypto_Hex (e : string)
| Crypto_Io (e : IoError) | TomlDecode (e : string) | TomlEncode (e : string)
| PacketTooLarge (n : Z) | FingerprintMismatch (expected actual : string).

(** [edge-protocol 31-41 ProtocolError] *)
Inductive ProtocolError :=
| FrameTooLarge (n : Z) | Protocol_Io (e : IoError) | Encode (e : string) | Decode (e : string).

(** [edge-runtime 24-30 RuntimeError] *)
Inductive RuntimeError := Runtime_Crypto (e : CryptoError) | Runtime_Protocol (e : ProtocolError).

(** ** Byte streams *)

(** An asynchronous read: its result and the bytes left. *)
Inductive poll (A : Type) := Pending | Ready (rest : bytes) (a : A).
Arguments Pending {A}.
Arguments Ready {A} rest a.

(** [AsyncReadExt::read_exact]. *)
Definition read_exact (closed : bool) (n : Z) (buf : bytes) : poll (result bytes IoError) :=
  if n <=? len buf then Ready (drop (Z.to_nat n) buf) (Ok (take (Z.to_nat n) buf))
  else if closed then Ready [] (Err UnexpectedEof) else Pending.

(** [AsyncReadExt::read_u32], big-endian. *)
Definition read_u32 (closed : bool) (buf : bytes) : poll (result Z IoError) :=
  match read_exact closed 4 buf with
  | Ready rest r => Ready rest (match r with Ok b => Ok (be_decode b) | Err e => Err e end)
  | Pending => Pending
  end.

(** ** Serialization *)

Class FrameCodec := {
  encode_frame : Frame -> result bytes string;
  decode_frame : bytes -> result Frame string;
}.

(** A frame that serializes deserializes to itself. *)
Class FrameCodecLaws `{FrameCodec} :=
  decode_encode : forall frame payload, encode_frame frame = Ok payload ->
    decode_frame payload = Ok frame.

Section Framing.
Context `{FrameCodec}.

(** [edge-protocol 625-627 fits_secure_frame] *)
Definition fits_secure_frame (frame : Frame) : bool :=
  match encode_frame frame with
  | Ok payload => len payload <=? MAX_SECURE_FRAME_BYTES
  | Err _ => false
  end.

(** [edge-protocol 633-646 write_frame]: the bytes written. *)
Definition write_frame (frame : Frame) : result bytes ProtocolError :=
  let? payload := map_err Encode (encode_frame frame) in
  let? n := ok_or (try_from u32_max (len payload)) (FrameTooLarge u32_max) in
  if MAX_FRAME_BYTES <? n then Err (FrameTooLarge n)
  else Ok (be_encode 4 n ++ payload).

(** [edge-protocol 648-659 read_frame] *)
Definition read_frame (closed : bool) (buf : bytes) : poll (result Frame ProtocolError) :=
  match read_u32 closed buf with
  | Pending => Pending
  | Ready rest (Err e) => Ready rest (Err (Protocol_Io e))
  | Ready rest (Ok n) =>
      if MAX_FRAME_BYTES <? n then Ready rest (Err (FrameTooLarge n))
      else match read_exact closed n rest with
           | Pending => Pending
           | Ready rest (Err e) => Ready rest (Err (Protocol_Io e))
           | Ready rest (Ok payload) => Ready rest (map_err Decode (decode_frame payload))
           end
  end.

(** [edge-runtime 74-84 encode_secure_frame] *)
Definition encode_secure_frame (frame : Frame) : result bytes RuntimeError :=
  let? payload := map_err (fun e => Runtime_Protocol (Encode e)) (encode_frame frame) in
  if MAX_SECURE_FRAME_BYTES <? len payload
  then Err (Runtime_Protocol (FrameTooLarge (Z.min u32_max (len payload))))
  else Ok payload.
End Framing.

(** ** Packets *)

(** [edge-crypto 20-20 MAX_NOISE_PACKET_BYTES] *)
Definition MAX_NOISE_PACKET_BYTES : Z := 65535.
(** [edge-crypto 21-21 NOISE_TAG_BYTES] *)
Definition NOISE_TAG_BYTES : Z := 16.
(** [edge-crypto 22-22 LENGTH_PREFIX_BYTES] *)
Definition LENGTH_PREFIX_BYTES : Z := 4.

(** [edge-crypto 433-435 packet_too_large] *)
Definition packet_too_large (n : Z) : CryptoError := PacketTooLarge (Z.min u32_max n).

(** [edge-crypto 468-479 write_packet]: the packet written. *)
Definition write_packet (payload : bytes) : result bytes CryptoError :=
  if MAX_NOISE_PACKET_BYTES <? len payload then Err (packet_too_large (len payload))
  else Ok (be_encode 4 (truncate_to u32_max (len payload)) ++ payload).

(** [edge-crypto 481-492 read_packet] *)
Definition read_packet (closed : bool) (buf : bytes) : poll (result bytes CryptoError) :=
  match read_u32 closed buf with
  | Pending => Pending
  | Ready rest (Err e) => Ready rest (Err (Crypto_Io e))
  | Ready rest (Ok n) =>
      if MAX_NOISE_PACKET_BYTES <? n then Ready rest (Err (PacketTooLarge n))
      else match read_exact closed n rest with
           | Pending => Pending
           | Ready rest r => Ready rest (map_err Crypto_Io r)
           end
  end.

(** *** The cipher *)

(** [snow::TransportState]: a message is written into, or read into, a buffer of [room] bytes. *)
Class Noise (T : Type) := {
  write_message : T -> bytes -> Z -> T * result bytes string;
  read_message : T -> bytes -> Z -> T * result bytes string;
}.

(** What two ends of a finished handshake promise: [in_step n s r] says that [s] can send [n]
    more messages that [r] will read.  A ciphertext is the message and a 16-byte tag, and the
    two directions of one end do not affect each other. *)
Class NoiseLaws (T : Type) `{Noise T} := {
  in_step : nat -> T -> T -> Prop;
  delivers n s r payload room : in_step (S n) s r -> len payload + 16 <= 65535 ->
    len payload + 16 <= room ->
    exists s' r' cipher, write_message s payload room = (s', Ok cipher)
      /\ len cipher = len payload + 16
      /\ read_message r cipher (len cipher) = (r', Ok payload)
      /\ in_step n s' r';
  read_write t c cr p pr :
    read_message (write_message t p pr).1 c cr
    = ((write_message (read_message t c cr).1 p pr).1, (read_message t c cr).2);
  in_step_read n s r c cr : in_step n s r -> in_step n (read_message s c cr).1 r;
  in_step_write n s r p pr : in_step n s r -> in_step n s (write_message r p pr).1;
}.

Section Sealing.
Context {T : Type} `{Noise T}.

(** [edge-crypto 437-456 seal_packet] *)
Definition seal_packet (plaintext : bytes) : stateful T CryptoError bytes := fun transport =>
  let sealed_len := len plaintext + NOISE_TAG_BYTES in
  if MAX_NOISE_PACKET_BYTES <? sealed_len then (transport, Err (packet_too_large sealed_len))
  else match write_message transport plaintext sealed_len with
       | (transport, Err e) => (transport, Err (Crypto_Noise e))
       | (transport, Ok message) =>
           (transport, Ok (be_encode 4 (truncate_to u32_max (len message)) ++ message))
       end.

(** [edge-crypto 329-338 NoiseReader::read_packet] *)
Definition noise_read_packet (closed : bool) (transport : T) (buf : bytes) :
  poll (T * result bytes CryptoError) :=
  match read_packet closed buf with
  | Pending => Pending
  | Ready rest (Err e) => Ready rest (transport, Err e)
  | Ready rest (Ok encrypted) =>
      let r := read_message transport encrypted (len encrypted) in
      Ready rest (r.1, map_err Crypto_Noise r.2)
  end.
End Sealing.

(** *** Frame sessions *)

Section FrameSession.
Context {T : Type} `{Noise T} `{FrameCodec}.

(** [edge-runtime 100-103 SecureFrameWriter], with the cipher its reader half shares. *)
Record SecureFrameWriter := { cipher_state : T; image_schedule : ImageTransferSchedule }.

(** [edge-runtime 109-114 SecureFrameWriter::write]: the packet written. *)
Definition secure_write (frame : Frame) : stateful SecureFrameWriter RuntimeError bytes := fun w =>
  match encode_secure_frame frame with
  | Err e => (w, Err e)
  | Ok payload =>
      match seal_packet payload (cipher_state w) with
      | (t, Err e) =>
          ({| cipher_state := t; image_schedule := image_schedule w |}, Err (Runtime_Crypto e))
      | (t, Ok packet) =>
          ({| cipher_state := t; image_schedule := record_sent_frame (image_schedule w) frame |},
           Ok packet)
      end
  end.

(** [edge-runtime 94-97 SecureFrameReader::read] *)
Definition secure_read (closed : bool) (t : T) (buf : bytes) :
  poll (T * result Frame RuntimeError) :=
  match noise_read_packet closed t buf with
  | Pending => Pending
  | Ready rest (t, Err e) => Ready rest (t, Err (Runtime_Crypto e))
  | Ready rest (t, Ok payload) =>
      Ready rest (t, map_err (fun e => Runtime_Protocol (Decode e)) (decode_frame payload))
  end.

(** [edge-runtime 116-118 SecureFrameWriter::bulk_is_due] *)
Definition bulk_is_due (w : SecureFrameWriter) : bool := image_chunk_is_due (image_schedule w).
(** [edge-runtime 120-122 SecureFrameWriter::record_received] *)
Definition record_received (frame : Frame) (w : SecureFrameWriter) : SecureFrameWriter :=
  {| cipher_state := cipher_state w;
     image_schedule := record_received_frame (image_schedule w) frame |}.

(** [edge-runtime 51-55 SecureFrameSession::write], before the session is split: the packet. *)
Definition session_write (frame : Frame) : stateful T RuntimeError bytes := fun t =>
  match encode_secure_frame frame with
  | Err e => (t, Err e)
  | Ok payload => let r := seal_packet payload t in (r.1, map_err Runtime_Crypto r.2)
  end.
(** [edge-runtime 46-49 SecureFrameSession::read] *)
Definition session_read := secure_read.
(** [edge-runtime 57-71 SecureFrameSession::split] *)
Definition session_split (t : T) : SecureFrameWriter :=
  {| cipher_state := t; image_schedule := ImageTransferSchedule_default |}.

(** Splitting a session changes nothing but the schedule a writer keeps. *)
Lemma split_write_same frame t :
  let r := secure_write frame (session_split t) in
  let r' := session_write frame t in
  cipher_state r.1 = r'.1 /\ r.2 = r'.2.
Proof.
  unfold secure_write, session_write, session_split. simpl.
  destruct (encode_secure_frame frame) as [p|]; [|done].
  by destruct (seal_packet p t) as [? [|]].
Qed.
End FrameSession.
Arguments SecureFrameWriter T : clear implicits.

(** ** The handshake *)

(** [edge-crypto 46-50 IdentityKey] *)
Record IdentityKey := { private_key : bytes; public_key : bytes }.

(** [snow::HandshakeState] of the pattern Noise_XX_25519_ChaChaPoly_BLAKE2s; its messages are
    written into buffers of the largest message size and carry no payload here. *)
Class NoiseHandshake (H T : Type) := {
  build_initiator : bytes -> result H string;
  build_responder : bytes -> result H string;
  handshake_write : H -> H * result bytes string;
  handshake_read : H -> bytes -> H * result bytes string;
  get_remote_static : H -> option bytes;
  into_transport_mode : H -> result T string;
}.

(** A connection: all the bytes its peer sends, and what was written to it. *)
Record Conn := { conn_in : bytes; conn_out : bytes }.

Section Connecting.
Context {H T : Type} `{NoiseHandshake H T}.
(** The fingerprint of a static public key. *)
Context (fingerprint : bytes -> string).

Definition conn_write_packet (payload : bytes) : stateful Conn CryptoError unit :=
  packet <-! st_lift (write_packet payload);;
  c <-! st_get;;
  st_put {| conn_in := conn_in c; conn_out := conn_out c ++ packet |}.

Definition conn_read_packet : stateful Conn CryptoError bytes := fun c =>
  match read_packet true (conn_in c) with
  | Ready rest r => ({| conn_in := rest; conn_out := conn_out c |}, r)
  | Pending => (c, Err (Crypto_Io UnexpectedEof))
  end.

(** A step of the handshake state, whose failure is a [CryptoError::Noise]. *)
Definition noise_lift {A} (r : H * result A string) : stateful Conn CryptoError (H * A) :=
  st_lift (match r with (h, Ok a) => Ok (h, a) | (_, Err e) => Err (Crypto_Noise e) end).

(** [edge-crypto 494-499 remote_static_fingerprint] *)
Definition remote_static_fingerprint (noise : H) : result string CryptoError :=
  let? remote := ok_or (get_remote_static noise) (InvalidKeyLength 0) in
  Ok (fingerprint remote).

(** [edge-crypto 360-400 initiate_noise_session] *)
Definition initiate_noise_session (identity : IdentityKey) (expected : option string) :
  stateful Conn CryptoError (T * string) :=
  noise <-! st_lift (map_err Crypto_Noise (build_initiator (private_key identity)));;
  m1 <-! noise_lift (handshake_write noise);;
  do! conn_write_packet m1.2;;
  message <-! conn_read_packet;;
  m2 <-! noise_lift (handshake_read m1.1 message);;
  m3 <-! noise_lift (handshake_write m2.1);;
  do! conn_write_packet m3.2;;
  actual <-! st_lift (remote_static_fingerprint m3.1);;
  do! match expected with
      | Some e =>
          if negb (str_is_empty e) && negb (str_eqb e actual)
          then st_fail (FingerprintMismatch e actual) else st_ret tt
      | None => st_ret tt
      end;;
  transport <-! st_lift (map_err Crypto_Noise (into_transport_mode m3.1));;
  st_ret (transport, actual).

(** [edge-crypto 402-431 accept_noise_session] *)
Definition accept_noise_session (identity : IdentityKey) :
  stateful Conn CryptoError (T * string) :=
  noise <-! st_lift (map_err Crypto_Noise (build_responder (private_key identity)));;
  message <-! conn_read_packet;;
  m1 <-! noise_lift (handshake_read noise message);;
  m2 <-! noise_lift (handshake_write m1.1);;
  do! conn_write_packet m2.2;;
  message <-! conn_read_packet;;
  m3 <-! noise_lift (handshake_read m2.1 message);;
  actual <-! st_lift (remote_static_fingerprint m3.1);;
  transport <-! st_lift (map_err Crypto_Noise (into_transport_mode m3.1));;
  st_ret (transport, actual).
End Connecting.

(** ** Two connected sessions *)

Section Duplex.
Context {T : Type} `{NoiseLaws T} `{FrameCodecLaws}.

(** One end: its writer and reader share the cipher; the bytes that arrived and were not read;
    the frames it has sent and the outcomes of its reads. *)
Record End := {
  writer : SecureFrameWriter T;
  arrived : bytes;
  sent : list Frame;
  got : list (result Frame RuntimeError);
}.

(** The two tasks of an end write and read whole packets, each under the cipher's lock. *)
Inductive link_op := Op_write (left : bool) (frame : Frame) | Op_read (left : bool).

(** [a] writes a frame, whose packet arrives at [b]. *)
Definition do_write (frame : Frame) (a b : End) : End * End :=
  match secure_write frame (writer a) with
  | (w, Ok packet) =>
      ({| writer := w; arrived := arrived a; sent := sent a ++ [frame]; got := got a |},
       {| writer := writer b; arrived := arrived b ++ packet; sent := sent b; got := got b |})
  | (w, Err _) => ({| writer := w; arrived := arrived a; sent := sent a; got := got a |}, b)
  end.

Definition do_read (a : End) : End :=
  match secure_read false (cipher_state (writer a)) (arrived a) with
  | Pending => a
  | Ready rest (t, r) =>
      {| writer := {| cipher_state := t; image_schedule := image_schedule (writer a) |};
         arrived := rest; sent := sent a; got := got a ++ [r] |}
  end.

Definition link_step (ends : End * End) (op : link_op) : End * End :=
  match op with
  | Op_write true frame => do_write frame ends.1 ends.2
  | Op_write false frame => let r := do_write frame ends.2 ends.1 in (r.2, r.1)
  | Op_read true => (do_read ends.1, ends.2)
  | Op_read false => (ends.1, do_read ends.2)
  end.
Definition run_link (ends : End * End) (ops : list link_op) : End * End :=
  fold_left link_step ops ends.

Definition end_new (t : T) : End :=
  {| writer := session_split t; arrived := []; sent := []; got := [] |}.

(** The frames a side wrote that fit an encrypted message. *)
Definition accepted (side : bool) (ops : list link_op) : list Frame :=
  omap (fun op => match op with
                  | Op_write l f => if Bool.eqb l side && fits_secure_frame f then Some f else None
                  | Op_read _ => None
                  end) ops.
End Duplex.

(** ** Lemmas *)

Section PacketLemmas.
Lemma read_exact_app closed (payload rest : bytes) :
  read_exact closed (len payload) (payload ++ rest) = Ready rest (Ok payload).
Proof.
  unfold read_exact. rewrite len_app, (proj2 (Z.leb_le _ _)) by (pose proof (len_nonneg rest); lia).
  unfold len. by rewrite Nat2Z.id, drop_app_length, take_app_length.
Qed.

Lemma read_u32_app closed n rest :
  in_u32 n -> read_u32 closed (be_encode 4 n ++ rest) = Ready rest (Ok n).
Proof.
  intros [? ?]. unfold read_u32. change 4 with (len (be_encode 4 n)) at 1.
  rewrite read_exact_app, be_decode_encode_small; [done|].
  unfold u32_max in *. change (256 ^ Z.of_nat 4) with (2 ^ 32). lia.
Qed.

(** The packet of a payload, when it is not too large. *)
Lemma write_packet_Ok payload packet :
  write_packet payload = Ok packet <->
  len payload <= MAX_NOISE_PACKET_BYTES /\ packet = be_encode 4 (len payload) ++ payload.
Proof.
  unfold write_packet, MAX_NOISE_PACKET_BYTES. pose proof (len_nonneg payload).
  destruct (Z.ltb_spec 65535 (len payload)); split; [done|lia| |].
  - intros [= <-]. rewrite truncate_to_small by (unfold u32_max; lia). done.
  - intros [_ ->]. rewrite truncate_to_small by (unfold u32_max; lia). done.
Qed.

Lemma read_packet_written closed payload packet rest :
  write_packet payload = Ok packet ->
  read_packet closed (packet ++ rest) = Ready rest (Ok payload).
Proof.
  intros [Hl ->]%write_packet_Ok. unfold read_packet, MAX_NOISE_PACKET_BYTES in *.
  pose proof (len_nonneg payload).
  rewrite <- app_assoc, read_u32_app by (unfold in_range, u32_max; lia).
  rewrite (proj2 (Z.ltb_ge _ _)) by lia. by rewrite read_exact_app.
Qed.

(** The length prefix of a buffer. *)
Lemma be_prefix (buf : bytes) :
  is_bytes buf -> 4 <= len buf ->
  let n := be_decode (take 4 buf) in
  in_u32 n /\ buf = be_encode 4 n ++ drop 4 buf.
Proof.
  intros Hb Hl n. assert (length (take 4 buf) = 4)%nat as H4
    by (rewrite length_take; unfold len in Hl; lia).
  assert (is_bytes (take 4 buf)) as Ht by (by apply Forall_take).
  pose proof (be_decode_bound _ Ht) as Hd. unfold len in Hd. rewrite H4 in Hd.
  change (256 ^ Z.of_nat 4) with (2 ^ 32) in Hd. fold n in Hd. split.
  - unfold in_range, u32_max. lia.
  - rewrite <- H4 at 1. unfold n. by rewrite be_encode_decode, take_drop.
Qed.
End PacketLemmas.

(** ** Properties of packets *)

(** The packet reader trusts no length a peer claims: on any bytes it either returns a
    payload of at most 65,535 bytes whose packet it consumed exactly; or rejects a larger
    claim having read only the four bytes of the prefix; or waits, or fails when the stream
    ended, exactly when the packet is incomplete, needing at most 65,539 bytes.  What
    [write_packet] writes is read back whole, whatever follows it. *)
Theorem packet_reader_is_bounded (closed : bool) (buf : bytes) (Hbytes : is_bytes buf) :
  match read_packet closed buf with
  | Ready rest (Ok payload) =>
      exists packet, write_packet payload = Ok packet /\ buf = packet ++ rest
  | Ready rest (Err e) =>
      (exists n, e = PacketTooLarge n /\ MAX_NOISE_PACKET_BYTES < n
                 /\ buf = be_encode 4 n ++ rest)
      \/ e = Crypto_Io UnexpectedEof /\ closed = true
  | Pending => closed = false /\ len buf < LENGTH_PREFIX_BYTES + MAX_NOISE_PACKET_BYTES
  end
  /\ (forall payload packet rest, write_packet payload = Ok packet -> buf = packet ++ rest ->
        read_packet closed buf = Ready rest (Ok payload)).
Proof.
  split; [|by intros payload packet rest ? ->; apply read_packet_written].
  unfold read_packet, read_u32, read_exact, LENGTH_PREFIX_BYTES, MAX_NOISE_PACKET_BYTES.
  destruct (Z.leb_spec 4 (len buf)) as [Hl|Hl]; [|destruct closed; [by right|split; [done|lia]]].
  change (Z.to_nat 4) with 4%nat.
  destruct (be_prefix buf Hbytes Hl) as [Hn Hbuf].
  set (n := be_decode (take 4 buf)) in *.
  destruct (Z.ltb_spec 65535 n) as [Hbig|Hsmall]; [left; by exists n|].
  destruct (Z.leb_spec n (len (drop 4 buf))) as [Hr|Hr].
  - simpl. set (payload := take (Z.to_nat n) (drop 4 buf)).
    assert (len payload = n) as Hp.
    { destruct Hn. unfold payload, len. rewrite length_take. unfold len in Hr. lia. }
    exists (be_encode 4 n ++ payload). split.
    + apply write_packet_Ok. rewrite Hp. split; [unfold MAX_NOISE_PACKET_BYTES; lia|done].
    + unfold payload. rewrite <- app_assoc, take_drop. exact Hbuf.
  - destruct closed; [by right|]. split; [done|].
    rewrite Hbuf, len_app, len_be_encode. lia.
Qed.

Example packet_reader_is_bounded_witness :
  exists n, read_packet false [255; 255; 255; 255; 7] = Ready [7] (Err (PacketTooLarge n))
    /\ MAX_NOISE_PACKET_BYTES < n.
Proof.
  pose proof (packet_reader_is_bounded false [255; 255; 255; 255; 7]
    ltac:(repeat (constructor; [split; vm_compute; congruence|]); constructor)) as [H _].
  revert H. change (read_packet false [255; 255; 255; 255; 7])
    with (@Ready (result bytes CryptoError) [7] (Err (PacketTooLarge 4294967295))).
  intros [(n & [= <-] & Hn & _)|[? ?]]; [|done]. by exists 4294967295.
Defined.

(** ** Properties of two connected sessions *)

Section DuplexProofs.
Context {T : Type} `{NoiseLaws T} `{FrameCodecLaws}.

(** The packets on the wire that [r] will read as the frames [fs], after which [s] can send [n]
    more. *)
Inductive in_flight : nat -> T -> T -> bytes -> list Frame -> Prop :=
| flight_nil n s r : in_step n s r -> in_flight n s r [] []
| flight_cons n s r r' cipher packet payload wire f fs :
    write_packet cipher = Ok packet ->
    read_message r cipher (len cipher) = (r', Ok payload) ->
    decode_frame payload = Ok f ->
    in_flight n s r' wire fs -> in_flight n s r (packet ++ wire) (f :: fs).

Lemma flight_receiver_writes n s r p pr wire fs :
  in_flight n s r wire fs -> in_flight n s (write_message r p pr).1 wire fs.
Proof.
  induction 1 as [n s r Hs|n s r r' cipher packet payload wire f fs Hp Hr Hd _ IH].
  - by apply flight_nil, in_step_write.
  - eapply flight_cons; [exact Hp| |exact Hd|exact IH].
    rewrite (surjective_pairing (read_message _ _ _)), read_write, Hr. done.
Qed.

Lemma flight_sender_reads n s r c cr wire fs :
  in_flight n s r wire fs -> in_flight n (read_message s c cr).1 r wire fs.
Proof.
  induction 1; [by apply flight_nil, in_step_read|by eapply flight_cons].
Qed.

(** Sealing a payload that fits: the packet the receiver will read as it. *)
Lemma seal_packet_fits n s r payload :
  in_step (S n) s r -> len payload <= MAX_SECURE_FRAME_BYTES ->
  exists s' r' cipher packet, seal_packet payload s = (s', Ok packet)
    /\ s' = (write_message s payload (len payload + NOISE_TAG_BYTES)).1
    /\ write_packet cipher = Ok packet
    /\ read_message r cipher (len cipher) = (r', Ok payload) /\ in_step n s' r'.
Proof.
  unfold MAX_SECURE_FRAME_BYTES. intros Hs Hl. pose proof (len_nonneg payload).
  destruct (delivers n s r payload (len payload + NOISE_TAG_BYTES) Hs)
    as (s' & r' & cipher & Hw & Hlen & Hr & Hs'); [lia|unfold NOISE_TAG_BYTES; lia|].
  exists s', r', cipher, (be_encode 4 (len cipher) ++ cipher).
  unfold seal_packet, MAX_NOISE_PACKET_BYTES. rewrite Hw.
  rewrite (proj2 (Z.ltb_ge _ _)) by (unfold NOISE_TAG_BYTES; lia).
  rewrite truncate_to_small by (unfold u32_max; lia). split_and!; try done.
  apply write_packet_Ok. unfold MAX_NOISE_PACKET_BYTES. split; [lia|done].
Qed.

Lemma flight_send n s r wire fs f payload :
  in_flight (S n) s r wire fs -> encode_frame f = Ok payload ->
  len payload <= MAX_SECURE_FRAME_BYTES ->
  exists s' packet, seal_packet payload s = (s', Ok packet)
    /\ s' = (write_message s payload (len payload + NOISE_TAG_BYTES)).1
    /\ in_flight n s' r (wire ++ packet) (fs ++ [f]).
Proof.
  intros Hf He Hl. remember (S n) as m eqn:Hm.
  induction Hf as [m s r Hs|m s r r' cipher packet payload' wire f' fs Hp Hr Hd _ IH]; subst m.
  - destruct (seal_packet_fits n s r payload Hs Hl)
      as (s' & r' & cipher & packet & Hseal & Es & Hp & Hr & Hs').
    exists s', packet. split_and!; [done|done|]. simpl. rewrite <- (app_nil_r packet).
    eapply flight_cons; [exact Hp|exact Hr|by apply decode_encode|by apply flight_nil].
  - destruct (IH eq_refl) as (s' & packet' & Hseal & Es & Hf). exists s', packet'.
    split_and!; [done|done|]. rewrite <- app_assoc. simpl. by eapply flight_cons.
Qed.

(** What [a] sent that [b] has not read yet is on the wire. *)
Definition flow (k : nat) (a b : End) : Prop :=
  exists n fs, (k <= n)%nat
    /\ in_flight n (cipher_state (writer a)) (cipher_state (writer b)) (arrived b) fs
    /\ Ok <$> sent a = got b ++ (Ok <$> fs).

Lemma flow_weaken k a b : flow (S k) a b -> flow k a b.
Proof. intros (n & fs & ? & F). exists n, fs. split; [lia|exact F]. Qed.

Lemma encode_secure_frame_cases f :
  (exists payload, fits_secure_frame f = true /\ encode_frame f = Ok payload
     /\ encode_secure_frame f = Ok payload /\ len payload <= MAX_SECURE_FRAME_BYTES)
  \/ (exists e, fits_secure_frame f = false /\ encode_secure_frame f = Err e).
Proof.
  unfold fits_secure_frame, encode_secure_frame.
  destruct (encode_frame f) as [p|e]; simpl; [|right; by eexists].
  destruct (Z.leb_spec (len p) MAX_SECURE_FRAME_BYTES).
  - left. exists p. rewrite (proj2 (Z.ltb_ge _ _)) by lia. done.
  - right. rewrite (proj2 (Z.ltb_lt _ _)) by lia. by eexists.
Qed.

Lemma do_write_flow k f a b :
  flow (S k) a b -> flow (S k) b a ->
  let r := do_write f a b in
  flow k r.1 r.2 /\ flow k r.2 r.1 /\ sent r.2 = sent b
  /\ sent r.1 = sent a ++ (if fits_secure_frame f then [f] else []).
Proof.
  intros Hab Hba. unfold do_write, secure_write.
  destruct (encode_secure_frame_cases f) as [(p & -> & He & -> & Hl)|(e & -> & ->)]; simpl.
  - destruct Hab as (n & fs & Hn & Hf & Hg). destruct n as [|n]; [lia|].
    destruct (flight_send n _ _ _ _ f p Hf He Hl) as (s' & packet & -> & -> & Hf').
    simpl. split_and!; try done.
    + exists n, (fs ++ [f]). split_and!; [lia|exact Hf'|]. simpl.
      by rewrite !fmap_app, Hg, <- app_assoc.
    + destruct Hba as (m & gs & Hm & Hf2 & Hg2). exists m, gs. split_and!; [lia| |exact Hg2].
      by apply flight_receiver_writes.
  - rewrite app_nil_r. apply flow_weaken in Hab, Hba. by destruct a.
Qed.

Lemma do_read_packet b r' cipher packet payload wire f :
  arrived b = packet ++ wire -> write_packet cipher = Ok packet ->
  read_message (cipher_state (writer b)) cipher (len cipher) = (r', Ok payload) ->
  decode_frame payload = Ok f ->
  do_read b = {| writer := {| cipher_state := r'; image_schedule := image_schedule (writer b) |};
                 arrived := wire; sent := sent b; got := got b ++ [Ok f] |}.
Proof.
  intros Ew Hp Hr Hd. unfold do_read, secure_read, noise_read_packet.
  rewrite Ew, (read_packet_written false cipher packet wire Hp), Hr. simpl. by rewrite Hd.
Qed.

Lemma do_read_flow k a b :
  flow k a b -> flow k b a ->
  flow k a (do_read b) /\ flow k (do_read b) a /\ sent (do_read b) = sent b.
Proof.
  intros Hab Hba. pose proof Hab as (n & fs & Hn & Hf & Hg).
  inversion Hf as [? ? ? Hs E1 E2 E3 Ew Efs
    |? ? ? r' cipher packet payload wire f fs' Hp Hr Hd Hf' E1 E2 E3 Ew Efs].
  - assert (do_read b = b) as ->
      by (unfold do_read, secure_read, noise_read_packet; by rewrite <- Ew).
    done.
  - rewrite (do_read_packet b r' cipher packet payload wire f (eq_sym Ew) Hp Hr Hd).
    split_and!; [| |done].
    + exists n, fs'. split_and!; [done|exact Hf'|]. simpl. subst. rewrite Hg.
      rewrite fmap_cons, <- app_assoc. done.
    + destruct Hba as (m & gs & Hm & Hf2 & Hg2). exists m, gs. split_and!; [done| |exact Hg2].
      simpl. pose proof (flight_sender_reads _ _ _ cipher (len cipher) _ _ Hf2) as Hf3.
      by rewrite Hr in Hf3.
Qed.

Lemma link_step_flow k l r op :
  flow (S k) l r -> flow (S k) r l ->
  let s := link_step (l, r) op in
  flow k s.1 s.2 /\ flow k s.2 s.1
  /\ sent s.1 = sent l ++ accepted true [op] /\ sent s.2 = sent r ++ accepted false [op].
Proof.
  intros Hlr Hrl. destruct op as [[] f|[]]; cbn [link_step fst snd accepted omap list_omap
    Bool.eqb andb].
  - destruct (do_write_flow k f l r Hlr Hrl) as (? & ? & -> & ->). rewrite app_nil_r.
    split_and!; try done; by destruct (fits_secure_frame f).
  - destruct (do_write_flow k f r l Hrl Hlr) as (? & ? & -> & ->). rewrite app_nil_r.
    split_and!; try done; by destruct (fits_secure_frame f).
  - apply flow_weaken in Hlr, Hrl. destruct (do_read_flow k r l Hrl Hlr) as (? & ? & ->).
    by rewrite !app_nil_r.
  - apply flow_weaken in Hlr, Hrl. destruct (do_read_flow k l r Hlr Hrl) as (? & ? & ->).
    by rewrite !app_nil_r.
Qed.

Lemma accepted_cons side op ops : accepted side (op :: ops) = accepted side [op] ++ accepted side ops.
Proof. unfold accepted. by rewrite <- omap_app. Qed.

Lemma run_link_flow ops : forall k l r,
  (length ops <= k)%nat -> flow k l r -> flow k r l ->
  let s := run_link (l, r) ops in
  flow 0 s.1 s.2 /\ flow 0 s.2 s.1
  /\ sent s.1 = sent l ++ accepted true ops /\ sent s.2 = sent r ++ accepted false ops.
Proof.
  assert (forall k a b, flow k a b -> flow 0 a b) as Hweak
    by (induction k; auto using flow_weaken).
  induction ops as [|op ops IH]; intros k l r Hk Hlr Hrl.
  - simpl. rewrite !app_nil_r. split_and!; try done; by eapply Hweak.
  - simpl in Hk. destruct k as [|k]; [lia|].
    destruct (link_step_flow k l r op Hlr Hrl) as (F1 & F2 & F3 & F4).
    change (run_link (l, r) (op :: ops)) with (run_link (link_step (l, r) op) ops).
    destruct (link_step (l, r) op) as [l' r']. simpl in F1, F2, F3, F4.
    cbv zeta in IH |- *.
    destruct (IH k l' r' ltac:(lia) F1 F2) as (? & ? & -> & ->). rewrite F3, F4.
    rewrite !(accepted_cons _ op ops), !app_assoc. done.
Qed.

(** Reading until the wire is empty. *)
Lemma reads_drain n : forall m a b fs,
  in_flight m (cipher_state (writer a)) (cipher_state (writer b)) (arrived b) fs ->
  (length fs <= n)%nat -> Ok <$> sent a = got b ++ (Ok <$> fs) ->
  got (Nat.iter n do_read b) = Ok <$> sent a.
Proof.
  induction n as [|n IH]; intros m a b fs Hf Hn Hg.
  - destruct fs; [|simpl in Hn; lia]. simpl. by rewrite Hg, app_nil_r.
  - rewrite Nat.iter_succ_r. inversion Hf as [? ? ? Hs E1 E2 E3 Ew Efs
      |? ? ? r' cipher packet payload wire f fs' Hp Hr Hd Hf' E1 E2 E3 Ew Efs]; subst fs.
    + assert (do_read b = b) as Eb
        by (unfold do_read, secure_read, noise_read_packet; by rewrite <- Ew).
      rewrite Eb. eapply IH; [exact Hf|simpl; lia|exact Hg].
    + rewrite (do_read_packet b r' cipher packet payload wire f (eq_sym Ew) Hp Hr Hd).
      eapply IH; [exact Hf'|simpl in *; lia|]. simpl. by rewrite Hg, fmap_cons, <- app_assoc.
Qed.

(** C22. Sessions deliver every frame once and in order: whatever the two connected nodes write
    and read and however their reads and writes interleave on the cipher they share, neither
    ever fails to read, each has read a prefix of exactly the frames the other sent, a frame
    too large for an encrypted message is refused without harming the session, and after
    finitely many more reads nothing is missing. *)
Theorem sessions_deliver_frames (l r : T) (ops : list link_op)
    (Hlr : in_step (length ops) l r) (Hrl : in_step (length ops) r l) :
  let ends := run_link (end_new l, end_new r) ops in
  (sent ends.1 = accepted true ops /\ sent ends.2 = accepted false ops)
  /\ got ends.2 `prefix_of` (Ok <$> accepted true ops)
  /\ got ends.1 `prefix_of` (Ok <$> accepted false ops)
  /\ (exists n, got (Nat.iter n do_read ends.2) = Ok <$> accepted true ops)
  /\ (exists n, got (Nat.iter n do_read ends.1) = Ok <$> accepted false ops).
Proof.
  intros ends.
  assert (forall a b, in_step (length ops) a b -> flow (length ops) (end_new a) (end_new b))
    as Hnew by (intros a b ?; exists (length ops), []; split_and!; [done|by apply flight_nil|done]).
  destruct (run_link_flow ops _ _ _ (le_n _) (Hnew l r Hlr) (Hnew r l Hrl))
    as (F1 & F2 & S1 & S2). fold ends in F1, F2, S1, S2. simpl in S1, S2.
  destruct F1 as (n & fs & _ & W1 & G1), F2 as (m & gs & _ & W2 & G2).
  rewrite S1 in G1. rewrite S2 in G2. split_and!; try done.
  - by exists (Ok <$> fs).
  - by exists (Ok <$> gs).
  - exists (length fs). rewrite <- S1. eapply reads_drain; [exact W1|done|by rewrite S1].
  - exists (length gs). rewrite <- S2. eapply reads_drain; [exact W2|done|by rewrite S2].
Qed.
End DuplexProofs.

(** ** Properties of the handshake *)

(** Two honest ends run the XX pattern: three messages, after which each knows the other's
    static key and the ciphers are in step both ways, for fewer messages than there are nonces. *)
Class HandshakeLaws (H T : Type) `{NoiseHandshake H T} `{NoiseLaws T} := {
  public_of : bytes -> bytes;
  xx_handshake ki kr : len ki = 32 -> len kr = 32 ->
    exists i i1 i2 i3 r r1 r2 r3 m1 m2 m3 ti tr,
      (build_initiator ki = Ok i /\ build_responder kr = Ok r)
      /\ (handshake_write i = (i1, Ok m1) /\ handshake_read r m1 = (r1, Ok []))
      /\ (handshake_write r1 = (r2, Ok m2) /\ handshake_read i1 m2 = (i2, Ok []))
      /\ (handshake_write i2 = (i3, Ok m3) /\ handshake_read r2 m3 = (r3, Ok []))
      /\ (len m1 <= 65535 /\ len m2 <= 65535 /\ len m3 <= 65535)
      /\ (get_remote_static i3 = Some (public_of kr) /\ get_remote_static r3 = Some (public_of ki))
      /\ (into_transport_mode i3 = Ok ti /\ into_transport_mode r3 = Ok tr)
      /\ (forall n, Z.of_nat n < 2 ^ 64 - 1 -> in_step n ti tr /\ in_step n tr ti);
}.

Lemma conn_write_Ok payload c :
  len payload <= 65535 ->
  conn_write_packet payload c
  = ({| conn_in := conn_in c; conn_out := conn_out c ++ be_encode 4 (len payload) ++ payload |},
     Ok tt).
Proof.
  intros. unfold conn_write_packet, st_bind, st_lift.
  by rewrite (proj2 (write_packet_Ok payload (be_encode 4 (len payload) ++ payload))).
Qed.

Lemma conn_read_Ok payload rest c :
  len payload <= 65535 -> conn_in c = (be_encode 4 (len payload) ++ payload) ++ rest ->
  conn_read_packet c = ({| conn_in := rest; conn_out := conn_out c |}, Ok payload).
Proof.
  intros Hl E. unfold conn_read_packet. rewrite E.
  by rewrite (read_packet_written true payload) by (by apply write_packet_Ok).
Qed.

(** Two honest nodes connect: run against each other, the initiator and the responder both
    finish and each names the other by the fingerprint of its static key; they consume only
    the handshake, and the ciphers they return are in step, which is what sessions need.  An
    initiator told to expect another fingerprint refuses the connection instead. *)
Theorem handshake_connects {H T : Type} `{HandshakeLaws H T} (fingerprint : bytes -> string)
    (i r : IdentityKey) (expected : option string) (after_i after_r : bytes)
    (Hi : len (private_key i) = 32) (Hr : len (private_key r) = 32) :
  exists out_i out_r ti tr,
    accept_noise_session fingerprint r {| conn_in := out_i ++ after_i; conn_out := [] |}
    = ({| conn_in := after_i; conn_out := out_r |},
       Ok (tr, fingerprint (public_of (private_key i))))
    /\ initiate_noise_session fingerprint i expected
         {| conn_in := out_r ++ after_r; conn_out := [] |}
       = ({| conn_in := after_r; conn_out := out_i |},
          match expected with
          | Some e =>
              if negb (str_is_empty e)
                 && negb (str_eqb e (fingerprint (public_of (private_key r))))
              then Err (FingerprintMismatch e (fingerprint (public_of (private_key r))))
              else Ok (ti, fingerprint (public_of (private_key r)))
          | None => Ok (ti, fingerprint (public_of (private_key r)))
          end)
    /\ (forall n, Z.of_nat n < 2 ^ 64 - 1 -> in_step n ti tr /\ in_step n tr ti).
Proof.
  destruct (xx_handshake _ _ Hi Hr) as (hi & i1 & i2 & i3 & hr & r1 & r2 & r3 & m1 & m2 & m3
    & ti & tr & [Bi Br] & [W1 R1] & [W2 R2] & [W3 R3] & (L1 & L2 & L3) & [Si Sr] & [Ti Tr] & Hs).
  set (pkt m := be_encode 4 (len m) ++ m).
  exists (pkt m1 ++ pkt m3), (pkt m2), ti, tr. split_and!; [| |exact Hs].
  - unfold accept_noise_session, st_bind at 1, st_lift at 1. rewrite Br. simpl.
    unfold st_bind at 1.
    rewrite (conn_read_Ok m1 (pkt m3 ++ after_i)) by (try done; by rewrite <- app_assoc).
    unfold st_bind at 1, noise_lift at 1, st_lift at 1. rewrite R1. simpl.
    unfold st_bind at 1, noise_lift at 1, st_lift at 1. rewrite W2. simpl.
    unfold st_bind at 1. rewrite conn_write_Ok by done. simpl.
    unfold st_bind at 1. rewrite (conn_read_Ok m3 after_i) by done. simpl.
    unfold st_bind, noise_lift, st_lift, st_ret, remote_static_fingerprint. rewrite R3. simpl.
    by rewrite Sr, Tr.
  - unfold initiate_noise_session, st_bind at 1, st_lift at 1. rewrite Bi. simpl.
    unfold st_bind at 1, noise_lift at 1, st_lift at 1. rewrite W1. simpl.
    unfold st_bind at 1. rewrite conn_write_Ok by done. simpl.
    unfold st_bind at 1. rewrite (conn_read_Ok m2 after_r) by done. simpl.
    unfold st_bind at 1, noise_lift at 1, st_lift at 1. rewrite R2. simpl.
    unfold st_bind at 1, noise_lift at 1, st_lift at 1. rewrite W3. simpl.
    unfold st_bind at 1. rewrite conn_write_Ok by done. simpl.
    unfold st_bind, noise_lift, st_lift, st_ret, st_fail, remote_static_fingerprint.
    rewrite Si. simpl. rewrite Ti. destruct expected as [e|]; [|done].
    by destruct (negb (str_is_empty e) && _).
Qed.

(** ** An instance

    A cipher whose tag is a counter, a handshake that exchanges the keys in the clear and a
    serialization of heartbeats satisfy the laws. *)
Module Sample.
Record counters := { tx : nat; rx : nat }.
Definition tag (n : nat) : bytes := repeat (Z.of_nat n mod 256) 16.
Definition tag_ok (n : nat) (c : bytes) : bool :=
  (16 <=? len c) && bool_decide (drop (length c - 16) c = tag n).

Definition message_fits (p : bytes) (room : Z) : bool :=
  (len p + 16 <=? 65535) && (len p + 16 <=? room).

#[export] Instance counter_noise : Noise counters := {
  write_message t p room :=
    if message_fits p room
    then ({| tx := S (tx t); rx := rx t |}, Ok (p ++ tag (tx t))) else (t, Err ""%string);
  read_message t c room :=
    if tag_ok (rx t) c
    then ({| tx := tx t; rx := S (rx t) |}, Ok (take (length c - 16) c)) else (t, Err ""%string);
}.

#[export, refine] Instance counter_noise_laws : NoiseLaws counters := {
  in_step _ s r := tx s = rx r;
}.
Proof.
  - intros n s r p room Hs H1 H2. simpl. pose proof (len_nonneg p).
    unfold message_fits. rewrite (proj2 (Z.leb_le _ _)), (proj2 (Z.leb_le _ _)) by lia.
    eexists _, _, _. split; [reflexivity|].
    assert (length (p ++ tag (tx s)) - 16 = length p)%nat as El
      by (rewrite length_app; simpl; lia).
    split_and!; [by rewrite len_app| |].
    + unfold tag_ok. rewrite El, drop_app_length, take_app_length, Hs, bool_decide_true by done.
      rewrite len_app, (proj2 (Z.leb_le _ _)) by (change (len (tag (rx r))) with 16; lia).
      reflexivity.
    + simpl. congruence.
  - intros t c cr p pr. simpl.
    destruct (message_fits p pr); simpl;
      by destruct (tag_ok (rx t) c).
  - intros n s r c cr. simpl. by destruct (tag_ok _ _).
  - intros n s r p pr. simpl. by destruct (message_fits _ _).
Defined.

#[export] Instance heartbeat_codec : FrameCodec := {
  encode_frame f := match f with
                    | Frame_Heartbeat h =>
                        if bool_decide (0 <= heartbeat_sequence h <= u64_max)
                        then Ok (be_encode 8 (heartbeat_sequence h)) else Err ""%string
                    | _ => Err ""%string
                    end;
  decode_frame b := Ok (Frame_Heartbeat {| heartbeat_sequence := be_decode b |});
}.
#[export] Instance heartbeat_codec_laws : FrameCodecLaws.
Proof.
  intros f p. destruct f; try done. destruct heartbeat as [n].
  unfold encode_frame, decode_frame, heartbeat_codec. cbn [heartbeat_sequence].
  case_bool_decide; [|done]. intros Ep. assert (p = be_encode 8 n) as -> by congruence.
  rewrite be_decode_encode_small; [done|]. unfold u64_max in *.
  change (256 ^ Z.of_nat 8) with (2 ^ 64). lia.
Qed.

Record handshake := { self : bytes; remote : option bytes }.
#[export] Instance clear_handshake : NoiseHandshake handshake counters := {
  build_initiator k := Ok {| self := k; remote := None |};
  build_responder k := Ok {| self := k; remote := None |};
  handshake_write h := (h, if len (self h) =? 32 then Ok (self h) else Err ""%string);
  handshake_read h m := ({| self := self h; remote := Some m |}, Ok []);
  get_remote_static h := remote h;
  into_transport_mode h := Ok {| tx := 0; rx := 0 |};
}.
#[export, refine] Instance clear_handshake_laws : HandshakeLaws handshake counters := {
  public_of k := k;
}.
Proof.
  intros ki kr Hi Hr.
  set (i0 := {| self := ki; remote := None |}). set (i1 := {| self := ki; remote := Some kr |}).
  set (r0 := {| self := kr; remote := None |}). set (r1 := {| self := kr; remote := Some ki |}).
  exists i0, i0, i1, i1, r0, r1, r1, r1, ki, kr, ki, {| tx := 0; rx := 0 |}, {| tx := 0; rx := 0 |}.
  simpl. rewrite Hi, Hr. split_and!; try reflexivity; lia.
Defined.
End Sample.
Import Sample.

Example sessions_deliver_frames_witness :
  let hb n := Frame_Heartbeat {| heartbeat_sequence := n |} in
  let start := end_new {| Sample.tx := 0; Sample.rx := 0 |} in
  let ops := [Op_write true (hb 1); Op_write false (hb 7); Op_write true (hb 2); Op_read false] in
  got (run_link (start, start) ops).2 `prefix_of` [Ok (hb 1); Ok (hb 2)].
Proof.
  exact (proj1 (proj2 (sessions_deliver_frames {| Sample.tx := 0; Sample.rx := 0 |}
    {| Sample.tx := 0; Sample.rx := 0 |}
    [Op_write true (Frame_Heartbeat {| heartbeat_sequence := 1 |});
     Op_write false (Frame_Heartbeat {| heartbeat_sequence := 7 |});
     Op_write true (Frame_Heartbeat {| heartbeat_sequence := 2 |}); Op_read false]
    eq_refl eq_refl))).
Defined.

Example handshake_connects_witness :
  exists out_i out_r tr,
    accept_noise_session bytes_str {| private_key := repeat 66 32; public_key := repeat 66 32 |}
      {| conn_in := out_i ++ []; conn_out := [] |}
    = ({| conn_in := []; conn_out := out_r |}, Ok (tr, bytes_str (repeat 65 32))).
Proof.
  destruct (handshake_connects (T := Sample.counters) bytes_str
    {| private_key := repeat 65 32; public_key := repeat 65 32 |}
    {| private_key := repeat 66 32; public_key := repeat 66 32 |} None [] [] eq_refl eq_refl)
    as (out_i & out_r & _ & tr & E & _).
  exists out_i, out_r, tr. exact E.
Defined.
