(* ===== verification/ClipboardSync.v ===== *)
(** * Clipboard synchronisation of a session

    [ReceiverClipboardState] of apps/edge-receiver-linux/src/main.rs: what a session offers its
    peer, what it applies to the local clipboard, and what it holds back; the background reads
    of the clipboard; [PhoneOrigin] of clipboard_hub.rs, which all sessions of the process
    share; and the clipboard commands of crates/edge-linux-input.  The Wayland clipboard itself
    is the parameter [WaylandClipboard]. *)
From S2P Require Export Text Config Transport.

(** ** The clipboard commands *)

(** [edge-linux-input 31-65 LinuxInputError], the variants these commands return. *)
Inductive LinuxInputError :=
| CommandFailed (program message : string)
| Input_Io (error : string)
| ClipboardTooLarge (max_bytes : Z).

(** The programs wl-paste and wl-copy, on the state [W] of the session's clipboard.  An [Err] is
    a program that could not be run, [None] or [false] an unsuccessful exit. *)
Class WaylandClipboard (W : Type) := {
  wl_list_types : W -> result (option bytes) string;
  wl_paste_text : W -> result (option bytes) string;
  (** Of a MIME type: what it prints, and whether it exits successfully. *)
  wl_paste : string -> W -> result (bytes * bool) string;
  wl_copy : string -> bytes -> W -> W * result bool string;
}.

Section Commands.
Context {W : Type} `{WaylandClipboard W} `{Lib : ClipboardLibraries}.

Definition io_err {A} (r : result A string) : result A LinuxInputError := map_err Input_Io r.

(** [edge-linux-input 915-935 read_clipboard_text] *)
Definition read_clipboard_text (config : ClipboardConfig) (w : W) :
  result (option string) LinuxInputError :=
  if negb (clip_enabled config) then Ok None else
  let? output := io_err (wl_paste_text w) in
  match output with
  | None => Ok None
  | Some stdout =>
      ensure! negb (clip_max_bytes config <? len stdout)
        else ClipboardTooLarge (clip_max_bytes config);;
      Ok (Some (from_utf8_lossy stdout))
  end.

(** [edge-linux-input 979-1012 read_clipboard_bytes] *)
Definition read_clipboard_bytes (mime : string) (max_bytes : Z) (w : W) :
  result bytes LinuxInputError :=
  let? output := io_err (wl_paste mime w) in
  let read := take (Z.to_nat (saturating_add usize_max max_bytes 1)) output.1 in
  ensure! negb (max_bytes <? len read) else ClipboardTooLarge max_bytes;;
  ensure! output.2 else CommandFailed "wl-paste" "exit status";;
  Ok read.

Definition supported_types : list string :=
  ["image/png"; "image/jpeg"; "image/jpg"; "image/bmp"; "image/x-bmp"]%string.

(** [edge-linux-input 937-977 read_clipboard_item] *)
Definition read_clipboard_item (config : ClipboardConfig) (w : W) :
  result (option ClipboardItem) LinuxInputError :=
  if negb (clip_enabled config) then Ok None else
  let text := let? t := read_clipboard_text config w in Ok (Item_Text <$> t) in
  if negb (images_enabled config) then text else
  let? types := io_err (wl_list_types w) in
  match types with
  | None => text
  | Some stdout =>
      let offered := map trim (str_lines (from_utf8_lossy stdout)) in
      match List.find (fun mime => existsb (fun line => str_eqb line mime) offered)
              supported_types with
      | Some mime =>
          let? encoded := read_clipboard_bytes mime (clip_max_image_bytes config) w in
          match CanonicalImage_from_encoded encoded mime (clip_max_image_bytes config) with
          | Ok image => Ok (Some (Item_Image image))
          | Err _ => Err (CommandFailed "wl-paste" "unreadable image")
          end
      | None => if existsb (starts_with "image/") offered then Ok None else text
      end
  end.

(** The effect of a wl-copy: the clipboard it leaves, and its error. *)
Definition copied (r : W * result bool string) : W * result unit LinuxInputError :=
  (r.1, match r.2 with
        | Err e => Err (Input_Io e)
        | Ok false => Err (CommandFailed "wl-copy" "exit status")
        | Ok true => Ok tt
        end).

(** [edge-linux-input 1097-1123 write_clipboard_text] *)
Definition write_clipboard_text (config : ClipboardConfig) (text : string) (w : W) :
  W * result unit LinuxInputError :=
  if negb (clip_enabled config) then (w, Ok tt)
  else if clip_max_bytes config <? str_len text
  then (w, Err (ClipboardTooLarge (clip_max_bytes config)))
  else copied (wl_copy "text/plain" (str_bytes text) w).

(** [edge-linux-input 1125-1150 write_clipboard_image] *)
Definition write_clipboard_image (config : ClipboardConfig) (image : CanonicalImage) (w : W) :
  W * result unit LinuxInputError :=
  if negb (clip_enabled config) || negb (images_enabled config) then (w, Ok tt)
  else if clip_max_image_bytes config <? len (png image)
  then (w, Err (ClipboardTooLarge (clip_max_image_bytes config)))
  else copied (wl_copy "image/png" (png image) w).
End Commands.

(** ** The shared phone origin *)

(** [rx/clipboard_hub 18-20 PhoneOrigin] *)
Definition PhoneOrigin : Type := option ClipboardContentId.
(** [rx/clipboard_hub 23-25 PhoneOrigin::record] *)
Definition origin_record (id : ClipboardContentId) (self : PhoneOrigin) : PhoneOrigin := Some id.
(** [rx/clipboard_hub 27-33 PhoneOrigin::is_from_phone] *)
Definition is_from_phone (self : PhoneOrigin) (id : ClipboardContentId) : bool :=
  bool_decide (self = Some id).

(** ** The state of a session *)

(** [rx/main 5121-5136 ReceiverClipboardState]; the process has one [PhoneOrigin], so the two optional
    references to it are booleans. *)
Record ReceiverClipboardState := {
  tracker : ClipboardChangeTracker;
  outgoing : option OutgoingClipboardTransfer;
  incoming : IncomingClipboardTransfer;
  next_id : Z;
  peer : ClipboardPeerFeatures;
  apply_generation : Z;
  records_phone_writes : bool;
  withholds_phone_content : bool;
}.

(** What a session's clipboard handlers reach: their own state, the clipboard and the phone
    origin shared by every session, and the frames written to the peer, newest last. *)
Record Sync (W : Type) := {
  state : ReceiverClipboardState;
  clipboard : W;
  origin : PhoneOrigin;
  sent : list Frame;
  writer_open : bool;
}.
Arguments state {W} _.
Arguments clipboard {W} _.
Arguments origin {W} _.
Arguments sent {W} _.
Arguments writer_open {W} _.

(** A clipboard command failed, a frame could not be encoded, or the connection is closed. *)
Inductive SyncError :=
| Sync_Input (e : LinuxInputError) | Sync_Write (e : RuntimeError) | Sync_Closed.

Section Updates.
Context {W : Type}.
Definition with_state (st : ReceiverClipboardState) (s : Sync W) : Sync W :=
  {| state := st; clipboard := clipboard s; origin := origin s; sent := sent s;
     writer_open := writer_open s |}.
Definition set_tracker (t : ClipboardChangeTracker) (st : ReceiverClipboardState) :=
  {| tracker := t; outgoing := outgoing st; incoming := incoming st; next_id := next_id st;
     peer := peer st; apply_generation := apply_generation st;
     records_phone_writes := records_phone_writes st;
     withholds_phone_content := withholds_phone_content st |}.
Definition set_outgoing (o : option OutgoingClipboardTransfer) (st : ReceiverClipboardState) :=
  {| tracker := tracker st; outgoing := o; incoming := incoming st; next_id := next_id st;
     peer := peer st; apply_generation := apply_generation st;
     records_phone_writes := records_phone_writes st;
     withholds_phone_content := withholds_phone_content st |}.
Definition set_incoming (i : IncomingClipboardTransfer) (st : ReceiverClipboardState) :=
  {| tracker := tracker st; outgoing := outgoing st; incoming := i; next_id := next_id st;
     peer := peer st; apply_generation := apply_generation st;
     records_phone_writes := records_phone_writes st;
     withholds_phone_content := withholds_phone_content st |}.
Definition set_next_id (n : Z) (st : ReceiverClipboardState) :=
  {| tracker := tracker st; outgoing := outgoing st; incoming := incoming st; next_id := n;
     peer := peer st; apply_generation := apply_generation st;
     records_phone_writes := records_phone_writes st;
     withholds_phone_content := withholds_phone_content st |}.
Definition set_generation (g : Z) (st : ReceiverClipboardState) :=
  {| tracker := tracker st; outgoing := outgoing st; incoming := incoming st; next_id := next_id st;
     peer := peer st; apply_generation := g;
     records_phone_writes := records_phone_writes st;
     withholds_phone_content := withholds_phone_content st |}.
(** A change of the session's own state. *)
Definition modify (f : ReceiverClipboardState -> ReceiverClipboardState) :
  stateful (Sync W) SyncError unit := fun s => (with_state (f (state s)) s, Ok tt).
Definition gets {A} (f : Sync W -> A) : stateful (Sync W) SyncError A := fun s => (s, Ok (f s)).
End Updates.

(** ** The handlers *)

Section Handlers.
Context {W : Type} `{WaylandClipboard W} `{Lib : ClipboardLibraries} `{FrameCodec}.
Context (config : AppConfig).

Abbreviation syncing := (stateful (Sync W) SyncError).

(** [rx/main 5858-5861 write_secure_frame_writer]: the packet of a frame is [Transport]'s. *)
Definition write_secure_frame_writer (frame : Frame) : syncing unit := fun s =>
  match encode_secure_frame frame with
  | Err e => (s, Err (Sync_Write e))
  | Ok _ =>
      if writer_open s
      then ({| state := state s; clipboard := clipboard s; origin := origin s;
               sent := sent s ++ [frame]; writer_open := true |}, Ok tt)
      else (s, Err Sync_Closed)
  end.

Definition read_item : syncing (option ClipboardItem) := fun s =>
  (s, map_err Sync_Input (read_clipboard_item (cfg_clipboard config) (clipboard s))).
Definition write_to_clipboard
    (write : W -> W * result unit LinuxInputError) : syncing unit := fun s =>
  let r := write (clipboard s) in
  ({| state := state s; clipboard := r.1; origin := origin s; sent := sent s;
      writer_open := writer_open s |}, map_err Sync_Input r.2).
Definition record_origin (id : ClipboardContentId) : syncing unit := fun s =>
  ({| state := state s; clipboard := clipboard s; origin := origin_record id (origin s);
      sent := sent s; writer_open := writer_open s |}, Ok tt).

(** [rx/main 5221-5239 ReceiverClipboardState::new] *)
Definition ReceiverClipboardState_new (features : ClipboardPeerFeatures) (w : W) :
  ReceiverClipboardState :=
  let observed := match read_clipboard_item (cfg_clipboard config) w with
                  | Ok item => item_id <$> item
                  | Err _ => None
                  end in
  {| tracker := ClipboardChangeTracker_new observed; outgoing := None; incoming := None;
     next_id := 0; peer := features; apply_generation := 0; records_phone_writes := false;
     withholds_phone_content := false |}.

(** [rx/main 5241-5246 ReceiverClipboardState::transfer_limits] *)
Definition transfer_limits : TransferLimits :=
  {| max_image_bytes := clip_max_image_bytes (cfg_clipboard config);
     max_text_bytes := clip_max_bytes (cfg_clipboard config) |}.

(** [rx/main 5248-5252 ReceiverClipboardState::for_phone] *)
Definition for_phone (self : ReceiverClipboardState) : ReceiverClipboardState :=
  {| tracker := tracker self; outgoing := outgoing self; incoming := incoming self;
     next_id := next_id self; peer := peer self; apply_generation := apply_generation self;
     records_phone_writes := true; withholds_phone_content := withholds_phone_content self |}.

(** [rx/main 5254-5265 ReceiverClipboardState::withholding_phone_content]; [hub] is whether there is a
    clipboard hub. *)
Definition withholding_phone_content (hub : bool) (self : ReceiverClipboardState) :
  ReceiverClipboardState :=
  if forward_clipboard_to_pcs (cfg_phone config) then self
  else {| tracker := tracker self; outgoing := outgoing self; incoming := incoming self;
          next_id := next_id self; peer := peer self; apply_generation := apply_generation self;
          records_phone_writes := records_phone_writes self; withholds_phone_content := hub |}.

(** [rx/main 5527-5530 ReceiverClipboardState::next_transfer_id] *)
Definition next_transfer_id : syncing Z :=
  do! modify (fun st => set_next_id (Z.max (wrapping_add u64_max (next_id st) 1) 1) st);;
  gets (fun s => next_id (state s)).

(** [rx/main 5516-5525 ReceiverClipboardState::cancel_outgoing] *)
Definition cancel_outgoing : syncing unit :=
  active <-! gets (fun s => outgoing (state s));;
  match active with
  | Some transfer =>
      do! modify (set_outgoing None);;
      write_secure_frame_writer (Frame_Clipboard (cancel_event transfer Replaced))
  | None => st_ret tt
  end.

(** [rx/main 5479-5514 ReceiverClipboardState::send_text] *)
Definition send_text (sequence : Z) (text : string) : syncing bool :=
  do! cancel_outgoing;;
  let frame := Frame_Clipboard (TextOffer sequence text) in
  if fits_secure_frame frame then do! write_secure_frame_writer frame;; st_ret true
  else
    features <-! gets (fun s => peer (state s));;
    if negb (text_chunks features) then st_ret false
    else
      id <-! next_transfer_id;;
      do! modify (set_outgoing (Some (outgoing_text id sequence text)));;
      st_ret true.

(** The content is a phone's and this session must not offer it.
    [rx/main 5448-5449 ReceiverClipboardState::offer_item] *)
Definition withheld (current_id : option ClipboardContentId) (s : Sync W) : bool :=
  match current_id with
  | Some id => withholds_phone_content (state s) && is_from_phone (origin s) id
  | None => false
  end.

(** [rx/main 5440-5477 ReceiverClipboardState::offer_item] *)
Definition offer_item (current : option ClipboardItem) (force : bool) : syncing bool :=
  let current_id := item_id <$> current in
  hold <-! gets (withheld current_id);;
  if hold then do! modify (fun st => set_tracker (mark_observed (tracker st) current_id) st);; st_ret false
  else
    offered <-! gets (fun s => (if force then offer_current else offer_if_changed)
                                 (tracker (state s)) current_id);;
    do! modify (set_tracker offered.1);;
    match offered.2 with
    | None => st_ret false
    | Some sequence =>
        match current with
        | Some (Item_Text text) => send_text sequence text
        | Some (Item_Image image) =>
            features <-! gets (fun s => peer (state s));;
            if images features && images_enabled (cfg_clipboard config) then
              do! cancel_outgoing;;
              id <-! next_transfer_id;;
              do! modify (set_outgoing (Some (outgoing_image id sequence image)));;
              st_ret true
            else st_ret false
        | None => st_ret false
        end
    end.

(** [rx/main 5405-5412 ReceiverClipboardState::send_local_offer] *)
Definition send_local_offer : syncing bool :=
  current <-! read_item;; offer_item current true.

(** [rx/main 5429-5438 ReceiverClipboardState::send_changed_offer] *)
Definition send_changed_offer : syncing bool :=
  current <-! read_item;; offer_item current false.

(** [rx/main 5414-5427 ReceiverClipboardState::send_local_text_offer] *)
Definition send_local_text_offer : syncing bool :=
  current <-! (fun s => (s, map_err Sync_Input
                           (read_clipboard_text (cfg_clipboard config) (clipboard s))));;
  match current with
  | None => st_ret false
  | Some text =>
      offered <-! gets (fun s => offer_current (tracker (state s)) (Some (item_id (Item_Text text))));;
      do! modify (set_tracker offered.1);;
      match offered.2 with
      | None => st_ret false
      | Some sequence => send_text sequence text
      end
  end.

(** [rx/main 5320-5343 ReceiverClipboardState::handle_event]: what applying a remote item does, the
    arm of a received image and the body of [handle_text_offer] alike: nothing if it is there
    already, an offer of the local content if that changed since it was last seen, and
    otherwise the write. *)
Definition apply_remote (remote_id : ClipboardContentId)
    (write : W -> W * result unit LinuxInputError) (record : bool) : syncing bool :=
  current <-! read_item;;
  let current_id := item_id <$> current in
  seen <-! gets (fun s => is_observed (tracker (state s)) current_id);;
  if bool_decide (current_id = Some remote_id) then
    do! modify (fun st => set_tracker (mark_observed (tracker st) current_id) st);; st_ret false
  else if bool_decide (is_Some current_id) && negb seen then
    do! offer_item current false;; st_ret false
  else
    do! write_to_clipboard write;;
    do! modify (fun st => set_generation (wrapping_add u64_max (apply_generation st) 1) st);;
    do! modify (fun st => set_tracker (mark_observed (tracker st) (Some remote_id)) st);;
    records <-! gets (fun s => records_phone_writes (state s));;
    do! (if record && records then record_origin remote_id else st_ret tt);;
    st_ret true.

(** [rx/main 5377-5403 ReceiverClipboardState::handle_text_offer] *)
Definition handle_text_offer (remote_text : string) : syncing unit :=
  do! apply_remote (item_id (Item_Text remote_text))
        (write_clipboard_text (cfg_clipboard config) remote_text) true;;
  st_ret tt.

(** The reason a rejected transfer is cancelled with. *)
Definition cancel_reason (error : ClipboardError) : ClipboardCancelReason :=
  match error with
  | EncodedTooLarge _ _ | TooManyPixels _ | InvalidDimensions => Cancel_Rejected
  | _ => Cancel_Invalid
  end.
Definition is_cancel_event (event : ClipboardEvent) : bool :=
  match event with ImageCancel _ _ => true | _ => false end.

(** A frame for the incoming transfer. *)
Definition receive_incoming (now : Instant) (event : ClipboardEvent) :
  syncing (result (option ClipboardItem) ClipboardError) := fun s =>
  let r := incoming_handle now event transfer_limits (incoming (state s)) in
  (with_state (set_incoming r.1 (state s)) s, Ok r.2).

(** [rx/main 5280-5373 ReceiverClipboardState::handle_event]: the frames of transfers. *)
Definition handle_transfer (now : Instant) (event : ClipboardEvent) : syncing bool :=
  let id := transfer_id event in
  let is_cancel := is_cancel_event event in
  active <-! gets (fun s => outgoing (state s));;
  if is_cancel && is_some_and (fun a => bool_decide (Some (out_transfer_id a) = id)) active
  then do! modify (set_outgoing None);; st_ret false
  else
    features <-! gets (fun s => peer (state s));;
    let supported :=
      if is_cancel then true
      else if is_text_transfer event then text_chunks features
      else images features && images_enabled (cfg_clipboard config) in
    if negb supported then
      match id with
      | Some transfer_id =>
          do! write_secure_frame_writer (Frame_Clipboard (ImageCancel transfer_id Cancel_Rejected));;
          st_ret false
      | None => st_ret false
      end
    else
      received <-! receive_incoming now event;;
      match received with
      | Ok (Some (Item_Image image)) =>
          apply_remote (Id_Image (image_sha256 image))
            (write_clipboard_image (cfg_clipboard config) image) false
      | Ok (Some (Item_Text text)) => do! handle_text_offer text;; st_ret true
      | Ok None => st_ret false
      | Err error =>
          do! modify (set_incoming None);;
          match id with
          | Some transfer_id =>
              if is_cancel then st_ret false
              else do! write_secure_frame_writer
                         (Frame_Clipboard (ImageCancel transfer_id (cancel_reason error)));;
                   st_ret false
          | None => st_ret false
          end
      end.

(** [rx/main 5267-5375 ReceiverClipboardState::handle_event] *)
Definition handle_event (now : Instant) (event : ClipboardEvent) : syncing bool :=
  match event with
  | TextOffer _ text => do! handle_text_offer text;; st_ret true
  | TextRequest => send_local_text_offer
  | ContentRequest => send_local_offer
  | _ => handle_transfer now event
  end.

(** [rx/main 5532-5549 ReceiverClipboardState::send_next_image_frame] *)
Definition send_next_image_frame : syncing bool :=
  active <-! gets (fun s => outgoing (state s));;
  match active with
  | None => st_ret false
  | Some transfer =>
      let next := next_event transfer in
      do! modify (set_outgoing (Some next.1));;
      match next.2 with
      | None => do! modify (set_outgoing None);; st_ret false
      | Some event =>
          let completed := match event with ImageEnd _ | TextEnd _ => true | _ => false end in
          do! write_secure_frame_writer (Frame_Clipboard event);;
          do! (if completed then modify (set_outgoing None) else st_ret tt);;
          st_ret completed
      end
  end.
End Handlers.

(** ** Background reads *)

(** [rx/main 5144-5157 BackgroundClipboardRead]: the generation of the read in flight. *)
Record BackgroundClipboardRead := { task : option Z; rerun : bool }.
Definition BackgroundClipboardRead_default : BackgroundClipboardRead :=
  {| task := None; rerun := false |}.

(** [rx/main 5160-5170 BackgroundClipboardRead::request] *)
Definition request (generation : Z) (self : BackgroundClipboardRead) : BackgroundClipboardRead :=
  match task self with
  | Some _ => {| task := task self; rerun := true |}
  | None => {| task := Some generation; rerun := rerun self |}
  end.

(** [rx/main 5172-5188 BackgroundClipboardRead::finished]: [None] while it is pending. *)
Definition finished {A} (read : A) (self : BackgroundClipboardRead) :
  BackgroundClipboardRead * option (Z * A) :=
  match task self with
  | Some generation => ({| task := None; rerun := rerun self |}, Some (generation, read))
  | None => (self, None)
  end.

(** [rx/main 5190-5192 BackgroundClipboardRead::take_rerun] *)
Definition take_rerun (self : BackgroundClipboardRead) : BackgroundClipboardRead * bool :=
  ({| task := task self; rerun := false |}, rerun self).

(** [rx/main 5203-5218 accept_background_clipboard_read] *)
Definition accept_background_clipboard_read {A} (reader : BackgroundClipboardRead)
    (current_generation read_generation : Z) (result : A) : BackgroundClipboardRead * option A :=
  let stale := negb (read_generation =? current_generation) in
  let taken := take_rerun reader in
  let reader := if taken.2 || stale then request current_generation taken.1 else taken.1 in
  (reader, if stale then None else Some result).

Section Loop.
Context {W : Type} `{WaylandClipboard W} `{Lib : ClipboardLibraries} `{FrameCodec}.
Context (config : AppConfig).

(** A session's clipboard: the handlers' state and its background reader. *)
Record Session := { sync : Sync W; reader : BackgroundClipboardRead }.

(** [rx/main 4265-4281 run_controller_session]: a change of the local clipboard. *)
Definition on_clipboard_changed (paused : bool) (s : Session) : Session :=
  if paused then s
  else {| sync := sync s; reader := request (apply_generation (state (sync s))) (reader s) |}.

(** [rx/main 4282-4313 run_controller_session]: a background read that finished with [result];
    whether something was offered, or the error that is logged. *)
Definition on_read_finished (paused : bool)
    (read : result (option ClipboardItem) LinuxInputError) (s : Session) :
  Session * option (result bool SyncError) :=
  match finished read (reader s) with
  | (_, None) => (s, None)
  | (reader, Some (generation, read)) =>
      let accepted := accept_background_clipboard_read reader
                        (apply_generation (state (sync s))) generation read in
      match accepted.2 with
      | None => ({| sync := sync s; reader := accepted.1 |}, None)
      | Some read =>
          if paused then ({| sync := sync s; reader := accepted.1 |}, None)
          else match read with
               | Err e => ({| sync := sync s; reader := accepted.1 |}, Some (Err (Sync_Input e)))
               | Ok current =>
                   let r := offer_item config current false (sync s) in
                   ({| sync := r.1; reader := accepted.1 |}, Some r.2)
               end
      end
  end.
End Loop.
Arguments Session W : clear implicits.

(** ** Properties *)

(** *** What a handler changes *)

Lemma within_gets {W A} (R : Sync W -> Sync W -> Prop) `{!PreOrder R} (f : Sync W -> A) :
  within R (gets f).
Proof. by intros s. Qed.
Lemma within_modify {W} (R : Sync W -> Sync W -> Prop) f :
  (forall s, R s (with_state (f (state s)) s)) -> within R (modify f).
Proof. intros Hf s. apply Hf. Qed.

(** Follows the structure of a handler; the hints of [sync] close its steps. *)
Ltac within_steps :=
  repeat match goal with
  | |- within _ (gets _) => apply within_gets; apply _
  | |- _ => within_step
  end; auto with sync.

Create HintDb sync.
#[export] Hint Resolve within_ret within_gets within_bind within_if within_modify : sync.

Section SyncLemmas.
Context {W : Type} `{WaylandClipboard W} `{Lib : ClipboardLibraries} `{FrameCodec}.
Context (config : AppConfig).

(** The clipboard and the phone origin stay as they are. *)
Definition same_desk (s s' : Sync W) : Prop := clipboard s' = clipboard s /\ origin s' = origin s.
#[export] Instance same_desk_preorder : PreOrder same_desk.
Proof.
  split; [by intros s|]. intros s1 s2 s3 [H1 H2] [H3 H4]. split; congruence.
Qed.

Lemma modify_same_desk f : within same_desk (modify f).
Proof. by apply within_modify. Qed.
Lemma write_frame_same_desk frame : within same_desk (write_secure_frame_writer frame).
Proof.
  intros s. unfold write_secure_frame_writer.
  destruct (encode_secure_frame frame), (writer_open s); done.
Qed.
Lemma read_item_same_desk : within same_desk (read_item config).
Proof. by intros s. Qed.
#[local] Hint Resolve modify_same_desk write_frame_same_desk read_item_same_desk : sync.

Lemma next_transfer_id_same_desk : within same_desk next_transfer_id.
Proof. unfold next_transfer_id. within_steps. Qed.
Lemma cancel_outgoing_same_desk : within same_desk cancel_outgoing.
Proof. unfold cancel_outgoing. within_steps. Qed.
#[local] Hint Resolve next_transfer_id_same_desk cancel_outgoing_same_desk : sync.

Lemma send_text_same_desk sequence text : within same_desk (send_text sequence text).
Proof. unfold send_text. within_steps. Qed.
#[local] Hint Resolve send_text_same_desk : sync.

Lemma offer_item_same_desk current force : within same_desk (offer_item config current force).
Proof. unfold offer_item. within_steps. Qed.
#[local] Hint Resolve offer_item_same_desk : sync.

(** The local content was not seen by this session yet: a copy its user made since. *)
Definition unseen (s : Sync W) (item : ClipboardItem) : Prop :=
  read_clipboard_item (cfg_clipboard config) (clipboard s) = Ok (Some item)
  /\ is_observed (tracker (state s)) (Some (item_id item)) = false.

Lemma apply_remote_unseen remote_id write record s item : unseen s item ->
  same_desk s (apply_remote config remote_id write record s).1.
Proof.
  intros [Hread Hseen]. unfold apply_remote, read_item, st_bind, gets.
  rewrite Hread. cbn [map_err fmap option_fmap option_map]. rewrite Hseen.
  case_bool_decide; [done|].
  rewrite bool_decide_eq_true_2 by eauto. cbn [andb negb].
  pose proof (offer_item_same_desk (Some item) false s) as Ho.
  by destruct (offer_item config (Some item) false s) as [s1 [b|e]].
Qed.

Lemma handle_text_offer_unseen text s item : unseen s item ->
  same_desk s (handle_text_offer config text s).1.
Proof.
  intros Hu. unfold handle_text_offer, st_bind.
  pose proof (apply_remote_unseen (item_id (Item_Text text))
                (write_clipboard_text (cfg_clipboard config) text) true s item Hu) as Ha.
  by destruct (apply_remote _ _ _ _ s) as [s1 [b|e]].
Qed.

Lemma handle_transfer_unseen now event s item : unseen s item ->
  same_desk s (handle_transfer config now event s).1.
Proof.
  intros Hu. unfold handle_transfer, st_bind at 1, gets at 1.
  destruct (is_cancel_event event && _); [done|].
  unfold st_bind at 1, gets at 1. destruct (negb _).
  { destruct (transfer_id event) as [id|]; [|done].
    apply (within_at same_desk). within_steps. }
  unfold st_bind at 1, receive_incoming.
  set (r := incoming_handle _ _ _ _). set (s1 := with_state _ s).
  assert (unseen s1 item) as Hu1 by done. assert (same_desk s s1) as Hd by done.
  clearbody s1. destruct (r.2) as [[[text|image]|]|error].
  - etrans; [exact Hd|]. pose proof (handle_text_offer_unseen text s1 item Hu1) as Ht.
    unfold st_bind. by destruct (handle_text_offer config text s1) as [s2 [[]|e]].
  - etrans; [exact Hd|]. by eapply apply_remote_unseen.
  - done.
  - etrans; [exact Hd|]. apply (within_at same_desk). within_steps.
Qed.
End SyncLemmas.

(** C29. A copy the user just made is never overwritten: while the clipboard holds an item the
    session has not seen, no event of the peer changes the clipboard or the phone origin. *)
Theorem unseen_copy_is_kept {W} `{WaylandClipboard W} `{ClipboardLibraries} `{FrameCodec}
    (config : AppConfig) (now : Instant) (event : ClipboardEvent) (s s' : Sync W)
    (r : result bool SyncError) (item : ClipboardItem) :
  read_clipboard_item (cfg_clipboard config) (clipboard s) = Ok (Some item) ->
  is_observed (tracker (state s)) (Some (item_id item)) = false ->
  handle_event config now event s = (s', r) ->
  clipboard s' = clipboard s /\ origin s' = origin s.
Proof.
  intros Hread Hseen Hev. assert (same_desk s (handle_event config now event s).1) as Hs;
    [|by rewrite Hev in Hs].
  unfold handle_event. destruct event; try by (apply (handle_transfer_unseen _ _ _ _ item)).
  - unfold st_bind. pose proof (handle_text_offer_unseen config text s item (conj Hread Hseen)) as Ht.
    by destruct (handle_text_offer config text s) as [s1 [[]|e]].
  - unfold send_local_text_offer, st_bind at 1. destruct (map_err _ _) as [[text|]|e]; [|done..].
    apply (within_at same_desk). within_steps; auto using modify_same_desk, send_text_same_desk.
  - unfold send_local_offer. apply (within_at same_desk).
    within_steps; auto using read_item_same_desk, offer_item_same_desk.
Qed.

(** *** What a phone wrote is held back *)

Definition is_cancel_frame (f : Frame) : bool :=
  match f with Frame_Clipboard (ImageCancel _ _) => true | _ => false end.

(** Nothing is sent but cancellations, and no transfer is started. *)
Definition only_cancels {W} (s s' : Sync W) : Prop :=
  (exists l, sent s' = sent s ++ l /\ Forall (fun f => is_cancel_frame f = true) l)
  /\ (outgoing (state s') = outgoing (state s) \/ outgoing (state s') = None).

Section Withholding.
Context {W : Type} `{WaylandClipboard W} `{Lib : ClipboardLibraries} `{FrameCodec}.
Context (config : AppConfig).

#[export] Instance only_cancels_preorder : PreOrder (@only_cancels W).
Proof.
  split.
  - intros s. split; [exists []; by rewrite app_nil_r|by left].
  - intros s1 s2 s3 [(l & Hl & Hf) Ho] [(k & Hk & Hg) Hp]. split.
    + exists (l ++ k). rewrite Hk, Hl, app_assoc. split; [done|by apply Forall_app].
    + destruct Hp as [Hp|Hp]; [rewrite Hp|right]; done.
Qed.

Lemma modify_only_cancels f :
  (forall st, outgoing (f st) = outgoing st \/ outgoing (f st) = None) ->
  within only_cancels (@modify W f).
Proof.
  intros Hf. apply within_modify. intros s. split; [exists []; by rewrite app_nil_r|apply Hf].
Qed.
Lemma write_cancel_only_cancels id reason :
  within only_cancels (@write_secure_frame_writer W _ (Frame_Clipboard (ImageCancel id reason))).
Proof.
  intros s. unfold write_secure_frame_writer.
  destruct (encode_secure_frame _), (writer_open s); try reflexivity.
  split; [|by left]. exists [Frame_Clipboard (ImageCancel id reason)].
  split; [done|by constructor].
Qed.
Lemma write_to_clipboard_only_cancels write : within only_cancels (@write_to_clipboard W write).
Proof. intros s. split; [exists []; by rewrite app_nil_r|by left]. Qed.
Lemma record_origin_only_cancels id : within only_cancels (@record_origin W id).
Proof. intros s. split; [exists []; by rewrite app_nil_r|by left]. Qed.
#[local] Hint Resolve write_cancel_only_cancels write_to_clipboard_only_cancels
  record_origin_only_cancels : sync.
#[local] Hint Extern 1 (within only_cancels (modify _)) =>
  apply modify_only_cancels; intros; first [left; reflexivity|right; reflexivity] : sync.

(** The clipboard holds what a phone wrote, and this session withholds it. *)
Definition held (s : Sync W) (item : ClipboardItem) : Prop :=
  read_clipboard_item (cfg_clipboard config) (clipboard s) = Ok (Some item)
  /\ origin s = Some (item_id item) /\ withholds_phone_content (state s) = true.

Lemma offer_item_held (s : Sync W) item force : origin s = Some (item_id item) ->
  withholds_phone_content (state s) = true ->
  exists st, offer_item config (Some item) force s = (with_state st s, Ok false)
             /\ outgoing st = outgoing (state s).
Proof.
  intros Ho Hw. unfold offer_item, st_bind at 1, gets at 1.
  cbn [withheld fmap option_fmap option_map]. unfold is_from_phone.
  rewrite Hw, Ho, bool_decide_eq_true_2 by done. by eexists.
Qed.

Lemma offer_item_only_cancels (s : Sync W) item force : origin s = Some (item_id item) ->
  withholds_phone_content (state s) = true -> only_cancels s (offer_item config (Some item) force s).1.
Proof.
  intros Ho Hw. destruct (offer_item_held s item force Ho Hw) as (st & -> & Hst). simpl.
  split; [exists []; by rewrite app_nil_r|by left].
Qed.

Lemma apply_remote_held remote_id write record (s : Sync W) item : held s item ->
  only_cancels s (apply_remote config remote_id write record s).1.
Proof.
  intros (Hread & Ho & Hw). unfold apply_remote, st_bind at 1, read_item. rewrite Hread.
  cbn [map_err fmap option_fmap option_map]. unfold st_bind at 1, gets at 1.
  case_bool_decide; [apply (within_at only_cancels); within_steps|].
  destruct (_ && _).
  - unfold st_bind. pose proof (offer_item_only_cancels s item false Ho Hw) as Hc.
    by destruct (offer_item config (Some item) false s) as [s1 [b|e]].
  - apply (within_at only_cancels). within_steps.
Qed.

Lemma handle_text_offer_held text (s : Sync W) item : held s item ->
  only_cancels s (handle_text_offer config text s).1.
Proof.
  intros Hh. unfold handle_text_offer, st_bind.
  pose proof (apply_remote_held (item_id (Item_Text text))
                (write_clipboard_text (cfg_clipboard config) text) true s item Hh) as Hc.
  by destruct (apply_remote config _ _ _ s) as [s1 [b|e]].
Qed.

Lemma handle_transfer_held now event (s : Sync W) item : held s item ->
  only_cancels s (handle_transfer config now event s).1.
Proof.
  intros Hh. unfold handle_transfer, st_bind at 1, gets at 1.
  destruct (is_cancel_event event && _); [apply (within_at only_cancels); within_steps|].
  unfold st_bind at 1, gets at 1. destruct (negb _).
  { apply (within_at only_cancels). within_steps. }
  unfold st_bind at 1, receive_incoming.
  set (r := incoming_handle _ _ _ _). set (s1 := with_state _ s).
  assert (held s1 item) as Hh1 by done.
  assert (only_cancels s s1) as Hc by (split; [exists []; by rewrite app_nil_r|by left]).
  clearbody s1. etrans; [exact Hc|]. destruct (r.2) as [[[text|image]|]|error].
  - pose proof (handle_text_offer_held text s1 item Hh1) as Ht.
    unfold st_bind. by destruct (handle_text_offer config text s1) as [s2 [[]|e]].
  - by eapply apply_remote_held.
  - done.
  - apply (within_at only_cancels). within_steps.
Qed.
End Withholding.

(** While the clipboard holds what a phone wrote and phone content is not forwarded, a session
    with a PC sends none of it: neither an event of the peer other than a text request, nor a
    change of the clipboard, makes it send anything but cancellations or start a transfer. *)
Theorem phone_content_is_withheld {W} `{WaylandClipboard W} `{ClipboardLibraries} `{FrameCodec}
    (config : AppConfig) (now : Instant) (event : ClipboardEvent) (s : Sync W)
    (item : ClipboardItem) :
  read_clipboard_item (cfg_clipboard config) (clipboard s) = Ok (Some item) ->
  origin s = Some (item_id item) -> withholds_phone_content (state s) = true ->
  (event <> TextRequest -> only_cancels s (handle_event config now event s).1)
  /\ only_cancels s (send_changed_offer config s).1
  /\ forall force, only_cancels s (offer_item config (Some item) force s).1.
Proof.
  intros Hread Ho Hw.
  assert (held config s item) as Hh by done. split_and!.
  - intros Hne. unfold handle_event.
    destruct event; try by (apply (handle_transfer_held _ _ _ _ item)).
    + unfold st_bind. pose proof (handle_text_offer_held config text s item Hh) as Ht.
      by destruct (handle_text_offer config text s) as [s1 [[]|e]].
    + done.
    + unfold send_local_offer, st_bind, read_item. rewrite Hread. by apply offer_item_only_cancels.
  - unfold send_changed_offer, st_bind, read_item. rewrite Hread. by apply offer_item_only_cancels.
  - intros force. by apply offer_item_only_cancels.
Qed.

(** A text request defeats the withholding: whatever text a phone wrote is sent to a PC that
    asks for text, if it fits one frame and nothing else is being sent. *)
Theorem text_request_reveals_phone_text {W} `{WaylandClipboard W} `{ClipboardLibraries} `{FrameCodec}
    (config : AppConfig) (now : Instant) (s : Sync W) (text : string) :
  read_clipboard_text (cfg_clipboard config) (clipboard s) = Ok (Some text) ->
  origin s = Some (item_id (Item_Text text)) -> withholds_phone_content (state s) = true ->
  outgoing (state s) = None -> writer_open s = true ->
  (forall sequence, fits_secure_frame (Frame_Clipboard (TextOffer sequence text)) = true) ->
  exists sequence s', handle_event config now TextRequest s = (s', Ok true)
    /\ sent s' = sent s ++ [Frame_Clipboard (TextOffer sequence text)].
Proof.
  intros Hread Ho Hw Hout Hopen Hfits.
  unfold handle_event, send_local_text_offer, st_bind, gets, modify. rewrite Hread.
  cbn [map_err offer_current snd fst]. unfold send_text, cancel_outgoing, st_bind, gets.
  cbn [with_state state set_tracker outgoing]. rewrite Hout. cbn [st_ret]. rewrite Hfits.
  unfold write_secure_frame_writer.
  set (sequence := saturating_add _ _ _).
  destruct (encode_secure_frame_cases (Frame_Clipboard (TextOffer sequence text)))
    as [(p & _ & _ & -> & _)|(e & Hf & _)]; [|by rewrite Hfits in Hf].
  cbn [with_state writer_open]. rewrite Hopen. by eexists sequence, _.
Qed.

(** *** Background reads catch up *)

(** What happens around the background reader: a change of the clipboard is noticed, a remote item
    is written to it, or the read in flight finishes. *)
Inductive read_op := Op_changed | Op_applied | Op_finished.

(** The reader and the generation, with a history: [now_] counts operations; [started] is when the
    last read started, [changed] and [applied] when the last change and the last remote write
    were, and [accepted] the start of the last read whose result was used, with the last remote
    write before its use. *)
Record Reads := {
  bg : BackgroundClipboardRead;
  generation : Z;
  now_ : nat;
  started : nat;
  changed : nat;
  applied : nat;
  accepted : option (nat * nat);
}.
Definition Reads_new : Reads :=
  {| bg := BackgroundClipboardRead_default; generation := 0; now_ := 0; started := 0; changed := 0;
     applied := 0; accepted := None |}.

(** When the read in flight started, if [t] is now. *)
Definition start_of (t : nat) (before after : BackgroundClipboardRead) (s : nat) : nat :=
  match task before, task after with None, Some _ => t | _, _ => s end.

Definition read_step (r : Reads) (op : read_op) : Reads :=
  let t := S (now_ r) in
  match op with
  | Op_changed =>
      let b := request (generation r) (bg r) in
      {| bg := b; generation := generation r; now_ := t; started := start_of t (bg r) b (started r);
         changed := t; applied := applied r; accepted := accepted r |}
  | Op_applied =>
      {| bg := bg r; generation := wrapping_add u64_max (generation r) 1; now_ := t;
         started := started r; changed := changed r; applied := t; accepted := accepted r |}
  | Op_finished =>
      match finished tt (bg r) with
      | (_, None) => {| bg := bg r; generation := generation r; now_ := t; started := started r;
                        changed := changed r; applied := applied r; accepted := accepted r |}
      | (b, Some (g, _)) =>
          let a := accept_background_clipboard_read b (generation r) g tt in
          {| bg := a.1; generation := generation r; now_ := t; started := start_of t b a.1 (started r);
             changed := changed r; applied := applied r;
             accepted := match a.2 with
                         | Some _ => Some (started r, applied r)
                         | None => accepted r
                         end |}
      end
  end.
Definition run_reads (ops : list read_op) : Reads := fold_left read_step ops Reads_new.

(** A used read saw no remote write since it started; an idle reader has nothing left to read; a
    read in flight has the generation of its start, and covers the last change or will run again. *)
Record reads_inv (r : Reads) : Prop := {
  ri_generation : 0 <= generation r <= Z.of_nat (now_ r);
  ri_times : (changed r <= now_ r)%nat /\ (applied r <= now_ r)%nat;
  ri_accepted : forall st ap, accepted r = Some (st, ap) -> (ap <= st)%nat;
  ri_idle : task (bg r) = None ->
    rerun (bg r) = false
    /\ (changed r = 0%nat \/ exists st ap, accepted r = Some (st, ap) /\ (changed r <= st)%nat);
  ri_busy : forall g, task (bg r) = Some g ->
    g <= generation r /\ (g = generation r -> (applied r <= started r)%nat)
    /\ (rerun (bg r) = false -> (changed r <= started r)%nat);
}.

Lemma reads_inv_new : reads_inv Reads_new.
Proof. split; cbn; auto; done || lia. Qed.

#[local] Arguments wrapping_add : simpl never.
Lemma reads_inv_step r op : Z.of_nat (now_ r) < u64_max -> reads_inv r -> reads_inv (read_step r op).
Proof.
  intros Hlen [Hg [Hch Hap] Hacc Hidle Hbusy].
  destruct r as [[[g|] rr] gen n st ch ap acc]; cbn in *.
  - destruct (Hbusy g eq_refl) as (Hle & Happ & Hrr). clear Hbusy Hidle. destruct op.
    + split; cbn; try done; try lia. intros g' [= <-]. split_and!; [done|done|done].
    + cbn. rewrite (wrapping_add_small u64_max gen 1) by lia.
      split; cbn; try done; try lia.
      intros g' [= <-]. split_and!; [lia|lia|done].
    + cbn. unfold accept_background_clipboard_read. cbn.
      destruct (Z.eqb_spec g gen) as [->|Hne], rr; cbn; split; cbn; try done; try lia.
      all: try (intros ? [= <-]; split_and!; [lia|lia|lia]).
      all: try (intros ? ? [= <- <-]; auto).
      intros _. split; [done|]. right. exists st, ap. auto.
  - destruct (Hidle eq_refl) as [-> Hdone]. clear Hidle Hbusy. destruct op.
    + split; cbn; try done; try lia. intros g' [= <-]. split_and!; lia.
    + cbn. rewrite (wrapping_add_small u64_max gen 1) by lia.
      split; cbn; try done; try lia.
    + split; cbn; try done; try lia.
Qed.

Lemma reads_inv_run ops : len ops <= u64_max ->
  reads_inv (run_reads ops) /\ Z.of_nat (now_ (run_reads ops)) = len ops.
Proof.
  induction ops as [|op ops IH] using rev_ind; intros Hlen.
  - split; [apply reads_inv_new|done].
  - rewrite len_app, len_cons, len_nil in *. destruct IH as [Hinv Hn]; [lia|].
    unfold run_reads in *. rewrite fold_left_app. cbn [fold_left].
    split; [apply reads_inv_step; [lia|done]|].
    rewrite <- Hn. destruct op; cbn; [lia|lia|].
    destruct (finished _ _) as [b [[g []]|]]; cbn; lia.
Qed.

(** Two reads that finish undisturbed leave the reader idle. *)
Lemma two_finishes_idle r : task (bg (read_step (read_step r Op_finished) Op_finished)) = None.
Proof.
  destruct r as [[[g|] rr] gen n st ch ap acc]; cbn; [|done].
  unfold accept_background_clipboard_read. cbn.
  destruct (Z.eqb_spec g gen), rr; cbn; unfold accept_background_clipboard_read; cbn;
    rewrite ?Z.eqb_refl; done.
Qed.

(** Background reads lose no change and use no stale result.  However changes, remote writes
    and finished reads interleave: the last result used comes from a read with no remote write
    since it started, and once two more reads finish undisturbed the reader is idle, and the last
    result used comes from a read that started no earlier than the last change. *)
Theorem background_reads_catch_up (ops : list read_op) :
  len ops + 2 <= u64_max ->
  (forall st ap, accepted (run_reads ops) = Some (st, ap) -> (ap <= st)%nat)
  /\ let r := run_reads (ops ++ [Op_finished; Op_finished]) in
     task (bg r) = None
     /\ (changed r = 0%nat
         \/ exists st ap, accepted r = Some (st, ap) /\ (changed r <= st)%nat /\ (ap <= st)%nat).
Proof.
  intros Hlen. split; [apply ri_accepted, reads_inv_run; lia|].
  set (r := run_reads _). assert (task (bg r) = None) as Hidle.
  { unfold r, run_reads. rewrite fold_left_app. apply two_finishes_idle. }
  assert (reads_inv r) as Hinv.
  { apply reads_inv_run. rewrite len_app, !len_cons, len_nil. lia. }
  split; [done|]. destruct (ri_idle _ Hinv Hidle) as [_ [?|(st & ap & Ha & Hc)]]; [by left|right].
  exists st, ap. split_and!; [done|done|]. by eapply ri_accepted.
Qed.

Example background_reads_catch_up_witness :
  let r := run_reads ([Op_changed; Op_applied; Op_changed] ++ [Op_finished; Op_finished]) in
  task (bg r) = None
  /\ (changed r = 0%nat
      \/ exists st ap, accepted r = Some (st, ap) /\ (changed r <= st)%nat /\ (ap <= st)%nat).
Proof.
  apply (background_reads_catch_up [Op_changed; Op_applied; Op_changed]). vm_compute. congruence.
Defined.

(** *** A copy reaches the peer once *)

(** After a successful wl-copy of text, wl-paste prints that text and no image is offered. *)
Class WaylandClipboardLaws W `{WaylandClipboard W} := {
  copy_pastes text w w' : wl_copy "text/plain" text w = (w', Ok true) ->
    wl_paste_text w' = Ok (Some text);
  copy_offers_no_image text w w' : wl_copy "text/plain" text w = (w', Ok true) ->
    exists types, wl_list_types w' = Ok (Some types)
      /\ Forall (fun line => starts_with "image/" line = false)
           (map trim (str_lines (from_utf8_lossy types)));
}.

Section Echo.
Context {W : Type} `{WaylandClipboardLaws W} `{Lib : ClipboardLibraries} `{FrameCodec}.

Lemma no_supported_type offered :
  Forall (fun line => starts_with "image/" line = false) offered ->
  List.find (fun mime => existsb (fun line => str_eqb line mime) offered) supported_types = None
  /\ existsb (starts_with "image/") offered = false.
Proof.
  intros Hno. rewrite Forall_forall in Hno. split.
  - destruct (List.find _ _) as [mime|] eqn:E; [|done]. apply find_some in E as [Hin Hex].
    apply existsb_exists in Hex as (line & Hl & Heq). apply str_eqb_spec in Heq as ->.
    apply list_elem_of_In in Hl. specialize (Hno _ Hl). unfold supported_types in Hin. simpl in Hin.
    repeat (destruct Hin as [<-|Hin]; [discriminate Hno|]). done.
  - apply not_true_iff_false. intros Hex. apply existsb_exists in Hex as (line & Hl & Heq).
    apply list_elem_of_In in Hl. by rewrite (Hno _ Hl) in Heq.
Qed.

(** What was written is read back. *)
Lemma read_after_write_text config text w w' :
  clip_enabled config = true -> utf8_valid (str_bytes text) = true ->
  write_clipboard_text config text w = (w', Ok tt) ->
  read_clipboard_item config w' = Ok (Some (Item_Text text)).
Proof.
  intros Hen Hu. unfold write_clipboard_text. rewrite Hen. cbn [negb].
  destruct (clip_max_bytes config <? str_len text) eqn:Hmax; [done|].
  unfold copied. destruct (wl_copy _ _ w) as [w1 [[]|]] eqn:Hcopy; [|done..]. simpl.
  intros [= <-]. pose proof (copy_pastes _ _ _ Hcopy) as Hpaste.
  destruct (copy_offers_no_image _ _ _ Hcopy) as (types & Htypes & Hno).
  apply no_supported_type in Hno as [Hfind Hex].
  assert (read_clipboard_text config w1 = Ok (Some text)) as Htext.
  { unfold read_clipboard_text. rewrite Hen, Hpaste. simpl. unfold str_len in Hmax. rewrite Hmax.
    simpl. by rewrite from_utf8_lossy_str. }
  unfold read_clipboard_item. rewrite Hen, Htext, Htypes. cbn [negb io_err map_err].
  rewrite Hfind, Hex. by destruct (images_enabled config).
Qed.

(** Content the session has seen is not offered. *)
Lemma changed_offer_of_seen config (s : Sync W) current :
  read_clipboard_item (cfg_clipboard config) (clipboard s) = Ok current ->
  is_observed (tracker (state s)) (item_id <$> current) = true ->
  exists s', send_changed_offer config s = (s', Ok false) /\ sent s' = sent s
    /\ outgoing (state s') = outgoing (state s) /\ clipboard s' = clipboard s.
Proof.
  intros Hread Hseen. unfold send_changed_offer, st_bind, read_item. rewrite Hread.
  cbn [map_err]. unfold offer_item, st_bind, gets.
  destruct (withheld _ s); [by eexists|]. unfold offer_if_changed. rewrite Hseen. simpl.
  by eexists.
Qed.
End Echo.

(** A text copied on one computer reaches the other and comes back from neither: a session
    whose user copied a text that fits a frame offers it; a peer whose own clipboard has nothing
    it has not seen writes it, and reads it back; and the change notifications that follow make
    neither side offer anything again. *)
Theorem copied_text_reaches_the_peer_once {W} `{WaylandClipboardLaws W} `{ClipboardLibraries}
    `{FrameCodec} (configA configB : AppConfig) (now : Instant) (a b : Sync W) (text : string)
    (theirs : option ClipboardItem) (w : W) :
  utf8_valid (str_bytes text) = true ->
  (forall sequence, fits_secure_frame (Frame_Clipboard (TextOffer sequence text)) = true) ->
  read_clipboard_item (cfg_clipboard configA) (clipboard a) = Ok (Some (Item_Text text)) ->
  is_observed (tracker (state a)) (Some (item_id (Item_Text text))) = false ->
  withheld (Some (item_id (Item_Text text))) a = false ->
  outgoing (state a) = None -> writer_open a = true ->
  clip_enabled (cfg_clipboard configB) = true ->
  read_clipboard_item (cfg_clipboard configB) (clipboard b) = Ok theirs ->
  is_observed (tracker (state b)) (item_id <$> theirs) = true ->
  item_id <$> theirs <> Some (item_id (Item_Text text)) ->
  write_clipboard_text (cfg_clipboard configB) text (clipboard b) = (w, Ok tt) ->
  exists sequence a' b',
    send_changed_offer configA a = (a', Ok true)
    /\ sent a' = sent a ++ [Frame_Clipboard (TextOffer sequence text)]
    /\ handle_event configB now (TextOffer sequence text) b = (b', Ok true)
    /\ read_clipboard_item (cfg_clipboard configB) (clipboard b') = Ok (Some (Item_Text text))
    /\ sent b' = sent b
    /\ (exists a'', send_changed_offer configA a' = (a'', Ok false) /\ sent a'' = sent a')
    /\ exists b'', send_changed_offer configB b' = (b'', Ok false) /\ sent b'' = sent b'.
Proof.
  intros Hu Hfits Hra Hna Hwa Hoa Hopen Hen Hrb Hsb Hdiff Hwrite.
  set (sequence := saturating_add u64_max (tracker_sequence (tracker (state a))) 1).
  assert (exists a', send_changed_offer configA a = (a', Ok true)
    /\ sent a' = sent a ++ [Frame_Clipboard (TextOffer sequence text)]
    /\ clipboard a' = clipboard a
    /\ is_observed (tracker (state a')) (Some (item_id (Item_Text text))) = true)
    as (a' & Ha' & Hsent & Hclip & Hobs).
  { unfold send_changed_offer, st_bind, read_item. rewrite Hra. cbn [map_err].
    unfold offer_item, st_bind, gets, modify. cbn [fmap option_fmap option_map]. rewrite Hwa.
    unfold offer_if_changed. rewrite Hna. cbn [offer_current snd fst]. fold sequence.
    unfold send_text, cancel_outgoing, st_bind, gets.
    cbn [with_state state set_tracker outgoing]. rewrite Hoa. cbn [st_ret]. rewrite Hfits.
    unfold write_secure_frame_writer.
    destruct (encode_secure_frame_cases (Frame_Clipboard (TextOffer sequence text)))
      as [(p & _ & _ & -> & _)|(e & Hf & _)]; [|by rewrite Hfits in Hf].
    cbn [with_state writer_open]. rewrite Hopen. eexists. split_and!; [done..|].
    apply bool_decide_eq_true. done. }
  assert (exists b', handle_event configB now (TextOffer sequence text) b = (b', Ok true)
    /\ clipboard b' = w /\ sent b' = sent b
    /\ is_observed (tracker (state b')) (Some (item_id (Item_Text text))) = true)
    as (b' & Hb' & Hcb & Hsent' & Hobs').
  { unfold handle_event, handle_text_offer, apply_remote, st_bind, read_item, gets, modify.
    rewrite Hrb. cbn [map_err]. rewrite bool_decide_eq_false_2 by done. rewrite Hsb.
    rewrite andb_false_r. unfold write_to_clipboard. rewrite Hwrite. cbn [snd fst map_err].
    cbn [with_state state set_tracker set_generation records_phone_writes].
    destruct (records_phone_writes (state b)); simpl; eexists; (split_and!; [done..|]);
      by apply bool_decide_eq_true. }
  assert (read_clipboard_item (cfg_clipboard configB) (clipboard b') = Ok (Some (Item_Text text)))
    as Hrb' by (rewrite Hcb; by eapply read_after_write_text).
  exists sequence, a', b'. split_and!; [done..| |].
  - destruct (changed_offer_of_seen configA a' (Some (Item_Text text))) as (a'' & ? & ? & _);
      [by rewrite Hclip|done|]. by exists a''.
  - destruct (changed_offer_of_seen configB b' (Some (Item_Text text))) as (b'' & ? & ? & _);
      [done|done|]. by exists b''.
Qed.

(** *** A queued transfer is sent whole *)

(** [n] ticks of the timer that sends the next frame of a transfer. *)
Fixpoint ticks {W} `{FrameCodec} (n : nat) : stateful (Sync W) SyncError unit :=
  match n with
  | O => st_ret tt
  | S n => do! send_next_image_frame;; ticks n
  end.

Lemma write_frame_open {W} `{FrameCodec} (s : Sync W) frame :
  writer_open s = true -> fits_secure_frame frame = true ->
  write_secure_frame_writer frame s
  = ({| state := state s; clipboard := clipboard s; origin := origin s;
        sent := sent s ++ [frame]; writer_open := true |}, Ok tt).
Proof.
  intros Hopen Hfits. unfold write_secure_frame_writer.
  destruct (encode_secure_frame_cases frame) as [(p & _ & _ & -> & _)|(e & Hf & _)];
    [by rewrite Hopen|congruence].
Qed.

(** Only the last event of a transfer ends it. *)
Lemma next_event_end o o' e : next_event o = (o', Some e) ->
  match e with ImageEnd _ | TextEnd _ => true | _ => false end
  = match out_stage o' with Stage_Done => true | _ => false end.
Proof.
  unfold next_event, end_event. destruct (out_stage o); [| |intros [= <- <-]; by destruct (out_payload o)|done].
  - intros [= <- <-]. by destruct (out_payload o).
  - destruct (_ <=? _); intros [= <- <-]; by destruct (out_payload o).
Qed.

Lemma drain_done n o : out_stage o = Stage_Done -> drain n o = [].
Proof. destruct n; [done|]. simpl. unfold next_event. by intros ->. Qed.

(** A transfer that was queued is sent whole and leaves nothing behind: as many ticks as it
    has frames, and one more if it has none left, write exactly the frames [next_event] produces,
    in order, and clear the transfer; further ticks do nothing. *)
Theorem queued_transfer_is_sent {W} `{FrameCodec} (s : Sync W) (o : OutgoingClipboardTransfer)
    (n : nat) :
  outgoing (state s) = Some o -> writer_open s = true ->
  Forall (fun e => fits_secure_frame (Frame_Clipboard e) = true) (drain n o) ->
  (length (drain n o) < n)%nat ->
  exists s', ticks n s = (s', Ok tt) /\ sent s' = sent s ++ map Frame_Clipboard (drain n o)
    /\ outgoing (state s') = None /\ clipboard s' = clipboard s /\ writer_open s' = true
    /\ forall m, ticks m s' = (s', Ok tt).
Proof.
  assert (forall m (t : Sync W), outgoing (state t) = None -> ticks m t = (t, Ok tt)) as Hidle.
  { induction m as [|m IH]; intros t Ht; [done|]. cbn [ticks]. unfold st_bind at 1.
    unfold send_next_image_frame, st_bind at 1, gets. rewrite Ht. by apply IH. }
  revert s o. induction n as [|n IH]; intros s o Ho Hopen Hfits Hlen; [simpl in Hlen; lia|].
  cbn [ticks]. unfold st_bind at 1, send_next_image_frame, st_bind at 1, gets. rewrite Ho.
  rewrite drain_S in *. destruct (next_event o) as [o' [e|]] eqn:Hnext.
  - cbn [snd fst]. apply Forall_cons in Hfits as [Hf Hfits]. simpl in Hlen.
    unfold modify at 1, st_bind at 1. unfold st_bind at 1.
    rewrite write_frame_open by done. rewrite (next_event_end o o' e Hnext).
    set (s1 := {| sent := _ |}). destruct (out_stage o') eqn:Hstage.
    4:{ rewrite (drain_done n o' Hstage). unfold st_bind, modify, st_ret.
        rewrite Hidle by done. eexists. split_and!; [done..|]. intros m. by apply Hidle. }
    all: unfold st_bind, st_ret;
      destruct (IH s1 o') as (s2 & Ht & Hs & Hout & Hc & Hop & Hm); [done..|lia|];
      exists s2; split_and!; try done;
      rewrite Hs; unfold s1; cbn [sent with_state map]; by rewrite <- app_assoc.
  - cbn [snd fst]. unfold st_bind, modify, st_ret. rewrite Hidle by done.
    eexists. split_and!; [done|by rewrite app_nil_r|done..|]. intros m. by apply Hidle.
Qed.

(** *** Witnesses *)

Module SampleSync.
(** A clipboard that holds text or nothing. *)
#[export] Instance text_clipboard : WaylandClipboard (option bytes) := {
  wl_list_types w := Ok (Some (match w with Some _ => str_bytes "text/plain" | None => [] end));
  wl_paste_text w := Ok w;
  wl_paste mime w := Ok ([], false);
  wl_copy mime contents w := (Some contents, Ok true);
}.
#[export] Instance text_clipboard_laws : WaylandClipboardLaws (option bytes).
Proof.
  split.
  - intros text w w' [= <-]. done.
  - intros text w w' [= <-]. exists (str_bytes "text/plain"). split; [done|].
    constructor; [reflexivity|constructor].
Qed.
#[export] Instance short_codec : FrameCodec := {
  encode_frame f := match f with
                    | Frame_Clipboard (TextOffer _ text) => Ok (str_bytes text)
                    | _ => Ok []
                    end;
  decode_frame b := Err "unused"%string;
}.
#[export] Instance libraries : ClipboardLibraries := sample_libraries.

Definition features : ClipboardPeerFeatures := {| images := true; text_chunks := true |}.
Definition session (observed : option ClipboardContentId) (w : option bytes) : Sync (option bytes) :=
  {| state := {| tracker := ClipboardChangeTracker_new observed; outgoing := None; incoming := None;
                 next_id := 0; peer := features; apply_generation := 0;
                 records_phone_writes := false; withholds_phone_content := false |};
     clipboard := w; origin := None; sent := []; writer_open := true |}.
Definition text_id (text : string) : ClipboardContentId := item_id (Item_Text text).
(** A session with a PC that holds back what a phone wrote, and a phone wrote [text]. *)
Definition holding (text : string) : Sync (option bytes) :=
  let s := session None (Some (str_bytes text)) in
  {| state := {| tracker := tracker (state s); outgoing := None; incoming := None; next_id := 0;
                 peer := features; apply_generation := 0; records_phone_writes := false;
                 withholds_phone_content := true |};
     clipboard := clipboard s; origin := Some (text_id text); sent := []; writer_open := true |}.
End SampleSync.
Import SampleSync.

Example unseen_copy_is_kept_witness :
  exists s' r, handle_event receiver_default 0 (TextOffer 1 "theirs")
                 (session None (Some (str_bytes "mine"))) = (s', r)
    /\ clipboard s' = Some (str_bytes "mine") /\ origin s' = None.
Proof.
  destruct (handle_event receiver_default 0 (TextOffer 1 "theirs")
              (session None (Some (str_bytes "mine")))) as [s' r] eqn:E.
  exists s', r. split; [done|].
  apply (unseen_copy_is_kept receiver_default 0 (TextOffer 1 "theirs")
           (session None (Some (str_bytes "mine"))) s' r (Item_Text "mine"));
    [vm_compute; reflexivity|vm_compute; reflexivity|exact E].
Defined.

Example phone_content_is_withheld_witness :
  only_cancels (holding "secret") (handle_event receiver_default 0 ContentRequest (holding "secret")).1.
Proof.
  refine (proj1 (phone_content_is_withheld receiver_default 0 ContentRequest (holding "secret")
                   (Item_Text "secret") _ _ _) _); [vm_compute; reflexivity..|discriminate].
Defined.

Example text_request_reveals_phone_text_witness :
  exists sequence s', handle_event receiver_default 0 TextRequest (holding "secret") = (s', Ok true)
    /\ sent s' = [] ++ [Frame_Clipboard (TextOffer sequence "secret")].
Proof.
  apply (text_request_reveals_phone_text receiver_default 0 (holding "secret") "secret");
    first [vm_compute; reflexivity|intros sequence; reflexivity].
Defined.

Example copied_text_reaches_the_peer_once_witness :
  exists sequence a' b',
    send_changed_offer receiver_default (session None (Some (str_bytes "hello"))) = (a', Ok true)
    /\ sent a' = [] ++ [Frame_Clipboard (TextOffer sequence "hello")]
    /\ handle_event receiver_default 0 (TextOffer sequence "hello") (session None None) = (b', Ok true)
    /\ read_clipboard_item (cfg_clipboard receiver_default) (clipboard b')
       = Ok (Some (Item_Text "hello"))
    /\ sent b' = []
    /\ (exists a'', send_changed_offer receiver_default a' = (a'', Ok false) /\ sent a'' = sent a')
    /\ exists b'', send_changed_offer receiver_default b' = (b'', Ok false) /\ sent b'' = sent b'.
Proof.
  apply (copied_text_reaches_the_peer_once receiver_default receiver_default 0
           (session None (Some (str_bytes "hello"))) (session None None) "hello" None
           (Some (str_bytes "hello")));
    first [vm_compute; reflexivity|intros sequence; reflexivity|vm_compute; congruence].
Defined.

Definition queued (text : string) : Sync (option bytes) :=
  let s := session None None in
  with_state (set_outgoing (Some (outgoing_text 7 1 text)) (state s)) s.

Example queued_transfer_is_sent_witness :
  exists s', ticks 4 (queued "hello") = (s', Ok tt)
    /\ sent s' = [] ++ map Frame_Clipboard (drain 4 (outgoing_text 7 1 "hello"))
    /\ outgoing (state s') = None /\ clipboard s' = None /\ writer_open s' = true
    /\ forall m, ticks m s' = (s', Ok tt).
Proof.
  apply (queued_transfer_is_sent (queued "hello") (outgoing_text 7 1 "hello") 4);
    [reflexivity|reflexivity|repeat constructor|vm_compute; lia].
Defined.

(** Two users who copy at the same time end up with each other's text: both offers were sent
    before either arrived, each side then counts its own copy as seen, and both write. *)
Example simultaneous_copies_swap :
  let a := session None (Some (str_bytes "from a")) in
  let b := session None (Some (str_bytes "from b")) in
  let a1 := (send_changed_offer receiver_default a).1 in
  let b1 := (send_changed_offer receiver_default b).1 in
  sent a1 = [Frame_Clipboard (TextOffer 1 "from a")]
  /\ sent b1 = [Frame_Clipboard (TextOffer 1 "from b")]
  /\ let a2 := (handle_event receiver_default 0 (TextOffer 1 "from b") a1).1 in
     let b2 := (handle_event receiver_default 0 (TextOffer 1 "from a") b1).1 in
     clipboard a2 = Some (str_bytes "from b") /\ clipboard b2 = Some (str_bytes "from a")
     /\ sent (send_changed_offer receiver_default a2).1 = sent a1
     /\ sent (send_changed_offer receiver_default b2).1 = sent b1.
Proof. vm_compute. repeat split. Qed.
