(* ===== verification/Identity.v ===== *)
(** * Identities: fingerprints, pairing codes, pins and their files

    The rest of [crates/edge-crypto/src/lib.rs].  SHA-256 and hexadecimal
    encoding are other crates' and the class [Hashing].  [write_atomic] runs on a
    model of a file system that may fail or crash between any two calls; [unix] says for which
    system the program is built. *)
From stdpp Require Import pretty.
From Stdlib Require Import Ascii.
From S2P Require Export Text Transport NotificationStore.

(** ** Fingerprints and pairing codes *)

Class Hashing := {
  Sha256_digest : bytes -> bytes;
  hex_encode : bytes -> string;
}.

Class HashingLaws `{Hashing} := {
  digest_len b : len (Sha256_digest b) = 32;
  digest_bytes b : is_bytes (Sha256_digest b);
  hex_len b : str_len (hex_encode b) = 2 * len b;
  hex_digits b : all_bytes is_ascii_hexdigit (hex_encode b) = true;
}.

(** [&s[first..last]]. *)
Definition str_slice (first last : nat) (s : string) : string :=
  String.substring first (last - first) s.

Section Fingerprints.
Context `{Hashing}.

(** [edge-crypto 235-245 fingerprint] *)
Definition fingerprint (public_key : bytes) : string :=
  let hex := hex_encode (Sha256_digest public_key) in
  (str_slice 0 8 hex ++ ":" ++ str_slice 8 16 hex ++ ":" ++ str_slice 16 24 hex ++ ":"
   ++ str_slice 24 32 hex)%string.

(** The two fingerprints, the lesser by their bytes first. *)
Definition in_order (a b : string) : string * string := if String.leb a b then (a, b) else (b, a).

(** The text whose hash is the pairing code. *)
Definition pairing_text (first second : string) : bytes :=
  str_bytes "edge-kvm-pairing-v1" ++ [0] ++ str_bytes first ++ [0] ++ str_bytes second.

(** [format!("{value:06}")] of a value below a million. *)
Definition format_06 (value : Z) : string :=
  bytes_str ((fun k => 48 + value / 10 ^ k mod 10) <$> [5; 4; 3; 2; 1; 0]).

(** [edge-crypto 247-260 pairing_code] *)
Definition pairing_code (first_fingerprint second_fingerprint : string) : string :=
  let '(first, second) := in_order first_fingerprint second_fingerprint in
  let digest := Sha256_digest (pairing_text first second) in
  format_06 (be_decode (take 4 digest) mod 1000000).
End Fingerprints.

(** [edge-crypto 562-567 vec_to_key] *)
Definition vec_to_key (b : bytes) : result bytes CryptoError :=
  if len b =? 32 then Ok b else Err (InvalidKeyLength (len b)).

(** ** Pins *)

(** [edge-crypto 128-134 PhoneFeature] *)
Inductive PhoneFeature := Feature_Clipboard | Feature_Notifications | Feature_Audio.
#[export] Instance PhoneFeature_eq_dec : EqDecision PhoneFeature.
Proof. solve_decision. Defined.
#[export, refine] Instance PhoneFeature_countable : Countable PhoneFeature := {
  encode f := match f with
              | Feature_Clipboard => 1 | Feature_Notifications => 2 | Feature_Audio => 3
              end%positive;
  decode p := match p with
              | 1 => Some Feature_Clipboard | 2 => Some Feature_Notifications
              | 3 => Some Feature_Audio | _ => None
              end%positive;
}.
Proof. by intros []. Defined.

(** [edge-crypto 137-139 PhoneFeature::all] *)
Definition PhoneFeature_all : gset PhoneFeature :=
  {[ Feature_Clipboard; Feature_Notifications; Feature_Audio ]}.

(** [edge-crypto 120-125 PinnedPhone] *)
Record PinnedPhone := { phone_fingerprint : string; allowed_features : gset PhoneFeature }.

(** [edge-crypto 103-113 PinStore]; a [PinnedPeer] is its fingerprint. *)
Record PinStore := { pin_peers : gmap string string; pin_phones : gmap string PinnedPhone }.

(** [edge-crypto 223-227 PinStatus] *)
Inductive PinStatus := Trusted | Unknown | Changed (expected : string).

Definition pin_status_of (pinned : option string) (fingerprint : string) : PinStatus :=
  match pinned with
  | Some f => if str_eqb f fingerprint then Trusted else Changed f
  | None => Unknown
  end.

(** [edge-crypto 155-163 PinStore::status] *)
Definition pin_status (s : PinStore) (peer fingerprint : string) : PinStatus :=
  pin_status_of (pin_peers s !! peer) fingerprint.
(** [edge-crypto 165-172 PinStore::pin] *)
Definition pin (peer fingerprint : string) (s : PinStore) : PinStore :=
  {| pin_peers := <[peer := fingerprint]> (pin_peers s); pin_phones := pin_phones s |}.
(** [edge-crypto 174-182 PinStore::phone_status] *)
Definition phone_status (s : PinStore) (phone fingerprint : string) : PinStatus :=
  pin_status_of (phone_fingerprint <$> pin_phones s !! phone) fingerprint.
(** [edge-crypto 188-201 PinStore::pin_phone] *)
Definition pin_phone (phone fingerprint : string) (features : gset PhoneFeature)
    (s : PinStore) : PinStore :=
  {| pin_peers := pin_peers s;
     pin_phones := <[phone := {| phone_fingerprint := fingerprint;
                                 allowed_features := features |}]> (pin_phones s) |}.
(** [edge-crypto 203-205 PinStore::remove_phone] *)
Definition remove_phone (phone : string) (s : PinStore) : PinStore * option PinnedPhone :=
  ({| pin_peers := pin_peers s; pin_phones := delete phone (pin_phones s) |},
   pin_phones s !! phone).
(** [edge-crypto 208-212 PinStore::is_pc_key] *)
Definition is_pc_key (s : PinStore) (fingerprint : string) : bool :=
  existsb (fun p => str_eqb p.2 fingerprint) (map_to_list (pin_peers s)).
(** [edge-crypto 215-219 PinStore::is_phone_key] *)
Definition is_phone_key (s : PinStore) (fingerprint : string) : bool :=
  existsb (fun p => str_eqb (phone_fingerprint p.2) fingerprint) (map_to_list (pin_phones s)).

(** ** Replacing a file *)

(** A file: its bytes, and whether they have reached the disk. *)
Record File := { content : bytes; synced : bool }.

(** A directory as processes see it, the states of it that a crash may bring back because it
    was not synced since, and the files its entries name. *)
Record Fs := {
  directory : gmap string nat;
  older : list (gmap string nat);
  files : gmap nat File;
  next_file : nat;
}.

(** What may become of a call: it works, it fails having done part of its work, or the machine
    stops first.  The calls of a run meet the outcomes of a list; none left is a crash. *)
Inductive outcome := Works | Fails (part : nat).
Inductive io_result := Io_Ok | Io_Err | Io_Crashed.
Definition io : Type := Fs -> list outcome -> Fs * list outcome * io_result.

Definition io_bind (m k : io) : io := fun fs os =>
  match m fs os with
  | (fs, os, Io_Ok) => k fs os
  | r => r
  end.
Notation "m ;;! k" := (io_bind m k) (at level 60, right associativity) : edge_scope.

(** A call that works if it can and leaves [partly] when it fails. *)
Definition io_call (works : Fs -> option Fs) (partly : nat -> Fs -> Fs) : io := fun fs os =>
  match os with
  | [] => (fs, [], Io_Crashed)
  | Works :: os => match works fs with
                   | Some fs' => (fs', os, Io_Ok)
                   | None => (fs, os, Io_Err)
                   end
  | Fails part :: os => (partly part fs, os, Io_Err)
  end.
Definition unchanged : nat -> Fs -> Fs := fun _ fs => fs.

Definition change_directory (d : gmap string nat) (fs : Fs) : Fs :=
  {| directory := d; older := directory fs :: older fs; files := files fs;
     next_file := next_file fs |}.
Definition change_file (n : nat) (f : File) (fs : Fs) : Fs :=
  {| directory := directory fs; older := older fs; files := <[n := f]> (files fs);
     next_file := next_file fs |}.

(** [std::fs::create_dir_all] of the parent, which holds the file and is not modelled itself. *)
Definition create_dir_all : io := io_call Some unchanged.

(** [OpenOptions::create_new]. *)
Definition create_new (name : string) : io :=
  io_call (fun fs =>
    if bool_decide (directory fs !! name = None)
    then Some {| directory := <[name := next_file fs]> (directory fs);
                 older := directory fs :: older fs;
                 files := <[next_file fs := {| content := []; synced := false |}]> (files fs);
                 next_file := S (next_file fs) |}
    else None) unchanged.

(** [Write::write_all] on the file [name] was opened as, which may write a part only. *)
Definition write_all (name : string) (contents : bytes) : io :=
  let write bs fs := match directory fs !! name with
                     | Some n => change_file n {| content := bs; synced := false |} fs
                     | None => fs
                     end in
  io_call (fun fs => Some (write contents fs)) (fun part fs => write (take part contents) fs).

(** [File::sync_all]. *)
Definition sync_all (name : string) : io :=
  io_call (fun fs =>
    Some match directory fs !! name with
         | Some n => match files fs !! n with
                     | Some f => change_file n {| content := content f; synced := true |} fs
                     | None => fs
                     end
         | None => fs
         end) unchanged.

(** [std::fs::rename], atomic for every observer. *)
Definition rename (from to : string) : io :=
  io_call (fun fs =>
    match directory fs !! from with
    | Some n => Some (change_directory (<[to := n]> (delete from (directory fs))) fs)
    | None => None
    end) unchanged.

(** [File::sync_all] of the parent directory. *)
Definition sync_directory : io :=
  io_call (fun fs => Some {| directory := directory fs; older := []; files := files fs;
                             next_file := next_file fs |}) unchanged.

(** [std::fs::remove_file]. *)
Definition remove_file (name : string) : io :=
  io_call (fun fs =>
    if bool_decide (directory fs !! name = None) then None
    else Some (change_directory (delete name (directory fs)) fs)) unchanged.

(** The temporary file beside [file_name]. *)
Definition temp_name (file_name : string) (pid counter : N) : string :=
  ("." ++ file_name ++ "." ++ pretty pid ++ "." ++ pretty counter ++ ".tmp")%string.

(** Nothing. *)
Definition io_done : io := fun fs os => (fs, os, Io_Ok).

(** [edge-crypto 534-555 write_atomic_with]: the closure whose failure is cleaned up.  Only a build
    for [unix] makes the rename durable; Windows has no directory to sync. *)
Definition replace_with (unix : bool) (temp file_name : string) (contents : bytes) : io :=
  create_new temp ;;! write_all temp contents ;;! sync_all temp ;;! rename temp file_name
  ;;! (if unix then sync_directory else io_done).

(** [edge-crypto 514-560 write_atomic_with], with the closure of [write_atomic]; a crash
    in the cleanup is a crash. *)
Definition write_atomic_with (unix : bool) (file_name : string) (pid counter : N) (contents : bytes) : io :=
  create_dir_all ;;! fun fs os =>
  let temp := temp_name file_name pid counter in
  match replace_with unix temp file_name contents fs os with
  | (fs, os, Io_Err) =>
      match remove_file temp fs os with
      | (fs, os, Io_Crashed) => (fs, os, Io_Crashed)
      | (fs, os, _) => (fs, os, Io_Err)
      end
  | r => r
  end.

(** What a file may hold after a crash: any bytes if they were not synced. *)
Definition survives (fs : Fs) (name : string) (c : option bytes) : Prop :=
  exists d, d ∈ directory fs :: older fs
  /\ match d !! name with
     | None => c = None
     | Some n => exists f bs, files fs !! n = Some f /\ c = Some bs
                 /\ (synced f = true -> bs = content f)
     end.

(** What processes read. *)
Definition read_file (fs : Fs) (name : string) : option bytes :=
  n ← directory fs !! name; content <$> files fs !! n.

(** Entries name existing files. *)
Definition fs_ok (fs : Fs) : Prop :=
  forall d name n, d ∈ directory fs :: older fs -> d !! name = Some n ->
  (n < next_file fs)%nat /\ is_Some (files fs !! n).

(** ** Lemmas on names *)

(** A slice within a string. *)
Lemma substring_length s : forall i n, (i + n <= String.length s)%nat ->
  String.length (String.substring i n s) = n.
Proof.
  induction s as [|a s IH]; intros [|i] [|n]; simpl; intros; try lia; try done.
  - rewrite IH by lia. done.
  - rewrite IH by lia. done.
  - rewrite IH by lia. done.
Qed.

Lemma all_bytes_substring f s : forall i n,
  all_bytes f s = true -> all_bytes f (String.substring i n s) = true.
Proof.
  unfold all_bytes. induction s as [|a s IH]; intros [|i] [|n]; simpl; try done;
    rewrite ?andb_true_iff; intros [? ?]; auto.
Qed.

Section FingerprintLemmas.
Context `{HashingLaws}.

Lemma hex_slice k i :
  str_len k = 64 -> (i <= 56)%nat ->
  str_len (str_slice i (i + 8) k) = 8.
Proof.
  unfold str_len, len, str_slice. rewrite !str_bytes_length. intros Hk Hi.
  rewrite substring_length by lia. lia.
Qed.
End FingerprintLemmas.

(** ** Lemmas *)

Section Crash.
Context (fs0 : Fs) (name temp : string) (contents : bytes).
Context (Hok : fs_ok fs0) (Hne : name <> temp).

Let T : nat := next_file fs0.
Let written : File := {| content := contents; synced := true |}.

(** The calls of [m] lead from [P] to [Q], and to [R] if one fails or a crash intervenes. *)
Definition triple (P : Fs -> Prop) (m : io) (Q R : Fs -> Prop) : Prop :=
  forall fs os, P fs ->
  match m fs os with (fs', _, Io_Ok) => Q fs' | (fs', _, _) => R fs' end.

Lemma triple_bind P m Q k S R : triple P m Q R -> triple Q k S R -> triple P (m ;;! k) S R.
Proof.
  intros Hm Hk fs os Hp. unfold io_bind. specialize (Hm fs os Hp).
  destruct (m fs os) as [[fs' os'] [| |]]; [by apply Hk|done|done].
Qed.

Lemma triple_call P works partly Q R :
  (forall fs, P fs -> R fs) -> (forall fs part, P fs -> R (partly part fs)) ->
  (forall fs fs', P fs -> works fs = Some fs' -> Q fs') ->
  triple P (io_call works partly) Q R.
Proof.
  intros Hr Hf Hq fs os Hp. unfold io_call. destruct os as [|[|part] os]; [auto| |auto].
  destruct (works fs) eqn:E; eauto.
Qed.

(** A directory [d] that differs from [d0] at the temporary name, and perhaps by naming the
    written file. *)
Definition may_name (fs : Fs) (d d0 : gmap string nat) : Prop :=
  forall x, x <> temp ->
  d !! x = d0 !! x \/ x = name /\ d !! x = Some T /\ files fs !! T = Some written.
Definition differs_at_temp (d d0 : gmap string nat) : Prop := forall x, x <> temp -> d !! x = d0 !! x.

Definition same_files (fs : Fs) : Prop := forall n, n <> T -> files fs !! n = files fs0 !! n.

(** Before the rename, and at any time. *)
Record before (fs : Fs) : Prop := {
  b_files : same_files fs;
  b_dir : differs_at_temp (directory fs) (directory fs0);
  b_older : forall d, d ∈ older fs ->
    exists d0, d0 ∈ directory fs0 :: older fs0 /\ differs_at_temp d d0;
}.
Record during (fs : Fs) : Prop := {
  d_files : same_files fs;
  d_dir : may_name fs (directory fs) (directory fs0);
  d_older : forall d, d ∈ older fs ->
    exists d0, d0 ∈ directory fs0 :: older fs0 /\ may_name fs d d0;
}.

Lemma before_during fs : before fs -> during fs.
Proof.
  intros [H1 H2 H3]. split; [done|intros x Hx; left; auto|].
  intros d (d0 & Hin & Hd)%H3. exists d0. split; [done|]. intros x Hx. left. auto.
Qed.

Lemma before_history fs d : before fs -> d ∈ directory fs :: older fs ->
  exists d0, d0 ∈ directory fs0 :: older fs0 /\ differs_at_temp d d0.
Proof.
  intros [_ H2 H3] [->|Hd]%elem_of_cons; [|auto].
  exists (directory fs0). split; [by left|done].
Qed.

Lemma during_history fs d : during fs -> d ∈ directory fs :: older fs ->
  exists d0, d0 ∈ directory fs0 :: older fs0 /\ may_name fs d d0.
Proof.
  intros [_ H2 H3] [->|Hd]%elem_of_cons; [|auto].
  exists (directory fs0). split; [by left|done].
Qed.

(** Writing to the temporary file. *)
Lemma before_change_file fs f : before fs -> before (change_file T f fs).
Proof.
  intros [H1 H2 H3]. split; [|done|done]. intros n Hn. cbn [files change_file].
  rewrite lookup_insert_ne by done. auto.
Qed.

(** The stages of [write_atomic_with]. *)
Definition opened (fs : Fs) : Prop :=
  before fs /\ directory fs !! temp = Some T /\ is_Some (files fs !! T).
Definition filled (fs : Fs) : Prop :=
  before fs /\ directory fs !! temp = Some T
  /\ exists f, files fs !! T = Some f /\ content f = contents.
Definition durable (fs : Fs) : Prop :=
  before fs /\ directory fs !! temp = Some T /\ files fs !! T = Some written.
Definition renamed (fs : Fs) : Prop :=
  during fs /\ directory fs !! name = Some T /\ files fs !! T = Some written.

Lemma create_new_triple : triple (eq fs0) (create_new temp) opened during.
Proof.
  assert (before fs0) as Hb.
  { split; [done|done|]. intros d Hd. exists d. split; [by right|done]. }
  apply triple_call; [intros ? <-; by apply before_during|
                      intros ? part <-; by apply before_during|].
  intros fs fs' <-. case_bool_decide; [|done]. intros [= <-]. split_and!; cbn [directory files].
  - split; cbn [directory files older].
    + intros n Hn. cbn [files]. by rewrite lookup_insert_ne.
    + intros x Hx. by rewrite lookup_insert_ne.
    + intros d Hd. exists d. done.
  - by rewrite lookup_insert_eq.
  - rewrite lookup_insert_eq. eauto.
Qed.

Lemma write_all_triple : triple opened (write_all temp contents) filled during.
Proof.
  apply triple_call.
  - intros fs (Hb & _). by apply before_during.
  - intros fs part (Hb & -> & _). by apply before_during, before_change_file.
  - intros fs fs' (Hb & Ht & _). rewrite Ht. intros [= <-]. split_and!; [|done|].
    + by apply before_change_file.
    + cbn [files change_file]. rewrite lookup_insert_eq. eauto.
Qed.

Lemma sync_all_triple : triple filled (sync_all temp) durable during.
Proof.
  apply triple_call; [intros fs (Hb & _)|intros fs part (Hb & _)|]; try by apply before_during.
  intros fs fs' (Hb & Ht & f & Hf & Hc). rewrite Ht, Hf. intros [= <-]. split_and!; [|done|].
  - by apply before_change_file.
  - cbn [files change_file]. by rewrite lookup_insert_eq, Hc.
Qed.

Lemma rename_triple : triple durable (rename temp name) renamed during.
Proof.
  apply triple_call; [intros fs (Hb & _)|intros fs part (Hb & _)|]; try by apply before_during.
  intros fs fs' (Hb & Ht & Hf). rewrite Ht. intros [= <-]. split_and!; [|cbn [directory change_directory]|done].
  - split; [apply Hb| |].
    + intros x Hx. cbn [directory change_directory]. destruct (decide (x = name)) as [->|].
      * right. rewrite lookup_insert_eq. split_and!; done.
      * left. rewrite lookup_insert_ne, lookup_delete_ne by done. by apply Hb.
    + intros d Hd. destruct (before_history fs d Hb Hd) as (d0 & ? & Hd0).
      exists d0. split; [done|]. intros x Hx. left. auto.
  - by rewrite lookup_insert_eq.
Qed.

Lemma sync_directory_triple :
  triple renamed sync_directory (fun fs => renamed fs /\ older fs = []) during.
Proof.
  apply triple_call; [by intros fs [? _]|by intros fs part [? _]|].
  intros fs fs' ([H1 H2 H3] & Hn & Hf) [= <-]. split; [|done]. split_and!; [|done|done].
  split; [done|done|]. intros d Hd. by apply elem_of_nil in Hd.
Qed.

Lemma replace_triple unix :
  triple (eq fs0) (replace_with unix temp name contents)
    (fun fs => renamed fs /\ (unix = true -> older fs = [])) during.
Proof.
  eapply triple_bind; [exact create_new_triple|].
  eapply triple_bind; [exact write_all_triple|].
  eapply triple_bind; [exact sync_all_triple|].
  eapply triple_bind; [exact rename_triple|]. destruct unix; [|by intros fs os Hr].
  intros fs os Hr. pose proof (sync_directory_triple fs os Hr) as Hs.
  destruct (sync_directory fs os) as [[fs' os'] [| |]]; [|done..]. by destruct Hs.
Qed.

Lemma remove_triple : triple during (remove_file temp) during during.
Proof.
  apply triple_call; [done|done|]. intros fs fs' Hd. case_bool_decide; [done|].
  intros [= <-]. split; [apply Hd| |].
  - intros x Hx. cbn [directory change_directory]. rewrite lookup_delete_ne by done.
    by apply Hd.
  - intros d Hin. exact (during_history fs d Hd Hin).
Qed.

(** What an older directory names is an older file. *)
Lemma old_file d x n : d ∈ directory fs0 :: older fs0 -> d !! x = Some n -> n <> T.
Proof. intros Hd Hx. destruct (Hok d x n Hd Hx). unfold T. lia. Qed.

Lemma during_survives fs x c :
  during fs -> x <> temp -> survives fs x c ->
  survives fs0 x c \/ x = name /\ c = Some contents.
Proof.
  intros Hd Hx (d & Hin & Hs). destruct (during_history fs d Hd Hin) as (d0 & Hin0 & Hd0).
  destruct (Hd0 x Hx) as [E|(-> & E & Hf)]; rewrite E in Hs.
  - left. exists d0. split; [done|]. destruct (d0 !! x) as [n|] eqn:En; [|done].
    rewrite (d_files fs Hd) in Hs by (by eapply old_file). exact Hs.
  - right. destruct Hs as (f & bs & Hf' & -> & Hbs). split; [done|]. f_equal.
    rewrite Hf in Hf'. injection Hf' as <-. by apply Hbs.
Qed.

Lemma during_read fs x :
  during fs -> x <> temp ->
  read_file fs x = read_file fs0 x \/ x = name /\ read_file fs x = Some contents.
Proof.
  intros Hd Hx. unfold read_file. destruct (d_dir fs Hd x Hx) as [E|(-> & E & Hf)]; rewrite E.
  - left. destruct (directory fs0 !! x) as [n|] eqn:En; [|done]. simpl.
    rewrite (d_files fs Hd); [done|]. eapply old_file; [by left|exact En].
  - right. simpl. by rewrite Hf.
Qed.

Lemma renamed_read fs :
  renamed fs ->
  read_file fs name = Some contents
  /\ (older fs = [] -> forall c, survives fs name c -> c = Some contents).
Proof.
  intros (Hd & Hn & Hf). unfold read_file. rewrite Hn. simpl. rewrite Hf. split; [done|].
  intros Ho c (d & Hin & Hs). rewrite Ho in Hin. apply list_elem_of_singleton in Hin as ->.
  rewrite Hn in Hs. destruct Hs as (f & bs & Hf' & -> & Hbs). rewrite Hf in Hf'.
  injection Hf' as <-. by rewrite Hbs.
Qed.
End Crash.

Lemma temp_name_fresh file pid counter : file <> temp_name file pid counter.
Proof.
  intros E. apply (f_equal String.length) in E. unfold temp_name in E.
  rewrite !str_length_app in E. simpl in E. lia.
Qed.

Lemma start_during fs file temp contents : during fs file temp contents fs.
Proof.
  split; [done|intros x _; by left|].
  intros d Hd. exists d. split; [by right|]. intros x _. by left.
Qed.

Lemma write_atomic_triple unix fs file pid counter contents :
  triple (eq fs) (write_atomic_with unix file pid counter contents)
    (fun f => renamed fs file (temp_name file pid counter) contents f /\ (unix = true -> older f = []))
    (during fs file (temp_name file pid counter) contents).
Proof.
  eapply triple_bind.
  { apply (triple_call _ _ _ (eq fs)); [intros ? <-|intros ? ? <-|by intros ? ? <- [= <-]];
      apply start_during. }
  intros f os <-. cbv zeta.
  pose proof (replace_triple fs file (temp_name file pid counter) contents unix fs os eq_refl) as Hr.
  destruct (replace_with unix _ file contents fs os) as [[f' os'] [| |]]; [done| |done].
  pose proof (remove_triple fs file _ contents f' os' Hr) as Hm.
  destruct (remove_file (temp_name file pid counter) f' os') as [[f'' os''] [| |]]; exact Hm.
Qed.

Lemma write_atomic_works unix fs file pid counter contents os :
  Forall (eq Works) os -> (6 <= length os)%nat ->
  directory fs !! temp_name file pid counter = None ->
  (write_atomic_with unix file pid counter contents fs os).2 = Io_Ok.
Proof.
  intros Hos Hlen Ht. do 6 (destruct os as [|? os]; [simpl in Hlen; lia|];
    apply Forall_cons in Hos as [<- Hos]).
  unfold write_atomic_with, replace_with, io_bind, create_dir_all, create_new, write_all, sync_all, rename,
    sync_directory, io_call.
  rewrite bool_decide_true by done. cbn [directory files next_file].
  rewrite !lookup_insert_eq. cbn [directory files change_file].
  rewrite !lookup_insert_eq. cbn [directory files change_file].
  rewrite !lookup_insert_eq. by destruct unix.
Qed.

(** ** Properties *)

(** C38. Replacing a file is atomic: wherever the machine stops and whichever calls fail, after
    a crash the file holds what it could have held before or exactly the new contents, never
    a mix; every process reads the one or the other; no other file is touched except the
    temporary one.  Success is reported when every call works and the temporary name is free, and
    only once the file reads as the new contents; on Unix they are then on disk for good, while on
    Windows, where the rename is not synced, a crash may still bring the old file back. *)
Theorem write_atomic_is_crash_safe (unix : bool) (fs : Fs) (file : string) (pid counter : N)
    (contents : bytes) (os : list outcome) (Hok : fs_ok fs) :
  let r := write_atomic_with unix file pid counter contents fs os in
  let fs' := r.1.1 in
  (forall c, survives fs' file c -> survives fs file c \/ c = Some contents)
  /\ (read_file fs' file = read_file fs file \/ read_file fs' file = Some contents)
  /\ (forall other c, other <> file -> other <> temp_name file pid counter ->
        survives fs' other c -> survives fs other c)
  /\ (r.2 = Io_Ok -> read_file fs' file = Some contents
                     /\ (unix = true -> forall c, survives fs' file c -> c = Some contents))
  /\ (Forall (eq Works) os -> (6 <= length os)%nat ->
        directory fs !! temp_name file pid counter = None -> r.2 = Io_Ok).
Proof.
  intros r fs'. pose proof (temp_name_fresh file pid counter) as Hne.
  pose proof (write_atomic_works unix fs file pid counter contents os) as Hworks. fold r in Hworks.
  assert (during fs file (temp_name file pid counter) contents fs'
          /\ (r.2 = Io_Ok -> renamed fs file (temp_name file pid counter) contents fs'
                            /\ (unix = true -> older fs' = []))) as [Hd Hend].
  { pose proof (write_atomic_triple unix fs file pid counter contents fs os eq_refl) as Ht.
    unfold fs'. fold r in Ht. destruct r as [[f ?] [| |]]; simpl in *; [|done|done].
    split; [apply Ht|done]. }
  split_and!; [| | | |done].
  - intros c Hs. destruct (during_survives _ _ _ _ Hok _ _ c Hd Hne Hs) as [|[_ ?]]; auto.
  - destruct (during_read _ _ _ _ Hok _ _ Hd Hne) as [|[_ ?]]; auto.
  - intros other c Hof Hot Hs.
    by destruct (during_survives _ _ _ _ Hok _ _ c Hd Hot Hs) as [|[? _]].
  - intros [Hr Ho]%Hend. apply renamed_read in Hr as [Hread Hs]. split; [done|]. auto.
Qed.

(** A directory whose file [pins] is on disk. *)
Definition sample_fs : Fs :=
  {| directory := {[ "pins"%string := O ]}; older := [];
     files := {[ O := {| content := [1; 2]; synced := true |} ]}; next_file := 1 |}.

Example write_atomic_is_crash_safe_witness :
  read_file (write_atomic_with true "pins" 7 0 [3; 4] sample_fs (repeat Works 6)).1.1 "pins"
  = Some [3; 4].
Proof.
  destruct (write_atomic_is_crash_safe true sample_fs "pins" 7 0 [3; 4] (repeat Works 6))
    as (_ & _ & _ & Hend & Hworks).
  - intros d name n [->|Hd]%elem_of_cons; [|by apply elem_of_nil in Hd].
    intros Hx. unfold sample_fs in Hx. cbn [directory] in Hx.
    apply lookup_singleton_Some in Hx as [<- <-]. split; [vm_compute; lia|]. vm_compute. eauto.
  - refine (proj1 (Hend _)). apply Hworks; [repeat constructor|simpl; lia|vm_compute; reflexivity].
Defined.

Lemma app_sep_inj (l k r s : bytes) :
  0 ∉ l -> 0 ∉ k -> l ++ 0 :: r = k ++ 0 :: s -> l = k /\ r = s.
Proof.
  revert k. induction l as [|x l IH]; intros [|y k] Hl Hk; simpl; intros E.
  - by injection E.
  - injection E as <- _. destruct Hk. by left.
  - injection E as -> _. destruct Hl. by left.
  - injection E as -> E. apply not_elem_of_cons in Hl as [_ Hl], Hk as [_ Hk].
    by destruct (IH k Hl Hk E) as [-> ->].
Qed.

Lemma in_order_comm a b : in_order a b = in_order b a.
Proof.
  unfold in_order. destruct (String.leb a b) eqn:E1, (String.leb b a) eqn:E2; try done.
  - by rewrite (String.leb_antisym a b).
  - destruct (String.leb_total a b); congruence.
Qed.

Lemma in_order_cases a b : in_order a b = (a, b) \/ in_order a b = (b, a).
Proof. unfold in_order. destruct (String.leb a b); auto. Qed.

Lemma format_06_shape v :
  str_len (format_06 v) = 6 /\ all_bytes is_ascii_digit (format_06 v) = true.
Proof.
  unfold format_06, str_len, all_bytes.
  assert (forall k, in_u8 (48 + v / 10 ^ k mod 10)
                    /\ is_ascii_digit (48 + v / 10 ^ k mod 10) = true) as Hd.
  { intros k. pose proof (Z.mod_pos_bound (v / 10 ^ k) 10).
    unfold in_range, u8_max, is_ascii_digit. split; [lia|]. reflect_bools; lia. }
  rewrite str_bytes_str.
  - split; [reflexivity|]. apply forallb_forall. intros b.
    rewrite <- list_elem_of_In. intros (k & -> & _)%list_elem_of_fmap. apply Hd.
  - apply Forall_fmap, Forall_true. intros k. apply Hd.
Qed.

Section IdentityProperties.
Context `{HashingLaws}.

(** The four parts of a fingerprint. *)
Lemma fingerprint_parts pk :
  exists p1 p2 p3 p4,
    fingerprint pk = (p1 ++ ":" ++ p2 ++ ":" ++ p3 ++ ":" ++ p4)%string
    /\ Forall (fun p => str_len p = 8 /\ all_bytes is_ascii_hexdigit p = true) [p1; p2; p3; p4].
Proof.
  set (hex := hex_encode (Sha256_digest pk)).
  exists (str_slice 0 8 hex), (str_slice 8 16 hex), (str_slice 16 24 hex), (str_slice 24 32 hex).
  split; [done|].
  assert (forall i, (i <= 56)%nat -> str_len (str_slice i (i + 8) hex) = 8
            /\ all_bytes is_ascii_hexdigit (str_slice i (i + 8) hex) = true) as Hp.
  { intros i Hi. split.
    - apply hex_slice; [|lia]. unfold hex. rewrite hex_len, digest_len. done.
    - apply all_bytes_substring, hex_digits. }
  repeat constructor; apply (Hp 0%nat) || apply (Hp 8%nat) || apply (Hp 16%nat)
    || apply (Hp 24%nat); lia.
Qed.

Lemma fingerprint_no_nul pk : 0 ∉ str_bytes (fingerprint pk).
Proof.
  destruct (fingerprint_parts pk) as (p1 & p2 & p3 & p4 & -> & Hp).
  assert (forall p, all_bytes is_ascii_hexdigit p = true -> 0 ∉ str_bytes p) as Hnul.
  { intros p Ha Hin. unfold all_bytes in Ha. rewrite forallb_forall in Ha.
    apply list_elem_of_In, Ha in Hin. done. }
  rewrite !Forall_cons in Hp. destruct Hp as ([_ ?] & [_ ?] & [_ ?] & [_ ?] & _).
  assert (0 ∉ str_bytes ":") as Hcolon.
  { vm_compute. intros Hin. inversion Hin as [|? ? ? Hn]; subst. inversion Hn. }
  rewrite !str_bytes_app, !not_elem_of_app. split_and!; auto.
Qed.

(** Both screens show the same code: the pairing code does not depend on which node
    computes it, is always six digits, and hashes a text that only this pair of keys'
    fingerprints can produce. *)
Theorem pairing_code_agrees (a b c d : bytes) :
  let code x y := pairing_code (fingerprint x) (fingerprint y) in
  let text x y := let p := in_order (fingerprint x) (fingerprint y) in pairing_text p.1 p.2 in
  code a b = code b a
  /\ str_len (code a b) = 6 /\ all_bytes is_ascii_digit (code a b) = true
  /\ (text a b = text c d ->
      fingerprint a = fingerprint c /\ fingerprint b = fingerprint d
      \/ fingerprint a = fingerprint d /\ fingerprint b = fingerprint c).
Proof.
  intros code text. split_and!.
  - unfold code, pairing_code. by rewrite in_order_comm.
  - unfold code, pairing_code. destruct (in_order _ _). apply format_06_shape.
  - unfold code, pairing_code. destruct (in_order _ _). apply format_06_shape.
  - unfold text, pairing_text. intros [_ E]%app_inj_1; [|done]. injection E as E.
    assert (forall x y : string, (x, y).1 = x /\ (x, y).2 = y) as Hp by done.
    pose proof (fingerprint_no_nul a). pose proof (fingerprint_no_nul b).
    pose proof (fingerprint_no_nul c). pose proof (fingerprint_no_nul d).
    destruct (in_order_cases (fingerprint a) (fingerprint b)) as [Eab|Eab],
      (in_order_cases (fingerprint c) (fingerprint d)) as [Ecd|Ecd];
      rewrite Eab, Ecd in E; cbn [fst snd] in E; apply app_sep_inj in E as [E1 E2]; try done;
      apply (f_equal bytes_str) in E1, E2; rewrite !bytes_str_bytes in E1, E2; auto.
Qed.

(** A node can always publish its notifications: its fingerprint is a valid origin, so a
    key it makes is accepted whenever its instance would be accepted from any other origin. *)
Theorem fingerprint_is_valid_origin (public_key : bytes) (key : NotificationKey)
    (Hkey : validate_key key = Ok tt) :
  validate_key {| key_origin := fingerprint public_key; key_instance := key_instance key |}
  = Ok tt.
Proof.
  destruct (fingerprint_parts public_key) as (p1 & p2 & p3 & p4 & E & Hp).
  rewrite !Forall_cons in Hp.
  destruct Hp as ([L1 A1] & [L2 A2] & [L3 A3] & [L4 A4] & _).
  assert (forall p, all_bytes is_ascii_hexdigit p = true ->
            all_bytes (fun b => negb (b =? byte_of_ascii ":"%char)) p = true) as Hsep.
  { intros p. apply all_bytes_impl. intros b Hb. apply negb_true_iff, Z.eqb_neq. intros ->.
    by vm_compute in Hb. }
  assert (str_split ":"%char (fingerprint public_key) = [p1; p2; p3; p4]) as Es.
  { rewrite E.
    change (p1 ++ ":" ++ p2 ++ ":" ++ p3 ++ ":" ++ p4)%string
      with (p1 ++ String ":" (p2 ++ String ":" (p3 ++ String ":" p4)))%string.
    rewrite (str_split_part _ p1), (str_split_part _ p2), (str_split_part _ p3) by auto.
    by rewrite (str_split_last _ p4) by auto. }
  assert (str_len (fingerprint public_key) = 35) as El.
  { rewrite E. unfold str_len, len in *. rewrite !str_bytes_app, !length_app. simpl. lia. }
  revert Hkey. unfold validate_key. cbn [key_origin key_instance].
  rewrite El, Es. cbn [forallb]. rewrite L1, L2, L3, L4, A1, A2, A3, A4. cbn.
  by destruct (_ && _).
Qed.
End IdentityProperties.

(** A digest that is the number of its bytes, in lower-case hexadecimal. *)
Module SampleHash.
Definition hex_digit (d : Z) : Z := if d <? 10 then 48 + d else 87 + d.

#[export] Instance counting_hash : Hashing := {
  Sha256_digest b := be_encode 32 (len b);
  hex_encode b := bytes_str (flat_map (fun x => [hex_digit (x / 16 mod 16);
                                                 hex_digit (x mod 16)]) b);
}.

Lemma hex_digit_ok x : in_u8 (hex_digit (x mod 16))
  /\ is_ascii_hexdigit (hex_digit (x mod 16)) = true.
Proof.
  pose proof (Z.mod_pos_bound x 16). unfold hex_digit, in_range, u8_max, is_ascii_hexdigit,
    is_ascii_digit. set (d := x mod 16) in *. destruct (Z.ltb_spec d 10); split; lia.
Qed.

#[export] Instance counting_hash_laws : HashingLaws.
Proof.
  assert (forall b, Forall (fun d => in_u8 d /\ is_ascii_hexdigit d = true)
    (flat_map (fun x => [hex_digit (x / 16 mod 16); hex_digit (x mod 16)]) b)) as Hd
    by (induction b; simpl; repeat constructor; try apply hex_digit_ok; done).
  assert (forall b, is_bytes
    (flat_map (fun x => [hex_digit (x / 16 mod 16); hex_digit (x mod 16)]) b)) as Hb
    by (intros b; eapply Forall_impl; [apply Hd|by intros ? [? _]]).
  split; unfold Sha256_digest, hex_encode, counting_hash.
  - intros b. apply len_be_encode.
  - intros b. apply be_encode_is_bytes.
  - intros b. unfold str_len. rewrite str_bytes_str by done.
    induction b as [|x b IH]; [done|]. cbn [flat_map app]. rewrite !len_cons, IH. lia.
  - intros b. unfold all_bytes. rewrite str_bytes_str by done. apply forallb_forall.
    intros d Hin. pose proof (Hd b) as Hb'. rewrite Forall_forall in Hb'.
    apply Hb'. by apply list_elem_of_In.
Qed.
End SampleHash.
Import SampleHash.

Example fingerprint_is_valid_origin_witness :
  validate_key {| key_origin := fingerprint (repeat 7 32); key_instance := "n1" |} = Ok tt.
Proof.
  apply (fingerprint_is_valid_origin (repeat 7 32) (sample_key "n1")).
  vm_compute. reflexivity.
Defined.

Example pairing_code_agrees_witness :
  pairing_code (fingerprint (repeat 7 32)) (fingerprint (repeat 8 32))
  = pairing_code (fingerprint (repeat 8 32)) (fingerprint (repeat 7 32)).
Proof. exact (proj1 (pairing_code_agrees (repeat 7 32) (repeat 8 32) [] [])). Defined.

(** ** Pins by name *)

Lemma existsb_values {A} (f : A -> bool) (m : gmap string A) :
  existsb (fun p => f p.2) (map_to_list m) = true <-> exists k v, m !! k = Some v /\ f v = true.
Proof.
  rewrite existsb_exists. split.
  - intros ([k v] & Hin & Hf). exists k, v. split; [|done].
    by apply elem_of_map_to_list, list_elem_of_In.
  - intros (k & v & Hk & Hf). exists (k, v). split; [|done].
    by apply list_elem_of_In, elem_of_map_to_list.
Qed.

Lemma pin_status_pin s p q f g :
  pin_status (pin p f s) q g = if decide (p = q) then pin_status_of (Some f) g
                               else pin_status s q g.
Proof.
  unfold pin_status, pin. simpl. destruct (decide (p = q)) as [->|].
  - by rewrite lookup_insert_eq.
  - by rewrite lookup_insert_ne.
Qed.

(** A key counts as a PC's exactly when it is trusted under some name. *)
Lemma is_pc_key_trusted s f :
  is_pc_key s f = true <-> exists name, pin_status s name f = Trusted.
Proof.
  unfold is_pc_key. rewrite (existsb_values (fun g => str_eqb g f)).
  unfold pin_status, pin_status_of. split.
  - intros (k & g & Hk & Hg). exists k. by rewrite Hk, Hg.
  - intros [k Hk]. destruct (pin_peers s !! k) as [g|] eqn:E; [|done].
    exists k, g. split; [done|]. by destruct (str_eqb g f).
Qed.

(** No phone operation changes what is known of PCs, and no PC operation what is known of
    phones. *)
Lemma phones_and_peers_apart s p f features :
  pin_status (pin_phone p f features s) = pin_status s
  /\ is_pc_key (pin_phone p f features s) = is_pc_key s
  /\ pin_status (remove_phone p s).1 = pin_status s
  /\ phone_status (pin p f s) = phone_status s
  /\ is_phone_key (pin p f s) = is_phone_key s.
Proof. done. Qed.
