(* ===== verification/ConfigMigration.v ===== *)
(** * Loading, saving and migrating the configuration file

    The methods of [AppConfig] that use the file system, on the file system of [Identity]:
    any call may fail, and the machine may stop between any two.  Paths are names in one
    directory. *)
From stdpp Require Import pretty.
From S2P Require Export Config Identity.

(** [edge-common 11-30 CommonError]; the causes of I/O errors are not kept. *)
Inductive CommonError :=
| ReadConfig (path : string)
| ParseConfig (path source : string)
| WriteConfig (path : string)
| EncodeConfig (source : string).

(** ** File operations with results *)

Inductive outcome_of (A : Type) := Done (a : A) | Failed (e : CommonError) | Stopped.
Arguments Done {A} a.
Arguments Failed {A} e.
Arguments Stopped {A}.

(** A computation that may fail or be stopped. *)
Definition fs_io (A : Type) : Type := Fs -> list outcome -> Fs * list outcome * outcome_of A.
Definition fs_ret {A} (a : A) : fs_io A := fun fs os => (fs, os, Done a).
Definition fs_fail {A} (e : CommonError) : fs_io A := fun fs os => (fs, os, Failed e).
Definition fs_bind {A B} (m : fs_io A) (k : A -> fs_io B) : fs_io B := fun fs os =>
  match m fs os with
  | (fs, os, Done a) => k a fs os
  | (fs, os, Failed e) => (fs, os, Failed e)
  | (fs, os, Stopped) => (fs, os, Stopped)
  end.
(** What follows a call that failed, and what follows one that worked. *)
Definition fs_try {A B} (m : fs_io A) (caught : CommonError -> fs_io B) (k : A -> fs_io B) :
  fs_io B := fun fs os =>
  match m fs os with
  | (fs, os, Done a) => k a fs os
  | (fs, os, Failed e) => caught e fs os
  | (fs, os, Stopped) => (fs, os, Stopped)
  end.
Notation "x '<-@' m ';;' k" := (fs_bind m (fun x => k))
  (at level 100, m at next level, right associativity) : edge_scope.
Notation "'do@' m ';;' k" := (fs_bind m (fun _ => k))
  (at level 100, m at next level, right associativity) : edge_scope.

(** A call of the operating system whose error becomes [e]. *)
Definition call (m : io) (e : CommonError) : fs_io unit := fun fs os =>
  match m fs os with
  | (fs, os, Io_Ok) => (fs, os, Done tt)
  | (fs, os, Io_Err) => (fs, os, Failed e)
  | (fs, os, Io_Crashed) => (fs, os, Stopped)
  end.
Definition of_result {A} (r : result A CommonError) : fs_io A :=
  match r with Ok a => fs_ret a | Err e => fs_fail e end.

(** tokio::fs::read_to_string. *)
Definition read_to_string (name : string) (e : CommonError) : fs_io string := fun fs os =>
  match os with
  | [] => (fs, [], Stopped)
  | Works :: os =>
      (fs, os, match read_file fs name ≫= from_utf8 with Some text => Done text | None => Failed e end)
  | Fails _ :: os => (fs, os, Failed e)
  end.

(** tokio::fs::try_exists. *)
Definition try_exists (name : string) (e : CommonError) : fs_io bool := fun fs os =>
  match os with
  | [] => (fs, [], Stopped)
  | Works :: os => (fs, os, Done (bool_decide (is_Some (directory fs !! name))))
  | Fails _ :: os => (fs, os, Failed e)
  end.

(** Opening a file to write, which empties or creates it, as tokio::fs::write does. *)
Definition open_truncate (name : string) : io :=
  io_call (fun fs => Some
    match directory fs !! name with
    | Some n => change_file n {| content := []; synced := false |} fs
    | None => {| directory := <[name := next_file fs]> (directory fs);
                 older := directory fs :: older fs;
                 files := <[next_file fs := {| content := []; synced := false |}]> (files fs);
                 next_file := S (next_file fs) |}
    end) unchanged.
Definition fs_write (name : string) (contents : bytes) : io :=
  open_truncate name ;;! write_all name contents.

(** ** The methods *)

Section Methods.
Context `{TomlText}.

(** [edge-common 538-551 AppConfig::load] *)
Definition load (path : string) : fs_io AppConfig :=
  text <-@ read_to_string path (ReadConfig path);;
  of_result (map_err (ParseConfig path) (config_from_str text)).

(** [edge-common 585-602 AppConfig::save] *)
Definition save (c : AppConfig) (path : string) : fs_io unit :=
  do@ call create_dir_all (WriteConfig path);;
  text <-@ of_result (map_err EncodeConfig (config_to_string c));;
  call (fs_write path (str_bytes text)) (WriteConfig path).

(** [edge-common 641-645 backup_path] *)
Definition backup_path (path : string) : string := (path ++ ".v1.bak")%string.
Definition backup_temporary (backup : string) (pid nonce : N) : string :=
  (backup ++ ".tmp-" ++ pretty pid ++ "-" ++ pretty nonce)%string.

(** Removing the temporary file, whether it works or not, before [k]. *)
Definition cleaned {A} (temporary : string) (k : fs_io A) : fs_io A :=
  fs_try (call (remove_file temporary) (WriteConfig temporary)) (fun _ => k) (fun _ => k).

(** [edge-common 647-707 create_v1_backup] *)
Definition create_v1_backup (path : string) (contents : bytes) (pid nonce : N) : fs_io unit :=
  let backup := backup_path path in
  exists_ <-@ try_exists backup (WriteConfig backup);;
  if (exists_ : bool) then fs_ret tt else
  let temporary := backup_temporary backup pid nonce in
  do@ call (create_new temporary) (WriteConfig temporary);;
  fs_try (call (write_all temporary contents) (WriteConfig temporary))
    (fun e => cleaned temporary (fs_fail e)) (fun _ =>
  fs_try (call (sync_all temporary) (WriteConfig temporary))
    (fun e => cleaned temporary (fs_fail e)) (fun _ =>
  fs_try (call (rename temporary backup) (WriteConfig backup))
    (fun e => fs_try (try_exists backup e)
                (fun _ => cleaned temporary (fs_fail e))
                (fun found => if (found : bool) then cleaned temporary (fs_ret tt)
                              else cleaned temporary (fs_fail e)))
    (fun _ => fs_ret tt))).

(** [edge-common 553-571 AppConfig::load_migrating] *)
Definition load_migrating (path : string) (pid nonce : N) : fs_io AppConfig :=
  text <-@ read_to_string path (ReadConfig path);;
  config <-@ of_result (map_err (ParseConfig path) (config_from_str text));;
  if config_needs_v2_migration text then
    do@ create_v1_backup path (str_bytes text) pid nonce;;
    do@ save config path;;
    fs_ret config
  else fs_ret config.
End Methods.

(** ** What processes see of a directory *)

(** Entries name distinct existing files. *)
Record dir_ok (fs : Fs) : Prop := {
  dir_files : forall x n, directory fs !! x = Some n -> (n < next_file fs)%nat /\ is_Some (files fs !! n);
  dir_inj : forall x y n, directory fs !! x = Some n -> directory fs !! y = Some n -> x = y;
}.

(** [fs'] reads as [fs] with the file [x] holding [c]. *)
Definition reads_with (x : string) (c : option bytes) (fs fs' : Fs) : Prop :=
  dir_ok fs' /\ read_file fs' x = c /\ forall y, y <> x -> read_file fs' y = read_file fs y.

Lemma exists_iff_read fs x : dir_ok fs -> (directory fs !! x = None <-> read_file fs x = None).
Proof.
  intros Hok. unfold read_file. destruct (directory fs !! x) as [n|] eqn:E; [|done]. simpl.
  destruct (dir_files _ Hok x n E) as [_ [f ->]]. done.
Qed.

Lemma reads_change_file fs x n c : dir_ok fs -> directory fs !! x = Some n ->
  reads_with x (Some (content c)) fs (change_file n c fs).
Proof.
  intros [Hf Hi] Hx. split; [split|split]; cbn [directory files next_file change_file].
  - intros y m Hy. destruct (Hf y m Hy) as [Hm Hs]. split; [done|].
    destruct (decide (m = n)) as [->|]; [by rewrite lookup_insert_eq|by rewrite lookup_insert_ne].
  - done.
  - unfold read_file. cbn. rewrite Hx. simpl. by rewrite lookup_insert_eq.
  - intros y Hy. unfold read_file. cbn. destruct (directory fs !! y) as [m|] eqn:E; [|done]. simpl.
    assert (m <> n) by (intros ->; by eapply Hy, Hi). by rewrite lookup_insert_ne.
Qed.

Lemma reads_new_file fs x : dir_ok fs -> directory fs !! x = None ->
  reads_with x (Some []) fs
    {| directory := <[x := next_file fs]> (directory fs); older := directory fs :: older fs;
       files := <[next_file fs := {| content := []; synced := false |}]> (files fs);
       next_file := S (next_file fs) |}.
Proof.
  intros [Hf Hi] Hx. split; [split|split]; cbn [directory files next_file].
  - intros y m. destruct (decide (y = x)) as [->|].
    + rewrite lookup_insert_eq. intros [= <-]. rewrite lookup_insert_eq. split; [lia|eauto].
    + rewrite lookup_insert_ne by done. intros (? & ?)%Hf. rewrite lookup_insert_ne by lia.
      split; [lia|done].
  - intros y z m. destruct (decide (y = x)) as [->|], (decide (z = x)) as [->|]; [done| | |].
    + rewrite lookup_insert_eq, lookup_insert_ne by done. intros [= <-] (? & ?)%Hf. lia.
    + rewrite lookup_insert_eq, lookup_insert_ne by done. intros (? & ?)%Hf [= <-]. lia.
    + rewrite !lookup_insert_ne by done. apply Hi.
  - unfold read_file. cbn [directory files]. rewrite lookup_insert_eq. simpl.
    by rewrite lookup_insert_eq.
  - intros y Hy. unfold read_file. cbn [directory files]. rewrite lookup_insert_ne by done.
    destruct (directory fs !! y) as [m|] eqn:E; [|done]. simpl.
    destruct (Hf y m E). rewrite lookup_insert_ne by lia. done.
Qed.

Lemma dir_ok_change_directory fs d : dir_ok fs ->
  (forall x n, d !! x = Some n -> exists x', directory fs !! x' = Some n) ->
  (forall x y n, d !! x = Some n -> d !! y = Some n -> x = y) -> dir_ok (change_directory d fs).
Proof.
  intros [Hf Hi] Hsub Hinj. split; cbn [directory files next_file change_directory]; [|done].
  intros x n (x' & Hx')%Hsub. eauto.
Qed.

Lemma reads_remove fs x : dir_ok fs ->
  reads_with x None fs (change_directory (delete x (directory fs)) fs).
Proof.
  intros Hok. split; [|split].
  - apply dir_ok_change_directory; [done| |].
    + intros y n [_ Hn]%lookup_delete_Some. eauto.
    + intros y z n [_ Hy]%lookup_delete_Some [_ Hz]%lookup_delete_Some. by eapply dir_inj.
  - unfold read_file. cbn. by rewrite lookup_delete_eq.
  - intros y Hy. unfold read_file. cbn. by rewrite lookup_delete_ne.
Qed.

Lemma reads_rename fs x y n : dir_ok fs -> x <> y -> directory fs !! x = Some n ->
  let fs' := change_directory (<[y := n]> (delete x (directory fs))) fs in
  dir_ok fs' /\ read_file fs' y = read_file fs x /\ read_file fs' x = None
  /\ forall z, z <> x -> z <> y -> read_file fs' z = read_file fs z.
Proof.
  intros Hok Hxy Hx. cbv zeta. split; [|split; [|split]].
  - apply dir_ok_change_directory; [done| |].
    + intros z m [[? <-]|[? [_ Hn]%lookup_delete_Some]]%lookup_insert_Some; eauto.
    + intros z w m Hz Hw. apply lookup_insert_Some in Hz as [[<- <-]|[Hz Hz']],
        Hw as [[<- Hw]|[Hw Hw']]; try done.
      * apply lookup_delete_Some in Hw' as [Hn Hw']. destruct Hn. by eapply dir_inj.
      * apply lookup_delete_Some in Hz' as [Hn Hz']. subst m. destruct Hn. by eapply dir_inj.
      * apply lookup_delete_Some in Hw' as [_ Hw'], Hz' as [_ Hz']. by eapply dir_inj.
  - unfold read_file. cbn. by rewrite lookup_insert_eq, Hx.
  - unfold read_file. cbn. by rewrite lookup_insert_ne, lookup_delete_eq.
  - intros z Hz Hz'. unfold read_file. cbn. by rewrite lookup_insert_ne, lookup_delete_ne.
Qed.

(** ** Triples: what holds before, after a success, and after a failure or a stop *)

Definition fs_triple {A} (P : Fs -> Prop) (m : fs_io A) (Q : A -> Fs -> Prop) (E : Fs -> Prop) : Prop :=
  forall fs os, P fs ->
  match m fs os with
  | (fs', _, Done a) => Q a fs'
  | (fs', _, Failed _) => E fs'
  | (fs', _, Stopped) => E fs'
  end.

Section Triples.
Context {A B : Type}.
Implicit Types (P : Fs -> Prop) (E : Fs -> Prop).

Lemma fs_triple_ret P (Q : A -> Fs -> Prop) E a : (forall fs, P fs -> Q a fs) ->
  fs_triple P (fs_ret a) Q E.
Proof. intros HQ fs os HP. apply HQ, HP. Qed.

Lemma fs_triple_fail P (Q : A -> Fs -> Prop) E e : (forall fs, P fs -> E fs) ->
  fs_triple P (fs_fail e) Q E.
Proof. intros HE fs os HP. apply HE, HP. Qed.

Lemma fs_triple_bind P (m : fs_io A) (k : A -> fs_io B) R Q E :
  fs_triple P m R E -> (forall a, fs_triple (R a) (k a) Q E) -> fs_triple P (fs_bind m k) Q E.
Proof.
  intros Hm Hk fs os HP. specialize (Hm fs os HP). unfold fs_bind.
  destruct (m fs os) as [[fs1 os1] [a|e|]]; [by apply Hk|done..].
Qed.

Lemma fs_triple_try P (m : fs_io A) (caught : CommonError -> fs_io B) (k : A -> fs_io B) R F Q E :
  fs_triple P m R F -> (forall fs, F fs -> E fs) ->
  (forall e, fs_triple F (caught e) Q E) -> (forall a, fs_triple (R a) (k a) Q E) ->
  fs_triple P (fs_try m caught k) Q E.
Proof.
  intros Hm HF Hc Hk fs os HP. specialize (Hm fs os HP). unfold fs_try.
  destruct (m fs os) as [[fs1 os1] [a|e|]]; [by apply Hk|by apply Hc|by apply HF].
Qed.

Lemma fs_triple_weaken P P' (m : fs_io A) (Q Q' : A -> Fs -> Prop) E E' :
  fs_triple P m Q E -> (forall fs, P' fs -> P fs) -> (forall a fs, Q a fs -> Q' a fs) ->
  (forall fs, E fs -> E' fs) -> fs_triple P' m Q' E'.
Proof.
  intros Hm HP HQ HE fs os HP'. specialize (Hm fs os (HP fs HP')).
  destruct (m fs os) as [[fs1 os1] [a|e|]]; auto.
Qed.
End Triples.

(** A single call. *)
Lemma fs_triple_call P (works : Fs -> option Fs) partly e R (E : Fs -> Prop) :
  (forall fs, P fs -> E fs) -> (forall fs part, P fs -> E (partly part fs)) ->
  (forall fs fs', P fs -> works fs = Some fs' -> R fs') ->
  fs_triple P (call (io_call works partly) e) (fun _ => R) E.
Proof.
  intros HE Hpart HR fs os HP. unfold call, io_call. destruct os as [|[|part] os]; [by apply HE| |].
  - destruct (works fs) as [fs'|] eqn:Hw; [by eapply HR|by apply HE].
  - by apply Hpart.
Qed.

(** ** The migration *)

Section Migration.
Context `{TomlTextLaws} (path text : string) (pid nonce : N).
Let old : bytes := str_bytes text.
Let backup : string := backup_path path.
Let temporary : string := backup_temporary backup pid nonce.

Definition path_kept (fs : Fs) : Prop := dir_ok fs /\ read_file fs path = Some old.
(** The configuration still there, and what the backup and the temporary file hold. *)
Definition staged (b t : option bytes) (fs : Fs) : Prop :=
  path_kept fs /\ read_file fs backup = b /\ read_file fs temporary = t.

Lemma backup_ne_path : backup <> path.
Proof.
  unfold backup, backup_path. intros E. apply (f_equal String.length) in E.
  rewrite str_length_app in E. simpl in E. lia.
Qed.
Lemma temporary_ne_backup : temporary <> backup.
Proof.
  unfold temporary, backup_temporary. intros E. apply (f_equal String.length) in E.
  rewrite !str_length_app in E. simpl in E. lia.
Qed.
Lemma temporary_ne_path : temporary <> path.
Proof.
  unfold temporary, backup_temporary, backup, backup_path. intros E.
  apply (f_equal String.length) in E. rewrite !str_length_app in E. simpl in E. lia.
Qed.
#[local] Hint Resolve backup_ne_path temporary_ne_backup temporary_ne_path not_eq_sym : core.

(** A change of the temporary file leaves the rest as it is. *)
Lemma reads_with_temporary fs fs' b t c :
  staged b t fs -> reads_with temporary c fs fs' -> staged b c fs'.
Proof.
  intros ([_ Hp] & Hb & _) (Hok & Hc & Hrest). split; [split|split]; [done| |
    |done]; by rewrite Hrest by auto.
Qed.

Lemma write_temporary fs n c b t : staged b t fs -> directory fs !! temporary = Some n ->
  staged b (Some (content c)) (change_file n c fs).
Proof. intros Hs Ht. eapply reads_with_temporary; [done|]. by apply reads_change_file, Ht; apply Hs. Qed.

Lemma create_temporary_triple b e :
  fs_triple (staged b None) (call (create_new temporary) e) (fun _ => staged b (Some [])) path_kept.
Proof.
  apply fs_triple_call; [by intros ? []|by intros ? ? []|]. intros fs fs' Hs Hw.
  case_bool_decide as Ht; [|done]. injection Hw as <-.
  eapply reads_with_temporary; [done|]. by apply reads_new_file; [apply Hs|].
Qed.

Lemma write_temporary_triple b t e :
  fs_triple (staged b (Some t)) (call (write_all temporary old) e)
    (fun _ => staged b (Some old)) path_kept.
Proof.
  assert (forall fs, staged b (Some t) fs -> exists n, directory fs !! temporary = Some n) as Hex.
  { intros fs ([Hok _] & _ & Ht). destruct (directory fs !! temporary) eqn:E; [eauto|].
    apply exists_iff_read in E; [congruence|done]. }
  apply fs_triple_call; [by intros ? []|intros fs part Hs|intros fs fs' Hs Hw];
    destruct (Hex fs Hs) as [n Hn]; [rewrite Hn|rewrite Hn in Hw; injection Hw as <-].
  - by apply (write_temporary _ _ {| content := take part old; synced := false |} _ _ Hs Hn).
  - by apply (write_temporary _ _ {| content := old; synced := false |} _ _ Hs Hn).
Qed.

Lemma sync_temporary_triple b e :
  fs_triple (staged b (Some old)) (call (sync_all temporary) e)
    (fun _ => staged b (Some old)) path_kept.
Proof.
  apply fs_triple_call; [by intros ? []|by intros ? ? []|]. intros fs fs' Hs Hw.
  injection Hw as <-. destruct (directory fs !! temporary) as [n|] eqn:Hn; [|done].
  destruct (files fs !! n) as [f|] eqn:Hf; [|done].
  assert (content f = old) as Hc.
  { destruct Hs as (_ & _ & Ht). unfold read_file in Ht. rewrite Hn in Ht. simpl in Ht.
    rewrite Hf in Ht. by injection Ht. }
  pose proof (write_temporary _ _ {| content := content f; synced := true |} _ _ Hs Hn) as Hw.
  cbn [content] in Hw. by rewrite Hc in Hw at 1.
Qed.

Lemma rename_temporary_triple e :
  fs_triple (staged None (Some old)) (call (rename temporary backup) e)
    (fun _ => staged (Some old) None) (staged None (Some old)).
Proof.
  apply fs_triple_call; [done|done|]. intros fs fs' Hs Hw.
  destruct (directory fs !! temporary) as [n|] eqn:Hn; [|done]. injection Hw as <-.
  destruct Hs as ([Hok Hp] & _ & Ht).
  destruct (reads_rename fs temporary backup n Hok) as (Hok' & Hb & Ht' & Hrest); [auto|done|].
  split; [split|split]; [done| | |done].
  - by rewrite Hrest by auto.
  - congruence.
Qed.

Lemma clean_path_kept {A} P e (Q : A -> Fs -> Prop) : (forall fs, P fs -> path_kept fs) ->
  fs_triple P (cleaned temporary (fs_fail e)) Q path_kept.
Proof.
  intros HP. unfold cleaned. eapply fs_triple_try with (R := fun _ => path_kept) (F := path_kept).
  - apply fs_triple_call; [done|intros ? ?; apply HP|]. intros fs fs' [Hok Hp]%HP Hw.
    case_bool_decide; [done|]. injection Hw as <-.
    destruct (reads_remove fs temporary Hok) as (Hok' & _ & Hrest). split; [done|].
    by rewrite Hrest by auto.
  - done.
  - intros. by apply fs_triple_fail.
  - intros. by apply fs_triple_fail.
Qed.

Lemma backup_exists_triple b t e :
  fs_triple (staged b t) (try_exists backup e)
    (fun found fs => staged b t fs /\ found = bool_decide (is_Some b)) (staged b t).
Proof.
  intros fs os Hs. unfold try_exists. destruct os as [|[|part] os]; [done| |done]. split; [done|].
  destruct Hs as ([Hok _] & Hb & _). apply bool_decide_ext. rewrite <- Hb.
  by rewrite <- !not_eq_None_Some, exists_iff_read.
Qed.

Lemma create_v1_backup_triple :
  fs_triple (staged None None) (create_v1_backup path old pid nonce)
    (fun _ => staged (Some old) None) path_kept.
Proof.
  unfold create_v1_backup. fold backup. fold temporary. cbv zeta.
  eapply fs_triple_bind.
  { eapply fs_triple_weaken; [apply backup_exists_triple| | |]; [done|done|by intros ? []]. }
  intros found. destruct found.
  { intros fs os [_ Hf]. rewrite bool_decide_eq_false_2 in Hf by (by intros [? ?]). done. }
  eapply fs_triple_bind with (R := fun _ => staged None (Some [])).
  { eapply fs_triple_weaken; [apply (create_temporary_triple None)|by intros ? []|done|done]. }
  intros []. eapply fs_triple_try; [apply write_temporary_triple|done| |].
  { intros. by apply clean_path_kept. }
  intros []. eapply fs_triple_try; [apply sync_temporary_triple|done| |].
  { intros. by apply clean_path_kept. }
  intros []. eapply fs_triple_try; [apply rename_temporary_triple|by intros ? []| |].
  - intros e. eapply fs_triple_try; [apply backup_exists_triple|by intros ? []| |].
    + intros. apply clean_path_kept. by intros ? [].
    + intros [|].
      * intros fs os [_ Hf]. rewrite bool_decide_eq_false_2 in Hf by (by intros [? ?]). done.
      * apply clean_path_kept. by intros ? [[] _].
  - intros []. by apply fs_triple_ret.
Qed.

(** Saving over the configuration once its backup exists. *)
Definition backed_up (b : bytes) (fs : Fs) : Prop := dir_ok fs /\ read_file fs backup = Some b.

Lemma reads_with_path b fs fs' c : backed_up b fs -> reads_with path c fs fs' -> backed_up b fs'.
Proof. intros [_ Hb] (Hok & _ & Hrest). split; [done|]. by rewrite Hrest by auto. Qed.

Lemma save_triple b c :
  fs_triple (backed_up b) (save c path)
    (fun _ fs => backed_up b fs /\ exists new, config_to_string c = Ok new
                                    /\ read_file fs path = Some (str_bytes new))
    (backed_up b).
Proof.
  unfold save. eapply fs_triple_bind.
  { apply fs_triple_call with (R := backed_up b); [done|done|]. intros fs fs' Hs [= <-]. done. }
  intros []. eapply fs_triple_bind with (R := fun new fs => backed_up b fs /\ config_to_string c = Ok new).
  { destruct (config_to_string c) as [new|]; [by apply fs_triple_ret|by apply fs_triple_fail]. }
  intros new fs os [Hs Hnew]. unfold call, fs_write, io_bind, open_truncate, write_all, io_call.
  destruct os as [|[|part] os]; [done| |done].
  set (fs1 := match directory fs !! path with Some _ => _ | None => _ end).
  assert (reads_with path (Some []) fs fs1) as Hr1.
  { unfold fs1. destruct (directory fs !! path) as [n|] eqn:Hn.
    - apply (reads_change_file _ _ _ {| content := []; synced := false |}); [apply Hs|done].
    - by apply reads_new_file; [apply Hs|]. }
  pose proof (reads_with_path _ _ _ _ Hs Hr1) as Hs1. clearbody fs1.
  destruct os as [|[|part'] os]; [done| |].
  - destruct (directory fs1 !! path) as [n|] eqn:Hn.
    + pose proof (reads_change_file _ _ _ {| content := str_bytes new; synced := false |}
                    (proj1 Hs1) Hn) as Hr2.
      split; [by eapply reads_with_path|]. exists new. split; [done|]. apply Hr2.
    + destruct Hr1 as (Hok1 & Hp1 & _). apply exists_iff_read in Hn; [congruence|done].
  - destruct (directory fs1 !! path) as [n|] eqn:Hn; [|done]. eapply reads_with_path; [done|].
    by apply (reads_change_file _ _ _ {| content := _; synced := false |}); [apply Hs1|].
Qed.
Lemma load_migrating_triple :
  config_needs_v2_migration text = true ->
  fs_triple (staged None None) (load_migrating path pid nonce)
    (fun c fs => config_from_str text = Ok c /\ backed_up old fs
                 /\ exists new, config_to_string c = Ok new
                                /\ read_file fs path = Some (str_bytes new))
    (fun fs => path_kept fs \/ backed_up old fs).
Proof.
  intros Hneeds. unfold load_migrating.
  apply fs_triple_bind with (R := fun t fs => staged None None fs /\ t = text).
  { intros fs os Hs. pose proof Hs as ([Hok Hp] & _). unfold read_to_string.
    destruct os as [|[|part] os]; [left; apply Hs|rewrite Hp|left; apply Hs]. simpl.
    destruct (from_utf8 old) as [t|] eqn:E; [|left; apply Hs]. split; [done|].
    apply from_utf8_bytes in E. by rewrite <- (bytes_str_bytes t), E; apply bytes_str_bytes. }
  intros t fs os [Hs ->]. unfold fs_bind at 1.
  destruct (config_from_str text) as [c|e] eqn:Hc; simpl; [|left; apply Hs].
  rewrite Hneeds. revert fs os Hs. apply fs_triple_bind with (R := fun _ => staged (Some old) None).
  { eapply fs_triple_weaken; [apply create_v1_backup_triple|done|done|by left]. }
  intros []. eapply fs_triple_bind with (R := fun _ fs => backed_up old fs
    /\ exists new, config_to_string c = Ok new /\ read_file fs path = Some (str_bytes new)).
  - eapply fs_triple_weaken; [apply (save_triple old c)| |done|by right].
    by intros fs ([? _] & ? & _).
  - intros []. by apply fs_triple_ret.
Qed.
End Migration.

(** Migrating a configuration never loses the file it started from, however its file system
    calls fail or wherever the program is stopped: the old text is still in the file or exactly
    in the backup.  If it returns a configuration, that is what the old text means, the backup
    holds the old text and the file the new one. *)
Theorem migration_keeps_the_old_file `{TomlTextLaws} (path text : string) (pid nonce : N)
    (fs : Fs) (os : list outcome) :
  dir_ok fs -> config_needs_v2_migration text = true ->
  read_file fs path = Some (str_bytes text) -> read_file fs (backup_path path) = None ->
  read_file fs (backup_temporary (backup_path path) pid nonce) = None ->
  match load_migrating path pid nonce fs os with
  | (fs', _, Done c) =>
      config_from_str text = Ok c /\ read_file fs' (backup_path path) = Some (str_bytes text)
      /\ exists new, config_to_string c = Ok new /\ read_file fs' path = Some (str_bytes new)
  | (fs', _, _) => read_file fs' path = Some (str_bytes text)
                   \/ read_file fs' (backup_path path) = Some (str_bytes text)
  end.
Proof.
  intros Hok Hneeds Hp Hb Ht.
  pose proof (load_migrating_triple path text pid nonce Hneeds fs os) as Hm.
  specialize (Hm (conj (conj Hok Hp) (conj Hb Ht))).
  destruct (load_migrating path pid nonce fs os) as [[fs' os'] [c|e|]].
  - by destruct Hm as (? & [? ?] & ?).
  - destruct Hm as [[? ?]|[? ?]]; auto.
  - destruct Hm as [[? ?]|[? ?]]; auto.
Qed.

(** Calls that all work. *)
Lemma fs_bind_done {A B} (m : fs_io A) (k : A -> fs_io B) fs os fs' os' a :
  m fs os = (fs', os', Done a) -> fs_bind m k fs os = k a fs' os'.
Proof. unfold fs_bind. by intros ->. Qed.
Lemma fs_try_done {A B} (m : fs_io A) (caught : CommonError -> fs_io B) (k : A -> fs_io B)
  fs os fs' os' a : m fs os = (fs', os', Done a) -> fs_try m caught k fs os = k a fs' os'.
Proof. unfold fs_try. by intros ->. Qed.
Lemma call_works works partly e fs fs' os :
  works fs = Some fs' -> call (io_call works partly) e fs (Works :: os) = (fs', os, Done tt).
Proof. unfold call, io_call. by intros ->. Qed.

Lemma create_v1_backup_runs `{TomlText} path contents pid nonce fs os :
  directory fs !! backup_path path = None ->
  directory fs !! backup_temporary (backup_path path) pid nonce = None ->
  exists fs', create_v1_backup path contents pid nonce fs (repeat Works 5 ++ os) = (fs', os, Done tt).
Proof.
  intros Hb Ht. unfold create_v1_backup. cbn [repeat app].
  erewrite fs_bind_done by (unfold try_exists; rewrite Hb; reflexivity).
  rewrite bool_decide_eq_false_2 by (by intros [? ?]). cbv beta iota zeta.
  erewrite fs_bind_done by (apply call_works; by rewrite Ht, bool_decide_eq_true_2).
  erewrite fs_try_done.
  2:{ apply call_works. cbn [directory]. rewrite lookup_insert_eq. reflexivity. }
  erewrite fs_try_done.
  2:{ apply call_works. cbn [directory change_file]. rewrite lookup_insert_eq.
      cbn [files change_file]. rewrite lookup_insert_eq. reflexivity. }
  erewrite fs_try_done.
  2:{ apply call_works. cbn [directory change_file]. rewrite lookup_insert_eq. reflexivity. }
  by eexists.
Qed.

Lemma save_runs `{TomlText} path c new fs os : config_to_string c = Ok new ->
  exists fs', save c path fs (repeat Works 3 ++ os) = (fs', os, Done tt).
Proof.
  intros Hnew. unfold save. cbn [repeat app].
  erewrite fs_bind_done by (apply call_works; reflexivity).
  erewrite fs_bind_done by (rewrite Hnew; reflexivity).
  unfold call, fs_write, io_bind, open_truncate, write_all, io_call. by eexists.
Qed.

(** What makes a backup leaves one, and the configuration; an earlier one stays as it is. *)
Lemma backup_runs `{TomlText} path pid nonce text fs os :
  path_kept path text fs ->
  (read_file fs (backup_path path) = None ->
     read_file fs (backup_temporary (backup_path path) pid nonce) = None) ->
  let already := read_file fs (backup_path path) in
  exists n fs', (n <= 5)%nat
    /\ create_v1_backup path (str_bytes text) pid nonce fs (repeat Works n ++ os) = (fs', os, Done tt)
    /\ backed_up path (default (str_bytes text) already) fs'.
Proof.
  intros Hk Ht already. destruct already as [b|] eqn:Hb; subst already.
  - exists 1%nat, fs. split; [lia|]. split; [|by split; [apply Hk|]]. unfold create_v1_backup.
    assert (is_Some (directory fs !! backup_path path)) as Hs.
    { apply not_eq_None_Some. intros E. apply exists_iff_read in E; [congruence|apply Hk]. }
    by erewrite fs_bind_done by (unfold try_exists; cbn [repeat app]; by rewrite bool_decide_eq_true_2).
  - destruct (create_v1_backup_runs path (str_bytes text) pid nonce fs os) as [fs' Hrun];
      [by apply exists_iff_read; [apply Hk|auto]..|].
    exists 5%nat, fs'. split; [lia|]. split; [exact Hrun|].
    pose proof (create_v1_backup_triple path text pid nonce fs (repeat Works 5 ++ os)) as Hm.
    rewrite Hrun in Hm. destruct Hm as ([? _] & ? & _); [by split_and!; auto|]. done.
Qed.

(** C40. A migration whose calls work completes, after at most nine of them, whether it is the
    first or resumes one that was interrupted once the backup was made: it returns what the old file
    means, the file then holds the new text and the backup the old one, or what an earlier migration
    put there.  And it happens once: loading the file again returns the same configuration and
    changes nothing. *)
Theorem migration_happens_once `{TomlTextLaws} (path text new : string) (pid nonce pid' nonce' : N)
    (c : AppConfig) (fs : Fs) (os : list outcome) :
  dir_ok fs -> utf8_valid (str_bytes text) = true -> utf8_valid (str_bytes new) = true ->
  read_file fs path = Some (str_bytes text) ->
  (read_file fs (backup_path path) = None ->
     read_file fs (backup_temporary (backup_path path) pid nonce) = None) ->
  config_from_str text = Ok c -> config_needs_v2_migration text = true ->
  config_to_string c = Ok new ->
  exists n fs', (n <= 9)%nat /\ load_migrating path pid nonce fs (repeat Works n ++ os) = (fs', os, Done c)
    /\ read_file fs' (backup_path path)
       = Some (default (str_bytes text) (read_file fs (backup_path path)))
    /\ read_file fs' path = Some (str_bytes new)
    /\ forall os', load_migrating path pid' nonce' fs' (Works :: os') = (fs', os', Done c).
Proof.
  intros Hok Hu Hu' Hp Ht Hc Hneeds Hnew.
  destruct (backup_runs path pid nonce text fs (repeat Works 3 ++ os)) as (n & fs1 & Hn & H1 & Hb1);
    [by split|done|].
  destruct (save_runs path c new fs1 os Hnew) as [fs2 H2].
  pose proof (save_triple path _ c fs1 (repeat Works 3 ++ os) Hb1) as Hm.
  rewrite H2 in Hm. destruct Hm as ([_ Hb2] & new' & Hnew' & Hp2). assert (new' = new) as -> by congruence.
  exists (1 + n + 3)%nat, fs2. split; [lia|]. split_and!; [|done|done|].
  - rewrite !repeat_app, <- !app_assoc. cbn [repeat app]. unfold load_migrating.
    erewrite fs_bind_done.
    2:{ unfold read_to_string. rewrite Hp. simpl. rewrite (from_utf8_str _ Hu). reflexivity. }
    erewrite fs_bind_done by (rewrite Hc; reflexivity). rewrite Hneeds.
    erewrite fs_bind_done by exact H1. by erewrite fs_bind_done by exact H2.
  - intros os'. assert (config_in_range c) as Hr by (by eapply loaded_config_range).
    destruct (saved_config_reads c new Hr Hnew) as [Hload Hno].
    unfold load_migrating, fs_bind, read_to_string. rewrite Hp2. simpl.
    rewrite (from_utf8_str _ Hu'), Hload. simpl. by rewrite Hno.
Qed.

(** *** Witnesses *)

Definition migrated_document : Toml :=
  match ser_config legacy_config with Ok t => t | Err _ => Toml_Other "" end.
Definition sample_texts : TomlText :=
  texts_of [("version one"%string, legacy_document); ("version two"%string, migrated_document)].
Lemma sample_texts_laws : @TomlTextLaws sample_texts.
Proof.
  apply texts_of_laws. simpl. apply NoDup_cons; split; [set_solver|apply NoDup_singleton].
Qed.

(** One configuration file of the first version. *)
Definition sample_fs : Fs :=
  {| directory := {["controller.toml"%string := 0%nat]}; older := [];
     files := {[0%nat := {| content := str_bytes "version one"; synced := true |}]};
     next_file := 1 |}.
Lemma sample_fs_ok : dir_ok sample_fs.
Proof.
  split; cbn [sample_fs directory files next_file].
  - intros x n [<- <-]%lookup_singleton_Some. rewrite lookup_singleton_eq. split; [lia|eauto].
  - intros x y n [<- _]%lookup_singleton_Some [<- _]%lookup_singleton_Some. done.
Qed.

(** The rename of the backup fails: the old file is untouched. *)
Example migration_keeps_the_old_file_witness :
  exists fs' e,
    @load_migrating sample_texts "controller.toml" 7 1 sample_fs
      (repeat Works 5 ++ [Fails 0; Works; Works]) = (fs', [], Failed e)
    /\ (read_file fs' "controller.toml" = Some (str_bytes "version one")
        \/ read_file fs' "controller.toml.v1.bak" = Some (str_bytes "version one")).
Proof.
  pose proof (@migration_keeps_the_old_file _ sample_texts_laws "controller.toml" "version one" 7 1
                sample_fs (repeat Works 5 ++ [Fails 0; Works; Works]) sample_fs_ok
                ltac:(vm_compute; reflexivity) ltac:(vm_compute; reflexivity)
                ltac:(vm_compute; reflexivity) ltac:(vm_compute; reflexivity)) as Hm.
  destruct (load_migrating _ _ _ _ _) as [[fs' os'] [c|e|]] eqn:E;
    [vm_compute in E; discriminate E| |vm_compute in E; discriminate E].
  exists fs', e. split; [|exact Hm].
  assert (os' = []) as -> by (vm_compute in E; congruence). reflexivity.
Defined.

(** The first migration is stopped while it saves, before the file changed; the next one resumes. *)
Definition interrupted_fs : Fs :=
  (@load_migrating sample_texts "controller.toml" 7 1 sample_fs (repeat Works 7)).1.1.
Lemma interrupted_directory : directory interrupted_fs
  = <["controller.toml.v1.bak"%string := 1%nat]> {["controller.toml"%string := 0%nat]}.
Proof. vm_compute. reflexivity. Qed.
Lemma interrupted_fs_ok : dir_ok interrupted_fs.
Proof.
  split; rewrite interrupted_directory.
  - intros x n [[<- <-]|[_ [<- <-]%lookup_singleton_Some]]%lookup_insert_Some;
      (split; [vm_compute; lia|vm_compute; by eexists]).
  - intros x y n [[<- <-]|[_ [<- <-]%lookup_singleton_Some]]%lookup_insert_Some
      [[<- Hn]|[_ [<- Hn]%lookup_singleton_Some]]%lookup_insert_Some; done.
Qed.

Example migration_happens_once_witness :
  exists n fs', (n <= 9)%nat
    /\ @load_migrating sample_texts "controller.toml" 8 1 interrupted_fs (repeat Works n ++ [])
       = (fs', [], Done legacy_config)
    /\ read_file fs' "controller.toml.v1.bak" = Some (str_bytes "version one")
    /\ read_file fs' "controller.toml" = Some (str_bytes "version two")
    /\ forall os', @load_migrating sample_texts "controller.toml" 9 2 fs' (Works :: os')
                   = (fs', os', Done legacy_config).
Proof.
  apply (@migration_happens_once _ sample_texts_laws "controller.toml" "version one" "version two"
           8 1 9 2 legacy_config interrupted_fs []); [apply interrupted_fs_ok|vm_compute; reflexivity..].
Defined.

(** The backup's directory entry is never synced, and neither is the new file: after a migration
    whose calls all worked, a crash may bring back a directory without the backup whose
    configuration file holds anything. *)
Theorem crash_after_migration_may_lose_both :
  exists fs', @load_migrating sample_texts "controller.toml" 7 1 sample_fs (repeat Works 9)
    = (fs', [], Done legacy_config)
  /\ exists d n f, d ∈ older fs' /\ d !! "controller.toml.v1.bak"%string = None
     /\ d !! "controller.toml"%string = Some n /\ files fs' !! n = Some f /\ synced f = false.
Proof.
  destruct (@load_migrating sample_texts "controller.toml" 7 1 sample_fs (repeat Works 9))
    as [[fs' os'] r] eqn:E.
  assert (r = Done legacy_config /\ os' = []) as [-> ->] by (vm_compute in E; by injection E).
  exists fs'. split; [done|]. exists {["controller.toml"%string := 0%nat]}, 0%nat,
    {| content := str_bytes "version two"; synced := false |}.
  assert (older fs' = [<["controller.toml.v1.bak.tmp-7-1"%string := 1%nat]> (directory sample_fs);
                       directory sample_fs]
          /\ files fs' !! 0%nat = Some {| content := str_bytes "version two"; synced := false |})
    as [Ho Hf] by (vm_compute in E; injection E as <-; split; reflexivity).
  rewrite Ho, Hf. split_and!; [|done..]. right. left.
Qed.
