(* ===== verification/Audio.v ===== *)
(** * Audio datagrams: [crates/edge-audio/src/lib.rs]

    [PacketCipher] seals a frame of samples into one datagram and opens it again;
    [JitterBuffer] puts the frames that arrive back in order.  The cipher is the
    ChaCha20-Poly1305 of another crate: the class [Aead].  The conversion of
    samples to and from floating point is in [Pcm].  The keys of a
    [BTreeMap<u64, _>] are those of a list sorted by key. *)
From stdpp Require Import sorting.
From S2P Require Export Prelude.

(** [edge-audio 9-9 FRAME_MS] *)
Definition FRAME_MS : Z := 5.
(** [edge-audio 12-12 MAX_DATAGRAM_BYTES] *)
Definition MAX_DATAGRAM_BYTES : Z := 1200.
(** [edge-audio 15-15 MAGIC]: the bytes of "EKA1". *)
Definition MAGIC : bytes := [69; 75; 65; 49].
(** [edge-audio 16-16 VERSION] *)
Definition VERSION : Z := 1.
(** [edge-audio 17-17 HEADER_LEN] *)
Definition HEADER_LEN : Z := 36.

(** [edge-audio 20-32 AudioError] *)
Inductive AudioError := Truncated | InvalidPacket | WrongSession | Oversized | Authentication.

(** [edge-audio 58-64 AudioPacket] *)
Record AudioPacket := {
  sequence : Z;
  sample_timestamp : Z;
  flags : Z;
  payload : bytes;
}.
#[export] Instance AudioPacket_eq_dec : EqDecision AudioPacket.
Proof. solve_decision. Defined.

(** ** Sealing *)

(** [encrypt key nonce aad msg] and [decrypt key nonce aad ciphertext]. *)
Class Aead := {
  encrypt : bytes -> bytes -> bytes -> bytes -> option bytes;
  decrypt : bytes -> bytes -> bytes -> bytes -> option bytes;
}.

(** A ciphertext is the message and a 16-byte tag; it decrypts to a message exactly when it is
    what that message encrypts to. *)
Class AeadLaws `{Aead} := {
  encrypt_len key nonce aad msg c : encrypt key nonce aad msg = Some c -> len c = len msg + 16;
  encrypt_bytes key nonce aad msg c : encrypt key nonce aad msg = Some c -> is_bytes c;
  decrypt_encrypt key nonce aad msg c : is_bytes c ->
    decrypt key nonce aad c = Some msg <-> encrypt key nonce aad msg = Some c;
}.

(** [edge-audio 66-71 PacketCipher]; the cipher is its key. *)
Record PacketCipher := { session_id : bytes; session_salt : bytes; session_key : bytes }.

Section Cipher.
Context `{Aead}.
Context (self : PacketCipher).

(** [edge-audio 160-165 PacketCipher::nonce] *)
Definition packet_nonce (sequence : Z) : bytes := session_salt self ++ be_encode 8 sequence.

Definition packet_header (sequence sample_timestamp flags : Z) : bytes :=
  MAGIC ++ [VERSION] ++ [flags] ++ be_encode 2 HEADER_LEN ++ session_id self
  ++ be_encode 8 sequence ++ be_encode 4 sample_timestamp.

(** [edge-audio 82-121 PacketCipher::seal_payload], with [seal] of a packet. *)
Definition packet_seal (packet : AudioPacket) : result bytes AudioError :=
  let header := packet_header (sequence packet) (sample_timestamp packet) (flags packet) in
  match encrypt (session_key self) (packet_nonce (sequence packet)) header (payload packet) with
  | None => Err Authentication
  | Some encrypted =>
      let datagram := header ++ encrypted in
      if MAX_DATAGRAM_BYTES <? len datagram then Err Oversized else Ok datagram
  end.

(** [edge-audio 123-158 PacketCipher::open] *)
Definition packet_open (datagram : bytes) : result AudioPacket AudioError :=
  if len datagram <? HEADER_LEN + 16 then Err Truncated
  else if MAX_DATAGRAM_BYTES <? len datagram then Err Oversized
  else if negb (bool_decide (take 4 datagram = MAGIC))
          || negb (bool_decide (datagram !! 4%nat = Some VERSION)) then Err InvalidPacket
  else if negb (be_decode (take 2 (drop 6 datagram)) =? HEADER_LEN) then Err InvalidPacket
  else if negb (bool_decide (take 16 (drop 8 datagram) = session_id self)) then Err WrongSession
  else
    let sequence := be_decode (take 8 (drop 24 datagram)) in
    match decrypt (session_key self) (packet_nonce sequence) (take 36 datagram)
            (drop 36 datagram) with
    | None => Err Authentication
    | Some payload =>
        Ok {| sequence := sequence;
              sample_timestamp := be_decode (take 4 (drop 32 datagram));
              flags := default 0 (datagram !! 5%nat); payload := payload |}
    end.
End Cipher.

(** ** The jitter buffer *)

(** [BTreeMap::insert]: the new map, and whether the key was new. *)
Fixpoint bt_insert {A} (k : Z) (v : A) (m : list (Z * A)) : list (Z * A) * bool :=
  match m with
  | [] => ([(k, v)], true)
  | (k', v') :: m' =>
      if k <? k' then ((k, v) :: m, true)
      else if k =? k' then ((k, v) :: m', false)
      else let r := bt_insert k v m' in ((k', v') :: r.1, r.2)
  end.
(** [BTreeMap::remove] and [BTreeMap::get]. *)
Definition bt_remove {A} (k : Z) (m : list (Z * A)) : list (Z * A) :=
  List.filter (fun p => negb (p.1 =? k)) m.
Definition bt_get {A} (k : Z) (m : list (Z * A)) : option A :=
  snd <$> List.find (fun p => p.1 =? k) m.

(** [edge-audio 250-257 JitterBuffer] *)
Record JitterBuffer := {
  packets : list (Z * AudioPacket);
  next_sequence : option Z;
  target_packets : Z;
  max_packets : Z;
  started : bool;
}.

(** [edge-audio 260-269 JitterBuffer::new] *)
Definition JitterBuffer_new (target_ms : Z) : JitterBuffer :=
  let target := Z.max (Z.max target_ms FRAME_MS / FRAME_MS) 1 in
  {| packets := []; next_sequence := None; target_packets := target;
     max_packets := Z.max 24 (Z.min 96 (target * 3)); started := false |}.

(** [while self.packets.len() > self.max_packets]. *)
Fixpoint trim (max : Z) (m : list (Z * AudioPacket)) (next : option Z) :
  list (Z * AudioPacket) * option Z :=
  match m with
  | [] => ([], next)
  | _ :: rest => if max <? len m then trim max rest (fst <$> head rest) else (m, next)
  end.

(** [edge-audio 271-295 JitterBuffer::push] *)
Definition jitter_push (packet : AudioPacket) (self : JitterBuffer) : JitterBuffer * bool :=
  let late := is_some_and (fun next => sequence packet <? next) (next_sequence self) in
  if started self && late then (self, false)
  else
    let next :=
      if started self then next_sequence self
      else Some (match next_sequence self with
                 | Some next => Z.min next (sequence packet)
                 | None => sequence packet
                 end) in
    let next := option_or next (Some (sequence packet)) in
    let inserted := bt_insert (sequence packet) packet (packets self) in
    let kept := trim (max_packets self) inserted.1 next in
    ({| packets := kept.1; next_sequence := kept.2; target_packets := target_packets self;
        max_packets := max_packets self; started := started self |}, inserted.2).

(** [edge-audio 297-307 JitterBuffer::pop_ready]: [None] to wait, [Some None] for a lost packet. *)
Definition jitter_pop_ready (self : JitterBuffer) :
  JitterBuffer * option (option AudioPacket) :=
  match next_sequence self, last (packets self) with
  | Some sequence, Some (highest, _) =>
      let buffered_timeline := wrapping_add usize_max (saturating_sub highest sequence) 1 in
      if buffered_timeline <? target_packets self then (self, None)
      else ({| packets := bt_remove sequence (packets self);
               next_sequence := Some (wrapping_add u64_max sequence 1);
               target_packets := target_packets self; max_packets := max_packets self;
               started := true |}, Some (bt_get sequence (packets self)))
  | _, _ => (self, None)
  end.

(** ** Properties of sealing *)

Lemma take_plus {A} n m (l : list A) : take (n + m) l = take n l ++ take m (drop n l).
Proof. revert l. induction n as [|n IH]; intros [|x l]; simpl; [done|done|by destruct m|by rewrite IH]. Qed.

Lemma field_of {A} (a b c l : list A) n m :
  l = a ++ b ++ c -> length a = n -> length b = m -> take m (drop n l) = b.
Proof. intros -> <- <-. by rewrite drop_app_length, take_app_length. Qed.

Definition packet_ok (p : AudioPacket) : Prop :=
  in_u64 (sequence p) /\ in_u32 (sample_timestamp p) /\ in_u8 (flags p).

Section CipherProofs.
Context `{AeadLaws}.
Context (self : PacketCipher).
Context (Hid : is_bytes (session_id self) /\ length (session_id self) = 16%nat).

Lemma header_length n ts fl : length (packet_header self n ts fl) = 36%nat.
Proof.
  unfold packet_header. rewrite !length_app, !be_encode_length. destruct Hid as [_ ->]. done.
Qed.

(** The header a datagram starts with, if its fixed fields are right. *)
Lemma header_of_datagram d fl :
  is_bytes d -> 36 <= len d -> take 4 d = MAGIC -> d !! 4%nat = Some VERSION ->
  d !! 5%nat = Some fl -> be_decode (take 2 (drop 6 d)) = HEADER_LEN ->
  take 16 (drop 8 d) = session_id self ->
  packet_header self (be_decode (take 8 (drop 24 d))) (be_decode (take 4 (drop 32 d))) fl
  = take 36 d.
Proof.
  intros Hb Hl H4 HV HF HH HS. unfold len in Hl.
  assert (forall n m, (n + m <= length d)%nat ->
            be_encode m (be_decode (take m (drop n d))) = take m (drop n d)) as Hf.
  { intros n m Hnm. assert (length (take m (drop n d)) = m) as Hlen
      by (rewrite length_take, length_drop; lia).
    rewrite <- Hlen at 1. apply be_encode_decode. by apply Forall_take, Forall_drop. }
  unfold packet_header. rewrite (Hf 24%nat 8%nat), (Hf 32%nat 4%nat) by lia.
  rewrite <- HH, (Hf 6%nat 2%nat), <- HS, <- H4 by lia.
  assert (forall x n, d !! n = Some x -> [x] = take 1 (drop n d)) as H1
    by (intros x n Hx; by rewrite (drop_S _ _ _ Hx)).
  rewrite (H1 VERSION 4%nat), (H1 fl 5%nat) by done.
  change 36%nat with (4 + (1 + (1 + (2 + (16 + (8 + 4))))))%nat.
  rewrite !take_plus, !drop_drop. done.
Qed.

(** A datagram is accepted only if it is exactly what the peer sealed: opening is the
    inverse of sealing, both ways.  A sealed packet opens to itself, and any bytes from the
    network that open at all are, bit for bit, the sealed form of the packet they open to, so
    nothing in header or payload can be altered, and a packet of another session or of more
    than 1,200 bytes is never accepted. *)
Theorem open_inverts_seal (datagram : bytes) (p : AudioPacket) (Hb : is_bytes datagram) :
  packet_open self datagram = Ok p <-> packet_ok p /\ packet_seal self p = Ok datagram.
Proof.
  unfold packet_open, packet_seal, HEADER_LEN at 1, MAX_DATAGRAM_BYTES. split.
  - destruct (Z.ltb_spec (len datagram) (36 + 16)); [done|].
    destruct (Z.ltb_spec 1200 (len datagram)); [done|].
    destruct (negb (bool_decide (take 4 datagram = MAGIC)) || _) eqn:EM; [done|].
    destruct (negb (be_decode _ =? HEADER_LEN)) eqn:EH; [done|].
    destruct (negb (bool_decide (take 16 _ = _))) eqn:ES; [done|]. reflect_bools.
    destruct (datagram !! 5%nat) as [fl|] eqn:EF;
      [|apply lookup_ge_None in EF; unfold len in *; lia].
    destruct (decrypt _ _ _ _) as [m|] eqn:ED; [|done]. cbn [default]. intros [= <-].
    apply decrypt_encrypt in ED; [|by apply Forall_drop].
    assert (forall n k, (n + k <= length datagram)%nat ->
              0 <= be_decode (take k (drop n datagram)) < 256 ^ Z.of_nat k) as Hr.
    { intros n k Hnk. assert (len (take k (drop n datagram)) = Z.of_nat k) as <-
        by (unfold len; rewrite length_take, length_drop; lia).
      by apply be_decode_bound, Forall_take, Forall_drop. }
    unfold len in *. split.
    + split_and!; cbn [sequence sample_timestamp flags]; unfold in_range, u64_max, u32_max.
      * pose proof (Hr 24%nat 8%nat ltac:(lia)). change (256 ^ Z.of_nat 8) with (2 ^ 64) in *. lia.
      * pose proof (Hr 32%nat 4%nat ltac:(lia)). change (256 ^ Z.of_nat 4) with (2 ^ 32) in *. lia.
      * unfold is_bytes in Hb. rewrite Forall_lookup in Hb. exact (Hb _ _ EF).
    + cbn [sequence sample_timestamp flags payload].
      rewrite header_of_datagram by (try done; unfold len; lia). rewrite ED, take_drop.
      by rewrite (proj2 (Z.ltb_ge _ _)) by (unfold len; lia).
  - intros [(R1 & R2 & R3) Hs]. destruct (encrypt _ _ _ _) as [c|] eqn:EC; [|done].
    set (header := packet_header self (sequence p) (sample_timestamp p) (flags p)) in *.
    destruct (Z.ltb_spec 1200 (len (header ++ c))) as [|Hl]; [done|].
    assert (datagram = header ++ c) as -> by congruence. clear Hs.
    assert (len header = 36) as Hh by (unfold len, header; by rewrite header_length).
    pose proof (encrypt_len _ _ _ _ _ EC). pose proof (len_nonneg (payload p)).
    assert (len (header ++ c) <? 36 + 16 = false) as ->
      by (apply Z.ltb_ge; rewrite len_app; lia).
    rewrite (proj2 (Z.ltb_ge 1200 _)) by lia. destruct Hid as [_ Hid16].
    assert (forall a b r n m, header ++ c = a ++ b ++ r -> length a = n -> length b = m ->
              take m (drop n (header ++ c)) = b) as Hf by (intros; by eapply field_of).
    set (fixed := MAGIC ++ [VERSION] ++ [flags p] ++ be_encode 2 HEADER_LEN).
    assert (header ++ c = fixed ++ session_id self ++ be_encode 8 (sequence p)
              ++ be_encode 4 (sample_timestamp p) ++ c) as Ed
      by (unfold header, packet_header, fixed; by rewrite <- !app_assoc).
    rewrite (Hf fixed (session_id self) _ 8%nat 16%nat Ed) by done.
    rewrite (Hf (fixed ++ session_id self) (be_encode 8 (sequence p))
               (be_encode 4 (sample_timestamp p) ++ c) 24%nat 8%nat)
      by (rewrite ?length_app, ?Hid16, <- ?app_assoc, ?be_encode_length; done).
    rewrite (Hf (fixed ++ session_id self ++ be_encode 8 (sequence p))
               (be_encode 4 (sample_timestamp p)) c 32%nat 4%nat)
      by (rewrite ?length_app, ?Hid16, <- ?app_assoc, ?be_encode_length; done).
    rewrite !be_decode_encode_small by
      (unfold in_range, u64_max, u32_max in *; change (256 ^ Z.of_nat 8) with (2 ^ 64);
       change (256 ^ Z.of_nat 4) with (2 ^ 32); lia).
    assert (length header = 36%nat) as Hlen by (unfold len in Hh; lia).
    rewrite <- Hlen, take_app_length, drop_app_length.
    rewrite (proj2 (decrypt_encrypt _ _ _ _ _ (encrypt_bytes _ _ _ _ _ EC)) EC).
    rewrite (bool_decide_true (session_id self = session_id self)) by done.
    rewrite Ed. destruct p. reflexivity.
Qed.
End CipherProofs.

(** A cipher whose tag is sixteen zeros. *)
Module SampleAead.
Definition plain (msg : bytes) : bool := forallb (fun b => (0 <=? b) && (b <=? u8_max)) msg.

#[export] Instance zero_tag : Aead := {
  encrypt _ _ _ msg := if plain msg then Some (msg ++ repeat 0 16) else None;
  decrypt _ _ _ c :=
    if plain c && bool_decide (c = take (length c - 16) c ++ repeat 0 16)
    then Some (take (length c - 16) c) else None;
}.

Lemma plain_bytes msg : plain msg = true <-> is_bytes msg.
Proof.
  unfold plain, is_bytes. rewrite forallb_forall, Forall_forall. unfold in_range.
  split; intros Hm b Hb; [apply list_elem_of_In, Hm in Hb; lia|].
  apply list_elem_of_In, Hm in Hb. lia.
Qed.

#[export] Instance zero_tag_laws : AeadLaws.
Proof.
  split; unfold encrypt, decrypt, zero_tag.
  - intros _ _ _ msg c. destruct (plain msg); [|done]. intros Ec. assert (c = msg ++ repeat 0 16) as -> by congruence. by rewrite len_app.
  - intros _ _ _ msg c. destruct (plain msg) eqn:E; [|done]. intros [= <-].
    apply Forall_app. split; [by apply plain_bytes|]. by apply plain_bytes.
  - intros _ _ _ msg c Hc. rewrite (proj2 (plain_bytes c)) by done. cbn [andb]. split.
    + case_bool_decide as E; [|done]. intros [= <-].
      rewrite (proj2 (plain_bytes _)) by (by apply Forall_take). by rewrite <- E.
    + destruct (plain msg); [|done]. intros Ec.
      assert (c = msg ++ repeat 0 16) as -> by congruence.
      assert (length (msg ++ repeat 0%Z 16) - 16 = length msg)%nat as ->
        by (rewrite length_app; simpl; lia).
      by rewrite take_app_length, bool_decide_true.
Qed.
End SampleAead.
Import SampleAead.

Definition sample_cipher : PacketCipher :=
  {| session_id := repeat 5 16; session_salt := repeat 6 4; session_key := repeat 7 32 |}.
Definition sample_packet (n : Z) : AudioPacket :=
  {| sequence := n; sample_timestamp := 240 * n; flags := 0; payload := [n; 2; 3] |}.

Example open_inverts_seal_witness :
  exists d, packet_seal sample_cipher (sample_packet 9) = Ok d
            /\ packet_open sample_cipher d = Ok (sample_packet 9).
Proof.
  assert (packet_seal sample_cipher (sample_packet 9)
          = Ok (packet_header sample_cipher 9 2160 0 ++ [9; 2; 3] ++ repeat 0 16)) as E
    by (vm_compute; reflexivity).
  eexists. split; [exact E|].
  refine (proj2 (open_inverts_seal sample_cipher _ _ (sample_packet 9) _) (conj _ E)).
  - split; [by apply plain_bytes|reflexivity].
  - by apply plain_bytes.
  - split_and!; split; vm_compute; congruence.
Defined.

(** ** Properties of the jitter buffer *)

(** Maps sorted by key. *)
Definition key_lt {A} (a b : Z * A) : Prop := a.1 < b.1.
Abbreviation sorted := (StronglySorted key_lt).

Lemma bt_insert_elem {A} k (v : A) m x :
  x ∈ (bt_insert k v m).1 -> x = (k, v) \/ x ∈ m.
Proof.
  induction m as [|[k' v'] m IH]; simpl; [by rewrite list_elem_of_singleton; left|].
  destruct (k <? k'); simpl; [|destruct (k =? k'); simpl]; rewrite !elem_of_cons; naive_solver.
Qed.

Lemma bt_insert_sorted {A} k (v : A) m : sorted m -> sorted (bt_insert k v m).1.
Proof.
  induction 1 as [|[k' v'] m Hm IH Hall]; simpl; [repeat constructor|].
  destruct (Z.ltb_spec k k'); simpl.
  - constructor; [by constructor|]. constructor; [done|].
    eapply Forall_impl; [exact Hall|]. unfold key_lt. simpl. intros [] ?; simpl in *; lia.
  - destruct (Z.eqb_spec k k') as [->|]; simpl; constructor; try done.
    apply Forall_forall. intros x [->|Hx]%bt_insert_elem; [unfold key_lt; simpl; lia|].
    rewrite Forall_forall in Hall. auto.
Qed.

Lemma bt_insert_len {A} k (v : A) m : len (bt_insert k v m).1 <= len m + 1.
Proof.
  induction m as [|[k' v'] m IH]; simpl; [unfold len; simpl; lia|].
  destruct (k <? k'); simpl; [|destruct (k =? k'); simpl]; rewrite !len_cons; lia.
Qed.

(** A new key is added, and nothing else. *)
Lemma bt_insert_new {A} k (v : A) m : k ∉ m.*1 -> (bt_insert k v m).1 ≡ₚ (k, v) :: m.
Proof.
  induction m as [|[k' v'] m IH]; simpl; [done|]. intros [Hk Hm]%not_elem_of_cons.
  destruct (k <? k'); [done|]. destruct (Z.eqb_spec k k'); [done|]. simpl.
  rewrite IH by done. apply Permutation_swap.
Qed.

Lemma bt_remove_elem {A} k (m : list (Z * A)) x : x ∈ bt_remove k m <-> x ∈ m /\ x.1 <> k.
Proof.
  unfold bt_remove. rewrite !list_elem_of_In, List.filter_In, negb_true_iff, Z.eqb_neq. done.
Qed.

Lemma bt_remove_sorted {A} k (m : list (Z * A)) : sorted m -> sorted (bt_remove k m).
Proof.
  induction 1 as [|x m Hm IH Hall]; simpl; [constructor|]. destruct (negb _); [|done].
  constructor; [done|]. apply Forall_forall. intros y [Hy _]%bt_remove_elem.
  rewrite Forall_forall in Hall. auto.
Qed.

Lemma sorted_last {A} (m : list (Z * A)) h v : sorted m -> last m = Some (h, v) ->
  Forall (fun x => x.1 <= h) m.
Proof.
  induction 1 as [|x m Hm IH Hall]; [done|]. rewrite last_cons.
  destruct (last m) as [y|] eqn:E; intros [= ->].
  - constructor; [|auto]. apply last_Some_elem_of in E. rewrite Forall_forall in Hall.
    apply Hall in E. unfold key_lt in E. simpl in E. lia.
  - apply last_None in E as ->. repeat constructor. simpl. lia.
Qed.

Lemma trim_spec max m : 1 <= max -> forall next,
  let r := trim max m next in
  len r.1 <= max /\ r.1 `suffix_of` m
  /\ (r.1 = m /\ r.2 = next \/ exists x, head r.1 = Some x /\ r.2 = Some x.1).
Proof.
  intros Hmax. induction m as [|x m IH]; intros next; cbn [trim].
  - split_and!; [unfold len; simpl; lia|done|by left].
  - destruct (Z.ltb_spec max (len (x :: m))) as [Hl|Hl].
    + destruct (IH (fst <$> head m)) as (H1 & H2 & H3).
      split_and!; [done|by apply suffix_cons_r|]. right.
      destruct H3 as [[-> ->]|H3]; [|done]. destruct m as [|y m]; [unfold len in Hl; simpl in Hl; lia|].
      by exists y.
    + split_and!; [done|done|by left].
Qed.

Inductive jitter_op := Jitter_push (packet : AudioPacket) | Jitter_pop.

(** A run of the buffer and the packets played. *)
Definition jitter_step (s : JitterBuffer * list AudioPacket) (op : jitter_op) :
  JitterBuffer * list AudioPacket :=
  match op with
  | Jitter_push p => ((jitter_push p s.1).1, s.2)
  | Jitter_pop =>
      match jitter_pop_ready s.1 with
      | (j, Some (Some p)) => (j, s.2 ++ [p])
      | (j, _) => (j, s.2)
      end
  end.
Definition run_jitter (ops : list jitter_op) (s : JitterBuffer * list AudioPacket) :=
  fold_left jitter_step ops s.

Definition pushed (ops : list jitter_op) : list AudioPacket :=
  omap (fun op => match op with Jitter_push p => Some p | Jitter_pop => None end) ops.

Definition playable (p : AudioPacket) : Prop := 0 <= sequence p < u64_max.

(** The invariant of a run: [next_sequence] separates what was played from what is buffered. *)
Record jitter_ok (from : AudioPacket -> Prop) (s : JitterBuffer * list AudioPacket) : Prop := {
  jo_sorted : sorted (packets s.1);
  jo_keys : Forall (fun x => x.1 = sequence x.2 /\ playable x.2 /\ from x.2) (packets s.1);
  jo_size : 24 <= max_packets s.1 <= 96 /\ len (packets s.1) <= max_packets s.1;
  jo_next : match next_sequence s.1 with
            | Some n => 0 <= n <= u64_max /\ Forall (fun x => n <= x.1) (packets s.1)
                        /\ Forall (fun p => sequence p < n) s.2
            | None => packets s.1 = [] /\ s.2 = []
            end;
  jo_started : started s.1 = false -> s.2 = [];
  jo_played : StronglySorted (fun p q => sequence p < sequence q) s.2 /\ Forall from s.2;
}.

Lemma jitter_new_ok from target : jitter_ok from (JitterBuffer_new target, []).
Proof.
  unfold JitterBuffer_new. split; simpl; try done; try constructor; try constructor;
    try lia; unfold len; simpl; lia.
Qed.

Lemma trim_from_ok from max m next (played : list AudioPacket) :
  1 <= max -> sorted m ->
  Forall (fun x => x.1 = sequence x.2 /\ playable x.2 /\ from x.2) m ->
  0 <= next <= u64_max -> Forall (fun x => next <= x.1) m ->
  Forall (fun p => sequence p < next) played ->
  let r := trim max m (Some next) in
  sorted r.1 /\ Forall (fun x => x.1 = sequence x.2 /\ playable x.2 /\ from x.2) r.1
  /\ len r.1 <= max
  /\ exists n, r.2 = Some n /\ 0 <= n <= u64_max /\ Forall (fun x => n <= x.1) r.1
               /\ Forall (fun p => sequence p < n) played.
Proof.
  intros Hmax Hs Hk Hn Hm Hp r. destruct (trim_spec max m Hmax (Some next)) as (H1 & [l H2] & H3).
  fold r in H1, H2, H3. rewrite H2 in Hs, Hk, Hm.
  apply StronglySorted_app in Hs as (_ & _ & Hs).
  apply Forall_app in Hk as [_ Hk], Hm as [_ Hm]. split_and!; [done|done|done|].
  destruct H3 as [[_ ->]|(x & Hh & ->)]; [by exists next|]. exists x.1.
  destruct r.1 as [|y rest]; [done|]. injection Hh as ->.
  apply Forall_cons in Hk as [(E & [? ?] & _) _], Hm as [Hx Hm].
  apply StronglySorted_cons in Hs as [Hall _]. split_and!; [done|lia|lia| |].
  - constructor; [lia|]. eapply Forall_impl; [exact Hall|]. unfold key_lt. simpl. lia.
  - eapply Forall_impl; [exact Hp|]. simpl. lia.
Qed.

Lemma jitter_push_ok (from : AudioPacket -> Prop) p s :
  playable p -> from p -> jitter_ok from s -> jitter_ok from (jitter_step s (Jitter_push p)).
Proof.
  intros Hp Hf Hok. pose proof Hok as [H1 H2 [H3 H4] H5 H6 H7]. destruct s as [j played]. simpl in *.
  unfold jitter_push. destruct (started j && is_some_and _ _) eqn:El; [by destruct j|].
  set (next := if started j then next_sequence j else _).
  assert (exists n, option_or next (Some (sequence p)) = Some n /\ n <= sequence p
            /\ 0 <= n <= u64_max /\ Forall (fun x => n <= x.1) (packets j)
            /\ Forall (fun q => sequence q < n) played) as (n & Hn & Hle & Hr & Hm & Hpl).
  { destruct Hp as [? ?]. unfold next. destruct (started j) eqn:Es.
    - destruct (next_sequence j) as [n|]; simpl in *.
      + exists n. apply Z.ltb_ge in El. naive_solver.
      + destruct H5 as [-> ->]. exists (sequence p). split_and!; try constructor; lia.
    - rewrite (H6 eq_refl) in *. destruct (next_sequence j) as [n|]; simpl.
      + destruct H5 as (? & Hall & _). eexists. split_and!; [done|lia|lia|lia| |constructor].
        eapply Forall_impl; [exact Hall|]. simpl. lia.
      + destruct H5 as [-> _]. exists (sequence p). split_and!; try constructor; lia. }
  rewrite Hn. set (m := (bt_insert (sequence p) p (packets j)).1).
  assert (sorted m) as Hsm by (by apply bt_insert_sorted).
  assert (Forall (fun x => x.1 = sequence x.2 /\ playable x.2 /\ from x.2) m) as Hkm.
  { apply Forall_forall. intros x [->|Hx]%bt_insert_elem; [done|].
    rewrite Forall_forall in H2. auto. }
  assert (Forall (fun x => n <= x.1) m) as Hnm.
  { apply Forall_forall. intros x [->|Hx]%bt_insert_elem; [done|].
    rewrite Forall_forall in Hm. auto. }
  destruct (trim_from_ok from (max_packets j) m n played ltac:(lia) Hsm Hkm Hr Hnm Hpl)
    as (T1 & T2 & T3 & n' & T4 & T5 & T6 & T7).
  split; simpl; try done. rewrite T4. done.
Qed.

Lemma jitter_pop_ok from s : jitter_ok from s -> jitter_ok from (jitter_step s Jitter_pop).
Proof.
  intros Hok. pose proof Hok as [H1 H2 [H3 H4] H5 H6 [H7 H8]]. destruct s as [j played]. simpl in *.
  unfold jitter_pop_ready. destruct (next_sequence j) as [n|] eqn:En; [|done].
  destruct H5 as (Hn & Hm & Hpl). destruct (last (packets j)) as [[h q]|] eqn:Eh; [|done].
  destruct (_ <? _); [done|].
  assert (n < u64_max) as Hlt.
  { apply last_Some_elem_of in Eh. rewrite Forall_forall in H2, Hm.
    apply H2 in Eh as Hh. apply Hm in Eh. destruct Hh as (? & [? ?] & _). simpl in *. lia. }
  assert (wrapping_add u64_max n 1 = n + 1) as ->
    by (apply wrapping_add_small; unfold u64_max in *; lia).
  assert (len (bt_remove n (packets j)) <= max_packets j) as Hlen
    by (unfold bt_remove; pose proof (len_filter_le (fun p => negb (p.1 =? n)) (packets j)); lia).
  assert (Forall (fun x => n + 1 <= x.1) (bt_remove n (packets j))) as Hm'.
  { apply Forall_forall. intros x [Hx ?]%bt_remove_elem. rewrite Forall_forall in Hm.
    apply Hm in Hx. lia. }
  assert (Forall (fun x => x.1 = sequence x.2 /\ playable x.2 /\ from x.2)
            (bt_remove n (packets j))) as Hk'.
  { apply Forall_forall. intros x [Hx _]%bt_remove_elem. rewrite Forall_forall in H2. auto. }
  destruct (bt_get n (packets j)) as [p|] eqn:Eg; split; simpl; try done;
    try (by apply bt_remove_sorted).
  - unfold bt_get in Eg. destruct (List.find _ _) as [x|] eqn:Ef; [|done]. injection Eg as <-.
    apply List.find_some in Ef as [Hx Ek]. apply Z.eqb_eq in Ek. apply list_elem_of_In in Hx.
    rewrite Forall_forall in H2. apply H2 in Hx as (E & _ & _).
    split_and!; [lia|lia|done|]. apply Forall_app. split; [|constructor; [lia|constructor]].
    eapply Forall_impl; [exact Hpl|]. simpl. lia.
  - unfold bt_get in Eg. destruct (List.find _ _) as [x|] eqn:Ef; [|done]. injection Eg as <-.
    apply List.find_some in Ef as [Hx Ek]. apply Z.eqb_eq in Ek. apply list_elem_of_In in Hx.
    rewrite Forall_forall in H2. apply H2 in Hx as (E & _ & Hfr). split.
    + apply StronglySorted_app_2; [|done|repeat constructor].
      intros a b Ha ->%list_elem_of_singleton. rewrite Forall_forall in Hpl. apply Hpl in Ha. lia.
    + apply Forall_app. split; [done|by repeat constructor].
  - split_and!; [lia|lia|done|]. eapply Forall_impl; [exact Hpl|]. simpl. lia.
Qed.

(** Playback never goes back: whatever arrives in whatever order, late, twice or never,
    the packets played have strictly increasing sequence numbers and were all received, and
    the buffer never holds more than 96 of them. *)
Theorem playback_is_in_order (target_ms : Z) (ops : list jitter_op)
    (Hpushed : Forall playable (pushed ops)) :
  let r := run_jitter ops (JitterBuffer_new target_ms, []) in
  StronglySorted (fun p q => sequence p < sequence q) r.2
  /\ Forall (fun p => p ∈ pushed ops) r.2
  /\ len (packets r.1) <= 96.
Proof.
  intros r. assert (jitter_ok (fun p => p ∈ pushed ops) r) as [_ _ [? ?] _ _ [? ?]];
    [|split_and!; [done|done|lia]].
  unfold r. pose proof (jitter_new_ok (fun p => p ∈ pushed ops) target_ms) as H0. revert H0.
  assert (forall p, Jitter_push p ∈ ops -> playable p /\ p ∈ pushed ops) as Hin.
  { intros p Hp. assert (p ∈ pushed ops) as Hpp
      by (unfold pushed; apply list_elem_of_omap; exists (Jitter_push p); done).
    split; [|done]. rewrite Forall_forall in Hpushed. auto. }
  revert Hin. generalize (JitterBuffer_new target_ms, @nil AudioPacket).
  generalize (pushed ops). clear. intros from.
  induction ops as [|op ops IH]; intros s Hin Hs; [done|]. apply IH.
  - intros p Hp. apply Hin. by right.
  - destruct op as [p|]; [|by apply jitter_pop_ok].
    apply jitter_push_ok; [| |done]; apply Hin; by left.
Qed.

Example playback_is_in_order_witness :
  StronglySorted (fun p q => sequence p < sequence q)
    (run_jitter [Jitter_push (sample_packet 4); Jitter_push (sample_packet 3);
                 Jitter_pop; Jitter_push (sample_packet 3); Jitter_pop; Jitter_pop]
       (JitterBuffer_new 5, [])).2.
Proof.
  apply (playback_is_in_order 5).
  repeat (constructor; [split; vm_compute; congruence|]). constructor.
Defined.

(** *** Reordering *)

Definition keyed (p : AudioPacket) : Z * AudioPacket := (sequence p, p).

Fixpoint consecutive (first : Z) (ps : list AudioPacket) : Prop :=
  match ps with
  | [] => True
  | p :: ps => sequence p = first /\ consecutive (first + 1) ps
  end.

Lemma consecutive_range ps : forall s, consecutive s ps ->
  Forall (fun p => s <= sequence p < s + len ps) ps.
Proof.
  induction ps as [|p ps IH]; intros s; [constructor|]. intros [Hp Hps]. rewrite len_cons.
  pose proof (len_nonneg ps). constructor; [lia|]. eapply Forall_impl; [by apply IH|].
  simpl. lia.
Qed.

Lemma consecutive_sorted ps : forall s, consecutive s ps -> sorted (keyed <$> ps).
Proof.
  induction ps as [|p ps IH]; intros s; [constructor|]. intros [Hp Hps].
  rewrite fmap_cons. constructor; [by eapply IH|]. apply Forall_fmap.
  eapply Forall_impl; [by apply consecutive_range|]. unfold key_lt. simpl. lia.
Qed.

Lemma consecutive_last ps : forall s, consecutive s ps -> ps <> [] ->
  exists p, last (keyed <$> ps) = Some (s + len ps - 1, p).
Proof.
  induction ps as [|p ps IH]; [done|]. intros s [Hp Hps] _. rewrite fmap_cons, last_cons, len_cons.
  destruct ps as [|q ps].
  - exists p. simpl. unfold keyed, len. simpl. do 2 f_equal. lia.
  - destruct (IH (s + 1) Hps) as (r & ->); [done|]. exists r. do 2 f_equal. lia.
Qed.

Lemma trim_small max m next : len m <= max -> trim max m next = (m, next).
Proof.
  destruct m as [|x m]; [done|]. cbn [trim]. intros. by rewrite (proj2 (Z.ltb_ge _ _)) by lia.
Qed.

(** What has been pushed into a buffer that has not played yet. *)
Record filling (target : Z) (qs : list AudioPacket) (s : JitterBuffer * list AudioPacket) : Prop := {
  fi_packets : packets s.1 ≡ₚ keyed <$> qs;
  fi_sorted : sorted (packets s.1);
  fi_next : match next_sequence s.1 with
            | Some n => n ∈ sequence <$> qs /\ Forall (fun q => n <= sequence q) qs
            | None => qs = []
            end;
  fi_config : s = ({| packets := packets s.1; next_sequence := next_sequence s.1;
                      target_packets := target_packets (JitterBuffer_new target);
                      max_packets := max_packets (JitterBuffer_new target);
                      started := false |}, []);
}.

Lemma filling_push target qs p s :
  filling target qs s -> sequence p ∉ sequence <$> qs ->
  len qs + 1 <= max_packets (JitterBuffer_new target) ->
  filling target (p :: qs) (jitter_step s (Jitter_push p)).
Proof.
  intros [H1 H2 H3 H4] Hp Hlen. rewrite H4. set (j := s.1) in *.
  cbn [jitter_step fst snd jitter_push started andb packets next_sequence max_packets
       target_packets]. unfold jitter_push. cbn [started packets next_sequence max_packets andb].
  assert ((bt_insert (sequence p) p (packets j)).1 ≡ₚ keyed <$> p :: qs) as Hperm.
  { rewrite bt_insert_new, H1; [done|]. rewrite H1, <- list_fmap_compose. exact Hp. }
  rewrite trim_small.
  - split; simpl; [exact Hperm|by apply bt_insert_sorted| |done].
    destruct (next_sequence j) as [n|].
    + destruct H3 as [Hn Hall]. split.
      * destruct (Z.min_spec n (sequence p)) as [[_ ->]|[_ ->]]; [by right|by left].
      * constructor; [lia|]. eapply Forall_impl; [exact Hall|]. simpl. lia.
    + subst qs. split; [by left|]. by repeat constructor.
  - unfold len in *. rewrite (Permutation_length Hperm), length_fmap.
    cbn [length]. lia.
Qed.

Lemma filling_all target qs : forall s ps,
  filling target ps s -> NoDup (sequence <$> qs ++ ps) ->
  len (qs ++ ps) <= max_packets (JitterBuffer_new target) ->
  exists rs, rs ≡ₚ qs ++ ps /\ filling target rs (run_jitter (Jitter_push <$> qs) s).
Proof.
  induction qs as [|q qs IH]; intros s ps Hs Hnd Hlen; [by exists ps|].
  simpl in Hnd. apply NoDup_cons in Hnd as [Hq Hnd]. cbn [app] in Hlen. rewrite len_cons in Hlen.
  rewrite fmap_app, not_elem_of_app in Hq. destruct Hq as [Hq Hqp].
  pose proof (len_app qs ps). pose proof (len_nonneg qs).
  destruct (IH (jitter_step s (Jitter_push q)) (q :: ps)) as (rs & Hrs & Hf).
  - apply filling_push; [done|done|lia].
  - rewrite fmap_app, fmap_cons. rewrite <- Permutation_middle, <- fmap_app.
    apply NoDup_cons. split; [|done]. by rewrite fmap_app, not_elem_of_app.
  - rewrite !len_app, len_cons in *. lia.
  - exists rs. split; [by rewrite Hrs, <- Permutation_middle|exact Hf].
Qed.

Lemma pop_in_order j n p rest played h q :
  packets j = (n, p) :: rest -> sorted (packets j) -> next_sequence j = Some n ->
  last (packets j) = Some (h, q) -> target_packets j <= h - n + 1 ->
  0 <= n -> h < u64_max ->
  jitter_step (j, played) Jitter_pop
  = ({| packets := rest; next_sequence := Some (n + 1); target_packets := target_packets j;
        max_packets := max_packets j; started := true |}, played ++ [p]).
Proof.
  intros Hj Hs Hn Hl Ht H0 Hh. pose proof (sorted_last _ h q Hs Hl) as Hall.
  rewrite Hj in Hall, Hs. apply Forall_cons in Hall as [Hnh _]. simpl in Hnh.
  apply StronglySorted_cons in Hs as [Hgt _].
  cbn [jitter_step fst snd]. unfold jitter_pop_ready. rewrite Hn, Hl.
  unfold saturating_sub. rewrite Z.max_r by lia.
  rewrite !wrapping_add_small by (unfold usize_max in *; lia).
  rewrite (proj2 (Z.ltb_ge _ _)) by lia. rewrite Hj. unfold bt_get, bt_remove. simpl.
  rewrite Z.eqb_refl. simpl. do 2 f_equal.
  clear -Hgt. induction rest as [|x rest IH]; [done|]. apply Forall_cons in Hgt as [Hx Hgt].
  unfold key_lt in Hx. simpl in Hx. simpl. rewrite (proj2 (Z.eqb_neq _ _)) by lia. simpl.
  f_equal. auto.
Qed.

Lemma pops_in_order k : forall ps n j played,
  packets j = keyed <$> ps -> consecutive n ps -> next_sequence j = Some n -> 0 <= n ->
  n + len ps <= u64_max -> 1 <= target_packets j ->
  Z.of_nat k + target_packets j <= len ps + 1 ->
  (run_jitter (repeat Jitter_pop k) (j, played)).2 = played ++ take k ps.
Proof.
  induction k as [|k IH]; intros ps n j played Hj Hc Hn H0 Hu Ht Hk; [by rewrite app_nil_r|].
  destruct ps as [|p ps]; [unfold len in Hk; simpl in Hk; lia|].
  pose proof (consecutive_sorted _ _ Hc) as Hs. rewrite <- Hj in Hs.
  destruct (consecutive_last _ _ Hc ltac:(done)) as (q & Hl). rewrite <- Hj in Hl.
  destruct Hc as [Hp Hc]. rewrite len_cons in *. pose proof (len_nonneg ps).
  change (run_jitter (repeat Jitter_pop (S k)) (j, played))
    with (run_jitter (repeat Jitter_pop k) (jitter_step (j, played) Jitter_pop)).
  rewrite (pop_in_order j n p (keyed <$> ps) played (n + (1 + len ps) - 1) q); try done; try lia;
    [|by rewrite Hj, fmap_cons; unfold keyed at 1; rewrite Hp].
  rewrite (IH ps (n + 1)); simpl; try done; try lia. by rewrite <- app_assoc.
Qed.

(** The network may reorder: when a run of consecutive packets that fits the buffer has
    arrived, in any order, they are played in the order they were sent, without a gap, until
    only the target delay is left in the buffer. *)
Theorem reordering_is_undone (target_ms first : Z) (ps arrived : list AudioPacket)
    (Hsent : consecutive first ps) (Hfirst : 0 <= first /\ first + len ps <= u64_max)
    (Harrived : arrived ≡ₚ ps)
    (Hfits : target_packets (JitterBuffer_new target_ms) <= len ps
             <= max_packets (JitterBuffer_new target_ms)) :
  let target := Z.to_nat (target_packets (JitterBuffer_new target_ms)) in
  let k := (length ps - target + 1)%nat in
  (run_jitter ((Jitter_push <$> arrived) ++ repeat Jitter_pop k)
     (JitterBuffer_new target_ms, [])).2 = take k ps.
Proof.
  intros target k. pose proof (consecutive_sorted _ _ Hsent) as Hsort.
  pose proof (consecutive_range _ _ Hsent) as Hrange.
  assert (1 <= target_packets (JitterBuffer_new target_ms)) as Ht by (simpl; lia).
  assert (NoDup (sequence <$> ps)) as Hnd.
  { clear -Hsent. revert first Hsent. induction ps as [|p ps IH]; intros s; [constructor|].
    intros [Hp Hps]. rewrite fmap_cons. apply NoDup_cons. split; [|by eapply IH].
    intros (q & E & Hq)%list_elem_of_fmap. apply consecutive_range in Hps.
    rewrite Forall_forall in Hps. apply Hps in Hq. lia. }
  assert (filling target_ms [] (JitterBuffer_new target_ms, [])) as Hnew
    by (split; try done; constructor).
  destruct (filling_all target_ms arrived _ [] Hnew) as (rs & Hrs & [F1 F2 F3 F4]).
  { rewrite app_nil_r, Harrived. exact Hnd. }
  { rewrite app_nil_r. unfold len. rewrite Harrived. unfold len in Hfits. lia. }
  rewrite app_nil_r, Harrived in Hrs.
  unfold run_jitter at 1. rewrite fold_left_app. fold (run_jitter (Jitter_push <$> arrived)
    (JitterBuffer_new target_ms, [])). rewrite F4.
  set (j := (run_jitter (Jitter_push <$> arrived) (JitterBuffer_new target_ms, [])).1) in *.
  assert (packets j = keyed <$> ps) as Hj.
  { apply (StronglySorted_unique_strong key_lt); [unfold key_lt; lia|done|done|].
    by rewrite F1, Hrs. }
  assert (next_sequence j = Some first) as Hnext.
  { destruct ps as [|p ps]; [unfold len in Hfits; simpl in Hfits; lia|].
    destruct (next_sequence j) as [n|].
    - destruct F3 as [Hn Hmin]. rewrite Hrs in Hn, Hmin. f_equal.
      apply list_elem_of_fmap in Hn as (q & -> & Hq). rewrite Forall_forall in Hrange.
      apply Hrange in Hq. apply Forall_cons in Hmin as [Hm _]. destruct Hsent as [Hs _]. lia.
    - subst rs. by apply Permutation_nil_l in Hrs. }
  apply (pops_in_order k ps first); simpl; try done; try lia.
  unfold k, target. unfold len in *. simpl in *. lia.
Qed.

Example reordering_is_undone_witness :
  (run_jitter [Jitter_push (sample_packet 5); Jitter_push (sample_packet 4); Jitter_pop;
               Jitter_pop] (JitterBuffer_new 5, [])).2 = [sample_packet 4; sample_packet 5].
Proof.
  apply (reordering_is_undone 5 4 [sample_packet 4; sample_packet 5]
           [sample_packet 5; sample_packet 4]).
  - by split_and!.
  - vm_compute. split; congruence.
  - apply Permutation_swap.
  - vm_compute. split; congruence.
Defined.
