(* ===== verification/NotificationMirror.v ===== *)
(** * Phone notifications on the desktop: [NotificationMirror] of [notifications.rs]

    What the desktop shows for a phone's notification, and the mirror that maps the phone's
    notification ids to the desktop's, over the phone's connections.  The desktop's notification
    service is the class [Desktop]; the digest of a notification, an unspecified hash of the
    standard library, is a parameter. *)
From S2P Require Export Text Protocol.

(** ** What is shown *)

(** [rx/notifications 24-31 DesktopNotification] *)
Record DesktopNotification := {
  dn_app_name : string;
  dn_summary : string;
  dn_body : string;
  dn_icon_png : option bytes;
}.
#[export] Instance DesktopNotification_eq_dec : EqDecision DesktopNotification.
Proof. solve_decision. Defined.

Definition ampersand : Ascii.ascii := ascii_of_byte 38.
Definition less_than : Ascii.ascii := ascii_of_byte 60.
Definition greater_than : Ascii.ascii := ascii_of_byte 62.

(** [rx/notifications 251-255 escape_markup] *)
Definition escape_markup (text : string) : string :=
  replace_char greater_than "&gt;" (replace_char less_than "&lt;" (replace_char ampersand "&amp;" text)).

(** The ellipsis, U+2026. *)
Definition ellipsis : string := bytes_str [226; 128; 166].

(** [rx/notifications 257-262 truncate_chars] *)
Definition truncate_chars (text : string) (max : Z) : string :=
  if max <? chars_count text then (take_chars (Z.to_nat max) text ++ ellipsis)%string else text.

(** [str::is_char_boundary]. *)
Definition is_char_boundary (bs : bytes) (i : nat) : bool :=
  match i with
  | O => true
  | _ => match bs !! i with
         | Some b => negb (is_cont b)
         | None => bool_decide (i = length bs)
         end
  end.
(** The greatest boundary not after [cut]; the loop ends at zero. *)
Fixpoint boundary_before (bs : bytes) (cut : nat) : nat :=
  if is_char_boundary bs cut then cut
  else match cut with O => O | S c => boundary_before bs c end.

(** [rx/notifications 264-273 truncate_bytes] *)
Definition truncate_bytes (text : string) (max : Z) : string :=
  if str_len text <=? max then text
  else
    let cut := boundary_before (str_bytes text) (Z.to_nat (saturating_sub max 3)) in
    (bytes_str (take cut (str_bytes text)) ++ ellipsis)%string.

(** [rx/notifications 48-73 desktop_notification] *)
Definition desktop_notification (phone : PhoneNotification) (phone_name : string) :
  DesktopNotification :=
  let app := truncate_chars (pn_app_name phone) MAX_APP_NAME_CHARS in
  let title := truncate_chars (pn_title phone) MAX_TITLE_CHARS in
  let summary := if str_is_empty (trim title) then app else title in
  {| dn_app_name := (app ++ " (" ++ phone_name ++ ")")%string;
     dn_summary := escape_markup summary;
     dn_body := escape_markup (truncate_bytes (pn_body phone) MAX_BODY_BYTES);
     dn_icon_png := png ← pn_icon_png phone; if len png <=? MAX_ICON_BYTES then Some png else None |}.

(** ** The mirror *)

(** The desktop's notification service, on its state [D].
    [rx/notifications 33-46 Desktop] *)
Class Desktop (D : Type) := {
  desktop_generation : D -> result string string;
  desktop_show : DesktopNotification -> Z -> string -> D -> D * result Z string;
  desktop_close : Z -> string -> D -> D * result unit string;
}.

(** [rx/notifications 75-79 Shown] *)
Record Shown := { desktop_id : Z; shown_digest : Z }.

(** [rx/notifications 81-88 NotificationMirror]; [cache_path] is whether the path is set. *)
Record NotificationMirror := {
  shown : gmap Z Shown;
  resent : option (gset Z);
  owner : string;
  cache_path : bool;
}.
Definition NotificationMirror_default : NotificationMirror :=
  {| shown := ∅; resent := None; owner := ""; cache_path := false |}.

(** [rx/notifications 90-94 SavedMirror] *)
Record SavedMirror := { saved_owner : string; saved_shown : gmap Z Shown }.

(** The mirror, the desktop, and the cache file. *)
Record World (D : Type) := { mirror : NotificationMirror; screen : D; cache : option SavedMirror }.
Arguments mirror {D} _.
Arguments screen {D} _.
Arguments cache {D} _.

Section Mirror.
Context {D : Type} `{Desktop D} (digest : DesktopNotification -> Z).

Abbreviation mirroring := (stateful (World D) string).
Definition with_mirror (m : NotificationMirror) (w : World D) : World D :=
  {| mirror := m; screen := screen w; cache := cache w |}.
Definition update (f : NotificationMirror -> NotificationMirror) : mirroring unit :=
  fun w => (with_mirror (f (mirror w)) w, Ok tt).
Definition set_shown : gmap Z Shown -> NotificationMirror -> NotificationMirror :=
  ltac:(field_setter shown).
Definition set_resent : option (gset Z) -> NotificationMirror -> NotificationMirror :=
  ltac:(field_setter resent).

(** [rx/notifications 370-384 FreedesktopNotifications::generation] *)
Definition generation : mirroring string := fun w => (w, desktop_generation (screen w)).
(** [rx/notifications 189-189 NotificationMirror::apply] *)
Definition show (n : DesktopNotification) (replaces : Z) : mirroring Z := fun w =>
  let r := desktop_show n replaces (owner (mirror w)) (screen w) in
  ({| mirror := mirror w; screen := r.1; cache := cache w |}, r.2).
(** [rx/notifications 195-195 NotificationMirror::apply] *)
Definition close (id : Z) : mirroring unit := fun w =>
  let r := desktop_close id (owner (mirror w)) (screen w) in
  ({| mirror := mirror w; screen := r.1; cache := cache w |}, r.2).

(** [rx/notifications 97-125 NotificationMirror::restore]; [saved] is what reading the cache file
    gives: nothing if there is none, an error if it is too large or unreadable. *)
Definition restore (saved : result (option SavedMirror) string) : mirroring unit := fun w =>
  if cache_path (mirror w) then (w, Ok tt) else
  (owner_ <-! generation;;
   file <-! st_lift saved;;
   update (fun m =>
     {| shown := match file with
                 | Some f => if str_eqb (saved_owner f) owner_ then saved_shown f else shown m
                 | None => shown m
                 end;
        resent := resent m; owner := owner_; cache_path := true |})) w.

(** [rx/notifications 127-135 NotificationMirror::sync_owner] *)
Definition sync_owner : mirroring unit :=
  owner_ <-! generation;;
  update (fun m => if str_eqb (owner m) owner_ then m
                   else {| shown := ∅; resent := None; owner := owner_; cache_path := cache_path m |}).

(** [rx/notifications 137-168 NotificationMirror::persist]; [writes] is whether the file can be
    written. *)
Definition persist (writes : bool) : mirroring unit := fun w =>
  if negb (cache_path (mirror w)) then (w, Ok tt)
  else if writes
  then ({| mirror := mirror w; screen := screen w;
           cache := Some {| saved_owner := owner (mirror w); saved_shown := shown (mirror w) |} |}, Ok tt)
  else (w, Err "phone notification cache"%string).

(** Closing the desktop's copies of some ids, in any order.
    [rx/notifications 209-213 NotificationMirror::apply] *)
Fixpoint close_gone (ids : list Z) : mirroring unit :=
  match ids with
  | [] => st_ret tt
  | id :: ids =>
      m <-! st_get;;
      match shown (mirror m) !! id with
      | Some s => do! update (fun m => set_shown (delete id (shown m)) m);;
                  do! close (desktop_id s);; close_gone ids
      | None => close_gone ids
      end
  end.

(** [rx/notifications 178-192 NotificationMirror::apply] *)
Definition posted (n : PhoneNotification) (phone_name : string) : mirroring bool :=
  do! update (fun m => set_resent ((fun r => {[pn_id n]} ∪ r) <$> resent m) m);;
  let notification := desktop_notification n phone_name in
  w <-! st_get;;
  match shown (mirror w) !! pn_id n with
  | Some existing =>
      if shown_digest existing =? digest notification then st_ret true
      else id <-! show notification (desktop_id existing);;
           do! update (fun m => set_shown
                 (<[pn_id n := {| desktop_id := id; shown_digest := digest notification |}]> (shown m)) m);;
           st_ret false
  | None =>
      id <-! show notification 0;;
      do! update (fun m => set_shown
            (<[pn_id n := {| desktop_id := id; shown_digest := digest notification |}]> (shown m)) m);;
      st_ret false
  end.

(** What an event changes; [true] ends the event before the cache is written.
    [rx/notifications 177-215 NotificationMirror::apply] *)
Definition apply_event (event : NotificationEvent) (phone_name : string) : mirroring bool :=
  match event with
  | Event_Posted n => posted n phone_name
  | Event_Removed id =>
      w <-! st_get;;
      match shown (mirror w) !! id with
      | Some s => do! update (fun m => set_shown (delete id (shown m)) m);;
                  do! close (desktop_id s);; st_ret false
      | None => st_ret false
      end
  | Event_SnapshotStart => do! update (set_resent (Some ∅));; st_ret false
  | Event_SnapshotEnd =>
      w <-! st_get;;
      match resent (mirror w) with
      | None => st_ret true
      | Some resent_ =>
          do! update (set_resent None);;
          do! close_gone (List.filter (fun id => negb (bool_decide (id ∈ resent_)))
                            (map_to_list (shown (mirror w))).*1);;
          st_ret false
      end
  end.

(** [rx/notifications 170-218 NotificationMirror::apply] *)
Definition mirror_apply (event : NotificationEvent) (phone_name : string) (writes : bool) :
  mirroring unit :=
  do! sync_owner;;
  stop <-! apply_event event phone_name;;
  if (stop : bool) then st_ret tt else persist writes.

(** Closing everything, whether the desktop can or not. *)
Fixpoint close_each (ids : list Z) (w : World D) : World D :=
  match ids with
  | [] => w
  | id :: ids => close_each ids (close id w).1
  end.

(** [rx/notifications 220-233 NotificationMirror::close_all]; whether the cache was written. *)
Definition close_all (writes : bool) (w : World D) : World D :=
  match sync_owner w with
  | (w, Err _) => w
  | (w, Ok _) =>
      let ids := desktop_id <$> (map_to_list (shown (mirror w))).*2 in
      let w := close_each ids (with_mirror (set_shown ∅ (mirror w)) w) in
      (persist writes (with_mirror (set_resent None (mirror w)) w)).1
  end.
End Mirror.

(** ** What the mirror is for *)

(** The notifications a phone has, by its ids, and those resent since a snapshot started. *)
Record PhoneView := { current : gmap Z DesktopNotification; view_resent : option (gset Z) }.

Definition view_step (phone_name : string) (v : PhoneView) (event : NotificationEvent) : PhoneView :=
  match event with
  | Event_Posted n =>
      {| current := <[pn_id n := desktop_notification n phone_name]> (current v);
         view_resent := (fun r => {[pn_id n]} ∪ r) <$> view_resent v |}
  | Event_Removed id => {| current := delete id (current v); view_resent := view_resent v |}
  | Event_SnapshotStart => {| current := current v; view_resent := Some ∅ |}
  | Event_SnapshotEnd =>
      match view_resent v with
      | Some r => {| current := filter (fun p => p.1 ∈ r) (current v); view_resent := None |}
      | None => v
      end
  end.

(** The desktop notification specification: a new notification gets a new id, a replacement keeps
    its id, a closed one is gone; the daemon is the same after a call. *)
Class DesktopLaws D `{Desktop D} := {
  displayed : D -> gmap Z DesktopNotification;
  show_displays n replaces g d d' id : desktop_show n replaces g d = (d', Ok id) ->
    displayed d' = <[id := n]> (displayed d)
    /\ (replaces <> 0 -> id = replaces)
    /\ (replaces = 0 -> displayed d !! id = None /\ id <> 0);
  close_closes id g d d' : desktop_close id g d = (d', Ok tt) -> displayed d' = delete id (displayed d);
  show_same_daemon n replaces g d : desktop_generation (desktop_show n replaces g d).1 = desktop_generation d;
  close_same_daemon id g d : desktop_generation (desktop_close id g d).1 = desktop_generation d;
}.

Section Refinement.
Context {D : Type} `{DesktopLaws D} (digest : DesktopNotification -> Z).
(** The notifications among which no two have the same digest. *)
Context (known : DesktopNotification -> Prop)
        (digest_inj : forall a b, known a -> known b -> digest a = digest b -> a = b).
(** What others show on the desktop. *)
Context (others : gmap Z DesktopNotification).

(** The mirror [m] shows [v] on [d]: an entry for each notification, under an id of its own that
    is displayed with it; everything else displayed is the others'. *)
Record mirrors_map (s : gmap Z Shown) (v : gmap Z DesktopNotification) (d : D) : Prop := {
  mm_shown : forall id e, s !! id = Some e ->
    exists n, v !! id = Some n /\ known n /\ shown_digest e = digest n
              /\ displayed d !! desktop_id e = Some n /\ others !! desktop_id e = None
              /\ desktop_id e <> 0;
  mm_all : forall id n, v !! id = Some n -> is_Some (s !! id);
  mm_inj : forall id id' e e', s !! id = Some e -> s !! id' = Some e' ->
    desktop_id e = desktop_id e' -> id = id';
  mm_displayed : forall k n, displayed d !! k = Some n ->
    others !! k = Some n \/ exists id e, s !! id = Some e /\ desktop_id e = k;
  mm_others : forall k n, others !! k = Some n -> displayed d !! k = Some n;
}.

Lemma mirrors_new s v d d' id n k : mirrors_map s v d -> known n -> s !! id = None ->
  displayed d !! k = None -> k <> 0 -> displayed d' = <[k := n]> (displayed d) ->
  mirrors_map (<[id := {| desktop_id := k; shown_digest := digest n |}]> s) (<[id := n]> v) d'.
Proof.
  intros [Hs Ha Hi Hd Ho] Hn Hid Hk Hk0 Hd'.
  assert (others !! k = None) as Hok.
  { destruct (others !! k) as [x|] eqn:E; [|done]. by rewrite (Ho _ _ E) in Hk. }
  assert (forall id' e, s !! id' = Some e -> desktop_id e <> k) as Hne.
  { intros id' e He Heq. destruct (Hs _ _ He) as (x & _ & _ & _ & Hx & _). congruence. }
  split.
  - intros id' e. rewrite !lookup_insert_Some. intros [[<- <-]|[Hne' He]].
    + exists n. cbn [desktop_id shown_digest]. rewrite Hd', !lookup_insert_eq. by split_and!.
    + destruct (Hs _ _ He) as (x & ? & ? & ? & ? & ? & ?). exists x.
      rewrite Hd', (lookup_insert_ne v), (lookup_insert_ne (displayed d))
        by (done || (apply not_eq_sym; by eapply Hne)). by split_and!.
  - intros id' x [[<- <-]|[Hne' Hx]]%lookup_insert_Some; [rewrite lookup_insert_eq|
      rewrite lookup_insert_ne by done]; eauto.
  - intros id1 id2 e1 e2 [[<- <-]|[? Hl1]]%lookup_insert_Some [[<- <-]|[? Hl2]]%lookup_insert_Some;
      simpl; intros Heq; [done|by destruct (Hne _ _ Hl2)|by destruct (Hne _ _ Hl1)|by eapply Hi].
  - intros j x. rewrite Hd'. intros [[<- <-]|[? Hx]]%lookup_insert_Some.
    + right. exists id, {| desktop_id := k; shown_digest := digest n |}. by rewrite lookup_insert_eq.
    + destruct (Hd _ _ Hx) as [|(id' & e & He & <-)]; [by left|right]. exists id', e.
      rewrite lookup_insert_ne by congruence. done.
  - intros j x Hx. rewrite Hd', lookup_insert_ne by congruence. auto.
Qed.

Lemma mirrors_close s v d d' id e : mirrors_map s v d -> s !! id = Some e ->
  displayed d' = delete (desktop_id e) (displayed d) ->
  mirrors_map (delete id s) (delete id v) d'.
Proof.
  intros [Hs Ha Hi Hd Ho] Hid Hd'.
  destruct (Hs _ _ Hid) as (n0 & _ & _ & _ & _ & Hoe & _).
  assert (forall id' e', s !! id' = Some e' -> id <> id' -> desktop_id e' <> desktop_id e) as Hne.
  { intros id' e' He' Hn Heq. by apply Hn, (Hi _ _ _ _ Hid He'). }
  split.
  - intros id' e' [Hn He']%lookup_delete_Some.
    destruct (Hs _ _ He') as (x & ? & ? & ? & ? & ? & ?). exists x.
    rewrite lookup_delete_ne, Hd', lookup_delete_ne by (by try apply not_eq_sym, (Hne id')). by split_and!.
  - intros id' x [Hn Hx]%lookup_delete_Some. rewrite lookup_delete_ne by done. eauto.
  - intros id1 id2 e1 e2 [? Hl1]%lookup_delete_Some [? Hl2]%lookup_delete_Some. by apply Hi.
  - intros j x. rewrite Hd'. intros [Hj Hx]%lookup_delete_Some.
    destruct (Hd _ _ Hx) as [|(id' & e' & He' & <-)]; [by left|right]. exists id', e'.
    rewrite lookup_delete_ne; [done|]. intros ->. congruence.
  - intros j x Hx. rewrite Hd', lookup_delete_ne by congruence. auto.
Qed.

Lemma mirrors_replace s v d d' id e n : mirrors_map s v d -> known n -> s !! id = Some e ->
  displayed d' = <[desktop_id e := n]> (displayed d) ->
  mirrors_map (<[id := {| desktop_id := desktop_id e; shown_digest := digest n |}]> s)
    (<[id := n]> v) d'.
Proof.
  intros [Hs Ha Hi Hd Ho] Hn Hid Hd'.
  destruct (Hs _ _ Hid) as (n0 & _ & _ & _ & _ & Hoe & He0).
  assert (forall id' e', s !! id' = Some e' -> id <> id' -> desktop_id e' <> desktop_id e) as Hne.
  { intros id' e' He' Hnn Heq. by apply Hnn, (Hi _ _ _ _ Hid He'). }
  split.
  - intros id' e'. rewrite !lookup_insert_Some. intros [[<- <-]|[Hn' He']].
    + exists n. cbn [desktop_id shown_digest]. rewrite Hd', !lookup_insert_eq. by split_and!.
    + destruct (Hs _ _ He') as (x & ? & ? & ? & ? & ? & ?). exists x.
      rewrite Hd', (lookup_insert_ne v), (lookup_insert_ne (displayed d))
        by (done || (by apply not_eq_sym, (Hne id'))). by split_and!.
  - intros id' x [[<- <-]|[Hn' Hx]]%lookup_insert_Some; [rewrite lookup_insert_eq|
      rewrite lookup_insert_ne by done]; eauto.
  - intros id1 id2 e1 e2 [[<- <-]|[? Hl1]]%lookup_insert_Some [[<- <-]|[? Hl2]]%lookup_insert_Some;
      simpl; intros Heq; [done|by destruct (Hne _ _ Hl2)|by destruct (Hne _ _ Hl1)|by eapply Hi].
  - intros j x. rewrite Hd'. intros [[<- <-]|[? Hx]]%lookup_insert_Some.
    + right. exists id, {| desktop_id := desktop_id e; shown_digest := digest n |}.
      by rewrite lookup_insert_eq.
    + destruct (Hd _ _ Hx) as [|(id' & e' & He' & <-)]; [by left|right]. exists id', e'.
      rewrite lookup_insert_ne by congruence. done.
  - intros j x Hx. rewrite Hd', lookup_insert_ne by congruence. auto.
Qed.

(** The mirror shows the phone's notifications. *)
Record mirrors (w : World D) (v : PhoneView) : Prop := {
  m_map : mirrors_map (shown (mirror w)) (current v) (screen w);
  m_resent : resent (mirror w) = view_resent v;
  m_owner : desktop_generation (screen w) = Ok (owner (mirror w));
}.

Lemma mirrors_absent s v d id : mirrors_map s v d -> s !! id = None -> v !! id = None.
Proof.
  intros Hm Hid. destruct (v !! id) as [n|] eqn:E; [|done].
  destruct (mm_all _ _ _ Hm _ _ E) as [e He]. congruence.
Qed.

Lemma sync_owner_same w v : mirrors w v -> sync_owner w = (w, Ok tt).
Proof.
  intros Hw. unfold sync_owner, st_bind, generation, update.
  rewrite (m_owner _ _ Hw), str_eqb_refl. by destruct w as [[] ? ?].
Qed.

Lemma close_refines w v w' id e r : mirrors_map (shown (mirror w)) v (screen w) ->
  shown (mirror w) !! id = Some e ->
  close (desktop_id e) (with_mirror (set_shown (delete id (shown (mirror w))) (mirror w)) w) = (w', r) ->
  r = Ok tt ->
  mirrors_map (shown (mirror w')) (delete id v) (screen w')
  /\ shown (mirror w') = delete id (shown (mirror w)) /\ resent (mirror w') = resent (mirror w)
  /\ owner (mirror w') = owner (mirror w)
  /\ desktop_generation (screen w') = desktop_generation (screen w).
Proof.
  intros Hm Hid Hc ->. unfold close in Hc. cbn [mirror screen with_mirror set_shown owner] in Hc.
  destruct (desktop_close _ _ (screen w)) as [d' [[]|]] eqn:Hd; [|done].
  injection Hc as <-. cbn [mirror screen shown resent owner]. split_and!; try done.
  - eapply mirrors_close; [done|done|]. by eapply close_closes.
  - pose proof (close_same_daemon (desktop_id e) (owner (mirror w)) (screen w)) as Hg.
    by rewrite Hd in Hg.
Qed.

Lemma foldr_delete_lookup (v : gmap Z DesktopNotification) ids k :
  foldr delete v ids !! k = if bool_decide (k ∈ ids) then None else v !! k.
Proof.
  induction ids as [|id ids IH]; [done|]. cbn [foldr].
  destruct (decide (id = k)) as [->|Hne].
  - rewrite lookup_delete_eq, bool_decide_eq_true_2 by (by left). done.
  - rewrite lookup_delete_ne, IH by done. case_bool_decide as Hin.
    + by rewrite bool_decide_eq_true_2 by (by right).
    + rewrite bool_decide_eq_false_2; [done|]. by intros [?|?]%elem_of_cons.
Qed.

Lemma foldr_delete_delete (v : gmap Z DesktopNotification) ids id :
  foldr delete (delete id v) ids = delete id (foldr delete v ids).
Proof.
  apply map_eq. intros k. rewrite foldr_delete_lookup.
  destruct (decide (id = k)) as [->|Hne].
  - rewrite !lookup_delete_eq. by case_bool_decide.
  - rewrite !lookup_delete_ne by done. by rewrite foldr_delete_lookup.
Qed.

Lemma close_gone_refines ids : forall w v w', mirrors_map (shown (mirror w)) v (screen w) ->
  close_gone ids w = (w', Ok tt) ->
  mirrors_map (shown (mirror w')) (foldr delete v ids) (screen w')
  /\ resent (mirror w') = resent (mirror w) /\ owner (mirror w') = owner (mirror w)
  /\ desktop_generation (screen w') = desktop_generation (screen w).
Proof.
  induction ids as [|id ids IH]; intros w v w' Hm Hc; [by injection Hc as <-|].
  cbn [close_gone foldr] in *. unfold st_bind at 1, st_get in Hc.
  rewrite <- foldr_delete_delete.
  destruct (shown (mirror w) !! id) as [e|] eqn:Hid.
  - unfold st_bind at 1, update in Hc. unfold st_bind in Hc.
    destruct (close _ _) as [w1 [[]|]] eqn:Hclose in Hc; [|done].
    destruct (close_refines _ _ _ _ _ _ Hm Hid Hclose eq_refl) as (Hm1 & _ & Hr & Ho & Hg).
    destruct (IH _ _ _ Hm1 Hc) as (Hm2 & Hr2 & Ho2 & Hg2). split_and!; congruence.
  - rewrite delete_id by (by eapply mirrors_absent). by apply IH.
Qed.

(** Closing what was not resent leaves what was. *)
Lemma close_unsent s v d (r : gset Z) : mirrors_map s v d ->
  foldr delete v (List.filter (fun id => negb (bool_decide (id ∈ r))) (map_to_list s).*1)
  = filter (fun p => p.1 ∈ r) v.
Proof.
  intros Hm. apply map_eq. intros k. rewrite foldr_delete_lookup.
  case_bool_decide as Hin.
  - symmetry. apply map_lookup_filter_None. right. intros n _ Hr. simpl in Hr.
    apply list_elem_of_In, filter_In in Hin as [_ Hf].
    rewrite bool_decide_eq_true_2 in Hf by done. done.
  - destruct (v !! k) as [n|] eqn:Hk; [|symmetry; by apply map_lookup_filter_None; left].
    symmetry. apply map_lookup_filter_Some. split; [done|]. simpl.
    destruct (decide (k ∈ r)) as [|Hr]; [done|]. destruct Hin.
    apply list_elem_of_In, filter_In. split; [|by rewrite bool_decide_eq_false_2].
    apply list_elem_of_In, list_elem_of_fmap. destruct (mm_all _ _ _ Hm _ _ Hk) as [e He].
    exists (k, e). split; [done|]. by apply elem_of_map_to_list.
Qed.

Lemma persist_same (w : World D) writes w' x : persist writes w = (w', x) ->
  mirror w' = mirror w /\ screen w' = screen w.
Proof. unfold persist. destruct (negb _), writes; by intros [= <- <-]. Qed.

Lemma posted_refines w v n phone_name w' stop : mirrors w v ->
  known (desktop_notification n phone_name) -> posted digest n phone_name w = (w', Ok stop) ->
  mirrors w' (view_step phone_name v (Event_Posted n)).
Proof.
  intros [Hm Hr Ho] Hk. unfold posted, st_bind at 1, update, st_bind at 1, st_get.
  set (dn := desktop_notification n phone_name) in *.
  cbn [mirror with_mirror set_resent shown].
  destruct (shown (mirror w) !! pn_id n) as [e|] eqn:Hid.
  - destruct (mm_shown _ _ _ Hm _ _ Hid) as (n0 & Hv & Hk0 & Hdig & Hdisp & _ & He0).
    destruct (Z.eqb_spec (shown_digest e) (digest dn)) as [Heq|Hneq].
    + intros [= <- _]. split; [|cbn; by rewrite Hr|done]. cbn [current view_step].
      assert (n0 = dn) as -> by (apply digest_inj; [done|done|congruence]).
      by rewrite insert_id.
    + unfold st_bind, show. cbn [mirror screen owner with_mirror set_resent].
      destruct (desktop_show _ _ _ _) as [d' [k|]] eqn:Hs; [|done]. intros [= <- _].
      destruct (show_displays _ _ _ _ _ _ Hs) as (Hd & Hrep & _). rewrite (Hrep He0) in *.
      split; cbn [mirror screen shown resent owner with_mirror set_shown set_resent current view_step].
      * by eapply mirrors_replace.
      * cbn. by rewrite Hr.
      * pose proof (show_same_daemon dn (desktop_id e) (owner (mirror w)) (screen w)) as Hg.
        rewrite Hs in Hg. cbn [fst] in Hg. congruence.
  - unfold st_bind, show. cbn [mirror screen owner with_mirror set_resent].
    destruct (desktop_show _ _ _ _) as [d' [k|]] eqn:Hs; [|done]. intros [= <- _].
    destruct (show_displays _ _ _ _ _ _ Hs) as (Hd & _ & Hnew). destruct (Hnew eq_refl).
    split; cbn [mirror screen shown resent owner with_mirror set_shown set_resent current view_step].
    + by eapply mirrors_new.
    + cbn. by rewrite Hr.
    + pose proof (show_same_daemon dn 0 (owner (mirror w)) (screen w)) as Hg.
      rewrite Hs in Hg. cbn [fst] in Hg. congruence.
Qed.

Lemma removed_refines w v id phone_name w' stop : mirrors w v ->
  apply_event digest (Event_Removed id) phone_name w = (w', Ok stop) ->
  mirrors w' (view_step phone_name v (Event_Removed id)).
Proof.
  intros [Hm Hr Ho] E. cbn [apply_event] in E. unfold st_bind at 1, st_get in E.
  destruct (shown (mirror w) !! id) as [e|] eqn:Hid.
  - unfold st_bind at 1, update in E. unfold st_bind in E.
    destruct (close _ _) as [w2 [[]|]] eqn:Hc in E; [|done]. injection E as <- _.
    destruct (close_refines _ _ _ _ _ _ Hm Hid Hc eq_refl) as (Hm1 & _ & Hr1 & Ho1 & Hg).
    split; cbn [view_step current view_resent]; congruence.
  - injection E as <- _. split; cbn [view_step current view_resent]; [|done|done].
    by rewrite delete_id by (by eapply mirrors_absent).
Qed.

Lemma snapshot_end_refines w v phone_name w' stop : mirrors w v ->
  apply_event digest Event_SnapshotEnd phone_name w = (w', Ok stop) ->
  mirrors w' (view_step phone_name v Event_SnapshotEnd).
Proof.
  intros [Hm Hr Ho] E. cbn [apply_event] in E. unfold st_bind at 1, st_get in E.
  cbn [view_step]. rewrite <- Hr.
  destruct (resent (mirror w)) as [r|] eqn:Er; [|injection E as <- _; split; congruence].
  unfold st_bind at 1, update in E. unfold st_bind in E.
  destruct (close_gone _ _) as [w2 [[]|]] eqn:Hc in E; [|done]. injection E as <- _.
  destruct (close_gone_refines _ (with_mirror (set_resent None (mirror w)) w) (current v) w2 Hm Hc)
    as (Hm2 & Hr2 & Ho2 & Hg).
  rewrite (close_unsent _ _ _ r Hm) in Hm2.
  split; [exact Hm2|exact Hr2|]. rewrite Hg, Ho2. exact Ho.
Qed.

Lemma apply_event_refines w v event phone_name w' stop : mirrors w v ->
  (forall n, event = Event_Posted n -> known (desktop_notification n phone_name)) ->
  apply_event digest event phone_name w = (w', Ok stop) ->
  mirrors w' (view_step phone_name v event).
Proof.
  intros Hw Hk E. destruct event; cbn [apply_event] in E.
  - by eapply posted_refines; [done|apply Hk|].
  - by eapply removed_refines.
  - injection E as <- _. destruct Hw as [Hm Hr Ho]. by split.
  - by eapply snapshot_end_refines.
Qed.

Lemma apply_refines w v event phone_name writes w' : mirrors w v ->
  (forall n, event = Event_Posted n -> known (desktop_notification n phone_name)) ->
  mirror_apply digest event phone_name writes w = (w', Ok tt) ->
  mirrors w' (view_step phone_name v event).
Proof.
  intros Hw Hk. unfold mirror_apply. unfold st_bind at 1. rewrite (sync_owner_same _ _ Hw).
  unfold st_bind. destruct (apply_event _ _ _ _) as [w1 [stop|]] eqn:E; [|done]. intros Hp.
  destruct (apply_event_refines _ _ _ _ _ _ Hw Hk E) as [Hm Hr Ho].
  destruct stop; [injection Hp as <-; by split|].
  apply persist_same in Hp as [Hpm Hps]. split; rewrite ?Hpm, ?Hps; done.
Qed.

(** The cache file, once it is kept, is the mirror's. *)
Definition cached (w : World D) : Prop :=
  cache_path (mirror w) = true
  /\ cache w = Some {| saved_owner := owner (mirror w); saved_shown := shown (mirror w) |}.

Lemma apply_event_keeps_path event phone_name w w' r :
  apply_event digest event phone_name w = (w', r) ->
  cache_path (mirror w') = cache_path (mirror w).
Proof.
  assert (forall ids w1, cache_path (mirror (close_gone ids w1).1) = cache_path (mirror w1)) as Hg.
  { induction ids as [|id ids IH]; intros w1; [done|]. cbn [close_gone].
    unfold st_bind at 1, st_get. destruct (shown (mirror w1) !! id); [|apply IH].
    unfold st_bind at 1, update. unfold st_bind, close. cbn.
    destruct (desktop_close _ _ _) as [d [|]]; [|done]. cbn [snd]. by rewrite IH. }
  destruct event; cbn [apply_event]; unfold posted, st_bind at 1, update, st_get, st_ret.
  - unfold st_bind at 1. cbn [mirror with_mirror set_resent shown]. unfold st_bind, show, update.
    destruct (shown (mirror w) !! _); [destruct (_ =? _)|];
      cbn [mirror screen owner with_mirror set_resent fst snd];
      try destruct (desktop_show _ _ _ _) as [? [|]]; by intros [= <- _].
  - destruct (shown (mirror w) !! id); [|by intros [= <- _]]. unfold st_bind, close.
    cbn. destruct (desktop_close _ _ _) as [? [|]]; by intros [= <- _].
  - by intros [= <- _].
  - destruct (resent (mirror w)) as [rs|]; [|by intros [= <- _]]. unfold st_bind.
    specialize (Hg (List.filter (fun id => negb (bool_decide (id ∈ rs))) (map_to_list (shown (mirror w))).*1)
                   (with_mirror (set_resent None (mirror w)) w)).
    destruct (close_gone _ _) as [w2 [|]]; by intros [= <- _].
Qed.

Lemma unchanged_event event phone_name w w' :
  apply_event digest event phone_name w = (w', Ok true) ->
  shown (mirror w') = shown (mirror w) /\ owner (mirror w') = owner (mirror w) /\ cache w' = cache w.
Proof.
  destruct event; cbn [apply_event]; unfold posted, st_bind at 1, update, st_get, st_ret.
  - unfold st_bind at 1. cbn [mirror with_mirror set_resent shown]. unfold st_bind, show, update.
    destruct (shown (mirror w) !! _); [destruct (_ =? _)|]; try (by intros [= <-]);
      cbn [mirror screen owner with_mirror set_resent fst snd];
      destruct (desktop_show _ _ _ _) as [? [|]]; by intros [=].
  - destruct (shown (mirror w) !! id); [|done]. unfold st_bind, close.
    cbn. destruct (desktop_close _ _ _) as [? [|]]; by intros [=].
  - done.
  - destruct (resent (mirror w)) as [rs|]; [|by intros [= <-]]. unfold st_bind.
    destruct (close_gone _ _) as [w2 [|]]; by intros [=].
Qed.

Lemma apply_caches w v event phone_name w' : mirrors w v -> cached w ->
  mirror_apply digest event phone_name true w = (w', Ok tt) -> cached w'.
Proof.
  intros Hw [Hp Hc]. unfold mirror_apply. unfold st_bind at 1. rewrite (sync_owner_same _ _ Hw).
  unfold st_bind. destruct (apply_event _ _ _ _) as [w1 [stop|]] eqn:E; [|done].
  pose proof (apply_event_keeps_path _ _ _ _ _ E) as Hp1. destruct stop.
  - intros [= <-]. apply unchanged_event in E as (Hs & Ho & Hc1). split; congruence.
  - unfold persist. rewrite Hp1, Hp. cbn. intros [= <-]. split; [by rewrite <- Hp, <- Hp1|done].
Qed.
End Refinement.

(** The events of a phone, in order, none failing. *)
Fixpoint apply_all {D} `{Desktop D} (digest : DesktopNotification -> Z) (phone_name : string)
    (events : list NotificationEvent) (w : World D) : option (World D) :=
  match events with
  | [] => Some w
  | e :: events =>
      match mirror_apply digest e phone_name true w with
      | (w, Ok _) => apply_all digest phone_name events w
      | (_, Err _) => None
      end
  end.
Definition view_run (phone_name : string) (events : list NotificationEvent) (v : PhoneView) : PhoneView :=
  fold_left (view_step phone_name) events v.

(** The desktop mirrors the phone: after any events that the desktop did not fail, it shows
    exactly the notifications the phone has, posted and not removed, or resent in its last
    snapshot, each once and with its current content, beside whatever others show, which stays
    untouched.  No two notifications involved have the same digest. *)
Theorem mirror_shows_the_phones_notifications {D} `{DesktopLaws D} (digest : DesktopNotification -> Z)
    (known : DesktopNotification -> Prop) (others : gmap Z DesktopNotification) (phone_name : string)
    (events : list NotificationEvent) (w w' : World D) (v : PhoneView) :
  (forall a b, known a -> known b -> digest a = digest b -> a = b) ->
  (forall n, Event_Posted n ∈ events -> known (desktop_notification n phone_name)) ->
  mirrors digest known others w v ->
  apply_all digest phone_name events w = Some w' ->
  mirrors digest known others w' (view_run phone_name events v).
Proof.
  intros Hinj. revert w v. induction events as [|e events IH]; intros w v Hk Hw Ha;
    [by injection Ha as <-|].
  cbn [apply_all] in Ha. destruct (mirror_apply digest e phone_name true w) as [w1 [[]|]] eqn:E; [|done].
  apply (IH w1); [intros n Hn; apply Hk; by right| |done].
  eapply apply_refines; [done|done| |done]. intros n ->. apply Hk. by left.
Qed.

Lemma view_run_posts phone_name posts : forall v r, view_resent v = Some r ->
  let v' := view_run phone_name (map Event_Posted posts) v in
  current v' = fold_left (fun m n => <[pn_id n := desktop_notification n phone_name]> m) posts (current v)
  /\ view_resent v' = Some (list_to_set (pn_id <$> posts) ∪ r).
Proof.
  induction posts as [|n posts IH]; intros v r Hr; cbn -[union].
  - split; [done|]. rewrite Hr. f_equal. set_solver.
  - destruct (IH (view_step phone_name v (Event_Posted n)) ({[pn_id n]} ∪ r)) as [Hc Hv].
    { cbn. by rewrite Hr. }
    split; [exact Hc|]. etransitivity; [exact Hv|]. f_equal. set_solver.
Qed.

Lemma posts_over phone_name posts (k : Z) : forall m m' : gmap Z DesktopNotification,
  k ∈ pn_id <$> posts \/ m !! k = m' !! k ->
  fold_left (fun m n => <[pn_id n := desktop_notification n phone_name]> m) posts m !! k
  = fold_left (fun m n => <[pn_id n := desktop_notification n phone_name]> m) posts m' !! k.
Proof.
  induction posts as [|n posts IH]; intros m m' Hk; cbn.
  - destruct Hk as [Hk|Hk]; [by apply not_elem_of_nil in Hk|done].
  - apply IH. destruct (decide (pn_id n = k)) as [<-|Hne]; [right; by rewrite !lookup_insert_eq|].
    destruct Hk as [[Hk|Hk]%elem_of_cons|Hk]; [congruence|by left|right].
    by rewrite !lookup_insert_ne.
Qed.

Lemma posts_keys phone_name posts (k : Z) : forall m : gmap Z DesktopNotification,
  k ∉ pn_id <$> posts ->
  fold_left (fun m n => <[pn_id n := desktop_notification n phone_name]> m) posts m !! k = m !! k.
Proof.
  induction posts as [|n posts IH]; intros m Hk; [done|]. cbn in *.
  apply not_elem_of_cons in Hk as [Hne Hk]. rewrite IH by done. by rewrite lookup_insert_ne.
Qed.

(** A reconnect reconciles: after a snapshot the phone has exactly the notifications it resent
    in it, with the content of their last posting, whatever it had before. *)
Theorem snapshot_is_what_was_resent (phone_name : string) (posts : list PhoneNotification)
    (v : PhoneView) :
  current (view_run phone_name
             (Event_SnapshotStart :: map Event_Posted posts ++ [Event_SnapshotEnd]) v)
  = fold_left (fun m n => <[pn_id n := desktop_notification n phone_name]> m) posts ∅.
Proof.
  unfold view_run. cbn [fold_left]. rewrite fold_left_app. cbn [fold_left].
  destruct (view_run_posts phone_name posts (view_step phone_name v Event_SnapshotStart) ∅ eq_refl)
    as [Hc Hr]. unfold view_run in Hc, Hr.
  set (v' := fold_left _ (map _ _) _) in *. unfold view_step at 1. rewrite Hr. cbn [current].
  rewrite Hc. clear v' Hc Hr. cbn [view_step current]. apply map_eq. intros k.
  destruct (decide (k ∈ pn_id <$> posts)) as [Hk|Hk].
  - rewrite (posts_over phone_name posts k ∅ (current v)) by (by left).
    destruct (fold_left _ posts (current v) !! k) as [n|] eqn:E.
    + apply map_lookup_filter_Some. split; [done|]. set_solver.
    + apply map_lookup_filter_None. by left.
  - rewrite posts_keys by done. rewrite lookup_empty. apply map_lookup_filter_None.
    right. intros n _. set_solver.
Qed.

(** A restarted backend takes up where it was: after an event the cache file is the mirror's,
    and a fresh mirror that restores it from the same notification daemon shows what the old one
    showed, only a snapshot under way is forgotten. *)
Theorem restart_keeps_the_mirror {D} `{DesktopLaws D} (digest : DesktopNotification -> Z)
    (known : DesktopNotification -> Prop) (others : gmap Z DesktopNotification) (phone_name : string)
    (event : NotificationEvent) (w w' : World D) (v : PhoneView) :
  (forall a b, known a -> known b -> digest a = digest b -> a = b) ->
  (forall n, event = Event_Posted n -> known (desktop_notification n phone_name)) ->
  mirrors digest known others w v -> cached w ->
  mirror_apply digest event phone_name true w = (w', Ok tt) ->
  cached w'
  /\ exists w'', restore (Ok (cache w'))
        {| mirror := NotificationMirror_default; screen := screen w'; cache := cache w' |} = (w'', Ok tt)
     /\ cached w''
     /\ mirrors digest known others w''
          {| current := current (view_step phone_name v event); view_resent := None |}.
Proof.
  intros Hinj Hk Hw Hc Ha. pose proof (apply_caches _ _ _ _ _ _ _ _ Hw Hc Ha) as Hc'. split; [done|].
  pose proof (apply_refines _ _ Hinj _ _ _ _ _ _ _ Hw Hk Ha) as [Hm Hr Ho]. destruct Hc' as [Hp' Hc'].
  eexists. unfold restore. cbn [mirror cache_path NotificationMirror_default]. split.
  { unfold st_bind, generation, st_lift, update. cbn [screen]. rewrite Ho, Hc'.
    cbn [saved_owner]. rewrite str_eqb_refl. reflexivity. }
  split; [done|]. by split.
Qed.

(** A mirror that knows no notification closes nothing and replaces nothing. *)
Lemma empty_mirror_disturbs_nothing {D} `{DesktopLaws D} (digest : DesktopNotification -> Z) event
    phone_name (w w' : World D) stop :
  shown (mirror w) = ∅ -> resent (mirror w) = None ->
  apply_event digest event phone_name w = (w', Ok stop) -> displayed (screen w) ⊆ displayed (screen w').
Proof.
  intros Hs Hr E. destruct event as [n|id| |]; cbn [apply_event] in E.
  - unfold posted, st_bind at 1, update, st_bind at 1, st_get in E.
    cbn [mirror with_mirror set_resent shown] in E. rewrite Hs, lookup_empty in E.
    unfold st_bind, show in E. cbn [mirror with_mirror set_resent owner screen] in E.
    destruct (desktop_show _ 0 _ _) as [d' [k|]] eqn:Hd; [|done]. injection E as <- _.
    destruct (show_displays _ _ _ _ _ _ Hd) as (Hdd & _ & Hnew). destruct (Hnew eq_refl) as [Hk _].
    cbn. rewrite Hdd. by apply insert_subseteq.
  - unfold st_bind, st_get in E. rewrite Hs, lookup_empty in E. by injection E as <- _.
  - by injection E as <- _.
  - unfold st_bind, st_get in E. rewrite Hr in E. by injection E as <- _.
Qed.

(** Numeric ids belong to one notification daemon: once another daemon runs, no event and no
    unpairing closes or replaces anything it displays. *)
Theorem stale_ids_are_never_used {D} `{DesktopLaws D} (digest : DesktopNotification -> Z)
    (phone_name : string) (event : NotificationEvent) (writes : bool) (w w' : World D) (g : string) :
  desktop_generation (screen w) = Ok g -> g <> owner (mirror w) ->
  mirror_apply digest event phone_name writes w = (w', Ok tt) ->
  displayed (screen w) ⊆ displayed (screen w')
  /\ screen (close_all writes w) = screen w.
Proof.
  intros Hg Hne. assert (str_eqb (owner (mirror w)) g = false) as Hf.
  { apply str_eqb_neq. congruence. }
  assert (sync_owner w = (with_mirror {| shown := ∅; resent := None; owner := g;
            cache_path := cache_path (mirror w) |} w, Ok tt)) as Hs.
  { unfold sync_owner, st_bind, generation, update. by rewrite Hg, Hf. }
  unfold mirror_apply, close_all. unfold st_bind at 1. rewrite Hs. intros Ha. split.
  - unfold st_bind in Ha. destruct (apply_event _ _ _ _) as [w1 [stop|]] eqn:E; [|done].
    assert (screen w' = screen w1) as ->.
    { destruct stop; [by injection Ha as <-|]. by apply persist_same in Ha as [_ ->]. }
    by eapply empty_mirror_disturbs_nothing in E.
  - cbn [mirror shown with_mirror]. rewrite map_to_list_empty. cbn [close_each fmap list_fmap].
    unfold persist. cbn. destruct (negb _), writes; reflexivity.
Qed.

(** ** What is shown is plain text *)

(** What one character becomes. *)
Definition escape_char (a : Ascii.ascii) : string :=
  if Ascii.eqb a ampersand then "&amp;" else if Ascii.eqb a less_than then "&lt;"
  else if Ascii.eqb a greater_than then "&gt;" else String a EmptyString.

Lemma escape_cons a s : escape_markup (String a s) = (escape_char a ++ escape_markup s)%string.
Proof.
  unfold escape_markup, escape_char. cbn [replace_char].
  destruct (Ascii.eqb_spec a ampersand) as [->|Ha]; [by rewrite !replace_char_app|].
  cbn [replace_char]. destruct (Ascii.eqb_spec a less_than) as [->|Hl]; [by rewrite replace_char_app|].
  cbn [replace_char]. by destruct (Ascii.eqb_spec a greater_than).
Qed.

Lemma escape_inert c s : c = less_than \/ c = greater_than -> str_contains c (escape_markup s) = false.
Proof.
  intros Hc. induction s as [|a s IH]; [done|]. rewrite escape_cons, str_contains_app, IH, orb_false_r.
  unfold escape_char. destruct (Ascii.eqb_spec a ampersand); [by destruct Hc as [-> | ->]|].
  destruct (Ascii.eqb_spec a less_than); [by destruct Hc as [-> | ->]|].
  destruct (Ascii.eqb_spec a greater_than); [by destruct Hc as [-> | ->]|].
  cbn [str_contains]. rewrite orb_false_r. apply Ascii.eqb_neq. destruct Hc; congruence.
Qed.

(** What an HTML reader makes of a text: a character, or one of the entities. *)
Definition unescape_step (s : string) : option (Ascii.ascii * string) :=
  match s with
  | EmptyString => None
  | String a r =>
      if Ascii.eqb a ampersand then
        match str_strip_prefix "amp;" r, str_strip_prefix "lt;" r, str_strip_prefix "gt;" r with
        | Some r, _, _ => Some (ampersand, r)
        | _, Some r, _ => Some (less_than, r)
        | _, _, Some r => Some (greater_than, r)
        | _, _, _ => None
        end
      else Some (a, r)
  end.
Fixpoint unescape (fuel : nat) (s : string) : string :=
  match fuel with
  | O => ""
  | S fuel => match unescape_step s with
              | Some (a, r) => String a (unescape fuel r)
              | None => ""
              end
  end.

Lemma unescape_step_char a s : unescape_step (escape_char a ++ s) = Some (a, s).
Proof.
  unfold escape_char. destruct (Ascii.eqb_spec a ampersand) as [->|Ha]; [reflexivity|].
  destruct (Ascii.eqb_spec a less_than) as [->|]; [reflexivity|].
  destruct (Ascii.eqb_spec a greater_than) as [->|]; [reflexivity|].
  rewrite str_app_cons. cbn [unescape_step]. by apply Ascii.eqb_neq in Ha as ->.
Qed.

Lemma unescape_escape s : unescape (String.length s) (escape_markup s) = s.
Proof.
  induction s as [|a s IH]; [done|]. cbn [String.length unescape].
  by rewrite escape_cons, unescape_step_char, IH.
Qed.

Lemma boundary_before_le bs cut : (boundary_before bs cut <= cut)%nat.
Proof. induction cut as [|c IH]; cbn; [done|]. destruct (_ !! _); repeat case_match; lia. Qed.
Lemma boundary_before_boundary bs cut : is_char_boundary bs (boundary_before bs cut) = true.
Proof.
  induction cut as [|c IH]; [done|]. cbn [boundary_before].
  destruct (is_char_boundary bs (S c)) eqn:E; done.
Qed.

(** What a phone sends is shown as plain text: no markup character of a title or a body reaches
    the desktop, which reads back exactly the text, cut to its limit; a body is cut on a character
    boundary and never exceeds 4096 bytes with its ellipsis. *)
Theorem phone_text_is_shown_plain (n : PhoneNotification) (phone_name : string) :
  let d := desktop_notification n phone_name in
  let body := truncate_bytes (pn_body n) MAX_BODY_BYTES in
  (forall c s, c = less_than \/ c = greater_than -> s = dn_summary d \/ s = dn_body d ->
     str_contains c s = false)
  /\ unescape (String.length body) (dn_body d) = body
  /\ str_len body <= MAX_BODY_BYTES
  /\ (exists cut, is_char_boundary (str_bytes (pn_body n)) cut = true
        /\ body = if str_len (pn_body n) <=? MAX_BODY_BYTES then pn_body n
                  else (bytes_str (take cut (str_bytes (pn_body n))) ++ ellipsis)%string)
  /\ (forall png, dn_icon_png d = Some png -> pn_icon_png n = Some png /\ len png <= MAX_ICON_BYTES).
Proof.
  cbn zeta. split_and!.
  - intros c s Hc [-> | ->]; by apply escape_inert.
  - apply unescape_escape.
  - unfold truncate_bytes. destruct (Z.leb_spec (str_len (pn_body n)) MAX_BODY_BYTES); [done|].
    unfold str_len, len. rewrite str_bytes_app, length_app.
    set (cut := boundary_before _ _).
    assert (cut <= 4093)%nat by (etransitivity; [apply boundary_before_le|]; vm_compute; lia).
    rewrite str_bytes_str by (apply Forall_take, str_bytes_is_bytes). rewrite length_take.
    change (length (str_bytes ellipsis)) with 3%nat. unfold MAX_BODY_BYTES. lia.
  - unfold truncate_bytes. eexists (boundary_before _ _). split; [|reflexivity].
    apply boundary_before_boundary.
  - intros png. cbn [dn_icon_png desktop_notification]. destruct (pn_icon_png n) as [x|]; [|done].
    cbn. destruct (Z.leb_spec (len x) MAX_ICON_BYTES); [|done]. by intros [= <-].
Qed.

(** ** A desktop *)

Module Sample.
(** A notification daemon that shows what it is asked to, under ids from one up. *)
Record daemon := { bubbles : gmap Z DesktopNotification; daemon_name : string }.

Definition fresh_id (m : gmap Z DesktopNotification) : Z :=
  1 + foldr Z.max 0 (map_to_list m).*1.

Lemma fresh_id_fresh m : m !! fresh_id m = None /\ 0 < fresh_id m.
Proof.
  assert (forall l k, k ∈ l -> k <= foldr Z.max 0 l) as Hmax.
  { induction l as [|x l IH]; intros k; [by intros ?%not_elem_of_nil|].
    intros [->|Hk]%elem_of_cons; cbn; [lia|]. specialize (IH _ Hk). lia. }
  assert (0 <= foldr Z.max 0 (map_to_list m).*1) as H0.
  { induction (map_to_list m).*1; cbn; lia. }
  unfold fresh_id. split; [|lia]. apply eq_None_not_Some. intros [n Hn].
  assert (fresh_id m ∈ (map_to_list m).*1) as Hk.
  { apply list_elem_of_fmap. exists (fresh_id m, n). split; [done|]. by apply elem_of_map_to_list. }
  apply Hmax in Hk. unfold fresh_id in Hk. lia.
Qed.

#[global] Instance daemon_desktop : Desktop daemon := {
  desktop_generation d := Ok (daemon_name d);
  desktop_show n replaces g d :=
    if str_eqb g (daemon_name d) then
      let id := if replaces =? 0 then fresh_id (bubbles d) else replaces in
      ({| bubbles := <[id := n]> (bubbles d); daemon_name := daemon_name d |}, Ok id)
    else (d, Err "notification daemon changed"%string);
  desktop_close id g d :=
    if str_eqb g (daemon_name d)
    then ({| bubbles := delete id (bubbles d); daemon_name := daemon_name d |}, Ok tt)
    else (d, Err "notification daemon changed"%string);
}.
#[global] Instance daemon_laws : DesktopLaws daemon.
Proof.
  refine {| displayed := bubbles |}; cbn.
  - intros n r g d d' id. destruct (str_eqb _ _); [|done]. intros [= <- <-]. cbn. split; [done|].
    destruct (Z.eqb_spec r 0); (split; intros; [congruence|]); [|done].
    destruct (fresh_id_fresh (bubbles d)). split; [done|lia].
  - intros id g d d'. destruct (str_eqb _ _); [|done]. by intros [= <-].
  - intros n r g d. by destruct (str_eqb _ _).
  - intros id g d. by destruct (str_eqb _ _).
Defined.

Definition note (id : Z) (body : string) : PhoneNotification :=
  {| pn_id := id; pn_app_name := "Chat"; pn_title := "Anna"; pn_body := body; pn_icon_png := None;
     pn_posted_ms := 0 |}.
Definition digest (n : DesktopNotification) : Z := str_len (dn_body n).
Definition known (n : DesktopNotification) : Prop :=
  n = desktop_notification (note 1 "a") "Pixel" \/ n = desktop_notification (note 2 "bc") "Pixel".
Lemma digest_inj a b : known a -> known b -> digest a = digest b -> a = b.
Proof. by intros [-> | ->] [-> | ->]. Qed.

Definition w0 : World daemon :=
  {| mirror := {| shown := ∅; resent := None; owner := ":1.9"; cache_path := true |};
     screen := {| bubbles := ∅; daemon_name := ":1.9" |};
     cache := Some {| saved_owner := ":1.9"; saved_shown := ∅ |} |}.
Definition v0 : PhoneView := {| current := ∅; view_resent := None |}.
Lemma w0_mirrors : mirrors digest known ∅ w0 v0.
Proof. split; [|done|done]. split; cbn; intros; by rewrite ?lookup_empty in *. Qed.
Definition events : list NotificationEvent :=
  [Event_SnapshotStart; Event_Posted (note 1 "a"); Event_SnapshotEnd; Event_Posted (note 2 "bc");
   Event_Posted (note 2 "bc"); Event_Removed 1].
Definition or_w0 (r : option (World daemon)) : World daemon := match r with Some w => w | None => w0 end.
End Sample.

Lemma mirror_shows_the_phones_notifications_witness :
  apply_all Sample.digest "Pixel" Sample.events Sample.w0
    = Some (Sample.or_w0 (apply_all Sample.digest "Pixel" Sample.events Sample.w0))
  /\ mirrors Sample.digest Sample.known ∅
      (Sample.or_w0 (apply_all Sample.digest "Pixel" Sample.events Sample.w0))
      (view_run "Pixel" Sample.events Sample.v0).
Proof.
  assert (apply_all Sample.digest "Pixel" Sample.events Sample.w0
    = Some (Sample.or_w0 (apply_all Sample.digest "Pixel" Sample.events Sample.w0))) as Ha
    by (vm_compute; reflexivity).
  split; [exact Ha|].
  refine (mirror_shows_the_phones_notifications Sample.digest Sample.known ∅ "Pixel" Sample.events
            Sample.w0 _ Sample.v0 Sample.digest_inj _ Sample.w0_mirrors Ha).
  intros n Hn. unfold Sample.known. unfold Sample.events in Hn.
  apply list_elem_of_In in Hn.
  destruct Hn as [Hn|[Hn|[Hn|[Hn|[Hn|[Hn|[]]]]]]]; try discriminate Hn.
  - left. apply (f_equal (fun e => match e with Event_Posted n => n | _ => n end)) in Hn. by rewrite <- Hn.
  - right. apply (f_equal (fun e => match e with Event_Posted n => n | _ => n end)) in Hn. by rewrite <- Hn.
  - right. apply (f_equal (fun e => match e with Event_Posted n => n | _ => n end)) in Hn. by rewrite <- Hn.
Defined.

Lemma restart_keeps_the_mirror_witness :
  let w' := (mirror_apply Sample.digest (Event_Posted (Sample.note 1 "a")) "Pixel" true Sample.w0).1 in
  cached w'
  /\ exists w'', restore (Ok (cache w'))
        {| mirror := NotificationMirror_default; screen := screen w'; cache := cache w' |} = (w'', Ok tt)
     /\ cached w''
     /\ mirrors Sample.digest Sample.known ∅ w''
          {| current := current (view_step "Pixel" Sample.v0 (Event_Posted (Sample.note 1 "a")));
             view_resent := None |}.
Proof.
  cbn zeta.
  refine (restart_keeps_the_mirror Sample.digest Sample.known ∅ "Pixel" (Event_Posted (Sample.note 1 "a"))
            Sample.w0 _ Sample.v0 Sample.digest_inj _ Sample.w0_mirrors (conj eq_refl eq_refl) _).
  - intros n Hn. injection Hn as <-. by left.
  - vm_compute; reflexivity.
Defined.

(** The daemon has restarted, and shows another's notification under the mirror's id. *)
Definition restarted : World Sample.daemon :=
  {| mirror := {| shown := {[1 := {| desktop_id := 1; shown_digest := 1 |}]}; resent := None;
                  owner := ":1.9"; cache_path := true |};
     screen := {| Sample.bubbles := {[1 := desktop_notification (Sample.note 7 "other") "Tablet"]};
                  Sample.daemon_name := ":1.20" |};
     cache := None |}.
Lemma stale_ids_are_never_used_witness :
  let w' := (mirror_apply Sample.digest (Event_Removed 1) "Pixel" true restarted).1 in
  displayed (screen restarted) ⊆ displayed (screen w')
  /\ screen (close_all true restarted) = screen restarted.
Proof.
  cbn zeta.
  refine (stale_ids_are_never_used Sample.digest "Pixel" (Event_Removed 1) true restarted _ ":1.20"
            eq_refl _ _); [done|]. vm_compute; reflexivity.
Defined.
