(* ===== verification/PhoneProjection.v ===== *)
(** * What the desktop shows of the phones' history: [phone_projection.rs]

    The cache that maps a phone notification's lifetime, its instance, to the desktop's id for it,
    so that it is shown once, updated in place, and never again once dismissed.  The session's
    notification daemon and the hub's files are the class [Shell]; the digest of a content is a
    parameter. *)
From stdpp Require Import sorting.
From S2P Require Export NotificationStore Text.

(** [rx/phone_projection 20-25 Entry] *)
Record Entry := { entry_id : Z; entry_digest : string; entry_dismissed : bool }.
#[export] Instance Entry_eq_dec : EqDecision Entry.
Proof. solve_decision. Defined.

(** [rx/phone_projection 13-19 PhoneProjections] *)
Record PhoneProjections := {
  proj_owner : string;
  proj_entries : gmap string Entry;
  loaded : bool;
}.
Definition PhoneProjections_default : PhoneProjections :=
  {| proj_owner := ""; proj_entries := ∅; loaded := false |}.

(** The notification daemon, reached by [FreedesktopNotifications], and two files: the cache, of
    which reading gives the content if there is one and an error if it is too large or unreadable,
    and the hub's history. *)
Class Shell (D : Type) := {
  shell_generation : D -> result string string;
  shell_show : NotificationKey -> SharedNotification -> Z -> bool -> D -> D * result Z string;
  shell_close : Z -> string -> D -> D * result unit string;
  cache_read : D -> result (option PhoneProjections) string;
  cache_write : PhoneProjections -> D -> D * result unit string;
  store_write : Store -> D -> D * result unit string;
}.

(** The cache and the machine it is on. *)
Record Projected (D : Type) := { proj : PhoneProjections; desk : D }.
Arguments proj {D} _.
Arguments desk {D} _.

(** The keys of a [BTreeMap], in order. *)
Definition str_le (a b : string) : Prop := String.leb a b = true.
#[export] Instance str_le_dec : RelDecision str_le.
Proof. intros a b. apply bool_eq_dec. Defined.
Definition keys_in_order {A} (m : gmap string A) : list string := merge_sort str_le (map_to_list m).*1.

Section Projections.
Context {D : Type} `{Shell D} (digest : SharedNotification -> string).

Abbreviation projecting := (stateful (Projected D) string).
Definition set_proj (f : PhoneProjections -> PhoneProjections) : projecting unit := fun w =>
  ({| proj := f (proj w); desk := desk w |}, Ok tt).
Definition with_entries (f : gmap string Entry -> gmap string Entry) (p : PhoneProjections) :
  PhoneProjections :=
  {| proj_owner := proj_owner p; proj_entries := f (proj_entries p); loaded := loaded p |}.
Definition on_desk {A} (f : D -> D * result A string) : projecting A := fun w =>
  let r := f (desk w) in ({| proj := proj w; desk := r.1 |}, r.2).

(** [rx/phone_projection 27-48 PhoneProjections::load] *)
Definition proj_load : projecting unit :=
  w <-! st_get;;
  owner <-! st_lift (shell_generation (desk w));;
  do! (if loaded (proj w) then st_ret tt
       else file <-! st_lift (cache_read (desk w));;
            set_proj (fun p =>
              let p := match file with
                       | Some saved => if str_eqb (proj_owner saved) owner then saved else p
                       | None => p
                       end in
              {| proj_owner := proj_owner p; proj_entries := proj_entries p; loaded := true |}));;
  set_proj (fun p => if str_eqb (proj_owner p) owner then p
                     else {| proj_owner := owner; proj_entries := ∅; loaded := loaded p |}).

(** [rx/phone_projection 49-54 PhoneProjections::instance] *)
Definition proj_instance (prefix : string) (self : PhoneProjections) : option string :=
  List.find (starts_with prefix) (keys_in_order (proj_entries self)).

(** [rx/phone_projection 55-59 PhoneProjections::dismissed] *)
Definition proj_dismissed (instance : string) (self : PhoneProjections) : bool :=
  is_some_and entry_dismissed (proj_entries self !! instance).

(** [rx/phone_projection 60-83 PhoneProjections::save]; the file never has [loaded]. *)
Definition proj_save : projecting unit :=
  w <-! st_get;;
  on_desk (cache_write {| proj_owner := proj_owner (proj w); proj_entries := proj_entries (proj w);
                          loaded := false |}).

Definition is_known (key : string) (self : PhoneProjections) : bool :=
  bool_decide (is_Some (proj_entries self !! key)).
(** Room for one more entry. *)
Definition has_room (key : string) (self : PhoneProjections) : bool :=
  is_known key self || (Z.of_nat (size (proj_entries self)) <? 4096).

(** [rx/phone_projection 84-125 PhoneProjections::show] *)
Definition proj_show (key : NotificationKey) (content : option SharedNotification) (fresh : bool) :
  projecting unit :=
  do! proj_load;;
  w <-! st_get;;
  match content with
  | None =>
      match proj_entries (proj w) !! key_instance key with
      | Some entry =>
          if entry_dismissed entry then st_ret tt
          else
            do! on_desk (shell_close (entry_id entry) (proj_owner (proj w)));;
            do! set_proj (with_entries (<[key_instance key :=
                  {| entry_id := entry_id entry; entry_digest := entry_digest entry;
                     entry_dismissed := true |}]>));;
            proj_save
      | None => st_ret tt
      end
  | Some content =>
      let show_as (replaces : Z) : projecting unit :=
        do! st_ensure (has_room (key_instance key) (proj w)) "phone projection cache full"%string;;
        id <-! on_desk (shell_show key content replaces (negb fresh));;
        do! set_proj (with_entries (<[key_instance key :=
              {| entry_id := id; entry_digest := digest content; entry_dismissed := false |}]>));;
        proj_save in
      match proj_entries (proj w) !! key_instance key with
      | Some entry =>
          if entry_dismissed entry || str_eqb (entry_digest entry) (digest content) then st_ret tt
          else show_as (entry_id entry)
      | None => show_as 0
      end
  end.

(** [rx/phone_projection 126-155 PhoneProjections::adopt] *)
Definition proj_adopt (key : NotificationKey) (id : Z) (content : SharedNotification) :
  projecting unit :=
  do! proj_load;;
  w <-! st_get;;
  if is_some_and (fun entry => entry_id entry =? id) (proj_entries (proj w) !! key_instance key)
  then st_ret tt
  else
    do! (match proj_entries (proj w) !! key_instance key with
         | Some entry => on_desk (shell_close (entry_id entry) (proj_owner (proj w)))
         | None => st_ret tt
         end);;
    do! st_ensure (has_room (key_instance key) (proj w)) "phone projection cache full"%string;;
    do! set_proj (with_entries (<[key_instance key :=
          {| entry_id := id; entry_digest := digest content; entry_dismissed := false |}]>));;
    proj_save.

(** [rx/phone_projection 156-177 PhoneProjections::closed] *)
Definition proj_closed (instance : string) (id reason : Z) : projecting bool :=
  w <-! st_get;;
  match proj_entries (proj w) !! instance with
  | Some entry =>
      if entry_id entry =? id then
        do! set_proj (with_entries (fun m =>
              if reason =? 2
              then <[instance := {| entry_id := entry_id entry; entry_digest := entry_digest entry;
                                    entry_dismissed := true |}]> m
              else delete instance m));;
        do! proj_save;;
        st_ret true
      else st_ret false
  | None => st_ret false
  end.

(** [rx/phone_projection 178-192 PhoneProjections::withdraw] *)
Definition proj_withdraw (instance : string) : projecting unit :=
  do! proj_load;;
  w <-! st_get;;
  match proj_entries (proj w) !! instance with
  | Some entry =>
      do! set_proj (with_entries (delete instance));;
      do! (if entry_dismissed entry then st_ret tt
           else on_desk (shell_close (entry_id entry) (proj_owner (proj w))));;
      proj_save
  | None => st_ret tt
  end.

(** [rx/phone_projection 193-206 PhoneProjections::missing] *)
Definition proj_missing (prefix : string) (present : gset string) (self : PhoneProjections) :
  list string :=
  List.filter (fun key => starts_with prefix key
                          && negb (existsb (fun id => starts_with (id ++ "/") key) (elements present)))
    (keys_in_order (proj_entries self)).
End Projections.
