(* ===== verification/NotificationHub.v ===== *)
(** * The notification hub and its phones: [notification_hub.rs]

    The hub of one computer: its durable history, the cache of what its desktop shows of the
    phones' notifications, and what its status says.  [PhoneNotificationSource] turns a phone's
    events into operations on the history and delivers them to the desktop. *)
From Stdlib Require Import Ascii.
From S2P Require Export Config NotificationLink NotificationMirror PhoneProjection.

(** ** The hub *)

(** The parts of [Inner] that change, on the machine [D].
    [rx/notification_hub 237-250 Inner] *)
Record Hub (D : Type) := {
  hub_store : Store;
  hub_projections : Projected D;
  hub_changed : Z;
  hub_bridges : Z;
  hub_links : Z;
  hub_error : option string;
  hub_bridge_error : option string;
  hub_source_names : gmap string string;
}.
Arguments hub_store {D} _.
Arguments hub_projections {D} _.
Arguments hub_changed {D} _.
Arguments hub_bridges {D} _.
Arguments hub_links {D} _.
Arguments hub_error {D} _.
Arguments hub_bridge_error {D} _.
Arguments hub_source_names {D} _.

Section Setters.
Context {D : Type}.
Definition with_store (s : Store) (h : Hub D) : Hub D :=
  {| hub_store := s; hub_projections := hub_projections h; hub_changed := hub_changed h;
     hub_bridges := hub_bridges h; hub_links := hub_links h; hub_error := hub_error h;
     hub_bridge_error := hub_bridge_error h; hub_source_names := hub_source_names h |}.
Definition with_projections (p : Projected D) (h : Hub D) : Hub D :=
  {| hub_store := hub_store h; hub_projections := p; hub_changed := hub_changed h;
     hub_bridges := hub_bridges h; hub_links := hub_links h; hub_error := hub_error h;
     hub_bridge_error := hub_bridge_error h; hub_source_names := hub_source_names h |}.
Definition with_errors (e b : option string) (h : Hub D) : Hub D :=
  {| hub_store := hub_store h; hub_projections := hub_projections h; hub_changed := hub_changed h;
     hub_bridges := hub_bridges h; hub_links := hub_links h; hub_error := e;
     hub_bridge_error := b; hub_source_names := hub_source_names h |}.
Definition with_names (n : gmap string string) (h : Hub D) : Hub D :=
  {| hub_store := hub_store h; hub_projections := hub_projections h; hub_changed := hub_changed h;
     hub_bridges := hub_bridges h; hub_links := hub_links h; hub_error := hub_error h;
     hub_bridge_error := hub_bridge_error h; hub_source_names := n |}.

(** [rx/notification_hub 762-766 NotificationHub::publish] *)
Definition hub_publish (h : Hub D) : Hub D :=
  {| hub_store := hub_store h; hub_projections := hub_projections h;
     hub_changed := wrapping_add u64_max (hub_changed h) 1;
     hub_bridges := hub_bridges h; hub_links := hub_links h; hub_error := hub_error h;
     hub_bridge_error := hub_bridge_error h; hub_source_names := hub_source_names h |}.

(** [rx/notification_hub 721-727 NotificationHub::record_error]: the first error is kept. *)
Definition record_error (error : string) (h : Hub D) : Hub D :=
  match hub_error h with
  | Some _ => h
  | None => with_errors (Some error) (hub_bridge_error h) h
  end.
(** [rx/notification_hub 728-732 NotificationHub::clear_error] *)
Definition clear_error (h : Hub D) : Hub D := with_errors None (hub_bridge_error h) h.
End Setters.

Section Hub.
Context {D : Type} `{Shell D} (digest : SharedNotification -> string).
(** The configuration, this computer's fingerprint, and the length of a store as JSON. *)
Context (config : NotificationConfig) (identity : string) (json_len : Store -> Z).

Abbreviation hubbing := (stateful (Hub D) string).
Definition on_hub (f : Hub D -> Hub D) : hubbing unit := fun h => (f h, Ok tt).
Definition on_proj {A} (m : stateful (Projected D) string A) : hubbing A := fun h =>
  let r := m (hub_projections h) in (with_projections r.1 h, r.2).

(** [rx/notification_hub 733-735 NotificationHub::is_coordinator] *)
Definition is_coordinator : bool := str_eqb identity (coordinator_fingerprint config).
(** [rx/notification_hub 736-738 NotificationHub::enrolled] *)
Definition enrolled (peer : string) : bool := existsb (fun p => str_eqb p peer) (notif_peers config).

(** [rx/notification_hub 739-761 NotificationHub::persist] *)
Definition hub_persist (state : Store) : hubbing unit :=
  do! st_ensure (json_len state <=? MAX_STORE_BYTES) "notification store capacity exceeded"%string;;
  on_proj (on_desk (store_write state)).

(** [rx/notification_hub 767-778 NotificationHub::local] *)
Definition hub_local (key : NotificationKey) (content : option SharedNotification) : hubbing unit :=
  h <-! st_get;;
  match queue_local key content is_coordinator (hub_store h) with
  | (_, Err error) => st_fail error
  | (_, Ok false) => st_ret tt
  | (next, Ok true) =>
      do! hub_persist next;;
      do! on_hub (with_store next);;
      on_hub hub_publish
  end.

(** [rx/notification_hub 782-784 NotificationHub::local_phone] *)
Definition local_phone (key : NotificationKey) : bool :=
  str_eqb (key_origin key) identity && starts_with "phone/" (key_instance key).

(** [rx/notification_hub 785-791 NotificationHub::local_from_bridge] *)
Definition local_from_bridge (key : NotificationKey) (content : option SharedNotification) :
  hubbing unit :=
  r <-! attempt (hub_local key content);;
  match r with
  | Ok _ => st_ret tt
  | Err error => on_hub (record_error
      ("Notification history: " ++ error ++ "; local delivery continues")%string)
  end.

(** [rx/notification_hub 678-690 NotificationHub::set_peer_name] *)
Definition set_peer_name (fingerprint name : string) (h : Hub D) : Hub D :=
  if negb (enrolled fingerprint) then h
  else
    let name := take_chars 64 name in
    if bool_decide (hub_source_names h !! fingerprint = Some name) then h
    else hub_publish (with_names (<[fingerprint := name]> (hub_source_names h)) h).

(** [rx/notification_hub 694-720 NotificationHub::status] *)
Definition hub_status (h : Hub D) : string :=
  let queued := print_dec (len (pending_operations (hub_store h))) in
  match hub_error h, hub_bridge_error h with
  | Some error, _ => "Needs attention: " ++ error
  | None, Some error => "Quickshell needs attention: " ++ error
  | None, None =>
      if (hub_bridges h =? 0)%Z
      then "Waiting for Quickshell bridge — install or reload the integration"
      else if (hub_links h =? 0)%Z
      then "Quickshell connected; waiting for the other PC to enable/update sharing and confirm the history owner"
      else if negb is_coordinator && str_is_empty (epoch (hub_store h))
      then "Owner confirmed; waiting for initial history · " ++ queued ++ " queued"
      else
        let retained := len (List.filter (fun r => bool_decide (is_Some (rec_content r)))
                               (store_view (hub_store h))) in
        "Connected · " ++ print_dec retained ++ " notifications · " ++ queued ++ " queued"
  end%string.

(** ** A phone's notifications *)

(** [rx/notification_hub 256-264 PhoneNotificationSource] *)
Record PhoneNotificationSource := {
  src_prefix : string;
  src_name : string;
  src_resent : option (gset string);
  snapshot_failed : bool;
}.

(** [rx/notification_hub 507-515 NotificationHub::phone_source] *)
Definition phone_source (fingerprint name : string) : PhoneNotificationSource :=
  {| src_prefix := "phone/" ++ replace_char ":"%char "" fingerprint ++ "/"; src_name := name;
     src_resent := None; snapshot_failed := false |}.

Record Source := { src : PhoneNotificationSource; src_hub : Hub D }.
Abbreviation sourcing := (stateful Source string).
Definition on_source (f : PhoneNotificationSource -> PhoneNotificationSource) : sourcing unit :=
  fun s => ({| src := f (src s); src_hub := src_hub s |}, Ok tt).
Definition on_src_hub {A} (m : hubbing A) : sourcing A := fun s =>
  let r := m (src_hub s) in ({| src := src s; src_hub := r.1 |}, r.2).
Definition set_src_resent (r : option (gset string)) (p : PhoneNotificationSource) :=
  {| src_prefix := src_prefix p; src_name := src_name p; src_resent := r;
     snapshot_failed := snapshot_failed p |}.
Definition set_snapshot_failed (b : bool) (p : PhoneNotificationSource) :=
  {| src_prefix := src_prefix p; src_name := src_name p; src_resent := src_resent p;
     snapshot_failed := b |}.

Definition with_instances (f : gmap string PhoneInstance -> gmap string PhoneInstance) (s : Store) : Store :=
  {| coordinator := coordinator s; epoch := epoch s; local_identity := local_identity s;
     store_sequence := store_sequence s; records := records s;
     pending_operations := pending_operations s; phone_instances := f (phone_instances s);
     imported_phones := imported_phones s |}.
Definition with_imports (f : gmap string string -> gmap string string) (s : Store) : Store :=
  {| coordinator := coordinator s; epoch := epoch s; local_identity := local_identity s;
     store_sequence := store_sequence s; records := records s;
     pending_operations := pending_operations s; phone_instances := phone_instances s;
     imported_phones := f (imported_phones s) |}.

Definition contains_key {A} (key : string) (m : gmap string A) : bool := bool_decide (is_Some (m !! key)).
(** [rx/notification_hub 317-317 PhoneNotificationSource::apply_inner] *)
Definition phone_id (prefix : string) (id : Z) : string := (prefix ++ print_dec id)%string.

(** What an event is to change: the next history, whether the phone's metadata changed, and the
    operations to queue and to deliver. *)
Record Plan := {
  plan_next : Store;
  plan_changed : bool;
  plan_operations : list (string * option SharedNotification);
}.

(** The lifetimes with room for one more, when they are full: those of other notifications that
    are gone from their phone and from the desktop are forgotten; and the instance the desktop
    already has for an unknown notification.
    [rx/notification_hub 333-352 PhoneNotificationSource::apply_inner] *)
Definition find_cached (with_desktop : bool) (id : string) (next : Store) :
  sourcing (Store * option string) :=
  if with_desktop then
    do! on_src_hub (on_proj proj_load);;
    s <-! st_get;;
    let cache := proj (hub_projections (src_hub s)) in
    let next :=
      if MAX_RECORDS <=? Z.of_nat (size (phone_instances next))
      then with_instances (filter (fun known => known.1 = id \/ phone_present known.2 = true
                             \/ is_Some (proj_instance (known.1 ++ "/") cache))) next
      else next in
    st_ret (next, if contains_key id (phone_instances next) then None
                  else proj_instance (id ++ "/") cache)
  else st_ret (next, None).

(** The lifetime of a posted notification: the one it has, or a new one.
    [rx/notification_hub 328-366 PhoneNotificationSource::apply_inner] *)
Definition begin_lifetime (with_desktop : bool) (fresh_epoch : result string string) (id : string)
    (next : Store) : sourcing (Store * bool) :=
  if is_some_and phone_present (phone_instances next !! id) then st_ret (next, false)
  else
    found <-! find_cached with_desktop id next;;
    let (next, cached) := (found : Store * option string) in
    do! st_ensure (contains_key id (phone_instances next)
                   || (Z.of_nat (size (phone_instances next)) <? MAX_RECORDS))
          "phone notification identities full"%string;;
    epoch <-! st_lift fresh_epoch;;
    let entry := {| phone_instance := default (id ++ "/" ++ epoch)%string cached; phone_present := true |} in
    st_ret (with_instances (<[id := entry]>) next, true).

(** The content of a phone's notification in the history.
    [rx/notification_hub 368-379 PhoneNotificationSource::apply_inner] *)
Definition shared_content (phone : PhoneNotification) (name : string) : SharedNotification :=
  let shown := desktop_notification phone name in
  {| sn_app_name := take_chars 64 (dn_app_name shown);
     sn_title := take_chars 256 (dn_summary shown);
     sn_body := truncate_bytes (dn_body shown) 4096;
     sn_icon := "phone";
     sn_icon_png := dn_icon_png shown;
     sn_posted_ms := pn_posted_ms phone;
     sn_urgency := 1 |}.

(** [rx/notification_hub 316-381 PhoneNotificationSource::apply_inner] *)
Definition plan_posted (with_desktop : bool) (fresh_epoch : result string string)
    (phone : PhoneNotification) : sourcing Plan :=
  s <-! st_get;;
  let id := phone_id (src_prefix (src s)) (pn_id phone) in
  do! (match src_resent (src s) with
       | Some resent =>
           do! st_ensure ((Z.of_nat (size resent) <? MAX_RECORDS) || bool_decide (id ∈ resent))
                 "phone notification snapshot full"%string;;
           on_source (set_src_resent (Some ({[id]} ∪ resent)))
       | None => st_ret tt
       end);;
  begun <-! begin_lifetime with_desktop fresh_epoch id (hub_store (src_hub s));;
  let (next, changed) := (begun : Store * bool) in
  let instance := match phone_instances next !! id with Some e => phone_instance e | None => "" end in
  st_ret {| plan_next := next; plan_changed := changed;
            plan_operations := [(instance, Some (shared_content phone (src_name (src s))))] |}.

(** A lifetime that ends.
    [rx/notification_hub 388-388 PhoneNotificationSource::apply_inner] *)
Definition end_lifetime (e : PhoneInstance) : PhoneInstance :=
  {| phone_instance := phone_instance e; phone_present := false |}.

(** [rx/notification_hub 382-400 PhoneNotificationSource::apply_inner] *)
Definition plan_removed (with_desktop : bool) (id : Z) : sourcing Plan :=
  s <-! st_get;;
  let next := hub_store (src_hub s) in
  let id := phone_id (src_prefix (src s)) id in
  let unchanged := {| plan_next := next; plan_changed := false; plan_operations := [] |} in
  match phone_instances next !! id with
  | Some ({| phone_present := true |} as entry) =>
      st_ret {| plan_next := with_instances (<[id := end_lifetime entry]>) next; plan_changed := true;
                plan_operations := [(phone_instance entry, None)] |}
  | _ =>
      if with_desktop then
        do! on_src_hub (on_proj proj_load);;
        s <-! st_get;;
        match proj_instance (id ++ "/") (proj (hub_projections (src_hub s))) with
        | Some instance => st_ret {| plan_next := next; plan_changed := false;
                                     plan_operations := [(instance, None)] |}
        | None => st_ret unchanged
        end
      else st_ret unchanged
  end.

(** A present lifetime of the phone that its snapshot did not have. *)
Definition is_absent (prefix : string) (present : gset string) (p : string * PhoneInstance) : Prop :=
  starts_with prefix p.1 = true /\ phone_present p.2 = true /\ p.1 ∉ present.
#[export] Instance is_absent_dec prefix present p : Decision (is_absent prefix present p).
Proof. apply _. Defined.
(** [rx/notification_hub 419-425 PhoneNotificationSource::apply_inner] *)
Definition end_absent (prefix : string) (present : gset string) (m : gmap string PhoneInstance) :
  gmap string PhoneInstance :=
  map_imap (fun id e => Some (if decide (is_absent prefix present (id, e)) then end_lifetime e else e)) m.
(** [rx/notification_hub 419-425 PhoneNotificationSource::apply_inner] *)
Definition absent_operations (prefix : string) (present : gset string)
    (m : gmap string PhoneInstance) : list (string * option SharedNotification) :=
  let gone := filter (is_absent prefix present) m in
  omap (fun id => e ← gone !! id; Some (phone_instance e, None)) (keys_in_order gone).

(** [rx/notification_hub 401-426 PhoneNotificationSource::apply_inner] *)
Definition plan_snapshot_end : sourcing Plan :=
  s <-! st_get;;
  match src_resent (src s) with
  | None => st_fail "phone notification snapshot end without start"%string
  | Some present =>
      do! on_source (set_src_resent None);;
      let prefix := src_prefix (src s) in
      let next := hub_store (src_hub s) in
      imported <-!
        (if negb (snapshot_failed (src s)) && negb (str_is_empty (src_name (src s)))
            && negb (bool_decide (imported_phones next !! prefix = Some (src_name (src s))))
         then
           do! st_ensure (contains_key prefix (imported_phones next)
                          || (Z.of_nat (size (imported_phones next)) <? MAX_RECORDS))
                 "phone notification imports full"%string;;
           st_ret (with_imports (<[prefix := src_name (src s)]>) next, true)
         else st_ret (next, false));;
      let (next, changed) := (imported : Store * bool) in
      let operations := absent_operations prefix present (phone_instances next) in
      st_ret {| plan_next := with_instances (end_absent prefix present) next;
                plan_changed := changed || negb (bool_decide (operations = []));
                plan_operations := operations |}
  end.

(** [rx/notification_hub 445-448 PhoneNotificationSource::apply_inner] *)
Definition shared_key (instance : string) : NotificationKey :=
  {| key_origin := identity; key_instance := instance |}.

(** Queueing the operations on the next history, until one fails.
    [rx/notification_hub 443-452 PhoneNotificationSource::apply_inner] *)
Fixpoint queue_all (operations : list (string * option SharedNotification)) :
  stateful Store string bool :=
  match operations with
  | [] => st_ret false
  | (instance, content) :: operations =>
      a <-! queue_local (shared_key instance) content is_coordinator;;
      b <-! queue_all operations;;
      st_ret (a || b)
  end.

(** The history and the phone's lifetimes commit together, or not at all.
    [rx/notification_hub 440-460 PhoneNotificationSource::apply_inner] *)
Definition commit_plan (snapshot_end : bool) (plan : Plan) : sourcing bool :=
  s <-! st_get;;
  do! st_ensure (negb (snapshot_end && snapshot_failed (src s)))
        "Phone snapshot was not fully imported; local delivery continues, history needs attention"%string;;
  match queue_all (plan_operations plan) (plan_next plan) with
  | (_, Err error) => st_fail error
  | (next, Ok queued) =>
      if plan_changed plan || queued then
        do! on_src_hub (hub_persist next);;
        do! on_src_hub (on_hub (with_store next));;
        st_ret true
      else st_ret false
  end.

(** What a dismissed notification asks the desktop for is nothing.
    [rx/notification_hub 434-438 PhoneNotificationSource::apply_inner] *)
Definition mask_dismissed (cache : PhoneProjections) (plan : Plan) : Plan :=
  {| plan_next := plan_next plan; plan_changed := plan_changed plan;
     plan_operations := map (fun o => (o.1, if proj_dismissed o.1 cache then None else o.2))
                          (plan_operations plan) |}.
(** [rx/notification_hub 429-439 PhoneNotificationSource::apply_inner] *)
Definition mask_plan (with_desktop : bool) (plan : Plan) : sourcing Plan :=
  if with_desktop then
    do! on_src_hub (on_proj proj_load);;
    s <-! st_get;;
    st_ret (mask_dismissed (proj (hub_projections (src_hub s))) plan)
  else st_ret plan.

(** A removed notification is terminal.
    [rx/notification_hub 473-473 PhoneNotificationSource::apply_inner] *)
Definition is_terminal (key : NotificationKey) (view : list NotificationRecord) : bool :=
  existsb (fun r => bool_decide (rec_key r = key) && bool_decide (rec_content r = None)) view.

(** [rx/notification_hub 468-486 PhoneNotificationSource::apply_inner] *)
Fixpoint deliver_operations (view : list NotificationRecord) (fresh withdrawal : bool)
    (operations : list (string * option SharedNotification)) : sourcing unit :=
  match operations with
  | [] => st_ret tt
  | (instance, content) :: operations =>
      let key := shared_key instance in
      do! on_src_hub (on_proj (proj_show digest key
            (if is_terminal key view then None else content) fresh));;
      do! (if withdrawal then on_src_hub (on_proj (proj_withdraw instance)) else st_ret tt);;
      deliver_operations view fresh withdrawal operations
  end.
(** [rx/notification_hub 488-490 PhoneNotificationSource::apply_inner] *)
Fixpoint withdraw_all (instances : list string) : sourcing unit :=
  match instances with
  | [] => st_ret tt
  | instance :: instances =>
      do! on_src_hub (on_proj (proj_withdraw instance));;
      withdraw_all instances
  end.

(** [rx/notification_hub 463-495 PhoneNotificationSource::apply_inner] *)
Definition deliver_plan (with_desktop fresh withdrawal snapshot_end : bool)
    (snapshot_present : option (gset string)) (plan : Plan) : sourcing unit :=
  if with_desktop then
    s <-! st_get;;
    do! deliver_operations (store_view (hub_store (src_hub s))) fresh withdrawal (plan_operations plan);;
    match snapshot_end, snapshot_present with
    | true, Some present =>
        s <-! st_get;;
        withdraw_all (proj_missing (src_prefix (src s)) present (proj (hub_projections (src_hub s))))
    | _, _ => st_ret tt
    end
  else st_ret tt.

(** [rx/notification_hub 315-428 PhoneNotificationSource::apply_inner] *)
Definition plan_event (with_desktop : bool) (fresh_epoch : result string string)
    (event : NotificationEvent) : sourcing Plan :=
  match event with
  | Event_Posted phone => plan_posted with_desktop fresh_epoch phone
  | Event_Removed id => plan_removed with_desktop id
  | Event_SnapshotEnd => plan_snapshot_end
  | Event_SnapshotStart => st_fail "unreachable"%string
  end.

(** [rx/notification_hub 295-503 PhoneNotificationSource::apply_inner]; [fresh_epoch] is what
    [new_epoch] gives, [with_desktop] whether there is a desktop to deliver to. *)
Definition apply_inner (with_desktop : bool) (fresh_epoch : result string string)
    (event : NotificationEvent) : sourcing unit :=
  s <-! st_get;;
  match event with
  | Event_SnapshotStart =>
      do! st_ensure (bool_decide (src_resent (src s) = None)) "nested phone notification snapshot"%string;;
      do! on_source (set_src_resent (Some ∅));;
      on_source (set_snapshot_failed false)
  | _ =>
      let is_posted := match event with Event_Posted _ => true | _ => false end in
      let fresh := bool_decide (src_resent (src s) = None) && is_posted in
      let snapshot_present := src_resent (src s) in
      let withdrawal := match event with Event_Removed _ => true | _ => false end in
      let snapshot_end := match event with Event_SnapshotEnd => true | _ => false end in
      plan <-! plan_event with_desktop fresh_epoch event;;
      plan <-! mask_plan with_desktop plan;;
      committed <-! attempt (commit_plan snapshot_end plan);;
      delivered <-! attempt
        (deliver_plan with_desktop fresh withdrawal snapshot_end snapshot_present plan);;
      do! (match committed with
           | Ok true => on_src_hub (on_hub hub_publish)
           | _ => st_ret tt
           end);;
      do! st_lift committed;;
      st_lift delivered
  end.

(** [rx/notification_hub 279-293 PhoneNotificationSource::apply_with_desktop] *)
Definition apply_with_desktop (with_desktop : bool) (fresh_epoch : result string string)
    (event : NotificationEvent) : sourcing unit :=
  r <-! attempt (apply_inner with_desktop fresh_epoch event);;
  match r with
  | Ok _ => st_ret tt
  | Err error =>
      s <-! st_get;;
      do! (if bool_decide (is_Some (src_resent (src s)))
           then on_source (set_snapshot_failed true) else st_ret tt);;
      do! on_src_hub (on_hub (record_error ("Phone notification history: " ++ error)%string));;
      st_fail error
  end.

(** [rx/notification_hub 267-269 PhoneNotificationSource::apply] *)
Definition source_apply := apply_with_desktop false.
(** [rx/notification_hub 271-277 PhoneNotificationSource::apply_and_deliver] *)
Definition apply_and_deliver := apply_with_desktop true.

(** [rx/notification_hub 517-525 NotificationHub::remove_phone] *)
Definition remove_phone (fingerprint : string) : hubbing unit := fun h =>
  let r := (do! source_apply (Err "unused"%string) Event_SnapshotStart;;
            source_apply (Err "unused"%string) Event_SnapshotEnd)
             {| src := phone_source fingerprint ""; src_hub := h |} in
  (src_hub r.1, r.2).
End Hub.

(** ** What a queued operation does to the view *)

Definition view_find (key : NotificationKey) (s : Store) : option NotificationRecord :=
  List.find (is_key key) (store_view s).

(** A history whose outbox fits beside it; a coordinator has none. *)
Record hub_ok (coord : bool) (s : Store) : Prop := {
  hk_store : store_ok s;
  hk_room : len (records s) + len (pending_operations s) <= MAX_RECORDS;
  hk_outbox : coord = true -> pending_operations s = [];
  hk_sequence : 0 <= store_sequence s;
}.

Definition gone (key : NotificationKey) (s : Store) : Prop :=
  exists r, view_find key s = Some r /\ rec_content r = None.

Lemma find_app_none {A} (f : A -> bool) l l' :
  List.find f l = None -> List.find f (l ++ l') = List.find f l'.
Proof. induction l as [|x l IH]; [done|]. simpl. by destruct (f x). Qed.

Lemma find_app_other {A} (f : A -> bool) l x : f x = false -> List.find f (l ++ [x]) = List.find f l.
Proof.
  intros Hx. induction l as [|y l IH]; simpl; [by rewrite Hx|]. by destruct (f y).
Qed.

Lemma find_filter {A} (f g : A -> bool) l : (forall x, f x = true -> g x = true) ->
  List.find f (List.filter g l) = List.find f l.
Proof.
  intros Hfg. induction l as [|x l IH]; [done|]. simpl. destruct (f x) eqn:Hf.
  - rewrite (Hfg _ Hf). simpl. by rewrite Hf.
  - destruct (g x); simpl; [by rewrite Hf|done].
Qed.

Lemma store_apply_find s sender op s' b : store_apply s sender op = Ok (s', b) ->
  (forall key, key <> op_key op -> List.find (is_key key) (records s') = List.find (is_key key) (records s))
  /\ (op_content op = None ->
        exists r, List.find (is_key (op_key op)) (records s') = Some r /\ rec_content r = None).
Proof.
  unfold store_apply. destruct (check_operation sender op); [|done].
  destruct (List.find _ _) as [r|] eqn:Ef.
  - case_bool_decide as Ec; [intros [= <- _]; split; [done|]; intros _; by exists r|].
    destruct (_ || _) eqn:E.
    + intros [= <- _]. cbn [records with_records]. split.
      * intros key Hk. by apply find_update_other.
      * intros Hc. eexists. split; [by apply find_update_same|]. done.
    + intros [= <- _]. split; [done|]. intros Hc. by rewrite Hc in E.
  - destruct (Z.ltb_spec (len (records s)) MAX_RECORDS); [|done]. intros [= <- _].
    cbn [records with_records]. split.
    + intros key Hk. apply find_app_other. unfold is_key. simpl. by apply bool_decide_eq_false.
    + intros Hc. eexists. split; [rewrite (find_app_none _ _ _ Ef); simpl; unfold is_key; simpl|].
      { by rewrite bool_decide_true. }
      done.
Qed.

Lemma overlay_removed sender op cur : check_operation sender op = Ok tt -> op_content op = None ->
  (forall r, cur = Some r -> rec_key r = op_key op) ->
  exists r, last (records (apply_ignoring sender (overlay_of cur) op)) = Some r /\ rec_content r = None.
Proof.
  intros Hc Hn Hcur. unfold apply_ignoring, store_apply. rewrite Hc, Hn.
  destruct cur as [r|]; cbn [overlay_of records with_records List.find Store_default].
  - unfold is_key. rewrite bool_decide_true by auto.
    case_bool_decide as Er; [exists r; by split|].
    rewrite bool_decide_true by done. cbn [orb records with_records update_record].
    unfold is_key. rewrite bool_decide_true by auto. cbn. by eexists.
  - cbn. by eexists.
Qed.

Lemma view_find_spec key s : hub_ok false s \/ hub_ok true s ->
  view_find key s
  = match List.find (fun op => bool_decide (op_key op = key)) (pending_operations s) with
    | None => List.find (is_key key) (records s)
    | Some op => last (records (apply_ignoring (local_identity s)
                                  (overlay_of (List.find (is_key key) (records s))) op))
    end.
Proof.
  intros Hk. unfold view_find, store_view. apply fold_one_record;
    destruct Hk as [[[] ? _ _]|[[] ? _ _]]; done.
Qed.

Lemma queue_local_cases coord s key content s' b :
  queue_local key content coord s = (s', Ok b) ->
  (b = false /\ s' = s
   /\ exists r, view_find key s = Some r /\ (rec_content r = None \/ rec_content r = content))
  \/ exists n, b = true /\ n = store_sequence s + 1 /\ validate_key key = Ok tt
     /\ let op := {| op_sequence := n; op_key := key; op_content := content |} in
        if coord
        then exists c, store_apply (with_sequence n s) (local_identity s) op = Ok (s', c)
        else let kept := List.filter (fun o => negb (bool_decide (op_key o = key))) (pending_operations s) in
             s' = with_pending_operations (kept ++ [op]) (with_sequence n s)
             /\ len kept < MAX_PENDING /\ len (records s) + len kept < MAX_RECORDS.
Proof.
  unfold queue_local, st_bind, st_get, st_put, st_ret, st_ensure, st_lift. fold (view_find key s).
  destruct (view_find key s) as [r|] eqn:Er; cbn [is_some_and];
    [destruct (bool_decide (rec_content r = None) || _) eqn:E|].
  1: { intros [= <- <-]. left. split_and!; [done|done|]. exists r. split; [done|].
       apply orb_true_iff in E as [E|E]; apply bool_decide_eq_true in E; auto. }
  all: destruct (ok_or _ _) as [n|] eqn:En; [|done];
    destruct (validate_key key) as [[]|] eqn:Ev; [|done];
    pose proof (check_local_state (local_identity s) key content (with_sequence n s)) as Hst;
    destruct (check_local _ _ _ _) as [s1 [?|?]]; simpl in Hst; subst s1; [|done];
    (assert (n = store_sequence s + 1) as ->
      by (unfold ok_or in En; destruct (checked_add _ _ _) as [m|] eqn:Em; [|done];
          apply checked_add_Some in Em as [-> _]; congruence));
    destruct coord; simpl.
  1,3: destruct (store_apply _ _ _) as [[s2 c]|] eqn:Ea; [|done]; simpl; intros [= <- <-];
       right; eexists; split_and!; [done|done|done|by exists c].
  all: destruct (_ && _) eqn:El; [|done]; simpl; intros [= <- <-]; right; eexists;
       split_and!; try done; reflect_bools; done.
Qed.

Lemma queue_local_view coord s key content s' b : hub_ok coord s ->
  queue_local key content coord s = (s', Ok b) ->
  hub_ok coord s'
  /\ (forall key', key' <> key -> view_find key' s' = view_find key' s)
  /\ (content = None -> gone key s').
Proof.
  intros Hk Hq. pose proof (queue_local_ok key content coord s (hk_store _ _ Hk)) as Hok.
  rewrite Hq in Hok. cbn [fst] in Hok. pose proof (hk_sequence _ _ Hk) as Hseq.
  apply queue_local_cases in Hq as [(-> & -> & r & Hr & Hc)|(n & -> & -> & Hv & Hq)].
  { split_and!; [done|done|]. intros ->. exists r. split; [done|]. by destruct Hc. }
  destruct coord.
  - destruct Hq as [c Ha]. pose proof (hk_outbox _ _ Hk eq_refl) as Hp.
    pose proof (store_apply_find _ _ _ _ _ Ha) as [Ho Hg].
    apply store_apply_cases in Ha as (E & _ & _ & _).
    assert (pending_operations s' = []) as Hp' by (by rewrite E).
    assert (hub_ok true s') as Hk'.
    { split; [done| | done|]; [rewrite Hp'; unfold len at 2; simpl; destruct Hok; lia|].
      rewrite E. cbn. lia. }
    split_and!; [done| |].
    + intros key' Hne. rewrite !view_find_spec by auto. rewrite Hp', Hp. cbn [List.find]. by apply Ho.
    + intros ->. destruct (Hg eq_refl) as (r & Hr & Hn). exists r. split; [|done].
      rewrite view_find_spec by auto. by rewrite Hp'.
  - destruct Hq as (-> & Hpend & Hroom).
    destruct (kept_operations key _ (ok_pending_keys _ (hk_store _ _ Hk))) as (_ & Hnk & _).
    match goal with |- context [with_pending_operations ?l _] => set (kept' := l) in * end.
    assert (hub_ok false (with_pending_operations kept' (with_sequence (store_sequence s + 1) s))) as Hk'.
    { split; [done| | |cbn; lia]; [|done]. unfold kept'. cbn [records pending_operations with_pending_operations
        with_sequence]. rewrite len_app. unfold len at 3. simpl. lia. }
    split_and!; [done| |].
    + intros key' Hne. rewrite !view_find_spec by auto. unfold kept'.
      cbn [records pending_operations with_pending_operations with_sequence local_identity].
      rewrite find_app_other by (simpl; apply bool_decide_eq_false; congruence).
      rewrite find_filter; [done|]. intros o Ho. apply bool_decide_eq_true in Ho.
      apply negb_true_iff, bool_decide_eq_false. congruence.
    + intros ->. unfold gone. rewrite view_find_spec by auto. unfold kept'.
      cbn [records pending_operations with_pending_operations with_sequence local_identity].
      rewrite find_app_none.
      2: { apply find_none_forall. intros o Ho. apply bool_decide_eq_false. intros E. apply Hnk.
           apply list_elem_of_fmap. exists o. split; [done|by apply list_elem_of_In]. }
      cbn [List.find op_key]. rewrite bool_decide_true by done.
      apply overlay_removed; [|done|].
      * unfold check_operation. cbn. rewrite Hv. by rewrite (proj2 (Z.ltb_lt _ _)) by lia.
      * intros r Hr. by apply find_key in Hr.
Qed.
