(* ===== verification/PhoneHistory.v ===== *)
(** * A phone's notifications in the shared history: properties of [PhoneNotificationSource]

    What the history shows follows the phone, event by event and snapshots included; the history in
    memory is the one on disk; what was removed stays removed; and unpairing a phone removes all it sent. *)
From stdpp Require Import sorting.
From S2P Require Export NotificationHub.
#[local] Arguments starts_with : simpl never.

(** ** What the phone has *)

(** The notifications the history holds as present on their phones. *)
Definition present_in (m : gmap string PhoneInstance) : gset string :=
  dom (filter (fun p => phone_present p.2 = true) m).
Definition present_ids (s : Store) : gset string := present_in (phone_instances s).

(** The notifications present on the phones, and those resent in a snapshot under way. *)
Record PhoneSet := { alive : gset string; set_resent_ids : option (gset string) }.

Definition phone_step (prefix : string) (v : PhoneSet) (event : NotificationEvent) : PhoneSet :=
  match event with
  | Event_Posted n =>
      let id := phone_id prefix (pn_id n) in
      {| alive := {[id]} ∪ alive v; set_resent_ids := (fun r => {[id]} ∪ r) <$> set_resent_ids v |}
  | Event_Removed id =>
      {| alive := alive v ∖ {[phone_id prefix id]}; set_resent_ids := set_resent_ids v |}
  | Event_SnapshotStart => {| alive := alive v; set_resent_ids := Some ∅ |}
  | Event_SnapshotEnd =>
      match set_resent_ids v with
      | Some r => {| alive := filter (fun id => starts_with prefix id = false \/ id ∈ r) (alive v);
                     set_resent_ids := None |}
      | None => v
      end
  end.

Lemma present_in_elem m id :
  id ∈ present_in m <-> exists e, m !! id = Some e /\ phone_present e = true.
Proof.
  unfold present_in. rewrite elem_of_dom. split.
  - intros [e He]. apply map_lookup_filter_Some in He as [He Hp]. by exists e.
  - intros (e & He & Hp). exists e. by apply map_lookup_filter_Some.
Qed.

Lemma present_insert m id e : phone_present e = true ->
  present_in (<[id := e]> m) = {[id]} ∪ present_in m.
Proof.
  intros He. apply set_eq. intros k. rewrite elem_of_union, elem_of_singleton, !present_in_elem.
  destruct (decide (id = k)) as [<-|Hne].
  - rewrite lookup_insert_eq. split; [by left|]. intros _. by exists e.
  - rewrite lookup_insert_ne by done. split; [by right|]. by intros [->|?].
Qed.

Lemma present_end m id e : present_in (<[id := end_lifetime e]> m) = present_in m ∖ {[id]}.
Proof.
  apply set_eq. intros k. rewrite elem_of_difference, elem_of_singleton, !present_in_elem.
  destruct (decide (id = k)) as [<-|Hne].
  - rewrite lookup_insert_eq. split; [|by intros [_ ?]]. intros (x & [= <-] & ?). done.
  - rewrite lookup_insert_ne by done. split; [|by intros [? _]]. intros H. split; [done|congruence].
Qed.

Lemma end_absent_lookup prefix present m id :
  end_absent prefix present m !! id
  = (fun e => if decide (is_absent prefix present (id, e)) then end_lifetime e else e) <$> m !! id.
Proof. unfold end_absent. rewrite map_lookup_imap. by destruct (m !! id). Qed.

Lemma present_end_absent prefix present m :
  present_in (end_absent prefix present m)
  = filter (fun id => starts_with prefix id = false \/ id ∈ present) (present_in m).
Proof.
  apply set_eq. intros k. rewrite elem_of_filter, !present_in_elem. setoid_rewrite end_absent_lookup.
  destruct (m !! k) as [e|]; cbn; [|naive_solver]. unfold is_absent. cbn. split.
  - intros (x & [= <-] & Hx). case_decide as Ha; [done|]. split; [|by exists e].
    destruct (starts_with prefix k); [|by left].
    destruct (decide (k ∈ present)); [by right|]. destruct Ha. by split_and!.
  - intros (Hor & x & [= <-] & Hx). eexists. split; [done|]. case_decide as Ha; [|done].
    destruct Ha as (H1 & _ & H3). destruct Hor; [congruence|done].
Qed.

Lemma absent_operation prefix present m id e : m !! id = Some e -> is_absent prefix present (id, e) ->
  (phone_instance e, None) ∈ absent_operations prefix present m.
Proof.
  intros Ek Ha.
  assert (filter (is_absent prefix present) m !! id = Some e) as Hg by (by apply map_lookup_filter_Some).
  unfold absent_operations. apply list_elem_of_omap. exists id. rewrite Hg. split; [|done].
  unfold keys_in_order. rewrite merge_sort_Permutation. apply list_elem_of_fmap.
  exists (id, e). split; [done|]. by apply elem_of_map_to_list.
Qed.

Lemma absent_operations_nil prefix present m :
  absent_operations prefix present m = [] -> end_absent prefix present m = m.
Proof.
  intros Ho. apply map_eq. intros k. rewrite end_absent_lookup.
  destruct (m !! k) as [e|] eqn:Ek; [|done]. cbn. case_decide as Ha; [|done]. exfalso.
  pose proof (absent_operation _ _ _ _ _ Ek Ha) as Hin. rewrite Ho in Hin.
  by apply not_elem_of_nil in Hin.
Qed.

(** ** What a handler keeps *)

Section History.
Context {D : Type} `{Shell D} (digest : SharedNotification -> string).
Context (config : NotificationConfig) (identity : string) (json_len : Store -> Z).

Definition keeps (s s' : Source (D := D)) : Prop :=
  src s' = src s /\ hub_store (src_hub s') = hub_store (src_hub s).
#[local] Instance keeps_preorder : PreOrder keeps.
Proof. split; [by split|]. intros a b c [] []. split; congruence. Qed.

Lemma keeps_proj {A} (m : stateful (Projected D) string A) : within keeps (on_src_hub (on_proj m)).
Proof. intros s. by split. Qed.
Lemma keeps_publish : within keeps (on_src_hub (on_hub hub_publish)).
Proof. intros s. by split. Qed.
Hint Resolve keeps_proj keeps_publish : hub.

Lemma deliver_keeps view fresh withdrawal ops :
  within keeps (deliver_operations digest identity view fresh withdrawal ops).
Proof.
  induction ops as [|[instance content] ops IH]; cbn [deliver_operations]; [by intros s|].
  repeat within_step; auto with hub.
Qed.
Lemma withdraw_keeps l : within keeps (withdraw_all l).
Proof. induction l; cbn [withdraw_all]; [by intros s|]. repeat within_step; auto with hub. Qed.
Hint Resolve deliver_keeps withdraw_keeps : hub.

Lemma commit_plan_spec snapshot_end plan s s' r :
  commit_plan config identity json_len snapshot_end plan s = (s', r) ->
  src s' = src s
  /\ match r with
     | Ok b => exists next q,
         queue_all config identity (plan_operations plan) (plan_next plan) = (next, Ok q)
         /\ b = plan_changed plan || q
         /\ hub_store (src_hub s') = if b then next else hub_store (src_hub s)
     | Err _ => hub_store (src_hub s') = hub_store (src_hub s)
     end.
Proof.
  unfold commit_plan, st_bind at 1, st_get. unfold st_bind at 1, st_ensure, st_fail.
  destruct (negb _); [|by intros [= <- <-]]. cbn.
  destruct (queue_all _ _ _ _) as [next [q|e]] eqn:Hq; [|by intros [= <- <-]].
  destruct (plan_changed plan || q) eqn:Hb.
  - unfold st_bind, on_src_hub, hub_persist, st_bind, st_ensure, st_fail. cbn.
    destruct (json_len next <=? MAX_STORE_BYTES); cbn; [|by intros [= <- <-]].
    destruct (store_write _ _) as [d [[]|e]]; cbn; [|by intros [= <- <-]].
    intros [= <- <-]. split; [done|]. exists next, q. split_and!; [done|done|done].
  - intros [= <- <-]. split; [done|]. exists next, q. by rewrite Hb.
Qed.

Lemma mask_keeps with_desktop plan : within keeps (mask_plan with_desktop plan).
Proof. destruct with_desktop; cbn [mask_plan]; repeat within_step; auto with hub. Qed.

Lemma deliver_plan_keeps with_desktop fresh withdrawal snapshot_end present plan :
  within keeps (deliver_plan digest identity with_desktop fresh withdrawal snapshot_end present plan).
Proof. destruct with_desktop; cbn [deliver_plan]; repeat within_step; auto with hub. Qed.

Definition is_posted (event : NotificationEvent) : bool :=
  match event with Event_Posted _ => true | _ => false end.
Definition is_removed (event : NotificationEvent) : bool :=
  match event with Event_Removed _ => true | _ => false end.
Definition is_end (event : NotificationEvent) : bool :=
  match event with Event_SnapshotEnd => true | _ => false end.

Definition deliver (with_desktop : bool) (event : NotificationEvent) (s : Source (D := D)) (plan : Plan) :=
  deliver_plan digest identity with_desktop
    (bool_decide (src_resent (src s) = None) && is_posted event) (is_removed event) (is_end event)
    (src_resent (src s)) plan.
Definition published (b : bool) (s : Source (D := D)) : Source :=
  if b then {| src := src s; src_hub := hub_publish (src_hub s) |} else s.

(** What a successful event did: it planned, committed the plan and delivered it. *)
Lemma apply_inner_Ok with_desktop fresh event s s' : event <> Event_SnapshotStart ->
  apply_inner digest config identity json_len with_desktop fresh event s = (s', Ok tt) ->
  exists plan s1 plan' s2 s3 b s4, plan_event with_desktop fresh event s = (s1, Ok plan)
    /\ mask_plan with_desktop plan s1 = (s2, Ok plan')
    /\ commit_plan config identity json_len (is_end event) plan' s2 = (s3, Ok b)
    /\ deliver with_desktop event s plan' s3 = (s4, Ok tt) /\ s' = published b s4.
Proof.
  intros Hev. unfold apply_inner. unfold st_bind at 1, st_get at 1.
  destruct event; try done; unfold deliver; cbn [is_posted is_removed is_end]; unfold st_bind at 1;
    (destruct (plan_event _ _ _ _) as [s1 [plan|]] eqn:Hp; [|done]); unfold st_bind at 1;
    (destruct (mask_plan _ _ _) as [s2 [plan'|]] eqn:Hl; [|done]); unfold st_bind at 1, attempt at 1;
    (destruct (commit_plan _ _ _ _ _ _) as [s3 committed] eqn:Hc; cbn [fst snd]);
    unfold st_bind at 1, attempt at 1;
    (destruct (deliver_plan _ _ _ _ _ _ _ _ _) as [s4 r] eqn:Hd; cbn [fst snd]);
    (destruct committed as [b|]; [|by unfold st_bind, st_lift, st_ret]);
    unfold st_bind, st_lift, on_src_hub, on_hub, st_ret; cbn [fst snd];
    intros Hr; exists plan, s1, plan', s2, s3, b, s4;
    (destruct b; injection Hr as <- ->; by split_and!).
Qed.

End History.

(** ** Lifetimes *)

Section Lifetimes.
Context {D : Type} `{Shell D}.

(** Which notifications the lifetimes, kept beside the history's records, say the phones still have;
    what the records show is [shown]. *)
Definition phone_view (s : Source (D := D)) : PhoneSet :=
  {| alive := present_ids (hub_store (src_hub s)); set_resent_ids := src_resent (src s) |}.

Lemma find_cached_spec with_desktop id next s s1 next' cached :
  find_cached with_desktop id next s = (s1, Ok (next', cached)) ->
  keeps s s1 /\ present_ids next' = present_ids next.
Proof.
  unfold find_cached. destruct with_desktop; [|intros [= <- <- _]; by split].
  unfold st_bind at 1. destruct (on_src_hub _ s) as [s2 [u|]] eqn:E; [|done].
  assert (keeps s s2) as Hk.
  { pose proof (keeps_proj (A := unit) proj_load s) as Hk. by rewrite E in Hk. }
  unfold st_bind, st_get, st_ret. intros [= <- <- _]. split; [done|].
  destruct (_ <=? _); [|done]. unfold present_ids. cbn [phone_instances with_instances].
  apply set_eq. intros k. rewrite !present_in_elem. split.
  - intros (e & He & Hp). apply map_lookup_filter_Some in He as [He _]. by exists e.
  - intros (e & He & Hp). exists e. split; [|done]. apply map_lookup_filter_Some. auto.
Qed.

Lemma begin_lifetime_spec with_desktop fresh id next s s1 next' changed :
  begin_lifetime with_desktop fresh id next s = (s1, Ok (next', changed)) ->
  keeps s s1 /\ present_ids next' = {[id]} ∪ present_ids next
  /\ (changed = false -> next' = next).
Proof.
  unfold begin_lifetime. destruct (phone_instances next !! id) as [e|] eqn:E;
    [destruct (phone_present e) eqn:Ep|].
  1: { cbn [is_some_and]. rewrite Ep. intros [= <- <- <-]. split_and!; [done| |done].
       apply set_eq. intros k. rewrite elem_of_union, elem_of_singleton. split; [by right|].
       intros [->|?]; [|done]. apply present_in_elem. by exists e. }
  all: cbn [is_some_and]; rewrite ?Ep; unfold st_bind at 1;
    (destruct (find_cached _ _ _ _) as [s2 [[n c]|]] eqn:Ef; [|done]);
    apply find_cached_spec in Ef as [Hk Hp]; unfold st_bind, st_ensure, st_lift, st_fail;
    (destruct (_ || _); [|done]); (destruct fresh as [ep|]; [|done]); intros [= <- <- <-];
    (split_and!; [done| |done]); unfold present_ids in *; cbn [phone_instances with_instances];
    by rewrite present_insert, <- Hp.
Qed.

Lemma plan_posted_spec with_desktop fresh n s s1 plan :
  plan_posted with_desktop fresh n s = (s1, Ok plan) ->
  let v := phone_step (src_prefix (src s)) (phone_view s) (Event_Posted n) in
  hub_store (src_hub s1) = hub_store (src_hub s) /\ src_prefix (src s1) = src_prefix (src s)
  /\ src_resent (src s1) = set_resent_ids v /\ present_ids (plan_next plan) = alive v
  /\ (plan_changed plan = false -> plan_next plan = hub_store (src_hub s)).
Proof.
  unfold plan_posted. unfold st_bind at 1, st_get. unfold st_bind at 1.
  match goal with |- (match ?x with _ => _ end) = _ -> _ => destruct x as [s2 [u|]] eqn:E end; [|done].
  unfold st_bind. destruct (begin_lifetime _ _ _ _ _) as [s3 [[next changed]|]] eqn:Eb; [|done].
  intros [= <- <-]. apply begin_lifetime_spec in Eb as ([Hs Hh] & Hp & Hc).
  assert (hub_store (src_hub s2) = hub_store (src_hub s) /\ src_prefix (src s2) = src_prefix (src s)
    /\ src_resent (src s2) = set_resent_ids (phone_step (src_prefix (src s)) (phone_view s) (Event_Posted n)))
    as (E1 & E2 & E3).
  { cbn [phone_step phone_view set_resent_ids]. destruct (src_resent (src s)) as [r|] eqn:Er.
    - unfold st_bind, st_ensure, st_ret, st_fail, on_source in E. destruct (_ || _); [|done].
      by injection E as <- _.
    - injection E as <- _. by rewrite Er. }
  cbn zeta. rewrite Hs, Hh, E1, E2, E3. by split_and!.
Qed.

Lemma plan_removed_spec with_desktop i s s1 plan :
  plan_removed with_desktop i s = (s1, Ok plan) ->
  let v := phone_step (src_prefix (src s)) (phone_view s) (Event_Removed i) in
  hub_store (src_hub s1) = hub_store (src_hub s) /\ src_prefix (src s1) = src_prefix (src s)
  /\ src_resent (src s1) = set_resent_ids v /\ present_ids (plan_next plan) = alive v
  /\ (plan_changed plan = false -> plan_next plan = hub_store (src_hub s)).
Proof.
  unfold plan_removed. unfold st_bind at 1, st_get at 1.
  set (id := phone_id _ _). cbn [phone_step phone_view alive set_resent_ids]. fold id.
  set (store := hub_store (src_hub s)).
  assert (forall s1 plan, keeps s s1 -> id ∉ present_ids store -> plan_next plan = store ->
    plan_changed plan = false ->
    hub_store (src_hub s1) = store /\ src_prefix (src s1) = src_prefix (src s)
    /\ src_resent (src s1) = src_resent (src s) /\ present_ids (plan_next plan) = present_ids store ∖ {[id]}
    /\ (plan_changed plan = false -> plan_next plan = store)) as Hun.
  { intros x p [Hs Hh] Hid -> ->. rewrite Hs, Hh. split_and!; [done..| |done]. set_solver. }
  destruct (phone_instances store !! id) as [[inst [|]]|] eqn:E.
  { intros [= <- <-]. split_and!; [done..| |done]. cbn [plan_next].
    unfold present_ids. cbn [phone_instances with_instances]. apply present_end. }
  all: assert (id ∉ present_ids store) as Hid
    by (intros (e & He & Hp)%present_in_elem; rewrite E in He; by simplify_eq/=);
    destruct with_desktop; [|intros [= <- <-]; apply Hun; [by split|done..]];
    unfold st_bind at 1; (destruct (on_src_hub _ s) as [s2 [u|]] eqn:El; [|done]);
    pose proof (keeps_proj (A := unit) proj_load s) as Hk; rewrite El in Hk; cbn [fst] in Hk;
    unfold st_bind, st_get; destruct (proj_instance _ _); intros [= <- <-]; by apply Hun.
Qed.

Lemma plan_end_spec s s1 plan :
  plan_snapshot_end s = (s1, Ok plan) ->
  let v := phone_step (src_prefix (src s)) (phone_view s) Event_SnapshotEnd in
  hub_store (src_hub s1) = hub_store (src_hub s) /\ src_prefix (src s1) = src_prefix (src s)
  /\ src_resent (src s1) = set_resent_ids v /\ present_ids (plan_next plan) = alive v
  /\ (plan_changed plan = false -> plan_next plan = hub_store (src_hub s)).
Proof.
  unfold plan_snapshot_end. unfold st_bind at 1, st_get at 1.
  cbn [phone_step phone_view alive set_resent_ids].
  destruct (src_resent (src s)) as [r|] eqn:Er; [|done].
  unfold st_bind at 1, on_source. unfold st_bind at 1.
  set (s0 := {| src := set_src_resent None (src s); src_hub := src_hub s |}).
  set (store := hub_store (src_hub s)).
  match goal with |- (match ?x with _ => _ end) = _ -> _ =>
    destruct x as [s2 [[next changed]|]] eqn:E end; [|done].
  assert (s2 = s0 /\ phone_instances next = phone_instances store /\ (changed = false -> next = store))
    as (-> & Hi & Hn).
  { destruct (_ && _ && _); unfold st_bind, st_ensure, st_fail, st_ret in E;
      [destruct (_ || _); [|done]|]; by injection E as <- <- <-. }
  intros [= <- <-]. cbn [plan_next plan_changed plan_operations]. split_and!; try done.
  - unfold present_ids. cbn [phone_instances with_instances]. rewrite Hi. apply present_end_absent.
  - intros Hc. apply orb_false_iff in Hc as [Hc Ho]. apply negb_false_iff, bool_decide_eq_true in Ho.
    rewrite (Hn Hc) in *. apply absent_operations_nil in Ho. unfold with_instances. rewrite Ho.
    by destruct store.
Qed.

Lemma plan_event_spec with_desktop fresh event s s1 plan :
  plan_event with_desktop fresh event s = (s1, Ok plan) ->
  let v := phone_step (src_prefix (src s)) (phone_view s) event in
  hub_store (src_hub s1) = hub_store (src_hub s) /\ src_prefix (src s1) = src_prefix (src s)
  /\ src_resent (src s1) = set_resent_ids v /\ present_ids (plan_next plan) = alive v
  /\ (plan_changed plan = false -> plan_next plan = hub_store (src_hub s)).
Proof.
  destruct event; cbn [plan_event]; [apply plan_posted_spec|apply plan_removed_spec|done|apply plan_end_spec].
Qed.

End Lifetimes.

Section Events.
Context {D : Type} `{Shell D} (digest : SharedNotification -> string).
Context (config : NotificationConfig) (identity : string) (json_len : Store -> Z).

Lemma queue_local_instances key content coord s :
  phone_instances (queue_local key content coord s).1 = phone_instances s.
Proof.
  unfold queue_local, st_bind, st_get, st_put, st_ret, st_ensure, st_lift, st_fail.
  destruct (is_some_and _ _); [done|]. destruct (ok_or _ _); [|done].
  destruct (validate_key key); [|done].
  pose proof (check_local_state (local_identity s) key content (with_sequence a s)) as Hst.
  destruct (check_local _ _ _ _) as [s1 [?|?]]; simpl in Hst; subst s1; [|done].
  destruct coord; [|by destruct (_ && _)].
  destruct (store_apply _ _ _) as [[s2 b]|] eqn:Ea; [|done].
  apply store_apply_cases in Ea as (E & _). cbn. by rewrite E.
Qed.

Lemma queue_all_instances ops : forall s,
  phone_instances (queue_all config identity ops s).1 = phone_instances s.
Proof.
  induction ops as [|[instance content] ops IH]; intros s; [done|]. cbn [queue_all].
  pose proof (queue_local_instances (shared_key identity instance) content
                (is_coordinator config identity) s) as Hi.
  unfold st_bind at 1. destruct (queue_local _ _ _ s) as [s1 [a|]]; [|done].
  unfold st_bind. specialize (IH s1). destruct (queue_all _ _ ops s1) as [s2 [b|]];
    cbn in *; congruence.
Qed.

Lemma queue_all_unchanged ops : forall s s', queue_all config identity ops s = (s', Ok false) -> s' = s.
Proof.
  induction ops as [|[instance content] ops IH]; intros s s'; [by intros [= <-]|]. cbn [queue_all].
  unfold st_bind at 1. destruct (queue_local _ _ _ s) as [s1 [a|]] eqn:Hq; [|done].
  unfold st_bind. destruct (queue_all _ _ ops s1) as [s2 [b|]] eqn:Ha; [|done].
  intros [= <- [-> ->]%orb_false_iff]. apply queue_local_cases in Hq as [(_ & -> & _)|(n & ? & _)]; [|done].
  by apply IH.
Qed.

(** A successful event and the lifetimes. *)
Lemma apply_inner_follows with_desktop fresh event s s' :
  apply_inner digest config identity json_len with_desktop fresh event s = (s', Ok tt) ->
  src_prefix (src s') = src_prefix (src s)
  /\ phone_view s' = phone_step (src_prefix (src s)) (phone_view s) event.
Proof.
  intros Ha. assert (event = Event_SnapshotStart \/ event <> Event_SnapshotStart) as [->|Hev]
    by (destruct event; (by left) || (by right)).
  { unfold apply_inner, st_bind, st_get, st_ensure, st_fail, on_source, st_ret in Ha.
    destruct (bool_decide _); [|done]. by injection Ha as <-. }
  apply apply_inner_Ok in Ha as (plan & s1 & plan' & s2 & s3 & b & s4 & Hp & Hm & Hc & Hd & ->); [|done].
  apply plan_event_spec in Hp as (Hs1 & Hx1 & Hr1 & Hal & Hun).
  pose proof (mask_keeps with_desktop plan s1) as Hk2. rewrite Hm in Hk2. destruct Hk2 as [Hk2 Hh2].
  assert (plan_next plan' = plan_next plan /\ plan_changed plan' = plan_changed plan) as [En Ec].
  { destruct with_desktop; cbn [mask_plan] in Hm; [|by injection Hm as _ <-].
    unfold st_bind at 1 in Hm. destruct (on_src_hub _ s1) as [? [|]]; [|done].
    unfold st_bind, st_get, st_ret in Hm. by injection Hm as _ <-. }
  apply commit_plan_spec in Hc as (Hsc & next & q & Hq & Hb & Hstore).
  unfold deliver in Hd. pose proof (deliver_plan_keeps digest identity with_desktop
    (bool_decide (src_resent (src s) = None) && is_posted event) (is_removed event) (is_end event)
    (src_resent (src s)) plan' s3) as Hk4. rewrite Hd in Hk4. destruct Hk4 as [Hk4 Hh4].
  cbn [fst] in *.
  assert (src (published b s4) = src s1) as Es by (destruct b; cbn; congruence).
  assert (present_ids (hub_store (src_hub (published b s4)))
          = alive (phone_step (src_prefix (src s)) (phone_view s) event)) as Hpres.
  { assert (hub_store (src_hub (published b s4)) = hub_store (src_hub s3)) as ->
      by (by destruct b; cbn).
    rewrite Hstore, <- Hal, <- En. destruct b.
    - unfold present_ids. pose proof (queue_all_instances (plan_operations plan') (plan_next plan')) as Hi.
      rewrite Hq in Hi. cbn [fst] in Hi. by rewrite Hi.
    - symmetry in Hb. apply orb_false_iff in Hb as [Hb1 ->]. rewrite Hh2, Hs1.
      rewrite En, Hun by congruence. done. }
  rewrite Es. split; [done|]. unfold phone_view at 1. rewrite Es, Hpres, Hr1.
  by destruct (phone_step _ _ _).
Qed.

(** A phone's events, in order; [fresh] is what the random source gives for each. *)
Fixpoint run_events (with_desktop : bool) (events : list (result string string * NotificationEvent)) :
  stateful (Source (D := D)) string unit :=
  match events with
  | [] => st_ret tt
  | (fresh, event) :: events =>
      do! apply_with_desktop digest config identity json_len with_desktop fresh event;;
      run_events with_desktop events
  end.

Lemma apply_with_desktop_Ok with_desktop fresh event s s' :
  apply_with_desktop digest config identity json_len with_desktop fresh event s = (s', Ok tt) ->
  apply_inner digest config identity json_len with_desktop fresh event s = (s', Ok tt).
Proof.
  unfold apply_with_desktop, st_bind at 1, attempt.
  destruct (apply_inner _ _ _ _ _ _ _ s) as [s1 [[]|e]]; cbn [fst snd]; [done|].
  unfold st_bind, st_get, st_fail. intros Hx. cases_in Hx.
Qed.

Lemma run_events_follow with_desktop events : forall s s',
  run_events with_desktop events s = (s', Ok tt) ->
  src_prefix (src s') = src_prefix (src s)
  /\ phone_view s' = fold_left (phone_step (src_prefix (src s))) (map snd events) (phone_view s).
Proof.
  induction events as [|[fresh event] events IH]; intros s s' Hr; [by injection Hr as <-|].
  cbn [run_events] in Hr. apply st_bind_Ok in Hr as (s1 & [] & Ha & Hr).
  apply apply_with_desktop_Ok, apply_inner_follows in Ha as [Hp Hv].
  destruct (IH _ _ Hr) as [Hp' Hv']. rewrite Hp in *. cbn [map fold_left snd]. rewrite <- Hv. by split.
Qed.
End Events.

(** ** Queued operations *)

Lemma queue_local_gone key content coord s : gone key s -> queue_local key content coord s = (s, Ok false).
Proof.
  intros (r & Hr & Hc). unfold queue_local, st_bind, st_get. fold (view_find key s).
  rewrite Hr. cbn [is_some_and]. by rewrite bool_decide_eq_true_2.
Qed.

Lemma hub_ok_instances coord f s : hub_ok coord s -> hub_ok coord (with_instances f s).
Proof. intros [[] ? ? ?]. by split; [split|..]. Qed.

Lemma gone_instances coord f s key : hub_ok coord s -> gone key s -> gone key (with_instances f s).
Proof.
  intros Hk (r & Hr & Hc). exists r. split; [|done]. rewrite <- Hr.
  assert (forall x, hub_ok coord x -> hub_ok false x \/ hub_ok true x) as Hor
    by (intros x ?; destruct coord; auto).
  rewrite !view_find_spec by auto using hub_ok_instances. done.
Qed.

Lemma queue_all_gone config identity ops : forall s s' b, hub_ok (is_coordinator config identity) s ->
  queue_all config identity ops s = (s', Ok b) ->
  hub_ok (is_coordinator config identity) s'
  /\ (forall key, gone key s -> gone key s')
  /\ (forall i, (i, None) ∈ ops -> gone (shared_key identity i) s').
Proof.
  induction ops as [|[i c] ops IH]; intros s s' b Hk Hq.
  { injection Hq as <- _. split_and!; [done|done|]. intros i Hi. by apply not_elem_of_nil in Hi. }
  cbn [queue_all] in Hq. apply st_bind_Ok in Hq as (s1 & a & Hl & Hq).
  apply st_bind_Ok in Hq as (s2 & b' & Ha & Hq). injection Hq as <- _.
  destruct (queue_local_view _ _ _ _ _ _ Hk Hl) as (Hk1 & Ho & Hg).
  destruct (IH _ _ _ Hk1 Ha) as (Hk2 & Hkeep & Hall). split_and!; [done| |].
  - intros key Hkey. apply Hkeep. destruct (decide (key = shared_key identity i)) as [->|Hne].
    + rewrite (queue_local_gone _ _ _ _ Hkey) in Hl. by injection Hl as <- _.
    + destruct Hkey as (r & Hr & Hc). exists r. by rewrite Ho.
  - intros j [[= -> <-]|Hj]%elem_of_cons; [by apply Hkeep, Hg|by apply Hall].
Qed.

Lemma mask_plan_Ok {D} `{Shell D} with_desktop plan (s s' : Source (D := D)) plan' :
  mask_plan with_desktop plan s = (s', Ok plan') ->
  plan_next plan' = plan_next plan /\ plan_changed plan' = plan_changed plan
  /\ (forall i, (i, None) ∈ plan_operations plan -> (i, None) ∈ plan_operations plan')
  /\ (plan_operations plan' = [] -> plan_operations plan = []).
Proof.
  destruct with_desktop; cbn [mask_plan]; [|by intros [= _ <-]].
  unfold st_bind at 1. destruct (on_src_hub _ s) as [s1 [u|]]; [|done].
  unfold st_bind, st_get, st_ret. intros [= _ <-]. cbn. split_and!; [done|done| |].
  - intros i Hi. apply list_elem_of_fmap. exists (i, None). split; [|done]. cbn. by destruct (proj_dismissed _ _).
  - by destruct (plan_operations plan).
Qed.

Lemma plan_end_operations {D} (s s1 : Source (D := D)) present plan :
  src_resent (src s) = Some present -> plan_snapshot_end s = (s1, Ok plan) ->
  plan_operations plan = absent_operations (src_prefix (src s)) present (phone_instances (hub_store (src_hub s)))
  /\ (plan_operations plan <> [] -> plan_changed plan = true)
  /\ (forall coord, hub_ok coord (hub_store (src_hub s)) -> hub_ok coord (plan_next plan)
        /\ forall key, gone key (hub_store (src_hub s)) -> gone key (plan_next plan)).
Proof.
  intros Er. unfold plan_snapshot_end. unfold st_bind at 1, st_get at 1. rewrite Er.
  unfold st_bind at 1, on_source. unfold st_bind at 1.
  set (store := hub_store (src_hub s)).
  match goal with |- (match ?x with _ => _ end) = _ -> _ =>
    destruct x as [s2 [[next changed]|]] eqn:E end; [|done].
  assert (phone_instances next = phone_instances store
          /\ forall coord, hub_ok coord store ->
               hub_ok coord next /\ forall key, gone key store -> gone key next) as [Hi Hn].
  { assert (forall f coord, hub_ok coord store -> hub_ok coord (with_imports f store)
        /\ forall key, gone key store -> gone key (with_imports f store)) as Himp.
    { intros f coord Hk. assert (hub_ok coord (with_imports f store)) as Hk'
        by (destruct Hk as [[] ? ? ?]; by split; [split|..]).
      split; [done|]. intros key (r & Hr & Hc). exists r. split; [|done]. rewrite <- Hr.
      assert (forall x, hub_ok coord x -> hub_ok false x \/ hub_ok true x) as Hor
        by (intros x ?; destruct coord; auto).
      rewrite !view_find_spec by auto. done. }
    destruct (_ && _ && _); unfold st_bind, st_ensure, st_fail, st_ret in E;
      [destruct (_ || _); [|done]|]; injection E as _ <- _; auto. }
  intros [= _ <-]. cbn [plan_operations plan_changed plan_next]. rewrite Hi. split_and!; [done| |].
  - intros Ho. by rewrite bool_decide_eq_false_2, orb_true_r.
  - intros coord Hk. destruct (Hn _ Hk) as [Hk' Hg]. split; [by apply hub_ok_instances|].
    intros key Hkey. eapply gone_instances; [done|by apply Hg].
Qed.

(** ** What the history shows *)

(** What a notification's record says, as the program looks it up: nothing, its content, or that it was removed. *)
Definition shown (s : Store) (key : NotificationKey) : option (option SharedNotification) :=
  rec_content <$> view_find key s.
(** The history once told of a notification's content, or of its removal: a removal is final. *)
Definition tell (key : NotificationKey) (content : option SharedNotification)
    (h : NotificationKey -> option (option SharedNotification)) (k : NotificationKey) :
  option (option SharedNotification) :=
  if decide (k = key) then Some (match h key with Some None => None | _ => content end) else h k.

(** A computer never numbered one of its own notifications above its counter. *)
Definition own_ok (identity : string) (s : Store) : Prop := forall key r,
  key_origin key = identity -> List.find (is_key key) (records s) = Some r ->
  rec_source_sequence r <= store_sequence s.

Lemma store_apply_sequence s sender op s' b r : store_apply s sender op = Ok (s', b) ->
  List.find (is_key (op_key op)) (records s') = Some r ->
  rec_source_sequence r <= op_sequence op
  \/ exists r0, List.find (is_key (op_key op)) (records s) = Some r0 /\ rec_source_sequence r = rec_source_sequence r0.
Proof.
  unfold store_apply. destruct (check_operation sender op); [|done].
  destruct (List.find _ _) as [r0|] eqn:Ef.
  - case_bool_decide as Ec; [intros [= <- _] Hr; right; exists r0; by simplify_eq|].
    destruct (_ || _).
    + intros [= <- _]. cbn [records with_records]. erewrite find_update_same by done. intros [= <-]. cbn.
      case_bool_decide; [by left|right]. by exists r0.
    + intros [= <- _] Hr. right. exists r0. by simplify_eq.
  - destruct (_ <? _); [|done]. intros [= <- _]. cbn [records with_records].
    rewrite find_app_record, Ef. case_match; intros [= <-]. by left.
Qed.

(** What an accepted post of a newer number leaves. *)
Lemma store_apply_posts s sender op s' b c : store_apply s sender op = Ok (s', b) -> op_content op = Some c ->
  (forall r, List.find (is_key (op_key op)) (records s) = Some r ->
     rec_content r <> None /\ rec_source_sequence r < op_sequence op) ->
  exists r, List.find (is_key (op_key op)) (records s') = Some r /\ rec_content r = Some c.
Proof.
  intros Ha Hc Hr. revert Ha. unfold store_apply. destruct (check_operation sender op); [|done].
  destruct (List.find _ _) as [r0|] eqn:Ef.
  - destruct (Hr _ eq_refl) as [Hn Hs]. rewrite (bool_decide_eq_false_2 _ Hn), (proj2 (Z.ltb_lt _ _)), orb_true_r by lia.
    intros [= <- _]. cbn [records with_records]. erewrite find_update_same by done. eexists. split; [done|]. done.
  - destruct (_ <? _); [|done]. intros [= <- _]. cbn [records with_records].
    rewrite find_app_record, Ef. unfold is_key. rewrite bool_decide_eq_true_2 by done. by eexists.
Qed.

Lemma overlay_posted sender op cur c : check_operation sender op = Ok tt -> op_content op = Some c ->
  (forall r, cur = Some r -> rec_key r = op_key op /\ rec_content r <> None
     /\ rec_source_sequence r < op_sequence op) ->
  exists r, last (records (apply_ignoring sender (overlay_of cur) op)) = Some r /\ rec_content r = Some c.
Proof.
  intros Hc Hn Hcur. unfold apply_ignoring, store_apply. rewrite Hc, Hn.
  destruct cur as [r|]; cbn [overlay_of records with_records List.find Store_default].
  - destruct (Hcur _ eq_refl) as (H1 & H2 & H3). unfold is_key. rewrite bool_decide_true by auto.
    rewrite (bool_decide_eq_false_2 _ H2), (proj2 (Z.ltb_lt _ _)), orb_true_r by lia.
    cbn [records with_records update_record]. unfold is_key. rewrite bool_decide_true by auto. cbn. by eexists.
  - cbn. by eexists.
Qed.

Lemma queue_local_checked coord s key c s' : queue_local key (Some c) coord s = (s', Ok true) ->
  validate_content c = Ok tt /\ key_origin key = local_identity s.
Proof.
  unfold queue_local, st_bind, st_get, st_put, st_ret, st_ensure, st_lift, st_fail.
  destruct (is_some_and _ _); [done|]. destruct (ok_or _ _); [|done].
  destruct (validate_key key); [|done]. cbn [check_local].
  unfold check_local, st_bind, st_lift, st_ensure, st_ret, st_fail. cbn [local_identity with_sequence].
  destruct (validate_content c) as [[]|]; [|done]. destruct (str_eqb _ _) eqn:E; [|done].
  intros _. split; [done|]. by reflect_bools.
Qed.

(** Some lookup is the program's. *)
Lemma hub_ok_either coord s : hub_ok coord s -> hub_ok false s \/ hub_ok true s.
Proof. destruct coord; auto. Qed.
(** What is shown depends on records and outbox only. *)
Definition same_history (s s' : Store) : Prop :=
  records s' = records s /\ pending_operations s' = pending_operations s
  /\ local_identity s' = local_identity s /\ store_sequence s' = store_sequence s.
Lemma same_history_shows coord s s' : hub_ok coord s -> same_history s s' ->
  hub_ok coord s' /\ forall key, shown s' key = shown s key.
Proof.
  intros Hk (E1 & E2 & E3 & E4). assert (hub_ok coord s') as Hk'.
  { destruct Hk as [[] ? ? ?]. split; [split|..]; rewrite ?E1, ?E2, ?E4; done. }
  split; [done|]. intros key. unfold shown. rewrite !view_find_spec by (by eapply hub_ok_either).
  by rewrite E1, E2, E3.
Qed.

Lemma record_gone coord s key r : hub_ok coord s -> List.find (is_key key) (records s) = Some r ->
  rec_content r = None -> gone key s.
Proof.
  intros Hk Hr Hc. exists r. split; [|done]. rewrite view_find_spec by (by eapply hub_ok_either).
  rewrite Hr. destruct (List.find _ (pending_operations s)) as [op|] eqn:Eo; [|done].
  apply List.find_some in Eo as [_ Eo]. apply bool_decide_eq_true in Eo.
  unfold apply_ignoring, store_apply. destruct (check_operation _ _); [|done].
  cbn [overlay_of records with_records List.find]. apply find_key in Hr.
  unfold is_key. rewrite bool_decide_eq_true_2 by congruence. by rewrite bool_decide_eq_true_2.
Qed.

(** A change of a notification of this computer is a step of [tell]. *)
Lemma queue_local_posts identity coord s key c s' : hub_ok coord s -> own_ok identity s ->
  key_origin key = identity -> queue_local key (Some c) coord s = (s', Ok true) ->
  hub_ok coord s' -> shown s' key = Some (Some c).
Proof.
  intros Hk Hown Hid Hq Hk'. pose proof (queue_local_checked _ _ _ _ _ Hq) as [Hval Horig].
  pose proof (hk_sequence _ _ Hk) as Hseq.
  assert (forall r, List.find (is_key key) (records s) = Some r ->
    rec_content r <> None /\ rec_source_sequence r < store_sequence s + 1) as Hnew.
  { intros r Hr. split; [|specialize (Hown _ _ Hid Hr); lia]. intros Hc.
    rewrite (queue_local_gone key (Some c) coord s) in Hq; [done|]. by eapply record_gone. }
  unfold shown. rewrite view_find_spec by (by eapply hub_ok_either).
  apply queue_local_cases in Hq as [(? & _)|(n & _ & -> & Hv & Hq)]; [done|].
  destruct coord.
  - destruct Hq as [ch Ha]. pose proof (hk_outbox _ _ Hk eq_refl) as Hp.
    pose proof Ha as Ha'. apply store_apply_cases in Ha' as (E & _). rewrite E.
    cbn [pending_operations with_records with_sequence records]. rewrite Hp. cbn [List.find].
    destruct (store_apply_posts _ _ _ _ _ c Ha eq_refl) as (r & Hr & Hc); [exact Hnew|].
    cbn [op_key] in Hr. by rewrite Hr; cbn; rewrite Hc.
  - destruct Hq as (-> & _). cbn [pending_operations with_pending_operations records with_sequence local_identity].
    destruct (kept_operations key _ (ok_pending_keys _ (hk_store _ _ Hk))) as (_ & Hnk & _).
    rewrite find_app_none.
    2: { apply find_none_forall. intros o Ho. apply bool_decide_eq_false. intros E. apply Hnk.
         apply list_elem_of_fmap. exists o. split; [done|by apply list_elem_of_In]. }
    cbn [List.find op_key]. rewrite bool_decide_true by done.
    match goal with |- context [overlay_of ?cur] =>
      match goal with |- context [apply_ignoring ?snd _ ?op] =>
        destruct (overlay_posted snd op cur c) as (r & Hr & Hc) end end; [|done| |by rewrite Hr; cbn; rewrite Hc].
    + unfold check_operation. cbn. rewrite Hv, (proj2 (Z.ltb_lt _ _)) by lia. rewrite Horig, str_eqb_refl, Hval. done.
    + intros r Hr. cbn [op_key op_sequence]. split; [by apply find_key in Hr|by apply Hnew].
Qed.

Lemma queue_local_own identity coord s key content s' b : own_ok identity s ->
  queue_local key content coord s = (s', Ok b) -> own_ok identity s'.
Proof.
  intros Hown Hq. apply queue_local_cases in Hq as [(_ & -> & _)|(n & _ & -> & _ & Hq)]; [done|].
  destruct coord.
  - destruct Hq as [c Ha]. intros k r Hk Hr. pose proof (store_apply_find _ _ _ _ _ Ha) as [Ho _].
    pose proof Ha as Ha'. apply store_apply_cases in Ha' as (E & _). rewrite E. cbn [store_sequence with_records with_sequence].
    cbn [op_key] in Ho. destruct (decide (k = key)) as [->|Hne].
    + destruct (store_apply_sequence _ _ _ _ _ _ Ha Hr) as [Hs|(r0 & Hr0 & ->)]; [exact Hs|].
      specialize (Hown _ _ Hk Hr0). lia.
    + rewrite Ho in Hr by done. specialize (Hown _ _ Hk Hr). lia.
  - destruct Hq as (-> & _). intros k r Hk Hr. specialize (Hown _ _ Hk Hr). cbn. lia.
Qed.

Lemma queue_local_tells identity coord s key content s' b : hub_ok coord s -> own_ok identity s ->
  key_origin key = identity -> queue_local key content coord s = (s', Ok b) ->
  hub_ok coord s' /\ own_ok identity s' /\ forall k, shown s' k = tell key content (shown s) k.
Proof.
  intros Hk Hown Hid Hq. destruct (queue_local_view _ _ _ _ _ _ Hk Hq) as (Hk' & Ho & Hg).
  split; [done|]. split; [by eapply queue_local_own|]. intros k. unfold tell.
  case_decide as Ekk; [subst k|unfold shown; by rewrite Ho].
  destruct b.
  - destruct (shown s key) as [[]|] eqn:Es.
    2: { unfold shown in Es. destruct (view_find key s) as [r|] eqn:Er; [|done]. injection Es as Es.
         rewrite queue_local_gone in Hq; [done|]. by exists r. }
    all: destruct content as [c|]; [exact (queue_local_posts identity coord s key c s' Hk Hown Hid Hq Hk')|];
      destruct (Hg eq_refl) as (r & Hr & Hc); unfold shown; rewrite Hr; cbn; by rewrite Hc.
  - apply queue_local_cases in Hq as [(_ & -> & r & Hr & Hc)|(? & ? & _)]; [|done].
    unfold shown. rewrite Hr. cbn. destruct Hc as [-> | ->]; [done|]. by destruct content.
Qed.

(** What a list of operations leaves. *)
Definition tell_all (identity : string) (ops : list (string * option SharedNotification))
    (h : NotificationKey -> option (option SharedNotification)) :
  NotificationKey -> option (option SharedNotification) :=
  fold_left (fun h o => tell (shared_key identity o.1) o.2 h) ops h.
Lemma tell_same key content h h' : (forall k, h k = h' k) -> forall k, tell key content h k = tell key content h' k.
Proof. intros E k. unfold tell. by rewrite !E. Qed.
Lemma tell_all_same identity ops : forall h h', (forall k, h k = h' k) ->
  forall k, tell_all identity ops h k = tell_all identity ops h' k.
Proof.
  induction ops as [|o ops IH]; intros h h' E k; [apply E|]. cbn. apply IH. by apply tell_same.
Qed.
Lemma queue_all_tells config identity ops : forall s s' b,
  hub_ok (is_coordinator config identity) s -> own_ok identity s ->
  queue_all config identity ops s = (s', Ok b) ->
  hub_ok (is_coordinator config identity) s' /\ own_ok identity s'
  /\ forall k, shown s' k = tell_all identity ops (shown s) k.
Proof.
  induction ops as [|[i c] ops IH]; intros s s' b Hk Hown Hq; [by injection Hq as <- _|].
  cbn [queue_all] in Hq. apply st_bind_Ok in Hq as (s1 & a & Hl & Hq).
  apply st_bind_Ok in Hq as (s2 & b' & Ha & Hq). injection Hq as <- _.
  destruct (queue_local_tells identity _ _ (shared_key identity i) _ _ _ Hk Hown eq_refl Hl) as (Hk1 & Hown1 & E1).
  destruct (IH _ _ _ Hk1 Hown1 Ha) as (Hk2 & Hown2 & E2). split_and!; [done|done|].
  intros k. rewrite E2. cbn. by apply tell_all_same.
Qed.
(** Removals in any order. *)
Lemma tell_removals identity ops h k : (forall i c, (i, c) ∈ ops -> c = None) ->
  (k ∈ (fun o => shared_key identity o.1) <$> ops -> tell_all identity ops h k = Some None)
  /\ (k ∉ (fun o => shared_key identity o.1) <$> ops -> tell_all identity ops h k = h k).
Proof.
  revert h. induction ops as [|[i c] ops IH]; intros h Hn.
  { cbn. split; [by intros ?%not_elem_of_nil|done]. }
  assert (c = None) as -> by (apply (Hn i); left).
  destruct (IH (tell (shared_key identity i) None h)) as [I1 I2]; [intros j c Hj; apply (Hn j); by right|].
  change (tell_all identity ((i, None) :: ops) h k) with (tell_all identity ops (tell (shared_key identity i) None h) k).
  rewrite fmap_cons, elem_of_cons. cbn [fst].
  assert (tell (shared_key identity i) None h (shared_key identity i) = Some None) as Hi.
  { unfold tell. rewrite decide_True by done. by destruct (h _) as [[]|]. }
  split.
  - intros [->|Hin]; [|by apply I1].
    destruct (decide (shared_key identity i ∈ (fun o : string * option SharedNotification => shared_key identity o.1) <$> ops));
      [by apply I1|]. etrans; [by apply I2|exact Hi].
  - intros Hno. etrans; [apply I2; tauto|]. unfold tell. by rewrite decide_False by tauto.
Qed.

Section Follows.
Context {D : Type} `{Shell D} (digest : SharedNotification -> string).
Context (config : NotificationConfig) (identity : string) (json_len : Store -> Z).

(** What the desktop has of the phones' notifications, which is read before it is looked at. *)
Definition desktop_cache (s : Source (D := D)) : PhoneProjections :=
  proj (proj_load (hub_projections (src_hub s))).1.

(** The instance that a removal by the phone ends: the one that is present, or with a desktop one that
    it still shows. *)
Definition ended_instance (with_desktop : bool) (id : Z) (s : Source (D := D)) : option string :=
  let id := phone_id (src_prefix (src s)) id in
  match phone_instances (hub_store (src_hub s)) !! id with
  | Some {| phone_instance := instance; phone_present := true |} => Some instance
  | _ => if with_desktop then proj_instance (id ++ "/") (desktop_cache s) else None
  end.
(** A lifetime that goes on keeps its instance; a new one is named by the fresh epoch, or after
    what the desktop still shows. *)
Definition instance_of_post (with_desktop : bool) (fresh : result string string) (id : string)
    (e : PhoneInstance) (s : Source (D := D)) : Prop :=
  phone_instances (hub_store (src_hub s)) !! id = Some e
  \/ is_some_and phone_present (phone_instances (hub_store (src_hub s)) !! id) = false
     /\ exists epoch, fresh = Ok epoch
        /\ (phone_instance e = (id ++ "/" ++ epoch)%string
            \/ with_desktop = true /\ proj_instance (id ++ "/") (desktop_cache s) = Some (phone_instance e)).

(** What an event that succeeds does to the history as the program looks it up. *)
Definition event_follows (with_desktop : bool) (fresh : result string string) (event : NotificationEvent)
    (s s' : Source (D := D)) : Prop :=
  let store := hub_store (src_hub s) in
  let store' := hub_store (src_hub s') in
  let prefix := src_prefix (src s) in
  match event with
  | Event_Posted n =>
      let id := phone_id prefix (pn_id n) in
      exists e, phone_instances store' !! id = Some e /\ phone_present e = true
      /\ instance_of_post with_desktop fresh id e s
      /\ let content := if with_desktop && proj_dismissed (phone_instance e) (desktop_cache s) then None
                        else Some (shared_content n (src_name (src s))) in
         forall key, shown store' key = tell (shared_key identity (phone_instance e)) content (shown store) key
  | Event_Removed id =>
      forall key, shown store' key
        = match ended_instance with_desktop id s with
          | Some instance => tell (shared_key identity instance) None (shown store) key
          | None => shown store key
          end
  | Event_SnapshotStart => store' = store
  | Event_SnapshotEnd =>
      exists present, src_resent (src s) = Some present
      /\ forall key,
           let absent := exists id e, phone_instances store !! id = Some e
                           /\ is_absent prefix present (id, e) /\ key = shared_key identity (phone_instance e) in
           (absent /\ shown store' key = Some None) \/ (~ absent /\ shown store' key = shown store key)
  end.

Lemma proj_load_twice (w w1 : Projected D) u : proj_load w = (w1, Ok u) -> proj_load w1 = (w1, Ok tt).
Proof.
  unfold proj_load. intros E. unbind E s1 x1 E1. injection E1 as <- <-. unbind E s2 o E2.
  unbind E s3 x3 E3. injection E as <- _.
  assert (s2 = w /\ shell_generation (desk w) = Ok o) as [-> Eg] by (unfold st_lift in E2; by injection E2).
  assert (desk s3 = desk w /\ loaded (proj s3) = true) as [Ed El].
  { destruct (loaded (proj w)) eqn:El; [by injection E3 as <- _|].
    unbind E3 s4 f E4. injection E3 as <- _. unfold st_lift in E4. injection E4 as <- _. done. }
  unfold st_bind, st_get, st_lift, set_proj. cbn [desk proj]. rewrite Ed, Eg. cbn [fst snd].
  assert (forall p : PhoneProjections, loaded p = true ->
    loaded (if str_eqb (proj_owner p) o then p else {| proj_owner := o; proj_entries := ∅; loaded := loaded p |}) = true
    /\ str_eqb (proj_owner (if str_eqb (proj_owner p) o then p
         else {| proj_owner := o; proj_entries := ∅; loaded := loaded p |})) o = true) as Hp.
  { intros p Hl. destruct (str_eqb (proj_owner p) o) eqn:Eo; [by split|]. split; [done|]. apply str_eqb_refl. }
  destruct (Hp _ El) as [-> H2]. unfold st_ret. cbn. by rewrite H2.
Qed.

(** A plan looks at the cache at most. *)
Definition looks (s s1 : Source (D := D)) : Prop := desktop_cache s1 = desktop_cache s.
Lemma looks_load (s s1 : Source (D := D)) u : on_src_hub (on_proj proj_load) s = (s1, Ok u) ->
  looks s s1 /\ keeps s s1 /\ proj (hub_projections (src_hub s1)) = desktop_cache s.
Proof.
  unfold on_src_hub, on_proj. destruct (proj_load (hub_projections (src_hub s))) as [w1 r] eqn:E.
  cbn. intros [= <- ->]. apply proj_load_twice in E as E2.
  split; [|split; [by split|]]; unfold looks, desktop_cache; cbn [src_hub hub_projections with_projections]; by rewrite ?E2, E.
Qed.

Lemma plan_posted_operations with_desktop fresh n s s1 plan :
  plan_posted with_desktop fresh n s = (s1, Ok plan) ->
  let id := phone_id (src_prefix (src s)) (pn_id n) in
  looks s s1 /\ same_history (hub_store (src_hub s)) (plan_next plan)
  /\ exists e, phone_instances (plan_next plan) !! id = Some e /\ phone_present e = true
     /\ instance_of_post with_desktop fresh id e s
     /\ plan_operations plan = [(phone_instance e, Some (shared_content n (src_name (src s))))].
Proof.
  unfold plan_posted. intros E. unbind E s0 x0 E0. injection E0 as <- <-. unbind E s2 x2 E2.
  assert (desktop_cache s2 = desktop_cache s) as Ec2.
  { destruct (src_resent (src s)); [|by injection E2 as <- _].
    unbind E2 s3 x3 E3. unfold st_ensure in E3. destruct (_ || _); [|done]. injection E3 as <- _.
    by injection E2 as <- _. }
  apply st_bind_Ok in E as (s4 & [next changed] & E4 & E). injection E as <- <-. cbn [plan_next plan_operations].
  set (id := phone_id _ _) in *. set (store := hub_store (src_hub s)) in *.
  unfold begin_lifetime in E4. destruct (phone_instances store !! id) as [e|] eqn:El;
    [destruct (phone_present e) eqn:Ep|]; cbn [is_some_and] in E4; rewrite ?Ep in E4.
  1: { injection E4 as <- <- _. split; [exact Ec2|]. split; [by repeat split|]. exists e. split_and!; [done|done| |by rewrite El].
       by left. }
  all: apply st_bind_Ok in E4 as (s5 & [next0 cached] & E5 & E4);
    assert (looks s2 s5 /\ same_history store next0
      /\ (cached = None \/ with_desktop = true /\ cached = proj_instance (id ++ "/") (desktop_cache s2)))
      as (Hl5 & Hs5 & Hc5) by
      (unfold find_cached in E5; destruct with_desktop; [|injection E5 as <- <- <-; split; [done|split; [by repeat split|by left]]];
       unbind E5 s6 x6 E6; destruct (looks_load _ _ _ E6) as (Hl & _ & Hp);
       unbind E5 s7 x7 E7; injection E7 as <- <-; injection E5 as <- <- <-; rewrite Hp;
       (split; [done|split; [destruct (MAX_RECORDS <=? _); by repeat split|match goal with |- context [contains_key ?a ?b] => destruct (contains_key a b) end; [by left|by right]]]));
    unbind E4 s8 x8 E8; unfold st_ensure in E8; (destruct (_ || _); [|done]); injection E8 as <- _;
    unbind E4 s9 ep E9; unfold st_lift in E9; injection E9 as <- Ef; injection E4 as <- <- _;
    (split; [unfold looks in *; congruence|]); (split; [exact Hs5|]);
    cbn [phone_instances with_instances]; rewrite lookup_insert_eq; eexists; (split; [done|]);
    (split; [done|]); (split; [|done]); right; fold store; rewrite El; cbn [is_some_and phone_instance];
    (split; [done|]); exists ep; (split; [exact Ef|]);
    (destruct Hc5 as [->|[-> Hc5]]; [by left|]); rewrite <- Ec2, <- Hc5;
    (destruct cached; [by right|by left]).
Qed.

Lemma plan_removed_operations with_desktop id s s1 plan :
  plan_removed with_desktop id s = (s1, Ok plan) ->
  looks s s1 /\ same_history (hub_store (src_hub s)) (plan_next plan)
  /\ plan_operations plan = match ended_instance with_desktop id s with Some i => [(i, None)] | None => [] end.
Proof.
  unfold plan_removed, ended_instance. intros E. unbind E s0 x0 E0. injection E0 as <- <-.
  destruct (phone_instances _ !! _) as [[i [|]]|] eqn:El; [injection E as <- <-; by repeat split|..];
    (destruct with_desktop; [|injection E as <- <-; by repeat split]);
    unbind E s2 x2 E2; destruct (looks_load _ _ _ E2) as (Hl & _ & Hp);
    unbind E s3 x3 E3; injection E3 as <- <-; rewrite Hp in E;
    destruct (proj_instance _ _); injection E as <- <-; by repeat split.
Qed.

(** The operations as they are queued, without what the desktop dismissed. *)
Definition masked (with_desktop : bool) (cache : PhoneProjections) (ops : list (string * option SharedNotification)) :=
  map (fun o => (o.1, if with_desktop && proj_dismissed o.1 cache then None else o.2)) ops.

(** An event other than the start of a snapshot tells the history the operations of its plan. *)
Lemma apply_inner_queues with_desktop fresh event (s s' : Source (D := D)) : event <> Event_SnapshotStart ->
  apply_inner digest config identity json_len with_desktop fresh event s = (s', Ok tt) ->
  exists plan s1 q, plan_event with_desktop fresh event s = (s1, Ok plan)
    /\ queue_all config identity (masked with_desktop (desktop_cache s1) (plan_operations plan)) (plan_next plan)
       = (hub_store (src_hub s'), Ok q).
Proof.
  intros Hev Ha. apply apply_inner_Ok in Ha as (plan & s1 & plan' & s2 & s3 & b & s4 & Hp & Hm & Hc & Hd & ->); [|done].
  exists plan, s1.
  pose proof (mask_keeps with_desktop plan s1) as Hk2. rewrite Hm in Hk2. destruct Hk2 as [_ Hh2].
  assert (plan_next plan' = plan_next plan /\ plan_changed plan' = plan_changed plan
    /\ plan_operations plan' = masked with_desktop (desktop_cache s1) (plan_operations plan)) as (En & Ec & Eo).
  { destruct with_desktop; cbn [mask_plan] in Hm.
    - unbind Hm s5 x5 E5. destruct (looks_load _ _ _ E5) as (_ & _ & Hpr). unbind Hm s6 x6 E6. injection E6 as <- <-.
      injection Hm as _ <-. by rewrite Hpr.
    - injection Hm as _ <-. split_and!; [done|done|]. unfold masked. cbn. symmetry.
      rewrite <- (map_id (plan_operations plan)) at 2. apply map_ext. by intros []. }
  pose proof (deliver_plan_keeps digest identity with_desktop
    (bool_decide (src_resent (src s) = None) && is_posted event) (is_removed event) (is_end event)
    (src_resent (src s)) plan' s3) as Hk4. unfold deliver in Hd. rewrite Hd in Hk4. destruct Hk4 as [_ Hh4].
  apply plan_event_spec in Hp as Hp1. destruct Hp1 as (Hs1 & _ & _ & _ & Hun).
  apply commit_plan_spec in Hc as (_ & next & q & Hq & Hb & Hstore). cbn [fst] in *.
  exists q. split; [exact Hp|]. rewrite <- Eo, <- En, Hq. f_equal.
  assert (hub_store (src_hub (published b s4)) = hub_store (src_hub s3)) as -> by (by destruct b; cbn).
  rewrite Hstore. destruct b; [done|]. symmetry in Hb. apply orb_false_iff in Hb as [Hb1 ->].
  rewrite (queue_all_unchanged _ _ _ _ _ Hq), Hh2, Hs1, En. apply Hun. congruence.
Qed.

(** The history is well formed, and numbers its own. *)
Definition history_ok (s : Store) : Prop := hub_ok (is_coordinator config identity) s /\ own_ok identity s.

Lemma plan_tells with_desktop fresh event (s s1 : Source (D := D)) plan q s' : looks s s1 ->
  history_ok (hub_store (src_hub s)) -> same_history (hub_store (src_hub s)) (plan_next plan) ->
  plan_event with_desktop fresh event s = (s1, Ok plan) ->
  queue_all config identity (masked with_desktop (desktop_cache s1) (plan_operations plan)) (plan_next plan)
    = (s', Ok q) ->
  history_ok s' /\ phone_instances s' = phone_instances (plan_next plan)
  /\ forall k, shown s' k = tell_all identity (masked with_desktop (desktop_cache s) (plan_operations plan))
                             (shown (hub_store (src_hub s))) k.
Proof.
  intros Hl [Hk Hown] Hs _ Hq. rewrite <- Hl.
  destruct (same_history_shows _ _ _ Hk Hs) as [Hk' Hsh].
  assert (own_ok identity (plan_next plan)) as Hown'.
  { destruct Hs as (E1 & _ & _ & E4). intros k r. rewrite E1, E4. apply Hown. }
  destruct (queue_all_tells _ _ _ _ _ _ Hk' Hown' Hq) as (H1 & H2 & H3). split; [by split|].
  split; [by rewrite <- (queue_all_instances config identity (masked with_desktop (desktop_cache s1)
            (plan_operations plan)) (plan_next plan)), Hq|].
  intros k. rewrite H3. by apply tell_all_same.
Qed.

Lemma event_is_followed with_desktop fresh event (s s' : Source (D := D)) : history_ok (hub_store (src_hub s)) ->
  apply_inner digest config identity json_len with_desktop fresh event s = (s', Ok tt) ->
  history_ok (hub_store (src_hub s')) /\ event_follows with_desktop fresh event s s'.
Proof.
  intros Hok Ha. destruct event as [n|id| |].
  - apply apply_inner_queues in Ha as (plan & s1 & q & Hp & Hq); [|done]. cbn [plan_event] in Hp.
    destruct (plan_posted_operations _ _ _ _ _ _ Hp) as (Hl & Hs & e & He & Hpe & Hi & Ho).
    destruct (plan_tells with_desktop fresh (Event_Posted n) s s1 plan q _ Hl Hok Hs Hp Hq) as (H1 & H2 & H3).
    split; [exact H1|]. exists e. rewrite H2. split_and!; [done|done|done|]. intros content k. rewrite H3, Ho. done.
  - apply apply_inner_queues in Ha as (plan & s1 & q & Hp & Hq); [|done]. cbn [plan_event] in Hp.
    destruct (plan_removed_operations _ _ _ _ _ Hp) as (Hl & Hs & Ho).
    destruct (plan_tells with_desktop fresh (Event_Removed id) s s1 plan q _ Hl Hok Hs Hp Hq) as (H1 & H2 & H3).
    split; [exact H1|]. intros k. rewrite H3, Ho. destruct (ended_instance _ _ _) as [i|]; [|done].
    cbn. by destruct (with_desktop && _).
  - unfold apply_inner in Ha. unbind Ha s1 x1 E1. injection E1 as <- <-.
    unbind Ha s2 x2 E2. unfold st_ensure in E2. destruct (bool_decide _); [|done]. injection E2 as <- _.
    unbind Ha s3 x3 E3. injection E3 as <- _. injection Ha as <-. by split.
  - apply apply_inner_queues in Ha as (plan & s1 & q & Hp & Hq); [|done]. cbn [plan_event] in Hp.
    destruct (src_resent (src s)) as [present|] eqn:Er.
    2:{ unfold plan_snapshot_end, st_bind, st_get in Hp. by rewrite Er in Hp. }
    destruct (plan_end_operations _ _ _ _ Er Hp) as (Ho & _).
    assert (looks s s1 /\ same_history (hub_store (src_hub s)) (plan_next plan)) as [Hl Hs].
    { revert Hp. unfold plan_snapshot_end, st_bind at 1, st_get. rewrite Er. intros Hp.
      unbind Hp s2 x2 E2. injection E2 as <- _. apply st_bind_Ok in Hp as (s3 & [next changed] & E3 & Hp).
      injection Hp as <- <-. unfold st_bind, st_ensure, st_fail, st_ret in E3.
      repeat match type of E3 with context [if ?b then _ else _] => destruct b end; [|done|]; injection E3 as <- <- _; (split; [done|]); by repeat split. }
    destruct (plan_tells with_desktop fresh Event_SnapshotEnd s s1 plan q _ Hl Hok Hs Hp Hq) as (H1 & H2 & H3).
    split; [exact H1|]. exists present. split; [done|]. intros key. rewrite H3, Ho.
    set (ops := absent_operations _ _ _).
    assert (forall i c, (i, c) ∈ ops <-> c = None /\ exists id e, phone_instances (hub_store (src_hub s)) !! id = Some e
      /\ is_absent (src_prefix (src s)) present (id, e) /\ i = phone_instance e) as Hops.
    { intros i c. split.
      - intros Hin. apply list_elem_of_omap in Hin as (id & Hid & Hsome).
        destruct (filter _ _ !! id) as [e|] eqn:Ef; [|done]. cbn in Hsome. injection Hsome as <- <-.
        apply map_lookup_filter_Some in Ef as [Ee Hab]. split; [done|]. by exists id, e.
      - intros (-> & id & e & He & Hab & ->). by eapply absent_operation. }
    assert (forall o, o ∈ masked with_desktop (desktop_cache s) ops <-> o ∈ ops) as Hmask.
    { intros [i c]. unfold masked. rewrite list_elem_of_fmap. split.
      - intros ([j d] & E & Hin). cbn in E. injection E as -> ->. pose proof Hin as Hin'.
        apply Hops in Hin as [-> _]. by destruct (with_desktop && _).
      - intros Hin. exists (i, c). split; [|done]. apply Hops in Hin as [-> _]. cbn. by destruct (with_desktop && _). }
    destruct (tell_removals identity (masked with_desktop (desktop_cache s) ops) (shown (hub_store (src_hub s))) key)
      as [T1 T2]; [intros i c Hin; apply Hmask, Hops in Hin as [? _]; done|].
    destruct (decide (key ∈ (fun o => shared_key identity o.1) <$> masked with_desktop (desktop_cache s) ops)) as [Hin|Hnin].
    + left. split; [|by apply T1]. apply list_elem_of_fmap in Hin as ([i c] & -> & Hin).
      apply Hmask, Hops in Hin as (_ & id & e & He & Hab & ->). by exists id, e.
    + right. split; [|by apply T2]. intros (id & e & He & Hab & ->). apply Hnin. apply list_elem_of_fmap.
      exists (phone_instance e, None). split; [done|]. apply Hmask, Hops. split; [done|]. by exists id, e.
Qed.

Lemma run_is_followed with_desktop events : forall (s s' : Source (D := D)), history_ok (hub_store (src_hub s)) ->
  run_events digest config identity json_len with_desktop events s = (s', Ok tt) ->
  forall pre fresh event post, events = pre ++ (fresh, event) :: post ->
  exists s1 s2, run_events digest config identity json_len with_desktop pre s = (s1, Ok tt)
    /\ apply_with_desktop digest config identity json_len with_desktop fresh event s1 = (s2, Ok tt)
    /\ event_follows with_desktop fresh event s1 s2.
Proof.
  induction events as [|[f ev] events IH]; intros s s' Hok Hr pre fresh event post E; [by destruct pre|].
  cbn [run_events] in Hr. apply st_bind_Ok in Hr as (sa & [] & Ha & Hr). pose proof Ha as Hi.
  apply apply_with_desktop_Ok, event_is_followed in Hi as [Hok' Hf]; [|done].
  destruct pre as [|p pre].
  - injection E as <- <- _. exists s, sa. by split_and!.
  - injection E as <- E. destruct (IH sa s' Hok' Hr pre fresh event post E) as (s1 & s2 & H1 & H2 & H3). exists s1, s2.
    split_and!; [|done|done]. cbn [run_events app]. unfold st_bind. by rewrite Ha.
Qed.
End Follows.

(** C28. The history follows the phone.  In a run of a phone's events none of which failed, each does to
    the history, as the program looks it up, exactly this: a posted notification is shown with its
    content under the instance of its lifetime, unless that instance was removed before or was
    dismissed on the desktop that delivers it; a removal shows the instance that it ends as removed;
    the end of a snapshot shows as removed what the phone did not resend; and no event changes
    anything else.  At the end the lifetimes, kept beside the records, that count as present are those posted and
    not removed since, and of the phone's own only those its last snapshot resent; a snapshot of one
    phone ends no other's.  With a desktop or without. *)
Theorem history_follows_the_phone {D} `{Shell D} (digest : SharedNotification -> string)
    (config : NotificationConfig) (identity : string) (json_len : Store -> Z) (with_desktop : bool)
    (events : list (result string string * NotificationEvent)) (s s' : Source (D := D))
    (Hok : history_ok config identity (hub_store (src_hub s)))
    (Hr : run_events digest config identity json_len with_desktop events s = (s', Ok tt)) :
  (forall pre fresh event post, events = pre ++ (fresh, event) :: post ->
     exists s1 s2, run_events digest config identity json_len with_desktop pre s = (s1, Ok tt)
       /\ apply_with_desktop digest config identity json_len with_desktop fresh event s1 = (s2, Ok tt)
       /\ event_follows identity with_desktop fresh event s1 s2)
  /\ phone_view s' = fold_left (phone_step (src_prefix (src s))) (map snd events) (phone_view s).
Proof.
  split; [|by apply run_events_follow in Hr as [_ ?]]. by apply (run_is_followed digest config identity json_len) with (s' := s').
Qed.

(** ** What unpairing and dismissal remove *)

(** Ending a snapshot removes what the phone did not resend. *)
Lemma snapshot_end_removes {D} `{Shell D} digest config identity json_len with_desktop fresh present
    (s s' : Source (D := D)) :
  hub_ok (is_coordinator config identity) (hub_store (src_hub s)) -> src_resent (src s) = Some present ->
  apply_inner digest config identity json_len with_desktop fresh Event_SnapshotEnd s = (s', Ok tt) ->
  hub_ok (is_coordinator config identity) (hub_store (src_hub s'))
  /\ (forall id e, phone_instances (hub_store (src_hub s)) !! id = Some e ->
        is_absent (src_prefix (src s)) present (id, e) ->
        gone (shared_key identity (phone_instance e)) (hub_store (src_hub s')))
  /\ (forall key, gone key (hub_store (src_hub s)) -> gone key (hub_store (src_hub s'))).
Proof.
  intros Hk Er Ha. apply apply_inner_Ok in Ha as (plan & s1 & plan' & s2 & s3 & b & s4 & Hp & Hm & Hc & Hd & ->);
    [|done].
  pose proof Hp as Hp1. apply plan_event_spec in Hp1 as (Hs1 & _). cbn [plan_event] in Hp.
  destruct (plan_end_operations _ _ _ _ Er Hp) as (Hops & Hch & Hok).
  destruct (Hok _ Hk) as [Hkn Hgn].
  pose proof (mask_keeps with_desktop plan s1) as Hk2. rewrite Hm in Hk2. destruct Hk2 as [_ Hh2].
  apply mask_plan_Ok in Hm as (En & Ec & Hin & Hnil).
  apply commit_plan_spec in Hc as (_ & next & q & Hq & Hb & Hstore).
  pose proof (deliver_plan_keeps digest identity with_desktop
    (bool_decide (src_resent (src s) = None) && is_posted Event_SnapshotEnd) false true
    (src_resent (src s)) plan' s3) as Hk4. unfold deliver in Hd. cbn [is_removed is_end] in Hd.
  rewrite Hd in Hk4. destruct Hk4 as [_ Hh4]. cbn [fst] in *.
  assert (hub_store (src_hub (published b s4)) = hub_store (src_hub s3)) as -> by (by destruct b; cbn).
  rewrite <- En in Hkn, Hgn. destruct (queue_all_gone _ _ _ _ _ _ Hkn Hq) as (Hk3 & Hg3 & Hall).
  rewrite Hstore. destruct b.
  - split_and!; [done| |auto]. intros id e He Hab. apply Hall, Hin. rewrite Hops.
    by eapply absent_operation.
  - rewrite Hh2, Hs1. symmetry in Hb. apply orb_false_iff in Hb as [Hb1 ->].
    split_and!; [done| |done]. intros id e He Hab. exfalso.
    assert ((phone_instance e, None) ∈ plan_operations plan) as Hx by (rewrite Hops; by eapply absent_operation).
    rewrite Ec, Hch in Hb1; [done|]. intros E. rewrite E in Hx. by apply not_elem_of_nil in Hx.
Qed.

(** Unpairing a phone removes what it sent: once it succeeds the history holds no notification
    of the phone as present, every one it held is removed for good, here and, being queued or
    recorded as such, everywhere; the other phones' notifications are untouched. *)
Theorem unpairing_removes_the_phones_history {D} `{Shell D} (digest : SharedNotification -> string)
    (config : NotificationConfig) (identity : string) (json_len : Store -> Z) (fingerprint : string)
    (h h' : Hub D) :
  hub_ok (is_coordinator config identity) (hub_store h) ->
  remove_phone digest config identity json_len fingerprint h = (h', Ok tt) ->
  let prefix := src_prefix (phone_source fingerprint "") in
  present_ids (hub_store h') = filter (fun id => starts_with prefix id = false) (present_ids (hub_store h))
  /\ (forall id e, phone_instances (hub_store h) !! id = Some e -> phone_present e = true ->
        starts_with prefix id = true -> gone (shared_key identity (phone_instance e)) (hub_store h'))
  /\ (forall key, gone key (hub_store h) -> gone key (hub_store h')).
Proof.
  intros Hk Hr prefix. unfold remove_phone in Hr.
  set (s0 := {| src := phone_source fingerprint ""; src_hub := h |}) in *.
  match type of Hr with (src_hub (?x).1, _) = _ => destruct x as [s' r] eqn:E end.
  injection Hr as <- ->. apply st_bind_Ok in E as (s1 & [] & Hs & He). unfold source_apply in *.
  apply apply_with_desktop_Ok in Hs, He. pose proof He as He'.
  assert (s1 = {| src := set_snapshot_failed false (set_src_resent (Some ∅) (src s0)); src_hub := h |}) as ->
    by (by injection Hs as <-).
  apply apply_inner_follows in He as [_ Hv]. eapply snapshot_end_removes in He' as (_ & Hg & Hkeep);
    [|done|reflexivity].
  split_and!.
  - injection Hv as Hv _. rewrite Hv. apply set_eq. intros k. rewrite !elem_of_filter. set_solver.
  - intros id e He Hpe Hid. apply (Hg id e He). split_and!; [done|done|]. apply not_elem_of_empty.
  - exact Hkeep.
Qed.

(** The desktop shows nothing for a lifetime: it has no entry, or a dismissed one. *)
Definition hidden (instance : string) (p : PhoneProjections) : Prop :=
  forall e, proj_entries p !! instance = Some e -> entry_dismissed e = true.

Lemma proj_show_hides {D} `{Shell D} digest key fresh (w w' : Projected D) :
  proj_show digest key None fresh w = (w', Ok tt) -> hidden (key_instance key) (proj w').
Proof.
  unfold proj_show. intros Hs. apply st_bind_Ok in Hs as (w1 & [] & _ & Hs).
  unfold st_bind at 1, st_get in Hs.
  destruct (proj_entries (proj w1) !! key_instance key) as [e|] eqn:E.
  - destruct (entry_dismissed e) eqn:Ed.
    + injection Hs as <-. intros x Hx. congruence.
    + apply st_bind_Ok in Hs as (w2 & [] & Hc & Hs). apply st_bind_Ok in Hs as (w3 & [] & Hp & Hs).
      injection Hp as <-. unfold proj_save, st_bind, st_get, on_desk in Hs. injection Hs as <- _.
      intros x. cbn. rewrite lookup_insert_eq. by intros [= <-].
  - injection Hs as <-. intros x Hx. congruence.
Qed.

Lemma gone_terminal key s : gone key s -> is_terminal key (store_view s) = true.
Proof.
  intros (r & Hr & Hc). apply existsb_exists. exists r. apply List.find_some in Hr as [Hin Hk].
  split; [done|]. unfold is_key in Hk. rewrite Hk. by rewrite bool_decide_eq_true_2.
Qed.

Lemma update_of_removed {D} `{Shell D} digest config identity json_len fresh n (s s' : Source (D := D)) i :
  phone_instances (hub_store (src_hub s)) !! phone_id (src_prefix (src s)) (pn_id n)
    = Some {| phone_instance := i; phone_present := true |} ->
  gone (shared_key identity i) (hub_store (src_hub s)) ->
  apply_and_deliver digest config identity json_len fresh (Event_Posted n) s = (s', Ok tt) ->
  hub_store (src_hub s') = hub_store (src_hub s)
  /\ src_prefix (src s') = src_prefix (src s) /\ hidden i (proj (hub_projections (src_hub s'))).
Proof.
  intros Hi Hg Ha. unfold apply_and_deliver in Ha. apply apply_with_desktop_Ok in Ha.
  pose proof Ha as Hf. apply apply_inner_follows in Hf as [Hpre _].
  apply apply_inner_Ok in Ha as (plan & s1 & plan' & s2 & s3 & b & s4 & Hp & Hm & Hc & Hd & ->); [|done].
  assert (exists c, plan_operations plan = [(i, c)] /\ plan_changed plan = false
            /\ plan_next plan = hub_store (src_hub s)
            /\ hub_store (src_hub s1) = hub_store (src_hub s)) as (c & Eo & Ec & En & Es).
  { cbn [plan_event] in Hp. pose proof Hp as Hp1. apply plan_posted_spec in Hp1 as (Hst & _).
    unfold plan_posted in Hp. unfold st_bind at 1, st_get in Hp. apply st_bind_Ok in Hp as (sa & [] & Hr & Hp).
    unfold begin_lifetime in Hp. rewrite Hi in Hp. cbn [is_some_and phone_present] in Hp.
    unfold st_bind, st_ret in Hp. rewrite Hi in Hp. injection Hp as _ <-. eexists. by split_and!. }
  pose proof (mask_keeps true plan s1) as Hk2. rewrite Hm in Hk2. destruct Hk2 as [_ Hh2]. cbn [fst] in Hh2.
  assert (exists c', plan_operations plan' = [(i, c')] /\ plan_next plan' = plan_next plan
                     /\ plan_changed plan' = false) as (c' & Eo' & En' & Ec').
  { cbn [mask_plan] in Hm. apply st_bind_Ok in Hm as (sa & [] & _ & Hm).
    unfold st_bind, st_get, st_ret in Hm. injection Hm as _ <-. cbn. rewrite Eo. eexists. by split_and!. }
  apply commit_plan_spec in Hc as (_ & next & q & Hq & Hb & Hst).
  rewrite Eo', En', En in Hq. cbn [queue_all] in Hq. unfold st_bind in Hq.
  rewrite queue_local_gone in Hq by done. injection Hq as <- <-. rewrite Ec' in Hb. cbn in Hb. subst b.
  unfold deliver in Hd. cbn [published].
  pose proof (deliver_plan_keeps digest identity true
    (bool_decide (src_resent (src s) = None) && is_posted (Event_Posted n)) (is_removed (Event_Posted n))
    (is_end (Event_Posted n)) (src_resent (src s)) plan' s3) as Hk4.
  rewrite Hd in Hk4. destruct Hk4 as [_ Hh4]. cbn [fst] in Hh4.
  assert (hub_store (src_hub s3) = hub_store (src_hub s)) as E3 by congruence.
  split_and!; [congruence|exact Hpre|].
  cbn [deliver_plan is_end is_removed] in Hd. unfold st_bind at 1, st_get in Hd. rewrite Eo' in Hd.
  cbn [deliver_operations] in Hd. rewrite E3, (gone_terminal _ _ Hg) in Hd.
  apply st_bind_Ok in Hd as (sb & [] & Hd & Hr). injection Hr as <-.
  apply st_bind_Ok in Hd as (sa & [] & Hs & Hr). apply st_bind_Ok in Hr as (? & [] & Hr & Hr').
  injection Hr as <-. injection Hr' as <-. unfold on_src_hub, on_proj in Hs.
  injection Hs as <- Hr. cbn.
  eapply (proj_show_hides digest (shared_key identity i)). rewrite <- Hr. apply surjective_pairing.
Qed.

(** A notification that was dismissed or removed anywhere stays so: while the phone keeps it and
    keeps updating it, the updates reach neither the history nor the desktop, which withdraws it at
    the next one. *)
Theorem dismissed_phone_notification_stays_dismissed {D} `{Shell D}
    (digest : SharedNotification -> string) (config : NotificationConfig) (identity : string)
    (json_len : Store -> Z) (updates : list (result string string * PhoneNotification)) (n : Z) (i : string)
    (s s' : Source (D := D)) :
  phone_instances (hub_store (src_hub s)) !! phone_id (src_prefix (src s)) n
    = Some {| phone_instance := i; phone_present := true |} ->
  gone (shared_key identity i) (hub_store (src_hub s)) ->
  Forall (fun u => pn_id u.2 = n) updates -> updates <> [] ->
  run_events digest config identity json_len true (map (fun u => (u.1, Event_Posted u.2)) updates) s
    = (s', Ok tt) ->
  hub_store (src_hub s') = hub_store (src_hub s) /\ hidden i (proj (hub_projections (src_hub s'))).
Proof.
  intros Hi Hg Hu Hne Hr.
  assert (forall s s', src_prefix (src s) = src_prefix (src s) ->
    phone_instances (hub_store (src_hub s)) !! phone_id (src_prefix (src s)) n
      = Some {| phone_instance := i; phone_present := true |} ->
    gone (shared_key identity i) (hub_store (src_hub s)) ->
    run_events digest config identity json_len true (map (fun u => (u.1, Event_Posted u.2)) updates) s
      = (s', Ok tt) ->
    hub_store (src_hub s') = hub_store (src_hub s)
    /\ (updates <> [] -> hidden i (proj (hub_projections (src_hub s'))))) as Hall; [|naive_solver].
  clear s s' Hi Hg Hr Hne. induction Hu as [|[fresh u] updates Hn Hu IH]; intros s s' _ Hi Hg Hr.
  { by injection Hr as <-. }
  cbn [map run_events fst snd] in *. apply st_bind_Ok in Hr as (s1 & [] & Ha & Hr). subst n.
  destruct (update_of_removed _ _ _ _ _ _ _ _ _ Hi Hg Ha) as (E1 & Ep & Hh).
  destruct (IH s1 s' eq_refl) as [E2 Hh2]; [congruence|congruence|done|]. split; [congruence|]. intros _.
  destruct updates as [|u' updates]; [by injection Hr as <-|by apply Hh2].
Qed.

(** ** The history in memory is the one on disk *)

(** What the machine keeps: the store file is replaced as a whole or not at all, and by nothing
    else. *)
Class ShellLaws D `{Shell D} := {
  stored : D -> Store;
  store_write_law s d : stored (store_write s d).1
    = match (store_write s d).2 with Ok _ => s | Err _ => stored d end;
  shell_show_stored k c r b d : stored (shell_show k c r b d).1 = stored d;
  shell_close_stored i g d : stored (shell_close i g d).1 = stored d;
  cache_write_stored p d : stored (cache_write p d).1 = stored d;
}.

Section Durable.
Context {D : Type} `{ShellLaws D} (digest : SharedNotification -> string).
Context (config : NotificationConfig) (identity : string) (json_len : Store -> Z).

Definition on_disk (h : Hub D) : Store := stored (desk (hub_projections h)).
(** What was saved stays what is on disk. *)
Definition durable (h h' : Hub D) : Prop := on_disk h = hub_store h -> on_disk h' = hub_store h'.
#[local] Instance durable_preorder : PreOrder durable.
Proof. split; [by intros h Hh|]. intros a b c Hab Hbc Ha. auto. Qed.
Definition src_durable (s s' : Source (D := D)) : Prop := durable (src_hub s) (src_hub s').
#[local] Instance src_durable_preorder : PreOrder src_durable.
Proof. split; [by intros h Hh|]. intros a b c Hab Hbc Ha. auto. Qed.

(** The cache and the desktop leave the history's file alone. *)
Definition same_file (w w' : Projected D) : Prop := stored (desk w') = stored (desk w).
#[local] Instance same_file_preorder : PreOrder same_file.
Proof. split; [done|]. intros a b c. unfold same_file. congruence. Qed.
Lemma set_proj_file f : within same_file (set_proj f).
Proof. by intros w. Qed.
Lemma show_file k c r b : within same_file (on_desk (shell_show k c r b)).
Proof. intros w. apply shell_show_stored. Qed.
Lemma close_file i g : within same_file (on_desk (shell_close i g)).
Proof. intros w. apply shell_close_stored. Qed.
Lemma write_file p : within same_file (on_desk (cache_write p)).
Proof. intros w. apply cache_write_stored. Qed.
Hint Resolve set_proj_file show_file close_file write_file : durable.
Lemma load_file : within same_file proj_load.
Proof. unfold proj_load. repeat within_step; auto with durable. Qed.
Lemma save_file : within same_file proj_save.
Proof. unfold proj_save. repeat within_step; auto with durable. Qed.
Hint Resolve load_file save_file : durable.
Lemma proj_show_file k c b : within same_file (proj_show digest k c b).
Proof. unfold proj_show. repeat within_step; auto with durable. Qed.
Lemma proj_withdraw_file i : within same_file (proj_withdraw i).
Proof. unfold proj_withdraw. repeat within_step; auto with durable. Qed.
Hint Resolve proj_show_file proj_withdraw_file : durable.

Lemma on_proj_durable {A} (m : stateful (Projected D) string A) : within same_file m -> within durable (on_proj m).
Proof. intros Hm h Hh. unfold on_disk, on_proj. cbn. by rewrite (Hm (hub_projections h)). Qed.
Lemma on_src_durable {A} (m : stateful (Hub D) string A) : within durable m -> within src_durable (on_src_hub m).
Proof. intros Hm s. apply Hm. Qed.
Lemma on_source_durable f : within src_durable (on_source f).
Proof. by intros s Hs. Qed.
Lemma on_hub_durable (f : Hub D -> Hub D) :
  (forall h, hub_projections (f h) = hub_projections h /\ hub_store (f h) = hub_store h) ->
  within durable (on_hub f).
Proof. intros Hf h Hh. unfold on_disk. cbn. destruct (Hf h) as [-> ->]. exact Hh. Qed.
Hint Resolve on_proj_durable on_src_durable on_source_durable : durable.

Lemma hub_persist_spec next h h' r : hub_persist json_len next h = (h', r) ->
  hub_store h' = hub_store h
  /\ on_disk h' = match r with Ok _ => next | Err _ => on_disk h end.
Proof.
  unfold hub_persist, st_bind, st_ensure, st_ret, st_fail.
  destruct (json_len next <=? MAX_STORE_BYTES); [|by intros [= <- <-]].
  unfold on_proj, on_desk, on_disk. pose proof (store_write_law next (desk (hub_projections h))) as Hw.
  cbn. intros [= <- <-]. cbn. rewrite Hw. by destruct (store_write _ _) as [? [[]|]].
Qed.

(** Saving and adopting a history is one step. *)
Lemma commit_durable next {A} (k : stateful (Hub D) string A) : within durable k ->
  within durable (do! hub_persist json_len next;; do! on_hub (with_store next);; k).
Proof.
  intros Hk h Hh. unfold st_bind, on_hub. destruct (hub_persist json_len next h) as [h1 r] eqn:E.
  apply hub_persist_spec in E as [E1 E2]. destruct r as [[]|e]; [|cbn [fst]; congruence].
  apply Hk. unfold on_disk in *. cbn. done.
Qed.

Lemma hub_local_durable key content : within durable (hub_local config identity json_len key content).
Proof.
  unfold hub_local. within_step; [by intros h Hh|].
  destruct (queue_local _ _ _ _) as [next [[|]|]]; [|by intros h Hh|by intros h Hh].
  apply commit_durable. by apply on_hub_durable.
Qed.

Lemma commit_plan_durable snapshot_end plan : within src_durable
  (commit_plan config identity json_len snapshot_end plan).
Proof.
  unfold commit_plan. within_step; [by intros s Hs|]. within_step; [repeat within_step|].
  destruct (queue_all _ _ _ _) as [next [q|]]; [|by intros s Hs]. destruct (_ || _); [|by intros s Hs].
  intros s. pose proof (commit_durable next (st_ret true : stateful (Hub D) string bool)) as Hc.
  specialize (Hc ltac:(by intros h Hh) (src_hub s)). unfold src_durable. intros Hs. specialize (Hc Hs).
  revert Hc. unfold st_bind, on_src_hub, hub_persist, st_ensure, st_bind, st_ret, st_fail.
  destruct (json_len next <=? MAX_STORE_BYTES); cbn; [|done].
  by destruct (store_write _ _) as [d [[]|]].
Qed.

Lemma deliver_operations_durable view fresh withdrawal ops :
  within src_durable (deliver_operations digest identity view fresh withdrawal ops).
Proof.
  induction ops as [|[i c] ops IH]; cbn [deliver_operations]; repeat within_step; auto with durable.
Qed.
Lemma withdraw_all_durable l : within src_durable (withdraw_all l).
Proof. induction l; cbn [withdraw_all]; repeat within_step; auto with durable. Qed.
Hint Resolve commit_plan_durable deliver_operations_durable withdraw_all_durable : durable.

Lemma plan_event_durable with_desktop fresh event : within src_durable (plan_event with_desktop fresh event).
Proof.
  destruct event; cbn [plan_event]; unfold plan_posted, plan_removed, plan_snapshot_end, begin_lifetime,
    find_cached; repeat within_step; auto with durable.
Qed.
Hint Resolve plan_event_durable : durable.

Lemma apply_with_desktop_durable with_desktop fresh event :
  within src_durable (apply_with_desktop digest config identity json_len with_desktop fresh event).
Proof.
  assert (forall h : Hub D, durable h (hub_publish h)) as Hpub by (by intros h Hh).
  unfold apply_with_desktop, apply_inner, mask_plan, deliver_plan.
  repeat within_step; auto with durable; apply on_src_durable, on_hub_durable; try done;
    intros h; unfold record_error; by destruct (hub_error h).
Qed.

Lemma remove_phone_durable fingerprint :
  within durable (remove_phone digest config identity json_len fingerprint).
Proof.
  intros h. unfold remove_phone. cbn [fst].
  match goal with |- context [(st_bind ?m ?k ?x).1] =>
    assert (within src_durable (st_bind m k)) as Hb
      by (within_step; apply apply_with_desktop_durable); exact (Hb x) end.
Qed.

Lemma local_from_bridge_durable key content :
  within durable (local_from_bridge config identity json_len key content).
Proof.
  unfold local_from_bridge. repeat within_step; [apply hub_local_durable|].
  apply on_hub_durable. intros h. unfold record_error. by destruct (hub_error h).
Qed.
End Durable.

(** The history in memory is the one on disk: whatever a phone sends, whatever fails on the way,
    and whatever the desktop does, a change is acknowledged only once it is saved, and nothing else
    touches the file; the same holds for what the shell reports and for unpairing a phone. *)
Theorem history_is_durable {D} `{ShellLaws D} (digest : SharedNotification -> string)
    (config : NotificationConfig) (identity : string) (json_len : Store -> Z) (s : Source (D := D)) :
  on_disk (src_hub s) = hub_store (src_hub s) ->
  (forall with_desktop fresh event,
     let s' := (apply_with_desktop digest config identity json_len with_desktop fresh event s).1 in
     on_disk (src_hub s') = hub_store (src_hub s'))
  /\ (forall key content,
       let h' := (local_from_bridge config identity json_len key content (src_hub s)).1 in
       on_disk h' = hub_store h')
  /\ (forall fingerprint,
       let h' := (remove_phone digest config identity json_len fingerprint (src_hub s)).1 in
       on_disk h' = hub_store h').
Proof.
  intros Hs. split_and!.
  - intros with_desktop fresh event. by apply apply_with_desktop_durable.
  - intros key content. by apply local_from_bridge_durable.
  - intros fingerprint. by apply remove_phone_durable.
Qed.

(** ** A machine *)

Module SampleShell.
(** A machine with a notification daemon, whose file system works. *)
Record machine := {
  bubbles : gmap Z NotificationKey;
  cache_file : option PhoneProjections;
  store_file : Store;
}.
Definition next_bubble (m : machine) : Z := 1 + foldr Z.max 0 (map_to_list (bubbles m)).*1.
#[global] Instance machine_shell : Shell machine := {
  shell_generation m := Ok ":1.9"%string;
  shell_show key content replaces silent m :=
    let id := if replaces =? 0 then next_bubble m else replaces in
    ({| bubbles := <[id := key]> (bubbles m); cache_file := cache_file m; store_file := store_file m |}, Ok id);
  shell_close id g m :=
    ({| bubbles := delete id (bubbles m); cache_file := cache_file m; store_file := store_file m |}, Ok tt);
  cache_read m := Ok (cache_file m);
  cache_write p m :=
    ({| bubbles := bubbles m; cache_file := Some p; store_file := store_file m |}, Ok tt);
  store_write s m :=
    ({| bubbles := bubbles m; cache_file := cache_file m; store_file := s |}, Ok tt);
}.
#[global] Instance machine_laws : ShellLaws machine.
Proof. by refine {| stored := store_file |}. Defined.

Definition config : NotificationConfig :=
  {| notif_enabled := true; coordinator_fingerprint := sample_origin; notif_peers := [] |}.
Definition digest (c : SharedNotification) : string := sn_body c.
Definition json_len (s : Store) : Z := 1000.
Definition store (instances : gmap string PhoneInstance) (rs : list NotificationRecord) : Store :=
  {| coordinator := sample_origin; epoch := "e"; local_identity := sample_origin; store_sequence := 5;
     records := rs; pending_operations := []; phone_instances := instances; imported_phones := ∅ |}.
Definition hub (s : Store) : Hub machine :=
  {| hub_store := s;
     hub_projections := {| proj := PhoneProjections_default;
                           desk := {| bubbles := ∅; cache_file := None; store_file := s |} |};
     hub_changed := 0; hub_bridges := 0; hub_links := 0; hub_error := None; hub_bridge_error := None;
     hub_source_names := ∅ |}.
Definition source (s : Store) : Source (D := machine) :=
  {| src := phone_source "aa:bb" "Pixel"; src_hub := hub s |}.
Definition note (id : Z) (body : string) : PhoneNotification :=
  {| pn_id := id; pn_app_name := "Chat"; pn_title := "Anna"; pn_body := body; pn_icon_png := None;
     pn_posted_ms := 7 |}.

(** A phone posts two notifications, reconnects with the second only, and posts it again. *)
Definition events : list (result string string * NotificationEvent) :=
  [(Ok "e1", Event_Posted (note 1 "a")); (Ok "e2", Event_Posted (note 2 "b"));
   (Ok "e3", Event_SnapshotStart); (Ok "e4", Event_Posted (note 2 "b")); (Ok "e5", Event_SnapshotEnd);
   (Ok "e6", Event_Posted (note 2 "c"))]%string.
Definition run := run_events digest config sample_origin json_len true events (source (store ∅ [])).
Definition lifetime (instance : string) : PhoneInstance :=
  {| phone_instance := instance; phone_present := true |}.
(** Two phones with a notification each, the first dismissed. *)
Definition two_phones : Store :=
  store {["phone/aabb/1"%string := lifetime "phone/aabb/1/x"; "phone/cc/1"%string := lifetime "phone/cc/1/y"]}
    [{| rec_key := shared_key sample_origin "phone/aabb/1/x"; rec_source_sequence := 2; rec_content := None |}].
End SampleShell.

Lemma no_records_ok instances :
  history_ok SampleShell.config sample_origin (SampleShell.store instances []).
Proof.
  split; [|by intros key r _]. split; [split| | |]; try (vm_compute; congruence); try constructor.
Qed.

Lemma history_follows_the_phone_witness :
  SampleShell.run = (SampleShell.run.1, Ok tt)
  /\ alive (phone_view SampleShell.run.1) = {["phone/aabb/2"%string]}
  /\ exists s1 s2, event_follows sample_origin true (Ok "e6"%string)
       (Event_Posted (SampleShell.note 2 "c")) s1 s2.
Proof.
  assert (SampleShell.run = (SampleShell.run.1, Ok tt)) as Hr by (vm_compute; reflexivity).
  split; [exact Hr|split].
  - vm_compute; reflexivity.
  - destruct (history_follows_the_phone SampleShell.digest SampleShell.config sample_origin
             SampleShell.json_len true SampleShell.events (SampleShell.source (SampleShell.store ∅ [])) _
             (no_records_ok ∅) Hr) as [Hall _].
    destruct (Hall (take 5 SampleShell.events) _ _ [] eq_refl) as (s1 & s2 & _ & _ & Hf).
    exists s1, s2. exact Hf.
Defined.
(** The second notification is shown with its last content, the first as removed. *)
Example the_run_shows :
  let shows i := sn_body <$> (shown (hub_store (src_hub SampleShell.run.1)) (shared_key sample_origin i) ≫= id) in
  shows "phone/aabb/2/e2"%string = Some "c"%string
  /\ shown (hub_store (src_hub SampleShell.run.1)) (shared_key sample_origin "phone/aabb/1/e1") = Some None.
Proof. vm_compute. split; reflexivity. Qed.

Lemma two_phones_ok : hub_ok (is_coordinator SampleShell.config sample_origin) SampleShell.two_phones.
Proof.
  split; [split| | |]; try (vm_compute; congruence).
  - apply NoDup_singleton.
  - apply NoDup_nil_2.
  - apply Forall_singleton. split; [vm_compute; reflexivity|]. by intros c.
Qed.

Lemma unpairing_removes_the_phones_history_witness :
  let h := SampleShell.hub SampleShell.two_phones in
  let r := remove_phone SampleShell.digest SampleShell.config sample_origin SampleShell.json_len "aa:bb" h in
  r.2 = Ok tt
  /\ present_ids (hub_store r.1)
     = filter (fun id => starts_with "phone/aabb/" id = false) (present_ids SampleShell.two_phones)
  /\ present_ids (hub_store r.1) = {["phone/cc/1"%string]}.
Proof.
  cbn zeta.
  assert (remove_phone SampleShell.digest SampleShell.config sample_origin SampleShell.json_len "aa:bb"
            (SampleShell.hub SampleShell.two_phones)
          = ((remove_phone SampleShell.digest SampleShell.config sample_origin SampleShell.json_len "aa:bb"
                (SampleShell.hub SampleShell.two_phones)).1, Ok tt)) as Hr by (vm_compute; reflexivity).
  split; [vm_compute; reflexivity|split; [|vm_compute; reflexivity]].
  exact (proj1 (unpairing_removes_the_phones_history SampleShell.digest SampleShell.config sample_origin
                  SampleShell.json_len "aa:bb" (SampleShell.hub SampleShell.two_phones) _ two_phones_ok Hr)).
Defined.

Lemma dismissed_phone_notification_stays_dismissed_witness :
  let s := SampleShell.source SampleShell.two_phones in
  let r := run_events SampleShell.digest SampleShell.config sample_origin SampleShell.json_len true
             (map (fun u => (u.1, Event_Posted u.2)) [(Ok "e"%string, SampleShell.note 1 "new")]) s in
  hub_store (src_hub r.1) = hub_store (src_hub s)
  /\ hidden "phone/aabb/1/x" (proj (hub_projections (src_hub r.1))).
Proof.
  cbn zeta.
  refine (dismissed_phone_notification_stays_dismissed SampleShell.digest SampleShell.config sample_origin
            SampleShell.json_len [(Ok "e"%string, SampleShell.note 1 "new")] 1 "phone/aabb/1/x"
            (SampleShell.source SampleShell.two_phones) _ _ _ _ _ _).
  - vm_compute; reflexivity.
  - eexists. split; vm_compute; reflexivity.
  - by apply Forall_singleton.
  - done.
  - vm_compute; reflexivity.
Defined.

Lemma history_is_durable_witness :
  let s := SampleShell.source SampleShell.two_phones in
  let s' := (apply_with_desktop SampleShell.digest SampleShell.config sample_origin SampleShell.json_len
               true (Ok "e"%string) (Event_Removed 1) s).1 in
  on_disk (src_hub s') = hub_store (src_hub s').
Proof.
  exact (proj1 (history_is_durable SampleShell.digest SampleShell.config sample_origin SampleShell.json_len
                  (SampleShell.source SampleShell.two_phones) eq_refl) true (Ok "e"%string) (Event_Removed 1)).
Defined.
