(* ===== verification/NotificationBridge.v ===== *)
(** * The shell's side of the notification hub: [NotificationHub::bridge]

    The one connection of the desktop shell: it reports the notifications of this computer and the
    copies it retains of others', and what its user closes; the hub shows there what its history
    holds of others.  The lines are the messages they parse to. *)
From stdpp Require Import sorting.
From S2P Require Export PhoneHistory.

(** [rx/notification_hub 1013-1036 BridgeMessage] *)
Inductive BridgeMessage :=
| Bridge_Start
| Bridge_Posted (id : Z) (instance : string) (content : SharedNotification)
| Bridge_Copy (id : Z) (key : NotificationKey) (content : SharedNotification)
| Bridge_Closed (id reason : Z) (instance : option string) (key : option NotificationKey)
| Bridge_End.

(** What the hub tells the shell.
    [rx/notification_hub 979-1008 NotificationHub::bridge] *)
Inductive BridgeReply :=
| Reply_RetirePhone (name : string)
| Reply_Sources (identity : string) (names : gmap string string)
| Reply_Ready.

(** The locals of the connection, with its hub.
    [rx/notification_hub 822-829 NotificationHub::bridge] *)
Record Bridge (D : Type) := {
  br_hub : Hub D;
  native : gmap NotificationKey Z;
  projections : gmap NotificationKey (Z * SharedNotification);
  inventory : option (list NotificationKey);
  br_written : list BridgeReply;
}.
Arguments br_hub {D} _.
Arguments native {D} _.
Arguments projections {D} _.
Arguments inventory {D} _.
Arguments br_written {D} _.

(** The derived order of keys, and the first entry of a [BTreeMap] that satisfies a test. *)
Definition key_le (a b : NotificationKey) : Prop :=
  if str_eqb (key_origin a) (key_origin b) then str_le (key_instance a) (key_instance b)
  else str_le (key_origin a) (key_origin b).
#[export] Instance key_le_dec : RelDecision key_le.
Proof. intros a b. unfold key_le. destruct (str_eqb _ _); apply _. Defined.
(** [rx/notification_hub 871-874 NotificationHub::bridge] *)
Definition first_key {A} (f : A -> bool) (m : gmap NotificationKey A) : option NotificationKey :=
  List.find (fun k => is_some_and f (m !! k)) (merge_sort key_le (map_to_list m).*1).

Section Bridge.
Context {D : Type} `{Shell D} (digest : SharedNotification -> string).
Context (config : NotificationConfig) (identity : string) (json_len : Store -> Z).

Abbreviation bridging := (stateful (Bridge D) string).
Definition on_br_hub {A} (m : stateful (Hub D) string A) : bridging A := fun b =>
  let r := m (br_hub b) in
  ({| br_hub := r.1; native := native b; projections := projections b; inventory := inventory b;
      br_written := br_written b |}, r.2).
Definition set_maps (n : gmap NotificationKey Z) (p : gmap NotificationKey (Z * SharedNotification))
    (i : option (list NotificationKey)) : bridging unit := fun b =>
  ({| br_hub := br_hub b; native := n; projections := p; inventory := i; br_written := br_written b |}, Ok tt).
Definition set_native (n : gmap NotificationKey Z) : bridging unit := fun b =>
  set_maps n (projections b) (inventory b) b.
Definition set_projections (p : gmap NotificationKey (Z * SharedNotification)) : bridging unit := fun b =>
  set_maps (native b) p (inventory b) b.

(** [FreedesktopNotifications::close_shared].
    [rx/notifications 284-286 FreedesktopNotifications::close_shared] *)
Definition close_shared (id : Z) : bridging unit :=
  on_br_hub (on_proj (w <-! st_get;;
                      generation <-! st_lift (shell_generation (desk w));;
                      on_desk (shell_close id generation))).
(** Closing, whether it works or not. *)
Definition close_quietly (id : Z) : bridging unit :=
  do! (attempt (close_shared id) : bridging (result unit string));; st_ret tt.
Definition local_in_bridge (key : NotificationKey) (content : option SharedNotification) : bridging unit :=
  on_br_hub (local_from_bridge config identity json_len key content).
(** A failure of the phones' cache is recorded, and the connection goes on.
    [rx/notification_hub 919-924 NotificationHub::bridge] *)
Definition cache_quietly {A} (m : stateful (Projected D) string A) : bridging unit :=
  on_br_hub (r <-! attempt (on_proj m);;
             match r with
             | Ok _ => st_ret tt
             | Err error => on_hub (record_error
                 ("Phone notification cache: " ++ error ++ "; bridge remains connected")%string)
             end).

(** What is removed from the history when an entry is closed.  A notification of this computer is
    removed whatever closed it; a copy only if the user dismissed it; and one that neither knows,
    closed while the hub was away, if the history has it.
    [rx/notification_hub 871-884 NotificationHub::bridge] *)
Definition bridge_forget (id reason : Z) (instance : option string) (key : option NotificationKey) :
  bridging unit :=
  b <-! st_get;;
  let seen := (1 <=? reason) && (reason <=? 3) in
  match first_key (Z.eqb id) (native b), first_key (fun p => p.1 =? id) (projections b) with
  | Some k, _ =>
      do! set_native (delete k (native b));;
      if seen then local_in_bridge k None else st_ret tt
  | None, Some k =>
      do! set_projections (delete k (projections b));;
      if reason =? 2 then local_in_bridge k None else st_ret tt
  | None, None =>
      let candidate := match key with
                       | Some k => Some k
                       | None => i ← instance; Some (shared_key identity i)
                       end in
      match candidate with
      | Some k =>
          let known := existsb (is_key k) (store_view (hub_store (br_hub b))) in
          if seen && known && (str_eqb (key_origin k) identity || (reason =? 2))
          then local_in_bridge k None else st_ret tt
      | None => st_ret tt
      end
  end.

(** What was closed on the desktop.  [rx/notification_hub 866-885 NotificationHub::bridge] *)
Definition bridge_closed (id reason : Z) (instance : option string) (key : option NotificationKey) :
  bridging unit :=
  do! (match key with
       | Some k => if local_phone identity k
                   then cache_quietly (proj_closed (key_instance k) id reason) else st_ret tt
       | None => st_ret tt
       end);;
  bridge_forget id reason instance key.

(** What a line of the shell does.
    [rx/notification_hub 840-891 NotificationHub::bridge] *)
Definition bridge_effect (message : BridgeMessage) : bridging unit :=
  b <-! st_get;;
  match message with
  | Bridge_Start => set_maps ∅ ∅ (Some [])
  | Bridge_Posted id instance content =>
      let key := shared_key identity instance in
      do! set_maps (<[key := id]> (native b)) (projections b)
            ((fun keys => keys ++ [key]) <$> inventory b);;
      local_in_bridge key (Some content)
  | Bridge_Copy id key content =>
      match store_record (hub_store (br_hub b)) key with
      | None => st_ret tt
      | Some record =>
          match rec_content record with
          | Some _ =>
              do! (if local_phone identity key
                   then cache_quietly (proj_adopt digest key id content) else st_ret tt);;
              set_projections (match projections b !! key with
                               | Some _ => projections b
                               | None => <[key := (id, content)]> (projections b)
                               end)
          | None => close_shared id
          end
      end
  | Bridge_Closed id reason instance key => bridge_closed id reason instance key
  | Bridge_End =>
      do! st_ensure (bool_decide (is_Some (inventory b)))
            "notification inventory end without start"%string;;
      set_maps (native b) (projections b) None
  end.

(** [rx/notification_hub 838-892 NotificationHub::bridge] *)
Definition bridge_message (message : BridgeMessage) : bridging unit :=
  do! bridge_effect message;;
  b <-! st_get;;
  st_ensure (Z.of_nat (size (native b)) + Z.of_nat (size (projections b)) <=? MAX_RECORDS)
    "notification bridge inventory full"%string.

(** Bringing the shell up to a record of the history.
    [rx/notification_hub 901-952 NotificationHub::bridge] *)
Definition reconcile_record (record : NotificationRecord) : bridging unit :=
  let key := rec_key record in
  b <-! st_get;;
  if local_phone identity key then
    match store_record (hub_store (br_hub b)) key with
    | Some current => cache_quietly (proj_show digest (rec_key current) (rec_content current) false)
    | None => st_ret tt
    end
  else
    match rec_content record with
    | None =>
        do! (match native b !! key with
             | Some id => do! set_native (delete key (native b));; close_quietly id
             | None => st_ret tt
             end);;
        b <-! st_get;;
        match projections b !! key with
        | Some (id, _) => do! set_projections (delete key (projections b));; close_quietly id
        | None => st_ret tt
        end
    | Some content =>
        let previous := projections b !! key in
        if bool_decide (is_Some (native b !! key))
           || is_some_and (fun p => bool_decide (p.2 = content)) previous
        then st_ret tt
        else
          let replaces := match previous with Some p => p.1 | None => 0 end in
          id <-! on_br_hub (on_proj (on_desk (shell_show key content replaces true)));;
          b <-! st_get;;
          set_projections (<[key := (id, content)]> (projections b))
    end.

(** [rx/notification_hub 900-952 NotificationHub::bridge] *)
Fixpoint reconcile_records (records : list NotificationRecord) : bridging unit :=
  match records with
  | [] => st_ret tt
  | record :: records => do! reconcile_record record;; reconcile_records records
  end.

(** Removing the copies of what the history no longer has.
    [rx/notification_hub 963-967 NotificationHub::bridge] *)
Fixpoint retire_copies (keys : list NotificationKey) : bridging unit :=
  match keys with
  | [] => st_ret tt
  | key :: keys =>
      b <-! st_get;;
      do! (match projections b !! key with
           | Some (id, _) => do! set_projections (delete key (projections b));; close_quietly id
           | None => st_ret tt
           end);;
      retire_copies keys
  end.

(** [rx/notification_hub 1004-1008 NotificationHub::bridge] *)
Definition bridge_write (writable : bool) (reply : BridgeReply) : bridging unit :=
  do! st_ensure writable "notification bridge write"%string;;
  fun b => ({| br_hub := br_hub b; native := native b; projections := projections b;
               inventory := inventory b; br_written := br_written b ++ [reply] |}, Ok tt).
(** [rx/notification_hub 979-1008 NotificationHub::bridge] *)
Fixpoint bridge_write_all (writable : bool) (replies : list BridgeReply) : bridging unit :=
  match replies with
  | [] => st_ret tt
  | reply :: replies => do! bridge_write writable reply;; bridge_write_all writable replies
  end.

(** [rx/notification_hub 899-1008 NotificationHub::bridge]; [writable] is whether the shell takes a
    line in time. *)
Definition bridge_reconcile (writable : bool) : bridging unit :=
  b <-! st_get;;
  let records := store_view (hub_store (br_hub b)) in
  do! reconcile_records records;;
  b <-! st_get;;
  do! retire_copies (List.filter
        (fun key => negb (existsb (fun r => is_key key r && bool_decide (is_Some (rec_content r))) records))
        (merge_sort key_le (map_to_list (projections b)).*1));;
  b <-! st_get;;
  let phones := (fun prefix => default "" (imported_phones (hub_store (br_hub b)) !! prefix))
                  <$> keys_in_order (imported_phones (hub_store (br_hub b))) in
  bridge_write_all writable
    ((Reply_RetirePhone <$> List.filter (fun name => negb (str_is_empty name)) phones)
     ++ [Reply_Sources identity (hub_source_names (br_hub b)); Reply_Ready]).

(** What wakes the connection: a line of the shell, or a change of the history. *)
Inductive BridgeEvent := Bridge_line (message : BridgeMessage) | Bridge_changed.

(** [rx/notification_hub 893-898 NotificationHub::bridge]; the shell's inventory is waited for before
    anything is shown. *)
Definition bridge_step (writable : bool) (event : BridgeEvent) : bridging unit :=
  match event with
  | Bridge_line message =>
      do! bridge_message message;;
      b <-! st_get;;
      if bool_decide (is_Some (inventory b)) then st_ret tt else bridge_reconcile writable
  | Bridge_changed =>
      b <-! st_get;;
      if bool_decide (is_Some (inventory b)) then st_ret tt else bridge_reconcile writable
  end.

(** A connection that starts.  [rx/notification_hub 816-830 NotificationHub::bridge] *)
Definition bridge_start (h : Hub D) : Bridge D :=
  {| br_hub := with_errors (hub_error h) None h; native := ∅; projections := ∅; inventory := None;
     br_written := [] |}.
End Bridge.

(** ** What the shell shows *)

Section Reconcile.
Context {D : Type} `{Shell D} (digest : SharedNotification -> string) (identity : string).

(** The maps of the connection are kept. *)
Definition same_maps (b b' : Bridge D) : Prop :=
  native b' = native b /\ projections b' = projections b.
#[local] Instance same_maps_preorder : PreOrder same_maps.
Proof. split; [by split|]. intros a b c [] []. split; congruence. Qed.
Lemma on_br_hub_maps {A} (m : stateful (Hub D) string A) : within same_maps (on_br_hub m).
Proof. by intros b. Qed.
Lemma close_quietly_maps id : within same_maps (close_quietly id).
Proof. unfold close_quietly. repeat within_step. apply on_br_hub_maps. Qed.

Lemma close_quietly_Ok id (b : Bridge D) : exists b', close_quietly id b = (b', Ok tt) /\ same_maps b b'.
Proof.
  pose proof (close_quietly_maps id b) as Hm. revert Hm. unfold close_quietly, st_bind, attempt, st_ret.
  cbn [fst]. intros Hm. by eexists.
Qed.

(** Leaving the entries of the other keys alone. *)
Definition others_kept (key : NotificationKey) (b b' : Bridge D) : Prop :=
  forall k, k <> key -> native b' !! k = native b !! k /\ projections b' !! k = projections b !! k.

Lemma reconcile_record_spec r (b b' : Bridge D) :
  reconcile_record digest identity r b = (b', Ok tt) ->
  others_kept (rec_key r) b b'
  /\ (if local_phone identity (rec_key r) then same_maps b b' else
       match rec_content r with
       | None => native b' !! rec_key r = None /\ projections b' !! rec_key r = None
       | Some c => native b' = native b
                   /\ (native b !! rec_key r = None -> exists id, projections b' !! rec_key r = Some (id, c))
       end).
Proof.
  unfold reconcile_record. unfold st_bind at 1, st_get at 1.
  assert (forall b', same_maps b b' -> others_kept (rec_key r) b b') as Hsame
    by (intros b1 [E1 E2] k _; by rewrite E1, E2).
  destruct (local_phone _ _).
  { destruct (store_record _ _) as [cur|]; [|intros [= <-]; split; [by apply Hsame|by split]].
    intros Hc. pose proof (on_br_hub_maps (A := unit)) as Hm. unfold cache_quietly in Hc.
    match type of Hc with on_br_hub ?m _ = _ => specialize (Hm m b) end.
    rewrite Hc in Hm. split; [by apply Hsame|done]. }
  destruct (rec_content r) as [c|].
  - destruct (bool_decide _ || _) eqn:Eb.
    + intros [= <-]. split; [by apply Hsame|]. split; [done|]. intros Hn.
      rewrite bool_decide_eq_false_2 in Eb by (rewrite Hn; by intros []). cbn [orb] in Eb.
      destruct (projections b !! rec_key r) as [[id old]|]; [|done]. cbn in Eb.
      apply bool_decide_eq_true in Eb. exists id. congruence.
    + intros Hs. apply st_bind_Ok in Hs as (b1 & id & Hs & Hp). injection Hs as <- _.
      unfold st_bind, st_get, set_projections, set_maps in Hp. injection Hp as <-.
      split; [|split; [done|]].
      * intros k Hk. cbn. split; [done|]. by rewrite lookup_insert_ne.
      * intros _. exists id. cbn. by rewrite lookup_insert_eq.
  - intros Hs. apply st_bind_Ok in Hs as (b1 & [] & H1 & Hs). unfold st_bind at 1, st_get in Hs.
    assert (others_kept (rec_key r) b b1 /\ native b1 !! rec_key r = None) as [Ho1 Hn1].
    { destruct (native b !! rec_key r) as [id|] eqn:En; [|injection H1 as <-; split; [|done]; by apply Hsame].
      apply st_bind_Ok in H1 as (b2 & [] & Hs1 & H1). injection Hs1 as <-.
      match type of H1 with close_quietly _ ?x = _ => destruct (close_quietly_Ok id x) as (b3 & Hc & [E1 E2]) end.
      rewrite Hc in H1. injection H1 as <-. cbn in E1, E2. split.
      - intros k Hk. rewrite E1, E2. split; [by rewrite lookup_delete_ne|done].
      - by rewrite E1, lookup_delete_eq. }
    destruct (projections b1 !! rec_key r) as [[id c]|] eqn:Ep; [|injection Hs as <-; by split].
    apply st_bind_Ok in Hs as (b2 & [] & Hs1 & H2). injection Hs1 as <-.
    match type of H2 with close_quietly _ ?x = _ => destruct (close_quietly_Ok id x) as (b3 & Hc & [E1 E2]) end.
    rewrite Hc in H2. injection H2 as <-. cbn in E1, E2. split; [|split].
    + intros k Hk. destruct (Ho1 k Hk) as [F1 F2]. rewrite E1, E2, lookup_delete_ne by done. by split.
    + by rewrite E1.
    + by rewrite E2, lookup_delete_eq.
Qed.

Lemma reconcile_records_spec rs : forall b b' : Bridge D, NoDup (record_keys rs) ->
  reconcile_records digest identity rs b = (b', Ok tt) ->
  (forall k, k ∉ record_keys rs -> native b' !! k = native b !! k /\ projections b' !! k = projections b !! k)
  /\ (forall r, In r rs -> local_phone identity (rec_key r) = false ->
       match rec_content r with
       | None => native b' !! rec_key r = None /\ projections b' !! rec_key r = None
       | Some c => native b' !! rec_key r = native b !! rec_key r
                   /\ (native b !! rec_key r = None -> exists id, projections b' !! rec_key r = Some (id, c))
       end).
Proof.
  induction rs as [|r rs IH]; intros b b' Hnd Hr; [injection Hr as <-; by split|].
  cbn [reconcile_records] in Hr. apply st_bind_Ok in Hr as (b1 & [] & H1 & Hr).
  unfold record_keys in Hnd. rewrite fmap_cons in Hnd. apply NoDup_cons in Hnd as [Hn Hnd].
  destruct (reconcile_record_spec _ _ _ H1) as [Ho Hsp]. destruct (IH _ _ Hnd Hr) as [Hk Hall]. split.
  - intros k Hkey. unfold record_keys in Hkey. rewrite fmap_cons, not_elem_of_cons in Hkey.
    destruct Hkey as [Hne Hkey]. destruct (Hk k Hkey) as [-> ->]. by apply Ho.
  - intros x [<-|Hx] Hl.
    + rewrite Hl in Hsp. destruct (Hk _ Hn) as [-> ->].
      destruct (rec_content r); [|done]. destruct Hsp as [-> ?]. by split.
    + specialize (Hall x Hx Hl). assert (rec_key x <> rec_key r) as Hne.
      { intros E. apply Hn. apply list_elem_of_fmap. exists x. split; [done|by apply list_elem_of_In]. }
      destruct (Ho _ Hne) as [E1 E2]. destruct (rec_content x); [|done]. by rewrite <- E1.
Qed.

Lemma retire_copies_spec keys : forall b b' : Bridge D, retire_copies keys b = (b', Ok tt) ->
  native b' = native b
  /\ forall k, projections b' !! k = if bool_decide (k ∈ keys) then None else projections b !! k.
Proof.
  induction keys as [|key keys IH]; intros b b' Hr; [injection Hr as <-; by split|].
  cbn [retire_copies] in Hr. unfold st_bind at 1, st_get in Hr.
  apply st_bind_Ok in Hr as (b1 & [] & H1 & Hr). destruct (IH _ _ Hr) as [En Hp].
  assert (native b1 = native b /\ projections b1 = delete key (projections b)) as [E1 E2].
  { destruct (projections b !! key) as [[id c]|] eqn:Ep; [|injection H1 as <-; by rewrite delete_id].
    apply st_bind_Ok in H1 as (b2 & [] & Hs1 & H1). injection Hs1 as <-.
    match type of H1 with close_quietly _ ?x = _ => destruct (close_quietly_Ok id x) as (b3 & Hc & [F1 F2]) end.
    rewrite Hc in H1. by injection H1 as <-. }
  split; [congruence|]. intros k. rewrite Hp, E2.
  destruct (decide (k = key)) as [->|Hne].
  - rewrite (bool_decide_eq_true_2 (key ∈ key :: keys)) by (by left). rewrite lookup_delete_eq.
    by destruct (bool_decide _).
  - rewrite lookup_delete_ne by done. repeat case_bool_decide; set_solver.
Qed.

Lemma bridge_write_all_maps writable l : within same_maps (bridge_write_all (D := D) writable l).
Proof. induction l; cbn [bridge_write_all]; unfold bridge_write; repeat within_step; done. Qed.
End Reconcile.

(** The shell shows what the history holds: after the connection brings it up to date, it shows
    of every notification that is neither this computer's own nor one of its phones' exactly what
    the history has, no removed one and none it does not hold, and nothing of this computer's own
    that is removed. *)
Theorem shell_shows_the_history {D} `{Shell D} (digest : SharedNotification -> string)
    (identity : string) (writable : bool) (b b' : Bridge D) (key : NotificationKey) :
  store_ok (hub_store (br_hub b)) -> local_phone identity key = false ->
  bridge_reconcile digest identity writable b = (b', Ok tt) ->
  let shown_as := view_find key (hub_store (br_hub b)) ≫= rec_content in
  (native b' !! key = None -> snd <$> projections b' !! key = shown_as)
  /\ (is_Some (native b' !! key) -> is_Some shown_as \/ view_find key (hub_store (br_hub b)) = None).
Proof.
  intros Hok Hl Hr shown_as. unfold bridge_reconcile in Hr. unfold st_bind at 1, st_get at 1 in Hr.
  set (records := store_view (hub_store (br_hub b))) in *.
  apply st_bind_Ok in Hr as (b1 & [] & H1 & Hr). unfold st_bind at 1, st_get at 1 in Hr.
  apply st_bind_Ok in Hr as (b2 & [] & H2 & Hr). unfold st_bind at 1, st_get in Hr.
  assert (NoDup (record_keys records)) as Hnd.
  { assert (forall ops s, store_ok s -> store_ok (fold_left (apply_ignoring (local_identity (hub_store (br_hub b)))) ops s))
      as Hf by (induction ops; intros s Hs; [done|]; cbn; auto using apply_ignoring_ok).
    apply (Hf (pending_operations (hub_store (br_hub b))) _ Hok). }
  destruct (reconcile_records_spec _ _ _ _ _ Hnd H1) as [Hother Hrec].
  destruct (retire_copies_spec _ _ _ H2) as [En Hp].
  pose proof (bridge_write_all_maps writable (D := D)) as Hm.
  match type of Hr with bridge_write_all _ ?l _ = _ => specialize (Hm l b2) end.
  rewrite Hr in Hm. destruct Hm as [E1 E2]. cbn [fst] in *. rewrite E1, E2, En, Hp.
  set (keys := List.filter _ _).
  assert (key ∈ keys <-> is_Some (projections b1 !! key)
          /\ forall r, In r records -> rec_key r = key -> rec_content r = None) as Hkeys.
  { unfold keys. rewrite list_elem_of_In, filter_In, <- list_elem_of_In, merge_sort_Permutation.
    rewrite negb_true_iff. rewrite list_elem_of_fmap. split.
    - intros [[[k p] [-> Hin]] Hf]. cbn [fst] in *. apply elem_of_map_to_list in Hin. split; [by eexists|].
      intros r Hr1 Hr2. destruct (rec_content r) eqn:Ec; [|done].
      assert (existsb (fun r => is_key k r && bool_decide (is_Some (rec_content r))) records = true) as Hx; [|by rewrite Hf in Hx].
      apply existsb_exists. exists r. split; [done|]. unfold is_key.
      rewrite Ec. by rewrite !bool_decide_eq_true_2.
    - intros [[p Hpk] Hall]. split; [exists (key, p); split; [done|by apply elem_of_map_to_list]|].
      apply not_true_iff_false. intros (r & Hr1 & [Hr2 Hr3]%andb_true_iff)%existsb_exists.
      unfold is_key in Hr2. apply bool_decide_eq_true in Hr2, Hr3. rewrite (Hall r Hr1 Hr2) in Hr3. by destruct Hr3. }
  unfold shown_as, view_find. fold records.
  destruct (List.find (is_key key) records) as [r|] eqn:Ef.
  - pose proof (find_key _ _ _ Ef) as Hk. apply List.find_some in Ef as [Hin _]. specialize (Hrec r Hin).
    rewrite Hk in Hrec. specialize (Hrec Hl). cbn [option_bind mbind].
    destruct (rec_content r) as [c|] eqn:Ec; cbn.
    + destruct Hrec as [F1 F2]. split; [|intros _; left; by eexists]. intros Hn.
      destruct F2 as [id Hid]; [by rewrite <- F1|].
      rewrite bool_decide_eq_false_2; [by rewrite Hid|]. intros [_ Ha]%Hkeys. by rewrite (Ha r) in Ec.
    + destruct Hrec as [F1 F2]. rewrite F1, F2. split; [by destruct (bool_decide _)|by intros []].
  - cbn. split; [|by right]. intros _. destruct (projections b1 !! key) as [p|] eqn:Ep;
      [|by destruct (bool_decide _)].
    rewrite bool_decide_eq_true_2; [done|]. apply Hkeys. split; [by eexists|].
    intros r Hr1 Hr2. exfalso. eapply List.find_none in Ef; [|exact Hr1]. unfold is_key in Ef.
    rewrite bool_decide_eq_true_2 in Ef; done.
Qed.

(** ** What the shell can remove *)

Section Removing.
Context {D : Type} `{Shell D} (digest : SharedNotification -> string).
Context (config : NotificationConfig) (identity : string) (json_len : Store -> Z).
Let coord := is_coordinator config identity.

Lemma record_error_spec e (h : Hub D) :
  is_Some (hub_error (record_error e h)) /\ hub_store (record_error e h) = hub_store h.
Proof. unfold record_error. destruct (hub_error h) eqn:E; cbn; by rewrite ?E. Qed.

Lemma hub_local_spec key content (h h' : Hub D) r :
  hub_local config identity json_len key content h = (h', r) ->
  match r with
  | Ok _ => h' = h /\ queue_local key content coord (hub_store h) = (hub_store h, Ok false)
            \/ queue_local key content coord (hub_store h) = (hub_store h', Ok true)
  | Err _ => hub_store h' = hub_store h
  end.
Proof.
  unfold hub_local. unfold st_bind at 1, st_get. fold coord.
  destruct (queue_local key content coord (hub_store h)) as [s [[|]|e]] eqn:Hq.
  - unfold st_bind, on_hub. destruct (hub_persist json_len s h) as [h1 [[]|e]] eqn:Hp;
      intros [= <- <-]; [by right|].
    unfold hub_persist, st_bind, st_ensure, st_ret, st_fail, on_proj in Hp.
    destruct (_ <=? _); by injection Hp as <- _.
  - intros [= <- <-]. left. split; [done|].
    by apply queue_local_cases in Hq as [(_ & -> & _)|(n & ? & _)].
  - by intros [= <- <-].
Qed.

(** Either the operation is committed, or nothing changes because there is nothing to do or because
    of an error that is kept. *)
Lemma local_from_bridge_store key content (h : Hub D) :
  let h' := (local_from_bridge config identity json_len key content h).1 in
  hub_store h' = hub_store h
  /\ (is_Some (hub_error h') \/ queue_local key content coord (hub_store h) = (hub_store h, Ok false))
  \/ queue_local key content coord (hub_store h) = (hub_store h', Ok true).
Proof.
  unfold local_from_bridge, attempt, st_bind. cbn [fst snd].
  destruct (hub_local config identity json_len key content h) as [h1 r] eqn:E.
  apply hub_local_spec in E. cbn [fst snd]. destruct r as [u|e]; cbn [fst st_ret].
  - destruct E as [[-> Hq]|Hq]; [left; split; [done|by right]|by right].
  - left. unfold on_hub. cbn [fst].
    match goal with |- context [record_error ?e h1] => destruct (record_error_spec e h1) as [E2 E3] end.
    split; [congruence|by left].
Qed.

(** What the shell shows of its own is this computer's, and the history keeps every foreign
    notification as it is. *)
Definition native_own (b : Bridge D) : Prop :=
  forall k, is_Some (native b !! k) -> key_origin k = identity.
Definition foreign_kept (b b' : Bridge D) : Prop :=
  native_own b /\ hub_ok coord (hub_store (br_hub b)) ->
  (native_own b' /\ hub_ok coord (hub_store (br_hub b')))
  /\ forall key, key_origin key <> identity ->
       view_find key (hub_store (br_hub b')) = view_find key (hub_store (br_hub b)).
#[local] Instance foreign_preorder : PreOrder foreign_kept.
Proof.
  split; [by intros b|]. intros a b c Hab Hbc Ha. destruct (Hab Ha) as [Hb E1].
  destruct (Hbc Hb) as [Hc E2]. split; [done|]. intros key Hk. by rewrite E2, E1.
Qed.

Lemma same_store_foreign (b b' : Bridge D) :
  native b' ⊆ native b -> hub_store (br_hub b') = hub_store (br_hub b) -> foreign_kept b b'.
Proof.
  intros Hn Hs [Ho Hk]. rewrite Hs. split; [split; [|done]|done].
  intros k [i Hi]. apply Ho. exists i. by eapply lookup_weaken.
Qed.

Lemma on_proj_foreign {A} (m : stateful (Projected D) string A) :
  within foreign_kept (on_br_hub (on_proj m)).
Proof. intros b. by apply same_store_foreign. Qed.
Lemma cache_quietly_same {A} (m : stateful (Projected D) string A) (b : Bridge D) :
  let b' := (cache_quietly m b).1 in
  native b' = native b /\ projections b' = projections b /\ hub_store (br_hub b') = hub_store (br_hub b).
Proof.
  cbn zeta. split_and!; [done|done|]. unfold cache_quietly, on_br_hub, st_bind, attempt, on_hub.
  cbn [fst snd br_hub]. destruct (on_proj m (br_hub b)) as [h r] eqn:E.
  unfold on_proj in E. injection E as <- _. cbn. destruct r; [done|]. unfold record_error. cbn.
  by destruct (hub_error _).
Qed.
Lemma cache_quietly_foreign {A} (m : stateful (Projected D) string A) :
  within foreign_kept (cache_quietly m).
Proof. intros b. destruct (cache_quietly_same m b) as (E & _ & Es). apply same_store_foreign; [by rewrite E|done]. Qed.
Lemma set_projections_foreign p : within foreign_kept (set_projections (D := D) p).
Proof. intros b. by apply same_store_foreign. Qed.
Lemma delete_native_foreign k (b : Bridge D) : foreign_kept b (set_native (delete k (native b)) b).1.
Proof. apply same_store_foreign; [apply delete_subseteq|done]. Qed.

Lemma local_in_bridge_foreign key content : key_origin key = identity ->
  within foreign_kept (local_in_bridge config identity json_len key content).
Proof.
  intros Hkey b [Ho Hk]. unfold local_in_bridge, on_br_hub. cbn [fst native br_hub].
  destruct (local_from_bridge_store key content (br_hub b)) as [[-> _] | Hq]; [by split|].
  destruct (queue_local_view _ _ _ _ _ _ Hk Hq) as (Hk' & Hother & _).
  split; [by split|]. intros k Hne. apply Hother. congruence.
Qed.

Lemma first_key_Some {A} (f : A -> bool) (m : gmap NotificationKey A) k :
  first_key f m = Some k -> exists a, m !! k = Some a /\ f a = true.
Proof. intros [_ Hf]%List.find_some. destruct (m !! k) as [a|]; [|done]. by exists a. Qed.

Lemma bridge_forget_foreign id reason instance key : reason <> 2 ->
  within foreign_kept (bridge_forget config identity json_len id reason instance key).
Proof.
  intros Hr b Hb. pose proof Hb as [Ho _]. revert Hb. fold (foreign_kept b
    (bridge_forget config identity json_len id reason instance key b).1).
  assert ((reason =? 2) = false) as E2 by lia. unfold bridge_forget.
  unfold st_bind at 1, st_get at 1. destruct (first_key _ (native b)) as [k|] eqn:En.
  - apply first_key_Some in En as (i & Hi & _).
    etrans; [apply (delete_native_foreign k)|]. unfold st_bind. cbn [set_native set_maps fst].
    destruct (_ && _); [|done]. apply local_in_bridge_foreign, Ho. by exists i.
  - rewrite E2. destruct (first_key _ (projections b)) as [k|]; [by apply same_store_foreign|].
    destruct (match key with Some k => Some k | None => _ end) as [k|]; [|done].
    destruct (str_eqb (key_origin k) identity) eqn:Ek; [|by rewrite andb_false_r].
    apply str_eqb_spec in Ek. destruct (_ && _); [|done]. by apply local_in_bridge_foreign.
Qed.

Lemma bridge_closed_foreign id reason instance key : reason <> 2 ->
  within foreign_kept (bridge_closed config identity json_len id reason instance key).
Proof.
  intros Hr. unfold bridge_closed. within_step; [|by apply bridge_forget_foreign].
  repeat within_step. apply cache_quietly_foreign.
Qed.

Definition is_dismissal (m : BridgeMessage) : bool :=
  match m with Bridge_Closed _ reason _ _ => reason =? 2 | _ => false end.

Lemma set_maps_foreign n p i (b : Bridge D) : (forall k, is_Some (n !! k) -> key_origin k = identity \/ is_Some (native b !! k)) ->
  foreign_kept b (set_maps n p i b).1.
Proof.
  intros Hn [Ho Hk]. split; [|done]. split; [|done]. intros k Hs. cbn in Hs. destruct (Hn k Hs); auto.
Qed.

Lemma bridge_effect_foreign m : is_dismissal m = false ->
  within foreign_kept (bridge_effect digest config identity json_len m).
Proof.
  intros Hm b Hb. pose proof Hb as [Ho _]. revert Hb. fold (foreign_kept b
    (bridge_effect digest config identity json_len m b).1).
  unfold bridge_effect. unfold st_bind at 1, st_get at 1. destruct m as [|id i c|id k c|id reason i k|].
  - apply set_maps_foreign. intros k [x Hx]. by rewrite lookup_empty in Hx.
  - unfold st_bind. etrans; [apply (set_maps_foreign (<[shared_key identity i := id]> (native b))
      (projections b) ((fun keys => keys ++ [shared_key identity i]) <$> inventory b))|].
    + intros k [x Hx]. apply lookup_insert_Some in Hx as [[<- _]|[_ Hx]]; [by left|right; by exists x].
    + by apply local_in_bridge_foreign.
  - destruct (store_record _ k) as [r|]; [|done]. destruct (rec_content r).
    + apply within_bind; [apply _| |intros; apply set_projections_foreign].
      destruct (local_phone _ _); [apply cache_quietly_foreign|apply within_ret; apply _].
    + apply on_proj_foreign.
  - apply bridge_closed_foreign. cbn in Hm. lia.
  - unfold st_bind, st_ensure, st_ret, st_fail. destruct (bool_decide _); [|done].
    apply set_maps_foreign. auto.
Qed.

Lemma close_quietly_foreign id : within foreign_kept (close_quietly (D := D) id).
Proof. unfold close_quietly. repeat within_step. apply on_proj_foreign. Qed.

Lemma reconcile_record_foreign r : within foreign_kept (reconcile_record digest identity r).
Proof.
  intros b. unfold reconcile_record. unfold st_bind at 1, st_get at 1.
  destruct (local_phone _ _).
  { destruct (store_record _ _); [apply cache_quietly_foreign|done]. }
  destruct (rec_content r) as [c|].
  - destruct (_ || _); [done|]. apply within_bind; [apply _|apply on_proj_foreign|].
    intros id. within_step; [apply within_get; apply _|]. apply set_projections_foreign.
  - unfold st_bind at 1. match goal with |- foreign_kept b (match ?m b with _ => _ end).1 =>
      assert (foreign_kept b (m b).1) as H1 end.
    { destruct (native b !! rec_key r); [|done]. unfold st_bind at 1.
      etrans; [apply (delete_native_foreign (rec_key r))|]. apply close_quietly_foreign. }
    match goal with |- context [?m b] => destruct (m b) as [b1 [u|e]] end; [|exact H1].
    etrans; [exact H1|]. apply within_bind; [apply _|apply within_get; apply _|]. intros b2.
    repeat within_step; apply set_projections_foreign || apply close_quietly_foreign.
Qed.

Lemma bridge_reconcile_foreign writable : within foreign_kept (bridge_reconcile digest identity writable).
Proof.
  assert (forall rs, within foreign_kept (reconcile_records digest identity rs)) as H1.
  { induction rs; cbn [reconcile_records]; repeat within_step; auto using reconcile_record_foreign. }
  assert (forall ks, within foreign_kept (retire_copies (D := D) ks)) as H2.
  { induction ks; cbn [retire_copies]; repeat within_step;
      auto using set_projections_foreign, close_quietly_foreign. }
  assert (forall l, within foreign_kept (bridge_write_all (D := D) writable l)) as H3.
  { induction l; cbn [bridge_write_all]; unfold bridge_write; repeat within_step; done. }
  unfold bridge_reconcile. repeat within_step; auto.
Qed.

Definition dismisses (e : BridgeEvent) : bool :=
  match e with Bridge_line m => is_dismissal m | Bridge_changed => false end.

Lemma bridge_step_foreign writable e : dismisses e = false ->
  within foreign_kept (bridge_step digest config identity json_len writable e).
Proof.
  intros He. destruct e as [m|]; cbn [bridge_step]; unfold bridge_message; repeat within_step;
    auto using bridge_effect_foreign, bridge_reconcile_foreign.
Qed.
End Removing.

(** The events of a connection; a failure ends it. *)
Fixpoint run_bridge {D} `{Shell D} (digest : SharedNotification -> string) (config : NotificationConfig)
    (identity : string) (json_len : Store -> Z) (events : list BridgeEvent) :
  stateful (Bridge D) string unit :=
  match events with
  | [] => st_ret tt
  | e :: events => do! bridge_step digest config identity json_len true e;;
                   run_bridge digest config identity json_len events
  end.

(** The shell removes another computer's notification only when its user dismisses it: whatever
    else it reports, posts, copies it retains, entries that expired or were closed, restarts of its
    inventory, and however the connection ends, every notification of another computer stays in the
    history as it is. *)
Theorem only_dismissals_remove_others {D} `{Shell D} (digest : SharedNotification -> string)
    (config : NotificationConfig) (identity : string) (json_len : Store -> Z)
    (events : list BridgeEvent) (h : Hub D) (key : NotificationKey) :
  hub_ok (is_coordinator config identity) (hub_store h) -> key_origin key <> identity ->
  Forall (fun e => dismisses e = false) events ->
  let b := (run_bridge digest config identity json_len events (bridge_start h)).1 in
  view_find key (hub_store (br_hub b)) = view_find key (hub_store h).
Proof.
  intros Hk Hkey He. cbn zeta.
  assert (within (foreign_kept config identity) (run_bridge digest config identity json_len events)) as Hw.
  { induction He as [|e events He _ IH]; cbn [run_bridge]; [by intros b|].
    apply within_bind; [apply foreign_preorder|by apply bridge_step_foreign|done]. }
  destruct (Hw (bridge_start h)) as [_ Hv]; [|by apply Hv].
  split; [|done]. intros k [x Hx]. cbn [native bridge_start] in Hx. by rewrite lookup_empty in Hx.
Qed.

(** A copy the user dismisses is removed everywhere: its removal is committed to the history, or
    queued for the coordinator, or the failure is kept for the status, and the entry is forgotten. *)
Theorem dismissing_a_copy_removes_it {D} `{Shell D} (digest : SharedNotification -> string)
    (config : NotificationConfig) (identity : string) (json_len : Store -> Z)
    (b b' : Bridge D) (id : Z) (instance : option string) (named : option NotificationKey)
    (key : NotificationKey) (content : SharedNotification) :
  hub_ok (is_coordinator config identity) (hub_store (br_hub b)) ->
  (forall k i, native b !! k = Some i -> i <> id) ->
  (forall k p, projections b !! k = Some p -> p.1 = id -> k = key) ->
  projections b !! key = Some (id, content) ->
  bridge_effect digest config identity json_len (Bridge_Closed id 2 instance named) b = (b', Ok tt) ->
  projections b' !! key = None
  /\ (gone key (hub_store (br_hub b')) \/ is_Some (hub_error (br_hub b'))).
Proof.
  intros Hk Hn Hu Hp He. unfold bridge_effect in He. unfold st_bind at 1, st_get at 1 in He.
  unfold bridge_closed in He. apply st_bind_Ok in He as (b1 & [] & H1 & He).
  assert (native b1 = native b /\ projections b1 = projections b /\ hub_store (br_hub b1) = hub_store (br_hub b))
    as (E1 & E2 & E3).
  { destruct named as [k|]; [destruct (local_phone _ _)|]; try (by injection H1 as <-).
    pose proof (cache_quietly_same (proj_closed (key_instance k) id 2) b) as Hs. by rewrite H1 in Hs. }
  unfold bridge_forget in He. unfold st_bind at 1, st_get in He. rewrite E1, E2 in He.
  destruct (first_key _ (native b)) as [k|] eqn:En.
  { apply first_key_Some in En as (i & Hi & Hid). apply Z.eqb_eq in Hid. by destruct (Hn k i Hi). }
  destruct (first_key _ (projections b)) as [k|] eqn:Ep.
  - apply first_key_Some in Ep as (p & Hpk & Hid). apply Z.eqb_eq in Hid.
    pose proof (Hu k p Hpk Hid) as ->. unfold st_bind, set_projections, set_maps in He.
    cbn [Z.eqb Pos.eqb] in He. unfold local_in_bridge, on_br_hub in He. injection He as <- _.
    cbn [projections br_hub fst snd]. split; [by rewrite lookup_delete_eq|].
    destruct (local_from_bridge_store config identity json_len key None (br_hub b1)) as [[Es [Herr|Hq]]|Hq].
    + by right.
    + left. rewrite Es. rewrite E3 in *. by eapply queue_local_view.
    + left. rewrite E3 in Hq. by eapply queue_local_view.
  - exfalso. eapply List.find_none in Ep.
    2: { apply list_elem_of_In. rewrite merge_sort_Permutation. apply list_elem_of_fmap.
         exists (key, (id, content)). split; [done|]. by apply elem_of_map_to_list. }
    cbn in Ep. rewrite Hp in Ep. cbn in Ep. by rewrite Z.eqb_refl in Ep.
Qed.

(** ** Examples *)

Module SampleBridge.
Definition remote_key : NotificationKey :=
  {| key_origin := "bbbbbbbb:bbbbbbbb:bbbbbbbb:bbbbbbbb"; key_instance := "n1" |}.
Definition history_of_remote : Store :=
  SampleShell.store ∅
    [{| rec_key := remote_key; rec_source_sequence := 2; rec_content := Some (sample_content "hi") |}].
Definition hub : Hub SampleShell.machine := SampleShell.hub history_of_remote.
(** The shell reports one retained copy and then its user's closing it. *)
Definition inventory_events : list BridgeEvent :=
  map Bridge_line [Bridge_Start; Bridge_Posted 4 "own/1" (sample_content "mine");
                   Bridge_Copy 7 remote_key (sample_content "hi"); Bridge_End;
                   Bridge_Closed 7 1 None None].
Definition connected : Bridge SampleShell.machine :=
  (run_bridge SampleShell.digest SampleShell.config sample_origin SampleShell.json_len
     (take 4 inventory_events) (bridge_start hub)).1.
Definition with_copy : Bridge SampleShell.machine :=
  {| br_hub := hub; native := ∅; projections := {[remote_key := (7, sample_content "hi")]};
     inventory := None; br_written := [] |}.
End SampleBridge.

Lemma remote_history_ok : hub_ok (is_coordinator SampleShell.config sample_origin) SampleBridge.history_of_remote.
Proof.
  split; [split| | |]; try (vm_compute; congruence).
  - apply NoDup_singleton.
  - apply NoDup_nil_2.
  - apply Forall_singleton. split; [vm_compute; reflexivity|]. intros c [= <-]. vm_compute; reflexivity.
Qed.

Lemma shell_shows_the_history_witness :
  let b := bridge_start SampleBridge.hub in
  let b' := (bridge_reconcile SampleShell.digest sample_origin true b).1 in
  snd <$> projections b' !! SampleBridge.remote_key = Some (sample_content "hi").
Proof.
  cbn zeta. etransitivity.
  - refine (proj1 (shell_shows_the_history SampleShell.digest sample_origin true
              (bridge_start SampleBridge.hub) _ SampleBridge.remote_key
              (hk_store _ _ remote_history_ok) _ _) _); vm_compute; reflexivity.
  - vm_compute; reflexivity.
Defined.

Lemma only_dismissals_remove_others_witness :
  let b := (run_bridge SampleShell.digest SampleShell.config sample_origin SampleShell.json_len
              SampleBridge.inventory_events (bridge_start SampleBridge.hub)).1 in
  view_find SampleBridge.remote_key (hub_store (br_hub b))
  = view_find SampleBridge.remote_key SampleBridge.history_of_remote.
Proof.
  refine (only_dismissals_remove_others SampleShell.digest SampleShell.config sample_origin
            SampleShell.json_len SampleBridge.inventory_events SampleBridge.hub SampleBridge.remote_key
            remote_history_ok _ _); [vm_compute; congruence|].
  repeat constructor.
Defined.

Lemma dismissing_a_copy_removes_it_witness :
  let b := SampleBridge.with_copy in
  let b' := (bridge_effect SampleShell.digest SampleShell.config sample_origin SampleShell.json_len
               (Bridge_Closed 7 2 None None) b).1 in
  projections b' !! SampleBridge.remote_key = None
  /\ (gone SampleBridge.remote_key (hub_store (br_hub b')) \/ is_Some (hub_error (br_hub b'))).
Proof.
  cbn zeta.
  refine (dismissing_a_copy_removes_it SampleShell.digest SampleShell.config sample_origin
            SampleShell.json_len SampleBridge.with_copy _ 7 None None SampleBridge.remote_key (sample_content "hi")
            remote_history_ok _ _ _ _); [| |vm_compute; reflexivity|vm_compute; reflexivity].
  - intros k i. cbn [native SampleBridge.with_copy]. by rewrite lookup_empty.
  - intros k p. cbn [projections SampleBridge.with_copy]. intros [<- _]%lookup_singleton_Some. done.
Defined.

(** A change that arrives before the shell's inventory shows copies at once, and the inventory then
    forgets them: the shell keeps a copy that nothing will update. *)
Theorem change_before_inventory_shows_copies :
  let run := fun events => (run_bridge SampleShell.digest SampleShell.config sample_origin
               SampleShell.json_len events (bridge_start SampleBridge.hub)).1 in
  let before := run [Bridge_changed] in
  let after := run (Bridge_changed :: map Bridge_line [Bridge_Start; Bridge_End]) in
  projections before !! SampleBridge.remote_key = Some (1, sample_content "hi")
  /\ projections after !! SampleBridge.remote_key = Some (2, sample_content "hi")
  /\ SampleShell.bubbles (desk (hub_projections (br_hub after)))
     = {[1 := SampleBridge.remote_key; 2 := SampleBridge.remote_key]}.
Proof. vm_compute. by split_and!. Qed.
