(* ===== verification/PhoneAccess.v ===== *)
(** * Who may connect as a phone: [phone_pairing.rs] and the admission part of [phone.rs]

    The pairing window with its one-time token and its limit on wrong tokens, the link in the
    QR code, the addresses it offers, and what a phone with a given key and name may do. *)
From stdpp Require Import sorting.
From S2P Require Export Text Identity.

(** ** The pairing window *)

(** [rx/phone_pairing 16-16 PAIRING_WINDOW] *)
Definition PAIRING_WINDOW : Duration := from_secs (5 * 60).
(** [rx/phone_pairing 17-17 FREE_FAILURES] *)
Definition FREE_FAILURES : Z := 3.
(** [rx/phone_pairing 18-18 FAILURE_SPACING] *)
Definition FAILURE_SPACING : Duration := from_secs 1.

(** [rx/phone_pairing 20-28 PairingRefusal] *)
Inductive PairingRefusal := Closed | WrongToken | RateLimited | Refusal_Failed.

(** [rx/phone_pairing 31-38 PairingRefusal::code] *)
Definition refusal_code (r : PairingRefusal) : string :=
  match r with
  | Closed => "pairing_closed"
  | WrongToken => "pairing_wrong_token"
  | RateLimited => "pairing_rate_limited"
  | Refusal_Failed => "pairing_failed"
  end.

(** [rx/phone_pairing 40-47 PairingRefusal::message] *)
Definition refusal_message (r : PairingRefusal) : string :=
  match r with
  | Closed => "pairing isn't open on the computer; run pair-phone again"
  | WrongToken => "the pairing code doesn't match; scan the current QR code"
  | RateLimited => "too many wrong pairing codes; wait a moment"
  | Refusal_Failed => "the computer couldn't save the pairing; see its log"
  end.

(** An IP address: its 32 or 128 bits. *)
Inductive IpAddr := V4 (bits : Z) | V6 (bits : Z).
#[export] Instance IpAddr_eq_dec : EqDecision IpAddr.
Proof. solve_decision. Defined.
#[export, refine] Instance IpAddr_countable : Countable IpAddr := {
  encode a := encode match a with V4 b => inl b | V6 b => inr b end;
  decode p := match decode p with Some (inl b) => Some (V4 b) | Some (inr b) => Some (V6 b)
              | None => None end;
}.
Proof. intros []; by rewrite decode_encode. Defined.

(** [rx/phone_pairing 50-53 Failures] *)
Record Failures := { fail_count : Z; fail_last : Instant }.
(** [rx/phone_pairing 55-59 PairingWindow] *)
Record PairingWindow := {
  window_token : string;
  expires : Instant;
  failures : gmap IpAddr Failures;
}.

(** [format!("{byte:02x}")] of each byte. *)
Definition hex_nibble (n : Z) : Ascii.ascii := ascii_of_byte (if n <? 10 then 48 + n else 87 + n).
Fixpoint lower_hex (bs : bytes) : string :=
  match bs with
  | [] => EmptyString
  | b :: rest => String (hex_nibble (Z.shiftr b 4)) (String (hex_nibble (Z.land b 15)) (lower_hex rest))
  end.
(** [rx/phone_pairing 62-70 PairingWindow::open]; [random] is the 16 bytes of the system's source. *)
Definition PairingWindow_open (random : bytes) (now : Instant) : PairingWindow :=
  {| window_token := lower_hex random; expires := now + PAIRING_WINDOW; failures := ∅ |}.

(** [rx/phone_pairing 76-78 PairingWindow::is_open] *)
Definition is_open (self : PairingWindow) (now : Instant) : bool := now <? expires self.

(** [rx/phone_pairing 179-186 constant_time_eq] *)
Definition constant_time_eq (left right : bytes) : bool :=
  (len left =? len right)
  && (fold_left (fun difference ab => Z.lor difference (Z.lxor ab.1 ab.2)) (combine left right) 0 =? 0).

(** [rx/phone_pairing 80-102 PairingWindow::check] *)
Definition window_check (token : string) (ip : IpAddr) (now : Instant) :
  stateful PairingWindow PairingRefusal unit := fun self =>
  if negb (is_open self now) then (self, Err Closed)
  else if is_some_and (fun f => (FREE_FAILURES <=? fail_count f)
                                && (duration_since now (fail_last f) <? FAILURE_SPACING))
            (failures self !! ip)
  then (self, Err RateLimited)
  else if constant_time_eq (str_bytes token) (str_bytes (window_token self)) then (self, Ok tt)
  else
    let count := match failures self !! ip with Some f => fail_count f | None => 0 end in
    ({| window_token := window_token self; expires := expires self;
        failures := <[ip := {| fail_count := count + 1; fail_last := now |}]> (failures self) |},
     Err WrongToken).

(** [rx/phone_pairing 105-118 pairing_uri], of addresses that are already text. *)
Definition pairing_uri (addresses : list string) (port : Z) (fingerprint token : string) : string :=
  fold_left (fun uri address => (uri ++ "&addr=" ++ address)%string) addresses
    ("hyprmobile://pair?v=1&fp=" ++ fingerprint ++ "&port=" ++ print_dec port
     ++ "&token=" ++ token)%string.

(** ** Addresses *)

Definition is_ipv6 (a : IpAddr) : bool := match a with V6 _ => true | V4 _ => false end.
Definition is_unspecified (a : IpAddr) : bool := match a with V4 b | V6 b => b =? 0 end.
(** [Ipv4Addr::is_loopback] (127.0.0.0/8), [is_link_local] (169.254.0.0/16); [Ipv6Addr::
    is_loopback] (::1) and [is_unicast_link_local] (fe80::/10). *)
Definition is_loopback (a : IpAddr) : bool :=
  match a with V4 b => Z.shiftr b 24 =? 127 | V6 b => b =? 1 end.
Definition is_link_local (a : IpAddr) : bool :=
  match a with V4 b => Z.shiftr b 16 =? 169 * 256 + 254 | V6 b => Z.shiftr b 118 =? 1018 end.

(** [rx/phone_pairing 172-177 is_usable_lan_ip] *)
Definition is_usable_lan_ip (a : IpAddr) : bool :=
  negb (is_loopback a) && negb (is_link_local a) && negb (is_unspecified a).

Definition tunnel_prefixes : list string :=
  ["lo"; "tun"; "tap"; "wg"; "ppp"; "docker"; "br-"; "veth"; "virbr"; "vnet"; "zt"; "tailscale"]%string.
(** [str::contains] of a text. *)
Definition str_contains_text (text s : string) : bool := bool_decide (is_Some (split_once text s)).
(** [rx/phone_pairing 153-170 is_tunnel_or_virtual] *)
Definition is_tunnel_or_virtual (name : string) : bool :=
  existsb (fun prefix => starts_with prefix name) tunnel_prefixes || str_contains_text "pia" name.

(** The order of [sort_by_key(|ip| (ip.is_ipv6(), *ip))]: IPv4 first, then by address. *)
Definition address_le (a b : IpAddr) : Prop :=
  match a, b with
  | V4 x, V4 y | V6 x, V6 y => x <= y
  | V4 _, V6 _ => True
  | V6 _, V4 _ => False
  end.
#[export] Instance address_le_dec : RelDecision address_le.
Proof. intros [x|x] [y|y]; cbn; apply _. Defined.
(** [Vec::dedup]. *)
Fixpoint dedup (l : list IpAddr) : list IpAddr :=
  match l with
  | [] => []
  | a :: rest => match dedup rest with
                 | (b :: _) as r => if decide (a = b) then r else a :: r
                 | [] => [a]
                 end
  end.

(** [rx/phone_pairing 131-151 select_lan_addresses] *)
Definition select_lan_addresses (interfaces : list (string * IpAddr)) (listen : IpAddr) : list IpAddr :=
  if negb (is_unspecified listen) then [listen]
  else dedup (merge_sort address_le
    (map snd (List.filter (fun p => negb (is_tunnel_or_virtual p.1) && is_usable_lan_ip p.2
                                    && (is_ipv6 listen || negb (is_ipv6 p.2))) interfaces))).

(** ** Admission *)

(** [rx/phone 77-82 is_phone_hello] *)
Definition is_phone_hello (hello : Hello) : bool :=
  existsb (fun extension => str_eqb extension HYPR_PHONE_EXTENSION) (extensions hello).

(** [rx/phone 84-94 PhoneAdmission] *)
Inductive PhoneAdmission :=
| Accept (phone : PinnedPhone)
| Pair
| Reject (code message : string).

(** [rx/phone 96-125 admit_phone]; a trusted phone is pinned, which the source expects too. *)
Definition admit_phone (pins : PinStore) (name fingerprint : string) (pairing_open : bool) :
  PhoneAdmission :=
  if is_pc_key pins fingerprint
  then Reject "key_is_pc" "this key is paired as a computer, not a phone"
  else match phone_status pins name fingerprint, pin_phones pins !! name with
       | Trusted, Some phone => Accept phone
       | Trusted, None => Reject "" "trusted phones are pinned"
       | (Unknown | Changed _), _ =>
           if pairing_open then Pair
           else match phone_status pins name fingerprint with
                | Unknown =>
                    Reject "phone_not_paired"
                      "this phone isn't paired; run `edge-receiver-linux pair-phone` on the computer and scan the code"
                | _ =>
                    Reject "phone_key_changed"
                      "a different phone is paired under this name; pair again with `edge-receiver-linux pair-phone`"
                end
       end.

(** [rx/phone 127-139 PhoneFrame] *)
Inductive PhoneFrame :=
| PhoneFrame_Heartbeat (sequence : Z)
| PhoneFrame_Error
| PhoneFrame_Clipboard
| PhoneFrame_Notification
| PhoneFrame_AudioRequest (direction : option AudioDirection) (udp_port : Z)
| PhoneFrame_AudioStopped
| PhoneFrame_PairRequest (token : string)
| PhoneFrame_Unpair
| PhoneFrame_NotAllowed (kind : string).

(** [rx/phone 141-166 classify_phone_frame] *)
Definition classify_phone_frame (frame : Frame) : PhoneFrame :=
  match frame with
  | Frame_Heartbeat heartbeat => PhoneFrame_Heartbeat (heartbeat_sequence heartbeat)
  | Frame_Error _ => PhoneFrame_Error
  | Frame_Clipboard _ => PhoneFrame_Clipboard
  | Frame_Notification _ => PhoneFrame_Notification
  | Frame_NotificationSync _ => PhoneFrame_NotAllowed "NotificationSync"
  | Frame_Phone (Phone_PairRequest token) => PhoneFrame_PairRequest token
  | Frame_Phone Phone_Unpair => PhoneFrame_Unpair
  | Frame_Phone Phone_PairAccepted => PhoneFrame_NotAllowed "PairAccepted"
  | Frame_Phone (Phone_AudioRequest direction udp_port) => PhoneFrame_AudioRequest direction udp_port
  | Frame_Phone (Phone_AudioStopped _) => PhoneFrame_AudioStopped
  | Frame_Phone (Phone_AudioStart _ _ _ _ _) => PhoneFrame_NotAllowed "AudioStart"
  | Frame_Phone (Phone_AudioInvite _) => PhoneFrame_NotAllowed "AudioInvite"
  | Frame_Hello _ => PhoneFrame_NotAllowed "Hello"
  | Frame_ScreenInfo _ => PhoneFrame_NotAllowed "ScreenInfo"
  | Frame_Input _ => PhoneFrame_NotAllowed "Input"
  | Frame_Control _ => PhoneFrame_NotAllowed "Control"
  | Frame_Audio _ => PhoneFrame_NotAllowed "Audio"
  | Frame_Pairing _ => PhoneFrame_NotAllowed "Pairing"
  | Frame_Role _ => PhoneFrame_NotAllowed "Role"
  end.

(** [rx/phone 168-173 LocalHello] *)
Record LocalHello := { local_device_name : string; local_role : Role; local_fingerprint : string }.

(** [rx/phone 176-195 LocalHello::frame] *)
Definition local_hello_frame (self : LocalHello) (notifications images : bool) : Frame :=
  Frame_Hello
    {| protocol_version := PROTOCOL_VERSION; device_name := local_device_name self;
       hello_role := local_role self; public_key_fingerprint := local_fingerprint self;
       capabilities := [];
       extensions := [HYPR_PHONE_EXTENSION]
                     ++ (if notifications then [NOTIFICATIONS_EXTENSION] else [])
                     ++ (if images then [CLIPBOARD_IMAGE_EXTENSION] else []);
       node_capabilities := [] |}.

(** ** Properties *)

(** *** The token *)

Lemma lor_eq_0 a b : Z.lor a b = 0 <-> a = 0 /\ b = 0.
Proof. apply Z.lor_eq_0_iff. Qed.

Lemma fold_differences l : forall acc,
  fold_left (fun difference (ab : Z * Z) => Z.lor difference (Z.lxor ab.1 ab.2)) l acc = 0
  <-> acc = 0 /\ Forall (fun ab => ab.1 = ab.2) l.
Proof.
  induction l as [|[a b] l IH]; intros acc; cbn [fold_left]; [rewrite Forall_nil; tauto|].
  rewrite IH, Z.lor_eq_0_iff, Z.lxor_eq_0_iff, Forall_cons. cbn. tauto.
Qed.

(** The comparison in constant time is equality. *)
Lemma constant_time_eq_spec a b : constant_time_eq a b = true <-> a = b.
Proof.
  unfold constant_time_eq. rewrite andb_true_iff, !Z.eqb_eq, fold_differences. split.
  - intros [Hlen [_ Hall]]. unfold len in Hlen. apply Nat2Z.inj in Hlen.
    revert b Hlen Hall. induction a as [|x a IH]; intros [|y b] Hlen Hall; simpl in *; try lia; [done|].
    apply Forall_cons in Hall as [Hxy Hall]. simpl in Hxy. f_equal; [done|]. apply IH; [lia|done].
  - intros ->. split; [done|]. split; [done|]. induction b as [|x b IH]; [constructor|].
    by constructor.
Qed.

Lemma str_bytes_inj a b : str_bytes a = str_bytes b -> a = b.
Proof. intros E. by rewrite <- (bytes_str_bytes a), E, bytes_str_bytes. Qed.

(** What one check does to the window. *)
Lemma window_check_spec token ip now w w' r : window_check token ip now w = (w', r) ->
  window_token w' = window_token w /\ expires w' = expires w
  /\ (forall other, other <> ip -> failures w' !! other = failures w !! other)
  /\ (r = Ok tt -> token = window_token w /\ now < expires w).
Proof.
  unfold window_check, is_open. destruct (Z.ltb_spec now (expires w)); simpl.
  2:{ by intros [= <- <-]. }
  destruct (is_some_and _ _); [by intros [= <- <-]|].
  destruct (constant_time_eq _ _) eqn:E.
  - intros [= <- <-]. split_and!; [done..|]. intros _. split; [|done].
    by apply constant_time_eq_spec, str_bytes_inj in E.
  - intros [= <- <-]. split_and!; [done|done| |done]. intros other Hne. simpl.
    by rewrite lookup_insert_ne.
Qed.

(** A sequence of checks: the token presented, the address and the time. *)
Definition checks (attempts : list (string * IpAddr * Instant)) (w : PairingWindow) : PairingWindow :=
  fold_left (fun w a => (window_check a.1.1 a.1.2 a.2 w).1) attempts w.

Lemma checks_spec attempts w :
  window_token (checks attempts w) = window_token w /\ expires (checks attempts w) = expires w
  /\ forall ip, Forall (fun a => a.1.2 <> ip) attempts ->
     failures (checks attempts w) !! ip = failures w !! ip.
Proof.
  revert w. induction attempts as [|[[t i] n] attempts IH]; intros w; [done|].
  unfold checks in *. cbn [fold_left fst snd].
  destruct (window_check t i n w) as [w1 r] eqn:E.
  destruct (window_check_spec _ _ _ _ _ _ E) as (Ht & He & Hf & _). simpl.
  destruct (IH w1) as (Ht' & He' & Hf'). split_and!; [congruence..|].
  intros ip [Hne Hall]%Forall_cons. rewrite Hf' by done. by apply Hf.
Qed.

(** Only the token of the window pairs, and wrong tokens do not use it up: whatever was
    presented before from other addresses, an address without recorded failures that presents
    the window's token before it expires is accepted, and nothing but that token ever is. *)
Theorem right_token_is_accepted (w : PairingWindow) (attempts : list (string * IpAddr * Instant))
    (ip : IpAddr) (now : Instant) (token : string) :
  failures w !! ip = None -> Forall (fun a => a.1.2 <> ip) attempts -> now < expires w ->
  (window_check token ip now (checks attempts w)).2
  = if str_eqb token (window_token w) then Ok tt else Err WrongToken.
Proof.
  intros Hnone Hother Hopen. destruct (checks_spec attempts w) as (Ht & He & Hf).
  unfold window_check, is_open. rewrite He, Ht, (Hf _ Hother), Hnone.
  rewrite (proj2 (Z.ltb_lt _ _)) by done. simpl.
  destruct (constant_time_eq _ _) eqn:E.
  - apply constant_time_eq_spec, str_bytes_inj in E as ->. by rewrite str_eqb_refl.
  - destruct (str_eqb token (window_token w)) eqn:E'; [|done]. apply str_eqb_spec in E' as ->.
    by rewrite (proj2 (constant_time_eq_spec _ _) eq_refl) in E.
Qed.

(** *** Guesses are limited *)

(** The wrong tokens one address was told about, by checks from [t0] on. *)
Definition limited (t0 : Instant) (ip : IpAddr) (w : PairingWindow) : Prop :=
  forall f, failures w !! ip = Some f ->
  t0 <= fail_last f /\ (fail_count f - FREE_FAILURES) * FAILURE_SPACING <= fail_last f - t0.

(** The answers an address gets to the tokens it presents. *)
Fixpoint answers (ip : IpAddr) (attempts : list (string * IpAddr * Instant)) (w : PairingWindow) :
  list (Instant * result unit PairingRefusal) :=
  match attempts with
  | [] => []
  | (token, from, now) :: rest =>
      let r := window_check token from now w in
      if decide (from = ip) then (now, r.2) :: answers ip rest r.1 else answers ip rest r.1
  end.
Definition is_wrong (a : Instant * result unit PairingRefusal) : bool :=
  match a.2 with Err WrongToken => true | _ => false end.
Definition failed_count (w : PairingWindow) (ip : IpAddr) : Z :=
  match failures w !! ip with Some f => fail_count f | None => 0 end.

Lemma limited_check t0 ip token from now w : t0 <= now ->
  (forall f, failures w !! ip = Some f -> fail_last f <= now) -> limited t0 ip w ->
  limited t0 ip (window_check token from now w).1.
Proof.
  intros Ht Hlast Hw. unfold window_check. destruct (negb _); [done|].
  destruct (is_some_and _ _) eqn:Hlim; [done|]. destruct (constant_time_eq _ _); [done|].
  intros f. simpl. destruct (decide (from = ip)) as [->|]; [|by rewrite lookup_insert_ne; auto].
  rewrite lookup_insert_eq. intros [= <-]. cbn [fail_last fail_count]. split; [done|].
  unfold FREE_FAILURES, FAILURE_SPACING, from_secs in *.
  destruct (failures w !! ip) as [g|] eqn:Hg; simpl in *; [|lia].
  destruct (Hw g Hg) as [Hg0 Hcount]. pose proof (Hlast g eq_refl).
  unfold duration_since, FREE_FAILURES, FAILURE_SPACING, from_secs in *. apply andb_false_iff in Hlim as [Hc|Hc].
  - apply Z.leb_gt in Hc. lia.
  - apply Z.ltb_ge in Hc. lia.
Qed.

Lemma count_check ip token from now w :
  failed_count (window_check token from now w).1 ip
  = failed_count w ip + (if bool_decide (from = ip) && is_wrong (now, (window_check token from now w).2)
                         then 1 else 0).
Proof.
  unfold window_check, failed_count. destruct (negb _); [simpl; rewrite andb_false_r; lia|].
  destruct (is_some_and _ _); [simpl; rewrite andb_false_r; lia|].
  destruct (constant_time_eq _ _); [simpl; rewrite andb_false_r; lia|]. simpl.
  rewrite andb_true_r. case_bool_decide as Hip.
  - subst. rewrite lookup_insert_eq. simpl. by destruct (failures w !! ip).
  - rewrite lookup_insert_ne by done. lia.
Qed.

Lemma last_check ip token from now w t : t <= now ->
  (forall f, failures w !! ip = Some f -> fail_last f <= t) ->
  forall f, failures (window_check token from now w).1 !! ip = Some f -> fail_last f <= now.
Proof.
  intros Ht Hlast f. unfold window_check.
  assert (failures w !! ip = Some f -> fail_last f <= now) as Hw.
  { intros Hf. pose proof (Hlast f Hf). lia. }
  destruct (negb _); [done|]. destruct (is_some_and _ _); [done|].
  destruct (constant_time_eq _ _); [done|]. simpl.
  destruct (decide (from = ip)) as [->|]; [|by rewrite lookup_insert_ne].
  rewrite lookup_insert_eq. by intros [= <-].
Qed.

(** Attempts in the order of time, none before [t] or after [last]. *)
Fixpoint in_time (t last : Instant) (attempts : list (string * IpAddr * Instant)) : Prop :=
  match attempts with
  | [] => True
  | (_, _, now) :: rest => t <= now <= last /\ in_time now last rest
  end.

Lemma guesses_bounded t0 ip attempts : forall w t last, t0 <= t -> t <= last -> in_time t last attempts ->
  (forall f, failures w !! ip = Some f -> fail_last f <= t) -> limited t0 ip w ->
  failed_count w ip + len (List.filter is_wrong (answers ip attempts w)) <= FREE_FAILURES
  \/ (failed_count w ip + len (List.filter is_wrong (answers ip attempts w)) - FREE_FAILURES)
     * FAILURE_SPACING <= last - t0.
Proof.
  induction attempts as [|[[token from] now] rest IH]; intros w t last Ht0 Htl Hin Hlast Hw.
  - cbn [answers List.filter]. rewrite len_nil, Z.add_0_r. unfold failed_count.
    destruct (failures w !! ip) as [f|] eqn:Hf; [|left; unfold FREE_FAILURES; lia].
    right. destruct (Hw f Hf). pose proof (Hlast f eq_refl). lia.
  - destruct Hin as [Hnow Hrest]. cbn [answers].
    set (w1 := (window_check token from now w).1).
    assert (limited t0 ip w1) as Hw1.
    { apply limited_check; [lia| |done]. intros f Hf. pose proof (Hlast f Hf). lia. }
    pose proof (last_check ip token from now w t ltac:(lia) Hlast) as Hlast1. fold w1 in Hlast1.
    pose proof (count_check ip token from now w) as Hc. fold w1 in Hc.
    specialize (IH w1 now last ltac:(lia) ltac:(lia) Hrest Hlast1 Hw1).
    destruct (decide (from = ip)) as [Hip|Hip].
    + rewrite bool_decide_eq_true_2 in Hc by done. cbn [List.filter]. simpl andb in Hc.
      destruct (is_wrong _); [rewrite len_cons|]; rewrite Hc in IH;
        [replace (failed_count w ip + (1 + _)) with
           (failed_count w ip + 1 + len (List.filter is_wrong (answers ip rest w1))) by lia|
         rewrite Z.add_0_r in IH]; exact IH.
    + rewrite bool_decide_eq_false_2 in Hc by done. simpl andb in Hc. by rewrite Hc, Z.add_0_r in IH.
Qed.

(** Guessing is slow: of the tokens one address presents to a new window in a span of time, at
    most three and one more per second of the span are compared and found wrong; the others are
    refused unseen. *)
Theorem guesses_are_limited (random : bytes) (opened last : Instant) (ip : IpAddr)
    (attempts : list (string * IpAddr * Instant)) :
  opened <= last -> in_time opened last attempts ->
  (len (List.filter is_wrong (answers ip attempts (PairingWindow_open random opened)))
   - FREE_FAILURES) * FAILURE_SPACING <= last - opened.
Proof.
  intros Hle Hin.
  assert (failed_count (PairingWindow_open random opened) ip = 0) as H0.
  { unfold failed_count. cbn [failures PairingWindow_open]. by rewrite lookup_empty. }
  destruct (guesses_bounded opened ip attempts (PairingWindow_open random opened) opened last)
    as [Hc|Hc]; [lia|done|done| | | |]; try (by intros f; cbn; rewrite lookup_empty);
    rewrite H0 in Hc; unfold FAILURE_SPACING, from_secs, FREE_FAILURES in *; lia.
Qed.

(** *** Admission *)

Lemma phone_status_trusted pins name fingerprint :
  phone_status pins name fingerprint = Trusted
  <-> exists phone, pin_phones pins !! name = Some phone /\ phone_fingerprint phone = fingerprint.
Proof.
  unfold phone_status, pin_status_of. destruct (pin_phones pins !! name) as [phone|]; simpl.
  - destruct (str_eqb _ fingerprint) eqn:E.
    + apply str_eqb_spec in E. split; [eauto|done].
    + apply str_eqb_neq in E. split; [done|]. intros (p & [= <-] & Hp). done.
  - split; [done|]. by intros (p & ? & _).
Qed.

(** A phone is let in exactly when its name is pinned with its key and the key is no
    computer's; it may present a pairing token exactly when it is not let in, its key is no
    computer's, and pairing is open.  Everyone else is rejected. *)
Theorem admission_is_by_name_and_key (pins : PinStore) (name fingerprint : string)
    (pairing_open : bool) :
  (forall phone, admit_phone pins name fingerprint pairing_open = Accept phone <->
     is_pc_key pins fingerprint = false /\ pin_phones pins !! name = Some phone
     /\ phone_fingerprint phone = fingerprint)
  /\ (admit_phone pins name fingerprint pairing_open = Pair <->
     is_pc_key pins fingerprint = false /\ pairing_open = true
     /\ forall phone, pin_phones pins !! name = Some phone -> phone_fingerprint phone <> fingerprint).
Proof.
  unfold admit_phone. destruct (is_pc_key pins fingerprint).
  { split; [intros phone|]; split; try done; intuition congruence. }
  destruct (phone_status pins name fingerprint) eqn:Hs.
  - apply phone_status_trusted in Hs as (phone & Hp & Hf). rewrite Hp. split.
    + intros phone'. split; [intros [= <-]; auto|]. intros (_ & [= <-] & _). done.
    + split; [done|]. intros (_ & _ & Hno). by destruct (Hno phone eq_refl).
  - assert (pin_phones pins !! name = None) as Hp.
    { unfold phone_status, pin_status_of in Hs. destruct (pin_phones pins !! name); [|done].
      simpl in Hs. by destruct (str_eqb _ _). }
    rewrite Hp. destruct pairing_open; split; [intros phone|..|intros phone|];
      split; try done; try (intros (_ & ? & _); congruence).
  - assert (forall phone, pin_phones pins !! name = Some phone -> phone_fingerprint phone <> fingerprint)
      as Hne.
    { intros phone Hp Hf. assert (phone_status pins name fingerprint = Trusted) as Ht
        by (apply phone_status_trusted; eauto). congruence. }
    destruct pairing_open; split; [intros phone|..|intros phone|]; split; try done;
      try (intros (_ & Hp & Hf); by destruct (Hne _ Hp)). 
    intros (_ & ? & _). done.
Qed.

(** *** The addresses offered *)

Lemma dedup_in a l : a ∈ dedup l <-> a ∈ l.
Proof.
  induction l as [|b l IH]; [done|]. cbn [dedup]. rewrite elem_of_cons, <- IH.
  destruct (dedup l) as [|c r]; [by rewrite list_elem_of_singleton, elem_of_nil; tauto|].
  destruct (decide (b = c)) as [->|]; rewrite !elem_of_cons; tauto.
Qed.

(** The link offers only addresses a phone can reach: the listener's own if it has one, and
    otherwise addresses of interfaces that are no tunnels, neither loopback, link-local nor
    unspecified, and of a family the listener accepts; each such address is offered. *)
Theorem offered_addresses_are_reachable (interfaces : list (string * IpAddr)) (listen a : IpAddr) :
  a ∈ select_lan_addresses interfaces listen <->
  if is_unspecified listen
  then exists name, (name, a) ∈ interfaces /\ is_tunnel_or_virtual name = false
       /\ is_loopback a = false /\ is_link_local a = false /\ is_unspecified a = false
       /\ (is_ipv6 a = true -> is_ipv6 listen = true)
  else a = listen.
Proof.
  unfold select_lan_addresses. destruct (is_unspecified listen); simpl;
    [|by rewrite list_elem_of_singleton].
  rewrite dedup_in, (merge_sort_Permutation address_le), list_elem_of_In, in_map_iff. split.
  - intros ([name b] & <- & Hin). apply filter_In in Hin as [Hin Hf]. simpl in *.
    unfold is_usable_lan_ip in Hf. exists name. rewrite list_elem_of_In.
    destruct (is_tunnel_or_virtual name), (is_loopback b), (is_link_local b), (is_unspecified b);
      simpl in Hf; try done.
    split_and!; try done. destruct (is_ipv6 listen), (is_ipv6 b); done.
  - intros (name & Hin & Ht & Hlo & Hll & Hun & H6). exists (name, a). split; [done|].
    apply filter_In. split; [by apply list_elem_of_In|]. simpl. unfold is_usable_lan_ip.
    rewrite Ht, Hlo, Hll, Hun. simpl.
    destruct (is_ipv6 a); [rewrite (H6 eq_refl); done|]. by rewrite orb_true_r.
Qed.

(** *** Witnesses *)

Definition sample_window : PairingWindow := PairingWindow_open (repeat 171 16) 0.

Example right_token_is_accepted_witness :
  (window_check "abababababababababababababababab" (V4 21) 5
     (checks [("garbage"%string, V4 99, 1); ("garbage"%string, V4 99, 2)] sample_window)).2 = Ok tt.
Proof.
  rewrite (right_token_is_accepted sample_window
             [("garbage"%string, V4 99, 1); ("garbage"%string, V4 99, 2)] (V4 21) 5
             "abababababababababababababababab"); [vm_compute; reflexivity| | |].
  - vm_compute. reflexivity.
  - repeat constructor; cbn; congruence.
  - vm_compute. reflexivity.
Defined.

Example guesses_are_limited_witness :
  (len (List.filter is_wrong (answers (V4 99)
     [("a"%string, V4 99, 0); ("b"%string, V4 99, 1); ("c"%string, V4 99, 2); ("d"%string, V4 99, 3);
      ("e"%string, V4 99, from_secs 1 + 2)] sample_window)) - FREE_FAILURES) * FAILURE_SPACING
  <= from_secs 1 + 2 - 0.
Proof.
  apply (guesses_are_limited (repeat 171 16) 0 (from_secs 1 + 2) (V4 99)
     [("a"%string, V4 99, 0); ("b"%string, V4 99, 1); ("c"%string, V4 99, 2); ("d"%string, V4 99, 3);
      ("e"%string, V4 99, from_secs 1 + 2)]); [vm_compute; congruence|].
  cbn. unfold from_secs. lia.
Defined.
