(* ===== verification/PhoneSessions.v ===== *)
(** * The phones of a receiver: [PhoneSessions] of [phone.rs]

    Admitting connections, pairing, unpairing and listing phones.  The receiver loop owns the
    pin store and handles one request at a time; a session task is represented by what the loop
    knows of it.  Requests come with what the system answers meanwhile: the time, whether the
    pins could be saved, random bytes, and the addresses of the interfaces. *)
From S2P Require Export Config PhoneAccess.

(** [rx/phone 243-247 PhoneCommand] *)
Inductive PhoneCommand := Command_Audio (direction : option AudioDirection).

(** [rx/phone 254-257 Entry] *)
Inductive Entry := Pinned (phone : PinnedPhone) | Pairing.

(** [rx/phone 324-329 RunningPhone]; [task_finished] is [task.is_finished()]. *)
Record RunningPhone := {
  running_name : string;
  running_pairing : bool;
  commands : list PhoneCommand;
  task_finished : bool;
}.

(** [rx/phone 259-274 SessionContext], what differs between sessions. *)
Record SessionContext := {
  ctx_name : string;
  ctx_fingerprint : string;
  ctx_ip : IpAddr;
  clipboard_images : bool;
  ctx_notifications : bool;
  accepts_audio_invite : bool;
}.

(** [rx/phone 331-348 PhoneSessions]; the watcher of a pairing is a number, [told] what watchers were
    sent. *)
Record PhoneSessions := {
  local : LocalHello;
  listen_port : Z;
  clipboard_source : option AppConfig;
  desktop : bool;
  notification_hub : bool;
  mirrors : gset string;
  sessions : gmap string RunningPhone;
  pairing : option PairingWindow;
  paired_watcher : option nat;
  told : list (nat * string);
}.

Definition set_sessions : gmap string RunningPhone -> PhoneSessions -> PhoneSessions :=
  ltac:(field_setter sessions).
Definition set_mirrors : gset string -> PhoneSessions -> PhoneSessions :=
  ltac:(field_setter mirrors).
Definition set_pairing (w : option PairingWindow) (watcher : option nat) (t : list (nat * string))
    (self : PhoneSessions) : PhoneSessions :=
  {| local := local self; listen_port := listen_port self; clipboard_source := clipboard_source self;
     desktop := desktop self; notification_hub := notification_hub self; mirrors := mirrors self;
     sessions := sessions self; pairing := w; paired_watcher := watcher; told := t |}.

(** [rx/phone 718-719 MAX_PAIRING_SESSIONS] *)
Definition MAX_PAIRING_SESSIONS : Z := 4.

(** [rx/phone 351-374 PhoneSessions::new] *)
Definition PhoneSessions_new (local : LocalHello) (port : Z) (clipboard : option AppConfig) :
  PhoneSessions :=
  {| local := local; listen_port := port; clipboard_source := clipboard; desktop := false;
     notification_hub := false; mirrors := ∅; sessions := ∅; pairing := None;
     paired_watcher := None; told := [] |}.

(** [rx/phone 404-408 PhoneSessions::pairing_open] *)
Definition pairing_open (self : PhoneSessions) (now : Instant) : bool :=
  is_some_and (fun window => is_open window now) (pairing self).

(** The sessions that are pairing. *)
Definition pairing_count (m : gmap string RunningPhone) : Z :=
  Z.of_nat (size (filter (fun p => running_pairing p.2 = true) m)).

Inductive start_result := Started (entry : Entry) (hello : Frame) (context : SessionContext)
                        | Rejected (code message : string).

(** [rx/phone 410-518 PhoneSessions::start] *)
Definition start (self : PhoneSessions) (ip : IpAddr) (name fingerprint : string)
    (exts : list string) (pins : PinStore) (now : Instant) : PhoneSessions * start_result :=
  let advertises name := existsb (fun extension => str_eqb extension name) exts in
  let phone_takes_images := advertises CLIPBOARD_IMAGE_EXTENSION in
  let self := set_sessions (filter (fun p => task_finished p.2 = false) (sessions self)) self in
  let run entry is_pairing :=
    let images := is_some_and (fun config => images_enabled (cfg_clipboard config))
                    (clipboard_source self) in
    let context := {| ctx_name := name; ctx_fingerprint := fingerprint; ctx_ip := ip;
                      clipboard_images := images && phone_takes_images;
                      ctx_notifications := desktop self;
                      accepts_audio_invite := advertises PHONE_AUDIO_INVITE_EXTENSION |} in
    let running := {| running_name := name; running_pairing := is_pairing; commands := [];
                      task_finished := false |} in
    let self := if desktop self then set_mirrors ({[fingerprint]} ∪ mirrors self) self else self in
    (set_sessions (<[fingerprint := running]> (delete fingerprint (sessions self))) self,
     Started entry (local_hello_frame (local self) (desktop self) images) context) in
  match admit_phone pins name fingerprint (pairing_open self now) with
  | Accept phone => run (Pinned phone) false
  | Pair =>
      if MAX_PAIRING_SESSIONS <=? pairing_count (sessions self)
      then (self, Rejected "pairing_busy" "too many phones are pairing at once")
      else run Pairing true
  | Reject code message => (self, Rejected code message)
  end.

(** ** Requests *)

(** The receiver loop: the sessions, the pins in memory and the pins on disk. *)
Record Receiver := { phones : PhoneSessions; pins : PinStore; disk : PinStore }.

(** What the system answers while a request is handled. *)
Record Answers := {
  at_ : Instant;
  saves : bool;
  random16 : bytes;
  lan : list string;
  hub_removes : bool;
}.

(** [rx/phone 207-241 PhoneRequest] *)
Inductive PhoneRequest :=
| Request_Pair (name fingerprint : string) (ip : IpAddr) (token : string)
| Request_Forget (name fingerprint : string)
| Request_OpenPairing (paired : nat)
| Request_Unpair (name : string)
| Request_List
| Request_Audio (fingerprint : string) (direction : option AudioDirection).

Inductive Reply :=
| Reply_Pair (r : result PinnedPhone PairingRefusal)
| Reply_Offer (uri : string) (expires_in : Duration)
| Reply_Unpair (r : result bool string)
| Reply_List (phones : list (string * bool))
| No_reply.

(** [rx/phone 709-715 PhoneSessions::connected] *)
Definition connected (self : PhoneSessions) : list string :=
  omap (fun p => if negb (running_pairing p.2) && negb (task_finished p.2)
                 then Some (running_name p.2) else None) (map_to_list (sessions self)).

(** [rx/phone 625-663 PhoneSessions::pair] *)
Definition pair (env : Answers) (name fingerprint : string) (ip : IpAddr) (token : string)
    (r : Receiver) : Receiver * result PinnedPhone PairingRefusal :=
  match pairing (phones r) with
  | None => (r, Err Closed)
  | Some window =>
      let checked := window_check token ip (at_ env) window in
      let self := set_pairing (Some checked.1) (paired_watcher (phones r)) (told (phones r)) (phones r) in
      match checked.2 with
      | Err refusal => ({| phones := self; pins := pins r; disk := disk r |}, Err refusal)
      | Ok _ =>
          if is_pc_key (pins r) fingerprint
          then ({| phones := self; pins := pins r; disk := disk r |}, Err Refusal_Failed)
          else
            let others := filter (fun p => phone_fingerprint p.2 <> fingerprint) (pin_phones (pins r)) in
            let pinned := pin_phone name fingerprint PhoneFeature_all
                            {| pin_peers := pin_peers (pins r); pin_phones := others |} in
            if negb (saves env)
            then ({| phones := self; pins := pins r; disk := disk r |}, Err Refusal_Failed)
            else
              let told' := match paired_watcher self with
                           | Some watcher => told self ++ [(watcher, name)]
                           | None => told self
                           end in
              ({| phones := set_pairing None None told' self; pins := pinned; disk := pinned |},
               ok_or (pin_phones pinned !! name) Refusal_Failed)
      end
  end.

(** [rx/phone 665-707 PhoneSessions::unpair] *)
Definition unpair (env : Answers) (name : string) (r : Receiver) : Receiver * result bool string :=
  match remove_phone name (pins r) with
  | (_, None) => (r, Ok false)
  | (rest, Some removed) =>
      if negb (saves env)
      then ({| phones := phones r;
               pins := {| pin_peers := pin_peers rest;
                          pin_phones := <[name := removed]> (pin_phones rest) |};
               disk := disk r |}, Err "failed to save pins"%string)
      else
        let self := set_sessions (delete (phone_fingerprint removed) (sessions (phones r))) (phones r) in
        let self := if desktop self
                    then set_mirrors (mirrors self ∖ {[phone_fingerprint removed]}) self else self in
        ({| phones := self; pins := rest; disk := rest |},
         if notification_hub self && negb (hub_removes env)
         then Err "phone unpaired, but shared notification removal failed"%string else Ok true)
  end.

(** [rx/phone 538-623 PhoneSessions::handle_request] *)
Definition handle_request (env : Answers) (request : PhoneRequest) (r : Receiver) : Receiver * Reply :=
  match request with
  | Request_Pair name fingerprint ip token =>
      let p := pair env name fingerprint ip token r in (p.1, Reply_Pair p.2)
  | Request_Forget name fingerprint =>
      match phone_status (pins r) name fingerprint with
      | Trusted => ((unpair env name r).1, No_reply)
      | _ => (r, No_reply)
      end
  | Request_OpenPairing paired =>
      let window := PairingWindow_open (random16 env) (at_ env) in
      let uri := pairing_uri (lan env) (listen_port (phones r)) (local_fingerprint (local (phones r)))
                   (window_token window) in
      ({| phones := set_pairing (Some window) (Some paired) (told (phones r)) (phones r);
          pins := pins r; disk := disk r |}, Reply_Offer uri PAIRING_WINDOW)
  | Request_Unpair name => let p := unpair env name r in (p.1, Reply_Unpair p.2)
  | Request_List =>
      let names := connected (phones r) in
      (r, Reply_List ((fun p => (p.1, existsb (str_eqb p.1) names))
                        <$> map_to_list (pin_phones (pins r))))
  | Request_Audio fingerprint direction =>
      ({| phones := set_sessions
            (alter (fun running => {| running_name := running_name running;
                                      running_pairing := running_pairing running;
                                      commands := commands running ++ [Command_Audio direction];
                                      task_finished := task_finished running |})
               fingerprint (sessions (phones r))) (phones r);
          pins := pins r; disk := disk r |}, No_reply)
  end.

(** ** Runs of the receiver loop *)

Inductive receiver_op :=
| Op_start (ip : IpAddr) (name fingerprint : string) (exts : list string) (now : Instant)
| Op_request (env : Answers) (request : PhoneRequest)
| Op_task_finished (fingerprint : string).

Definition finish_task (running : RunningPhone) : RunningPhone :=
  {| running_name := running_name running; running_pairing := running_pairing running;
     commands := commands running; task_finished := true |}.

Definition receiver_step (r : Receiver) (op : receiver_op) : Receiver :=
  match op with
  | Op_start ip name fingerprint exts now =>
      {| phones := (start (phones r) ip name fingerprint exts (pins r) now).1;
         pins := pins r; disk := disk r |}
  | Op_request env request => (handle_request env request r).1
  | Op_task_finished fingerprint =>
      {| phones := set_sessions (alter finish_task fingerprint (sessions (phones r))) (phones r);
         pins := pins r; disk := disk r |}
  end.
Definition receiver_run (ops : list receiver_op) (r : Receiver) : Receiver :=
  fold_left receiver_step ops r.

(** ** Properties *)

(** *** Pins *)

(** The pins are on disk, a phone key has one name, and no phone key is a computer's. *)
Record pins_ok (r : Receiver) : Prop := {
  ok_saved : pins r = disk r;
  ok_one_name : forall n m p q, pin_phones (pins r) !! n = Some p -> pin_phones (pins r) !! m = Some q ->
    phone_fingerprint p = phone_fingerprint q -> n = m;
  ok_no_pc : forall n p, pin_phones (pins r) !! n = Some p ->
    is_pc_key (pins r) (phone_fingerprint p) = false;
}.

(** What a request does to the pins: nothing, unless it pairs or unpairs and was saved. *)
Lemma pair_spec env name fingerprint ip token r r' x : pair env name fingerprint ip token r = (r', x) ->
  (pins r' = pins r /\ disk r' = disk r /\ exists e, x = Err e)
  \/ (exists phone window, x = Ok phone /\ pairing (phones r) = Some window
      /\ (window_check token ip (at_ env) window).2 = Ok tt
      /\ saves env = true /\ is_pc_key (pins r) fingerprint = false
      /\ pairing (phones r') = None /\ pins r' = disk r'
      /\ sessions (phones r') = sessions (phones r)
      /\ phone_fingerprint phone = fingerprint /\ pin_peers (pins r') = pin_peers (pins r)
      /\ forall n p, pin_phones (pins r') !! n = Some p <->
           (n = name /\ p = phone) \/ (n <> name /\ pin_phones (pins r) !! n = Some p
                                       /\ phone_fingerprint p <> fingerprint)).
Proof.
  unfold pair. destruct (pairing (phones r)) as [window|] eqn:Hw.
  2:{ intros [= <- <-]. left. eauto. }
  destruct (window_check token ip (at_ env) window).2 as [[]|e] eqn:Hc.
  2:{ intros [= <- <-]. left. eauto. }
  destruct (is_pc_key (pins r) fingerprint) eqn:Hpc; [intros [= <- <-]; left; eauto|].
  destruct (saves env) eqn:Hs; simpl; [|intros [= <- <-]; left; eauto].
  unfold pin_phone. cbn [pin_phones pin_peers]. rewrite lookup_insert_eq.
  intros [= <- <-]. right. eexists _, window. split_and!; try done.
  cbn [pins pin_phones]. intros n p. rewrite lookup_insert_Some, map_lookup_filter_Some. simpl.
  split.
  - intros [[<- <-]|[Hne [Hp Hf]]]; [by left|right; auto].
  - intros [[-> ->]|[Hne [Hp Hf]]]; [by left|right; auto].
Qed.

Lemma unpair_spec env name r r' x : unpair env name r = (r', x) ->
  (pins r' = pins r /\ disk r' = disk r /\ phones r' = phones r /\ x <> Ok true)
  \/ (exists removed, pin_phones (pins r) !! name = Some removed /\ saves env = true
      /\ pins r' = disk r' /\ pin_peers (pins r') = pin_peers (pins r)
      /\ pin_phones (pins r') = delete name (pin_phones (pins r))
      /\ sessions (phones r') = delete (phone_fingerprint removed) (sessions (phones r))
      /\ pairing (phones r') = pairing (phones r)
      /\ (x = Ok true \/ exists e, x = Err e)).
Proof.
  unfold unpair, remove_phone. destruct (pin_phones (pins r) !! name) as [removed|] eqn:Hp.
  2:{ intros [= <- <-]. left. split_and!; done. }
  destruct (saves env) eqn:Hs; simpl.
  - intros [= <- <-]. right. exists removed. destruct (desktop (phones r)); cbn; split_and!; try done;
      destruct (_ && _); eauto.
  - intros [= <- <-]. left. cbn. rewrite insert_delete_eq, insert_id by done.
    split_and!; [by destruct (pins r)|done|done|done].
Qed.

Lemma is_pc_key_peers s s' fingerprint : pin_peers s = pin_peers s' ->
  is_pc_key s fingerprint = is_pc_key s' fingerprint.
Proof. unfold is_pc_key. by intros ->. Qed.

Lemma pins_ok_unpair env name r : pins_ok r -> pins_ok (unpair env name r).1.
Proof.
  intros [Hs Hone Hpc]. destruct (unpair env name r) as [r' x] eqn:E. cbn [fst].
  destruct (unpair_spec _ _ _ _ _ E) as [(Hp & Hd & _)|(rm & _ & _ & Hs' & Hpeers & Hph & _)].
  - split; rewrite ?Hp, ?Hd; done.
  - split; [done| |]; rewrite Hph.
    + intros n m p q [_ Hn]%lookup_delete_Some [_ Hm]%lookup_delete_Some. by eapply Hone.
    + intros n p [_ Hn]%lookup_delete_Some. rewrite (is_pc_key_peers _ _ _ Hpeers). eauto.
Qed.

Lemma pins_ok_pair env name fingerprint ip token r : pins_ok r ->
  pins_ok (pair env name fingerprint ip token r).1.
Proof.
  intros [Hs Hone Hpc]. destruct (pair env name fingerprint ip token r) as [r' x] eqn:E. cbn [fst].
  destruct (pair_spec _ _ _ _ _ _ _ _ E) as
    [(Hp & Hd & _)|(phone & w & _ & _ & _ & _ & Hnpc & _ & Hs' & _ & Hf & Hpeers & Hin)].
  - split; rewrite ?Hp, ?Hd; done.
  - split; [done| |].
    + intros n m p q Hn Hm Hpq. apply Hin in Hn as [[-> ->]|(Hn & Hn' & Hfn)],
        Hm as [[-> ->]|(Hm & Hm' & Hfm)]; try done; try congruence. by eapply Hone.
    + intros n p Hn. rewrite (is_pc_key_peers _ _ _ Hpeers).
      apply Hin in Hn as [[-> ->]|(_ & Hn & _)]; [by rewrite Hf|eauto].
Qed.

Lemma pins_ok_same r r' : pins r' = pins r -> disk r' = disk r -> pins_ok r -> pins_ok r'.
Proof. intros Hp Hd [Hs Hone Hpc]. split; rewrite ?Hp, ?Hd; done. Qed.

Lemma pins_ok_run (ops : list receiver_op) (r : Receiver) :
  pins_ok r -> pins_ok (receiver_run ops r).
Proof.
  unfold receiver_run. revert r. induction ops as [|op ops IH]; intros r Hr; [done|].
  cbn [fold_left]. apply IH. destruct op as [ip name fp exts now|env request|fp]; cbn [receiver_step].
  - by apply (pins_ok_same r).
  - destruct request; cbn [handle_request fst]; try (by apply (pins_ok_same r)).
    + by apply pins_ok_pair.
    + destruct (phone_status _ _ _); [by apply pins_ok_unpair|done..].
    + by apply pins_ok_unpair.
  - by apply (pins_ok_same r).
Qed.

(** Whatever phones connect, ask and leave, and however saving fails, the pins in memory are
    the pins on disk, each phone key is pinned under one name, and no computer's key is pinned as
    a phone's. *)
Theorem pins_stay_consistent (ops : list receiver_op) (r : Receiver) :
  pins_ok r -> pins_ok (receiver_run ops r).
Proof. apply pins_ok_run. Qed.

(** Pairing is reported only after it is saved, and consumes the token: a phone is told it
    paired only if the window's token was presented and the new pins, which pin exactly its name
    and key and drop any other name of the key, are on disk; then no further pairing succeeds
    until a window is opened.  Otherwise the pins in memory and on disk are what they were, and
    the window, if one was open, still has its token. *)
Theorem pairing_is_saved_and_once (env env' : Answers) (name name' fingerprint fingerprint' : string)
    (ip ip' : IpAddr) (token token' : string) (r : Receiver) :
  let p := pair env name fingerprint ip token r in
  match p.2 with
  | Ok phone =>
      (exists window, pairing (phones r) = Some window /\ token = window_token window
                      /\ at_ env < expires window)
      /\ saves env = true /\ disk p.1 = pins p.1
      /\ phone_fingerprint phone = fingerprint /\ pin_phones (disk p.1) !! name = Some phone
      /\ (forall n q, pin_phones (disk p.1) !! n = Some q -> phone_fingerprint q = fingerprint -> n = name)
      /\ (pair env' name' fingerprint' ip' token' p.1).2 = Err Closed
  | Err _ =>
      pins p.1 = pins r /\ disk p.1 = disk r
      /\ window_token <$> pairing (phones p.1) = window_token <$> pairing (phones r)
  end.
Proof.
  destruct (pair env name fingerprint ip token r) as [r' x] eqn:E. cbn [fst snd]. cbv zeta.
  destruct (pair_spec _ _ _ _ _ _ _ _ E) as
    [(Hp & Hd & e & ->)|(phone & w & -> & Hw & Hc & Hs & Hnpc & Hnone & Hs' & _ & Hf & Hpeers & Hin)].
  - split_and!; [done..|]. unfold pair in E. destruct (pairing (phones r)) as [w|] eqn:Hw.
    2:{ injection E as <-. by rewrite Hw. }
    destruct (window_check token ip (at_ env) w) as [w' y] eqn:Hc.
    destruct (window_check_spec _ _ _ _ _ _ Hc) as (Ht & _). cbn [fst snd] in E.
    destruct y; [|injection E as <- _; simpl; by rewrite Ht].
    destruct (is_pc_key _ _); [injection E as <- _; simpl; by rewrite Ht|].
    destruct (saves env); simpl in E; [|injection E as <- _; simpl; by rewrite Ht].
    unfold pin_phone in E. cbn [pin_phones] in E. rewrite lookup_insert_eq in E. discriminate E.
  - split_and!; try done.
    + exists w. destruct (window_check token ip (at_ env) w) as [w' y] eqn:Hck. simpl in Hc. subst y.
      destruct (window_check_spec _ _ _ _ _ _ Hck) as (_ & _ & _ & Hok).
      destruct (Hok eq_refl). done.
    + rewrite <- Hs'. apply Hin. by left.
    + intros n q Hn Hq. rewrite <- Hs' in Hn. apply Hin in Hn as [[-> _]|(_ & _ & Hne)]; done.
    + unfold pair. by rewrite Hnone.
Qed.

(** Unpairing forgets a phone and ends its session: if it is reported done, the phone was
    pinned, its pin is gone from memory and disk, and no session of its key is left; if saving
    fails nothing changes. *)
Theorem unpairing_ends_the_session (env : Answers) (name : string) (r : Receiver) (phone : PinnedPhone) :
  pin_phones (pins r) !! name = Some phone ->
  let p := unpair env name r in
  if saves env
  then pin_phones (pins p.1) !! name = None /\ disk p.1 = pins p.1
       /\ sessions (phones p.1) !! phone_fingerprint phone = None
       /\ (p.2 = Ok true \/ notification_hub (phones r) = true /\ hub_removes env = false)
  else p.1 = r /\ p.2 = Err "failed to save pins"%string.
Proof.
  intros Hp. unfold unpair, remove_phone. rewrite Hp. destruct (saves env); simpl.
  - destruct (desktop (phones r)); simpl;
      destruct (notification_hub (phones r)), (hub_removes env); simpl;
      rewrite !lookup_delete_eq; split_and!; auto.
  - rewrite insert_delete_eq, insert_id by done. by destruct r as [? [] ?].
Qed.

(** *** Sessions *)

Lemma size_filter_le (P : string * RunningPhone -> Prop) `{!forall x, Decision (P x)}
  (m m' : gmap string RunningPhone) : m ⊆ m' ->
  (size (filter P m) <= size (filter P m'))%nat.
Proof.
  intros Hm. rewrite <- !size_dom. apply subseteq_size. intros k. rewrite !elem_of_dom.
  intros [x [Hx HP]%map_lookup_filter_Some]. exists x. apply map_lookup_filter_Some.
  split; [by eapply lookup_weaken|done].
Qed.

Lemma pairing_count_mono m m' : m ⊆ m' -> pairing_count m <= pairing_count m'.
Proof. intros Hm. unfold pairing_count. apply Nat2Z.inj_le, (size_filter_le _ _ _ Hm). Qed.

Lemma pairing_count_insert m fingerprint running : m !! fingerprint = None ->
  pairing_count (<[fingerprint := running]> m)
  <= pairing_count m + (if running_pairing running then 1 else 0).
Proof.
  intros Hm. unfold pairing_count.
  destruct (running_pairing running) eqn:Hr.
  - rewrite map_filter_insert_True by done.
    rewrite map_size_insert_None; [lia|]. by rewrite map_lookup_filter_None; left.
  - rewrite map_filter_insert_False by (simpl; congruence). rewrite delete_id by done. lia.
Qed.

Lemma pairing_count_alter m fingerprint f :
  (forall running, running_pairing (f running) = running_pairing running) ->
  pairing_count (alter f fingerprint m) = pairing_count m.
Proof.
  intros Hf. unfold pairing_count. f_equal. rewrite <- !size_dom. f_equal. apply set_eq. intros k.
  rewrite !elem_of_dom. unfold is_Some. setoid_rewrite map_lookup_filter_Some.
  destruct (decide (k = fingerprint)) as [->|Hne].
  - rewrite lookup_alter_eq. destruct (m !! fingerprint) as [x|]; simpl; [|naive_solver].
    split; intros (y & Hy & HP); injection Hy as <-; [exists x|exists (f x)];
      simpl in *; (split; [done|]); rewrite Hf in *; done.
  - by rewrite lookup_alter_ne.
Qed.

Lemma start_pairing_count self ip name fp exts s now : pairing_count (sessions self) <= MAX_PAIRING_SESSIONS ->
  pairing_count (sessions (start self ip name fp exts s now).1) <= MAX_PAIRING_SESSIONS.
Proof.
  intros Hle. unfold start.
  set (m := filter (fun p => task_finished p.2 = false) (sessions self)).
  assert (pairing_count m <= MAX_PAIRING_SESSIONS) as Hm.
  { etrans; [apply pairing_count_mono, map_filter_subseteq|done]. }
  assert (forall is_pairing, pairing_count (<[fp := {| running_name := name;
      running_pairing := is_pairing; commands := []; task_finished := false |}]> (delete fp m))
    <= pairing_count m + (if is_pairing then 1 else 0)) as Hins.
  { intros b. etrans; [apply pairing_count_insert, lookup_delete_eq|]. simpl.
    pose proof (pairing_count_mono _ _ (delete_subseteq m fp)). destruct b; lia. }
  destruct (admit_phone _ _ _ _); simpl.
  - specialize (Hins false). simpl in Hins. destruct (desktop self); simpl; lia.
  - destruct (Z.leb_spec MAX_PAIRING_SESSIONS (pairing_count m)); simpl; [done|].
    specialize (Hins true). simpl in Hins. destruct (desktop self); simpl; lia.
  - done.
Qed.

(** However phones connect, ask and leave, at most four sessions are pairing at once. *)
Theorem pairing_sessions_are_bounded (ops : list receiver_op) (r : Receiver) :
  pairing_count (sessions (phones r)) <= MAX_PAIRING_SESSIONS ->
  pairing_count (sessions (phones (receiver_run ops r))) <= MAX_PAIRING_SESSIONS.
Proof.
  unfold receiver_run. revert r. induction ops as [|op ops IH]; intros r Hr; [done|].
  cbn [fold_left]. apply IH. destruct op as [ip name fp exts now|env request|fp]; cbn [receiver_step phones].
  - by apply start_pairing_count.
  - assert (forall name, pairing_count (sessions (phones (unpair env name r).1)) <= MAX_PAIRING_SESSIONS)
      as Hun.
    { intros name. destruct (unpair env name r) as [r' x] eqn:E. cbn [fst].
      destruct (unpair_spec _ _ _ _ _ E) as [(_ & _ & -> & _)|(rm & _ & _ & _ & _ & _ & Hs & _)];
        [done|]. rewrite Hs. etrans; [apply pairing_count_mono, delete_subseteq|done]. }
    destruct request as [name fp ip token|name fp| | | |]; cbn [handle_request fst phones]; try done.
    + destruct (pair env name fp ip token r) as [r' x] eqn:E. cbn [fst]. unfold pair in E.
      destruct (pairing (phones r)); [|by injection E as <- _].
      cases_in E; by injection E as <- _.
    + destruct (phone_status _ _ _); [apply Hun|done..].
    + cbn [sessions set_sessions]. by rewrite pairing_count_alter.
  - cbn [sessions set_sessions]. by rewrite pairing_count_alter.
Qed.

(** *** Two defects *)

Lemma list_reply env r name phone : pin_phones (pins r) !! name = Some phone ->
  name ∉ connected (phones r) ->
  exists listed, handle_request env Request_List r = (r, Reply_List listed) /\ (name, false) ∈ listed.
Proof.
  intros Hp Hn. eexists. split; [reflexivity|]. apply list_elem_of_fmap. exists (name, phone).
  split; [|by apply elem_of_map_to_list]. simpl. f_equal. symmetry. apply not_true_iff_false.
  intros Hex. apply existsb_exists in Hex as (x & Hx & Heq). apply str_eqb_spec in Heq as <-.
  by apply Hn, list_elem_of_In.
Qed.

(** A phone that just paired is listed as disconnected: its session runs on as a paired one,
    but the entry made while it was pairing is never updated. *)
Theorem just_paired_phone_is_listed_as_disconnected (env env' : Answers)
    (name fingerprint : string) (ip : IpAddr) (token : string) (r r' : Receiver)
    (running : RunningPhone) (phone : PinnedPhone) :
  sessions (phones r) !! fingerprint = Some running -> task_finished running = false ->
  name ∉ connected (phones r) ->
  pair env name fingerprint ip token r = (r', Ok phone) ->
  sessions (phones r') !! fingerprint = Some running
  /\ exists listed, handle_request env' Request_List r' = (r', Reply_List listed) /\ (name, false) ∈ listed.
Proof.
  intros Hrun _ Hn E. destruct (pair_spec _ _ _ _ _ _ _ _ E) as
    [(_ & _ & e & ?)|(phone' & w & [= <-] & _ & _ & _ & _ & _ & _ & Hs & _ & _ & Hin)]; [done|].
  rewrite Hs. split; [done|]. apply (list_reply env' r' name phone); [apply Hin; by left|].
  unfold connected in *. by rewrite Hs.
Qed.

(** Pairing another phone under the name of a connected one unpins the connected phone but
    leaves its session running, with everything it was allowed. *)
Theorem replaced_phone_keeps_its_session (env : Answers) (name old new : string) (ip : IpAddr)
    (token : string) (r r' : Receiver) (replaced phone : PinnedPhone) (running : RunningPhone) :
  pins_ok r -> pin_phones (pins r) !! name = Some replaced -> phone_fingerprint replaced = old ->
  old <> new -> sessions (phones r) !! old = Some running -> task_finished running = false ->
  pair env name new ip token r = (r', Ok phone) ->
  (forall n p, pin_phones (pins r') !! n = Some p -> phone_fingerprint p <> old)
  /\ sessions (phones r') !! old = Some running.
Proof.
  intros [_ Hone _] Hp Hold Hne Hrun _ E. destruct (pair_spec _ _ _ _ _ _ _ _ E) as
    [(_ & _ & e & ?)|(phone' & w & [= <-] & _ & _ & _ & _ & _ & _ & Hs & Hf & _ & Hin)]; [done|].
  split; [|by rewrite Hs]. intros n p Hn Hpo.
  apply Hin in Hn as [[-> ->]|(Hnn & Hn & _)]; [congruence|]. apply Hnn. eapply Hone; [done|done|congruence].
Qed.

(** *** Witnesses *)

Definition sample_answers : Answers :=
  {| at_ := 5; saves := true; random16 := repeat 171 16; lan := []; hub_removes := true |}.
Definition sample_token : string := "abababababababababababababababab".
Definition empty_pins : PinStore := {| pin_peers := ∅; pin_phones := ∅ |}.
Definition sample_receiver : Receiver :=
  {| phones := PhoneSessions_new {| local_device_name := "desk"; local_role := Role_Receiver;
                                    local_fingerprint := "pc" |} 42420 None;
     pins := empty_pins; disk := empty_pins |}.
Lemma sample_receiver_ok : pins_ok sample_receiver.
Proof.
  split; [done| |]; intros *; cbn [pins sample_receiver pin_phones empty_pins];
    rewrite lookup_empty; done.
Qed.
(** A pairing window is open, and a phone connected to pair. *)
Definition pairing_ops : list receiver_op :=
  [Op_request sample_answers (Request_OpenPairing 1); Op_start (V4 21) "phone" "key one" [] 5].
Definition pairing_receiver : Receiver := receiver_run pairing_ops sample_receiver.
(** It paired, the window was opened again, and a phone of the same name connected. *)
Definition paired_ops : list receiver_op :=
  [Op_request sample_answers (Request_Pair "phone" "key one" (V4 21) sample_token);
   Op_request sample_answers (Request_OpenPairing 2); Op_start (V4 22) "phone" "key two" [] 5].
Definition paired_receiver : Receiver := receiver_run paired_ops pairing_receiver.

Example pins_stay_consistent_witness : pins_ok pairing_receiver.
Proof. exact (pins_stay_consistent pairing_ops sample_receiver sample_receiver_ok). Defined.

Example pairing_sessions_are_bounded_witness :
  pairing_count (sessions (phones pairing_receiver)) <= MAX_PAIRING_SESSIONS.
Proof.
  refine (pairing_sessions_are_bounded pairing_ops sample_receiver _). vm_compute. congruence.
Defined.

Definition phone_with (key : string) : PinnedPhone :=
  {| phone_fingerprint := key; allowed_features := PhoneFeature_all |}.

Example unpairing_ends_the_session_witness :
  let p := unpair sample_answers "phone" paired_receiver in
  if saves sample_answers
  then pin_phones (pins p.1) !! "phone"%string = None /\ disk p.1 = pins p.1
       /\ sessions (phones p.1) !! "key one"%string = None
       /\ (p.2 = Ok true \/ notification_hub (phones paired_receiver) = true
                            /\ hub_removes sample_answers = false)
  else p.1 = paired_receiver /\ p.2 = Err "failed to save pins"%string.
Proof.
  apply (unpairing_ends_the_session sample_answers "phone" paired_receiver (phone_with "key one")).
  vm_compute. reflexivity.
Defined.

Definition running_as (name : string) (is_pairing : bool) : RunningPhone :=
  {| running_name := name; running_pairing := is_pairing; commands := []; task_finished := false |}.

Definition just_paired : Receiver :=
  (pair sample_answers "phone" "key one" (V4 21) sample_token pairing_receiver).1.
Definition replaced_receiver : Receiver :=
  (pair sample_answers "phone" "key two" (V4 22) sample_token paired_receiver).1.

Example just_paired_phone_is_listed_as_disconnected_witness :
  sessions (phones just_paired) !! "key one"%string = Some (running_as "phone" true)
  /\ exists listed, handle_request sample_answers Request_List just_paired
                    = (just_paired, Reply_List listed) /\ ("phone"%string, false) ∈ listed.
Proof.
  refine (just_paired_phone_is_listed_as_disconnected sample_answers sample_answers "phone" "key one"
           (V4 21) sample_token pairing_receiver just_paired (running_as "phone" true)
           (phone_with "key one") _ _ _ _).
  - vm_compute. reflexivity.
  - reflexivity.
  - assert (connected (phones pairing_receiver) = []) as -> by (vm_compute; reflexivity).
    intros Hin. inversion Hin.
  - vm_compute. reflexivity.
Defined.

Example replaced_phone_keeps_its_session_witness :
  (forall n p, pin_phones (pins replaced_receiver) !! n = Some p ->
     phone_fingerprint p <> "key one"%string)
  /\ sessions (phones replaced_receiver) !! "key one"%string = Some (running_as "phone" true).
Proof.
  refine (replaced_phone_keeps_its_session sample_answers "phone" "key one" "key two" (V4 22)
           sample_token paired_receiver replaced_receiver (phone_with "key one")
           (phone_with "key two") (running_as "phone" true) _ _ _ _ _ _ _).
  - exact (pins_ok_run paired_ops _ (pins_ok_run pairing_ops _ sample_receiver_ok)).
  - vm_compute. reflexivity.
  - reflexivity.
  - discriminate.
  - vm_compute. reflexivity.
  - reflexivity.
  - vm_compute. reflexivity.
Defined.
