(* ===== verification/PhoneSession.v ===== *)
(** * A phone's session: [run_phone_session] of [phone.rs]

    What one connected phone can do: the state of its session, and a step for each thing that wakes
    it, a frame of the phone, a command of the tray, a timer, the clipboard, a stream that ended.
    The clipboard is [ClipboardSync]'s, the notifications [NotificationHub]'s and
    [NotificationMirror]'s; a stream is its generation and direction. *)
From S2P Require Export PhoneSessions ClipboardSync PhoneHistory.

(** [rx/phone 59-60 RECEIVER_PING_BIT] *)
Definition RECEIVER_PING_BIT : Z := 2 ^ 63.
(** [rx/phone 61-62 FIRST_PING_AFTER] *)
Definition FIRST_PING_AFTER : Duration := from_secs 2.
(** [rx/phone_audio 28-29 PHONE_JITTER_TARGET_MS] *)
Definition PHONE_JITTER_TARGET_MS : Z := 80.
(** [rx/phone 64-68 PhoneTimings] *)
Record PhoneTimings := { ping_interval : Duration; dead_after : Duration }.
(** [rx/phone 70-75 PhoneTimings::DEFAULT] *)
Definition PhoneTimings_DEFAULT : PhoneTimings :=
  {| ping_interval := from_secs 30; dead_after := from_secs 95 |}.

(** What the tray is told. *)
Inductive TrayEvent :=
| Tray_connected (accepts_invite : bool)
| Tray_audio (direction : option AudioDirection)
| Tray_round_trip (elapsed : Duration).

(** How a session ends. *)
Inductive Stop := Stop_ok | Stop_error (message : string).

(** [rx/phone_audio 35-40 PhoneAudio] *)
Record PhoneAudio := { audio_generation : Z; audio_direction : AudioDirection }.

(** *** The state of a session *)

(** The connection: what was written, newest last, and whether it still is up. *)
Record Wire := { wire_sent : list Frame; wire_open : bool }.
(** The desktop's clipboard and origin, shared by all sessions, and the phone's sync. *)
Record ClipPart (W : Type) := {
  clip_world : W;
  clip_origin : PhoneOrigin;
  clip_state : option ReceiverClipboardState;
  clip_changes : bool;
}.
Arguments clip_world {W} _.
Arguments clip_origin {W} _.
Arguments clip_state {W} _.
Arguments clip_changes {W} _.
(** The machine with its desktop, the hub if notifications are shared, the phone's source in it, and
    its mirror with the mirror's file.
    [rx/phone 823-846 run_phone_session] *)
Record NotifPart (M : Type) := {
  notif_machine : M;
  notif_hub : option (Hub M);
  notif_source : option PhoneNotificationSource;
  notif_mirror : NotificationMirror;
  notif_cache : option SavedMirror;
  notif_allowed : bool;
}.
Arguments notif_machine {M} _.
Arguments notif_hub {M} _.
Arguments notif_source {M} _.
Arguments notif_mirror {M} _.
Arguments notif_cache {M} _.
Arguments notif_allowed {M} _.
(** [rx/phone 821-822 run_phone_session] *)
Record AudioPart := {
  running_audio : option PhoneAudio;
  generations : Z;
  reported_audio : option AudioDirection;
}.
(** [rx/phone 866-869 run_phone_session] *)
Record PingPart := {
  ping_sequence : Z;
  ping_sent : option (Z * Instant);
  dead_at : Instant;
}.

(** [rx/phone 815-870 run_phone_session]: the locals of a session, and what it told others. *)
Record PhoneSession (W M : Type) := {
  ps_wire : Wire;
  ps_clip : ClipPart W;
  ps_notif : NotifPart M;
  ps_audio : AudioPart;
  ps_ping : PingPart;
  ps_requests : list PhoneRequest;
  ps_tray : list TrayEvent;
}.
Arguments ps_wire {W M} _.
Arguments ps_clip {W M} _.
Arguments ps_notif {W M} _.
Arguments ps_audio {W M} _.
Arguments ps_ping {W M} _.
Arguments ps_requests {W M} _.
Arguments ps_tray {W M} _.

(** What the rest of the system answers while a frame is handled: the time, the random source, and
    whether the mirror's file can be written. *)
Record FrameAnswers := {
  frame_at : Instant;
  new_epoch : result string string;
  new_secrets : bytes * bytes * bytes;
  mirror_writes : bool;
}.

(** What wakes a session.
    [rx/phone 881-956 run_phone_session] *)
Inductive Wake :=
| Wake_ping (now : Instant)
| Wake_command (command : PhoneCommand)
| Wake_audio_stopped (generation : Z) (reason : string)
| Wake_dead (now : Instant)
| Wake_image_pace
| Wake_image_expiry (now : Instant)
| Wake_clipboard (changed : bool)
| Wake_frame (frame : Frame) (answers : FrameAnswers)
| Wake_read_failed (closed : bool) (error : string)
| Wake_reader_stopped.

Section Session.
Context {W M : Type} `{WaylandClipboard W} `{Lib : ClipboardLibraries} `{FrameCodec}.
Context `{Shell M} `{Desktop M}.
(** The configuration and identity of the computer, the digests, and the session's context. *)
Context (config : AppConfig) (identity : string) (json_len : Store -> Z).
Context (digest : SharedNotification -> string) (shown_digest : DesktopNotification -> Z).
Context (context : SessionContext) (features : gset PhoneFeature) (has_tray : bool) (timings : PhoneTimings).

Abbreviation session := (PhoneSession W M).
Abbreviation phoning := (stateful (PhoneSession W M) Stop).

Definition with_wire (x : Wire) (s : session) : session :=
  {| ps_wire := x; ps_clip := ps_clip s; ps_notif := ps_notif s; ps_audio := ps_audio s;
     ps_ping := ps_ping s; ps_requests := ps_requests s; ps_tray := ps_tray s |}.
Definition with_clip (x : ClipPart W) (s : session) : session :=
  {| ps_wire := ps_wire s; ps_clip := x; ps_notif := ps_notif s; ps_audio := ps_audio s;
     ps_ping := ps_ping s; ps_requests := ps_requests s; ps_tray := ps_tray s |}.
Definition with_notif (x : NotifPart M) (s : session) : session :=
  {| ps_wire := ps_wire s; ps_clip := ps_clip s; ps_notif := x; ps_audio := ps_audio s;
     ps_ping := ps_ping s; ps_requests := ps_requests s; ps_tray := ps_tray s |}.
Definition with_audio (x : AudioPart) (s : session) : session :=
  {| ps_wire := ps_wire s; ps_clip := ps_clip s; ps_notif := ps_notif s; ps_audio := x;
     ps_ping := ps_ping s; ps_requests := ps_requests s; ps_tray := ps_tray s |}.
Definition with_ping (x : PingPart) (s : session) : session :=
  {| ps_wire := ps_wire s; ps_clip := ps_clip s; ps_notif := ps_notif s; ps_audio := ps_audio s;
     ps_ping := x; ps_requests := ps_requests s; ps_tray := ps_tray s |}.
Definition with_request (x : PhoneRequest) (s : session) : session :=
  {| ps_wire := ps_wire s; ps_clip := ps_clip s; ps_notif := ps_notif s; ps_audio := ps_audio s;
     ps_ping := ps_ping s; ps_requests := ps_requests s ++ [x]; ps_tray := ps_tray s |}.
Definition with_tray (x : TrayEvent) (s : session) : session :=
  if has_tray
  then {| ps_wire := ps_wire s; ps_clip := ps_clip s; ps_notif := ps_notif s; ps_audio := ps_audio s;
          ps_ping := ps_ping s; ps_requests := ps_requests s; ps_tray := ps_tray s ++ [x] |}
  else s.
Definition change (f : session -> session) : phoning unit := fun s => (f s, Ok tt).
Definition set_audio (audio : option PhoneAudio) : phoning unit := change (fun s =>
  with_audio {| running_audio := audio; generations := generations (ps_audio s);
                reported_audio := reported_audio (ps_audio s) |} s).
Definition stop {A} (why : Stop) : phoning A := st_fail why.

(** [rx/phone 1057-1062 send] *)
Definition send (frame : Frame) : phoning unit := fun s =>
  match encode_secure_frame frame with
  | Ok _ =>
      if wire_open (ps_wire s)
      then (with_wire {| wire_sent := wire_sent (ps_wire s) ++ [frame]; wire_open := true |} s, Ok tt)
      else (s, Err (Stop_error "failed to write to phone"))
  | Err _ => (s, Err (Stop_error "failed to write to phone"))
  end.
(** [rx/phone 1019-1022 run_phone_session] *)
Definition send_audio_stopped (reason : string) : phoning unit :=
  send (Frame_Phone (Phone_AudioStopped reason)).

(** A handler of the clipboard, on the session's connection; the session goes on if it fails.
    [rx/phone 1004-1008 run_phone_session] *)
Definition on_clipboard {A} (m : stateful (Sync W) SyncError A) : phoning unit := fun s =>
  match clip_state (ps_clip s) with
  | None => (s, Ok tt)
  | Some st =>
      let r := (m {| state := st; clipboard := clip_world (ps_clip s); origin := clip_origin (ps_clip s);
                     sent := wire_sent (ps_wire s); writer_open := wire_open (ps_wire s) |}).1 in
      (with_clip {| clip_world := clipboard r; clip_origin := origin r; clip_state := Some (state r);
                    clip_changes := clip_changes (ps_clip s) |}
         (with_wire {| wire_sent := sent r; wire_open := writer_open r |} s), Ok tt)
  end.

(** The hub as it is on the machine now. *)
Definition hub_on (m : M) (h : Hub M) : Hub M :=
  with_projections {| proj := proj (hub_projections h); desk := m |} h.
(** A notification of a phone that may send them.
    [rx/phone 973-998 run_phone_session] *)
Definition take_notification (event : NotificationEvent) (answers : FrameAnswers) : phoning unit :=
  change (fun s =>
    let n := ps_notif s in
    match notif_source n, notif_hub n with
    | Some source, Some hub =>
        let r := apply_and_deliver digest (cfg_notifications config) identity json_len (new_epoch answers) event
                   {| src := source; src_hub := hub_on (notif_machine n) hub |} in
        let hub := src_hub r.1 in
        let machine := desk (hub_projections hub) in
        let w := {| mirror := notif_mirror n; screen := machine; NotificationMirror.cache := notif_cache n |} in
        let w := match event, r.2 with
                 | Event_SnapshotEnd, Ok _ => close_all (mirror_writes answers) w
                 | _, _ => w
                 end in
        with_notif {| notif_machine := screen w; notif_hub := Some (hub_on (screen w) hub);
                      notif_source := Some (src r.1); notif_mirror := mirror w;
                      notif_cache := NotificationMirror.cache w; notif_allowed := notif_allowed n |} s
    | _, _ =>
        let w := (mirror_apply shown_digest event (ctx_name context) (mirror_writes answers)
                    {| mirror := notif_mirror n; screen := notif_machine n;
                       NotificationMirror.cache := notif_cache n |}).1 in
        with_notif {| notif_machine := screen w; notif_hub := notif_hub n; notif_source := notif_source n;
                      notif_mirror := mirror w; notif_cache := NotificationMirror.cache w;
                      notif_allowed := notif_allowed n |} s
    end).

(** [rx/phone 956-1051 run_phone_session] *)
Definition handle_frame (frame : Frame) (answers : FrameAnswers) : phoning unit :=
  do! change (fun s => with_ping {| ping_sequence := ping_sequence (ps_ping s); ping_sent := ping_sent (ps_ping s);
                                    dead_at := frame_at answers + dead_after timings |} s);;
  match classify_phone_frame frame with
  | PhoneFrame_Heartbeat sequence =>
      if Z.land sequence RECEIVER_PING_BIT =? 0 then send frame
      else change (fun s =>
        match ping_sent (ps_ping s) with
        | Some (sent_sequence, sent_at) =>
            if sent_sequence =? sequence
            then with_tray (Tray_round_trip (duration_since (frame_at answers) sent_at))
                   (with_ping {| ping_sequence := ping_sequence (ps_ping s); ping_sent := None;
                                 dead_at := dead_at (ps_ping s) |} s)
            else s
        | None => s
        end)
  | PhoneFrame_Error => st_ret tt
  | PhoneFrame_Notification =>
      s <-! st_get;;
      match notif_allowed (ps_notif s), frame with
      | true, Frame_Notification event => take_notification event answers
      | _, _ => st_ret tt
      end
  | PhoneFrame_Clipboard =>
      match frame with
      | Frame_Clipboard event => on_clipboard (handle_event config (frame_at answers) event)
      | _ => st_ret tt
      end
  | PhoneFrame_PairRequest _ => send (Frame_Phone Phone_PairAccepted)
  | PhoneFrame_AudioRequest direction udp_port =>
      do! set_audio None;;
      match direction with
      | None => st_ret tt
      | Some direction =>
          if bool_decide (Feature_Audio ∈ features) then
            s <-! st_get;;
            let generation := generations (ps_audio s) + 1 in
            do! change (fun s => with_audio {| running_audio := running_audio (ps_audio s);
                                               generations := generation;
                                               reported_audio := reported_audio (ps_audio s) |} s);;
            let '(session_id, session_salt, session_key) := new_secrets answers in
            do! send (Frame_Phone (Phone_AudioStart direction session_id session_salt session_key
                                     PHONE_JITTER_TARGET_MS));;
            set_audio (Some {| audio_generation := generation; audio_direction := direction |})
          else send_audio_stopped "audio isn't allowed for this phone"
      end
  | PhoneFrame_AudioStopped => set_audio None
  | PhoneFrame_Unpair =>
      do! change (with_request (Request_Forget (ctx_name context) (ctx_fingerprint context)));;
      stop Stop_ok
  | PhoneFrame_NotAllowed kind =>
      stop (Stop_error ("phone sent a " ++ kind ++ " frame, which phones may not send"))
  end.

(** [rx/phone 873-880 run_phone_session]: the tray hears of a stream that started or ended. *)
Definition report_audio : phoning unit := change (fun s =>
  let audio_now := audio_direction <$> running_audio (ps_audio s) in
  if bool_decide (audio_now = reported_audio (ps_audio s)) then s
  else with_tray (Tray_audio audio_now)
         (with_audio {| running_audio := running_audio (ps_audio s); generations := generations (ps_audio s);
                        reported_audio := audio_now |} s)).

(** [rx/phone 872-956 run_phone_session]: a turn of the loop.  The timer of the dead session is ready
    only once its time has come. *)
Definition wake (event : Wake) : phoning unit :=
  do! report_audio;;
  match event with
  | Wake_ping now =>
      s <-! st_get;;
      let sequence := Z.land (wrapping_add u64_max (ping_sequence (ps_ping s)) 1) (RECEIVER_PING_BIT - 1) in
      let sent := Z.lor RECEIVER_PING_BIT sequence in
      do! change (fun s => with_ping {| ping_sequence := sequence; ping_sent := ping_sent (ps_ping s);
                                        dead_at := dead_at (ps_ping s) |} s);;
      do! send (Frame_Heartbeat {| heartbeat_sequence := sent |});;
      change (fun s => with_ping {| ping_sequence := sequence; ping_sent := Some (sent, now);
                                    dead_at := dead_at (ps_ping s) |} s)
  | Wake_command (Command_Audio (Some direction)) =>
      if accepts_audio_invite context then send (Frame_Phone (Phone_AudioInvite direction)) else st_ret tt
  | Wake_command (Command_Audio None) =>
      s <-! st_get;;
      match running_audio (ps_audio s) with
      | Some _ => do! set_audio None;; send_audio_stopped "stopped on the computer"
      | None => st_ret tt
      end
  | Wake_audio_stopped generation reason =>
      s <-! st_get;;
      if is_some_and (fun running => audio_generation running =? generation) (running_audio (ps_audio s))
      then do! set_audio None;; send_audio_stopped reason
      else st_ret tt
  | Wake_dead now =>
      s <-! st_get;;
      if dead_at (ps_ping s) <=? now then stop (Stop_error "phone silent") else st_ret tt
  | Wake_image_pace =>
      s <-! st_get;;
      if is_some_and (fun st => bool_decide (is_Some (outgoing st))) (clip_state (ps_clip s)) then
        on_clipboard (fun c => let r := send_next_image_frame c in
                        match r.2 with
                        | Ok _ => (r.1, Ok tt)
                        | Err _ => (with_state (ClipboardSync.set_outgoing None (state r.1)) r.1, Ok tt)
                        end)
      else st_ret tt
  | Wake_image_expiry now =>
      s <-! st_get;;
      match clip_state (ps_clip s) with
      | None => st_ret tt
      | Some st =>
          let expired := expire_transfer_id now (incoming st) in
          do! on_clipboard (modify (set_incoming expired.1));;
          match expired.2 with
          | Some transfer_id => send (Frame_Clipboard (ImageCancel transfer_id TimedOut))
          | None => st_ret tt
          end
      end
  | Wake_clipboard changed =>
      s <-! st_get;;
      if negb (clip_changes (ps_clip s)) then st_ret tt
      else if changed then on_clipboard (send_changed_offer config)
      else change (fun s => with_clip {| clip_world := clip_world (ps_clip s); clip_origin := clip_origin (ps_clip s);
                                         clip_state := clip_state (ps_clip s); clip_changes := false |} s)
  | Wake_frame frame answers => handle_frame frame answers
  | Wake_read_failed closed error => stop (if closed then Stop_ok else Stop_error error)
  | Wake_reader_stopped => stop (Stop_error "phone reader stopped")
  end.

(** The turns of a session, until one ends it. *)
Fixpoint run_session (events : list Wake) : phoning unit :=
  match events with
  | [] => st_ret tt
  | event :: events => do! wake event;; run_session events
  end.

(** *** Starting *)

(** The answer to the first frame of an unpinned phone, none if the reader stopped, the outer failure
    that it did not come in time; [outcome] is what the receiver loop answers.
    [rx/phone 742-785 pair_phone] *)
Definition pair_phone (first : result (option Frame) string)
    (outcome : string -> result PinnedPhone PairingRefusal) : phoning PinnedPhone :=
  match first with
  | Err _ => stop (Stop_error "unpaired phone sent no pairing request")
  | Ok None => stop (Stop_error "phone reader stopped")
  | Ok (Some frame) =>
      match classify_phone_frame frame with
      | PhoneFrame_PairRequest token =>
          do! change (with_request (Request_Pair (ctx_name context) (ctx_fingerprint context)
                                      (ctx_ip context) token));;
          match outcome token with
          | Ok phone => do! send (Frame_Phone Phone_PairAccepted);; st_ret phone
          | Err refusal =>
              do! (attempt (send (Frame_Error {| code := refusal_code refusal;
                                                  message := refusal_message refusal |}))
                     : phoning (result unit Stop));;
              stop (Stop_error ("pairing refused: " ++ refusal_message refusal))
          end
      | _ => stop (Stop_error "unpaired phone sent something instead of a pairing request")
      end
  end.

(** The state a session enters its loop with.  [rx/phone 800-870 run_phone_session] *)
Definition session_start (now : Instant) (wire : Wire) (requests : list PhoneRequest) (world : W)
    (phone_origin : PhoneOrigin) (machine : M) (hub : option (Hub M)) (mirror_ : NotificationMirror)
    (saved : result (option SavedMirror) string) (cache_ : option SavedMirror) (has_clipboard : bool) :
  PhoneSession W M :=
  let allowed := ctx_notifications context && bool_decide (Feature_Notifications ∈ features) in
  let restored := if allowed
                  then (restore saved {| mirror := mirror_; screen := machine;
                                         NotificationMirror.cache := cache_ |}).1
                  else {| mirror := mirror_; screen := machine; NotificationMirror.cache := cache_ |} in
  let clip := if has_clipboard && bool_decide (Feature_Clipboard ∈ features)
              then Some (for_phone (ReceiverClipboardState_new config
                           {| images := clipboard_images context; text_chunks := false |} world))
              else None in
  with_tray (Tray_connected (accepts_audio_invite context))
  {| ps_wire := wire;
     ps_clip := {| clip_world := world; clip_origin := phone_origin; clip_state := clip;
                   clip_changes := bool_decide (is_Some clip) |};
     ps_notif := {| notif_machine := screen restored; notif_hub := hub;
                    notif_source := if allowed
                                    then (fun _ => phone_source (ctx_fingerprint context) (ctx_name context)) <$> hub
                                    else None;
                    notif_mirror := mirror restored; notif_cache := NotificationMirror.cache restored;
                    notif_allowed := allowed |};
     ps_audio := {| running_audio := None; generations := 0; reported_audio := None |};
     ps_ping := {| ping_sequence := 0; ping_sent := None; dead_at := now + dead_after timings |};
     ps_requests := requests; ps_tray := [] |}.
End Session.

(** ** Properties *)

(** *** What clipboard handlers send *)

Definition is_clipboard_frame (f : Frame) : Prop := match f with Frame_Clipboard _ => True | _ => False end.
Definition sends_clipboard {W} (s s' : Sync W) : Prop :=
  exists l, sent s' = sent s ++ l /\ Forall is_clipboard_frame l.
#[export] Instance sends_clipboard_preorder W : PreOrder (@sends_clipboard W).
Proof.
  split.
  - intros s. exists []. by rewrite app_nil_r.
  - intros a b c (l & E & Hl) (k & F & Hk). exists (l ++ k). rewrite F, E, app_assoc.
    split; [done|]. by apply Forall_app.
Qed.

Section ClipboardFrames.
Context {W : Type} `{WaylandClipboard W} `{Lib : ClipboardLibraries} `{FrameCodec} (config : AppConfig).

Lemma no_frames (s s' : Sync W) : sent s' = sent s -> sends_clipboard s s'.
Proof. intros E. exists []. by rewrite app_nil_r. Qed.
Lemma write_sends_clipboard e : within sends_clipboard (write_secure_frame_writer (W := W) (Frame_Clipboard e)).
Proof.
  intros s. unfold write_secure_frame_writer. destruct (encode_secure_frame _); [|done].
  destruct (writer_open s); [|done]. exists [Frame_Clipboard e]. split; [done|]. by constructor.
Qed.
Lemma modify_sends_clipboard f : within sends_clipboard (modify (W := W) f).
Proof. intros s. by apply no_frames. Qed.
Lemma read_sends_clipboard : within sends_clipboard (read_item (W := W) config).
Proof. intros s. by apply no_frames. Qed.
Lemma write_to_sends_clipboard w : within sends_clipboard (write_to_clipboard (W := W) w).
Proof. intros s. by apply no_frames. Qed.
Lemma record_sends_clipboard id : within sends_clipboard (record_origin (W := W) id).
Proof. intros s. by apply no_frames. Qed.
Hint Resolve write_sends_clipboard modify_sends_clipboard read_sends_clipboard write_to_sends_clipboard
  record_sends_clipboard : sync.

Lemma send_text_sends_clipboard n text : within sends_clipboard (send_text (W := W) n text).
Proof. unfold send_text, cancel_outgoing, next_transfer_id. within_steps. Qed.
Hint Resolve send_text_sends_clipboard : sync.
Lemma offer_item_sends_clipboard c b : within sends_clipboard (offer_item (W := W) config c b).
Proof. unfold offer_item, cancel_outgoing, next_transfer_id. within_steps. Qed.
Hint Resolve offer_item_sends_clipboard : sync.
Lemma send_changed_sends_clipboard : within sends_clipboard (send_changed_offer (W := W) config).
Proof. unfold send_changed_offer. within_steps. Qed.
Lemma apply_remote_sends_clipboard id w b : within sends_clipboard (apply_remote (W := W) config id w b).
Proof. unfold apply_remote. within_steps. Qed.
Hint Resolve apply_remote_sends_clipboard : sync.
Lemma text_offer_sends_clipboard text : within sends_clipboard (handle_text_offer (W := W) config text).
Proof. unfold handle_text_offer. within_steps. Qed.
Hint Resolve text_offer_sends_clipboard : sync.
Lemma receive_sends_clipboard now e : within sends_clipboard (receive_incoming (W := W) config now e).
Proof. intros s. by apply no_frames. Qed.
Hint Resolve receive_sends_clipboard : sync.
Lemma handle_event_sends_clipboard now e : within sends_clipboard (handle_event (W := W) config now e).
Proof.
  unfold handle_event, send_local_text_offer, send_local_offer, handle_transfer. within_steps.
Qed.
Lemma send_next_sends_clipboard : within sends_clipboard (send_next_image_frame (W := W)).
Proof. unfold send_next_image_frame. within_steps. Qed.
End ClipboardFrames.

(** *** What a session may do *)

Section Confined.
Context {W M : Type} `{WaylandClipboard W} `{Lib : ClipboardLibraries} `{FrameCodec}.
Context `{Shell M} `{Desktop M}.
Context (config : AppConfig) (identity : string) (json_len : Store -> Z).
Context (digest : SharedNotification -> string) (shown_digest : DesktopNotification -> Z).
Context (context : SessionContext) (features : gset PhoneFeature) (has_tray : bool) (timings : PhoneTimings).

(** What a phone may be sent, by its features. *)
Definition may_send (f : Frame) : Prop :=
  match f with
  | Frame_Heartbeat _ | Frame_Error _ => True
  | Frame_Clipboard _ => Feature_Clipboard ∈ features
  | Frame_Phone (Phone_AudioStart _ _ _ _ _) => Feature_Audio ∈ features
  | Frame_Phone Phone_PairAccepted | Frame_Phone (Phone_AudioStopped _) | Frame_Phone (Phone_AudioInvite _) => True
  | _ => False
  end.

(** What a session with or without a clipboard may send. *)
Definition may_write (clip : bool) (f : Frame) : Prop :=
  match f with Frame_Clipboard _ => clip = true | _ => may_send f end.
Definition has_clip (s : PhoneSession W M) : bool := bool_decide (is_Some (clip_state (ps_clip s))).
Lemma has_clip_none (s : PhoneSession W M) : has_clip s = false <-> clip_state (ps_clip s) = None.
Proof. unfold has_clip. rewrite bool_decide_eq_false. by rewrite <- eq_None_not_Some. Qed.
Lemma may_write_mono clip f : may_write clip f -> may_write true f.
Proof. by destruct f. Qed.

(** A session keeps to the features its phone is allowed. *)
Record confined (s s' : PhoneSession W M) : Prop := {
  cf_clip : clip_state (ps_clip s) = None ->
    clip_state (ps_clip s') = None /\ clip_world (ps_clip s') = clip_world (ps_clip s)
    /\ clip_origin (ps_clip s') = clip_origin (ps_clip s);
  cf_notif : notif_allowed (ps_notif s) = false -> ps_notif s' = ps_notif s;
  cf_audio : Feature_Audio ∉ features -> running_audio (ps_audio s) = None ->
    running_audio (ps_audio s') = None;
  cf_sent : exists l, wire_sent (ps_wire s') = wire_sent (ps_wire s) ++ l
    /\ Forall (may_write (has_clip s)) l;
}.
#[local] Instance confined_preorder : PreOrder confined.
Proof.
  split.
  - intros s. split; auto. exists []. by rewrite app_nil_r.
  - intros a b c [C1 N1 A1 (l & E & Hl)] [C2 N2 A2 (k & F & Hk)]. split; auto.
    + intros Hc. destruct (C1 Hc) as (X & Y & Z). destruct (C2 X) as (X' & Y' & Z').
      split_and!; congruence.
    + intros Hn. rewrite N2, N1; [done|done|]. by rewrite N1.
    + exists (l ++ k). rewrite F, E, app_assoc. split; [done|]. apply Forall_app. split; [done|].
      destruct (has_clip a) eqn:Ea; [eapply Forall_impl; [exact Hk|apply may_write_mono]|].
      apply has_clip_none in Ea. destruct (C1 Ea) as [Eb _]. apply has_clip_none in Eb. by rewrite <- Eb.
Qed.

Lemma change_confined f :
  (forall s, ps_wire (f s) = ps_wire s /\ ps_clip (f s) = ps_clip s /\ ps_notif (f s) = ps_notif s
     /\ (running_audio (ps_audio (f s)) = running_audio (ps_audio s) \/ running_audio (ps_audio (f s)) = None)) ->
  within confined (change f).
Proof.
  intros Hf s. destruct (Hf s) as (E1 & E2 & E3 & E4). cbn [change fst]. split.
  - by rewrite E2.
  - by rewrite E3.
  - intros _ Hr. destruct E4 as [-> | ->]; done.
  - exists []. by rewrite E1, app_nil_r.
Qed.
Lemma same_but_audio has f (s : PhoneSession W M) : ps_wire (with_tray has f s) = ps_wire s
  /\ ps_clip (with_tray has f s) = ps_clip s /\ ps_notif (with_tray has f s) = ps_notif s
  /\ ps_audio (with_tray has f s) = ps_audio s /\ ps_ping (with_tray has f s) = ps_ping s.
Proof. unfold with_tray. by destruct has. Qed.

Lemma send_confined_from f s : may_write (has_clip s) f -> confined s (send f s).1.
Proof.
  intros Hf. unfold send. destruct (encode_secure_frame f); [|done].
  destruct (wire_open (ps_wire s)); [|done]. split; auto. exists [f]. split; [done|]. by constructor.
Qed.
Lemma send_confined f : (forall clip, may_write clip f) -> within confined (send f).
Proof. intros Hf s. apply send_confined_from, Hf. Qed.
Lemma set_audio_none_confined : within confined (set_audio None).
Proof. apply change_confined. intros s. auto. Qed.

Lemma on_clipboard_confined {A} (m : stateful (Sync W) SyncError A) : within sends_clipboard m ->
  within confined (on_clipboard m).
Proof.
  intros Hm s. unfold on_clipboard. destruct (clip_state (ps_clip s)) as [st|] eqn:E; [|done].
  cbn [fst]. split; cbn; [congruence|done|done|].
  match goal with |- context [m ?x] => destruct (Hm x) as (l & Hl & Hf) end.
  exists l. split; [exact Hl|]. eapply Forall_impl; [exact Hf|].
  assert (has_clip s = true) as -> by (unfold has_clip; apply bool_decide_eq_true; by rewrite E).
  by intros [].
Qed.

Lemma report_audio_confined : within confined (report_audio (W := W) (M := M) has_tray).
Proof.
  apply change_confined. intros s. cbn zeta. case_bool_decide; [auto|].
  match goal with |- context [with_tray has_tray ?f ?x] => destruct (same_but_audio has_tray f x) as (-> & -> & -> & -> & _) end.
  cbn. auto.
Qed.

Lemma handle_frame_confined frame answers : within confined
  (handle_frame config identity json_len digest shown_digest context features has_tray timings frame answers).
Proof.
  unfold handle_frame. within_step; [by apply change_confined; auto|].
  destruct (classify_phone_frame frame) eqn:Ec.
  - destruct (_ =? 0).
    + apply send_confined. by destruct frame as [| | | | | | | | | |[] | |].
    + apply change_confined. intros s. destruct (ping_sent (ps_ping s)) as [[n t]|]; [|auto].
      destruct (n =? sequence); [|auto].
      match goal with |- context [with_tray has_tray ?f ?x] => destruct (same_but_audio has_tray f x) as (-> & -> & -> & -> & _) end.
      cbn. auto.
  - within_step.
  - destruct frame; try within_step. apply on_clipboard_confined, handle_event_sends_clipboard.
  - intros s. unfold st_bind at 1, st_get at 1. destruct (notif_allowed (ps_notif s)) eqn:Ea; [|done].
    destruct frame; try done. unfold take_notification, change. cbn [fst].
    destruct (notif_source (ps_notif s)), (notif_hub (ps_notif s)); (split; cbn;
      [auto|congruence|auto|exists []; by rewrite app_nil_r]).
  - within_step; [apply set_audio_none_confined|]. destruct direction as [direction|]; [|within_step].
    case_bool_decide as Hf; [|by apply send_confined].
    assert (forall x : AudioPart -> AudioPart, within confined (change (fun s => with_audio (x (ps_audio s)) s))) as Hx.
    { intros x s. split; [auto|auto|done|]. exists []. by rewrite app_nil_r. }
    within_step; [within_step|]. within_step.
    { intros s. split; [auto|auto|done|]. exists []. by rewrite app_nil_r. }
    destruct (new_secrets answers) as [[i l] k]. within_step; [by apply send_confined|].
    apply (Hx (fun a => {| running_audio := _; generations := generations a; reported_audio := reported_audio a |})).
  - apply set_audio_none_confined.
  - by apply send_confined.
  - within_step; [apply change_confined; auto|]. by intros s.
  - by intros s.
Qed.

Lemma wake_confined event : within confined
  (wake config identity json_len digest shown_digest context features has_tray timings event).
Proof.
  unfold wake. within_step; [apply report_audio_confined|].
  destruct event as [now|[[direction|]]|g reason|now| |now|changed|frame answers|closed error|].
  - repeat within_step; try (by apply change_confined; auto). by apply send_confined.
  - within_step; [by apply send_confined|within_step].
  - repeat within_step; [apply set_audio_none_confined|by apply send_confined].
  - repeat within_step; [apply set_audio_none_confined|by apply send_confined].
  - repeat within_step; by intros s.
  - repeat within_step. apply on_clipboard_confined. intros s.
    destruct (send_next_sends_clipboard config s) as (l & E & Hl). destruct (send_next_image_frame s) as [s1 [b|e]];
      cbn in *; by exists l.
  - intros s. unfold st_bind at 1, st_get at 1. destruct (clip_state (ps_clip s)) as [st|] eqn:E; [|done].
    pose proof (on_clipboard_confined (modify (set_incoming (expire_transfer_id now (incoming st)).1))
      (modify_sends_clipboard _) s) as Hs.
    revert Hs. unfold st_bind, on_clipboard. rewrite E. cbn [fst snd].
    destruct (expire_transfer_id now (incoming st)).2 as [id|]; intros Hs; [|exact Hs].
    etrans; [exact Hs|]. by apply send_confined_from.
  - repeat within_step; [apply on_clipboard_confined, send_changed_sends_clipboard|].
    intros s. split; cbn; auto. exists []. by rewrite app_nil_r.
  - apply handle_frame_confined.
  - destruct closed; by intros s.
  - by intros s.
Qed.

Lemma run_session_confined events : within confined
  (run_session config identity json_len digest shown_digest context features has_tray timings events).
Proof.
  induction events as [|e events IH]; cbn [run_session]; [by intros s|].
  within_step; [apply wake_confined|done].
Qed.
End Confined.

(** *** Streams and silence *)

Section Streams.
Context {W M : Type} `{WaylandClipboard W} `{Lib : ClipboardLibraries} `{FrameCodec}.
Context `{Shell M} `{Desktop M}.
Context (config : AppConfig) (identity : string) (json_len : Store -> Z).
Context (digest : SharedNotification -> string) (shown_digest : DesktopNotification -> Z).
Context (context : SessionContext) (features : gset PhoneFeature) (has_tray : bool) (timings : PhoneTimings).
Abbreviation wakes := (wake config identity json_len digest shown_digest context features has_tray timings).

(** The running stream is the last one started. *)
Definition audio_ok (s : PhoneSession W M) : Prop :=
  forall a, running_audio (ps_audio s) = Some a -> audio_generation a = generations (ps_audio s).
(** A part of the session is kept, or its streams stay well numbered. *)
Definition keeps_audio (s s' : PhoneSession W M) : Prop := audio_ok s -> audio_ok s'.
#[local] Instance keeps_audio_preorder : PreOrder keeps_audio.
Proof. split; [by intros s Hs|]. intros a b c Hab Hbc Ha. auto. Qed.

Lemma same_audio (s s' : PhoneSession W M) :
  running_audio (ps_audio s') = running_audio (ps_audio s) \/ running_audio (ps_audio s') = None ->
  generations (ps_audio s') = generations (ps_audio s) -> keeps_audio s s'.
Proof. intros [Er|Er] Eg Hs a; rewrite Er, ?Eg; [apply Hs|done]. Qed.
Lemma send_audio f : within keeps_audio (send (M := M) (W := W) f).
Proof.
  intros s. unfold send. destruct (encode_secure_frame f); [|by intros Hs].
  destruct (wire_open (ps_wire s)); [|by intros Hs]. apply same_audio; auto.
Qed.
Lemma clipboard_audio {A} (m : stateful (Sync W) SyncError A) : within keeps_audio (on_clipboard (M := M) m).
Proof.
  intros s. unfold on_clipboard. destruct (clip_state _); [|by intros Hs]. apply same_audio; auto.
Qed.
Lemma stop_audio : within keeps_audio (set_audio (W := W) (M := M) None).
Proof. intros s. apply same_audio; auto. Qed.
Lemma stopping_audio {A} why : within keeps_audio (stop (W := W) (M := M) (A := A) why).
Proof. by intros s Hs. Qed.
Lemma change_audio f : (forall s, ps_audio (f s) = ps_audio s) -> within keeps_audio (change (W := W) (M := M) f).
Proof. intros Hf s. apply same_audio; cbn; rewrite Hf; auto. Qed.
Lemma report_keeps_audio : within keeps_audio (report_audio (W := W) (M := M) has_tray).
Proof.
  intros s. apply same_audio; cbn; (case_bool_decide; [auto|]);
    match goal with |- context [with_tray has_tray ?f ?x] => destruct (same_but_audio has_tray f x) as (_ & _ & _ & -> & _) end;
    auto.
Qed.

Lemma handle_frame_audio frame answers : within keeps_audio
  (handle_frame config identity json_len digest shown_digest context features has_tray timings frame answers).
Proof.
  unfold handle_frame. within_step; [by apply change_audio|].
  destruct (classify_phone_frame frame).
  - destruct (_ =? 0); [apply send_audio|]. apply change_audio. intros s.
    destruct (ping_sent (ps_ping s)) as [[n t]|]; [|done]. destruct (n =? sequence); [|done].
    match goal with |- context [with_tray has_tray ?f ?x] => destruct (same_but_audio has_tray f x) as (_ & _ & _ & -> & _) end. done.
  - within_step.
  - destruct frame; try within_step. apply clipboard_audio.
  - within_step; [within_step|]. destruct (notif_allowed _), frame; try within_step.
    apply change_audio. intros s. cbn zeta beta. by destruct (notif_source (ps_notif s)), (notif_hub (ps_notif s)).
  - intros s Hs. unfold st_bind, st_get, set_audio, change, send_audio_stopped.
    destruct direction as [direction|]; [|by intros x]. case_bool_decide.
    2: { apply send_audio. by intros x. }
    cbn. destruct (new_secrets answers) as [[i l] k]. unfold send.
    destruct (encode_secure_frame _); [|by intros x]. destruct (wire_open _); [|by intros x].
    intros x. cbn. by intros [= <-].
  - apply stop_audio.
  - apply send_audio.
  - within_step; [by apply change_audio|by apply stopping_audio].
  - apply stopping_audio.
Qed.

Lemma wake_audio event : within keeps_audio (wakes event).
Proof.
  unfold wake. within_step; [apply report_keeps_audio|].
  destruct event as [now|[[direction|]]|g reason|now| |now|changed|frame answers|closed error|];
    repeat within_step; auto using send_audio, stop_audio, clipboard_audio, handle_frame_audio;
    try (by apply stopping_audio); try (by apply change_audio); try apply send_audio.
Qed.

Lemma run_session_audio events : within keeps_audio
  (run_session config identity json_len digest shown_digest context features has_tray timings events).
Proof.
  induction events as [|e events IH]; cbn [run_session]; [by intros s Hs|].
  within_step; [apply wake_audio|done].
Qed.

(** When the phone was last heard. *)
Definition heard (last : Instant) (event : Wake) : Instant :=
  match event with Wake_frame _ answers => frame_at answers | _ => last end.

Definition same_deadline (s s' : PhoneSession W M) : Prop := dead_at (ps_ping s') = dead_at (ps_ping s).
#[local] Instance same_deadline_preorder : PreOrder same_deadline.
Proof. split; [by intros s|]. unfold same_deadline. intros a b c. congruence. Qed.

Lemma send_deadline f : within same_deadline (send (M := M) (W := W) f).
Proof. intros s. unfold send. destruct (encode_secure_frame f); [|done]. by destruct (wire_open (ps_wire s)). Qed.
Lemma clipboard_deadline {A} (m : stateful (Sync W) SyncError A) : within same_deadline (on_clipboard (M := M) m).
Proof. intros s. unfold on_clipboard. by destruct (clip_state _). Qed.
Lemma change_deadline f : (forall s, dead_at (ps_ping (f s)) = dead_at (ps_ping s)) ->
  within same_deadline (change (W := W) (M := M) f).
Proof. intros Hf s. apply Hf. Qed.
Lemma stopping_deadline {A} why : within same_deadline (stop (W := W) (M := M) (A := A) why).
Proof. by intros s. Qed.
Lemma report_deadline : within same_deadline (report_audio (W := W) (M := M) has_tray).
Proof.
  apply change_deadline. intros s. cbn zeta. case_bool_decide; [done|].
  match goal with |- context [with_tray has_tray ?f ?x] => destruct (same_but_audio has_tray f x) as (_ & _ & _ & _ & ->) end.
  done.
Qed.

Lemma handle_frame_deadline frame answers (s : PhoneSession W M) :
  dead_at (ps_ping (handle_frame config identity json_len digest shown_digest context features has_tray timings
                      frame answers s).1) = frame_at answers + dead_after timings.
Proof.
  unfold handle_frame. unfold st_bind at 1, change at 1.
  match goal with |- dead_at (ps_ping (?m ?x).1) = _ =>
    assert (within same_deadline m) as Hm; [|exact (Hm x)] end.
  destruct (classify_phone_frame frame);
    repeat within_step; auto using send_deadline, clipboard_deadline;
    try (by apply stopping_deadline); try apply send_deadline; apply change_deadline; intros x; try done.
  - destruct (ping_sent (ps_ping x)) as [[n t]|]; [|done]. destruct (n =? sequence); [|done].
    match goal with |- context [with_tray has_tray ?f ?y] => destruct (same_but_audio has_tray f y) as (_ & _ & _ & _ & ->) end. done.
  - cbn zeta beta. by destruct (notif_source (ps_notif x)), (notif_hub (ps_notif x)).
Qed.

Lemma wake_deadline event (s : PhoneSession W M) :
  dead_at (ps_ping (wakes event s).1)
  = match event with Wake_frame _ answers => frame_at answers + dead_after timings | _ => dead_at (ps_ping s) end.
Proof.
  destruct event as [now|[[direction|]]|g reason|now| |now|changed|frame answers|closed error|].
  9: { unfold wake, st_bind. cbn. apply handle_frame_deadline. }
  all: match goal with |- dead_at (ps_ping (?m ?x).1) = _ =>
    assert (within same_deadline m) as Hm; [|exact (Hm x)] end;
    unfold wake; (within_step; [apply report_deadline|]);
    repeat within_step; auto using send_deadline, clipboard_deadline;
    try (by apply stopping_deadline); try apply send_deadline; by apply change_deadline.
Qed.

Lemma run_session_deadline events : forall (s s' : PhoneSession W M) last,
  dead_at (ps_ping s) = last + dead_after timings ->
  run_session config identity json_len digest shown_digest context features has_tray timings events s = (s', Ok tt) ->
  dead_at (ps_ping s') = fold_left heard events last + dead_after timings.
Proof.
  induction events as [|e events IH]; intros s s' last Hs Hr; [by injection Hr as <-|].
  cbn [run_session fold_left] in *. apply st_bind_Ok in Hr as (s1 & [] & Hw & Hr).
  eapply IH; [|exact Hr]. pose proof (wake_deadline e s) as Hd. rewrite Hw in Hd. cbn [fst] in Hd.
  rewrite Hd. by destruct e.
Qed.
End Streams.

(** C23. A phone uses only the features it was allowed, whatever it sends and whatever else happens
    in its session: without the clipboard the desktop's clipboard is never read into a frame or
    written, without notifications the desktop, the shared history and the mirror stay as they are,
    without audio no stream ever runs; and it is only ever sent heartbeats, clipboard events, errors
    and phone events, a clipboard event only if it may have the clipboard and an audio start only if
    it may have audio. *)
Theorem phone_uses_only_its_features {W M : Type} `{WaylandClipboard W} `{Lib : ClipboardLibraries}
    `{FrameCodec} `{Shell M} `{Desktop M} (config : AppConfig) (identity : string)
    (json_len : Store -> Z) (digest : SharedNotification -> string)
    (shown_digest : DesktopNotification -> Z) (context : SessionContext) (features : gset PhoneFeature)
    (has_tray : bool) (timings : PhoneTimings) (now : Instant) (wire : Wire) (requests : list PhoneRequest)
    (world : W) (phone_origin : PhoneOrigin) (machine : M) (hub : option (Hub M))
    (mirror_ : NotificationMirror) (saved : result (option SavedMirror) string) (cache_ : option SavedMirror)
    (has_clipboard : bool) (events : list Wake) :
  let s := session_start config context features has_tray timings now wire requests world phone_origin
             machine hub mirror_ saved cache_ has_clipboard in
  let s' := (run_session config identity json_len digest shown_digest context features has_tray timings events s).1 in
  (Feature_Clipboard ∉ features ->
     clip_world (ps_clip s') = world /\ clip_origin (ps_clip s') = phone_origin)
  /\ (Feature_Notifications ∉ features ->
     notif_machine (ps_notif s') = machine /\ notif_hub (ps_notif s') = hub
     /\ notif_mirror (ps_notif s') = mirror_ /\ notif_cache (ps_notif s') = cache_)
  /\ (Feature_Audio ∉ features -> running_audio (ps_audio s') = None)
  /\ exists l, wire_sent (ps_wire s') = wire_sent wire ++ l /\ Forall (may_send features) l.
Proof.
  intros s s'. pose proof (run_session_confined config identity json_len digest shown_digest context features
    has_tray timings events s) as [Hc Hn Ha Hsent]. fold s' in Hc, Hn, Ha, Hsent.
  assert (ps_wire s = wire) as Ew by (unfold s, session_start, with_tray; by destruct has_tray).
  split_and!.
  - intros Hf. destruct Hc as (_ & Hw & Ho).
    + unfold s, session_start, with_tray.
      rewrite (bool_decide_eq_false_2 (Feature_Clipboard ∈ features)), andb_false_r by done. by destruct has_tray.
    + rewrite Hw, Ho. unfold s, session_start, with_tray. destruct has_tray; by split.
  - intros Hf. assert (ps_notif s = {| notif_machine := machine; notif_hub := hub; notif_source := None;
        notif_mirror := mirror_; notif_cache := cache_; notif_allowed := false |}) as En.
    { unfold s, session_start, with_tray.
      rewrite (bool_decide_eq_false_2 (Feature_Notifications ∈ features)), andb_false_r by done.
      by destruct has_tray. }
    rewrite Hn by (by rewrite En). by rewrite En.
  - intros Hf. apply Ha; [done|]. unfold s, session_start, with_tray. by destruct has_tray.
  - destruct Hsent as (l & E & Hl). exists l. rewrite <- Ew. split; [exact E|].
    eapply Forall_impl; [exact Hl|]. intros f. unfold may_write. destruct f; try done.
    unfold has_clip, s, session_start, with_tray. intros Hb. apply bool_decide_eq_true in Hb.
    destruct has_tray, has_clipboard; cbn in Hb; try by destruct Hb.
    all: cbn; case_bool_decide; [done|by destruct Hb].
Qed.

(** What a phone may send, by the frame. *)
Definition phone_may_send (f : Frame) : bool :=
  match f with
  | Frame_Heartbeat _ | Frame_Error _ | Frame_Clipboard _ | Frame_Notification _ => true
  | Frame_Phone (Phone_PairRequest _) | Frame_Phone Phone_Unpair | Frame_Phone (Phone_AudioRequest _ _)
  | Frame_Phone (Phone_AudioStopped _) => true
  | _ => false
  end.

(** A frame a phone may not send, input, control, screen, role, pairing or audio of a computer
    and what only the computer says to a phone, ends the session at once with an error: nothing is
    sent, and clipboard, notifications, stream and requests stay as they are. *)
Theorem forbidden_frames_end_the_session {W M : Type} `{WaylandClipboard W} `{Lib : ClipboardLibraries}
    `{FrameCodec} `{Shell M} `{Desktop M} (config : AppConfig) (identity : string)
    (json_len : Store -> Z) (digest : SharedNotification -> string)
    (shown_digest : DesktopNotification -> Z) (context : SessionContext) (features : gset PhoneFeature)
    (has_tray : bool) (timings : PhoneTimings) (frame : Frame) (answers : FrameAnswers)
    (s : PhoneSession W M) :
  phone_may_send frame = false ->
  let r := wake config identity json_len digest shown_digest context features has_tray timings
             (Wake_frame frame answers) s in
  (exists kind, r.2 = Err (Stop_error ("phone sent a " ++ kind ++ " frame, which phones may not send")))
  /\ ps_wire r.1 = ps_wire s /\ ps_clip r.1 = ps_clip s /\ ps_notif r.1 = ps_notif s
  /\ running_audio (ps_audio r.1) = running_audio (ps_audio s) /\ ps_requests r.1 = ps_requests s.
Proof.
  intros Hf. assert (exists kind, classify_phone_frame frame = PhoneFrame_NotAllowed kind) as [kind Hk].
  { destruct frame as [| | | | | | | | | |[]| |]; try discriminate Hf; by eexists. }
  unfold wake, st_bind at 1. cbn [report_audio change].
  set (s1 := if bool_decide _ then s else _).
  assert (ps_wire s1 = ps_wire s /\ ps_clip s1 = ps_clip s /\ ps_notif s1 = ps_notif s
    /\ running_audio (ps_audio s1) = running_audio (ps_audio s) /\ ps_requests s1 = ps_requests s)
    as (E1 & E2 & E3 & E4 & E5).
  { unfold s1, with_tray. by destruct (bool_decide _), has_tray. }
  unfold handle_frame, st_bind, change. rewrite Hk. cbn. split; [by eexists|]. by split_and!.
Qed.

(** A stream that was replaced or stopped cannot end its successor: in any session, the end of
    a stream other than the last one started is ignored, and what runs is the last one started. *)
Theorem stale_stream_end_is_ignored {W M : Type} `{WaylandClipboard W} `{Lib : ClipboardLibraries}
    `{FrameCodec} `{Shell M} `{Desktop M} (config : AppConfig) (identity : string)
    (json_len : Store -> Z) (digest : SharedNotification -> string)
    (shown_digest : DesktopNotification -> Z) (context : SessionContext) (features : gset PhoneFeature)
    (has_tray : bool) (timings : PhoneTimings) (events : list Wake) (s s' : PhoneSession W M)
    (generation : Z) (reason : string) :
  running_audio (ps_audio s) = None ->
  run_session config identity json_len digest shown_digest context features has_tray timings events s = (s', Ok tt) ->
  generation <> generations (ps_audio s') ->
  let r := wake config identity json_len digest shown_digest context features has_tray timings
             (Wake_audio_stopped generation reason) s' in
  r.2 = Ok tt /\ ps_wire r.1 = ps_wire s' /\ running_audio (ps_audio r.1) = running_audio (ps_audio s')
  /\ (forall a, running_audio (ps_audio s') = Some a -> audio_generation a = generations (ps_audio s')).
Proof.
  intros Hs Hr Hg. assert (audio_ok s') as Hok.
  { pose proof (run_session_audio config identity json_len digest shown_digest context features has_tray timings
      events s) as Hk. rewrite Hr in Hk. apply Hk. intros a. by rewrite Hs. }
  set (r := wake _ _ _ _ _ _ _ _ _ _ s').
  assert (exists s1, r = (s1, Ok tt) /\ ps_wire s1 = ps_wire s'
            /\ running_audio (ps_audio s1) = running_audio (ps_audio s')) as (s1 & -> & E1 & E2).
  { unfold r, wake, st_bind, st_get. cbn [report_audio change]. set (s1 := if bool_decide _ then s' else _).
    assert (ps_wire s1 = ps_wire s' /\ running_audio (ps_audio s1) = running_audio (ps_audio s'))
      as (E1 & E2) by (unfold s1, with_tray; by destruct (bool_decide _), has_tray).
    exists s1. rewrite E2. destruct (running_audio (ps_audio s')) as [a|] eqn:Ea; cbn; [|by split_and!].
    rewrite (proj2 (Z.eqb_neq _ _)) by (rewrite (Hok a Ea); congruence). by split_and!. }
  split_and!; [done|exact E1|exact E2|exact Hok].
Qed.

(** Silence ends a session, and only silence does: the timer of a running session ends it exactly
    once 95 seconds, or what was configured, have passed since the last frame of the phone, whatever
    else happened meanwhile. *)
Theorem silence_ends_the_session {W M : Type} `{WaylandClipboard W} `{Lib : ClipboardLibraries}
    `{FrameCodec} `{Shell M} `{Desktop M} (config : AppConfig) (identity : string)
    (json_len : Store -> Z) (digest : SharedNotification -> string)
    (shown_digest : DesktopNotification -> Z) (context : SessionContext) (features : gset PhoneFeature)
    (has_tray : bool) (timings : PhoneTimings) (events : list Wake) (s s' : PhoneSession W M)
    (started now : Instant) :
  dead_at (ps_ping s) = started + dead_after timings ->
  run_session config identity json_len digest shown_digest context features has_tray timings events s = (s', Ok tt) ->
  let r := wake config identity json_len digest shown_digest context features has_tray timings (Wake_dead now) s' in
  r.2 = (if now - fold_left heard events started <? dead_after timings
         then Ok tt else Err (Stop_error "phone silent")).
Proof.
  intros Hs Hr. pose proof (run_session_deadline _ _ _ _ _ _ _ _ _ _ _ _ _ Hs Hr) as Hd.
  unfold wake, st_bind at 1. cbn [report_audio change].
  set (s1 := if bool_decide _ then s' else _).
  assert (dead_at (ps_ping s1) = dead_at (ps_ping s')) as E1
    by (unfold s1, with_tray; by destruct (bool_decide _), has_tray).
  unfold st_bind, st_get. rewrite E1, Hd.
  destruct (Z.leb_spec (fold_left heard events started + dead_after timings) now), (Z.ltb_spec
    (now - fold_left heard events started) (dead_after timings)); try lia; done.
Qed.

(** ** A session *)

Module SamplePhone.
Import SampleSync.
#[global] Instance machine_desktop : Desktop SampleShell.machine := {
  desktop_generation m := Ok ":1.9"%string;
  desktop_show n replaces g m := (m, Ok (if replaces =? 0 then SampleShell.next_bubble m else replaces));
  desktop_close id g m := (m, Ok tt);
}.
Definition context : SessionContext :=
  {| ctx_name := "Pixel"; ctx_fingerprint := "aa:bb"; ctx_ip := V4 1; clipboard_images := true;
     ctx_notifications := true; accepts_audio_invite := true |}.
Definition answers (now : Instant) : FrameAnswers :=
  {| frame_at := now; new_epoch := Ok "e"%string; new_secrets := ([1], [2], [3]); mirror_writes := true |}.
Definition start_with (features : gset PhoneFeature) : PhoneSession (option bytes) SampleShell.machine :=
  session_start receiver_default context features true PhoneTimings_DEFAULT 0
    {| wire_sent := []; wire_open := true |} [] (Some (str_bytes "mine")) None
    {| SampleShell.bubbles := ∅; SampleShell.cache_file := None; SampleShell.store_file := SampleShell.store ∅ [] |}
    None NotificationMirror_default (Ok None) None true.
Definition run (features : gset PhoneFeature) (events : list Wake) :=
  run_session receiver_default sample_origin SampleShell.json_len SampleShell.digest Sample.digest context
    features true PhoneTimings_DEFAULT events (start_with features).
Definition heartbeat (now : Instant) : Wake :=
  Wake_frame (Frame_Heartbeat {| heartbeat_sequence := 7 |}) (answers now).
Definition audio_request (now : Instant) : Wake :=
  Wake_frame (Frame_Phone (Phone_AudioRequest (Some ToPhone) 4000)) (answers now).
End SamplePhone.
Import SampleSync.

Lemma forbidden_frames_end_the_session_witness :
  let r := wake receiver_default sample_origin SampleShell.json_len SampleShell.digest Sample.digest
             SamplePhone.context PhoneFeature_all true PhoneTimings_DEFAULT
             (Wake_frame (Frame_Input {| input_role_epoch := 1; input_event := AllKeysUp |}) (SamplePhone.answers 5))
             (SamplePhone.start_with PhoneFeature_all) in
  exists kind, r.2 = Err (Stop_error ("phone sent a " ++ kind ++ " frame, which phones may not send")).
Proof.
  exact (proj1 (forbidden_frames_end_the_session receiver_default sample_origin SampleShell.json_len
    SampleShell.digest Sample.digest SamplePhone.context PhoneFeature_all true PhoneTimings_DEFAULT
    (Frame_Input {| input_role_epoch := 1; input_event := AllKeysUp |}) (SamplePhone.answers 5)
    (SamplePhone.start_with PhoneFeature_all) eq_refl)).
Defined.

(** A stream is replaced by another, and the first one's end arrives late. *)
Lemma stale_stream_end_is_ignored_witness :
  let s' := (SamplePhone.run PhoneFeature_all [SamplePhone.audio_request 5; SamplePhone.audio_request 6]).1 in
  let r := wake receiver_default sample_origin SampleShell.json_len SampleShell.digest Sample.digest
             SamplePhone.context PhoneFeature_all true PhoneTimings_DEFAULT
             (Wake_audio_stopped 1 "audio ended") s' in
  r.2 = Ok tt /\ running_audio (ps_audio r.1) = running_audio (ps_audio s')
  /\ running_audio (ps_audio s') = Some {| audio_generation := 2; audio_direction := ToPhone |}.
Proof.
  pose (s' := (SamplePhone.run PhoneFeature_all [SamplePhone.audio_request 5; SamplePhone.audio_request 6]).1).
  assert (SamplePhone.run PhoneFeature_all [SamplePhone.audio_request 5; SamplePhone.audio_request 6] = (s', Ok tt))
    as Hr by (vm_compute; reflexivity).
  pose proof (stale_stream_end_is_ignored receiver_default sample_origin SampleShell.json_len
    SampleShell.digest Sample.digest SamplePhone.context PhoneFeature_all true PhoneTimings_DEFAULT
    [SamplePhone.audio_request 5; SamplePhone.audio_request 6] (SamplePhone.start_with PhoneFeature_all) s'
    1 "audio ended" eq_refl Hr ltac:(vm_compute; congruence)) as (E1 & _ & E2 & _).
  split; [exact E1|split; [exact E2|vm_compute; reflexivity]].
Defined.

Lemma silence_ends_the_session_witness :
  let run := SamplePhone.run PhoneFeature_all [SamplePhone.heartbeat (from_secs 40); Wake_ping (from_secs 60)] in
  let ends now := (wake receiver_default sample_origin SampleShell.json_len SampleShell.digest Sample.digest
             SamplePhone.context PhoneFeature_all true PhoneTimings_DEFAULT (Wake_dead now) run.1).2 in
  ends (from_secs 134) = Ok tt /\ ends (from_secs 135) = Err (Stop_error "phone silent").
Proof.
  pose (s' := (SamplePhone.run PhoneFeature_all
                 [SamplePhone.heartbeat (from_secs 40); Wake_ping (from_secs 60)]).1).
  assert (SamplePhone.run PhoneFeature_all [SamplePhone.heartbeat (from_secs 40); Wake_ping (from_secs 60)]
          = (s', Ok tt)) as Hr by (vm_compute; reflexivity).
  pose proof (fun now => silence_ends_the_session receiver_default sample_origin SampleShell.json_len
    SampleShell.digest Sample.digest SamplePhone.context PhoneFeature_all true PhoneTimings_DEFAULT
    [SamplePhone.heartbeat (from_secs 40); Wake_ping (from_secs 60)] (SamplePhone.start_with PhoneFeature_all)
    s' 0 now eq_refl Hr) as Hw.
  split; [exact (Hw (from_secs 134))|exact (Hw (from_secs 135))].
Defined.
