(* ===== verification/Tray.v ===== *)
(** * The tray: [ReceiverTray] and [ReceiverTrayHandle] of [tray.rs]

    What the tray shows of the session, the menu and what its rows send, the choice of where
    audio goes, and the counters that the session loops update without waiting for the tray.
    Icons are left out.  The two channels a row may send on are the list of its [tray_output]s. *)
From stdpp Require Import sorting.
From S2P Require Export Text Protocol.

(** [rx/tray 27-38 TrayCommand] (with the two choices) *)
Inductive AudioChoice := Audio_Off | Audio_Local | Audio_Peer.
(** [rx/tray 40-44 ControllerChoice] *)
Inductive ControllerChoice := Controller_Local | Controller_Peer.
(** [rx/tray 27-38 TrayCommand] *)
Inductive TrayCommand :=
| OpenSettings
| AddPhone
| ArmPairing
| Tray_Disconnect
| Tray_Reconnect
| ToggleInputForwarding
| SetAudio (choice : AudioChoice)
| SetController (choice : ControllerChoice)
| Tray_Quit.

(** [rx/tray 53-63 AudioTarget] *)
Inductive AudioTarget :=
| Pc (choice : AudioChoice)
| Target_ToPhone (fingerprint : string)
| Target_FromPhone (fingerprint : string)
| Target_Off.

(** [rx/tray 65-74 TrayPhone] *)
Record TrayPhone := {
  tp_fingerprint : string;
  tp_name : string;
  tp_round_trip : option Duration;
  tp_audio : option AudioDirection;
  tp_accepts_audio_invite : bool;
}.

(** [rx/tray 76-85 TrayStatus] *)
Record TrayStatus := {
  summary_text : string;
  status_connected : bool;
  status_peer : option string;
  round_trip_ms : option Z;
  diagnostics : list (string * string);
}.

(** [rx/tray 440-447 TrayState] *)
Inductive TrayState := Starting | Listening | Connected | Paused | Tray_Error.

#[export] Instance AudioChoice_eq_dec : EqDecision AudioChoice.
Proof. solve_decision. Defined.
#[export] Instance AudioTarget_eq_dec : EqDecision AudioTarget.
Proof. solve_decision. Defined.
#[export] Instance TrayState_eq_dec : EqDecision TrayState.
Proof. solve_decision. Defined.

(** [rx/tray 449-474 ReceiverTray]; the command channel is the output of its operations, and
    [phone_requests] tells whether the other one is set. *)
Record ReceiverTray := {
  state : TrayState;
  transport : string;
  backend : string;
  pairing_armed : bool;
  connected_peer : option string;
  round_trip : option Duration;
  connections : Z;
  tray_input_events : Z;
  tray_clipboard_events : Z;
  input_forwarding_enabled : bool;
  audio_choice : AudioChoice;
  local_audio_available : bool;
  peer_audio_available : bool;
  local_device_name : option string;
  peer_device_name : option string;
  local_is_controller : bool;
  role_switch_available : bool;
  role_switching : bool;
  last_error : option string;
  tray_phones : list TrayPhone;
  phone_requests : bool;
}.

Inductive tray_output :=
| Send_command (command : TrayCommand)
| Send_audio (fingerprint : string) (direction : option AudioDirection).

(** [rx/tray 625-655 ReceiverTray::new] *)
Definition ReceiverTray_new (transport backend : string) (armed : bool) : ReceiverTray :=
  {| state := Starting; transport := transport; backend := backend; pairing_armed := armed;
     connected_peer := None; round_trip := None; connections := 0; tray_input_events := 0;
     tray_clipboard_events := 0; input_forwarding_enabled := true; audio_choice := Audio_Off;
     local_audio_available := false; peer_audio_available := false; local_device_name := None;
     peer_device_name := None; local_is_controller := true; role_switch_available := false;
     role_switching := false; last_error := None; tray_phones := []; phone_requests := false |}.

(** ** The status line *)

Definition unwrap_or {A} (d : A) (o : option A) : A := match o with Some a => a | None => d end.

(** [rx/tray 663-668 ReceiverTray::peer_name] *)
Definition peer_name (t : ReceiverTray) : string :=
  unwrap_or "the other computer"%string (option_or (peer_device_name t) (connected_peer t)).

(** [Duration::as_millis] and [Duration::as_micros]. *)
Definition as_millis (d : Duration) : Z := d / 1000000.
Definition as_micros (d : Duration) : Z := d / 1000.

(** [rx/tray 1131-1136 format_round_trip]; a [Duration] has at most 23 digits of milliseconds. *)
Definition format_round_trip (d : Duration) : string :=
  if as_millis d =? 0 then "<1 ms" else dec_digits 23 (as_millis d) " ms".

(** [rx/tray 1138-1143 shorten] *)
Definition shorten (text : string) (max_chars : Z) : string :=
  if max_chars <? chars_count text
  then (take_chars (Z.to_nat max_chars) text ++ "…")%string else text.

(** [rx/tray 1124-1129 phone_line] *)
Definition phone_line (phone : TrayPhone) : string :=
  match tp_round_trip phone with
  | Some d => tp_name phone ++ " · " ++ format_round_trip d
  | None => tp_name phone ++ " · connected"
  end%string.

(** [rx/tray 670-696 ReceiverTray::summary] *)
Definition summary (t : ReceiverTray) : string :=
  let peer := peer_name t in
  let text := match state t with
    | Starting => "Connecting…"
    | Listening => if pairing_armed t then "Ready to pair: confirm on both computers"
                   else "Waiting for a computer"
    | Connected => if role_switching t then "Switching control with " ++ peer ++ "…"
                   else if local_is_controller t then "Controlling " ++ peer
                   else peer ++ " is controlling this computer"
    | Paused => "Disconnected"
    | Tray_Error => "Error: " ++ shorten (unwrap_or "unknown" (last_error t)) 60
    end%string in
  match round_trip t with
  | Some d => if decide (state t = Connected) then (text ++ " · " ++ format_round_trip d)%string
              else text
  | None => text
  end.

(** [rx/tray 698-723 ReceiverTray::status] *)
Definition tray_status (t : ReceiverTray) : TrayStatus :=
  let is_connected := bool_decide (state t = Connected) in
  {| summary_text := summary t;
     status_connected := is_connected;
     status_peer := if is_connected then Some (peer_name t) else None;
     round_trip_ms := match round_trip t with
                      | Some d => if is_connected then Some (Z.min u64_max (as_millis d)) else None
                      | None => None
                      end;
     diagnostics :=
       [("transport", transport t);
        ("input backend", backend t);
        ("connections", print_dec (connections t));
        ("input events", print_dec (tray_input_events t));
        ("clipboard events", print_dec (tray_clipboard_events t));
        ("phones", print_dec (len (tray_phones t)));
        ("last error", unwrap_or "none" (last_error t))]%string |}.

(** [rx/tray 921-926 ReceiverTray::description] *)
Definition description (t : ReceiverTray) : string :=
  str_join (String newline EmptyString) (summary t :: map phone_line (tray_phones t)).

(** ** Where audio goes *)

(** [rx/tray 749-761 ReceiverTray::audio_targets] *)
Definition audio_targets (t : ReceiverTray) : list AudioTarget :=
  [Pc Audio_Local; Pc Audio_Peer]
  ++ flat_map (fun phone => [Target_ToPhone (tp_fingerprint phone);
                             Target_FromPhone (tp_fingerprint phone)]) (tray_phones t)
  ++ [Target_Off].

(** The first phone with audio, and its direction.
    [rx/tray 764-767 ReceiverTray::current_audio_target] *)
Definition playing_phone (phones : list TrayPhone) : option (string * AudioDirection) :=
  head (omap (fun phone => match tp_audio phone with
                           | Some d => Some (tp_fingerprint phone, d)
                           | None => None
                           end) phones).

(** [rx/tray 763-776 ReceiverTray::current_audio_target] *)
Definition current_audio_target (t : ReceiverTray) : AudioTarget :=
  match playing_phone (tray_phones t), audio_choice t with
  | Some (fingerprint, ToPhone), _ => Target_ToPhone fingerprint
  | Some (fingerprint, FromPhone), _ => Target_FromPhone fingerprint
  | None, Audio_Off => Target_Off
  | None, choice => Pc choice
  end.

(** [rx/tray 881-888 ReceiverTray::phone_audio_request] *)
Definition phone_audio_request (t : ReceiverTray) (fingerprint : string)
    (direction : option AudioDirection) : list tray_output :=
  if phone_requests t then [Send_audio fingerprint direction] else [].

(** [rx/tray 850-854 ReceiverTray::choose_audio] *)
Definition is_target_phone (target : AudioTarget) (fingerprint : string) : bool :=
  match target with
  | Target_ToPhone f | Target_FromPhone f => str_eqb f fingerprint
  | _ => false
  end.

(** [rx/tray 847-879 ReceiverTray::choose_audio] *)
Definition choose_audio (t : ReceiverTray) (target : AudioTarget) : list tray_output :=
  flat_map (fun phone =>
    if bool_decide (is_Some (tp_audio phone)) && negb (is_target_phone target (tp_fingerprint phone))
    then phone_audio_request t (tp_fingerprint phone) None else []) (tray_phones t)
  ++ match target with
     | Pc choice => [Send_command (SetAudio choice)]
     | Target_ToPhone fingerprint =>
         (if decide (audio_choice t = Audio_Off) then [] else [Send_command (SetAudio Audio_Off)])
         ++ phone_audio_request t fingerprint (Some ToPhone)
     | Target_FromPhone _ => []
     | Target_Off => [Send_command (SetAudio Audio_Off)]
     end.

(** ** The menu *)

(** A row of the menu, without its icon: what is written, whether it is enabled and shown, and
    the command it sends when it is activated. *)
Record RadioItem := { radio_label : string; radio_enabled : bool; radio_visible : bool }.
Inductive MenuItem :=
| Standard (label : string) (enabled visible : bool) (activate : option TrayCommand)
| Checkmark (label : string) (enabled checked : bool) (activate : TrayCommand)
| RadioGroup (selected : nat) (options : list RadioItem)
| Separator.

(** [rx/tray 840-845 ReceiverTray::phone]; the [expect] that fails is [None]. *)
Definition tray_phone (t : ReceiverTray) (fingerprint : string) : option TrayPhone :=
  List.find (fun phone => str_eqb (tp_fingerprint phone) fingerprint) (tray_phones t).

(** [rx/tray 783-822 ReceiverTray::audio_items] (one row of the group) *)
Definition audio_item (t : ReceiverTray) (target : AudioTarget) : option RadioItem :=
  let is_connected := bool_decide (state t = Connected) in
  match target with
  | Pc Audio_Local => Some {| radio_label := "Send to " ++ peer_name t;
                              radio_enabled := is_connected && local_audio_available t;
                              radio_visible := true |}
  | Pc _ => Some {| radio_label := "Play from " ++ peer_name t;
                    radio_enabled := is_connected && peer_audio_available t;
                    radio_visible := true |}
  | Target_ToPhone fingerprint =>
      phone ← tray_phone t fingerprint;
      Some {| radio_label := if tp_accepts_audio_invite phone then "Send to " ++ tp_name phone
                             else "Send to " ++ tp_name phone ++ " (update HyprMobile)";
              radio_enabled := tp_accepts_audio_invite phone; radio_visible := true |}
  | Target_FromPhone fingerprint =>
      phone ← tray_phone t fingerprint;
      Some {| radio_label := "Play from " ++ tp_name phone; radio_enabled := true;
              radio_visible := bool_decide (tp_audio phone = Some FromPhone) |}
  | Target_Off => Some {| radio_label := "Off"; radio_enabled := true; radio_visible := true |}
  end%string.

(** [iter().position(|x| x == target)] *)
Fixpoint position (target : AudioTarget) (targets : list AudioTarget) : option nat :=
  match targets with
  | [] => None
  | x :: rest => if decide (x = target) then Some O else S <$> position target rest
  end.

(** [rx/tray 778-838 ReceiverTray::audio_items] *)
Definition audio_items (t : ReceiverTray) : option MenuItem :=
  options ← mapM (audio_item t) (audio_targets t);
  Some (RadioGroup (unwrap_or O (position (current_audio_target t) (audio_targets t))) options).

(** [rx/tray 830-834 ReceiverTray::audio_items] (the [select] of the group) *)
Definition select_audio (t : ReceiverTray) (selected : nat) : list tray_output :=
  match audio_targets t !! selected with
  | Some target => choose_audio t target
  | None => []
  end.

(** [rx/tray 725-747 ReceiverTray::control_item] *)
Definition control_item (t : ReceiverTray) : MenuItem :=
  let visible := bool_decide (state t = Connected) && role_switch_available t in
  if local_is_controller t
  then Standard ("Let " ++ peer_name t ++ " control this computer") (negb (role_switching t)) visible
         (Some (SetController Controller_Peer))
  else Standard ("Control " ++ peer_name t ++ " from here") (negb (role_switching t)) visible
         (Some (SetController Controller_Local)).

(** [rx/tray 890-911 ReceiverTray::connection_item] *)
Definition connection_item (t : ReceiverTray) : MenuItem :=
  match state t with
  | Paused => Standard "Reconnect" true true (Some Tray_Reconnect)
  | _ => Standard "Disconnect" true true (Some Tray_Disconnect)
  end.

(** [rx/tray 1216-1223 disabled_item] *)
Definition disabled_item (label : string) : MenuItem := Standard label false true None.

(** [rx/tray 520-621 ReceiverTray::menu] *)
Definition menu (t : ReceiverTray) : option (list MenuItem) :=
  let is_connected := bool_decide (state t = Connected) in
  audio ← audio_items t;
  Some ([Standard (summary t) true true (Some OpenSettings)]
        ++ map (fun phone => Standard (phone_line phone) true true (Some OpenSettings)) (tray_phones t)
        ++ [Separator;
            Checkmark "Share mouse and keyboard" is_connected (input_forwarding_enabled t)
              ToggleInputForwarding;
            control_item t;
            Separator;
            disabled_item "Audio";
            audio;
            Separator;
            Standard "Add phone…" true (phone_requests t) (Some AddPhone);
            Standard "Pair a computer…" (negb (pairing_armed t)) (negb is_connected) (Some ArmPairing);
            connection_item t;
            Standard "Settings…" true true (Some OpenSettings);
            Standard "Quit" true true (Some Tray_Quit)]).

(** ** Updates

    The counters are atomics that the session loops change; [None] is a round trip that has not
    been measured.  A tick of the updater takes them and then applies them to the tray, and the
    counters may change in between: [in_flight] is what a tick has taken. *)

(** [rx/tray 22-23 NO_ROUND_TRIP] *)
Definition NO_ROUND_TRIP : Z := u64_max.
(** [rx/tray 24-25 ROUND_TRIP_REFRESH] *)
Definition ROUND_TRIP_REFRESH : Duration := from_secs 5.

(** [rx/tray 87-94 LiveCounters] *)
Record LiveCounters := {
  input_events : Z;
  clipboard_events : Z;
  round_trip_micros : Z;
  round_trip_shown_at : option Instant;
  dirty : bool;
}.

(** [rx/tray 97-105 LiveCounters::new] *)
Definition LiveCounters_new : LiveCounters :=
  {| input_events := 0; clipboard_events := 0; round_trip_micros := NO_ROUND_TRIP;
     round_trip_shown_at := None; dirty := false |}.

(** [rx/tray 107-112 LiveCounters::round_trip] *)
Definition live_round_trip (l : LiveCounters) : option Duration :=
  if round_trip_micros l =? NO_ROUND_TRIP then None else Some (round_trip_micros l * 1000).

(** [rx/tray 258-263 ReceiverTrayHandle::set_round_trip] *)
Definition set_round_trip (d : option Duration) (l : LiveCounters) : LiveCounters :=
  {| input_events := input_events l; clipboard_events := clipboard_events l;
     round_trip_micros := match d with
                          | Some rtt => unwrap_or (NO_ROUND_TRIP - 1) (try_from u64_max (as_micros rtt))
                          | None => NO_ROUND_TRIP
                          end;
     round_trip_shown_at := round_trip_shown_at l; dirty := dirty l |}.

Definition set_dirty : bool -> LiveCounters -> LiveCounters := ltac:(field_setter dirty).

(** [rx/tray 227-230 ReceiverTrayHandle::input_event] *)
Definition input_event (l : LiveCounters) : LiveCounters :=
  {| input_events := wrapping_add u64_max (input_events l) 1; clipboard_events := clipboard_events l;
     round_trip_micros := round_trip_micros l; round_trip_shown_at := round_trip_shown_at l;
     dirty := true |}.

(** [rx/tray 232-235 ReceiverTrayHandle::clipboard_event] *)
Definition clipboard_event (l : LiveCounters) : LiveCounters :=
  {| input_events := input_events l;
     clipboard_events := wrapping_add u64_max (clipboard_events l) 1;
     round_trip_micros := round_trip_micros l; round_trip_shown_at := round_trip_shown_at l;
     dirty := true |}.

(** [rx/tray 237-256 ReceiverTrayHandle::peer_round_trip] *)
Definition peer_round_trip (d : option Duration) (now : Instant) (l : LiveCounters) : LiveCounters :=
  let shown := live_round_trip l in
  if decide (as_millis <$> shown = as_millis <$> d) then l
  else if negb (bool_decide (is_Some shown))
          || is_none_or (fun at_ => ROUND_TRIP_REFRESH <=? duration_since now at_)
               (round_trip_shown_at l)
  then
    let l := {| input_events := input_events l; clipboard_events := clipboard_events l;
                round_trip_micros := round_trip_micros l; round_trip_shown_at := Some now;
                dirty := dirty l |} in
    set_dirty true (set_round_trip d l)
  else l.

(** [rx/tray 115-121 ReceiverTrayHandle]: the tray, its counters and the status published last. *)
Record TrayHandle := {
  tray : ReceiverTray;
  live : LiveCounters;
  published : TrayStatus;
  in_flight : option (Z * Z * option Duration);
}.

(** What becomes of a change given to the tray service within its time limit: it is made in
    time, made but not confirmed, given up before it is made, or the service has stopped. *)
Inductive outcome := Applied | Applied_late | Cancelled | Shut_down.
Definition change_made (o : outcome) : bool :=
  match o with Applied | Applied_late => true | Cancelled | Shut_down => false end.

(** [rx/tray 391-407 apply] *)
Definition tray_apply (o : outcome) (update : ReceiverTray -> ReceiverTray) (h : TrayHandle) :
  TrayHandle * bool :=
  (if change_made o
   then let t := update (tray h) in
        {| tray := t; live := live h; published := tray_status t; in_flight := in_flight h |}
   else h,
   match o with Applied | Shut_down => true | Applied_late | Cancelled => false end).

Definition with_live (f : LiveCounters -> LiveCounters) (h : TrayHandle) : TrayHandle :=
  {| tray := tray h; live := f (live h); published := published h; in_flight := in_flight h |}.

(** The fields that follow the session. *)
Definition set_session (st : TrayState) (peer : option string) (d : option Duration)
    (conns inputs clips : Z) (error : option string) (t : ReceiverTray) : ReceiverTray :=
  {| state := st; transport := transport t; backend := backend t; pairing_armed := pairing_armed t;
     connected_peer := peer; round_trip := d; connections := conns; tray_input_events := inputs;
     tray_clipboard_events := clips; input_forwarding_enabled := input_forwarding_enabled t;
     audio_choice := audio_choice t; local_audio_available := local_audio_available t;
     peer_audio_available := peer_audio_available t; local_device_name := local_device_name t;
     peer_device_name := peer_device_name t; local_is_controller := local_is_controller t;
     role_switch_available := role_switch_available t; role_switching := role_switching t;
     last_error := error; tray_phones := tray_phones t; phone_requests := phone_requests t |}.
(** The fields that follow the roles. *)
Definition set_roles (locl peer : option string) (controls available switching : bool)
    (error : option string) (t : ReceiverTray) : ReceiverTray :=
  {| state := state t; transport := transport t; backend := backend t;
     pairing_armed := pairing_armed t; connected_peer := connected_peer t;
     round_trip := round_trip t; connections := connections t;
     tray_input_events := tray_input_events t; tray_clipboard_events := tray_clipboard_events t;
     input_forwarding_enabled := input_forwarding_enabled t; audio_choice := audio_choice t;
     local_audio_available := local_audio_available t;
     peer_audio_available := peer_audio_available t; local_device_name := locl;
     peer_device_name := peer; local_is_controller := controls; role_switch_available := available;
     role_switching := switching; last_error := error; tray_phones := tray_phones t;
     phone_requests := phone_requests t |}.
(** The switches, the audio route and the phones. *)
Definition set_rest (armed forwarding : bool) (choice : AudioChoice) (locl peer : bool)
    (phones : list TrayPhone) (requests : bool) (t : ReceiverTray) : ReceiverTray :=
  {| state := state t; transport := transport t; backend := backend t; pairing_armed := armed;
     connected_peer := connected_peer t; round_trip := round_trip t; connections := connections t;
     tray_input_events := tray_input_events t; tray_clipboard_events := tray_clipboard_events t;
     input_forwarding_enabled := forwarding; audio_choice := choice; local_audio_available := locl;
     peer_audio_available := peer; local_device_name := local_device_name t;
     peer_device_name := peer_device_name t; local_is_controller := local_is_controller t;
     role_switch_available := role_switch_available t; role_switching := role_switching t;
     last_error := last_error t; tray_phones := phones; phone_requests := requests |}.
Definition set_phones (phones : list TrayPhone) (t : ReceiverTray) : ReceiverTray :=
  set_rest (pairing_armed t) (input_forwarding_enabled t) (audio_choice t) (local_audio_available t)
    (peer_audio_available t) phones (phone_requests t) t.

(** A [sort_by] keeps the order of equal names.
    [rx/tray 354-354 ReceiverTrayHandle::phone_connected] *)
Fixpoint insert_phone (phone : TrayPhone) (phones : list TrayPhone) : list TrayPhone :=
  match phones with
  | [] => [phone]
  | p :: rest => if String.leb (tp_name phone) (tp_name p) then phone :: phones
                 else p :: insert_phone phone rest
  end.
Definition sort_phones (phones : list TrayPhone) : list TrayPhone := foldr insert_phone [] phones.

(** [rx/tray 657-661 ReceiverTray::phone_mut] (and the change of the phone it finds) *)
Fixpoint update_phone (fingerprint : string) (f : TrayPhone -> TrayPhone) (phones : list TrayPhone) :
  list TrayPhone :=
  match phones with
  | [] => []
  | p :: rest => if str_eqb (tp_fingerprint p) fingerprint then f p :: rest
                 else p :: update_phone fingerprint f rest
  end.
Definition other_phones (fingerprint : string) (phones : list TrayPhone) : list TrayPhone :=
  List.filter (fun p => negb (str_eqb (tp_fingerprint p) fingerprint)) phones.

(** [rx/tray 339-357 ReceiverTrayHandle::phone_connected] *)
Definition phone_connected (fingerprint name : string) (invites : bool) (phones : list TrayPhone) :
  list TrayPhone :=
  sort_phones (other_phones fingerprint phones
    ++ [{| tp_fingerprint := fingerprint; tp_name := name; tp_round_trip := None;
           tp_audio := None; tp_accepts_audio_invite := invites |}]).

(** [rx/tray 359-366 ReceiverTrayHandle::phone_round_trip] *)
Definition phone_round_trip (fingerprint : string) (d : Duration) : list TrayPhone -> list TrayPhone :=
  update_phone fingerprint (fun p =>
    {| tp_fingerprint := tp_fingerprint p; tp_name := tp_name p; tp_round_trip := Some d;
       tp_audio := tp_audio p; tp_accepts_audio_invite := tp_accepts_audio_invite p |}).

(** [rx/tray 368-375 ReceiverTrayHandle::phone_audio] *)
Definition phone_audio (fingerprint : string) (audio : option AudioDirection) :
  list TrayPhone -> list TrayPhone :=
  update_phone fingerprint (fun p =>
    {| tp_fingerprint := tp_fingerprint p; tp_name := tp_name p;
       tp_round_trip := tp_round_trip p; tp_audio := audio;
       tp_accepts_audio_invite := tp_accepts_audio_invite p |}).

(** [rx/tray 377-380 ReceiverTrayHandle::phone_disconnected] *)
Definition phone_disconnected (fingerprint : string) (phones : list TrayPhone) : list TrayPhone :=
  other_phones fingerprint phones.

Inductive tray_call :=
| Call_set_phone_requests
| Call_listening
| Call_pairing_armed (armed : bool)
| Call_connected (peer : string)
| Call_disconnected (error : option string)
| Call_disconnected_by_user
| Call_input_forwarding (enabled : bool)
| Call_session_paused (paused : bool)
| Call_audio_route (choice : AudioChoice) (local_available peer_available : bool)
| Call_role_assignment (local_device_name peer_device_name : string)
    (local_is_controller available : bool)
| Call_role_switching (switching : bool)
| Call_role_failure (error : string)
| Call_error (error : string)
| Call_phone_connected (fingerprint name : string) (accepts_audio_invite : bool)
| Call_phone_round_trip (fingerprint : string) (round_trip : Duration)
| Call_phone_audio (fingerprint : string) (audio : option AudioDirection)
| Call_phone_disconnected (fingerprint : string).

(** [rx/tray 157-336 ReceiverTrayHandle] (what each call changes, with the counters it reads) *)
Definition call_update (call : tray_call) (l : LiveCounters) (t : ReceiverTray) : ReceiverTray :=
  match call with
  | Call_set_phone_requests =>
      set_rest (pairing_armed t) (input_forwarding_enabled t) (audio_choice t)
        (local_audio_available t) (peer_audio_available t) (tray_phones t) true t
  | Call_listening =>
      set_session Listening None None (connections t) (tray_input_events t)
        (tray_clipboard_events t) None t
  | Call_pairing_armed armed =>
      set_rest armed (input_forwarding_enabled t) (audio_choice t) (local_audio_available t)
        (peer_audio_available t) (tray_phones t) (phone_requests t) t
  | Call_connected peer =>
      set_session Connected (Some peer) None (saturating_add u64_max (connections t) 1)
        (input_events l) (clipboard_events l) None t
  | Call_disconnected error =>
      set_session (if decide (is_Some error) then Tray_Error else Listening) None None
        (connections t) (input_events l) (clipboard_events l) error t
  | Call_disconnected_by_user =>
      set_session Paused None None (connections t) (input_events l) (clipboard_events l) None t
  | Call_input_forwarding enabled =>
      set_rest (pairing_armed t) enabled (audio_choice t) (local_audio_available t)
        (peer_audio_available t) (tray_phones t) (phone_requests t) t
  | Call_session_paused paused =>
      set_roles (local_device_name t) (peer_device_name t) (local_is_controller t)
        (role_switch_available t) false None
        (set_session (if paused then Paused else Connected) (connected_peer t) (round_trip t)
           (connections t) (tray_input_events t) (tray_clipboard_events t) None t)
  | Call_audio_route choice locl peer =>
      set_rest (pairing_armed t) (input_forwarding_enabled t) choice locl peer (tray_phones t)
        (phone_requests t) t
  | Call_role_assignment locl peer controls available =>
      set_roles (Some locl) (Some peer) controls available false None t
  | Call_role_switching switching =>
      set_roles (local_device_name t) (peer_device_name t) (local_is_controller t)
        (role_switch_available t) switching (last_error t) t
  | Call_role_failure error =>
      set_roles (local_device_name t) (peer_device_name t) (local_is_controller t)
        (role_switch_available t) false (Some error) t
  | Call_error error =>
      set_session Tray_Error None None (connections t) (tray_input_events t)
        (tray_clipboard_events t) (Some error) t
  | Call_phone_connected fingerprint name invites =>
      set_phones (phone_connected fingerprint name invites (tray_phones t)) t
  | Call_phone_round_trip fingerprint d =>
      set_phones (phone_round_trip fingerprint d (tray_phones t)) t
  | Call_phone_audio fingerprint audio => set_phones (phone_audio fingerprint audio (tray_phones t)) t
  | Call_phone_disconnected fingerprint => set_phones (phone_disconnected fingerprint (tray_phones t)) t
  end.

(** The calls that first forget the round trip.
    [rx/tray 328-329 ReceiverTrayHandle::error] *)
Definition forgets_round_trip (call : tray_call) : bool :=
  match call with
  | Call_listening | Call_connected _ | Call_disconnected _ | Call_disconnected_by_user
  | Call_error _ => true
  | _ => false
  end.

(** [rx/tray 386-388 ReceiverTrayHandle::update] *)
Definition handle_call (o : outcome) (call : tray_call) (h : TrayHandle) : TrayHandle :=
  let h := if forgets_round_trip call then with_live (set_round_trip None) h else h in
  (tray_apply o (call_update call (live h)) h).1.

(** [rx/tray 417-424 spawn_live_updates] (a tick takes the counters) *)
Definition tick_begin (h : TrayHandle) : TrayHandle :=
  match in_flight h with
  | Some _ => h
  | None =>
      if dirty (live h)
      then {| tray := tray h; live := set_dirty false (live h); published := published h;
              in_flight := Some (input_events (live h), clipboard_events (live h),
                                 live_round_trip (live h)) |}
      else h
  end.

(** [rx/tray 425-436 spawn_live_updates] (and gives them to the tray) *)
Definition tick_end (o : outcome) (h : TrayHandle) : TrayHandle :=
  match in_flight h with
  | None => h
  | Some (inputs, clips, d) =>
      let h := {| tray := tray h; live := live h; published := published h; in_flight := None |} in
      let r := tray_apply o (fun t =>
        set_session (state t) (connected_peer t)
          (if decide (state t = Connected) then d else round_trip t) (connections t) inputs clips
          (last_error t) t) h in
      if r.2 then r.1 else with_live (set_dirty true) r.1
  end.

(** [rx/tray 124-144 ReceiverTrayHandle::spawn] *)
Definition spawn (transport backend : string) (armed : bool) : TrayHandle :=
  let t := ReceiverTray_new transport backend armed in
  {| tray := t; live := LiveCounters_new; published := tray_status t; in_flight := None |}.

Inductive tray_op :=
| Op_call (o : outcome) (call : tray_call)
| Op_input
| Op_clipboard
| Op_round_trip (d : option Duration) (now : Instant)
| Op_tick_begin
| Op_tick_end (o : outcome).
Definition tray_step (h : TrayHandle) (op : tray_op) : TrayHandle :=
  match op with
  | Op_call o call => handle_call o call h
  | Op_input => with_live input_event h
  | Op_clipboard => with_live clipboard_event h
  | Op_round_trip d now => with_live (peer_round_trip d now) h
  | Op_tick_begin => tick_begin h
  | Op_tick_end o => tick_end o h
  end.
Definition tray_run (ops : list tray_op) (h : TrayHandle) : TrayHandle := fold_left tray_step ops h.

(** ** Properties *)

(** *** Counters *)

Section Counters.
(** What a quiet counter is: shown, or taken by the tick that is under way. *)
Definition counters_ok (h : TrayHandle) : Prop :=
  dirty (live h) = false ->
  match in_flight h with
  | Some (inputs, clips, _) => inputs = input_events (live h) /\ clips = clipboard_events (live h)
  | None => tray_input_events (tray h) = input_events (live h)
            /\ tray_clipboard_events (tray h) = clipboard_events (live h)
  end.

Definition op_outcome (op : tray_op) : option outcome :=
  match op with Op_call o _ | Op_tick_end o => Some o | _ => None end.
Definition counts (f : tray_op -> bool) (ops : list tray_op) : Z := len (List.filter f ops).
Definition is_input (op : tray_op) : bool := match op with Op_input => true | _ => false end.
Definition is_clipboard (op : tray_op) : bool := match op with Op_clipboard => true | _ => false end.
Definition up (b : bool) (n : Z) : Z := if b then wrapping_add u64_max n 1 else n.

Lemma peer_round_trip_counts d now l : let l' := peer_round_trip d now l in
  input_events l' = input_events l /\ clipboard_events l' = clipboard_events l
  /\ (dirty l' = false -> l' = l).
Proof. cbv zeta. unfold peer_round_trip. by repeat case_match. Qed.

Lemma step_counts h op : let h' := tray_step h op in
  input_events (live h') = up (is_input op) (input_events (live h))
  /\ clipboard_events (live h') = up (is_clipboard op) (clipboard_events (live h)).
Proof.
  cbv zeta. destruct op as [o call| | |d now| |o]; cbn [tray_step is_input is_clipboard up].
  - unfold handle_call, tray_apply. destruct (forgets_round_trip call), o; done.
  - done.
  - done.
  - cbn. by destruct (peer_round_trip_counts d now (live h)) as (-> & -> & _).
  - unfold tick_begin. by repeat case_match.
  - unfold tick_end. destruct (in_flight h) as [[[??]?]|]; [|done]. by destruct o.
Qed.

Lemma step_counters_ok h op : op_outcome op <> Some Shut_down ->
  counters_ok h -> counters_ok (tray_step h op).
Proof.
  intros Ho Hh. unfold counters_ok in *. destruct op as [o call| | |d now| |o]; cbn; try done.
  - unfold handle_call, tray_apply.
    destruct (in_flight h) as [[[??]?]|] eqn:E; destruct o; cbn; destruct call; cbn; rewrite ?E;
      intros Hd; destruct (Hh Hd); done.
  - intros Hd. destruct (peer_round_trip_counts d now (live h)) as (_ & _ & Hl).
    specialize (Hl Hd). cbn in Hl. rewrite Hl in Hd |- *. exact (Hh Hd).
  - unfold tick_begin. destruct (in_flight h) as [[[??]?]|] eqn:E; [by rewrite E|].
    destruct (dirty (live h)) eqn:D; [done|]. by rewrite E, D.
  - unfold tick_end. destruct (in_flight h) as [[[i c]?]|] eqn:E; [|by rewrite E].
    by destruct o.
Qed.

Lemma step_published h op :
  published h = tray_status (tray h) -> published (tray_step h op) = tray_status (tray (tray_step h op)).
Proof.
  intros Hh. destruct op as [o call| | |d now| |o]; cbn; try done.
  - unfold handle_call, tray_apply. destruct o, (forgets_round_trip call); done.
  - unfold tick_begin. by repeat case_match.
  - unfold tick_end. destruct (in_flight h) as [[[??]?]|]; [|done]. by destruct o.
Qed.

Lemma run_counts f g ops h :
  (forall h op, g (live (tray_step h op)) = up (f op) (g (live h))) ->
  g (live h) mod (u64_max + 1) = g (live h) ->
  g (live (tray_run ops h)) = (g (live h) + counts f ops) mod (u64_max + 1).
Proof.
  intros Hstep. revert h. unfold counts. induction ops as [|op ops IH]; intros h Hm.
  - cbn. by rewrite len_nil, Z.add_0_r.
  - cbn [tray_run fold_left]. fold (tray_run ops (tray_step h op)).
    assert (g (live (tray_step h op)) mod (u64_max + 1) = g (live (tray_step h op))) as Hm'.
    { rewrite Hstep. unfold up, wrapping_add. destruct (f op); [|done]. by rewrite Zmod_mod. }
    rewrite (IH _ Hm'), Hstep. cbn [List.filter]. unfold up, wrapping_add.
    destruct (f op); [|done]. rewrite len_cons, Zplus_mod_idemp_l. f_equal. lia.
Qed.

Lemma tray_run_ok ops h : Forall (fun op => op_outcome op <> Some Shut_down) ops ->
  counters_ok h -> published h = tray_status (tray h) ->
  counters_ok (tray_run ops h) /\ published (tray_run ops h) = tray_status (tray (tray_run ops h)).
Proof.
  intros Hops. revert h. induction Hops as [|op ops Hop Hops IH]; intros h Hc Hp; [done|].
  apply IH; [by apply step_counters_ok|by apply step_published].
Qed.

Lemma tray_run_app a b h : tray_run (a ++ b) h = tray_run b (tray_run a h).
Proof. apply fold_left_app. Qed.

(** No event is lost on its way to the tray: however the sessions' events, the calls of the
    handle and the updates of the tray interleave, and even if some updates are given up, the
    next tick that succeeds shows exactly the input and clipboard events so far (modulo 2^64),
    and the published status is the tray's. *)
Theorem counters_reach_the_tray transport backend armed ops :
  Forall (fun op => op_outcome op <> Some Shut_down) ops ->
  in_flight (tray_run ops (spawn transport backend armed)) = None ->
  let h := tray_run (ops ++ [Op_tick_begin; Op_tick_end Applied]) (spawn transport backend armed) in
  tray_input_events (tray h) = counts is_input ops mod 2 ^ 64
  /\ tray_clipboard_events (tray h) = counts is_clipboard ops mod 2 ^ 64
  /\ published h = tray_status (tray h).
Proof.
  intros Hops Hf h. subst h. rewrite tray_run_app.
  destruct (tray_run_ok ops (spawn transport backend armed)) as [Hc Hp]; [done|done|done|].
  pose proof (run_counts is_input input_events ops (spawn transport backend armed)
    (fun h op => proj1 (step_counts h op)) eq_refl) as Hi.
  pose proof (run_counts is_clipboard clipboard_events ops (spawn transport backend armed)
    (fun h op => proj2 (step_counts h op)) eq_refl) as Hcl.
  revert Hf Hc Hp Hi Hcl. generalize (tray_run ops (spawn transport backend armed)) as h.
  intros h Hf Hc Hp Hi Hcl. unfold counters_ok in Hc. rewrite Hf in Hc.
  cbn [tray_run fold_left tray_step]. unfold tick_begin. rewrite Hf.
  destruct (dirty (live h)) eqn:D; cbn; [by rewrite Hi, Hcl|].
  unfold tick_end. rewrite Hf. destruct (Hc eq_refl) as [-> ->]. by rewrite Hi, Hcl.
Qed.

Definition busy_ops : list tray_op :=
  [Op_call Applied (Call_connected "Main PC"); Op_input; Op_tick_begin; Op_input; Op_clipboard;
   Op_tick_end Cancelled; Op_input].
Lemma counters_reach_the_tray_witness :
  tray_input_events (tray (tray_run (busy_ops ++ [Op_tick_begin; Op_tick_end Applied])
                             (spawn "t" "b" false))) = 3.
Proof.
  refine (proj1 (counters_reach_the_tray "t" "b" false busy_ops _ eq_refl)).
  by repeat constructor.
Defined.
End Counters.

(** *** The ping *)

Section Ping.
(** The measured round trips, and when the one that is shown changed. *)
Fixpoint shown_changes (pings : list (Duration * Instant)) (l : LiveCounters) : list Instant :=
  match pings with
  | [] => []
  | (d, now) :: rest =>
      let l' := peer_round_trip (Some d) now l in
      (if decide (live_round_trip l' = live_round_trip l) then [] else [now]) ++ shown_changes rest l'
  end.

Definition spaced : relation Instant := fun a b => a + ROUND_TRIP_REFRESH <= b.

(** A round trip shorter than 2^64 - 1 microseconds has a value of its own. *)
Lemma measured_is_shown d l : 0 <= d < u64_max * 1000 ->
  is_Some (live_round_trip (set_dirty true (set_round_trip (Some d) l))).
Proof.
  intros Hd. unfold live_round_trip, set_dirty, set_round_trip, try_from, as_micros. cbn.
  pose proof (Z.div_pos d 1000). assert (d / 1000 < u64_max) by (apply Z.div_lt_upper_bound; lia).
  rewrite (proj2 (Z.leb_le 0 _)), (proj2 (Z.leb_le _ u64_max)) by lia. cbn.
  rewrite (proj2 (Z.eqb_neq _ NO_ROUND_TRIP)) by (unfold NO_ROUND_TRIP; lia). by eexists.
Qed.

Lemma shown_is_some d now l : 0 <= d < u64_max * 1000 -> is_Some (live_round_trip l) ->
  is_Some (live_round_trip (peer_round_trip (Some d) now l)).
Proof.
  intros Hd Hl. unfold peer_round_trip. repeat case_match; try done. by apply measured_is_shown.
Qed.

Lemma ping_spaced pings : forall l at_, Forall (fun p => 0 <= p.1 < u64_max * 1000) pings ->
  is_Some (live_round_trip l) -> round_trip_shown_at l = Some at_ ->
  Sorted spaced (at_ :: shown_changes pings l).
Proof.
  induction pings as [|[d now] pings IH]; intros l at_ Hp Hs Ha; [by repeat constructor|].
  inversion Hp as [|? ? Hd Hp']; subst. cbn [shown_changes]. cbn in Hd.
  pose proof (shown_is_some d now l Hd Hs) as Hs'. revert Hs'.
  unfold peer_round_trip. rewrite Ha, (bool_decide_eq_true_2 _ Hs). cbn [negb orb is_none_or].
  destruct (decide _) as [|_]; [intros Hs'; rewrite decide_True by done; by apply IH|].
  destruct (Z.leb_spec ROUND_TRIP_REFRESH (duration_since now at_)) as [Hdue|_];
    [|intros Hs'; rewrite decide_True by done; by apply IH].
  intros Hs'. match goal with |- context [decide ?P] => destruct (decide P) as [E|_] end.
  - cbn [app]. pose proof (IH _ now Hp' Hs' eq_refl) as Hn. inversion Hn as [|? ? Hx Hh]; subst.
    constructor; [done|]. inversion Hh; subst; constructor.
    unfold spaced, duration_since, ROUND_TRIP_REFRESH, from_secs in *. lia.
  - cbn [app]. constructor; [apply IH; [done|exact Hs'|reflexivity]|]. constructor.
    unfold spaced, duration_since in *. unfold ROUND_TRIP_REFRESH, from_secs in *. lia.
Qed.

(** The ping in the menu is steady: once connected, the first measured round trip is shown at
    once, and however often heartbeats measure it, what is shown changes at most every five
    seconds. *)
Theorem ping_is_steady d now pings l :
  Forall (fun p => 0 <= p.1 < u64_max * 1000) ((d, now) :: pings) -> live_round_trip l = None ->
  exists rest, shown_changes ((d, now) :: pings) l = now :: rest
    /\ Sorted (fun a b => a + from_secs 5 <= b) (now :: rest).
Proof.
  intros Hp Hl. inversion Hp as [|? ? Hd Hp']; subst. cbn in Hd. cbn [shown_changes].
  set (l' := peer_round_trip (Some d) now l).
  assert (l' = set_dirty true (set_round_trip (Some d)
    {| input_events := input_events l; clipboard_events := clipboard_events l;
       round_trip_micros := round_trip_micros l; round_trip_shown_at := Some now;
       dirty := dirty l |})) as El by (subst l'; unfold peer_round_trip; by rewrite Hl).
  assert (is_Some (live_round_trip l')) as Hs by (rewrite El; by apply measured_is_shown).
  rewrite decide_False by (rewrite Hl; destruct Hs as [? ->]; done).
  exists (shown_changes pings l'). split; [done|].
  apply (ping_spaced pings l' now); [done|done|by rewrite El].
Qed.

Lemma ping_is_steady_witness :
  let pings := [(from_millis 9, from_secs 1); (from_millis 7, from_secs 5); (from_millis 9, from_secs 6)] in
  shown_changes ((from_millis 4, 0) :: pings) LiveCounters_new = [0; from_secs 5]
  /\ exists rest, shown_changes ((from_millis 4, 0) :: pings) LiveCounters_new = 0 :: rest
       /\ Sorted (fun a b => a + from_secs 5 <= b) (0 :: rest).
Proof.
  cbv zeta. split; [reflexivity|].
  refine (ping_is_steady _ _ _ LiveCounters_new _ _); [|reflexivity].
  repeat constructor; cbn; vm_compute; congruence.
Defined.
End Ping.

(** *** Where audio goes *)

Section AudioChoice.
(** What the receiver loop and the phone sessions report back once they have done what they
    were sent: the calls [audio_route] and [phone_audio]. *)
Definition honour (t : ReceiverTray) (out : tray_output) : ReceiverTray :=
  match out with
  | Send_command (SetAudio choice) =>
      call_update (Call_audio_route choice (local_audio_available t) (peer_audio_available t))
        LiveCounters_new t
  | Send_command _ => t
  | Send_audio fingerprint direction =>
      call_update (Call_phone_audio fingerprint direction) LiveCounters_new t
  end.
Definition honour_all (outs : list tray_output) (t : ReceiverTray) : ReceiverTray :=
  fold_left honour outs t.

Definition set_audio : option AudioDirection -> TrayPhone -> TrayPhone :=
  ltac:(field_setter tp_audio).
(** What an output does to one phone, and to the route of the computers. *)
Definition act (p : TrayPhone) (out : tray_output) : TrayPhone :=
  match out with
  | Send_audio fingerprint d => if str_eqb (tp_fingerprint p) fingerprint then set_audio d p else p
  | _ => p
  end.
Definition route (choice : AudioChoice) (out : tray_output) : AudioChoice :=
  match out with Send_command (SetAudio c) => c | _ => choice end.

Lemma act_fingerprint outs p : tp_fingerprint (fold_left act outs p) = tp_fingerprint p.
Proof.
  revert p. induction outs as [|out outs IH]; intros p; [done|]. cbn [fold_left]. rewrite IH.
  unfold act. by repeat case_match.
Qed.

Lemma update_phone_map f g phones : NoDup (map tp_fingerprint phones) ->
  update_phone f g phones = map (fun p => if str_eqb (tp_fingerprint p) f then g p else p) phones.
Proof.
  induction phones as [|p phones IH]; [done|]. cbn [map update_phone].
  intros [Hp Hn]%NoDup_cons. destruct (str_eqb (tp_fingerprint p) f) eqn:E.
  - f_equal. symmetry. rewrite <- (map_id phones) at 2. apply map_ext_in. intros q Hq.
    apply bool_decide_eq_true in E. unfold str_eqb. rewrite bool_decide_eq_false_2; [done|].
    intros Ef. apply Hp. rewrite E, <- Ef. apply list_elem_of_In. by apply in_map.
  - by rewrite IH.
Qed.

Lemma honour_all_map outs : forall t, NoDup (map tp_fingerprint (tray_phones t)) ->
  tray_phones (honour_all outs t) = map (fun p => fold_left act outs p) (tray_phones t)
  /\ audio_choice (honour_all outs t) = fold_left route outs (audio_choice t).
Proof.
  induction outs as [|out outs IH]; intros t Hn; [split; [by rewrite map_id|done]|].
  unfold honour_all. cbn [fold_left]. fold (honour_all outs (honour t out)).
  assert (tray_phones (honour t out) = map (fun p => act p out) (tray_phones t)
          /\ audio_choice (honour t out) = route (audio_choice t) out) as [Hp Hc].
  { destruct out as [[]|f d]; cbn; rewrite ?map_id; try done.
    unfold phone_audio. by rewrite update_phone_map. }
  destruct (IH (honour t out)) as [-> ->].
  - rewrite Hp, map_map. erewrite map_ext; [exact Hn|]. intros p. exact (act_fingerprint [out] p).
  - rewrite Hp, Hc, map_map. done.
Qed.

(** Stops silence the phones they name and change nothing else. *)
Lemma act_stops outs : (forall out, In out outs -> exists f, out = Send_audio f None) -> forall p,
  tp_audio (fold_left act outs p)
  = if existsb (fun out => match out with
                           | Send_audio f _ => str_eqb (tp_fingerprint p) f
                           | _ => false
                           end) outs then None else tp_audio p.
Proof.
  induction outs as [|out outs IH]; intros Ho p; [done|]. cbn [fold_left existsb].
  destruct (Ho out (or_introl eq_refl)) as [f ->]. rewrite IH by (intros; apply Ho; by right).
  unfold act. destruct (str_eqb (tp_fingerprint p) f) eqn:E; cbn [orb]; [|done].
  cbn. by destruct (existsb _ outs).
Qed.

Lemma same_fingerprint phones p q : NoDup (map tp_fingerprint phones) -> In p phones -> In q phones ->
  tp_fingerprint p = tp_fingerprint q -> p = q.
Proof.
  induction phones as [|x phones IH]; intros Hn Hp Hq E; [done|].
  apply NoDup_cons in Hn as [Hx Hn].
  assert (forall y, In y phones -> tp_fingerprint x <> tp_fingerprint y) as Hy.
  { intros y Hi Ey. apply Hx, list_elem_of_In, in_map_iff. by exists y. }
  destruct Hp as [->|Hp], Hq as [->|Hq]; [done| | |by apply IH].
  - by destruct (Hy q Hq).
  - by destruct (Hy p Hp).
Qed.

Definition stops (t : ReceiverTray) (target : AudioTarget) : list tray_output :=
  flat_map (fun phone =>
    if bool_decide (is_Some (tp_audio phone)) && negb (is_target_phone target (tp_fingerprint phone))
    then phone_audio_request t (tp_fingerprint phone) None else []) (tray_phones t).

Lemma stops_audio t target p : phone_requests t = true -> In p (tray_phones t) ->
  tp_audio (fold_left act (stops t target) p)
  = if is_target_phone target (tp_fingerprint p) then tp_audio p else None.
Proof.
  intros Hr Hp. unfold stops, phone_audio_request. rewrite Hr. rewrite act_stops.
  2:{ intros out. rewrite in_flat_map. intros (q & _ & Hq). destruct (_ && _); [|done].
      destruct Hq as [<-|[]]. by eexists. }
  destruct (is_target_phone target (tp_fingerprint p)) eqn:Et.
  - destruct (existsb _ _) eqn:E; [|done]. apply existsb_exists in E as (out & Ho & E).
    apply in_flat_map in Ho as (q & _ & Hq). destruct (_ && _) eqn:Eq; [|done].
    destruct Hq as [<-|[]]. apply bool_decide_eq_true in E. rewrite <- E, Et in Eq.
    by rewrite andb_false_r in Eq.
  - destruct (tp_audio p) as [d|] eqn:Ea; [|by destruct (existsb _ _)].
    assert (existsb (fun out => match out with
              | Send_audio f _ => str_eqb (tp_fingerprint p) f | _ => false end)
      (flat_map (fun phone => if bool_decide (is_Some (tp_audio phone))
        && negb (is_target_phone target (tp_fingerprint phone))
        then [Send_audio (tp_fingerprint phone) None] else []) (tray_phones t)) = true) as ->; [|done].
    apply existsb_exists. exists (Send_audio (tp_fingerprint p) None). split.
    + apply in_flat_map. exists p. split; [done|].
      rewrite Et, Ea, bool_decide_eq_true_2 by (by eexists). by left.
    + by apply bool_decide_eq_true.
Qed.

Lemma stops_route t target choice : fold_left route (stops t target) choice = choice.
Proof.
  unfold stops, phone_audio_request. induction (tray_phones t) as [|p phones IH]; [done|].
  cbn [flat_map]. rewrite fold_left_app. destruct (_ && _), (phone_requests t); exact IH.
Qed.

Lemma playing_none phones : (forall p, In p phones -> tp_audio p = None) -> playing_phone phones = None.
Proof.
  unfold playing_phone. induction phones as [|p phones IH]; intros Hp; [done|]. cbn.
  rewrite (Hp p (or_introl eq_refl)). apply IH. intros; apply Hp; by right.
Qed.

Lemma playing_only phones f d : (exists p, In p phones /\ tp_fingerprint p = f) ->
  (forall p, In p phones -> tp_audio p = if str_eqb (tp_fingerprint p) f then Some d else None) ->
  playing_phone phones = Some (f, d).
Proof.
  unfold playing_phone. induction phones as [|p phones IH]; intros (q & Hq & Ef) Hp; [done|]. cbn.
  rewrite (Hp p (or_introl eq_refl)). destruct (str_eqb (tp_fingerprint p) f) eqn:E.
  - apply bool_decide_eq_true in E. by rewrite E.
  - apply IH; [|intros; apply Hp; by right]. exists q. split; [|done].
    destruct Hq as [->|Hq]; [|done]. rewrite Ef in E. unfold str_eqb in E.
    by rewrite bool_decide_eq_true_2 in E.
Qed.

(** The phones and the route once every output of the choice is honoured. *)
Lemma chosen t target : phone_requests t = true -> NoDup (map tp_fingerprint (tray_phones t)) ->
  let t' := honour_all (choose_audio t target) t in
  map tp_fingerprint (tray_phones t') = map tp_fingerprint (tray_phones t)
  /\ (forall q, In q (tray_phones t') -> exists p, In p (tray_phones t)
      /\ tp_fingerprint q = tp_fingerprint p
      /\ tp_audio q = match target with
                      | Target_ToPhone f => if str_eqb (tp_fingerprint p) f then Some ToPhone else None
                      | _ => if is_target_phone target (tp_fingerprint p) then tp_audio p else None
                      end)
  /\ audio_choice t' = match target with
                       | Pc choice => choice
                       | Target_FromPhone _ => audio_choice t
                       | _ => Audio_Off
                       end.
Proof.
  intros Hr Hn t'. destruct (honour_all_map (choose_audio t target) t Hn) as [Hp Hc].
  subst t'. rewrite Hp, Hc. unfold choose_audio. fold (stops t target).
  split_and!.
  - rewrite map_map. apply map_ext. intros. apply act_fingerprint.
  - intros q Hq. apply in_map_iff in Hq as (p & <- & Hi). exists p.
    split; [done|]. split; [apply act_fingerprint|]. rewrite fold_left_app.
    pose proof (stops_audio t target p Hr Hi) as Hs.
    pose proof (act_fingerprint (stops t target) p) as Hf.
    destruct target as [choice|f|f|]; try exact Hs.
    unfold phone_audio_request. rewrite Hr, fold_left_app. cbn [fold_left act].
    assert (fold_left act (if decide (audio_choice t = Audio_Off) then []
      else [Send_command (SetAudio Audio_Off)]) (fold_left act (stops t (Target_ToPhone f)) p)
      = fold_left act (stops t (Target_ToPhone f)) p) as -> by (by destruct (decide _)).
    rewrite Hf. unfold is_target_phone in Hs. unfold str_eqb in *.
    rewrite (bool_decide_ext (f = tp_fingerprint p) (tp_fingerprint p = f)) in Hs by done.
    by destruct (bool_decide _).
  - rewrite fold_left_app, stops_route. destruct target as [choice|f|f|]; try done.
    unfold phone_audio_request. rewrite Hr. destruct (decide _) as [E|E]; [exact E|done].
Qed.

(** Choosing where audio goes leaves one destination: when what the choice sends is done, the
    tray's current target is the chosen one, every other phone is silent, and the computers'
    route is off unless it was chosen or the phone that plays here is kept. *)
Theorem choosing_audio_leaves_one_destination t target :
  phone_requests t = true -> NoDup (map tp_fingerprint (tray_phones t)) ->
  target ∈ audio_targets t ->
  (forall f, target = Target_FromPhone f ->
     exists p, In p (tray_phones t) /\ tp_fingerprint p = f /\ tp_audio p = Some FromPhone) ->
  let t' := honour_all (choose_audio t target) t in
  current_audio_target t' = target
  /\ (forall p, In p (tray_phones t') -> is_Some (tp_audio p) ->
        is_target_phone target (tp_fingerprint p) = true)
  /\ (audio_choice t' <> Audio_Off -> target = Pc (audio_choice t') \/ exists f, target = Target_FromPhone f).
Proof.
  intros Hr Hn Ht Hplaying t'. destruct (chosen t target Hr Hn) as (Hf & Hp & Hc). fold t' in Hf, Hp, Hc.
  assert (forall f, f ∈ map tp_fingerprint (tray_phones t) ->
            exists q, In q (tray_phones t') /\ tp_fingerprint q = f) as Hex.
  { intros f Hin. rewrite <- Hf in Hin. apply list_elem_of_In, in_map_iff in Hin as (q & ? & ?). by exists q. }
  unfold current_audio_target, audio_targets in *.
  rewrite !elem_of_app, list_elem_of_In, list_elem_of_In, in_flat_map in Ht. split_and!.
  - destruct target as [choice|f|f|].
    + rewrite playing_none, Hc by (intros q (p & _ & _ & ->)%Hp; done).
      destruct choice; [|done|done]. destruct Ht as [[|[|[]]]|[(? & ? & [|[|[]]])|Ht]]; try done.
      by apply list_elem_of_singleton in Ht.
    + rewrite (playing_only _ f ToPhone); [done| |].
      * apply Hex, list_elem_of_In, in_map_iff. destruct Ht as [[|[|[]]]|[(p & ? & [E|[|[]]])|Ht]]; try done.
        -- injection E as <-. by exists p.
        -- by apply list_elem_of_singleton in Ht.
      * intros q (p & _ & -> & ->)%Hp. done.
    + destruct (Hplaying f eq_refl) as (p0 & Hp0 & E0 & A0).
      rewrite (playing_only _ f FromPhone); [done| |].
      * apply Hex, list_elem_of_In, in_map_iff. by exists p0.
      * intros q (p & Hi & -> & ->)%Hp. unfold is_target_phone, str_eqb.
        rewrite (bool_decide_ext (f = tp_fingerprint p) (tp_fingerprint p = f)) by done.
        destruct (bool_decide _) eqn:E; [|done]. apply bool_decide_eq_true in E.
        assert (p = p0) as ->; [|done].
        by apply (same_fingerprint (tray_phones t)); [..|congruence].
    + by rewrite playing_none, Hc by (intros q (p & _ & _ & ->)%Hp; done).
  - intros q Hq. destruct (Hp q Hq) as (p & _ & -> & ->). destruct target as [choice|f|f|]; cbn.
    + by intros [? ?].
    + unfold str_eqb. rewrite (bool_decide_ext (f = tp_fingerprint p) (tp_fingerprint p = f)) by done.
      destruct (bool_decide _); [done|by intros [? ?]].
    + destruct (str_eqb f (tp_fingerprint p)); [done|by intros [? ?]].
    + by intros [? ?].
  - rewrite Hc. destruct target as [choice|f|f|]; intros Hx; try done; [by left|right; by exists f].
Qed.

Definition sample_phone (fingerprint : string) (audio : option AudioDirection) : TrayPhone :=
  {| tp_fingerprint := fingerprint; tp_name := "Pixel"; tp_round_trip := None; tp_audio := audio;
     tp_accepts_audio_invite := true |}.
Definition sample_tray : ReceiverTray :=
  set_rest false true Audio_Local true true
    [sample_phone "a" None; sample_phone "b" (Some FromPhone)] true
    (ReceiverTray_new "Listen" "hyprland" false).
Lemma choosing_audio_leaves_one_destination_witness :
  choose_audio sample_tray (Target_ToPhone "a")
  = [Send_audio "b" None; Send_command (SetAudio Audio_Off); Send_audio "a" (Some ToPhone)]
  /\ current_audio_target (honour_all (choose_audio sample_tray (Target_ToPhone "a")) sample_tray)
     = Target_ToPhone "a".
Proof.
  split; [reflexivity|].
  refine (proj1 (choosing_audio_leaves_one_destination sample_tray (Target_ToPhone "a") eq_refl _ _ _));
    [|by do 2 right; left|done].
  by repeat (constructor; [set_solver|]); constructor.
Defined.
End AudioChoice.

(** *** The menu *)

Section Menu.
Inductive row := Row_standard | Row_checkmark | Row_radio | Row_separator.
(** What the desktop lays out: the kind of a row. *)
Definition row_of (item : MenuItem) : row :=
  match item with
  | Standard _ _ _ _ => Row_standard
  | Checkmark _ _ _ _ => Row_checkmark
  | RadioGroup _ _ => Row_radio
  | Separator => Row_separator
  end.
Definition layout (phone_rows : nat) : list row :=
  [Row_standard] ++ repeat Row_standard phone_rows
  ++ [Row_separator; Row_checkmark; Row_standard; Row_separator; Row_standard; Row_radio; Row_separator;
      Row_standard; Row_standard; Row_standard; Row_standard; Row_standard].

Lemma tray_phone_found t p : In p (tray_phones t) -> is_Some (tray_phone t (tp_fingerprint p)).
Proof.
  intros Hp. unfold tray_phone. destruct (List.find _ _) as [q|] eqn:E; [by eexists|].
  exfalso. pose proof (List.find_none _ _ E _ Hp) as Hn. cbn in Hn. unfold str_eqb in Hn.
  by rewrite bool_decide_eq_true_2 in Hn.
Qed.

Lemma audio_item_found t target : target ∈ audio_targets t -> is_Some (audio_item t target).
Proof.
  unfold audio_targets. rewrite !elem_of_app, list_elem_of_In, list_elem_of_In, in_flat_map.
  intros [[<-|[<-|[]]]|[(p & Hp & Hin)|Ht]]; [by eexists|by eexists| |].
  - destruct (tray_phone_found t p Hp) as [q Hq].
    destruct Hin as [<-|[<-|[]]]; cbn; rewrite Hq; by eexists.
  - apply list_elem_of_singleton in Ht as ->. by eexists.
Qed.

Lemma current_target_is_offered t : current_audio_target t ∈ audio_targets t.
Proof.
  unfold current_audio_target, audio_targets. rewrite !elem_of_app, list_elem_of_In, list_elem_of_In, in_flat_map.
  destruct (playing_phone (tray_phones t)) as [[f d]|] eqn:E.
  - right. left. unfold playing_phone in E. apply head_Some_elem_of, list_elem_of_omap in E as (p & Hp & E).
    exists p. split; [by apply list_elem_of_In|]. destruct (tp_audio p); [|done].
    injection E as <- <-. destruct a; [by left|by right; left].
  - destruct (audio_choice t); [|by left; left|by left; right; left].
    right. right. by left.
Qed.

Lemma position_found target targets : target ∈ targets ->
  exists i, position target targets = Some i /\ targets !! i = Some target.
Proof.
  induction targets as [|x targets IH]; intros Hin; [by apply not_elem_of_nil in Hin|].
  cbn [position]. destruct (decide (x = target)) as [->|Hne]; [by exists O|].
  apply elem_of_cons in Hin as [->|Hin]; [done|]. destruct (IH Hin) as (i & -> & Hi). by exists (S i).
Qed.

(** The menu is always drawn (no row refers to a phone that left), and its layout depends
    only on the number of phones; the selected row of the audio group is the current
    target, which is also what selecting that row chooses. *)
Theorem menu_follows_the_tray t :
  exists items, menu t = Some items
  /\ map row_of items = layout (length (tray_phones t))
  /\ exists selected options, audio_items t = Some (RadioGroup selected options)
     /\ length options = length (audio_targets t)
     /\ audio_targets t !! selected = Some (current_audio_target t)
     /\ select_audio t selected = choose_audio t (current_audio_target t).
Proof.
  destruct (proj2 (mapM_is_Some (audio_item t) (audio_targets t))) as [options Ho].
  { apply Forall_forall. intros target Ht. by apply audio_item_found. }
  destruct (position_found _ _ (current_target_is_offered t)) as (i & Hi & Hat).
  assert (audio_items t = Some (RadioGroup i options)) as Ha
    by (unfold audio_items; rewrite Ho, Hi; done).
  unfold menu. rewrite Ha. eexists. split; [reflexivity|]. split.
  - cbn [option_bind]. rewrite !map_app. unfold layout. f_equal. f_equal.
    + rewrite map_map. cbn [row_of]. induction (tray_phones t); [done|]. cbn. by f_equal.
    + cbn. unfold control_item, connection_item. by destruct (local_is_controller t), (state t).
  - exists i, options. split_and!; [done| |done|].
    + symmetry. by apply length_mapM in Ho.
    + unfold select_audio. by rewrite Hat.
Qed.
End Menu.

(** *** The list of phones *)

Section Phones.
Definition name_le (p q : TrayPhone) : Prop := String.leb (tp_name p) (tp_name q) = true.
Record phones_ok (phones : list TrayPhone) : Prop := {
  ok_keys : NoDup (map tp_fingerprint phones);
  ok_sorted : StronglySorted name_le phones;
}.

Lemma name_le_trans p q r : name_le p q -> name_le q r -> name_le p r.
Proof.
  unfold name_le. intros H1 H2. apply Is_true_true.
  apply (transitivity (R := String.le) (y := tp_name q)); by apply Is_true_true.
Qed.

Lemma insert_phone_perm p phones : insert_phone p phones ≡ₚ p :: phones.
Proof.
  induction phones as [|q phones IH]; [done|]. cbn [insert_phone]. destruct (String.leb _ _); [done|].
  rewrite IH. apply Permutation_swap.
Qed.

Lemma sort_phones_perm phones : sort_phones phones ≡ₚ phones.
Proof.
  induction phones as [|p phones IH]; [done|]. cbn [sort_phones foldr]. fold (sort_phones phones).
  by rewrite insert_phone_perm, IH.
Qed.

Lemma insert_phone_sorted p phones :
  StronglySorted name_le phones -> StronglySorted name_le (insert_phone p phones).
Proof.
  induction 1 as [|q phones Hs IH Hq]; [by repeat constructor|]. cbn [insert_phone].
  destruct (String.leb (tp_name p) (tp_name q)) eqn:E.
  - constructor; [by constructor|]. constructor; [done|].
    eapply Forall_impl; [exact Hq|]. intros r Hr. by apply (name_le_trans p q r).
  - constructor; [done|]. rewrite insert_phone_perm. constructor; [|done].
    destruct (String.leb_total (tp_name p) (tp_name q)) as [Ht|Ht]; [by rewrite Ht in E|done].
Qed.

Lemma sort_phones_sorted phones : StronglySorted name_le (sort_phones phones).
Proof. induction phones; [constructor|]. by apply insert_phone_sorted. Qed.

Lemma filter_ok f phones : phones_ok phones -> phones_ok (List.filter f phones).
Proof.
  intros [Hk Hs]. split.
  - clear Hs. induction phones as [|p phones IH]; [constructor|]. cbn [map] in Hk.
    apply NoDup_cons in Hk as [Hp Hk]. cbn [List.filter]. destruct (f p); [|by apply IH].
    cbn [map]. constructor; [|by apply IH]. rewrite list_elem_of_In, in_map_iff in Hp |- *.
    intros (q & E & Hq). apply filter_In in Hq as [Hq _]. apply Hp. by exists q.
  - clear Hk. induction Hs as [|p phones Hs IH Hp]; [constructor|]. cbn [List.filter].
    destruct (f p); [|done]. constructor; [done|]. apply List.Forall_forall. intros q [Hq _]%filter_In.
    by apply (proj1 (List.Forall_forall _ _) Hp).
Qed.

Lemma update_ok f g phones :
  (forall p, tp_fingerprint (g p) = tp_fingerprint p /\ tp_name (g p) = tp_name p) ->
  phones_ok phones -> phones_ok (update_phone f g phones).
Proof.
  intros Hg [Hk Hs].
  assert (forall (A : Type) (h : TrayPhone -> A), (forall p, h (g p) = h p) ->
            map h (update_phone f g phones) = map h phones) as Hm.
  { intros A h Hh. clear Hk Hs. induction phones as [|p phones IH]; [done|]. cbn [update_phone].
    destruct (str_eqb _ _); cbn [map]; by rewrite ?Hh, ?IH. }
  split; [rewrite Hm; [done|apply Hg]|].
  assert (forall l, StronglySorted name_le l
            <-> StronglySorted (fun a b => String.leb a b = true) (map tp_name l)) as Hn.
  { induction l as [|p l IH]; [split; constructor|]. cbn [map]. split.
    - intros [Hl Hp]%StronglySorted_inv. constructor; [by apply IH|]. by apply List.Forall_map.
    - intros [Hl Hp]%StronglySorted_inv. constructor; [by apply IH|]. by apply List.Forall_map in Hp. }
  apply Hn. rewrite Hm; [by apply Hn|apply Hg].
Qed.

Lemma connected_ok f name invites phones : phones_ok phones ->
  phones_ok (phone_connected f name invites phones).
Proof.
  intros Hp. split; [|apply sort_phones_sorted]. unfold phone_connected.
  rewrite sort_phones_perm, map_app. apply NoDup_app.
  split; [apply (filter_ok _ _ Hp)|]. split; [|by apply NoDup_singleton].
  intros x Hx ->%list_elem_of_singleton. cbn in Hx. apply list_elem_of_In, in_map_iff in Hx as (q & E & Hq).
  apply filter_In in Hq as [_ Hq]. unfold str_eqb in Hq. by rewrite E, bool_decide_eq_true_2 in Hq.
Qed.

Lemma call_phones_ok call l t : phones_ok (tray_phones t) -> phones_ok (tray_phones (call_update call l t)).
Proof.
  intros Ht. destruct call; try exact Ht; cbn.
  - by apply connected_ok.
  - by apply update_ok.
  - by apply update_ok.
  - by apply filter_ok.
Qed.

Lemma step_phones_ok h op :
  phones_ok (tray_phones (tray h)) -> phones_ok (tray_phones (tray (tray_step h op))).
Proof.
  intros Hh. destruct op as [o call| | |d now| |o]; cbn; try exact Hh.
  - unfold handle_call, tray_apply. destruct o; cbn; try (by destruct (forgets_round_trip call));
      apply call_phones_ok; by destruct (forgets_round_trip call).
  - unfold tick_begin. by repeat case_match.
  - unfold tick_end. destruct (in_flight h) as [[[??]?]|]; [|done]. by destruct o.
Qed.

(** A phone has one row: after any calls, events and ticks, in any order and with any updates
    given up, no two phones of the tray have the same key, and they are listed by name. *)
Theorem each_phone_has_one_row transport backend armed ops :
  let phones := tray_phones (tray (tray_run ops (spawn transport backend armed))) in
  NoDup (map tp_fingerprint phones) /\ StronglySorted name_le phones.
Proof.
  cbv zeta.
  assert (phones_ok (tray_phones (tray (tray_run ops (spawn transport backend armed))))) as [? ?];
    [|done].
  assert (phones_ok (tray_phones (tray (spawn transport backend armed)))) as Hs
    by (split; constructor).
  revert Hs. generalize (spawn transport backend armed) as h.
  induction ops as [|op ops IH]; intros h Hh; [done|]. by apply (IH (tray_step h op)), step_phones_ok.
Qed.
End Phones.
