(* ===== verification/Control.v ===== *)
(** * The control socket: [control.rs] and [control_link.rs]

    One command line and a reply of lines [<keyword> <value>], between the receiver and its
    command line ([run_client]) or the settings and pairing windows ([ControlLink]).  The socket
    itself is left out: [ask] answers the requests to the receiver loop, with [None] when it is
    gone, and [paired] is what the watcher of a pairing hears before it expires. *)
From S2P Require Export Tray.
From S2P Require Import PhoneSessions.
#[local] Open Scope string_scope.
#[local] Arguments String.append : simpl never.

Definition nl : string := String newline EmptyString.
Definition space : Ascii.ascii := ascii_of_byte 32.

(** ** The receiver's side *)

(** The commands of [handle_client]. *)
Inductive ControlCommand :=
| Pair_phone
| Unpair_phone (name : string)
| List_phones
| Notification_setup
| Status
| Arm_pairing
| Unknown_command.

(** [rx/control 148-149 handle_client] (and the patterns of its arms) *)
Definition client_command (line : string) : ControlCommand :=
  match split_whitespace line with
  | word :: words =>
      let name := str_join " " words in
      if str_eqb word "pair-phone" then Pair_phone
      else if str_eqb word "unpair-phone" && negb (str_is_empty name) then Unpair_phone name
      else if str_eqb word "list-phones" then List_phones
      else if str_eqb word "notification-setup" then Notification_setup
      else if str_eqb word "status" then Status
      else if str_eqb word "arm-pairing" then Arm_pairing
      else Unknown_command
  | [] => Unknown_command
  end.

(** [rx/control 217-229 status_reply] *)
Definition status_reply (status : TrayStatus) : string :=
  let reply := "summary " ++ summary_text status ++ nl in
  let reply := match status_peer status with Some peer => reply ++ "peer " ++ peer ++ nl | None => reply end in
  let reply := match round_trip_ms status with
               | Some ping => reply ++ "ping " ++ print_dec ping ++ nl
               | None => reply
               end in
  let reply := fold_left (fun reply kv =>
    reply ++ "diag " ++ kv.1 ++ "=" ++ replace_char newline " " kv.2 ++ nl) (diagnostics status) reply in
  reply ++ "end" ++ nl.

(** [rx/control 182-191 handle_client] (the reply of [list-phones]) *)
Definition list_reply (phones : list (string * bool)) : string :=
  fold_left (fun response phone =>
    let state := if phone.2 : bool then "connected" else "disconnected" in
    response ++ "phone " ++ phone.1 ++ " " ++ state ++ nl) phones "" ++ "end" ++ nl.

(** What the client task uses besides the requests: the tray's status, whether commands reach
    it, and the notification settings, if there are any. *)
Record ControlEnv := {
  ask : PhoneRequest -> option Reply;
  paired : option string;
  tray_shown : option TrayStatus;
  setup : option (result string string);
}.
(** What a client task leaves behind: the text written, even when it fails later, and the
    commands it gave to the tray. *)
Record ClientRun := { written : string; commanded : list TrayCommand; ended : result unit unit }.
Definition replied (response : string) : ClientRun :=
  {| written := response; commanded := []; ended := Ok tt |}.
Definition gave_up : ClientRun := {| written := ""; commanded := []; ended := Err tt |}.

(** [Duration::as_secs] *)
Definition as_secs (d : Duration) : Z := d / 1000000000.

(** [rx/control 139-215 handle_client] *)
Definition handle_client (env : ControlEnv) (watcher : nat) (line : string) : ClientRun :=
  match client_command line with
  | Pair_phone =>
      match ask env (Request_OpenPairing watcher) with
      | Some (Reply_Offer uri expires_in) =>
          replied ("uri " ++ uri ++ nl ++ "expires " ++ print_dec (as_secs expires_in) ++ nl
                   ++ match paired env with
                      | Some name => "paired " ++ name ++ nl
                      | None => "closed" ++ nl
                      end)
      | _ => gave_up
      end
  | Unpair_phone name =>
      match ask env (Request_Unpair name) with
      | Some (Reply_Unpair (Ok true)) => replied ("unpaired " ++ name ++ nl)
      | Some (Reply_Unpair (Ok false)) => replied ("not-paired" ++ nl)
      | Some (Reply_Unpair (Err error)) => replied ("error " ++ error ++ nl)
      | _ => gave_up
      end
  | List_phones =>
      match ask env Request_List with
      | Some (Reply_List phones) => replied (list_reply phones)
      | _ => gave_up
      end
  | Notification_setup =>
      match setup env with
      | Some (Ok json) => replied ("notifications " ++ json ++ nl)
      | Some (Err error) => replied ("error " ++ error ++ nl)
      | None => replied ("error notification settings unavailable" ++ nl)
      end
  | Status =>
      match tray_shown env with
      | Some status => replied (status_reply status)
      | None => replied ("summary Running" ++ nl ++ "end" ++ nl)
      end
  | Arm_pairing =>
      match tray_shown env with
      | Some _ => {| written := "ok" ++ nl; commanded := [ArmPairing]; ended := Ok tt |}
      | None => replied ("error pairing needs the tray; restart without --no-tray" ++ nl)
      end
  | Unknown_command => replied ("error unknown command" ++ nl)
  end.

(** ** The windows' side *)

(** [edge-ui 91-98 NodeStatus] *)
Record NodeStatus := {
  ns_summary : string;
  ns_connected : bool;
  ns_peer : option string;
  ns_round_trip_ms : option Z;
  ns_diagnostics : list (string * string);
}.
(** [edge-ui 106-117 PhonePairingEvent] *)
Inductive PhonePairingEvent :=
| Offer (uri : string) (expires_in : Duration)
| Paired (name : string)
| Pairing_Closed
| Pairing_Failed (message : string).

(** [rx/control_link 51-53 split] *)
Definition split (line : string) : string * string :=
  match split_once " " line with Some p => p | None => (line, "") end.

(** [edge-ui 91-98 NodeStatus] *)
Definition default_status : NodeStatus :=
  {| ns_summary := ""; ns_connected := false; ns_peer := None; ns_round_trip_ms := None;
     ns_diagnostics := [] |}.

(** [rx/control_link 57-74 parse_status] *)
Definition parse_status_line (status : NodeStatus) (line : string) : NodeStatus :=
  let (keyword, value) := split line in
  if str_eqb keyword "summary"
  then {| ns_summary := value; ns_connected := ns_connected status; ns_peer := ns_peer status;
          ns_round_trip_ms := ns_round_trip_ms status; ns_diagnostics := ns_diagnostics status |}
  else if str_eqb keyword "peer"
  then {| ns_summary := ns_summary status; ns_connected := true; ns_peer := Some value;
          ns_round_trip_ms := ns_round_trip_ms status; ns_diagnostics := ns_diagnostics status |}
  else if str_eqb keyword "ping"
  then {| ns_summary := ns_summary status; ns_connected := ns_connected status;
          ns_peer := ns_peer status; ns_round_trip_ms := parse_dec u64_max value;
          ns_diagnostics := ns_diagnostics status |}
  else if str_eqb keyword "diag"
  then match split_once "=" value with
       | Some entry => {| ns_summary := ns_summary status; ns_connected := ns_connected status;
                          ns_peer := ns_peer status; ns_round_trip_ms := ns_round_trip_ms status;
                          ns_diagnostics := ns_diagnostics status ++ [entry] |}
       | None => status
       end
  else status.
(** [rx/control_link 55-76 parse_status] *)
Definition parse_status (lines : list string) : NodeStatus :=
  fold_left parse_status_line lines default_status.

(** [rx/control_link 81-90 parse_phones] *)
Definition parse_phone (line : string) : option (string * bool) :=
  let (keyword, entry) := split line in
  if str_eqb keyword "phone"
  then match rsplit_once space entry with
       | Some (name, state) => Some (name, str_eqb state "connected")
       | None => None
       end
  else None.
(** [rx/control_link 78-92 parse_phones] *)
Definition parse_phones (lines : list string) : list (string * bool) := omap parse_phone lines.

(** [rx/control_link 94-105 pairing_event] *)
Definition pairing_event (line : string) : option PhonePairingEvent :=
  let (keyword, value) := split line in
  if str_eqb keyword "uri" then Some (Offer value (from_secs 300))
  else if str_eqb keyword "paired" then Some (Paired value)
  else if str_eqb keyword "closed" then Some Pairing_Closed
  else if str_eqb keyword "error" then Some (Pairing_Failed value)
  else None.

(** [rx/control_link 153-190 ControlLink::pair_phone] (the thread: the lines of the reply, with
    [Err] where reading fails, to the events it sends) *)
Fixpoint pairing_events (expires_in : option Duration) (lines : list (result string string)) :
  list PhonePairingEvent :=
  match lines with
  | [] => []
  | Err error :: _ => [Pairing_Failed error]
  | Ok line :: rest =>
      let (keyword, seconds) := split line in
      if str_eqb keyword "expires"
      then pairing_events (from_secs <$> parse_dec u64_max seconds) rest
      else match pairing_event line with
           | None => pairing_events expires_in rest
           | Some (Offer uri offered) =>
               Offer uri (unwrap_or offered expires_in) :: pairing_events expires_in rest
           | Some event => event :: pairing_events expires_in rest
           end
  end.

Definition unexpected_reply : string := "unexpected reply from edge-kvm".
(** [rx/control_link 135-142 ControlLink::unpair_phone] (what it makes of the reply) *)
Definition unpair_reply (reply : list string) : result unit string :=
  match head reply with
  | Some line =>
      let (keyword, value) := split line in
      if str_eqb keyword "unpaired" || str_eqb keyword "not-paired" then Ok tt
      else if str_eqb keyword "error" then Err value else Err unexpected_reply
  | None => Err unexpected_reply
  end.
(** [rx/control_link 144-151 ControlLink::arm_pairing] (what it makes of the reply) *)
Definition arm_reply (reply : list string) : result unit string :=
  match head reply with
  | Some line =>
      let (keyword, value) := split line in
      if str_eqb keyword "ok" then Ok tt
      else if str_eqb keyword "error" then Err value else Err unexpected_reply
  | None => Err unexpected_reply
  end.

(** [rx/control_link 32-38 ControlLink::connect] (the line it sends) *)
Definition request_line (command : string) : string := command ++ nl.
(** [rx/control_link 135-142 ControlLink::unpair_phone] (the command it sends) *)
Definition unpair_command (name : string) : string := "unpair-phone " ++ name.

(** ** The command line *)

(** What [run_client] prints: a QR code (which [qr_fits] or not) or a line. *)
Inductive printed := Print_qr (data : string) | Print_line (text : string).

Section CommandLine.
Variable qr_fits : string -> bool.

Definition closed_message : string := "pairing closed before a phone paired (expired or replaced)".
(** [rx/control 231-277 run_client] (the loop over the lines of the reply: what is printed, and the
    error it ends with) *)
Fixpoint run_client (paired_any : bool) (lines : list string) : list printed * result unit string :=
  match lines with
  | [] => ([], Ok tt)
  | line :: rest =>
      let (keyword, value) := split line in
      let print out := let r := run_client paired_any rest in (app out r.1, r.2) in
      if str_eqb keyword "uri"
      then if qr_fits value
           then print [Print_qr value;
                       Print_line "Scan this with HyprMobile, or paste the link into the app:";
                       Print_line (value ++ nl)]
           else ([], Err "pairing link is too long for a QR code")
      else if str_eqb keyword "expires"
      then let seconds := unwrap_or 300%Z (parse_dec u64_max value) in
           print [Print_line ("Waiting up to " ++ print_dec (seconds / 60)
                              ++ " minutes for the phone…")]
      else if str_eqb keyword "paired" then print [Print_line ("Paired " ++ value ++ ".")]
      else if str_eqb keyword "closed" then ([], Err closed_message)
      else if str_eqb keyword "unpaired"
      then print [Print_line ("Unpaired " ++ value ++ " and disconnected it.")]
      else if str_eqb keyword "not-paired" then ([], Err "no phone with that name is paired")
      else if str_eqb keyword "phone"
      then let r := run_client true rest in (Print_line value :: r.1, r.2)
      else if str_eqb keyword "end"
      then if paired_any then print [] else print [Print_line "No phones are paired."]
      else if str_eqb keyword "error" then ([], Err value)
      else ([], Err ("unexpected reply from the receiver: " ++ keyword))
  end.
End CommandLine.

(** ** Lines and words *)

Section Lines.
(** A text that a line of the protocol carries unchanged. *)
Definition line_ok (s : string) : Prop :=
  str_contains newline s = false /\ ends_with carriage_return s = false.
#[local] Instance line_ok_dec s : Decision (line_ok s).
Proof. unfold line_ok. apply _. Defined.
Definition unlines (lines : list string) : string := foldr (fun l r => l ++ nl ++ r) "" lines.

Lemma unlines_app a b : unlines (a ++ b)%list = unlines a ++ unlines b.
Proof. induction a as [|l a IH]; [done|]. cbn [app unlines foldr]. fold (unlines (a ++ b)%list).
  rewrite IH. unfold nl. by rewrite !str_app_assoc. Qed.

Lemma split_line s rest : str_contains newline s = false ->
  str_split newline (s ++ String newline rest) = s :: str_split newline rest.
Proof.
  induction s as [|a s IH]; cbn [str_contains].
  - intros _. change ("" ++ String newline rest) with (String newline rest). cbn [str_split].
    by rewrite Ascii.eqb_refl.
  - intros [Ha Hs]%orb_false_iff. rewrite str_app_cons. cbn [str_split]. by rewrite Ha, (IH Hs).
Qed.

Lemma strip_cr_ok s : ends_with carriage_return s = false -> strip_cr s = s.
Proof.
  induction s as [|a s IH]; [done|]. destruct s as [|b s].
  - cbn. by intros ->.
  - intros Hs. change (strip_cr (String a (String b s))) with (String a (strip_cr (String b s))).
    f_equal. by apply IH.
Qed.

Lemma str_split_cons s : exists p ps, str_split newline s = p :: ps.
Proof. destruct s as [|a s]; [by eexists _, _|]. cbn. repeat case_match; by eexists _, _. Qed.

(** Lines written one after another are read one after another. *)
Lemma str_lines_unlines lines : Forall line_ok lines -> str_lines (unlines lines) = lines.
Proof.
  unfold str_lines. induction 1 as [|l lines [Hn Hc] _ IH]; [done|].
  cbn [unlines foldr]. fold (unlines lines). unfold nl. rewrite str_app_cons.
  change ("" ++ unlines lines) with (unlines lines). rewrite (split_line _ _ Hn).
  destruct (str_split_cons (unlines lines)) as (p & ps & E). rewrite E in *.
  change (lines_of (l :: p :: ps)) with (strip_cr l :: lines_of (p :: ps)).
  by rewrite (strip_cr_ok l Hc), IH.
Qed.

Lemma ends_with_app c a x s : ends_with c (a ++ String x s) = ends_with c (String x s).
Proof.
  induction a as [|y a IH]; [done|]. rewrite str_app_cons. rewrite <- IH.
  by destruct a as [|z a]; rewrite ?str_app_cons.
Qed.

Lemma ends_with_contains c s : str_contains c s = false -> ends_with c s = false.
Proof.
  induction s as [|a s IH]; [done|]. cbn [str_contains]. intros [Ha Hs]%orb_false_iff.
  destruct s as [|b s]; [exact Ha|]. exact (IH Hs).
Qed.

(** A keyword and its value. *)
Lemma split_keyword keyword value : str_contains space keyword = false ->
  split (keyword ++ " " ++ value) = (keyword, value).
Proof.
  intros Hk. unfold split. change (" " ++ value) with (String space value).
  change " " with (String space ""). by rewrite (split_once_char space).
Qed.

Lemma keyword_line keyword value : line_ok keyword -> line_ok value ->
  line_ok (keyword ++ " " ++ value).
Proof.
  intros [Hk _] [Hv Hc]. change (" " ++ value) with (String space value). split.
  - rewrite str_contains_app, Hk. exact Hv.
  - rewrite ends_with_app. destruct value; [done|exact Hc].
Qed.

Lemma replaced_line v : ends_with carriage_return v = false -> line_ok (replace_char newline " " v).
Proof.
  intros Hv. split.
  - clear Hv. induction v as [|a v IH]; [done|]. cbn [replace_char].
    destruct (Ascii.eqb a newline) eqn:E; [exact IH|]. cbn [str_contains]. by rewrite E.
  - induction v as [|a v IH]; [done|]. cbn [replace_char].
    assert (forall w, ends_with carriage_return (replace_char newline " " v) = false ->
      ends_with carriage_return (String w (replace_char newline " " v))
      = str_is_empty (replace_char newline " " v) && Ascii.eqb w carriage_return) as Hw.
    { intros w E. destruct (replace_char newline " " v); [done|exact E]. }
    destruct v as [|b v].
    + cbn in Hv. cbn [replace_char]. by destruct (Ascii.eqb a newline).
    + specialize (IH Hv).
      assert (str_is_empty (replace_char newline " " (String b v)) = false) as He.
      { cbn [replace_char]. by destruct (Ascii.eqb b newline). }
      destruct (Ascii.eqb a newline); [change (" " ++ ?x) with (String space x)|];
        by rewrite Hw, He.
Qed.
End Lines.

(** ** What the windows learn *)

Section Windows.
Definition diag_line (kv : string * string) : string :=
  "diag " ++ kv.1 ++ "=" ++ replace_char newline " " kv.2.
Definition status_lines (status : TrayStatus) : list string :=
  app ["summary " ++ summary_text status]
  (app match status_peer status with Some peer => ["peer " ++ peer] | None => [] end
  (app match round_trip_ms status with Some ping => ["ping " ++ print_dec ping] | None => [] end
  (app (map diag_line (diagnostics status)) ["end"]))).
Definition phone_line_of (phone : string * bool) : string :=
  "phone " ++ phone.1 ++ " " ++ (if phone.2 : bool then "connected" else "disconnected").

Lemma status_reply_lines status : status_reply status = unlines (status_lines status).
Proof.
  assert (forall l acc, fold_left (fun reply kv =>
      reply ++ "diag " ++ kv.1 ++ "=" ++ replace_char newline " " kv.2 ++ nl) l acc
    = acc ++ unlines (map diag_line l)) as Hd.
  { induction l as [|kv l IH]; intros acc; [by rewrite str_app_nil_r|].
    cbn [fold_left map unlines foldr]. fold (unlines (map diag_line l)). rewrite IH.
    unfold diag_line. by rewrite !str_app_assoc. }
  unfold status_reply, status_lines. cbv zeta. rewrite Hd, !unlines_app.
  destruct (status_peer status), (round_trip_ms status); cbn [unlines foldr];
    by rewrite ?str_app_assoc, ?str_app_nil_r.
Qed.

Lemma list_reply_lines phones :
  list_reply phones = unlines (app (map phone_line_of phones) ["end"]).
Proof.
  assert (forall l acc, fold_left (fun response (phone : string * bool) =>
      response ++ "phone " ++ phone.1 ++ " " ++ (if phone.2 : bool then "connected" else "disconnected") ++ nl)
      l acc = acc ++ unlines (map phone_line_of l)) as Hd.
  { induction l as [|kv l IH]; intros acc; [by rewrite str_app_nil_r|].
    cbn [fold_left map unlines foldr]. fold (unlines (map phone_line_of l)). rewrite IH.
    unfold phone_line_of. by rewrite !str_app_assoc. }
  unfold list_reply. cbv zeta. rewrite Hd, unlines_app. reflexivity.
Qed.

(** The diagnostics as a window shows them. *)
Definition shown_diagnostics (status : TrayStatus) : list (string * string) :=
  map (fun kv => (kv.1, replace_char newline " " kv.2)) (diagnostics status).

Lemma parse_diagnostics l : (forall kv, In kv l -> str_contains (ascii_of_byte 61) kv.1 = false) ->
  forall st, fold_left parse_status_line (map diag_line l) st
  = {| ns_summary := ns_summary st; ns_connected := ns_connected st; ns_peer := ns_peer st;
       ns_round_trip_ms := ns_round_trip_ms st;
       ns_diagnostics := app (ns_diagnostics st)
         (map (fun kv => (kv.1, replace_char newline " " kv.2)) l) |}.
Proof.
  induction l as [|kv l IH]; intros Hl st; [cbn; rewrite app_nil_r; by destruct st|].
  cbn [map fold_left]. rewrite IH by (intros; apply Hl; by right).
  assert (parse_status_line st (diag_line kv)
    = {| ns_summary := ns_summary st; ns_connected := ns_connected st; ns_peer := ns_peer st;
         ns_round_trip_ms := ns_round_trip_ms st;
         ns_diagnostics := app (ns_diagnostics st) [(kv.1, replace_char newline " " kv.2)] |}) as ->.
  { unfold parse_status_line, diag_line.
    change ("diag " ++ ?x) with ("diag" ++ " " ++ x). rewrite split_keyword by reflexivity.
    cbn [str_eqb bool_decide]. change "=" with (String (ascii_of_byte 61) "") at 2.
    change ("=" ++ ?x) with (String (ascii_of_byte 61) x).
    by rewrite (split_once_char _ _ _ (Hl kv (or_introl eq_refl))). }
  cbn [ns_summary ns_connected ns_peer ns_round_trip_ms ns_diagnostics].
  by rewrite <- app_assoc.
Qed.

Lemma print_dec_line n : 0 <= n -> line_ok (print_dec n).
Proof.
  intros Hn. split; [by apply print_dec_contains|].
  by apply ends_with_contains, print_dec_contains.
Qed.

(** The texts that a status may hold for its lines to be read back. *)
Record status_ok (status : TrayStatus) : Prop := {
  ok_summary : line_ok (summary_text status);
  ok_peer : forall peer, status_peer status = Some peer -> line_ok peer;
  ok_ping : forall ping, round_trip_ms status = Some ping -> in_u64 ping;
  ok_diag : forall kv, In kv (diagnostics status) ->
    str_contains newline kv.1 = false /\ str_contains (ascii_of_byte 61) kv.1 = false
    /\ ends_with carriage_return kv.2 = false;
}.

Lemma status_lines_ok status : status_ok status -> Forall line_ok (status_lines status).
Proof.
  intros [Hs Hp Hr Hd]. unfold status_lines. apply Forall_app. split.
  { constructor; [|constructor]. by apply (keyword_line "summary"). }
  apply Forall_app. split.
  { destruct (status_peer status) as [peer|]; [|constructor]. constructor; [|constructor].
    apply (keyword_line "peer"); [done|by apply Hp]. }
  apply Forall_app. split.
  { destruct (round_trip_ms status) as [ping|]; [|constructor]. constructor; [|constructor].
    apply (keyword_line "ping"); [done|]. apply print_dec_line. by destruct (Hr ping eq_refl). }
  apply Forall_app. split; [|by repeat constructor].
  apply List.Forall_forall. intros l (kv & <- & Hin)%in_map_iff. destruct (Hd kv Hin) as (Hk & _ & Hv).
  apply (keyword_line "diag"); [done|]. destruct (replaced_line _ Hv) as [Hn Hc].
  change ("=" ++ ?x) with (String (ascii_of_byte 61) x). split.
  - by rewrite str_contains_app, Hk.
  - rewrite ends_with_app. by destruct (replace_char newline " " kv.2).
Qed.

Lemma parse_status_lines status : status_ok status ->
  parse_status (status_lines status)
  = {| ns_summary := summary_text status; ns_connected := bool_decide (is_Some (status_peer status));
       ns_peer := status_peer status; ns_round_trip_ms := round_trip_ms status;
       ns_diagnostics := shown_diagnostics status |}.
Proof.
  intros [Hs Hp Hr Hd]. unfold parse_status, status_lines.
  assert (forall st x, parse_status_line st ("summary " ++ x)
    = {| ns_summary := x; ns_connected := ns_connected st; ns_peer := ns_peer st;
         ns_round_trip_ms := ns_round_trip_ms st; ns_diagnostics := ns_diagnostics st |}) as Es.
  { intros. unfold parse_status_line. change ("summary " ++ x) with ("summary" ++ " " ++ x).
    by rewrite split_keyword. }
  assert (forall st x, parse_status_line st ("peer " ++ x)
    = {| ns_summary := ns_summary st; ns_connected := true; ns_peer := Some x;
         ns_round_trip_ms := ns_round_trip_ms st; ns_diagnostics := ns_diagnostics st |}) as Ep.
  { intros. unfold parse_status_line. change ("peer " ++ x) with ("peer" ++ " " ++ x).
    by rewrite split_keyword. }
  assert (forall st x, parse_status_line st ("ping " ++ x)
    = {| ns_summary := ns_summary st; ns_connected := ns_connected st; ns_peer := ns_peer st;
         ns_round_trip_ms := parse_dec u64_max x; ns_diagnostics := ns_diagnostics st |}) as Er.
  { intros. unfold parse_status_line. change ("ping " ++ x) with ("ping" ++ " " ++ x).
    by rewrite split_keyword. }
  rewrite !fold_left_app. cbn [fold_left]. rewrite Es.
  assert (forall st, parse_status_line st "end" = st) as Ee by done. rewrite Ee.
  rewrite parse_diagnostics by (intros kv Hin; by destruct (Hd kv Hin) as (_ & ? & _)).
  unfold shown_diagnostics.
  destruct (status_peer status) as [peer|], (round_trip_ms status) as [ping|];
    cbn [fold_left]; rewrite ?Ep, ?Er; try done;
    destruct (Hr ping eq_refl); by rewrite parse_print.
Qed.

(** The settings window sees the tray's status: the reply to [status] is read back as the
    tray's summary, peer, ping and diagnostics (with line ends in a value shown as spaces), and
    as connected exactly when the session is. *)
Theorem status_reaches_the_window t env watcher : tray_shown env = Some (tray_status t) ->
  status_ok (tray_status t) ->
  parse_status (str_lines (written (handle_client env watcher (request_line "status"))))
  = {| ns_summary := summary t; ns_connected := bool_decide (state t = Tray.Connected);
       ns_peer := if bool_decide (state t = Tray.Connected) then Some (Tray.peer_name t) else None;
       ns_round_trip_ms := round_trip_ms (tray_status t);
       ns_diagnostics := shown_diagnostics (tray_status t) |}.
Proof.
  intros He Hok. unfold handle_client. rewrite He.
  change (client_command (request_line "status")) with Status. cbn iota. cbn [written replied].
  rewrite status_reply_lines, (str_lines_unlines _ (status_lines_ok _ Hok)), parse_status_lines by done.
  cbn [tray_status summary_text status_peer]. by destruct (bool_decide (state t = Tray.Connected)).
Qed.

Definition shown_tray : ReceiverTray :=
  set_session Tray.Connected (Some "Main PC") (Some (from_millis 4)) 1 7 2 None
    (ReceiverTray_new "Listen: 0.0.0.0:42420" "hyprland" false).
Definition window_env : ControlEnv :=
  {| ask := fun _ => None; paired := None; tray_shown := Some (tray_status shown_tray); setup := None |}.
Lemma status_reaches_the_window_witness :
  ns_summary (parse_status (str_lines (written (handle_client window_env 0 (request_line "status")))))
  = "Controlling Main PC · 4 ms".
Proof.
  rewrite (status_reaches_the_window shown_tray window_env 0 eq_refl); [reflexivity|].
  split.
  - by vm_compute.
  - intros peer [= <-]. by vm_compute.
  - intros ping [= <-]. by vm_compute.
  - intros kv Hin. cbn in Hin.
    repeat (destruct Hin as [<-|Hin]; [by vm_compute|]). destruct Hin.
Defined.
End Windows.

(** *** Phones *)

Section Phones.
(** The receiver loop answers the requests of a client. *)
Definition receiver_env (answers : Answers) (r : Receiver) (heard : option string) : ControlEnv :=
  {| ask := fun request => Some (handle_request answers request r).2; paired := heard;
     tray_shown := None; setup := None |}.

Lemma parse_phone_line phone : parse_phone (phone_line_of phone) = Some phone.
Proof.
  unfold parse_phone, phone_line_of.
  change ("phone " ++ ?x) with ("phone" ++ " " ++ x). rewrite split_keyword by reflexivity.
  rewrite (bool_decide_eq_true_2 ("phone" = "phone") eq_refl : str_eqb "phone" "phone" = true).
  change (" " ++ ?x) with (String space x). destruct phone as [name [|]]; cbn [fst snd];
    by rewrite rsplit_once_char.
Qed.

Lemma parse_phone_lines phones :
  parse_phones (app (map phone_line_of phones) ["end"]) = phones.
Proof.
  unfold parse_phones. rewrite omap_app. change (omap parse_phone ["end"]) with (@nil (string * bool)).
  rewrite app_nil_r. induction phones as [|phone phones IH]; [done|].
  cbn [map omap list_omap]. rewrite parse_phone_line. f_equal. exact IH.
Qed.

Lemma phone_line_ok phone : str_contains newline phone.1 = false -> line_ok (phone_line_of phone).
Proof.
  intros Hn. unfold phone_line_of. destruct phone as [name c]. cbn [fst snd] in *.
  change (" " ++ ?x) with (String space x). split.
  - rewrite str_contains_app, str_contains_app, Hn. by destruct c.
  - change ("phone " ++ ?x) with ("phone" ++ String space x). rewrite ends_with_app.
    rewrite <- str_app_cons, ends_with_app. by destruct c.
Qed.

(** The windows list the phones as they are: the reply to [list-phones] is read back as
    exactly the pinned phones, each with whether one of its sessions runs, for names (spaces
    included) that hold no line end. *)
Theorem windows_list_the_phones answers r heard watcher :
  (forall name p, pin_phones (pins r) !! name = Some p -> str_contains newline name = false) ->
  parse_phones (str_lines (written
    (handle_client (receiver_env answers r heard) watcher (request_line "list-phones"))))
  = ((fun p => (p.1, existsb (str_eqb p.1) (connected (phones r))))
      <$> map_to_list (pin_phones (pins r))).
Proof.
  intros Hn. unfold handle_client.
  change (client_command (request_line "list-phones")) with List_phones. cbn iota.
  cbn [ask receiver_env handle_request snd]. set (listed := _ <$> _).
  cbn [written replied]. rewrite list_reply_lines, str_lines_unlines, parse_phone_lines; [done|].
  apply Forall_app. split; [|by repeat constructor].
  apply List.Forall_forall. intros l (phone & <- & Hin)%in_map_iff. apply phone_line_ok.
  subst listed. apply list_elem_of_In, list_elem_of_fmap in Hin as ([name p] & -> & Hin).
  apply elem_of_map_to_list in Hin. by apply (Hn name p).
Qed.

Lemma windows_list_the_phones_witness :
  parse_phones (str_lines (written
    (handle_client (receiver_env sample_answers paired_receiver None) 0 (request_line "list-phones"))))
  = [("phone", false)].
Proof.
  rewrite windows_list_the_phones; [by vm_compute|].
  intros name p Hp. refine (map_Forall_lookup_1
    (fun (name : string) (_ : PinnedPhone) => str_contains newline name = false)
    (pin_phones (pins paired_receiver)) name p _ Hp).
  apply (bool_decide_unpack _). by vm_compute.
Defined.

Lemma run_client_phones qr phones : forall any,
  run_client qr any (app (map phone_line_of phones) ["end"])
  = (app (map (fun phone => Print_line (phone.1 ++ " " ++ (if phone.2 : bool then "connected" else "disconnected")))
        phones) (if any || negb (bool_decide (phones = [])) then [] else [Print_line "No phones are paired."]),
     Ok tt).
Proof.
  induction phones as [|phone phones IH]; intros any; [by destruct any|].
  cbn [map app run_client]. unfold phone_line_of at 1.
  change ("phone " ++ ?x) with ("phone" ++ " " ++ x). rewrite (split_keyword "phone") by reflexivity.
  replace (any || negb (bool_decide (phone :: phones = []))) with true by (by destruct any).
  specialize (IH true). cbn [orb] in IH. rewrite app_nil_r in IH |- *. by rewrite IH.
Qed.

(** The command line prints the phones as they are: one line for each pinned phone with its
    state, or that no phones are paired when there is none, and it never fails. *)
Theorem command_line_lists_the_phones qr answers r heard watcher :
  (forall name p, pin_phones (pins r) !! name = Some p -> str_contains newline name = false) ->
  let listed := map_to_list (pin_phones (pins r)) in
  run_client qr false (str_lines (written
    (handle_client (receiver_env answers r heard) watcher (request_line "list-phones"))))
  = (if bool_decide (listed = []) then [Print_line "No phones are paired."]
     else map (fun p => Print_line (p.1 ++ " " ++
            (if existsb (str_eqb p.1) (connected (phones r)) then "connected" else "disconnected"))) listed,
     Ok tt).
Proof.
  intros Hn listed. unfold handle_client.
  change (client_command (request_line "list-phones")) with List_phones. cbn iota.
  cbn [ask receiver_env handle_request snd]. fold listed. cbn [written replied].
  rewrite list_reply_lines, str_lines_unlines.
  - rewrite run_client_phones. f_equal. destruct listed as [|p l]; [done|].
    rewrite bool_decide_eq_false_2 by done. cbn [orb negb]. rewrite app_nil_r.
    change (fmap ?f (p :: l)) with (map f (p :: l)). by rewrite map_map.
  - apply Forall_app. split; [|by repeat constructor].
    apply List.Forall_forall. intros l (phone & <- & Hin)%in_map_iff. apply phone_line_ok.
    apply list_elem_of_In, list_elem_of_fmap in Hin as ([name p] & -> & Hin).
    apply elem_of_map_to_list in Hin. by apply (Hn name p).
Qed.

Lemma command_line_lists_the_phones_witness :
  run_client (fun _ => true) false (str_lines (written
    (handle_client (receiver_env sample_answers sample_receiver None) 0 (request_line "list-phones"))))
  = ([Print_line "No phones are paired."], Ok tt).
Proof.
  rewrite command_line_lists_the_phones; [by vm_compute|].
  intros name p Hp. change (pin_phones (pins sample_receiver)) with (∅ : gmap string PinnedPhone) in Hp.
  by rewrite lookup_empty in Hp.
Defined.
End Phones.

(** *** Commands *)

Section Commands.
Lemma words_newline n : forall bs w, (length bs <= n)%nat -> words_of w (app bs [10]) = words_of w bs.
Proof.
  assert (forall w, words_of w [10] = words_of w []) as H0
    by (intros w; change (words_of w [10]) with (app (words_of w []) []); apply app_nil_r).
  assert (forall a, is_space2 a 10 = false) as H2
    by (intros; unfold is_space2; by rewrite andb_false_r).
  assert (forall a b, is_space3 a b 10 = false) as H3
    by (intros; unfold is_space3; cbn; by rewrite !andb_false_r).
  induction n as [|n IH]; intros bs w Hn; [destruct bs; [apply H0|simpl in Hn; lia]|].
  destruct bs as [|b0 r0]; [apply H0|]. simpl in Hn. cbn [app words_of].
  destruct (is_space1 b0); [by rewrite IH by lia|].
  destruct r0 as [|b1 r1].
  - change (app [] [10]) with [10]. cbv iota. by rewrite H2, H0.
  - cbn [app]. cbv iota. simpl in Hn.
    destruct (is_space2 b0 b1); [by rewrite IH by lia|]. destruct r1 as [|b2 r2].
    + change (app [] [10]) with [10]. cbv iota. rewrite H3.
      change (b1 :: [10]) with (app [b1] [10]). apply IH. simpl; lia.
    + cbn [app]. cbv iota. simpl in Hn. destruct (is_space3 b0 b1 b2); [by rewrite IH by lia|].
      change (b1 :: b2 :: app r2 [10]) with (app (b1 :: b2 :: r2) [10]). apply IH. simpl; lia.
Qed.

Lemma request_words command : split_whitespace (request_line command) = split_whitespace command.
Proof.
  unfold split_whitespace, request_line. rewrite str_bytes_app.
  change (str_bytes nl) with [10]. by rewrite (words_newline (length (str_bytes command))).
Qed.

Lemma unpair_words name :
  split_whitespace (unpair_command name) = "unpair-phone" :: split_whitespace name.
Proof.
  unfold split_whitespace, unpair_command. rewrite str_bytes_app.
  destruct (str_bytes name) as [|b0 [|b1 r]]; reflexivity.
Qed.

(** A name as the receiver reads it: its words, one space apart. *)
Definition as_read (name : string) : string := str_join " " (split_whitespace name).

Lemma unpair_command_read name :
  client_command (request_line (unpair_command name))
  = if str_is_empty (as_read name) then Unknown_command else Unpair_phone (as_read name).
Proof.
  unfold client_command. rewrite request_words, unpair_words. fold (as_read name).
  cbv zeta. by destruct (as_read name).
Qed.

(** Unpairing from a window does what the receiver does: for a name written with single
    spaces, the phone of that name is unpaired, and the window is told of success or of the
    receiver's error; a phone that is not paired counts as success. *)
Theorem window_unpairs_the_phone answers r heard watcher name :
  as_read name = name -> name <> "" -> line_ok name ->
  let answer := unpair answers name r in
  (forall error, answer.2 = Err error -> line_ok error) ->
  unpair_reply (str_lines (written (handle_client (receiver_env answers r heard) watcher
    (request_line (unpair_command name)))))
  = match answer.2 with Ok _ => Ok tt | Err error => Err error end.
Proof.
  intros Hr Hne Hok answer He. unfold handle_client. rewrite unpair_command_read, Hr.
  assert (str_is_empty name = false) as -> by (by destruct name).
  cbn [ask receiver_env handle_request snd]. fold answer.
  assert (forall keyword value, line_ok keyword -> line_ok value -> str_contains space keyword = false ->
    option_map split (head (str_lines (keyword ++ " " ++ value ++ nl))) = Some (keyword, value)) as Hl.
  { intros keyword value Hk Hv Hs.
    assert (keyword ++ " " ++ value ++ nl = unlines [keyword ++ " " ++ value]) as ->
      by (cbn; by rewrite !str_app_assoc).
    rewrite str_lines_unlines by (constructor; [by apply keyword_line|constructor]).
    cbn [head option_map]. by rewrite split_keyword. }
  destruct (answer.2) as [[|]|error]; cbn [written replied].
  - specialize (Hl "unpaired" name ltac:(done) Hok eq_refl).
    unfold unpair_reply. destruct (head _) as [line|]; [|done]. cbn [option_map] in Hl.
    injection Hl as E. by rewrite E.
  - reflexivity.
  - specialize (Hl "error" error ltac:(done) (He error eq_refl) eq_refl).
    unfold unpair_reply. destruct (head _) as [line|]; [|done]. cbn [option_map] in Hl.
    injection Hl as E. by rewrite E.
Qed.

Lemma window_unpairs_the_phone_witness :
  unpair_reply (str_lines (written (handle_client (receiver_env sample_answers paired_receiver None) 0
    (request_line (unpair_command "phone"))))) = Ok tt.
Proof.
  rewrite (window_unpairs_the_phone sample_answers paired_receiver None 0 "phone").
  - by vm_compute.
  - by vm_compute.
  - done.
  - by vm_compute.
  - intros error. by vm_compute.
Defined.

(** A name with other spacing is read as another name, so the receiver knows no such phone: it
    stays paired, and the window is told of success. *)
Theorem oddly_spaced_phone_stays_paired answers r heard watcher name p :
  pin_phones (pins r) !! name = Some p -> pin_phones (pins r) !! as_read name = None ->
  as_read name <> "" ->
  handle_request answers (Request_Unpair (as_read name)) r = (r, Reply_Unpair (Ok false))
  /\ unpair_reply (str_lines (written (handle_client (receiver_env answers r heard) watcher
       (request_line (unpair_command name))))) = Ok tt.
Proof.
  intros _ Hn Hne.
  assert (handle_request answers (Request_Unpair (as_read name)) r = (r, Reply_Unpair (Ok false))) as E.
  { cbn [handle_request]. unfold unpair, remove_phone. by rewrite Hn. }
  split; [exact E|]. unfold handle_client. rewrite unpair_command_read.
  assert (str_is_empty (as_read name) = false) as -> by (by destruct (as_read name)).
  cbn [ask receiver_env]. rewrite E. reflexivity.
Qed.
End Commands.

(** *** Pairing *)

Section Pairing.
Lemma pair_reply_lines uri expires_in heard :
  "uri " ++ uri ++ nl ++ "expires " ++ print_dec expires_in ++ nl
    ++ match heard with Some name => "paired " ++ name ++ nl | None => "closed" ++ nl end
  = unlines ["uri " ++ uri; "expires " ++ print_dec expires_in;
             match heard with Some name => "paired " ++ name | None => "closed" end].
Proof. destruct heard; cbn [unlines foldr]; by rewrite !str_app_assoc, ?str_app_nil_r. Qed.

(** What a reader makes of an offer and the line after it, whatever that line announces. *)
Lemma offer_events uri seconds rest :
  pairing_events None (Ok ("uri " ++ uri) :: Ok ("expires " ++ seconds) :: rest)
  = Offer uri (from_secs 300) :: pairing_events (from_secs <$> parse_dec u64_max seconds) rest.
Proof.
  cbn [pairing_events]. unfold pairing_event.
  change ("uri " ++ uri) with ("uri" ++ " " ++ uri).
  change ("expires " ++ seconds) with ("expires" ++ " " ++ seconds).
  by rewrite !split_keyword by reflexivity.
Qed.

(** The pairing window shows what the receiver offers: the link of the window the receiver
    opened, valid for as long as that window stays open, and then the phone that paired, or
    that the window closed. *)
Theorem pairing_window_shows_the_offer answers r heard watcher :
  let uri := pairing_uri (lan answers) (listen_port (phones r))
    (local_fingerprint (local (phones r)))
    (window_token (PairingWindow_open (random16 answers) (at_ answers))) in
  let opened := (handle_request answers (Request_OpenPairing watcher) r).1 in
  line_ok uri -> (forall name, heard = Some name -> line_ok name) ->
  pairing_events None (map Ok (str_lines (written
    (handle_client (receiver_env answers r heard) watcher (request_line "pair-phone")))))
  = [Offer uri PAIRING_WINDOW;
     match heard with Some name => Paired name | None => Pairing_Closed end]
  /\ forall t, pairing_open (phones opened) t = (t <? at_ answers + PAIRING_WINDOW)%Z.
Proof.
  intros uri opened Hu Hh. split; [|done]. unfold handle_client.
  change (client_command (request_line "pair-phone")) with Pair_phone. cbn iota.
  cbn [ask receiver_env handle_request snd paired]. fold uri. cbn [written replied].
  rewrite pair_reply_lines, str_lines_unlines.
  - cbn [map]. rewrite offer_events. change PAIRING_WINDOW with (from_secs 300). f_equal.
    destruct heard as [name|]; [|reflexivity].
    cbn [pairing_events]. unfold pairing_event.
    change ("paired " ++ name) with ("paired" ++ " " ++ name). by rewrite split_keyword.
  - constructor; [by apply (keyword_line "uri")|]. constructor.
    { by apply (keyword_line "expires"), print_dec_line. }
    constructor; [|constructor]. destruct heard as [name|]; [|done].
    apply (keyword_line "paired"); [done|by apply Hh].
Qed.

Lemma pairing_window_shows_the_offer_witness :
  head (pairing_events None (map Ok (str_lines (written
    (handle_client (receiver_env sample_answers sample_receiver (Some "Pixel 8")) 1
       (request_line "pair-phone"))))))
  = Some (Offer ("hyprmobile://pair?v=1&fp=pc&port=42420&token=" ++ sample_token) (from_secs 300)).
Proof.
  destruct (pairing_window_shows_the_offer sample_answers sample_receiver (Some "Pixel 8") 1) as [-> _].
  - by vm_compute.
  - intros name [= <-]. by vm_compute.
  - by vm_compute.
Defined.

(** The time that the receiver announces after its link never reaches the offer. *)
Theorem announced_expiry_is_not_folded uri seconds :
  pairing_events None [Ok ("uri " ++ uri); Ok ("expires " ++ seconds)] = [Offer uri (from_secs 300)].
Proof. by rewrite offer_events. Qed.

(** A phone chooses its name, and a name with a line end adds lines to the reply. *)
Example name_with_a_line_end_lists_another_phone :
  parse_phones (str_lines (list_reply [("a connected" ++ nl ++ "phone b", true)]))
  = [("a", true); ("b", true)].
Proof. reflexivity. Qed.
End Pairing.
