(* ===== verification/Keymap.v ===== *)
(** * The key map: [edge-keymap]

    The table of key codes between Windows (a scan code, extended or not) and Linux (evdev): the
    arms of the two matches, in their order.  Codes are [u16]. *)
From S2P Require Export Prelude.

(** [edge-keymap 3-7 WindowsScanCode] *)
Record WindowsScanCode := { scan_code : Z; extended : bool }.
#[export] Instance WindowsScanCode_eq_dec : EqDecision WindowsScanCode.
Proof. solve_decision. Defined.

(** [edge-keymap 20-112 windows_scancode_to_evdev] (the arms [(scan code, extended) => code]) *)
Definition windows_arms : list (Z * bool * Z) :=
  [
   (* Number row. *)
   (0x02, false, 2); (0x03, false, 3); (0x04, false, 4); (0x05, false, 5); (0x06, false, 6)
   ; (0x07, false, 7); (0x08, false, 8); (0x09, false, 9); (0x0a, false, 10)
   ; (0x0b, false, 11)
   (* Letters. *)
   ; (0x10, false, 16); (0x11, false, 17); (0x12, false, 18); (0x13, false, 19)
   ; (0x14, false, 20); (0x15, false, 21); (0x16, false, 22); (0x17, false, 23)
   ; (0x18, false, 24); (0x19, false, 25); (0x1e, false, 30); (0x1f, false, 31)
   ; (0x20, false, 32); (0x21, false, 33); (0x22, false, 34); (0x23, false, 35)
   ; (0x24, false, 36); (0x25, false, 37); (0x26, false, 38); (0x2c, false, 44)
   ; (0x2d, false, 45); (0x2e, false, 46); (0x2f, false, 47); (0x30, false, 48)
   ; (0x31, false, 49); (0x32, false, 50)
   (* Editing and whitespace. *)
   ; (0x01, false, 1); (0x0e, false, 14); (0x0f, false, 15); (0x1c, false, 28)
   ; (0x39, false, 57); (0x1c, true, 28)
   (* Modifiers. *)
   ; (0x3a, false, 58); (0x2a, false, 42); (0x36, false, 54); (0x1d, false, 29)
   ; (0x1d, true, 97); (0x38, false, 56); (0x38, true, 100); (0x5b, true, 125)
   ; (0x5c, true, 126)
   (* Arrows and navigation. *)
   ; (0x48, true, 103); (0x50, true, 108); (0x4b, true, 105); (0x4d, true, 106)
   ; (0x52, true, 110); (0x53, true, 111); (0x47, true, 102); (0x4f, true, 107)
   ; (0x49, true, 104); (0x51, true, 109)
   (* F1-F12. *)
   ; (0x3b, false, 59); (0x3c, false, 60); (0x3d, false, 61); (0x3e, false, 62)
   ; (0x3f, false, 63); (0x40, false, 64); (0x41, false, 65); (0x42, false, 66)
   ; (0x43, false, 67); (0x44, false, 68); (0x57, false, 87); (0x58, false, 88)
   (* Common punctuation. *)
   ; (0x0c, false, 12); (0x0d, false, 13); (0x1a, false, 26); (0x1b, false, 27)
   ; (0x27, false, 39); (0x28, false, 40); (0x29, false, 41); (0x2b, false, 43)
   ; (0x33, false, 51); (0x34, false, 52); (0x35, false, 53)].

(** [edge-keymap 18-115 windows_scancode_to_evdev] *)
Definition windows_scancode_to_evdev (key : WindowsScanCode) : option Z :=
  option_map snd (List.find (fun arm => (arm.1.1 =? scan_code key) && Bool.eqb arm.1.2 (extended key))
                    windows_arms).

(** [edge-keymap 118-161 evdev_to_windows_scancode] (the arms [first..=last => (code - first + scan
    code, extended)]) *)
Definition evdev_arms : list (Z * Z * Z * bool) :=
  [
   (2, 11, 0x02, false); (16, 25, 0x10, false); (30, 38, 0x1e, false); (44, 50, 0x2c, false)
   ; (1, 1, 0x01, false); (14, 14, 0x0e, false); (15, 15, 0x0f, false)
   ; (28, 28, 0x1c, false); (57, 57, 0x39, false); (58, 58, 0x3a, false)
   ; (42, 42, 0x2a, false); (54, 54, 0x36, false); (29, 29, 0x1d, false)
   ; (97, 97, 0x1d, true); (56, 56, 0x38, false); (100, 100, 0x38, true)
   ; (125, 125, 0x5b, true); (126, 126, 0x5c, true); (103, 103, 0x48, true)
   ; (108, 108, 0x50, true); (105, 105, 0x4b, true); (106, 106, 0x4d, true)
   ; (110, 110, 0x52, true); (111, 111, 0x53, true); (102, 102, 0x47, true)
   ; (107, 107, 0x4f, true); (104, 104, 0x49, true); (109, 109, 0x51, true)
   ; (59, 68, 0x3b, false); (87, 87, 0x57, false); (88, 88, 0x58, false)
   ; (12, 12, 0x0c, false); (13, 13, 0x0d, false); (26, 26, 0x1a, false)
   ; (27, 27, 0x1b, false); (39, 39, 0x27, false); (40, 40, 0x28, false)
   ; (41, 41, 0x29, false); (43, 43, 0x2b, false); (51, 51, 0x33, false)
   ; (52, 52, 0x34, false); (53, 53, 0x35, false)].

(** [edge-keymap 117-164 evdev_to_windows_scancode] *)
Definition evdev_to_windows_scancode (code : Z) : option WindowsScanCode :=
  option_map (fun arm => {| scan_code := code - arm.1.1.1 + arm.1.2; extended := arm.2 |})
    (List.find (fun arm => (arm.1.1.1 <=? code) && (code <=? arm.1.1.2)) evdev_arms).

(** ** Properties *)

(** The extended Enter of the numeric keypad shares the code of the main one. *)
Definition keypad_enter : WindowsScanCode := {| scan_code := 0x1c; extended := true |}.

Section RoundTrips.
Definition arm_round_trip (arm : Z * Z * Z * bool) : bool :=
  forallb (fun code => bool_decide
    (windows_scancode_to_evdev {| scan_code := code - arm.1.1.1 + arm.1.2; extended := arm.2 |}
     = Some code)) (seqZ arm.1.1.1 (arm.1.1.2 - arm.1.1.1 + 1)).

Lemma evdev_arms_round_trip : forallb arm_round_trip evdev_arms = true.
Proof. vm_compute. reflexivity. Qed.

Definition key_round_trip (arm : Z * bool * Z) : bool :=
  let key := {| scan_code := arm.1.1; extended := arm.1.2 |} in
  bool_decide (evdev_to_windows_scancode arm.2 = Some key)
  || bool_decide (key = keypad_enter /\ arm.2 = 28).

Lemma windows_arms_round_trip : forallb key_round_trip windows_arms = true.
Proof. vm_compute. reflexivity. Qed.

(** A code that Windows knows translates back to itself. *)
Lemma evdev_code_returns code key :
  evdev_to_windows_scancode code = Some key -> windows_scancode_to_evdev key = Some code.
Proof.
  intros H. unfold evdev_to_windows_scancode in H.
  destruct (List.find _ _) as [arm|] eqn:E; [|done]. injection H as <-.
  apply List.find_some in E as [Hin Hr]. reflect_bools.
  pose proof (proj1 (forallb_forall _ _) evdev_arms_round_trip arm Hin) as Ha.
  eapply bool_decide_eq_true, (proj1 (forallb_forall _ _) Ha).
  apply list_elem_of_In, elem_of_seqZ. lia.
Qed.

(** Every key that is carried is the same key on the other side: an evdev code that Windows
    knows translates back to itself, and a Windows key that evdev knows translates back to
    itself, the keypad's Enter alone becoming the main Enter; so the two tables know the same
    codes. *)
Theorem key_map_round_trips code key :
  (evdev_to_windows_scancode code = Some key -> windows_scancode_to_evdev key = Some code)
  /\ (windows_scancode_to_evdev key = Some code ->
      evdev_to_windows_scancode code = Some key \/ key = keypad_enter /\ code = 28).
Proof.
  split; intros H.
  - by apply evdev_code_returns.
  - unfold windows_scancode_to_evdev in H.
    destruct (List.find _ _) as [arm|] eqn:E; [|done]. injection H as <-.
    apply List.find_some in E as [Hin Hr]. apply andb_true_iff in Hr as [Hs He].
    apply Z.eqb_eq in Hs. apply Bool.eqb_prop in He.
    pose proof (proj1 (forallb_forall _ _) windows_arms_round_trip arm Hin) as Ha.
    unfold key_round_trip in Ha. rewrite Hs, He in Ha. destruct key as [s e].
    apply orb_true_iff in Ha as [Ha|Ha]; apply bool_decide_eq_true in Ha; auto.
Qed.

Lemma key_map_round_trips_witness :
  evdev_to_windows_scancode 30 = Some {| scan_code := 0x1e; extended := false |}
  /\ windows_scancode_to_evdev {| scan_code := 0x1e; extended := false |} = Some 30.
Proof.
  split; [reflexivity|].
  exact (proj1 (key_map_round_trips 30 {| scan_code := 0x1e; extended := false |}) eq_refl).
Defined.
End RoundTrips.
