(* ===== verification/Acceptor.v ===== *)
(** * The acceptor: [acceptor.rs] and [validate_controller_hello] of [main.rs]

    Each connection has a handshake task; four tasks at most.  A task that has something to
    report waits for the event channel, which holds one event, and its permit is released when
    the channel has taken the event.  A step is one thing that happens: a connection arrives, a
    handshake ends, a waiting task sends, the receiver loop takes an event. *)
From S2P Require Export Text Protocol.
#[local] Open Scope string_scope.

(** [rx/acceptor 28-30 MAX_PENDING_PEERS] *)
Definition MAX_PENDING_PEERS : Z := 4.
(** The capacity of the event channel. *)
Definition EVENT_CAPACITY : Z := 1.

(** [rx/acceptor 34-40 IncomingPeer]; the session is the connection's. *)
Record IncomingPeer := { addr : Z; fingerprint : string; hello : Hello }.

(** [rx/acceptor 42-47 AcceptEvent] *)
Inductive AcceptEvent := Peer (peer : IncomingPeer) | Failed (message : string).

(** How the peer and the network behave in a handshake: [None] is a timeout. *)
Record Conversation := {
  noise : option (result string string);
  first_frame : option (result Frame string);
}.

(** [rx/main 3641-3653 validate_controller_hello] *)
Definition validate_controller_hello (hello : Hello) (noise_fingerprint : string) : result unit string :=
  ensure! (protocol_version hello =? PROTOCOL_VERSION)%Z
    else "Upgrade the other computer: peer protocol version "
         ++ print_dec (protocol_version hello) ++ " is incompatible with "
         ++ print_dec PROTOCOL_VERSION ;;
  ensure! str_eqb (public_key_fingerprint hello) noise_fingerprint
    else "peer hello fingerprint does not match its encrypted identity" ;;
  Ok tt.

(** [rx/acceptor 112-177 handshake]: the event of the task, and the error frame the peer is sent. *)
Definition handshake (c : Conversation) (addr : Z) : option AcceptEvent * option RemoteError :=
  match noise c with
  | None => (Some (Failed "Noise handshake timed out"), None)
  | Some (Err error) => (Some (Failed ("Noise handshake failed: " ++ error)), None)
  | Some (Ok fingerprint) =>
      match first_frame c with
      | None => (Some (Failed "timed out waiting for controller hello"), None)
      | Some (Err error) => (Some (Failed ("failed to read Hello: " ++ error)), None)
      | Some (Ok (Frame_Hello hello)) =>
          match validate_controller_hello hello fingerprint with
          | Err error => (Some (Failed error), Some {| code := "invalid_hello"; message := error |})
          | Ok _ => (Some (Peer {| addr := addr; fingerprint := fingerprint; hello := hello |}), None)
          end
      | Some (Ok _) => (None, None)
      end
  end.

(** A task is shaking hands or waits to send its event. *)
Inductive handshake_task := Shaking (addr : Z) | Waiting (event : AcceptEvent).

(** [rx/acceptor 49-52 Acceptor]: the tasks that hold a permit, by number, the event in the channel,
    the connections closed at once and what the receiver loop has taken. *)
Record Acceptor := {
  tasks : gmap nat handshake_task;
  next_task : nat;
  events : list AcceptEvent;
  closed : list Z;
  taken : list AcceptEvent;
}.
Definition with_tasks : gmap nat handshake_task -> Acceptor -> Acceptor :=
  ltac:(field_setter tasks).

(** [rx/acceptor 55-62 Acceptor::spawn] *)
Definition Acceptor_spawn : Acceptor :=
  {| tasks := ∅; next_task := O; events := []; closed := []; taken := [] |}.

(** [rx/acceptor 80-103 accept_loop] (a connection arrives; [None] is a failed accept) *)
Definition accept (incoming : option Z) (a : Acceptor) : Acceptor :=
  match incoming with
  | None => a
  | Some addr =>
      if (Z.of_nat (size (tasks a)) <? MAX_PENDING_PEERS)%Z
      then {| tasks := <[next_task a := Shaking addr]> (tasks a); next_task := S (next_task a);
              events := events a; closed := closed a; taken := taken a |}
      else {| tasks := tasks a; next_task := next_task a; events := events a;
              closed := closed a ++ [addr]; taken := taken a |}
  end%list.

(** [rx/acceptor 103-107 accept_loop] (the handshake of a task ends; one without an event drops
    its permit) *)
Definition shaken (i : nat) (c : Conversation) (a : Acceptor) : Acceptor :=
  match tasks a !! i with
  | Some (Shaking addr) =>
      match (handshake c addr).1 with
      | Some event => with_tasks (<[i := Waiting event]> (tasks a)) a
      | None => with_tasks (delete i (tasks a)) a
      end
  | _ => a
  end.

(** [rx/acceptor 104-107 accept_loop] (the channel takes the event of a task, which drops its
    permit) *)
Definition send_event (i : nat) (a : Acceptor) : Acceptor :=
  match tasks a !! i with
  | Some (Waiting event) =>
      if (len (events a) <? EVENT_CAPACITY)%Z
      then {| tasks := delete i (tasks a); next_task := next_task a; events := events a ++ [event];
              closed := closed a; taken := taken a |}
      else a
  | _ => a
  end%list.

(** [rx/acceptor 64-66 Acceptor::recv] *)
Definition recv (a : Acceptor) : Acceptor :=
  match events a with
  | [] => a
  | event :: rest => {| tasks := tasks a; next_task := next_task a; events := rest;
                        closed := closed a; taken := taken a ++ [event] |}
  end%list.

Inductive accept_op :=
| Op_accept (incoming : option Z)
| Op_shaken (i : nat) (c : Conversation)
| Op_send (i : nat)
| Op_recv.
Definition accept_step (a : Acceptor) (op : accept_op) : Acceptor :=
  match op with
  | Op_accept incoming => accept incoming a
  | Op_shaken i c => shaken i c a
  | Op_send i => send_event i a
  | Op_recv => recv a
  end.
Definition accept_run (ops : list accept_op) (a : Acceptor) : Acceptor := fold_left accept_step ops a.

(** ** Properties *)

Section Properties.
(** An authenticated peer: its [Hello] carries the identity that the encryption proved. *)
Definition authenticated (event : AcceptEvent) : Prop :=
  match event with
  | Peer peer => public_key_fingerprint (hello peer) = fingerprint peer
                 /\ protocol_version (hello peer) = PROTOCOL_VERSION
  | Failed _ => True
  end.

Record acceptor_ok (a : Acceptor) : Prop := {
  ok_tasks : (Z.of_nat (size (tasks a)) <= MAX_PENDING_PEERS)%Z;
  ok_fresh : forall i, is_Some (tasks a !! i) -> (i < next_task a)%nat;
  ok_events : (len (events a) <= EVENT_CAPACITY)%Z;
  ok_waiting : forall i event, tasks a !! i = Some (Waiting event) -> authenticated event;
  ok_queued : Forall authenticated (events a);
  ok_taken : Forall authenticated (taken a);
}.

Lemma handshake_authenticates c addr event : (handshake c addr).1 = Some event -> authenticated event.
Proof.
  unfold handshake. repeat case_match; intros [= <-]; try done.
  unfold validate_controller_hello in *. repeat case_match; simplify_eq/=. split.
  - by eapply bool_decide_eq_true.
  - by apply Z.eqb_eq.
Qed.

Lemma size_insert_bound (m : gmap nat handshake_task) i t :
  (size (<[i := t]> m) <= S (size m))%nat.
Proof.
  destruct (m !! i) eqn:E; [rewrite map_size_insert_Some by done; lia|].
  rewrite map_size_insert_None by done. lia.
Qed.

Lemma accept_ok incoming a : acceptor_ok a -> acceptor_ok (accept incoming a).
Proof.
  intros [Ht Hf He Hw Hq Hk]. destruct incoming as [addr|]; [|done]. cbn [accept].
  destruct (Z.ltb_spec (Z.of_nat (size (tasks a))) MAX_PENDING_PEERS); [|done].
  split; cbn [tasks next_task events taken]; try done.
  - pose proof (size_insert_bound (tasks a) (next_task a) (Shaking addr)). unfold MAX_PENDING_PEERS in *. lia.
  - intros i [t Hi]. apply lookup_insert_Some in Hi as [[-> _]|[_ Hi]]; [lia|].
    pose proof (Hf i (mk_is_Some _ _ Hi)). lia.
  - intros i event Hi. apply lookup_insert_Some in Hi as [[_ ?]|[_ Hi]]; [done|by apply (Hw i)].
Qed.

Lemma shaken_ok i c a : acceptor_ok a -> acceptor_ok (shaken i c a).
Proof.
  intros Ha. unfold shaken. destruct (tasks a !! i) as [[addr|]|] eqn:E; try done.
  destruct Ha as [Ht Hf He Hw Hq Hk].
  destruct ((handshake c addr).1) as [event|] eqn:Eh; split;
    cbn [with_tasks tasks next_task events taken]; try done.
  - rewrite map_size_insert_Some by (by eexists). done.
  - intros j [t Hj]. apply lookup_insert_Some in Hj as [[<- _]|[_ Hj]]; apply Hf; by eexists.
  - intros j e Hj. apply lookup_insert_Some in Hj as [[_ [= <-]]|[_ Hj]]; [|by apply (Hw j)].
    by eapply handshake_authenticates.
  - rewrite map_size_delete_Some by (by eexists). lia.
  - intros j [t Hj]. apply lookup_delete_Some in Hj as [_ Hj]. apply Hf. by eexists.
  - intros j e Hj. apply lookup_delete_Some in Hj as [_ Hj]. by apply (Hw j).
Qed.

Lemma send_ok i a : acceptor_ok a -> acceptor_ok (send_event i a).
Proof.
  intros Ha. unfold send_event. destruct (tasks a !! i) as [[|event]|] eqn:E; try done.
  destruct (Z.ltb_spec (len (events a)) EVENT_CAPACITY); [|done]. destruct Ha as [Ht Hf He Hw Hq Hk].
  split; cbn [tasks next_task events taken]; try done.
  - rewrite map_size_delete_Some by (by eexists). lia.
  - intros j [t Hj]. apply lookup_delete_Some in Hj as [_ Hj]. apply Hf. by eexists.
  - rewrite len_app, len_cons, len_nil. unfold EVENT_CAPACITY in *. lia.
  - intros j e Hj. apply lookup_delete_Some in Hj as [_ Hj]. by apply (Hw j).
  - apply Forall_app. split; [done|]. constructor; [by apply (Hw i)|constructor].
Qed.

Lemma recv_ok a : acceptor_ok a -> acceptor_ok (recv a).
Proof.
  intros Ha. unfold recv. destruct (events a) as [|event rest] eqn:E; [done|].
  destruct Ha as [Ht Hf He Hw Hq Hk]. rewrite E in *. apply Forall_cons in Hq as [Hev Hq].
  split; cbn [tasks next_task events taken]; try done.
  - rewrite len_cons in He. pose proof (len_nonneg rest). lia.
  - apply Forall_app. by split; [|constructor].
Qed.

Lemma accept_run_ok ops : acceptor_ok (accept_run ops Acceptor_spawn).
Proof.
  assert (acceptor_ok Acceptor_spawn) as Hs.
  { split; cbn [tasks Acceptor_spawn events taken]; try done; intros i; rewrite lookup_empty;
      by intros []. }
  revert Hs. generalize Acceptor_spawn. induction ops as [|op ops IH]; intros a Ha; [done|].
  apply (IH (accept_step a op)). destruct op; [by apply accept_ok|by apply shaken_ok|by apply send_ok|
    by apply recv_ok].
Qed.

(** Strangers cannot pile up: however connections arrive, handshakes end and the receiver
    loop takes its time, at most four connections are unauthenticated or waiting and one event
    is queued; a connection is closed at once exactly when four are pending. *)
Theorem acceptor_is_bounded ops addr :
  let a := accept_run ops Acceptor_spawn in
  (Z.of_nat (size (tasks a)) <= 4)%Z /\ (len (events a) <= 1)%Z
  /\ (closed (accept (Some addr) a) = app (closed a) [addr] <-> Z.of_nat (size (tasks a)) = 4%Z)
  /\ ((Z.of_nat (size (tasks a)) < 4)%Z ->
       tasks a !! next_task a = None /\ tasks (accept (Some addr) a) !! next_task a = Some (Shaking addr)).
Proof.
  intros a. destruct (accept_run_ok ops) as [Ht Hf He _ _ _]. fold a in Ht, Hf, He.
  unfold MAX_PENDING_PEERS, EVENT_CAPACITY in *. split_and!; try done.
  - cbn [accept]. unfold MAX_PENDING_PEERS.
    destruct (Z.ltb_spec (Z.of_nat (size (tasks a))) 4) as [Hlt|Hge]; cbn [closed].
    + split; [|lia]. intros E. apply (f_equal length) in E. rewrite length_app in E. cbn in E. lia.
    + split; [lia|done].
  - intros Hlt. split.
    + apply eq_None_not_Some. intros Hs. pose proof (Hf _ Hs). lia.
    + cbn [accept]. unfold MAX_PENDING_PEERS. rewrite (proj2 (Z.ltb_lt _ _) Hlt). cbn [tasks].
      apply lookup_insert_eq.
Qed.

(** Only authenticated peers reach the receiver loop: every peer it is given completed the
    Noise handshake under the very fingerprint its [Hello] claims, and speaks this protocol's
    version; others are reported as failures or dropped. *)
Theorem accepted_peers_are_authenticated ops peer :
  Peer peer ∈ taken (accept_run ops Acceptor_spawn) ->
  public_key_fingerprint (hello peer) = fingerprint peer
  /\ protocol_version (hello peer) = PROTOCOL_VERSION.
Proof.
  intros Hin. destruct (accept_run_ok ops) as [_ _ _ _ _ Hk].
  exact (proj1 (Forall_forall _ _) Hk _ Hin).
Qed.

(** A slow or silent peer blocks nobody: whatever happened before, as long as fewer than four
    connections are pending, a new connection that ends its handshake is handed to the receiver
    loop without anything happening to the pending ones. *)
Theorem silent_peers_block_nobody ops addr c event :
  let a := accept_run ops Acceptor_spawn in
  (Z.of_nat (size (tasks a)) < 4)%Z -> (handshake c addr).1 = Some event ->
  let i := next_task a in
  let a' := accept_run [Op_accept (Some addr); Op_shaken i c; Op_recv; Op_send i; Op_recv] a in
  last (taken a') = Some event /\ tasks a' = tasks a.
Proof.
  intros a Hlt Hc i a'. destruct (accept_run_ok ops) as [_ Hf He _ _ _]. fold a in Hf, He.
  assert (tasks a !! i = None) as Hn.
  { apply eq_None_not_Some. intros Hs. pose proof (Hf _ Hs). lia. }
  assert (a' = {| tasks := delete i (<[i := Waiting event]> (tasks a)); next_task := S i; events := [];
                  closed := closed a; taken := app (app (taken a) (events a)) [event] |}) as ->.
  2:{ cbn [taken tasks]. split; [by rewrite last_snoc|by rewrite delete_insert_id]. }
  subst a'. cbn [accept_run fold_left accept_step].
  assert (accept (Some addr) a
    = {| tasks := <[i := Shaking addr]> (tasks a); next_task := S i; events := events a;
         closed := closed a; taken := taken a |}) as ->.
  { unfold accept, MAX_PENDING_PEERS. by rewrite (proj2 (Z.ltb_lt _ _) Hlt). }
  assert (shaken i c {| tasks := <[i := Shaking addr]> (tasks a); next_task := S i; events := events a;
                        closed := closed a; taken := taken a |}
    = {| tasks := <[i := Waiting event]> (tasks a); next_task := S i; events := events a;
         closed := closed a; taken := taken a |}) as ->.
  { unfold shaken, with_tasks. cbn [tasks]. by rewrite lookup_insert_eq, Hc, insert_insert_eq. }
  unfold EVENT_CAPACITY in He. unfold send_event.
  destruct (events a) as [|e [|e' rest]]; [| |rewrite !len_cons in He; pose proof (len_nonneg rest); lia];
    cbn [recv tasks events]; rewrite lookup_insert_eq; cbn; by rewrite ?app_nil_r.
Qed.

Definition sample_hello : Hello :=
  {| protocol_version := PROTOCOL_VERSION; device_name := "Main PC"; hello_role := Role_Controller;
     public_key_fingerprint := "key"; capabilities := []; extensions := []; node_capabilities := [] |}.
Definition good_conversation : Conversation :=
  {| noise := Some (Ok "key"); first_frame := Some (Ok (Frame_Hello sample_hello)) |}.
Definition sample_peer : IncomingPeer := {| addr := 7; fingerprint := "key"; hello := sample_hello |}.
(** Three connections stay silent. *)
Definition silent_ops : list accept_op := [Op_accept (Some 1%Z); Op_accept (Some 2%Z); Op_accept (Some 3%Z)].

Lemma accepted_peers_are_authenticated_witness :
  public_key_fingerprint (hello sample_peer) = fingerprint sample_peer.
Proof.
  refine (proj1 (accepted_peers_are_authenticated
    [Op_accept (Some 7%Z); Op_shaken 0 good_conversation; Op_send 0; Op_recv] sample_peer _)).
  left.
Defined.

Lemma silent_peers_block_nobody_witness :
  last (taken (accept_run [Op_accept (Some 7%Z); Op_shaken 3 good_conversation; Op_recv; Op_send 3; Op_recv]
    (accept_run silent_ops Acceptor_spawn))) = Some (Peer sample_peer).
Proof.
  refine (proj1 (silent_peers_block_nobody silent_ops 7%Z good_conversation (Peer sample_peer) _ _));
    reflexivity.
Defined.
End Properties.
