(* ===== verification/Float.v ===== *)
(** * Floating point: the [f64] and [f32] operations of the sources

    A float is the Standard Library's [spec_float]; the operations are its IEEE 754 ones at
    binary64 (53 bits, exponents below 1024) and binary32 (24, 128), rounding to the nearest even.
    [f64::max] and [f64::min] ignore a NaN; where their arguments are the two zeros, either of
    which Rust may return, they return the first one.  The integers up to [2 ^ 53] are exact:
    sums, differences, comparisons and roundings of floats that hold such integers are those of
    the integers, which is what the coordinates of the program rest on. *)
From Stdlib Require Import SpecFloat.
From S2P Require Export Protocol.

(** ** Operations *)

(** [f64::from] of an [i32] or a [u32]. *)
Definition f64_of (z : Z) : float := binary_normalize 53 1024 z 0 false.
Definition f64_add : float -> float -> float := SFadd 53 1024.
Definition f64_sub : float -> float -> float := SFsub 53 1024.
Definition f64_mul : float -> float -> float := SFmul 53 1024.
Definition f64_div : float -> float -> float := SFdiv 53 1024.
Definition f64_lt : float -> float -> bool := SFltb.
Definition f64_le : float -> float -> bool := SFleb.
Definition f64_ge (x y : float) : bool := SFleb y x.
Definition f64_eq : float -> float -> bool := SFeqb.

Definition is_nan (x : float) : bool := match x with S754_nan => true | _ => false end.
(** [f64::max] and [f64::min]. *)
Definition f64_max (x y : float) : float :=
  if is_nan x then y else if is_nan y then x else if f64_lt x y then y else x.
Definition f64_min (x y : float) : float :=
  if is_nan x then y else if is_nan y then x else if f64_lt y x then y else x.

(** [x as f32] and [f64::from] of an [f32]. *)
Definition f64_to_f32 (x : float) : float :=
  match x with S754_finite s m e => binary_round 24 128 s m e | _ => x end.
Definition f32_to_f64 (x : float) : float :=
  match x with S754_finite s m e => binary_round 53 1024 s m e | _ => x end.

(** The magnitude [m * 2 ^ e], truncated, and rounded half away from zero. *)
Definition magnitude_floor (m : positive) (e : Z) : Z := Z.shiftl (Zpos m) e.
Definition magnitude_round (m : positive) (e : Z) : Z :=
  if 0 <=? e then Z.shiftl (Zpos m) e else Z.shiftr (Zpos m + 2 ^ (- e - 1)) (- e).

(** [f64::round]. *)
Definition f64_round (x : float) : float :=
  match x with
  | S754_finite s m e =>
      if 0 <=? e then x
      else match magnitude_round m e with
           | Z0 => S754_zero s
           | n => f64_of (if s then - n else n)
           end
  | _ => x
  end.

(** [f64::trunc]. *)
Definition f64_trunc (x : float) : float :=
  match x with
  | S754_finite s m e =>
      if 0 <=? e then x
      else match magnitude_floor m e with
           | Z0 => S754_zero s
           | n => f64_of (if s then - n else n)
           end
  | _ => x
  end.

Definition i32_min : Z := - 2 ^ 31.
Definition i32_max : Z := 2 ^ 31 - 1.
Definition in_i32 (z : Z) : Prop := i32_min <= z <= i32_max.
(** [x as i32]: towards zero, saturating, and zero for a NaN. *)
Definition f64_as_i32 (x : float) : Z :=
  match x with
  | S754_zero _ | S754_nan => 0
  | S754_infinity s => if s then i32_min else i32_max
  | S754_finite s m e =>
      Z.max i32_min (Z.min i32_max (if s then - magnitude_floor m e else magnitude_floor m e))
  end.
(** [i32] addition and subtraction with the wrap-around of an optimised build. *)
Definition i32_wrap (z : Z) : Z := (z + 2 ^ 31) mod 2 ^ 32 - 2 ^ 31.
Definition i32_add (a b : Z) : Z := i32_wrap (a + b).
Definition i32_sub (a b : Z) : Z := i32_wrap (a - b).
(** [i32::saturating_sub]. *)
Definition i32_saturating_sub (a b : Z) : Z := Z.max i32_min (Z.min i32_max (a - b)).

Lemma i32_wrap_small z : in_i32 z -> i32_wrap z = z.
Proof.
  unfold in_i32, i32_min, i32_max, i32_wrap. intros ?. rewrite Z.mod_small; lia.
Qed.

(** ** Order *)

Lemma SFcompare_antisym x y : SFcompare y x = option_map CompOpp (SFcompare x y).
Proof.
  destruct x as [[]|[]| |[] mx ex], y as [[]|[]| |[] my ey]; try reflexivity; simpl;
    rewrite (Z.compare_antisym ex ey); destruct (ex ?= ey); simpl; try reflexivity;
    change (Pos.compare_cont Eq ?a ?b) with (a ?= b)%positive;
    rewrite (Pos.compare_antisym mx my); destruct (mx ?= my)%positive; reflexivity.
Qed.

Lemma SFcompare_refl x : is_nan x = false -> SFcompare x x = Some Eq.
Proof.
  destruct x as [[]|[]| |[] m e]; try done; intros _; simpl; rewrite Z.compare_refl;
    change (Pos.compare_cont Eq ?a ?b) with (a ?= b)%positive;
    rewrite Pos.compare_refl; reflexivity.
Qed.

Lemma SFcompare_some x y :
  is_nan x = false -> is_nan y = false -> exists c, SFcompare x y = Some c.
Proof. destruct x, y; try done; simpl; eauto. Qed.

Lemma f64_le_refl x : is_nan x = false -> f64_le x x = true.
Proof. intros H. unfold f64_le, SFleb. by rewrite SFcompare_refl. Qed.

(** Two numbers are comparable: where one is not below the other, it is at least it. *)
Lemma f64_not_lt x y :
  is_nan x = false -> is_nan y = false -> f64_lt x y = false -> f64_le y x = true.
Proof.
  intros Hx Hy. destruct (SFcompare_some x y Hx Hy) as [c Hc].
  unfold f64_lt, f64_le, SFltb, SFleb. rewrite (SFcompare_antisym x y), Hc. by destruct c.
Qed.

Lemma f64_lt_le x y : f64_lt x y = true -> f64_le x y = true.
Proof. unfold f64_lt, f64_le, SFltb, SFleb. by destruct (SFcompare x y) as [[]|]. Qed.

(** [value.max(min).min(max)] lies between the bounds, whatever the value. *)
Lemma clamped_between value lo hi :
  is_nan lo = false -> is_nan hi = false -> f64_le lo hi = true ->
  let r := f64_min (f64_max value lo) hi in
  f64_le lo r = true /\ f64_le r hi = true.
Proof.
  intros Hlo Hhi Hle. cbv zeta.
  assert (is_nan (f64_max value lo) = false /\ f64_le lo (f64_max value lo) = true) as [Hn Hl].
  { unfold f64_max. rewrite Hlo. destruct (is_nan value) eqn:Hv; [auto using f64_le_refl|].
    destruct (f64_lt value lo) eqn:Hlt; auto using f64_le_refl, f64_not_lt. }
  unfold f64_min. rewrite Hn, Hhi.
  destruct (f64_lt hi (f64_max value lo)) eqn:Hlt; auto using f64_le_refl, f64_not_lt.
Qed.

(** ** Integers are exact *)

Section Exact.

Lemma digits2_log2 p : Zpos (digits2_pos p) = Z.log2 (Zpos p) + 1.
Proof.
  assert (forall q, digits2_pos q = Pos.size q) as E
    by (induction q; simpl; congruence).
  rewrite E. destruct p; simpl; lia.
Qed.

Lemma Zdigits2_log2 m : 0 < m -> Zdigits2 m = Z.log2 m + 1.
Proof. destruct m; try lia. intros _. apply digits2_log2. Qed.

Lemma pos_iter_xO m d : Zpos (Pos.iter xO m d) = Zpos m * 2 ^ Zpos d.
Proof.
  induction d as [|d IH] using Pos.peano_ind; [simpl; lia|].
  rewrite Pos.iter_succ, Pos2Z.inj_xO, IH, Pos2Z.inj_succ, Z.pow_succ_r by lia. lia.
Qed.

(** Shifting a mantissa that ends in as many zeros loses nothing. *)
Lemma shr_1_double z : 0 <= z ->
  shr_1 {| shr_m := 2 * z; shr_r := false; shr_s := false |} =
  {| shr_m := z; shr_r := false; shr_s := false |}.
Proof. destruct z; simpl; done || lia. Qed.

Lemma iter_shr_1 d : forall m, 0 <= m ->
  SpecFloat.iter_pos shr_1 d {| shr_m := m * 2 ^ Zpos d; shr_r := false; shr_s := false |} =
  {| shr_m := m; shr_r := false; shr_s := false |}.
Proof.
  assert (forall d, 0 <= 2 ^ Zpos d) as Hpow by (intros; apply Z.pow_nonneg; lia).
  induction d as [d IH|d IH|]; intros m Hm; cbn [SpecFloat.iter_pos];
    [specialize (Hpow d)..|].
  - replace (m * 2 ^ Zpos d~1) with (2 * (m * 2 ^ Zpos d * 2 ^ Zpos d)).
    + rewrite shr_1_double, !IH by nia. done.
    + replace (Zpos d~1) with (Zpos d + Zpos d + 1) by lia. rewrite !Z.pow_add_r by lia. lia.
  - replace (m * 2 ^ Zpos d~0) with (m * 2 ^ Zpos d * 2 ^ Zpos d).
    + rewrite !IH by nia. done.
    + replace (Zpos d~0) with (Zpos d + Zpos d) by lia. rewrite !Z.pow_add_r by lia. lia.
  - replace (m * 2 ^ 1) with (2 * m) by lia. by apply shr_1_double.
Qed.

(** The canonical shape of a mantissa of 53 bits: rounding leaves it. *)
Lemma round_canonical s m e :
  2 ^ 52 <= Zpos m < 2 ^ 53 -> -1074 <= e <= 971 ->
  binary_round_aux 53 1024 s (Zpos m) e loc_Exact = S754_finite s m e.
Proof.
  intros Hm He.
  assert (shr_fexp 53 1024 (Zpos m) e loc_Exact =
          ({| shr_m := Zpos m; shr_r := false; shr_s := false |}, e)) as E.
  { unfold shr_fexp. rewrite Zdigits2_log2 by lia.
    rewrite (Z.log2_unique (Zpos m) 52) by lia.
    unfold fexp, emin. replace (Z.max _ _ - e) with 0 by lia. reflexivity. }
  unfold binary_round_aux. rewrite E. cbn [loc_of_shr_record round_nearest_even shr_m].
  rewrite E. cbn [shr_m]. by rewrite (proj2 (Z.leb_le e _)) by lia.
Qed.

(** [n * 2 ^ k] at exponent [- k], for a positive [n] below [2 ^ 53], is normalised to the same
    float for every [k]. *)
Lemma round_integer s n k p :
  0 < n < 2 ^ 53 -> 0 <= k <= 1000 -> Zpos p = n * 2 ^ k ->
  binary_round 53 1024 s p (- k) =
  S754_finite s (Z.to_pos (n * 2 ^ (52 - Z.log2 n))) (Z.log2 n - 52).
Proof.
  intros Hn Hk Hp.
  destruct (Z.log2_spec n) as [Hlo Hhi]; [lia|].
  assert (0 <= Z.log2 n < 53) as Hl.
  { split; [apply Z.log2_nonneg|apply Z.log2_lt_pow2; lia]. }
  set (l := Z.log2 n) in *.
  assert (0 < n * 2 ^ (52 - l)) as Hpos by (assert (0 < 2 ^ (52 - l)) by lia; nia).
  assert (2 ^ 52 <= n * 2 ^ (52 - l) < 2 ^ 53) as Hm.
  { replace (2 ^ 52) with (2 ^ l * 2 ^ (52 - l)) by (rewrite <- Z.pow_add_r by lia; f_equal; lia).
    replace (2 ^ 53) with (2 ^ Z.succ l * 2 ^ (52 - l))
      by (rewrite <- Z.pow_add_r by lia; f_equal; lia).
    assert (0 < 2 ^ (52 - l)) by lia. nia. }
  assert (Z.log2 (Zpos p) = l + k) as Hlog.
  { rewrite Hp. unfold l. rewrite Z.log2_mul_pow2 by lia. lia. }
  unfold binary_round. rewrite digits2_log2, Hlog.
  replace (fexp 53 1024 (l + k + 1 + - k)) with (l - 52) by (unfold fexp, emin; lia).
  unfold shl_align. destruct (l - 52 - - k) as [|d|d] eqn:Hd.
  - replace p with (Z.to_pos (n * 2 ^ (52 - l)))
      by (apply Pos2Z.inj; rewrite Z2Pos.id, Hp by lia; do 2 f_equal; lia).
    replace (- k) with (l - 52) by lia. apply round_canonical; rewrite ?Z2Pos.id; lia.
  - assert (Zpos p = n * 2 ^ (52 - l) * 2 ^ Zpos d) as Hpd.
    { rewrite Hp, <- Z.mul_assoc, <- Z.pow_add_r by lia. do 2 f_equal. lia. }
    assert (shr_fexp 53 1024 (Zpos p) (- k) loc_Exact =
            ({| shr_m := n * 2 ^ (52 - l); shr_r := false; shr_s := false |}, l - 52)) as E.
    { unfold shr_fexp. rewrite Zdigits2_log2, Hlog by lia.
      replace (fexp 53 1024 (l + k + 1 + - k)) with (l - 52) by (unfold fexp, emin; lia).
      rewrite Hd, Hpd. cbn [shr_record_of_loc shr]. rewrite iter_shr_1 by lia. f_equal. lia. }
    pose proof (round_canonical s (Z.to_pos (n * 2 ^ (52 - l))) (l - 52)) as Hc.
    rewrite Z2Pos.id in Hc by lia. specialize (Hc Hm ltac:(lia)).
    unfold binary_round_aux in Hc |- *. rewrite E.
    cbn [loc_of_shr_record round_nearest_even shr_m].
    unfold shr_fexp at 1 in Hc. rewrite Zdigits2_log2 in Hc by lia.
    rewrite (Z.log2_unique (n * 2 ^ (52 - l)) 52) in Hc by lia.
    replace (fexp 53 1024 (52 + 1 + (l - 52)) - (l - 52)) with 0 in Hc by (unfold fexp, emin; lia).
    exact Hc.
  - rewrite <- (round_canonical s (Z.to_pos (n * 2 ^ (52 - l))) (l - 52)) by
      (rewrite ?Z2Pos.id; lia).
    f_equal. rewrite Z2Pos.id by lia. rewrite pos_iter_xO, Hp, <- Z.mul_assoc, <- Z.pow_add_r
      by lia. do 2 f_equal. lia.
Qed.

(** The integers that are exact. *)
Definition exact (n : Z) : Prop := Z.abs n < 2 ^ 53.

Lemma normalize_integer n k :
  exact n -> 0 <= k <= 1000 -> binary_normalize 53 1024 (n * 2 ^ k) (- k) false = f64_of n.
Proof.
  unfold exact. intros Hn Hk. assert (0 < 2 ^ k) by (apply Z.pow_pos_nonneg; lia).
  unfold f64_of. destruct n as [|p|p]; [done|..].
  - destruct (Zpos p * 2 ^ k) as [|q|q] eqn:Hq; [lia| |lia].
    cbn [binary_normalize]. rewrite (round_integer false (Zpos p) k q) by lia.
    symmetry. apply (round_integer false (Zpos p) 0 p); lia.
  - destruct (Zneg p * 2 ^ k) as [|q|q] eqn:Hq; [lia|lia|].
    cbn [binary_normalize]. rewrite (round_integer true (Zpos p) k q) by lia.
    symmetry. apply (round_integer true (Zpos p) 0 p); lia.
Qed.

Lemma f64_of_shape n : exact n -> n <> 0 ->
  f64_of n = S754_finite (n <? 0) (Z.to_pos (Z.abs n * 2 ^ (52 - Z.log2 (Z.abs n))))
               (Z.log2 (Z.abs n) - 52).
Proof.
  unfold exact. intros Hn Hz. destruct n as [|p|p]; [done|..]; cbn [f64_of binary_normalize];
    unfold f64_of; cbn [binary_normalize Z.abs].
  - apply (round_integer false (Zpos p) 0 p); lia.
  - apply (round_integer true (Zpos p) 0 p); lia.
Qed.

(** What the float of an integer is made of. *)
Lemma f64_of_inv n : exact n -> n <> 0 ->
  exists m e, f64_of n = S754_finite (n <? 0) m e /\ -52 <= e <= 0 /\
    Zpos m = Z.abs n * 2 ^ (- e) /\ 2 ^ 52 <= Zpos m < 2 ^ 53.
Proof.
  intros Hn Hz. rewrite f64_of_shape by done. unfold exact in Hn.
  set (a := Z.abs n) in *. assert (0 < a < 2 ^ 53) by lia.
  destruct (Z.log2_spec a) as [Hlo Hhi]; [lia|].
  assert (0 <= Z.log2 a < 53) by (split; [apply Z.log2_nonneg|apply Z.log2_lt_pow2; lia]).
  set (l := Z.log2 a) in *.
  assert (0 < 2 ^ (52 - l)) by lia.
  eexists _, _. split_and!; [done|lia..| | |]; rewrite Z2Pos.id by nia.
  - do 2 f_equal. lia.
  - replace (2 ^ 52) with (2 ^ l * 2 ^ (52 - l)) by (rewrite <- Z.pow_add_r by lia; f_equal; lia).
    nia.
  - replace (2 ^ 53) with (2 ^ Z.succ l * 2 ^ (52 - l))
      by (rewrite <- Z.pow_add_r by lia; f_equal; lia). nia.
Qed.

Lemma f64_of_not_nan n : exact n -> is_nan (f64_of n) = false.
Proof.
  intros Hn. destruct (decide (n = 0)) as [->|Hz]; [done|]. by rewrite f64_of_shape.
Qed.

Lemma shl_align_down m e e' :
  e' <= e -> Zpos (fst (shl_align m e e')) = Zpos m * 2 ^ (e - e').
Proof.
  intros He. unfold shl_align. destruct (e' - e) as [|d|d] eqn:Hd; cbn [fst].
  - replace (e - e') with 0 by lia. lia.
  - lia.
  - rewrite pos_iter_xO. do 2 f_equal. lia.
Qed.

Lemma cond_Zopp_abs n : cond_Zopp (n <? 0) (Z.abs n) = n.
Proof. unfold cond_Zopp. destruct (Z.ltb_spec n 0); lia. Qed.

Lemma cond_Zopp_mul s a b : cond_Zopp s (a * b) = cond_Zopp s a * b.
Proof. destruct s; simpl; lia. Qed.

(** The aligned mantissa of an integer. *)
Lemma aligned n m e ez :
  Zpos m = Z.abs n * 2 ^ (- e) -> ez <= e <= 0 ->
  cond_Zopp (n <? 0) (Zpos (fst (shl_align m e ez))) = n * 2 ^ (- ez).
Proof.
  intros Hm He. rewrite shl_align_down, Hm, <- Z.mul_assoc, <- Z.pow_add_r by lia.
  rewrite cond_Zopp_mul, cond_Zopp_abs. do 2 f_equal. lia.
Qed.

Lemma f64_of_opp n : exact n -> f64_of (- n) = SFopp (f64_of n) \/ n = 0.
Proof.
  intros Hn. destruct (decide (n = 0)) as [->|Hz]; [by right|left].
  rewrite !f64_of_shape by (unfold exact in *; lia). rewrite Z.abs_opp. simpl. f_equal.
  destruct (Z.ltb_spec n 0), (Z.ltb_spec (- n) 0); simpl; lia || done.
Qed.

Lemma f64_add_exact a b :
  exact a -> exact b -> exact (a + b) -> f64_add (f64_of a) (f64_of b) = f64_of (a + b).
Proof.
  intros Ha Hb Hab.
  destruct (decide (a = 0)) as [->|Hza].
  { destruct (decide (b = 0)) as [->|Hzb]; [done|].
    rewrite Z.add_0_l. by rewrite (f64_of_shape b). }
  destruct (decide (b = 0)) as [->|Hzb].
  { rewrite Z.add_0_r. by rewrite (f64_of_shape a). }
  destruct (f64_of_inv a) as (ma & ea & -> & Hea & Hma & _); [done..|].
  destruct (f64_of_inv b) as (mb & eb & -> & Heb & Hmb & _); [done..|].
  unfold f64_add, SFadd. rewrite (aligned a ma), (aligned b mb) by (done || lia).
  rewrite <- Z.mul_add_distr_r. pose proof (normalize_integer (a + b) (- Z.min ea eb)) as E.
  rewrite Z.opp_involutive in E. apply E; [done|lia].
Qed.

Lemma f64_sub_exact a b :
  exact a -> exact b -> exact (a - b) -> f64_sub (f64_of a) (f64_of b) = f64_of (a - b).
Proof.
  intros Ha Hb Hab.
  destruct (decide (b = 0)) as [->|Hzb].
  { rewrite Z.sub_0_r. destruct (decide (a = 0)) as [->|Hza]; [done|].
    by rewrite (f64_of_shape a). }
  destruct (decide (a = 0)) as [->|Hza].
  { destruct (f64_of_opp b) as [E|]; [done| |done].
    replace (0 - b) with (- b) by lia. rewrite E. by rewrite (f64_of_shape b). }
  destruct (f64_of_inv a) as (ma & ea & -> & Hea & Hma & _); [done..|].
  destruct (f64_of_inv b) as (mb & eb & -> & Heb & Hmb & _); [done..|].
  unfold f64_sub, SFsub. rewrite (aligned a ma), (aligned b mb) by (done || lia).
  rewrite <- Z.mul_sub_distr_r. pose proof (normalize_integer (a - b) (- Z.min ea eb)) as E.
  rewrite Z.opp_involutive in E. apply E; [done|lia].
Qed.

(** The magnitudes compare as the exponents, then the mantissas do. *)
Lemma compare_magnitudes a b ma mb ea eb :
  Zpos ma = a * 2 ^ (- ea) -> Zpos mb = b * 2 ^ (- eb) -> ea <= 0 -> eb <= 0 ->
  2 ^ 52 <= Zpos ma < 2 ^ 53 -> 2 ^ 52 <= Zpos mb < 2 ^ 53 ->
  match ea ?= eb with Lt => Lt | Gt => Gt | Eq => Pos.compare_cont Eq ma mb end = (a ?= b).
Proof.
  assert (forall a b ma mb ea eb, Zpos ma = a * 2 ^ (- ea) -> Zpos mb = b * 2 ^ (- eb) ->
    ea < eb <= 0 -> Zpos ma < 2 ^ 53 -> 2 ^ 52 <= Zpos mb -> a < b) as Hlt.
  { clear. intros a b ma mb ea eb Ha Hb He Hma Hmb.
    replace (- ea) with (- eb + 1 + (eb - ea - 1)) in Ha by lia.
    rewrite !Z.pow_add_r in Ha by lia.
    assert (0 < 2 ^ (eb - ea - 1)) by lia. assert (0 < 2 ^ (- eb)) by lia.
    assert (0 < a * 2 ^ (- eb)) by nia. nia. }
  intros Ha Hb Hea Heb Hma Hmb. destruct (Z.compare_spec ea eb) as [->|He|He].
  - change (Pos.compare_cont Eq ma mb) with (Zpos ma ?= Zpos mb). rewrite Ha, Hb.
    destruct (Z.compare_spec a b); [subst; apply Z.compare_refl|..];
      [apply Z.compare_lt_iff|apply Z.compare_gt_iff]; nia.
  - symmetry. apply Z.compare_lt_iff. eapply (Hlt a b ma mb ea eb); lia || done.
  - symmetry. apply Z.compare_gt_iff. eapply (Hlt b a mb ma eb ea); lia || done.
Qed.

Lemma SFcompare_exact a b :
  exact a -> exact b -> SFcompare (f64_of a) (f64_of b) = Some (a ?= b).
Proof.
  intros Ha Hb.
  destruct (decide (a = 0)) as [->|Hza].
  { destruct (decide (b = 0)) as [->|Hzb]; [done|]. rewrite (f64_of_shape b) by done. simpl.
    f_equal. destruct (Z.ltb_spec b 0), b; done || lia. }
  destruct (decide (b = 0)) as [->|Hzb].
  { rewrite (f64_of_shape a) by done. simpl. f_equal. destruct (Z.ltb_spec a 0), a; done || lia. }
  destruct (f64_of_inv a) as (ma & ea & -> & Hea & Hma & Hra); [done..|].
  destruct (f64_of_inv b) as (mb & eb & -> & Heb & Hmb & Hrb); [done..|].
  pose proof (compare_magnitudes (Z.abs a) (Z.abs b) ma mb ea eb Hma Hmb
                ltac:(lia) ltac:(lia) Hra Hrb) as E.
  cbn [SFcompare]. f_equal.
  destruct (Z.ltb_spec a 0), (Z.ltb_spec b 0).
  - transitivity (CompOpp (Z.abs a ?= Z.abs b)).
    + rewrite <- E. by destruct (ea ?= eb).
    + rewrite !Z.abs_neq, <- Z.compare_antisym, Z.compare_opp by lia. done.
  - symmetry. apply Z.compare_lt_iff. lia.
  - symmetry. apply Z.compare_gt_iff. lia.
  - rewrite E. rewrite !Z.abs_eq by lia. done.
Qed.

Lemma f64_lt_exact a b : exact a -> exact b -> f64_lt (f64_of a) (f64_of b) = (a <? b).
Proof.
  intros. unfold f64_lt, SFltb, Z.ltb. rewrite SFcompare_exact by done. by destruct (a ?= b).
Qed.

Lemma f64_le_exact a b : exact a -> exact b -> f64_le (f64_of a) (f64_of b) = (a <=? b).
Proof.
  intros. unfold f64_le, SFleb, Z.leb. rewrite SFcompare_exact by done. by destruct (a ?= b).
Qed.

Lemma f64_ge_exact a b : exact a -> exact b -> f64_ge (f64_of a) (f64_of b) = (b <=? a).
Proof. intros. by apply f64_le_exact. Qed.

Lemma f64_max_exact a b :
  exact a -> exact b -> f64_max (f64_of a) (f64_of b) = f64_of (Z.max a b).
Proof.
  intros Ha Hb. unfold f64_max. rewrite !f64_of_not_nan, f64_lt_exact by done.
  destruct (Z.ltb_spec a b); f_equal; lia.
Qed.

Lemma f64_min_exact a b :
  exact a -> exact b -> f64_min (f64_of a) (f64_of b) = f64_of (Z.min a b).
Proof.
  intros Ha Hb. unfold f64_min. rewrite !f64_of_not_nan, f64_lt_exact by done.
  destruct (Z.ltb_spec b a); f_equal; lia.
Qed.

(** An integer rounds to itself, and converts back to the [i32] it was. *)
Lemma f64_round_exact n : exact n -> f64_round (f64_of n) = f64_of n.
Proof.
  intros Hn. destruct (decide (n = 0)) as [->|Hz]; [done|].
  destruct (f64_of_inv n) as (m & e & E & He & Hm & _); [done..|]. rewrite E at 1.
  unfold f64_round. destruct (Z.leb_spec 0 e); [by rewrite E|].
  assert (magnitude_round m e = Z.abs n) as ->.
  { unfold magnitude_round. rewrite (proj2 (Z.leb_gt 0 e)) by lia.
    rewrite Z.shiftr_div_pow2, Hm by lia.
    assert (0 < 2 ^ (- e - 1) < 2 ^ (- e)).
    { split; [lia|apply Z.pow_lt_mono_r; lia]. }
    rewrite Z.add_comm, Z.div_add by lia. rewrite Z.div_small; lia. }
  destruct (Z.abs n) eqn:Habs; [lia| |lia]. rewrite <- Habs. f_equal.
  destruct (Z.ltb_spec n 0); lia.
Qed.

Lemma magnitude_floor_exact n m e : e <= 0 -> Zpos m = Z.abs n * 2 ^ (- e) -> magnitude_floor m e = Z.abs n.
Proof.
  intros He Hm. unfold magnitude_floor. replace e with (- - e) by lia.
  rewrite Z.shiftl_opp_r, Z.shiftr_div_pow2, Hm, Z.div_mul; lia.
Qed.

Lemma f64_as_i32_exact n : in_i32 n -> f64_as_i32 (f64_of n) = n.
Proof.
  unfold in_i32. intros Hn.
  assert (exact n) as He by (unfold exact, i32_min, i32_max in *; lia).
  destruct (decide (n = 0)) as [->|Hz]; [done|].
  destruct (f64_of_inv n) as (m & e & -> & Hle & Hm & _); [done..|].
  cbn [f64_as_i32]. rewrite (magnitude_floor_exact n) by (done || lia).
  destruct (Z.ltb_spec n 0); lia.
Qed.
Lemma f64_trunc_exact n : exact n -> f64_trunc (f64_of n) = f64_of n.
Proof.
  intros Hn. destruct (decide (n = 0)) as [->|Hz]; [done|].
  destruct (f64_of_inv n) as (m & e & E & He & Hm & _); [done..|]. rewrite E at 1.
  unfold f64_trunc. destruct (Z.leb_spec 0 e); [by rewrite E|].
  rewrite (magnitude_floor_exact n) by (done || lia).
  destruct (Z.abs n) eqn:Habs; [lia| |lia]. rewrite <- Habs. f_equal.
  destruct (Z.ltb_spec n 0); lia.
Qed.

End Exact.

Lemma exact_i32 z : in_i32 z -> exact z.
Proof. unfold exact, in_i32, i32_min, i32_max. lia. Qed.
Lemma exact_u32 z : in_u32 z -> exact z.
Proof. unfold exact, in_range, u32_max. lia. Qed.

(** The operations on floats that hold integers, as rewriting rules. *)
Create Rewrite HintDb f64.
#[global] Hint Rewrite f64_add_exact f64_sub_exact f64_le_exact f64_ge_exact f64_lt_exact
  f64_max_exact f64_min_exact f64_round_exact f64_as_i32_exact
  using (first [done | unfold exact, in_i32, in_range, i32_min, i32_max, u32_max in *; lia])
  : f64.

(** ** Rounding does not cross a representable bound *)

Lemma shr_1_spec mrs : 0 <= shr_m mrs ->
  shr_m (shr_1 mrs) = shr_m mrs / 2 /\
  (shr_m mrs mod 2 = 0 -> loc_of_shr_record mrs = loc_Exact ->
   loc_of_shr_record (shr_1 mrs) = loc_Exact).
Proof.
  destruct mrs as [[|[p|p|]|p] r s]; cbn [shr_m]; try lia; intros _; cbn [shr_1 shr_m];
    (split; [Z.to_euclidean_division_equations; lia|]); intros Hmod Hl;
    destruct r, s; try done; Z.to_euclidean_division_equations; lia.
Qed.

Lemma iter_shr_1_spec d : forall mrs, 0 <= shr_m mrs ->
  let mrs' := SpecFloat.iter_pos shr_1 d mrs in
  shr_m mrs' = shr_m mrs / 2 ^ Zpos d /\
  (shr_m mrs mod 2 ^ Zpos d = 0 -> loc_of_shr_record mrs = loc_Exact ->
   loc_of_shr_record mrs' = loc_Exact).
Proof.
  cbv zeta.
  assert (forall d mrs, SpecFloat.iter_pos shr_1 d mrs = Pos.iter shr_1 mrs d) as E.
  { clear. intros d. induction d as [d IH|d IH|]; intros mrs; cbn [SpecFloat.iter_pos Pos.iter];
      rewrite ?IH; try done. by rewrite <- !Pos.iter_swap. }
  intros mrs Hm. rewrite !E. clear E. revert mrs Hm.
  induction d as [|d IH] using Pos.peano_ind; intros mrs Hm.
  - apply (shr_1_spec mrs Hm).
  - destruct (IH mrs Hm) as [Em Hl]. rewrite Pos.iter_succ.
    assert (0 < 2 ^ Zpos d) as Hp by lia.
    destruct (shr_1_spec (Pos.iter shr_1 mrs d)) as [Em' Hl'].
    { rewrite Em. by apply Z.div_pos. }
    rewrite Pos2Z.inj_succ, Z.pow_succ_r, (Z.mul_comm 2) by lia. split.
    + rewrite Em', Em. by rewrite Z.div_div by lia.
    + intros Hmod Hex. rewrite Z.rem_mul_r in Hmod by lia.
      pose proof (Z.mod_pos_bound (shr_m mrs) (2 ^ Zpos d) Hp).
      pose proof (Z.mod_pos_bound (shr_m mrs / 2 ^ Zpos d) 2 ltac:(lia)).
      apply Hl'; [rewrite Em; nia|apply Hl; [nia|done]].
Qed.

Section RoundBound.
Variables prec emax : Z.

(** The magnitude [(m + a fraction) * 2 ^ e], the fraction zero when [exactly], is at most
    [bm * 2 ^ be]. *)
Definition below (m e : Z) (exactly : Prop) (bm be : Z) : Prop :=
  0 <= m /\ e <= be /\ m <= bm * 2 ^ (be - e) /\ (m = bm * 2 ^ (be - e) -> exactly).

(** A bound in canonical form. *)
Definition canonical (bm be : Z) : Prop :=
  0 < bm /\ be = fexp prec emax (Z.log2 bm + 1 + be) /\ be <= emax - prec.

Lemma fexp_mono a b : a <= b -> fexp prec emax a <= fexp prec emax b.
Proof. unfold fexp. lia. Qed.

(** Shifting to the format's exponent keeps a magnitude below its bound. *)
Lemma shr_fexp_below m e l bm be :
  canonical bm be -> below m e (l = loc_Exact) bm be ->
  let '(mrs, e') := shr_fexp prec emax m e l in
  below (shr_m mrs) e' (loc_of_shr_record mrs = loc_Exact) bm be.
Proof.
  intros (Hbm & Hbe & _) (Hm & He & Hle & Hex). unfold shr_fexp.
  assert (shr_m (shr_record_of_loc m l) = m) as Em by (by destruct l as [|[]]).
  assert (loc_of_shr_record (shr_record_of_loc m l) = l) as El by (by destruct l as [|[]]).
  destruct (fexp prec emax (Zdigits2 m + e) - e) as [|d|d] eqn:Hd; cbn [shr];
    try (rewrite Em, El; by split_and!).
  destruct (iter_shr_1_spec d (shr_record_of_loc m l)) as [Hq Hloc]; [by rewrite Em|].
  rewrite Em, El in *. rewrite Hq.
  assert (0 < 2 ^ Zpos d) as Hp by lia.
  assert (e + Zpos d <= be) as Hed.
  { replace (e + Zpos d) with (fexp prec emax (Zdigits2 m + e)) by lia.
    rewrite Hbe. apply fexp_mono. destruct (decide (m = 0)) as [->|].
    - simpl. pose proof (Z.log2_nonneg bm). lia.
    - rewrite Zdigits2_log2 by lia. pose proof (Z.log2_le_mono _ _ Hle) as Hmono.
      rewrite Z.log2_mul_pow2 in Hmono by lia. lia. }
  assert (bm * 2 ^ (be - e) = bm * 2 ^ (be - (e + Zpos d)) * 2 ^ Zpos d) as Eb.
  { rewrite <- Z.mul_assoc, <- Z.pow_add_r by lia. do 2 f_equal. lia. }
  split_and!; [by apply Z.div_pos|done| |].
  - apply Z.div_le_upper_bound; [lia|]. lia.
  - intros Heq. pose proof (Z.div_mod m (2 ^ Zpos d) ltac:(lia)) as Hdm.
    pose proof (Z.mod_pos_bound m (2 ^ Zpos d) Hp).
    apply Hloc; [nia|apply Hex; nia].
Qed.

Lemma round_nearest_below m e l bm be :
  below m e (l = loc_Exact) bm be -> below (round_nearest_even m l) e True bm be.
Proof.
  intros (Hm & He & Hle & Hex).
  assert (l <> loc_Exact -> m + 1 <= bm * 2 ^ (be - e)) as Hlt.
  { intros Hne. assert (m <> bm * 2 ^ (be - e)) by (intros E; by apply Hne, Hex). lia. }
  unfold round_nearest_even. destruct l as [|[]]; [by split_and!|..];
    try (specialize (Hlt ltac:(done))); try destruct (Z.even m); split_and!; lia || done.
Qed.

(** Rounding a magnitude that is at most a bound of the format gives a number that is. *)
Lemma round_below m e l bm be :
  canonical bm be -> below m e (l = loc_Exact) bm be ->
  match binary_round_aux prec emax false m e l with
  | S754_zero s => s = false
  | S754_finite s m' e' => s = false /\ below (Zpos m') e' True bm be
  | _ => False
  end.
Proof.
  intros Hc Hb. pose proof (shr_fexp_below m e l bm be Hc Hb) as H1.
  unfold binary_round_aux. destruct (shr_fexp prec emax m e l) as [mrs e1].
  apply round_nearest_below in H1.
  set (r := round_nearest_even _ _) in *.
  pose proof (shr_fexp_below r e1 loc_Exact bm be Hc) as H2.
  destruct (shr_fexp prec emax r e1 loc_Exact) as [mrs2 e2].
  destruct H2 as (Hm & He & Hle & _); [by destruct H1 as (? & ? & ? & ?)|].
  destruct Hc as (_ & _ & Hbe).
  destruct (shr_m mrs2) as [|p|p]; [done| |lia].
  rewrite (proj2 (Z.leb_le e2 _)) by lia. by split_and!.
Qed.

(** [m * 2 ^ e] is at most [bm * 2 ^ be], compared at a common exponent. *)
Definition value_le (m e bm be : Z) : Prop :=
  exists z, z <= e /\ z <= be /\ m * 2 ^ (e - z) <= bm * 2 ^ (be - z).

Lemma value_le_at m e bm be z :
  value_le m e bm be -> z <= e -> z <= be -> m * 2 ^ (e - z) <= bm * 2 ^ (be - z).
Proof.
  intros (y & Hye & Hyb & Hle) Hze Hzb. destruct (Z.le_ge_cases z y).
  - replace (e - z) with (e - y + (y - z)) by lia. replace (be - z) with (be - y + (y - z)) by lia.
    rewrite !Z.pow_add_r by lia. assert (0 < 2 ^ (y - z)) by lia. nia.
  - replace (e - y) with (e - z + (z - y)) in Hle by lia.
    replace (be - y) with (be - z + (z - y)) in Hle by lia.
    rewrite !Z.pow_add_r in Hle by lia. assert (0 < 2 ^ (z - y)) by lia. nia.
Qed.

(** A number between zero and the bound. *)
Definition between_zero_and (bm be : Z) (x : float) : Prop :=
  match x with
  | S754_zero s => s = false
  | S754_finite s m e => s = false /\ below (Zpos m) e True bm be
  | _ => False
  end.

Lemma binary_round_below m e bm be :
  canonical bm be -> value_le (Zpos m) e bm be ->
  between_zero_and bm be (binary_round prec emax false m e).
Proof.
  intros Hc Hv. assert (fexp prec emax (Zpos (digits2_pos m) + e) <= be) as Hf.
  { destruct Hc as (Hbm & Hbe & _), Hv as (z & Hze & Hzb & Hle). rewrite Hbe.
    apply fexp_mono. rewrite digits2_log2.
    pose proof (Z.log2_le_mono _ _ Hle) as Hmono. rewrite !Z.log2_mul_pow2 in Hmono by lia. lia. }
  unfold binary_round, shl_align.
  destruct (fexp prec emax (Zpos (digits2_pos m) + e) - e) as [|d|d] eqn:Hd;
    apply round_below; try done.
  1,2: pose proof (value_le_at _ _ _ _ e Hv ltac:(lia) ltac:(lia)) as Hle;
    rewrite Z.sub_diag in Hle; split_and!; lia || done.
  pose proof (value_le_at _ _ _ _ (e + Zneg d) Hv ltac:(lia) ltac:(lia)) as Hle.
  replace (fexp prec emax (Zpos (digits2_pos m) + e)) with (e + Zneg d) in * by lia.
  replace (e - (e + Zneg d)) with (Zpos d) in Hle by lia.
  rewrite pos_iter_xO. assert (0 < 2 ^ Zpos d) by lia. split_and!; nia || done.
Qed.

End RoundBound.

Lemma between_le bm be x p :
  between_zero_and bm be x -> Zpos p = bm ->
  f64_le (S754_zero false) x = true /\ f64_le x (S754_finite false p be) = true.
Proof.
  intros Hx <-. destruct x as [s| | |s m e]; try done.
  destruct Hx as (-> & _ & He & Hle & _). split; [done|].
  unfold f64_le, SFleb. cbn [SFcompare]. destruct (Z.compare_spec e be) as [->|Hlt|]; [|done|lia].
  rewrite Z.sub_diag in Hle. change (Pos.compare_cont Eq m p) with (Zpos m ?= Zpos p).
  destruct (Z.compare_spec (Zpos m) (Zpos p)); done || lia.
Qed.

(** *** Fractions: numbers between zero and one *)
Definition fraction (x : float) : Prop :=
  match x with
  | S754_zero s => s = false
  | S754_finite s m e => s = false /\ e <= 0 /\ Zpos m <= 2 ^ (- e)
  | _ => False
  end.

Lemma canonical_one prec emax :
  1 < prec -> 2 < emax -> canonical prec emax (2 ^ (prec - 1)) (1 - prec).
Proof.
  intros. unfold canonical, fexp, emin. rewrite Z.log2_pow2 by lia.
  split_and!; [apply Z.pow_pos_nonneg|..]; lia.
Qed.

Lemma fraction_between prec x :
  1 < prec -> between_zero_and (2 ^ (prec - 1)) (1 - prec) x -> fraction x.
Proof.
  intros Hp. destruct x as [| | |s m e]; try done. intros (-> & _ & He & Hle & _).
  rewrite <- Z.pow_add_r in Hle by lia. replace (prec - 1 + (1 - prec - e)) with (- e) in Hle by lia.
  split_and!; lia || done.
Qed.

Lemma fraction_round prec emax x :
  1 < prec -> 2 < emax -> fraction x ->
  fraction (match x with S754_finite s m e => binary_round prec emax s m e | _ => x end).
Proof.
  intros Hp He. destruct x as [| | |s m e]; try done. intros (-> & Hneg & Hle).
  apply (fraction_between prec); [done|]. apply binary_round_below; [by apply canonical_one|].
  exists (Z.min e (1 - prec)). split_and!; [lia..|].
  rewrite <- Z.pow_add_r by lia.
  replace (prec - 1 + (1 - prec - Z.min e (1 - prec))) with (- e + (e - Z.min e (1 - prec))) by lia.
  rewrite Z.pow_add_r by lia. assert (0 < 2 ^ (e - Z.min e (1 - prec))) by lia. nia.
Qed.

Lemma fraction_f32 x : fraction x -> fraction (f64_to_f32 x).
Proof. by apply fraction_round. Qed.
Lemma fraction_f64 x : fraction x -> fraction (f32_to_f64 x).
Proof. by apply fraction_round. Qed.

Lemma canonical_f64_of n m e :
  exact n -> f64_of n = S754_finite false m e -> canonical 53 1024 (Zpos m) e.
Proof.
  intros Hn E. assert (n <> 0) as Hz by (intros ->; discriminate).
  destruct (f64_of_inv n) as (m' & e' & E' & He & _ & Hm); [done..|].
  rewrite E in E'. injection E' as _ -> ->. unfold canonical, fexp, emin.
  rewrite (Z.log2_unique (Zpos m') 52) by lia. lia.
Qed.

(** A quotient of integers in order is a fraction. *)
Lemma fraction_div c n :
  0 <= c <= n -> 0 < n -> exact n -> fraction (f64_div (f64_of c) (f64_of n)).
Proof.
  intros Hc Hn Hex.
  destruct (f64_of_inv n) as (m2 & e2 & E2 & He2 & Hm2 & Hr2); [done|lia|].
  destruct (decide (c = 0)) as [->|Hz].
  { rewrite E2. by rewrite (proj2 (Z.ltb_ge n 0)) by lia. }
  destruct (f64_of_inv c) as (m1 & e1 & E1 & He1 & Hm1 & Hr1);
    [unfold exact in *; lia|done|].
  rewrite E1, E2, (proj2 (Z.ltb_ge n 0)), (proj2 (Z.ltb_ge c 0)) by lia.
  rewrite !Z.abs_eq in * by lia.
  unfold f64_div, SFdiv, SFdiv_core_binary. cbn [xorb].
  rewrite !Zdigits2_log2, (Z.log2_unique (Zpos m1) 52), (Z.log2_unique (Zpos m2) 52) by lia.
  (* the smaller number has the smaller exponent *)
  assert (e1 <= e2) as Hee.
  { destruct (Z.le_gt_cases e1 e2) as [|Hgt]; [done|exfalso].
    replace (- e2) with (- e1 + 1 + (e1 - e2 - 1)) in Hm2 by lia.
    rewrite !Z.pow_add_r in Hm2 by lia. assert (0 < 2 ^ (e1 - e2 - 1)) by lia.
    assert (0 < 2 ^ (- e1)) by lia. assert (c * 2 ^ (- e1) <= n * 2 ^ (- e1)) by nia. nia. }
  replace (Z.min (fexp 53 1024 (52 + 1 + e1 - (52 + 1 + e2))) (e1 - e2)) with (e1 - e2 - 53)
    by (unfold fexp, emin; lia).
  replace (e1 - e2 - (e1 - e2 - 53)) with 53 by lia.
  rewrite Z.shiftl_mul_pow2 by lia.
  pose proof (Z.div_eucl_eq (Zpos m1 * 2 ^ 53) (Zpos m2) ltac:(lia)) as Hdiv.
  pose proof (Z.mod_pos_bound (Zpos m1 * 2 ^ 53) (Zpos m2) ltac:(lia)) as Hmod.
  unfold Z.modulo in Hmod.
  destruct (Z.div_eucl (Zpos m1 * 2 ^ 53) (Zpos m2)) as [q r].
  assert (Zpos m1 <= Zpos m2 * 2 ^ (e2 - e1)) as Hle.
  { assert (Zpos m2 * 2 ^ (e2 - e1) = n * 2 ^ (- e1)) as ->.
    { rewrite Hm2, <- Z.mul_assoc, <- Z.pow_add_r by lia. do 2 f_equal. lia. }
    rewrite Hm1. assert (0 < 2 ^ (- e1)) by lia. nia. }
  apply (fraction_between 53); [lia|].
  apply round_below; [apply canonical_one; lia|]. change (2 ^ (53 - 1)) with (2 ^ 52).
  assert (2 ^ 52 * 2 ^ (1 - 53 - (e1 - e2 - 53)) = 2 ^ (e2 - e1) * 2 ^ 53) as Eb.
  { rewrite <- !Z.pow_add_r by lia. f_equal. lia. }
  unfold below. rewrite Eb. clear Eb. set (w := 2 ^ (e2 - e1)) in *.
  assert (Zpos m2 * q <= Zpos m2 * (w * 2 ^ 53)) as Hq by nia.
  split_and!; [nia|lia|nia|].
  - intros ->. assert (r = 0) as -> by nia. unfold new_location, new_location_even, new_location_odd.
    by destruct (Z.even (Zpos m2)).
Qed.

(** An integer times a fraction is between zero and the integer. *)
Lemma f64_mul_fraction n t :
  0 <= n -> exact n -> fraction t ->
  let r := f64_mul (f64_of n) t in
  f64_le (f64_of 0) r = true /\ f64_le r (f64_of n) = true.
Proof.
  intros Hn Hex Ht. cbv zeta. destruct (decide (n = 0)) as [->|Hz].
  { destruct t as [s| | |s m e]; done. }
  destruct (f64_of_inv n) as (m1 & e1 & E1 & He1 & Hm1 & Hr1); [done..|].
  rewrite (proj2 (Z.ltb_ge n 0)) in E1 by lia.
  pose proof (canonical_f64_of n m1 e1 Hex E1) as Hc. rewrite E1.
  change (f64_of 0) with (S754_zero false).
  apply (between_le (Zpos m1) e1); [|done].
  destruct t as [s| | |s m e]; try done. destruct Ht as (-> & He & Hle).
  apply round_below; [done|]. rewrite Pos2Z.inj_mul.
  unfold below. replace (e1 - (e1 + e)) with (- e) by lia.
  split_and!; [nia|lia|nia|done].
Qed.
