(* ===== verification/Geometry.v ===== *)
(** * Screen geometry: [edge-geometry]

    Crossing an edge, the point where the pointer enters the other screen and the one where it
    comes back, the motion of the remote pointer, in the sources' own floating point ([Float]).
    A [Size] holds two [u32]s, a [Rect] its corner as floats. *)
From Stdlib Require Import SpecFloat.
From S2P Require Export Float.

(** [edge-geometry 4-8 Size] *)
Record Size := { size_width : Z; size_height : Z }.
(** [edge-geometry 10-14 Point] *)
Record Point := { px : float; py : float }.
(** [edge-geometry 16-22 Rect] *)
Record Rect := { rect_x : float; rect_y : float; rect_width : Z; rect_height : Z }.

#[export] Instance Size_eq_dec : EqDecision Size.
Proof. solve_decision. Defined.
#[export] Instance Point_eq_dec : EqDecision Point.
Proof. solve_decision. Defined.
#[export] Instance Rect_eq_dec : EqDecision Rect.
Proof. solve_decision. Defined.

(** [f64::from(extent.saturating_sub(1))], the last pixel of an extent. *)
Definition last_pixel (extent : Z) : float := f64_of (saturating_sub extent 1).

(** [edge-geometry 25-27 Rect::right] *)
Definition rect_right (r : Rect) : float := f64_add (rect_x r) (last_pixel (rect_width r)).
(** [edge-geometry 29-31 Rect::bottom] *)
Definition rect_bottom (r : Rect) : float := f64_add (rect_y r) (last_pixel (rect_height r)).

(** [edge-geometry 34-39 EnterRemote] *)
Record EnterEdge := { enter_edge : Edge; enter_position : float; remote_start : Point }.
(** [edge-geometry 41-46 LeaveRemote] *)
Record LeaveEdge := { leave_edge : Edge; leave_position : float; local_restore : Point }.

(** [edge-geometry 48-50 clamp] *)
Definition clamp (value lo hi : float) : float := f64_min (f64_max value lo) hi.

(** [edge-geometry 202-209 normalized_axis] *)
Definition normalized_axis (pos : float) (extent : Z) : float :=
  if extent <=? 1 then S754_zero false
  else let max := f64_of (extent - 1) in
       f64_to_f32 (f64_div (clamp pos (f64_of 0) max) max).

(** [edge-geometry 52-64 enter_left_edge] *)
Definition enter_left_edge (local_cursor_y : float) (local remote : Size) : EnterEdge :=
  let normalized_position := normalized_axis local_cursor_y (size_height local) in
  let remote_y :=
    f64_mul (last_pixel (size_height remote)) (f32_to_f64 normalized_position) in
  {| enter_edge := Edge_Left;
     enter_position := normalized_position;
     remote_start :=
       {| px := f64_of (saturating_sub (size_width remote) 2);
          py := clamp remote_y (f64_of 0) (last_pixel (size_height remote)) |} |}.

(** [edge-geometry 66-78 leave_right_edge] *)
Definition leave_right_edge (remote_cursor_y : float) (local remote : Size) : LeaveEdge :=
  let normalized_position := normalized_axis remote_cursor_y (size_height remote) in
  let local_y := f64_mul (last_pixel (size_height local)) (f32_to_f64 normalized_position) in
  {| leave_edge := Edge_Right;
     leave_position := normalized_position;
     local_restore :=
       {| px := f64_of 1; py := clamp local_y (f64_of 0) (last_pixel (size_height local)) |} |}.

(** [edge-geometry 80-93 apply_remote_motion] *)
Definition apply_remote_motion (cursor : Point) (dx dy : float) (remote : Size) : Point :=
  {| px := clamp (f64_add (px cursor) dx) (f64_of 0) (last_pixel (size_width remote));
     py := clamp (f64_add (py cursor) dy) (f64_of 0) (last_pixel (size_height remote)) |}.

(** [edge-geometry 95-97 exits_right] *)
Definition exits_right (cursor : Point) (remote : Size) : bool :=
  f64_ge (px cursor) (last_pixel (size_width remote)).

(** [edge-geometry 99-106 point_is_at_edge] *)
Definition point_is_at_edge (edge : Edge) (point : Point) (bounds : Rect) : bool :=
  match edge with
  | Edge_Left => f64_le (px point) (rect_x bounds)
  | Edge_Right => f64_ge (px point) (rect_right bounds)
  | Edge_Top => f64_le (py point) (rect_y bounds)
  | Edge_Bottom => f64_ge (py point) (rect_bottom bounds)
  end.

(** [edge-geometry 108-127 edge_anchor] *)
Definition edge_anchor (edge : Edge) (point : Point) (bounds : Rect) (inset : float) : Point :=
  match edge with
  | Edge_Left => {| px := f64_add (rect_x bounds) inset;
                    py := clamp (py point) (rect_y bounds) (rect_bottom bounds) |}
  | Edge_Right => {| px := f64_sub (rect_right bounds) inset;
                     py := clamp (py point) (rect_y bounds) (rect_bottom bounds) |}
  | Edge_Top => {| px := clamp (px point) (rect_x bounds) (rect_right bounds);
                   py := f64_add (rect_y bounds) inset |}
  | Edge_Bottom => {| px := clamp (px point) (rect_x bounds) (rect_right bounds);
                      py := f64_sub (rect_bottom bounds) inset |}
  end.

(** [edge-geometry 129-134 normalized_perpendicular] *)
Definition normalized_perpendicular (edge : Edge) (point : Point) (bounds : Rect) : float :=
  match edge with
  | Edge_Left | Edge_Right =>
      normalized_axis (f64_sub (py point) (rect_y bounds)) (rect_height bounds)
  | Edge_Top | Edge_Bottom =>
      normalized_axis (f64_sub (px point) (rect_x bounds)) (rect_width bounds)
  end.

(** [edge-geometry 211-214 bounded_inset] *)
Definition bounded_inset (inset : float) (extent : Z) : float :=
  clamp inset (f64_of 1) (last_pixel extent).

(** [edge-geometry 136-153 remote_entry_point] *)
Definition remote_entry_point (edge : Edge) (normalized : float) (remote : Size)
  (inset : float) : Point :=
  let x_inset := bounded_inset inset (size_width remote) in
  let y_inset := bounded_inset inset (size_height remote) in
  let x := f64_mul (last_pixel (size_width remote)) (f32_to_f64 normalized) in
  let y := f64_mul (last_pixel (size_height remote)) (f32_to_f64 normalized) in
  match edge with
  | Edge_Left => {| px := f64_sub (last_pixel (size_width remote)) x_inset; py := y |}
  | Edge_Right => {| px := x_inset; py := y |}
  | Edge_Top => {| px := x; py := f64_sub (last_pixel (size_height remote)) y_inset |}
  | Edge_Bottom => {| px := x; py := y_inset |}
  end.

(** [edge-geometry 155-186 local_restore_point] *)
Definition local_restore_point (edge : Edge) (normalized : float) (bounds : Rect)
  (inset : float) : Point :=
  let x := f64_round
    (clamp (f64_add (rect_x bounds)
              (f64_mul (last_pixel (rect_width bounds)) (f32_to_f64 normalized)))
       (rect_x bounds) (rect_right bounds)) in
  let y := f64_round
    (clamp (f64_add (rect_y bounds)
              (f64_mul (last_pixel (rect_height bounds)) (f32_to_f64 normalized)))
       (rect_y bounds) (rect_bottom bounds)) in
  match edge with
  | Edge_Left => {| px := f64_add (rect_x bounds) inset; py := y |}
  | Edge_Right => {| px := f64_sub (rect_right bounds) inset; py := y |}
  | Edge_Top => {| px := x; py := f64_add (rect_y bounds) inset |}
  | Edge_Bottom => {| px := x; py := f64_sub (rect_bottom bounds) inset |}
  end.

(** [edge-geometry 188-200 remote_return_edge_reached] *)
Definition remote_return_edge_reached (controller_edge : Edge) (cursor : Point) (remote : Size)
  (margin : float) : bool :=
  match controller_edge with
  | Edge_Left => f64_ge (px cursor) (f64_sub (last_pixel (size_width remote)) margin)
  | Edge_Right => f64_le (px cursor) margin
  | Edge_Top => f64_ge (py cursor) (f64_sub (last_pixel (size_height remote)) margin)
  | Edge_Bottom => f64_le (py cursor) margin
  end.

(** ** Properties *)

(** A pair of integers as a point, and an integer rectangle. *)
Definition int_point (x y : Z) : Point := {| px := f64_of x; py := f64_of y |}.
Definition int_rect (x y w h : Z) : Rect :=
  {| rect_x := f64_of x; rect_y := f64_of y; rect_width := w; rect_height := h |}.

(** A point on a screen: on or after its first pixel, on or before its last one. *)
Definition on_screen (p : Point) (s : Size) : Prop :=
  f64_le (f64_of 0) (px p) = true /\ f64_le (px p) (last_pixel (size_width s)) = true /\
  f64_le (f64_of 0) (py p) = true /\ f64_le (py p) (last_pixel (size_height s)) = true.

(** A size of [u32]s. *)
Definition size_ok (s : Size) : Prop := in_u32 (size_width s) /\ in_u32 (size_height s).

Ltac small := unfold exact, in_i32, in_range, i32_min, i32_max, u32_max, saturating_sub in *; lia.

Lemma last_pixel_exact n : in_u32 n -> exact (saturating_sub n 1).
Proof. intros. small. Qed.

Lemma clamp_exact v lo hi :
  exact v -> exact lo -> exact hi ->
  clamp (f64_of v) (f64_of lo) (f64_of hi) = f64_of (Z.min (Z.max v lo) hi).
Proof.
  intros. unfold clamp. rewrite f64_max_exact, f64_min_exact by (done || small). done.
Qed.

Lemma clamp_on_screen v n :
  in_u32 n ->
  f64_le (f64_of 0) (clamp v (f64_of 0) (last_pixel n)) = true /\
  f64_le (clamp v (f64_of 0) (last_pixel n)) (last_pixel n) = true.
Proof.
  intros Hn. unfold last_pixel. apply clamped_between.
  - done.
  - apply f64_of_not_nan. small.
  - rewrite f64_le_exact by small. small.
Qed.

(** Whatever the motion, a NaN or an infinity included, the remote pointer stays on the remote
    screen. *)
Theorem remote_motion_stays_on_screen cursor dx dy remote :
  size_ok remote -> on_screen (apply_remote_motion cursor dx dy remote) remote.
Proof.
  intros [Hw Hh]. unfold on_screen, apply_remote_motion. cbn [px py].
  destruct (clamp_on_screen (f64_add (px cursor) dx) _ Hw).
  destruct (clamp_on_screen (f64_add (py cursor) dy) _ Hh). done.
Qed.

Lemma remote_motion_stays_on_screen_witness :
  on_screen (apply_remote_motion (int_point 1919 1079) S754_nan (S754_infinity false)
               {| size_width := 1920; size_height := 1080 |})
    {| size_width := 1920; size_height := 1080 |}.
Proof. apply remote_motion_stays_on_screen. split; split; vm_compute; discriminate. Defined.

(** The position along an edge is a fraction of its length. *)
Lemma normalized_axis_fraction p n :
  exact p -> in_u32 n -> fraction (normalized_axis (f64_of p) n).
Proof.
  intros Hp Hn. unfold normalized_axis. destruct (Z.leb_spec n 1); [done|].
  rewrite clamp_exact by (done || small). apply fraction_f32, fraction_div; small.
Qed.

(** The coordinate a fraction of the way along a screen. *)
Lemma along_on_screen n t :
  in_u32 n -> fraction t ->
  f64_le (f64_of 0) (f64_mul (last_pixel n) (f32_to_f64 t)) = true /\
  f64_le (f64_mul (last_pixel n) (f32_to_f64 t)) (last_pixel n) = true.
Proof.
  intros Hn Ht. apply f64_mul_fraction; [small|by apply last_pixel_exact|by apply fraction_f64].
Qed.

(** An inset from an edge, kept on the screen. *)
Lemma bounded_inset_exact k n :
  exact k -> in_u32 n ->
  bounded_inset (f64_of k) n = f64_of (Z.min (Z.max k 1) (saturating_sub n 1)).
Proof. intros. unfold bounded_inset, last_pixel. by rewrite clamp_exact by (done || small). Qed.

Lemma inset_on_screen k n :
  exact k -> in_u32 n ->
  f64_le (f64_of 0) (bounded_inset (f64_of k) n) = true /\
  f64_le (bounded_inset (f64_of k) n) (last_pixel n) = true /\
  f64_le (f64_of 0) (f64_sub (last_pixel n) (bounded_inset (f64_of k) n)) = true /\
  f64_le (f64_sub (last_pixel n) (bounded_inset (f64_of k) n)) (last_pixel n) = true.
Proof.
  intros Hk Hn. rewrite bounded_inset_exact by done. unfold last_pixel.
  rewrite f64_sub_exact, !f64_le_exact by small. split_and!; apply Z.leb_le; small.
Qed.

(** The pointer enters the other screen on that screen, at the height it left: the local
    coordinates are integers. *)
Theorem pointer_enters_on_screen edge x y l t w h remote k :
  in_i32 x -> in_i32 y -> in_i32 l -> in_i32 t -> in_u32 w -> in_u32 h ->
  size_ok remote -> exact k ->
  on_screen
    (remote_entry_point edge (normalized_perpendicular edge (int_point x y) (int_rect l t w h))
       remote (f64_of k)) remote.
Proof.
  intros Hx Hy Hl Ht Hw Hh [Hrw Hrh] Hk.
  assert (fraction (normalized_perpendicular edge (int_point x y) (int_rect l t w h))) as Hf.
  { destruct edge; cbn [normalized_perpendicular int_point int_rect px py rect_x rect_y rect_width
      rect_height]; rewrite f64_sub_exact by small; apply normalized_axis_fraction; done || small. }
  unfold on_screen, remote_entry_point.
  pose proof (along_on_screen (size_width remote) _ Hrw Hf).
  pose proof (along_on_screen (size_height remote) _ Hrh Hf).
  pose proof (inset_on_screen k (size_width remote) Hk Hrw).
  pose proof (inset_on_screen k (size_height remote) Hk Hrh).
  destruct edge; cbn [px py]; intuition.
Qed.

Lemma pointer_enters_on_screen_witness :
  on_screen
    (remote_entry_point Edge_Left
       (normalized_perpendicular Edge_Left (int_point (-2560) 360) (int_rect (-2560) 0 2560 1440))
       {| size_width := 1920; size_height := 1080 |} (f64_of 32))
    {| size_width := 1920; size_height := 1080 |}.
Proof.
  apply pointer_enters_on_screen; repeat split; vm_compute; first [discriminate|done].
Defined.

(** The extent of a screen across an edge. *)
Definition across (edge : Edge) (s : Size) : Z :=
  match edge with Edge_Left | Edge_Right => size_width s | _ => size_height s end.

(** The pointer that has just entered with an inset of [k] is at the edge that returns it, margin
    [g], exactly where the screen is no wider than the margin, or the inset is within it: an
    entry does not bounce. *)
Theorem entry_clears_the_return_edge edge t remote k g :
  size_ok remote -> 1 <= k -> exact k -> 0 <= g -> exact g ->
  remote_return_edge_reached edge (remote_entry_point edge t remote (f64_of k)) remote
    (f64_of g) = (Z.min k (saturating_sub (across edge remote) 1) <=? g).
Proof.
  intros [Hw Hh] Hk Hek Hg Heg.
  assert (in_u32 (across edge remote)) as Ha by (by destruct edge).
  unfold remote_return_edge_reached, remote_entry_point.
  destruct edge; cbn [px py across] in *; rewrite bounded_inset_exact by done;
    unfold last_pixel, f64_ge; rewrite ?f64_sub_exact, f64_le_exact by small;
    rewrite Z.max_l by done; apply eq_bool_prop_intro; rewrite !Is_true_true, !Z.leb_le; lia.
Qed.

Lemma entry_clears_the_return_edge_witness :
  remote_return_edge_reached Edge_Top
    (remote_entry_point Edge_Top (S754_zero false) {| size_width := 1920; size_height := 1080 |}
       (f64_of 32)) {| size_width := 1920; size_height := 1080 |} (f64_of 12) = false.
Proof.
  refine (eq_trans (entry_clears_the_return_edge Edge_Top (S754_zero false)
    {| size_width := 1920; size_height := 1080 |} 32 12 _ _ _ _ _) _);
    [repeat split; vm_compute; discriminate|done..].
Defined.
