(* ===== verification/WindowsCapture.v ===== *)
(** * The Windows input capture: [edge-windows-input/src/lib.rs], [mod capture]

    The two low-level hooks and the raw input window share one [CaptureState]; each callback
    either passes its event on to Windows or swallows it and sends it to the peer.  A callback
    runs at one instant in an environment [Env]: the clock, the foreground window, the clip
    rectangle, the answers of Win32.  What the calls to Win32 change (the pointer, the system
    cursors, the hooks) is part of [Globals], next to the atomics. *)
From Stdlib Require Import SpecFloat.
From S2P Require Export Config Keymap Geometry.

(** ** Data *)

(** [POINT] and [RECT] of Win32: [i32] coordinates. *)
Record POINT := { pt_x : Z; pt_y : Z }.
#[export] Instance POINT_eq_dec : EqDecision POINT.
Proof. solve_decision. Defined.
Record RECT := { r_left : Z; r_top : Z; r_right : Z; r_bottom : Z }.

(** [edge-windows-input 44-49 CaptureConfig] *)
Record CaptureConfig := {
  cap_edge : Edge;
  remote_size : Size;
  game_compatibility : GameCompatibilityMode;
}.

(** [edge-windows-input 51-55 CapturedInput] *)
Inductive CapturedInput :=
| Captured_Input (event : InputEvent)
| Captured_Control (event : ControlEvent).

(** [edge-windows-input 2326-2332 LocalBounds] *)
Record LocalBounds := { left : Z; top : Z; width : Z; height : Z }.

(** The messages of a mouse hook, and of a keyboard hook. *)
Inductive MouseMessage :=
| WM_MOUSEMOVE
| WM_LBUTTONDOWN | WM_LBUTTONUP | WM_RBUTTONDOWN | WM_RBUTTONUP
| WM_MBUTTONDOWN | WM_MBUTTONUP | WM_XBUTTONDOWN | WM_XBUTTONUP
| WM_MOUSEWHEEL | WM_MOUSEHWHEEL | WM_mouse_other.
Inductive KeyMessage := WM_KEYDOWN | WM_KEYUP | WM_SYSKEYDOWN | WM_SYSKEYUP | WM_key_other.

(** The standard cursors that [hide_system_cursors] replaces, in its order. *)
Inductive SystemCursor :=
| OCR_NORMAL | OCR_IBEAM | OCR_WAIT | OCR_CROSS | OCR_UP | OCR_SIZEALL | OCR_SIZENESW
| OCR_SIZENS | OCR_SIZENWSE | OCR_SIZEWE | OCR_NO | OCR_HAND | OCR_APPSTARTING | OCR_HELP.

(** The arguments of the hooks: [MSLLHOOKSTRUCT] and [KBDLLHOOKSTRUCT]. *)
Record MouseHookEvent := {
  m_code : Z; m_message : MouseMessage; m_pt : POINT; mouseData : Z; m_flags : Z;
  m_extra_info : Z;
}.
Record KeyboardHookEvent := {
  k_code : Z; k_message : KeyMessage; vkCode : Z; scanCode : Z; k_flags : Z; k_extra_info : Z;
}.
(** What a hook returns: [CallNextHookEx], or [1]. *)
Inductive LRESULT := CallNext | Swallow.

(** What Win32 answers while a callback runs. *)
Record Env := {
  now : Instant;
  foreground : Z;                      (* GetForegroundWindow, 0 for none *)
  window_rect : option RECT;           (* GetWindowRect of it *)
  monitor_rect : option RECT;          (* MonitorFromWindow, GetMonitorInfoW *)
  clip_cursor : option RECT;           (* GetClipCursor *)
  metrics : LocalBounds;               (* GetSystemMetrics of the virtual screen *)
  receiver_open : bool;                (* the channel's receiver is alive *)
  mouse_hook_result : Z;               (* SetWindowsHookExW, 0 on failure *)
  keyboard_hook_result : Z;
  cursor_created : SystemCursor -> bool;
  cursor_replaced : SystemCursor -> bool;
  last_input_info : option Z;          (* GetLastInputInfo *)
  thread_spawned : bool;               (* thread::Builder::spawn succeeds *)
}.

(** ** Constants *)
Definition HC_ACTION : Z := 0.
Definition LLMHF_INJECTED : Z := 1.
Definition LLKHF_INJECTED : Z := 0x10.
(** [edge-windows-input 771-771 LLKHF_EXTENDED] *)
Definition LLKHF_EXTENDED : Z := 0x01.
(** [edge-windows-input 772-772 VK_CONTROL] *)
Definition VK_CONTROL : Z := 0x11.
(** [edge-windows-input 773-773 VK_MENU] *)
Definition VK_MENU : Z := 0x12.
(** [edge-windows-input 774-774 VK_LCONTROL] *)
Definition VK_LCONTROL : Z := 0xa2.
(** [edge-windows-input 775-775 VK_RCONTROL] *)
Definition VK_RCONTROL : Z := 0xa3.
(** [edge-windows-input 776-776 VK_LMENU] *)
Definition VK_LMENU : Z := 0xa4.
(** [edge-windows-input 777-777 VK_RMENU] *)
Definition VK_RMENU : Z := 0xa5.
(** [edge-windows-input 778-778 VK_PAUSE] *)
Definition VK_PAUSE : Z := 0x13.
(** [edge-windows-input 779-779 VK_ESCAPE] *)
Definition VK_ESCAPE : Z := 0x1b.
(** [edge-windows-input 780-780 VK_G] *)
Definition VK_G : Z := 0x47.
(** [edge-windows-input 781-781 XBUTTON1] *)
Definition XBUTTON1 : Z := 1.
(** [edge-windows-input 782-782 XBUTTON2] *)
Definition XBUTTON2 : Z := 2.
(** [edge-windows-input 783-783 WHEEL_DELTA] *)
Definition WHEEL_DELTA : float := f64_of 120.
(** [edge-windows-input 784-784 REMOTE_ENTRY_PADDING] *)
Definition REMOTE_ENTRY_PADDING : float := f64_of 32.
(** [edge-windows-input 785-785 REMOTE_RETURN_MARGIN] *)
Definition REMOTE_RETURN_MARGIN : float := f64_of 12.
(** [edge-windows-input 786-786 GAME_GUARD_CHECK_INTERVAL] *)
Definition GAME_GUARD_CHECK_INTERVAL : Duration := from_millis 250.
(** [edge-windows-input 787-787 RELEASE_REENTRY_COOLDOWN] *)
Definition RELEASE_REENTRY_COOLDOWN : Duration := from_millis 750.
(** [edge-windows-input 817-817 FULLSCREEN_TOLERANCE_PX] *)
Definition FULLSCREEN_TOLERANCE_PX : Z := 2.
(** [edge-windows-input/injection 7-8 EDGE_KVM_INJECTION_TAG] *)
Definition EDGE_KVM_INJECTION_TAG : Z := 0x45444b56.
(** [edge-windows-input/injection 10-13 is_edge_kvm_injected] *)
Definition is_edge_kvm_injected (extra_info : Z) : bool := extra_info =? EDGE_KVM_INJECTION_TAG.

(** ** The local screen *)

Definition point_of (p : POINT) : Point := int_point (pt_x p) (pt_y p).
(** A float point rounded to pixels. *)
Definition rounded (p : Point) : POINT :=
  {| pt_x := f64_as_i32 (f64_round (px p)); pt_y := f64_as_i32 (f64_round (py p)) |}.

(** [edge-windows-input 2346-2348 LocalBounds::right] *)
Definition bounds_right (b : LocalBounds) : Z := i32_add (left b) (i32_saturating_sub (width b) 1).
(** [edge-windows-input 2350-2352 LocalBounds::bottom] *)
Definition bounds_bottom (b : LocalBounds) : Z :=
  i32_add (top b) (i32_saturating_sub (height b) 1).
(** [edge-windows-input 2354-2359 LocalBounds::center] *)
Definition center (b : LocalBounds) : Point :=
  int_point (i32_add (left b) (Z.quot (width b) 2)) (i32_add (top b) (Z.quot (height b) 2)).
(** [edge-windows-input 2361-2368 LocalBounds::rect] *)
Definition rect (b : LocalBounds) : Rect :=
  int_rect (left b) (top b) (Z.max (width b) 1) (Z.max (height b) 1).
(** [edge-windows-input 2370-2384 LocalBounds::anchor_for] *)
Definition anchor_for (b : LocalBounds) (edge : Edge) (point : POINT) : POINT :=
  rounded (edge_anchor edge (point_of point) (rect b) (f64_of 2)).
(** [edge-windows-input 2386-2392 LocalBounds::restore_for] *)
Definition restore_for (b : LocalBounds) (edge : Edge) (normalized : float) : POINT :=
  rounded (local_restore_point edge normalized (rect b) (f64_of 3)).

(** [edge-windows-input 2448-2453 rect_covers] *)
Definition rect_covers (r bounds : RECT) (tolerance : Z) : bool :=
  (r_left r <=? i32_add (r_left bounds) tolerance)
  && (r_top r <=? i32_add (r_top bounds) tolerance)
  && (i32_sub (r_right bounds) tolerance <=? r_right r)
  && (i32_sub (r_bottom bounds) tolerance <=? r_bottom r).
(** [edge-windows-input 2395-2424 foreground_is_fullscreen] *)
Definition foreground_is_fullscreen (e : Env) : bool :=
  if foreground e =? 0 then false
  else match window_rect e, monitor_rect e with
       | Some window, Some monitor => rect_covers window monitor FULLSCREEN_TOLERANCE_PX
       | _, _ => false
       end.
(** [edge-windows-input 2430-2446 cursor_is_confined] *)
Definition cursor_is_confined (e : Env) : bool :=
  match clip_cursor e with
  | None => false
  | Some clip =>
      let m := metrics e in
      negb (rect_covers clip
              {| r_left := left m; r_top := top m; r_right := i32_add (left m) (width m);
                 r_bottom := i32_add (top m) (height m) |} FULLSCREEN_TOLERANCE_PX)
  end.

(** ** The game guard *)

(** [edge-windows-input 2164-2169 GameGuard] *)
Record GameGuard := {
  last_check : Instant; blocks_capture : bool; fullscreen : bool; cursor_confined : bool;
}.
(** [edge-windows-input 2172-2179 GameGuard::default] *)
Definition GameGuard_default (e : Env) : GameGuard :=
  {| last_check := now e - GAME_GUARD_CHECK_INTERVAL; blocks_capture := false;
     fullscreen := false; cursor_confined := false |}.
(** [edge-windows-input 2206-2216 game_guard_should_block] *)
Definition game_guard_should_block (mode : GameCompatibilityMode) (full confined : bool) : bool :=
  match mode with
  | Compatible => full || confined
  | Borderless => confined
  | AlwaysEnabled => false
  end.
(** [edge-windows-input 2193-2203 GameGuard::refresh] *)
Definition guard_refresh (e : Env) (mode : GameCompatibilityMode) (g : GameGuard) : GameGuard :=
  if duration_since (now e) (last_check g) <? GAME_GUARD_CHECK_INTERVAL then g
  else let full := foreground_is_fullscreen e in
       let confined := cursor_is_confined e in
       {| last_check := now e; blocks_capture := game_guard_should_block mode full confined;
          fullscreen := full; cursor_confined := confined |}.
(** [edge-windows-input 2183-2186 GameGuard::blocks_capture] *)
Definition guard_blocks_capture (e : Env) (mode : GameCompatibilityMode) (g : GameGuard) :
  GameGuard * bool :=
  let g := guard_refresh e mode g in (g, blocks_capture g).
(** [edge-windows-input 2188-2191 GameGuard::virtual_edge_required] *)
Definition guard_virtual_edge_required (e : Env) (mode : GameCompatibilityMode) (g : GameGuard) :
  GameGuard * bool :=
  let g := guard_refresh e mode g in
  (g, match mode with Compatible => false | _ => fullscreen g || cursor_confined g end).

(** ** State *)

(** [edge-windows-input 1737-1755 CaptureState]; its sender is [sent] of [Globals]. *)
Record CaptureState := {
  config : CaptureConfig;
  local_bounds : LocalBounds;
  active : bool;
  enabled : bool;
  anchor : POINT;
  remote_cursor : Point;
  virtual_local_cursor : Point;
  ctrl_down : bool;
  alt_down : bool;
  capture_suspended : bool;
  suspend_foreground : option Z;
  cursor_hidden : bool;
  game_guard : GameGuard;
  raw_absolute_position : option (Z * Z);
  last_raw_input : option Instant;
  activation_blocked_until : Instant;
}.

(** The [AtomicU64]s of [CaptureStats] and the two of the raw input.
    [edge-windows-input 2077-2100 CaptureStats] *)
Inductive Counter :=
| mouse_hook_events | keyboard_hook_events | raw_input_repairs | mouse_hook_repairs
| keyboard_hook_repairs | input_pipeline_restarts | callback_contention_drops
| input_supervisor_checks | input_events | control_events | enter_events | release_events
| return_edge_hits | game_guard_blocks | game_guard_releases | suspend_toggles | suspend_blocks
| suspend_auto_resumes | send_failures | unmapped_keys
| RAW_MOUSE_EVENTS | RAW_KEYBOARD_EVENTS.
#[export] Instance Counter_eq_dec : EqDecision Counter.
Proof. solve_decision. Defined.

(** The statics of the module, and what its calls change in Windows: the events received by the
    channel, the pointer, the display counter of [ShowCursor], the replaced system cursors, the
    installed hooks. *)
Record Globals := {
  sent : list CapturedInput;
  cursor_pos : POINT;
  display_count : Z;
  blanked : list SystemCursor;
  mouse_hook_id : Z;
  keyboard_hook_id : Z;
  stats_active : bool;
  stats_suspended : bool;
  counters : Counter -> Z;
  raw_worker_thread_id : Z;
  hook_worker_thread_id : Z;
  raw_worker_generation : Z;
  supervisor_started : bool;
}.

(** Field updates. *)
Definition set_active : bool -> CaptureState -> CaptureState := ltac:(field_setter active).
Definition set_enabled : bool -> CaptureState -> CaptureState := ltac:(field_setter enabled).
Definition set_anchor : POINT -> CaptureState -> CaptureState := ltac:(field_setter anchor).
Definition set_remote_cursor : Point -> CaptureState -> CaptureState :=
  ltac:(field_setter remote_cursor).
Definition set_virtual_local_cursor : Point -> CaptureState -> CaptureState :=
  ltac:(field_setter virtual_local_cursor).
Definition set_ctrl_down : bool -> CaptureState -> CaptureState := ltac:(field_setter ctrl_down).
Definition set_alt_down : bool -> CaptureState -> CaptureState := ltac:(field_setter alt_down).
Definition set_capture_suspended : bool -> CaptureState -> CaptureState :=
  ltac:(field_setter capture_suspended).
Definition set_suspend_foreground : option Z -> CaptureState -> CaptureState :=
  ltac:(field_setter suspend_foreground).
Definition set_cursor_hidden : bool -> CaptureState -> CaptureState :=
  ltac:(field_setter cursor_hidden).
Definition set_game_guard : GameGuard -> CaptureState -> CaptureState :=
  ltac:(field_setter game_guard).
Definition set_raw_absolute_position : option (Z * Z) -> CaptureState -> CaptureState :=
  ltac:(field_setter raw_absolute_position).
Definition set_last_raw_input : option Instant -> CaptureState -> CaptureState :=
  ltac:(field_setter last_raw_input).
Definition set_activation_blocked_until : Instant -> CaptureState -> CaptureState :=
  ltac:(field_setter activation_blocked_until).

Definition set_sent : list CapturedInput -> Globals -> Globals := ltac:(field_setter sent).
Definition set_cursor_pos : POINT -> Globals -> Globals := ltac:(field_setter cursor_pos).
Definition set_display_count : Z -> Globals -> Globals := ltac:(field_setter display_count).
Definition set_blanked : list SystemCursor -> Globals -> Globals := ltac:(field_setter blanked).
Definition set_mouse_hook_id : Z -> Globals -> Globals := ltac:(field_setter mouse_hook_id).
Definition set_keyboard_hook_id : Z -> Globals -> Globals := ltac:(field_setter keyboard_hook_id).
Definition set_stats_active : bool -> Globals -> Globals := ltac:(field_setter stats_active).
Definition set_stats_suspended : bool -> Globals -> Globals := ltac:(field_setter stats_suspended).
Definition set_counters : (Counter -> Z) -> Globals -> Globals := ltac:(field_setter counters).
Definition set_raw_worker_thread_id : Z -> Globals -> Globals :=
  ltac:(field_setter raw_worker_thread_id).
Definition set_hook_worker_thread_id : Z -> Globals -> Globals :=
  ltac:(field_setter hook_worker_thread_id).
Definition set_raw_worker_generation : Z -> Globals -> Globals :=
  ltac:(field_setter raw_worker_generation).
Definition set_supervisor_started : bool -> Globals -> Globals :=
  ltac:(field_setter supervisor_started).
(** [fetch_add(1, Relaxed)]. *)
Definition bump (c : Counter) (g : Globals) : Globals :=
  set_counters (fun d => if decide (d = c) then wrapping_add u64_max (counters g d) 1
                         else counters g d) g.

(** The locked state with the statics. *)
Record Capture := { cs : CaptureState; gl : Globals }.
Definition on_cs (f : CaptureState -> CaptureState) (c : Capture) : Capture :=
  {| cs := f (cs c); gl := gl c |}.
Definition on_gl (f : Globals -> Globals) (c : Capture) : Capture :=
  {| cs := cs c; gl := f (gl c) |}.

Declare Scope capture_scope.
Delimit Scope capture_scope with capture.
(** [c |> f |> g]: the statements of a method, in their order. *)
Notation "c |> f" := (f c) (at level 98, left associativity, only parsing) : capture_scope.
#[local] Open Scope capture_scope.

(** ** Effects on Windows *)

Definition SetCursorPos (p : POINT) (g : Globals) : Globals := set_cursor_pos p g.
(** [while ShowCursor(0) >= 0 {}] and [while ShowCursor(1) < 0 {}]: each call moves the counter
    by one and returns it. *)
Definition show_cursor_down (g : Globals) : Globals :=
  set_display_count (Z.min (display_count g - 1) (-1)) g.
Definition show_cursor_up (g : Globals) : Globals :=
  set_display_count (Z.max (display_count g + 1) 0) g.

(** [edge-windows-input 2505-2509 restore_system_cursors] *)
Definition restore_system_cursors (g : Globals) : Globals := set_blanked [] g.

(** [edge-windows-input 2471-2503 hide_system_cursors] (the list of the cursors) *)
Definition CURSOR_IDS : list SystemCursor :=
  [OCR_NORMAL; OCR_IBEAM; OCR_WAIT; OCR_CROSS; OCR_UP; OCR_SIZEALL; OCR_SIZENESW; OCR_SIZENS;
   OCR_SIZENWSE; OCR_SIZEWE; OCR_NO; OCR_HAND; OCR_APPSTARTING; OCR_HELP].
(** [edge-windows-input 2471-2503 hide_system_cursors] (its loop) *)
Fixpoint hide_cursors (e : Env) (ids : list SystemCursor) (g : Globals) : Globals :=
  match ids with
  | [] => g
  | id :: ids' =>
      if negb (cursor_created e id) then g
      else if cursor_replaced e id then hide_cursors e ids' (set_blanked (id :: blanked g) g)
      else restore_system_cursors g
  end.
Definition hide_system_cursors (e : Env) (g : Globals) : Globals := hide_cursors e CURSOR_IDS g.

(** [edge-windows-input 1380-1396 install_mouse_hook_if_needed] *)
Definition install_mouse_hook_if_needed (e : Env) (g : Globals) : Globals :=
  if negb (mouse_hook_id g =? 0) then g
  else if mouse_hook_result e =? 0 then g else set_mouse_hook_id (mouse_hook_result e) g.
(** [edge-windows-input 1398-1410 uninstall_mouse_hook] *)
Definition uninstall_mouse_hook (g : Globals) : Globals := set_mouse_hook_id 0 g.
(** [edge-windows-input 1412-1422 uninstall_keyboard_hook] *)
Definition uninstall_keyboard_hook (g : Globals) : Globals := set_keyboard_hook_id 0 g.
(** [edge-windows-input 1424-1426 mouse_hook_installed] *)
Definition mouse_hook_installed (g : Globals) : bool := negb (mouse_hook_id g =? 0).

(** ** The methods of [CaptureState] *)

(** [edge-windows-input 2056-2062 CaptureState::send_input] *)
Definition send_input (e : Env) (event : InputEvent) (c : Capture) : Capture :=
  if receiver_open e
  then c |> on_gl (fun g => set_sent (sent g ++ [Captured_Input event]) g)
         |> on_gl (bump input_events)
  else c |> on_gl (bump send_failures).
(** [edge-windows-input 2064-2070 CaptureState::send_control] *)
Definition send_control (e : Env) (event : ControlEvent) (c : Capture) : Capture :=
  if receiver_open e
  then c |> on_gl (fun g => set_sent (sent g ++ [Captured_Control event]) g)
         |> on_gl (bump control_events)
  else c |> on_gl (bump send_failures).

(** [edge-windows-input 1758-1767 CaptureState::at_activation_edge] *)
Definition at_activation_edge (s : CaptureState) (point : POINT) : bool :=
  point_is_at_edge (cap_edge (config s)) (point_of point) (rect (local_bounds s)).
(** [edge-windows-input 1769-1772 CaptureState::game_guard_blocks_capture] *)
Definition game_guard_blocks_capture (e : Env) (c : Capture) : Capture * bool :=
  let '(g, b) := guard_blocks_capture e (game_compatibility (config (cs c)))
                   (game_guard (cs c)) in
  (on_cs (set_game_guard g) c, b).
(** [edge-windows-input 1774-1777 CaptureState::virtual_edge_required] *)
Definition virtual_edge_required (e : Env) (c : Capture) : Capture * bool :=
  let '(g, b) := guard_virtual_edge_required e (game_compatibility (config (cs c)))
                   (game_guard (cs c)) in
  (on_cs (set_game_guard g) c, b).
(** [edge-windows-input 1779-1781 CaptureState::activation_allowed] *)
Definition activation_allowed (e : Env) (s : CaptureState) : bool :=
  activation_blocked_until s <=? now e.

(** [edge-windows-input 2031-2040 CaptureState::normalized_perpendicular] *)
Definition local_normalized_perpendicular (s : CaptureState) (point : POINT) : float :=
  normalized_perpendicular (cap_edge (config s)) (point_of point) (rect (local_bounds s)).
(** [edge-windows-input 2042-2054 CaptureState::remote_normalized_perpendicular] *)
Definition remote_normalized_perpendicular (s : CaptureState) : float :=
  let remote := remote_size (config s) in
  normalized_perpendicular (cap_edge (config s)) (remote_cursor s)
    (int_rect 0 0 (size_width remote) (size_height remote)).
(** [edge-windows-input 2017-2024 CaptureState::remote_start] *)
Definition capture_remote_start (s : CaptureState) (point : POINT) : Point :=
  remote_entry_point (cap_edge (config s)) (local_normalized_perpendicular s point)
    (remote_size (config s)) REMOTE_ENTRY_PADDING.
(** [edge-windows-input 2026-2029 CaptureState::local_restore] *)
Definition capture_local_restore (s : CaptureState) : POINT :=
  restore_for (local_bounds s) (cap_edge (config s)) (remote_normalized_perpendicular s).
(** [edge-windows-input 2073-2075 remote_cursor_at_return_edge] *)
Definition remote_cursor_at_return_edge (edge : Edge) (cursor : Point) (remote : Size) : bool :=
  remote_return_edge_reached edge cursor remote REMOTE_RETURN_MARGIN.
(** [edge-windows-input 1894-1900 CaptureState::remote_at_return_edge] *)
Definition remote_at_return_edge (s : CaptureState) : bool :=
  remote_cursor_at_return_edge (cap_edge (config s)) (remote_cursor s) (remote_size (config s)).
(** [edge-windows-input 1953-1956 CaptureState::raw_input_is_recent] *)
Definition raw_input_is_recent (e : Env) (s : CaptureState) : bool :=
  is_some_and (fun last => duration_since (now e) last <? from_millis 250) (last_raw_input s).

(** [edge-windows-input 1993-2000 CaptureState::hide_source_cursor] *)
Definition hide_source_cursor (e : Env) (c : Capture) : Capture :=
  if cursor_hidden (cs c) then c
  else c |> on_gl show_cursor_down |> on_gl (hide_system_cursors e) |> on_cs (set_cursor_hidden true).
(** [edge-windows-input 2002-2006 CaptureState::keep_source_cursor_hidden] *)
Definition keep_source_cursor_hidden (e : Env) (c : Capture) : Capture :=
  if negb (cursor_hidden (cs c)) then hide_source_cursor e c else c.
(** [edge-windows-input 2008-2015 CaptureState::show_source_cursor] *)
Definition show_source_cursor (c : Capture) : Capture :=
  if negb (cursor_hidden (cs c)) then c
  else c |> on_gl restore_system_cursors |> on_gl show_cursor_up |> on_cs (set_cursor_hidden false).

(** [edge-windows-input 1958-1983 CaptureState::release_to_local] *)
Definition release_to_local (e : Env) (reason : ReleaseReason) (c : Capture) : Capture :=
  if negb (active (cs c)) then c
  else
    let c := c |> on_cs (set_active false)
               |> on_cs (set_raw_absolute_position None)
               |> on_cs (set_activation_blocked_until (now e + RELEASE_REENTRY_COOLDOWN))
               |> on_gl (set_stats_active false)
               |> on_gl (bump release_events)
               |> send_input e AllKeysUp
               |> send_control e (ReleaseToLocal reason)
               |> show_source_cursor in
    let restore := capture_local_restore (cs c) in
    let '(c, required) := virtual_edge_required e c in
    c |> on_cs (set_virtual_local_cursor
                  (if required then center (local_bounds (cs c)) else point_of restore))
      |> on_gl (SetCursorPos restore).

(** [edge-windows-input 1835-1851 CaptureState::enter_remote] *)
Definition enter_remote (e : Env) (point : POINT) (c : Capture) : Capture :=
  let c := c |> on_cs (set_active true)
             |> on_gl (set_stats_active true)
             |> on_gl (bump enter_events) in
  let c := c |> on_cs (set_anchor (anchor_for (local_bounds (cs c)) (cap_edge (config (cs c))) point)) in
  let c := c |> on_cs (set_remote_cursor (capture_remote_start (cs c) point))
             |> on_cs (set_raw_absolute_position None) in
  c |> send_control e (EnterRemote (cap_edge (config (cs c)))
                         (local_normalized_perpendicular (cs c) point))
    |> on_gl (SetCursorPos (anchor (cs c)))
    |> hide_source_cursor e.

(** [edge-windows-input 1902-1911 CaptureState::release_if_remote_return_edge] *)
Definition release_if_remote_return_edge (e : Env) (c : Capture) : Capture :=
  if negb (remote_at_return_edge (cs c)) then c
  else c |> on_gl (bump return_edge_hits) |> release_to_local e Release_UserRequest.

(** The pointer's share of [remote_motion] and [raw_remote_motion].
    [edge-windows-input 1864-1868 remote_motion] *)
Definition forward_motion (e : Env) (dx dy : Z) (c : Capture) : Capture :=
  let dx := f64_of dx in
  let dy := f64_of dy in
  c |> on_cs (fun s => set_remote_cursor
                (apply_remote_motion (remote_cursor s) dx dy (remote_size (config s))) s)
    |> send_input e (PointerMotion dx dy)
    |> release_if_remote_return_edge e.

(** [edge-windows-input 1853-1869 CaptureState::remote_motion] *)
Definition remote_motion (e : Env) (point : POINT) (c : Capture) : Capture :=
  let dx := i32_sub (pt_x point) (pt_x (anchor (cs c))) in
  let dy := i32_sub (pt_y point) (pt_y (anchor (cs c))) in
  let c := on_gl (SetCursorPos (anchor (cs c))) c in
  if f64_eq (f64_of dx) (f64_of 0) && f64_eq (f64_of dy) (f64_of 0) then c
  else forward_motion e dx dy c.

(** The motion of a raw report, and the state that remembers an absolute position.
    [edge-windows-input 1872-1881 raw_remote_motion] *)
Definition raw_delta (x y : Z) (absolute : bool) (c : Capture) : Capture * option (Z * Z) :=
  if absolute then
    let previous := raw_absolute_position (cs c) in
    (on_cs (set_raw_absolute_position (Some (x, y))) c,
     match previous with
     | None => None
     | Some (px, py) => Some (i32_sub x px, i32_sub y py)
     end)
  else (on_cs (set_raw_absolute_position None) c, Some (x, y)).

(** [edge-windows-input 1871-1892 CaptureState::raw_remote_motion] *)
Definition raw_remote_motion (e : Env) (x y : Z) (absolute : bool) (c : Capture) : Capture :=
  let '(c, delta) := raw_delta x y absolute c in
  match delta with
  | None => c
  | Some (dx, dy) => if (dx =? 0) && (dy =? 0) then c else forward_motion e dx dy c
  end.

(** [edge-windows-input 1913-1951 CaptureState::raw_local_motion] *)
Definition raw_local_motion (e : Env) (x y : Z) (absolute : bool) (c : Capture) : Capture :=
  let '(c, required) := virtual_edge_required e c in
  if negb required then on_cs (set_raw_absolute_position None) c
  else
    let '(c, delta) := raw_delta x y absolute c in
    match delta with
    | None => c
    | Some (dx, dy) =>
        if (dx =? 0) && (dy =? 0) then c
        else
          let b := local_bounds (cs c) in
          let v := virtual_local_cursor (cs c) in
          let v := {| px := clamp (f64_add (px v) (f64_of dx)) (f64_of (left b))
                              (f64_of (bounds_right b));
                      py := clamp (f64_add (py v) (f64_of dy)) (f64_of (top b))
                              (f64_of (bounds_bottom b)) |} in
          let c := on_cs (set_virtual_local_cursor v) c in
          let point := rounded v in
          if activation_allowed e (cs c) && at_activation_edge (cs c) point
          then enter_remote e point c else c
    end.

(** [edge-windows-input 1783-1807 CaptureState::toggle_capture_suspended] *)
Definition toggle_capture_suspended (e : Env) (c : Capture) : Capture :=
  let c := on_cs (fun s => set_capture_suspended (negb (capture_suspended s)) s) c in
  let c := c |> on_cs (set_suspend_foreground
                  (if capture_suspended (cs c) then
                     if negb (foreground e =? 0) then Some (foreground e) else None
                   else None))
             |> on_gl (set_stats_suspended (capture_suspended (cs c)))
             |> on_gl (bump suspend_toggles) in
  if capture_suspended (cs c)
  then c |> release_to_local e Release_UserRequest |> show_source_cursor
         |> on_gl uninstall_mouse_hook
  else c |> on_gl (install_mouse_hook_if_needed e).

(** [edge-windows-input 1809-1833 CaptureState::refresh_capture_suspension] *)
Definition refresh_capture_suspension (e : Env) (c : Capture) : Capture :=
  if negb (capture_suspended (cs c)) then c
  else match suspend_foreground (cs c) with
       | None => c
       | Some suspended =>
           if (foreground e =? 0) || (foreground e =? suspended) then c
           else c |> on_cs (set_capture_suspended false)
                  |> on_cs (set_suspend_foreground None)
                  |> on_gl (set_stats_suspended false)
                  |> on_gl (install_mouse_hook_if_needed e)
                  |> on_gl (bump suspend_auto_resumes)
       end.

(** [edge-windows-input 1985-1991 CaptureState::update_modifier] *)
Definition update_modifier (vk_code : Z) (down : bool) (s : CaptureState) : CaptureState :=
  if (vk_code =? VK_CONTROL) || (vk_code =? VK_LCONTROL) || (vk_code =? VK_RCONTROL)
  then set_ctrl_down down s
  else if (vk_code =? VK_MENU) || (vk_code =? VK_LMENU) || (vk_code =? VK_RMENU)
  then set_alt_down down s
  else s.

(** ** The hooks *)

(** [edge-windows-input 2455-2457 high_word_signed] *)
Definition high_word_signed (value : Z) : Z :=
  let word := Z.land (Z.shiftr value 16) 0xffff in
  if word <? 2 ^ 15 then word else word - 2 ^ 16.
(** [edge-windows-input 2459-2465 x_button] *)
Definition x_button (mouse_data : Z) : option MouseButton :=
  let word := Z.land (Z.shiftr mouse_data 16) 0xffff in
  if word =? XBUTTON1 then Some Button_Back
  else if word =? XBUTTON2 then Some Button_Forward else None.
(** [edge-windows-input 2467-2469 is_release_hotkey] *)
Definition is_release_hotkey (vk_code : Z) : bool :=
  (vk_code =? VK_PAUSE) || (vk_code =? VK_ESCAPE).
(** [edge-windows-input 123-132 map_key] *)
Definition map_key (scan_code : Z) (extended : bool) : option Z :=
  windows_scancode_to_evdev {| scan_code := scan_code; extended := extended |}.

(** What a message of an active capture is to the peer, a motion apart.
    [edge-windows-input 1572-1611 mouse_hook] *)
Definition pointer_event (message : MouseMessage) (data : Z) : option InputEvent :=
  match message with
  | WM_LBUTTONDOWN => Some (PointerButton Button_Left true)
  | WM_LBUTTONUP => Some (PointerButton Button_Left false)
  | WM_RBUTTONDOWN => Some (PointerButton Button_Right true)
  | WM_RBUTTONUP => Some (PointerButton Button_Right false)
  | WM_MBUTTONDOWN => Some (PointerButton Button_Middle true)
  | WM_MBUTTONUP => Some (PointerButton Button_Middle false)
  | WM_XBUTTONDOWN => option_map (fun b => PointerButton b true) (x_button data)
  | WM_XBUTTONUP => option_map (fun b => PointerButton b false) (x_button data)
  | WM_MOUSEWHEEL =>
      Some (PointerWheel (f64_of 0) (f64_div (f64_of (high_word_signed data)) WHEEL_DELTA))
  | WM_MOUSEHWHEEL =>
      Some (PointerWheel (f64_div (f64_of (high_word_signed data)) WHEEL_DELTA) (f64_of 0))
  | _ => None
  end.

(** The whole process: [STATE], a [OnceLock], and the statics. *)
Record Process := { STATE : option CaptureState; GLOBALS : Globals }.
Definition count (c : Counter) (p : Process) : Process :=
  {| STATE := STATE p; GLOBALS := bump c (GLOBALS p) |}.
Definition unlock (c : Capture) : Process := {| STATE := Some (cs c); GLOBALS := gl c |}.

Definition is_move (m : MouseMessage) : bool :=
  match m with WM_MOUSEMOVE => true | _ => false end.

(** What the mouse hook does once it holds the lock.
    [edge-windows-input 1480-1616 mouse_hook] *)
Definition mouse_hook_locked (e : Env) (ev : MouseHookEvent) (c : Capture) : Capture * LRESULT :=
  if negb (enabled (cs c)) then (c, CallNext)
  else
    let c := refresh_capture_suspension e c in
    if capture_suspended (cs c) then
      (if active (cs c) then release_to_local e Release_UserRequest c
       else if is_move (m_message ev) && at_activation_edge (cs c) (m_pt ev)
       then on_gl (bump suspend_blocks) c else c, CallNext)
    else
      let '(c, blocked) := game_guard_blocks_capture e c in
      if blocked then
        (if active (cs c)
         then c |> on_gl (bump game_guard_releases) |> release_to_local e Release_UserRequest
         else if is_move (m_message ev) && at_activation_edge (cs c) (m_pt ev)
         then on_gl (bump game_guard_blocks) c else c, CallNext)
      else if negb (active (cs c)) then
        let c := if is_move (m_message ev) then
                   let '(c, required) := virtual_edge_required e c in
                   if negb required
                   then on_cs (set_virtual_local_cursor (point_of (m_pt ev))) c else c
                 else c in
        if is_move (m_message ev) && activation_allowed e (cs c)
           && at_activation_edge (cs c) (m_pt ev)
        then (enter_remote e (m_pt ev) c, Swallow)
        else (c, CallNext)
      else if negb (Z.land (m_flags ev) LLMHF_INJECTED =? 0) then (c, Swallow)
      else
        (if is_move (m_message ev) then
           let c := keep_source_cursor_hidden e c in
           if negb (raw_input_is_recent e (cs c)) then remote_motion e (m_pt ev) c else c
         else match pointer_event (m_message ev) (mouseData ev) with
              | Some event => send_input e event c
              | None => c
              end, Swallow).

(** The start of both hooks: what is ours or unlocked passes; a callback that finds the lock
    taken ([contended]) passes its event on unless a capture is active.
    [edge-windows-input 1429-1479 mouse_hook] *)
Definition hook_entry (code extra_info : Z) (contended : bool) (events : Counter)
  (locked : Capture -> Capture * LRESULT) (p : Process) : Process * LRESULT :=
  if negb (code =? HC_ACTION) then (p, CallNext)
  else
    let p := count events p in
    if is_edge_kvm_injected extra_info then (p, CallNext)
    else match STATE p with
         | None => (p, CallNext)
         | Some s =>
             if contended then
               (count callback_contention_drops p,
                if stats_active (GLOBALS p) then Swallow else CallNext)
             else let '(c, r) := locked {| cs := s; gl := GLOBALS p |} in (unlock c, r)
         end.

(** [edge-windows-input 1428-1616 mouse_hook] *)
Definition mouse_hook (e : Env) (contended : bool) (ev : MouseHookEvent) (p : Process) :
  Process * LRESULT :=
  hook_entry (m_code ev) (m_extra_info ev) contended mouse_hook_events
    (mouse_hook_locked e ev) p.

(** [edge-windows-input 1670-1735 keyboard_hook] *)
Definition keyboard_hook_locked (e : Env) (ev : KeyboardHookEvent) (c : Capture) :
  Capture * LRESULT :=
  let down := match k_message ev with WM_KEYDOWN | WM_SYSKEYDOWN => true | _ => false end in
  let up := match k_message ev with WM_KEYUP | WM_SYSKEYUP => true | _ => false end in
  if negb (Z.land (k_flags ev) LLKHF_INJECTED =? 0) && active (cs c) then (c, Swallow)
  else if negb (enabled (cs c)) then (c, CallNext)
  else
    let c := refresh_capture_suspension e c in
    let c := if down || up then on_cs (update_modifier (vkCode ev) down) c else c in
    if down && ctrl_down (cs c) && alt_down (cs c) && (vkCode ev =? VK_G)
    then (toggle_capture_suspended e c, Swallow)
    else if negb (active (cs c)) then (c, CallNext)
    else if down && ctrl_down (cs c) && alt_down (cs c) && is_release_hotkey (vkCode ev)
    then (release_to_local e Hotkey c, Swallow)
    else
      (if down || up then
         let c := keep_source_cursor_hidden e c in
         let scan_code := truncate_to u16_max (scanCode ev) in
         let extended := negb (Z.land (k_flags ev) LLKHF_EXTENDED =? 0) in
         match map_key scan_code extended with
         | Some evdev_code => send_input e (Key evdev_code down) c
         | None => on_gl (bump unmapped_keys) c
         end
       else c, Swallow).
(** [edge-windows-input 1618-1735 keyboard_hook] *)
Definition keyboard_hook (e : Env) (contended : bool) (ev : KeyboardHookEvent) (p : Process) :
  Process * LRESULT :=
  hook_entry (k_code ev) (k_extra_info ev) contended keyboard_hook_events
    (keyboard_hook_locked e ev) p.

(** A raw input message: the device it is of, and the report of a mouse. *)
Inductive RawInput :=
| Raw_unreadable | Raw_keyboard | Raw_other
| Raw_mouse (lLastX lLastY : Z) (absolute : bool).

(** [edge-windows-input 1138-1190 handle_raw_mouse_input] *)
Definition handle_raw_mouse_input (e : Env) (contended : bool) (input : RawInput) (p : Process) :
  Process :=
  match input with
  | Raw_unreadable | Raw_other => p
  | Raw_keyboard => count RAW_KEYBOARD_EVENTS p
  | Raw_mouse x y absolute =>
      let p := count RAW_MOUSE_EVENTS p in
      match STATE p with
      | None => p
      | Some s =>
          if contended then count callback_contention_drops p
          else
            let c := {| cs := set_last_raw_input (Some (now e)) s; gl := GLOBALS p |} in
            unlock (if negb (enabled (cs c)) then c
                    else if active (cs c) then raw_remote_motion e x y absolute c
                    else raw_local_motion e x y absolute c)
      end
  end.

(** ** The calls of the application *)

(** A call that locks the state, if there is one. *)
Definition with_state {A} (none : A) (f : Capture -> Capture * A) (p : Process) : Process * A :=
  match STATE p with
  | None => (p, none)
  | Some s => let '(c, a) := f {| cs := s; gl := GLOBALS p |} in (unlock c, a)
  end.

(** [edge-windows-input 866-873 release_to_local] *)
Definition call_release_to_local (e : Env) (reason : ReleaseReason) (p : Process) : Process :=
  fst (with_state tt (fun c => (c |> release_to_local e reason |> show_source_cursor, tt)) p).

(** [edge-windows-input 875-894 handle_receiver_release] *)
Definition handle_receiver_release (e : Env) (reason : ReleaseReason) (p : Process) :
  Process * bool :=
  with_state false (fun c =>
    if negb (active (cs c)) then (c, false)
    else if match reason with Release_UserRequest => true | _ => false end
            && negb (remote_at_return_edge (cs c)) then (c, false)
    else (release_to_local e reason c, true)) p.

(** [edge-windows-input 905-919 set_enabled_with_release_reason] *)
Definition set_enabled_with_release_reason (e : Env) (value : bool) (reason : ReleaseReason)
  (p : Process) : Process :=
  fst (with_state tt (fun c =>
    (if Bool.eqb (enabled (cs c)) value then c
     else let c := if negb value then release_to_local e reason c else c in
          c |> on_cs (set_enabled value) |> show_source_cursor, tt)) p).
(** [edge-windows-input 896-899 disable] *)
Definition disable (e : Env) : Process -> Process :=
  set_enabled_with_release_reason e false Release_PeerDisconnected.
(** [edge-windows-input 901-903 set_enabled] *)
Definition call_set_enabled (e : Env) (value : bool) : Process -> Process :=
  set_enabled_with_release_reason e value Release_UserRequest.

Definition on_globals (f : Globals -> Globals) (p : Process) : Process :=
  {| STATE := STATE p; GLOBALS := f (GLOBALS p) |}.

(** The workers: a message [WM_QUIT] ends the loop of the old thread, the new one runs on its
    own.  [edge-windows-input 972-984 spawn_raw_input_worker] *)
Definition spawn_raw_input_worker (e : Env) (p : Process) : Process * bool :=
  let p := p |> on_globals (set_raw_worker_thread_id 0)
             |> on_globals (fun g => set_raw_worker_generation
                              (wrapping_add u64_max (raw_worker_generation g) 1) g) in
  (p, thread_spawned e).
(** [edge-windows-input 1012-1019 stop_hook_worker] *)
Definition stop_hook_worker (p : Process) : Process :=
  p |> on_globals (set_hook_worker_thread_id 0) |> on_globals uninstall_mouse_hook
    |> on_globals uninstall_keyboard_hook.
(** [edge-windows-input 1003-1010 spawn_hook_worker] *)
Definition spawn_hook_worker (e : Env) (p : Process) : Process * bool :=
  (stop_hook_worker p, thread_spawned e).
(** The start of the threads: [edge-windows-input 1022-1033 run_hook_thread] *)
Definition run_hook_thread (e : Env) (thread : Z) (p : Process) : Process :=
  let install (id : Z) (set : Z -> Globals -> Globals) (g : Globals) :=
    if id =? 0 then g else set id g in
  p |> on_globals (set_hook_worker_thread_id thread)
    |> on_globals (install (mouse_hook_result e) set_mouse_hook_id)
    |> on_globals (install (keyboard_hook_result e) set_keyboard_hook_id).
(** [edge-windows-input 987-987 run_raw_input_thread] *)
Definition run_raw_input_thread (thread : Z) (p : Process) : Process :=
  on_globals (set_raw_worker_thread_id thread) p.

(** [edge-windows-input 1309-1315 restart_raw_input_worker] *)
Definition restart_raw_input_worker (e : Env) (p : Process) : Process * bool :=
  let '(p, ok) := spawn_raw_input_worker e p in
  (if ok then count raw_input_repairs p else p, ok).
(** [edge-windows-input 1317-1326 restart_hook_worker] *)
Definition restart_hook_worker (e : Env) (p : Process) : Process * bool :=
  let '(p, ok) := spawn_hook_worker e p in
  (if ok then p |> count mouse_hook_repairs |> count keyboard_hook_repairs else p, ok).
(** [edge-windows-input 1302-1307 restart_input_workers] *)
Definition restart_input_workers (e : Env) (p : Process) : Process * bool :=
  let '(p, ok) := restart_raw_input_worker e p in
  if ok then restart_hook_worker e p else (p, false).
(** [edge-windows-input 1192-1201 start_input_supervisor] *)
Definition start_input_supervisor (e : Env) (p : Process) : Process * bool :=
  if supervisor_started (GLOBALS p) then (p, true)
  else (on_globals (set_supervisor_started true) p, thread_spawned e).

(** [edge-windows-input 929-947 start] *)
Definition initial_state (e : Env) (cfg : CaptureConfig) : CaptureState :=
  {| config := cfg; local_bounds := metrics e; active := false; enabled := true;
     anchor := {| pt_x := 0; pt_y := 0 |}; remote_cursor := int_point 0 0;
     virtual_local_cursor := center (metrics e); ctrl_down := false; alt_down := false;
     capture_suspended := false; suspend_foreground := None; cursor_hidden := false;
     game_guard := GameGuard_default e; raw_absolute_position := None; last_raw_input := None;
     activation_blocked_until := now e |}.

(** [edge-windows-input 925-970 start] *)
Definition start (e : Env) (cfg : CaptureConfig) (p : Process) : Process * bool :=
  let p := p |> on_globals (set_stats_active false) |> on_globals (set_stats_suspended false) in
  match STATE p with
  | Some existing =>
      let shown := show_source_cursor {| cs := existing; gl := GLOBALS p |} in
      let p := {| STATE := Some (initial_state e cfg); GLOBALS := set_sent [] (gl shown) |} in
      restart_input_workers e p
  | None =>
      let p := {| STATE := Some (initial_state e cfg); GLOBALS := set_sent [] (GLOBALS p) |} in
      let '(p, ok) := spawn_raw_input_worker e p in
      if negb ok then (p, false)
      else let '(p, ok) := spawn_hook_worker e p in
           if negb ok then (p, false) else start_input_supervisor e p
  end.
