(* ===== verification/CaptureSafety.v ===== *)
(** * The guarantees of the Windows input capture

    Over every sequence of callbacks, calls and restarts of [WindowsCapture]: what the peer is
    told is a sequence of whole captures, an event reaches one of the two computers, the hotkey
    returns control and the cooldown keeps it, the remote pointer stays on the remote screen, and
    the edge is that of the pixels. *)
From Stdlib Require Import SpecFloat.
From S2P Require Export WindowsCapture.
#[local] Open Scope capture_scope.

(** ** Properties *)

(** *** The process and its events *)

Definition initial_globals : Globals :=
  {| sent := []; cursor_pos := {| pt_x := 0; pt_y := 0 |}; display_count := 0; blanked := [];
     mouse_hook_id := 0; keyboard_hook_id := 0; stats_active := false; stats_suspended := false;
     counters := fun _ => 0; raw_worker_thread_id := 0; hook_worker_thread_id := 0;
     raw_worker_generation := 0; supervisor_started := false |}.
Definition initial_process : Process := {| STATE := None; GLOBALS := initial_globals |}.

Inductive CaptureEvent :=
| Ev_mouse (contended : bool) (ev : MouseHookEvent)
| Ev_keyboard (contended : bool) (ev : KeyboardHookEvent)
| Ev_raw (contended : bool) (input : RawInput)
| Ev_release (reason : ReleaseReason)
| Ev_receiver_release (reason : ReleaseReason)
| Ev_disable
| Ev_set_enabled (value : bool)
| Ev_restart_raw | Ev_restart_hooks | Ev_restart_all
| Ev_hook_thread (thread : Z) | Ev_raw_thread (thread : Z)
| Ev_start (cfg : CaptureConfig).

(** One callback or call, in its environment. *)
Definition step (e : Env) (ev : CaptureEvent) (p : Process) : Process :=
  match ev with
  | Ev_mouse contended ev => fst (mouse_hook e contended ev p)
  | Ev_keyboard contended ev => fst (keyboard_hook e contended ev p)
  | Ev_raw contended input => handle_raw_mouse_input e contended input p
  | Ev_release reason => call_release_to_local e reason p
  | Ev_receiver_release reason => fst (handle_receiver_release e reason p)
  | Ev_disable => disable e p
  | Ev_set_enabled value => call_set_enabled e value p
  | Ev_restart_raw => fst (restart_raw_input_worker e p)
  | Ev_restart_hooks => fst (restart_hook_worker e p)
  | Ev_restart_all => fst (restart_input_workers e p)
  | Ev_hook_thread thread => run_hook_thread e thread p
  | Ev_raw_thread thread => run_raw_input_thread thread p
  | Ev_start cfg => fst (start e cfg p)
  end.
Definition run (l : list (Env * CaptureEvent)) (p : Process) : Process :=
  fold_left (fun p x => step x.1 x.2 p) l p.

(** *** What the peer is told, as a machine *)

Inductive Phase := Phase_Local | Phase_Remote | Phase_Releasing.

(** Control is entered, input follows, and it ends with all keys up and the release. *)
Definition feed (ph : option Phase) (i : CapturedInput) : option Phase :=
  match ph, i with
  | Some Phase_Local, Captured_Control (EnterRemote _ _) => Some Phase_Remote
  | Some Phase_Remote, Captured_Input AllKeysUp => Some Phase_Releasing
  | Some Phase_Remote, Captured_Input _ => Some Phase_Remote
  | Some Phase_Releasing, Captured_Control (ReleaseToLocal _) => Some Phase_Local
  | _, _ => None
  end.
Definition replay (l : list CapturedInput) : option Phase := fold_left feed l (Some Phase_Local).
Definition phase_of (b : bool) : Phase := if b then Phase_Remote else Phase_Local.

Lemma replay_app l k : replay (l ++ k) = fold_left feed k (replay l).
Proof. apply fold_left_app. Qed.

(** The part of the state the invariant speaks of. *)
Record View := {
  v_active : bool; v_enabled : bool; v_hidden : bool; v_stats : bool; v_blocked : Instant;
  v_sent : list CapturedInput;
}.
Definition view (c : Capture) : View :=
  {| v_active := active (cs c); v_enabled := enabled (cs c); v_hidden := cursor_hidden (cs c);
     v_stats := stats_active (gl c); v_blocked := activation_blocked_until (cs c);
     v_sent := sent (gl c) |}.

(** The flag read without the lock, the hidden cursor and the stream agree with the state; a
    capture that is not enabled is not active.  The stream is that of a channel whose receiver lives
    ([live]). *)
Definition good_view (live : Prop) (v : View) : Prop :=
  v_stats v = v_active v /\ v_hidden v = v_active v /\
  (v_enabled v = false -> v_active v = false) /\
  (live -> replay (v_sent v) = Some (phase_of (v_active v))).
Definition good (live : Prop) (c : Capture) : Prop := good_view live (view c).

Lemma good_ext live c d : view d = view c -> good live c -> good live d.
Proof. unfold good. by intros ->. Qed.

(** What each method does to the view. *)
Definition on_sent (l : list CapturedInput) (e : Env) (g : Globals) : list CapturedInput :=
  if receiver_open e then sent g ++ l else sent g.

Lemma view_send_input e ev c :
  view (send_input e ev c) =
  {| v_active := active (cs c); v_enabled := enabled (cs c); v_hidden := cursor_hidden (cs c);
     v_stats := stats_active (gl c); v_blocked := activation_blocked_until (cs c);
     v_sent := on_sent [Captured_Input ev] e (gl c) |}.
Proof. unfold send_input, on_sent. by destruct (receiver_open e). Qed.

Lemma hide_cursors_fields e ids : forall g,
  sent (hide_cursors e ids g) = sent g /\ stats_active (hide_cursors e ids g) = stats_active g.
Proof.
  induction ids as [|id ids IH]; intros g; [done|]. cbn [hide_cursors].
  destruct (cursor_created e id); [|done]. cbn [negb].
  destruct (cursor_replaced e id); [|done]. apply (IH (set_blanked (id :: blanked g) g)).
Qed.

Lemma view_hide e c :
  view (hide_source_cursor e c) =
  {| v_active := active (cs c); v_enabled := enabled (cs c); v_hidden := true;
     v_stats := stats_active (gl c); v_blocked := activation_blocked_until (cs c);
     v_sent := sent (gl c) |}.
Proof.
  unfold hide_source_cursor. destruct (cursor_hidden (cs c)) eqn:H.
  - unfold view. by rewrite H.
  - unfold view, on_cs, on_gl, hide_system_cursors. cbn [cs gl].
    destruct (hide_cursors_fields e CURSOR_IDS (show_cursor_down (gl c))) as [-> ->]. done.
Qed.

Lemma view_show c :
  view (show_source_cursor c) =
  {| v_active := active (cs c); v_enabled := enabled (cs c); v_hidden := false;
     v_stats := stats_active (gl c); v_blocked := activation_blocked_until (cs c);
     v_sent := sent (gl c) |}.
Proof.
  unfold show_source_cursor. destruct (cursor_hidden (cs c)) eqn:H; [done|].
  cbn [negb]. unfold view. by rewrite H.
Qed.

Lemma view_release e reason c :
  active (cs c) = true ->
  view (release_to_local e reason c) =
  {| v_active := false; v_enabled := enabled (cs c); v_hidden := false; v_stats := false;
     v_blocked := now e + RELEASE_REENTRY_COOLDOWN;
     v_sent := on_sent [Captured_Input AllKeysUp; Captured_Control (ReleaseToLocal reason)] e
                 (gl c) |}.
Proof.
  intros Ha. unfold release_to_local. rewrite Ha. cbn [negb].
  match goal with |- context [show_source_cursor ?d] => set (d' := d) end.
  transitivity (view (show_source_cursor d')); [done|]. rewrite view_show. subst d'.
  unfold send_input, send_control, on_sent. destruct (receiver_open e); [|done].
  cbn. by rewrite <- app_assoc.
Qed.

Lemma release_inactive e reason c : active (cs c) = false -> release_to_local e reason c = c.
Proof. intros H. unfold release_to_local. by rewrite H. Qed.

Lemma view_enter e point c :
  exists position,
  view (enter_remote e point c) =
  {| v_active := true; v_enabled := enabled (cs c); v_hidden := true; v_stats := true;
     v_blocked := activation_blocked_until (cs c);
     v_sent := on_sent [Captured_Control (EnterRemote (cap_edge (config (cs c))) position)] e
                 (gl c) |}.
Proof.
  exists (local_normalized_perpendicular (cs c) point). unfold enter_remote. rewrite view_hide.
  unfold send_control, on_sent. by destruct (receiver_open e).
Qed.

(** A method that neither enters nor leaves nor sends. *)
Lemma view_active c d : view d = view c -> active (cs d) = active (cs c).
Proof. intros H. by apply (f_equal v_active) in H. Qed.
Lemma view_enabled c d : view d = view c -> enabled (cs d) = enabled (cs c).
Proof. intros H. by apply (f_equal v_enabled) in H. Qed.

Section Invariant.
Context (live : Prop) (e : Env) (Hopen : live -> receiver_open e = true).

Lemma on_sent_open l g : live -> on_sent l e g = sent g ++ l.
Proof. intros Hl. unfold on_sent. by rewrite Hopen. Qed.

Lemma good_send ev c :
  active (cs c) = true -> ev <> AllKeysUp -> good live c -> good live (send_input e ev c).
Proof.
  intros Ha Hev (Hs & Hh & He & Hr). unfold good. rewrite view_send_input.
  unfold good_view. cbn [v_active v_enabled v_hidden v_stats v_sent view] in *.
  split_and!; try done. intros Hl. rewrite on_sent_open, replay_app, Hr, Ha by done.
  by destruct ev.
Qed.

Lemma good_release reason c : good live c -> good live (release_to_local e reason c).
Proof.
  intros Hg. destruct (active (cs c)) eqn:Ha; [|by rewrite release_inactive].
  destruct Hg as (Hs & Hh & He & Hr). unfold good. rewrite view_release by done.
  unfold good_view. cbn [v_active v_enabled v_hidden v_stats v_sent view] in *.
  split_and!; try done. intros Hl. by rewrite on_sent_open, replay_app, Hr, Ha.
Qed.

Lemma release_not_active reason c : active (cs (release_to_local e reason c)) = false.
Proof.
  destruct (active (cs c)) eqn:Ha; [|by rewrite release_inactive].
  by pose proof (f_equal v_active (view_release e reason c Ha)).
Qed.

Lemma good_enter point c :
  active (cs c) = false -> enabled (cs c) = true -> good live c -> good live (enter_remote e point c).
Proof.
  intros Ha Hen (Hs & Hh & He & Hr). destruct (view_enter e point c) as [n E].
  unfold good. rewrite E. unfold good_view.
  cbn [v_active v_enabled v_hidden v_stats v_sent view] in *.
  split_and!; try done; [by rewrite Hen|].
  intros Hl. by rewrite on_sent_open, replay_app, Hr, Ha.
Qed.

Lemma good_hide c : active (cs c) = true -> good live c -> good live (keep_source_cursor_hidden e c).
Proof.
  intros Ha Hg. pose proof Hg as (_ & Hh & _). unfold keep_source_cursor_hidden.
  cbn [view v_hidden v_active] in Hh. by rewrite Hh, Ha.
Qed.

Lemma good_show c : active (cs c) = false -> good live c -> good live (show_source_cursor c).
Proof.
  intros Ha Hg. pose proof Hg as (_ & Hh & _). unfold show_source_cursor.
  cbn [view v_hidden v_active] in Hh. by rewrite Hh, Ha.
Qed.

Lemma good_forward dx dy c : active (cs c) = true -> good live c -> good live (forward_motion e dx dy c).
Proof.
  intros Ha Hg. unfold forward_motion, release_if_remote_return_edge.
  match goal with |- context [send_input e ?ev ?d] => set (c' := send_input e ev d);
    assert (good live c') as Hc' by (apply good_send; [done..|by apply (good_ext live c)]) end.
  destruct (remote_at_return_edge (cs c')); cbn [negb]; [|done].
  apply good_release. by apply (good_ext live c').
Qed.

Lemma raw_delta_view x y absolute c : view (raw_delta x y absolute c).1 = view c.
Proof. by destruct absolute. Qed.

Lemma good_remote_motion point c :
  active (cs c) = true -> good live c -> good live (remote_motion e point c).
Proof. intros Ha Hg. unfold remote_motion. case_match; [done|]. by apply good_forward. Qed.

Lemma good_raw_remote x y absolute c :
  active (cs c) = true -> good live c -> good live (raw_remote_motion e x y absolute c).
Proof.
  intros Ha Hg. unfold raw_remote_motion. pose proof (raw_delta_view x y absolute c) as Hv.
  destruct (raw_delta x y absolute c) as [c' [[dx dy]|]]; cbn [fst] in Hv;
    [|by apply (good_ext live c)]. case_match; [by apply (good_ext live c)|].
  apply good_forward; [|by apply (good_ext live c)].
  by rewrite (view_active _ _ Hv).
Qed.

Lemma good_raw_local x y absolute c :
  active (cs c) = false -> enabled (cs c) = true -> good live c ->
  good live (raw_local_motion e x y absolute c).
Proof.
  intros Ha Hen Hg. unfold raw_local_motion.
  pose proof (eq_refl : view (virtual_edge_required e c).1 = view c) as Hv.
  destruct (virtual_edge_required e c) as [c1 required]. cbn [fst] in Hv.
  destruct required; cbn [negb]; [|by apply (good_ext live c)].
  pose proof (raw_delta_view x y absolute c1) as Hv2. rewrite Hv in Hv2.
  destruct (raw_delta x y absolute c1) as [c2 [[dx dy]|]]; cbn [fst] in Hv2;
    [|by apply (good_ext live c)]. case_match; [by apply (good_ext live c)|].
  match goal with |- context [on_cs (set_virtual_local_cursor ?v) c2] =>
    assert (view (on_cs (set_virtual_local_cursor v) c2) = view c) as Hv3 by done;
    set (c3 := on_cs (set_virtual_local_cursor v) c2) in * end.
  case_match; [|by apply (good_ext live c)]. apply good_enter; [..|by apply (good_ext live c)].
  - by rewrite (view_active _ _ Hv3).
  - by rewrite (view_enabled _ _ Hv3).
Qed.

Lemma refresh_view c : view (refresh_capture_suspension e c) = view c.
Proof.
  unfold refresh_capture_suspension, install_mouse_hook_if_needed.
  destruct (capture_suspended (cs c)); cbn [negb]; [|done].
  destruct (suspend_foreground (cs c)); [|done]. case_match; [done|].
  unfold view, on_gl, on_cs. cbn [cs gl]. by repeat case_match.
Qed.

Lemma good_toggle c : good live c -> good live (toggle_capture_suspended e c).
Proof.
  intros Hg. unfold toggle_capture_suspended.
  match goal with |- context [on_gl (bump suspend_toggles) ?d] =>
    set (c1 := on_gl (bump suspend_toggles) d); assert (view c1 = view c) as Hv by done end.
  clearbody c1. destruct (capture_suspended (cs c1)).
  - apply (good_ext live (show_source_cursor (release_to_local e Release_UserRequest c1))); [done|].
    apply good_show; [apply release_not_active|]. apply good_release. by apply (good_ext live c).
  - apply (good_ext live c); [|done]. rewrite <- Hv. unfold install_mouse_hook_if_needed, view, on_gl.
    cbn [cs gl]. by repeat case_match.
Qed.

Lemma modifier_view vk down c : view (on_cs (update_modifier vk down) c) = view c.
Proof.
  unfold update_modifier, on_cs.
  destruct ((vk =? VK_CONTROL) || (vk =? VK_LCONTROL) || (vk =? VK_RCONTROL)); [reflexivity|].
  destruct ((vk =? VK_MENU) || (vk =? VK_LMENU) || (vk =? VK_RMENU)); reflexivity.
Qed.

Lemma pointer_event_not_up m d ev : pointer_event m d = Some ev -> ev <> AllKeysUp.
Proof.
  intros H ->. destruct m; cbn [pointer_event] in H; try discriminate H;
    destruct (x_button d); discriminate H.
Qed.

End Invariant.

(** Nothing but the end of a capture is sent. *)
Definition only_releases (before after : list CapturedInput) : Prop :=
  after = before \/
  exists reason, after = before ++ [Captured_Input AllKeysUp; Captured_Control (ReleaseToLocal reason)].

(** What a hook owes: the invariant; while a capture is active its event is swallowed; an event
    it passes on is not sent. *)
Definition hook_contract (live : Prop) (c : Capture) (out : Capture * LRESULT) : Prop :=
  good live out.1 /\
  (active (cs out.1) = true -> out.2 = Swallow) /\
  (out.2 = CallNext -> only_releases (sent (gl c)) (sent (gl out.1))).

Section Hooks.
Context (live : Prop) (e : Env) (Hopen : live -> receiver_open e = true).

Lemma view_sent c d : view d = view c -> sent (gl d) = sent (gl c).
Proof. intros H. by apply (f_equal v_sent) in H. Qed.

Lemma release_only_releases reason c :
  only_releases (sent (gl c)) (sent (gl (release_to_local e reason c))).
Proof.
  destruct (active (cs c)) eqn:Ha; [|left; by rewrite release_inactive].
  pose proof (f_equal v_sent (view_release e reason c Ha)) as E. cbn [view v_sent] in E.
  rewrite E. unfold on_sent. destruct (receiver_open e); [right; by exists reason|by left].
Qed.

(** Passing on an event, the state the same to the view, or after a release. *)
Lemma contract_passes c d :
  good live c -> active (cs c) = false -> view d = view c -> hook_contract live c (d, CallNext).
Proof.
  intros Hg Ha Hv. split_and!; cbn [fst snd]; [by apply (good_ext live c)|..].
  - rewrite (view_active _ _ Hv), Ha. discriminate.
  - left. by apply view_sent.
Qed.

Lemma contract_releases c d reason :
  good live c -> view d = view c -> hook_contract live c (release_to_local e reason d, CallNext).
Proof.
  intros Hg Hv. split_and!; cbn [fst snd].
  - apply good_release; [done|]. by apply (good_ext live c).
  - rewrite release_not_active. discriminate.
  - intros _. rewrite <- (view_sent _ _ Hv). apply release_only_releases.
Qed.

Lemma contract_swallows c d : good live d -> hook_contract live c (d, Swallow).
Proof. intros Hg. by split_and!. Qed.

Lemma keep_hidden_active c : active (cs (keep_source_cursor_hidden e c)) = active (cs c).
Proof.
  unfold keep_source_cursor_hidden. destruct (cursor_hidden (cs c)); [done|].
  exact (f_equal v_active (view_hide e c)).
Qed.

Lemma mouse_hook_contract ev c : good live c -> hook_contract live c (mouse_hook_locked e ev c).
Proof.
  intros Hg. unfold mouse_hook_locked. destruct (enabled (cs c)) eqn:Hen; cbn [negb].
  2:{ apply contract_passes; [done| |done]. destruct Hg as (_ & _ & Hi & _). by apply Hi. }
  pose proof (refresh_view e c) as Hv. set (c1 := refresh_capture_suspension e c) in *.
  clearbody c1. destruct (capture_suspended (cs c1)).
  { destruct (active (cs c1)) eqn:Ha; [by apply contract_releases|].
    rewrite (view_active _ _ Hv) in Ha. case_match; by apply contract_passes. }
  pose proof (eq_refl : view (game_guard_blocks_capture e c1).1 = view c1) as Hv2.
  rewrite Hv in Hv2. destruct (game_guard_blocks_capture e c1) as [c2 blocked].
  cbn [fst] in Hv2. destruct blocked.
  { destruct (active (cs c2)) eqn:Ha; [by apply contract_releases|].
    rewrite (view_active _ _ Hv2) in Ha. case_match; by apply contract_passes. }
  destruct (active (cs c2)) eqn:Ha; cbn [negb].
  - case_match; [apply contract_swallows; by apply (good_ext live c)|].
    assert (good live c2) as Hg2 by (by apply (good_ext live c)). apply contract_swallows.
    destruct (is_move (m_message ev)).
    + pose proof (good_hide live e c2 Ha Hg2) as Hg3. case_match; [|done].
      apply good_remote_motion; [done|by rewrite keep_hidden_active|done].
    + destruct (pointer_event (m_message ev) (mouseData ev)) eqn:Hp; [|done].
      apply good_send; [done..| |done]. by eapply pointer_event_not_up.
  - match goal with |- context [activation_allowed e (cs ?d)] => set (c3 := d) end.
    assert (view c3 = view c) as Hv3.
    { rewrite <- Hv2. subst c3. destruct (is_move (m_message ev)); [|done].
      destruct (virtual_edge_required e c2) as [c4 required] eqn:Hr.
      assert (view c4 = view c2) as <- by (by injection Hr as <- _).
      by destruct required. }
    clearbody c3. rewrite (view_active _ _ Hv2) in Ha.
    case_match; [|by apply contract_passes].
    apply contract_swallows, good_enter; [done| | |by apply (good_ext live c)].
    + by rewrite (view_active _ _ Hv3).
    + by rewrite (view_enabled _ _ Hv3).
Qed.

Lemma keyboard_hook_contract ev c : good live c -> hook_contract live c (keyboard_hook_locked e ev c).
Proof.
  intros Hg. unfold keyboard_hook_locked.
  set (down := match k_message ev with WM_KEYDOWN | WM_SYSKEYDOWN => true | _ => false end).
  set (up := match k_message ev with WM_KEYUP | WM_SYSKEYUP => true | _ => false end).
  case_match; [by apply contract_swallows|].
  destruct (enabled (cs c)) eqn:Hen; cbn [negb].
  2:{ apply contract_passes; [done| |done]. destruct Hg as (_ & _ & Hi & _). by apply Hi. }
  match goal with |- context [ctrl_down (cs ?d)] => set (c1 := d) end.
  assert (view c1 = view c) as Hv.
  { rewrite <- (refresh_view e c). subst c1. destruct (down || up); [|done]. apply modifier_view. }
  clearbody c1. assert (good live c1) as Hg1 by (by apply (good_ext live c)).
  case_match; [apply contract_swallows; by apply good_toggle|].
  destruct (active (cs c1)) eqn:Ha; cbn [negb].
  2:{ rewrite (view_active _ _ Hv) in Ha. by apply contract_passes. }
  case_match; [apply contract_swallows; by apply good_release|]. apply contract_swallows.
  destruct (down || up); [|done].
  pose proof (good_hide live e c1 Ha Hg1) as Hg2.
  case_match; [|by apply (good_ext live (keep_source_cursor_hidden e c1))].
  by apply good_send; [|rewrite keep_hidden_active|..].
Qed.
End Hooks.

(** *** The invariant of the process *)

Definition good_process (live : Prop) (p : Process) : Prop :=
  match STATE p with
  | Some s => good live {| cs := s; gl := GLOBALS p |}
  | None => stats_active (GLOBALS p) = false /\ sent (GLOBALS p) = []
  end.

(** An update of the statics that touches neither the flag nor the stream. *)
Definition quiet (f : Globals -> Globals) : Prop :=
  forall g, stats_active (f g) = stats_active g /\ sent (f g) = sent g.

Lemma good_on_globals live f p : quiet f -> good_process live p -> good_process live (on_globals f p).
Proof.
  intros Hf. unfold good_process, on_globals. cbn [STATE GLOBALS].
  destruct (Hf (GLOBALS p)) as [E1 E2]. destruct (STATE p) as [s|]; [|by rewrite E1, E2].
  apply good_ext. unfold view. cbn [cs gl]. by rewrite E1, E2.
Qed.

Lemma good_count live n p : good_process live p -> good_process live (count n p).
Proof. by apply (good_on_globals live (bump n)). Qed.

Section Process.
Context (live : Prop) (e : Env) (Hopen : live -> receiver_open e = true).

Lemma good_hook_entry code extra contended events locked p :
  (forall c, good live c -> hook_contract live c (locked c)) ->
  good_process live p -> good_process live (hook_entry code extra contended events locked p).1.
Proof.
  intros Hl Hg. unfold hook_entry. case_match; [done|].
  pose proof (good_count live events p Hg) as Hg'. set (p' := count events p) in *.
  clearbody p'. case_match; [done|]. destruct (STATE p') as [s|] eqn:Hs; [|done].
  destruct contended; [by apply good_count|].
  unfold good_process in Hg'. rewrite Hs in Hg'. destruct (Hl _ Hg') as (Hgood & _).
  by destruct (locked _) as [c r].
Qed.

Lemma good_raw contended input p :
  good_process live p -> good_process live (handle_raw_mouse_input e contended input p).
Proof.
  intros Hg. destruct input as [| | |x y absolute]; cbn [handle_raw_mouse_input];
    [done|by apply good_count|done|].
  pose proof (good_count live RAW_MOUSE_EVENTS p Hg) as Hg'.
  set (p' := count RAW_MOUSE_EVENTS p) in *. clearbody p'.
  destruct (STATE p') as [s|] eqn:Hs; [|done].
  destruct contended; [by apply good_count|].
  unfold good_process in Hg'. rewrite Hs in Hg'.
  set (c := {| cs := set_last_raw_input (Some (now e)) s; gl := GLOBALS p' |}).
  assert (good live c) as Hc by done. unfold good_process, unlock. cbn [STATE GLOBALS].
  match goal with |- good live {| cs := cs ?d; gl := gl _ |} => change (good live d) end.
  destruct (enabled (cs c)) eqn:Hen; cbn [negb]; [|done].
  destruct (active (cs c)) eqn:Ha; [by apply good_raw_remote|by apply good_raw_local].
Qed.

Lemma good_with_state {A} (none : A) f p :
  (forall c, good live c -> good live (f c).1) ->
  good_process live p -> good_process live (with_state none f p).1.
Proof.
  intros Hf Hg. unfold with_state. destruct (STATE p) as [s|] eqn:Hs; [|done].
  unfold good_process in Hg. rewrite Hs in Hg. specialize (Hf _ Hg).
  by destruct (f _) as [c a].
Qed.

Lemma good_set_enabled value reason p :
  good_process live p -> good_process live (set_enabled_with_release_reason e value reason p).
Proof.
  apply good_with_state. intros c Hg. cbn [fst]. destruct (Bool.eqb_spec (enabled (cs c)) value);
    [done|].
  set (c1 := if negb value then release_to_local e reason c else c).
  assert (good live c1 /\ active (cs c1) = false) as [Hg1 Ha1].
  { subst c1. destruct value; cbn [negb].
    - split; [done|]. destruct Hg as (_ & _ & Hi & _). apply Hi. cbn [view v_enabled].
      by destruct (enabled (cs c)).
    - split; [by apply good_release|apply release_not_active]. }
  apply good_show; [done|]. destruct Hg1 as (Hs & Hh & _ & Hr). by split_and!.
Qed.

Lemma good_restart_raw p : good_process live p -> good_process live (restart_raw_input_worker e p).1.
Proof.
  intros Hg. unfold restart_raw_input_worker, spawn_raw_input_worker.
  destruct (thread_spawned e); cbn [fst]; [apply good_count|];
    by repeat (apply good_on_globals; [done|]).
Qed.

Lemma good_restart_hooks p : good_process live p -> good_process live (restart_hook_worker e p).1.
Proof.
  intros Hg. unfold restart_hook_worker, spawn_hook_worker, stop_hook_worker.
  destruct (thread_spawned e); cbn [fst]; [do 2 apply good_count|];
    by repeat (apply good_on_globals; [done|]).
Qed.

Lemma good_restart_all p : good_process live p -> good_process live (restart_input_workers e p).1.
Proof.
  intros Hg. unfold restart_input_workers. pose proof (good_restart_raw p Hg) as H.
  destruct (restart_raw_input_worker e p) as [p' ok]. destruct ok; [|done].
  by apply good_restart_hooks.
Qed.

Lemma good_hook_thread thread p :
  good_process live p -> good_process live (run_hook_thread e thread p).
Proof.
  intros Hg. unfold run_hook_thread.
  repeat (apply good_on_globals; [intros g; by repeat case_match|]). done.
Qed.

Lemma good_start cfg p : good_process live p -> good_process live (start e cfg p).1.
Proof.
  intros Hg. unfold start.
  set (p1 := on_globals (set_stats_suspended false) (on_globals (set_stats_active false) p)).
  assert (forall g, stats_active g = false -> good_process live
    {| STATE := Some (initial_state e cfg); GLOBALS := set_sent [] g |}) as Hnew.
  { intros g Hs. by split_and!. }
  change (STATE p1) with (STATE p). destruct (STATE p) as [s|].
  - apply good_restart_all, Hnew. exact (f_equal v_stats (view_show {| cs := s; gl := GLOBALS p1 |})).
  - specialize (Hnew (GLOBALS p1) eq_refl).
    set (p2 := {| STATE := Some (initial_state e cfg); GLOBALS := set_sent [] (GLOBALS p1) |}) in *.
    clearbody p2. cbn [spawn_raw_input_worker spawn_hook_worker]. unfold stop_hook_worker.
    destruct (thread_spawned e); cbn [negb fst]; [|by repeat (apply good_on_globals; [done|])].
    unfold start_input_supervisor. case_match; cbn [fst];
      by repeat (apply good_on_globals; [done|]).
Qed.

Lemma good_step ev p : good_process live p -> good_process live (step e ev p).
Proof.
  intros Hg. destruct ev; cbn [step].
  - apply good_hook_entry; [|done]. intros c. by apply mouse_hook_contract.
  - apply good_hook_entry; [|done]. intros c. by apply keyboard_hook_contract.
  - by apply good_raw.
  - apply good_with_state; [|done]. intros c Hc. cbn [fst].
    apply good_show; [apply release_not_active|by apply good_release].
  - apply good_with_state; [|done]. intros c Hc. repeat case_match; cbn [fst]; try done;
      by apply good_release.
  - by apply good_set_enabled.
  - by apply good_set_enabled.
  - by apply good_restart_raw.
  - by apply good_restart_hooks.
  - by apply good_restart_all.
  - by apply good_hook_thread.
  - by apply good_on_globals.
  - by apply good_start.
Qed.
End Process.

Lemma good_run live l p :
  (live -> Forall (fun x => receiver_open x.1 = true) l) ->
  good_process live p -> good_process live (run l p).
Proof.
  revert p. induction l as [|x l IH]; intros p Hl Hg; [done|].
  apply IH.
  - intros Hlive. specialize (Hl Hlive). by apply Forall_cons in Hl as [_ ?].
  - apply good_step; [|done]. intros Hlive. specialize (Hl Hlive).
    by apply Forall_cons in Hl as [? _].
Qed.

(** *** Theorems *)

(** C2. While the receiver of the channel lives, the peer sees whole captures: control is entered,
    input follows, and before control is entered again all keys are up and the release is sent;
    the last capture is open exactly while the state is active. *)
Theorem peer_sees_whole_captures l :
  Forall (fun x => receiver_open x.1 = true) l ->
  replay (sent (GLOBALS (run l initial_process))) =
  Some (phase_of (match STATE (run l initial_process) with Some s => active s | None => false end)).
Proof.
  intros Hl. assert (good_process True (run l initial_process)) as Hg by (by apply good_run).
  unfold good_process in Hg. destruct (STATE (run l initial_process)).
  - destruct Hg as (_ & _ & _ & Hr). by apply Hr.
  - destruct Hg as [_ ->]. done.
Qed.

(** Whatever the order of the callbacks and the calls, restarts and a closed channel included:
    the flag read without the lock and the hidden cursor agree with the state, and a capture that
    is not enabled is not active. *)
Theorem capture_flags_agree l s :
  STATE (run l initial_process) = Some s ->
  stats_active (GLOBALS (run l initial_process)) = active s /\ cursor_hidden s = active s /\
  (enabled s = false -> active s = false).
Proof.
  intros Hs. assert (good_process False (run l initial_process)) as Hg by (by apply good_run).
  unfold good_process in Hg. rewrite Hs in Hg. by destruct Hg as (? & ? & ? & _).
Qed.

(** C4. An event reaches one computer: while a capture is active at the end of a callback, the event
    of the user was swallowed; and an event passed on to Windows is not sent to the peer, which
    is told of at most the end of the capture. *)
Theorem events_reach_one_computer l e contended p out :
  p = run l initial_process -> STATE p <> None ->
  (exists ev, out = mouse_hook e contended ev p /\ m_code ev = HC_ACTION /\
              is_edge_kvm_injected (m_extra_info ev) = false) \/
  (exists ev, out = keyboard_hook e contended ev p /\ k_code ev = HC_ACTION /\
              is_edge_kvm_injected (k_extra_info ev) = false) ->
  (stats_active (GLOBALS out.1) = true -> out.2 = Swallow) /\
  (out.2 = CallNext -> only_releases (sent (GLOBALS p)) (sent (GLOBALS out.1))).
Proof.
  intros -> Hs Hout. assert (good_process False (run l initial_process)) as Hg by (by apply good_run).
  set (p := run l initial_process) in *. clearbody p.
  assert (exists code extra events locked,
    out = hook_entry code extra contended events locked p /\ code = HC_ACTION /\
    is_edge_kvm_injected extra = false /\
    (forall c, good False c -> hook_contract False c (locked c))) as
    (code & extra & events & locked & -> & -> & Htag & Hc).
  { destruct Hout as [(ev & -> & ? & ?)|(ev & -> & ? & ?)]; unfold mouse_hook, keyboard_hook;
      do 4 eexists; (split; [reflexivity|]); split_and!; try done; intros c Hgc;
      [by apply mouse_hook_contract|by apply keyboard_hook_contract]. }
  unfold hook_entry. rewrite Htag. cbn [HC_ACTION Z.eqb negb].
  unfold good_process in Hg. change (STATE (count events p)) with (STATE p).
  destruct (STATE p) as [s|]; [|done]. destruct contended.
  - cbn [fst snd]. split; [|intros _; by left]. intros Ha.
    change (stats_active (GLOBALS p) = true) in Ha.
    change (stats_active (GLOBALS (count events p))) with (stats_active (GLOBALS p)). by rewrite Ha.
  - assert (good False {| cs := s; gl := GLOBALS (count events p) |}) as Hg' by done.
    destruct (Hc _ Hg') as (Hg2 & Hsw & Hpass). clear Hc.
    destruct (locked _) as [c r]. cbn [fst snd unlock GLOBALS] in *.
    split; [|done]. intros Ha. apply Hsw. destruct Hg2 as (Hst & _).
    cbn [view v_stats v_active] in Hst. by rewrite <- Hst.
Qed.

(** *** Concrete environments *)

Definition desk : Env :=
  {| now := 10 ^ 9; foreground := 7; window_rect := None; monitor_rect := None;
     clip_cursor := None; metrics := {| left := 0; top := 0; width := 1920; height := 1080 |};
     receiver_open := true; mouse_hook_result := 11; keyboard_hook_result := 12;
     cursor_created := fun _ => true; cursor_replaced := fun _ => true; last_input_info := Some 0;
     thread_spawned := true |}.
Definition at_time : Z -> Env -> Env := ltac:(field_setter now).
Definition desk_config : CaptureConfig :=
  {| cap_edge := Edge_Left; remote_size := {| size_width := 1920; size_height := 1080 |};
     game_compatibility := AlwaysEnabled |}.
Definition moved (x y : Z) : MouseHookEvent :=
  {| m_code := 0; m_message := WM_MOUSEMOVE; m_pt := {| pt_x := x; pt_y := y |}; mouseData := 0;
     m_flags := 0; m_extra_info := 0 |}.
Definition pressed (vk scan : Z) : KeyboardHookEvent :=
  {| k_code := 0; k_message := WM_KEYDOWN; vkCode := vk; scanCode := scan; k_flags := 0;
     k_extra_info := 0 |}.
(** The pointer crosses the left edge and a key is pressed. *)
Definition crossing : list (Env * CaptureEvent) :=
  [(desk, Ev_start desk_config); (desk, Ev_hook_thread 5);
   (desk, Ev_mouse false (moved 0 540)); (desk, Ev_keyboard false (pressed 0x41 0x1e))].

Lemma peer_sees_whole_captures_witness :
  replay (sent (GLOBALS (run crossing initial_process))) = Some Phase_Remote.
Proof. refine (eq_trans (peer_sees_whole_captures crossing _) _); [by repeat constructor|vm_compute; reflexivity]. Defined.

Lemma capture_flags_agree_witness :
  exists s, STATE (run crossing initial_process) = Some s /\
  (stats_active (GLOBALS (run crossing initial_process)) = active s /\ cursor_hidden s = active s /\
  (enabled s = false -> active s = false)).
Proof.
  destruct (STATE (run crossing initial_process)) as [s|] eqn:H; [|vm_compute in H; discriminate].
  exists s. split; [reflexivity|]. exact (capture_flags_agree crossing s H).
Defined.

Lemma events_reach_one_computer_witness :
  (stats_active (GLOBALS (keyboard_hook desk false (pressed 0x41 0x1e)
                             (run crossing initial_process)).1) = true ->
   (keyboard_hook desk false (pressed 0x41 0x1e) (run crossing initial_process)).2 = Swallow) /\
  ((keyboard_hook desk false (pressed 0x41 0x1e) (run crossing initial_process)).2 = CallNext ->
   only_releases (sent (GLOBALS (run crossing initial_process)))
     (sent (GLOBALS (keyboard_hook desk false (pressed 0x41 0x1e)
                        (run crossing initial_process)).1))).
Proof.
  refine (events_reach_one_computer crossing desk false _ _ eq_refl _ _);
    [vm_compute; discriminate|]. right. exists (pressed 0x41 0x1e). repeat split.
Defined.

(** *** Control comes back *)

Definition view_of (p : Process) : option View :=
  option_map (fun s => view {| cs := s; gl := GLOBALS p |}) (STATE p).

(** C21. Ctrl+Alt+Pause and Ctrl+Alt+Escape return control, whatever else the state holds: the key is
    swallowed, the peer gets all keys up and the release, the pointer shows again. *)
Theorem hotkey_returns_control e ev p s :
  STATE p = Some s -> active s = true -> enabled s = true ->
  ctrl_down s = true -> alt_down s = true ->
  k_code ev = HC_ACTION -> is_edge_kvm_injected (k_extra_info ev) = false ->
  Z.land (k_flags ev) LLKHF_INJECTED = 0 ->
  k_message ev = WM_KEYDOWN \/ k_message ev = WM_SYSKEYDOWN ->
  vkCode ev = VK_PAUSE \/ vkCode ev = VK_ESCAPE ->
  let '(p', r) := keyboard_hook e false ev p in
  r = Swallow /\
  view_of p' = Some {| v_active := false; v_enabled := true; v_hidden := false; v_stats := false;
    v_blocked := now e + RELEASE_REENTRY_COOLDOWN;
    v_sent := on_sent [Captured_Input AllKeysUp; Captured_Control (ReleaseToLocal Hotkey)] e
                (GLOBALS p) |}.
Proof.
  intros Hs Ha Hen Hc Hal Hcode Htag Hinj Hmsg Hvk.
  unfold keyboard_hook, hook_entry. rewrite Hcode, Htag. cbn [HC_ACTION Z.eqb negb].
  change (STATE (count keyboard_hook_events p)) with (STATE p). rewrite Hs.
  set (c := {| cs := s; gl := GLOBALS (count keyboard_hook_events p) |}).
  unfold keyboard_hook_locked. rewrite Hinj. cbn [Z.eqb negb andb].
  assert ((match k_message ev with WM_KEYDOWN | WM_SYSKEYDOWN => true | _ => false end) = true)
    as -> by (by destruct Hmsg as [-> | ->]). cbn [orb andb].
  change (enabled (cs c)) with (enabled s). rewrite Hen. cbn [negb].
  assert (forall t, update_modifier (vkCode ev) true t = t) as Hmod
    by (intros t; by destruct Hvk as [-> | ->]).
  pose proof (refresh_view e c) as Hv.
  assert (ctrl_down (cs (refresh_capture_suspension e c)) = true /\
          alt_down (cs (refresh_capture_suspension e c)) = true) as [Hc' Hal'].
  { unfold refresh_capture_suspension. repeat case_match; done. }
  set (c1 := on_cs (update_modifier (vkCode ev) true) (refresh_capture_suspension e c)).
  assert (cs c1 = cs (refresh_capture_suspension e c) /\ view c1 = view c) as [Ec Hv1].
  { split; [apply Hmod|]. rewrite <- Hv. apply modifier_view. }
  rewrite Ec, Hc', Hal'. cbn [andb].
  assert (vkCode ev =? VK_G = false) as -> by (by destruct Hvk as [-> | ->]).
  assert (active (cs (refresh_capture_suspension e c)) = true) as Hac
    by (by rewrite (view_active _ _ Hv)). rewrite Hac. cbn [negb].
  assert (is_release_hotkey (vkCode ev) = true) as -> by (by destruct Hvk as [-> | ->]).
  split; [done|]. unfold view_of, unlock. cbn [STATE GLOBALS option_map]. f_equal.
  transitivity (view (release_to_local e Hotkey c1)); [done|].
  rewrite view_release by (by rewrite Ec). rewrite (view_enabled _ _ Hv1).
  unfold on_sent. rewrite (view_sent _ _ Hv1). change (enabled (cs c)) with (enabled s).
  by rewrite Hen.
Qed.

Lemma hotkey_returns_control_witness :
  let p := run (crossing ++ [(desk, Ev_keyboard false (pressed VK_LCONTROL 0x1d));
                             (desk, Ev_keyboard false (pressed VK_LMENU 0x38))]) initial_process in
  exists v, view_of (keyboard_hook desk false (pressed VK_ESCAPE 1) p).1 = Some v /\
            v_active v = false.
Proof.
  cbv zeta. match goal with |- context [keyboard_hook _ _ _ ?q] => set (p := q) end.
  destruct (STATE p) as [s|] eqn:Hs; [|vm_compute in Hs; discriminate].
  assert (active s = true /\ enabled s = true /\ ctrl_down s = true /\ alt_down s = true)
    as (Ha & He & Hc & Hal)
    by (vm_compute in Hs; injection Hs as <-; repeat split).
  pose proof (hotkey_returns_control desk (pressed VK_ESCAPE 1) p s Hs Ha He Hc Hal eq_refl eq_refl
    eq_refl (or_introl eq_refl) (or_intror eq_refl)) as H.
  destruct (keyboard_hook desk false (pressed VK_ESCAPE 1) p) as [p' r].
  destruct H as [_ H]. eexists. split; [exact H|reflexivity].
Defined.

(** *** No capture during the cooldown *)

(** A method on an idle capture that may not yet be activated leaves it idle. *)
Definition blocked_at (e : Env) (c : Capture) : Prop :=
  active (cs c) = false /\ now e < activation_blocked_until (cs c).
Definition idle (c d : Capture) : Prop :=
  v_active (view d) = false /\ v_blocked (view d) = v_blocked (view c) /\
  v_sent (view d) = v_sent (view c).

Lemma idle_view c d : active (cs c) = false -> view d = view c -> idle c d.
Proof. unfold idle. intros H ->. done. Qed.
Lemma view_blocked c d :
  view d = view c -> activation_blocked_until (cs d) = activation_blocked_until (cs c).
Proof. intros H. by apply (f_equal v_blocked) in H. Qed.

Lemma blocked_not_allowed e c d :
  blocked_at e c -> view d = view c -> activation_allowed e (cs d) = false.
Proof.
  intros [_ Hb] Hv. unfold activation_allowed. rewrite (view_blocked _ _ Hv). lia.
Qed.

Lemma idle_toggle e c : blocked_at e c -> idle c (toggle_capture_suspended e c).
Proof.
  intros [Ha _]. unfold toggle_capture_suspended.
  match goal with |- context [on_gl (bump suspend_toggles) ?d] =>
    set (c1 := on_gl (bump suspend_toggles) d); assert (view c1 = view c) as Hv by done end.
  clearbody c1. destruct (capture_suspended (cs c1)).
  - rewrite release_inactive by (by rewrite (view_active _ _ Hv)).
    match goal with |- idle c (?f uninstall_mouse_hook (show_source_cursor c1)) =>
      assert (view (f uninstall_mouse_hook (show_source_cursor c1)) = view (show_source_cursor c1))
        as E by done end.
    unfold idle. rewrite E, view_show. cbn [v_active v_blocked v_sent].
    rewrite (view_active _ _ Hv), (view_blocked _ _ Hv), (view_sent _ _ Hv). done.
  - apply idle_view; [done|]. rewrite <- Hv. unfold install_mouse_hook_if_needed, view, on_gl.
    cbn [cs gl]. by repeat case_match.
Qed.

Lemma idle_mouse e ev c : blocked_at e c -> idle c (mouse_hook_locked e ev c).1.
Proof.
  intros Hb. pose proof Hb as [Ha _]. unfold mouse_hook_locked.
  destruct (enabled (cs c)); cbn [negb]; [|by apply idle_view].
  pose proof (refresh_view e c) as Hv. set (c1 := refresh_capture_suspension e c) in *.
  clearbody c1. destruct (capture_suspended (cs c1)).
  { rewrite (view_active _ _ Hv), Ha. cbn [fst]. case_match; by apply idle_view. }
  pose proof (eq_refl : view (game_guard_blocks_capture e c1).1 = view c1) as Hv2.
  rewrite Hv in Hv2. destruct (game_guard_blocks_capture e c1) as [c2 blocked].
  cbn [fst] in Hv2. rewrite (view_active _ _ Hv2), Ha. destruct blocked; cbn [negb fst].
  { case_match; by apply idle_view. }
  match goal with |- context [activation_allowed e (cs ?d)] => set (c3 := d) end.
  assert (view c3 = view c) as Hv3.
  { rewrite <- Hv2. subst c3. destruct (is_move (m_message ev)); [|done].
    destruct (virtual_edge_required e c2) as [c4 required] eqn:Hr.
    assert (view c4 = view c2) as <- by (by injection Hr as <- _).
    by destruct required. }
  rewrite (blocked_not_allowed e c c3), andb_false_r by done. by apply idle_view.
Qed.

Lemma idle_keyboard e ev c : blocked_at e c -> idle c (keyboard_hook_locked e ev c).1.
Proof.
  intros Hb. pose proof Hb as [Ha Hn]. unfold keyboard_hook_locked.
  case_match; [by apply idle_view|].
  destruct (enabled (cs c)); cbn [negb]; [|by apply idle_view].
  match goal with |- context [ctrl_down (cs ?d)] => set (c1 := d) end.
  assert (view c1 = view c) as Hv.
  { rewrite <- (refresh_view e c). subst c1. case_match; [|done]. apply modifier_view. }
  clearbody c1. case_match.
  - destruct (idle_toggle e c1) as (H1 & H2 & H3).
    { split; [by rewrite (view_active _ _ Hv)|by rewrite (view_blocked _ _ Hv)]. }
    unfold idle. rewrite Hv in H2, H3. done.
  - rewrite (view_active _ _ Hv), Ha. cbn [negb fst]. by apply idle_view.
Qed.

Lemma idle_raw_local e x y absolute c : blocked_at e c -> idle c (raw_local_motion e x y absolute c).
Proof.
  intros Hb. pose proof Hb as [Ha _]. unfold raw_local_motion.
  pose proof (eq_refl : view (virtual_edge_required e c).1 = view c) as Hv.
  destruct (virtual_edge_required e c) as [c1 required]. cbn [fst] in Hv.
  destruct required; cbn [negb]; [|by apply idle_view].
  pose proof (raw_delta_view x y absolute c1) as Hv2. rewrite Hv in Hv2.
  destruct (raw_delta x y absolute c1) as [c2 [[dx dy]|]]; cbn [fst] in Hv2; [|by apply idle_view].
  case_match; [by apply idle_view|].
  match goal with |- context [on_cs (set_virtual_local_cursor ?v) c2] =>
    assert (view (on_cs (set_virtual_local_cursor v) c2) = view c) as Hv3 by done;
    set (c3 := on_cs (set_virtual_local_cursor v) c2) in * end.
  rewrite (blocked_not_allowed e c c3) by done. by apply idle_view.
Qed.

(** The same of the process. *)
Definition idle_process (until : Instant) (told : list CapturedInput) (p : Process) : Prop :=
  exists v, view_of p = Some v /\ v_active v = false /\ v_blocked v = until /\ v_sent v = told.

Lemma idle_state until told p s :
  STATE p = Some s ->
  idle_process until told p <->
  active s = false /\ activation_blocked_until s = until /\ sent (GLOBALS p) = told.
Proof.
  intros Hs. unfold idle_process, view_of. rewrite Hs. cbn [option_map].
  split; [by intros (v & [= <-] & H)|intros H; by eexists].
Qed.

Lemma idle_unlock until told c d :
  active (cs c) = false -> activation_blocked_until (cs c) = until -> sent (gl c) = told ->
  idle c d -> idle_process until told (unlock d).
Proof. intros _ H2 H3 (I1 & I2 & I3). exists (view d). split_and!; [done..|exact (eq_trans I2 H2)|exact (eq_trans I3 H3)]. Qed.

Definition is_start (ev : CaptureEvent) : bool := match ev with Ev_start _ => true | _ => false end.

Lemma idle_globals until told f p :
  (forall g, sent (f g) = sent g) ->
  idle_process until told p -> idle_process until told (on_globals f p).
Proof.
  intros Hf (v & Hv & Ha & Hb & Ht). unfold view_of in *. destruct p as [[s|] g]; [|done].
  injection Hv as <-. eexists. split; [reflexivity|]. cbn in *. by rewrite Hf.
Qed.

Lemma idle_with_state {A} until told (none : A) f p :
  (forall c, active (cs c) = false -> idle c (f c).1) ->
  idle_process until told p -> idle_process until told (with_state none f p).1.
Proof.
  intros Hf Hi. pose proof Hi as (v & Hv & _). unfold with_state, view_of in *.
  destruct (STATE p) as [s|] eqn:Hs; [|done]. pose proof (proj1 (idle_state _ _ _ _ Hs) Hi) as (Ha & Hb & Ht).
  specialize (Hf {| cs := s; gl := GLOBALS p |} Ha). destruct (f _) as [d a].
  exact (idle_unlock _ _ {| cs := s; gl := GLOBALS p |} d Ha Hb Ht Hf).
Qed.

Lemma idle_release_show e reason c :
  active (cs c) = false -> idle c (show_source_cursor (release_to_local e reason c)).
Proof.
  intros Ha. rewrite release_inactive by done. unfold idle. rewrite view_show.
  by cbn [v_active v_blocked v_sent].
Qed.

Lemma idle_hook_entry e code extra contended events locked p until told :
  (forall c, blocked_at e c -> idle c (locked c).1) -> now e < until ->
  idle_process until told p ->
  idle_process until told (hook_entry code extra contended events locked p).1.
Proof.
  intros Hl Hnow Hi. unfold hook_entry. case_match; [done|].
  assert (idle_process until told (count events p)) as Hi1
    by (by apply (idle_globals _ _ (bump events))).
  set (p1 := count events p) in *. clearbody p1. case_match; [done|].
  destruct (STATE p1) as [s|] eqn:Hs; [|done].
  destruct contended; [by apply (idle_globals _ _ (bump callback_contention_drops))|].
  pose proof (proj1 (idle_state _ _ _ _ Hs) Hi1) as (Ha & Hb & Ht).
  assert (blocked_at e {| cs := s; gl := GLOBALS p1 |}) as Hbl by (split; cbn [cs]; [done|lia]).
  specialize (Hl _ Hbl). destruct (locked _) as [d r]. cbn [fst] in *.
  exact (idle_unlock _ _ {| cs := s; gl := GLOBALS p1 |} d Ha Hb Ht Hl).
Qed.

Lemma idle_raw e contended input p until told :
  now e < until -> idle_process until told p ->
  idle_process until told (handle_raw_mouse_input e contended input p).
Proof.
  intros Hnow Hi. destruct input as [| | |x y absolute]; cbn [handle_raw_mouse_input];
    [done|by apply (idle_globals _ _ (bump RAW_KEYBOARD_EVENTS))|done|].
  assert (idle_process until told (count RAW_MOUSE_EVENTS p)) as Hi1
    by (by apply (idle_globals _ _ (bump RAW_MOUSE_EVENTS))).
  set (p1 := count RAW_MOUSE_EVENTS p) in *. clearbody p1.
  destruct (STATE p1) as [s|] eqn:Hs; [|done].
  destruct contended; [by apply (idle_globals _ _ (bump callback_contention_drops))|].
  pose proof (proj1 (idle_state _ _ _ _ Hs) Hi1) as (Ha & Hb & Ht).
  set (c := {| cs := set_last_raw_input (Some (now e)) s; gl := GLOBALS p1 |}).
  assert (blocked_at e c) as Hbl.
  { split; [done|]. change (now e < activation_blocked_until s). lia. }
  eapply (idle_unlock _ _ c); [done..|]. clearbody c. destruct Hbl as [Hac Hbl]. rewrite Hac.
  destruct (enabled (cs c)); cbn [negb]; [by apply idle_raw_local|by apply idle_view].
Qed.

Lemma idle_workers e until told p :
  idle_process until told p ->
  idle_process until told (restart_raw_input_worker e p).1 /\
  idle_process until told (restart_hook_worker e p).1 /\
  idle_process until told (restart_input_workers e p).1.
Proof.
  assert (forall q, idle_process until told q ->
    idle_process until told (restart_hook_worker e q).1) as Hh.
  { intros q Hq. unfold restart_hook_worker, spawn_hook_worker, stop_hook_worker, count.
    destruct (thread_spawned e); cbn [fst];
      [change (idle_process until told (on_globals (bump keyboard_hook_repairs)
         (on_globals (bump mouse_hook_repairs) (stop_hook_worker q))));
       unfold stop_hook_worker|]; by repeat (apply idle_globals; [done|]). }
  assert (forall q, idle_process until told q ->
    idle_process until told (restart_raw_input_worker e q).1) as Hr.
  { intros q Hq. unfold restart_raw_input_worker, spawn_raw_input_worker.
    destruct (thread_spawned e); cbn [fst];
      [apply (idle_globals _ _ (bump raw_input_repairs)); [done|]|];
      by repeat (apply idle_globals; [done|]). }
  intros Hp. split_and!; [by apply Hr|by apply Hh|]. unfold restart_input_workers.
  specialize (Hr p Hp). destruct (restart_raw_input_worker e p) as [q ok]. cbn [fst] in Hr.
  destruct ok; [by apply Hh|done].
Qed.

Lemma idle_step e ev p until told :
  now e < until -> is_start ev = false -> idle_process until told p ->
  idle_process until told (step e ev p).
Proof.
  intros Hnow Hev Hi. destruct (idle_workers e until told p Hi) as (H1 & H2 & H3).
  destruct ev; cbn [step]; try discriminate; try done.
  - apply (idle_hook_entry e); [|done..]. intros c. apply idle_mouse.
  - apply (idle_hook_entry e); [|done..]. intros c. apply idle_keyboard.
  - by apply idle_raw.
  - apply idle_with_state; [|done]. intros c. apply idle_release_show.
  - apply idle_with_state; [|done]. intros c Ha. rewrite Ha. by apply idle_view.
  - apply idle_with_state; [|done]. intros c Ha. cbn [fst].
    destruct (Bool.eqb _ _); [by apply idle_view|]. cbn [negb]. rewrite release_inactive by done.
    unfold idle. rewrite view_show. by cbn [v_active v_blocked v_sent].
  - apply idle_with_state; [|done]. intros c Ha. cbn [fst].
    destruct (Bool.eqb _ _); [by apply idle_view|]. rewrite release_inactive by done.
    destruct (negb value); unfold idle; rewrite view_show; by cbn [v_active v_blocked v_sent].
  - unfold run_hook_thread. repeat (apply idle_globals; [intros g; by repeat case_match|]). done.
Qed.

Lemma idle_run l p until told :
  Forall (fun x => now x.1 < until /\ is_start x.2 = false) l ->
  idle_process until told p -> idle_process until told (run l p).
Proof.
  revert p. induction l as [|x l IH]; intros p Hl Hi; [done|].
  apply Forall_cons in Hl as [[? ?] Hl]. apply IH; [done|]. by apply idle_step.
Qed.

(** A method on an active capture leaves it active, or returns control and starts the cooldown. *)
Definition cools (e : Env) (v : View) : Prop :=
  v_active v = true \/ v_active v = false /\ v_blocked v = now e + RELEASE_REENTRY_COOLDOWN.

Lemma cools_active e c : active (cs c) = true -> cools e (view c).
Proof. by left. Qed.
Lemma cools_release e reason c : active (cs c) = true -> cools e (view (release_to_local e reason c)).
Proof. intros Ha. right. by rewrite view_release. Qed.
Lemma cools_view e c d : view d = view c -> cools e (view c) -> cools e (view d).
Proof. by intros ->. Qed.

Lemma cools_forward e dx dy c : active (cs c) = true -> cools e (view (forward_motion e dx dy c)).
Proof.
  intros Ha. unfold forward_motion, release_if_remote_return_edge.
  match goal with |- context [send_input e ?ev ?d] => set (c' := send_input e ev d);
    assert (active (cs c') = true) as Ha'
      by (exact (eq_trans (f_equal v_active (view_send_input e ev d)) Ha)) end.
  destruct (remote_at_return_edge (cs c')); cbn [negb]; [|by left].
  by apply cools_release.
Qed.

Lemma cools_mouse e ev c : active (cs c) = true -> cools e (view (mouse_hook_locked e ev c).1).
Proof.
  intros Ha. unfold mouse_hook_locked. destruct (enabled (cs c)); cbn [negb]; [|by left].
  pose proof (refresh_view e c) as Hv. set (c1 := refresh_capture_suspension e c) in *.
  clearbody c1. assert (active (cs c1) = true) as Ha1 by (by rewrite (view_active _ _ Hv)).
  rewrite Ha1. destruct (capture_suspended (cs c1)); [by apply cools_release|].
  pose proof (eq_refl : view (game_guard_blocks_capture e c1).1 = view c1) as Hv2.
  destruct (game_guard_blocks_capture e c1) as [c2 blocked]. cbn [fst] in Hv2.
  assert (active (cs c2) = true) as Ha2 by (by rewrite (view_active _ _ Hv2)).
  rewrite Ha2. destruct blocked; cbn [negb fst]; [by apply cools_release|].
  case_match; [by left|]. cbn [fst]. destruct (is_move (m_message ev)).
  - assert (active (cs (keep_source_cursor_hidden e c2)) = true) as Ha3
      by (by rewrite keep_hidden_active). case_match; [|by left].
    unfold remote_motion. case_match; [by left|]. by apply cools_forward.
  - case_match; [|by left]. left. by rewrite view_send_input.
Qed.

Lemma cools_toggle e c : active (cs c) = true -> cools e (view (toggle_capture_suspended e c)).
Proof.
  intros Ha. unfold toggle_capture_suspended.
  match goal with |- context [on_gl (bump suspend_toggles) ?d] =>
    set (c1 := on_gl (bump suspend_toggles) d); assert (view c1 = view c) as Hv by done end.
  clearbody c1. assert (active (cs c1) = true) as Ha1 by (by rewrite (view_active _ _ Hv)).
  destruct (capture_suspended (cs c1)); [|by left].
  apply (cools_view e (show_source_cursor (release_to_local e Release_UserRequest c1))); [done|].
  rewrite view_show. right. cbn [v_active v_blocked].
  pose proof (view_release e Release_UserRequest c1 Ha1) as E. split.
  - exact (f_equal v_active E).
  - exact (f_equal v_blocked E).
Qed.

Lemma cools_keyboard e ev c : active (cs c) = true -> cools e (view (keyboard_hook_locked e ev c).1).
Proof.
  intros Ha. unfold keyboard_hook_locked.
  set (down := match k_message ev with WM_KEYDOWN | WM_SYSKEYDOWN => true | _ => false end).
  set (up := match k_message ev with WM_KEYUP | WM_SYSKEYUP => true | _ => false end).
  clearbody down up. case_match; [by left|].
  destruct (enabled (cs c)); cbn [negb]; [|by left].
  match goal with |- context [ctrl_down (cs ?d)] => set (c1 := d) end.
  assert (view c1 = view c) as Hv.
  { rewrite <- (refresh_view e c). subst c1. case_match; [|done]. apply modifier_view. }
  clearbody c1. assert (active (cs c1) = true) as Ha1 by (by rewrite (view_active _ _ Hv)).
  case_match; [by apply cools_toggle|]. rewrite Ha1. cbn [negb].
  case_match; [by apply cools_release|]. cbn [fst]. case_match; [|by left].
  assert (active (cs (keep_source_cursor_hidden e c1)) = true) as Ha3
    by (by rewrite keep_hidden_active).
  case_match; left; [by rewrite view_send_input|done].
Qed.

Lemma cools_raw_remote e x y absolute c :
  active (cs c) = true -> cools e (view (raw_remote_motion e x y absolute c)).
Proof.
  intros Ha. unfold raw_remote_motion. pose proof (raw_delta_view x y absolute c) as Hv.
  destruct (raw_delta x y absolute c) as [c' [[dx dy]|]]; cbn [fst] in Hv;
    (assert (active (cs c') = true) as Ha' by (by rewrite (view_active _ _ Hv)));
    [|by left]. case_match; [by left|]. by apply cools_forward.
Qed.

(** The same of the process: a step other than a start. *)
Definition cools_process (e : Env) (p : Process) : Prop :=
  exists v, view_of p = Some v /\ cools e v.

Lemma cools_unlock e c : cools e (view c) -> cools_process e (unlock c).
Proof. intros H. by exists (view c). Qed.

Lemma cools_workers e p s f :
  (forall q, STATE (f q) = STATE q) -> STATE p = Some s -> active s = true ->
  cools_process e (f p).
Proof.
  intros Hf Hs Ha. unfold cools_process, view_of. rewrite Hf, Hs. eexists. split; [done|by left].
Qed.

Lemma cools_with_state {A} e (none : A) f p s :
  (forall c, active (cs c) = true -> cools e (view (f c).1)) ->
  STATE p = Some s -> active s = true -> cools_process e (with_state none f p).1.
Proof.
  intros Hf Hs Ha. unfold with_state. rewrite Hs. specialize (Hf {| cs := s; gl := GLOBALS p |} Ha).
  destruct (f _) as [d a]. by apply cools_unlock.
Qed.

Lemma cools_hook_entry e code extra contended events locked p s :
  (forall c, active (cs c) = true -> cools e (view (locked c).1)) ->
  STATE p = Some s -> active s = true ->
  cools_process e (hook_entry code extra contended events locked p).1.
Proof.
  intros Hl Hs Ha. unfold hook_entry. change (STATE (count events p)) with (STATE p). rewrite Hs.
  assert (forall q, STATE q = STATE p -> cools_process e q) as Hq.
  { intros q E. unfold cools_process, view_of. rewrite E, Hs. eexists. split; [done|by left]. }
  case_match; [by apply Hq|]. case_match; [by apply Hq|].
  destruct contended; [by apply Hq|].
  specialize (Hl {| cs := s; gl := GLOBALS (count events p) |} Ha).
  destruct (locked _) as [d r]. by apply cools_unlock.
Qed.

Lemma cools_shown e reason c d :
  active (cs c) = true ->
  active (cs d) = active (cs (release_to_local e reason c)) ->
  activation_blocked_until (cs d) = activation_blocked_until (cs (release_to_local e reason c)) ->
  cools e (view (show_source_cursor d)).
Proof.
  intros Ha Ea Eb. pose proof (view_release e reason c Ha) as E. rewrite view_show. right.
  cbn [v_active v_blocked]. rewrite Ea, Eb.
  split; [exact (f_equal v_active E)|exact (f_equal v_blocked E)].
Qed.

Lemma cools_step e ev p s :
  STATE p = Some s -> active s = true -> is_start ev = false -> cools_process e (step e ev p).
Proof.
  intros Hs Ha Hev. destruct ev; cbn [step]; try discriminate.
  - eapply cools_hook_entry; [|done..]. intros c. apply cools_mouse.
  - eapply cools_hook_entry; [|done..]. intros c. apply cools_keyboard.
  - assert (forall q, STATE q = STATE p -> cools_process e q) as Hq.
    { intros q E. unfold cools_process, view_of. rewrite E, Hs. eexists. split; [done|by left]. }
    destruct input as [| | |x y absolute]; cbn [handle_raw_mouse_input]; try by apply Hq.
    change (STATE (count RAW_MOUSE_EVENTS p)) with (STATE p). rewrite Hs.
    destruct contended; [by apply Hq|]. apply cools_unlock. cbn [cs].
    change (active (set_last_raw_input (Some (now e)) s)) with (active s). rewrite Ha.
    case_match; [by left|]. by apply cools_raw_remote.
  - eapply cools_with_state; [|done..]. intros c Hc. by eapply cools_shown.
  - eapply cools_with_state; [|done..]. intros c Hc. rewrite Hc. cbn [negb].
    case_match; cbn [fst]; [by left|by apply cools_release].
  - eapply cools_with_state; [|done..]. intros c Hc. cbn [fst]. case_match; [by left|].
    by eapply (cools_shown e Release_PeerDisconnected c).
  - eapply cools_with_state; [|done..]. intros c Hc. cbn [fst]. case_match; [by left|].
    destruct value; cbn [negb].
    + left. rewrite view_show. done.
    + by eapply (cools_shown e Release_UserRequest c).
  - eapply (cools_workers e p s (fun q => (restart_raw_input_worker e q).1)); [|done..].
    intros q. unfold restart_raw_input_worker, spawn_raw_input_worker. by destruct (thread_spawned e).
  - eapply (cools_workers e p s (fun q => (restart_hook_worker e q).1)); [|done..].
    intros q. unfold restart_hook_worker, spawn_hook_worker. by destruct (thread_spawned e).
  - eapply (cools_workers e p s (fun q => (restart_input_workers e q).1)); [|done..].
    intros q. unfold restart_input_workers, restart_raw_input_worker, spawn_raw_input_worker,
      restart_hook_worker, spawn_hook_worker. by destruct (thread_spawned e).
  - by eapply (cools_workers e p s (run_hook_thread e thread)).
  - by eapply (cools_workers e p s (run_raw_input_thread thread)).
Qed.

(** When control has come back, by whatever way, no event of the following 750 ms takes it again
    or reaches the peer. *)
Theorem returned_control_is_kept e ev p s l :
  STATE p = Some s -> active s = true -> is_start ev = false ->
  (exists s', STATE (step e ev p) = Some s' /\ active s' = false) ->
  Forall (fun x => now x.1 < now e + from_millis 750 /\ is_start x.2 = false) l ->
  exists s'', STATE (run l (step e ev p)) = Some s'' /\ active s'' = false /\
    sent (GLOBALS (run l (step e ev p))) = sent (GLOBALS (step e ev p)).
Proof.
  intros Hs Ha Hev (s' & Hs' & Ha') Hl.
  destruct (cools_step e ev p s Hs Ha Hev) as (v & Hv & Hc).
  assert (idle_process (now e + RELEASE_REENTRY_COOLDOWN) (sent (GLOBALS (step e ev p)))
            (step e ev p)) as Hi.
  { unfold view_of in Hv. rewrite Hs' in Hv. injection Hv as <-.
    apply (idle_state _ _ _ _ Hs'). destruct Hc as [Hc|[_ Hc]]; [|done].
    exfalso. revert Hc. cbn [view v_active cs]. by rewrite Ha'. }
  apply (idle_run l) in Hi as (w & Hw & Haw & _ & Htold); [|done].
  unfold view_of in Hw. destruct (STATE (run l (step e ev p))) as [s''|]; [|done].
  injection Hw as <-. by exists s''.
Qed.

Lemma returned_control_is_kept_witness :
  let p := run crossing initial_process in
  let p' := step desk (Ev_release HeartbeatTimeout) p in
  let l := [(at_time (10 ^ 9 + 700000000) desk, Ev_mouse false (moved 0 540))] in
  exists s'', STATE (run l p') = Some s'' /\ active s'' = false /\
    sent (GLOBALS (run l p')) = sent (GLOBALS p').
Proof.
  cbv zeta. destruct (STATE (run crossing initial_process)) as [s|] eqn:Hs;
    [|vm_compute in Hs; discriminate].
  refine (returned_control_is_kept desk (Ev_release HeartbeatTimeout) _ s _ Hs _ eq_refl _ _).
  - vm_compute in Hs. injection Hs as <-. reflexivity.
  - destruct (STATE (step desk (Ev_release HeartbeatTimeout) (run crossing initial_process)))
      as [s'|] eqn:Hs'; [|vm_compute in Hs'; discriminate].
    exists s'. split; [reflexivity|]. vm_compute in Hs'. injection Hs' as <-. reflexivity.
  - repeat constructor.
Defined.

(** *** The remote pointer *)

Definition point_ok (p : POINT) : Prop := in_i32 (pt_x p) /\ in_i32 (pt_y p).
(** A screen of [i32] metrics, and one of [u32] sizes. *)
Definition bounds_ok (b : LocalBounds) : Prop :=
  in_i32 (left b) /\ in_i32 (top b) /\ in_i32 (width b) /\ in_i32 (height b).

(** A capture of real screens, whose remote pointer is on the remote one. *)
Definition screen_ok (c : Capture) : Prop :=
  size_ok (remote_size (config (cs c))) /\ bounds_ok (local_bounds (cs c)) /\
  (active (cs c) = true -> on_screen (remote_cursor (cs c)) (remote_size (config (cs c)))).

(** A method that leaves the screens and the pointer, and does not enter. *)
Definition tame (c d : Capture) : Prop :=
  config (cs d) = config (cs c) /\ local_bounds (cs d) = local_bounds (cs c) /\
  remote_cursor (cs d) = remote_cursor (cs c) /\ (active (cs d) = true -> active (cs c) = true).

#[local] Instance tame_preorder : PreOrder tame.
Proof.
  split; [by intros c|]. intros a b c (A1 & A2 & A3 & A4) (B1 & B2 & B3 & B4).
  split_and!; [congruence..|auto].
Qed.

Lemma screen_ok_tame c d : tame c d -> screen_ok c -> screen_ok d.
Proof.
  unfold screen_ok. intros (-> & -> & -> & Ha) (H1 & H2 & H3). split_and!; auto.
Qed.

Section Screen.
Context (e : Env).

Lemma tame_send_input ev c : tame c (send_input e ev c).
Proof. unfold send_input. by destruct (receiver_open e). Qed.
Lemma tame_send_control ev c : tame c (send_control e ev c).
Proof. unfold send_control. by destruct (receiver_open e). Qed.
Lemma tame_keep_hidden c : tame c (keep_source_cursor_hidden e c).
Proof. unfold keep_source_cursor_hidden, hide_source_cursor. by destruct (cursor_hidden (cs c)). Qed.
Lemma tame_show c : tame c (show_source_cursor c).
Proof. unfold show_source_cursor. by destruct (cursor_hidden (cs c)). Qed.

Lemma tame_release reason c : tame c (release_to_local e reason c).
Proof.
  unfold release_to_local. destruct (active (cs c)); cbn [negb]; [|reflexivity].
  match goal with |- context [show_source_cursor ?d] => set (c1 := d) end.
  transitivity (show_source_cursor c1); [|done].
  transitivity c1; [|apply tame_show]. subst c1.
  etransitivity; [|apply tame_send_control]. etransitivity; [|apply tame_send_input]. done.
Qed.

Lemma tame_refresh c : tame c (refresh_capture_suspension e c).
Proof. unfold refresh_capture_suspension. by repeat case_match. Qed.

Lemma tame_toggle c : tame c (toggle_capture_suspended e c).
Proof.
  unfold toggle_capture_suspended.
  match goal with |- context [on_gl (bump suspend_toggles) ?d] =>
    set (c1 := on_gl (bump suspend_toggles) d); assert (tame c c1) as Ht by done end.
  clearbody c1. destruct (capture_suspended (cs c1)); [|done].
  transitivity c1; [done|]. transitivity (release_to_local e Release_UserRequest c1);
    [apply tame_release|]. etransitivity; [apply tame_show|done].
Qed.

Lemma tame_modifier vk down c : tame c (on_cs (update_modifier vk down) c).
Proof.
  unfold update_modifier, on_cs.
  destruct ((vk =? VK_CONTROL) || (vk =? VK_LCONTROL) || (vk =? VK_RCONTROL)); [done|].
  by destruct ((vk =? VK_MENU) || (vk =? VK_LMENU) || (vk =? VK_RMENU)).
Qed.

Lemma tame_raw_delta x y absolute c : tame c (raw_delta x y absolute c).1.
Proof. by destruct absolute. Qed.

Lemma screen_enter point c : point_ok point -> screen_ok c -> screen_ok (enter_remote e point c).
Proof.
  intros [Hx Hy] (H1 & H2 & H3).
  assert (on_screen (capture_remote_start (cs c) point) (remote_size (config (cs c)))) as Hon.
  { destruct H2 as (Hl & Ht & Hw & Hh). apply pointer_enters_on_screen; try done;
      unfold in_i32, in_range, i32_min, i32_max, u32_max in *; lia || done. }
  unfold enter_remote.
  match goal with |- context [send_control e ?ev ?d] => set (d' := d);
    assert (screen_ok d') as Hd by (by split_and!) end.
  unfold hide_source_cursor. case_match; [by apply (screen_ok_tame d'); [apply tame_send_control|]|].
  by apply (screen_ok_tame d'); [apply (tame_send_control (EnterRemote _ _) d')|].
Qed.

Lemma screen_forward dx dy c : screen_ok c -> screen_ok (forward_motion e dx dy c).
Proof.
  intros (H1 & H2 & H3). unfold forward_motion, release_if_remote_return_edge.
  match goal with |- context [send_input e ?ev ?d] => set (c' := send_input e ev d);
    assert (screen_ok c') as Hc' end.
  { eapply screen_ok_tame; [apply tame_send_input|]. split_and!; [done..|].
    intros _. by apply remote_motion_stays_on_screen. }
  destruct (remote_at_return_edge (cs c')); cbn [negb]; [|done].
  eapply screen_ok_tame; [apply tame_release|]. done.
Qed.

Lemma screen_remote_motion point c : screen_ok c -> screen_ok (remote_motion e point c).
Proof.
  intros Hc. unfold remote_motion. case_match; [done|]. by apply screen_forward.
Qed.

Lemma screen_mouse ev c :
  point_ok (m_pt ev) -> screen_ok c -> screen_ok (mouse_hook_locked e ev c).1.
Proof.
  intros Hp Hc. unfold mouse_hook_locked. destruct (enabled (cs c)); cbn [negb]; [|done].
  pose proof (screen_ok_tame _ _ (tame_refresh c) Hc) as Hc1.
  set (c1 := refresh_capture_suspension e c) in *. clearbody c1.
  destruct (capture_suspended (cs c1)).
  { cbn [fst]. case_match; [by eapply screen_ok_tame; [apply tame_release|]|by case_match]. }
  assert (screen_ok (game_guard_blocks_capture e c1).1) as Hc2 by (by apply (screen_ok_tame c1)).
  destruct (game_guard_blocks_capture e c1) as [c2 blocked]. cbn [fst] in Hc2. destruct blocked.
  { cbn [fst]. case_match; [|by case_match].
    eapply screen_ok_tame; [apply tame_release|]. done. }
  destruct (active (cs c2)); cbn [negb].
  - case_match; [done|]. cbn [fst]. destruct (is_move (m_message ev)).
    + pose proof (screen_ok_tame _ _ (tame_keep_hidden c2) Hc2).
      case_match; [by apply screen_remote_motion|done].
    + case_match; [|done]. by eapply screen_ok_tame; [apply tame_send_input|].
  - match goal with |- context [activation_allowed e (cs ?d)] => set (c3 := d) end.
    assert (screen_ok c3) as Hc3.
    { subst c3. destruct (is_move (m_message ev)); [|done].
      assert (screen_ok (virtual_edge_required e c2).1) as Hv by (by apply (screen_ok_tame c2)).
      destruct (virtual_edge_required e c2) as [c4 required]. by destruct required. }
    case_match; [by apply screen_enter|done].
Qed.

Lemma screen_keyboard ev c : screen_ok c -> screen_ok (keyboard_hook_locked e ev c).1.
Proof.
  intros Hc. unfold keyboard_hook_locked.
  set (down := match k_message ev with WM_KEYDOWN | WM_SYSKEYDOWN => true | _ => false end).
  set (up := match k_message ev with WM_KEYUP | WM_SYSKEYUP => true | _ => false end).
  clearbody down up. case_match; [done|]. destruct (enabled (cs c)); cbn [negb]; [|done].
  match goal with |- context [ctrl_down (cs ?d)] => set (c1 := d) end.
  assert (screen_ok c1) as Hc1.
  { pose proof (screen_ok_tame _ _ (tame_refresh c) Hc). subst c1. case_match; [|done].
    by eapply screen_ok_tame; [apply tame_modifier|]. }
  clearbody c1. case_match; [by eapply screen_ok_tame; [apply tame_toggle|]|].
  case_match; [done|].
  case_match; [by eapply screen_ok_tame; [apply tame_release|]|]. cbn [fst]. case_match; [|done].
  pose proof (screen_ok_tame _ _ (tame_keep_hidden c1) Hc1).
  case_match; [by eapply screen_ok_tame; [apply tame_send_input|]|done].
Qed.

(** The rounding of a coordinate fits an [i32]. *)
Lemma as_i32_in_i32 x : in_i32 (f64_as_i32 x).
Proof.
  unfold in_i32. destruct x as [s|s| |s m n]; cbn [f64_as_i32]; unfold i32_min, i32_max;
    [lia|destruct s; lia|lia|]. destruct s; lia.
Qed.

Lemma screen_raw x y absolute c :
  screen_ok c -> screen_ok (raw_remote_motion e x y absolute c) /\
                 screen_ok (raw_local_motion e x y absolute c).
Proof.
  intros Hc. split.
  - unfold raw_remote_motion.
    pose proof (screen_ok_tame _ _ (tame_raw_delta x y absolute c) Hc) as H.
    destruct (raw_delta x y absolute c) as [c1 [[dx dy]|]]; cbn [fst] in H; [|done].
    case_match; [done|by apply screen_forward].
  - unfold raw_local_motion.
    assert (screen_ok (virtual_edge_required e c).1) as Hv by (by apply (screen_ok_tame c)).
    destruct (virtual_edge_required e c) as [c1 required]. cbn [fst] in Hv.
    destruct required; cbn [negb]; [|done].
    pose proof (screen_ok_tame _ _ (tame_raw_delta x y absolute c1) Hv) as H.
    destruct (raw_delta x y absolute c1) as [c2 [[dx dy]|]]; cbn [fst] in H; [|done].
    case_match; [done|]. case_match; [|done].
    apply screen_enter; [split; apply as_i32_in_i32|done].
Qed.
End Screen.

(** The coordinates Win32 reports are [i32]s and the sizes of the peer [u32]s. *)
Definition event_ok (x : Env * CaptureEvent) : Prop :=
  bounds_ok (metrics x.1) /\
  match x.2 with
  | Ev_mouse _ ev => point_ok (m_pt ev)
  | Ev_start cfg => size_ok (remote_size cfg)
  | _ => True
  end.

Definition screen_process (p : Process) : Prop :=
  forall s, STATE p = Some s -> screen_ok {| cs := s; gl := GLOBALS p |}.

Lemma screen_state p q : STATE q = STATE p -> screen_process p -> screen_process q.
Proof. intros E H s Hs. rewrite E in Hs. exact (H s Hs). Qed.

Lemma screen_unlock c : screen_ok c -> screen_process (unlock c).
Proof. by intros H s [= <-]. Qed.

Lemma screen_with_state {A} (none : A) f p :
  (forall c, screen_ok c -> screen_ok (f c).1) -> screen_process p ->
  screen_process (with_state none f p).1.
Proof.
  intros Hf Hp. unfold with_state. destruct (STATE p) as [s|] eqn:Hs; [|done].
  specialize (Hf _ (Hp s Hs)). destruct (f _) as [d a]. by apply screen_unlock.
Qed.

Lemma screen_hook_entry code extra contended events locked p :
  (forall c, screen_ok c -> screen_ok (locked c).1) -> screen_process p ->
  screen_process (hook_entry code extra contended events locked p).1.
Proof.
  intros Hl Hp. unfold hook_entry. case_match; [done|]. case_match; [done|].
  destruct (STATE (count events p)) as [s|] eqn:Hs; [|done]. destruct contended; [done|].
  specialize (Hl {| cs := s; gl := GLOBALS (count events p) |} (Hp s Hs)).
  destruct (locked _) as [d r]. by apply screen_unlock.
Qed.

Lemma restart_state e p :
  STATE (restart_raw_input_worker e p).1 = STATE p /\ STATE (restart_hook_worker e p).1 = STATE p /\
  STATE (restart_input_workers e p).1 = STATE p.
Proof.
  unfold restart_input_workers, restart_raw_input_worker, spawn_raw_input_worker,
    restart_hook_worker, spawn_hook_worker. by destruct (thread_spawned e).
Qed.

Lemma screen_step e ev p : event_ok (e, ev) -> screen_process p -> screen_process (step e ev p).
Proof.
  intros [Hb Hev] Hp. destruct (restart_state e p) as (E1 & E2 & E3).
  destruct ev; cbn [step fst snd] in *; try done; try by apply (screen_state p).
  - apply screen_hook_entry; [|done]. intros c. by apply screen_mouse.
  - apply screen_hook_entry; [|done]. intros c. by apply screen_keyboard.
  - destruct input as [| | |x y absolute]; cbn [handle_raw_mouse_input]; try done.
    destruct (STATE (count RAW_MOUSE_EVENTS p)) as [s|] eqn:Hs; [|done].
    destruct contended; [done|]. apply screen_unlock.
    match goal with |- context [enabled (cs ?d)] => assert (screen_ok d) as Hc by exact (Hp s Hs) end.
    destruct (screen_raw e x y absolute _ Hc). by repeat case_match.
  - apply screen_with_state; [|done]. intros c Hc. cbn [fst].
    eapply screen_ok_tame; [apply tame_show|]. by eapply screen_ok_tame; [apply tame_release|].
  - apply screen_with_state; [|done]. intros c Hc. repeat case_match; cbn [fst]; try done;
      by eapply screen_ok_tame; [apply tame_release|].
  - apply screen_with_state; [|done]. intros c Hc. cbn [fst]. case_match; [done|].
    eapply screen_ok_tame; [apply tame_show|]. cbn [negb].
    exact (screen_ok_tame _ _ (tame_release e Release_PeerDisconnected c) Hc).
  - apply screen_with_state; [|done]. intros c Hc. cbn [fst]. case_match; [done|].
    eapply screen_ok_tame; [apply tame_show|]. destruct value; cbn [negb]; [done|].
    exact (screen_ok_tame _ _ (tame_release e Release_UserRequest c) Hc).
  - assert (forall q ok, STATE q = Some (initial_state e cfg) -> screen_process (q, ok : bool).1)
      as Hnew.
    { intros q ok Hq s Hs. cbn [fst] in Hs. rewrite Hq in Hs. injection Hs as <-. by split_and!. }
    unfold start. case_match.
    + eapply screen_state; [apply restart_state|]. by intros s [= <-].
    + unfold spawn_raw_input_worker, spawn_hook_worker, start_input_supervisor.
      destruct (thread_spawned e); cbn [negb]; [case_match|]; by apply Hnew.
Qed.

(** C35. While a capture is active the remote pointer is on the remote screen, from the entry, through
    every motion that is forwarded, raw or hooked. *)
Theorem remote_pointer_stays_on_screen l s :
  Forall event_ok l -> STATE (run l initial_process) = Some s -> active s = true ->
  on_screen (remote_cursor s) (remote_size (config s)).
Proof.
  intros Hl Hs Ha. assert (screen_process (run l initial_process)) as Hp.
  { assert (screen_process initial_process) as H0 by (by intros ?).
    revert H0. generalize initial_process. clear Hs.
    induction Hl as [|[e ev] l Hx Hl IH]; intros p Hp; [done|]. apply IH. by apply screen_step. }
  destruct (Hp s Hs) as (_ & _ & H). by apply H.
Qed.

Lemma remote_pointer_stays_on_screen_witness :
  exists s, STATE (run crossing initial_process) = Some s /\
  on_screen (remote_cursor s) (remote_size (config s)).
Proof.
  destruct (STATE (run crossing initial_process)) as [s|] eqn:Hs; [|vm_compute in Hs; discriminate].
  exists s. split; [reflexivity|].
  refine (remote_pointer_stays_on_screen crossing s _ Hs _).
  - assert (bounds_ok (metrics desk)) as Hb by (repeat split; vm_compute; discriminate).
    unfold crossing. repeat (apply List.Forall_cons; [split; [exact Hb|]|]); [..|apply List.Forall_nil];
      cbn [snd]; first [exact I|repeat split; vm_compute; discriminate].
  - vm_compute in Hs. injection Hs as <-. reflexivity.
Defined.

(** *** The edge in pixels *)

(** The last column and row of the local screen. *)
Definition last_x (b : LocalBounds) : Z := left b + Z.max (width b) 1 - 1.
Definition last_y (b : LocalBounds) : Z := top b + Z.max (height b) 1 - 1.
(** Every coordinate of the screen, and two pixels around it, is an [i32]. *)
Definition bounds_fit (b : LocalBounds) : Prop :=
  i32_min + 2 <= left b /\ last_x b <= i32_max - 2 /\
  i32_min + 2 <= top b /\ last_y b <= i32_max - 2.

(** The same in integers: the pointer is at the edge, and where it is kept while it is away. *)
Definition at_edge_reference (edge : Edge) (b : LocalBounds) (p : POINT) : bool :=
  match edge with
  | Edge_Left => pt_x p <=? left b
  | Edge_Right => last_x b <=? pt_x p
  | Edge_Top => pt_y p <=? top b
  | Edge_Bottom => last_y b <=? pt_y p
  end.
Definition anchor_reference (edge : Edge) (b : LocalBounds) (p : POINT) : POINT :=
  match edge with
  | Edge_Left => {| pt_x := left b + 2; pt_y := Z.min (Z.max (pt_y p) (top b)) (last_y b) |}
  | Edge_Right => {| pt_x := last_x b - 2; pt_y := Z.min (Z.max (pt_y p) (top b)) (last_y b) |}
  | Edge_Top => {| pt_x := Z.min (Z.max (pt_x p) (left b)) (last_x b); pt_y := top b + 2 |}
  | Edge_Bottom => {| pt_x := Z.min (Z.max (pt_x p) (left b)) (last_x b); pt_y := last_y b - 2 |}
  end.

Ltac pixels := unfold bounds_fit, last_x, last_y, point_ok, exact, in_i32, i32_min, i32_max in *; lia.

Lemma rect_corners b :
  bounds_fit b ->
  rect_right (rect b) = f64_of (last_x b) /\ rect_bottom (rect b) = f64_of (last_y b).
Proof.
  intros Hb. unfold rect_right, rect_bottom, rect, int_rect, last_pixel, saturating_sub.
  cbn [rect_x rect_y rect_width rect_height].
  rewrite !Z.max_r, !f64_add_exact by pixels. split; f_equal; pixels.
Qed.

Lemma rounded_exact x y : in_i32 x -> in_i32 y -> rounded (int_point x y) = {| pt_x := x; pt_y := y |}.
Proof.
  intros Hx Hy. unfold rounded, int_point. cbn [px py].
  by rewrite !f64_round_exact, !f64_as_i32_exact by (done || by apply exact_i32).
Qed.

(** C36. The floating-point test for the edge and the anchor of the pointer are the integer ones, and
    the anchor of a screen of three pixels or more across is off the edge. *)
Theorem edge_is_exact edge b p :
  bounds_fit b -> point_ok p ->
  point_is_at_edge edge (point_of p) (rect b) = at_edge_reference edge b p /\
  anchor_for b edge p = anchor_reference edge b p /\
  (match edge with Edge_Left | Edge_Right => 3 <= width b | _ => 3 <= height b end ->
   at_edge_reference edge b (anchor_for b edge p) = false).
Proof.
  intros Hb Hp. pose proof Hp as [Hpx Hpy]. destruct (rect_corners b Hb) as [Er Eb].
  assert (anchor_for b edge p = anchor_reference edge b p) as Ha.
  { unfold anchor_for, edge_anchor, point_of. rewrite Er, Eb.
    cbn [rect int_rect int_point px py rect_x rect_y].
    destruct edge; cbn [anchor_reference]; rewrite clamp_exact by pixels;
      rewrite ?f64_add_exact, ?f64_sub_exact by pixels; apply rounded_exact; pixels. }
  split_and!; [|done|].
  - unfold point_is_at_edge, at_edge_reference, point_of. rewrite Er, Eb.
    cbn [rect int_rect int_point px py rect_x rect_y].
    destruct edge; rewrite ?f64_le_exact, ?f64_ge_exact by pixels; done.
  - rewrite Ha. intros Hw. destruct edge; cbn [anchor_reference at_edge_reference pt_x pt_y];
      apply Z.leb_gt; pixels.
Qed.

Lemma edge_is_exact_witness :
  at_edge_reference Edge_Right {| left := -1920; top := 0; width := 3840; height := 1080 |}
    (anchor_for {| left := -1920; top := 0; width := 3840; height := 1080 |} Edge_Right
       {| pt_x := 1919; pt_y := 300 |}) = false.
Proof.
  refine (proj2 (proj2 (edge_is_exact Edge_Right
    {| left := -1920; top := 0; width := 3840; height := 1080 |} {| pt_x := 1919; pt_y := 300 |}
    _ _)) _); [repeat split; vm_compute; discriminate|repeat split; vm_compute; discriminate|].
  vm_compute. discriminate.
Defined.

(** *** Raw motion and the guards *)

(** A window that covers its monitor has the focus. *)
Definition in_game : Env :=
  {| now := 2 * 10 ^ 9; foreground := 7;
     window_rect := Some {| r_left := 0; r_top := 0; r_right := 1920; r_bottom := 1080 |};
     monitor_rect := Some {| r_left := 0; r_top := 0; r_right := 1920; r_bottom := 1080 |};
     clip_cursor := Some {| r_left := 100; r_top := 100; r_right := 200; r_bottom := 200 |};
     metrics := metrics desk; receiver_open := true; mouse_hook_result := 11;
     keyboard_hook_result := 12; cursor_created := fun _ => true; cursor_replaced := fun _ => true;
     last_input_info := Some 0; thread_spawned := true |}.

(** Ctrl+Alt+G suspends the capture, over a full-screen window in the default mode; a motion of
    the mouse to the left, as Raw Input reports it, then enters remote control all the same. *)
Theorem raw_motion_enters_a_suspended_capture :
  let p := run [(desk, Ev_start desk_config); (desk, Ev_hook_thread 5);
                (in_game, Ev_keyboard false (pressed VK_LCONTROL 0x1d));
                (in_game, Ev_keyboard false (pressed VK_LMENU 0x38));
                (in_game, Ev_keyboard false (pressed VK_G 0x22));
                (in_game, Ev_raw false (Raw_mouse (-2000) 0 false))] initial_process in
  option_map (fun s => (capture_suspended s, active s)) (STATE p) = Some (true, true) /\
  mouse_hook_installed (GLOBALS p) = false.
Proof. vm_compute. by split. Qed.

(** In the [borderless] mode, which blocks the edge while an application confines the pointer, the
    same motion enters while the guard blocks. *)
Theorem raw_motion_enters_past_the_guard :
  let p := run [(desk, Ev_start {| cap_edge := Edge_Left; remote_size := remote_size desk_config;
                                   game_compatibility := Borderless |});
                (in_game, Ev_raw false (Raw_mouse (-2000) 0 false))] initial_process in
  option_map (fun s => (blocks_capture (game_guard s), active s)) (STATE p) = Some (true, true).
Proof. by vm_compute. Qed.
