(* ===== verification/WindowsInjection.v ===== *)
(** * The Windows input injection: [edge-windows-input/src/injection.rs]

    The events of the peer become calls of [SendInput]; the injector remembers the keys and the
    buttons it holds, so that it can let all of them go.  [SendInput] is third-party code: it
    accepts or refuses each input, as the environment's [accepts] says after the calls so far.  The flags of an input are named rather than numbered. *)
From Stdlib Require Import SpecFloat.
From S2P Require Export WindowsCapture.

(** ** Data *)

(** The flags of a [MOUSEINPUT]. *)
Inductive MouseFlag :=
| MOUSEEVENTF_MOVE | MOUSEEVENTF_WHEEL | MOUSEEVENTF_HWHEEL
| MOUSEEVENTF_LEFTDOWN | MOUSEEVENTF_LEFTUP | MOUSEEVENTF_RIGHTDOWN | MOUSEEVENTF_RIGHTUP
| MOUSEEVENTF_MIDDLEDOWN | MOUSEEVENTF_MIDDLEUP | MOUSEEVENTF_XDOWN | MOUSEEVENTF_XUP.
#[export] Instance MouseFlag_eq_dec : EqDecision MouseFlag.
Proof. solve_decision. Defined.
(** An [INPUT]: a mouse input, or a key of a scan code with its extended and up flags. *)
Inductive INPUT :=
| INPUT_MOUSE (dx dy mouseData : Z) (dwFlags : MouseFlag)
| INPUT_KEYBOARD (wScan : Z) (extended up : bool).
#[export] Instance INPUT_eq_dec : EqDecision INPUT.
Proof. solve_decision. Defined.

(** The errors of [edge-windows-input 16-34 WindowsInputError] that an injection returns. *)
Inductive InjectionError :=
| UnmappedEvdevKey (evdev_code : Z)
| Injection (sent total : Z).

(** [edge-windows-input/injection 17-21 WindowsInputInjector]; [calls] are the calls of [SendInput] and
    whether Windows accepted the input. *)
Record Injector := {
  held_keys : gset Z;
  held_buttons : MouseButton -> bool;
  calls : list (INPUT * bool);
}.
#[export] Instance MouseButton_eq_dec : EqDecision MouseButton.
Proof. solve_decision. Defined.

(** [edge-windows-input/injection 24-30 new] *)
Definition Injector_new : Injector :=
  {| held_keys := ∅; held_buttons := fun _ => false; calls := [] |}.

(** The slots of the array of held buttons, in their order.
    [edge-windows-input/injection 124-133 button_from_index] *)
Definition BUTTONS : list MouseButton :=
  [Button_Left; Button_Right; Button_Middle; Button_Back; Button_Forward].
(** [edge-windows-input/injection 114-122 button_index] *)
Definition button_index (b : MouseButton) : nat :=
  match b with
  | Button_Left => 0 | Button_Right => 1 | Button_Middle => 2 | Button_Back => 3
  | Button_Forward => 4
  end%nat.

(** [edge-windows-input/injection 53-57 inject] *)
Definition set_key (code : Z) (down : bool) (i : Injector) : Injector :=
  {| held_keys := if down then {[code]} ∪ held_keys i else held_keys i ∖ {[code]};
     held_buttons := held_buttons i; calls := calls i |}.
(** [edge-windows-input/injection 38-39 inject] *)
Definition set_button (b : MouseButton) (down : bool) (i : Injector) : Injector :=
  {| held_keys := held_keys i;
     held_buttons := fun c => if decide (c = b) then down else held_buttons i c;
     calls := calls i |}.

(** ** Numbers *)

(** [edge-windows-input/injection 98-102 rounded_i32] *)
Definition rounded_i32 (value : float) : Z :=
  let v := f64_round value in
  let v := if f64_lt v (f64_of i32_min) then f64_of i32_min else v in
  let v := if f64_lt (f64_of i32_max) v then f64_of i32_max else v in
  f64_as_i32 v.
(** [edge-windows-input/injection 104-107 wheel_data] *)
Definition wheel_data (value : float) : Z :=
  truncate_to u32_max (rounded_i32 (f64_mul value WHEEL_DELTA)).

(** ** Operations *)

(** [edge-windows-input/injection 135-154 mouse_button_input] *)
Definition mouse_button_input (button : MouseButton) (down : bool) : Z * MouseFlag :=
  match button, down with
  | Button_Left, true => (0, MOUSEEVENTF_LEFTDOWN)
  | Button_Left, false => (0, MOUSEEVENTF_LEFTUP)
  | Button_Right, true => (0, MOUSEEVENTF_RIGHTDOWN)
  | Button_Right, false => (0, MOUSEEVENTF_RIGHTUP)
  | Button_Middle, true => (0, MOUSEEVENTF_MIDDLEDOWN)
  | Button_Middle, false => (0, MOUSEEVENTF_MIDDLEUP)
  | Button_Back, true => (1, MOUSEEVENTF_XDOWN)
  | Button_Back, false => (1, MOUSEEVENTF_XUP)
  | Button_Forward, true => (2, MOUSEEVENTF_XDOWN)
  | Button_Forward, false => (2, MOUSEEVENTF_XUP)
  end.

Section Injection.
(** [SendInput], after the calls so far. *)
Variable accepts : list (INPUT * bool) -> INPUT -> bool.

(** [edge-windows-input/injection 253-277 send_inputs], of one input *)
Definition send_inputs (input : INPUT) (i : Injector) : Injector * result unit InjectionError :=
  let accepted := accepts (calls i) input in
  ({| held_keys := held_keys i; held_buttons := held_buttons i;
      calls := calls i ++ [(input, accepted)] |},
   if accepted then Ok tt else Err (Injection 0 1)).

(** [edge-windows-input/injection 191-210 send_mouse] *)
Definition send_mouse (dx dy data : Z) (flags : MouseFlag) (i : Injector) :=
  send_inputs (INPUT_MOUSE dx dy data flags) i.

(** [edge-windows-input/injection 217-246 send_key] *)
Definition send_key (evdev_code : Z) (down : bool) (i : Injector) :
  Injector * result unit InjectionError :=
  match evdev_to_windows_scancode evdev_code with
  | None => (i, Err (UnmappedEvdevKey evdev_code))
  | Some key => send_inputs (INPUT_KEYBOARD (scan_code key) (extended key) (negb down)) i
  end.

(** [first_error.get_or_insert(error)].  [edge-windows-input/injection 68-70 all_keys_up] *)
Definition first_of (first : option InjectionError) (r : result unit InjectionError) :=
  match first, r with None, Err e => Some e | _, _ => first end.

(** The first loop of [all_keys_up]: [edge-windows-input/injection 67-71 all_keys_up] *)
Fixpoint keys_up (keys : list Z) (i : Injector) (first : option InjectionError) :
  Injector * option InjectionError :=
  match keys with
  | [] => (i, first)
  | key :: keys' => let '(i, r) := send_key key false i in keys_up keys' i (first_of first r)
  end.
(** The second one: [edge-windows-input/injection 74-84 all_keys_up] *)
Fixpoint buttons_up (buttons : list MouseButton) (i : Injector) (first : option InjectionError) :
  Injector * option InjectionError :=
  match buttons with
  | [] => (i, first)
  | button :: buttons' =>
      if negb (held_buttons i button) then buttons_up buttons' i first
      else
        let '(data, flags) := mouse_button_input button false in
        let '(i, r) := send_mouse 0 0 data flags i in
        buttons_up buttons' (set_button button false i) (first_of first r)
  end.
(** [edge-windows-input/injection 64-89 all_keys_up] *)
Definition all_keys_up (i : Injector) : Injector * result unit InjectionError :=
  let '(i, first) := keys_up (ascending (held_keys i)) i None in
  let i := {| held_keys := ∅; held_buttons := held_buttons i; calls := calls i |} in
  let '(i, first) := buttons_up BUTTONS i first in
  (i, match first with Some e => Err e | None => Ok tt end).

(** [edge-windows-input/injection 32-62 inject] *)
Definition inject (event : InputEvent) (i : Injector) : Injector * result unit InjectionError :=
  match event with
  | PointerMotion dx dy => send_mouse (rounded_i32 dx) (rounded_i32 dy) 0 MOUSEEVENTF_MOVE i
  | PointerButton button down =>
      let i := set_button button down i in
      let '(data, flags) := mouse_button_input button down in
      send_mouse 0 0 data flags i
  | PointerWheel x y =>
      let '(i, r) := if negb (f64_eq y (f64_of 0))
                     then send_mouse 0 0 (wheel_data y) MOUSEEVENTF_WHEEL i else (i, Ok tt) in
      match r with
      | Err e => (i, Err e)
      | Ok _ => if negb (f64_eq x (f64_of 0))
                then send_mouse 0 0 (wheel_data x) MOUSEEVENTF_HWHEEL i else (i, Ok tt)
      end
  | Key evdev_code down => send_key evdev_code down (set_key evdev_code down i)
  | AllKeysUp => all_keys_up i
  end.

(** A session of the peer; [drop] lets everything go.
    [edge-windows-input/injection 93-95 drop] *)
Definition drop_injector (i : Injector) : Injector := (all_keys_up i).1.
Definition inject_all (events : list InputEvent) (i : Injector) : Injector :=
  fold_left (fun i ev => (inject ev i).1) events i.
End Injection.

(** ** Properties *)

(** *** What Windows holds down *)

(** The button an input moves, and where to. *)
Definition button_of (input : INPUT) : option (MouseButton * bool) :=
  match input with
  | INPUT_MOUSE _ _ data flags =>
      match flags with
      | MOUSEEVENTF_LEFTDOWN => Some (Button_Left, true)
      | MOUSEEVENTF_LEFTUP => Some (Button_Left, false)
      | MOUSEEVENTF_RIGHTDOWN => Some (Button_Right, true)
      | MOUSEEVENTF_RIGHTUP => Some (Button_Right, false)
      | MOUSEEVENTF_MIDDLEDOWN => Some (Button_Middle, true)
      | MOUSEEVENTF_MIDDLEUP => Some (Button_Middle, false)
      | MOUSEEVENTF_XDOWN =>
          if data =? 1 then Some (Button_Back, true)
          else if data =? 2 then Some (Button_Forward, true) else None
      | MOUSEEVENTF_XUP =>
          if data =? 1 then Some (Button_Back, false)
          else if data =? 2 then Some (Button_Forward, false) else None
      | _ => None
      end
  | INPUT_KEYBOARD _ _ _ => None
  end.

(** A key, and a button, after the calls: the last accepted input of it decides. *)
Definition key_step (k : WindowsScanCode) (down : bool) (call : INPUT * bool) : bool :=
  match call with
  | (INPUT_KEYBOARD scan ext up, true) =>
      if decide (k = {| scan_code := scan; extended := ext |}) then negb up else down
  | _ => down
  end.
Definition os_key (k : WindowsScanCode) (l : list (INPUT * bool)) : bool :=
  fold_left (key_step k) l false.
Definition button_step (b : MouseButton) (down : bool) (call : INPUT * bool) : bool :=
  match button_of call.1, call.2 with
  | Some (c, d), true => if decide (b = c) then d else down
  | _, _ => down
  end.
Definition os_button (b : MouseButton) (l : list (INPUT * bool)) : bool :=
  fold_left (button_step b) l false.

Lemma os_key_snoc k l x : os_key k (l ++ [x]) = key_step k (os_key k l) x.
Proof. unfold os_key. by rewrite fold_left_app. Qed.
Lemma os_button_snoc b l x : os_button b (l ++ [x]) = button_step b (os_button b l) x.
Proof. unfold os_button. by rewrite fold_left_app. Qed.

Lemma button_of_input button down :
  button_of (INPUT_MOUSE 0 0 (mouse_button_input button down).1
               (mouse_button_input button down).2) = Some (button, down).
Proof. by destruct button, down. Qed.

(** What is down in Windows is what the injector holds. *)
Definition agrees (i : Injector) : Prop :=
  (forall code k, evdev_to_windows_scancode code = Some k ->
     os_key k (calls i) = bool_decide (code ∈ held_keys i)) /\
  (forall b, os_button b (calls i) = held_buttons i b).

Lemma all_buttons b : b ∈ BUTTONS.
Proof. destruct b; unfold BUTTONS; set_solver. Qed.


Section Accepting.
(** A desktop that refuses nothing. *)
Variable accepts : list (INPUT * bool) -> INPUT -> bool.
Hypothesis Haccepts : forall l input, accepts l input = true.

Lemma send_inputs_accepted input i :
  send_inputs accepts input i =
  ({| held_keys := held_keys i; held_buttons := held_buttons i;
      calls := calls i ++ [(input, true)] |}, Ok tt).
Proof. unfold send_inputs. by rewrite Haccepts. Qed.

(** A key goes down or up together with its entry. *)
Lemma agrees_key code down i :
  (forall c k, evdev_to_windows_scancode c = Some k -> c <> code ->
     os_key k (calls i) = bool_decide (c ∈ held_keys i)) ->
  (forall b, os_button b (calls i) = held_buttons i b) ->
  agrees (send_key accepts code down (set_key code down i)).1.
Proof.
  intros Hk Hb. unfold send_key.
  assert (forall c, c <> code -> bool_decide (c ∈ held_keys (set_key code down i)) =
                                 bool_decide (c ∈ held_keys i)) as Hother.
  { intros c Hc. apply bool_decide_ext. destruct down; cbn [set_key held_keys]; set_solver. }
  destruct (evdev_to_windows_scancode code) as [key|] eqn:E.
  - rewrite send_inputs_accepted. cbn [fst]. split; cbn [calls held_keys held_buttons set_key].
    + intros c k Hc. rewrite os_key_snoc. cbn [key_step]. case_decide as Hd.
      * assert (c = code) as ->.
        { apply evdev_code_returns in E, Hc. rewrite Hd in Hc. destruct key. cbn in Hc. congruence. }
        destruct down; cbn [negb]; symmetry;
          [apply bool_decide_eq_true|apply bool_decide_eq_false]; set_solver.
      * assert (c <> code) as Hne by (intros ->; destruct key; cbn in Hd; congruence).
        rewrite (Hk c k) by done. symmetry. by apply (Hother c).
    + intros b. rewrite os_button_snoc. apply Hb.
  - cbn [fst]. split; [|done]. intros c k Hc. change (calls (set_key code down i)) with (calls i).
    assert (c <> code) as Hne by congruence. by rewrite (Hk c k), Hother.
Qed.

Lemma agrees_button button down i :
  agrees i ->
  agrees (send_mouse accepts 0 0 (mouse_button_input button down).1
            (mouse_button_input button down).2 (set_button button down i)).1.
Proof.
  intros [Hk Hb]. unfold send_mouse. rewrite send_inputs_accepted. cbn [fst].
  split; cbn [calls held_keys held_buttons set_button].
  - intros c k Hc. rewrite os_key_snoc. by apply Hk.
  - intros b. rewrite os_button_snoc. unfold button_step. cbn [fst snd].
    rewrite button_of_input. case_decide; [done|apply Hb].
Qed.

(** An input that is neither a key nor a button. *)
Lemma agrees_other dx dy data flags i :
  button_of (INPUT_MOUSE dx dy data flags) = None -> agrees i ->
  agrees (send_mouse accepts dx dy data flags i).1.
Proof.
  intros Hn [Hk Hb]. unfold send_mouse. rewrite send_inputs_accepted. cbn [fst].
  split; cbn [calls held_keys held_buttons].
  - intros c k Hc. rewrite os_key_snoc. by apply Hk.
  - intros b. rewrite os_button_snoc. unfold button_step. cbn [fst snd]. rewrite Hn. apply Hb.
Qed.

(** Letting the keys of a list go leaves those of the others. *)
Lemma keys_up_agrees keys : forall i first (held : Z -> Prop) `{forall c, Decision (held c)},
  (forall c k, evdev_to_windows_scancode c = Some k -> os_key k (calls i) = bool_decide (held c)) ->
  (forall b, os_button b (calls i) = held_buttons i b) ->
  let out := (keys_up accepts keys i first).1 in
  (forall c k, evdev_to_windows_scancode c = Some k ->
     os_key k (calls out) = bool_decide (held c /\ c ∉ keys)) /\
  (forall b, os_button b (calls out) = held_buttons out b) /\
  held_buttons out = held_buttons i.
Proof.
  induction keys as [|key keys IH]; intros i first held ? Hk Hb; cbn [keys_up].
  - cbn [fst]. split_and!; [|done..]. intros c k Hc. rewrite (Hk c k Hc).
    apply bool_decide_ext. set_solver.
  - destruct (send_key accepts key false i) as [j r] eqn:Hs.
    assert ((forall c k, evdev_to_windows_scancode c = Some k ->
               os_key k (calls j) = bool_decide (held c /\ c <> key)) /\
            (forall b, os_button b (calls j) = held_buttons j b) /\
            held_buttons j = held_buttons i) as (Hk' & Hb' & Eb).
    { revert Hs. unfold send_key. destruct (evdev_to_windows_scancode key) as [wk|] eqn:E.
      - rewrite send_inputs_accepted. intros [= <- <-]. cbn [calls held_buttons].
        split_and!; [|intros b; rewrite os_button_snoc; apply Hb|done].
        intros c k Hc. rewrite os_key_snoc. cbn [key_step negb]. case_decide as Hd.
        + symmetry. apply bool_decide_eq_false. intros [_ Hne]. apply Hne.
          apply evdev_code_returns in E, Hc. rewrite Hd in Hc. destruct wk. cbn in Hc. congruence.
        + rewrite (Hk c k Hc). apply bool_decide_ext.
          assert (c <> key) by (intros ->; destruct wk; cbn in Hd; congruence). tauto.
      - intros [= <- <-]. split_and!; [|done..]. intros c k Hc. rewrite (Hk c k Hc).
        apply bool_decide_ext. assert (c <> key) by congruence. tauto. }
    destruct (IH j (first_of first r) (fun c => held c /\ c <> key) _ Hk' Hb') as (H1 & H2 & H3).
    split_and!; [|done|congruence]. intros c k Hc. rewrite (H1 c k Hc).
    apply bool_decide_ext. set_solver.
Qed.

Lemma buttons_up_agrees bs : forall i first,
  agrees i ->
  agrees (buttons_up accepts bs i first).1 /\
  (forall b, b ∈ bs \/ held_buttons i b = false ->
     held_buttons (buttons_up accepts bs i first).1 b = false).
Proof.
  induction bs as [|b bs IH]; intros i first Hi; cbn [buttons_up].
  - split; [done|]. intros b [Hb|Hb]; [set_solver|done].
  - destruct (held_buttons i b) eqn:Hb; cbn [negb].
    + pose proof (agrees_button b false i Hi) as Ha. unfold send_mouse in *.
      rewrite send_inputs_accepted in *. cbn [fst] in Ha.
      destruct (mouse_button_input b false) as [data flags] eqn:Em. cbn [fst snd] in Ha.
      rewrite send_inputs_accepted.
      edestruct IH as [H1 H2]; [exact Ha|]. split; [exact H1|]. intros c Hc. apply H2.
      destruct (decide (c = b)) as [->|Hne]; [right|].
      * cbn. by rewrite decide_True.
      * destruct Hc as [Hc|Hc]; [left; set_solver|right]. cbn. by rewrite decide_False.
    + destruct (IH i first Hi) as [H1 H2]. split; [done|]. intros c Hc. apply H2.
      destruct Hc as [Hc|Hc]; [|by right]. apply elem_of_cons in Hc as [->|Hc]; [by right|by left].
Qed.

Lemma all_keys_up_agrees i :
  agrees i ->
  agrees (all_keys_up accepts i).1 /\ forall b, held_buttons (all_keys_up accepts i).1 b = false.
Proof.
  intros [Hk Hb]. unfold all_keys_up.
  destruct (keys_up_agrees (ascending (held_keys i)) i None (fun c => c ∈ held_keys i) Hk Hb)
    as (H1 & H2 & H3).
  destruct (keys_up accepts (ascending (held_keys i)) i None) as [j first]. cbn [fst] in *.
  set (j' := {| held_keys := ∅; held_buttons := held_buttons j; calls := calls j |}).
  assert (agrees j') as Hj.
  { split; [|done]. intros c k Hc. cbn [j' calls held_keys]. rewrite (H1 c k Hc).
    apply bool_decide_ext. rewrite elem_of_ascending. set_solver. }
  destruct (buttons_up_agrees BUTTONS j' first Hj) as [H4 H5].
  destruct (buttons_up accepts BUTTONS j' first) as [m f]. cbn [fst] in *.
  split; [done|]. intros b. apply H5. left. apply all_buttons.
Qed.

Lemma inject_agrees ev i : agrees i -> agrees (inject accepts ev i).1.
Proof.
  intros Hi. destruct ev as [dx dy|button down|x y|code down|]; cbn [inject].
  - by apply agrees_other.
  - pose proof (agrees_button button down i Hi) as H.
    by destruct (mouse_button_input button down) as [data flags].
  - assert (forall n, agrees (send_mouse accepts 0 0 n MOUSEEVENTF_WHEEL i).1) as Hv
      by (intros n; by apply agrees_other).
    destruct (f64_eq y (f64_of 0)); cbn [negb].
    + destruct (f64_eq x (f64_of 0)); cbn [negb fst]; [done|by apply agrees_other].
    + specialize (Hv (wheel_data y)). destruct (send_mouse _ _ _ _ _ i) as [j [|err]];
        cbn [fst] in *; [|done].
      destruct (f64_eq x (f64_of 0)); cbn [negb fst]; [done|by apply agrees_other].
  - destruct Hi as [Hk Hb]. apply agrees_key; [|done]. intros c k Hc _. by apply Hk.
  - by apply all_keys_up_agrees.
Qed.

Lemma inject_all_agrees events : forall i, agrees i -> agrees (inject_all accepts events i).
Proof.
  induction events as [|ev events IH]; intros i Hi; [done|]. apply IH. by apply inject_agrees.
Qed.

(** C17. On a desktop that accepts its input, what Windows holds down is at every moment what the
    injector holds, whatever the peer sends; and when the session ends nothing stays down. *)
Theorem windows_holds_what_the_peer_holds events :
  let i := inject_all accepts events Injector_new in
  (forall code k, evdev_to_windows_scancode code = Some k ->
     os_key k (calls i) = bool_decide (code ∈ held_keys i)) /\
  (forall b, os_button b (calls i) = held_buttons i b) /\
  (forall code k, evdev_to_windows_scancode code = Some k ->
     os_key k (calls (drop_injector accepts i)) = false) /\
  (forall b, os_button b (calls (drop_injector accepts i)) = false).
Proof.
  cbv zeta. assert (agrees (inject_all accepts events Injector_new)) as Hi.
  { apply inject_all_agrees. split; [|done]. intros c k _. symmetry.
    apply bool_decide_eq_false. cbn [Injector_new held_keys]. set_solver. }
  destruct (all_keys_up_agrees _ Hi) as [[Hk Hb] Hd]. destruct Hi as [H1 H2].
  split_and!; [done..| |].
  - intros code k Hc. unfold drop_injector. rewrite (Hk code k Hc). apply bool_decide_eq_false.
    unfold all_keys_up.
    destruct (keys_up accepts (ascending _) _ None) as [j first].
    assert (forall bs m f, held_keys m = ∅ -> held_keys (buttons_up accepts bs m f).1 = ∅) as Hheld.
    { clear -Haccepts. induction bs as [|b bs IH]; intros m f Hm; [done|]. cbn [buttons_up].
      destruct (held_buttons m b); cbn [negb]; [|by apply IH].
      destruct (mouse_button_input b false) as [data flags]. unfold send_mouse.
      rewrite send_inputs_accepted. by apply IH. }
    specialize (Hheld BUTTONS {| held_keys := ∅; held_buttons := held_buttons j; calls := calls j |}
                  first eq_refl).
    destruct (buttons_up accepts BUTTONS _ first) as [m f]. cbn [fst] in *. rewrite Hheld. set_solver.
  - intros b. unfold drop_injector. by rewrite Hb.
Qed.
End Accepting.

Lemma windows_holds_what_the_peer_holds_witness :
  let i := inject_all (fun _ _ => true) [Key 30 true; PointerButton Button_Back true] Injector_new in
  os_key {| scan_code := 0x1e; extended := false |} (calls i) = true /\
  os_button Button_Back (calls (drop_injector (fun _ _ => true) i)) = false.
Proof.
  destruct (windows_holds_what_the_peer_holds (fun _ _ => true) (fun _ _ => eq_refl)
    [Key 30 true; PointerButton Button_Back true]) as (H1 & _ & _ & H2).
  split; [|apply H2]. refine (eq_trans (H1 30 _ eq_refl) _). vm_compute. reflexivity.
Defined.

(** *** Letting go of everything, whatever Windows accepts *)

Section Attempts.
Variable accepts : list (INPUT * bool) -> INPUT -> bool.

(** The input was tried after the calls [before]. *)
Definition tried (before after : list (INPUT * bool)) (input : INPUT) : Prop :=
  exists k b, after = before ++ k /\ (input, b) ∈ k.
Definition extends (before after : list (INPUT * bool)) : Prop := exists k, after = before ++ k.

#[local] Instance extends_preorder : PreOrder extends.
Proof.
  split; [intros l; exists []; by rewrite app_nil_r|].
  intros a b c [k ->] [m ->]. exists (k ++ m). by rewrite app_assoc.
Qed.

Lemma tried_later a b c input : extends a b -> tried b c input -> tried a c input.
Proof.
  intros [k ->] (m & r & -> & Hin). exists (k ++ m), r. split; [by rewrite app_assoc|set_solver].
Qed.
Lemma tried_extends a b c input : tried a b input -> extends b c -> tried a c input.
Proof.
  intros (k & r & -> & Hin) [m ->]. exists (k ++ m), r. split; [by rewrite app_assoc|set_solver].
Qed.

(** The key-up of a code that Windows knows. *)
Definition key_up (k : WindowsScanCode) : INPUT := INPUT_KEYBOARD (scan_code k) (extended k) true.
Definition button_up (b : MouseButton) : INPUT :=
  INPUT_MOUSE 0 0 (mouse_button_input b false).1 (mouse_button_input b false).2.

Lemma send_key_extends code down i : extends (calls i) (calls (send_key accepts code down i).1).
Proof.
  unfold send_key. destruct (evdev_to_windows_scancode code); [|reflexivity]. by eexists.
Qed.

Lemma keys_up_tries keys : forall i first,
  extends (calls i) (calls (keys_up accepts keys i first).1) /\
  held_buttons (keys_up accepts keys i first).1 = held_buttons i /\
  forall code k, code ∈ keys -> evdev_to_windows_scancode code = Some k ->
    tried (calls i) (calls (keys_up accepts keys i first).1) (key_up k).
Proof.
  induction keys as [|key keys IH]; intros i first; cbn [keys_up].
  - split_and!; [reflexivity|done|]. intros code k Hin. set_solver.
  - pose proof (send_key_extends key false i) as Hx.
    assert (held_buttons (send_key accepts key false i).1 = held_buttons i) as Hb
      by (unfold send_key; by case_match).
    assert (forall k, evdev_to_windows_scancode key = Some k ->
              tried (calls i) (calls (send_key accepts key false i).1) (key_up k)) as Ht.
    { intros k Hk. unfold send_key. rewrite Hk. do 2 eexists. split; [done|].
      apply list_elem_of_singleton. done. }
    destruct (send_key accepts key false i) as [j r]. cbn [fst] in *.
    destruct (IH j (first_of first r)) as (H1 & H2 & H3).
    split_and!; [by transitivity (calls j)|congruence|]. intros code k Hin Hk.
    apply elem_of_cons in Hin as [->|Hin]; [|by eapply tried_later, H3].
    by eapply tried_extends; [apply Ht|].
Qed.

Lemma buttons_up_tries bs : forall i first,
  extends (calls i) (calls (buttons_up accepts bs i first).1) /\
  held_keys (buttons_up accepts bs i first).1 = held_keys i /\
  (forall b, b ∈ bs \/ held_buttons i b = false ->
     held_buttons (buttons_up accepts bs i first).1 b = false) /\
  forall b, b ∈ bs -> held_buttons i b = true ->
    tried (calls i) (calls (buttons_up accepts bs i first).1) (button_up b).
Proof.
  induction bs as [|b bs IH]; intros i first; cbn [buttons_up].
  - split_and!; [reflexivity|done| |intros b Hin; set_solver].
    intros b [Hb|Hb]; [set_solver|done].
  - destruct (held_buttons i b) eqn:Hb; cbn [negb].
    + destruct (mouse_button_input b false) as [data flags] eqn:Em.
      unfold send_mouse, send_inputs.
      match goal with |- context [buttons_up accepts bs ?j ?f] =>
        set (j' := j); set (f' := f); destruct (IH j' f') as (H1 & H2 & H3 & H4) end.
      assert (tried (calls i) (calls j') (button_up b)) as Ht.
      { do 2 eexists. split; [done|]. unfold button_up. rewrite Em. by apply list_elem_of_singleton. }
      assert (extends (calls i) (calls j')) as Hx by by eexists.
      split_and!; [by transitivity (calls j')|done| |].
      * intros c Hc. apply H3. destruct (decide (c = b)) as [->|Hne]; [right; cbn; by rewrite decide_True|].
        destruct Hc as [Hc|Hc]; [left; set_solver|right]. cbn. by rewrite decide_False.
      * intros c Hc Hheld. destruct (decide (c = b)) as [->|Hne]; [by eapply tried_extends|].
        eapply tried_later; [exact Hx|]. apply H4; [set_solver|]. cbn. by rewrite decide_False.
    + destruct (IH i first) as (H1 & H2 & H3 & H4). split_and!; [done..| |].
      * intros c Hc. apply H3. destruct Hc as [Hc|Hc]; [|by right].
        apply elem_of_cons in Hc as [->|Hc]; [by right|by left].
      * intros c Hc Hheld. apply H4; [|done]. apply elem_of_cons in Hc as [->|Hc]; [congruence|done].
Qed.

(** Letting go forgets every key and button and tries the release of each one that was held,
    even where Windows refuses some of them. *)
Theorem all_keys_up_tries_everything i :
  let j := (all_keys_up accepts i).1 in
  held_keys j = ∅ /\ (forall b, held_buttons j b = false) /\
  (forall code k, code ∈ held_keys i -> evdev_to_windows_scancode code = Some k ->
     tried (calls i) (calls j) (key_up k)) /\
  (forall b, held_buttons i b = true -> tried (calls i) (calls j) (button_up b)).
Proof.
  unfold all_keys_up.
  destruct (keys_up_tries (ascending (held_keys i)) i None) as (K1 & K2 & K3).
  destruct (keys_up accepts (ascending (held_keys i)) i None) as [j first]. cbn [fst] in *.
  set (j' := {| held_keys := ∅; held_buttons := held_buttons j; calls := calls j |}).
  destruct (buttons_up_tries BUTTONS j' first) as (B1 & B2 & B3 & B4).
  destruct (buttons_up accepts BUTTONS j' first) as [m f]. cbn [fst] in *.
  split_and!; [done| | |].
  - intros b. apply B3. left. apply all_buttons.
  - intros code k Hin Hk. eapply tried_extends; [|exact B1].
    by eapply K3; [apply elem_of_ascending|].
  - intros b Hb. eapply tried_later; [exact K1|]. apply B4; [apply all_buttons|].
    cbn [j' held_buttons]. by rewrite K2.
Qed.
End Attempts.

(** *** Numbers *)

(** A wheel report of [d] units, as the capture sends it, injected again. *)
Definition wheel_round_trip (d : Z) : bool :=
  bool_decide (wheel_data (f64_div (f64_of d) WHEEL_DELTA) = truncate_to u32_max d).

Lemma wheel_round_trips : forallb wheel_round_trip (seqZ (-1200) 2401) = true.
Proof. vm_compute. reflexivity. Qed.

(** What one Windows computer captures another one injects unchanged: the motion of any mouse, and
    a turn of the wheel of up to ten notches. *)
Theorem captured_motion_is_injected dx data :
  in_i32 dx -> -1200 <= high_word_signed data <= 1200 ->
  rounded_i32 (f64_of dx) = dx /\
  wheel_data (f64_div (f64_of (high_word_signed data)) WHEEL_DELTA) =
  truncate_to u32_max (high_word_signed data).
Proof.
  intros Hdx Hd. split.
  - unfold rounded_i32. pose proof (exact_i32 dx Hdx) as He.
    rewrite f64_round_exact, f64_lt_exact by (done || unfold exact, i32_min; lia).
    rewrite (proj2 (Z.ltb_ge dx i32_min)) by apply Hdx.
    rewrite f64_lt_exact by (done || unfold exact, i32_max; lia).
    rewrite (proj2 (Z.ltb_ge i32_max dx)) by apply Hdx. by apply f64_as_i32_exact.
  - eapply (bool_decide_eq_true _), (proj1 (forallb_forall _ _) wheel_round_trips).
    apply list_elem_of_In, elem_of_seqZ. lia.
Qed.

Lemma captured_motion_is_injected_witness :
  rounded_i32 (f64_of (-7)) = -7 /\
  wheel_data (f64_div (f64_of (high_word_signed 0xff880000)) WHEEL_DELTA) =
  truncate_to u32_max (high_word_signed 0xff880000).
Proof.
  apply captured_motion_is_injected; [split; vm_compute; discriminate|].
  split; vm_compute; discriminate.
Defined.
