(* ===== verification/InputSupervisor.v ===== *)
(** * The input supervisor: [edge-windows-input/src/lib.rs], [run_input_supervisor]

    Once a second the supervisor compares the counters of the two input workers with the ones of
    the second before, and replaces the worker that has fallen silent while the other, or Windows
    itself, still sees input.  A tick is a function of the process ([WindowsCapture.Process]) and
    of the supervisor's own variables. *)
From S2P Require Export WindowsCapture.
#[local] Open Scope capture_scope.

(** [edge-windows-input 815-815 INPUT_STALL_CONFIRMATIONS] *)
Definition INPUT_STALL_CONFIRMATIONS : Z := 2.
(** [edge-windows-input 816-816 INPUT_RESTART_COOLDOWN] *)
Definition INPUT_RESTART_COOLDOWN : Duration := from_secs 8.

(** [edge-windows-input 830-837 InputSupervisorSnapshot] *)
Record InputSupervisorSnapshot := {
  raw_mouse : Z; raw_keyboard : Z; hook_mouse : Z; hook_keyboard : Z;
  system_last_input : option Z;
}.
(** [edge-windows-input 1328-1334 system_last_input_tick] *)
Definition system_last_input_tick (e : Env) : option Z := last_input_info e.
(** [edge-windows-input 840-848 InputSupervisorSnapshot::current] *)
Definition current_snapshot (e : Env) (g : Globals) : InputSupervisorSnapshot :=
  {| raw_mouse := counters g RAW_MOUSE_EVENTS; raw_keyboard := counters g RAW_KEYBOARD_EVENTS;
     hook_mouse := counters g mouse_hook_events; hook_keyboard := counters g keyboard_hook_events;
     system_last_input := system_last_input_tick e |}.
(** [edge-windows-input 850-852 InputSupervisorSnapshot::raw_advanced] *)
Definition raw_advanced (s previous : InputSupervisorSnapshot) : bool :=
  (raw_mouse previous <? raw_mouse s) || (raw_keyboard previous <? raw_keyboard s).
(** [edge-windows-input 854-856 InputSupervisorSnapshot::hooks_advanced] *)
Definition hooks_advanced (s previous : InputSupervisorSnapshot) : bool :=
  (hook_mouse previous <? hook_mouse s) || (hook_keyboard previous <? hook_keyboard s).
(** [edge-windows-input 858-863 InputSupervisorSnapshot::system_input_advanced] *)
Definition system_input_advanced (s previous : InputSupervisorSnapshot) : bool :=
  match system_last_input s, system_last_input previous with
  | Some current, Some old => negb (current =? old)
  | _, _ => false
  end.
(** [edge-windows-input 1336-1344 hook_needs_repair] *)
Definition hook_needs_repair (raw previous_raw hook previous_hook : Z) (enabled : bool) : bool :=
  enabled && (previous_raw <? raw) && (hook =? previous_hook).
(** [edge-windows-input 1346-1353 full_pipeline_stalled] *)
Definition full_pipeline_stalled (s previous : InputSupervisorSnapshot) : bool :=
  system_input_advanced s previous && negb (raw_advanced s previous)
  && negb (hooks_advanced s previous).
(** [edge-windows-input 1355-1360 raw_input_stalled] *)
Definition raw_input_stalled (s previous : InputSupervisorSnapshot) : bool :=
  hooks_advanced s previous && negb (raw_advanced s previous).

(** [edge-windows-input 1290-1300 capture_enabled_and_suspended] *)
Definition capture_enabled_and_suspended (contended : bool) (p : Process) : bool * bool :=
  match STATE p with
  | Some s => if contended then (false, false) else (enabled s, capture_suspended s)
  | None => (false, false)
  end.

(** The variables of the loop: [edge-windows-input 1204-1208 run_input_supervisor] *)
Record Supervisor := {
  previous : InputSupervisorSnapshot;
  fully_stalled_ticks : Z;
  hook_stalled_ticks : Z;
  raw_stalled_ticks : Z;
  last_restart : Instant;
}.
(** [edge-windows-input 1204-1208 run_input_supervisor] *)
Definition supervisor_new (e : Env) (p : Process) : Supervisor :=
  {| previous := current_snapshot e (GLOBALS p); fully_stalled_ticks := 0; hook_stalled_ticks := 0;
     raw_stalled_ticks := 0; last_restart := now e - INPUT_RESTART_COOLDOWN |}.

(** What a tick replaced, and whether the threads were spawned. *)
Inductive Repair := Repair_none | Repair_all (ok : bool) | Repair_hooks (ok : bool) | Repair_raw (ok : bool).

(** [ticks.saturating_add(1)], or zero.  [edge-windows-input 1239-1253 run_input_supervisor] *)
Definition next_ticks (stalled : bool) (ticks : Z) : Z :=
  if stalled then saturating_add u8_max ticks 1 else 0.

(** The stall of the hooks: [edge-windows-input 1225-1237 run_input_supervisor] *)
Definition hooks_stalled (suspended : bool) (s previous : InputSupervisorSnapshot) : bool :=
  hook_needs_repair (raw_mouse s) (raw_mouse previous) (hook_mouse s) (hook_mouse previous)
    (negb suspended)
  || hook_needs_repair (raw_keyboard s) (raw_keyboard previous) (hook_keyboard s)
       (hook_keyboard previous) true.

(** One turn of the loop.  [edge-windows-input 1210-1286 run_input_supervisor] *)
Definition tick (e : Env) (contended : bool) (p : Process) (v : Supervisor) :
  Process * Supervisor * Repair :=
  let p := count input_supervisor_checks p in
  let current := current_snapshot e (GLOBALS p) in
  let '(enabled, suspended) := capture_enabled_and_suspended contended p in
  if negb enabled then
    (p, {| previous := current; fully_stalled_ticks := 0; hook_stalled_ticks := 0;
           raw_stalled_ticks := 0; last_restart := last_restart v |}, Repair_none)
  else
    let fully := next_ticks (full_pipeline_stalled current (previous v)) (fully_stalled_ticks v) in
    let hooks := next_ticks (hooks_stalled suspended current (previous v)) (hook_stalled_ticks v) in
    let raw := next_ticks (raw_input_stalled current (previous v)) (raw_stalled_ticks v) in
    let cooldown_complete := INPUT_RESTART_COOLDOWN <=? duration_since (now e) (last_restart v) in
    let restarted (ok : bool) := if ok then now e else last_restart v in
    if cooldown_complete && (INPUT_STALL_CONFIRMATIONS <=? fully) then
      let '(p, ok) := restart_input_workers e p in
      (if ok then count input_pipeline_restarts p else p,
       {| previous := current; fully_stalled_ticks := 0; hook_stalled_ticks := 0;
          raw_stalled_ticks := 0; last_restart := restarted ok |}, Repair_all ok)
    else if cooldown_complete && (INPUT_STALL_CONFIRMATIONS <=? hooks) then
      let '(p, ok) := restart_hook_worker e p in
      (p, {| previous := current; fully_stalled_ticks := fully; hook_stalled_ticks := 0;
             raw_stalled_ticks := raw; last_restart := restarted ok |}, Repair_hooks ok)
    else if cooldown_complete && (INPUT_STALL_CONFIRMATIONS <=? raw) then
      let '(p, ok) := restart_raw_input_worker e p in
      (p, {| previous := current; fully_stalled_ticks := fully; hook_stalled_ticks := hooks;
             raw_stalled_ticks := 0; last_restart := restarted ok |}, Repair_raw ok)
    else (p, {| previous := current; fully_stalled_ticks := fully; hook_stalled_ticks := hooks;
                raw_stalled_ticks := raw; last_restart := last_restart v |}, Repair_none).

(** ** Properties *)

(** A run of the supervisor: before each tick the rest of the process does [work]. *)
Record Second := { sec_env : Env; sec_contended : bool; work : Process -> Process }.
Definition second (x : Second) (p : Process) (v : Supervisor) : Process * Supervisor * Repair :=
  tick (sec_env x) (sec_contended x) (work x p) v.
Fixpoint supervise (l : list Second) (p : Process) (v : Supervisor) : list (Instant * Repair) :=
  match l with
  | [] => []
  | x :: l' =>
      let '(p, v, r) := second x p v in (now (sec_env x), r) :: supervise l' p v
  end.

(** The instants of the replacements that were made. *)
Definition replaced (r : Repair) : bool :=
  match r with Repair_none => false | Repair_all ok | Repair_hooks ok | Repair_raw ok => ok end.
Definition replacements (log : list (Instant * Repair)) : list Instant :=
  (List.filter (fun x => replaced x.2) log).*1.

(** Each instant is a cooldown after the one before. *)
Fixpoint spaced (from : Instant) (l : list Instant) : Prop :=
  match l with [] => True | t :: l' => from + INPUT_RESTART_COOLDOWN <= t /\ spaced t l' end.

(** The next test for the confirmations. *)
Ltac confirm :=
  match goal with |- context [if INPUT_STALL_CONFIRMATIONS <=? ?n then _ else _] =>
    destruct (INPUT_STALL_CONFIRMATIONS <=? n) end.

Lemma tick_spaced e contended p v :
  let '(_, v', r) := tick e contended p v in
  if replaced r then
    last_restart v + INPUT_RESTART_COOLDOWN <= now e /\ last_restart v' = now e
  else last_restart v' = last_restart v.
Proof.
  unfold tick. destruct (capture_enabled_and_suspended _ _) as [en su].
  destruct en; cbn [negb]; [|done].
  assert (INPUT_RESTART_COOLDOWN <=? duration_since (now e) (last_restart v) = true ->
          last_restart v + INPUT_RESTART_COOLDOWN <= now e) as Hc.
  { unfold duration_since, INPUT_RESTART_COOLDOWN, from_secs. intros H%Z.leb_le. lia. }
  destruct (INPUT_RESTART_COOLDOWN <=? duration_since (now e) (last_restart v)); cbn [andb];
    [specialize (Hc eq_refl)|done].
  confirm; [by destruct (restart_input_workers e _) as [q []]|].
  confirm; [by destruct (restart_hook_worker e _) as [q []]|].
  confirm; [by destruct (restart_raw_input_worker e _) as [q []]|done].
Qed.

(** However the second's input looks, the workers are not replaced twice within eight seconds. *)
Theorem replacements_are_spaced l p v :
  spaced (last_restart v) (replacements (supervise l p v)).
Proof.
  revert p v. induction l as [|x l IH]; intros p v; [done|]. cbn [supervise]. unfold second.
  pose proof (tick_spaced (sec_env x) (sec_contended x) (work x p) v) as Ht.
  destruct (tick (sec_env x) (sec_contended x) (work x p) v) as [[p' v'] r].
  specialize (IH p' v'). unfold replacements in *. cbn [List.filter snd].
  destruct (replaced r); cbn [fmap list_fmap fst spaced].
  - destruct Ht as [H1 H2]. by rewrite <- H2 at 2.
  - by rewrite <- Ht.
Qed.

(** *** A dead pipeline is replaced *)

(** The tick finds the capture enabled, Windows counting input, and both workers silent. *)
Definition dead (e : Env) (contended : bool) (p : Process) (v : Supervisor) : Prop :=
  fst (capture_enabled_and_suspended contended p) = true /\
  full_pipeline_stalled (current_snapshot e (GLOBALS p)) (previous v) = true.

Lemma count_supervisor_snapshot e p :
  current_snapshot e (GLOBALS (count input_supervisor_checks p)) = current_snapshot e (GLOBALS p).
Proof. reflexivity. Qed.

(** A dead pipeline stalls neither worker alone. *)
Lemma dead_only_fully suspended s prev :
  full_pipeline_stalled s prev = true ->
  hooks_stalled suspended s prev = false /\ raw_input_stalled s prev = false.
Proof.
  unfold full_pipeline_stalled, hooks_stalled, raw_input_stalled, hook_needs_repair, raw_advanced.
  intros H. apply andb_true_iff in H as [H Hh]. apply andb_true_iff in H as [_ Hr].
  apply negb_true_iff in Hh, Hr. apply orb_false_iff in Hr as [-> ->]. rewrite Hh.
  by rewrite !andb_false_r, !andb_false_l.
Qed.

Lemma tick_dead e contended p v :
  dead e contended p v -> thread_spawned e = true -> 0 <= fully_stalled_ticks v < u8_max ->
  let '(_, v', r) := tick e contended p v in
  if (INPUT_RESTART_COOLDOWN <=? duration_since (now e) (last_restart v))
     && (1 <=? fully_stalled_ticks v)
  then r = Repair_all true
  else r = Repair_none /\ fully_stalled_ticks v' = fully_stalled_ticks v + 1 /\
       last_restart v' = last_restart v.
Proof.
  intros [Hen Hst] Hsp Hticks. unfold tick. rewrite count_supervisor_snapshot.
  change (capture_enabled_and_suspended contended (count input_supervisor_checks p))
    with (capture_enabled_and_suspended contended p).
  destruct (capture_enabled_and_suspended contended p) as [en su]. cbn [fst] in Hen. subst en.
  destruct (dead_only_fully su _ _ Hst) as [-> ->]. rewrite Hst. cbn [negb next_ticks].
  assert (saturating_add u8_max (fully_stalled_ticks v) 1 = fully_stalled_ticks v + 1) as ->
    by (unfold saturating_add, u8_max in *; lia).
  assert (INPUT_STALL_CONFIRMATIONS <=? fully_stalled_ticks v + 1 = (1 <=? fully_stalled_ticks v))
    as -> by (unfold INPUT_STALL_CONFIRMATIONS; lia).
  destruct (INPUT_RESTART_COOLDOWN <=? duration_since (now e) (last_restart v)); cbn [andb].
  - destruct (1 <=? fully_stalled_ticks v); [|done].
    unfold restart_input_workers, restart_raw_input_worker, spawn_raw_input_worker,
      restart_hook_worker, spawn_hook_worker. by rewrite Hsp.
  - done.
Qed.

(** When Windows reports input and neither worker sees any, for two seconds running and with the
    cooldown over, all the workers are replaced by the second of them. *)
Theorem dead_pipeline_is_replaced e1 c1 p1 e2 c2 p2 v :
  dead e1 c1 p1 v -> dead e2 c2 p2 (tick e1 c1 p1 v).1.2 ->
  thread_spawned e1 = true -> thread_spawned e2 = true ->
  0 <= fully_stalled_ticks v < u8_max - 1 ->
  last_restart v + INPUT_RESTART_COOLDOWN <= now e1 <= now e2 ->
  (tick e1 c1 p1 v).2 = Repair_all true \/
  (tick e2 c2 p2 (tick e1 c1 p1 v).1.2).2 = Repair_all true.
Proof.
  pose proof (tick_dead e1 c1 p1 v) as H1.
  destruct (tick e1 c1 p1 v) as [[q1 v1] r1]. cbn [fst snd].
  pose proof (tick_dead e2 c2 p2 v1) as H2.
  destruct (tick e2 c2 p2 v1) as [[q2 v2] r2].
  intros Hd1 Hd2 Hs1 Hs2 Ht Hnow. specialize (H1 Hd1 Hs1 ltac:(lia)).
  match type of H1 with if ?b then _ else _ => destruct b end; [by left|right]. destruct H1 as (_ & Hf & Hl).
  specialize (H2 Hd2 Hs2 ltac:(unfold u8_max in *; lia)).
  rewrite Hl, Hf in H2. revert H2.
  rewrite (proj2 (Z.leb_le 1 (fully_stalled_ticks v + 1))) by lia.
  rewrite (proj2 (Z.leb_le INPUT_RESTART_COOLDOWN (duration_since (now e2) (last_restart v))))
    by (unfold duration_since; lia). by cbn [andb].
Qed.

(** Windows counts an input every second; neither worker sees one. *)
Definition silent_second (t n : Z) : Env :=
  {| now := from_secs t; foreground := 0; window_rect := None; monitor_rect := None;
     clip_cursor := None; metrics := {| left := 0; top := 0; width := 1920; height := 1080 |};
     receiver_open := true; mouse_hook_result := 11; keyboard_hook_result := 12;
     cursor_created := fun _ => true; cursor_replaced := fun _ => true; last_input_info := Some n;
     thread_spawned := true |}.

Definition silent_process : Process :=
  {| STATE := Some (initial_state (silent_second 1 0)
       {| cap_edge := Edge_Left; remote_size := {| size_width := 800; size_height := 600 |};
          game_compatibility := AlwaysEnabled |});
     GLOBALS := {| sent := []; cursor_pos := {| pt_x := 0; pt_y := 0 |}; display_count := 0;
              blanked := []; mouse_hook_id := 0; keyboard_hook_id := 0; stats_active := false;
              stats_suspended := false; counters := fun _ => 0; raw_worker_thread_id := 0;
              hook_worker_thread_id := 0; raw_worker_generation := 0; supervisor_started := true |} |}.
Definition silent_supervisor : Supervisor := supervisor_new (silent_second 1 0) silent_process.

Lemma dead_pipeline_is_replaced_witness :
  (tick (silent_second 2 1) false silent_process silent_supervisor).2 = Repair_all true \/
  (tick (silent_second 3 2) false silent_process
     (tick (silent_second 2 1) false silent_process silent_supervisor).1.2).2 = Repair_all true.
Proof.
  refine (dead_pipeline_is_replaced (silent_second 2 1) false silent_process (silent_second 3 2)
            false silent_process silent_supervisor _ _ eq_refl eq_refl _ _).
  all: repeat split; vm_compute; first [reflexivity|discriminate].
Defined.
