(* ===== verification/Utf16.v ===== *)
(** * Text as Windows stores it

    [str::encode_utf16] and [String::from_utf16_lossy] of the standard library: Windows keeps text
    as 16-bit words that a zero ends. *)
From S2P Require Export Text.

(** ** Encoding *)

(** The words of a character. *)
Definition char_words (c : Z) : list Z :=
  if c <? 0x10000 then [c]
  else [0xD800 + (c - 0x10000) / 0x400; 0xDC00 + (c - 0x10000) mod 0x400].

(** [str::encode_utf16] on the UTF-8 bytes of a string. *)
Fixpoint utf16_words (bs : bytes) : list Z :=
  match bs with
  | [] => []
  | b0 :: r0 =>
      if b0 <=? 127 then char_words b0 ++ utf16_words r0
      else match r0 with
      | [] => []
      | b1 :: r1 =>
          if b0 <=? 223 then char_words ((b0 - 192) * 64 + (b1 - 128)) ++ utf16_words r1
          else match r1 with
          | [] => []
          | b2 :: r2 =>
              if b0 <=? 239 then
                char_words ((b0 - 224) * 4096 + (b1 - 128) * 64 + (b2 - 128)) ++ utf16_words r2
              else match r2 with
              | [] => []
              | b3 :: r3 =>
                  char_words ((b0 - 240) * 262144 + (b1 - 128) * 4096 + (b2 - 128) * 64
                              + (b3 - 128)) ++ utf16_words r3
              end
          end
      end
  end.
Definition encode_utf16 (s : string) : list Z := utf16_words (str_bytes s).

(** ** Decoding *)

(** [String::push]: the UTF-8 bytes of a character. *)
Definition char_bytes (c : Z) : bytes :=
  if c <? 0x80 then [c]
  else if c <? 0x800 then [192 + c / 64; 128 + c mod 64]
  else if c <? 0x10000 then [224 + c / 4096; 128 + c / 64 mod 64; 128 + c mod 64]
  else [240 + c / 262144; 128 + c / 4096 mod 64; 128 + c / 64 mod 64; 128 + c mod 64].

Definition is_high (w : Z) : bool := (0xD800 <=? w) && (w <=? 0xDBFF).
Definition is_low (w : Z) : bool := (0xDC00 <=? w) && (w <=? 0xDFFF).

(** An unpaired surrogate becomes U+FFFD, and the word after it is read on its own. *)
Fixpoint words_bytes (ws : list Z) : bytes :=
  match ws with
  | [] => []
  | w :: r =>
      if is_high w then
        match r with
        | w' :: r' =>
            if is_low w'
            then char_bytes (0x10000 + (w - 0xD800) * 0x400 + (w' - 0xDC00)) ++ words_bytes r'
            else replacement ++ words_bytes r
        | [] => replacement
        end
      else if is_low w then replacement ++ words_bytes r
      else char_bytes w ++ words_bytes r
  end.
Definition from_utf16_lossy (ws : list Z) : string := bytes_str (words_bytes ws).

(** The words before the first zero. *)
Fixpoint until_zero (ws : list Z) : list Z :=
  match ws with
  | [] => []
  | w :: r => if w =? 0 then [] else w :: until_zero r
  end.

Example encode_utf16_sample :
  utf16_words [72; 195; 164; 226; 130; 172; 240; 159; 152; 128]
  = [72; 0xE4; 0x20AC; 0xD83D; 0xDE00].
Proof. reflexivity. Qed.
Example from_utf16_lossy_sample :
  words_bytes [0xD83D; 72; 0xDE00; 0xD83D; 0xDE00]
  = replacement ++ [72] ++ replacement ++ [240; 159; 152; 128].
Proof. reflexivity. Qed.

(** ** Round trip *)

(** A character that is no surrogate is read back from its words. *)
Lemma words_of_char c ws : 0 <= c <= 0x10FFFF -> is_high c = false -> is_low c = false ->
  words_bytes (char_words c ++ ws) = char_bytes c ++ words_bytes ws.
Proof.
  intros Hc Hh Hl. unfold char_words. destruct (Z.ltb_spec c 0x10000) as [Hlt|Hge].
  - cbn [app words_bytes]. by rewrite Hh, Hl.
  - cbn [app words_bytes]. unfold is_high, is_low.
    pose proof (Z.mod_pos_bound (c - 0x10000) 0x400 ltac:(lia)) as Hm.
    pose proof (Z.div_mod (c - 0x10000) 0x400 ltac:(lia)) as Hd.
    assert (0 <= (c - 0x10000) / 0x400 <= 0x3FF) as Hq.
    { split; [apply Z.div_pos; lia|]. apply Z.lt_succ_r, Z.div_lt_upper_bound; lia. }
    repeat match goal with |- context [?a <=? ?b] => destruct (Z.leb_spec a b); [|lia] end.
    cbn [andb]. do 2 f_equal. lia.
Qed.

(** A zero word comes from a zero byte only. *)
Lemma until_zero_app ws vs : Forall (fun w => w <> 0) ws -> until_zero (ws ++ vs) = ws ++ until_zero vs.
Proof.
  induction 1 as [|w ws Hw _ IH]; [done|]. cbn [app until_zero].
  destruct (Z.eqb_spec w 0); [done|]. by rewrite IH.
Qed.

Lemma char_words_nonzero c : 0 < c -> Forall (fun w => w <> 0) (char_words c).
Proof.
  intros Hc. unfold char_words. case_match; repeat constructor; try lia.
  - reflect_bools. pose proof (Z.div_pos (c - 0x10000) 0x400). lia.
  - pose proof (Z.mod_pos_bound (c - 0x10000) 0x400). lia.
Qed.

(** The bytes of a character, from its value. *)
Lemma char_bytes_2 b0 b1 : 194 <= b0 <= 223 -> 128 <= b1 <= 191 ->
  char_bytes ((b0 - 192) * 64 + (b1 - 128)) = [b0; b1].
Proof.
  intros H0 H1. unfold char_bytes.
  repeat match goal with |- context [?a <? ?b] => destruct (Z.ltb_spec a b); try lia end.
  rewrite Z.div_add_l, (Z.div_small (b1 - 128)), (Z.add_comm ((b0 - 192) * 64)),
    Z.mod_add, Z.mod_small by lia.
  repeat f_equal; lia.
Qed.

Lemma char_bytes_3 b0 b1 b2 : 224 <= b0 <= 239 -> 128 <= b1 <= 191 -> 128 <= b2 <= 191 ->
  (b0 = 224 -> 160 <= b1) ->
  char_bytes ((b0 - 224) * 4096 + (b1 - 128) * 64 + (b2 - 128)) = [b0; b1; b2].
Proof.
  intros H0 H1 H2 Hlow. unfold char_bytes.
  set (c := (b0 - 224) * 4096 + (b1 - 128) * 64 + (b2 - 128)).
  assert (c / 64 = (b0 - 224) * 64 + (b1 - 128)) as E1.
  { symmetry. apply (Z.div_unique _ _ _ (b2 - 128)); subst c; lia. }
  assert (c / 4096 = b0 - 224) as E2.
  { symmetry. apply (Z.div_unique _ _ _ ((b1 - 128) * 64 + (b2 - 128))); subst c; lia. }
  assert (c mod 64 = b2 - 128) as E3.
  { symmetry. apply (Z.mod_unique _ _ ((b0 - 224) * 64 + (b1 - 128))); subst c; lia. }
  rewrite E1, E2, E3, (Z.add_comm ((b0 - 224) * 64)), Z.mod_add, Z.mod_small by lia.
  repeat match goal with |- context [?a <? ?b] => destruct (Z.ltb_spec a b); try (subst c; lia) end.
  repeat f_equal; lia.
Qed.

Lemma char_bytes_4 b0 b1 b2 b3 : 240 <= b0 <= 244 -> 128 <= b1 <= 191 -> 128 <= b2 <= 191 ->
  128 <= b3 <= 191 -> (b0 = 240 -> 144 <= b1) ->
  char_bytes ((b0 - 240) * 262144 + (b1 - 128) * 4096 + (b2 - 128) * 64 + (b3 - 128))
  = [b0; b1; b2; b3].
Proof.
  intros H0 H1 H2 H3 Hlow. unfold char_bytes.
  set (c := (b0 - 240) * 262144 + (b1 - 128) * 4096 + (b2 - 128) * 64 + (b3 - 128)).
  assert (c / 64 = ((b0 - 240) * 64 + (b1 - 128)) * 64 + (b2 - 128)) as E1.
  { symmetry. apply (Z.div_unique _ _ _ (b3 - 128)); subst c; lia. }
  assert (c / 4096 = (b0 - 240) * 64 + (b1 - 128)) as E2.
  { symmetry. apply (Z.div_unique _ _ _ ((b2 - 128) * 64 + (b3 - 128))); subst c; lia. }
  assert (c / 262144 = b0 - 240) as E3.
  { symmetry. apply (Z.div_unique _ _ _ ((b1 - 128) * 4096 + (b2 - 128) * 64 + (b3 - 128)));
      subst c; lia. }
  assert (c mod 64 = b3 - 128) as E4.
  { symmetry. apply (Z.mod_unique _ _ (((b0 - 240) * 64 + (b1 - 128)) * 64 + (b2 - 128)));
      subst c; lia. }
  rewrite E1, E2, E3, E4, (Z.add_comm (_ * 64) (b2 - 128)), (Z.add_comm (_ * 64) (b1 - 128)),
    !Z.mod_add, !Z.mod_small by lia.
  repeat match goal with |- context [?a <? ?b] => destruct (Z.ltb_spec a b); try (subst c; lia) end.
  repeat f_equal; lia.
Qed.

Ltac no_surrogate :=
  unfold is_high, is_low;
  repeat match goal with |- context [?a <=? ?b] => destruct (Z.leb_spec a b) end;
  cbn [andb]; (reflexivity || lia).

(** Well-formed text is read back from its words. *)
Lemma words_valid n : forall bs, (length bs <= n)%nat -> utf8_valid bs = true ->
  words_bytes (utf16_words bs) = bs.
Proof.
  induction n as [|n IH]; intros bs Hn Hv; [by destruct bs; simpl in Hn; [|lia]|].
  destruct bs as [|b0 r0]; [done|]. cbn [utf8_valid] in Hv. simpl in Hn. unfold is_cont in Hv.
  cbn [utf16_words].
  repeat (case_match; try done); reflect_bools; subst; try lia;
    (rewrite words_of_char; [| lia | no_surrogate | no_surrogate]);
    (rewrite IH; [| simpl in *; lia | assumption]).
  all: first [rewrite char_bytes_2 by lia | rewrite char_bytes_3 by lia
             | rewrite char_bytes_4 by lia | idtac]; try reflexivity.
  unfold char_bytes. destruct (Z.ltb_spec b0 0x80); [done|lia].
Qed.

Lemma from_utf16_encode s : utf8_valid (str_bytes s) = true ->
  from_utf16_lossy (encode_utf16 s) = s.
Proof.
  intros Hv. unfold from_utf16_lossy, encode_utf16.
  rewrite (words_valid _ _ (Nat.le_refl _) Hv). apply bytes_str_bytes.
Qed.

Lemma words_nonzero n : forall bs, (length bs <= n)%nat -> utf8_valid bs = true ->
  Forall (fun b => b <> 0) bs -> Forall (fun w => w <> 0) (utf16_words bs).
Proof.
  induction n as [|n IH]; intros bs Hn Hv Hz; [by destruct bs; simpl in Hn; [constructor|lia]|].
  destruct bs as [|b0 r0]; [constructor|]. cbn [utf8_valid] in Hv. simpl in Hn. unfold is_cont in Hv.
  cbn [utf16_words].
  repeat (case_match; try done); reflect_bools; subst; try lia;
    repeat match goal with H : Forall _ (_ :: _) |- _ => inversion_clear H end;
    (apply Forall_app; split;
     [apply char_words_nonzero; lia | apply IH; [simpl in *; lia|assumption|assumption]]).
Qed.
