(* ===== verification/WindowsClipboard.v ===== *)
(** * The clipboard of the Windows application

    The clipboard functions of crates/edge-windows-input/src/lib.rs over Win32 and the arboard
    crate, which are the parameter [WindowsClipboardApi]; and [LiveClipboardState] of
    apps/edge-controller-win/src/main.rs: what a session offers its peer and applies, the
    background read, and the barrier that holds a paste until what it pastes has been sent. *)
From S2P Require Export Utf16 Config Transport.
#[local] Open Scope string_scope.
#[local] Open Scope Z_scope.

(** ** The clipboard functions *)

(** [edge-windows-input 16-34 WindowsInputError], the variant these functions return. *)
Inductive WindowsInputError := Clipboard_error (message : string).

(** What arboard answers for an image. *)
Inductive ArboardError := ContentNotAvailable | Arboard_other (message : string).

(** The answers of DragQueryFileW: how many files were copied, the length of the first path, the
    words written for it with their number, and the last error. *)
Record DropHandle := {
  drop_count : Z; drop_path_len : Z; drop_path : list Z; drop_copied : Z; drop_error : Z;
}.

(** A copied file: its size on disk and its contents, each or the error of reading it. *)
Record CopiedFile := { file_size : result Z string; file_contents : result bytes string }.

(** Win32 and arboard on the state [W] of the window station.  [Z] arguments number the attempts
    of a retry loop, since another process may hold the clipboard for a moment. *)
Class WindowsClipboardApi (W : Type) := {
  OpenClipboard : Z -> W -> result unit Z;
  (** GetClipboardData with CF_UNICODETEXT, then GlobalLock: the words of the block. *)
  GetClipboardData_text : W -> option (result (list Z) Z);
  GetClipboardData_drop : W -> option DropHandle;
  EmptyClipboard : W -> W * result unit Z;
  (** GlobalAlloc, GlobalLock and SetClipboardData; the first that failed, with its error. *)
  SetClipboardData_text : list Z -> W -> W * result unit (string * Z);
  GetClipboardSequenceNumber : W -> Z;
  arboard_new : Z -> W -> result unit string;
  arboard_get_image : Z -> W -> result (Z * Z * bytes) ArboardError;
  arboard_set_image : Z -> CanonicalImage -> W -> W * result unit string;
  open_file : list Z -> W -> result CopiedFile string;
}.

(** The block that was set is there when the clipboard is read, perhaps with more words after it:
    GlobalAlloc rounds the size of a block up. *)
Class WindowsClipboardLaws (W : Type) `{WindowsClipboardApi W} := {
  set_text_get : forall words w w', SetClipboardData_text words w = (w', Ok tt) ->
    exists padding, GetClipboardData_text w' = Some (Ok (words ++ padding)%list);
}.

Section Commands.
Context {W : Type} `{WindowsClipboardApi W} `{Lib : ClipboardLibraries}.

(** [0..8] *)
Definition ATTEMPTS : list Z := [0; 1; 2; 3; 4; 5; 6; 7].

Definition win32_error (operation : string) (error : Z) : WindowsInputError :=
  Clipboard_error (operation ++ " failed with Win32 error " ++ print_dec error).

(** [edge-windows-input 667-680 OpenClipboardGuard::open] *)
Fixpoint open_clipboard (attempts : list Z) (error : Z) (w : W) : result unit WindowsInputError :=
  match attempts with
  | [] => Err (win32_error "OpenClipboard" error)
  | attempt :: attempts =>
      match OpenClipboard attempt w with
      | Ok _ => Ok tt
      | Err error => open_clipboard attempts error w
      end
  end.

Definition too_large (max_bytes : Z) : WindowsInputError :=
  Clipboard_error ("clipboard text exceeds configured max_bytes (" ++ print_dec max_bytes ++ ")").

(** [edge-windows-input 594-620 read_text] *)
Definition read_text (max_bytes : Z) (w : W) : result (option string) WindowsInputError :=
  let? _ := open_clipboard ATTEMPTS 0 w in
  match GetClipboardData_text w with
  | None => Ok None
  | Some (Err error) => Err (win32_error "GlobalLock" error)
  | Some (Ok words) =>
      let text := from_utf16_lossy (until_zero words) in
      ensure! negb (max_bytes <? str_len text) else too_large max_bytes;;
      Ok (Some text)
  end.

(** [edge-windows-input 622-662 write_text] *)
Definition write_text (text : string) (max_bytes : Z) (w : W) :
  W * result unit WindowsInputError :=
  if max_bytes <? str_len text then (w, Err (too_large max_bytes))
  else match open_clipboard ATTEMPTS 0 w with
  | Err e => (w, Err e)
  | Ok _ =>
      match EmptyClipboard w with
      | (w, Err error) => (w, Err (win32_error "EmptyClipboard" error))
      | (w, Ok _) =>
          let wide := (encode_utf16 text ++ [0])%list in
          match SetClipboardData_text wide w with
          | (w, Err (operation, error)) => (w, Err (win32_error operation error))
          | (w, Ok _) => (w, Ok tt)
          end
      end
  end.

(** [edge-windows-input 564-568 FileDrop] *)
Inductive FileDrop := Drop_None | Drop_Single (path : list Z) | Drop_Unsupported.

(** [edge-windows-input 570-592 read_file_drop] *)
Definition read_file_drop (w : W) : result FileDrop WindowsInputError :=
  let? _ := open_clipboard ATTEMPTS 0 w in
  match GetClipboardData_drop w with
  | None => Ok Drop_None
  | Some handle =>
      if negb (drop_count handle =? 1) then Ok Drop_Unsupported
      else if drop_path_len handle =? 0 then Ok Drop_Unsupported
      else if negb (drop_copied handle =? drop_path_len handle)
      then Err (win32_error "DragQueryFileW" (drop_error handle))
      else Ok (Drop_Single (take (Z.to_nat (drop_copied handle)) (drop_path handle)))
  end.

(** [Path::file_name] of the path of a file: what follows its last separator. *)
Fixpoint file_name (name path : list Z) : list Z :=
  match path with
  | [] => name
  | w :: r => if (w =? 92) || (w =? 47) then file_name r r else file_name name r
  end.
(** What follows the last dot. *)
Fixpoint after_last_dot (name : list Z) : option (list Z) :=
  match name with
  | [] => None
  | w :: r => match after_last_dot r with
              | Some extension => Some extension
              | None => if w =? 46 then Some r else None
              end
  end.
(** [Path::extension]: a dot that begins the name starts none. *)
Definition path_extension (path : list Z) : option (list Z) :=
  match file_name path path with [] => None | _ :: r => after_last_dot r end.
(** [str::eq_ignore_ascii_case], with a lower-case ASCII string; words that are no string are
    equal to none. *)
Definition eq_ignore_ascii_case (words : list Z) (s : string) : bool :=
  bool_decide (map to_ascii_lowercase words = str_bytes s).

(** [edge-windows-input 480-492 copied_image_mime] *)
Definition copied_image_mime (path : list Z) : option string :=
  match path_extension path with
  | None => None
  | Some extension =>
      if eq_ignore_ascii_case extension "png" then Some "image/png"
      else if eq_ignore_ascii_case extension "jpg" || eq_ignore_ascii_case extension "jpeg"
      then Some "image/jpeg"
      else if eq_ignore_ascii_case extension "bmp" then Some "image/bmp"
      else None
  end.

Definition file_error {A} (doing : string) (r : result A string) : result A WindowsInputError :=
  map_err (fun error => Clipboard_error ("failed to " ++ doing ++ " copied image file: " ++ error)) r.

(** [edge-windows-input 429-478 canonicalize_copied_image_file] *)
Definition canonicalize_copied_image_file (path : list Z) (max_image_bytes : Z) (w : W) :
  result (option CanonicalImage) WindowsInputError :=
  match copied_image_mime path with
  | None => Ok None
  | Some mime =>
      let? file := file_error "open" (open_file path w) in
      let? source_bytes := file_error "inspect" (file_size file) in
      if max_image_bytes <? source_bytes then Ok None
      else
        let read_limit := saturating_add usize_max max_image_bytes 1 in
        let? contents := file_error "read" (file_contents file) in
        let encoded := take (Z.to_nat read_limit) contents in
        if max_image_bytes <? len encoded then Ok None
        else match CanonicalImage_from_encoded encoded mime max_image_bytes with
             | Ok image => Ok (Some image)
             | Err _ => Ok None
             end
  end.

(** The loop over the attempts to read an image: [None] when there is none.
    [edge-windows-input 383-412 read_clipboard_item_blocking] *)
Fixpoint read_image (max_bytes : Z) (attempts : list Z) (last_error : option string) (w : W) :
  result (option CanonicalImage) WindowsInputError :=
  match attempts with
  | [] => match last_error with Some error => Err (Clipboard_error error) | None => Ok None end
  | attempt :: attempts =>
      let? _ := map_err Clipboard_error (arboard_new attempt w) in
      match arboard_get_image attempt w with
      | Ok (width, height, pixels) =>
          match CanonicalImage_from_rgba (truncate_to u32_max width) (truncate_to u32_max height)
                  pixels max_bytes with
          | Ok canonical => Ok (Some canonical)
          | Err _ => Err (Clipboard_error "image error")
          end
      | Err ContentNotAvailable => Ok None
      | Err (Arboard_other error) => read_image max_bytes attempts (Some error) w
      end
  end.

(** [edge-windows-input 335-338 read_clipboard_text] *)
Definition read_clipboard_text : Z -> W -> result (option string) WindowsInputError := read_text.
(** [edge-windows-input 345-348 write_clipboard_text] *)
Definition write_clipboard_text : string -> Z -> W -> W * result unit WindowsInputError :=
  write_text.

(** [edge-windows-input 378-427 read_clipboard_item_blocking] *)
Definition read_clipboard_item (config : ClipboardConfig) (w : W) :
  result (option ClipboardItem) WindowsInputError :=
  if negb (clip_enabled config) then Ok None else
  let text := let? t := read_clipboard_text (clip_max_bytes config) w in Ok (Item_Text <$> t) in
  if negb (images_enabled config) then text else
  let? image := read_image (clip_max_image_bytes config) ATTEMPTS None w in
  match image with
  | Some image => Ok (Some (Item_Image image))
  | None =>
      let? drop := read_file_drop w in
      match drop with
      | Drop_None => text
      | Drop_Unsupported => Ok None
      | Drop_Single path =>
          let? image := canonicalize_copied_image_file path (clip_max_image_bytes config) w in
          Ok (Item_Image <$> image)
      end
  end.

(** [edge-windows-input 507-533 write_clipboard_image_blocking] *)
Fixpoint write_image (image : CanonicalImage) (attempts : list Z) (last_error : option string)
    (w : W) : W * result unit WindowsInputError :=
  match attempts with
  | [] => (w, Err (Clipboard_error (default "unknown image clipboard failure" last_error)))
  | attempt :: attempts =>
      match arboard_new attempt w with
      | Err error => (w, Err (Clipboard_error error))
      | Ok _ =>
          match arboard_set_image attempt image w with
          | (w, Ok _) => (w, Ok tt)
          | (w, Err error) => write_image image attempts (Some error) w
          end
      end
  end.
(** [edge-windows-input 499-505 write_clipboard_image] *)
Definition write_clipboard_image (image : CanonicalImage) (w : W) :
  W * result unit WindowsInputError := write_image image ATTEMPTS None w.
End Commands.

(** ** The state of a session's clipboard *)

(** [win/main 2746-2751 PendingClipboardRead]; the task is what it will answer. *)
Record PendingClipboardRead := { read_sequence : Z; read_generation : Z }.

(** [win/main 2769-2799 LiveClipboardState] *)
Record LiveClipboardState := {
  live_ctrl_down : bool;
  live_tracker : ClipboardChangeTracker;
  last_clipboard_sequence : Z;
  live_outgoing : option OutgoingClipboardTransfer;
  live_incoming : IncomingClipboardTransfer;
  live_next_transfer_id : Z;
  live_peer : ClipboardPeerFeatures;
  live_apply_generation : Z;
  pending_read : option PendingClipboardRead;
  outgoing_image_id : option ClipboardContentId;
  last_sent_image_id : option ClipboardContentId;
  held_input : list Frame;
  paste_barrier_deadline : option Instant;
}.

Definition set_live_ctrl_down : bool -> LiveClipboardState -> LiveClipboardState :=
  ltac:(field_setter live_ctrl_down).
Definition set_live_tracker : ClipboardChangeTracker -> LiveClipboardState -> LiveClipboardState :=
  ltac:(field_setter live_tracker).
Definition set_last_clipboard_sequence : Z -> LiveClipboardState -> LiveClipboardState :=
  ltac:(field_setter last_clipboard_sequence).
Definition set_live_outgoing : option OutgoingClipboardTransfer -> LiveClipboardState -> LiveClipboardState :=
  ltac:(field_setter live_outgoing).
Definition set_live_incoming : IncomingClipboardTransfer -> LiveClipboardState -> LiveClipboardState :=
  ltac:(field_setter live_incoming).
Definition set_live_next_transfer_id : Z -> LiveClipboardState -> LiveClipboardState :=
  ltac:(field_setter live_next_transfer_id).
Definition set_live_apply_generation : Z -> LiveClipboardState -> LiveClipboardState :=
  ltac:(field_setter live_apply_generation).
Definition set_pending_read : option PendingClipboardRead -> LiveClipboardState -> LiveClipboardState :=
  ltac:(field_setter pending_read).
Definition set_outgoing_image_id : option ClipboardContentId -> LiveClipboardState -> LiveClipboardState :=
  ltac:(field_setter outgoing_image_id).
Definition set_last_sent_image_id : option ClipboardContentId -> LiveClipboardState -> LiveClipboardState :=
  ltac:(field_setter last_sent_image_id).
Definition set_held_input : list Frame -> LiveClipboardState -> LiveClipboardState :=
  ltac:(field_setter held_input).
Definition set_paste_barrier_deadline : option Instant -> LiveClipboardState -> LiveClipboardState :=
  ltac:(field_setter paste_barrier_deadline).


(** [win/main 2634-2643 ControllerInputStats] *)
Record ControllerInputStats := {
  stat_frames : Z; stat_motion : Z; stat_buttons : Z; stat_wheel : Z; stat_keys : Z;
  stat_clipboard : Z; stat_control : Z;
}.
Definition ControllerInputStats_default : ControllerInputStats :=
  {| stat_frames := 0; stat_motion := 0; stat_buttons := 0; stat_wheel := 0; stat_keys := 0;
     stat_clipboard := 0; stat_control := 0 |}.
(** What a frame counts as. *)
Inductive FrameKind := Kind_motion | Kind_button | Kind_wheel | Kind_key | Kind_clipboard
                     | Kind_control | Kind_other.
#[export] Instance FrameKind_eq_dec : EqDecision FrameKind.
Proof. solve_decision. Defined.
(** [win/main 2648-2680 ControllerInputStats::record_frame] *)
Definition frame_kind (frame : Frame) : FrameKind :=
  match Frame_input_event frame with
  | Some (PointerMotion _ _) => Kind_motion
  | Some (PointerButton _ _) => Kind_button
  | Some (PointerWheel _ _) => Kind_wheel
  | Some (Key _ _) | Some AllKeysUp => Kind_key
  | None => match frame with
            | Frame_Clipboard _ => Kind_clipboard
            | Frame_Control _ => Kind_control
            | _ => Kind_other
            end
  end.
Definition counted (kind counter : FrameKind) (n : Z) : Z :=
  if decide (kind = counter) then saturating_add u64_max n 1 else n.
(** [win/main 2646-2680 ControllerInputStats::record_frame] *)
Definition stats_record_frame (frame : Frame) (s : ControllerInputStats) : ControllerInputStats :=
  let kind := frame_kind frame in
  {| stat_frames := saturating_add u64_max (stat_frames s) 1;
     stat_motion := counted kind Kind_motion (stat_motion s);
     stat_buttons := counted kind Kind_button (stat_buttons s);
     stat_wheel := counted kind Kind_wheel (stat_wheel s);
     stat_keys := counted kind Kind_key (stat_keys s);
     stat_clipboard := counted kind Kind_clipboard (stat_clipboard s);
     stat_control := counted kind Kind_control (stat_control s) |}.
(** The frames the tray counts as a clipboard event.
    [win/main 2664-2673 ControllerInputStats::record_frame] *)
Definition is_offer_frame (frame : Frame) : bool :=
  match frame with
  | Frame_Clipboard (TextOffer _ _) | Frame_Clipboard (ImageStart _ _ _ _ _ _) => true
  | _ => false
  end.

(** What the handlers of a session reach: the clipboard's state and Windows', the frames written
    to the peer and the schedule of its writer, the frames to be sent after a delay, and the
    counters of the log and of the tray. *)
Record Live (W : Type) := {
  live : LiveClipboardState;
  station : W;
  written : list Frame;
  schedule : ImageTransferSchedule;
  connected : bool;
  delayed : list (Instant * Frame);
  stats : ControllerInputStats;
  tray_clipboard_events : Z;
}.
Arguments live {W} _.
Arguments station {W} _.
Arguments written {W} _.
Arguments schedule {W} _.
Arguments connected {W} _.
Arguments delayed {W} _.
Arguments stats {W} _.
Arguments tray_clipboard_events {W} _.

(** The errors of a handler. *)
Inductive LiveError :=
| Live_Clipboard (e : WindowsInputError) | Live_Write (e : RuntimeError) | Live_Closed.

Section Updates.
Context {W : Type}.
Definition with_live (st : LiveClipboardState) (s : Live W) : Live W :=
  {| live := st; station := station s; written := written s; schedule := schedule s;
     connected := connected s; delayed := delayed s; stats := stats s;
     tray_clipboard_events := tray_clipboard_events s |}.
Definition with_station (w : W) (s : Live W) : Live W :=
  {| live := live s; station := w; written := written s; schedule := schedule s;
     connected := connected s; delayed := delayed s; stats := stats s;
     tray_clipboard_events := tray_clipboard_events s |}.
Definition with_written (f : Frame) (s : Live W) : Live W :=
  {| live := live s; station := station s; written := (written s ++ [f])%list;
     schedule := record_sent_frame (schedule s) f;
     connected := connected s; delayed := delayed s; stats := stats s;
     tray_clipboard_events := tray_clipboard_events s |}.
Definition with_delayed (l : list (Instant * Frame)) (s : Live W) : Live W :=
  {| live := live s; station := station s; written := written s; schedule := schedule s;
     connected := connected s; delayed := l; stats := stats s;
     tray_clipboard_events := tray_clipboard_events s |}.
Definition with_stats (st : ControllerInputStats) (events : Z) (s : Live W) : Live W :=
  {| live := live s; station := station s; written := written s; schedule := schedule s;
     connected := connected s; delayed := delayed s; stats := st; tray_clipboard_events := events |}.
Definition modify (f : LiveClipboardState -> LiveClipboardState) :
  stateful (Live W) LiveError unit := fun s => (with_live (f (live s)) s, Ok tt).
Definition gets {A} (f : Live W -> A) : stateful (Live W) LiveError A := fun s => (s, Ok (f s)).
End Updates.

(** ** The handlers *)

(** [win/main 70-70 CLIPBOARD_PASTE_BARRIER_TIMEOUT] *)
Definition CLIPBOARD_PASTE_BARRIER_TIMEOUT : Duration := from_secs 5.
(** Key codes of evdev: both control keys, C and V. *)
Definition KEY_LEFTCTRL : Z := 29.
Definition KEY_RIGHTCTRL : Z := 97.
Definition KEY_C : Z := 46.
Definition KEY_V : Z := 47.

Section Handlers.
Context {W : Type} `{WindowsClipboardApi W} `{Lib : ClipboardLibraries} `{FrameCodec}.
Context (config : AppConfig) (now : Instant).

Abbreviation living := (stateful (Live W) LiveError).

(** [win/main 3637-3640 write_secure_frame_writer]: the packet of a frame is [Transport]'s. *)
Definition write_secure_frame_writer (frame : Frame) : living unit := fun s =>
  match encode_secure_frame frame with
  | Err e => (s, Err (Live_Write e))
  | Ok _ => if connected s then (with_written frame s, Ok tt) else (s, Err Live_Closed)
  end.
Fixpoint write_all (frames : list Frame) : living unit :=
  match frames with
  | [] => st_ret tt
  | frame :: frames => do! write_secure_frame_writer frame;; write_all frames
  end.

(** [win/main 2646-2680 ControllerInputStats::record_frame], and its call of
    [record_tray_clipboard_event]. *)
Definition record_frame (frame : Frame) : living unit := fun s =>
  (with_stats (stats_record_frame frame (stats s))
     (if is_offer_frame frame then wrapping_add u64_max (tray_clipboard_events s) 1
      else tray_clipboard_events s) s, Ok tt).

Definition clip_result {A} (r : result A WindowsInputError) : result A LiveError :=
  map_err Live_Clipboard r.
Definition read_item : living (option ClipboardItem) := fun s =>
  (s, clip_result (read_clipboard_item (cfg_clipboard config) (station s))).
Definition write_to_clipboard (write : W -> W * result unit WindowsInputError) : living unit :=
  fun s => let r := write (station s) in (with_station r.1 s, clip_result r.2).

(** [win/main 2802-2838 LiveClipboardState::new] *)
Definition LiveClipboardState_new (peer : ClipboardPeerFeatures) (w : W) : LiveClipboardState :=
  let last_observed :=
    if clip_enabled (cfg_clipboard config) then
      match read_clipboard_item (cfg_clipboard config) w with
      | Ok item => item_id <$> item
      | Err _ => None
      end
    else None in
  {| live_ctrl_down := false; live_tracker := ClipboardChangeTracker_new last_observed;
     last_clipboard_sequence := GetClipboardSequenceNumber w; live_outgoing := None;
     live_incoming := None; live_next_transfer_id := 0; live_peer := peer;
     live_apply_generation := 0; pending_read := None; outgoing_image_id := None;
     last_sent_image_id := None; held_input := []; paste_barrier_deadline := None |}.

(** [self.next_transfer_id.wrapping_add(1).max(1)] *)
Definition next_transfer_id : living Z :=
  do! modify (fun st => set_live_next_transfer_id
                          (Z.max (wrapping_add u64_max (live_next_transfer_id st) 1) 1) st);;
  gets (fun s => live_next_transfer_id (live s)).

(** [self.outgoing.take()], and the frame that tells the peer.
    [win/main 3290-3294 LiveClipboardState::push_text_offer] *)
Definition replace_outgoing : living (list Frame) :=
  active <-! gets (fun s => live_outgoing (live s));;
  match active with
  | Some transfer =>
      do! modify (set_live_outgoing None);;
      st_ret [Frame_Clipboard (cancel_event transfer Replaced)]
  | None => st_ret []
  end.

(** [win/main 3279-3322 LiveClipboardState::push_text_offer]: the frames it pushes. *)
Definition push_text_offer (sequence : Z) (text : string)
    (content_id : option ClipboardContentId) : living (list Frame) :=
  frames <-! replace_outgoing;;
  do! modify (set_outgoing_image_id None);;
  let frame := Frame_Clipboard (TextOffer sequence text) in
  if fits_secure_frame frame then st_ret (frames ++ [frame])%list
  else
    peer <-! gets (fun s => live_peer (live s));;
    if negb (text_chunks peer) then st_ret frames
    else
      id <-! next_transfer_id;;
      do! modify (set_live_outgoing (Some (outgoing_text id sequence text)));;
      do! modify (set_outgoing_image_id content_id);;
      st_ret frames.

(** [win/main 3237-3277 LiveClipboardState::offer_item] *)
Definition offer_item (current : option ClipboardItem) (force : bool) : living (list Frame) :=
  let current_id := item_id <$> current in
  offered <-! gets (fun s => (if force then offer_current else offer_if_changed)
                               (live_tracker (live s)) current_id);;
  do! modify (set_live_tracker offered.1);;
  match offered.2 with
  | None => st_ret []
  | Some sequence =>
      match current with
      | Some (Item_Text text) => push_text_offer sequence text current_id
      | Some (Item_Image image) =>
          peer <-! gets (fun s => live_peer (live s));;
          if images peer && images_enabled (cfg_clipboard config) then
            frames <-! replace_outgoing;;
            id <-! next_transfer_id;;
            do! modify (set_live_outgoing (Some (outgoing_image id sequence image)));;
            do! modify (set_outgoing_image_id current_id);;
            st_ret frames
          else st_ret []
      | None => st_ret []
      end
  end.

(** [win/main 3110-3121 LiveClipboardState::local_clipboard_offer] *)
Definition local_clipboard_offer (force : bool) : living (list Frame) :=
  current <-! read_item;; offer_item current force.

Definition is_motion_frame (frame : Frame) : bool :=
  match Frame_input_event frame with Some (PointerMotion _ _) => true | _ => false end.
Definition is_paste (frame : Frame) : bool :=
  match Frame_input_event frame with Some (Key code true) => code =? KEY_V | _ => false end.

(** Holds a frame until the barrier is lifted. *)
Definition hold_frame (frame : Frame) : living unit :=
  modify (fun st => set_held_input (held_input st ++ [frame])%list st).
(** [win/main 2885-2888 LiveClipboardState::prepare_input] *)
Definition raise_barrier (frame : Frame) : living unit :=
  do! hold_frame frame;;
  modify (set_paste_barrier_deadline (Some (now + CLIPBOARD_PASTE_BARRIER_TIMEOUT))).

(** A paste: what it pastes is sent before it.
    [win/main 2858-2908 LiveClipboardState::prepare_input] *)
Definition prepare_paste (frame : Frame) : living (list Frame) :=
  read <-! attempt read_item;;
  match (read : result _ LiveError) with
  | Err _ => st_ret [frame]
  | Ok current =>
      peer <-! gets (fun s => live_peer (live s));;
      match current with
      | Some (Item_Image image) =>
          if images peer && images_enabled (cfg_clipboard config) then
            let image_id := Id_Image (image_sha256 image) in
            last_sent <-! gets (fun s => last_sent_image_id (live s));;
            if bool_decide (last_sent = Some image_id) then st_ret [frame]
            else
              sending <-! gets (fun s => outgoing_image_id (live s));;
              prefixes <-! (if bool_decide (sending = Some image_id) then st_ret []
                            else offer_item current true);;
              do! raise_barrier frame;;
              st_ret prefixes
          else
            frames <-! offer_item current true;;
            outgoing <-! gets (fun s => live_outgoing (live s));;
            if is_some_and outgoing_is_text outgoing
            then do! raise_barrier frame;; st_ret frames
            else st_ret (frames ++ [frame])%list
      | _ =>
          frames <-! offer_item current true;;
          outgoing <-! gets (fun s => live_outgoing (live s));;
          if is_some_and outgoing_is_text outgoing
          then do! raise_barrier frame;; st_ret frames
          else st_ret (frames ++ [frame])%list
      end
  end.

(** [win/main 2840-2916 LiveClipboardState::prepare_input] *)
Definition prepare_input (frame : Frame) : living (list Frame) :=
  st <-! gets live;;
  if bool_decide (is_Some (paste_barrier_deadline st)) then
    if is_motion_frame frame then st_ret [frame]
    else do! hold_frame frame;; st_ret []
  else if negb (clip_enabled (cfg_clipboard config)) then st_ret [frame]
  else if is_paste frame && live_ctrl_down st then prepare_paste frame
  else st_ret [frame].

(** [win/main 2918-2953 LiveClipboardState::after_input_sent] *)
Definition after_input_sent (frame : Frame) : living unit := fun s =>
  match Frame_input_event frame with
  | Some (Key code down) =>
      if (code =? KEY_LEFTCTRL) || (code =? KEY_RIGHTCTRL)
      then (with_live (set_live_ctrl_down down (live s)) s, Ok tt)
      else if (code =? KEY_C) && down && live_ctrl_down (live s)
              && clip_enabled (cfg_clipboard config)
      then
        let request :=
          if images (live_peer (live s)) && images_enabled (cfg_clipboard config)
          then ContentRequest else TextRequest in
        (with_delayed (delayed s ++ [(now + from_millis 200, Frame_Clipboard request)])%list s, Ok tt)
      else (s, Ok tt)
  | Some AllKeysUp => (with_live (set_live_ctrl_down false (live s)) s, Ok tt)
  | _ => (s, Ok tt)
  end.

(** Writes frames that [prepare_input] let pass, or that were held; [counted] is whether the
    frames are counted.  [win/main 1828-1832 run_connected_inner] *)
Fixpoint send_input (counted : bool) (frames : list Frame) : living unit :=
  match frames with
  | [] => st_ret tt
  | frame :: frames =>
      do! write_secure_frame_writer frame;;
      do! (if counted then record_frame frame else st_ret tt);;
      do! after_input_sent frame;;
      send_input counted frames
  end.

(** [win/main 3362-3366 LiveClipboardState::take_held_input] *)
Definition take_held_input : living (list Frame) :=
  do! modify (set_paste_barrier_deadline None);;
  held <-! gets (fun s => held_input (live s));;
  do! modify (set_held_input []);;
  st_ret held.
Definition release_held (counted : bool) : living unit :=
  held <-! take_held_input;; send_input counted held.

(** [win/main 3210-3235 LiveClipboardState::prefer_newer_local_clipboard] *)
Definition prefer_newer_local_clipboard (remote_id : ClipboardContentId) : living bool :=
  current <-! read_item;;
  let current_id := item_id <$> current in
  if bool_decide (current_id = Some remote_id) then
    do! modify (fun st => set_live_tracker (mark_observed (live_tracker st) current_id) st);;
    st_ret true
  else
    seen <-! gets (fun s => is_observed (live_tracker (live s)) current_id);;
    if bool_decide (is_Some current_id) && negb seen then
      frames <-! offer_item current true;;
      do! write_all frames;;
      st_ret true
    else st_ret false.

(** What follows the write of a peer's item.
    [win/main 3340-3342 LiveClipboardState::apply_remote_text] *)
Definition record_applied (remote_id : ClipboardContentId) : living unit := fun s =>
  let st := live s in
  let st := set_live_apply_generation (wrapping_add u64_max (live_apply_generation st) 1) st in
  let st := set_live_tracker (mark_observed (live_tracker st) (Some remote_id)) st in
  (with_live (set_last_clipboard_sequence (GetClipboardSequenceNumber (station s)) st) s, Ok tt).

(** Applies a peer's item unless the local content is newer.
    [win/main 3050-3067 LiveClipboardState::handle_remote_event] *)
Definition apply_remote (remote_id : ClipboardContentId)
    (write : W -> W * result unit WindowsInputError) : living unit :=
  kept <-! prefer_newer_local_clipboard remote_id;;
  if (kept : bool) then st_ret tt
  else do! write_to_clipboard write;; record_applied remote_id.

(** [win/main 3324-3345 LiveClipboardState::apply_remote_text] *)
Definition apply_remote_text (text : string) : living unit :=
  apply_remote (item_id (Item_Text text))
    (write_clipboard_text text (clip_max_bytes (cfg_clipboard config))).

Definition cancel_reason (error : ClipboardError) : ClipboardCancelReason :=
  match error with
  | EncodedTooLarge _ _ | TooManyPixels _ | InvalidDimensions => Cancel_Rejected
  | _ => Cancel_Invalid
  end.
Definition is_cancel_event (event : ClipboardEvent) : bool :=
  match event with ImageCancel _ _ => true | _ => false end.
Definition cancel_frame (id : option Z) (reason : ClipboardCancelReason) : living unit :=
  match id with
  | Some transfer_id => write_secure_frame_writer (Frame_Clipboard (ImageCancel transfer_id reason))
  | None => st_ret tt
  end.

(** [self.incoming.handle(event, limits)] *)
Definition receive_incoming (event : ClipboardEvent) :
  living (result (option ClipboardItem) ClipboardError) := fun s =>
  let limits := {| max_image_bytes := clip_max_image_bytes (cfg_clipboard config);
                   max_text_bytes := clip_max_bytes (cfg_clipboard config) |} in
  let r := incoming_handle now event limits (live_incoming (live s)) in
  (with_live (set_live_incoming r.1 (live s)) s, Ok r.2).

(** The frames of transfers.
    [win/main 2998-3098 LiveClipboardState::handle_remote_event] *)
Definition handle_transfer (event : ClipboardEvent) : living unit :=
  let id := transfer_id event in
  let is_cancel := is_cancel_event event in
  active <-! gets (fun s => live_outgoing (live s));;
  if is_cancel && is_some_and (fun a => bool_decide (Some (out_transfer_id a) = id)) active
  then do! modify (set_live_outgoing None);; release_held false
  else
    peer <-! gets (fun s => live_peer (live s));;
    let supported :=
      if is_cancel then true
      else if is_text_transfer event then text_chunks peer
      else images peer && images_enabled (cfg_clipboard config) in
    if negb supported then cancel_frame id Cancel_Rejected
    else
      received <-! receive_incoming event;;
      match received with
      | Ok (Some (Item_Text text)) => apply_remote_text text
      | Ok (Some (Item_Image image)) =>
          apply_remote (Id_Image (image_sha256 image)) (write_clipboard_image image)
      | Ok None => st_ret tt
      | Err error =>
          do! modify (set_live_incoming None);;
          if is_cancel then st_ret tt else cancel_frame id (cancel_reason error)
      end.

(** [win/main 2955-3109 LiveClipboardState::handle_remote_event] *)
Definition handle_remote_event (event : ClipboardEvent) : living unit :=
  if negb (clip_enabled (cfg_clipboard config)) then st_ret tt
  else match event with
  | TextOffer _ text => apply_remote_text text
  | TextRequest =>
      text <-! (fun s => (s, clip_result (read_clipboard_text
                                            (clip_max_bytes (cfg_clipboard config)) (station s))));;
      match text with
      | None => st_ret tt
      | Some text =>
          let id := item_id (Item_Text text) in
          offered <-! gets (fun s => offer_current (live_tracker (live s)) (Some id));;
          do! modify (set_live_tracker offered.1);;
          match offered.2 with
          | None => st_ret tt
          | Some sequence =>
              frames <-! push_text_offer sequence text (Some id);; write_all frames
          end
      end
  | ContentRequest => frames <-! local_clipboard_offer true;; write_all frames
  | _ => handle_transfer event
  end.

(** [win/main 3123-3149 LiveClipboardState::poll_local_change] *)
Definition poll_local_change : living unit := fun s =>
  let st := live s in
  if negb (clip_enabled (cfg_clipboard config)) || bool_decide (is_Some (pending_read st))
  then (s, Ok tt)
  else
    let sequence := GetClipboardSequenceNumber (station s) in
    if negb (sequence =? 0) && (sequence =? last_clipboard_sequence st) then (s, Ok tt)
    else (with_live (set_pending_read (Some {| read_sequence := sequence;
                                               read_generation := live_apply_generation st |}) st) s,
          Ok tt).

(** [win/main 3182-3198 LiveClipboardState::complete_local_read] *)
Definition complete_local_read (finished : PendingClipboardRead)
    (read : result (option ClipboardItem) WindowsInputError) : living (list Frame) :=
  generation <-! gets (fun s => live_apply_generation (live s));;
  if negb (read_generation finished =? generation) then st_ret []
  else
    current <-! st_lift (clip_result read);;
    frames <-! offer_item current false;;
    do! modify (set_last_clipboard_sequence (read_sequence finished));;
    st_ret frames.

(** [win/main 3347-3360 LiveClipboardState::next_image_frame] *)
Definition next_image_frame : living (option (Frame * bool)) :=
  active <-! gets (fun s => live_outgoing (live s));;
  match active with
  | None => st_ret None
  | Some transfer =>
      let next := next_event transfer in
      do! modify (set_live_outgoing (Some next.1));;
      match next.2 with
      | None => st_ret None
      | Some event =>
          let completed := match event with ImageEnd _ | TextEnd _ => true | _ => false end in
          do! (if completed
               then modify (fun st => set_outgoing_image_id None
                                        (set_last_sent_image_id (outgoing_image_id st)
                                           (set_live_outgoing None st)))
               else st_ret tt);;
          st_ret (Some (Frame_Clipboard event, completed))
      end
  end.

(** [win/main 3368-3375 LiveClipboardState::cancel_expired_paste_barrier] *)
Definition cancel_expired_paste_barrier : living (option Frame) :=
  do! modify (set_paste_barrier_deadline None);;
  do! modify (set_outgoing_image_id None);;
  active <-! gets (fun s => live_outgoing (live s));;
  do! modify (set_live_outgoing None);;
  st_ret ((fun a => Frame_Clipboard (cancel_event a TimedOut)) <$> active).

(** [win/main 3377-3381 LiveClipboardState::paste_barrier_expired] *)
Definition paste_barrier_expired (st : LiveClipboardState) : bool :=
  is_some_and (fun deadline => deadline <=? now) (paste_barrier_deadline st).
(** [win/main 3383-3388 LiveClipboardState::needs_send_tick] *)
Definition needs_send_tick (st : LiveClipboardState) : bool :=
  bool_decide (is_Some (live_outgoing st)) || bool_decide (is_Some (paste_barrier_deadline st)).

(** ** The clipboard's arms of the session loop *)

(** The next frame of a transfer, and the held input after the last; whether there was one.
    [win/main 2423-2434 run_connected_inner] *)
Definition send_transfer_frame : living bool :=
  next <-! next_image_frame;;
  match next with
  | None => st_ret false
  | Some (frame, completed) =>
      do! write_secure_frame_writer frame;;
      do! (if (completed : bool) then
             do! (fun s => (with_stats
                    {| stat_frames := stat_frames (stats s); stat_motion := stat_motion (stats s);
                       stat_buttons := stat_buttons (stats s); stat_wheel := stat_wheel (stats s);
                       stat_keys := stat_keys (stats s);
                       stat_clipboard := saturating_add u64_max (stat_clipboard (stats s)) 1;
                       stat_control := stat_control (stats s) |} (tray_clipboard_events s) s,
                    Ok tt));;
             release_held true
           else st_ret tt);;
      st_ret true
  end.

(** The head of the loop: whether it turns again at once.
    [win/main 1402-1417 run_connected_inner] *)
Definition on_loop_head (paused : bool) : living bool :=
  due <-! gets (fun s => image_chunk_is_due (schedule s));;
  if negb paused && (due : bool) then send_transfer_frame else st_ret false.

(** [win/main 2410-2435 run_connected_inner] *)
Definition on_send_tick (paused : bool) : living unit :=
  st <-! gets live;;
  if paused || negb (needs_send_tick st) then st_ret tt
  else if paste_barrier_expired st then
    cancel <-! cancel_expired_paste_barrier;;
    do! (match cancel with
         | Some cancel => write_secure_frame_writer cancel
         | None => st_ret tt
         end);;
    release_held true
  else do! send_transfer_frame;; st_ret tt.

(** [win/main 1582-1587 run_connected_inner] *)
Definition on_clipboard_poll (paused : bool) : living unit :=
  if paused then st_ret tt else poll_local_change.

(** A background read that has finished with [read]; its failures are logged.
    [win/main 1588-1602 run_connected_inner] *)
Definition on_read_finished (paused : bool)
    (read : result (option ClipboardItem) WindowsInputError) : living unit :=
  st <-! gets live;;
  match pending_read st with
  | None => st_ret tt
  | Some finished =>
      do! modify (set_pending_read None);;
      if paused then st_ret tt
      else
        completed <-! attempt (complete_local_read finished read);;
        match (completed : result _ LiveError) with
        | Ok frames =>
            (fix send (frames : list Frame) : living unit :=
               match frames with
               | [] => st_ret tt
               | frame :: frames =>
                   do! write_secure_frame_writer frame;; do! record_frame frame;; send frames
               end) frames
        | Err _ => st_ret tt
        end
  end.

(** A captured frame; [forwarding] is that this computer controls, shares its input and is not
    paused.  [win/main 1821-1834 run_connected_inner] *)
Definition on_captured (forwarding : bool) (frame : Frame) : living unit :=
  if forwarding then
    prepared <-! prepare_input frame;;
    send_input true prepared
  else st_ret tt.

(** A request whose delay is over.  [win/main 1835-1840 run_connected_inner] *)
Definition on_delayed (paused : bool) : living unit := fun s =>
  match delayed s with
  | (at_, frame) :: rest =>
      if at_ <=? now then
        let s := with_delayed rest s in
        if paused then (s, Ok tt)
        else (do! write_secure_frame_writer frame;; record_frame frame) s
      else (s, Ok tt)
  | [] => (s, Ok tt)
  end.

(** A clipboard frame of the peer: a failure is logged, and the tray counts the offers.
    [win/main 1887-1909 run_connected_inner] *)
Definition on_clipboard_frame (paused : bool) (event : ClipboardEvent) : living unit :=
  if paused then st_ret tt
  else
    handled <-! attempt (handle_remote_event event);;
    match (handled : result _ LiveError) with
    | Err _ => st_ret tt
    | Ok _ => fun s =>
        (with_stats (stats s)
           (if is_offer_frame (Frame_Clipboard event)
            then wrapping_add u64_max (tray_clipboard_events s) 1
            else tray_clipboard_events s) s, Ok tt)
    end.

(** The watchdog's part: an incoming transfer that stalled.
    [win/main 1525-1535 run_connected_inner] *)
Definition on_transfer_watchdog : living unit := fun s =>
  let r := expire_transfer_id now (live_incoming (live s)) in
  let s := with_live (set_live_incoming r.1 (live s)) s in
  match r.2 with
  | Some id => write_secure_frame_writer (Frame_Clipboard (ImageCancel id TimedOut)) s
  | None => (s, Ok tt)
  end.
End Handlers.

