(* ===== verification/WindowsPaste.v ===== *)
(** * The guarantees of the Windows clipboard

    Text survives Windows' clipboard; a copy the peer has not seen is kept; and the barrier that
    holds a paste keeps the order of the input, lasts five seconds at most, and lets the paste go
    after the image it pastes. *)
From S2P Require Export WindowsClipboard.
#[local] Open Scope Z_scope.
#[local] Open Scope list_scope.

(** ** Properties *)

(** *** The events of the clipboard *)

Inductive LiveEvent (W : Type) :=
| Ev_captured (forwarding : bool) (frame : Frame)
| Ev_loop_head (paused : bool)
| Ev_send_tick (paused : bool)
| Ev_poll (paused : bool)
| Ev_read_finished (paused : bool) (read : result (option ClipboardItem) WindowsInputError)
| Ev_delayed (paused : bool)
| Ev_frame (paused : bool) (event : ClipboardEvent)
| Ev_watchdog
(** Another program changes the clipboard. *)
| Ev_station (w : W).
Arguments Ev_captured {W} _ _.
Arguments Ev_loop_head {W} _.
Arguments Ev_send_tick {W} _.
Arguments Ev_poll {W} _.
Arguments Ev_read_finished {W} _ _.
Arguments Ev_delayed {W} _.
Arguments Ev_frame {W} _ _.
Arguments Ev_watchdog {W}.
Arguments Ev_station {W} _.

Section Events.
Context {W : Type} `{WindowsClipboardApi W} `{Lib : ClipboardLibraries} `{FrameCodec}.
Context (config : AppConfig).

Definition live_step (now : Instant) (ev : LiveEvent W) : stateful (Live W) LiveError unit :=
  match ev with
  | Ev_captured forwarding frame => on_captured config now forwarding frame
  | Ev_loop_head paused => do! on_loop_head config now paused;; st_ret tt
  | Ev_send_tick paused => on_send_tick config now paused
  | Ev_poll paused => on_clipboard_poll config paused
  | Ev_read_finished paused read => on_read_finished config paused read
  | Ev_delayed paused => on_delayed now paused
  | Ev_frame paused event => on_clipboard_frame config now paused event
  | Ev_watchdog => on_transfer_watchdog now
  | Ev_station w => fun s => (with_station w s, Ok tt)
  end.
Fixpoint live_run (l : list (Instant * LiveEvent W)) : stateful (Live W) LiveError unit :=
  match l with
  | [] => st_ret tt
  | (now, ev) :: l => do! live_step now ev;; live_run l
  end.
End Events.

(** The input the capture delivered to the session while it forwards. *)
Definition captured {W} (l : list (Instant * LiveEvent W)) : list Frame :=
  omap (fun x => match x.2 with Ev_captured true frame => Some frame | _ => None end) l.

(** Input and control frames keep their order; the motion of the pointer may overtake them. *)
Definition ordered (frame : Frame) : bool :=
  match frame with
  | Frame_Input _ | Frame_Control _ => negb (is_motion_frame frame)
  | _ => false
  end.

(** *** The order of the input *)

Section Order.
Context {W : Type} `{WindowsClipboardApi W} `{Lib : ClipboardLibraries} `{FrameCodec}.
Context (config : AppConfig).

Abbreviation living := (stateful (Live W) LiveError).

Definition sendable (frame : Frame) : Prop := is_Ok (encode_secure_frame frame) = true.

(** What was written and what is held, in order. *)
Definition line (s : Live W) : list Frame :=
  List.filter ordered (written s ++ held_input (live s)).

(** Input is held only behind a barrier, of which nothing but input and clipboard requests
    awaits its turn; the connection stands. *)
Record settled (s : Live W) : Prop := {
  settled_connected : connected s = true;
  settled_held : paste_barrier_deadline (live s) = None -> held_input (live s) = [];
  settled_sendable : Forall sendable (held_input (live s));
  settled_delayed : Forall (fun x => ordered x.2 = false) (delayed s);
}.

(** What every handler but that of captured input does. *)
Definition same_line (s s' : Live W) : Prop := settled s -> settled s' /\ line s' = line s.
#[export] Instance same_line_preorder : PreOrder same_line.
Proof.
  split; [by intros s|]. intros s1 s2 s3 H12 H23 H1. destruct (H12 H1) as [H2 E].
  destruct (H23 H2) as [H3 E']. split; [done|congruence].
Qed.

(** The parts of the state the order depends on. *)
Definition same_input (s s' : Live W) : Prop :=
  held_input (live s') = held_input (live s)
  /\ paste_barrier_deadline (live s') = paste_barrier_deadline (live s)
  /\ connected s' = connected s /\ delayed s' = delayed s /\ written s' = written s.
#[export] Instance same_input_preorder : PreOrder same_input.
Proof.
  split; [by intros s|]. intros s1 s2 s3 (?&?&?&?&?) (?&?&?&?&?). repeat split; congruence.
Qed.
Lemma same_input_line s s' : same_input s s' -> same_line s s'.
Proof.
  intros (Eh & Ed & Ec & El & Ew) [Hc Hh Hs Hd]. unfold line. rewrite Eh, Ew. split; [|done].
  split; rewrite ?Eh, ?Ed, ?Ec, ?El; auto.
Qed.

Lemma modify_same_input (f : LiveClipboardState -> LiveClipboardState) :
  (forall st, held_input (f st) = held_input st
              /\ paste_barrier_deadline (f st) = paste_barrier_deadline st) ->
  within same_input (@modify W f).
Proof. intros Hf s. destruct (Hf (live s)) as [Eh Ed]. repeat split; cbn; assumption. Qed.
Lemma gets_same_input {A} (f : Live W -> A) : within same_input (gets f).
Proof. by intros s. Qed.
Lemma read_item_same_input : within same_input (read_item config).
Proof. by intros s. Qed.
Lemma write_to_clipboard_same_input write : within same_input (@write_to_clipboard W write).
Proof. by intros s. Qed.
Lemma record_frame_same_input frame : within same_input (@record_frame W frame).
Proof. by intros s. Qed.
Lemma record_applied_same_input id : within same_input (record_applied id).
Proof. by intros s. Qed.
Lemma receive_incoming_same_input now event : within same_input (receive_incoming config now event).
Proof. by intros s. Qed.

Create HintDb live.
#[local] Hint Resolve gets_same_input read_item_same_input write_to_clipboard_same_input
  record_frame_same_input record_applied_same_input receive_incoming_same_input : live.
#[local] Hint Extern 1 (within same_input (modify _)) =>
  apply modify_same_input; intros; split; reflexivity : live.
Ltac input_steps := repeat within_step; auto with live.

Lemma replace_outgoing_same_input : within same_input (@replace_outgoing W).
Proof. unfold replace_outgoing. input_steps. Qed.
Lemma next_transfer_id_same_input : within same_input (@next_transfer_id W).
Proof. unfold next_transfer_id. input_steps. Qed.
#[local] Hint Resolve replace_outgoing_same_input next_transfer_id_same_input : live.
Lemma push_text_offer_same_input sequence text id :
  within same_input (push_text_offer sequence text id).
Proof. unfold push_text_offer. input_steps. Qed.
#[local] Hint Resolve push_text_offer_same_input : live.
Lemma offer_item_same_input current force : within same_input (offer_item config current force).
Proof. unfold offer_item. input_steps. Qed.
#[local] Hint Resolve offer_item_same_input : live.
Lemma complete_local_read_same_input finished read :
  within same_input (complete_local_read config finished read).
Proof. unfold complete_local_read. input_steps. Qed.
Lemma next_image_frame_same_input : within same_input (@next_image_frame W).
Proof. unfold next_image_frame. input_steps. Qed.

(** *** What an offer returns *)

(** The frames of an offer are clipboard frames. *)
Definition unordered (frames : list Frame) : Prop := Forall (fun f => ordered f = false) frames.
Definition returns {A} (P : A -> Prop) (m : living A) : Prop :=
  forall s s' a, m s = (s', Ok a) -> P a.
Lemma returns_ret {A} (P : A -> Prop) a : P a -> returns P (st_ret a).
Proof. by intros Ha s s' b [= _ <-]. Qed.
Lemma returns_bind {A B} (P : A -> Prop) (Q : B -> Prop) (m : living A) (k : A -> living B) :
  returns P m -> (forall a, P a -> returns Q (k a)) -> returns Q (st_bind m k).
Proof. intros Hm Hk s s' b (s1 & a & E1 & E2)%st_bind_Ok. by eapply Hk; eauto. Qed.
Lemma returns_skip {A B} (Q : B -> Prop) (m : living A) (k : A -> living B) :
  (forall a, returns Q (k a)) -> returns Q (st_bind m k).
Proof. intros Hk. apply (returns_bind (fun _ => True)); [done|auto]. Qed.

Ltac returns_steps := repeat match goal with
  | |- returns _ (st_ret _) => apply returns_ret
  | |- returns _ (st_bind _ _) => apply returns_skip; intros
  | |- returns _ (if ?b then _ else _) => destruct b
  | |- returns _ (match ?x with _ => _ end) => destruct x
  end.

Lemma replace_outgoing_unordered : returns unordered (@replace_outgoing W).
Proof. unfold replace_outgoing. returns_steps; repeat constructor. Qed.
Lemma push_text_offer_unordered sequence text id :
  returns unordered (push_text_offer sequence text id).
Proof.
  unfold push_text_offer. apply (returns_bind unordered); [apply replace_outgoing_unordered|].
  intros frames Hf. returns_steps; try assumption. apply Forall_app. repeat constructor. done.
Qed.
Lemma offer_item_unordered current force : returns unordered (offer_item config current force).
Proof.
  unfold offer_item. do 2 (apply returns_skip; intros).
  destruct (_.2) as [sequence|]; [|returns_steps; constructor].
  destruct current as [[text|image]|]; [apply push_text_offer_unordered| |returns_steps; constructor].
  apply returns_skip; intros peer. destruct (_ && _); [|returns_steps; constructor].
  apply (returns_bind unordered); [apply replace_outgoing_unordered|].
  intros frames Hf. by returns_steps.
Qed.
Lemma complete_local_read_unordered finished read :
  returns unordered (complete_local_read config finished read).
Proof.
  unfold complete_local_read. apply returns_skip; intros. destruct (negb _);
    [returns_steps; constructor|].
  apply returns_skip; intros. apply (returns_bind unordered); [apply offer_item_unordered|].
  intros frames Hf. by returns_steps.
Qed.
Lemma next_image_frame_unordered :
  returns (fun o => forall x, o = Some x -> ordered x.1 = false) (@next_image_frame W).
Proof. unfold next_image_frame. returns_steps; intros x; [intros [= <-]|..]; done. Qed.

(** *** Writing *)

Lemma write_frame_outcome frame (s : Live W) :
  write_secure_frame_writer frame s = (with_written frame s, Ok tt)
  \/ exists e, write_secure_frame_writer frame s = (s, Err e).
Proof.
  unfold write_secure_frame_writer. destruct (encode_secure_frame frame); [|eauto].
  destruct (connected s); eauto.
Qed.
Lemma write_sendable frame (s : Live W) : connected s = true -> sendable frame ->
  write_secure_frame_writer frame s = (with_written frame s, Ok tt).
Proof.
  unfold sendable, write_secure_frame_writer. intros ->.
  by destruct (encode_secure_frame frame).
Qed.

Lemma line_with_written frame (s : Live W) : ordered frame = false ->
  line (with_written frame s) = line s.
Proof.
  intros Hf. unfold line. cbn [live written with_written].
  rewrite !List.filter_app. cbn [List.filter]. by rewrite Hf, app_nil_r.
Qed.
Lemma write_same_line frame : ordered frame = false -> within same_line (@write_secure_frame_writer W _ frame).
Proof.
  intros Hf s. destruct (write_frame_outcome frame s) as [->|[e ->]]; [|done].
  intros [Hc Hh Hs Hd]. split; [by split|by apply line_with_written].
Qed.
Lemma write_all_same_line frames : unordered frames -> within same_line (@write_all W _ frames).
Proof.
  induction 1 as [|frame frames Hf _ IH]; cbn [write_all]; [by intros s|].
  apply within_bind; [apply _|by apply write_same_line|done].
Qed.
Lemma same_input_within_line {A} (m : living A) : within same_input m -> within same_line m.
Proof. intros Hm s. apply same_input_line, Hm. Qed.

(** Following a computation whose value matters. *)
Lemma same_line_bind {A B} (P : A -> Prop) (m : living A) (k : A -> living B) :
  within same_line m -> returns P m -> (forall a, P a -> within same_line (k a)) ->
  within same_line (st_bind m k).
Proof.
  intros Hm Hr Hk s. unfold st_bind. specialize (Hm s). specialize (Hr s).
  destruct (m s) as [s1 [a|e]]; [|done]. etrans; [exact Hm|]. by apply Hk, (Hr s1 a).
Qed.

(** *** Held input *)

(** What writing input leaves alone, and what it leaves. *)
Definition sent_after (frames : list Frame) (s s' : Live W) : Prop :=
  written s' = written s ++ frames /\ held_input (live s') = held_input (live s)
  /\ paste_barrier_deadline (live s') = paste_barrier_deadline (live s)
  /\ connected s' = connected s /\ live_outgoing (live s') = live_outgoing (live s)
  /\ (Forall (fun x => ordered x.2 = false) (delayed s) ->
      Forall (fun x => ordered x.2 = false) (delayed s')).
Lemma sent_after_nil s : sent_after [] s s.
Proof. unfold sent_after. rewrite app_nil_r. by split_and!. Qed.
Lemma sent_after_app l k s1 s2 s3 :
  sent_after l s1 s2 -> sent_after k s2 s3 -> sent_after (l ++ k) s1 s3.
Proof.
  intros (A1&A2&A3&A4&A5&A6) (B1&B2&B3&B4&B5&B6). unfold sent_after. rewrite app_assoc.
  split_and!; try congruence. auto.
Qed.

Lemma after_input_sent_nothing now frame (s : Live W) : exists s',
  after_input_sent config now frame s = (s', Ok tt) /\ sent_after [] s s'.
Proof.
  unfold after_input_sent, sent_after. destruct (Frame_input_event frame) as [[| | |code down|]|];
    try (eexists; split; [reflexivity|]; rewrite app_nil_r; by split_and!).
  destruct (_ || _); [eexists; split; [reflexivity|]; rewrite app_nil_r; by split_and!|].
  destruct (_ && _); (eexists; split; [reflexivity|]); rewrite app_nil_r; split_and!; try done.
  cbn [delayed with_delayed]. intros Hd. apply Forall_app. split; [done|]. repeat constructor.
Qed.
Lemma counting_nothing (counted : bool) frame (s : Live W) : exists s',
  (if counted then record_frame frame else st_ret tt) s = (s', Ok tt) /\ sent_after [] s s'.
Proof.
  destruct counted; (eexists; split; [reflexivity|]); unfold sent_after; rewrite app_nil_r;
    by split_and!.
Qed.

(** Writing input writes all of it, and it succeeds when every frame can be sent. *)
Lemma send_input_sends counted now frames : forall s : Live W,
  (forall s', send_input config now counted frames s = (s', Ok tt) -> sent_after frames s s')
  /\ (connected s = true -> Forall sendable frames ->
      exists s', send_input config now counted frames s = (s', Ok tt)).
Proof.
  induction frames as [|frame frames IH]; intros s; cbn [send_input].
  { split; [|by exists s]. intros s' [= <-]. apply sent_after_nil. }
  destruct (counting_nothing counted frame (with_written frame s)) as (s1 & E1 & H1).
  destruct (after_input_sent_nothing now frame s1) as (s2 & E2 & H2). destruct (IH s2) as [IH1 IH2].
  assert (sent_after [frame] s (with_written frame s)) as Hw by by split_and!.
  split.
  - intros s'. unfold st_bind. destruct (write_frame_outcome frame s) as [->|[e ->]]; [|done].
    rewrite E1, E2. intros E.
    apply (sent_after_app [frame] frames _ _ _ (sent_after_app _ [] _ _ _
             (sent_after_app _ [] _ _ _ Hw H1) H2) (IH1 _ E)).
  - intros Hc Hs. inversion_clear Hs as [|? ? Hf Hs']. unfold st_bind.
    rewrite write_sendable by done. rewrite E1, E2. apply IH2; [|done].
    destruct H1 as (_&_&_&C1&_), H2 as (_&_&_&C2&_). by rewrite C2, C1.
Qed.

(** Released input follows what was written. *)
Lemma release_held_sends counted now (s : Live W) : connected s = true ->
  Forall sendable (held_input (live s)) ->
  exists s', release_held config now counted s = (s', Ok tt)
    /\ written s' = written s ++ held_input (live s) /\ held_input (live s') = []
    /\ paste_barrier_deadline (live s') = None /\ connected s' = true
    /\ live_outgoing (live s') = live_outgoing (live s)
    /\ (Forall (fun x => ordered x.2 = false) (delayed s) ->
        Forall (fun x => ordered x.2 = false) (delayed s')).
Proof.
  intros Hc Hs. unfold release_held, take_held_input, st_bind at 1. cbn.
  match goal with |- context [send_input _ _ _ _ ?s1] =>
    destruct (send_input_sends counted now (held_input (live s)) s1) as [H1 H2] end.
  destruct (H2 Hc Hs) as [s' Es]. destruct (H1 s' Es) as (E1 & E2 & E3 & E4 & E5 & E6).
  exists s'. rewrite Es. split_and!; try done. by rewrite E4.
Qed.
Lemma release_held_same_line counted now : within same_line (@release_held W _ config now counted).
Proof.
  intros s [Hc Hh Hs Hd].
  destruct (release_held_sends counted now s Hc Hs) as (s' & -> & E1 & E2 & E3 & E4 & E5 & E6).
  cbn. unfold line. rewrite E1, E2, app_nil_r. split; [|done].
  split; rewrite ?E2, ?E4; auto.
Qed.

(** *** Every handler keeps the line *)

#[local] Hint Resolve same_input_within_line complete_local_read_same_input
  next_image_frame_same_input : live.
#[local] Hint Resolve write_same_line write_all_same_line release_held_same_line
  offer_item_unordered push_text_offer_unordered : live.
Ltac line_steps := repeat within_step; auto with live.

Lemma offer_and_write (m : living (list Frame)) : within same_input m -> returns unordered m ->
  within same_line (st_bind m write_all).
Proof. intros Hm Hr. apply (same_line_bind unordered); auto with live. Qed.
Lemma prefer_newer_same_line id : within same_line (prefer_newer_local_clipboard config id).
Proof.
  unfold prefer_newer_local_clipboard. apply within_bind; [apply _|auto with live|intros current].
  apply within_if; [line_steps|].
  apply within_bind; [apply _|auto with live|intros seen]. apply within_if; [|line_steps].
  apply (same_line_bind unordered); [auto with live..|]. intros frames Hf. line_steps.
Qed.
#[local] Hint Resolve prefer_newer_same_line : live.
Lemma apply_remote_same_line id write : within same_line (apply_remote config id write).
Proof. unfold apply_remote. line_steps. Qed.
Lemma cancel_frame_same_line id reason : within same_line (@cancel_frame W _ id reason).
Proof. unfold cancel_frame. line_steps. Qed.
#[local] Hint Resolve apply_remote_same_line cancel_frame_same_line : live.
Lemma handle_transfer_same_line now event : within same_line (handle_transfer config now event).
Proof. unfold handle_transfer, apply_remote_text. line_steps. Qed.
Lemma handle_remote_event_same_line now event :
  within same_line (handle_remote_event config now event).
Proof.
  unfold handle_remote_event, apply_remote_text, local_clipboard_offer.
  apply within_if; [line_steps|].
  destruct event; try apply handle_transfer_same_line; try (by line_steps).
  - apply within_bind; [apply _|by intros s|]. intros [text'|]; [|line_steps].
    do 2 (apply within_bind; [apply _|auto with live|intros ?]).
    destruct (_.2); [|line_steps]. apply offer_and_write; auto with live.
  - apply offer_and_write; [|apply returns_skip; auto with live].
    input_steps.
Qed.

Lemma on_clipboard_frame_same_line now paused event :
  within same_line (on_clipboard_frame config now paused event).
Proof.
  unfold on_clipboard_frame. apply within_if; [line_steps|].
  apply within_bind; [apply _|apply within_attempt, handle_remote_event_same_line|].
  intros [?|?]; [|line_steps]. intros s. by apply same_input_line.
Qed.
Lemma on_poll_same_line paused : within same_line (on_clipboard_poll config paused).
Proof.
  unfold on_clipboard_poll. apply within_if; [line_steps|]. intros s. unfold poll_local_change.
  repeat case_match; by apply same_input_line.
Qed.
Lemma on_read_finished_same_line paused read :
  within same_line (on_read_finished config paused read).
Proof.
  unfold on_read_finished. apply within_bind; [apply _|auto with live|intros st].
  destruct (pending_read st) as [finished|]; [|line_steps].
  apply within_bind; [apply _|auto with live|intros _]. apply within_if; [line_steps|].
  apply (same_line_bind (fun r : result (list Frame) LiveError =>
           match r with Ok frames => unordered frames | Err _ => True end)).
  - apply within_attempt. auto with live.
  - intros s s' r [= <- <-]. destruct (complete_local_read config finished read s) as [s1 [a|e]] eqn:E;
      [|done]. by apply complete_local_read_unordered in E.
  - intros [frames|e] Hf; [|line_steps].
    induction Hf as [|frame frames Hf _ IH]; [line_steps|].
    apply within_bind; [apply _|by auto with live|intros _].
    apply within_bind; [apply _|auto with live|intros _]. exact IH.
Qed.
Lemma on_watchdog_same_line now : within same_line (@on_transfer_watchdog W _ now).
Proof.
  intros s. unfold on_transfer_watchdog.
  destruct (expire_transfer_id now (live_incoming (live s))) as [i [id|]]; cbn [fst snd].
  - etrans; [|by apply write_same_line]. by apply same_input_line.
  - by apply same_input_line.
Qed.
Lemma send_transfer_frame_same_line now : within same_line (@send_transfer_frame W _ config now).
Proof.
  unfold send_transfer_frame.
  eapply same_line_bind; [auto with live|exact next_image_frame_unordered|].
  intros [[frame completed]|] Hf; [|line_steps].
  apply within_bind; [apply _|apply write_same_line, (Hf _ eq_refl)|intros _].
  apply within_bind; [apply _| |line_steps]. apply within_if; [|line_steps].
  apply within_bind; [apply _| |auto with live]. intros s. by apply same_input_line.
Qed.
Lemma on_loop_head_same_line now paused : within same_line (@on_loop_head W _ config now paused).
Proof.
  unfold on_loop_head. apply within_bind; [apply _|auto with live|intros due].
  apply within_if; [apply send_transfer_frame_same_line|line_steps].
Qed.

(** The tick that lifts an expired barrier: the session ends if the cancellation cannot be
    written. *)
Lemma on_send_tick_same_line now paused s s' : on_send_tick config now paused s = (s', Ok tt) ->
  same_line s s'.
Proof.
  unfold on_send_tick, st_bind at 1, gets at 1. destruct (_ || _); [by intros [= <-]|].
  destruct (paste_barrier_expired now (live s)) eqn:Hx.
  - intros (s1 & cancel & E1 & E2)%st_bind_Ok. cbn in E1. injection E1 as <- <-.
    apply st_bind_Ok in E2 as (s2 & [] & E2 & E3). intros [Hc Hh Hs Hd].
    match type of E2 with _ ?s1 = _ => assert (connected s2 = true /\ delayed s2 = delayed s
      /\ held_input (live s2) = held_input (live s) /\ line s2 = line s) as (Hc2 & Hd2 & Hh2 & El) end.
    { destruct (live_outgoing (live s)) as [o|]; cbn in E2; [|by injection E2 as <-].
      match type of E2 with write_secure_frame_writer ?f ?s1 = _ =>
        destruct (write_frame_outcome f s1) as [Ew|[e Ew]]; rewrite Ew in E2; [|done] end.
      injection E2 as <-. split_and!; try done. by rewrite line_with_written. }
    rewrite <- Hh2 in Hs. rewrite <- Hd2 in Hd.
    destruct (release_held_sends true now s2 Hc2 Hs) as (s3 & E3' & F1 & F2 & F3 & F4 & F5 & F6).
    rewrite E3' in E3. injection E3 as <-. unfold line in *. rewrite F1, F2, app_nil_r.
    split; [|exact El]. split; rewrite ?F2, ?F4; auto.
  - intros (s1 & b & E1 & [= <-])%st_bind_Ok.
    pose proof (send_transfer_frame_same_line now s) as Hs. by rewrite E1 in Hs.
Qed.
Lemma on_delayed_same_line now paused s s' : on_delayed now paused s = (s', Ok tt) ->
  same_line s s'.
Proof.
  unfold on_delayed. intros E [Hc Hh Hs Hd].
  destruct (delayed s) as [|[at_ frame] rest] eqn:El; [by injection E as <-; repeat split; rewrite ?El|].
  inversion_clear Hd as [|? ? Hf Hd']. cbn [snd] in Hf.
  destruct (at_ <=? now); [|injection E as <-; repeat split; rewrite ?El; auto using List.Forall_cons].
  assert (settled (with_delayed rest s)) as Hs' by by split.
  destruct paused; [by injection E as <-|]. apply st_bind_Ok in E as (s1 & [] & E1 & E2).
  pose proof (write_same_line frame Hf (with_delayed rest s)) as Hw. rewrite E1 in Hw. cbn [fst] in Hw.
  destruct (Hw Hs') as [H1 L1].
  pose proof (same_input_line _ _ (record_frame_same_input frame s1)) as Hr. rewrite E2 in Hr. cbn [fst] in Hr.
  destruct (Hr H1) as [H2 L2]. split; [done|]. rewrite L2, L1. done.
Qed.

(** *** Captured input *)

(** What preparing a paste leads to: the paste follows the frames of an offer, or it is held
    behind a barrier and the offer is written now. *)
Definition paste_outcome (now : Instant) (frame : Frame) (s s' : Live W) (out : list Frame) : Prop :=
  written s' = written s /\ connected s' = connected s /\ delayed s' = delayed s
  /\ exists frames, unordered frames
     /\ ((out = frames ++ [frame] /\ held_input (live s') = []
          /\ paste_barrier_deadline (live s') = None)
         \/ (out = frames /\ held_input (live s') = [frame]
             /\ paste_barrier_deadline (live s') = Some (now + CLIPBOARD_PASTE_BARRIER_TIMEOUT))).

(** No barrier, and nothing held. *)
Definition unbarred (s : Live W) : Prop :=
  held_input (live s) = [] /\ paste_barrier_deadline (live s) = None.

Lemma paste_held now frame frames s s1 s2 out : unbarred s -> same_input s s1 -> unordered frames ->
  (do! raise_barrier now frame;; st_ret frames) s1 = (s2, Ok out) -> paste_outcome now frame s s2 out.
Proof.
  intros [Hheld _] (Eh & Ed & Ec & El & Ew) Hf [= <- <-]. unfold paste_outcome. cbn.
  rewrite Eh, Hheld. split_and!; try done. exists frames. split; [done|]. by right.
Qed.
Lemma paste_passed now frame frames s s1 : unbarred s -> same_input s s1 -> unordered frames ->
  paste_outcome now frame s s1 (frames ++ [frame]).
Proof.
  intros [Hheld Hd] (Eh & Ed & Ec & El & Ew) Hf. unfold paste_outcome. split_and!; try congruence.
  exists frames. split; [done|]. left. split_and!; congruence.
Qed.
Lemma offer_item_from current force s s1 frames :
  offer_item config current force s = (s1, Ok frames) -> same_input s s1 /\ unordered frames.
Proof.
  intros E. split; [|by eapply offer_item_unordered].
  pose proof (offer_item_same_input current force s) as Hs. by rewrite E in Hs.
Qed.

Lemma prepare_paste_outcome now frame s s' out : unbarred s ->
  prepare_paste config now frame s = (s', Ok out) -> paste_outcome now frame s s' out.
Proof.
  intros Hu E. unfold prepare_paste in E.
  assert (forall current s2 out2,
    (frames <-! offer_item config current true;;
     outgoing <-! gets (fun s => live_outgoing (live s));;
     if is_some_and outgoing_is_text outgoing
     then do! raise_barrier now frame;; st_ret frames
     else st_ret (frames ++ [frame])) s = (s2, Ok out2) -> paste_outcome now frame s s2 out2)
    as Htext.
  { intros current s2 out2 (s3 & frames & E1 & E2)%st_bind_Ok.
    destruct (offer_item_from _ _ _ _ _ E1) as [Hs Hf].
    apply st_bind_Ok in E2 as (s4 & outgoing & [= <- <-] & E2).
    destruct (is_some_and _ _); [by eapply paste_held|].
    injection E2 as <- <-. by apply paste_passed. }
  apply st_bind_Ok in E as (s1 & read & E1 & E). unfold attempt, read_item in E1.
  cbn [fst snd] in E1. injection E1 as <- <-.
  destruct (clip_result _) as [current|e].
  2: { injection E as <- <-. apply (paste_passed _ _ []); [done|reflexivity|constructor]. }
  apply st_bind_Ok in E as (s1 & peer & [= <- <-] & E).
  destruct current as [[text|image]|]; [by eapply Htext| |by eapply Htext].
  destruct (_ && _); [|by eapply Htext].
  apply st_bind_Ok in E as (s1 & last_sent & [= <- <-] & E).
  destruct (bool_decide _).
  { injection E as <- <-. apply (paste_passed _ _ []); [done|reflexivity|constructor]. }
  apply st_bind_Ok in E as (s1 & sending & [= <- <-] & E).
  apply st_bind_Ok in E as (s1 & prefixes & E1 & E).
  destruct (bool_decide _).
  - injection E1 as <- <-. eapply paste_held; [done|reflexivity|constructor|exact E].
  - destruct (offer_item_from _ _ _ _ _ E1) as [Hs Hf]. by eapply paste_held.
Qed.

(** A captured frame takes its place after the input before it. *)
Lemma line_app (s : Live W) frames : line s ++ List.filter ordered frames
  = List.filter ordered (written s ++ held_input (live s) ++ frames).
Proof. unfold line. by rewrite <- List.filter_app, <- app_assoc. Qed.
Lemma filter_unordered frames : unordered frames -> List.filter ordered frames = [].
Proof. induction 1 as [|f l Hf _ IH]; [done|]. cbn [List.filter]. by rewrite Hf. Qed.

Lemma motion_unordered frame : is_motion_frame frame = true -> ordered frame = false.
Proof. unfold ordered. intros Em. destruct frame; rewrite ?Em; reflexivity. Qed.
Lemma on_captured_line now frame s s' : settled s -> sendable frame ->
  on_captured config now true frame s = (s', Ok tt) ->
  settled s' /\ line s' = line s ++ List.filter ordered [frame].
Proof.
  intros [Hc Hh Hs Hd] Hf (s1 & out & E1 & E2)%st_bind_Ok.
  assert (connected s1 = true /\ (paste_barrier_deadline (live s1) = None -> held_input (live s1) = [])
    /\ Forall sendable (held_input (live s1)) /\ Forall (fun x => ordered x.2 = false) (delayed s1)
    /\ List.filter ordered (written s1 ++ out ++ held_input (live s1))
       = line s ++ List.filter ordered [frame]) as (Hc1 & Hh1 & Hs1 & Hd1 & El).
  { rewrite line_app. unfold prepare_input in E1. apply st_bind_Ok in E1 as (s0 & st & [= <- <-] & E1).
    destruct (paste_barrier_deadline (live s)) as [deadline|] eqn:Ed.
    - rewrite bool_decide_eq_true_2 in E1 by eauto. destruct (is_motion_frame frame) eqn:Em.
      + injection E1 as <- <-. split_and!; try done; [by rewrite Ed|].
        rewrite !List.filter_app. cbn [List.filter].
        assert (ordered frame = false) as -> by by apply motion_unordered.
        by rewrite app_nil_r.
      + injection E1 as <- <-. cbn. rewrite Ed. split_and!; try done.
        by apply Forall_app; split; [|repeat constructor].
    - rewrite bool_decide_eq_false_2 in E1 by (by intros []). rewrite (Hh eq_refl).
      assert (forall s2, s2 = s -> out = [frame] -> s1 = s2 ->
        connected s1 = true /\ (paste_barrier_deadline (live s1) = None -> held_input (live s1) = [])
        /\ Forall sendable (held_input (live s1)) /\ Forall (fun x => ordered x.2 = false) (delayed s1)
        /\ List.filter ordered (written s1 ++ out ++ held_input (live s1))
           = List.filter ordered (written s ++ [] ++ [frame])) as Hpass.
      { intros s2 -> -> ->. rewrite (Hh eq_refl). by split_and!. }
      destruct (negb _); [injection E1 as <- <-; by apply (Hpass s)|].
      destruct (_ && _); [|injection E1 as <- <-; by apply (Hpass s)].
      destruct (prepare_paste_outcome now frame s s1 out) as (Ew & Ec & El & frames & Hu & Ho);
        [split; [by apply Hh|done]|done|].
      rewrite Ew, Ec, El.
      destruct Ho as [(-> & Eh & Eb)|(-> & Eh & Eb)]; rewrite Eh; split_and!; try done.
      + rewrite !List.filter_app, (filter_unordered frames) by done. cbn [List.filter app].
        by rewrite app_nil_r.
      + by rewrite Eb.
      + repeat constructor. done.
      + by rewrite !List.filter_app, (filter_unordered frames). }
  destruct (send_input_sends true now out s1) as [Hsent _].
  destruct (Hsent s' E2) as (F1 & F2 & F3 & F4 & F5 & F6).
  unfold line at 1. rewrite F1, F2, <- app_assoc. split; [|exact El].
  split; rewrite ?F2, ?F3, ?F4; auto.
Qed.

Lemma live_step_line now ev s s' : settled s -> Forall sendable (captured [(now, ev)]) ->
  live_step config now ev s = (s', Ok tt) ->
  settled s' /\ line s' = line s ++ List.filter ordered (captured [(now, ev)]).
Proof.
  intros Hs Hf E.
  assert (same_line s s' -> captured [(now, ev)] = [] ->
    settled s' /\ line s' = line s ++ List.filter ordered (captured [(now, ev)])) as Hsame.
  { intros Hsl ->. destruct (Hsl Hs) as [H1 H2]. split; [done|]. by rewrite H2, app_nil_r. }
  assert (forall A (m : living A) a, within same_line m -> m s = (s', Ok a) -> same_line s s') as Hw.
  { intros A m a Hm Em. specialize (Hm s). by rewrite Em in Hm. }
  destruct ev as [forwarding frame| | | | | | | |w]; cbn [live_step] in E.
  - destruct forwarding; [|injection E as <-; by apply Hsame].
    inversion_clear Hf. by eapply on_captured_line.
  - apply st_bind_Ok in E as (s1 & b & E & [= <-]).
    apply Hsame; [eapply Hw, E; apply on_loop_head_same_line|done].
  - apply Hsame; [by eapply on_send_tick_same_line|done].
  - apply Hsame; [eapply Hw, E; apply on_poll_same_line|done].
  - apply Hsame; [eapply Hw, E; apply on_read_finished_same_line|done].
  - apply Hsame; [by eapply on_delayed_same_line|done].
  - apply Hsame; [eapply Hw, E; apply on_clipboard_frame_same_line|done].
  - apply Hsame; [eapply Hw, E; apply on_watchdog_same_line|done].
  - injection E as <-. apply Hsame; [by apply same_input_line|done].
Qed.

Lemma live_run_line l : forall s s', settled s -> Forall sendable (captured l) ->
  live_run config l s = (s', Ok tt) ->
  settled s' /\ line s' = line s ++ List.filter ordered (captured l).
Proof.
  induction l as [|[now ev] l IH]; intros s s' Hs Hf E; cbn [live_run] in E.
  { injection E as <-. split; [done|]. by rewrite app_nil_r. }
  apply st_bind_Ok in E as (s1 & [] & E1 & E2).
  assert (captured ((now, ev) :: l) = captured [(now, ev)] ++ captured l) as Ec.
  { unfold captured. cbn. by destruct ev as [[]| | | | | | | |]. }
  rewrite Ec in Hf |- *. apply Forall_app in Hf as [Hf1 Hf2].
  destruct (live_step_line now ev s s1 Hs Hf1 E1) as [Hs1 El1].
  destruct (IH s1 s' Hs1 Hf2 E2) as [Hs2 El2]. split; [done|].
  by rewrite El2, El1, List.filter_app, app_assoc.
Qed.

(** *** The barrier ends *)

(** A step leaves the barrier, lifts it, or raises one that lasts five seconds. *)
Definition bars (now : Instant) (s s' : Live W) : Prop :=
  paste_barrier_deadline (live s') = paste_barrier_deadline (live s)
  \/ paste_barrier_deadline (live s') = None
  \/ paste_barrier_deadline (live s') = Some (now + CLIPBOARD_PASTE_BARRIER_TIMEOUT).
#[export] Instance bars_preorder now : PreOrder (bars now).
Proof.
  split; [by left|]. unfold bars. intros s1 s2 s3 H1 [E|[E|E]]; rewrite E; auto.
Qed.
Lemma same_input_bars now s s' : same_input s s' -> bars now s s'.
Proof. intros (_ & Ed & _). by left. Qed.
Lemma within_bars now {A} (m : living A) : within same_input m -> within (bars now) m.
Proof. intros Hm s. apply same_input_bars, Hm. Qed.
Lemma write_bars now frame : within (bars now) (@write_secure_frame_writer W _ frame).
Proof. intros s. destruct (write_frame_outcome frame s) as [->|[e ->]]; by left. Qed.
Lemma modify_bars now f :
  (forall st, paste_barrier_deadline (f st) = paste_barrier_deadline st
              \/ paste_barrier_deadline (f st) = None
              \/ paste_barrier_deadline (f st) = Some (now + CLIPBOARD_PASTE_BARRIER_TIMEOUT)) ->
  within (bars now) (@modify W f).
Proof. intros Hf s. apply Hf. Qed.
Create HintDb bars.
#[local] Hint Resolve within_bars write_bars : bars.
#[local] Hint Resolve gets_same_input read_item_same_input write_to_clipboard_same_input
  record_frame_same_input record_applied_same_input receive_incoming_same_input
  offer_item_same_input push_text_offer_same_input complete_local_read_same_input
  next_image_frame_same_input : bars.
#[local] Hint Extern 1 (within (bars _) (modify _)) =>
  apply modify_bars; intros; cbn; auto : bars.
Ltac bar_steps := repeat within_step; auto with bars.

Lemma send_input_bars now counted frames : within (bars now) (@send_input W _ config now counted frames).
Proof.
  intros s. destruct (send_input config now counted frames s) as [s' [[]|e]] eqn:E; cbn [fst].
  { destruct (send_input_sends counted now frames s) as [Hs _].
    destruct (Hs _ E) as (_ & _ & Ed & _). by left. }
  revert s E. induction frames as [|frame frames IH]; intros s E; [done|]. cbn [send_input] in E.
  destruct (counting_nothing counted frame (with_written frame s)) as (s1 & E1 & H1).
  destruct (after_input_sent_nothing now frame s1) as (s2 & E2 & H2). unfold st_bind in E.
  destruct (write_frame_outcome frame s) as [Ew|[e' Ew]]; rewrite Ew in E;
    [|injection E as <- _; by left].
  rewrite E1, E2 in E. specialize (IH s2 E).
  destruct H1 as (_&_&D1&_), H2 as (_&_&D2&_). cbn in D1. unfold bars in *. by rewrite D2, D1 in IH.
Qed.
#[local] Hint Resolve send_input_bars : bars.
Lemma release_held_bars now counted : within (bars now) (@release_held W _ config now counted).
Proof. unfold release_held, take_held_input. bar_steps. Qed.
#[local] Hint Resolve release_held_bars : bars.
Lemma write_all_bars now frames : within (bars now) (@write_all W _ frames).
Proof. induction frames as [|frame frames IH]; cbn [write_all]; bar_steps. Qed.
#[local] Hint Resolve write_all_bars : bars.
Lemma send_transfer_frame_bars now : within (bars now) (@send_transfer_frame W _ config now).
Proof. unfold send_transfer_frame. bar_steps. Qed.
#[local] Hint Resolve send_transfer_frame_bars : bars.
Lemma handle_remote_event_bars now event : within (bars now) (handle_remote_event config now event).
Proof.
  unfold handle_remote_event, handle_transfer, cancel_frame, apply_remote_text, apply_remote,
    prefer_newer_local_clipboard, local_clipboard_offer. bar_steps; intros s; by left.
Qed.
Lemma on_captured_bars now forwarding frame :
  within (bars now) (on_captured config now forwarding frame).
Proof.
  unfold on_captured, prepare_input, prepare_paste, raise_barrier, hold_frame.
  bar_steps; try (apply within_attempt; auto with bars).
Qed.

Lemma live_step_bars now ev : within (bars now) (live_step config now ev).
Proof.
  destruct ev; cbn [live_step].
  - apply on_captured_bars.
  - unfold on_loop_head. bar_steps.
  - unfold on_send_tick, cancel_expired_paste_barrier. bar_steps.
  - unfold on_clipboard_poll, poll_local_change. bar_steps. intros s. repeat case_match; by left.
  - unfold on_read_finished. bar_steps.
    induction a1 as [|frame frames IH]; bar_steps.
  - intros s. unfold on_delayed. repeat case_match; try (by left).
    etrans; [|apply (within_at (bars now)); bar_steps]. by left.
  - unfold on_clipboard_frame. bar_steps; first [by apply handle_remote_event_bars|intros s; by left].
  - intros s. unfold on_transfer_watchdog. destruct (_.2); [|by left].
    etrans; [|apply write_bars]. by left.
  - intros s. by left.
Qed.

(** While events happen, the barrier ends within five seconds of the last one. *)
Lemma live_run_bars last l : forall s s', Forall (fun x => x.1 <= last) l ->
  (forall d, paste_barrier_deadline (live s) = Some d -> d <= last + CLIPBOARD_PASTE_BARRIER_TIMEOUT) ->
  live_run config l s = (s', Ok tt) ->
  forall d, paste_barrier_deadline (live s') = Some d -> d <= last + CLIPBOARD_PASTE_BARRIER_TIMEOUT.
Proof.
  induction l as [|[now ev] l IH]; intros s s' Hl Hd E; cbn [live_run] in E; [by injection E as <-|].
  apply st_bind_Ok in E as (s1 & [] & E1 & E2). inversion_clear Hl as [|? ? Hn Hl'].
  apply (IH s1 s' Hl'); [|done]. intros d Ed.
  pose proof (live_step_bars now ev s) as Hb. rewrite E1 in Hb. cbn [fst] in *.
  destruct Hb as [Eb|[Eb|Eb]]; rewrite Eb in Ed; [by apply Hd|done|injection Ed as <-; lia].
Qed.
End Order.

(** *** A paste waits for its image *)

Section Paste.
Context {W : Type} `{WindowsClipboardApi W} `{Lib : ClipboardLibraries} `{FrameCodec}.
Context (config : AppConfig).

Definition is_end (event : ClipboardEvent) : bool :=
  match event with ImageEnd _ | TextEnd _ => true | _ => false end.
(** The events of a transfer that is not done: they end with its only end event. *)
Inductive ends_once : list ClipboardEvent -> Prop :=
| ends_now event : is_end event = true -> ends_once [event]
| ends_later event events : is_end event = false -> ends_once events -> ends_once (event :: events).

Lemma end_ends_once n o : ends_once (match end_event o with
                                     | (o', Some e) => e :: drain n o'
                                     | (_, None) => []
                                     end).
Proof.
  unfold end_event. assert (drain n (outgoing_at o (out_offset o) Stage_Done) = []) as ->
    by by destruct n.
  constructor. by destruct (out_payload o).
Qed.
Lemma chunks_end_once o n : forall off,
  0 <= off <= len (payload_bytes (out_payload o)) ->
  len (payload_bytes (out_payload o)) - off <= TRANSFER_CHUNK_BYTES * Z.of_nat n ->
  ends_once (drain (S n) (outgoing_at o off Stage_Chunks)).
Proof.
  induction n as [|n IH]; intros off Hoff Hn; rewrite drain_S; unfold next_event;
    cbn [outgoing_at out_stage out_offset out_payload]; unfold TRANSFER_CHUNK_BYTES in *;
    destruct (Z.leb_spec (len (payload_bytes (out_payload o))) off).
  - apply end_ends_once.
  - lia.
  - apply end_ends_once.
  - constructor; [by destruct (out_payload o)|].
    change (outgoing_at (outgoing_at o off Stage_Chunks) ?f Stage_Chunks)
      with (outgoing_at o f Stage_Chunks). apply IH; lia.
Qed.
Lemma image_ends_once id sequence image n :
  len (png image) <= TRANSFER_CHUNK_BYTES * Z.of_nat n ->
  ends_once (drain (2 + n) (outgoing_image id sequence image)).
Proof.
  intros Hn. change (2 + n)%nat with (S (S n)). rewrite drain_S. constructor; [done|].
  pose proof (len_nonneg (png image)).
  apply (chunks_end_once (outgoing_image id sequence image) n 0); cbn; lia.
Qed.

Abbreviation ticks ts := (map (fun t => (t, Ev_send_tick false : LiveEvent W)) ts).

(** Nothing left to send: a tick does nothing. *)
Lemma idle_ticks ts s : live_outgoing (live s) = None -> paste_barrier_deadline (live s) = None ->
  live_run config (ticks ts) s = (s, Ok tt).
Proof.
  intros Ho Hd. induction ts as [|t ts IH]; [done|]. cbn [map live_run live_step].
  unfold st_bind at 1. unfold on_send_tick, st_bind at 1, gets, needs_send_tick. by rewrite Ho, Hd.
Qed.

(** What the state of a transfer behind a barrier is made of. *)
Record sending (o : OutgoingClipboardTransfer) (deadline : Instant) (held : list Frame)
    (s : Live W) : Prop := {
  snd_connected : connected s = true;
  snd_outgoing : live_outgoing (live s) = Some o;
  snd_deadline : paste_barrier_deadline (live s) = Some deadline;
  snd_held : held_input (live s) = held;
}.

Lemma tick_sends o o' event t deadline held s : sending o deadline held s -> t < deadline ->
  Forall sendable held -> next_event o = (o', Some event) -> sendable (Frame_Clipboard event) ->
  exists s', on_send_tick config t false s = (s', Ok tt)
    /\ if is_end event
       then written s' = written s ++ Frame_Clipboard event :: held /\ held_input (live s') = []
            /\ live_outgoing (live s') = None /\ paste_barrier_deadline (live s') = None
       else written s' = written s ++ [Frame_Clipboard event] /\ sending o' deadline held s'.
Proof.
  intros [Hc Ho Hd Hh] Ht Hs Hn Hf. unfold on_send_tick, st_bind at 1, gets.
  unfold needs_send_tick, paste_barrier_expired. rewrite Ho, Hd. cbn [orb negb is_some_and].
  rewrite bool_decide_eq_true_2 by eauto. cbn [orb negb].
  rewrite (proj2 (Z.leb_gt _ _) Ht).
  unfold send_transfer_frame, next_image_frame, st_bind, gets, modify. rewrite Ho, Hn.
  cbn [fst snd]. fold (is_end event).
  destruct (is_end event); cbn -[release_held]; rewrite write_sendable by done;
    cbn -[release_held].
  - match goal with |- context [release_held _ _ _ ?s1] =>
      destruct (release_held_sends config true t s1) as (s2 & -> & E1 & E2 & E3 & E4 & E5 & _);
        [exact Hc|cbn; by rewrite Hh|] end.
    exists s2. split; [done|]. rewrite E1, E5. cbn. rewrite Hh, <- app_assoc. by split_and!.
  - eexists. split; [reflexivity|]. cbn. by split_and!.
Qed.

Lemma ticks_send deadline held : Forall sendable held -> forall events,
  ends_once events -> Forall (fun e => sendable (Frame_Clipboard e)) events ->
  forall o s ts, sending o deadline held s -> drain (length events) o = events ->
  (length events <= length ts)%nat -> Forall (fun t => t < deadline) ts ->
  exists s', live_run config (ticks ts) s = (s', Ok tt)
    /\ written s' = written s ++ map Frame_Clipboard events ++ held
    /\ held_input (live s') = [] /\ paste_barrier_deadline (live s') = None.
Proof.
  intros Hheld events He. induction He as [event He|event events He Hes IH];
    intros Hf o s ts Hs Hdr Hlen Ht; inversion_clear Hf as [|? ? Hfe Hfs];
    (destruct ts as [|t ts]; [cbn in Hlen; lia|]); inversion_clear Ht as [|? ? Ht1 Ht2];
    cbn [length] in Hdr; rewrite drain_S in Hdr; destruct (next_event o) as [o' [e|]] eqn:En;
    try done; assert (e = event) as -> by congruence;
    destruct (tick_sends o o' event t deadline held s Hs Ht1 Hheld En Hfe) as (s1 & E1 & Hs1);
    rewrite He in Hs1; cbn [map live_run live_step]; unfold st_bind at 1; rewrite E1.
  - destruct Hs1 as (Ew & Eh & Eo & Ed). rewrite idle_ticks by done. exists s1. by split_and!.
  - destruct Hs1 as (Ew & Hs1). cbn in Hlen.
    assert (drain (length events) o' = events) as Hdr' by congruence.
    destruct (IH Hfs o' s1 ts Hs1 Hdr' ltac:(lia) Ht2) as (s2 & E2 & Ew2 & Eh & Ed).
    exists s2. split_and!; try done. by rewrite Ew2, Ew, <- app_assoc.
Qed.
End Paste.

Lemma drain_length n : forall o, drain (length (drain n o)) o = drain n o.
Proof.
  induction n as [|n IH]; intros o; [done|]. rewrite drain_S.
  destruct (next_event o) as [o' [e|]] eqn:En; [|done].
  cbn [length]. by rewrite drain_S, En, IH.
Qed.

Lemma drain_at_most n : forall o, (length (drain n o) <= n)%nat.
Proof.
  induction n as [|n IH]; intros o; [done|]. rewrite drain_S.
  destruct (next_event o) as [o' [e|]]; cbn; [specialize (IH o')|]; lia.
Qed.

(** The frames that replace the transfer in progress, and the transfer of an image. *)
Definition replaced (st : LiveClipboardState) : list Frame :=
  match live_outgoing st with
  | Some transfer => [Frame_Clipboard (cancel_event transfer Replaced)]
  | None => []
  end.
Definition image_transfer (image : CanonicalImage) (st : LiveClipboardState) :
  OutgoingClipboardTransfer :=
  outgoing_image (Z.max (wrapping_add u64_max (live_next_transfer_id st) 1) 1)
    (saturating_add u64_max (tracker_sequence (live_tracker st)) 1) image.

Section Paste.
Context {W : Type} `{WindowsClipboardApi W} `{Lib : ClipboardLibraries} `{FrameCodec}.
Context (config : AppConfig).

(** An image is on the clipboard that the peer takes and was not sent. *)
Record image_copied (image : CanonicalImage) (s : Live W) : Prop := {
  copied_enabled : clip_enabled (cfg_clipboard config) = true;
  copied_images : images (live_peer (live s)) && images_enabled (cfg_clipboard config) = true;
  copied_read : read_clipboard_item (cfg_clipboard config) (station s)
                = Ok (Some (Item_Image image));
  copied_unsent : last_sent_image_id (live s) <> Some (Id_Image (image_sha256 image));
  copied_idle : outgoing_image_id (live s) <> Some (Id_Image (image_sha256 image));
}.

Lemma paste_starts_transfer now frame image s : settled s -> image_copied image s ->
  paste_barrier_deadline (live s) = None -> live_ctrl_down (live s) = true ->
  is_paste frame = true -> Forall sendable (replaced (live s)) ->
  exists s', on_captured config now true frame s = (s', Ok tt)
    /\ written s' = written s ++ replaced (live s)
    /\ sending (image_transfer image (live s)) (now + CLIPBOARD_PASTE_BARRIER_TIMEOUT) [frame] s'.
Proof.
  intros [Hc Hh Hs _] [He Hi Hr Hl Hid] Hd Hctrl Hp Hsend.
  unfold on_captured, prepare_input. unfold st_bind at 1 2, gets at 1.
  rewrite Hd, He, Hp, Hctrl. cbn [negb andb].
  rewrite bool_decide_eq_false_2 by (by intros []).
  unfold prepare_paste, attempt, read_item, st_bind at 1. rewrite Hr. cbn [fst snd map_err clip_result].
  unfold st_bind at 1, gets at 1. rewrite Hi. cbn [negb].
  unfold st_bind at 1, gets at 1. rewrite bool_decide_eq_false_2 by done.
  unfold st_bind at 1, gets at 1. rewrite bool_decide_eq_false_2 by done.
  set (send := send_input _ _ _).
  assert (exists s1, (prefixes <-! offer_item config (Some (Item_Image image)) true;;
                      do! raise_barrier now frame;; st_ret prefixes) s = (s1, Ok (replaced (live s)))
    /\ connected s1 = true /\ written s1 = written s
    /\ sending (image_transfer image (live s)) (now + CLIPBOARD_PASTE_BARRIER_TIMEOUT) [frame] s1) as (s1 & E1 & Hc1 & Hw1 & Hs1).
  { unfold offer_item, replaced, st_bind, gets, modify. cbn -[image_transfer]. rewrite Hi.
    unfold replace_outgoing, st_bind, gets, modify. cbn -[image_transfer].
    destruct (live_outgoing (live s)) as [a|];
      (eexists; split; [reflexivity|]); cbn; rewrite (Hh Hd); by split_and!. }
  unfold st_bind in E1 |- *. rewrite E1. subst send.
  destruct (send_input_sends config true now (replaced (live s)) s1) as [Hsent Hex].
  destruct (Hex Hc1 Hsend) as [s2 E2]. exists s2.
  destruct (Hsent s2 E2) as (F1 & F2 & F3 & F4 & F5 & _), Hs1 as [_ G1 G2 G3].
  rewrite F1, Hw1. split_and!; try done. split; congruence.
Qed.
End Paste.

(** *** Theorems *)

(** C16. The barrier that holds a paste keeps the order of the input: whatever happens in between -
    transfers, their cancellation and their end, offers of the peer, time running out, failing
    reads of the clipboard - the key, button and wheel events, releases and control events written
    to the peer, followed by those still held, are those the capture delivered, in order; motion of
    the pointer alone may overtake them.  And input is held only while a barrier is up. *)
Theorem input_keeps_its_order {W} `{WindowsClipboardApi W} `{ClipboardLibraries} `{FrameCodec}
    (config : AppConfig) (l : list (Instant * LiveEvent W)) (s s' : Live W) :
  settled s -> Forall sendable (captured l) -> live_run config l s = (s', Ok tt) ->
  List.filter ordered (written s' ++ held_input (live s'))
  = List.filter ordered (written s ++ held_input (live s) ++ captured l)
  /\ (paste_barrier_deadline (live s') = None -> held_input (live s') = []).
Proof.
  intros Hs Hf E. destruct (live_run_line config l s s' Hs Hf E) as [Hs' El].
  split; [|apply Hs']. by rewrite <- line_app.
Qed.

(** Held input leaves in time: whatever happened, at any tick five seconds after the last event
    everything that is held is written, in order, and the barrier is gone. *)
Theorem held_input_leaves_in_time {W} `{WindowsClipboardApi W} `{ClipboardLibraries} `{FrameCodec}
    (config : AppConfig) (l : list (Instant * LiveEvent W)) (last t : Instant) (s s' : Live W) :
  settled s -> paste_barrier_deadline (live s) = None -> Forall sendable (captured l) ->
  (forall id, sendable (Frame_Clipboard (ImageCancel id TimedOut))) ->
  live_run config l s = (s', Ok tt) -> Forall (fun x => x.1 <= last) l ->
  last + CLIPBOARD_PASTE_BARRIER_TIMEOUT <= t -> held_input (live s') <> [] ->
  exists s'' cancel, on_send_tick config t false s' = (s'', Ok tt)
    /\ written s'' = written s' ++ cancel ++ held_input (live s')
    /\ List.filter ordered cancel = []
    /\ held_input (live s'') = [] /\ paste_barrier_deadline (live s'') = None.
Proof.
  intros Hs Hd Hf Hcancel E Hl Ht Hne.
  destruct (live_run_line config l s s' Hs Hf E) as [[Hc Hh Hsend Hdel] _].
  destruct (paste_barrier_deadline (live s')) as [d|] eqn:Ed; [|by destruct Hne; auto].
  assert (d <= last + CLIPBOARD_PASTE_BARRIER_TIMEOUT) as Hdl.
  { eapply (live_run_bars config last l s s' Hl); [by rewrite Hd|done|done]. }
  unfold on_send_tick, st_bind at 1, gets, needs_send_tick, paste_barrier_expired. rewrite Ed.
  rewrite (bool_decide_eq_true_2 (is_Some (Some d))) by eauto. rewrite orb_true_r.
  cbn [orb negb is_some_and]. rewrite (proj2 (Z.leb_le d t)) by lia.
  set (cancel := match live_outgoing (live s') with
                 | Some a => [Frame_Clipboard (cancel_event a TimedOut)] | None => [] end).
  assert (exists s1, (match (fun a => Frame_Clipboard (cancel_event a TimedOut)) <$> live_outgoing (live s') with
                      | Some cancel => write_secure_frame_writer cancel | None => st_ret tt end)
                     (with_live (set_live_outgoing None (set_outgoing_image_id None
                        (set_paste_barrier_deadline None (live s')))) s') = (s1, Ok tt)
    /\ connected s1 = true /\ written s1 = written s' ++ cancel
    /\ held_input (live s1) = held_input (live s')) as (s1 & E1 & Hc1 & Hw1 & Hh1).
  { subst cancel. destruct (live_outgoing (live s')) as [o|].
    - eexists. split; [apply write_sendable; [exact Hc|apply Hcancel]|]. by split_and!.
    - eexists. split; [reflexivity|]. rewrite app_nil_r. by split_and!. }
  unfold st_bind at 1.
  match type of E1 with _ ?s0 = _ =>
    assert (cancel_expired_paste_barrier s' = (s0, Ok ((fun a =>
      Frame_Clipboard (cancel_event a TimedOut)) <$> live_outgoing (live s')))) as -> by reflexivity end.
  unfold st_bind at 1. rewrite E1.
  destruct (release_held_sends config true t s1) as (s2 & E2 & F1 & F2 & F3 & _);
    [done|by rewrite Hh1|].
  exists s2, cancel. rewrite E2, F1, Hw1, Hh1, <- app_assoc. split_and!; try done.
  subst cancel. by destruct (live_outgoing (live s')).
Qed.

(** A paste waits for what it pastes: an image the peer has not got is sent first, whole, after the
    cancellation of the transfer before it, and the paste after it; the ticks before the barrier
    would end are enough if they are two more than the chunks of the image. *)
Theorem paste_waits_for_its_image {W} `{WindowsClipboardApi W} `{ClipboardLibraries} `{FrameCodec}
    (config : AppConfig) (now : Instant) (frame : Frame) (image : CanonicalImage)
    (ts : list Instant) (chunks : nat) (s : Live W) :
  let events := drain (2 + chunks) (image_transfer image (live s)) in
  settled s -> image_copied config image s -> paste_barrier_deadline (live s) = None ->
  live_ctrl_down (live s) = true -> is_paste frame = true ->
  len (png image) <= TRANSFER_CHUNK_BYTES * Z.of_nat chunks ->
  Forall sendable (frame :: replaced (live s) ++ map Frame_Clipboard events) ->
  (2 + chunks <= length ts)%nat ->
  Forall (fun t => t < now + CLIPBOARD_PASTE_BARRIER_TIMEOUT) ts ->
  exists s', live_run config ((now, Ev_captured true frame)
                              :: map (fun t => (t, Ev_send_tick false)) ts) s = (s', Ok tt)
    /\ written s' = written s ++ replaced (live s) ++ map Frame_Clipboard events ++ [frame]
    /\ held_input (live s') = [] /\ paste_barrier_deadline (live s') = None.
Proof.
  intros events Hs Hi Hd Hctrl Hp Hlen Hsend Hts Htime.
  assert (ends_once events) as Hends by by apply image_ends_once.
  assert (drain (length events) (image_transfer image (live s)) = events) as Hdrain
    by apply drain_length.
  assert (length events <= 2 + chunks)%nat as Hmost by apply drain_at_most. clearbody events.
  inversion_clear Hsend as [|? ? Hf Hsend']. apply Forall_app in Hsend' as [Hrep Hev].
  rewrite List.Forall_map in Hev.
  destruct (paste_starts_transfer config now frame image s Hs Hi Hd Hctrl Hp Hrep)
    as (s1 & E1 & Hw1 & Hsending).
  destruct (ticks_send config _ [frame] ltac:(by repeat constructor) events Hends Hev
              (image_transfer image (live s)) s1 ts Hsending Hdrain ltac:(lia) Htime)
    as (s2 & E2 & Hw2 & Hh2 & Hd2).
  exists s2. cbn [live_run live_step]. unfold st_bind at 1. rewrite E1. split_and!; try done.
  by rewrite Hw2, Hw1, <- app_assoc.
Qed.

(** Text survives Windows' clipboard: what is written as UTF-16 is read back, if it has no NUL, at
    which Windows ends a text, and whatever follows the text in its block. *)
Theorem windows_text_round_trip {W} `{WindowsClipboardLaws W} (text : string) (max_bytes : Z)
    (w w' : W) :
  utf8_valid (str_bytes text) = true -> Forall (fun b => b <> 0) (str_bytes text) ->
  write_text text max_bytes w = (w', Ok tt) -> open_clipboard ATTEMPTS 0 w' = Ok tt ->
  read_text max_bytes w' = Ok (Some text).
Proof.
  intros Hv Hz Hw Ho. unfold read_text. rewrite Ho.
  unfold write_text in Hw. destruct (max_bytes <? str_len text) eqn:Hmax; [done|].
  destruct (open_clipboard ATTEMPTS 0 w); [|done].
  destruct (EmptyClipboard w) as [w1 [?|?]]; [|done].
  destruct (SetClipboardData_text _ w1) as [w2 [[]|[? ?]]] eqn:Es; [|done]. injection Hw as <-.
  destruct (set_text_get _ _ _ Es) as [padding ->].
  rewrite <- app_assoc, until_zero_app by (by apply (words_nonzero _ _ (Nat.le_refl _))).
  cbn [app until_zero Z.eqb]. by rewrite app_nil_r, from_utf16_encode, Hmax.
Qed.

(** *** A copy that was not offered yet is kept *)

Section Unseen.
Context {W : Type} `{WindowsClipboardApi W} `{Lib : ClipboardLibraries} `{FrameCodec}.
Context (config : AppConfig).

Definition same_station (s s' : Live W) : Prop := station s' = station s.
#[export] Instance same_station_preorder : PreOrder same_station.
Proof. split; [done|]. intros ??? H1 H2. unfold same_station in *. congruence. Qed.

Create HintDb station.
Lemma gets_station {A} (f : Live W -> A) : within same_station (gets f).
Proof. by intros s. Qed.
Lemma modify_station f : within same_station (@modify W f).
Proof. by intros s. Qed.
Lemma write_station frame : within same_station (@write_secure_frame_writer W _ frame).
Proof. intros s. by destruct (write_frame_outcome frame s) as [->|[e ->]]. Qed.
Lemma after_input_station now frame : within same_station (@after_input_sent W config now frame).
Proof. intros s. unfold after_input_sent. repeat case_match; done. Qed.
Lemma record_frame_station frame : within same_station (@record_frame W frame).
Proof. by intros s. Qed.
Lemma read_item_station : within same_station (read_item config).
Proof. by intros s. Qed.
Lemma receive_incoming_station now event : within same_station (receive_incoming config now event).
Proof. by intros s. Qed.
#[local] Hint Resolve gets_station modify_station write_station after_input_station
  record_frame_station read_item_station receive_incoming_station : station.
Ltac station_steps := repeat within_step; auto with station.

Lemma send_input_station now counted frames :
  within same_station (@send_input W _ config now counted frames).
Proof. induction frames as [|frame frames IH]; cbn [send_input]; station_steps. Qed.
Lemma write_all_station frames : within same_station (@write_all W _ frames).
Proof. induction frames as [|frame frames IH]; cbn [write_all]; station_steps. Qed.
#[local] Hint Resolve send_input_station write_all_station : station.
Lemma push_text_station sequence text id : within same_station (push_text_offer sequence text id).
Proof. unfold push_text_offer, replace_outgoing, next_transfer_id. station_steps. Qed.
#[local] Hint Resolve push_text_station : station.
Lemma offer_item_station current force : within same_station (offer_item config current force).
Proof. unfold offer_item, replace_outgoing, next_transfer_id. station_steps. Qed.
#[local] Hint Resolve offer_item_station : station.

(** The clipboard holds an item the session has not seen. *)
Definition unseen (item : ClipboardItem) (s : Live W) : Prop :=
  read_clipboard_item (cfg_clipboard config) (station s) = Ok (Some item)
  /\ is_observed (live_tracker (live s)) (Some (item_id item)) = false.

Lemma live_apply_unseen id write item s : unseen item s ->
  same_station s (apply_remote config id write s).1.
Proof.
  intros [Hr Ho]. unfold apply_remote, prefer_newer_local_clipboard, read_item.
  unfold st_bind at 1 2. rewrite Hr. cbn [map_err clip_result fmap option_fmap option_map].
  case_bool_decide; [done|]. unfold st_bind at 1, gets. rewrite Ho.
  rewrite bool_decide_eq_true_2 by eauto. cbn [andb negb].
  unfold st_bind. pose proof (offer_item_station (Some item) true s) as Hs.
  destruct (offer_item config (Some item) true s) as [s1 [frames|e]]; [|done].
  pose proof (write_all_station frames s1) as Hs1.
  destruct (write_all frames s1) as [s2 [[]|e]]; (etrans; [exact Hs|exact Hs1]).
Qed.

Lemma live_transfer_unseen now event item s : unseen item s ->
  same_station s (handle_transfer config now event s).1.
Proof.
  intros Hu. unfold handle_transfer. unfold st_bind at 1, gets at 1.
  destruct (_ && _).
  { apply (within_at same_station). unfold release_held, take_held_input. station_steps. }
  unfold st_bind at 1, gets at 1. destruct (negb _).
  { apply (within_at same_station). unfold cancel_frame. station_steps. }
  unfold st_bind at 1.
  destruct (receive_incoming config now event s) as [s1 [[[[text|image]|]|error]|e]] eqn:E;
    injection E as <- Er; try done.
  - unfold apply_remote_text. etrans; [|by eapply live_apply_unseen]. done.
  - etrans; [|by eapply live_apply_unseen]. done.
  - etrans; [|apply (within_at same_station); unfold cancel_frame; station_steps]. done.
Qed.
End Unseen.

(** A copy the user just made is never overwritten: while the clipboard holds an item the session
    has not seen, no event of the peer changes Windows' clipboard. *)
Theorem windows_copy_is_kept {W} `{WindowsClipboardApi W} `{ClipboardLibraries} `{FrameCodec}
    (config : AppConfig) (now : Instant) (event : ClipboardEvent) (s : Live W) (item : ClipboardItem) :
  read_clipboard_item (cfg_clipboard config) (station s) = Ok (Some item) ->
  is_observed (live_tracker (live s)) (Some (item_id item)) = false ->
  station (on_clipboard_frame config now false event s).1 = station s.
Proof.
  intros Hr Ho. assert (same_station s (handle_remote_event config now event s).1) as Hs.
  { unfold handle_remote_event. destruct (negb _); [done|].
    destruct event; try by (apply (live_transfer_unseen _ _ _ item)).
    - by apply (live_apply_unseen _ _ _ item).
    - unfold st_bind at 1. destruct (clip_result _) as [[text|]|e]; [|done..].
      apply (within_at same_station). repeat within_step;
        auto using push_text_station, write_all_station, modify_station, gets_station.
    - apply (within_at same_station). unfold local_clipboard_offer. repeat within_step;
        auto using read_item_station, offer_item_station, write_all_station. }
  unfold on_clipboard_frame, st_bind, attempt.
  by destruct (handle_remote_event config now event s) as [s1 [[]|e]].
Qed.

(** *** Concrete sessions *)

Module SamplePaste.
Record Station := { st_text : option (list Z); st_image : option (Z * Z * bytes); st_sequence : Z }.
#[export] Instance station_api : WindowsClipboardApi Station := {
  OpenClipboard _ _ := Ok tt;
  GetClipboardData_text w := Ok <$> st_text w;
  GetClipboardData_drop _ := None;
  EmptyClipboard w := ({| st_text := None; st_image := None; st_sequence := st_sequence w + 1 |}, Ok tt);
  SetClipboardData_text words w :=
    ({| st_text := Some words; st_image := None; st_sequence := st_sequence w + 1 |}, Ok tt);
  GetClipboardSequenceNumber w := st_sequence w;
  arboard_new _ _ := Ok tt;
  arboard_get_image _ w := match st_image w with Some i => Ok i | None => Err ContentNotAvailable end;
  arboard_set_image _ image w :=
    ({| st_text := None; st_image := Some (width image, height image, rgba image);
        st_sequence := st_sequence w + 1 |}, Ok tt);
  open_file _ _ := Err "not found"%string;
}.
#[export] Instance station_laws : WindowsClipboardLaws Station.
Proof. split. intros words w w' [= <-]. exists []. cbn. by rewrite app_nil_r. Qed.
#[export] Instance paste_codec : FrameCodec := {
  encode_frame f := match f with
                    | Frame_Clipboard (TextOffer _ text) => Ok (str_bytes text)
                    | _ => Ok []
                    end;
  decode_frame b := Err "unused"%string;
}.
#[export] Instance paste_libraries : ClipboardLibraries := sample_libraries.

Definition text_station (text : string) (n : Z) : Station :=
  {| st_text := Some (encode_utf16 text ++ [0]); st_image := None; st_sequence := n |}.
Definition image_station (n : Z) : Station :=
  {| st_text := None; st_image := Some (1, 1, [1; 2; 3; 4]); st_sequence := n |}.
Definition paste_config : AppConfig := controller_default.

(** A session that starts with [w] on the clipboard. *)
Definition start_live (w : Station) : Live Station :=
  {| live := LiveClipboardState_new paste_config {| images := true; text_chunks := true |} w;
     station := w; written := []; schedule := ImageTransferSchedule_default; connected := true;
     delayed := []; stats := ControllerInputStats_default; tray_clipboard_events := 0 |}.
Lemma start_settled w : settled (start_live w).
Proof. by split. Qed.

Definition press (code : Z) : Frame := Frame_input 1 (Key code true).
Definition lift (code : Z) : Frame := Frame_input 1 (Key code false).
Definition key (t : Instant) (frame : Frame) : Instant * LiveEvent Station :=
  (t, Ev_captured true frame).
Definition tick (t : Instant) : Instant * LiveEvent Station := (t, Ev_send_tick false).
(** Another program copies, and the session reads it. *)
Definition copy (w : Station) : list (Instant * LiveEvent Station) :=
  [(0, Ev_station w); (0, Ev_poll false);
   (0, Ev_read_finished false (read_clipboard_item (cfg_clipboard paste_config) w))].

Definition outcome (l : list (Instant * LiveEvent Station)) (s : Live Station) : Live Station :=
  fst (live_run paste_config l s).
End SamplePaste.
Import SamplePaste.

(** Ctrl+V over an image: the keys after the paste wait behind the transfer. *)
Definition paste_keys : list (Instant * LiveEvent Station) :=
  [key 0 (press KEY_LEFTCTRL); key 1 (press KEY_V); key 2 (lift KEY_V); key 3 (lift KEY_LEFTCTRL)].
Definition paste_ticks : list (Instant * LiveEvent Station) := [tick 4; tick 5; tick 6].

Example input_keeps_its_order_witness :
  let s' := outcome (paste_keys ++ paste_ticks) (start_live (image_station 1)) in
  held_input (live s') = []
  /\ List.filter ordered (written s' ++ held_input (live s'))
     = [press KEY_LEFTCTRL; press KEY_V; lift KEY_V; lift KEY_LEFTCTRL].
Proof.
  split; [vm_compute; reflexivity|].
  apply (input_keeps_its_order paste_config (paste_keys ++ paste_ticks)
           (start_live (image_station 1)) _).
  - apply start_settled.
  - repeat constructor.
  - vm_compute. reflexivity.
Defined.

Example held_input_leaves_in_time_witness :
  let s' := outcome paste_keys (start_live (image_station 1)) in
  exists s'' cancel, on_send_tick paste_config (3 + from_secs 5) false s' = (s'', Ok tt)
    /\ written s'' = written s' ++ cancel ++ [press KEY_V; lift KEY_V; lift KEY_LEFTCTRL]
    /\ List.filter ordered cancel = []
    /\ held_input (live s'') = [] /\ paste_barrier_deadline (live s'') = None.
Proof.
  cbv zeta. assert (held_input (live (outcome paste_keys (start_live (image_station 1))))
                    = [press KEY_V; lift KEY_V; lift KEY_LEFTCTRL]) as <- by (vm_compute; reflexivity).
  apply (held_input_leaves_in_time paste_config paste_keys 3 (3 + from_secs 5)
           (start_live (image_station 1)) _).
  - apply start_settled.
  - reflexivity.
  - repeat constructor.
  - reflexivity.
  - vm_compute. reflexivity.
  - repeat constructor; cbn; lia.
  - reflexivity.
  - vm_compute. discriminate.
Defined.

Example paste_waits_for_its_image_witness :
  let s := outcome (copy (image_station 2) ++ [tick 0; (0, Ev_station (text_station "x" 3));
                    key 0 (press KEY_LEFTCTRL); (0, Ev_station
                      {| st_text := None; st_image := Some (1, 1, [5; 6; 7; 8]); st_sequence := 4 |})])
             (start_live (text_station "old" 1)) in
  exists s' image, live_run paste_config
      (key 1 (press KEY_V) :: map (fun t => (t, Ev_send_tick false)) [2; 3; 4]) s = (s', Ok tt)
    /\ written s' = written s ++ replaced (live s)
         ++ map Frame_Clipboard (drain 3 (image_transfer image (live s))) ++ [press KEY_V]
    /\ held_input (live s') = [] /\ paste_barrier_deadline (live s') = None.
Proof.
  set (s := outcome _ _). cbv zeta.
  destruct (CanonicalImage_from_rgba 1 1 [5; 6; 7; 8] (clip_max_image_bytes (cfg_clipboard paste_config)))
    as [image|e] eqn:Ei; [|vm_compute in Ei; discriminate].
  assert (exists s', live_run paste_config
      (key 1 (press KEY_V) :: map (fun t => (t, Ev_send_tick false)) [2; 3; 4]) s = (s', Ok tt)
    /\ written s' = written s ++ replaced (live s)
         ++ map Frame_Clipboard (drain 3 (image_transfer image (live s))) ++ [press KEY_V]
    /\ held_input (live s') = [] /\ paste_barrier_deadline (live s') = None) as [s' Hs'];
    [|by exists s', image].
  vm_compute in Ei. injection Ei as <-.
  apply (paste_waits_for_its_image paste_config 1 (press KEY_V) _ [2; 3; 4] 1 s).
  - split; [reflexivity|vm_compute; done|vm_compute; repeat constructor|vm_compute; repeat constructor].
  - split; vm_compute; (reflexivity || discriminate).
  - vm_compute. reflexivity.
  - vm_compute. reflexivity.
  - vm_compute. reflexivity.
  - vm_compute. discriminate.
  - vm_compute. repeat constructor.
  - repeat constructor.
  - repeat constructor; vm_compute; reflexivity.
Defined.

Example windows_text_round_trip_witness :
  exists w', write_text "caf€" 100 (text_station "old" 1) = (w', Ok tt)
    /\ read_text 100 w' = Ok (Some "caf€"%string).
Proof.
  eexists. split; [vm_compute; reflexivity|].
  apply (windows_text_round_trip "caf€" 100 (text_station "old" 1) _).
  - reflexivity.
  - repeat constructor; discriminate.
  - vm_compute. reflexivity.
  - reflexivity.
Defined.

Example windows_copy_is_kept_witness :
  let s := outcome [(0, Ev_station (text_station "mine" 2))] (start_live (text_station "old" 1)) in
  station (on_clipboard_frame paste_config 0 false (TextOffer 1 "theirs") s).1
  = text_station "mine" 2.
Proof.
  cbv zeta. set (s := outcome _ _). change (text_station "mine" 2) with (station s).
  apply (windows_copy_is_kept paste_config 0 (TextOffer 1 "theirs") s (Item_Text "mine")).
  - vm_compute. reflexivity.
  - vm_compute. reflexivity.
Defined.

(** *** Two defects of the barrier *)

(** An image that was sent once is taken for sent for ever: after another copy was offered, copying
    the image again and pasting it at once writes the paste, while the peer still has the other
    copy. *)
Theorem recopied_image_is_pasted_stale :
  let s := outcome ([key 0 (press KEY_LEFTCTRL); key 1 (press KEY_V)] ++ paste_ticks
                    ++ copy (text_station "x" 2) ++ [(9, Ev_station (image_station 3));
                                                     key 10 (press KEY_V)])
             (start_live (image_station 1)) in
  (exists image, read_clipboard_item (cfg_clipboard paste_config) (station s)
                 = Ok (Some (Item_Image image)))
  /\ drop 5 (written s) = [Frame_Clipboard (TextOffer 2 "x"); press KEY_V]
  /\ live_outgoing (live s) = None.
Proof.
  cbv zeta. split; [eexists; vm_compute; reflexivity|]. split; vm_compute; reflexivity.
Qed.

(** A transfer the peer cancelled is taken for one in progress: the next paste of the same image
    is held behind a barrier that nothing but its five seconds lifts, and the image is not sent. *)
Theorem cancelled_image_is_not_sent :
  let s := outcome [key 0 (press KEY_LEFTCTRL); key 1 (press KEY_V); tick 2;
                    (3, Ev_frame false (ImageCancel 1 Cancel_Rejected)); key 4 (press KEY_V)]
             (start_live (image_station 1)) in
  held_input (live s) = [press KEY_V] /\ live_outgoing (live s) = None
  /\ (forall t, t < 4 + from_secs 5 -> on_send_tick paste_config t false s = (s, Ok tt))
  /\ exists s', on_send_tick paste_config (4 + from_secs 5) false s = (s', Ok tt)
       /\ written s' = written s ++ [press KEY_V].
Proof.
  cbv zeta. split; [vm_compute; reflexivity|]. split; [vm_compute; reflexivity|]. split.
  - intros t Ht. set (s := outcome _ _).
    assert (paste_barrier_deadline (live s) = Some (4 + from_secs 5)) as Hd by (vm_compute; reflexivity).
    assert (live_outgoing (live s) = None) as Ho by (vm_compute; reflexivity).
    unfold on_send_tick, st_bind at 1, gets, needs_send_tick, paste_barrier_expired.
    rewrite Hd, Ho. cbn [is_some_and]. rewrite (proj2 (Z.leb_gt _ _) Ht).
    rewrite (bool_decide_eq_true_2 (is_Some (Some _))) by eauto. rewrite orb_true_r. cbn [negb orb].
    unfold send_transfer_frame, next_image_frame, st_bind, gets. by rewrite Ho.
  - eexists. split; vm_compute; reflexivity.
Qed.
