(* ===== verification/WindowsTray.v ===== *)
(** * The Windows tray: [mod tray] of crates/edge-windows-input/src/lib.rs

    What the tray remembers, which the statics of the module hold, the updates the application
    makes, the menu and the commands its rows send.  The window, the menu and the icon themselves
    are Win32's; a menu is the rows that are appended to it. *)
From S2P Require Export Utf16.
#[local] Open Scope string_scope.
#[local] Open Scope Z_scope.

(** ** Data *)

(** [edge-windows-input 70-75 WindowsAudioChoice] *)
Inductive WindowsAudioChoice := Choice_Off | Choice_Local | Choice_Peer.
(** [edge-windows-input 77-81 WindowsControllerChoice] *)
Inductive WindowsControllerChoice := Controller_Local | Controller_Peer.
(** [edge-windows-input 57-68 WindowsTrayCommand] *)
Inductive WindowsTrayCommand :=
| Tray_OpenSettings | Tray_Pair | Tray_ReleaseControl | Tray_Disconnect | Tray_Reconnect
| Tray_ToggleInputForwarding | Tray_SetAudio (choice : WindowsAudioChoice)
| Tray_SetController (choice : WindowsControllerChoice) | Tray_Quit.

(** [edge-windows-input 2599-2606 TrayContext]; its transport and input backend are only logged. *)
Record TrayContext := { local_device_name : string; peer_device_name : string; last_error : string }.
(** [edge-windows-input 2620-2627 TrayRole] *)
Record TrayRole := {
  role_local_name : string; role_peer_name : string; role_local_is_controller : bool;
  role_available : bool; role_switching : bool;
}.
(** [edge-windows-input 2630-2638 TrayRole::new] *)
Definition TrayRole_new : TrayRole :=
  {| role_local_name := ""; role_peer_name := ""; role_local_is_controller := true;
     role_available := false; role_switching := false |}.

(** The statics of the module, the status texts as their words; [TRAY_HWND] by whether the icon
    is there. *)
Record TrayStatics := {
  TRAY_STATUS : list Z;
  TRAY_AUDIO_STATUS : list Z;
  TRAY_ICON : bool;
  TRAY_CONNECTED : bool;
  TRAY_AUDIO_CHOICE : Z;
  TRAY_AUDIO_LOCAL_AVAILABLE : bool;
  TRAY_AUDIO_PEER_AVAILABLE : bool;
  TRAY_INPUT_FORWARDING_ENABLED : bool;
  TRAY_CONNECTIONS : Z;
  TRAY_INJECTED_INPUT_EVENTS : Z;
  TRAY_ROUND_TRIP_MS : Z;
  TRAY_ROLE : TrayRole;
  TRAY_CONTEXT : TrayContext;
}.
Definition set_TRAY_STATUS : list Z -> TrayStatics -> TrayStatics :=
  ltac:(field_setter TRAY_STATUS).
Definition set_TRAY_AUDIO_STATUS : list Z -> TrayStatics -> TrayStatics :=
  ltac:(field_setter TRAY_AUDIO_STATUS).
Definition set_TRAY_ICON : bool -> TrayStatics -> TrayStatics := ltac:(field_setter TRAY_ICON).
Definition set_TRAY_CONNECTED : bool -> TrayStatics -> TrayStatics :=
  ltac:(field_setter TRAY_CONNECTED).
Definition set_TRAY_AUDIO_CHOICE : Z -> TrayStatics -> TrayStatics :=
  ltac:(field_setter TRAY_AUDIO_CHOICE).
Definition set_TRAY_AUDIO_LOCAL_AVAILABLE : bool -> TrayStatics -> TrayStatics :=
  ltac:(field_setter TRAY_AUDIO_LOCAL_AVAILABLE).
Definition set_TRAY_AUDIO_PEER_AVAILABLE : bool -> TrayStatics -> TrayStatics :=
  ltac:(field_setter TRAY_AUDIO_PEER_AVAILABLE).
Definition set_TRAY_INPUT_FORWARDING_ENABLED : bool -> TrayStatics -> TrayStatics :=
  ltac:(field_setter TRAY_INPUT_FORWARDING_ENABLED).
Definition set_TRAY_CONNECTIONS : Z -> TrayStatics -> TrayStatics :=
  ltac:(field_setter TRAY_CONNECTIONS).
Definition set_TRAY_INJECTED_INPUT_EVENTS : Z -> TrayStatics -> TrayStatics :=
  ltac:(field_setter TRAY_INJECTED_INPUT_EVENTS).
Definition set_TRAY_ROUND_TRIP_MS : Z -> TrayStatics -> TrayStatics :=
  ltac:(field_setter TRAY_ROUND_TRIP_MS).
Definition set_TRAY_ROLE : TrayRole -> TrayStatics -> TrayStatics := ltac:(field_setter TRAY_ROLE).
Definition set_TRAY_CONTEXT : TrayContext -> TrayStatics -> TrayStatics :=
  ltac:(field_setter TRAY_CONTEXT).

(** ** Texts *)

(** [edge-windows-input 3170-3172 to_wide] *)
Definition to_wide (value : string) : list Z := (encode_utf16 value ++ [0])%list.
(** [edge-windows-input 3091-3097 wide_to_string] *)
Definition wide_to_string (value : list Z) : string := from_utf16_lossy (until_zero value).

(** The tip of the icon, in its [szTip] of [size] words: as much of the text as leaves room for
    the zero; the words after that are the buffer's.
    [edge-windows-input 3159-3168 copy_wide] *)
Definition copy_wide (prefix status : string) (target : list Z) : list Z :=
  let wide := to_wide (prefix ++ ": " ++ status) in
  let count := Z.min (saturating_sub (len wide) 1) (saturating_sub (len target) 1) in
  (take (Z.to_nat count) wide ++ 0 :: drop (Z.to_nat (count + 1)) target)%list.

(** [edge-windows-input 3136-3148 status_summary] *)
Definition status_summary (status : string) : string :=
  if starts_with "Connected" status then "Connected"
  else if starts_with "Pairing" status then "Pairing"
  else if starts_with "Connecting" status then "Connecting"
  else if starts_with "Disconnected" status then "Disconnected"
  else status.

(** [edge-windows-input 3099-3120 menu_summary] *)
Definition menu_summary (status : string) (connected : bool) (peer_name : string)
    (local_is_controller : bool) (round_trip_ms : option Z) : string :=
  if negb connected then status_summary status
  else
    let summary := if local_is_controller then "Controlling " ++ peer_name
                   else peer_name ++ " is controlling this computer" in
    match round_trip_ms with
    | Some ms => if ms =? 0 then summary ++ " · <1 ms"
                 else summary ++ " · " ++ print_dec ms ++ " ms"
    | None => summary
    end.

(** [edge-windows-input 3174-3179 IconColor] *)
Inductive IconColor := Icon_Connecting | Icon_Connected | Icon_Disconnected.
(** [edge-windows-input 3181-3189 icon_color] *)
Definition icon_color (status : string) : IconColor :=
  if starts_with "Connected" status then Icon_Connected
  else if starts_with "Disconnected" status then Icon_Disconnected
  else Icon_Connecting.

(** ** Updates *)

(** What a status leaves as the last error.
    [edge-windows-input 3037-3047 set_tray_status] *)
Definition error_after (connected : bool) (status last : string) : string :=
  if connected || str_eqb status "Connecting" || starts_with "Pairing" status
     || str_eqb status "Disconnected by user" then ""
  else if str_eqb status "Disconnected" then "Connection lost"
  else if str_eqb status "Starting" || str_eqb status "Listening" then last
  else status.
(** [edge-windows-input 3030-3051 set_tray_status] *)
Definition set_tray_status (status : string) (t : TrayStatics) : TrayStatics :=
  let connected := starts_with "Connected" status in
  let was_connected := TRAY_CONNECTED t in
  let t := set_TRAY_CONNECTED connected t in
  let t := if connected && negb was_connected
           then set_TRAY_CONNECTIONS (wrapping_add u64_max (TRAY_CONNECTIONS t) 1) t else t in
  let context := TRAY_CONTEXT t in
  let t := set_TRAY_CONTEXT {| local_device_name := local_device_name context;
                               peer_device_name := peer_device_name context;
                               last_error := error_after connected status (last_error context) |} t in
  set_TRAY_STATUS (to_wide status) t.

(** [edge-windows-input 3053-3068 set_tray_context] *)
Definition set_tray_context (local peer : string) (t : TrayStatics) : TrayStatics :=
  let t := set_TRAY_CONTEXT {| local_device_name := local; peer_device_name := peer;
                               last_error := last_error (TRAY_CONTEXT t) |} t in
  let role := TRAY_ROLE t in
  set_TRAY_ROLE {| role_local_name := if str_is_empty (role_local_name role) then local
                                      else role_local_name role;
                   role_peer_name := if str_is_empty (role_peer_name role) then peer
                                     else role_peer_name role;
                   role_local_is_controller := role_local_is_controller role;
                   role_available := role_available role;
                   role_switching := role_switching role |} t.

(** [shown] is whether Shell_NotifyIconW accepts the change.
    [edge-windows-input 2704-2711 update_status] *)
Definition update_status (shown : bool) (status : string) (t : TrayStatics) : TrayStatics * bool :=
  let t := set_tray_status status t in
  if negb (TRAY_ICON t) then (t, true) else (t, shown).

(** [edge-windows-input 2713-2720 update_audio] *)
Definition update_audio (status : string) (t : TrayStatics) : TrayStatics :=
  set_TRAY_AUDIO_STATUS (to_wide status) t.
Definition choice_number (choice : WindowsAudioChoice) : Z :=
  match choice with Choice_Off => 0 | Choice_Local => 1 | Choice_Peer => 2 end.
(** [edge-windows-input 2722-2741 update_audio_route] *)
Definition update_audio_route (choice : WindowsAudioChoice) (local_available peer_available : bool)
    (status : string) (t : TrayStatics) : TrayStatics :=
  let t := set_TRAY_AUDIO_CHOICE (choice_number choice) t in
  let t := set_TRAY_AUDIO_LOCAL_AVAILABLE local_available t in
  let t := set_TRAY_AUDIO_PEER_AVAILABLE peer_available t in
  set_TRAY_AUDIO_STATUS (to_wide status) t.
(** [edge-windows-input 2743-2746 update_input_forwarding] *)
Definition update_input_forwarding (enabled : bool) (t : TrayStatics) : TrayStatics :=
  set_TRAY_INPUT_FORWARDING_ENABLED enabled t.
(** [edge-windows-input 2748-2750 record_injected_input] *)
Definition record_injected_input (t : TrayStatics) : TrayStatics :=
  set_TRAY_INJECTED_INPUT_EVENTS (wrapping_add u64_max (TRAY_INJECTED_INPUT_EVENTS t) 1) t.
(** [edge-windows-input 2756-2770 update_role] *)
Definition update_role (local peer : string) (local_is_controller available switching : bool)
    (t : TrayStatics) : TrayStatics :=
  set_TRAY_ROLE {| role_local_name := local; role_peer_name := peer;
                   role_local_is_controller := local_is_controller; role_available := available;
                   role_switching := switching |} t.
(** [edge-windows-input 3122-3127 set_round_trip] *)
Definition set_round_trip (round_trip : option Duration) (t : TrayStatics) : TrayStatics :=
  set_TRAY_ROUND_TRIP_MS
    (match round_trip with
     | None => u64_max
     | Some rtt => default (u64_max - 1) (try_from u64_max (rtt / from_millis 1))
     end) t.
(** [edge-windows-input 3129-3134 tray_round_trip_ms] *)
Definition tray_round_trip_ms (t : TrayStatics) : option Z :=
  if TRAY_ROUND_TRIP_MS t =? u64_max then None else Some (TRAY_ROUND_TRIP_MS t).

(** ** The menu *)

Definition ID_SETTINGS : Z := 1001.
Definition ID_RELEASE : Z := 1002.
Definition ID_QUIT : Z := 1003.
Definition ID_AUDIO_OFF : Z := 1004.
Definition ID_CONNECTION : Z := 1005.
Definition ID_INPUT_FORWARDING : Z := 1006.
Definition ID_PAIR : Z := 1007.
Definition ID_LOCAL_CONTROLLER : Z := 1008.
Definition ID_PEER_CONTROLLER : Z := 1009.
Definition ID_AUDIO_LOCAL : Z := 1010.
Definition ID_AUDIO_PEER : Z := 1011.

(** A row: a separator, or an entry with its flags. *)
Inductive MenuRow :=
| Row_separator
| Row (id : Z) (text : string) (is_checked is_disabled : bool).

(** The name the menu gives the other computer.  [edge-windows-input 2931-2934 show_menu] *)
Definition menu_peer_name (t : TrayStatics) : string :=
  match List.find (fun name => negb (str_is_empty name))
          [role_peer_name (TRAY_ROLE t); peer_device_name (TRAY_CONTEXT t)] with
  | Some name => name
  | None => "the other computer"
  end.
(** [edge-windows-input 3082-3089 current_tray_status] *)
Definition current_tray_status (t : TrayStatics) : list Z :=
  match TRAY_STATUS t with [] => to_wide "edge-kvm" | status => status end.

(** [edge-windows-input 2921-3028 show_menu]: the rows. *)
Definition menu_rows (t : TrayStatics) : list MenuRow :=
  let role := TRAY_ROLE t in
  let connected := TRAY_CONNECTED t in
  let peer_name := menu_peer_name t in
  let controls := role_local_is_controller role in
  let summary := menu_summary (wide_to_string (current_tray_status t)) connected peer_name
                   controls (tray_round_trip_ms t) in
  let role_available := role_available role && negb (role_switching role) && connected in
  let choice := TRAY_AUDIO_CHOICE t in
  ([Row 0 summary false true;
    Row_separator;
    Row ID_INPUT_FORWARDING "Share mouse and keyboard" (TRAY_INPUT_FORWARDING_ENABLED t) false]
   ++ (if role_available
       then [Row (if controls then ID_PEER_CONTROLLER else ID_LOCAL_CONTROLLER)
               (if controls then "Let " ++ peer_name ++ " control this computer"
                else "Control " ++ peer_name ++ " from here") false false]
       else [])
   ++ [Row ID_RELEASE "Release control" false false;
       Row_separator;
       Row 0 "Audio" false true;
       Row ID_AUDIO_LOCAL ("Send to " ++ peer_name) (choice =? 1)
         (negb (connected && TRAY_AUDIO_LOCAL_AVAILABLE t));
       Row ID_AUDIO_PEER ("Play from " ++ peer_name) (choice =? 2)
         (negb (connected && TRAY_AUDIO_PEER_AVAILABLE t));
       Row ID_AUDIO_OFF "Off" (choice =? 0) false;
       Row_separator]
   ++ (if connected then [] else [Row ID_PAIR "Pair a computer…" false false])
   ++ [Row ID_CONNECTION (if connected then "Disconnect" else "Reconnect") false false;
       Row ID_SETTINGS "Settings…" false false;
       Row ID_QUIT "Quit" false false])%list.

(** [edge-windows-input 2807-2845 dispatch_menu_command]: the command sent; the row that quits removes
    the icon as well. *)
Definition menu_command (command : Z) (t : TrayStatics) : option WindowsTrayCommand :=
  if command =? ID_SETTINGS then Some Tray_OpenSettings
  else if command =? ID_PAIR then Some Tray_Pair
  else if command =? ID_RELEASE then Some Tray_ReleaseControl
  else if command =? ID_CONNECTION
  then Some (if TRAY_CONNECTED t then Tray_Disconnect else Tray_Reconnect)
  else if command =? ID_INPUT_FORWARDING then Some Tray_ToggleInputForwarding
  else if command =? ID_AUDIO_OFF then Some (Tray_SetAudio Choice_Off)
  else if command =? ID_AUDIO_LOCAL then Some (Tray_SetAudio Choice_Local)
  else if command =? ID_AUDIO_PEER then Some (Tray_SetAudio Choice_Peer)
  else if command =? ID_LOCAL_CONTROLLER then Some (Tray_SetController Controller_Local)
  else if command =? ID_PEER_CONTROLLER then Some (Tray_SetController Controller_Peer)
  else if command =? ID_QUIT then Some Tray_Quit
  else None.
(** [edge-windows-input 2807-2845 dispatch_menu_command] *)
Definition dispatch_menu_command (command : Z) (t : TrayStatics) :
  TrayStatics * option WindowsTrayCommand :=
  (if command =? ID_QUIT then set_TRAY_ICON false t else t, menu_command command t).

(** ** The commands the application takes *)

(** [win/main 600-610 TrayCommandOutcome] *)
Inductive TrayCommandOutcome :=
| Outcome_Continue | Outcome_Quit | Outcome_Disconnect | Outcome_Reconnect | Outcome_Pair
| Outcome_InputForwardingChanged (enabled : bool)
| Outcome_AudioChanged (choice : WindowsAudioChoice)
| Outcome_ControllerRequested (choice : WindowsControllerChoice).

(** The pending commands up to the first that is the session's to handle; those before it open the
    settings or release control, as often as [release] says.
    [win/main 612-660 handle_pending_windows_tray_commands] *)
Fixpoint handle_pending_windows_tray_commands (commands : list WindowsTrayCommand)
    (input_forwarding_enabled : bool) (releases : nat) :
  list WindowsTrayCommand * TrayCommandOutcome * nat :=
  match commands with
  | [] => ([], Outcome_Continue, releases)
  | command :: commands =>
      match command with
      | Tray_OpenSettings =>
          handle_pending_windows_tray_commands commands input_forwarding_enabled releases
      | Tray_ReleaseControl =>
          handle_pending_windows_tray_commands commands input_forwarding_enabled (S releases)
      | Tray_Pair => (commands, Outcome_Pair, releases)
      | Tray_Disconnect => (commands, Outcome_Disconnect, releases)
      | Tray_Reconnect => (commands, Outcome_Reconnect, releases)
      | Tray_ToggleInputForwarding =>
          (commands, Outcome_InputForwardingChanged (negb input_forwarding_enabled), releases)
      | Tray_SetAudio choice => (commands, Outcome_AudioChanged choice, releases)
      | Tray_SetController choice => (commands, Outcome_ControllerRequested choice, releases)
      | Tray_Quit => (commands, Outcome_Quit, releases)
      end
  end.

(** ** Properties *)

(** The tip always ends with a zero inside its buffer, and before it stands the beginning of the
    text. *)
Lemma tip_fits prefix status target : 0 < len target -> exists tip,
  until_zero (copy_wide prefix status target) = until_zero tip
  /\ (exists rest, to_wide (prefix ++ ": " ++ status) = (tip ++ rest)%list)
  /\ len (copy_wide prefix status target) = len target.
Proof.
  intros Ht. unfold copy_wide. set (wide := to_wide _). unfold saturating_sub.
  set (n := Z.min _ _).
  assert (0 < len wide) as Hw.
  { unfold wide, to_wide. unfold len. rewrite length_app. cbn [length]. lia. }
  exists (take (Z.to_nat n) wide). split_and!.
  - generalize (drop (Z.to_nat (n + 1)) target). generalize (take (Z.to_nat n) wide). clear.
    intros l k. induction l as [|w l IH]; [done|]. cbn [app until_zero]. by rewrite IH.
  - exists (drop (Z.to_nat n) wide). by rewrite take_drop.
  - unfold len in *. rewrite length_app, length_take, length_cons, length_drop. lia.
Qed.

(** The menu offers to disconnect or to reconnect, by what the status says, and the row it offers
    sends that command; pairing is offered only without a connection. *)
Lemma connection_row t :
  let text := if TRAY_CONNECTED t then "Disconnect" else "Reconnect" in
  In (Row ID_CONNECTION text false false) (menu_rows t)
  /\ menu_command ID_CONNECTION t
     = Some (if TRAY_CONNECTED t then Tray_Disconnect else Tray_Reconnect)
  /\ (In (Row ID_PAIR "Pair a computer…" false false) (menu_rows t) <-> TRAY_CONNECTED t = false).
Proof.
  cbv zeta. unfold menu_rows. split_and!; [|done|].
  - destruct (_ && _), (TRAY_CONNECTED t); cbn; tauto.
  - destruct (role_available _ && _) eqn:E, (TRAY_CONNECTED t); cbn; split; try done; intros H;
      try tauto; repeat (destruct H as [H|H]; [try discriminate|]); try done;
      destruct (role_local_is_controller _); discriminate.
Qed.
