(* ===== verification/WindowsLiveInput.v ===== *)
(** * What the Windows application captures and where it returns: apps/edge-controller-win

    The thread between the capture and the session, which merges the motion of the pointer and
    keeps everything else in order; and the watcher that gives control back when the peer's
    pointer reaches the edge it came from. *)
From Stdlib Require Import SpecFloat.
From S2P Require Export WindowsCapture.
#[local] Open Scope Z_scope.
#[local] Open Scope list_scope.

(** ** From the capture to the session *)

(** [win/main 60-60 LIVE_INPUT_QUEUE_CAPACITY] *)
Definition LIVE_INPUT_QUEUE_CAPACITY : Z := 32.
(** [win/main 62-62 LIVE_INPUT_FLUSH_INTERVAL] *)
Definition LIVE_INPUT_FLUSH_INTERVAL : Duration := from_millis 8.
(** [win/main 64-67 FALLBACK_REMOTE_SIZE] *)
Definition FALLBACK_REMOTE_SIZE : Size := {| size_width := 1920; size_height := 1080 |}.

(** [win/main 3486-3493 captured_input_to_frame] *)
Definition captured_input_to_frame (event : CapturedInput) : Frame :=
  match event with
  | Captured_Input event => Frame_input INITIAL_ROLE_EPOCH event
  | Captured_Control event => Frame_control INITIAL_ROLE_EPOCH event
  end.

(** [win/main 3497-3500 PendingMotion] *)
Record PendingMotion := { motion_dx : float; motion_dy : float }.
Definition PendingMotion_default : PendingMotion :=
  {| motion_dx := f64_of 0; motion_dy := f64_of 0 |}.

(** [win/main 3504-3512 PendingMotion::coalesce]; [None] for a frame that is no motion. *)
Definition coalesce (frame : Frame) (p : PendingMotion) : option PendingMotion :=
  match Frame_input_event frame with
  | Some (PointerMotion dx dy) =>
      Some {| motion_dx := f64_add (motion_dx p) dx; motion_dy := f64_add (motion_dy p) dy |}
  | _ => None
  end.
Definition no_motion (p : PendingMotion) : bool :=
  f64_eq (motion_dx p) (f64_of 0) && f64_eq (motion_dy p) (f64_of 0).
Definition motion_frame (p : PendingMotion) : Frame :=
  Frame_input INITIAL_ROLE_EPOCH (PointerMotion (motion_dx p) (motion_dy p)).

(** The thread: its motion, the clock of its last flush, the bounded channel to the session and
    the frame it waits to put into it. *)
Record LiveInput := {
  pending_motion : PendingMotion;
  last_motion_flush : Instant;
  input_queue : list Frame;
  waiting : option Frame;
  session_listens : bool;
  thread_runs : bool;
}.
Definition set_pending_motion : PendingMotion -> LiveInput -> LiveInput :=
  ltac:(field_setter pending_motion).
Definition set_last_motion_flush : Instant -> LiveInput -> LiveInput :=
  ltac:(field_setter last_motion_flush).
Definition set_input_queue : list Frame -> LiveInput -> LiveInput :=
  ltac:(field_setter input_queue).
Definition set_waiting : option Frame -> LiveInput -> LiveInput := ltac:(field_setter waiting).
Definition set_session_listens : bool -> LiveInput -> LiveInput :=
  ltac:(field_setter session_listens).
Definition set_thread_runs : bool -> LiveInput -> LiveInput := ltac:(field_setter thread_runs).
Definition queue_full (t : LiveInput) : bool := LIVE_INPUT_QUEUE_CAPACITY <=? len (input_queue t).

(** [win/main 3415-3418 start_live_input] *)
Definition LiveInput_start (now : Instant) : LiveInput :=
  {| pending_motion := PendingMotion_default; last_motion_flush := now; input_queue := [];
     waiting := None; session_listens := true; thread_runs := true |}.

(** [win/main 3514-3531 PendingMotion::flush_lossy]: a full channel loses the motion; whether the
    thread goes on. *)
Definition flush_lossy (t : LiveInput) : LiveInput * bool :=
  let p := pending_motion t in
  if no_motion p then (t, true)
  else
    let t := set_pending_motion PendingMotion_default t in
    if negb (session_listens t) then (t, false)
    else if queue_full t then (t, true)
    else (set_input_queue (input_queue t ++ [motion_frame p]) t, true).

(** An event of the capture, while the thread waits for one.
    [win/main 3421-3437 start_live_input] *)
Definition on_event (now : Instant) (event : CapturedInput) (t : LiveInput) : LiveInput :=
  let frame := captured_input_to_frame event in
  match coalesce frame (pending_motion t) with
  | Some p =>
      let t := set_pending_motion p t in
      if LIVE_INPUT_FLUSH_INTERVAL <=? duration_since now (last_motion_flush t) then
        let '(t, goes_on) := flush_lossy t in
        if goes_on then set_last_motion_flush now t else set_thread_runs false t
      else t
  | None =>
      let '(t, goes_on) := flush_lossy t in
      if negb goes_on || negb (session_listens t) then set_thread_runs false t
      else if queue_full t then set_waiting (Some frame) t
      else set_last_motion_flush now (set_input_queue (input_queue t ++ [frame]) t)
  end.
(** Nothing was captured for a while.  [win/main 3438-3443 start_live_input] *)
Definition on_timeout (now : Instant) (t : LiveInput) : LiveInput :=
  let '(t, goes_on) := flush_lossy t in
  if goes_on then set_last_motion_flush now t else set_thread_runs false t.
(** The capture ended.  [win/main 3444-3447 start_live_input] *)
Definition on_capture_end (t : LiveInput) : LiveInput :=
  set_thread_runs false (flush_lossy t).1.
(** The session takes a frame, which makes room for the one that waits.
    [win/main 3432-3436 start_live_input] *)
Definition on_taken (now : Instant) (t : LiveInput) : LiveInput * option Frame :=
  match input_queue t with
  | [] => (t, None)
  | frame :: queue =>
      let t := set_input_queue queue t in
      (match waiting t with
       | Some waits => set_last_motion_flush now
                         (set_waiting None (set_input_queue (queue ++ [waits]) t))
       | None => t
       end, Some frame)
  end.
(** The session ends: what is in the channel is lost, and so is the frame that waits. *)
Definition on_session_end (t : LiveInput) : LiveInput :=
  let t := set_session_listens false (set_input_queue [] t) in
  match waiting t with
  | Some _ => set_thread_runs false (set_waiting None t)
  | None => t
  end.

(** What happens around the thread; it receives only while it runs and does not wait. *)
Inductive live_input_event :=
| Captures (event : CapturedInput) | Captures_nothing | Capture_ends | Takes | Session_ends.
Definition ready (t : LiveInput) : bool :=
  thread_runs t && bool_decide (waiting t = None).
Definition live_input_step (now : Instant) (ev : live_input_event) (t : LiveInput) :
  LiveInput * option Frame :=
  match ev with
  | Takes => on_taken now t
  | Session_ends => (on_session_end t, None)
  | Captures event => (if ready t then on_event now event t else t, None)
  | Captures_nothing => (if ready t then on_timeout now t else t, None)
  | Capture_ends => (if ready t then on_capture_end t else t, None)
  end.

(** [win/main 3535-3552 remote_size] *)
Definition remote_size (screen_info : option ScreenInfo) : Size * bool :=
  let output :=
    match screen_info with
    | None => None
    | Some info =>
        option_or (List.find (fun output => str_eqb (out_name output) (primary_output info))
                     (outputs info))
          (head (outputs info))
    end in
  match output with
  | Some output =>
      if (0 <? out_width output) && (0 <? out_height output)
      then ({| size_width := out_width output; size_height := out_height output |}, false)
      else (FALLBACK_REMOTE_SIZE, true)
  | None => (FALLBACK_REMOTE_SIZE, true)
  end.

(** [win/main 3602-3609 peer_position_to_edge] *)
Definition peer_position_to_edge (position : PeerPosition) : Edge :=
  match position with
  | Config.Left => Edge_Left | Config.Right => Edge_Right
  | Config.Top => Edge_Top | Config.Bottom => Edge_Bottom
  end.

(** [win/main 2440-2452 frame_with_role_epoch] *)
Definition frame_with_role_epoch (frame : Frame) (role_epoch : Z) : Frame :=
  match frame with
  | Frame_Input input => Frame_input role_epoch (input_event input)
  | Frame_Control control => Frame_control role_epoch (control_event control)
  | frame => frame
  end.

(** ** The way back *)

(** [win/main 72-72 RETURN_EDGE_POLL_INTERVAL] *)
Definition RETURN_EDGE_POLL_INTERVAL : Duration := from_millis 40.
(** [win/main 74-74 RETURN_EDGE_ENTRY_GRACE] *)
Definition RETURN_EDGE_ENTRY_GRACE : Duration := from_millis 350.
(** [win/main 76-76 RETURN_EDGE_MARGIN] *)
Definition RETURN_EDGE_MARGIN : Z := 12.
(** [win/main 78-78 RETURN_EDGE_CONFIRMATIONS] *)
Definition RETURN_EDGE_CONFIRMATIONS : Z := 2.

(** [edge-windows-input 790-803 screen_info] *)
Definition windows_screen_info (bounds : LocalBounds) : ScreenInfo :=
  {| outputs := [{| out_name := "Windows Virtual Desktop";
                    out_width := Z.max (width bounds) 1; out_height := Z.max (height bounds) 1;
                    out_scale := f64_of 1; out_x := left bounds; out_y := top bounds |}];
     primary_output := "Windows Virtual Desktop" |}.

(** [win/main 2535-2541 WindowsRemoteReturnWatcher] *)
Record WindowsRemoteReturnWatcher := {
  watched_output : option OutputInfo;
  entry_edge : option Edge;
  entered_at : option Instant;
  last_poll : Instant;
  confirmations : Z;
}.
Definition set_last_poll : Instant -> WindowsRemoteReturnWatcher -> WindowsRemoteReturnWatcher :=
  ltac:(field_setter last_poll).
Definition set_confirmations : Z -> WindowsRemoteReturnWatcher -> WindowsRemoteReturnWatcher :=
  ltac:(field_setter confirmations).

(** [win/main 2545-2559 WindowsRemoteReturnWatcher::new] *)
Definition watcher_new (now : Instant) (screen_info : ScreenInfo) : WindowsRemoteReturnWatcher :=
  {| watched_output :=
       option_or (List.find (fun output => str_eqb (out_name output) (primary_output screen_info))
                    (outputs screen_info))
         (head (outputs screen_info));
     entry_edge := None; entered_at := None; last_poll := now - RETURN_EDGE_POLL_INTERVAL;
     confirmations := 0 |}.

Definition watcher_disarm (w : WindowsRemoteReturnWatcher) : WindowsRemoteReturnWatcher :=
  {| watched_output := watched_output w; entry_edge := None; entered_at := None;
     last_poll := last_poll w; confirmations := 0 |}.
(** [win/main 2561-2578 WindowsRemoteReturnWatcher::record_control] *)
Definition watcher_record_control (now : Instant) (control : ControlEvent)
    (w : WindowsRemoteReturnWatcher) : WindowsRemoteReturnWatcher :=
  match control with
  | EnterRemote edge _ =>
      {| watched_output := watched_output w; entry_edge := Some edge; entered_at := Some now;
         last_poll := now - RETURN_EDGE_POLL_INTERVAL; confirmations := 0 |}
  | LeaveRemote _ _ | ReleaseToLocal _ | SetInputForwarding false => watcher_disarm w
  | SetInputForwarding true => w
  end.

(** The last column and row of an output.
    [win/main 2593-2596 WindowsRemoteReturnWatcher::release_if_at_edge] *)
Definition output_right (o : OutputInfo) : Z :=
  i32_add (out_x o) (i32_wrap (saturating_sub (out_width o) 1)).
Definition output_bottom (o : OutputInfo) : Z :=
  i32_add (out_y o) (i32_wrap (saturating_sub (out_height o) 1)).
(** The pointer is at the side across from the edge it came from.
    [win/main 2597-2602 WindowsRemoteReturnWatcher::release_if_at_edge] *)
Definition return_edge_reached (edge : Edge) (p : POINT) (o : OutputInfo) : bool :=
  match edge with
  | Edge_Left => i32_sub (output_right o) RETURN_EDGE_MARGIN <=? pt_x p
  | Edge_Right => pt_x p <=? i32_add (out_x o) RETURN_EDGE_MARGIN
  | Edge_Top => i32_sub (output_bottom o) RETURN_EDGE_MARGIN <=? pt_y p
  | Edge_Bottom => pt_y p <=? i32_add (out_y o) RETURN_EDGE_MARGIN
  end.
(** It is too early to look: after the entry, or after the last look.
    [win/main 2584-2590 WindowsRemoteReturnWatcher::release_if_at_edge] *)
Definition too_early (now : Instant) (w : WindowsRemoteReturnWatcher) : bool :=
  is_some_and (fun entered => duration_since now entered <? RETURN_EDGE_ENTRY_GRACE) (entered_at w)
  || (duration_since now (last_poll w) <? RETURN_EDGE_POLL_INTERVAL).

(** [cursor] is what GetCursorPos answers.
    [win/main 2580-2631 WindowsRemoteReturnWatcher::release_if_at_edge] *)
Definition release_if_at_edge (now : Instant) (cursor : result POINT string)
    (w : WindowsRemoteReturnWatcher) :
  WindowsRemoteReturnWatcher * result (option ControlEvent) string :=
  match entry_edge w, watched_output w with
  | Some edge, Some output =>
      if too_early now w then (w, Ok None)
      else
        let w := set_last_poll now w in
        match cursor with
        | Err e => (w, Err e)
        | Ok point =>
            if negb (return_edge_reached edge point output) then (set_confirmations 0 w, Ok None)
            else
              let w := set_confirmations (saturating_add u8_max (confirmations w) 1) w in
              if confirmations w <? RETURN_EDGE_CONFIRMATIONS then (w, Ok None)
              else (watcher_disarm w,
                    Ok (Some (LeaveRemote edge
                          (normalized_perpendicular edge (int_point (pt_x point) (pt_y point))
                             (int_rect (out_x output) (out_y output)
                                (out_width output) (out_height output))))))
        end
  | _, _ => (w, Ok None)
  end.

(** ** Properties *)

(** *** What the session is given *)

(** The thread with what it has received from the capture and what the session has taken. *)
Record Trace := { thread : LiveInput; received : list CapturedInput; taken : list Frame }.
Definition trace_step (tr : Trace) (x : Instant * live_input_event) : Trace :=
  let '(t, frame) := live_input_step x.1 x.2 (thread tr) in
  {| thread := t;
     received := received tr ++ match x.2 with
                                | Captures event => if ready (thread tr) then [event] else []
                                | _ => []
                                end;
     taken := taken tr ++ match frame with Some frame => [frame] | None => [] end |}.
Definition trace (now : Instant) (l : list (Instant * live_input_event)) : Trace :=
  fold_left trace_step l {| thread := LiveInput_start now; received := []; taken := [] |}.
(** What the session has or will get. *)
Definition delivered (tr : Trace) : list Frame :=
  taken tr ++ input_queue (thread tr)
    ++ match waiting (thread tr) with Some frame => [frame] | None => [] end.

(** What may become of captured input: motion is summed up and at some time passed on or lost,
    and everything else is passed on, after the motion before it. *)
Inductive thins : list CapturedInput -> list Frame -> PendingMotion -> Prop :=
| thins_start : thins [] [] PendingMotion_default
| thins_motion l k p p' event : thins l k p -> coalesce (captured_input_to_frame event) p = Some p' ->
    thins (l ++ [event]) k p'
| thins_event l k p event : thins l k p -> coalesce (captured_input_to_frame event) p = None ->
    no_motion p = true -> thins (l ++ [event]) (k ++ [captured_input_to_frame event]) p
| thins_flush l k p : thins l k p -> thins l (k ++ [motion_frame p]) PendingMotion_default
| thins_loss l k p : thins l k p -> thins l k PendingMotion_default.

Definition is_motion_input (event : CapturedInput) : bool :=
  match event with Captured_Input (PointerMotion _ _) => true | _ => false end.
Definition motion_input_frame (frame : Frame) : bool :=
  match Frame_input_event frame with Some (PointerMotion _ _) => true | _ => false end.

Lemma coalesce_motion event p :
  coalesce (captured_input_to_frame event) p = None <-> is_motion_input event = false.
Proof. by destruct event as [[]|]. Qed.
Lemma motion_of_event event : motion_input_frame (captured_input_to_frame event) = is_motion_input event.
Proof. by destruct event as [[]|]. Qed.

(** Nothing but motion is lost, and nothing is reordered. *)
Lemma thins_keeps l k p : thins l k p ->
  List.filter (fun f => negb (motion_input_frame f)) k
  = map captured_input_to_frame (List.filter (fun e => negb (is_motion_input e)) l).
Proof.
  assert (forall event p, coalesce (captured_input_to_frame event) p = None ->
    is_motion_input event = false) as Hnone by (intros event q; apply coalesce_motion).
  induction 1 as [|l k p p' event _ IH Hc|l k p event _ IH Hc _|l k p _ IH|l k p _ IH]; try done.
  - rewrite !List.filter_app, map_app, <- IH. cbn. destruct event as [[]|]; try discriminate Hc.
    cbn. by rewrite app_nil_r.
  - rewrite !List.filter_app, map_app, <- IH. cbn. rewrite motion_of_event.
    by rewrite (Hnone _ _ Hc).
  - rewrite List.filter_app, IH. cbn. by rewrite app_nil_r.
Qed.

(** The thread in a session that listens, after it received [l] and the session took [done]. *)
Definition thread_ok (l : list CapturedInput) (done : list Frame) (t : LiveInput) : Prop :=
  thins l (done ++ input_queue t ++ match waiting t with Some frame => [frame] | None => [] end)
    (pending_motion t)
  /\ len (input_queue t) <= LIVE_INPUT_QUEUE_CAPACITY
  /\ session_listens t = true
  /\ (waiting t <> None -> queue_full t = true).

(** A flush, while nothing waits. *)
Lemma flush_thins l done t t' goes_on : waiting t = None -> thread_ok l done t ->
  flush_lossy t = (t', goes_on) ->
  goes_on = true /\ waiting t' = None /\ no_motion (pending_motion t') = true /\ thread_ok l done t'.
Proof.
  intros Hw (Ht & Hq & Hl & Hf). unfold flush_lossy, thread_ok.
  destruct (no_motion (pending_motion t)) eqn:Em; [by intros [= <- <-]|].
  assert (session_listens (set_pending_motion PendingMotion_default t) = true) as -> by exact Hl.
  cbn [negb]. change (queue_full (set_pending_motion _ t)) with (queue_full t).
  rewrite Hw in *. rewrite app_nil_r in Ht.
  destruct (queue_full t) eqn:Ef; intros [= <- <-]; cbn; rewrite ?Hw, ?app_nil_r; split_and!; try done.
  - by eapply thins_loss.
  - rewrite app_assoc. by apply thins_flush.
  - unfold queue_full in Ef. apply Z.leb_gt in Ef. unfold len in *. rewrite length_app. cbn. lia.
Qed.
Lemma ready_not_waiting t : ready t = true -> waiting t = None.
Proof. unfold ready. intros [_ H]%andb_true_iff. by apply bool_decide_eq_true in H. Qed.

Lemma on_event_ok now event l done t : ready t = true -> thread_ok l done t ->
  thread_ok (l ++ [event]) done (on_event now event t).
Proof.
  intros Hr%ready_not_waiting Hok. pose proof Hok as (Ht & Hq & Hl & Hf). unfold on_event.
  destruct (coalesce _ _) as [p|] eqn:Ec.
  - assert (thread_ok (l ++ [event]) done (set_pending_motion p t)) as Hp.
    { split_and!; try done. by eapply thins_motion. }
    destruct (_ <=? _); [|done].
    destruct (flush_lossy _) as [t' goes_on] eqn:Efl.
    by destruct (flush_thins _ _ (set_pending_motion p t) _ _ Hr Hp Efl) as (-> & _ & _ & ?).
  - destruct (flush_lossy t) as [t' goes_on] eqn:Efl.
    destruct (flush_thins _ _ _ _ _ Hr Hok Efl) as (-> & Hw & Hn & Ht' & Hq' & Hl' & Hf').
    rewrite Hl'. cbn [negb orb]. rewrite Hw in Ht'. rewrite app_nil_r in Ht'.
    assert (thins (l ++ [event]) ((done ++ input_queue t') ++ [captured_input_to_frame event])
              (pending_motion t')) as He.
    { apply thins_event; try done. by apply coalesce_motion, (coalesce_motion event (pending_motion t)). }
    rewrite <- app_assoc in He. destruct (queue_full t') eqn:Efu; unfold thread_ok; cbn.
    + by split_and!.
    + rewrite Hw, app_nil_r. split_and!; try done.
      unfold queue_full in Efu. apply Z.leb_gt in Efu. unfold len in *. rewrite length_app. cbn. lia.
Qed.
Lemma on_taken_ok now l done t : thread_ok l done t ->
  thread_ok l (done ++ match (on_taken now t).2 with Some frame => [frame] | None => [] end)
    (on_taken now t).1.
Proof.
  intros (Ht & Hq & Hl & Hf). unfold on_taken. destruct (input_queue t) as [|frame queue] eqn:E.
  { cbn. rewrite app_nil_r. split_and!; rewrite ?E; done. }
  assert (len (frame :: queue) = len queue + 1) as El by (unfold len; cbn; lia). rewrite El in Hq.
  destruct (waiting t) as [waits|] eqn:Ew; unfold thread_ok; cbn; rewrite ?Ew; split_and!; try done.
  - by rewrite app_nil_r, <- app_assoc.
  - cbn. unfold len in *. rewrite length_app. cbn. lia.
  - cbn. by rewrite Ew, <- app_assoc.
  - cbn. lia.
Qed.
Lemma flushed_ok l done t : ready t = true -> thread_ok l done t ->
  thread_ok l done (flush_lossy t).1 /\ (flush_lossy t).2 = true.
Proof.
  intros Hr Hok. destruct (flush_lossy t) as [t' goes_on] eqn:E.
  by destruct (flush_thins _ _ _ _ _ (ready_not_waiting _ Hr) Hok E) as (-> & _ & _ & ?).
Qed.

Definition live_input_ok (tr : Trace) : Prop := thread_ok (received tr) (taken tr) (thread tr).
Lemma trace_step_ok tr x : x.2 <> Session_ends -> live_input_ok tr -> live_input_ok (trace_step tr x).
Proof.
  destruct x as [now ev]. destruct tr as [t l done]. intros Hev Hok.
  unfold live_input_ok, trace_step in *. cbn [thread received taken fst snd] in *.
  destruct ev as [event| | | |]; cbn [live_input_step]; [| | | |done].
  - destruct (ready t) eqn:Hr; cbn [thread received taken]; rewrite ?app_nil_r; [|done].
    by apply on_event_ok.
  - cbn [thread received taken]. rewrite !app_nil_r. destruct (ready t) eqn:Hr; [|done].
    destruct (flushed_ok _ _ _ Hr Hok) as [H1 H2]. unfold on_timeout.
    destruct (flush_lossy t) as [t' goes_on]. cbn in H1, H2. by subst goes_on.
  - cbn [thread received taken]. rewrite !app_nil_r. destruct (ready t) eqn:Hr; [|done].
    exact (proj1 (flushed_ok _ _ _ Hr Hok)).
  - pose proof (on_taken_ok now l done t Hok) as H1. destruct (on_taken now t) as [t' frame].
    cbn [thread received taken]. by rewrite app_nil_r.
Qed.

(** C13. However fast the capture is and however slow the session: all but the motion of the pointer
    reaches the session in its order; motion is summed up and passed on before what was captured
    after it, or lost; the channel holds at most 32 frames, and the thread waits only while it
    is full. *)
Theorem live_input_loses_only_motion now l :
  Forall (fun x => x.2 <> Session_ends) l ->
  let tr := trace now l in
  List.filter (fun f => negb (motion_input_frame f)) (delivered tr)
  = map captured_input_to_frame (List.filter (fun e => negb (is_motion_input e)) (received tr))
  /\ thins (received tr) (delivered tr) (pending_motion (thread tr))
  /\ len (input_queue (thread tr)) <= LIVE_INPUT_QUEUE_CAPACITY
  /\ (waiting (thread tr) <> None -> len (input_queue (thread tr)) = LIVE_INPUT_QUEUE_CAPACITY).
Proof.
  intros Hl. assert (live_input_ok (trace now l)) as (H1 & H2 & _ & H3).
  { unfold trace. assert (live_input_ok {| thread := LiveInput_start now; received := []; taken := [] |})
      as Hok by (split_and!; [apply thins_start|done..]).
    revert Hok. generalize {| thread := LiveInput_start now; received := []; taken := [] |} as tr.
    induction Hl as [|x l Hx _ IH]; intros tr Hok; [done|]. apply IH. by apply trace_step_ok. }
  split_and!; [by eapply thins_keeps|done|done|].
  intros Hw. specialize (H3 Hw). unfold queue_full in H3. apply Z.leb_le in H3. lia.
Qed.

Definition click_motion : list (Instant * live_input_event) :=
  let key b := Captures (Captured_Input (Key 30 b)) in
  let move n := Captures (Captured_Input (PointerMotion (f64_of n) (f64_of 0))) in
  [(0, move 3); (1, move 4); (2, key true); (3, move 5); (3, Takes); (10 ^ 7, Captures_nothing);
   (10 ^ 7, key false); (2 * 10 ^ 7, Takes)].
Lemma live_input_loses_only_motion_witness :
  delivered (trace 0 click_motion)
  = [Frame_input 1 (PointerMotion (f64_of 7) (f64_of 0)); Frame_input 1 (Key 30 true);
     Frame_input 1 (PointerMotion (f64_of 5) (f64_of 0)); Frame_input 1 (Key 30 false)]
  /\ len (input_queue (thread (trace 0 click_motion))) <= LIVE_INPUT_QUEUE_CAPACITY.
Proof.
  split; [vm_compute; reflexivity|].
  apply (live_input_loses_only_motion 0 click_motion). repeat constructor; discriminate.
Defined.

(** *** The way back *)

(** What the watcher is told and where it finds the pointer; a look that fails ends the session. *)
Inductive watcher_event := Told (control : ControlEvent) | Looks (point : POINT).
Definition watch (w : WindowsRemoteReturnWatcher) (x : Instant * watcher_event) :
  WindowsRemoteReturnWatcher :=
  match x.2 with
  | Told control => watcher_record_control x.1 control w
  | Looks point => (release_if_at_edge x.1 (Ok point) w).1
  end.

(** An event that neither enters nor leaves. *)
Definition stays_entered (x : Instant * watcher_event) : Prop :=
  match x.2 with
  | Told (SetInputForwarding true) | Looks _ => True
  | _ => False
  end.
(** What an armed watcher has seen: the entry, and perhaps the pointer at the way back. *)
Definition watcher_knows (o : OutputInfo) (l : list (Instant * watcher_event))
    (w : WindowsRemoteReturnWatcher) : Prop :=
  watched_output w = Some o /\
  forall edge, entry_edge w = Some edge ->
  exists l1 entered position l2,
    l = l1 ++ (entered, Told (EnterRemote edge position)) :: l2
    /\ Forall stays_entered l2 /\ entered_at w = Some entered
    /\ (confirmations w = 0 \/ confirmations w = 1 /\ exists point,
         (last_poll w, Looks point) ∈ l2 /\ return_edge_reached edge point o = true
         /\ RETURN_EDGE_ENTRY_GRACE <= duration_since (last_poll w) entered).

Lemma disarmed_knows o l w : watched_output w = Some o -> watcher_knows o l (watcher_disarm w).
Proof. by intros Hw. Qed.
Lemma watch_knows o l w x : watcher_knows o l w -> watcher_knows o (l ++ [x]) (watch w x).
Proof.
  intros [Hw Hk]. destruct x as [now [control|point]]; cbn [watch fst snd].
  - destruct control as [edge position|edge position|reason|[]]; try by apply disarmed_knows.
    + split; [done|]. cbn. intros edge' [= <-]. exists l, now, position, [].
      split_and!; [done|constructor|done|by left].
    + split; [done|]. intros edge He. destruct (Hk edge He) as (l1 & t0 & position & l2 & -> & Hq & Ht & Hc).
      exists l1, t0, position, (l2 ++ [(now, Told (SetInputForwarding true))]).
      split_and!; [by rewrite <- app_assoc|by apply Forall_app_2; [|repeat constructor]|done|].
      destruct Hc as [?|(H1 & point & H2 & H3)]; [by left|right]. split; [done|].
      exists point. split; [set_solver|done].
  - unfold release_if_at_edge. destruct (entry_edge w) as [edge|] eqn:He.
    2: { split; [done|]. cbn [fst]. intros edge. by rewrite He. }
    rewrite Hw. destruct (Hk edge eq_refl) as (l1 & t0 & position & l2 & -> & Hq & Ht & Hc).
    assert (forall w', watched_output w' = Some o -> entry_edge w' = Some edge -> entered_at w' = Some t0 ->
      (confirmations w' = 0 \/ confirmations w' = 1 /\ exists p,
         (last_poll w', Looks p) ∈ l2 ++ [(now, Looks point)]
         /\ return_edge_reached edge p o = true
         /\ RETURN_EDGE_ENTRY_GRACE <= duration_since (last_poll w') t0) ->
      watcher_knows o ((l1 ++ (t0, Told (EnterRemote edge position)) :: l2) ++ [(now, Looks point)]) w')
      as Hnew.
    { intros w' E1 E2 E3 Hc'. split; [done|]. rewrite E2. intros edge' [= <-].
      exists l1, t0, position, (l2 ++ [(now, Looks point)]).
      split_and!; [by rewrite <- app_assoc|by apply Forall_app_2; [|repeat constructor]|done..]. }
    destruct (too_early now w) eqn:Et.
    { apply Hnew; try done. destruct Hc as [?|(H1 & p & H2 & H3)]; [by left|right].
      split; [done|]. exists p. split; [set_solver|done]. }
    assert (RETURN_EDGE_ENTRY_GRACE <= duration_since now t0) as Hgrace.
    { unfold too_early in Et. rewrite Ht in Et. apply orb_false_iff in Et as [Et _].
      cbn in Et. apply Z.ltb_ge in Et. done. }
    destruct (return_edge_reached edge point o) eqn:Er; cbn [negb].
    2: { apply Hnew; try done. by left. }
    change (confirmations (set_last_poll now w)) with (confirmations w).
    assert (confirmations w = 0 \/ confirmations w = 1) as [E|E] by tauto; rewrite E; cbn.
    + apply Hnew; try done. right. split; [done|]. exists point. split_and!; [set_solver|done..].
    + by apply disarmed_knows.
Qed.

(** C14. The peer is given control back only when the pointer that it moved across this computer has
    come back: since the peer entered, and without a way out in between, 350 ms have passed, and
    two looks at least 40 ms apart, both after them, found the pointer within 12 pixels of the
    edge it came from.  The watcher then waits for the next entry. *)
Theorem return_needs_two_looks info o now0 l now point w' control :
  watched_output (watcher_new now0 info) = Some o ->
  release_if_at_edge now (Ok point) (fold_left watch l (watcher_new now0 info)) = (w', Ok (Some control)) ->
  exists l1 entered edge position l2 before previous position',
    l = l1 ++ (entered, Told (EnterRemote edge position)) :: l2
    /\ Forall stays_entered l2 /\ (before, Looks previous) ∈ l2
    /\ RETURN_EDGE_ENTRY_GRACE <= duration_since before entered
    /\ RETURN_EDGE_POLL_INTERVAL <= duration_since now before
    /\ return_edge_reached edge previous o = true /\ return_edge_reached edge point o = true
    /\ control = LeaveRemote edge position' /\ entry_edge w' = None.
Proof.
  intros Ho Hr.
  assert (watcher_knows o l (fold_left watch l (watcher_new now0 info))) as [Hw Hk].
  { assert (watcher_knows o [] (watcher_new now0 info)) as Hk by done.
    change l with ([] ++ l) at 1. generalize (@nil (Instant * watcher_event)) Hk.
    generalize (watcher_new now0 info). clear. induction l as [|x l IH]; intros w h Hk; cbn.
    - by rewrite app_nil_r.
    - change (x :: l) with ([x] ++ l). rewrite app_assoc. apply IH. by apply watch_knows. }
  set (w := fold_left watch l _) in *. clearbody w. unfold release_if_at_edge in Hr.
  destruct (entry_edge w) as [edge|]; [|done]. rewrite Hw in Hr.
  destruct (Hk edge eq_refl) as (l1 & t0 & position & l2 & -> & Hq & Ht & Hc).
  destruct (too_early now w) eqn:Et; [done|].
  apply orb_false_iff in Et as [_ Et%Z.ltb_ge]. cbn in Hr.
  destruct (return_edge_reached edge point o) eqn:Er; cbn [negb] in Hr; [|done].
  change (confirmations (set_last_poll now w)) with (confirmations w) in Hr.
  destruct Hc as [E|(E & p & H1 & H2 & H3)]; rewrite E in Hr; cbn in Hr; [done|].
  injection Hr as <- <-. do 8 eexists. split_and!; done.
Qed.

(** The peer enters at the left, and its pointer comes to the right side. *)
Definition comes_back : list (Instant * watcher_event) :=
  [(0, Told (EnterRemote Edge_Left (f64_of 0))); (10 ^ 9, Looks {| pt_x := 1915; pt_y := 5 |})].
Definition desk_screen : ScreenInfo :=
  windows_screen_info {| left := 0; top := 0; width := 1920; height := 1080 |}.
Lemma return_needs_two_looks_witness :
  exists control w',
    release_if_at_edge (2 * 10 ^ 9) (Ok {| pt_x := 1919; pt_y := 540 |})
      (fold_left watch comes_back (watcher_new 0 desk_screen)) = (w', Ok (Some control))
    /\ entry_edge w' = None.
Proof.
  eexists _, _. split; [vm_compute; reflexivity|].
  destruct (return_needs_two_looks desk_screen (hd {| out_name := ""; out_width := 0; out_height := 0;
      out_scale := f64_of 1; out_x := 0; out_y := 0 |} (outputs desk_screen)) 0 comes_back (2 * 10 ^ 9)
      {| pt_x := 1919; pt_y := 540 |} _ _ eq_refl eq_refl)
    as (? & ? & ? & ? & ? & ? & ? & ? & _ & _ & _ & _ & _ & _ & _ & _ & He).
  exact He.
Defined.
