(* ===== verification/WindowsSession.v ===== *)
(** * The session of the Windows application: [run_connected_inner]

    The state of a session of apps/edge-controller-win/src/main.rs and one function per arm of its
    loop, over the capture ([WindowsCapture]), the injection ([WindowsInjection]), the clipboard
    ([WindowsClipboard]), the tray ([WindowsTray]), the role coordinator, the input gate, the
    liveness tracker and the heartbeat.  What the system answers while an arm runs is a [Moment].
    The audio tasks are whether they are there; a store of the disk is what it holds. *)
From S2P Require Export Role Runtime Heartbeat Audio Utf16 WindowsInjection WindowsLiveInput.
From S2P Require Export WindowsTray WindowsClipboard.
#[local] Open Scope string_scope.
#[local] Open Scope Z_scope.
#[local] Open Scope list_scope.

(** ** State *)

(** What a session knows of the two computers from its start: the names, the fingerprints, the
    text of the connection and what the peer supports.
    [win/main 1220-1255 run_connected_inner] *)
Record Pair := {
  local_name : string;
  peer_display_name : string;
  local_fingerprint : string;
  peer_fingerprint : string;
  connection_status : string;
  peer_supports_audio_capture : bool;
  peer_supports_audio_playback : bool;
  peer_supports_audio_route : bool;
  peer_supports_input_toggle : bool;
  role_switch_available : bool;
}.

(** The state of a session, of the process and of the disk that its arms reach. *)
Record WindowsSession (W : Type) := {
  w_live : Live W;
  w_capture : Process;
  w_injector : Injector;
  w_tray : TrayStatics;
  w_tray_commands : list WindowsTrayCommand;
  w_coordinator : RoleCoordinator;
  w_role_epoch : Z;
  w_local_is_controller : bool;
  w_session_paused : bool;
  w_input_forwarding_enabled : bool;
  w_input_epoch : InputEpochGate;
  w_return_watcher : WindowsRemoteReturnWatcher;
  w_pending_role_readiness : option (bool * bool * option string);
  w_transition_deadline : option Instant;
  w_pending_role_persistence : option (Z * string);
  w_role_store : option CommittedRole;
  w_connector_paused : bool;
  w_heartbeat_sequence : Z;
  w_heartbeat_ping : HeartbeatPing;
  w_heartbeat_due : Instant;
  w_receiver_liveness : LivenessTracker;
  w_audio_receiver : bool;
  w_linux_streaming : bool;
  w_audio_sender : bool;
  w_pending_audio_socket : option Z;
  w_audio_restart_attempted : bool;
  w_audio_source : option string;
  w_audio_enabled : bool;
  w_audio_route_store : option CommittedAudioRoute;
  w_runtime_config : AppConfig;
  w_config_reload : bool;
}.
Arguments w_live {W} _.
Arguments w_capture {W} _.
Arguments w_injector {W} _.
Arguments w_tray {W} _.
Arguments w_tray_commands {W} _.
Arguments w_coordinator {W} _.
Arguments w_role_epoch {W} _.
Arguments w_local_is_controller {W} _.
Arguments w_session_paused {W} _.
Arguments w_input_forwarding_enabled {W} _.
Arguments w_input_epoch {W} _.
Arguments w_return_watcher {W} _.
Arguments w_pending_role_readiness {W} _.
Arguments w_transition_deadline {W} _.
Arguments w_pending_role_persistence {W} _.
Arguments w_role_store {W} _.
Arguments w_connector_paused {W} _.
Arguments w_heartbeat_sequence {W} _.
Arguments w_heartbeat_ping {W} _.
Arguments w_heartbeat_due {W} _.
Arguments w_receiver_liveness {W} _.
Arguments w_audio_receiver {W} _.
Arguments w_linux_streaming {W} _.
Arguments w_audio_sender {W} _.
Arguments w_pending_audio_socket {W} _.
Arguments w_audio_restart_attempted {W} _.
Arguments w_audio_source {W} _.
Arguments w_audio_enabled {W} _.
Arguments w_audio_route_store {W} _.
Arguments w_runtime_config {W} _.
Arguments w_config_reload {W} _.

Section Setters.
Context {W : Type}.
Definition set_w_live : Live W -> WindowsSession W -> WindowsSession W :=
  ltac:(field_setter (@w_live W)).
Definition set_w_capture : Process -> WindowsSession W -> WindowsSession W :=
  ltac:(field_setter (@w_capture W)).
Definition set_w_injector : Injector -> WindowsSession W -> WindowsSession W :=
  ltac:(field_setter (@w_injector W)).
Definition set_w_tray : TrayStatics -> WindowsSession W -> WindowsSession W :=
  ltac:(field_setter (@w_tray W)).
Definition set_w_tray_commands : list WindowsTrayCommand -> WindowsSession W -> WindowsSession W :=
  ltac:(field_setter (@w_tray_commands W)).
Definition set_w_coordinator : RoleCoordinator -> WindowsSession W -> WindowsSession W :=
  ltac:(field_setter (@w_coordinator W)).
Definition set_w_role_epoch : Z -> WindowsSession W -> WindowsSession W :=
  ltac:(field_setter (@w_role_epoch W)).
Definition set_w_local_is_controller : bool -> WindowsSession W -> WindowsSession W :=
  ltac:(field_setter (@w_local_is_controller W)).
Definition set_w_session_paused : bool -> WindowsSession W -> WindowsSession W :=
  ltac:(field_setter (@w_session_paused W)).
Definition set_w_input_forwarding_enabled : bool -> WindowsSession W -> WindowsSession W :=
  ltac:(field_setter (@w_input_forwarding_enabled W)).
Definition set_w_input_epoch : InputEpochGate -> WindowsSession W -> WindowsSession W :=
  ltac:(field_setter (@w_input_epoch W)).
Definition set_w_return_watcher : WindowsRemoteReturnWatcher -> WindowsSession W -> WindowsSession W :=
  ltac:(field_setter (@w_return_watcher W)).
Definition set_w_pending_role_readiness : option (bool * bool * option string) -> WindowsSession W -> WindowsSession W :=
  ltac:(field_setter (@w_pending_role_readiness W)).
Definition set_w_transition_deadline : option Instant -> WindowsSession W -> WindowsSession W :=
  ltac:(field_setter (@w_transition_deadline W)).
Definition set_w_pending_role_persistence : option (Z * string) -> WindowsSession W -> WindowsSession W :=
  ltac:(field_setter (@w_pending_role_persistence W)).
Definition set_w_role_store : option CommittedRole -> WindowsSession W -> WindowsSession W :=
  ltac:(field_setter (@w_role_store W)).
Definition set_w_connector_paused : bool -> WindowsSession W -> WindowsSession W :=
  ltac:(field_setter (@w_connector_paused W)).
Definition set_w_heartbeat_sequence : Z -> WindowsSession W -> WindowsSession W :=
  ltac:(field_setter (@w_heartbeat_sequence W)).
Definition set_w_heartbeat_ping : HeartbeatPing -> WindowsSession W -> WindowsSession W :=
  ltac:(field_setter (@w_heartbeat_ping W)).
Definition set_w_heartbeat_due : Instant -> WindowsSession W -> WindowsSession W :=
  ltac:(field_setter (@w_heartbeat_due W)).
Definition set_w_receiver_liveness : LivenessTracker -> WindowsSession W -> WindowsSession W :=
  ltac:(field_setter (@w_receiver_liveness W)).
Definition set_w_audio_receiver : bool -> WindowsSession W -> WindowsSession W :=
  ltac:(field_setter (@w_audio_receiver W)).
Definition set_w_linux_streaming : bool -> WindowsSession W -> WindowsSession W :=
  ltac:(field_setter (@w_linux_streaming W)).
Definition set_w_audio_sender : bool -> WindowsSession W -> WindowsSession W :=
  ltac:(field_setter (@w_audio_sender W)).
Definition set_w_pending_audio_socket : option Z -> WindowsSession W -> WindowsSession W :=
  ltac:(field_setter (@w_pending_audio_socket W)).
Definition set_w_audio_restart_attempted : bool -> WindowsSession W -> WindowsSession W :=
  ltac:(field_setter (@w_audio_restart_attempted W)).
Definition set_w_audio_source : option string -> WindowsSession W -> WindowsSession W :=
  ltac:(field_setter (@w_audio_source W)).
Definition set_w_audio_enabled : bool -> WindowsSession W -> WindowsSession W :=
  ltac:(field_setter (@w_audio_enabled W)).
Definition set_w_audio_route_store : option CommittedAudioRoute -> WindowsSession W -> WindowsSession W :=
  ltac:(field_setter (@w_audio_route_store W)).
Definition set_w_runtime_config : AppConfig -> WindowsSession W -> WindowsSession W :=
  ltac:(field_setter (@w_runtime_config W)).
Definition set_w_config_reload : bool -> WindowsSession W -> WindowsSession W :=
  ltac:(field_setter (@w_config_reload W)).
End Setters.

(** What the system answers while an arm runs: the environment of the capture, with the clock;
    the pointer; whether the shell takes the icon; how writing the stores and
    reading the audio route ends; the ports of new
    sockets; the secrets of a new audio stream; how starting playback, the path to the peer and
    the loopback capture ends; and why an audio task has finished, if it has. *)
Record Moment := {
  m_env : Env;
  m_cursor : result POINT string;
  m_tray_shown : bool;
  m_role_saved : result unit string;
  m_route_saved : result unit string;
  m_route_loaded : result unit string;
  m_offer_port : result Z string;
  m_receiver_port : result Z string;
  m_secrets : bytes * bytes * bytes;
  m_playback : result unit string;
  m_path : result unit string;
  m_loopback : result unit string;
  m_receiver_failure : option string;
  m_sender_failure : option string;
}.
Definition m_now (m : Moment) : Instant := now (m_env m).

(** [win/main 1178-1182 ConnectedSessionExit] *)
Inductive ConnectedSessionExit := Exit_Quit | Exit_Disconnect | Exit_Pair.

(** The errors that end a session. *)
Inductive WindowsSessionError :=
| Session_Live (e : LiveError)
| Session_Role (e : RoleStateError)
| Session_Injection (e : InjectionError)
| Session_Cursor (e : string)
| Session_Persist (e : string)
| Session_Socket (e : string)
| Session_Config (e : string)
| Session_PeerSilent (elapsed : Duration)
| Session_PeerError (code message : string)
| Session_ReaderEnded
| Session_CommitWithoutController
| Session_NoRoleState
| Session_CaptureFailed.

Section Arms.
Context {W : Type} `{WindowsClipboardApi W} `{Lib : ClipboardLibraries} `{FrameCodec}.
Context (SendInput : list (INPUT * bool) -> INPUT -> bool) (P : Pair) (m : Moment).

Abbreviation acting := (stateful (WindowsSession W) WindowsSessionError).
(** An arm turns the loop again, or leaves the session. *)
Abbreviation arm := (acting (option ConnectedSessionExit)).

Definition ask {A} (f : WindowsSession W -> A) : acting A := fun s => (s, Ok (f s)).
Definition change (f : WindowsSession W -> WindowsSession W) : acting unit := fun s => (f s, Ok tt).
Definition on_live {A} (x : stateful (Live W) LiveError A) : acting A := fun s =>
  let r := x (w_live s) in (set_w_live r.1 s, map_err Session_Live r.2).
Definition ignore {A} (x : acting A) : acting unit := do! attempt x;; st_ret tt.
Definition turn : arm := st_ret None.
Definition leave (exit : ConnectedSessionExit) : arm := st_ret (Some exit).

(** ** What the arms share *)

Definition write (frame : Frame) : acting unit := on_live (write_secure_frame_writer frame).
(** [update_windows_tray_status], whose failure is logged. *)
Definition tray_status (status : string) : acting unit :=
  change (fun s => set_w_tray (update_status (m_tray_shown m) status (w_tray s)).1 s).
Definition tray_role (available switching : bool) : acting unit :=
  change (fun s => set_w_tray (update_role (local_name P) (peer_display_name P)
                                 (w_local_is_controller s) available switching (w_tray s)) s).
Definition tray_audio (status : string) : acting unit :=
  change (fun s => set_w_tray (update_audio status (w_tray s)) s).
Definition tray_input_forwarding (enabled : bool) : acting unit :=
  change (fun s => set_w_tray (update_input_forwarding enabled (w_tray s)) s).
Definition on_capture (f : Process -> Process) : acting unit :=
  change (fun s => set_w_capture (f (w_capture s)) s).
(** [edge-windows-input 292-294 set_forwarding_enabled] *)
Definition set_forwarding_enabled (enabled : bool) : acting unit :=
  on_capture (call_set_enabled (m_env m) enabled).
(** [edge-windows-input 300-302 force_release_to_local] *)
Definition force_release_to_local : acting unit := on_capture (disable (m_env m)).
(** The capture as the role, the sharing of input and the pause have it.
    [win/main 1513-1515 run_connected_inner] *)
Definition restore_forwarding : acting unit :=
  s <-! ask id;;
  set_forwarding_enabled (w_local_is_controller s && w_input_forwarding_enabled s
                          && negb (w_session_paused s)).
(** The peer's input is let go.  [win/main 1546-1547 run_connected_inner] *)
Definition release_peer_input : acting unit :=
  change (fun s => set_w_injector (all_keys_up SendInput (w_injector s)).1
                     (set_w_input_epoch (gate_suspend (w_input_epoch s)) s)).
Definition on_coordinator {A} (x : coordinated A) : acting A := fun s =>
  let r := x (w_coordinator s) in (set_w_coordinator r.1 s, map_err Session_Role r.2).
Definition on_injector (x : Injector -> Injector * result unit InjectionError) : acting unit :=
  fun s => let r := x (w_injector s) in (set_w_injector r.1 s, map_err Session_Injection r.2).
Definition record_injected : acting unit :=
  change (fun s => set_w_tray (record_injected_input (w_tray s)) s).

(** [win/main 2455-2467 windows_audio_choice] *)
Definition windows_audio_choice (source : option string) : WindowsAudioChoice :=
  match source with
  | Some source => if str_eqb source (local_fingerprint P) then Choice_Local
                   else if str_eqb source (peer_fingerprint P) then Choice_Peer else Choice_Off
  | None => Choice_Off
  end.
Definition tray_audio_route (choice : WindowsAudioChoice) (status : string) : acting unit :=
  change (fun s => set_w_tray (update_audio_route choice
      (peer_supports_audio_playback P && peer_supports_audio_route P)
      (peer_supports_audio_capture P) status (w_tray s)) s).
(** [win/main 2470-2484 send_windows_audio_offer] *)
Definition send_windows_audio_offer : acting unit :=
  port <-! st_lift (map_err Session_Socket (m_offer_port m));;
  do! write (Frame_Audio (Audio_Offer port [PcmS16Stereo48Khz]));;
  change (set_w_pending_audio_socket (Some port)).
(** [win/main 2487-2502 send_windows_audio_route] *)
Definition send_windows_audio_route : acting unit :=
  source <-! ask w_audio_source;;
  write (Frame_Audio (if peer_supports_audio_route P then SetRoute source
                      else SetEnabled (bool_decide (source = Some (peer_fingerprint P))))).
Definition source_is_local (s : WindowsSession W) : bool :=
  bool_decide (w_audio_source s = Some (local_fingerprint P)).
Definition source_is_peer (s : WindowsSession W) : bool :=
  bool_decide (w_audio_source s = Some (peer_fingerprint P)).
Definition drop_audio : acting unit :=
  change (fun s => set_w_pending_audio_socket None
                     (set_w_audio_sender false (set_w_audio_receiver false s))).
Definition committed_route (source : option string) : CommittedAudioRoute :=
  match source with Some source => route_from_source source | None => route_disabled end.
Definition save_route : acting unit :=
  do! st_lift (map_err Session_Persist (m_route_saved m));;
  change (fun s => set_w_audio_route_store (Some (committed_route (w_audio_source s))) s).
Definition set_audio_source (source : option string) : acting unit :=
  change (fun s => set_w_audio_enabled (bool_decide (is_Some source)) (set_w_audio_source source s)).
Definition stop_audio (reason : AudioStopReason) : acting unit :=
  enabled <-! ask w_audio_enabled;;
  if (enabled : bool) then ignore (write (Frame_Audio (Audio_Stop reason))) else st_ret tt.
(** The audio of a session that is resumed.  [win/main 1682-1692 run_connected_inner] *)
Definition resume_audio : acting unit :=
  enabled <-! ask w_audio_enabled;;
  if (enabled : bool) then
    do! send_windows_audio_route;;
    is_local <-! ask source_is_local;;
    if (is_local : bool) then send_windows_audio_offer else st_ret tt
  else st_ret tt.
Definition all_keys_up_frame : acting Frame :=
  epoch <-! ask w_role_epoch;; st_ret (Frame_input epoch AllKeysUp).

(** [win/main 2506-2532 begin_windows_role_switch] *)
Definition begin_windows_role_switch (requested : string) :
  acting (option (bool * bool * option string)) :=
  state <-! ask (fun s => coordinator_state (w_coordinator s));;
  do! (if bool_decide (controller_fingerprint state = Some (local_fingerprint P)) then
         do! set_forwarding_enabled false;;
         do! force_release_to_local;;
         ignore (write (Frame_input (role_epoch state) AllKeysUp))
       else release_peer_input);;
  prepare <-! on_coordinator (RoleCoordinator_prepare requested);;
  do! write (Frame_Role (Prepare prepare));;
  st_ret (Some (true, true, None)).
(** A role switch that both of its callers guard and record alike.
    [win/main 1966-1993 run_connected_inner] *)
Definition request_controller (requested : string) : acting unit :=
  s <-! ask id;;
  if negb (w_session_paused s) && role_switch_available P
     && negb (is_transitioning (w_coordinator s))
     && negb (bool_decide (controller_fingerprint (coordinator_state (w_coordinator s))
                           = Some requested)) then
    readiness <-! begin_windows_role_switch requested;;
    do! change (fun s => set_w_transition_deadline
                  ((fun _ => m_now m + from_secs 5) <$> readiness)
                  (set_w_pending_role_readiness readiness s));;
    tray_role false (bool_decide (is_Some readiness))
  else st_ret tt.

(** ** The arms of the loop *)

(** Ctrl+C.  [win/main 1421-1434 run_connected_inner] *)
Definition on_ctrl_c : arm :=
  frame <-! all_keys_up_frame;;
  do! ignore (write frame);;
  do! stop_audio Stop_Shutdown;;
  leave Exit_Quit.

(** Playback that has finished with [failure] is asked for once more.
    [win/main 1455-1471 run_connected_inner] *)
Definition on_receiver_finished (failure : string) : acting unit :=
  do! change (set_w_audio_receiver false);;
  s <-! ask id;;
  if source_is_peer s && negb (w_audio_restart_attempted s) then
    do! change (set_w_audio_restart_attempted true);;
    do! tray_audio "Audio: Restarting";;
    send_windows_audio_route
  else
    do! tray_audio ("Audio error: " ++ failure);;
    ignore (write (Frame_Audio (Audio_Stop TransportFailure))).
(** And so is the capture of sound.  [win/main 1472-1482 run_connected_inner] *)
Definition on_sender_finished (failure : string) : acting unit :=
  do! change (set_w_audio_sender false);;
  s <-! ask id;;
  if source_is_local s && negb (w_audio_restart_attempted s) then
    do! change (set_w_audio_restart_attempted true);;
    send_windows_audio_offer
  else tray_audio ("Audio error: " ++ failure).
(** [win/main 1454-1483 run_connected_inner] *)
Definition on_audio_watch : arm :=
  receiver <-! ask w_audio_receiver;;
  do! (match m_receiver_failure m with
       | Some failure => if (receiver : bool) then on_receiver_finished failure else st_ret tt
       | None => st_ret tt
       end);;
  sender <-! ask w_audio_sender;;
  do! (match m_sender_failure m with
       | Some failure => if (sender : bool) then on_sender_finished failure else st_ret tt
       | None => st_ret tt
       end);;
  turn.

(** [win/main 1484-1491 run_connected_inner] *)
Definition on_config_refresh : arm := do! change (set_w_config_reload true);; turn.
(** [win/main 1492-1499 run_connected_inner] *)
Definition on_config_reloaded (reloaded : result AppConfig string) : arm :=
  reloading <-! ask w_config_reload;;
  if (reloading : bool) then
    do! change (set_w_config_reload false);;
    match reloaded with
    | Ok updated => do! change (set_w_runtime_config updated);; turn
    | Err _ => turn
    end
  else turn.

(** The direction in which input flows, if it does.
    [win/main 1536-1540 run_connected_inner] *)
Definition input_active (s : WindowsSession W) : bool :=
  if w_local_is_controller s then stats_active (GLOBALS (w_capture s))
  else accepts_input (w_input_epoch s).

(** A role switch that takes too long is given up.
    [win/main 1501-1524 run_connected_inner] *)
Definition on_transition_deadline : acting unit :=
  s <-! ask id;;
  if is_some_and (fun deadline => deadline <=? m_now m) (w_transition_deadline s)
     && is_transitioning (w_coordinator s) then
    do! change (fun s => set_w_pending_role_readiness None (set_w_transition_deadline None s));;
    abort <-! on_coordinator (RoleCoordinator_abort "peer did not complete role preflight in time");;
    do! ignore (write (Frame_Role (Role_Abort abort)));;
    do! restore_forwarding;;
    do! tray_role (role_switch_available P && negb (w_session_paused s)) false;;
    tray_status "Connected: role switch timed out"
  else st_ret tt.
(** A peer that is silent: its input, or the input to it, is released; then the session ends.
    [win/main 1541-1559 run_connected_inner] *)
Definition on_liveness : acting unit :=
  s <-! ask id;;
  let '(tracker, event) := LivenessTracker_poll (w_receiver_liveness s) (m_now m) (input_active s) in
  do! change (set_w_receiver_liveness tracker);;
  match event with
  | Some SoftInputTimeout =>
      if w_local_is_controller s then force_release_to_local else release_peer_input
  | Some HardSessionTimeout => st_fail (Session_PeerSilent (live_elapsed tracker (m_now m)))
  | None => st_ret tt
  end.
(** [win/main 1500-1560 run_connected_inner] *)
Definition on_watchdog : arm :=
  do! on_transition_deadline;;
  do! on_live (on_transfer_watchdog (m_now m));;
  do! on_liveness;;
  turn.

(** [win/main 1561-1581 run_connected_inner] *)
Definition on_heartbeat_due : arm :=
  do! change (fun s => set_w_heartbeat_sequence
                (wrapping_add u64_max (w_heartbeat_sequence s) 1) s);;
  s <-! ask id;;
  let '(ping, heartbeat) := HeartbeatPing_outgoing (w_heartbeat_ping s) (w_heartbeat_sequence s)
                              (m_now m) in
  do! change (set_w_heartbeat_ping ping);;
  do! write (Frame_Heartbeat heartbeat);;
  do! change (set_w_heartbeat_due
                (m_now m + heartbeat_interval LivenessConfig_default
                   (input_active s || is_transitioning (w_coordinator s))));;
  turn.

(** The arms of [WindowsClipboard] run with the configuration of the session. *)
Definition live_arm (x : AppConfig -> bool -> stateful (Live W) LiveError unit) : arm :=
  s <-! ask id;;
  do! on_live (x (w_runtime_config s) (w_session_paused s));;
  turn.

(** A captured frame of the capture's thread.  [win/main 1821-1834 run_connected_inner] *)
Definition on_live_input (event : option Frame) : arm :=
  s <-! ask id;;
  match event with
  | Some frame =>
      do! on_live (on_captured (w_runtime_config s) (m_now m)
             (w_local_is_controller s && w_input_forwarding_enabled s
              && negb (w_session_paused s))
             (frame_with_role_epoch frame (w_role_epoch s)));;
      turn
  | None => turn
  end.

(** *** The tray *)

(** [win/main 1625-1652 run_connected_inner] *)
Definition pause_by_tray : acting unit :=
  do! on_coordinator (RoleCoordinator_set_paused true);;
  do! change (fun s => set_w_connector_paused true (set_w_session_paused true s));;
  do! force_release_to_local;;
  do! set_forwarding_enabled false;;
  do! release_peer_input;;
  do! write (Frame_Role (SetPaused true));;
  do! stop_audio Stop_UserRequest;;
  do! drop_audio;;
  do! tray_role false false;;
  tray_status "Disconnected by user".
(** [win/main 1623-1667 run_connected_inner] *)
Definition on_tray_disconnect : arm :=
  s <-! ask id;;
  if role_switch_available P && negb (is_transitioning (w_coordinator s)) then
    do! pause_by_tray;; turn
  else
    frame <-! all_keys_up_frame;;
    do! ignore (write frame);;
    do! stop_audio Stop_UserRequest;;
    do! change (fun s => set_w_audio_sender false (set_w_audio_receiver false s));;
    do! force_release_to_local;;
    leave Exit_Disconnect.
(** [win/main 1668-1702 run_connected_inner] *)
Definition on_tray_reconnect : arm :=
  if role_switch_available P then
    do! on_coordinator (RoleCoordinator_set_paused false);;
    do! change (fun s => set_w_connector_paused false (set_w_session_paused false s));;
    do! write (Frame_Role (SetPaused false));;
    s <-! ask id;;
    do! set_forwarding_enabled (w_local_is_controller s && w_input_forwarding_enabled s);;
    do! resume_audio;;
    do! tray_role (role_switch_available P) false;;
    do! tray_status (connection_status P);;
    turn
  else turn.
(** [win/main 1713-1738 run_connected_inner] *)
Definition on_tray_input_forwarding (enabled : bool) : arm :=
  do! (if enabled then st_ret tt
       else frame <-! all_keys_up_frame;; do! write frame;; release_peer_input);;
  do! change (set_w_input_forwarding_enabled enabled);;
  do! restore_forwarding;;
  do! tray_input_forwarding enabled;;
  do! (if peer_supports_input_toggle P then
         epoch <-! ask w_role_epoch;;
         write (Frame_control epoch (SetInputForwarding enabled))
       else st_ret tt);;
  turn.
(** The source that a choice of the tray asks for, if the peer can do it.
    [win/main 1740-1754 run_connected_inner] *)
Definition requested_source (choice : WindowsAudioChoice) : option (option string) :=
  match choice with
  | Choice_Off => Some None
  | Choice_Local => if peer_supports_audio_playback P && peer_supports_audio_route P
                    then Some (Some (local_fingerprint P)) else None
  | Choice_Peer => if peer_supports_audio_capture P then Some (Some (peer_fingerprint P)) else None
  end.
(** The route is committed, shown and announced.
    [win/main 1758-1776 run_connected_inner] *)
Definition commit_route (choice : WindowsAudioChoice) : acting unit :=
  do! drop_audio;;
  do! save_route;;
  s <-! ask id;;
  do! tray_audio_route choice (if w_audio_enabled s then "Audio: Starting" else "Audio: Off");;
  send_windows_audio_route.
(** [win/main 1777-1779 run_connected_inner] *)
Definition offer_if_local : acting unit :=
  s <-! ask id;;
  if source_is_local s && negb (w_session_paused s) then send_windows_audio_offer else st_ret tt.
(** [win/main 1739-1780 run_connected_inner] *)
Definition on_tray_audio (choice : WindowsAudioChoice) : arm :=
  match requested_source choice with
  | None =>
      source <-! ask w_audio_source;;
      do! tray_audio_route (windows_audio_choice source) "Audio: Direction unavailable";; turn
  | Some source =>
      do! set_audio_source source;;
      do! change (set_w_audio_restart_attempted false);;
      do! change (fun s =>
        let config := w_runtime_config s in
        set_w_runtime_config
          {| Config.device_name := Config.device_name config;
             start_with_windows := start_with_windows config;
             preferred_role := preferred_role config; transport := transport config;
             listen := listen config; cfg_peer := cfg_peer config; cfg_layout := cfg_layout config;
             cfg_input := cfg_input config; cfg_clipboard := cfg_clipboard config;
             cfg_audio := {| audio_route := audio_route (cfg_audio config);
                             audio_enabled := bool_decide (is_Some source);
                             local_playback := local_playback (cfg_audio config);
                             jitter_target_ms := jitter_target_ms (cfg_audio config) |};
             cfg_phone := cfg_phone config; cfg_notifications := cfg_notifications config |} s);;
      do! commit_route choice;;
      do! offer_if_local;;
      turn
  end.
(** [win/main 1603-1820 run_connected_inner] *)
Definition on_tray_outcome (outcome : TrayCommandOutcome) : arm :=
  match outcome with
  | Outcome_Quit =>
      frame <-! all_keys_up_frame;;
      do! ignore (write frame);;
      do! stop_audio Stop_Shutdown;;
      leave Exit_Quit
  | Outcome_Disconnect => on_tray_disconnect
  | Outcome_Reconnect => on_tray_reconnect
  | Outcome_Pair =>
      frame <-! all_keys_up_frame;;
      do! ignore (write frame);;
      do! force_release_to_local;;
      leave Exit_Pair
  | Outcome_InputForwardingChanged enabled => on_tray_input_forwarding enabled
  | Outcome_AudioChanged choice => on_tray_audio choice
  | Outcome_ControllerRequested choice =>
      do! request_controller (match choice with
                              | Controller_Local => local_fingerprint P
                              | Controller_Peer => peer_fingerprint P
                              end);;
      turn
  | Outcome_Continue => turn
  end.
(** [win/main 1603-1610 run_connected_inner] *)
Definition on_tray_poll : arm :=
  s <-! ask id;;
  let '(rest, outcome, releases) :=
    handle_pending_windows_tray_commands (w_tray_commands s) (w_input_forwarding_enabled s) 0 in
  do! change (set_w_tray_commands rest);;
  do! on_capture (Nat.iter releases (call_release_to_local (m_env m) Release_UserRequest));;
  on_tray_outcome outcome.

(** *** Frames of the peer *)

(** [win/main 1845-1850 run_connected_inner] *)
Definition on_heartbeat (heartbeat : Heartbeat) : acting unit :=
  s <-! ask id;;
  let '(ping, echo) := HeartbeatPing_incoming (w_heartbeat_ping s) heartbeat (m_now m) in
  do! change (set_w_heartbeat_ping ping);;
  do! (match echo with Some echo => write (Frame_Heartbeat echo) | None => st_ret tt end);;
  change (fun s => set_w_tray (set_round_trip (HeartbeatPing_round_trip ping) (w_tray s)) s).

(** The peer's input, while the peer controls; moving it to the edge it came from gives control
    back.  [win/main 1851-1886 run_connected_inner] *)
Definition on_peer_input (input : InputFrame) : acting unit :=
  s <-! ask id;;
  if negb (input_role_epoch input =? w_role_epoch s) || w_local_is_controller s
     || w_session_paused s then st_ret tt
  else
    match input_event input with
    | AllKeysUp => do! on_injector (all_keys_up SendInput);; record_injected
    | event =>
        if negb (w_input_forwarding_enabled s) || negb (accepts_input (w_input_epoch s))
        then st_ret tt
        else
          do! on_injector (WindowsInjection.inject SendInput event);;
          do! record_injected;;
          match event with
          | PointerMotion _ _ =>
              let '(watcher, left) := release_if_at_edge (m_now m) (m_cursor m)
                                        (w_return_watcher s) in
              do! change (set_w_return_watcher watcher);;
              control <-! st_lift (map_err Session_Cursor left);;
              match control with
              | Some control =>
                  do! release_peer_input;; write (Frame_control (w_role_epoch s) control)
              | None => st_ret tt
              end
          | _ => st_ret tt
          end
    end.

Definition capture_release (reason : ReleaseReason) : acting unit :=
  s <-! ask id;;
  if w_local_is_controller s
  then on_capture (fun p => (handle_receiver_release (m_env m) reason p).1)
  else st_ret tt.
(** [win/main 1911-1964 run_connected_inner] *)
Definition on_peer_control (control : ControlFrame) : acting unit :=
  s <-! ask id;;
  if negb (control_role_epoch control =? w_role_epoch s) then st_ret tt
  else
    match control_event control with
    | ReleaseToLocal reason => capture_release reason
    | LeaveRemote _ _ => capture_release Release_UserRequest
    | SetInputForwarding enabled =>
        if peer_supports_input_toggle P then
          do! change (set_w_input_forwarding_enabled enabled);;
          do! restore_forwarding;;
          do! (if enabled then st_ret tt else release_peer_input);;
          do! change (fun s => set_w_return_watcher
                (watcher_record_control (m_now m) (SetInputForwarding enabled)
                   (w_return_watcher s)) s);;
          tray_input_forwarding enabled
        else st_ret tt
    | EnterRemote _ _ as event =>
        if w_local_is_controller s then st_ret tt
        else change (fun s => set_w_return_watcher
               (watcher_record_control (m_now m) event (w_return_watcher s))
               (set_w_input_epoch (gate_observe_control (w_input_epoch s) event) s))
    end.

(** [win/main 1965-1994 run_connected_inner] *)
Definition on_role_request (requested : string) : acting unit :=
  if str_eqb requested (local_fingerprint P) || str_eqb requested (peer_fingerprint P)
  then request_controller requested else st_ret tt.

(** The decision on a role switch.  [win/main 2025-2089 run_connected_inner] *)
Definition on_role_decision (decision : RoleDecision) : acting unit :=
  match decision with
  | Decision_Commit commit =>
      controller <-! st_lift (ok_or (controller_fingerprint commit) Session_CommitWithoutController);;
      do! write (Frame_Role (Role_Commit commit));;
      do! change (set_w_pending_role_persistence (Some (role_epoch commit, controller)));;
      do! change (set_w_role_epoch (role_epoch commit));;
      do! change (set_w_local_is_controller (str_eqb controller (local_fingerprint P)));;
      do! release_peer_input;;
      do! restore_forwarding;;
      s <-! ask id;;
      do! tray_role (role_switch_available P && negb (w_session_paused s)) false;;
      tray_status (connection_status P)
  | Decision_Abort abort =>
      do! restore_forwarding;;
      do! write (Frame_Role (Role_Abort abort));;
      s <-! ask id;;
      do! tray_role (role_switch_available P && negb (w_session_paused s)) false;;
      match failure_detail abort with
      | Some detail => tray_status ("Connected: " ++ detail)
      | None => st_ret tt
      end
  end.
(** [win/main 1995-2089 run_connected_inner] *)
Definition on_role_ready (ready_epoch : Z) (capture_ready inject_ready : bool)
    (failure_detail : option string) : acting unit :=
  readiness <-! ask w_pending_role_readiness;;
  match readiness with
  | None => st_ret tt
  | Some (local_capture, local_inject, local_detail) =>
      do! change (fun s => set_w_transition_deadline None (set_w_pending_role_readiness None s));;
      decision <-! (attempt (on_coordinator (finish_ready ready_epoch local_capture local_inject
                      capture_ready inject_ready (option_or failure_detail local_detail))) :
                    acting (result RoleDecision WindowsSessionError));;
      match decision with
      | Ok decision => on_role_decision decision
      | Err (Session_Role (UnexpectedEpoch _ _)) =>
          change (fun s => set_w_transition_deadline (Some (m_now m + from_secs 5))
                    (set_w_pending_role_readiness readiness s))
      | Err error => st_fail error
      end
  end.

(** [win/main 2090-2116 run_connected_inner] *)
Definition on_role_applied (applied_epoch : Z) : acting unit :=
  s <-! ask id;;
  match w_pending_role_persistence s with
  | None => st_ret tt
  | Some (expected_epoch, controller) =>
      if negb (applied_epoch =? expected_epoch) || negb (applied_epoch =? w_role_epoch s)
      then st_ret tt
      else
        do! change (set_w_pending_role_persistence None);;
        do! st_lift (map_err Session_Persist (m_role_saved m));;
        change (set_w_role_store (Some (CommittedRole_new controller)))
  end.

(** [win/main 2117-2165 run_connected_inner] *)
Definition on_peer_set_paused (paused : bool) : acting unit :=
  s <-! ask id;;
  if is_transitioning (w_coordinator s) then st_ret tt
  else
    do! on_coordinator (RoleCoordinator_set_paused paused);;
    do! change (fun s => set_w_connector_paused paused (set_w_session_paused paused s));;
    do! (if paused then
           do! force_release_to_local;;
           do! set_forwarding_enabled false;;
           do! release_peer_input;;
           drop_audio
         else
           do! set_forwarding_enabled (w_local_is_controller s && w_input_forwarding_enabled s);;
           resume_audio);;
    do! write (Frame_Role (SetPaused paused));;
    do! tray_role (role_switch_available P && negb paused) false;;
    tray_status (if paused then "Disconnected by user" else connection_status P).

(** [win/main 2175-2221 run_connected_inner] *)
Definition on_audio_offer (udp_port : Z) (codecs : list AudioCodec) : acting unit :=
  s <-! ask id;;
  if source_is_peer s && existsb (fun c => match c with PcmS16Stereo48Khz => true end) codecs then
    do! tray_audio "Audio: Starting";;
    match m_receiver_port m with
    | Err error => tray_audio ("Audio error: " ++ error)
    | Ok windows_udp_port =>
        let '(session_id, session_salt, session_key) := m_secrets m in
        let jitter := jitter_target_ms (cfg_audio (w_runtime_config s)) in
        do! write (Frame_Audio (Audio_Start windows_udp_port session_id session_salt session_key
                     PcmS16Stereo48Khz Audio.FRAME_MS (truncate_to u16_max jitter)));;
        match m_playback m with
        | Ok _ => change (fun s => set_w_audio_receiver true (set_w_linux_streaming false s))
        | Err error =>
            do! tray_audio ("Audio error: " ++ error);;
            ignore (write (Frame_Audio (Audio_Stop PlaybackFailure)))
        end
    end
  else st_ret tt.
(** [win/main 2222-2283 run_connected_inner] *)
Definition on_audio_start : acting unit :=
  s <-! ask id;;
  if source_is_local s then
    match w_pending_audio_socket s with
    | None => st_ret tt
    | Some _ =>
        do! change (set_w_pending_audio_socket None);;
        match m_path m with
        | Err error => tray_audio ("Audio error: " ++ error)
        | Ok _ =>
            match m_loopback m with
            | Ok _ =>
                do! change (set_w_audio_sender true);;
                do! tray_audio_route Choice_Local "Audio: Streaming";;
                write (Frame_Audio (Audio_State Streaming None))
            | Err error =>
                do! tray_audio ("Audio error: " ++ error);;
                ignore (write (Frame_Audio (Audio_Stop CaptureFailure)))
            end
        end
    end
  else st_ret tt.
(** [win/main 2285-2288 run_connected_inner] *)
Definition route_is_valid (source : option string) : bool :=
  is_none_or (fun source =>
    str_eqb source (local_fingerprint P) && peer_supports_audio_playback P
      && peer_supports_audio_route P
    || str_eqb source (peer_fingerprint P) && peer_supports_audio_capture P) source.
(** [win/main 2284-2322 run_connected_inner] *)
Definition on_audio_request_route (source : option string) : acting unit :=
  if route_is_valid source then
    do! set_audio_source source;;
    do! commit_route (windows_audio_choice source);;
    offer_if_local
  else send_windows_audio_route.
(** [win/main 2355-2360 run_connected_inner] *)
Definition stream_status (state : AudioStreamState) (detail : option string) : string :=
  match state with
  | Stream_Disabled => "Audio: Off"
  | WaitingForUdp | Starting => "Audio: Starting"
  | Streaming => "Audio: Streaming"
  | Stream_Error => "Audio error: " ++ default "unknown error" detail
  end.
(** [win/main 2326-2368 run_connected_inner] *)
Definition on_audio_state (state : AudioStreamState) (detail : option string) : acting unit :=
  s <-! ask id;;
  let is_error := match state with Stream_Error => true | _ => false end in
  if is_error && source_is_local s && negb (w_audio_restart_attempted s)
     && negb (w_session_paused s) then
    do! change (fun s => set_w_audio_sender false (set_w_audio_restart_attempted true s));;
    do! send_windows_audio_offer;;
    tray_audio_route Choice_Local "Audio: Restarting"
  else
    let is_streaming := match state with Streaming => true | _ => false end in
    do! (if is_streaming && w_audio_receiver s then change (set_w_linux_streaming true)
         else st_ret tt);;
    tray_audio_route (windows_audio_choice (w_audio_source s)) (stream_status state detail).
(** [reason:?] *)
Definition debug_stop_reason (reason : AudioStopReason) : string :=
  match reason with
  | Stop_UserRequest => "UserRequest" | Stop_PeerDisconnected => "PeerDisconnected"
  | TransportFailure => "TransportFailure" | CaptureFailure => "CaptureFailure"
  | PlaybackFailure => "PlaybackFailure" | Stop_Shutdown => "Shutdown"
  end.
(** [win/main 2369-2380 run_connected_inner] *)
Definition on_audio_stop (reason : AudioStopReason) : acting unit :=
  do! drop_audio;;
  source <-! ask w_audio_source;;
  tray_audio_route (windows_audio_choice source) ("Audio stopped: " ++ debug_stop_reason reason).
(** [win/main 2381-2405 run_connected_inner] *)
Definition on_audio_set_enabled (enabled : bool) : acting unit :=
  let source := if enabled then Some (peer_fingerprint P) else None in
  do! set_audio_source source;;
  commit_route (windows_audio_choice source).

(** [win/main 2175-2406 run_connected_inner] *)
Definition on_audio (control : AudioControl) : acting unit :=
  match control with
  | Audio_Offer udp_port codecs => on_audio_offer udp_port codecs
  | Audio_Start _ _ _ _ PcmS16Stereo48Khz _ _ => on_audio_start
  | RequestRoute source => on_audio_request_route source
  | SetRoute _ => st_ret tt
  | Audio_State state detail => on_audio_state state detail
  | Audio_Stop reason => on_audio_stop reason
  | SetEnabled enabled => on_audio_set_enabled enabled
  end.

(** A frame of the peer, or the end of its stream.  [win/main 1841-2409 run_connected_inner] *)
Definition on_frame (frame : option Frame) : arm :=
  match frame with
  | None => st_fail Session_ReaderEnded
  | Some frame =>
      do! change (fun s => set_w_receiver_liveness
                    (observe_authenticated_frame (w_receiver_liveness s) (m_now m)) s);;
      do! (match frame with
           | Frame_Heartbeat heartbeat => on_heartbeat heartbeat
           | Frame_Input input => on_peer_input input
           | Frame_Clipboard event =>
               s <-! ask id;;
               on_live (on_clipboard_frame (w_runtime_config s) (m_now m) (w_session_paused s) event)
           | Frame_Control control => on_peer_control control
           | Frame_Role (Role_Request requested) => on_role_request requested
           | Frame_Role (Protocol.Ready epoch capture inject detail) =>
               on_role_ready epoch capture inject detail
           | Frame_Role (Applied epoch) => on_role_applied epoch
           | Frame_Role (SetPaused paused) => on_peer_set_paused paused
           | Frame_Error e => st_fail (Session_PeerError (code e) (message e))
           | Frame_Audio control => on_audio control
           | _ => st_ret tt
           end);;
      turn
  end.

(** What wakes the loop; the head of the loop, which may turn at once, is an event as well. *)
Inductive wake_up :=
| Wake_head | Wake_ctrl_c | Wake_audio_watch | Wake_config_refresh
| Wake_config_reloaded (reloaded : result AppConfig string)
| Wake_watchdog | Wake_heartbeat | Wake_clipboard_poll
| Wake_read_finished (read : result (option ClipboardItem) WindowsInputError)
| Wake_tray | Wake_live_input (event : option Frame) | Wake_delayed
| Wake_frame (frame : option Frame) | Wake_clipboard_send.

(** [win/main 1401-2437 run_connected_inner] *)
Definition session_step (w : wake_up) : arm :=
  match w with
  | Wake_head => live_arm (fun config paused =>
      do! on_loop_head config (m_now m) paused;; st_ret tt)
  | Wake_ctrl_c => on_ctrl_c
  | Wake_audio_watch => on_audio_watch
  | Wake_config_refresh => on_config_refresh
  | Wake_config_reloaded reloaded => on_config_reloaded reloaded
  | Wake_watchdog => on_watchdog
  | Wake_heartbeat => on_heartbeat_due
  | Wake_clipboard_poll => live_arm on_clipboard_poll
  | Wake_read_finished read => live_arm (fun config paused => on_read_finished config paused read)
  | Wake_tray => on_tray_poll
  | Wake_live_input event => on_live_input event
  | Wake_delayed => live_arm (fun _ paused => on_delayed (m_now m) paused)
  | Wake_frame frame => on_frame frame
  | Wake_clipboard_send => live_arm (fun config paused => on_send_tick config (m_now m) paused)
  end.
End Arms.

(** ** The start and the end of a session *)

(** [win/main 1041-1047 InitialReceiverState] *)
Record InitialReceiverState := {
  initial_peer_name : string;
  initial_screen_info : option ScreenInfo;
  initial_capabilities : list NodeCapability;
  initial_extensions : list string;
  initial_role_state : option RoleState;
}.

(** [win/main 1220-1255 run_connected_inner] *)
Definition pair_of (name fingerprint peer status : string) (initial : InitialReceiverState) : Pair :=
  let has c := bool_decide (c ∈ initial_capabilities initial) in
  let extends name := existsb (fun extension => str_eqb extension name)
                        (initial_extensions initial) in
  {| local_name := name; peer_display_name := initial_peer_name initial;
     local_fingerprint := fingerprint; peer_fingerprint := peer; connection_status := status;
     peer_supports_audio_capture := has AudioCaptureV1;
     peer_supports_audio_playback := has AudioPlaybackV1;
     peer_supports_audio_route := extends AUDIO_ROUTE_EXTENSION;
     peer_supports_input_toggle := extends INPUT_TOGGLE_EXTENSION;
     role_switch_available := has RoleSwitchV1 && has InputCaptureV1 && has InputInjectV1 |}.

(** [win/main 3401-3414 start_live_input] *)
Definition live_capture_config (config : AppConfig) (screen_info : option ScreenInfo) :
  CaptureConfig :=
  {| cap_edge := peer_position_to_edge (Config.listener_position (cfg_layout config));
     WindowsCapture.remote_size := (remote_size screen_info).1;
     game_compatibility := capture_game_compatibility (capture (cfg_input config)) |}.

(** What outlives a session: the clipboard and the tray of the computer, the capture, the user's
    switches and the stores. *)
Record Application (W : Type) := {
  app_station : W;
  app_capture : Process;
  app_tray : TrayStatics;
  app_tray_commands : list WindowsTrayCommand;
  app_tray_clipboard_events : Z;
  app_input_forwarding_enabled : bool;
  app_connector_paused : bool;
  app_role_store : option CommittedRole;
  app_audio_route_store : option CommittedAudioRoute;
}.
Arguments app_station {W} _.
Arguments app_capture {W} _.
Arguments app_tray {W} _.
Arguments app_tray_commands {W} _.
Arguments app_tray_clipboard_events {W} _.
Arguments app_input_forwarding_enabled {W} _.
Arguments app_connector_paused {W} _.
Arguments app_role_store {W} _.
Arguments app_audio_route_store {W} _.

Section Start.
Context {W : Type} `{WindowsClipboardApi W} `{Lib : ClipboardLibraries} `{FrameCodec}.
Context (SendInput : list (INPUT * bool) -> INPUT -> bool) (P : Pair) (m : Moment).
Context (config : AppConfig) (initial : InitialReceiverState).

Abbreviation acting := (stateful (WindowsSession W) WindowsSessionError).

(** The state before the first effect.  [win/main 1256-1324 run_connected_inner] *)
Definition initial_session (role : RoleState) (coordinator : RoleCoordinator)
    (tracker : LivenessTracker) (a : Application W) : WindowsSession W :=
  {| w_live :=
       {| live := LiveClipboardState_new config
                    (ClipboardPeerFeatures_from_extensions (initial_extensions initial))
                    (app_station a);
          station := app_station a; written := []; schedule := ImageTransferSchedule_default;
          connected := true; delayed := []; stats := ControllerInputStats_default;
          tray_clipboard_events := app_tray_clipboard_events a |};
     w_capture := app_capture a; w_injector := Injector_new; w_tray := app_tray a;
     w_tray_commands := app_tray_commands a; w_coordinator := coordinator;
     w_role_epoch := role_epoch role;
     w_local_is_controller :=
       bool_decide (controller_fingerprint role = Some (local_fingerprint P));
     w_session_paused := paused role;
     w_input_forwarding_enabled := app_input_forwarding_enabled a;
     w_input_epoch := InputEpochGate_default;
     w_return_watcher := watcher_new (m_now m) (windows_screen_info (metrics (m_env m)));
     w_pending_role_readiness := None; w_transition_deadline := None;
     w_pending_role_persistence := None; w_role_store := app_role_store a;
     w_connector_paused := app_connector_paused a;
     w_heartbeat_sequence := 0; w_heartbeat_ping := HeartbeatPing_default;
     w_heartbeat_due := m_now m + heartbeat_interval LivenessConfig_default false;
     w_receiver_liveness := tracker; w_audio_receiver := false; w_linux_streaming := false;
     w_audio_sender := false; w_pending_audio_socket := None;
     w_audio_restart_attempted := false; w_audio_source := None; w_audio_enabled := false;
     w_audio_route_store := app_audio_route_store a; w_runtime_config := config;
     w_config_reload := false |}.

(** The source of a session's audio: what was committed for this pair, or else configured.
    [win/main 1330-1339 run_connected_inner] *)
Definition configured_source (stored : option CommittedAudioRoute) : option string :=
  match stored with
  | Some route => route_source route
  | None =>
      match audio_route (cfg_audio config) with
      | Some Route_Disabled => None
      | Some Route_LocalToPeer => Some (local_fingerprint P)
      | Some Route_PeerToLocal => Some (peer_fingerprint P)
      | None => if audio_enabled (cfg_audio config) then Some (peer_fingerprint P) else None
      end
  end.
(** [win/main 1340-1346 run_connected_inner] *)
Definition supported_source (source : option string) : option string :=
  if bool_decide (source = Some (local_fingerprint P))
       && (negb (peer_supports_audio_playback P) || negb (peer_supports_audio_route P))
     || bool_decide (source = Some (peer_fingerprint P)) && negb (peer_supports_audio_capture P)
  then None else source.
(** [win/main 1325-1387 run_connected_inner] *)
Definition start_audio : acting unit :=
  do! st_lift (map_err Session_Persist (m_route_loaded m));;
  store <-! ask w_audio_route_store;;
  let stored := match store with
                | Some route => if route_belongs_to route (local_fingerprint P) (peer_fingerprint P)
                                then Some route else None
                | None => None
                end in
  do! set_audio_source (supported_source (configured_source stored));;
  do! (match stored with None => save_route m | Some _ => st_ret tt end);;
  s <-! ask id;;
  do! tray_audio_route P (windows_audio_choice P (w_audio_source s))
        (if w_audio_enabled s then "Audio: Starting" else "Audio: Off");;
  if negb (w_session_paused s) then
    do! send_windows_audio_route P;;
    if source_is_local P s then send_windows_audio_offer m else st_ret tt
  else tray_audio "Audio: Paused".

(** [win/main 1256-1399 run_connected_inner] *)
Definition start_session : acting unit :=
  started <-! (fun s => let r := start (m_env m) (live_capture_config config
                                         (initial_screen_info initial)) (w_capture s) in
                        (set_w_capture r.1 s, Ok r.2));;
  do! (if (started : bool) then st_ret tt else st_fail Session_CaptureFailed);;
  do! restore_forwarding m;;
  s <-! ask id;;
  do! tray_input_forwarding (w_input_forwarding_enabled s);;
  do! tray_role P (role_switch_available P && negb (w_session_paused s)) false;;
  do! (if w_session_paused s then tray_status m "Disconnected by user" else st_ret tt);;
  do! start_audio;;
  if peer_supports_input_toggle P
  then write (Frame_control (w_role_epoch s) (SetInputForwarding (w_input_forwarding_enabled s)))
  else st_ret tt.

(** [win/main 1209-1399 run_connected_inner] *)
Definition open_session (a : Application W) : result (WindowsSession W) WindowsSessionError :=
  let? role := ok_or (initial_role_state initial) Session_NoRoleState in
  let? coordinator := map_err Session_Role
    (RoleCoordinator_new (local_fingerprint P) (peer_fingerprint P) (controller_fingerprint role)
       (role_epoch role) (Protocol.listener_position role) (paused role)) in
  match LivenessTracker_new LivenessConfig_default (m_now m) with
  | None => Err Session_NoRoleState
  | Some tracker =>
      match start_session (initial_session role coordinator tracker a) with
      | (s, Ok _) => Ok s
      | (_, Err e) => Err e
      end
  end.

(** The end of a session, whatever ended it: the injector is dropped, control is released.
    [win/main 1186-1207 run_connected] *)
Definition close_session (s : WindowsSession W) : WindowsSession W :=
  set_w_capture (disable (m_env m) (w_capture s))
    (set_w_injector (drop_injector SendInput (w_injector s)) s).
End Start.
