(* ===== verification/WindowsFrames.v ===== *)
(** * What the clipboard and the input of a Windows session write

    Whatever a session writes for its clipboard, its captured input and the input it holds back,
    it writes frames of one kind: clipboard frames, the captured frame, or a frame it held. *)
From S2P Require Export WindowsClipboard.
#[local] Open Scope Z_scope.
#[local] Open Scope list_scope.

Section Frames.
Context {W : Type} `{WindowsClipboardApi W} `{Lib : ClipboardLibraries} `{FrameCodec}.
Context (config : AppConfig) (now : Instant).
(** The frames that may be written. *)
Context (may : Frame -> Prop) (clipboard_may : forall event, may (Frame_Clipboard event)).

Abbreviation living := (stateful (Live W) LiveError).

(** The frames that wait may be written. *)
Definition waiting_ok (s : Live W) : Prop :=
  connected s = true /\ Forall may (held_input (live s)) /\ Forall (fun x => may x.2) (delayed s).
Definition writes (s s' : Live W) : Prop :=
  exists frames, written s' = written s ++ frames /\ Forall may frames.
#[export] Instance writes_preorder : PreOrder writes.
Proof.
  split.
  - intros s. exists []. by rewrite app_nil_r.
  - intros s1 s2 s3 (k & E1 & Hk) (l & E2 & Hl). exists (k ++ l).
    rewrite E2, E1, app_assoc. split; [done|]. by apply Forall_app.
Qed.

Abbreviation lawful := (keeps waiting_ok writes).
Abbreviation lawfully m := (keeps waiting_ok writes (fun _ => True) m).

(** *** The steps of the handlers *)

Lemma lawful_bind {A B} (Q : B -> Prop) (m : living A) (k : A -> living B) :
  lawfully m -> (forall a, lawful Q (k a)) -> lawful Q (st_bind m k).
Proof. intros Hm Hk. eapply keeps_bind; [apply _|exact Hm|auto]. Qed.
Lemma lawful_frames {B} (Q : B -> Prop) (m : living (list Frame)) (k : list Frame -> living B) :
  lawful (Forall may) m -> (forall frames, Forall may frames -> lawful Q (k frames)) ->
  lawful Q (st_bind m k).
Proof. apply keeps_bind, _. Qed.
Lemma lawful_any {A} (Q : A -> Prop) (m : living A) : (forall a, Q a) -> lawfully m -> lawful Q m.
Proof. intros HQ. by apply keeps_weaken. Qed.

(** A step that leaves what is written and what waits alone. *)
Lemma lawful_quiet {A} (m : living A) :
  (forall s, written (m s).1 = written s /\ held_input (live (m s).1) = held_input (live s)
             /\ delayed (m s).1 = delayed s /\ connected (m s).1 = connected s) ->
  lawfully m.
Proof.
  intros Hm s (Hc & Hh & Hd). destruct (Hm s) as (E1 & E2 & E3 & E4). unfold waiting_ok.
  rewrite E2, E3, E4. split_and!; try done.
  - exists []. by rewrite E1, app_nil_r.
  - by destruct (m s).2.
Qed.
Lemma lawful_modify f : (forall st, held_input (f st) = held_input st) -> lawfully (@modify W f).
Proof. intros Hf. apply lawful_quiet. intros s. cbn. by rewrite Hf. Qed.
Lemma lawful_gets {A} (f : Live W -> A) : lawfully (gets f).
Proof. by apply lawful_quiet. Qed.
Lemma lawful_read_item : lawfully (read_item config).
Proof. by apply lawful_quiet. Qed.
Lemma lawful_record_frame frame : lawfully (@record_frame W frame).
Proof. by apply lawful_quiet. Qed.
Lemma lawful_write_to_clipboard write : lawfully (@write_to_clipboard W write).
Proof. by apply lawful_quiet. Qed.
Lemma lawful_record_applied id : lawfully (record_applied id).
Proof. by apply lawful_quiet. Qed.
Lemma lawful_receive event : lawfully (receive_incoming config now event).
Proof. by apply lawful_quiet. Qed.
Lemma lawful_write frame : may frame -> lawfully (@write_secure_frame_writer W _ frame).
Proof.
  intros Hf s (Hc & Hh & Hd). unfold write_secure_frame_writer, waiting_ok.
  destruct (encode_secure_frame frame); [destruct (connected s) eqn:E|];
    (split_and!; try done); try (exists []; by rewrite app_nil_r).
  exists [frame]. repeat constructor. done.
Qed.
Lemma lawful_write_all frames : Forall may frames -> lawfully (@write_all W _ frames).
Proof.
  induction 1 as [|frame frames Hf _ IH]; cbn [write_all]; [by apply keeps_ret; [apply _|]|].
  apply lawful_bind; [by apply lawful_write|done].
Qed.

Create HintDb lawful.
#[local] Hint Resolve lawful_gets lawful_read_item lawful_record_frame lawful_write_to_clipboard
  lawful_record_applied lawful_receive lawful_write lawful_write_all clipboard_may : lawful.
#[local] Hint Extern 1 (keeps _ _ _ (modify _)) => apply lawful_modify; reflexivity : lawful.
Ltac lawful_step :=
  match goal with
  | |- keeps _ _ _ (st_bind _ _) => apply lawful_bind; [|intros]
  | |- keeps _ _ _ (st_ret _) => apply keeps_ret; [apply _|]
  | |- keeps _ _ _ (st_fail _) => apply keeps_fail; apply _
  | |- keeps _ _ (fun _ => True) (st_lift _) => apply keeps_lift; [apply _|done]
  | |- keeps _ _ _ (if ?b then _ else _) => destruct b
  | |- keeps _ _ _ (match ?x with _ => _ end) => destruct x
  | |- Forall _ (_ :: _) => apply List.Forall_cons
  | |- Forall _ [] => apply List.Forall_nil
  | |- Forall _ (_ ++ _) => apply Forall_app
  end.
Ltac lawful_steps := repeat lawful_step; auto with lawful.

(** *** The functions of the clipboard *)

Lemma lawful_replace_outgoing : lawful (Forall may) (@replace_outgoing W).
Proof. unfold replace_outgoing. lawful_steps. Qed.
Lemma lawful_next_transfer_id : lawfully (@next_transfer_id W).
Proof. unfold next_transfer_id. lawful_steps. Qed.
#[local] Hint Resolve lawful_replace_outgoing lawful_next_transfer_id : lawful.
Lemma lawful_push_text_offer sequence text id :
  lawful (Forall may) (push_text_offer sequence text id).
Proof.
  unfold push_text_offer. apply lawful_frames; [auto with lawful|intros frames Hf].
  lawful_steps.
Qed.
#[local] Hint Resolve lawful_push_text_offer : lawful.
Lemma lawful_offer_item current force : lawful (Forall may) (offer_item config current force).
Proof.
  unfold offer_item. do 2 (apply lawful_bind; [auto with lawful|intros]).
  destruct (_.2) as [sequence|]; [|lawful_steps].
  destruct current as [[text|image]|]; [auto with lawful| |lawful_steps].
  apply lawful_bind; [auto with lawful|intros]. destruct (_ && _); [|lawful_steps].
  apply lawful_frames; [auto with lawful|intros frames Hf]. lawful_steps.
Qed.
#[local] Hint Resolve lawful_offer_item : lawful.
Lemma lawful_attempt {A} (m : living A) : lawfully m -> lawfully (attempt m : living (result A LiveError)).
Proof. intros Hm. eapply keeps_weaken; [|apply keeps_attempt, Hm]. done. Qed.

(** *** Input *)

(** Frames that were allowed to pass, or a paste that is held behind its image. *)
Lemma lawful_hold frame : may frame -> lawfully (@hold_frame W frame).
Proof.
  intros Hf s (Hc & Hh & Hd). unfold waiting_ok.
  split_and!; try done; [|by exists []; rewrite app_nil_r].
  cbn. by apply Forall_app_2; [|constructor].
Qed.
Lemma lawful_raise_barrier frame : may frame -> lawfully (@raise_barrier W now frame).
Proof. intros Hf. unfold raise_barrier. apply lawful_bind; [by apply lawful_hold|]. lawful_steps. Qed.
#[local] Hint Resolve lawful_hold lawful_raise_barrier : lawful.
Lemma lawful_prepare_paste frame : may frame ->
  lawful (Forall may) (prepare_paste config now frame).
Proof.
  intros Hf. unfold prepare_paste.
  apply lawful_bind; [apply lawful_attempt; auto with lawful|intros [current|e]]; [|lawful_steps].
  apply lawful_bind; [auto with lawful|intros peer].
  assert (forall frames, Forall may frames -> forall outgoing, lawful (Forall may)
    (if is_some_and outgoing_is_text outgoing
     then do! raise_barrier now frame;; st_ret frames
     else st_ret (frames ++ [frame]) : living (list Frame))) as Hpaste.
  { intros frames Hfs outgoing. destruct (is_some_and _ _); lawful_steps. }
  destruct current as [[text|image]|].
  - apply lawful_frames; [auto with lawful|intros frames Hfs].
    apply lawful_bind; [auto with lawful|auto].
  - destruct (_ && _).
    + apply lawful_bind; [auto with lawful|intros last]. case_bool_decide; [lawful_steps|].
      apply lawful_bind; [auto with lawful|intros sending].
      apply lawful_frames; [case_bool_decide; lawful_steps|intros frames Hfs]. lawful_steps.
    + apply lawful_frames; [auto with lawful|intros frames Hfs].
      apply lawful_bind; [auto with lawful|auto].
  - apply lawful_frames; [auto with lawful|intros frames Hfs].
    apply lawful_bind; [auto with lawful|auto].
Qed.
Lemma lawful_prepare_input frame : may frame ->
  lawful (Forall may) (prepare_input config now frame).
Proof.
  intros Hf. unfold prepare_input. apply lawful_bind; [auto with lawful|intros st].
  destruct (bool_decide _); [destruct (is_motion_frame frame); lawful_steps|].
  destruct (negb _); [lawful_steps|]. destruct (_ && _); [by apply lawful_prepare_paste|].
  lawful_steps.
Qed.
Lemma lawful_after_input_sent frame : lawfully (after_input_sent config now frame : living unit).
Proof.
  intros s (Hc & Hh & Hd). unfold after_input_sent.
  assert (forall s', written s' = written s -> held_input (live s') = held_input (live s) ->
    connected s' = connected s -> Forall (fun x => may x.2) (delayed s') ->
    waiting_ok s' /\ writes s s' /\ True) as Hq.
  { intros s' E1 E2 E3 Hd'. unfold waiting_ok. rewrite E2, E3. split_and!; try done.
    exists []. by rewrite E1, app_nil_r. }
  destruct (Frame_input_event frame) as [[| | |code down|]|]; try (by apply Hq).
  destruct (_ || _); [by apply Hq|]. destruct (_ && _); [|by apply Hq].
  apply Hq; try done. cbn. apply Forall_app_2; [done|]. apply List.Forall_cons; [|constructor].
  apply clipboard_may.
Qed.
Lemma lawful_send_input counted frames : Forall may frames ->
  lawfully (send_input config now counted frames : living unit).
Proof.
  induction 1 as [|frame frames Hf _ IH]; cbn [send_input]; [lawful_steps|].
  apply lawful_bind; [auto with lawful|intros _].
  apply lawful_bind; [destruct counted; lawful_steps|intros _].
  apply lawful_bind; [apply lawful_after_input_sent|done].
Qed.
Lemma lawful_take_held : lawful (Forall may) (@take_held_input W).
Proof.
  intros s (Hc & Hh & Hd). cbn. unfold waiting_ok. cbn. split_and!; try done.
  exists []. cbn. by rewrite app_nil_r.
Qed.
Lemma lawful_release_held counted : lawfully (release_held config now counted : living unit).
Proof.
  unfold release_held. apply lawful_frames; [apply lawful_take_held|].
  intros frames Hf. by apply lawful_send_input.
Qed.
#[local] Hint Resolve lawful_release_held lawful_prepare_input lawful_send_input : lawful.

(** *** Frames of the peer and the arms of the loop *)

Lemma lawful_prefer_newer id : lawfully (prefer_newer_local_clipboard config id).
Proof.
  unfold prefer_newer_local_clipboard. apply lawful_bind; [auto with lawful|intros current].
  case_bool_decide; [lawful_steps|].
  apply lawful_bind; [auto with lawful|intros seen]. destruct (_ && _); [|lawful_steps].
  apply lawful_frames; [auto with lawful|intros frames Hf]. lawful_steps.
Qed.
#[local] Hint Resolve lawful_prefer_newer : lawful.
Lemma lawful_apply_remote id write : lawfully (apply_remote config id write).
Proof. unfold apply_remote. lawful_steps. Qed.
Lemma lawful_cancel_frame id reason : lawfully (@cancel_frame W _ id reason).
Proof. unfold cancel_frame. lawful_steps. Qed.
#[local] Hint Resolve lawful_apply_remote lawful_cancel_frame : lawful.
Lemma lawful_handle_transfer event : lawfully (handle_transfer config now event).
Proof. unfold handle_transfer, apply_remote_text. lawful_steps. Qed.
Lemma lawful_handle_remote_event event : lawfully (handle_remote_event config now event).
Proof.
  unfold handle_remote_event, apply_remote_text, local_clipboard_offer.
  destruct (negb _); [lawful_steps|].
  destruct event; try apply lawful_handle_transfer; try (by lawful_steps).
  - apply lawful_bind; [by apply lawful_quiet|]. intros [text'|]; [|lawful_steps].
    do 2 (apply lawful_bind; [auto with lawful|intros ?]).
    destruct (_.2); [|lawful_steps]. apply lawful_frames; auto with lawful.
  - apply lawful_frames; [|auto with lawful].
    apply lawful_bind; auto with lawful.
Qed.

Lemma lawful_on_clipboard_frame paused event :
  lawfully (on_clipboard_frame config now paused event).
Proof.
  unfold on_clipboard_frame. destruct paused; [lawful_steps|].
  apply lawful_bind; [apply lawful_attempt, lawful_handle_remote_event|].
  intros [?|?]; [|lawful_steps]. by apply lawful_quiet.
Qed.
Lemma lawful_on_poll paused : lawfully (on_clipboard_poll config paused).
Proof.
  unfold on_clipboard_poll. destruct paused; [lawful_steps|]. apply lawful_quiet.
  intros s. unfold poll_local_change. by repeat case_match.
Qed.
Lemma lawful_complete_local_read finished read :
  lawful (Forall may) (complete_local_read config finished read).
Proof.
  unfold complete_local_read. apply lawful_bind; [auto with lawful|intros].
  destruct (negb _); [lawful_steps|]. apply lawful_bind; [lawful_steps|intros].
  apply lawful_frames; [auto with lawful|intros frames Hf]. lawful_steps.
Qed.
Lemma lawful_on_read_finished paused read : lawfully (on_read_finished config paused read).
Proof.
  unfold on_read_finished. apply lawful_bind; [auto with lawful|intros st].
  destruct (pending_read st) as [finished|]; [|lawful_steps].
  apply lawful_bind; [auto with lawful|intros _]. destruct paused; [lawful_steps|].
  eapply keeps_bind; [apply _|apply keeps_attempt, lawful_complete_local_read|].
  intros [frames|e] Hf; [|lawful_steps].
  induction Hf as [|frame frames Hf _ IH]; [lawful_steps|].
  apply lawful_bind; [auto with lawful|intros _].
  apply lawful_bind; [auto with lawful|intros _]. exact IH.
Qed.
Lemma lawful_on_watchdog : lawfully (@on_transfer_watchdog W _ now).
Proof.
  intros s Hs. unfold on_transfer_watchdog.
  destruct (expire_transfer_id now (live_incoming (live s))) as [i [id|]]; cbn [fst snd].
  - exact (lawful_write _ (clipboard_may _) (with_live (set_live_incoming i (live s)) s) Hs).
  - split_and!; [done| |done]. by exists []; rewrite app_nil_r.
Qed.
Lemma lawful_next_image_frame : lawful (fun o => forall x, o = Some x -> may x.1) (@next_image_frame W).
Proof.
  unfold next_image_frame. lawful_steps; intros x; [|done..]. intros [= <-]. apply clipboard_may.
Qed.
Lemma lawful_send_transfer_frame : lawfully (@send_transfer_frame W _ config now).
Proof.
  unfold send_transfer_frame. eapply keeps_bind; [apply _|exact lawful_next_image_frame|].
  intros [[frame completed]|] Hf; [|lawful_steps].
  apply lawful_bind; [apply lawful_write, (Hf _ eq_refl)|intros _].
  apply lawful_bind; [|lawful_steps]. destruct completed; [|lawful_steps].
  apply lawful_bind; [|auto with lawful]. by apply lawful_quiet.
Qed.
#[local] Hint Resolve lawful_send_transfer_frame : lawful.
Lemma lawful_on_loop_head paused : lawfully (@on_loop_head W _ config now paused).
Proof. unfold on_loop_head. lawful_steps. Qed.
Lemma lawful_on_send_tick paused : lawfully (on_send_tick config now paused : living unit).
Proof.
  unfold on_send_tick. apply lawful_bind; [auto with lawful|intros st].
  destruct (_ || _); [lawful_steps|]. destruct (paste_barrier_expired now st); [|lawful_steps].
  apply (keeps_bind waiting_ok writes (fun cancel => forall frame, cancel = Some frame -> may frame)).
  - unfold cancel_expired_paste_barrier. do 2 (apply lawful_bind; [auto with lawful|intros _]).
    apply lawful_bind; [auto with lawful|intros active]. lawful_steps. intros frame.
    destruct active; [|done]. intros [= <-]. apply clipboard_may.
  - intros cancel Hc. apply lawful_bind; [|auto with lawful].
    destruct cancel; [|lawful_steps]. by apply lawful_write, Hc.
Qed.
Lemma lawful_on_captured forwarding frame : (forwarding = true -> may frame) ->
  lawfully (on_captured config now forwarding frame).
Proof.
  intros Hf. unfold on_captured. destruct forwarding; [|lawful_steps].
  apply lawful_frames; auto with lawful.
Qed.
Lemma lawful_on_delayed paused : lawfully (on_delayed now paused : living unit).
Proof.
  intros s (Hc & Hh & Hd). unfold on_delayed.
  assert (waiting_ok s /\ writes s s /\ True) as Hs by (unfold waiting_ok; split_and!; done).
  destruct (delayed s) as [|[at_ frame] rest] eqn:El; [exact Hs|].
  destruct (at_ <=? now); [|exact Hs].
  inversion_clear Hd as [|? ? Hf Hd']. cbn [snd] in Hf.
  assert (waiting_ok (with_delayed rest s)) as Hs' by done.
  assert (writes s (with_delayed rest s)) as Hw by (by exists []; rewrite app_nil_r).
  destruct paused; [by split_and!|].
  assert (lawfully (do! write_secure_frame_writer frame;; record_frame frame)) as Hm.
  { apply lawful_bind; auto with lawful. }
  destruct (Hm _ Hs') as (H1 & H2 & H3). split_and!; [done| |done]. by etrans.
Qed.
End Frames.
