(* ===== verification/WindowsHandover.v ===== *)
(** * The handover between a Windows connector and a Linux listener

    The session of [WindowsSession] writes only what a listener can follow: the invariant of
    [Handover] holds for a Windows connector as it does for a Linux one, and with it what
    follows from it.  Input that the clipboard's barrier held back may be of an earlier epoch;
    the listener ignores it. *)
From S2P Require Export Handover WindowsFrames WindowsSession.
#[local] Open Scope Z_scope.
#[local] Open Scope list_scope.

(** ** What a session may write without moving the assignment *)

Definition ordinary (epoch : Z) (controls : bool) (f : Frame) : Prop :=
  match f with
  | Frame_Input i => input_event i = AllKeysUp \/ input_role_epoch i < epoch
                     \/ input_role_epoch i = epoch /\ controls = true
  | Frame_Role (SessionState _ | Prepare _ | Role_Commit _ | Role_Abort _) => False
  | _ => True
  end.

Lemma ordinary_follows connector v epoch controls frames :
  v_epoch v = epoch -> (controls = true -> v_controller v = Some connector) ->
  Forall (ordinary epoch controls) frames -> follow_all connector v frames v.
Proof.
  intros He Hc. induction 1 as [|f frames Hf _ IH]; [constructor|].
  econstructor; [|exact IH]. destruct f as [| |i| | | | | | |[]| | |];
    try (by apply follow_neutral); try done.
  destruct i as [e ev]. cbn in Hf. destruct Hf as [-> |[Hf|[Hf Hcon]]].
  - by apply follow_neutral.
  - apply follow_stale. cbn. lia.
  - apply follow_input; [cbn; lia|auto].
Qed.

(** What was ordinary stays so in the next epoch. *)
Lemma ordinary_later epoch epoch' controls controls' f :
  epoch < epoch' -> ordinary epoch controls f -> ordinary epoch' controls' f.
Proof. intros He. destruct f as [| |i| | | | | | |[]| | |]; cbn; auto.
  intros [?|[?|[? ?]]]; [by left|right; left; lia..].
Qed.

(** *** The coordinator's methods, as what they return *)

Lemma set_paused_spec b c : RoleCoordinator_set_paused b c =
  if is_transitioning c then (c, Err TransitionInProgress)
  else let st := {| controller_fingerprint := controller_fingerprint (stable c);
                    role_epoch := role_epoch (stable c); transition := transition (stable c);
                    listener_position := listener_position (stable c); paused := b;
                    failure_detail := failure_detail (stable c) |} in
       (with_stable st c, Ok st).
Proof.
  unfold RoleCoordinator_set_paused, st_bind, st_get, st_ensure, st_put, st_ret, st_fail.
  by destruct (is_transitioning c).
Qed.
Lemma abort_spec detail c : RoleCoordinator_abort detail c =
  match pending c with
  | None => (c, Err NoTransition)
  | Some p => (with_pending None (with_stable (previous p) c), Ok (failed_state (previous p) (Some detail)))
  end.
Proof.
  unfold RoleCoordinator_abort, st_bind, st_get, st_put, st_ret, st_fail. by destruct (pending c).
Qed.
Lemma finish_ready_spec epoch lc li rc ri detail c : finish_ready epoch lc li rc ri detail c =
  match pending c with
  | None => (c, Err NoTransition)
  | Some p =>
      if negb (epoch =? proposed_epoch p)
      then (c, Err (UnexpectedEpoch (proposed_epoch p) epoch))
      else if lc && li && rc && ri
      then (with_pending None (with_stable (committed_state p) c), Ok (Decision_Commit (committed_state p)))
      else (with_pending None (with_stable (previous p) c),
            Ok (Decision_Abort (failed_state (previous p)
                  (option_or detail (Some "one or more input backends were not ready"%string)))))
  end.
Proof.
  unfold finish_ready, st_bind, st_get, st_put, st_ret, st_fail. destruct (pending c); [|done].
  destruct (negb _); [done|]. by destruct (_ && ri).
Qed.

Section Session.
Context {W : Type} `{WindowsClipboardApi W} `{Lib : ClipboardLibraries} `{FrameCodec}.
Context (SendInput : list (INPUT * bool) -> INPUT -> bool) (P : Pair).

Abbreviation acting := (stateful (WindowsSession W) WindowsSessionError).

Definition may_write (s : WindowsSession W) : Frame -> Prop :=
  ordinary (w_role_epoch s) (w_local_is_controller s).

(** The assignment a session acts on is its coordinator's. *)
Record session_ok (s : WindowsSession W) : Prop := {
  wo_inv : coordinator_inv (w_coordinator s);
  wo_local : connector_fingerprint (w_coordinator s) = local_fingerprint P;
  wo_peer : listener_fingerprint (w_coordinator s) = peer_fingerprint P;
  wo_epoch : w_role_epoch s = role_epoch (stable (w_coordinator s));
  wo_controls : w_local_is_controller s
    = bool_decide (controller_fingerprint (stable (w_coordinator s)) = Some (local_fingerprint P));
  wo_waiting : waiting_ok (may_write s) (w_live s);
}.

(** The assignment a session has announced. *)
Definition session_view (s : WindowsSession W) : view :=
  View (w_role_epoch s) (controller_fingerprint (stable (w_coordinator s)))
    (prepare_of <$> pending (w_coordinator s)).

Definition session_moves (s s' : WindowsSession W) : Prop :=
  exists frames, written (w_live s') = written (w_live s) ++ frames
    /\ follow_all (local_fingerprint P) (session_view s) frames (session_view s').
#[export] Instance session_moves_preorder : PreOrder session_moves.
Proof.
  split.
  - intros s. exists []. rewrite app_nil_r. split; [done|constructor].
  - intros s1 s2 s3 (k & E1 & Hk) (l & E2 & Hl). exists (k ++ l).
    rewrite E2, E1, app_assoc. split; [done|]. by eapply follow_all_app.
Qed.

(** The moves within an epoch. *)
Definition assigned (s s' : WindowsSession W) : Prop :=
  w_role_epoch s' = w_role_epoch s
  /\ controller_fingerprint (stable (w_coordinator s'))
     = controller_fingerprint (stable (w_coordinator s)).
Definition stays (s s' : WindowsSession W) : Prop := session_moves s s' /\ assigned s s'.
#[export] Instance stays_preorder : PreOrder stays.
Proof.
  split; [by intros s|]. intros s1 s2 s3 [M1 [A1 B1]] [M2 [A2 B2]].
  split; [by etrans|]. split; congruence.
Qed.

Abbreviation follows := (keeps session_ok stays (fun _ => True)).
Abbreviation followed := (succeeds session_ok stays (fun _ => True)).

Lemma controls_local s : session_ok s -> w_local_is_controller s = true ->
  controller_fingerprint (stable (w_coordinator s)) = Some (local_fingerprint P).
Proof. intros Hs. rewrite (wo_controls _ Hs). apply bool_decide_eq_true. Qed.

(** *** Steps that leave the assignment alone *)

Definition same_role (s s' : WindowsSession W) : Prop :=
  w_coordinator s' = w_coordinator s /\ w_role_epoch s' = w_role_epoch s
  /\ w_local_is_controller s' = w_local_is_controller s.

(** A session that wrote only what it may write. *)
Lemma same_role_moves s s' : session_ok s -> same_role s s' ->
  waiting_ok (may_write s) (w_live s') -> writes (may_write s) (w_live s) (w_live s') ->
  session_ok s' /\ stays s s'.
Proof.
  intros Hs (E1 & E2 & E3) Hw (frames & Ew & Hf). pose proof Hs as [H1 H2 H3 H4 H5 H6].
  split; [|split; [|by split; [|rewrite E1]]].
  - split; rewrite ?E1, ?E2, ?E3; try done. unfold may_write. by rewrite E2, E3.
  - exists frames. split; [done|]. unfold session_view. rewrite E1, E2.
    eapply ordinary_follows; [| |exact Hf]; [done|]. by apply controls_local.
Qed.

Lemma follows_bind {A B} (x : acting A) (k : A -> acting B) :
  follows x -> (forall a, follows (k a)) -> follows (st_bind x k).
Proof. intros Hx Hk. eapply keeps_bind; [apply _|exact Hx|auto]. Qed.
Lemma followed_bind {A B} (x : acting A) (k : A -> acting B) :
  followed x -> (forall a, followed (k a)) -> followed (st_bind x k).
Proof. intros Hx Hk. eapply succeeds_bind; [apply _|exact Hx|auto]. Qed.
Lemma follows_followed {A} (x : acting A) : follows x -> followed x.
Proof. apply keeps_succeeds. Qed.

Lemma follows_quiet {A} (x : acting A) :
  (forall s, same_role s (x s).1 /\ w_live (x s).1 = w_live s) -> follows x.
Proof.
  intros Hx s Hs. destruct (Hx s) as [Hr El].
  destruct (same_role_moves s (x s).1 Hs Hr) as [H1 H2]; rewrite ?El.
  - apply (wo_waiting _ Hs).
  - done.
  - split_and!; [done..|by destruct (x s).2].
Qed.
Lemma follows_change f :
  (forall s, same_role s (f s) /\ w_live (f s) = w_live s) -> follows (@change W f).
Proof. intros Hf. by apply follows_quiet. Qed.
Lemma follows_ask {A} (f : WindowsSession W -> A) : follows (ask f).
Proof. apply follows_quiet. by intros s. Qed.
Lemma follows_ret {A} (a : A) : follows (st_ret a : acting A).
Proof. by apply keeps_ret; [apply _|]. Qed.
Lemma follows_fail {A} e : follows (st_fail e : acting A).
Proof. by apply keeps_fail; apply _. Qed.
Lemma follows_lift {A} (r : result A WindowsSessionError) : follows (st_lift r : acting A).
Proof. by apply keeps_lift; [apply _|]. Qed.
Lemma follows_injector x : follows (@on_injector W x).
Proof. apply follows_quiet. by intros s. Qed.

(** What the clipboard writes. *)
Lemma follows_live_at s {A} (x : stateful (Live W) LiveError A) : session_ok s ->
  keeps (waiting_ok (may_write s)) (writes (may_write s)) (fun _ => True) x ->
  session_ok (on_live x s).1 /\ stays s (on_live x s).1.
Proof.
  intros Hs Hx. destruct (Hx _ (wo_waiting _ Hs)) as (H1 & H2 & _).
  by apply same_role_moves.
Qed.
Lemma follows_live {A} (x : stateful (Live W) LiveError A) :
  (forall may, (forall event, may (Frame_Clipboard event)) ->
     keeps (waiting_ok may) (writes may) (fun _ => True) x) ->
  follows (on_live x).
Proof.
  intros Hx s Hs. destruct (follows_live_at s x Hs) as [H1 H2]; [by apply Hx|].
  split_and!; [done..|by destruct (on_live x s).2].
Qed.
(** Frames that no assignment depends on. *)
Definition plain (f : Frame) : bool := neutral f.
Lemma plain_ordinary f epoch controls : plain f = true -> ordinary epoch controls f.
Proof. destruct f as [| |[e []]| | | | | | |[]| | |]; cbn; auto; done. Qed.
Lemma follows_write frame : plain frame = true -> follows (@write W _ frame).
Proof.
  intros Hf s Hs. destruct (follows_live_at s (write_secure_frame_writer frame) Hs) as [H1 H2].
  - by apply lawful_write, plain_ordinary.
  - split_and!; [done..|]. by destruct (write frame s).2.
Qed.
Lemma follows_ignore {A} (x : acting A) : follows x -> follows (ignore x).
Proof.
  intros Hx. unfold ignore. apply follows_bind; [|intros; apply follows_ret].
  eapply keeps_weaken; [|apply keeps_attempt, Hx]. done.
Qed.
Lemma follows_keys_frame {B} (k : Frame -> acting B) :
  (forall epoch, follows (k (Frame_input epoch AllKeysUp))) -> follows (st_bind all_keys_up_frame k).
Proof. intros Hk s. exact (Hk (w_role_epoch s) s). Qed.

Create HintDb follows discriminated.
#[local] Hint Constants Opaque : follows.
#[local] Hint Resolve follows_ask follows_ret follows_fail follows_lift follows_injector
  follows_write : follows.
#[local] Hint Extern 1 (keeps _ _ _ (change _)) =>
  apply follows_change; intros; split; [split_and!|]; reflexivity : follows.
Ltac follows_step :=
  match goal with
  | |- keeps _ _ _ (st_bind all_keys_up_frame _) => apply follows_keys_frame; intros
  | |- keeps _ _ _ (st_bind _ _) => apply follows_bind; [|intros]
  | |- keeps _ _ _ (ignore _) => apply follows_ignore
  | |- keeps _ _ _ (if ?b then _ else _) => destruct b
  | |- keeps _ _ _ (match ?x with _ => _ end) => destruct x
  end.
Ltac follows_steps := repeat follows_step; auto with follows.

Context (m : Moment).

Lemma follows_tray_status status : follows (@tray_status W m status).
Proof. unfold tray_status. follows_steps. Qed.
Lemma follows_tray_role available switching : follows (@tray_role W P available switching).
Proof. unfold tray_role. follows_steps. Qed.
Lemma follows_tray_audio status : follows (@tray_audio W status).
Proof. unfold tray_audio. follows_steps. Qed.
Lemma follows_tray_audio_route choice status : follows (@tray_audio_route W P choice status).
Proof. unfold tray_audio_route. follows_steps. Qed.
Lemma follows_tray_input enabled : follows (@tray_input_forwarding W enabled).
Proof. unfold tray_input_forwarding. follows_steps. Qed.
Lemma follows_on_capture f : follows (@on_capture W f).
Proof. unfold on_capture. follows_steps. Qed.
Lemma follows_set_forwarding enabled : follows (@set_forwarding_enabled W m enabled).
Proof. apply follows_on_capture. Qed.
Lemma follows_force_release : follows (@force_release_to_local W m).
Proof. apply follows_on_capture. Qed.
#[local] Hint Resolve follows_tray_status follows_tray_role follows_tray_audio
  follows_tray_audio_route follows_tray_input follows_on_capture follows_set_forwarding
  follows_force_release : follows.
Lemma follows_restore_forwarding : follows (@restore_forwarding W m).
Proof. unfold restore_forwarding. follows_steps. Qed.
Lemma follows_release_peer_input : follows (@release_peer_input W SendInput).
Proof. unfold release_peer_input. follows_steps. Qed.
Lemma follows_offer : follows (@send_windows_audio_offer W _ m).
Proof. unfold send_windows_audio_offer. follows_steps. Qed.
Lemma follows_route : follows (@send_windows_audio_route W _ P).
Proof.
  unfold send_windows_audio_route. apply follows_bind; [auto with follows|intros source].
  apply follows_write. by destruct (peer_supports_audio_route P).
Qed.
Lemma follows_drop_audio : follows (@drop_audio W).
Proof. unfold drop_audio. follows_steps. Qed.
Lemma follows_save_route : follows (@save_route W m).
Proof. unfold save_route. follows_steps. Qed.
Lemma follows_set_source source : follows (@set_audio_source W source).
Proof. unfold set_audio_source. follows_steps. Qed.
Lemma follows_stop_audio reason : follows (@stop_audio W _ reason).
Proof. unfold stop_audio. follows_steps. Qed.
#[local] Hint Resolve follows_restore_forwarding follows_release_peer_input follows_offer
  follows_route follows_drop_audio follows_save_route follows_set_source follows_stop_audio : follows.
Lemma follows_resume_audio : follows (@resume_audio W _ P m).
Proof. unfold resume_audio. follows_steps. Qed.
Lemma follows_commit_route choice : follows (@commit_route W _ P m choice).
Proof. unfold commit_route. follows_steps. Qed.
Lemma follows_offer_if_local : follows (@offer_if_local W _ P m).
Proof. unfold offer_if_local. follows_steps. Qed.
Lemma follows_record_injected : follows (@record_injected W).
Proof. unfold record_injected. follows_steps. Qed.
Lemma follows_capture_release reason : follows (@capture_release W m reason).
Proof. unfold capture_release. follows_steps. Qed.
#[local] Hint Resolve follows_resume_audio follows_commit_route follows_offer_if_local
  follows_record_injected follows_capture_release : follows.

(** *** The arms that leave the assignment alone *)

Lemma follows_turn : follows (@turn W).
Proof. apply follows_ret. Qed.
Lemma follows_leave exit : follows (@leave W exit).
Proof. apply follows_ret. Qed.
#[local] Hint Resolve follows_turn follows_leave : follows.
Lemma follows_ctrl_c : follows (@on_ctrl_c W _).
Proof. unfold on_ctrl_c. follows_steps. Qed.
Lemma follows_audio_watch : follows (@on_audio_watch W _ P m).
Proof. unfold on_audio_watch, on_receiver_finished, on_sender_finished. follows_steps. Qed.
Lemma follows_config_refresh : follows (@on_config_refresh W).
Proof. unfold on_config_refresh. follows_steps. Qed.
Lemma follows_config_reloaded reloaded : follows (@on_config_reloaded W reloaded).
Proof. unfold on_config_reloaded. follows_steps. Qed.
Lemma follows_liveness : follows (@on_liveness W SendInput m).
Proof. unfold on_liveness. follows_steps. Qed.
Lemma follows_heartbeat_due : follows (@on_heartbeat_due W _ m).
Proof. unfold on_heartbeat_due. follows_steps. Qed.
Lemma follows_live_arm (x : AppConfig -> bool -> stateful (Live W) LiveError unit) :
  (forall config paused may, (forall event, may (Frame_Clipboard event)) ->
     keeps (waiting_ok may) (writes may) (fun _ => True) (x config paused)) ->
  follows (live_arm x).
Proof.
  intros Hx. unfold live_arm. apply follows_bind; [auto with follows|intros s].
  apply follows_bind; [apply follows_live; auto|auto with follows].
Qed.
Lemma follows_on_heartbeat heartbeat : follows (@on_heartbeat W _ m heartbeat).
Proof. unfold on_heartbeat. follows_steps. Qed.
Lemma follows_peer_input input : follows (@on_peer_input W _ SendInput m input).
Proof. unfold on_peer_input. follows_steps. Qed.
Lemma follows_peer_control control : follows (@on_peer_control W SendInput P m control).
Proof. unfold on_peer_control. follows_steps. Qed.
Lemma follows_role_applied epoch : follows (@on_role_applied W m epoch).
Proof. unfold on_role_applied. follows_steps. Qed.
Lemma follows_audio control : follows (@on_audio W _ P m control).
Proof.
  unfold on_audio, on_audio_offer, on_audio_start, on_audio_request_route, on_audio_state,
    on_audio_stop, on_audio_set_enabled. follows_steps.
Qed.
Lemma follows_tray_audio_choice choice : follows (@on_tray_audio W _ P m choice).
Proof. unfold on_tray_audio. follows_steps. Qed.
Lemma follows_tray_forwarding enabled : follows (@on_tray_input_forwarding W _ SendInput P m enabled).
Proof. unfold on_tray_input_forwarding. follows_steps. Qed.
#[local] Hint Resolve follows_ctrl_c follows_audio_watch follows_config_refresh
  follows_config_reloaded follows_liveness follows_heartbeat_due follows_on_heartbeat
  follows_peer_input follows_peer_control follows_role_applied follows_audio
  follows_tray_audio_choice follows_tray_forwarding : follows.

(** *** Steps that move the assignment *)

Lemma write_Ok frame (s s' : WindowsSession W) u : write frame s = (s', Ok u) ->
  s' = set_w_live (with_written frame (w_live s)) s.
Proof.
  unfold write, on_live, write_secure_frame_writer.
  destruct (encode_secure_frame frame); [|done]. destruct (connected (w_live s)); [|done].
  by intros [= <-].
Qed.

(** A frame that announces what the coordinator has just become. *)
Lemma announced (s s' : WindowsSession W) frame : session_ok s ->
  w_live s' = with_written frame (w_live s) ->
  coordinator_inv (w_coordinator s') ->
  connector_fingerprint (w_coordinator s') = connector_fingerprint (w_coordinator s) ->
  listener_fingerprint (w_coordinator s') = listener_fingerprint (w_coordinator s) ->
  w_role_epoch s' = role_epoch (stable (w_coordinator s')) ->
  w_local_is_controller s'
  = bool_decide (controller_fingerprint (stable (w_coordinator s')) = Some (local_fingerprint P)) ->
  w_role_epoch s < w_role_epoch s'
  \/ w_role_epoch s' = w_role_epoch s
     /\ w_local_is_controller s' = w_local_is_controller s ->
  follow (local_fingerprint P) (session_view s) frame (session_view s') ->
  session_ok s' /\ session_moves s s'.
Proof.
  intros [H1 H2 H3 H4 H5 (Hc & Hh & Hd)] El Hi E1 E2 E3 E4 He Hf. split.
  - split; rewrite ?E1, ?E2, ?E3, ?E4, ?El; try done.
    assert (forall f, may_write s f -> may_write s' f) as Hlater.
    { intros f. unfold may_write. destruct He as [He|[-> ->]]; [|done]. by apply ordinary_later. }
    unfold waiting_ok. cbn. split_and!; [done| |].
    + eapply Forall_impl; [exact Hh|exact Hlater].
    + eapply Forall_impl; [exact Hd|intros x; apply Hlater].
  - exists [frame]. rewrite El. split; [done|]. econstructor; [exact Hf|constructor].
Qed.

(** Pausing changes nothing of the assignment. *)
Lemma follows_set_paused b : follows (@on_coordinator W _ (RoleCoordinator_set_paused b)).
Proof.
  intros s Hs. pose proof Hs as [H1 H2 H3 H4 H5 H6].
  pose proof (coordinator_inv_step _ (Op_SetPaused b) H1) as Hi. cbn [run_role_op] in Hi.
  unfold on_coordinator. rewrite set_paused_spec in *.
  destruct (is_transitioning (w_coordinator s)); cbn [fst snd map_err] in *;
    (split_and!; [by split| |done]); (split; [|done]); exists []; rewrite app_nil_r;
    by split; [|constructor].
Qed.

Lemma followed_prepare requested {A} (x : A) :
  followed (prepare <-! on_coordinator (RoleCoordinator_prepare requested);;
            do! write (Frame_Role (Prepare prepare));; st_ret x).
Proof.
  intros s s' a Hs (s1 & prepare & E1 & (s2 & [] & E2%write_Ok & [= <- <-])%st_bind_Ok)%st_bind_Ok.
  pose proof Hs as [H1 H2 H3 H4 H5 H6]. revert E1. unfold on_coordinator.
  pose proof (coordinator_inv_step _ (Op_Prepare requested) H1) as Hi. cbn [run_role_op] in Hi.
  revert Hi. rewrite prepare_spec by done.
  destruct (is_transitioning _) eqn:Ht; [done|]. destruct (negb _); [done|].
  destruct (Z.eqb_spec (role_epoch (stable (w_coordinator s))) u64_max); [done|].
  cbn [fst snd map_err]. intros Hi [= <- <-]. subst s2.
  assert (pending (w_coordinator s) = None) as Hp.
  { unfold is_transitioning in Ht. apply bool_decide_eq_false in Ht.
    destruct (pending (w_coordinator s)); [destruct Ht; eauto|done]. }
  match goal with |- session_ok ?s' /\ _ =>
    enough (session_ok s' /\ session_moves s s') as [? ?] by (by split_and!) end.
  eapply (announced s); try done; [by right|].
  unfold session_view. cbn. rewrite Hp. cbn.
  by apply (follow_prepare _ (View _ _ None)); cbn; [|lia].
Qed.
Lemma followed_request_controller requested :
  followed (@request_controller W _ SendInput P m requested).
Proof.
  unfold request_controller. apply followed_bind; [apply follows_followed; auto with follows|].
  intros s. destruct (_ && negb (bool_decide _)); [|apply follows_followed; auto with follows].
  apply followed_bind.
  - unfold begin_windows_role_switch.
    apply followed_bind; [apply follows_followed; auto with follows|intros state].
    apply followed_bind; [|intros _; apply followed_prepare].
    apply follows_followed. follows_steps.
  - intros readiness. apply follows_followed. follows_steps.
Qed.

(** The end of a transition is announced by an abort. *)
Lemma abort_announces (s s' : WindowsSession W) p detail : session_ok s ->
  pending (w_coordinator s) = Some p ->
  w_coordinator s' = with_pending None (w_coordinator s) ->
  w_role_epoch s' = w_role_epoch s -> w_local_is_controller s' = w_local_is_controller s ->
  w_live s' = with_written (Frame_Role (Role_Abort (failed_state (stable (w_coordinator s)) detail)))
                (w_live s) ->
  session_ok s' /\ stays s s'.
Proof.
  intros Hs Hp Ec Ee El Ew. pose proof Hs as [H1 H2 H3 H4 H5 H6].
  enough (session_ok s' /\ session_moves s s') as [? ?].
  { split; [done|]. split; [done|]. split; [done|]. by rewrite Ec. }
  eapply (announced s _ _ Hs Ew); rewrite ?Ec, ?Ee, ?El; try done.
  - destruct H1 as [I1 I2 I3 I4 I5]. by split.
  - by right.
  - unfold session_view. rewrite Ec, Ee, Hp. cbn.
    by apply (follow_abort _ (View _ _ _) (prepare_of p)); cbn.
Qed.

(** The frames of the program fit a packet; of those it matters for the abort, whose failure
    to be written is not an error. *)
Definition abort_fits : Prop := forall st,
  (forall f, controller_fingerprint st = Some f -> f = local_fingerprint P \/ f = peer_fingerprint P) ->
  failure_detail st = Some "peer did not complete role preflight in time"%string ->
  is_Ok (encode_secure_frame (Frame_Role (Role_Abort st))) = true.

Lemma write_fits frame (s : WindowsSession W) : connected (w_live s) = true ->
  is_Ok (encode_secure_frame frame) = true ->
  ignore (write frame) s = (set_w_live (with_written frame (w_live s)) s, Ok tt).
Proof.
  intros Hc Hf. unfold ignore, write, on_live, attempt, st_bind, write_secure_frame_writer.
  destruct (encode_secure_frame frame); [|done]. by rewrite Hc.
Qed.

Lemma followed_transition_deadline : abort_fits -> followed (@on_transition_deadline W _ P m).
Proof.
  intros Hfits. unfold on_transition_deadline.
  apply followed_bind; [apply follows_followed; auto with follows|intros s0].
  destruct (_ && _); [|apply follows_followed; auto with follows].
  apply followed_bind; [apply follows_followed; auto with follows|intros _].
  intros s s' a Hs E. apply st_bind_Ok in E as (s1 & abort & E1 & E2).
  pose proof Hs as [H1 H2 H3 H4 H5 (Hc & _)]. revert E1. unfold on_coordinator. rewrite abort_spec.
  destruct (pending (w_coordinator s)) as [p|] eqn:Ep; [|done].
  destruct (inv_pending _ H1 p Ep) as (P1 & _). cbn [map_err fst snd]. intros [= <- <-].
  apply st_bind_Ok in E2 as (s2 & [] & E2 & E3).
  rewrite write_fits in E2; [|done|].
  2: { apply Hfits; [|done]. intros f. cbn. rewrite P1, <- H2, <- H3. apply (inv_controller _ H1). }
  injection E2 as <-. rewrite P1 in E3.
  match type of E3 with _ ?s3 = _ =>
    destruct (abort_announces s s3 p (Some "peer did not complete role preflight in time"%string) Hs Ep)
      as [K1 K2]; try done end.
  assert (followed (do! restore_forwarding m;;
    do! tray_role P (role_switch_available P && negb (w_session_paused s0)) false;;
    tray_status m "Connected: role switch timed out")) as Hk
    by (apply follows_followed; follows_steps).
  destruct (Hk _ _ _ K1 E3) as (F1 & F2 & _). split_and!; [done| |done]. by etrans.
Qed.

(** A commit takes the session into the epoch it announces. *)
Lemma commit_followed (s s' : WindowsSession W) p a : session_ok s ->
  pending (w_coordinator s) = Some p ->
  on_role_decision SendInput P m (Decision_Commit (committed_state p))
    (set_w_coordinator (with_pending None (with_stable (committed_state p) (w_coordinator s))) s)
  = (s', Ok a) ->
  session_ok s' /\ session_moves s s' /\ w_role_epoch s' = w_role_epoch s + 1.
Proof.
  intros Hs Ep E. pose proof Hs as [H1 H2 H3 H4 H5 H6].
  destruct (inv_pending _ H1 p Ep) as (P1 & P2 & P3 & P4).
  unfold on_role_decision in E. cbn [controller_fingerprint committed_state] in E.
  apply st_bind_Ok in E as (s1 & controller & [= <- <-] & E).
  apply st_bind_Ok in E as (s2 & [] & E2%write_Ok & E).
  subst s2. do 3 (apply st_bind_Ok in E as (? & [] & [= <-] & E)).
  pose proof (coordinator_inv_step _ (Op_Ready (proposed_epoch p) true true true true None) H1) as Hi.
  cbn [run_role_op] in Hi. rewrite finish_ready_spec, Ep, Z.eqb_refl in Hi. cbn [negb andb fst] in Hi.
  match type of E with _ ?s3 = _ => destruct (announced s s3 (Frame_Role (Role_Commit (committed_state p))) Hs)
    as [K1 K2]; [done|exact Hi|done|done|done| | | |] end.
  - cbn. unfold str_eqb. apply bool_decide_ext. split; congruence.
  - left. cbn. rewrite H4. lia.
  - unfold session_view. cbn. rewrite Ep. cbn. rewrite P3, <- H4.
    apply (follow_commit _ (View _ _ _) (prepare_of p)); cbn; [done| |lia|eauto].
    unfold validate_commit, prepare_of, committed_state; cbn.
    by rewrite Z.eqb_refl, bool_decide_true.
  - match type of E with ?k _ = _ => assert (followed k) as Hk
      by (apply follows_followed; follows_steps) end.
    destruct (Hk _ _ _ K1 E) as (F1 & (F2 & F3 & _) & _). split_and!; [done|by etrans|].
    rewrite F3. cbn. by rewrite P3, H4.
Qed.

(** An abort leaves the session in its epoch. *)
Lemma abort_followed (s s' : WindowsSession W) p detail a : session_ok s ->
  pending (w_coordinator s) = Some p ->
  on_role_decision SendInput P m
    (Decision_Abort (failed_state (stable (w_coordinator s)) detail))
    (set_w_coordinator (with_pending None (w_coordinator s)) s) = (s', Ok a) ->
  session_ok s' /\ stays s s'.
Proof.
  intros Hs Ep E. unfold on_role_decision in E.
  apply st_bind_Ok in E as (s1 & [] & [= <-] & E).
  apply st_bind_Ok in E as (s2 & [] & E2%write_Ok & E). subst s2.
  match type of E with _ ?s3 = _ => destruct (abort_announces s s3 p detail Hs Ep) as [K1 K2];
    [done..|] end.
  match type of E with ?k _ = _ => assert (followed k) as Hk
    by (apply follows_followed; follows_steps) end.
  destruct (Hk _ _ _ K1 E) as (F1 & F2 & _). split; [done|by etrans].
Qed.

Lemma ready_followed epoch capture inject detail (s s' : WindowsSession W) a : session_ok s ->
  on_role_ready SendInput P m epoch capture inject detail s = (s', Ok a) ->
  session_ok s' /\ session_moves s s'
  /\ (assigned s s' \/ epoch = w_role_epoch s + 1 /\ w_role_epoch s' = w_role_epoch s + 1).
Proof.
  intros Hs E. unfold on_role_ready in E. apply st_bind_Ok in E as (? & readiness & [= <- <-] & E).
  destruct (w_pending_role_readiness s) as [[[lc li] ld]|].
  2: { injection E as <- _. split_and!; [done..|]. by left. }
  apply st_bind_Ok in E as (s1 & [] & E1 & E).
  assert (session_ok s1 /\ stays s s1) as [H1 [M1 A1]].
  { injection E1 as <-. apply same_role_moves; [done..| |done]. apply (wo_waiting _ Hs). }
  enough (session_ok s' /\ session_moves s1 s' /\ (assigned s1 s'
    \/ epoch = w_role_epoch s1 + 1 /\ w_role_epoch s' = w_role_epoch s1 + 1)) as (K1 & K2 & K3).
  { split_and!; [done|by etrans|]. destruct A1 as [A1 B1], K3 as [[A2 B2]|[A2 B2]].
    - left. split; congruence.
    - right. by rewrite A2, B2, A1. }
  clear E1 M1 A1 Hs s. rename s1 into s, H1 into Hs.
  apply st_bind_Ok in E as (s2 & decision & E2 & E). revert E2. unfold attempt, on_coordinator.
  rewrite finish_ready_spec. destruct (pending (w_coordinator s)) as [p|] eqn:Ep.
  2: { intros [= <- <-]. done. }
  pose proof Hs as [H1 H2 H3 H4 H5 H6]. destruct (inv_pending _ H1 p Ep) as (P1 & P2 & P3 & P4).
  destruct (Z.eqb_spec epoch (proposed_epoch p)) as [->|]; cbn [negb].
  2: { cbn [fst snd map_err]. intros [= <- <-]. injection E as <- _.
       match goal with |- session_ok ?s' /\ _ =>
         destruct (same_role_moves s s' Hs) as [K1 [K2 K3]]; [done..| | |] end; [done..|].
       split_and!; [done..|by left]. }
  destruct (_ && inject); cbn [fst snd map_err]; intros [= <- <-].
  - destruct (commit_followed s s' p a Hs Ep E) as (K1 & K2 & K3).
    split_and!; [done..|]. right. split; [by rewrite P3, H4|done].
  - rewrite P1 in E.
    assert (with_pending None (with_stable (stable (w_coordinator s)) (w_coordinator s))
            = with_pending None (w_coordinator s)) as Ew by (by destruct (w_coordinator s)).
    rewrite Ew in E. destruct (abort_followed s s' p _ a Hs Ep E) as [K1 [K2 K3]].
    split_and!; [done..|by left].
Qed.

(** *** Every arm *)

Lemma followed_peer_set_paused b : followed (@on_peer_set_paused W _ SendInput P m b).
Proof.
  apply follows_followed. unfold on_peer_set_paused.
  pose proof follows_set_paused. pose proof follows_resume_audio. follows_steps.
Qed.
Lemma followed_tray_outcome outcome : followed (@on_tray_outcome W _ SendInput P m outcome).
Proof.
  pose proof follows_set_paused. pose proof follows_resume_audio.
  destruct outcome; cbn [on_tray_outcome];
    try (by apply follows_followed; unfold on_tray_disconnect, pause_by_tray, on_tray_reconnect;
           follows_steps).
  apply followed_bind; [apply followed_request_controller|].
  intros _. apply follows_followed. auto with follows.
Qed.
Lemma followed_tray_poll : followed (@on_tray_poll W _ SendInput P m).
Proof.
  unfold on_tray_poll. apply followed_bind; [apply follows_followed; auto with follows|intros s].
  destruct (handle_pending_windows_tray_commands _ _ _) as [[rest outcome] releases].
  do 2 (apply followed_bind; [apply follows_followed; auto with follows|intros _]).
  apply followed_tray_outcome.
Qed.
Lemma followed_watchdog : abort_fits -> followed (@on_watchdog W _ SendInput P m).
Proof.
  intros Hfits. unfold on_watchdog.
  apply followed_bind; [by apply followed_transition_deadline|intros _].
  apply follows_followed. apply follows_bind; [|intros _; follows_steps].
  apply follows_live. intros may Hmay. by apply lawful_on_watchdog.
Qed.
(** A captured frame goes out in the session's epoch, while the session controls. *)
Lemma followed_live_input event : followed (@on_live_input W _ _ _ m (captured_input_to_frame <$> event)).
Proof.
  intros s s' a Hs E. unfold on_live_input in E.
  apply st_bind_Ok in E as (? & ? & [= <- <-] & E).
  destruct event as [event|]; cbn [fmap option_fmap option_map] in E.
  2: { injection E as <- _. by split_and!. }
  apply st_bind_Ok in E as (s1 & [] & E1 & [= <- _]).
  match type of E1 with on_live ?x _ = _ => destruct (follows_live_at s x Hs) as [H1 H2] end.
  - apply lawful_on_captured; [done|]. intros Hf. reflect_bools. unfold may_write.
    destruct event; cbn; auto.
  - rewrite E1 in H1, H2. by split_and!.
Qed.

(** What wakes the session; captured frames are the thread's. *)
Definition comes_from_capture (wake : wake_up) : Prop :=
  match wake with
  | Wake_live_input frame => exists event, frame = captured_input_to_frame <$> event
  | _ => True
  end.

Definition is_ready (epoch : Z) (frame : Frame) : Prop :=
  exists capture inject detail, frame = Frame_Role (Protocol.Ready epoch capture inject detail).

Lemma frame_moves frame (s s' : WindowsSession W) a : session_ok s ->
  on_frame SendInput P m frame s = (s', Ok a) ->
  session_ok s' /\ session_moves s s'
  /\ (assigned s s' \/ exists f, frame = Some f /\ is_ready (w_role_epoch s + 1) f
                       /\ w_role_epoch s' = w_role_epoch s + 1).
Proof.
  intros Hs E. destruct frame as [frame|]; [|done]. cbn [on_frame] in E.
  apply st_bind_Ok in E as (s1 & [] & E1 & E).
  assert (session_ok s1 /\ stays s s1) as [H1 [M1 A1]].
  { injection E1 as <-. apply same_role_moves; [done..| |done]. apply (wo_waiting _ Hs). }
  apply st_bind_Ok in E as (s2 & [] & E2 & [= <- _]).
  assert (forall x : acting unit, followed x -> x s1 = (s2, Ok tt) ->
    session_ok s2 /\ session_moves s s2 /\ assigned s s2) as Hq.
  { intros x Hx Ex. destruct (Hx _ _ _ H1 Ex) as (K1 & [K2 K3] & _).
    split_and!; [done|by etrans|]. destruct A1, K3. split; congruence. }
  assert (forall x : acting unit, followed x -> x s1 = (s2, Ok tt) ->
    session_ok s2 /\ session_moves s s2 /\ (assigned s s2 \/ exists f, Some frame = Some f
      /\ is_ready (w_role_epoch s + 1) f /\ w_role_epoch s2 = w_role_epoch s + 1)) as Hf.
  { intros x Hx Ex. destruct (Hq x Hx Ex) as (?&?&?). auto. }
  clear Hq. destruct frame as [| | |event| | | | | |role| | |];
    try (eapply Hf; [|exact E2]; apply follows_followed; by auto with follows).
  - eapply Hf; [|exact E2]. apply follows_followed. apply follows_bind; [auto with follows|intros s0].
    apply follows_live. intros may Hmay. by apply lawful_on_clipboard_frame.
  - destruct role as [| | |epoch capture inject detail| | | |];
      try (eapply Hf; [|exact E2]; apply follows_followed; by auto with follows).
    + eapply Hf; [|exact E2]. unfold on_role_request. destruct (_ || _).
      * apply followed_request_controller.
      * apply follows_followed; auto with follows.
    + destruct (ready_followed _ _ _ _ _ _ _ H1 E2) as (K1 & K2 & K3).
      split_and!; [done|by etrans|]. destruct A1 as [A1 B1], K3 as [[A2 B2]|[A2 B2]].
      * left. split; congruence.
      * right. eexists. split; [done|]. rewrite A1 in *. split; [|done]. rewrite A2. by do 3 eexists.
    + eapply Hf; [|exact E2]. apply followed_peer_set_paused.
Qed.

Lemma session_step_moves wake (s s' : WindowsSession W) a : abort_fits -> session_ok s ->
  comes_from_capture wake -> session_step SendInput P m wake s = (s', Ok a) ->
  session_ok s' /\ session_moves s s'
  /\ (assigned s s' \/ exists f, wake = Wake_frame (Some f) /\ is_ready (w_role_epoch s + 1) f
                       /\ w_role_epoch s' = w_role_epoch s + 1).
Proof.
  intros Hfits Hs Hw E.
  assert (forall x : acting (option ConnectedSessionExit), followed x -> x s = (s', Ok a) ->
    session_ok s' /\ session_moves s s' /\ (assigned s s' \/ exists f, wake = Wake_frame (Some f)
      /\ is_ready (w_role_epoch s + 1) f /\ w_role_epoch s' = w_role_epoch s + 1)) as Hf.
  { intros x Hx Ex. destruct (Hx _ _ _ Hs Ex) as (K1 & [K2 K3] & _). auto. }
  destruct wake as [| | | |reloaded| | | |read| |event| |frame|]; cbn [session_step] in E;
    try (eapply Hf; [|exact E]; apply follows_followed; by auto with follows).
  - eapply Hf; [|exact E]. apply follows_followed, follows_live_arm. intros config paused may Hmay.
    apply lawful_bind; [by apply lawful_on_loop_head|]. intros. by apply keeps_ret; [apply _|].
  - eapply Hf; [|exact E]. by apply followed_watchdog.
  - eapply Hf; [|exact E]. apply follows_followed, follows_live_arm. intros config paused may Hmay.
    by apply lawful_on_poll.
  - eapply Hf; [|exact E]. apply follows_followed, follows_live_arm. intros config paused may Hmay.
    by apply lawful_on_read_finished.
  - eapply Hf; [|exact E]. apply followed_tray_poll.
  - destruct Hw as [ev ->]. eapply Hf; [|exact E]. apply followed_live_input.
  - eapply Hf; [|exact E]. apply follows_followed, follows_live_arm. intros config paused may Hmay.
    by apply lawful_on_delayed.
  - destruct (frame_moves _ _ _ _ Hs E) as (K1 & K2 & K3). split_and!; [done..|].
    destruct K3 as [?|(f & -> & ?)]; [by left|right]. eauto.
  - eapply Hf; [|exact E]. apply follows_followed, follows_live_arm. intros config paused may Hmay.
    by apply lawful_on_send_tick.
Qed.

(** *** The start of a session *)

Lemma follows_start_audio config : follows (@start_audio W _ P m config).
Proof. unfold start_audio. follows_steps. Qed.
Lemma follows_start_session config initial : follows (@start_session W _ P m config initial).
Proof.
  unfold start_session. apply follows_bind; [by apply follows_quiet|intros started].
  pose proof follows_start_audio. follows_steps.
Qed.
End Session.
