(* ===== verification/CaptureSwitch.v ===== *)
(** * Who switches the capture on

    Over the capture of [WindowsCapture] and its events of [CaptureSafety]: the hooks, the raw
    input and the supervisor leave the switch alone; only the calls of the application and a new
    start set it. *)
From S2P Require Export CaptureSafety.
#[local] Open Scope Z_scope.
#[local] Open Scope list_scope.

(** The hooks may take the user's input. *)
Definition enabled_in (p : Process) : bool := is_some_and enabled (STATE p).

(** A method that leaves the switch. *)
Definition steady (c d : Capture) : Prop := enabled (cs d) = enabled (cs c).
#[local] Instance steady_preorder : PreOrder steady.
Proof. split; [by intros c|]. unfold steady. intros a b c. congruence. Qed.

Section Steady.
Context (e : Env).

Lemma steady_view c d : view d = view c -> steady c d.
Proof. apply view_enabled. Qed.
Lemma steady_send ev c : steady c (send_input e ev c).
Proof. exact (f_equal v_enabled (view_send_input e ev c)). Qed.
Lemma steady_show c : steady c (show_source_cursor c).
Proof. exact (f_equal v_enabled (view_show c)). Qed.
Lemma steady_keep_hidden c : steady c (keep_source_cursor_hidden e c).
Proof. unfold keep_source_cursor_hidden, hide_source_cursor. by destruct (cursor_hidden (cs c)). Qed.
Lemma steady_release reason c : steady c (release_to_local e reason c).
Proof.
  destruct (active (cs c)) eqn:Ha; [|by rewrite release_inactive].
  exact (f_equal v_enabled (view_release e reason c Ha)).
Qed.
Lemma steady_enter point c : steady c (enter_remote e point c).
Proof. destruct (view_enter e point c) as [position Hv]. exact (f_equal v_enabled Hv). Qed.
Lemma steady_forward dx dy c : steady c (forward_motion e dx dy c).
Proof.
  unfold forward_motion, release_if_remote_return_edge.
  match goal with |- context [send_input e ?ev ?d] => set (c' := send_input e ev d);
    assert (steady c c') as Hc' by exact (steady_send ev d) end.
  clearbody c'. destruct (remote_at_return_edge (cs c')); cbn [negb]; [|done].
  etransitivity; [exact Hc'|]. etransitivity; [|apply steady_release]. done.
Qed.
Lemma steady_toggle c : steady c (toggle_capture_suspended e c).
Proof.
  unfold toggle_capture_suspended.
  match goal with |- context [on_gl (bump suspend_toggles) ?d] =>
    set (c1 := on_gl (bump suspend_toggles) d); assert (steady c c1) as Ht by done end.
  clearbody c1. etransitivity; [exact Ht|]. destruct (capture_suspended (cs c1)); [|done].
  etransitivity; [apply (steady_release Release_UserRequest)|]. exact (steady_show _).
Qed.
Lemma steady_modifier vk down c : steady c (on_cs (update_modifier vk down) c).
Proof. apply steady_view, modifier_view. Qed.

Lemma steady_mouse ev c : steady c (mouse_hook_locked e ev c).1.
Proof.
  unfold mouse_hook_locked. destruct (negb (enabled (cs c))); [done|].
  pose proof (steady_view _ _ (refresh_view e c)) as H1.
  set (c1 := refresh_capture_suspension e c) in *. clearbody c1.
  destruct (capture_suspended (cs c1)).
  { cbn [fst]. etransitivity; [exact H1|]. case_match; [apply steady_release|by case_match]. }
  assert (steady c (game_guard_blocks_capture e c1).1) as H2 by exact H1.
  destruct (game_guard_blocks_capture e c1) as [c2 blocked]. cbn [fst] in H2. clear H1 c1.
  destruct blocked.
  { cbn [fst]. etransitivity; [exact H2|]. case_match; [|by case_match].
    etransitivity; [|apply steady_release]. done. }
  destruct (negb (active (cs c2))).
  - match goal with |- context [activation_allowed e (cs ?d)] => set (c3 := d) end.
    assert (steady c c3) as H3.
    { subst c3. case_match; [|done].
      assert (steady c (virtual_edge_required e c2).1) as Hv by exact H2.
      destruct (virtual_edge_required e c2) as [c4 required]. by destruct required. }
    case_match; cbn [fst]; [|done]. etransitivity; [exact H3|apply steady_enter].
  - case_match; [done|]. cbn [fst]. etransitivity; [exact H2|]. case_match.
    + etransitivity; [apply steady_keep_hidden|]. case_match; [|done].
      unfold remote_motion. case_match; [done|]. etransitivity; [|apply steady_forward]. done.
    + case_match; [apply steady_send|done].
Qed.

Lemma steady_keyboard ev c : steady c (keyboard_hook_locked e ev c).1.
Proof.
  unfold keyboard_hook_locked.
  set (down := match k_message ev with WM_KEYDOWN | WM_SYSKEYDOWN => true | _ => false end).
  set (up := match k_message ev with WM_KEYUP | WM_SYSKEYUP => true | _ => false end).
  clearbody down up. case_match; [done|]. destruct (negb (enabled (cs c))); [done|].
  match goal with |- context [ctrl_down (cs ?d)] => set (c1 := d) end.
  assert (steady c c1) as H1.
  { subst c1. etransitivity; [apply steady_view, (refresh_view e)|].
    case_match; [apply steady_modifier|done]. }
  clearbody c1.
  case_match; [etransitivity; [exact H1|apply steady_toggle]|]. case_match; [done|].
  case_match; [etransitivity; [exact H1|apply steady_release]|].
  cbn [fst]. etransitivity; [exact H1|]. case_match; [|done].
  etransitivity; [apply steady_keep_hidden|]. case_match; [apply steady_send|done].
Qed.

Lemma steady_raw_remote x y absolute c : steady c (raw_remote_motion e x y absolute c).
Proof.
  unfold raw_remote_motion. pose proof (steady_view _ _ (raw_delta_view x y absolute c)) as H1.
  destruct (raw_delta x y absolute c) as [c1 [[dx dy]|]]; cbn [fst] in H1; [|done].
  case_match; [done|]. etransitivity; [exact H1|apply steady_forward].
Qed.
Lemma steady_raw_local x y absolute c : steady c (raw_local_motion e x y absolute c).
Proof.
  unfold raw_local_motion. assert (steady c (virtual_edge_required e c).1) as H1 by done.
  destruct (virtual_edge_required e c) as [c1 required]. cbn [fst] in H1.
  destruct (negb required); [done|].
  pose proof (steady_view _ _ (raw_delta_view x y absolute c1)) as H2.
  destruct (raw_delta x y absolute c1) as [c2 [[dx dy]|]]; cbn [fst] in H2.
  2: { by etransitivity. }
  assert (steady c c2) as H3 by (by etransitivity).
  case_match; [done|]. case_match; [|done].
  etransitivity; [exact H3|]. etransitivity; [|apply steady_enter]. done.
Qed.
End Steady.

(** *** Of the process *)

Lemma enabled_unlock c d : steady c d -> enabled_in (unlock d) = enabled (cs c).
Proof. done. Qed.
Lemma enabled_with_state {A} (none : A) f p :
  (forall c, steady c (f c).1) -> enabled_in (with_state none f p).1 = enabled_in p.
Proof.
  intros Hf. unfold with_state, enabled_in. destruct (STATE p) as [s|] eqn:Hs; [|by cbn [fst]; rewrite Hs].
  specialize (Hf {| cs := s; gl := GLOBALS p |}). destruct (f _) as [d a]. exact Hf.
Qed.
Lemma enabled_hook_entry code extra contended events locked p :
  (forall c, steady c (locked c).1) ->
  enabled_in (hook_entry code extra contended events locked p).1 = enabled_in p.
Proof.
  intros Hl. unfold hook_entry. case_match; [done|]. case_match; [done|].
  destruct (STATE (count events p)) as [s|] eqn:Hs; [|done]. destruct contended; [done|].
  specialize (Hl {| cs := s; gl := GLOBALS (count events p) |}).
  destruct (locked _) as [d r]. unfold enabled_in. cbn in Hs |- *. rewrite Hs. exact Hl.
Qed.

(** What happens to the capture without a call that switches it. *)
Definition unswitched (ev : CaptureEvent) : bool :=
  match ev with Ev_disable | Ev_set_enabled _ | Ev_start _ => false | _ => true end.
Lemma enabled_release e reason p : enabled_in (call_release_to_local e reason p) = enabled_in p.
Proof.
  apply enabled_with_state. intros c. etransitivity; [apply steady_release|apply steady_show].
Qed.
Lemma enabled_receiver_release e reason p :
  enabled_in (handle_receiver_release e reason p).1 = enabled_in p.
Proof.
  apply enabled_with_state. intros c. repeat case_match; cbn [fst]; try reflexivity;
    apply steady_release.
Qed.
Lemma enabled_unswitched e ev p : unswitched ev = true -> enabled_in (step e ev p) = enabled_in p.
Proof.
  intros Hev. destruct (restart_state e p) as (E1 & E2 & E3).
  destruct ev; cbn [step]; try done.
  - apply enabled_hook_entry. intros c. apply steady_mouse.
  - apply enabled_hook_entry. intros c. apply steady_keyboard.
  - destruct input as [| | |x y absolute]; cbn [handle_raw_mouse_input]; try done.
    destruct (STATE (count RAW_MOUSE_EVENTS p)) as [s|] eqn:Hs; [|done].
    destruct contended; [done|].
    set (c := {| cs := set_last_raw_input (Some (now e)) s; gl := GLOBALS (count RAW_MOUSE_EVENTS p) |}).
    transitivity (enabled (cs c)); [|symmetry; exact (f_equal (is_some_and enabled) Hs)].
    apply enabled_unlock. destruct (negb _); [done|].
    destruct (active (cs c)); [apply steady_raw_remote|apply steady_raw_local].
  - apply enabled_release.
  - apply enabled_receiver_release.
  - unfold enabled_in. by rewrite E1.
  - unfold enabled_in. by rewrite E2.
  - unfold enabled_in. by rewrite E3.
Qed.

(** The calls that switch it. *)
Lemma enabled_set_enabled e value reason p :
  enabled_in (set_enabled_with_release_reason e value reason p)
  = bool_decide (is_Some (STATE p)) && value.
Proof.
  unfold set_enabled_with_release_reason, with_state, enabled_in.
  destruct (STATE p) as [s|] eqn:Hs; cbn [fst]; [|by rewrite Hs].
  rewrite bool_decide_true by eauto. cbn [fst unlock STATE is_some_and andb].
  destruct (Bool.eqb_spec (enabled (cs {| cs := s; gl := GLOBALS p |})) value) as [<-|_]; [done|].
  exact (steady_show _).
Qed.
