(* ===== verification/WindowsControl.v ===== *)
(** * What the switches of a session decide

    Over the session of [WindowsSession]: Windows plays input only while the peer controls, and
    the hooks may take the user's input only while this computer does, with the sharing of input
    on and the session not paused. *)
From S2P Require CaptureSwitch.
From S2P Require Export WindowsSession.
#[local] Open Scope string_scope.
#[local] Open Scope Z_scope.
#[local] Open Scope list_scope.

(** ** What is played *)

(** A call that lets a key or a button go. *)
Definition is_release (call : INPUT * bool) : Prop :=
  match call.1 with
  | INPUT_KEYBOARD _ _ up => up = true
  | INPUT_MOUSE _ _ _ _ => exists button, call.1 = button_up button
  end.
Definition released (before after : list (INPUT * bool)) : Prop :=
  exists l, after = before ++ l /\ Forall is_release l.
#[export] Instance released_preorder : PreOrder released.
Proof.
  split; [intros l; exists []; by rewrite app_nil_r|].
  intros a b c (k & -> & Hk) (l & -> & Hl). exists (k ++ l). rewrite app_assoc.
  split; [done|by apply Forall_app_2].
Qed.
Lemma released_one before input accepted :
  is_release (input, accepted) -> released before (before ++ [(input, accepted)]).
Proof. intros Hr. exists [(input, accepted)]. by repeat constructor. Qed.

Section Released.
Context (SendInput : list (INPUT * bool) -> INPUT -> bool).

Lemma send_key_released code i : released (calls i) (calls (send_key SendInput code false i).1).
Proof.
  unfold send_key. destruct (evdev_to_windows_scancode code); [|done]. by apply released_one.
Qed.
Lemma keys_up_released keys : forall i first,
  released (calls i) (calls (keys_up SendInput keys i first).1).
Proof.
  induction keys as [|key keys IH]; intros i first; cbn [keys_up]; [done|].
  pose proof (send_key_released key i) as Hk. destruct (send_key SendInput key false i) as [j r].
  by etrans.
Qed.
Lemma buttons_up_released buttons : forall i first,
  released (calls i) (calls (buttons_up SendInput buttons i first).1).
Proof.
  induction buttons as [|b buttons IH]; intros i first; cbn [buttons_up]; [done|].
  destruct (negb (held_buttons i b)); [apply IH|].
  destruct (mouse_button_input b false) as [data flags] eqn:Em.
  etrans; [|apply IH]. cbn. apply released_one. exists b. unfold button_up. by rewrite Em.
Qed.
Lemma all_keys_up_released i : released (calls i) (calls (all_keys_up SendInput i).1).
Proof.
  unfold all_keys_up. pose proof (keys_up_released (ascending (held_keys i)) i None) as Hk.
  destruct (keys_up _ _ i None) as [j first].
  set (j' := {| held_keys := ∅; held_buttons := held_buttons j; calls := calls j |}).
  pose proof (buttons_up_released BUTTONS j' first) as Hb. destruct (buttons_up _ _ j' first).
  by etrans.
Qed.
End Released.

Section Control.
Context {W : Type} `{WindowsClipboardApi W} `{Lib : ClipboardLibraries} `{FrameCodec}.
Context (SendInput : list (INPUT * bool) -> INPUT -> bool) (P : Pair).

Abbreviation acting := (stateful (WindowsSession W) WindowsSessionError).

Definition lets_go (s s' : WindowsSession W) : Prop :=
  released (calls (w_injector s)) (calls (w_injector s')).
#[export] Instance lets_go_preorder : PreOrder lets_go.
Proof. split; unfold lets_go; [by intros s|]. intros a b c Hab Hbc. by etrans. Qed.

(** Steps that do not reach the injector. *)
Lemma lets_go_quiet {A} (x : acting A) :
  (forall s, w_injector (x s).1 = w_injector s) -> within lets_go x.
Proof. intros Hx s. unfold lets_go. rewrite Hx. reflexivity. Qed.
Lemma lets_go_change f : (forall s, released (calls (w_injector s)) (calls (w_injector (f s)))) ->
  within lets_go (@change W f).
Proof. intros Hf s. apply Hf. Qed.
Lemma lets_go_ask {A} (f : WindowsSession W -> A) : within lets_go (ask f).
Proof. by apply lets_go_quiet. Qed.
Lemma lets_go_live {A} (x : stateful (Live W) LiveError A) : within lets_go (on_live x).
Proof. by apply lets_go_quiet. Qed.
Lemma lets_go_coordinator {A} (x : coordinated A) : within lets_go (@on_coordinator W A x).
Proof. by apply lets_go_quiet. Qed.
Lemma lets_go_release : within lets_go (@release_peer_input W SendInput).
Proof. apply lets_go_change. intros s. apply all_keys_up_released. Qed.
Lemma lets_go_keys_up : within lets_go (@on_injector W (all_keys_up SendInput)).
Proof. intros s. apply all_keys_up_released. Qed.

Create HintDb lets_go discriminated.
#[local] Hint Constants Opaque : lets_go.
#[local] Hint Resolve lets_go_ask lets_go_live lets_go_coordinator lets_go_release
  lets_go_keys_up : lets_go.
#[local] Hint Extern 1 (within _ (change _)) => apply lets_go_quiet; intros; reflexivity : lets_go.
Ltac lets_go_step :=
  match goal with
  | |- within _ (st_bind _ _) => apply within_bind; [apply _| |intros]
  | |- within _ (attempt _) => apply within_attempt
  | |- within _ (st_ret _) => apply within_ret; apply _
  | |- within _ (st_fail _) => apply within_fail; apply _
  | |- within _ (st_lift _) => apply within_lift; apply _
  | |- within _ (if ?b then _ else _) => destruct b
  | |- within _ (match ?x with _ => _ end) => destruct x
  end.
Ltac lets_go_steps := repeat lets_go_step; auto with lets_go.

Context (m : Moment).

Lemma lets_go_ignore {A} (x : acting A) : within lets_go x -> within lets_go (ignore x).
Proof. intros Hx. unfold ignore. by lets_go_steps. Qed.
Lemma lets_go_write frame : within lets_go (@write W _ frame).
Proof. apply lets_go_live. Qed.
Lemma lets_go_on_capture f : within lets_go (@on_capture W f).
Proof. unfold on_capture. lets_go_steps. Qed.
Lemma lets_go_restore : within lets_go (@restore_forwarding W m).
Proof. unfold restore_forwarding, set_forwarding_enabled, on_capture. lets_go_steps. Qed.
Lemma lets_go_tray_status status : within lets_go (@tray_status W m status).
Proof. unfold tray_status. lets_go_steps. Qed.
Lemma lets_go_tray_role available switching : within lets_go (@tray_role W P available switching).
Proof. unfold tray_role. lets_go_steps. Qed.
Lemma lets_go_audio_route choice status : within lets_go (@tray_audio_route W P choice status).
Proof. unfold tray_audio_route. lets_go_steps. Qed.
Lemma lets_go_offer : within lets_go (@send_windows_audio_offer W _ m).
Proof. unfold send_windows_audio_offer, write. lets_go_steps. Qed.
Lemma lets_go_route : within lets_go (@send_windows_audio_route W _ P).
Proof. unfold send_windows_audio_route, write. lets_go_steps. Qed.
#[local] Hint Resolve lets_go_ignore lets_go_write lets_go_on_capture lets_go_restore
  lets_go_tray_status lets_go_tray_role lets_go_audio_route lets_go_offer lets_go_route : lets_go.
Lemma lets_go_resume_audio : within lets_go (@resume_audio W _ P m).
Proof. unfold resume_audio. lets_go_steps. Qed.
Lemma lets_go_commit_route choice : within lets_go (@commit_route W _ P m choice).
Proof. unfold commit_route, drop_audio, save_route. lets_go_steps. Qed.
Lemma lets_go_offer_if_local : within lets_go (@offer_if_local W _ P m).
Proof. unfold offer_if_local. lets_go_steps. Qed.
Lemma lets_go_stop_audio reason : within lets_go (@stop_audio W _ reason).
Proof. unfold stop_audio. lets_go_steps. Qed.
Lemma lets_go_request requested : within lets_go (@request_controller W _ SendInput P m requested).
Proof.
  unfold request_controller, begin_windows_role_switch, set_forwarding_enabled,
    force_release_to_local. lets_go_steps.
Qed.
#[local] Hint Resolve lets_go_resume_audio lets_go_commit_route lets_go_offer_if_local
  lets_go_stop_audio lets_go_request : lets_go.

Lemma lets_go_tray_outcome outcome : within lets_go (@on_tray_outcome W _ SendInput P m outcome).
Proof.
  unfold on_tray_outcome, on_tray_disconnect, pause_by_tray, on_tray_reconnect,
    on_tray_input_forwarding, on_tray_audio, all_keys_up_frame, tray_input_forwarding,
    set_forwarding_enabled, force_release_to_local, drop_audio, set_audio_source, turn, leave.
  lets_go_steps.
Qed.
Lemma lets_go_audio control : within lets_go (@on_audio W _ P m control).
Proof.
  unfold on_audio, on_audio_offer, on_audio_start, on_audio_request_route, on_audio_state,
    on_audio_stop, on_audio_set_enabled, drop_audio, set_audio_source, tray_audio. lets_go_steps.
Qed.
Lemma lets_go_control control : within lets_go (@on_peer_control W SendInput P m control).
Proof. unfold on_peer_control, capture_release, tray_input_forwarding. lets_go_steps. Qed.
Lemma lets_go_ready epoch capture inject detail :
  within lets_go (@on_role_ready W _ SendInput P m epoch capture inject detail).
Proof. unfold on_role_ready, on_role_decision. lets_go_steps. Qed.
Lemma lets_go_paused paused : within lets_go (@on_peer_set_paused W _ SendInput P m paused).
Proof.
  unfold on_peer_set_paused, set_forwarding_enabled, force_release_to_local, drop_audio.
  lets_go_steps.
Qed.
Lemma lets_go_watchdog : within lets_go (@on_watchdog W _ SendInput P m).
Proof.
  unfold on_watchdog, on_transition_deadline, on_liveness, force_release_to_local, turn.
  lets_go_steps.
Qed.
Lemma lets_go_audio_watch : within lets_go (@on_audio_watch W _ P m).
Proof.
  unfold on_audio_watch, on_receiver_finished, on_sender_finished, tray_audio, turn. lets_go_steps.
Qed.
#[local] Hint Resolve lets_go_tray_outcome lets_go_audio lets_go_control lets_go_ready
  lets_go_paused lets_go_watchdog lets_go_audio_watch : lets_go.

(** The one frame that is played. *)
Definition plays (frame : Frame) : bool :=
  match frame with
  | Frame_Input input => match input_event input with AllKeysUp => false | _ => true end
  | _ => false
  end.
(** When input of the peer is played. *)
Definition may_play (input : InputFrame) (s : WindowsSession W) : Prop :=
  input_role_epoch input = w_role_epoch s /\ w_local_is_controller s = false
  /\ w_session_paused s = false /\ w_input_forwarding_enabled s = true
  /\ accepts_input (w_input_epoch s) = true.

Lemma lets_go_peer_input input (s : WindowsSession W) :
  lets_go s (on_peer_input SendInput m input s).1
  \/ plays (Frame_Input input) = true /\ may_play input s.
Proof.
  unfold on_peer_input, st_bind at 1. cbn [ask id].
  destruct (_ || _ || _) eqn:Eg; [left; apply (within_at lets_go); lets_go_steps|].
  apply orb_false_iff in Eg as [[Ee El]%orb_false_iff Ep]. apply negb_false_iff, Z.eqb_eq in Ee.
  cbn [plays]. destruct (input_event input) eqn:Ev;
    try (left; apply (within_at lets_go); unfold record_injected; lets_go_steps; fail).
  all: destruct (negb _ || negb _) eqn:Eb; [left; apply (within_at lets_go); lets_go_steps|].
  all: apply orb_false_iff in Eb as [Ef%negb_false_iff Ea%negb_false_iff]; by right.
Qed.
(** A computation followed by one that does not reach the injector. *)
Lemma lets_go_bind_at {A B} (x : acting A) (k : A -> acting B) s :
  lets_go s (x s).1 -> (forall a, within lets_go (k a)) -> lets_go s (st_bind x k s).1.
Proof.
  intros Hx Hk. unfold st_bind. destruct (x s) as [s1 [a|e]]; [|done]. etrans; [exact Hx|apply Hk].
Qed.
Lemma lets_go_frame frame (s : WindowsSession W) :
  lets_go s (on_frame SendInput P m (Some frame) s).1
  \/ plays frame = true /\ exists input, frame = Frame_Input input /\ may_play input s.
Proof.
  cbn [on_frame].
  set (seen := fun s => set_w_receiver_liveness _ s). unfold st_bind at 1. cbn [change].
  assert (lets_go s (seen s)) as Hseen by (unfold lets_go; reflexivity).
  assert (forall input, may_play input (seen s) -> may_play input s) as Hplay by done.
  clearbody seen.
  destruct frame as [| |input|event|ctl|hb|err|audio| |role| | |].
  3: { destruct (lets_go_peer_input input (seen s)) as [Hl|[? ?]]; [left|right; eauto].
       etrans; [exact Hseen|]. apply lets_go_bind_at; [exact Hl|]. intros _. unfold turn. lets_go_steps. }
  all: left; etrans; [exact Hseen|]; apply (within_at lets_go).
  all: unfold turn, on_heartbeat, on_role_request, on_role_applied; lets_go_steps.
Qed.
(** Whatever wakes the session, the injector is asked for more than to let go only for input of
    the peer that may be played. *)
Lemma session_plays wake (s : WindowsSession W) :
  lets_go s (session_step SendInput P m wake s).1
  \/ exists input, wake = Wake_frame (Some (Frame_Input input)) /\ input_event input <> AllKeysUp
                   /\ may_play input s.
Proof.
  destruct wake as [| | | |reloaded| | | |read| |event| |[frame|]|]; cbn [session_step].
  13: { destruct (lets_go_frame frame s) as [?|(Hp & input & -> & ?)]; [by left|right].
        exists input. split_and!; [done| |done]. intros E. cbn in Hp. by rewrite E in Hp. }
  all: left; apply (within_at lets_go).
  all: unfold live_arm, on_ctrl_c, on_config_refresh, on_config_reloaded, on_heartbeat_due,
    on_tray_poll, on_live_input, all_keys_up_frame, on_frame, turn, leave; lets_go_steps.
Qed.
End Control.

(** ** What is captured *)

Lemma disabled e p : CaptureSwitch.enabled_in (disable e p) = false.
Proof. unfold disable. by rewrite CaptureSwitch.enabled_set_enabled, andb_false_r. Qed.

Section Switch.
Context {W : Type} `{WindowsClipboardApi W} `{Lib : ClipboardLibraries} `{FrameCodec}.
Context (SendInput : list (INPUT * bool) -> INPUT -> bool) (P : Pair).

Abbreviation acting := (stateful (WindowsSession W) WindowsSessionError).

(** The user's input goes to the peer. *)
Definition shares_input (s : WindowsSession W) : bool :=
  w_local_is_controller s && w_input_forwarding_enabled s && negb (w_session_paused s).
Definition capture_fits (s : WindowsSession W) : Prop :=
  CaptureSwitch.enabled_in (w_capture s) = true -> shares_input s = true.

(** A computation that keeps the capture within the switches when it succeeds, and one after
    which it is, wherever it was before. *)
Definition fitting {A} (x : acting A) : Prop := forall s s' a,
  capture_fits s -> x s = (s', Ok a) -> capture_fits s'.
Definition refits {A} (x : acting A) : Prop := forall s s' a, x s = (s', Ok a) -> capture_fits s'.

Lemma refits_fitting {A} (x : acting A) : refits x -> fitting x.
Proof. intros Hx s s' a _. apply Hx. Qed.
Lemma fitting_bind {A B} (x : acting A) (k : A -> acting B) :
  fitting x -> (forall a, fitting (k a)) -> fitting (st_bind x k).
Proof.
  intros Hx Hk s s' b Hs (s1 & a & E1 & E2)%st_bind_Ok.
  exact (Hk a s1 s' b (Hx s s1 a Hs E1) E2).
Qed.
Lemma refits_bind {A B} (x : acting A) (k : A -> acting B) :
  refits x -> (forall a, fitting (k a)) -> refits (st_bind x k).
Proof.
  intros Hx Hk s s' b (s1 & a & E1 & E2)%st_bind_Ok. exact (Hk a s1 s' b (Hx s s1 a E1) E2).
Qed.
Lemma refits_later {A B} (x : acting A) (k : A -> acting B) :
  (forall a, refits (k a)) -> refits (st_bind x k).
Proof. intros Hk s s' b (s1 & a & E1 & E2)%st_bind_Ok. exact (Hk a s1 s' b E2). Qed.

(** Steps that reach neither the capture nor the switches. *)
Definition same_switches (s s' : WindowsSession W) : Prop :=
  w_capture s' = w_capture s /\ w_local_is_controller s' = w_local_is_controller s
  /\ w_input_forwarding_enabled s' = w_input_forwarding_enabled s
  /\ w_session_paused s' = w_session_paused s.
Lemma capture_fits_same s s' : same_switches s s' -> capture_fits s -> capture_fits s'.
Proof. intros (E1 & E2 & E3 & E4). unfold capture_fits, shares_input. by rewrite E1, E2, E3, E4. Qed.
Lemma fitting_quiet {A} (x : acting A) : (forall s, same_switches s (x s).1) -> fitting x.
Proof. intros Hx s s' a Hs E. specialize (Hx s). rewrite E in Hx. by apply (capture_fits_same s). Qed.
Lemma fitting_change f : (forall s, same_switches s (f s)) -> fitting (@change W f).
Proof. intros Hf. by apply fitting_quiet. Qed.
Lemma fitting_ask {A} (f : WindowsSession W -> A) : fitting (ask f).
Proof. by apply fitting_quiet. Qed.
Lemma fitting_live {A} (x : stateful (Live W) LiveError A) : fitting (on_live x).
Proof. by apply fitting_quiet. Qed.
Lemma fitting_coordinator {A} (x : coordinated A) : fitting (@on_coordinator W A x).
Proof. by apply fitting_quiet. Qed.
Lemma fitting_attempt_coordinator {A} (x : coordinated A) :
  fitting (attempt (@on_coordinator W A x) : acting (result A WindowsSessionError)).
Proof. by apply fitting_quiet. Qed.
Lemma fitting_injector x : fitting (@on_injector W x).
Proof. by apply fitting_quiet. Qed.
Lemma fitting_write frame : fitting (@write W _ frame).
Proof. apply fitting_live. Qed.
Lemma fitting_ignore_write frame : fitting (ignore (@write W _ frame)).
Proof. apply fitting_bind; [by apply fitting_quiet|intros; by apply fitting_quiet]. Qed.
Lemma fitting_ret {A} (a : A) : fitting (st_ret a : acting A).
Proof. by apply fitting_quiet. Qed.
Lemma fitting_fail {A} e : fitting (st_fail e : acting A).
Proof. by apply fitting_quiet. Qed.
Lemma fitting_lift {A} (r : result A WindowsSessionError) : fitting (st_lift r : acting A).
Proof. by apply fitting_quiet. Qed.

(** Calls of the capture. *)
Lemma fitting_capture f : (forall p, CaptureSwitch.enabled_in (f p) = CaptureSwitch.enabled_in p) ->
  fitting (@on_capture W f).
Proof. intros Hf s s' a Hs [= <- _]. unfold capture_fits. cbn. by rewrite Hf. Qed.

Context (m : Moment).

Lemma set_forwarding_fits b s : (b = true -> shares_input s = true) ->
  capture_fits (set_w_capture (call_set_enabled (m_env m) b (w_capture s)) s).
Proof.
  intros Hb. unfold capture_fits, call_set_enabled. cbn.
  rewrite CaptureSwitch.enabled_set_enabled. intros [_ Hb']%andb_true_iff. by apply Hb.
Qed.
Lemma refits_off : refits (@set_forwarding_enabled W m false).
Proof. intros s s' a [= <- _]. by apply set_forwarding_fits. Qed.
Lemma refits_force_release : refits (@force_release_to_local W m).
Proof. intros s s' a [= <- _]. unfold capture_fits. cbn. by rewrite disabled. Qed.
Lemma refits_restore : refits (@restore_forwarding W m).
Proof. intros s s' a [= <- _]. by apply set_forwarding_fits. Qed.

Create HintDb fitting discriminated.
#[local] Hint Constants Opaque : fitting.
#[local] Hint Resolve fitting_ask fitting_live fitting_coordinator fitting_attempt_coordinator
  fitting_injector fitting_write fitting_ignore_write fitting_ret fitting_fail fitting_lift : fitting.
#[local] Hint Resolve refits_off refits_force_release refits_restore refits_fitting : fitting.
#[local] Hint Extern 1 (fitting (change _)) =>
  apply fitting_change; intros; split_and!; reflexivity : fitting.
Ltac fitting_step :=
  match goal with
  | |- fitting (st_bind _ _) => apply fitting_bind; [|intros]
  | |- fitting (if ?b then _ else _) => destruct b
  | |- fitting (match ?x with _ => _ end) => destruct x
  end.
Ltac fitting_steps := repeat fitting_step; auto with fitting.

Lemma fitting_release : fitting (@release_peer_input W SendInput).
Proof. unfold release_peer_input. fitting_steps. Qed.
Lemma fitting_tray_status status : fitting (@tray_status W m status).
Proof. unfold tray_status. fitting_steps. Qed.
Lemma fitting_tray_role available switching : fitting (@tray_role W P available switching).
Proof. unfold tray_role. fitting_steps. Qed.
Lemma fitting_audio_route choice status : fitting (@tray_audio_route W P choice status).
Proof. unfold tray_audio_route. fitting_steps. Qed.
Lemma fitting_offer : fitting (@send_windows_audio_offer W _ m).
Proof. unfold send_windows_audio_offer. fitting_steps. Qed.
Lemma fitting_route : fitting (@send_windows_audio_route W _ P).
Proof. unfold send_windows_audio_route. fitting_steps. Qed.
Lemma fitting_stop_audio reason : fitting (@stop_audio W _ reason).
Proof. unfold stop_audio. fitting_steps. Qed.
Lemma fitting_user_release n reason :
  fitting (@on_capture W (Nat.iter n (call_release_to_local (m_env m) reason))).
Proof.
  apply fitting_capture. intros p. induction n as [|n IH]; cbn; [done|].
  by rewrite CaptureSwitch.enabled_release.
Qed.
Lemma fitting_capture_release reason : fitting (@capture_release W m reason).
Proof.
  unfold capture_release. fitting_steps. apply fitting_capture.
  intros p. apply CaptureSwitch.enabled_receiver_release.
Qed.
#[local] Hint Resolve fitting_release fitting_tray_status fitting_tray_role fitting_audio_route
  fitting_offer fitting_route fitting_stop_audio fitting_user_release
  fitting_capture_release : fitting.
Lemma fitting_resume_audio : fitting (@resume_audio W _ P m).
Proof. unfold resume_audio. fitting_steps. Qed.
Lemma fitting_commit_route choice : fitting (@commit_route W _ P m choice).
Proof. unfold commit_route, drop_audio, save_route. fitting_steps. Qed.
Lemma fitting_offer_if_local : fitting (@offer_if_local W _ P m).
Proof. unfold offer_if_local. fitting_steps. Qed.
Lemma fitting_request requested : fitting (@request_controller W _ SendInput P m requested).
Proof. unfold request_controller, begin_windows_role_switch. fitting_steps. Qed.
#[local] Hint Resolve fitting_resume_audio fitting_commit_route fitting_offer_if_local
  fitting_request : fitting.

(** *** The arms that set a switch *)

Lemma refits_pause_by_tray : refits (@pause_by_tray W _ SendInput P m).
Proof.
  unfold pause_by_tray. do 2 (apply refits_later; intros _).
  apply refits_bind; [auto with fitting|intros _]. unfold drop_audio. fitting_steps.
Qed.
(** The sharing of input as it is asked for, in a session that is not paused. *)
Lemma resumed_fits (s : WindowsSession W) : w_session_paused s = false ->
  capture_fits (set_w_capture (call_set_enabled (m_env m)
    (w_local_is_controller s && w_input_forwarding_enabled s) (w_capture s)) s).
Proof.
  intros Hp. apply set_forwarding_fits. intros Hb. unfold shares_input. by rewrite Hb, Hp.
Qed.
Lemma write_switches frame (s s' : WindowsSession W) r : write frame s = (s', r) -> same_switches s s'.
Proof. intros [= <- _]. by split_and!. Qed.
Lemma fitting_tray_reconnect : fitting (@on_tray_reconnect W _ P m).
Proof.
  unfold on_tray_reconnect. destruct (role_switch_available P); [|apply fitting_ret].
  apply refits_fitting. intros s s' a E. apply st_bind_Ok in E as (s1 & ? & _ & E).
  apply st_bind_Ok in E as (s2 & [] & E2 & E). apply st_bind_Ok in E as (s3 & [] & E3 & E).
  apply write_switches in E3 as (_ & _ & _ & E3). injection E2 as <-. cbn in E3.
  apply st_bind_Ok in E as (s4 & c & [= <- <-] & E). apply st_bind_Ok in E as (s5 & [] & [= <-] & E).
  revert E. apply (fitting_bind (resume_audio P m)); [auto with fitting|intros; fold (@turn W)|by apply resumed_fits].
  unfold turn. fitting_steps.
Qed.
Lemma fitting_peer_set_paused paused : fitting (@on_peer_set_paused W _ SendInput P m paused).
Proof.
  unfold on_peer_set_paused. intros s s' a Hs E.
  apply st_bind_Ok in E as (s0 & c & [= <- <-] & E). cbn [id] in E.
  destruct (is_transitioning (w_coordinator s)); [injection E as <- _; done|].
  apply st_bind_Ok in E as (s1 & ? & E1 & E). injection E1 as <- _.
  apply st_bind_Ok in E as (s2 & [] & [= <-] & E).
  apply st_bind_Ok in E as (s3 & [] & E3 & E).
  enough (capture_fits s3) as Hfits by (revert E; apply (fitting_bind (write _)); [auto with fitting|intros; fitting_steps|done]).
  clear E. destruct paused.
  - revert E3. apply refits_bind; [auto with fitting|intros]. unfold drop_audio. fitting_steps.
  - apply st_bind_Ok in E3 as (s4 & [] & [= <-] & E3).
    eapply fitting_resume_audio; [|exact E3].
    match goal with |- capture_fits (set_w_capture _ ?s0) => exact (resumed_fits s0 eq_refl) end.
Qed.
Lemma fitting_forwarding enabled : fitting (@on_tray_input_forwarding W _ SendInput P m enabled).
Proof.
  apply refits_fitting. unfold on_tray_input_forwarding. do 2 (apply refits_later; intros _).
  apply refits_bind; [auto with fitting|intros]. unfold tray_input_forwarding, turn. fitting_steps.
Qed.
Lemma fitting_peer_control control : fitting (@on_peer_control W SendInput P m control).
Proof.
  unfold on_peer_control. apply fitting_bind; [auto with fitting|intros s].
  destruct (negb _); [auto with fitting|]. destruct (control_event control); try by fitting_steps.
  destruct (peer_supports_input_toggle P); [|auto with fitting].
  apply refits_fitting, refits_later. intros _. apply refits_bind; [auto with fitting|intros].
  unfold tray_input_forwarding. fitting_steps.
Qed.
Lemma fitting_decision decision : fitting (@on_role_decision W _ SendInput P m decision).
Proof.
  destruct decision as [commit|abort]; cbn [on_role_decision]; apply refits_fitting.
  - do 6 (apply refits_later; intros ?). apply refits_bind; [auto with fitting|intros _].
    fitting_steps.
  - apply refits_bind; [auto with fitting|intros _]. fitting_steps.
Qed.
#[local] Hint Resolve refits_pause_by_tray fitting_tray_reconnect fitting_peer_set_paused
  fitting_forwarding fitting_peer_control fitting_decision : fitting.

(** *** Every arm *)

Lemma fitting_tray_outcome outcome : fitting (@on_tray_outcome W _ SendInput P m outcome).
Proof.
  unfold on_tray_outcome, on_tray_disconnect, on_tray_audio, all_keys_up_frame, set_audio_source,
    turn, leave. fitting_steps.
Qed.
Lemma fitting_audio control : fitting (@on_audio W _ P m control).
Proof.
  unfold on_audio, on_audio_offer, on_audio_start, on_audio_request_route, on_audio_state,
    on_audio_stop, on_audio_set_enabled, drop_audio, set_audio_source, tray_audio. fitting_steps.
Qed.
Lemma fitting_ready epoch capture inject detail :
  fitting (@on_role_ready W _ SendInput P m epoch capture inject detail).
Proof. unfold on_role_ready. fitting_steps. Qed.
Lemma fitting_watchdog : fitting (@on_watchdog W _ SendInput P m).
Proof. unfold on_watchdog, on_transition_deadline, on_liveness, turn. fitting_steps. Qed.
Lemma fitting_peer_input input : fitting (@on_peer_input W _ SendInput m input).
Proof. unfold on_peer_input, record_injected. fitting_steps. Qed.
#[local] Hint Resolve fitting_tray_outcome fitting_audio fitting_ready fitting_watchdog
  fitting_peer_input : fitting.
Lemma fitting_frame frame : fitting (@on_frame W _ _ _ SendInput P m frame).
Proof.
  unfold on_frame, on_heartbeat, on_role_request, on_role_applied, turn. fitting_steps.
Qed.
#[local] Hint Resolve fitting_frame : fitting.
Lemma session_step_fits wake : fitting (session_step SendInput P m wake).
Proof.
  destruct wake as [| | | |reloaded| | | |read| |event| |frame|]; cbn [session_step];
    unfold live_arm, on_ctrl_c, on_audio_watch, on_receiver_finished, on_sender_finished,
      tray_audio, on_config_refresh, on_config_reloaded, on_heartbeat_due, on_tray_poll,
      on_live_input, all_keys_up_frame, turn, leave; fitting_steps.
Qed.
Lemma start_session_fits config initial : refits (@start_session W _ P m config initial).
Proof.
  unfold start_session. do 2 (apply refits_later; intros ?).
  apply refits_bind; [auto with fitting|intros _].
  unfold tray_input_forwarding, start_audio, save_route, set_audio_source, tray_audio. fitting_steps.
Qed.
End Switch.

(** ** After a silence *)

Section Silence.
Context {W : Type} `{WindowsClipboardApi W} `{Lib : ClipboardLibraries} `{FrameCodec}.
Context (SendInput : list (INPUT * bool) -> INPUT -> bool) (P : Pair).

Abbreviation acting := (stateful (WindowsSession W) WindowsSessionError).

(** The capture stays off, and the switches stay as they are. *)
Definition stays_off (s s' : WindowsSession W) : Prop :=
  w_transition_deadline s = None -> CaptureSwitch.enabled_in (w_capture s) = false ->
  w_transition_deadline s' = None /\ CaptureSwitch.enabled_in (w_capture s') = false
  /\ shares_input s' = shares_input s.
#[export] Instance stays_off_preorder : PreOrder stays_off.
Proof.
  split; [by intros s|]. intros a b c Hab Hbc Hd Ha.
  destruct (Hab Hd Ha) as (Hd' & Hb & E1). destruct (Hbc Hd' Hb) as (? & ? & E2).
  split_and!; [done..|congruence].
Qed.

Lemma off_quiet {A} (x : acting A) :
  (forall s, same_switches s (x s).1 /\ w_transition_deadline (x s).1 = w_transition_deadline s) ->
  within stays_off x.
Proof.
  intros Hx s Hd Ha. destruct (Hx s) as [(E1 & E2 & E3 & E4) E5].
  unfold shares_input. by rewrite E1, E2, E3, E4, E5.
Qed.
Lemma off_ask {A} (f : WindowsSession W -> A) : within stays_off (ask f).
Proof. by apply off_quiet. Qed.
Lemma off_live {A} (x : stateful (Live W) LiveError A) : within stays_off (on_live x).
Proof. by apply off_quiet. Qed.
Lemma off_injector x : within stays_off (@on_injector W x).
Proof. by apply off_quiet. Qed.
Lemma off_release : within stays_off (@release_peer_input W SendInput).
Proof. by apply off_quiet. Qed.
Context (m : Moment).
Lemma off_force_release : within stays_off (@force_release_to_local W m).
Proof.
  intros s Hd Ha. split_and!; [done|apply disabled|done].
Qed.

Create HintDb off discriminated.
#[local] Hint Constants Opaque : off.
#[local] Hint Resolve off_ask off_live off_injector off_release off_force_release : off.
#[local] Hint Extern 1 (within _ (change _)) =>
  apply off_quiet; intros; split; [split_and!|]; reflexivity : off.
Ltac off_step :=
  match goal with
  | |- within _ (st_bind _ _) => apply within_bind; [apply _| |intros]
  | |- within _ (attempt _) => apply within_attempt
  | |- within _ (st_ret _) => apply within_ret; apply _
  | |- within _ (st_fail _) => apply within_fail; apply _
  | |- within _ (st_lift _) => apply within_lift; apply _
  | |- within _ (if ?b then _ else _) => destruct b
  | |- within _ (match ?x with _ => _ end) => destruct x
  end.
Ltac off_steps := repeat off_step; auto with off.

Lemma no_deadline (s : WindowsSession W) : w_transition_deadline s = None ->
  on_transition_deadline P m s = (s, Ok tt).
Proof. intros Hd. unfold on_transition_deadline, st_bind at 1. cbn [ask id]. by rewrite Hd. Qed.
Lemma off_deadline : within stays_off (@on_transition_deadline W _ P m).
Proof. intros s Hd Ha. by rewrite no_deadline. Qed.
Lemma off_watchdog : within stays_off (@on_watchdog W _ SendInput P m).
Proof. pose proof off_deadline. unfold on_watchdog, on_liveness, turn. off_steps. Qed.
Lemma off_audio control : within stays_off (@on_audio W _ P m control).
Proof.
  unfold on_audio, on_audio_offer, on_audio_start, on_audio_request_route, on_audio_state,
    on_audio_stop, on_audio_set_enabled, commit_route, offer_if_local, save_route,
    send_windows_audio_route, send_windows_audio_offer, drop_audio, set_audio_source, ignore,
    tray_audio, tray_audio_route, write. off_steps.
Qed.
Lemma off_peer_input input : within stays_off (@on_peer_input W _ SendInput m input).
Proof. unfold on_peer_input, record_injected, write. off_steps. Qed.
#[local] Hint Resolve off_watchdog off_audio off_peer_input : off.

(** What a session that goes on as it is wakes up for: anything but the tray and a change of the
    role, of the pause or of the sharing that the peer announces. *)
Definition as_before (wake : wake_up) : bool :=
  match wake with
  | Wake_tray | Wake_frame (Some (Frame_Role _ | Frame_Control _)) => false
  | _ => true
  end.
Lemma off_step_as_before wake : as_before wake = true ->
  within stays_off (session_step SendInput P m wake).
Proof.
  intros Hw. destruct wake as [| | | |reloaded| | | |read| |event| |[[| | | | | | | | | | | |]|]|];
    try done; cbn [session_step].
  all: unfold on_frame, on_heartbeat, live_arm, on_ctrl_c, on_audio_watch, on_receiver_finished,
    on_sender_finished, on_config_refresh, on_config_reloaded, on_heartbeat_due, on_live_input,
    all_keys_up_frame, stop_audio, send_windows_audio_route, send_windows_audio_offer, ignore,
    tray_audio, write, turn, leave; off_steps.
Qed.
End Silence.

Section Recovery.
Context {W : Type} `{WindowsClipboardApi W} `{Lib : ClipboardLibraries} `{FrameCodec}.
Context (SendInput : list (INPUT * bool) -> INPUT -> bool) (P : Pair).

Definition session_run (l : list (Moment * wake_up)) (s : WindowsSession W) : WindowsSession W :=
  fold_left (fun s x => (session_step SendInput P x.1 x.2 s).1) l s.

(** A peer that is silent for two seconds while the user's input goes to it switches the capture
    off, and nothing switches it on again when the peer answers: the session goes on with the
    sharing of input shown and announced as on, and the hooks take nothing, until the user or the
    peer changes a switch. *)
Theorem silence_stops_sharing_for_good (s s1 : WindowsSession W) (m : Moment) l :
  w_local_is_controller s = true -> w_transition_deadline s = None ->
  (LivenessTracker_poll (w_receiver_liveness s) (m_now m) (input_active s)).2
  = Some SoftInputTimeout ->
  session_step SendInput P m Wake_watchdog s = (s1, Ok None) ->
  Forall (fun x => as_before x.2 = true) l ->
  CaptureSwitch.enabled_in (w_capture (session_run l s1)) = false
  /\ shares_input (session_run l s1) = shares_input s.
Proof.
  intros Hl Hd Hp E Hf.
  assert (w_transition_deadline s1 = None /\ CaptureSwitch.enabled_in (w_capture s1) = false
          /\ shares_input s1 = shares_input s) as (H1 & H2 & H3).
  { cbn [session_step] in E. unfold on_watchdog in E.
    apply st_bind_Ok in E as (s2 & [] & E1 & E). apply st_bind_Ok in E as (s3 & [] & E2 & E).
    apply st_bind_Ok in E as (s4 & [] & E3 & [= <-]).
    rewrite no_deadline in E1 by done. injection E1 as <-. injection E2 as <- _.
    revert E3. unfold on_liveness, st_bind at 1. cbn [ask id].
    set (s2 := set_w_live _ s). change (input_active s2) with (input_active s).
    change (w_receiver_liveness s2) with (w_receiver_liveness s).
    destruct (LivenessTracker_poll _ _ _) as [tracker event]. cbn [snd] in Hp. subst event.
    unfold st_bind. cbn [change]. change (w_local_is_controller s2) with (w_local_is_controller s).
    rewrite Hl. intros [= <-]. split_and!; [done| |done].
    apply disabled. }
  clear E Hd Hp. rewrite <- H3. clear H3 Hl. revert s1 H1 H2.
  induction Hf as [|[m' wake] l Hw _ IH]; intros s1 H1 H2; [done|].
  destruct (off_step_as_before SendInput P m' wake Hw s1 H1 H2) as (K1 & K2 & K3).
  cbn [session_run fold_left fst snd]. rewrite <- K3. by apply IH.
Qed.
End Recovery.
