(* ===== verification/WindowsSystem.v ===== *)
(** * A Windows connector and a Linux listener

    The two loops with the two streams between them, and what the handover guarantees for the
    pair: the system is one of [Handover], its connector seen as what the role concerns. *)
From S2P Require CaptureSafety CaptureSwitch WindowsPaste.
From S2P Require Export WindowsControl WindowsHandover.
#[local] Open Scope Z_scope.
#[local] Open Scope list_scope.

(** ** The two computers *)

Record WindowsSystem (W : Type) := {
  wn : WindowsSession W;
  wl : Listener;
  w_to_listener : list Frame;
  w_to_connector : list Frame;
}.
Arguments wn {W} _.
Arguments wl {W} _.
Arguments w_to_listener {W} _.
Arguments w_to_connector {W} _.

(** What a step of the session has written. *)
Definition newly_written {W} (s s' : WindowsSession W) : list Frame :=
  drop (length (written (w_live s))) (written (w_live s')).

Section System.
Context {W : Type} `{WindowsClipboardApi W} `{Lib : ClipboardLibraries} `{FrameCodec}.
Context (SendInput : list (INPUT * bool) -> INPUT -> bool) (P : Pair).

(** The steps: the session of the Windows computer wakes up or reads a frame, a hook, a raw report
    or the supervisor of its capture runs, its user uses the clipboard and the tray, and the
    listener has an event or reads a frame. *)
Inductive windows_step : WindowsSystem W -> WindowsSystem W -> Prop :=
| wstep_wake m wake s w :
    (forall frame, wake <> Wake_frame frame) -> comes_from_capture wake ->
    session_step SendInput P m wake (wn s) = (w, Ok None) ->
    windows_step s {| wn := w; wl := wl s;
                      w_to_listener := w_to_listener s ++ newly_written (wn s) w;
                      w_to_connector := w_to_connector s |}
| wstep_frame m f rest s w :
    w_to_connector s = f :: rest ->
    session_step SendInput P m (Wake_frame (Some f)) (wn s) = (w, Ok None) ->
    windows_step s {| wn := w; wl := wl s;
                      w_to_listener := w_to_listener s ++ newly_written (wn s) w;
                      w_to_connector := rest |}
| wstep_capture e ev s :
    CaptureSwitch.unswitched ev = true ->
    windows_step s
      {| wn := set_w_capture (CaptureSafety.step e ev (w_capture (wn s))) (wn s);
         wl := wl s; w_to_listener := w_to_listener s; w_to_connector := w_to_connector s |}
| wstep_desktop station commands s :
    windows_step s
      {| wn := set_w_tray_commands commands
                 (set_w_live (with_station station (w_live (wn s))) (wn s));
         wl := wl s; w_to_listener := w_to_listener s; w_to_connector := w_to_connector s |}
| wstep_listener_event env e s l eff :
    listener_on_event env e (wl s) = Ok (l, eff) ->
    windows_step s {| wn := wn s; wl := l; w_to_listener := w_to_listener s;
                      w_to_connector := w_to_connector s ++ RoleSession.sent eff |}
| wstep_listener_frame env f rest s l eff :
    w_to_listener s = f :: rest -> listener_on_frame env f (wl s) = Ok (l, eff) ->
    windows_step s {| wn := wn s; wl := l; w_to_listener := rest;
                      w_to_connector := w_to_connector s ++ RoleSession.sent eff |}.

(** A session just after both loops started. *)
Inductive windows_start : WindowsSystem W -> Prop :=
| windows_starts m config initial role app w position capture switches captures injects toggles
    stored :
    local_fingerprint P <> peer_fingerprint P ->
    initial_role_state initial = Some role -> role_epoch role = INITIAL_ROLE_EPOCH ->
    open_session P m config initial app = Ok w ->
    windows_start
      {| wn := w;
         wl := listener_init (peer_fingerprint P) (local_fingerprint P) position capture switches
                 captures injects toggles stored;
         w_to_listener := Frame_Role (SessionState role) :: written (w_live w);
         w_to_connector := [] |}.
Definition windows_reachable (s : WindowsSystem W) : Prop :=
  exists s0, windows_start s0 /\ rtc windows_step s0 s.

(** *** Seen as a system of two Linux nodes *)

(** What the role concerns of a session. *)
Definition as_connector (s : WindowsSession W) : Connector :=
  {| coordinator := w_coordinator s; c_role_epoch := w_role_epoch s;
     c_local_is_controller := w_local_is_controller s; c_session_paused := w_session_paused s;
     c_input_forwarding_enabled := w_input_forwarding_enabled s;
     c_capture := bool_decide (is_Some (STATE (w_capture s)));
     c_input_epoch := w_input_epoch s; c_input_active := stats_active (GLOBALS (w_capture s));
     pending_readiness := (fun r => {| RoleSession.capture_ready := r.1.1;
                                       RoleSession.inject_ready := r.1.2;
                                       readiness_detail := r.2 |}) <$> w_pending_role_readiness s;
     transition_deadline := w_transition_deadline s;
     pending_role_persistence := w_pending_role_persistence s; c_role_store := w_role_store s;
     connector_pause := w_connector_paused s;
     c_audio := {| audio_starting := bool_decide (is_Some (w_pending_audio_socket s));
                   audio_start_generation := 0; audio_sending := w_audio_sender s;
                   audio_receiving := w_audio_receiver s |};
     c_audio_source := w_audio_source s; c_role_switch_available := role_switch_available P;
     RoleSession.peer_supports_audio_route := peer_supports_audio_route P |}.
Definition as_system (s : WindowsSystem W) : System :=
  {| cn := as_connector (wn s); ln := wl s; to_listener := w_to_listener s;
     to_connector := w_to_connector s |}.

Lemma as_connector_ok s : session_ok P s -> connector_ok (as_connector s).
Proof. intros [H1 H2 H3 H4 H5 H6]. split; cbn; unfold c_local; cbn; by rewrite ?H2. Qed.
Lemma sent_sends frames : RoleSession.sent (map RoleSession.Send frames) = frames.
Proof. unfold RoleSession.sent. induction frames as [|f frames IH]; cbn; [done|]. by rewrite IH. Qed.
Lemma as_connector_moves s s' : session_ok P s -> session_ok P s' -> session_moves P s s' ->
  connector_moves (as_connector s) (map RoleSession.Send (newly_written s s')) (as_connector s').
Proof.
  intros Hs Hs' (frames & Ew & Hf). pose proof (wo_local _ _ Hs) as E1.
  pose proof (wo_peer _ _ Hs) as E2. pose proof (wo_local _ _ Hs') as E3.
  pose proof (wo_peer _ _ Hs') as E4.
  split; [by apply as_connector_ok|..]; unfold c_local, c_peer; cbn; [congruence..|].
  rewrite sent_sends. unfold newly_written. rewrite Ew, drop_app_length. by rewrite E1.
Qed.

Definition windows_inv (s : WindowsSystem W) : Prop :=
  session_ok P (wn s) /\ system_inv (as_system s).

(** *** The start *)

Lemma initial_session_ok m config initial role c tracker app :
  in_u64 (role_epoch role) ->
  RoleCoordinator_new (local_fingerprint P) (peer_fingerprint P) (controller_fingerprint role)
    (role_epoch role) (Protocol.listener_position role) (paused role) = Ok c ->
  session_ok P (initial_session P m config initial role c tracker app)
  /\ session_view (initial_session P m config initial role c tracker app)
     = View (role_epoch role) (controller_fingerprint role) None.
Proof.
  intros Hu Hn. pose proof (coordinator_inv_new _ _ _ _ _ _ _ Hu Hn) as Hi.
  unfold RoleCoordinator_new in Hn. destruct (is_some_and _ _); [done|]. injection Hn as <-.
  split; [|done]. by split.
Qed.
Lemma open_session_started m config initial role app w :
  initial_role_state initial = Some role -> open_session P m config initial app = Ok w ->
  exists c tracker,
    RoleCoordinator_new (local_fingerprint P) (peer_fingerprint P) (controller_fingerprint role)
      (role_epoch role) (Protocol.listener_position role) (paused role) = Ok c
    /\ start_session P m config initial (initial_session P m config initial role c tracker app)
       = (w, Ok tt).
Proof.
  intros Hr E. unfold open_session in E. rewrite Hr in E. cbn [ok_or] in E.
  destruct (RoleCoordinator_new _ _ _ _ _ _) as [c|]; cbn [map_err] in E; [|done].
  destruct (LivenessTracker_new _ _) as [tracker|]; [|done]. exists c, tracker. split; [done|].
  destruct (start_session P m config initial _) as [w' [[]|]]; [|done]. by injection E as ->.
Qed.
Lemma start_inv s : windows_start s -> windows_inv s.
Proof.
  destruct 1 as [m config initial role app w position capture sw ca inj tg stored Hne Hr He E].
  destruct (open_session_started _ _ _ _ _ _ Hr E) as (c & tracker & Ec & Es).
  assert (in_u64 (role_epoch role)) as Hu by (by rewrite He).
  destruct (initial_session_ok m config initial role c tracker app Hu Ec) as [Hs0 V0].
  destruct (follows_start_session P m config initial _ Hs0) as (H1 & [(frames & Ew & Hf) A1] & _).
  rewrite Es in H1, Ew, Hf, A1. cbn in H1, Ew, Hf, A1. split; [done|].
  pose proof (as_connector_ok _ H1) as Hc. pose proof (wo_local _ _ H1) as E1.
  pose proof (wo_peer _ _ H1) as E2.
  assert (w_role_epoch w = role_epoch role) as Ee by exact (proj1 A1).
  split; unfold c_local, c_peer; cbn; rewrite ?E1, ?E2; try done.
  - exists None. split.
    + split; cbn; auto; [|done]. symmetry. apply bool_decide_eq_false. congruence.
    + rewrite Ew. econstructor; [by apply follow_session|]. cbn.
      rewrite V0, He in Hf. exact Hf.
  - rewrite Ee, He. done.
Qed.

(** *** Every step *)

Lemma session_step_inv s w rest eff m wake r :
  abort_fits P -> windows_inv s -> comes_from_capture wake ->
  session_step SendInput P m wake (wn s) = (w, Ok r) ->
  eff = newly_written (wn s) w ->
  Forall (in_flight_ok (as_system s)) rest ->
  (forall f, wake = Wake_frame (Some f) -> in_flight_ok (as_system s) f) ->
  windows_inv {| wn := w; wl := wl s; w_to_listener := w_to_listener s ++ eff;
                 w_to_connector := rest |}.
Proof.
  intros Hfits [Hs Hi] Hw E -> Hrest Hf.
  destruct (session_step_moves SendInput P m wake _ _ r Hfits Hs Hw E) as (H1 & H2 & H3).
  split; [done|].
  pose proof (system_inv_connector (as_system s) (as_connector w)
                (map RoleSession.Send (newly_written (wn s) w)) rest Hi) as Hc.
  rewrite sent_sends in Hc. apply Hc; [by apply as_connector_moves| |done].
  destruct H3 as [[A B]|(f & -> & (ca & ij & d & ->) & He)]; [by left|right]. split; [done|].
  specialize (Hf _ eq_refl). cbn in Hf |- *. lia.
Qed.

(** What happens outside the session. *)
Lemma outside_inv s w : w_coordinator w = w_coordinator (wn s) ->
  w_role_epoch w = w_role_epoch (wn s) ->
  w_local_is_controller w = w_local_is_controller (wn s) ->
  (connected (w_live w), delayed (w_live w), held_input (live (w_live w)))
  = (connected (w_live (wn s)), delayed (w_live (wn s)), held_input (live (w_live (wn s)))) ->
  windows_inv s ->
  windows_inv {| wn := w; wl := wl s; w_to_listener := w_to_listener s;
                 w_to_connector := w_to_connector s |}.
Proof.
  intros Ec Ee El E [Hs Hi]. injection E as E1 E2 E3. split.
  - assert (may_write w = may_write (wn s)) as Em by (unfold may_write; by rewrite Ee, El).
    destruct Hs as [H1 H2 H3 H4 H5 H6]. split; cbn [wn];
      rewrite ?Ec, ?Ee, ?El, ?Em; try done. unfold waiting_ok in *. by rewrite E1, E2, E3.
  - destruct (quiet_moves (as_connector (wn s)) (si_connector _ Hi) [] (as_connector w))
      as [Hm Ha]; [done..|].
    pose proof (system_inv_connector (as_system s) (as_connector w) [] (w_to_connector s) Hi Hm
                  (or_introl Ha) (si_replies _ Hi)) as Hc.
    by rewrite app_nil_r in Hc.
Qed.
Lemma windows_step_inv s s' : abort_fits P -> windows_inv s -> windows_step s s' -> windows_inv s'.
Proof.
  intros Hfits Hs. pose proof (si_replies _ (proj2 Hs)) as Hr. cbn in Hr.
  destruct 1 as [m wake s w Hn Hw E|m f rest s w Hq E|e ev s Hev
                |station commands s                |env e s l eff E|env f rest s l eff Hq E].
  - eapply session_step_inv; eauto. intros f ->. by destruct (Hn (Some f)).
  - rewrite Hq in Hr. apply Forall_cons in Hr as [Hf Hr].
    eapply session_step_inv; eauto; [exact I|]. by intros g [= <-].
  - by apply outside_inv.
  - by apply outside_inv.
  - destruct Hs as [Hs Hi]. split; [done|].
    apply (system_inv_step (as_system s)); [done|]. by apply (step_listener_event env e (as_system s)).
  - destruct Hs as [Hs Hi]. split; [done|].
    apply (system_inv_step (as_system s)); [done|].
    by apply (step_listener_frame env (as_system s) f).
Qed.

Lemma windows_reachable_inv s : abort_fits P -> windows_reachable s -> windows_inv s.
Proof.
  intros Hfits (s0 & Hstart & Hs). apply start_inv in Hstart.
  induction Hs as [|s0 s1 s2 Hstep _ IH]; eauto using windows_step_inv.
Qed.

(** *** The capture *)

Lemma windows_reachable_fits s : windows_reachable s -> capture_fits (wn s).
Proof.
  intros (s0 & Hstart & Hs). assert (capture_fits (wn s0)) as Hfits.
  { destruct Hstart as [m config initial role app w position capture sw ca inj tg stored Hne Hr He E].
    destruct (open_session_started _ _ _ _ _ _ Hr E) as (c & tracker & _ & Es).
    by eapply start_session_fits. }
  clear Hstart. induction Hs as [s|s s1 s2 Hstep _ IH]; [done|]. apply IH. clear IH s2.
  destruct Hstep as [m wake s w Hn Hw E|m f rest s w Hq E|e ev s Hev|station commands s| |]; cbn [wn] in *;
    try done; try by (eapply session_step_fits; [exact Hfits|exact E]).
  unfold capture_fits in *. cbn [w_capture set_w_capture].
  by rewrite CaptureSwitch.enabled_unswitched.
Qed.
End System.

(** ** Properties *)

Section Properties.
Context {W : Type} `{WindowsClipboardApi W} `{Lib : ClipboardLibraries} `{FrameCodec}.
Context (SendInput : list (INPUT * bool) -> INPUT -> bool) (P : Pair) (Hfits : abort_fits P).

Lemma same_epoch_one_controller (s : WindowsSystem W) (Hs : windows_reachable SendInput P s) :
  w_role_epoch (wn s) = l_role_epoch (wl s) ->
  w_local_is_controller (wn s) = true -> l_local_is_controller (wl s) = false.
Proof.
  intros He H1. pose proof (windows_reachable_inv SendInput P s Hfits Hs) as [Ho Hi].
  destruct (l_local_is_controller (wl s)) eqn:H2; [exfalso|done].
  destruct (si_follow _ Hi) as (open & Hl & Hf). cbn in Hl, Hf.
  rewrite (lo_controls _ _ Hl) in H2. apply bool_decide_eq_true in H2.
  apply (controls_local P) in H1; [|done].
  pose proof (same_epoch_peer (as_system P s) open Hi Hl Hf (eq_sym He) H2) as Hp.
  pose proof (si_distinct _ Hi) as Hd. unfold c_local, c_peer in *. cbn in *.
  rewrite H1 in Hp. injection Hp as Hp. apply Hd. rewrite (wo_local _ _ Ho). exact Hp.
Qed.

(** C7. The hooks of the Windows computer may take the user's input only while that computer
    controls, with the sharing of input on and the session not paused; the other computer then
    does not act as the controller of the same epoch.  However the wake-ups of the session,
    the hooks, both users and the deliveries interleave. *)
Theorem windows_captures_only_as_controller (s : WindowsSystem W) (Hs : windows_reachable SendInput P s) :
  CaptureSwitch.enabled_in (w_capture (wn s)) = true ->
  w_local_is_controller (wn s) = true /\ w_input_forwarding_enabled (wn s) = true
  /\ w_session_paused (wn s) = false
  /\ controller_fingerprint (stable (w_coordinator (wn s))) = Some (local_fingerprint P)
  /\ (w_role_epoch (wn s) = l_role_epoch (wl s) -> l_local_is_controller (wl s) = false).
Proof.
  intros He. pose proof (windows_reachable_fits SendInput P s Hs He) as Hsh.
  unfold shares_input in Hsh. apply andb_true_iff in Hsh as [[H1 H2]%andb_true_iff H3%negb_true_iff].
  pose proof (windows_reachable_inv SendInput P s Hfits Hs) as [Ho _].
  split_and!; try done; [by apply controls_local|]. intros Hep. by apply (same_epoch_one_controller s Hs).
Qed.

(** C6. Windows plays input only for the controller: whatever wakes the session, the calls of
    [SendInput] it makes are releases of keys and buttons, unless it reads an input frame of
    the epoch in which the listener is the controller, with the sharing of input on, the session
    not paused and the gate entered since it was last closed. *)
Theorem windows_plays_only_the_controllers_input (s : WindowsSystem W) (Hs : windows_reachable SendInput P s)
    m wake w r :
  (forall f, wake = Wake_frame (Some f) -> exists rest, w_to_connector s = f :: rest) ->
  session_step SendInput P m wake (wn s) = (w, r) ->
  released (calls (w_injector (wn s))) (calls (w_injector w))
  \/ exists input, wake = Wake_frame (Some (Frame_Input input)) /\ input_event input <> AllKeysUp
     /\ input_role_epoch input = w_role_epoch (wn s)
     /\ controller_fingerprint (stable (w_coordinator (wn s))) = Some (peer_fingerprint P)
     /\ w_input_forwarding_enabled (wn s) = true /\ w_session_paused (wn s) = false
     /\ accepts_input (w_input_epoch (wn s)) = true.
Proof.
  intros Hq E. pose proof (session_plays SendInput P m wake (wn s)) as Hp. rewrite E in Hp.
  destruct Hp as [Hp|(input & -> & Hev & H1 & H2 & H3 & H4 & H5)]; [by left|right].
  exists input. split_and!; try done. destruct (Hq _ eq_refl) as [rest Hr].
  pose proof (windows_reachable_inv SendInput P s Hfits Hs) as [Ho Hi].
  pose proof (si_replies _ Hi) as Hf. cbn in Hf. rewrite Hr in Hf.
  apply Forall_cons in Hf as [[?|[_ Hf]] _]; [done|]. cbn in Hf.
  rewrite (Hf H1). unfold c_peer. cbn. by rewrite (wo_peer _ _ Ho).
Qed.

(** C12. And the listener for it: an event that the listener injects was captured on the Windows
    computer, in the epoch the listener has applied and in which the Windows computer is the
    controller, while the listener is neither paused nor suspended. *)
Theorem listener_plays_only_windows_input (s : WindowsSystem W) (Hs : windows_reachable SendInput P s)
    env f rest l eff e :
  w_to_listener s = f :: rest -> listener_on_frame env f (wl s) = Ok (l, eff) -> Inject e ∈ eff ->
  f = Frame_input (l_role_epoch (wl s)) e
  /\ controller_fingerprint (current_role_state (wl s)) = Some (local_fingerprint P)
  /\ l_session_paused (wl s) = false /\ accepts_input (l_input_epoch (wl s)) = true.
Proof.
  pose proof (windows_reachable_inv SendInput P s Hfits Hs) as [Ho Hi].
  pose proof (injects_from_the_controller (as_system P s) env f rest e Hi l eff) as Hl. cbn in Hl.
  unfold c_local in Hl. cbn in Hl. rewrite (wo_local _ _ Ho) in Hl. exact Hl.
Qed.

(** C11. The listener follows the Windows computer: its epoch is never ahead and never more than one
    behind, the two never act as controllers of one epoch, and once the listener has read
    everything in flight both are in the same epoch under the same controller. *)
Theorem listener_follows_windows (s : WindowsSystem W) (Hs : windows_reachable SendInput P s) :
  l_role_epoch (wl s) <= w_role_epoch (wn s) <= l_role_epoch (wl s) + 1
  /\ ~ (w_role_epoch (wn s) = l_role_epoch (wl s) /\ w_local_is_controller (wn s) = true
        /\ l_local_is_controller (wl s) = true)
  /\ (w_to_listener s = [] -> l_role_epoch (wl s) = w_role_epoch (wn s)
      /\ controller_fingerprint (current_role_state (wl s))
         = controller_fingerprint (stable (w_coordinator (wn s)))).
Proof.
  pose proof (windows_reachable_inv SendInput P s Hfits Hs) as [_ Hi].
  destruct (si_follow _ Hi) as (open & Hl & Hf). cbn in Hf.
  pose proof (follow_all_epoch _ _ _ _ Hf) as He. cbn in He. pose proof (si_lag _ Hi) as Hg. cbn in Hg.
  split_and!; [done..| |].
  - intros (Hep & H1 & H2). by rewrite (same_epoch_one_controller s Hs) in H2.
  - intros Hq. rewrite Hq in Hf. by inversion Hf.
Qed.
End Properties.

(** ** Concrete runs *)

Module SampleDesk.
Import WindowsPaste.SamplePaste.

(** The computer with the fingerprint ["a"] runs Windows and dialled; its peer ["b"] is the
    listener. *)
Definition desk_initial : InitialReceiverState :=
  {| initial_peer_name := "Linux PC"; initial_screen_info := None;
     initial_capabilities := [AudioCaptureV1; AudioPlaybackV1; RoleSwitchV1; InputCaptureV1;
                              InputInjectV1];
     initial_extensions := [INPUT_TOGGLE_EXTENSION; AUDIO_ROUTE_EXTENSION];
     initial_role_state :=
       Some {| controller_fingerprint := Some "a"%string; role_epoch := INITIAL_ROLE_EPOCH;
               transition := Stable; Protocol.listener_position := Edge_Left; paused := false;
               failure_detail := None |} |}.
Definition desk_pair : Pair := pair_of "Main PC" "a" "b" "Connected" desk_initial.
Definition moment (t : Instant) : Moment :=
  {| m_env := CaptureSafety.at_time t CaptureSafety.desk; m_cursor := Ok {| pt_x := 5; pt_y := 5 |};
     m_tray_shown := true; m_role_saved := Ok tt; m_route_saved := Ok tt; m_route_loaded := Ok tt;
     m_offer_port := Ok 40001; m_receiver_port := Ok 40002; m_secrets := ([], [], []);
     m_playback := Ok tt; m_path := Ok tt; m_loopback := Ok tt; m_receiver_failure := None;
     m_sender_failure := None |}.
Definition desk_statics : TrayStatics :=
  {| TRAY_STATUS := []; TRAY_AUDIO_STATUS := []; TRAY_ICON := true; TRAY_CONNECTED := false;
     TRAY_AUDIO_CHOICE := 0; TRAY_AUDIO_LOCAL_AVAILABLE := false;
     TRAY_AUDIO_PEER_AVAILABLE := false; TRAY_INPUT_FORWARDING_ENABLED := true;
     TRAY_CONNECTIONS := 0; TRAY_INJECTED_INPUT_EVENTS := 0; TRAY_ROUND_TRIP_MS := 0;
     TRAY_ROLE := TrayRole_new;
     TRAY_CONTEXT := {| local_device_name := ""; peer_device_name := ""; last_error := "" |} |}.
Definition desk_app : Application Station :=
  {| app_station := text_station "" 1; app_capture := CaptureSafety.initial_process;
     app_tray := desk_statics; app_tray_commands := []; app_tray_clipboard_events := 0;
     app_input_forwarding_enabled := true; app_connector_paused := false; app_role_store := None;
     app_audio_route_store := None |}.
Definition accept_all (_ : list (INPUT * bool)) (_ : INPUT) : bool := true.

Lemma desk_abort_fits : abort_fits desk_pair.
Proof. by intros st _ _. Qed.

(** What happens, as a schedule that runs. *)
Inductive happening :=
| Wakes (t : Instant) (wake : wake_up)
| Captured (t : Instant) (event : CapturedInput)
| Reads (t : Instant)
| Hook (t : Instant) (ev : CaptureSafety.CaptureEvent)
| Commands (commands : list WindowsTrayCommand)
| Listener_event (e : listener_event)
| Listener_reads.

Definition wakes_itself (wake : wake_up) : bool :=
  match wake with Wake_frame _ | Wake_live_input (Some _) => false | _ => true end.
Definition happen (h : happening) (s : WindowsSystem Station) : option (WindowsSystem Station) :=
  let woken m wake rest :=
    match session_step accept_all desk_pair m wake (wn s) with
    | (w, Ok None) => Some {| wn := w; wl := wl s;
                              w_to_listener := w_to_listener s ++ newly_written (wn s) w;
                              w_to_connector := rest |}
    | _ => None
    end in
  match h with
  | Wakes t wake => if wakes_itself wake then woken (moment t) wake (w_to_connector s) else None
  | Captured t event =>
      woken (moment t) (Wake_live_input (Some (captured_input_to_frame event))) (w_to_connector s)
  | Reads t => match w_to_connector s with
               | f :: rest => woken (moment t) (Wake_frame (Some f)) rest
               | [] => None
               end
  | Hook t ev =>
      if CaptureSwitch.unswitched ev then
        Some {| wn := set_w_capture (CaptureSafety.step (m_env (moment t)) ev (w_capture (wn s))) (wn s);
                wl := wl s; w_to_listener := w_to_listener s; w_to_connector := w_to_connector s |}
      else None
  | Commands commands =>
      Some {| wn := set_w_tray_commands commands
                      (set_w_live (with_station (station (w_live (wn s))) (w_live (wn s))) (wn s));
              wl := wl s; w_to_listener := w_to_listener s; w_to_connector := w_to_connector s |}
  | Listener_event e =>
      match listener_on_event sample_env e (wl s) with
      | Ok (l, eff) => Some {| wn := wn s; wl := l; w_to_listener := w_to_listener s;
                               w_to_connector := w_to_connector s ++ RoleSession.sent eff |}
      | Err _ => None
      end
  | Listener_reads =>
      match w_to_listener s with
      | f :: rest =>
          match listener_on_frame sample_env f (wl s) with
          | Ok (l, eff) => Some {| wn := wn s; wl := l; w_to_listener := rest;
                                   w_to_connector := w_to_connector s ++ RoleSession.sent eff |}
          | Err _ => None
          end
      | [] => None
      end
  end.
Fixpoint happens (l : list happening) (s : WindowsSystem Station) : option (WindowsSystem Station) :=
  match l with
  | [] => Some s
  | h :: l => match happen h s with Some s' => happens l s' | None => None end
  end.

Lemma happen_step h s s' : happen h s = Some s' -> windows_step accept_all desk_pair s s'.
Proof.
  destruct h as [t wake|t event|t|t ev|commands|e|]; cbn [happen]; intros Hh; repeat case_match;
    simplify_eq; try done.
  - apply (wstep_wake _ _ (moment t) wake); [by intros frame ->| |done].
    destruct wake as [| | | | | | | | | |[event|]| | |]; try done. by exists None.
  - apply (wstep_wake _ _ (moment t) (Wake_live_input (Some (captured_input_to_frame event))));
      [done|by exists (Some event)|done].
  - by eapply (wstep_frame _ _ (moment t)).
  - by apply wstep_capture.
  - apply wstep_desktop.
  - by eapply (wstep_listener_event _ _ sample_env).
  - by eapply (wstep_listener_frame _ _ sample_env).
Qed.
Lemma happens_steps l : forall s s', happens l s = Some s' ->
  rtc (windows_step accept_all desk_pair) s s'.
Proof.
  induction l as [|h l IH]; cbn [happens]; intros s s' E; [by injection E as ->|].
  destruct (happen h s) as [s1|] eqn:Eh; [|done]. eapply rtc_l; [by eapply happen_step|]. by apply IH.
Qed.

Definition desk_session : WindowsSession Station :=
  match open_session desk_pair (moment 0) paste_config desk_initial desk_app with
  | Ok w => w
  | Err _ => initial_session desk_pair (moment 0) paste_config desk_initial
               (coordinator_state sample_coordinator) sample_coordinator
               {| live_config := LivenessConfig_default; last_authenticated_activity := 0;
                  input_active_since := None; soft_timeout_reported := false;
                  hard_timeout_reported := false |} desk_app
  end.
Definition desk_system : WindowsSystem Station :=
  {| wn := desk_session;
     wl := listener_init "b" "a" Edge_Left false true true true true None;
     w_to_listener := match initial_role_state desk_initial with
                      | Some role => [Frame_Role (SessionState role)] | None => [] end
                      ++ written (w_live desk_session);
     w_to_connector := [] |}.
Definition after (l : list happening) : WindowsSystem Station := default desk_system (happens l desk_system).
Lemma desk_reachable l : is_some_and (fun _ => true) (happens l desk_system) = true ->
  windows_reachable accept_all desk_pair (after l).
Proof.
  unfold after. destruct (happens l desk_system) as [s|] eqn:E; [intros _|done]. exists desk_system.
  split; [|by apply (happens_steps l)].
  eapply (windows_starts desk_pair (moment 0) paste_config desk_initial _ desk_app);
    [|reflexivity|reflexivity|vm_compute; reflexivity]. by vm_compute.
Qed.

(** The user moves the pointer over the left edge and presses a key. *)
Definition crosses : list happening :=
  [Hook (10 ^ 9) (CaptureSafety.Ev_hook_thread 5);
   Hook (10 ^ 9) (CaptureSafety.Ev_mouse false (CaptureSafety.moved 0 540));
   Hook (10 ^ 9) (CaptureSafety.Ev_keyboard false (CaptureSafety.pressed 0x41 0x1e))].
(** They arrive at the session and then at the listener. *)
Definition shared_key : list happening :=
  crosses ++ [Captured (10 ^ 9) (Captured_Control (EnterRemote Edge_Left (SpecFloat.S754_zero false)));
              Captured (10 ^ 9) (Captured_Input (Key 30 true));
              Listener_reads; Listener_reads; Listener_reads; Listener_reads].
(** The user gives control to the peer, whose user then presses a key. *)
Definition hands_over : list happening :=
  [Listener_reads; Listener_reads; Listener_reads; Commands [Tray_SetController Controller_Peer];
   Wakes (2 * 10 ^ 9) Wake_tray; Listener_reads; Listener_reads; Reads (3 * 10 ^ 9); Listener_reads;
   Reads (3 * 10 ^ 9)].
Definition peers_key : list happening :=
  hands_over ++ [Listener_event (L_Activated Edge_Left (SpecFloat.S754_zero false));
                 Listener_event (L_Captured (Key 30 true)); Reads (4 * 10 ^ 9)].
End SampleDesk.
Import WindowsPaste.SamplePaste SampleDesk.

Example windows_captures_only_as_controller_witness :
  stats_active (GLOBALS (w_capture (wn (after crosses)))) = true
  /\ w_local_is_controller (wn (after crosses)) = true
  /\ l_local_is_controller (wl (after crosses)) = false.
Proof.
  destruct (windows_captures_only_as_controller accept_all desk_pair desk_abort_fits (after crosses))
    as (H1 & _ & _ & _ & H2).
  - apply desk_reachable. vm_compute. reflexivity.
  - vm_compute. reflexivity.
  - split; [vm_compute; reflexivity|]. split; [exact H1|]. apply H2. vm_compute. reflexivity.
Defined.

Definition plays_key : WindowsSession _ * result (option ConnectedSessionExit) WindowsSessionError :=
  session_step accept_all desk_pair (moment (5 * 10 ^ 9))
    (Wake_frame (Some (Frame_input 2 (Key 30 true)))) (wn (after peers_key)).
Example windows_plays_only_the_controllers_input_witness :
  plays_key.2 = Ok None
  /\ calls (w_injector plays_key.1) = [(INPUT_KEYBOARD 30 false false, true)]
  /\ controller_fingerprint (stable (w_coordinator (wn (after peers_key)))) = Some "b"%string.
Proof.
  assert (calls (w_injector plays_key.1) = [(INPUT_KEYBOARD 30 false false, true)]) as Hc
    by (vm_compute; reflexivity).
  split; [vm_compute; reflexivity|]. split; [exact Hc|].
  destruct (windows_plays_only_the_controllers_input accept_all desk_pair desk_abort_fits
              (after peers_key) (desk_reachable peers_key ltac:(vm_compute; reflexivity))
              (moment (5 * 10 ^ 9)) (Wake_frame (Some (Frame_input 2 (Key 30 true))))
              plays_key.1 plays_key.2)
    as [(l & El & Hl)|(input & _ & _ & _ & Hb & _)].
  - intros f [= <-]. exists []. vm_compute. reflexivity.
  - exact (surjective_pairing _).
  - exfalso. rewrite Hc in El.
    assert (calls (w_injector (wn (after peers_key))) = []) as Ec by (vm_compute; reflexivity).
    rewrite Ec in El. cbn in El. subst l. inversion Hl as [|? ? Hk _]. discriminate Hk.
  - exact Hb.
Defined.

Definition listener_played : Listener :=
  match listener_on_frame sample_env (Frame_input 1 (Key 30 true)) (wl (after shared_key)) with
  | Ok (l, _) => l | Err _ => wl (after shared_key) end.
Example listener_plays_only_windows_input_witness :
  listener_on_frame sample_env (Frame_input 1 (Key 30 true)) (wl (after shared_key))
  = Ok (listener_played, [Inject (Key 30 true)])
  /\ controller_fingerprint (current_role_state (wl (after shared_key))) = Some "a"%string.
Proof.
  assert (listener_on_frame sample_env (Frame_input 1 (Key 30 true)) (wl (after shared_key))
          = Ok (listener_played, [Inject (Key 30 true)])) as E
    by (vm_compute; reflexivity).
  split; [exact E|].
  assert (w_to_listener (after shared_key) = [Frame_Input {| input_role_epoch := 1; input_event := Key 30 true |}])
    as Hq by (vm_compute; reflexivity).
  assert (Inject (Key 30 true) ∈ [Inject (Key 30 true)]) as Hin by (by apply list_elem_of_singleton).
  destruct (listener_plays_only_windows_input accept_all desk_pair desk_abort_fits (after shared_key)
            (desk_reachable shared_key ltac:(vm_compute; reflexivity)) sample_env
            (Frame_input 1 (Key 30 true)) [] listener_played [Inject (Key 30 true)] (Key 30 true)
            Hq E Hin) as (_ & Hc & _).
  exact Hc.
Defined.

Example listener_follows_windows_witness :
  w_to_listener (after hands_over) = []
  /\ l_role_epoch (wl (after hands_over)) = w_role_epoch (wn (after hands_over))
  /\ w_role_epoch (wn (after hands_over)) = 2.
Proof.
  destruct (listener_follows_windows accept_all desk_pair desk_abort_fits (after hands_over)
              (desk_reachable hands_over ltac:(vm_compute; reflexivity))) as (_ & _ & Hf).
  assert (w_to_listener (after hands_over) = []) as Hq by (vm_compute; reflexivity).
  destruct (Hf Hq) as [He _]. split; [exact Hq|]. split; [exact He|vm_compute; reflexivity].
Defined.

(** The peer is silent for two seconds and then answers again; the user had the pointer on its
    screen. *)
Definition before_silence : WindowsSystem _ := after (crosses ++ [Wakes (10 ^ 9) Wake_watchdog]).
Definition answers : list (Moment * wake_up) :=
  [(moment (4 * 10 ^ 9), Wake_frame (Some (Frame_Heartbeat {| heartbeat_sequence := 1 |})));
   (moment (5 * 10 ^ 9), Wake_watchdog)].
Definition silenced : WindowsSession _ :=
  (session_step accept_all desk_pair (moment (3 * 10 ^ 9)) Wake_watchdog (wn before_silence)).1.
Example silence_stops_sharing_for_good_witness :
  stats_active (GLOBALS (w_capture (wn before_silence))) = true
  /\ CaptureSwitch.enabled_in (w_capture (session_run accept_all desk_pair answers silenced)) = false
  /\ shares_input (session_run accept_all desk_pair answers silenced) = true
  /\ TRAY_INPUT_FORWARDING_ENABLED (w_tray (session_run accept_all desk_pair answers silenced)) = true.
Proof.
  destruct (silence_stops_sharing_for_good accept_all desk_pair (wn before_silence) silenced
              (moment (3 * 10 ^ 9)) answers) as [H1 H2].
  - vm_compute. reflexivity.
  - vm_compute. reflexivity.
  - vm_compute. reflexivity.
  - transitivity (silenced, snd (session_step accept_all desk_pair (moment (3 * 10 ^ 9))
                                   Wake_watchdog (wn before_silence))).
    + apply surjective_pairing.
    + f_equal.
  - by repeat constructor.
  - split; [vm_compute; reflexivity|]. split; [exact H1|]. rewrite H2.
    split; vm_compute; reflexivity.
Defined.
