(* ===== verification/Pairing.v ===== *)
(** * Connecting and pairing: [apps/edge-receiver-linux/src/main.rs]

    What a computer says and hears on a fresh connection until its session starts.  Both
    applications are sequential here: they write, wait for a frame for a limited time, ask the
    user.  An [Attempt] is one such conversation with the files it touches: what the peer's
    side of the connection brings and when, which writes fail, what was heard and said so far, the
    confirmation windows that were opened, and whether the Windows program counts its pairing as
    used.  This file holds the vocabulary and the computer that dials on Linux
    ([connect_linux_peer]); [WindowsConnect] has the Windows one, [LinuxNode] the computer that
    is dialled.  Frames are those of an authenticated session, see [Transport]. *)
From S2P Require Import Acceptor.
From S2P Require Export RoleSession Config Identity Clipboard.
#[local] Open Scope string_scope.
#[local] Open Scope Z_scope.
#[local] Open Scope list_scope.

(** ** Conversations *)

(** An error of [anyhow]: its message, then the causes below it. *)
Definition chain : Type := list string.
(** [format!("{error}")] and [format!("{error:#}")]. *)
Definition display (e : chain) : string := hd EmptyString e.
Definition display_chain (e : chain) : string := str_join ": " e.

(** [message.contains(text)] *)
Definition contains (text message : string) : bool :=
  is_some_and (fun _ => true) (String.index 0 text message).

(** A step of a conversation fails, or waits for a frame that never comes. *)
Inductive ending := Bails (error : chain) | Hangs.

(** A frame, or the end of the connection, [wait] after the one before it. *)
Record Arrival := { wait : Duration; arrived : result Frame chain }.

(** What a file holds, or why it cannot be read. *)
Definition file_of (A : Type) : Type := result A chain.

(** [edge-ui 119-127 PairingConfirmationInput] *)
Record PairingConfirmationInput := {
  conf_peer_name : string;
  conf_peer_addr : option string;
  conf_local_fingerprint : string;
  conf_peer_fingerprint : string;
  verification_code : string;
  previous_peer_fingerprint : option string;
}.

Record Attempt := {
  arrivals : list Arrival;
  write_errors : list (option chain);
  heard : list Frame;
  said : list Frame;
  elapsed : Duration;
  prompts : list PairingConfirmationInput;
  pairing_consumed : bool;
  role_file : file_of (option CommittedRole);
  config_file : file_of AppConfig;
}.
Definition set_arrivals : list Arrival -> Attempt -> Attempt := ltac:(field_setter arrivals).
Definition set_write_errors : list (option chain) -> Attempt -> Attempt :=
  ltac:(field_setter write_errors).
Definition set_heard : list Frame -> Attempt -> Attempt := ltac:(field_setter heard).
Definition set_said : list Frame -> Attempt -> Attempt := ltac:(field_setter said).
Definition set_elapsed : Duration -> Attempt -> Attempt := ltac:(field_setter elapsed).
Definition set_prompts : list PairingConfirmationInput -> Attempt -> Attempt := ltac:(field_setter prompts).
Definition set_pairing_consumed : bool -> Attempt -> Attempt := ltac:(field_setter pairing_consumed).
Definition set_role_file : file_of (option CommittedRole) -> Attempt -> Attempt :=
  ltac:(field_setter role_file).
Definition set_config_file : file_of AppConfig -> Attempt -> Attempt :=
  ltac:(field_setter config_file).

Abbreviation conversing := (stateful Attempt ending).

Definition bail {A} (message : string) : conversing A := st_fail (Bails [message]).
(** [.context(message)] *)
Definition context {A} (message : string) (m : conversing A) : conversing A := fun a =>
  match m a with
  | (a', Err (Bails e)) => (a', Err (Bails (message :: e)))
  | r => r
  end.
(** [time::timeout(..).await.context(message)?] *)
Definition or_timeout {A} (message : string) (r : option A) : conversing A :=
  match r with Some x => st_ret x | None => st_fail (Bails [message; "deadline has elapsed"]) end.

(** [session.write_packet(&encode_frame(frame)?)]; what a failed write leaves at the peer counts
    as said.  [rx/main 5852-5856 write_secure_frame] *)
Definition write_secure_frame (frame : Frame) : conversing unit := fun a =>
  let a := set_said (said a ++ [frame]) a in
  match write_errors a with
  | [] => (a, Ok tt)
  | None :: rest => (set_write_errors rest a, Ok tt)
  | Some e :: rest => (set_write_errors rest a, Err (Bails e))
  end.

Section Waiting.
Context {A : Type} (pick : Frame -> option (result A chain)) (deadline : option Duration).

(** A loop that reads frames until [pick] takes one; a deadline ends it with [None], and without
    one a silent peer holds it forever.  [rx/main 5863-5866 read_secure_frame] *)
Fixpoint await_in (incoming : list Arrival) (a : Attempt) : Attempt * result (option A) ending :=
  match incoming with
  | [] => match deadline with
          | Some d => (set_elapsed (Z.max (elapsed a) d) a, Ok None)
          | None => (a, Err Hangs)
          end
  | next :: rest =>
      let at_ := elapsed a + wait next in
      if is_some_and (fun d => d <? at_) deadline
      then (set_elapsed (default at_ deadline) a, Ok None)
      else
        let a := set_elapsed at_ (set_arrivals rest a) in
        match arrived next with
        | Err e => (a, Err (Bails e))
        | Ok frame =>
            let a := set_heard (heard a ++ [frame]) a in
            match pick frame with
            | Some (Ok x) => (a, Ok (Some x))
            | Some (Err e) => (a, Err (Bails e))
            | None => await_in rest a
            end
        end
  end.
End Waiting.

(** [time::timeout(limit, ..)] over such a loop. *)
Definition await_for {A} (limit : Duration) (pick : Frame -> option (result A chain)) :
  conversing (option A) := fun a => await_in pick (Some (elapsed a + limit)) (arrivals a) a.
(** The same without a limit. *)
Definition await_forever {A} (pick : Frame -> option (result A chain)) : conversing (option A) :=
  fun a => await_in pick None (arrivals a) a.
Definition any_frame (frame : Frame) : option (result Frame chain) := Some (Ok frame).

(** A call of the system that takes [takes], under [time::timeout(limit, ..)]. *)
Definition timed {A} (limit takes : Duration) (r : result A chain) :
  conversing (option (result A chain)) := fun a =>
  (set_elapsed (elapsed a + Z.max 0 (Z.min limit takes)) a,
   Ok (if takes <=? limit then Some r else None)).
Definition of_call {A} (r : result A chain) : conversing A := st_lift (map_err Bails r).

(** ** What a computer is *)

(** What comes of the confirmation window: the user's answer, its error, or that of its task. *)
Inductive confirmation := Answers (accepted : bool) | Window_fails (e : chain) | Task_fails (e : chain).

(** The network under a connection: the peer's address or why there is none, an error of the
    socket, and the key that the handshake proved. *)
Record Network := {
  tcp_takes : Duration;
  tcp : result string chain;
  socket_error : option chain;
  noise_takes : Duration;
  noise : result string chain;
}.

(** [rx/main 2332-2340 peer_position_to_edge] *)
Definition peer_position_to_edge (position : PeerPosition) : Edge :=
  match position with
  | Config.Left => Edge_Left
  | Config.Right => Edge_Right
  | Config.Top => Edge_Top
  | Config.Bottom => Edge_Bottom
  end.

(** [rx/main 2342-2349 edge_to_peer_position] *)
Definition edge_to_peer_position (edge : Edge) : PeerPosition :=
  match edge with
  | Edge_Left => Config.Left
  | Edge_Right => Config.Right
  | Edge_Top => Config.Top
  | Edge_Bottom => Config.Bottom
  end.

(** [rx/main 2370-2377 opposite_edge] *)
Definition opposite_edge (edge : Edge) : Edge :=
  match edge with
  | Edge_Left => Edge_Right
  | Edge_Right => Edge_Left
  | Edge_Top => Edge_Bottom
  | Edge_Bottom => Edge_Top
  end.

(** [config.layout.listener_position = ..] *)
Definition with_layout (position : PeerPosition) (c : AppConfig) : AppConfig :=
  {| Config.device_name := Config.device_name c; start_with_windows := start_with_windows c;
     preferred_role := preferred_role c; transport := transport c; listen := listen c;
     cfg_peer := cfg_peer c; cfg_layout := {| Config.listener_position := position |};
     cfg_input := cfg_input c; cfg_clipboard := cfg_clipboard c; cfg_audio := cfg_audio c;
     cfg_phone := cfg_phone c; cfg_notifications := cfg_notifications c |}.
#[export] Instance PeerPosition_eq_dec : EqDecision PeerPosition.
Proof. solve_decision. Defined.
(** What the computer that was dialled saves of the layout the other set, given what its
    configuration file holds: nothing when it cannot be read or already says so.
    [rx/main 2351-2368 remember_peer_position] *)
Definition remember_peer_position (file : file_of AppConfig) (listener_position : Edge) :
  option AppConfig :=
  let position := edge_to_peer_position (opposite_edge listener_position) in
  match file with
  | Ok c => if decide (Config.listener_position (cfg_layout c) = position) then None
            else Some (with_layout position c)
  | Err _ => None
  end.

Definition node_capabilities_all : list NodeCapability :=
  [InputCaptureV1; InputInjectV1; RoleSwitchV1; ScreenInfoBothSidesV1; AudioCaptureV1;
   AudioPlaybackV1].
Definition session_extensions : list string :=
  [CLIPBOARD_IMAGE_EXTENSION; CLIPBOARD_TEXT_CHUNKS_EXTENSION; INPUT_TOGGLE_EXTENSION;
   PAIRING_CONFIRMATION_EXTENSION; AUDIO_ROUTE_EXTENSION].

(** [rx/main 537-570 connect_linux_peer] (the hello of a Linux computer, which the one that is
    dialled sends too) *)
Definition linux_hello (config : AppConfig) (fingerprint : string) : Hello :=
  {| protocol_version := PROTOCOL_VERSION; device_name := Config.device_name config;
     hello_role := preferred_role config; public_key_fingerprint := fingerprint;
     capabilities := [];
     extensions := session_extensions ++
       (if notif_enabled (cfg_notifications config) then [NOTIFICATION_SYNC_EXTENSION] else []);
     node_capabilities := node_capabilities_all |}.

Definition has_capability (hello : Hello) (c : NodeCapability) : bool :=
  bool_decide (c ∈ node_capabilities hello).
Definition has_extension (hello : Hello) (name : string) : bool :=
  existsb (fun extension => str_eqb extension name) (extensions hello).

(** ** The pairing frames *)

Section Pairing.
Context `{Hashing}.
(** [format!("{frame:?}")], and what the user of this computer answers. *)
Context (debug : Frame -> string) (confirm : PairingConfirmationInput -> confirmation).

(** [bail!("peer error: {}: {}", error.code, error.message)] *)
Definition peer_error (e : RemoteError) : string := "peer error: " ++ code e ++ ": " ++ message e.

(** [rx/main 3667-3677 read_pairing_status]; the Windows application calls the peer the receiver. *)
Definition read_pairing_status (who : string) : conversing (bool * bool) :=
  frame <-! context ("failed to read " ++ who ++ " pairing status") (await_for (from_secs 15) any_frame);;
  match frame with
  | Some (Frame_Pairing (Pairing_Status trusted armed)) => st_ret (trusted, armed)
  | Some (Frame_Error e) => bail (peer_error e)
  | Some frame => bail ("expected " ++ who ++ " pairing status, got " ++ debug frame)
  | None => bail ("timed out waiting for " ++ who ++ " pairing status")
  end.

(** [rx/main 3679-3689 read_pairing_decision] *)
Definition read_pairing_decision (who : string) : conversing bool :=
  frame <-! context ("failed to read " ++ who ++ " pairing decision") (await_for (from_secs 120) any_frame);;
  match frame with
  | Some (Frame_Pairing (Pairing_Decision accepted)) => st_ret accepted
  | Some (Frame_Error e) => bail (peer_error e)
  | Some frame => bail ("expected " ++ who ++ " pairing decision, got " ++ debug frame)
  | None => bail "timed out waiting for pairing confirmation on the peer"
  end.

(** A loop that waits for a hello.  [rx/main 572-584 connect_linux_peer] *)
Definition pick_hello (frame : Frame) : option (result Hello chain) :=
  match frame with
  | Frame_Hello hello => Some (Ok hello)
  | Frame_Error e => Some (Err [peer_error e])
  | _ => None
  end.

(** [rx/main 754-761 read_initial_peer_screen] *)
Definition pick_peer_screen (frame : Frame) : option (result (option ScreenInfo) chain) :=
  match frame with
  | Frame_ScreenInfo info => Some (Ok (Some info))
  | Frame_Heartbeat _ => Some (Ok None)
  | Frame_Error e => Some (Err [peer_error e])
  | _ => None
  end.
(** [rx/main 748-766 read_initial_peer_screen] *)
Definition read_initial_peer_screen : conversing (option ScreenInfo) :=
  r <-! await_for (from_secs 15) pick_peer_screen;;
  or_timeout "timed out waiting for peer screen info" r.

(** ** The role a session starts with *)

(** What became of a write of the role: it was written, or why it was not. *)
Definition role_write (error : option chain) (role : option CommittedRole) : conversing unit := fun a =>
  match error with
  | None => (set_role_file (Ok role) a, Ok tt)
  | Some e => (a, Err (Bails e))
  end.

(** [rx/main 664-703 connect_linux_peer]: the role file decides when it is about this pair, and
    else the preference; the choice is saved, and no choice removes the file. *)
Definition choose_controller (local peer : string) (config : AppConfig) (peer_captures peer_injects : bool)
    (role_error : option chain) (position : Edge) (paused : bool) : conversing RoleState :=
  a <-! st_get;;
  let persisted := match role_file a with Ok role => role | Err _ => None end in
  let role := initial_role_state persisted local peer
                (bool_decide (preferred_role config = Role_Controller))
                peer_captures peer_injects position paused in
  do! match controller_fingerprint role with
      | Some controller =>
          context "failed to persist initial controller assignment"
            (role_write role_error (Some (CommittedRole_new controller)))
      | None => _ <-! attempt (role_write role_error None);; st_ret tt
      end;;
  st_ret role.

(** ** The Linux computer that dials *)

(** What [connect_linux_peer] is given and what the system answers meanwhile; [screen] is the
    query of the compositor. *)
Record LinuxDial := {
  ld_config : AppConfig;
  ld_fingerprint : string;
  ld_paired_computers : list string;
  ld_pairing_armed : bool;
  ld_session_paused : bool;
  ld_network : Network;
  ld_role_error : option chain;
  ld_screen : result ScreenInfo string;
}.

(** [rx/main 485-506 LinuxPeerConnection] *)
Record LinuxPeerConnection := {
  lc_newly_paired : bool;
  lc_local_name : string;
  lc_peer_name : string;
  lc_local_fingerprint : string;
  lc_peer_fingerprint : string;
  lc_peer_addr : string;
  lc_initial_role_state : RoleState;
  lc_local_screen_info : option ScreenInfo;
  lc_peer_screen_info : option ScreenInfo;
  lc_peer_supports_input_capture : bool;
  lc_peer_supports_input_injection : bool;
  lc_peer_supports_role_switch : bool;
  lc_peer_supports_audio_capture : bool;
  lc_peer_supports_audio_playback : bool;
  lc_peer_supports_audio_route : bool;
  lc_peer_clipboard : ClipboardPeerFeatures;
  lc_peer_supports_notifications : bool;
}.

Definition endpoint_of (config : AppConfig) : string :=
  peer_host (cfg_peer config) ++ ":" ++ print_dec (peer_port (cfg_peer config)).

(** [rx/main 517-532 connect_linux_peer]: the connection and the key of the other computer. *)
Definition dial_linux (d : LinuxDial) : conversing (string * string) :=
  let endpoint := endpoint_of (ld_config d) in
  let net := ld_network d in
  r <-! timed (from_secs 5) (tcp_takes net) (tcp net);;
  stream <-! or_timeout ("connection to " ++ endpoint ++ " timed out") r;;
  addr <-! context ("failed to connect to " ++ endpoint) (of_call stream);;
  do! match socket_error net with Some e => st_fail (Bails e) | None => st_ret tt end;;
  r <-! timed (from_secs 15) (noise_takes net) (noise net);;
  session <-! or_timeout "encrypted handshake timed out" r;;
  key <-! context "failed encrypted handshake with Linux peer" (of_call session);;
  st_ret (addr, key).

(** The window of a computer whose configuration names the key it expects.
    [rx/main 611-620 connect_linux_peer] *)
Definition linux_confirmation (d : LinuxDial) (hello : Hello) (peer : string) :
  PairingConfirmationInput :=
  let pinned := pinned_fingerprint (cfg_peer (ld_config d)) in
  {| conf_peer_name := device_name hello;
     conf_peer_addr := Some (endpoint_of (ld_config d));
     conf_local_fingerprint := ld_fingerprint d;
     conf_peer_fingerprint := peer;
     verification_code := pairing_code (ld_fingerprint d) peer;
     previous_peer_fingerprint :=
       if negb (str_is_empty pinned) && negb (str_eqb pinned peer) then Some pinned else None |}.

(** The confirmation window opens. *)
Definition show_confirmation (input : PairingConfirmationInput) : conversing unit := fun a =>
  (set_prompts (prompts a ++ [input]) a, Ok tt).
(** The user's answer, which a failed window or task does not give.
    [rx/main 621-625 connect_linux_peer] *)
Definition ask_user (task_failed : string) (input : PairingConfirmationInput) : conversing bool :=
  do! show_confirmation input;;
  match confirm input with
  | Answers accepted => st_ret accepted
  | Window_fails e => st_fail (Bails e)
  | Task_fails e => st_fail (Bails (task_failed :: e))
  end.

(** Whether the two computers pair now: they say what they know of each other, and ask both users
    unless each trusts the other.  [rx/main 587-642 connect_linux_peer] *)
Definition pair_linux (d : LinuxDial) (hello : Hello) (peer : string) : conversing bool :=
  let locally_trusted :=
    existsb (fun key => str_eqb key peer) (ld_paired_computers d)
    || str_eqb (pinned_fingerprint (cfg_peer (ld_config d))) peer in
  if has_extension hello PAIRING_CONFIRMATION_EXTENSION then
    do! write_secure_frame (Frame_Pairing (Pairing_Status locally_trusted (ld_pairing_armed d)));;
    status <-! read_pairing_status "peer";;
    let '(peer_trusted, peer_armed) := status in
    if negb locally_trusted || negb peer_trusted then
      if negb (ld_pairing_armed d) || negb peer_armed then
        _ <-! attempt (write_secure_frame (Frame_Pairing (Pairing_Decision false)));;
        bail "pairing needs approval on both computers"
      else
        accepted <-! ask_user "Linux pairing confirmation task failed" (linux_confirmation d hello peer);;
        do! write_secure_frame (Frame_Pairing (Pairing_Decision accepted));;
        approved <-! (if accepted then read_pairing_decision "peer" else st_ret false);;
        if approved then st_ret true else bail "pairing was not approved on both computers"
    else st_ret false
  else if negb locally_trusted then
    bail "peer does not support two-sided pairing confirmation; update it first"
  else st_ret false.

(** [rx/main 508-746 connect_linux_peer] *)
Definition connect_linux_peer (d : LinuxDial) : conversing LinuxPeerConnection :=
  dialled <-! dial_linux d;;
  let '(addr, peer) := dialled in
  let config := ld_config d in
  do! write_secure_frame (Frame_Hello (linux_hello config (ld_fingerprint d)));;
  r <-! await_for (from_secs 15) pick_hello;;
  hello <-! or_timeout "timed out waiting for peer hello" r;;
  do! of_call (map_err (fun e => [e]) (validate_controller_hello hello peer));;
  newly_paired <-! pair_linux d hello peer;;
  let has := has_capability hello in
  role <-! choose_controller (ld_fingerprint d) peer config (has InputCaptureV1) (has InputInjectV1)
             (ld_role_error d) (peer_position_to_edge (Config.listener_position (cfg_layout config)))
             (ld_session_paused d);;
  do! write_secure_frame (Frame_Role (SessionState role));;
  local_screen <-! match ld_screen d with
                   | Ok info => do! write_secure_frame (Frame_ScreenInfo info);; st_ret (Some info)
                   | Err _ => st_ret None
                   end;;
  peer_screen <-! read_initial_peer_screen;;
  st_ret {| lc_newly_paired := newly_paired;
            lc_local_name := Config.device_name config;
            lc_peer_name := device_name hello;
            lc_local_fingerprint := ld_fingerprint d;
            lc_peer_fingerprint := peer;
            lc_peer_addr := addr;
            lc_initial_role_state := role;
            lc_local_screen_info := local_screen;
            lc_peer_screen_info := peer_screen;
            lc_peer_supports_input_capture := has InputCaptureV1;
            lc_peer_supports_input_injection := has InputInjectV1;
            lc_peer_supports_role_switch := has RoleSwitchV1;
            lc_peer_supports_audio_capture := has AudioCaptureV1;
            lc_peer_supports_audio_playback := has AudioPlaybackV1;
            lc_peer_supports_audio_route := has_extension hello AUDIO_ROUTE_EXTENSION;
            lc_peer_clipboard := ClipboardPeerFeatures_from_extensions (extensions hello);
            lc_peer_supports_notifications := has_extension hello NOTIFICATION_SYNC_EXTENSION |}.
End Pairing.
