(* ===== verification/WindowsConnect.v ===== *)
(** * The Windows computer dials: [apps/edge-controller-win/src/main.rs]

    [connect_and_initialize] as an [Attempt] of [Pairing]: the connection, the hellos, the
    pairing, the role it starts with and the first frames.  The key it paired with is in its
    configuration, which is read again and saved when both users approved.  [connect_for_tray]
    turns a failure into what the tray shows. *)
From S2P Require Export Pairing.
From S2P Require Import WindowsSession.
#[local] Open Scope string_scope.
#[local] Open Scope Z_scope.
#[local] Open Scope list_scope.

(** What [connect_and_initialize] is given and what the system answers meanwhile: whether the
    role and the configuration are saved, and what a failed save leaves of the latter; the
    screens. *)
Record WindowsDial := {
  wd_config : AppConfig;
  wd_fingerprint : string;
  wd_pairing_armed : bool;
  wd_session_paused : bool;
  wd_network : Network;
  wd_role_error : option chain;
  wd_config_error : option (chain * file_of AppConfig);
  wd_screen : ScreenInfo;
}.

(** [win/main 724-733 ControllerConnection] *)
Record ControllerConnection := {
  cc_local_name : string;
  cc_local_fingerprint : string;
  cc_addr : string;
  cc_peer_addr : string;
  cc_peer_fingerprint : string;
  cc_peer_trusted : bool;
  cc_pairing_armed : bool;
}.
Definition set_cc_peer_trusted : bool -> ControllerConnection -> ControllerConnection :=
  ltac:(field_setter cc_peer_trusted).

(** [win/main 736-738 ControllerConnection::status] *)
Definition connection_status (c : ControllerConnection) : string :=
  "Connected to " ++ cc_addr c ++ " (" ++ cc_peer_fingerprint c ++ ")".

(** [win/main 920-932 validate_receiver_hello] *)
Definition validate_receiver_hello (hello : Hello) (noise_fingerprint : string) : result unit string :=
  ensure! protocol_version hello =? PROTOCOL_VERSION
    else ("Upgrade the other computer: receiver protocol version "
          ++ print_dec (protocol_version hello) ++ " is incompatible with "
          ++ print_dec PROTOCOL_VERSION)%string ;;
  ensure! str_eqb (public_key_fingerprint hello) noise_fingerprint
    else "receiver hello fingerprint does not match its encrypted identity" ;;
  Ok tt.

(** [win/main 1000-1025 connect_session] (the hello it sends) *)
Definition windows_hello (config : AppConfig) (fingerprint : string) : Hello :=
  {| protocol_version := PROTOCOL_VERSION; device_name := Config.device_name config;
     hello_role := preferred_role config; public_key_fingerprint := fingerprint;
     capabilities := []; extensions := session_extensions;
     node_capabilities := node_capabilities_all |}.

(** The check of the key inside the handshake, and the text of its error.
    [edge-crypto 382-390 initiate_noise_session] *)
Definition expect_key (expected : option string) (actual : string) : result string chain :=
  match expected with
  | Some e =>
      ensure! str_is_empty e || str_eqb e actual
        else [("peer fingerprint mismatch: expected " ++ e ++ ", got " ++ actual)%string] ;;
      Ok actual
  | None => Ok actual
  end.

(** [win/main 1041-1047 InitialReceiverState] (as the hello fills it) *)
Definition initial_receiver (hello : Hello) : InitialReceiverState :=
  {| initial_peer_name := device_name hello; initial_screen_info := None;
     initial_capabilities := node_capabilities hello; initial_extensions := extensions hello;
     initial_role_state := None |}.
Definition set_initial_screen_info : option ScreenInfo -> InitialReceiverState -> InitialReceiverState :=
  ltac:(field_setter initial_screen_info).
Definition set_initial_role_state : option RoleState -> InitialReceiverState -> InitialReceiverState :=
  ltac:(field_setter initial_role_state).
(** What a later hello changes of it. *)
Definition greet (hello : Hello) (i : InitialReceiverState) : InitialReceiverState :=
  {| initial_peer_name := device_name hello; initial_screen_info := initial_screen_info i;
     initial_capabilities := node_capabilities hello; initial_extensions := extensions hello;
     initial_role_state := initial_role_state i |}.

Section WindowsConnect.
Context `{Hashing}.
Context (debug : Frame -> string) (confirm : PairingConfirmationInput -> confirmation).

(** [win/main 934-944 read_pairing_status] *)
Definition win_read_pairing_status : conversing (bool * bool) := read_pairing_status debug "receiver".
(** [win/main 946-956 read_pairing_decision] *)
Definition win_read_pairing_decision : conversing bool := read_pairing_decision debug "receiver".

(** [win/main 965-1038 connect_session] *)
Definition connect_session (d : WindowsDial) : conversing ControllerConnection :=
  let peer := cfg_peer (wd_config d) in
  let net := wd_network d in
  let addr := endpoint_of (wd_config d) in
  r <-! timed (from_secs 5) (tcp_takes net) (tcp net);;
  stream <-! or_timeout ("connection to " ++ addr ++ " timed out") r;;
  peer_addr <-! context ("failed to connect to " ++ addr) (of_call stream);;
  do! match socket_error net with Some e => st_fail (Bails e) | None => st_ret tt end;;
  let expected := if wd_pairing_armed d then None else Some (pinned_fingerprint peer) in
  r <-! timed (from_secs 15) (noise_takes net) (let? key := noise net in expect_key expected key);;
  session <-! or_timeout "encrypted handshake timed out" r;;
  key <-! context ("failed encrypted handshake with " ++ addr ++ "; if this peer was reset, choose 'Pair or replace peer...' from the tray on both computers")
            (of_call session);;
  let peer_trusted := negb (str_is_empty (pinned_fingerprint peer))
                      && str_eqb (pinned_fingerprint peer) key in
  do! (if negb peer_trusted && negb (wd_pairing_armed d)
       then bail ("the peer at " ++ addr ++ " is not paired; choose 'Pair or replace peer...' from both tray menus")
       else st_ret tt);;
  do! write_secure_frame (Frame_Hello (windows_hello (wd_config d) (wd_fingerprint d)));;
  st_ret {| cc_local_name := Config.device_name (wd_config d);
            cc_local_fingerprint := wd_fingerprint d; cc_addr := addr; cc_peer_addr := peer_addr;
            cc_peer_fingerprint := key; cc_peer_trusted := peer_trusted;
            cc_pairing_armed := wd_pairing_armed d |}.

(** [win/main 802-816 connect_and_initialize] *)
Definition windows_confirmation (d : WindowsDial) (c : ControllerConnection) (hello : Hello) :
  PairingConfirmationInput :=
  let pinned := pinned_fingerprint (cfg_peer (wd_config d)) in
  {| conf_peer_name := device_name hello;
     conf_peer_addr := Some (cc_peer_addr c);
     conf_local_fingerprint := wd_fingerprint d;
     conf_peer_fingerprint := cc_peer_fingerprint c;
     verification_code := pairing_code (wd_fingerprint d) (cc_peer_fingerprint c);
     previous_peer_fingerprint :=
       if negb (str_is_empty pinned) && negb (str_eqb pinned (cc_peer_fingerprint c))
       then Some pinned else None |}.

(** [updated.peer.pinned_fingerprint = ..] *)
Definition pin_in_config (key : string) (c : AppConfig) : AppConfig :=
  let peer := cfg_peer c in
  {| Config.device_name := Config.device_name c; start_with_windows := start_with_windows c;
     preferred_role := preferred_role c; transport := transport c; listen := listen c;
     cfg_peer := {| Config.peer_name := Config.peer_name peer; peer_host := peer_host peer;
                    peer_port := peer_port peer; pinned_fingerprint := key |};
     cfg_layout := cfg_layout c; cfg_input := cfg_input c; cfg_clipboard := cfg_clipboard c;
     cfg_audio := cfg_audio c; cfg_phone := cfg_phone c; cfg_notifications := cfg_notifications c |}.

(** [updated.save(config_path)], which replaces the file in place. *)
Definition save_config (error : option (chain * file_of AppConfig)) (c : AppConfig) :
  conversing unit := fun a =>
  match error with
  | None => (set_config_file (Ok c) a, Ok tt)
  | Some (e, left_over) => (set_config_file left_over a, Err (Bails e))
  end.

(** The configuration is read again before the key is saved.
    [win/main 835-840 connect_and_initialize] *)
Definition save_peer_key (d : WindowsDial) (key : string) : conversing unit :=
  a <-! st_get;;
  let updated := match config_file a with Ok config => config | Err _ => wd_config d end in
  save_config (wd_config_error d) (pin_in_config key updated).

(** The two computers say what they know of each other, and both users are asked unless each
    trusts the other.  [win/main 772-854 connect_and_initialize] *)
Definition pair_windows (d : WindowsDial) (c : ControllerConnection) (hello : Hello) : conversing ControllerConnection :=
  if has_extension hello PAIRING_CONFIRMATION_EXTENSION then
    do! write_secure_frame (Frame_Pairing (Pairing_Status (cc_peer_trusted c) (cc_pairing_armed c)));;
    status <-! win_read_pairing_status;;
    let '(peer_trusted, peer_armed) := status in
    if negb (cc_peer_trusted c) || negb peer_trusted then
      if negb (cc_pairing_armed c) || negb peer_armed then
        _ <-! attempt (write_secure_frame (Frame_Pairing (Pairing_Decision false)));;
        bail "pairing needs approval on both computers; choose the pairing action in both tray menus"
      else
        do! (fun a => (set_pairing_consumed true a, Ok tt));;
        accepted <-! ask_user confirm "controller pairing confirmation task failed"
                       (windows_confirmation d c hello);;
        do! write_secure_frame (Frame_Pairing (Pairing_Decision accepted));;
        do! (if accepted then st_ret tt else bail "pairing was cancelled on this computer");;
        approved <-! win_read_pairing_decision;;
        do! (if approved then st_ret tt else bail "pairing was declined on the peer");;
        do! save_peer_key d (cc_peer_fingerprint c);;
        st_ret (set_cc_peer_trusted true c)
    else st_ret c
  else if negb (cc_peer_trusted c) then
    bail "the peer does not support two-sided pairing confirmation; update it before replacing its key"
  else st_ret c.

(** A peer that neither describes its screens nor sends a heartbeat is waited for without limit;
    the fuel is one more than the frames that come.  [win/main 1049-1082 read_initial_frames] *)
Fixpoint read_initial_frames (fuel : nat) (i : InitialReceiverState) : conversing InitialReceiverState :=
  match fuel with
  | O => st_fail Hangs
  | S fuel =>
      r <-! context "failed to read receiver frame" (await_forever any_frame);;
      match r with
      | Some (Frame_Hello hello) => read_initial_frames fuel (greet hello i)
      | Some (Frame_ScreenInfo info) => st_ret (set_initial_screen_info (Some info) i)
      | Some (Frame_Heartbeat _) => st_ret i
      | Some (Frame_Error e) => bail (peer_error e)
      | _ => read_initial_frames fuel i
      end
  end.

(** [win/main 741-918 connect_and_initialize] *)
Definition connect_and_initialize (d : WindowsDial) :
  conversing (ControllerConnection * InitialReceiverState) :=
  c <-! connect_session d;;
  r <-! await_for (from_secs 15) pick_hello;;
  hello <-! or_timeout "timed out waiting for receiver hello" r;;
  do! of_call (map_err (fun e => [e]) (validate_receiver_hello hello (cc_peer_fingerprint c)));;
  c <-! pair_windows d c hello;;
  role <-! choose_controller (wd_fingerprint d) (cc_peer_fingerprint c) (wd_config d)
             (has_capability hello InputCaptureV1) (has_capability hello InputInjectV1)
             (wd_role_error d)
             (peer_position_to_edge (Config.listener_position (cfg_layout (wd_config d))))
             (wd_session_paused d);;
  do! write_secure_frame (Frame_Role (SessionState role));;
  do! write_secure_frame (Frame_ScreenInfo (wd_screen d));;
  a <-! st_get;;
  initial <-! read_initial_frames (S (length (arrivals a)))
                (set_initial_role_state (Some role) (initial_receiver hello));;
  st_ret (c, initial).
End WindowsConnect.

(** ** What the tray shows of a failure *)

(** [win/main 79-79 UPGRADE_PEER_STATUS] *)
Definition UPGRADE_PEER_STATUS : string := "Upgrade the other computer".

(** [win/main 528-533 is_protocol_mismatch_message] *)
Definition is_protocol_mismatch_message (message : string) : bool :=
  contains UPGRADE_PEER_STATUS message
  || (contains "invalid_hello" message && contains "protocol version" message
      && contains "incompatible" message).

(** The status of an attempt that failed.  [win/main 511-523 connect_for_tray] *)
Definition failure_status (error : chain) : string :=
  let message := display_chain error in
  if contains "fingerprint mismatch" message then "Identity changed — pair again"
  else if contains "pairing" message || contains "not paired" message
  then "Pairing required on both computers"
  else if is_protocol_mismatch_message message then UPGRADE_PEER_STATUS
  else "Disconnected".

(** The outcome of an attempt, if it ends.  [win/main 483-526 connect_for_tray] *)
Definition connect_for_tray `{Hashing} (debug : Frame -> string)
    (confirm : PairingConfirmationInput -> confirmation) (d : WindowsDial) (a : Attempt) :
  Attempt * option (option (ControllerConnection * InitialReceiverState) * bool * string) :=
  let '(a, r) := connect_and_initialize debug confirm d (set_pairing_consumed false a) in
  (a, match r with
      | Ok (c, initial) => Some (Some (c, initial), pairing_consumed a, connection_status c)
      | Err (Bails error) => Some (None, pairing_consumed a, failure_status error)
      | Err Hangs => None
      end).
