(* ===== verification/LinuxNode.v ===== *)
(** * The receiver loop of a Linux node: [run_node] of [apps/edge-receiver-linux/src/main.rs]

    Every Linux node accepts computers and phones and dials the computer it has an address for.
    Between sessions its loop waits for the tray, the phones, the acceptor, its dial becoming due
    and its dial ending; during a session for the phones, the acceptor and the session's end.
    A computer that is dialled is set up in the loop itself ([set_up_computer], an [Attempt] of
    [Pairing] with the node's state), and what dials is [connect_linux_peer].  The sessions are
    those of [RoleSession]; here they have a peer and an end.  The log and the name the hub is
    told are left out. *)
From S2P Require Import Acceptor.
From S2P Require Import Tray.
From S2P Require Export PhoneSessions Pairing.
#[local] Open Scope string_scope.
#[local] Open Scope Z_scope.
#[local] Open Scope list_scope.

(** ** Dialling *)

(** [rx/main 3448-3450 DUPLICATE_SESSION] *)
Definition DUPLICATE_SESSION : string := "duplicate_session".
(** [rx/main 3451-3451 DIAL_RETRY] *)
Definition DIAL_RETRY : Duration := from_secs 2.
(** [rx/main 3452-3454 DIAL_DEFER] *)
Definition DIAL_DEFER : Duration := from_secs 3.
(** [rx/main 3455-3457 DIAL_UNREACHABLE_RETRY] *)
Definition DIAL_UNREACHABLE_RETRY : Duration := from_secs 30.

(** Strings are compared by their bytes.  [rx/main 3459-3463 keep_own_dial] *)
Definition keep_own_dial (local_fingerprint peer_fingerprint : string) : bool :=
  String.ltb local_fingerprint peer_fingerprint.

(** [rx/main 3465-3474 dial_delay] *)
Definition dial_delay (local_fingerprint : string) (paired : list string) (base : Duration) : Duration :=
  if forallb (keep_own_dial local_fingerprint) paired then base else base + DIAL_DEFER.

(** [rx/main 3476-3489 paired_computer_keys]; the order is that of the names in the store. *)
Definition paired_computer_keys (store : PinStore) (config : AppConfig) : list string :=
  let keys := (map_to_list (pin_peers store)).*2 in
  let legacy := pinned_fingerprint (cfg_peer config) in
  if negb (str_is_empty legacy) && negb (existsb (str_eqb legacy) keys) then keys ++ [legacy] else keys.

(** [rx/main 3491-3499 DialFailure] *)
Inductive DialFailure := Unreachable | Duplicate | UpgradeRequired | Dial_Other.

(** [rx/main 3501-3511 dial_failure] *)
Definition dial_failure (message : string) : DialFailure :=
  if contains "Upgrade the other computer" message then UpgradeRequired
  else if contains DUPLICATE_SESSION message then Duplicate
  else if starts_with "failed to connect to" message || starts_with "connection to " message
  then Unreachable
  else Dial_Other.

(** [rx/main 3563-3574 is_connected_peer] *)
Definition is_connected_peer (connected_name connected_fingerprint name fingerprint : string) : bool :=
  str_eqb name connected_name && str_eqb fingerprint connected_fingerprint.

(** ** The node *)

(** A session that runs: its peer, whether this node dialled it, whether it was told that a newer
    connection replaces it, and whether the acceptor is still heard. *)
Record LiveSession := {
  ls_name : string;
  ls_fingerprint : string;
  ls_dialled : bool;
  ls_replaced : bool;
  ls_acceptor_open : bool;
}.
(** What a dial in progress was started with. *)
Record DialAttempt := { da_paired : list string; da_armed : bool; da_paused : bool }.
(** What the node did to its input devices. *)
Inductive device_call := Capture_released | Capture_disarmed | All_keys_up.

(** The variables of [run_node]: the phones with the pins in memory and on disk, the switches of
    the tray, the dial, the newer connection that waits, the session; [n_connector_pause] and
    [n_capture] outlive sessions.  What the node did is recorded: calls of the tray, peers turned
    away, calls of the devices. *)
Record Node := {
  n_receiver : Receiver;
  n_connection_enabled : bool;
  n_pairing_armed : bool;
  n_dial_at : option Instant;
  n_dialing : option DialAttempt;
  n_dial_blocked : bool;
  n_last_dial_error : option string;
  n_replacement : option IncomingPeer;
  n_connected_peer : option (string * string);
  n_session : option LiveSession;
  n_connector_pause : bool;
  n_capture : bool;
  n_tray : list tray_call;
  n_turned_away : list (IncomingPeer * RemoteError);
  n_devices : list device_call;
}.
Definition set_n_receiver : Receiver -> Node -> Node := ltac:(field_setter n_receiver).
Definition set_n_connection_enabled : bool -> Node -> Node := ltac:(field_setter n_connection_enabled).
Definition set_n_pairing_armed : bool -> Node -> Node := ltac:(field_setter n_pairing_armed).
Definition set_n_dial_at : option Instant -> Node -> Node := ltac:(field_setter n_dial_at).
Definition set_n_dialing : option DialAttempt -> Node -> Node := ltac:(field_setter n_dialing).
Definition set_n_dial_blocked : bool -> Node -> Node := ltac:(field_setter n_dial_blocked).
Definition set_n_last_dial_error : option string -> Node -> Node :=
  ltac:(field_setter n_last_dial_error).
Definition set_n_replacement : option IncomingPeer -> Node -> Node := ltac:(field_setter n_replacement).
Definition set_n_connected_peer : option (string * string) -> Node -> Node :=
  ltac:(field_setter n_connected_peer).
Definition set_n_session : option LiveSession -> Node -> Node := ltac:(field_setter n_session).
Definition set_n_tray : list tray_call -> Node -> Node := ltac:(field_setter n_tray).
Definition set_n_turned_away : list (IncomingPeer * RemoteError) -> Node -> Node :=
  ltac:(field_setter n_turned_away).
Definition set_n_devices : list device_call -> Node -> Node := ltac:(field_setter n_devices).

(** [run_node] ends: by the tray, or with an error. *)
Inductive stop := Quits | Fails (error : chain).
Abbreviation looping := (stateful Node stop).
Definition change (f : Node -> Node) : looping unit := fun n => (f n, Ok tt).
Definition tell_tray (calls : list tray_call) (n : Node) : Node := set_n_tray (n_tray n ++ calls) n.

(** [rx/main 3538-3551 reject_peer] *)
Definition reject_peer (peer : IncomingPeer) (code message : string) (n : Node) : Node :=
  set_n_turned_away (n_turned_away n ++ [(peer, {| code := code; message := message |})]) n.

(** [rx/main 3527-3536 start_phone]; [ip] is the address of the connection. *)
Definition start_phone (ip : Z -> IpAddr) (now : Instant) (peer : IncomingPeer) (n : Node) : Node :=
  set_n_receiver (receiver_step (n_receiver n)
    (Op_start (ip (addr peer)) (device_name (hello peer)) (Acceptor.fingerprint peer)
       (extensions (hello peer)) now)) n.

(** [pins.pin(..); pins.save(&pins_path).await?] [rx/main 2712-2715 run_node] *)
Definition pin_computer (error : option chain) (name key : string) (n : Node) : Node * option chain :=
  let r := n_receiver n in
  let store := pin name key (pins r) in
  (set_n_receiver {| phones := phones r; pins := store;
                     disk := match error with None => store | Some _ => disk r end |} n, error).

(** ** A computer that is dialled sets the other up *)

(** What the system answers meanwhile: whether the pins are saved, the screens, and whether the
    audio socket opens. *)
Record SetUp := {
  su_pins_error : option chain;
  su_screen : result ScreenInfo string;
  su_audio_socket : result unit chain;
}.

(** What a session with the other computer is started with.  [rx/main 3076-3112 run_node] *)
Record AcceptedSession := {
  as_name : string;
  as_fingerprint : string;
  as_screen : option ScreenInfo;
  as_audio_playback : bool;
  as_audio_capture : bool;
  as_audio_route : bool;
  as_input_toggle : bool;
  as_clipboard : ClipboardPeerFeatures;
  as_input_capture : bool;
  as_input_injection : bool;
  as_role_switch : bool;
  as_notifications : bool;
}.

(** The loop goes on to the next event, or the node ends, or the peer is awaited forever. *)
Inductive set_up_end := Skips | Stops (error : chain) | Awaits.
Abbreviation setting_up := (stateful (Attempt * Node) set_up_end).

Section Node.
Context `{Hashing}.
Context (debug : Frame -> string) (confirm : PairingConfirmationInput -> confirmation).
Context (config : AppConfig) (local_key : string) (ip : Z -> IpAddr) (show_addr : Z -> string).

(** A step of the conversation, whose failure the caller looks at. *)
Definition converse {A} (m : conversing A) : setting_up (result A chain) := fun s =>
  match m s.1 with
  | (a, Ok x) => ((a, s.2), Ok (Ok x))
  | (a, Err (Bails e)) => ((a, s.2), Ok (Err e))
  | (a, Err Hangs) => ((a, s.2), Err Awaits)
  end.
Definition at_node (f : Node -> Node) : setting_up unit := fun s => ((s.1, f s.2), Ok tt).
Definition the_node : setting_up Node := fun s => (s, Ok s.2).
(** A frame whose failed write ends the set-up.  [rx/main 3553-3561 log_peer_write_failure] *)
Definition write_or_skip (frame : Frame) : setting_up unit :=
  r <-! converse (write_secure_frame frame);;
  match r with Ok _ => st_ret tt | Err _ => st_fail Skips end.
(** [rx/main 3655-3665 reject_pairing] *)
Definition reject_pairing (code message : string) : setting_up unit :=
  _ <-! converse (write_secure_frame (Frame_Error {| code := code; message := message |}));; st_ret tt.

Definition is_trusted (status : PinStatus) : bool := match status with Trusted => true | _ => false end.

(** [rx/main 2915-2925 run_node] *)
Definition accepted_confirmation (peer : IncomingPeer) (status : PinStatus) : PairingConfirmationInput :=
  {| conf_peer_name := device_name (hello peer);
     conf_peer_addr := Some (show_addr (addr peer));
     conf_local_fingerprint := local_key;
     conf_peer_fingerprint := Acceptor.fingerprint peer;
     verification_code := pairing_code local_key (Acceptor.fingerprint peer);
     previous_peer_fingerprint :=
       match status with Changed expected => Some expected | Trusted | Unknown => None end |}.

(** The user's answer; a window that fails counts as a refusal.  [rx/main 2926-2940 run_node] *)
Definition user_accepts (input : PairingConfirmationInput) : bool :=
  match confirm input with Answers accepted => accepted | Window_fails _ | Task_fails _ => false end.

(** Both users are asked; when both accept the key is pinned and saved.
    [rx/main 2915-2973 run_node] *)
Definition confirm_pairing (pins_error : option chain) (peer : IncomingPeer) (status : PinStatus) :
  setting_up unit :=
  let input := accepted_confirmation peer status in
  _ <-! converse (show_confirmation input);;
  let accepted := user_accepts input in
  do! write_or_skip (Frame_Pairing (Pairing_Decision accepted));;
  peer_accepted <-! (if accepted
                     then r <-! converse (read_pairing_decision debug "peer");;
                          st_ret (match r with Ok b => b | Err _ => false end)
                     else st_ret false);;
  do! at_node (fun n => tell_tray [Call_pairing_armed false] (set_n_pairing_armed false n));;
  if negb accepted || negb peer_accepted then
    do! at_node (tell_tray [Call_error (if accepted then "pairing was declined on the peer"
                                        else "pairing was cancelled on this computer")]);;
    st_fail Skips
  else
    fun s => let '(n, error) := pin_computer pins_error (device_name (hello peer))
                                  (Acceptor.fingerprint peer) s.2 in
             ((s.1, n), match error with None => Ok tt | Some e => Err (Stops e) end).

(** A key that was never seen under this name counts as armed.  [rx/main 2831-2991 run_node] *)
Definition pair_accepted (pins_error : option chain) (peer : IncomingPeer) : setting_up unit :=
  n <-! the_node;;
  let status := pin_status (pins (n_receiver n)) (device_name (hello peer)) (Acceptor.fingerprint peer) in
  let trusted := is_trusted status in
  let armed := n_pairing_armed n || match status with Unknown => true | _ => false end in
  do! write_or_skip (Frame_Hello (linux_hello config local_key));;
  if has_extension (hello peer) PAIRING_CONFIRMATION_EXTENSION then
    do! write_or_skip (Frame_Pairing (Pairing_Status trusted armed));;
    r <-! converse (read_pairing_status debug "peer");;
    match r with
    | Err e => do! at_node (tell_tray [Call_error (display e)]);; st_fail Skips
    | Ok (peer_trusted, peer_armed) =>
        if negb trusted || negb peer_trusted then
          if negb armed || negb peer_armed then
            let message := "the saved peer identity changed; choose 'Pair or replace peer...' on both computers" in
            do! reject_pairing "pairing_not_armed" message;;
            do! at_node (tell_tray [Call_error message]);;
            st_fail Skips
          else confirm_pairing pins_error peer status
        else st_ret tt
    end
  else if negb trusted then
    let message := "peer does not support two-sided pairing confirmation; update it first" in
    do! reject_pairing "pairing_update_required" message;;
    do! at_node (tell_tray [Call_error message]);;
    st_fail Skips
  else st_ret tt.

(** [rx/main 2805-3071 run_node] *)
Definition set_up_computer (env : SetUp) (peer : IncomingPeer) : setting_up AcceptedSession :=
  n <-! the_node;;
  do! (if n_connection_enabled n then st_ret tt
       else do! at_node (reject_peer peer "receiver_disconnected"
                           "the other computer is disconnected from its tray");;
            st_fail Skips);;
  let key := Acceptor.fingerprint peer in
  let h := hello peer in
  do! (if is_phone_key (pins (n_receiver n)) key
       then do! reject_pairing "key_is_phone" "this key is paired as a phone; it can't connect as a computer";;
            st_fail Skips
       else st_ret tt);;
  do! pair_accepted (su_pins_error env) peer;;
  do! at_node (fun n => if n_pairing_armed n
                        then tell_tray [Call_pairing_armed false] (set_n_pairing_armed false n) else n);;
  let has := has_capability h in
  let routes := has_extension h AUDIO_ROUTE_EXTENSION in
  do! at_node (fun n => tell_tray [Call_connected (device_name h);
                                   Call_audio_route Audio_Off (has AudioPlaybackV1)
                                     (has AudioCaptureV1 && routes)]
                          (set_n_connected_peer (Some (device_name h, key)) n));;
  screen <-! match su_screen env with
             | Ok info => do! write_or_skip (Frame_ScreenInfo info);; st_ret (Some info)
             | Err _ => st_ret None
             end;;
  do! match su_audio_socket env with
      | Ok _ => st_ret tt
      | Err e => st_fail (Stops ("failed to bind Linux audio UDP socket" :: e))
      end;;
  st_ret {| as_name := device_name h; as_fingerprint := key; as_screen := screen;
            as_audio_playback := has AudioPlaybackV1; as_audio_capture := has AudioCaptureV1;
            as_audio_route := routes; as_input_toggle := has_extension h INPUT_TOGGLE_EXTENSION;
            as_clipboard := ClipboardPeerFeatures_from_extensions (extensions h);
            as_input_capture := has InputCaptureV1; as_input_injection := has InputInjectV1;
            as_role_switch := has RoleSwitchV1;
            as_notifications := has_extension h NOTIFICATION_SYNC_EXTENSION |}.

(** ** The loop *)

(** What the system answers during one turn of the loop: the time when the event is handled and
    when the loop starts again, the conversation with a computer that is set up, and its answers. *)
Record Turn := {
  t_now : Instant;
  t_next : Instant;
  t_line : Attempt;
  t_set_up : SetUp;
}.

(** How a session ends. *)
Inductive session_exit := Exit_replaced | Exit_quit | Exit_disconnect | Exit_error (error : chain).

Inductive node_event :=
| Ev_tray (command : TrayCommand)
| Ev_request (env : PhoneSessions.Answers) (request : PhoneRequest)
| Ev_incoming (peer : IncomingPeer)
| Ev_handshake_failed (message : string)
| Ev_acceptor_stops
| Ev_dial_due
| Ev_dial_ends (reloaded : option AppConfig) (net : Network) (role_error : option chain)
| Ev_session_ends (exit : session_exit).

(** [rx/main 2408-2409 run_node]: whether there is an address to dial. *)
Definition dials : bool := negb (str_is_empty (trim (peer_host (cfg_peer config)))).
Definition paired_keys (n : Node) : list string := paired_computer_keys (pins (n_receiver n)) config.

(** [rx/main 2498-2524 run_node] *)
Definition start_node (r : Receiver) (armed : bool) (now : Instant) (paused capture : bool) : Node :=
  let first_run := dials && bool_decide (paired_computer_keys (pins r) config = []) && negb armed in
  {| n_receiver := r; n_connection_enabled := true; n_pairing_armed := armed || first_run;
     n_dial_at := if dials
                  then Some (now + dial_delay local_key (paired_computer_keys (pins r) config) 0)
                  else None;
     n_dialing := None; n_dial_blocked := false; n_last_dial_error := None; n_replacement := None;
     n_connected_peer := None; n_session := None; n_connector_pause := paused; n_capture := capture;
     n_tray := Call_listening :: (if first_run then [Call_pairing_armed true] else []);
     n_turned_away := []; n_devices := [] |}.

(** [rx/main 2530-2548 run_node] *)
Definition loop_top (now : Instant) (n : Node) : Node :=
  let n := set_n_connected_peer None n in
  if negb (bool_decide (is_Some (n_dial_at n))) && negb (bool_decide (is_Some (n_dialing n)))
     && negb (n_dial_blocked n) && n_connection_enabled n && dials
  then set_n_dial_at (Some (now + dial_delay local_key (paired_keys n) DIAL_RETRY)) n
  else n.

(** [rx/main 2549-2553 run_node] *)
Definition may_dial (n : Node) : bool :=
  dials && n_connection_enabled n && negb (n_dial_blocked n)
  && negb (bool_decide (is_Some (n_dialing n)))
  && (n_pairing_armed n || bool_decide (paired_keys n <> [])).

Definition dial_now (now : Instant) (n : Node) : Node :=
  set_n_dial_at (if dials then Some now else None) (set_n_dial_blocked false n).

(** [rx/main 2558-2623 run_node] *)
Definition on_tray_command (now : Instant) (command : TrayCommand) : looping unit :=
  match command with
  | ArmPairing =>
      change (fun n => tell_tray [Call_pairing_armed true; Call_listening]
                         (dial_now now (set_n_pairing_armed true n)))
  | Tray_Quit => st_fail Quits
  | Tray_Disconnect =>
      change (fun n => tell_tray [Call_disconnected_by_user]
                         (set_n_dial_at None (set_n_dialing None (set_n_connection_enabled false n))))
  | Tray_Reconnect =>
      change (fun n => tell_tray [Call_listening] (dial_now now (set_n_connection_enabled true n)))
  | OpenSettings | AddPhone | SetAudio _ | ToggleInputForwarding | SetController _ => st_ret tt
  end.

(** A peer of the acceptor is served.  [rx/main 2800-2804 run_node] *)
Definition accept_peer (t : Turn) (peer : IncomingPeer) : looping unit :=
  if is_phone_hello (hello peer) then change (start_phone ip (t_now t) peer)
  else fun n =>
    match set_up_computer (t_set_up t) peer (t_line t, n) with
    | ((_, n), Ok s) =>
        (set_n_session (Some {| ls_name := as_name s; ls_fingerprint := as_fingerprint s;
                                ls_dialled := false; ls_replaced := false;
                                ls_acceptor_open := true |}) n, Ok tt)
    | ((_, n), Err (Stops e)) => (n, Err (Fails e))
    | ((_, n), Err (Skips | Awaits)) => (n, Ok tt)
    end.

(** [rx/main 2628-2645 run_node] *)
Definition on_incoming (t : Turn) (peer : IncomingPeer) : looping unit :=
  n <-! st_get;;
  if bool_decide (is_Some (n_dialing n)) && negb (is_phone_hello (hello peer)) then
    if keep_own_dial local_key (Acceptor.fingerprint peer)
    then change (reject_peer peer DUPLICATE_SESSION
                   "both computers connected at once; keeping the other connection")
    else do! change (set_n_dialing None);; accept_peer t peer
  else accept_peer t peer.

(** [rx/main 2654-2670 run_node] *)
Definition on_dial_due (now : Instant) : looping unit := fun n =>
  if is_some_and (fun due => due <=? now) (n_dial_at n) && may_dial n
  then (set_n_dialing (Some {| da_paired := paired_keys n; da_armed := n_pairing_armed n;
                               da_paused := n_connector_pause n |}) (set_n_dial_at None n), Ok tt)
  else (n, Ok tt).

(** [rx/main 2676-2704 run_node] (a dial that failed) *)
Definition dial_failed (now : Instant) (error : chain) (n : Node) : Node :=
  let message := display error in
  let n := set_n_last_dial_error (Some message) n in
  match dial_failure message with
  | Unreachable => set_n_dial_at (Some (now + DIAL_UNREACHABLE_RETRY)) n
  | Duplicate => set_n_dial_at None n
  | UpgradeRequired => tell_tray [Call_error message] (set_n_dial_at None (set_n_dial_blocked true n))
  | Dial_Other => tell_tray [Call_error message] (set_n_dial_at None n)
  end.

(** [rx/main 2706-2723 run_node] (a dial that connected) *)
Definition dial_connected (pins_error : option chain) (c : LinuxPeerConnection) : looping unit := fun n =>
  let n := set_n_last_dial_error None n in
  let '(n, error) := if lc_newly_paired c
                     then pin_computer pins_error (lc_peer_name c) (lc_peer_fingerprint c) n
                     else (n, None) in
  match error with
  | Some e => (n, Err (Fails e))
  | None =>
      (set_n_session (Some {| ls_name := lc_peer_name c; ls_fingerprint := lc_peer_fingerprint c;
                              ls_dialled := true; ls_replaced := false; ls_acceptor_open := true |})
         (tell_tray [Call_pairing_armed false; Call_connected (lc_peer_name c)]
            (set_n_pairing_armed false
               (set_n_connected_peer (Some (lc_peer_name c, lc_peer_fingerprint c)) n))), Ok tt)
  end.

(** What a dial is, from what it was started with.  [rx/main 2660-2668 run_node] *)
Definition linux_dial (reloaded : option AppConfig) (net : Network) (role_error : option chain)
    (screen : result ScreenInfo string) (da : DialAttempt) : LinuxDial :=
  {| ld_config := default config reloaded; ld_fingerprint := local_key;
     ld_paired_computers := da_paired da; ld_pairing_armed := da_armed da;
     ld_session_paused := da_paused da; ld_network := net; ld_role_error := role_error;
     ld_screen := screen |}.

(** [rx/main 2671-2705 run_node] *)
Definition on_dial_ends (t : Turn) (reloaded : option AppConfig) (net : Network)
    (role_error : option chain) : looping unit :=
  n <-! st_get;;
  match n_dialing n with
  | None => st_ret tt
  | Some da =>
      let d := linux_dial reloaded net role_error (su_screen (t_set_up t)) da in
      match (connect_linux_peer debug confirm d (t_line t)).2 with
      | Err Hangs => st_ret tt
      | Err (Bails e) => change (fun n => dial_failed (t_now t) e (set_n_dialing None n))
      | Ok c => do! change (set_n_dialing None);; dial_connected (su_pins_error (t_set_up t)) c
      end
  end.

(** The newer connection waits, and the session is told.  [rx/main 2752-2758 run_node] *)
Definition replace_session (s : LiveSession) (peer : IncomingPeer) (n : Node) : Node :=
  set_n_replacement (Some peer)
    (set_n_session (Some {| ls_name := ls_name s; ls_fingerprint := ls_fingerprint s;
                            ls_dialled := ls_dialled s; ls_replaced := true;
                            ls_acceptor_open := ls_acceptor_open s |}) n).

(** [rx/main 3576-3608 peer_while_connected] *)
Definition peer_while_connected (s : LiveSession) (peer : IncomingPeer) (n : Node) : Node :=
  if is_connected_peer (ls_name s) (ls_fingerprint s) (device_name (hello peer))
       (Acceptor.fingerprint peer)
  then replace_session s peer n
  else reject_peer peer "receiver_busy" "this receiver is already connected to another computer" n.

(** A peer of the acceptor while a session runs: one this node dialled, or one it accepted.
    [rx/main 2748-2772 run_node] *)
Definition on_session_incoming (t : Turn) (s : LiveSession) (peer : IncomingPeer) (n : Node) : Node :=
  let same_key := str_eqb (Acceptor.fingerprint peer) (ls_fingerprint s) in
  if is_phone_hello (hello peer) then start_phone ip (t_now t) peer n
  else if ls_dialled s then
    if same_key && negb (keep_own_dial local_key (ls_fingerprint s)) then replace_session s peer n
    else if same_key
    then reject_peer peer DUPLICATE_SESSION
           "both computers connected at once; keeping the other connection" n
    else reject_peer peer "receiver_busy" "this computer is already connected to another computer" n
  else peer_while_connected s peer n.

(** The end of a session this node dialled.  [rx/main 2776-2796 run_node] *)
Definition dialled_session_ends (exit : session_exit) : looping unit :=
  do! change (set_n_session None);;
  match exit with
  | Exit_quit => st_fail Quits
  | Exit_replaced => st_ret tt
  | Exit_disconnect =>
      change (fun n => tell_tray [Call_disconnected_by_user]
                         (set_n_dial_at None (set_n_connection_enabled false n)))
  | Exit_error e => change (tell_tray [Call_disconnected (Some (display e))])
  end.

(** The end of one it accepted.  [rx/main 3143-3178 run_node] *)
Definition accepted_session_ends (exit : session_exit) : looping unit :=
  do! change (set_n_session None);;
  do! match exit with
      | Exit_quit => st_fail Quits
      | Exit_replaced => st_ret tt
      | Exit_disconnect =>
          change (fun n => tell_tray [Call_disconnected_by_user]
                             (set_n_replacement None (set_n_connection_enabled false n)))
      | Exit_error e => change (tell_tray [Call_disconnected (Some (display e))])
      end;;
  change (fun n => set_n_devices (n_devices n ++
            (if n_capture n then [Capture_released; Capture_disarmed] else []) ++ [All_keys_up]) n).

(** The loop starts again unless a session runs: a newer connection that waited is served first.
    [rx/main 2530-2556 run_node] *)
Definition next_iteration (t : Turn) : looping unit :=
  n <-! st_get;;
  match n_session n with
  | Some _ => st_ret tt
  | None =>
      do! change (loop_top (t_next t));;
      match n_replacement n with
      | None => st_ret tt
      | Some peer =>
          do! change (set_n_replacement None);;
          do! accept_peer t peer;;
          change (fun n => match n_session n with None => loop_top (t_next t) n | Some _ => n end)
      end
  end.

(** An event between sessions.  [rx/main 2557-2674 run_node] *)
Definition on_idle_event (t : Turn) (ev : node_event) : looping unit :=
  match ev with
  | Ev_tray command => on_tray_command (t_now t) command
  | Ev_request env request =>
      change (fun n => set_n_receiver (handle_request env request (n_receiver n)).1 n)
  | Ev_incoming peer => on_incoming t peer
  | Ev_handshake_failed message => change (tell_tray [Call_error message])
  | Ev_acceptor_stops => st_fail (Fails ["connection acceptor stopped"])
  | Ev_dial_due => on_dial_due (t_now t)
  | Ev_dial_ends reloaded net role_error => on_dial_ends t reloaded net role_error
  | Ev_session_ends _ => st_ret tt
  end.

(** An event during a session, whose own loop takes the tray's commands.
    [rx/main 3115-3141 run_node] *)
Definition on_session_event (t : Turn) (s : LiveSession) (ev : node_event) : looping unit :=
  match ev with
  | Ev_request env request =>
      change (fun n => set_n_receiver (handle_request env request (n_receiver n)).1 n)
  | Ev_incoming peer => if ls_acceptor_open s then change (on_session_incoming t s peer) else st_ret tt
  | Ev_acceptor_stops =>
      change (set_n_session (Some {| ls_name := ls_name s; ls_fingerprint := ls_fingerprint s;
                                     ls_dialled := ls_dialled s; ls_replaced := ls_replaced s;
                                     ls_acceptor_open := false |}))
  | Ev_session_ends exit => if ls_dialled s then dialled_session_ends exit else accepted_session_ends exit
  | Ev_tray _ | Ev_handshake_failed _ | Ev_dial_due | Ev_dial_ends _ _ _ => st_ret tt
  end.

Definition node_step (t : Turn) (ev : node_event) : looping unit :=
  n <-! st_get;;
  do! match n_session n with Some s => on_session_event t s ev | None => on_idle_event t ev end;;
  next_iteration t.

Fixpoint node_run (evs : list (Turn * node_event)) : looping unit :=
  match evs with
  | [] => st_ret tt
  | (t, ev) :: evs => do! node_step t ev;; node_run evs
  end.
End Node.
