(* ===== verification/PairingSafety.v ===== *)
(** * What pairing guarantees

    [Pairing], [WindowsConnect] and [LinuxNode] hold the three programs that pair: the Linux and
    the Windows computer that dial, and the computer that is dialled.  Each keeps what
    [ConfirmingSide] asks: it says that it accepts only after its user accepted the code of
    these two keys, and saves a key only after it said and heard an acceptance.  Two such sides that
    hear only what the other said save a key only if both users accepted the same code. *)
From S2P Require Import Acceptor.
From S2P Require Import WindowsSession.
From S2P Require Export WindowsConnect LinuxNode.
#[local] Open Scope string_scope.
#[local] Open Scope Z_scope.
#[local] Open Scope list_scope.

(** ** What a step says and hears *)

Definition ACCEPT : Frame := Frame_Pairing (Pairing_Decision true).

(** A quiet step: it says no acceptance, leaves the configuration and does not ask the user. *)
Record quiet (a a' : Attempt) : Prop := {
  quiet_heard : exists fs, heard a' = heard a ++ fs;
  quiet_said : exists fs, said a' = said a ++ fs /\ ACCEPT ∉ fs;
  quiet_config : config_file a' = config_file a;
  quiet_consumed : pairing_consumed a' = pairing_consumed a;
  quiet_prompts : prompts a' = prompts a;
}.
#[export] Instance quiet_preorder : PreOrder quiet.
Proof.
  split.
  - intros a. split; [by exists []; rewrite app_nil_r| |done..].
    exists []. rewrite app_nil_r. split; [done|apply not_elem_of_nil].
  - intros a b c [[f1 H1] (f2 & H2 & N2) H3 H4 H5] [[g1 G1] (g2 & G2 & N3) G3 G4 G5].
    split; [| |by rewrite G3|by rewrite G4|by rewrite G5].
    + exists (f1 ++ g1). by rewrite G1, H1, app_assoc.
    + exists (f2 ++ g2). rewrite G2, H2, app_assoc. split; [done|].
      rewrite elem_of_app. tauto.
Qed.

(** What happens to the heard frames and nothing else is quiet. *)
Lemma quiet_by a a' fs : heard a' = heard a ++ fs -> said a' = said a -> config_file a' = config_file a ->
  pairing_consumed a' = pairing_consumed a -> prompts a' = prompts a -> quiet a a'.
Proof.
  intros H1 H2 H3 H4 H5. split; [by exists fs| |done..]. exists []. rewrite H2, app_nil_r.
  split; [done|apply not_elem_of_nil].
Qed.
Lemma quiet_same a a' : heard a' = heard a -> said a' = said a -> config_file a' = config_file a ->
  pairing_consumed a' = pairing_consumed a -> prompts a' = prompts a -> quiet a a'.
Proof. intros H1. apply (quiet_by _ _ []). by rewrite app_nil_r. Qed.

Create HintDb quiet discriminated.
#[local] Hint Constants Opaque : quiet.

Lemma bail_quiet {A} m : within quiet (bail m : conversing A).
Proof. by intros a. Qed.
Lemma context_quiet {A} m (k : conversing A) : within quiet k -> within quiet (context m k).
Proof. intros Hk a. specialize (Hk a). unfold context. by destruct (k a) as [a' [x|[e|]]]. Qed.
Lemma or_timeout_quiet {A} m (r : option A) : within quiet (or_timeout m r).
Proof. by destruct r; intros s. Qed.
Lemma of_call_quiet {A} (r : result A chain) : within quiet (of_call r).
Proof. by intros a. Qed.
Lemma timed_quiet {A} l t (r : result A chain) : within quiet (timed l t r).
Proof. intros a. by apply quiet_same. Qed.
(** The state after any write, failed or not. *)
Lemma write_said frame a : said (write_secure_frame frame a).1 = said a ++ [frame].
Proof. unfold write_secure_frame. cbn. by repeat case_match. Qed.
Lemma write_heard frame a : heard (write_secure_frame frame a).1 = heard a.
Proof. unfold write_secure_frame. cbn. by repeat case_match. Qed.
Lemma write_config frame a : config_file (write_secure_frame frame a).1 = config_file a.
Proof. unfold write_secure_frame. cbn. by repeat case_match. Qed.

Lemma write_consumed frame a :
  pairing_consumed (write_secure_frame frame a).1 = pairing_consumed a.
Proof. unfold write_secure_frame. cbn. by repeat case_match. Qed.
Lemma write_prompts frame a : prompts (write_secure_frame frame a).1 = prompts a.
Proof. unfold write_secure_frame. cbn. by repeat case_match. Qed.
Lemma write_quiet frame : frame <> ACCEPT -> within quiet (write_secure_frame frame).
Proof.
  intros Hf a. split; [exists []; by rewrite write_heard, app_nil_r| |apply write_config|apply write_consumed|apply write_prompts].
  exists [frame]. split; [apply write_said|]. by rewrite list_elem_of_singleton.
Qed.

(** Waiting for a frame: what was taken was heard, and nothing was said. *)
Lemma await_spec {A} (pick : Frame -> option (result A chain)) deadline incoming : forall a,
  let r := await_in pick deadline incoming a in
  quiet a r.1 /\ match r.2 with
                 | Ok (Some x) => exists frame, frame ∈ heard r.1 /\ pick frame = Some (Ok x)
                 | _ => True
                 end.
Proof.
  induction incoming as [|next rest IH]; intros a; cbn [await_in].
  - destruct deadline; (split; [by apply quiet_same|done]).
  - destruct (is_some_and _ deadline).
    { split; [by apply quiet_same|done]. }
    destruct (arrived next) as [frame|e]; [|split; [by apply quiet_same|done]].
    set (a1 := set_heard _ _).
    assert (quiet a a1) as Hq by (by apply (quiet_by _ _ [frame])).
    destruct (pick frame) as [[x|e]|] eqn:Ep.
    + split; [done|]. exists frame. split; [|done]. subst a1. cbn. rewrite elem_of_app. right. left.
    + by split.
    + destruct (IH a1) as [H1 H2]. split; [by etrans|done].
Qed.
Lemma await_for_quiet {A} l (pick : Frame -> option (result A chain)) : within quiet (await_for l pick).
Proof. intros a. apply await_spec. Qed.
Lemma await_forever_quiet {A} (pick : Frame -> option (result A chain)) :
  within quiet (await_forever pick).
Proof. intros a. apply await_spec. Qed.
Lemma role_write_quiet e role : within quiet (role_write e role).
Proof. intros a. by destruct e; apply quiet_same. Qed.
#[export] Hint Resolve bail_quiet context_quiet or_timeout_quiet of_call_quiet timed_quiet
  await_for_quiet await_forever_quiet role_write_quiet : quiet.
#[export] Hint Extern 1 (within quiet (write_secure_frame _)) => (apply write_quiet; discriminate) : quiet.

(** Follows a conversation whose steps are quiet. *)
Ltac quiet_steps := repeat (within_step || solve [auto with quiet]).

Section Sides.
Context `{Hashing}.
Context (debug : Frame -> string) (confirm : PairingConfirmationInput -> confirmation).

Lemma read_status_quiet who : within quiet (read_pairing_status debug who).
Proof. unfold read_pairing_status. quiet_steps. Qed.
Lemma read_decision_quiet who : within quiet (read_pairing_decision debug who).
Proof. unfold read_pairing_decision. quiet_steps. Qed.
Lemma win_read_status_quiet : within quiet (win_read_pairing_status debug).
Proof. apply read_status_quiet. Qed.
Lemma peer_screen_quiet : within quiet read_initial_peer_screen.
Proof. unfold read_initial_peer_screen. quiet_steps. Qed.
Lemma choose_quiet l p c x y e pos z : within quiet (choose_controller l p c x y e pos z).
Proof. unfold choose_controller. quiet_steps. Qed.
Lemma dial_linux_quiet d : within quiet (dial_linux d).
Proof. unfold dial_linux. quiet_steps. Qed.
Lemma initial_frames_quiet n : forall i, within quiet (read_initial_frames n i).
Proof. induction n; intros i; cbn [read_initial_frames]; quiet_steps; apply IHn. Qed.
Lemma connect_session_quiet d : within quiet (connect_session d).
Proof. unfold connect_session. quiet_steps. Qed.
End Sides.
#[export] Hint Resolve read_status_quiet win_read_status_quiet read_decision_quiet peer_screen_quiet choose_quiet
  dial_linux_quiet initial_frames_quiet connect_session_quiet : quiet.

(** ** The promise of a side *)

(** The user accepted to pair these two keys, and saw their code. *)
Definition approved `{Hashing} (confirm : PairingConfirmationInput -> confirmation) (local peer : string) :
  Prop :=
  exists input, confirm input = Answers true /\ conf_local_fingerprint input = local
    /\ conf_peer_fingerprint input = peer /\ verification_code input = pairing_code local peer.

(** One computer of a conversation when it is over: its key and the one the handshake proved, its
    user, what it said and heard, and whether it has a new key saved. *)
Record side := {
  side_key : string;
  side_peer : string;
  side_user : PairingConfirmationInput -> confirmation;
  side_said : list Frame;
  side_heard : list Frame;
  side_saved : Prop;
}.
Class ConfirmingSide `{Hashing} (s : side) : Prop := {
  says_after_approval : ACCEPT ∈ side_said s -> approved (side_user s) (side_key s) (side_peer s);
  saves_after_both : side_saved s -> ACCEPT ∈ side_said s /\ ACCEPT ∈ side_heard s;
}.

Section Approval.
Context `{Hashing}.
Context (debug : Frame -> string) (confirm : PairingConfirmationInput -> confirmation).
(** What is shown when this conversation saves a key, in terms of its state, and the keys. *)
Context (config0 : file_of AppConfig) (local peer : string).

(** What holds all along. *)
Definition honest (a : Attempt) : Prop :=
  (ACCEPT ∈ said a -> approved confirm local peer)
  /\ (config_file a <> config0 -> ACCEPT ∈ said a /\ ACCEPT ∈ heard a).
(** The same, and with [b] both have accepted. *)
Definition both_if (b : bool) (a : Attempt) : Prop :=
  honest a /\ (b = true -> ACCEPT ∈ said a /\ ACCEPT ∈ heard a).

Lemma quiet_heard_said a a' : quiet a a' ->
  (ACCEPT ∈ heard a -> ACCEPT ∈ heard a') /\ (ACCEPT ∈ said a <-> ACCEPT ∈ said a').
Proof.
  intros [[f1 ->] (f2 & -> & N) _ _]. rewrite !elem_of_app. tauto.
Qed.
Lemma quiet_honest a a' : quiet a a' -> honest a -> honest a'.
Proof.
  intros Hq [H1 H2]. pose proof (quiet_heard_said _ _ Hq) as [H3 H4].
  split; [|rewrite (quiet_config _ _ Hq)]; tauto.
Qed.
Lemma quiet_both b a a' : quiet a a' -> both_if b a -> both_if b a'.
Proof.
  intros Hq [H1 H2]. pose proof (quiet_heard_said _ _ Hq) as [H3 H4].
  split; [by eapply quiet_honest|]. tauto.
Qed.

Lemma quiet_hoare {A} (F : Attempt -> Prop) (m : conversing A) :
  (forall a a', quiet a a' -> F a -> F a') -> within quiet m -> hoare F m (fun _ => F) F.
Proof. intros HF Hm a Ha. specialize (Hm a). destruct (m a) as [a' [x|e]]; cbn in *; eauto. Qed.
Lemma honest_quiet {A} (m : conversing A) : within quiet m -> hoare honest m (fun _ => honest) honest.
Proof. apply quiet_hoare, quiet_honest. Qed.
Lemma both_quiet {A} b (m : conversing A) : within quiet m -> hoare (both_if b) m (fun _ => both_if b) honest.
Proof.
  intros Hm. eapply hoare_weaken; [exact (quiet_hoare _ m (quiet_both b) Hm)|done..|]. by intros s [? ?].
Qed.

Lemma ask_hoare m input : conf_local_fingerprint input = local -> conf_peer_fingerprint input = peer ->
  verification_code input = pairing_code local peer ->
  hoare honest (ask_user confirm m input)
    (fun b a => honest a /\ (b = true -> approved confirm local peer)) honest.
Proof.
  intros H1 H2 H3 a Ha. unfold ask_user, st_bind, show_confirmation. destruct (confirm input) as [b|e|e] eqn:Ec; cbn; try done.
  split; [done|]. intros ->. by exists input.
Qed.
Lemma decision_hoare b :
  hoare (fun a => honest a /\ (b = true -> approved confirm local peer))
    (write_secure_frame (Frame_Pairing (Pairing_Decision b)))
    (fun _ a => honest a /\ (b = true -> ACCEPT ∈ said a)) honest.
Proof.
  destruct b.
  - intros a [[H1 H2] Ha].
    assert (forall a', said a' = said a ++ [ACCEPT] -> heard a' = heard a -> config_file a' = config_file a ->
              honest a' /\ ACCEPT ∈ said a') as Hh.
    { intros a' E1 E2 E3. assert (ACCEPT ∈ said a').
      { rewrite E1, elem_of_app. right. left. }
      split; [|done]. split; [by intros _; apply Ha|]. rewrite E3, E2. intros Hc. split; [done|].
      by apply H2. }
    pose proof (Hh _ (write_said ACCEPT a) (write_heard ACCEPT a) (write_config ACCEPT a)) as [? ?].
    change (Frame_Pairing (Pairing_Decision true)) with ACCEPT.
    by destruct (write_secure_frame ACCEPT a).2.
  - eapply hoare_weaken; [apply (honest_quiet (write_secure_frame _)); apply write_quiet; discriminate|
      by intros a [? ?]|by intros|done].
Qed.
Lemma read_decision_hoare who (F : Attempt -> Prop) (HF : forall a a', quiet a a' -> F a -> F a') :
  hoare F (read_pairing_decision debug who) (fun b a => F a /\ (b = true -> ACCEPT ∈ heard a)) F.
Proof.
  intros a Ha. pose proof (HF _ _ (read_decision_quiet debug who a) Ha) as Hq. revert Hq.
  unfold read_pairing_decision, st_bind, context, await_for.
  pose proof (await_spec any_frame (Some (elapsed a + from_secs 120)) (arrivals a) a) as [_ Hs].
  destruct (await_in _ _ _ _) as [a1 [[frame|]|[e|]]]; cbn [fst snd] in *; try done.
  destruct Hs as (frame' & Hin & [= ->]).
  repeat case_match; cbn [bail st_fail st_ret fst snd]; try done.
  subst. intros Hq. split; [done|]. cbn in *. simplify_eq.
  intros ->. exact Hin.
Qed.
End Approval.

(** A fact about the result of a computation, apart from the states. *)
Lemma hoare_result {S E A} (P X : S -> Prop) (Q : A -> S -> Prop) (R : A -> Prop) (m : stateful S E A) :
  hoare P m Q X -> (forall s s' x, m s = (s', Ok x) -> R x) ->
  hoare P m (fun x s => Q x s /\ R x) X.
Proof.
  intros Hm HR s Hs. specialize (Hm s Hs). destruct (m s) as [s' [x|e]] eqn:Em; cbn in *; [|done].
  split; [done|]. by eapply HR.
Qed.

Lemma hoare_pure {S E A} (P X : S -> Prop) (Q : A -> S -> Prop) (R : Prop) (m : stateful S E A) :
  (R -> hoare P m Q X) -> hoare (fun s => P s /\ R) m Q X.
Proof. intros Hm s [Hs HR]. by apply Hm. Qed.

(** ** The three programs keep it *)

(** The results that the steps of dialling return. *)
Lemma or_timeout_Ok {A} m (r : option A) s s' x : or_timeout m r s = (s', Ok x) -> r = Some x.
Proof. destruct r; [by intros [= _ <-]|done]. Qed.
Lemma call_Ok {A} m (r : result A chain) s s' x : context m (of_call r) s = (s', Ok x) -> r = Ok x.
Proof. unfold context, of_call, st_lift. destruct r; [by intros [= _ <-]|done]. Qed.
Lemma timed_Ok {A} l t (r r' : result A chain) s s' : timed l t r s = (s', Ok (Some r')) -> r' = r.
Proof. unfold timed. case_match; intros [= _ <-]. done. Qed.

Section Windows.
Context `{Hashing}.
Context (debug : Frame -> string) (confirm : PairingConfirmationInput -> confirmation).
Context (d : WindowsDial) (config0 : file_of AppConfig).

Definition proved_key (net : Network) : string := match noise net with Ok key => key | Err _ => "" end.
#[local] Notation peer := (proved_key (wd_network d)).
#[local] Notation honest_w := (honest confirm config0 (wd_fingerprint d) peer).

Lemma connect_session_key a a' c : connect_session d a = (a', Ok c) -> cc_peer_fingerprint c = peer.
Proof.
  unfold connect_session. intros E. unbind E s1 x1 E1. unbind E s2 x2 E2. unbind E s3 x3 E3.
  unbind E s4 x4 E4. unbind E s5 x5 E5. unbind E s6 x6 E6. unbind E s7 x7 E7. unbind E s8 x8 E8.
  unbind E s9 x9 E9. injection E as <- <-. cbn [cc_peer_fingerprint].
  apply or_timeout_Ok in E6 as ->. apply call_Ok in E7 as ->. apply timed_Ok in E5.
  unfold proved_key. revert E5. destruct (noise _); [|done]. unfold expect_key.
  repeat case_match; congruence.
Qed.

Lemma pair_windows_honest c hello : cc_peer_fingerprint c = peer ->
  hoare honest_w (pair_windows debug confirm d c hello) (fun _ => honest_w) honest_w.
Proof.
  intros Hc. unfold pair_windows. destruct (has_extension _ _).
  2:{ destruct (negb _); apply honest_quiet; quiet_steps. }
  eapply hoare_bind; [apply honest_quiet; quiet_steps|intros ?].
  eapply hoare_bind; [apply honest_quiet; quiet_steps|intros [trusted armed]].
  destruct (negb _ || negb _); [|apply honest_quiet; quiet_steps].
  destruct (negb _ || negb _); [apply honest_quiet; quiet_steps|].
  apply (hoare_bind _ (fun _ => honest_w)); [intros s Hs; exact Hs|intros ?].
  eapply hoare_bind; [by apply ask_hoare; cbn; rewrite ?Hc|intros b].
  eapply hoare_bind; [apply decision_hoare|intros ?].
  destruct b; [|by intros s [Hs _]].
  eapply (hoare_bind _ (fun _ s => honest_w s /\ ACCEPT ∈ said s)).
  { apply hoare_ret. intros s [? ?]. auto. }
  intros ?. eapply hoare_bind.
  { eapply hoare_weaken.
    - apply (read_decision_hoare debug "receiver" (fun s => honest_w s /\ ACCEPT ∈ said s)).
      intros s s' Hq [H1 H2]. split; [by eapply quiet_honest|]. by apply (quiet_heard_said _ _ Hq).
    - done.
    - by intros b s Hs.
    - by intros s [? ?]. }
  intros b. destruct b; [|by intros s [[? _] _]]. intros s [[Hs H1] H2].
  unfold st_bind, st_ret, save_peer_key, save_config, st_get. cbn.
  destruct (wd_config_error d) as [[e left_over]|]; cbn; (split; [apply Hs|]); auto.
Qed.

Lemma connect_windows_honest :
  hoare honest_w (connect_and_initialize debug confirm d) (fun _ => honest_w) honest_w.
Proof.
  unfold connect_and_initialize. eapply hoare_bind.
  { apply (hoare_result _ _ (fun _ => honest_w) (fun c => cc_peer_fingerprint c = peer)); [apply honest_quiet; quiet_steps|].
    intros s s' c. apply connect_session_key. }
  intros c. apply hoare_pure. intros Hc.
  eapply hoare_bind; [apply honest_quiet; quiet_steps|intros ?].
  eapply hoare_bind; [apply honest_quiet; quiet_steps|intros hello].
  eapply hoare_bind; [apply honest_quiet; quiet_steps|intros ?].
  eapply hoare_bind; [by apply pair_windows_honest|intros c'].
  apply honest_quiet. quiet_steps.
Qed.

(** The Windows computer, after a connection. *)
Definition windows_side (a : Attempt) : side :=
  let a' := (connect_and_initialize debug confirm d a).1 in
  {| side_key := wd_fingerprint d; side_peer := peer; side_user := confirm; side_said := said a';
     side_heard := heard a'; side_saved := config_file a' <> config_file a |}.
End Windows.

#[export] Instance windows_confirms `{Hashing} debug confirm d a : said a = [] ->
  ConfirmingSide (windows_side debug confirm d a).
Proof.
  intros Ha. pose proof (connect_windows_honest debug confirm d (config_file a) a) as Hc.
  assert (honest confirm (config_file a) (wd_fingerprint d) (proved_key (wd_network d))
            (connect_and_initialize debug confirm d a).1) as [H1 H2].
  { assert (honest confirm (config_file a) (wd_fingerprint d) (proved_key (wd_network d)) a) as H0.
    { split; [rewrite Ha; by intros ?%not_elem_of_nil|done]. }
    specialize (Hc H0). by destruct (_ a).2. }
  by split.
Qed.

Section Linux.
Context `{Hashing}.
Context (debug : Frame -> string) (confirm : PairingConfirmationInput -> confirmation).
Context (d : LinuxDial) (config0 : file_of AppConfig).
#[local] Notation peer := (proved_key (ld_network d)).
#[local] Notation honest_l := (honest confirm config0 (ld_fingerprint d) peer).
#[local] Notation both_l := (both_if confirm config0 (ld_fingerprint d) peer).

Lemma dial_linux_key a a' r : dial_linux d a = (a', Ok r) -> r.2 = peer.
Proof.
  unfold dial_linux. intros E. unbind E s1 x1 E1. unbind E s2 x2 E2. unbind E s3 x3 E3.
  unbind E s4 x4 E4. unbind E s5 x5 E5. unbind E s6 x6 E6. unbind E s7 x7 E7.
  injection E as <- <-. cbn [snd]. apply or_timeout_Ok in E6 as ->. apply call_Ok in E7 as ->.
  apply timed_Ok in E5. unfold proved_key. by rewrite <- E5.
Qed.

Lemma pair_linux_both hello key : key = peer ->
  hoare honest_l (pair_linux debug confirm d hello key) both_l honest_l.
Proof.
  intros ->. unfold pair_linux. destruct (has_extension _ _).
  2:{ destruct (negb _); [apply hoare_fail; auto|]. apply hoare_ret. intros s Hs. by split. }
  eapply hoare_bind; [apply honest_quiet; quiet_steps|intros ?].
  eapply hoare_bind; [apply honest_quiet; quiet_steps|intros [trusted armed]].
  destruct (negb _ || negb _); [|apply hoare_ret; intros s Hs; by split].
  destruct (negb _ || negb _).
  { eapply hoare_bind; [apply honest_quiet; quiet_steps|intros ?]. apply hoare_fail. auto. }
  eapply hoare_bind; [by apply ask_hoare|intros b].
  eapply hoare_bind; [apply decision_hoare|intros ?].
  apply (hoare_bind _ both_l).
  - destruct b; [|apply hoare_ret; intros s [Hs _]; by split].
    eapply hoare_weaken; [apply (read_decision_hoare debug "peer" (fun s => honest_l s /\ ACCEPT ∈ said s))|
      by intros s [? ?]; auto|by intros b s [[? ?] ?]; split; [|auto]|by intros s [? ?]].
    intros s s' Hq [H1 H2]. split; [by eapply quiet_honest|]. by apply (quiet_heard_said _ _ Hq).
  - intros b'. destruct b'; [by apply hoare_ret|]. apply hoare_fail. by intros s [? _].
Qed.

Lemma connect_linux_both :
  hoare honest_l (connect_linux_peer debug confirm d) (fun c => both_l (lc_newly_paired c)) honest_l.
Proof.
  unfold connect_linux_peer. eapply hoare_bind.
  { apply (hoare_result _ _ (fun _ => honest_l) (fun r => r.2 = peer)); [apply honest_quiet; quiet_steps|].
    intros s s' r. apply dial_linux_key. }
  intros [addr key]. apply hoare_pure. intros Hc.
  eapply hoare_bind; [apply honest_quiet; quiet_steps|intros ?].
  eapply hoare_bind; [apply honest_quiet; quiet_steps|intros ?].
  eapply hoare_bind; [apply honest_quiet; quiet_steps|intros hello].
  eapply hoare_bind; [apply honest_quiet; quiet_steps|intros ?].
  eapply hoare_bind; [by apply pair_linux_both|intros b].
  eapply hoare_bind; [apply both_quiet; quiet_steps|intros role].
  eapply hoare_bind; [apply both_quiet; quiet_steps|intros ?].
  eapply hoare_bind; [apply both_quiet; quiet_steps|intros ?].
  eapply hoare_bind; [apply both_quiet; quiet_steps|intros ?].
  by apply hoare_ret.
Qed.

(** The Linux computer that dialled, whose loop pins a key it newly paired with. *)
Definition linux_side (a : Attempt) : side :=
  let r := connect_linux_peer debug confirm d a in
  {| side_key := ld_fingerprint d; side_peer := peer; side_user := confirm; side_said := said r.1;
     side_heard := heard r.1;
     side_saved := match r.2 with Ok c => lc_newly_paired c = true | Err _ => False end |}.
End Linux.

#[export] Instance linux_confirms `{Hashing} debug confirm d a : said a = [] ->
  ConfirmingSide (linux_side debug confirm d a).
Proof.
  intros Ha. pose proof (connect_linux_both debug confirm d (config_file a) a) as Hc.
  assert (honest confirm (config_file a) (ld_fingerprint d) (proved_key (ld_network d)) a) as H0.
  { split; [rewrite Ha; by intros ?%not_elem_of_nil|done]. }
  specialize (Hc H0). unfold linux_side.
  destruct (connect_linux_peer debug confirm d a) as [a' [c|e]]; cbn in *.
  - destruct Hc as [[H1 H2] H3]. by split.
  - destruct Hc as [H1 H2]. by split.
Qed.

(** *** The computer that is dialled *)

(** A quiet step of a set-up, which leaves the pins. *)
Definition quiet_n (s s' : Attempt * Node) : Prop := quiet s.1 s'.1 /\ n_receiver s'.2 = n_receiver s.2.
#[export] Instance quiet_n_preorder : PreOrder quiet_n.
Proof.
  split; [by intros s|]. intros s1 s2 s3 [H1 H2] [H3 H4]. split; [by etrans|by rewrite H4].
Qed.

Lemma converse_quiet {A} (m : conversing A) : within quiet m -> within quiet_n (converse m).
Proof. intros Hm s. specialize (Hm s.1). unfold converse. by destruct (m s.1) as [a [x|[e|]]]. Qed.
Lemma at_node_quiet f : (forall n, n_receiver (f n) = n_receiver n) -> within quiet_n (at_node f).
Proof. intros Hf s. split; [done|apply Hf]. Qed.
Lemma the_node_quiet : within quiet_n the_node.
Proof. by intros s. Qed.
Lemma write_or_skip_quiet frame : frame <> ACCEPT -> within quiet_n (write_or_skip frame).
Proof.
  intros Hf. unfold write_or_skip. apply within_bind; [apply _|by apply converse_quiet, write_quiet|].
  intros [?|?]; within_step.
Qed.
Lemma reject_pairing_quiet code message : within quiet_n (reject_pairing code message).
Proof.
  unfold reject_pairing. apply within_bind; [apply _|apply converse_quiet, write_quiet; discriminate|].
  intros. within_step.
Qed.
#[export] Hint Resolve converse_quiet the_node_quiet reject_pairing_quiet : quiet.
#[export] Hint Extern 1 (within quiet_n (write_or_skip _)) => (apply write_or_skip_quiet; discriminate) : quiet.
#[export] Hint Extern 1 (within quiet_n (at_node _)) =>
  (apply at_node_quiet; intros; repeat case_match; reflexivity) : quiet.

Section Listener.
Context `{Hashing}.
Context (debug : Frame -> string) (confirm : PairingConfirmationInput -> confirmation).
Context (config : AppConfig) (local_key : string) (ip : Z -> IpAddr) (show_addr : Z -> string).
Context (r0 : Receiver) (peer : IncomingPeer).
#[local] Notation key := (Acceptor.fingerprint peer).

Definition honest_n (s : Attempt * Node) : Prop :=
  (ACCEPT ∈ said s.1 -> approved confirm local_key key)
  /\ (pins (n_receiver s.2) <> pins r0 \/ disk (n_receiver s.2) <> disk r0 ->
      ACCEPT ∈ said s.1 /\ ACCEPT ∈ heard s.1).

Lemma quiet_honest_n s s' : quiet_n s s' -> honest_n s -> honest_n s'.
Proof.
  intros [Hq Hr] [H1 H2]. pose proof (quiet_heard_said _ _ Hq) as [H3 H4].
  split; [|rewrite Hr]; tauto.
Qed.
Lemma honest_n_quiet {A} (m : setting_up A) : within quiet_n m ->
  hoare honest_n m (fun _ => honest_n) honest_n.
Proof. intros Hm s Hs. specialize (Hm s). destruct (m s) as [s' [x|e]]; cbn in *; eauto using quiet_honest_n. Qed.

Lemma confirm_pairing_honest e status :
  hoare honest_n (confirm_pairing debug confirm local_key show_addr e peer status)
    (fun _ => honest_n) honest_n.
Proof.
  unfold confirm_pairing. set (input := accepted_confirmation _ _ _ _).
  set (b := user_accepts confirm input).
  assert (b = true -> approved confirm local_key key) as Happ.
  { subst b. unfold user_accepts. destruct (confirm input) as [b| |] eqn:Ec; try done. intros ->.
    by exists input. }
  apply (hoare_bind _ (fun _ => honest_n)); [by intros s Hs|intros _].
  eapply (hoare_bind _ (fun _ s => honest_n s /\ (b = true -> ACCEPT ∈ said s.1))).
  { destruct b.
    - intros s [H1 H2]. unfold write_or_skip, st_bind, converse.
      pose proof (write_said ACCEPT s.1) as W1. pose proof (write_heard ACCEPT s.1) as W2.
      change (Frame_Pairing (Pairing_Decision true)) with ACCEPT.
      assert (ACCEPT ∈ said (write_secure_frame ACCEPT s.1).1) as Hin.
      { rewrite W1, elem_of_app. right. left. }
      assert (forall n, n = s.2 -> honest_n ((write_secure_frame ACCEPT s.1).1, n)) as Hh.
      { intros n ->. split; [auto|]. cbn [fst snd]. rewrite W2. intros Hc. split; [done|].
        by apply H2. }
      destruct (write_secure_frame ACCEPT s.1) as [a [x|[e'|]]]; cbn in *; auto.
    - eapply hoare_weaken; [apply (honest_n_quiet (write_or_skip _)), write_or_skip_quiet; discriminate|
        done|by intros|done]. }
  intros ?.
  eapply (hoare_bind _ (fun peer_b s => honest_n s
    /\ (b = true -> ACCEPT ∈ said s.1 /\ (peer_b = true -> ACCEPT ∈ heard s.1)))).
  { destruct b; [|apply hoare_ret; intros s [? _]; by split].
    apply (hoare_bind _ (fun r s => honest_n s /\ ACCEPT ∈ said s.1
                           /\ (r = Ok true -> ACCEPT ∈ heard s.1))).
    - intros s [H1 H2]. unfold converse.
      pose proof (read_decision_hoare debug "peer" (fun a => honest_n (a, s.2) /\ ACCEPT ∈ said a)) as Hr.
      specialize (Hr ltac:(intros l l' Hq [K1 K2]; split;
        [eapply quiet_honest_n; [|exact K1]; by split|by apply (quiet_heard_said _ _ Hq)]) s.1).
      destruct s as [line n]. specialize (Hr (conj H1 (H2 eq_refl))). cbn [fst snd] in *.
      destruct (read_pairing_decision debug "peer" line) as [line' [x|[e'|]]]; cbn in *.
      + destruct Hr as [[K1 K2] K3]. split_and!; [done|done|]. intros [= ->]. auto.
      + destruct Hr as [K1 K2]. by split_and!.
      + by destruct Hr.
    - intros r. apply hoare_ret. intros s (K1 & K2 & K3). split; [done|]. intros _. split; [done|].
      destruct r as [[]|]; auto; discriminate. }
  intros peer_b.
  eapply (hoare_bind _ (fun _ s => honest_n s
    /\ (b = true -> ACCEPT ∈ said s.1 /\ (peer_b = true -> ACCEPT ∈ heard s.1)))).
  { intros s [K1 K2]. split; [|done]. eapply quiet_honest_n; [|exact K1]. by split. }
  intros ?. destruct b, peer_b; cbn [negb orb].
  1:{ intros [line n] [[K1 K2] K3]. unfold pin_computer. cbn.
      destruct e; cbn; (split; [exact K1|]; intros _; destruct (K3 eq_refl); auto). }
  all: apply (hoare_bind _ (fun _ => honest_n)); [|intros ?; by apply hoare_fail];
    intros s [Hs _]; eapply quiet_honest_n; [|exact Hs]; by split.
Qed.

Lemma pair_accepted_honest e :
  hoare honest_n (pair_accepted debug confirm config local_key show_addr e peer) (fun _ => honest_n) honest_n.
Proof.
  unfold pair_accepted. eapply hoare_bind; [apply honest_n_quiet; quiet_steps|intros n].
  eapply hoare_bind; [apply honest_n_quiet; quiet_steps|intros ?].
  destruct (has_extension _ _).
  2:{ destruct (negb _); apply honest_n_quiet; quiet_steps. }
  eapply hoare_bind; [apply honest_n_quiet; quiet_steps|intros ?].
  eapply hoare_bind; [apply honest_n_quiet; quiet_steps|intros [[trusted armed]|e']].
  2:{ apply honest_n_quiet. quiet_steps. }
  destruct (negb _ || negb _); [|apply honest_n_quiet; quiet_steps].
  destruct (negb _ || negb _); [apply honest_n_quiet; quiet_steps|].
  apply confirm_pairing_honest.
Qed.

Lemma set_up_honest env :
  hoare honest_n (set_up_computer debug confirm config local_key show_addr env peer)
    (fun _ => honest_n) honest_n.
Proof.
  unfold set_up_computer.
  do 3 (eapply hoare_bind; [apply honest_n_quiet; quiet_steps|intros ?]).
  eapply hoare_bind; [apply pair_accepted_honest|intros ?].
  apply honest_n_quiet. quiet_steps.
Qed.

(** The computer that was dialled. *)
Definition listener_side (env : SetUp) (a : Attempt) (n : Node) : side :=
  let s := (set_up_computer debug confirm config local_key show_addr env peer (a, n)).1 in
  {| side_key := local_key; side_peer := key; side_user := confirm; side_said := said s.1;
     side_heard := heard s.1;
     side_saved := pins (n_receiver s.2) <> pins (n_receiver n)
                   \/ disk (n_receiver s.2) <> disk (n_receiver n) |}.
End Listener.

#[export] Instance listener_confirms `{Hashing} debug confirm config local_key show_addr peer env a n :
  said a = [] -> ConfirmingSide (listener_side debug confirm config local_key show_addr peer env a n).
Proof.
  intros Ha.
  pose proof (set_up_honest debug confirm config local_key show_addr (n_receiver n) peer env (a, n)) as Hc.
  assert (honest_n confirm local_key (n_receiver n) peer (a, n)) as H0.
  { split; cbn [fst snd]; [rewrite Ha; by intros ?%not_elem_of_nil|by intros []]. }
  specialize (Hc H0). unfold listener_side.
  assert (honest_n confirm local_key (n_receiver n) peer
            (set_up_computer debug confirm config local_key show_addr env peer (a, n)).1) as [H1 H2].
  { by destruct (_ (a, n)).2. }
  by split.
Qed.

(** ** Two computers *)

(** Two sides of one connection: each hears a beginning of what the other says, and the handshake
    proved each the other's key. *)
Record connected_sides (s s' : side) : Prop := {
  conn_hears : side_heard s `prefix_of` side_said s';
  conn_hears' : side_heard s' `prefix_of` side_said s;
  conn_key : side_peer s = side_key s';
  conn_key' : side_peer s' = side_key s;
}.

Section Agreement.
Context `{Hashing}.

(** Neither key is saved until both users approved: when two computers connect, in whatever roles,
    and either has saved the other's key, then both users accepted, and both were shown the same
    code, that of these two keys. *)
Lemma pairing_needs_both_sides (s s' : side) `{!ConfirmingSide s, !ConfirmingSide s'} :
  connected_sides s s' -> side_saved s \/ side_saved s' ->
  exists input input', side_user s input = Answers true /\ side_user s' input' = Answers true
    /\ verification_code input = verification_code input'
    /\ conf_peer_fingerprint input = side_key s' /\ conf_peer_fingerprint input' = side_key s.
Proof.
  intros [H1 H2 H3 H4] Hs.
  assert (ACCEPT ∈ side_said s /\ ACCEPT ∈ side_said s') as [Hsaid Hsaid'].
  { destruct Hs as [Hs|Hs]; apply saves_after_both in Hs as [K1 K2]; split; try done;
      eapply elem_of_prefix; eassumption. }
  apply says_after_approval in Hsaid as (i & A1 & A2 & A3 & A4).
  apply says_after_approval in Hsaid' as (i' & B1 & B2 & B3 & B4).
  exists i, i'. split_and!; try done; [|congruence..].
  rewrite A4, B4, H3, H4. unfold pairing_code. by rewrite in_order_comm.
Qed.
End Agreement.

(** A computer that dials, and what it is on a connection. *)
Inductive dialler := Windows_dials (d : WindowsDial) | Linux_dials (d : LinuxDial).
Definition dialler_side `{Hashing} (debug : Frame -> string)
    (confirm : PairingConfirmationInput -> confirmation) (x : dialler) (a : Attempt) : side :=
  match x with
  | Windows_dials d => windows_side debug confirm d a
  | Linux_dials d => linux_side debug confirm d a
  end.

(** C5. Neither saved key is replaced until both computers approve: when a Windows or a Linux computer
    dials a Linux computer, and either of the two has a new key saved when the connection is set up
    or has failed, however it failed, then the users of both accepted, each in a window that named
    the other's true key, and both windows showed the same code.  Each computer hears a beginning of
    what the other said, and the handshake proved the keys. *)
Theorem pairing_needs_both_users `{Hashing} (debug debug' : Frame -> string)
    (user user' : PairingConfirmationInput -> confirmation) (x : dialler) (a : Attempt)
    (config : AppConfig) (key : string) (show_addr : Z -> string) (peer : IncomingPeer) (env : SetUp)
    (a' : Attempt) (n : Node) :
  let s := dialler_side debug user x a in
  let s' := listener_side debug' user' config key show_addr peer env a' n in
  said a = [] -> said a' = [] -> connected_sides s s' -> side_saved s \/ side_saved s' ->
  exists input input', user input = Answers true /\ user' input' = Answers true
    /\ verification_code input = verification_code input'
    /\ conf_peer_fingerprint input = key /\ conf_peer_fingerprint input' = side_key s.
Proof.
  intros s s' Ha Ha' Hc Hs.
  assert (ConfirmingSide s') as Hl by by apply listener_confirms.
  assert (ConfirmingSide s /\ side_user s = user) as [Hx Hu].
  { clear Hc Hs. subst s. destruct x; (split; [|done]); [by apply windows_confirms|by apply linux_confirms]. }
  destruct (pairing_needs_both_sides s s' Hc Hs) as (i & i' & H1 & H2). exists i, i'.
  by rewrite Hu in H1.
Qed.

(** *** An instance: a new Windows computer and a new Linux one pair *)

Import SampleHash.
Definition sample_debug (frame : Frame) : string := "frame".
(** A user who accepts whatever the window shows. *)
Definition agreeable (input : PairingConfirmationInput) : confirmation := Answers true.
Definition sample_network (key : string) : Network :=
  {| tcp_takes := 0; tcp := Ok "192.168.0.11:42420"; socket_error := None; noise_takes := 0;
     noise := Ok key |}.
Definition sample_screens : ScreenInfo := {| outputs := []; primary_output := "" |}.
Definition sample_windows_dial : WindowsDial :=
  {| wd_config := controller_default; wd_fingerprint := "aa"; wd_pairing_armed := true;
     wd_session_paused := false; wd_network := sample_network "bb"; wd_role_error := None;
     wd_config_error := None; wd_screen := sample_screens |}.
Definition sample_receiver : Receiver :=
  {| phones := PhoneSessions_new {| local_device_name := "Lua"; local_role := Role_Receiver;
                                    local_fingerprint := "bb" |} 42420 None;
     pins := {| pin_peers := ∅; pin_phones := ∅ |}; disk := {| pin_peers := ∅; pin_phones := ∅ |} |}.
Definition sample_node : Node := start_node receiver_default "bb" sample_receiver false 0 false false.
Definition sample_incoming : IncomingPeer :=
  {| addr := 7; Acceptor.fingerprint := "aa"; hello := windows_hello controller_default "aa" |}.
Definition sample_set_up : SetUp :=
  {| su_pins_error := None; su_screen := Ok sample_screens; su_audio_socket := Ok tt |}.
Definition at_once (frames : list Frame) : list Arrival :=
  (fun frame => {| wait := 0; arrived := Ok frame |}) <$> frames.
Definition fresh_attempt (frames already : list Frame) : Attempt :=
  {| arrivals := at_once frames; write_errors := []; heard := already; said := []; elapsed := 0;
     prompts := []; pairing_consumed := false; role_file := Ok None; config_file := Ok controller_default |}.
Definition sample_windows_line : Attempt :=
  fresh_attempt [Frame_Hello (linux_hello receiver_default "bb"); Frame_Pairing (Pairing_Status false true);
                 ACCEPT; Frame_ScreenInfo sample_screens] [].
Definition sample_linux_line : Attempt :=
  fresh_attempt [Frame_Pairing (Pairing_Status false true); ACCEPT]
    [Frame_Hello (windows_hello controller_default "aa")].
Definition sample_windows_side : side :=
  dialler_side sample_debug agreeable (Windows_dials sample_windows_dial) sample_windows_line.
Definition sample_listener_side : side :=
  listener_side sample_debug agreeable receiver_default "bb" (fun _ => "192.168.0.12:50000") sample_incoming
    sample_set_up sample_linux_line sample_node.

Lemma pairing_needs_both_users_witness :
  exists input input', agreeable input = Answers true /\ agreeable input' = Answers true
    /\ verification_code input = verification_code input'
    /\ conf_peer_fingerprint input = "bb" /\ conf_peer_fingerprint input' = side_key sample_windows_side.
Proof.
  refine (pairing_needs_both_users sample_debug sample_debug agreeable agreeable
    (Windows_dials sample_windows_dial) sample_windows_line receiver_default "bb"
    (fun _ => "192.168.0.12:50000") sample_incoming sample_set_up sample_linux_line sample_node
    eq_refl eq_refl _ _).
  - split; [eexists; vm_compute; reflexivity|eexists; vm_compute; reflexivity|
            vm_compute; reflexivity|vm_compute; reflexivity].
  - left. vm_compute. discriminate.
Defined.
