(* ===== verification/PairingProgress.v ===== *)
(** * Pairing gets there, and in time

    Two computers that can reach each other and whose users accept do pair, each saving the
    other's key; no step of a Linux computer waits longer than its limits say, whatever the peer
    does; and what fails on Windows changes nothing and is shown.  The last theorem is about a
    defect: the Windows computer can wait forever for the first frames of a session. *)
From S2P Require Import Acceptor.
From S2P Require Import WindowsSession.
From S2P Require Export PairingSafety.
#[local] Open Scope string_scope.
#[local] Open Scope Z_scope.
#[local] Open Scope list_scope.

(** ** How long a conversation lasts *)

(** A computation takes at most [d] by the clock of its state and does not hang. *)
Definition takes {S E A} (clock : S -> Duration) (hang : E) (d : Duration) (m : stateful S E A) : Prop :=
  forall s, clock (m s).1 <= clock s + d /\ (m s).2 <> Err hang.

Section Takes.
Context {S E : Type} (clock : S -> Duration) (hang : E).
Lemma takes_bind {A B} d1 d (m : stateful S E A) (k : A -> stateful S E B) :
  takes clock hang d1 m -> d1 <= d -> (forall x, takes clock hang (d - d1) (k x)) ->
  takes clock hang d (st_bind m k).
Proof.
  intros Hm Hd Hk s. unfold st_bind. specialize (Hm s). destruct (m s) as [s1 [x|e]]; cbn in *.
  - specialize (Hk x s1). destruct (k x s1) as [s2 r]; cbn in *. split; [lia|apply Hk].
  - split; [lia|]. intros [= ->]. by destruct Hm as [_ Hm].
Qed.
Lemma takes_ret {A} d (x : A) : 0 <= d -> takes clock hang d (st_ret x).
Proof. intros Hd s. cbn. split; [lia|done]. Qed.
Lemma takes_get d : 0 <= d -> takes clock hang d st_get.
Proof. intros Hd s. cbn. split; [lia|done]. Qed.
Lemma takes_fail {A} d e : 0 <= d -> e <> hang -> takes clock hang d (st_fail e : stateful S E A).
Proof. intros Hd He s. cbn. split; [lia|]. by intros [= ->]. Qed.
End Takes.

Abbreviation within_time := (takes elapsed Hangs).

Lemma await_time {A} (pick : Frame -> option (result A chain)) deadline incoming : forall a,
  let r := await_in pick (Some deadline) incoming a in
  elapsed r.1 <= Z.max (elapsed a) deadline /\ r.2 <> Err Hangs.
Proof.
  induction incoming as [|next rest IH]; intros a; cbn [await_in is_some_and].
  - cbn. split; [lia|done].
  - destruct (Z.ltb_spec deadline (elapsed a + wait next)); [cbn; split; [lia|done]|].
    destruct (arrived next) as [frame|e]; [|cbn; split; [lia|done]].
    destruct (pick frame) as [[x|e]|]; [cbn; split; [lia|done]..|].
    destruct (IH (set_heard (heard (set_elapsed (elapsed a + wait next) (set_arrivals rest a)) ++ [frame])
      (set_elapsed (elapsed a + wait next) (set_arrivals rest a)))) as [H1 H2].
    split; [|done]. etrans; [exact H1|]. cbn. lia.
Qed.
Lemma await_for_time {A} d limit (pick : Frame -> option (result A chain)) : 0 <= limit <= d ->
  within_time d (await_for limit pick).
Proof.
  intros Hd a. destruct (await_time pick (elapsed a + limit) (arrivals a) a) as [H1 H2].
  split; [|done]. unfold await_for. lia.
Qed.
Lemma bail_time {A} d m : 0 <= d -> within_time d (bail m : conversing A).
Proof. intros Hd. by apply takes_fail. Qed.
Lemma context_time {A} d m (k : conversing A) : within_time d k -> within_time d (context m k).
Proof.
  intros Hk a. specialize (Hk a). unfold context. destruct (k a) as [a' [x|[e|]]]; cbn in *; [done| |done].
  by destruct Hk.
Qed.
Lemma or_timeout_time {A} d m (r : option A) : 0 <= d -> within_time d (or_timeout m r).
Proof. intros Hd a. destruct r; cbn; (split; [lia|done]). Qed.
Lemma of_call_time {A} d (r : result A chain) : 0 <= d -> within_time d (of_call r).
Proof. intros Hd a. destruct r; cbn; (split; [lia|done]). Qed.
Lemma timed_time {A} d limit t (r : result A chain) : 0 <= limit <= d -> within_time d (timed limit t r).
Proof. intros Hd a. cbn. split; [lia|done]. Qed.
Lemma write_time d frame : 0 <= d -> within_time d (write_secure_frame frame).
Proof.
  intros Hd a. unfold write_secure_frame. cbn. destruct (write_errors a) as [|[e|] rest]; cbn; (split; [lia|done]).
Qed.
Lemma attempt_time {A} d (m : conversing A) : within_time d m -> within_time d (attempt m : conversing (result A ending)).
Proof. intros Hm a. split; [apply Hm|done]. Qed.
Lemma role_write_time d e role : 0 <= d -> within_time d (role_write e role).
Proof. intros Hd a. destruct e; cbn; (split; [lia|done]). Qed.

Create HintDb time discriminated.
#[local] Hint Resolve await_for_time bail_time context_time or_timeout_time of_call_time timed_time
  write_time attempt_time role_write_time takes_ret takes_get : time.
#[local] Hint Extern 3 (_ <= _) => (unfold from_secs in *; lia) : time.
#[local] Hint Extern 3 (_ <= _ <= _) => (unfold from_secs in *; lia) : time.
#[local] Hint Extern 3 (within_time _ (st_fail _)) => (apply takes_fail; [unfold from_secs in *; lia|discriminate]) : time.

(** Follows a conversation; [d] is what its next step takes. *)
Ltac next_takes d := apply (takes_bind _ _ d); [auto with time|unfold from_secs in *; lia|intros ?].
Ltac branch_takes := match goal with
  | |- takes _ _ _ (match ?x with _ => _ end) => destruct x
  | |- takes _ _ _ (if ?x then _ else _) => destruct x
  end.

Section Bounds.
Context `{Hashing}.
Context (debug : Frame -> string) (confirm : PairingConfirmationInput -> confirmation).

Lemma read_status_time who : within_time (from_secs 15) (read_pairing_status debug who).
Proof. unfold read_pairing_status. next_takes (from_secs 15). repeat branch_takes; auto with time. Qed.
Lemma read_decision_time who : within_time (from_secs 120) (read_pairing_decision debug who).
Proof. unfold read_pairing_decision. next_takes (from_secs 120). repeat branch_takes; auto with time. Qed.
Lemma peer_screen_time : within_time (from_secs 15) read_initial_peer_screen.
Proof. unfold read_initial_peer_screen. next_takes (from_secs 15). auto with time. Qed.
Lemma show_time d input : 0 <= d -> within_time d (show_confirmation input).
Proof. intros Hd a. cbn. split; [lia|done]. Qed.
Lemma ask_time d m input : 0 <= d -> within_time d (ask_user confirm m input).
Proof.
  intros Hd. unfold ask_user. apply (takes_bind _ _ 0); [apply show_time; lia|lia|intros ?].
  branch_takes; auto with time.
Qed.
Lemma choose_time l p c x y e pos z : within_time 0 (choose_controller l p c x y e pos z).
Proof.
  unfold choose_controller. next_takes 0. next_takes 0; [|auto with time].
  branch_takes; [auto with time|]. next_takes 0. auto with time.
Qed.
#[local] Hint Resolve read_status_time read_decision_time peer_screen_time ask_time choose_time : time.

Lemma dial_linux_time d : within_time (from_secs 20) (dial_linux d).
Proof.
  unfold dial_linux. next_takes (from_secs 5). next_takes 0. next_takes 0. next_takes 0; [|].
  { destruct (socket_error _); auto with time. }
  next_takes (from_secs 15). next_takes 0. next_takes 0. auto with time.
Qed.
Lemma pair_linux_time d hello peer : within_time (from_secs 135) (pair_linux debug confirm d hello peer).
Proof.
  unfold pair_linux. branch_takes; [|branch_takes; auto with time].
  next_takes 0. next_takes (from_secs 15). branch_takes. repeat branch_takes; auto with time.
  - next_takes 0. auto with time.
  - next_takes 0. next_takes 0. next_takes (from_secs 120); [|branch_takes; auto with time].
    branch_takes; auto with time.
Qed.
Lemma connect_linux_time d : within_time (from_secs 185) (connect_linux_peer debug confirm d).
Proof.
  unfold connect_linux_peer. apply (takes_bind _ _ (from_secs 20)); [apply dial_linux_time|unfold from_secs; lia|].
  intros [addr key]. next_takes 0. next_takes (from_secs 15). next_takes 0. next_takes 0.
  apply (takes_bind _ _ (from_secs 135)); [apply pair_linux_time|unfold from_secs; lia|intros ?].
  next_takes 0. next_takes 0. next_takes 0.
  { branch_takes; [next_takes 0|]; auto with time. }
  next_takes (from_secs 15). auto with time.
Qed.
End Bounds.

Section ListenerBound.
Context `{Hashing}.
Context (debug : Frame -> string) (confirm : PairingConfirmationInput -> confirmation).
Context (config : AppConfig) (local_key : string) (show_addr : Z -> string) (peer : IncomingPeer).

Abbreviation setting_up_within := (takes (fun s : Attempt * Node => elapsed s.1) Awaits).

Lemma converse_time {A} d (m : conversing A) : within_time d m -> setting_up_within d (converse m).
Proof.
  intros Hm s. specialize (Hm s.1). unfold converse. destruct (m s.1) as [a [x|[e|]]]; cbn in *;
    destruct Hm; (split; [done|]); done.
Qed.
Lemma at_node_time d f : 0 <= d -> setting_up_within d (at_node f).
Proof. intros Hd s. cbn. split; [lia|done]. Qed.
Lemma the_node_time d : 0 <= d -> setting_up_within d the_node.
Proof. intros Hd s. cbn. split; [lia|done]. Qed.
Lemma write_or_skip_time d frame : 0 <= d -> setting_up_within d (write_or_skip frame).
Proof.
  intros Hd. unfold write_or_skip. apply (takes_bind _ _ 0); [apply converse_time, write_time; lia|lia|].
  intros [?|?]; [apply takes_ret; lia|apply takes_fail; [lia|done]].
Qed.
Lemma reject_pairing_time d code message : 0 <= d -> setting_up_within d (reject_pairing code message).
Proof.
  intros Hd. unfold reject_pairing. apply (takes_bind _ _ 0); [apply converse_time, write_time; lia|lia|].
  intros. apply takes_ret. lia.
Qed.
#[local] Hint Resolve at_node_time the_node_time write_or_skip_time reject_pairing_time takes_ret : time.
#[local] Hint Extern 3 (takes _ _ _ (st_fail _)) =>
  (apply takes_fail; [unfold from_secs in *; lia|discriminate]) : time.
#[local] Hint Extern 3 (_ <= _) => (unfold from_secs in *; lia) : time.

Lemma confirm_pairing_time e status :
  setting_up_within (from_secs 120) (confirm_pairing debug confirm local_key show_addr e peer status).
Proof.
  unfold confirm_pairing. apply (takes_bind _ _ 0); [apply converse_time, show_time; lia|unfold from_secs; lia|intros ?].
  next_takes 0. apply (takes_bind _ _ (from_secs 120)); [|unfold from_secs; lia|].
  { branch_takes; [|auto with time].
    apply (takes_bind _ _ (from_secs 120)); [apply converse_time, read_decision_time|lia|].
    intros. auto with time. }
  intros ?. next_takes 0. branch_takes.
  - next_takes 0. auto with time.
  - intros [line n]. unfold pin_computer. cbn. destruct e; cbn; (split; [lia|done]).
Qed.
Lemma pair_accepted_time e :
  setting_up_within (from_secs 135) (pair_accepted debug confirm config local_key show_addr e peer).
Proof.
  unfold pair_accepted. next_takes 0. next_takes 0. branch_takes.
  - next_takes 0. apply (takes_bind _ _ (from_secs 15));
      [apply converse_time, read_status_time|unfold from_secs; lia|].
    intros [[trusted armed]|e']; [|next_takes 0; auto with time].
    branch_takes; [|auto with time]. branch_takes.
    + next_takes 0. next_takes 0. auto with time.
    + intros s. destruct (confirm_pairing_time e
        (pin_status (pins (n_receiver x)) (device_name (hello peer)) (Acceptor.fingerprint peer)) s) as [? ?].
      split; [unfold from_secs in *; lia|done].
  - branch_takes; [|auto with time]. next_takes 0. next_takes 0. auto with time.
Qed.
Lemma set_up_time env :
  setting_up_within (from_secs 135) (set_up_computer debug confirm config local_key show_addr env peer).
Proof.
  unfold set_up_computer. next_takes 0.
  next_takes 0; [|]. { branch_takes; [|next_takes 0]; auto with time. }
  next_takes 0; [|]. { branch_takes; [next_takes 0|]; auto with time. }
  apply (takes_bind _ _ (from_secs 135)); [apply pair_accepted_time|unfold from_secs; lia|intros ?].
  next_takes 0. next_takes 0. next_takes 0.
  { branch_takes; [next_takes 0|]; auto with time. }
  next_takes 0. { branch_takes; auto with time. } auto with time.
Qed.
End ListenerBound.

(** C27. Connecting ends in time: whatever the other computer sends, or does not, a Linux computer that
    dials has spent at most 185 seconds on the peer when it is connected or has failed, and one that
    is dialled at most 135 seconds when its loop goes on; the time in which the own user looks at
    the window is not counted.  Neither ever waits without a limit. *)
Theorem connecting_is_bounded `{Hashing} (debug : Frame -> string)
    (user : PairingConfirmationInput -> confirmation) (d : LinuxDial) (a : Attempt)
    (config : AppConfig) (key : string) (show_addr : Z -> string) (peer : IncomingPeer) (env : SetUp)
    (n : Node) :
  let dial := connect_linux_peer debug user d a in
  let accept := set_up_computer debug user config key show_addr env peer (a, n) in
  elapsed dial.1 <= elapsed a + from_secs 185 /\ dial.2 <> Err Hangs
  /\ elapsed accept.1.1 <= elapsed a + from_secs 135 /\ accept.2 <> Err Awaits.
Proof.
  intros dial accept. destruct (connect_linux_time debug user d a) as [? ?].
  destruct (set_up_time debug user config key show_addr peer env (a, n)) as [? ?]. by split_and!.
Qed.

(** ** What the Windows computer waits for *)

Import SampleHash.
(** A peer that trusts this computer, says hello and then nothing. *)
Definition silent_line : Attempt :=
  fresh_attempt [Frame_Hello (linux_hello receiver_default "bb");
                 Frame_Pairing (Pairing_Status true false)] [].
Definition paired_windows_dial : WindowsDial :=
  {| wd_config := pin_in_config "bb" controller_default; wd_fingerprint := "aa";
     wd_pairing_armed := false; wd_session_paused := false; wd_network := sample_network "bb";
     wd_role_error := None; wd_config_error := None; wd_screen := sample_screens |}.

(** A defect: the first frames of a session are awaited without a limit on Windows.  A peer that
    proved the saved key, trusts this computer and then falls silent keeps the attempt from ever
    ending, and with it the loop that takes the tray's commands; the Linux computer gives up the
    same wait after fifteen seconds. *)
Theorem windows_waits_forever (user : PairingConfirmationInput -> confirmation) :
  (connect_for_tray sample_debug user paired_windows_dial silent_line).2 = None
  /\ (read_initial_peer_screen (set_arrivals [] silent_line)).2
     = Err (Bails ["timed out waiting for peer screen info"; "deadline has elapsed"]).
Proof. split; vm_compute; reflexivity. Qed.

(** ** Two computers whose users accept pair *)

Lemma bind_runs {S E A B} (m : stateful S E A) (k : A -> stateful S E B) s s1 x r :
  m s = (s1, Ok x) -> k x s1 = r -> st_bind m k s = r.
Proof. unfold st_bind. by intros ->. Qed.

(** What a step does when nothing stands in its way, on a conversation given field by field. *)
Abbreviation talk ar he sa el pr pc rf cf :=
  {| arrivals := ar; write_errors := []; heard := he; said := sa; elapsed := el;
     prompts := pr; pairing_consumed := pc; role_file := rf; config_file := cf |}.
Abbreviation now_comes frame rest := ({| wait := 0; arrived := Ok frame |} :: rest).

Section Runs.
Context (ar : list Arrival) (he sa : list Frame) (el : Duration) (pr : list PairingConfirmationInput) (pc : bool)
  (rf : file_of (option CommittedRole)) (cf : file_of AppConfig).

Lemma write_runs frame :
  write_secure_frame frame (talk ar he sa el pr pc rf cf) = (talk ar he (sa ++ [frame]) el pr pc rf cf, Ok tt).
Proof. reflexivity. Qed.
Lemma await_runs {A} limit (pick : Frame -> option (result A chain)) frame x : 0 <= limit ->
  pick frame = Some (Ok x) ->
  await_for limit pick (talk (now_comes frame ar) he sa el pr pc rf cf)
  = (talk ar (he ++ [frame]) sa (el + 0) pr pc rf cf, Ok (Some x)).
Proof.
  intros Hl Hp. unfold await_for. cbn [await_in is_some_and wait arrived arrivals elapsed].
  destruct (Z.ltb_spec (el + limit) (el + 0)); [lia|]. by rewrite Hp.
Qed.
Lemma timed_runs {A} limit t (r : result A chain) : t <= limit ->
  timed limit t r (talk ar he sa el pr pc rf cf)
  = (talk ar he sa (el + Z.max 0 (Z.min limit t)) pr pc rf cf, Ok (Some r)).
Proof. intros Ht. unfold timed. by rewrite (proj2 (Z.leb_le _ _) Ht). Qed.
Lemma read_status_runs debug who trusted armed :
  read_pairing_status debug who
    (talk (now_comes (Frame_Pairing (Pairing_Status trusted armed)) ar) he sa el pr pc rf cf)
  = (talk ar (he ++ [Frame_Pairing (Pairing_Status trusted armed)]) sa (el + 0) pr pc rf cf,
     Ok (trusted, armed)).
Proof. eapply bind_runs. { unfold context. by erewrite await_runs by done. } reflexivity. Qed.
Lemma read_decision_runs debug who accepted :
  read_pairing_decision debug who
    (talk (now_comes (Frame_Pairing (Pairing_Decision accepted)) ar) he sa el pr pc rf cf)
  = (talk ar (he ++ [Frame_Pairing (Pairing_Decision accepted)]) sa (el + 0) pr pc rf cf, Ok accepted).
Proof. eapply bind_runs. { unfold context. by erewrite await_runs by done. } reflexivity. Qed.
Lemma consumed_runs :
  ((fun a => (set_pairing_consumed true a, Ok tt)) : conversing unit) (talk ar he sa el pr pc rf cf)
  = (talk ar he sa el pr true rf cf, Ok tt).
Proof. reflexivity. Qed.
Lemma ask_runs confirm what input accepted : confirm input = Answers accepted ->
  ask_user confirm what input (talk ar he sa el pr pc rf cf)
  = (talk ar he sa el (pr ++ [input]) pc rf cf, Ok accepted).
Proof. intros Hu. unfold ask_user, st_bind, show_confirmation. by rewrite Hu. Qed.
Lemma save_config_runs c :
  save_config None c (talk ar he sa el pr pc rf cf) = (talk ar he sa el pr pc rf (Ok c), Ok tt).
Proof. reflexivity. Qed.
(** The file that the choice of the role leaves. *)
Lemma choose_runs local peer c x y pos paused :
  let role := initial_role_state (match rf with Ok role => role | Err _ => None end) local peer
                (bool_decide (preferred_role c = Role_Controller)) x y pos paused in
  choose_controller local peer c x y None pos paused (talk ar he sa el pr pc rf cf)
  = (talk ar he sa el pr pc (Ok (CommittedRole_new <$> controller_fingerprint role)) cf, Ok role).
Proof.
  intros role. unfold choose_controller, st_bind, st_get. cbn [role_file]. fold role.
  by destruct (controller_fingerprint role).
Qed.
Lemma initial_frames_runs fuel i screen :
  read_initial_frames (S fuel) i (talk (now_comes (Frame_ScreenInfo screen) ar) he sa el pr pc rf cf)
  = (talk ar (he ++ [Frame_ScreenInfo screen]) sa (el + 0) pr pc rf cf,
     Ok (set_initial_screen_info (Some screen) i)).
Proof. cbn [read_initial_frames]. eapply bind_runs; [reflexivity|]. reflexivity. Qed.

Lemma converse_runs {A} (m : conversing A) a n a' x : m a = (a', Ok x) ->
  converse m (a, n) = ((a', n), Ok (Ok x)).
Proof. intros E. unfold converse. cbn [fst snd]. by rewrite E. Qed.
Lemma write_or_skip_runs frame n :
  write_or_skip frame (talk ar he sa el pr pc rf cf, n)
  = ((talk ar he (sa ++ [frame]) el pr pc rf cf, n), Ok tt).
Proof. reflexivity. Qed.
End Runs.

Section Completion.
Context `{Hashing}.
Context (debug debug' : Frame -> string).
Context (d : WindowsDial) (config : AppConfig) (key : string) (show_addr : Z -> string).
Context (port : Z) (env : SetUp) (n : Node) (addr0 : string) (info : ScreenInfo).

(** The Linux computer sees the Windows one. *)
Definition windows_peer : IncomingPeer :=
  {| addr := port; Acceptor.fingerprint := wd_fingerprint d;
     hello := windows_hello (wd_config d) (wd_fingerprint d) |}.
#[local] Notation status := (pin_status (pins (n_receiver n)) (Config.device_name (wd_config d)) (wd_fingerprint d)).

(** Nothing stands in the way: the network works, files are saved, the two are armed, or on Linux
    never paired under this name, and the Linux computer does not trust the other yet. *)
Record nothing_in_the_way : Prop := {
  way_tcp : tcp_takes (wd_network d) <= from_secs 5;
  way_addr : tcp (wd_network d) = Ok addr0;
  way_socket : socket_error (wd_network d) = None;
  way_noise : noise_takes (wd_network d) <= from_secs 15;
  way_key : noise (wd_network d) = Ok key;
  way_armed : wd_pairing_armed d = true;
  way_armed' : n_pairing_armed n || match status with Unknown => true | _ => false end = true;
  way_untrusted : is_trusted status = false;
  way_role : wd_role_error d = None;
  way_config : wd_config_error d = None;
  way_pins : su_pins_error env = None;
  way_screen : su_screen env = Ok info;
  way_audio : su_audio_socket env = Ok tt;
  way_enabled : n_connection_enabled n = true;
  way_phone : is_phone_key (pins (n_receiver n)) (wd_fingerprint d) = false;
}.

Definition windows_line_of (file : file_of AppConfig) (stored : file_of (option CommittedRole)) : Attempt :=
  {| arrivals := at_once [Frame_Hello (linux_hello config key);
                          Frame_Pairing (Pairing_Status false true); ACCEPT; Frame_ScreenInfo info];
     write_errors := []; heard := []; said := []; elapsed := 0; prompts := []; pairing_consumed := false;
     role_file := stored; config_file := file |}.
Definition trusts_windows : bool :=
  let pinned := pinned_fingerprint (cfg_peer (wd_config d)) in
  negb (str_is_empty pinned) && str_eqb pinned key.
Definition linux_line_of (trusted : bool) : Attempt :=
  fresh_attempt [Frame_Pairing (Pairing_Status trusted true); ACCEPT] [Frame_Hello (hello windows_peer)].


(** What the Linux computer says to it. *)
Lemma listener_completes (trusted : bool) (user : PairingConfirmationInput -> confirmation)
    (Hway : nothing_in_the_way)
    (Hu : user (accepted_confirmation key show_addr windows_peer status) = Answers true) :
  exists s session,
    set_up_computer debug user config key show_addr env windows_peer (linux_line_of trusted, n)
    = (s, Ok session)
    /\ said s.1 = [Frame_Hello (linux_hello config key); Frame_Pairing (Pairing_Status false true);
                   ACCEPT; Frame_ScreenInfo info]
    /\ heard s.1 = [Frame_Hello (hello windows_peer); Frame_Pairing (Pairing_Status trusted true); ACCEPT]
    /\ pins (n_receiver s.2) = pin (Config.device_name (wd_config d)) (wd_fingerprint d) (pins (n_receiver n))
    /\ disk (n_receiver s.2) = pins (n_receiver s.2).
Proof.
  destruct Hway. unfold linux_line_of, fresh_attempt, at_once. cbn [fmap list_fmap].
  do 2 eexists. split.
  { unfold set_up_computer.
    eapply bind_runs; [reflexivity|]. cbn [fst snd]. rewrite way_enabled0.
    eapply bind_runs; [reflexivity|]. cbn [windows_peer Acceptor.fingerprint hello]. rewrite way_phone0.
    eapply bind_runs; [reflexivity|].
    eapply bind_runs.
    { unfold pair_accepted. eapply bind_runs; [reflexivity|]. cbn [snd].
      change (device_name (hello windows_peer)) with (Config.device_name (wd_config d)).
      change (Acceptor.fingerprint windows_peer) with (wd_fingerprint d).
      rewrite way_armed'0, way_untrusted0.
      eapply bind_runs; [apply write_or_skip_runs|].
      change (has_extension (hello windows_peer) PAIRING_CONFIRMATION_EXTENSION) with true. cbv iota.
      eapply bind_runs; [apply write_or_skip_runs|].
      eapply bind_runs; [apply converse_runs, read_status_runs|]. cbv beta iota.
      cbn [negb orb]. unfold confirm_pairing. rewrite way_pins0.
      replace (user_accepts _ _) with true by (unfold user_accepts; by rewrite Hu).
      eapply bind_runs; [reflexivity|]. cbv beta.
      eapply bind_runs; [apply write_or_skip_runs|]. cbv beta iota.
      eapply bind_runs.
      { eapply bind_runs; [apply converse_runs, read_decision_runs|]. reflexivity. }
      eapply bind_runs; [reflexivity|]. reflexivity. }
    eapply bind_runs; [reflexivity|]. eapply bind_runs; [reflexivity|].
    rewrite way_screen0, way_audio0.
    eapply bind_runs. { eapply bind_runs; [apply write_or_skip_runs|]. reflexivity. }
    eapply bind_runs; [reflexivity|]. reflexivity. }
  repeat split.
Qed.

(** The role the session starts with, from what is stored. *)
Definition windows_role (stored : file_of (option CommittedRole)) : RoleState :=
  initial_role_state (match stored with Ok role => role | Err _ => None end) (wd_fingerprint d) key
    (bool_decide (preferred_role (wd_config d) = Role_Controller)) true true
    (peer_position_to_edge (Config.listener_position (cfg_layout (wd_config d)))) (wd_session_paused d).
(** What the Windows computer says to it. *)
Lemma windows_completes (file : file_of AppConfig) (stored : file_of (option CommittedRole))
    (user : PairingConfirmationInput -> confirmation) (Hway : nothing_in_the_way)
    (Hu : forall input, user input = Answers true) :
  exists a c initial,
    connect_and_initialize debug user d (windows_line_of file stored) = (a, Ok (c, initial))
    /\ said a = [Frame_Hello (hello windows_peer);
                 Frame_Pairing (Pairing_Status trusts_windows true); ACCEPT;
                 Frame_Role (SessionState (windows_role stored)); Frame_ScreenInfo (wd_screen d)]
    /\ heard a = [Frame_Hello (linux_hello config key); Frame_Pairing (Pairing_Status false true);
                  ACCEPT; Frame_ScreenInfo info]
    /\ config_file a = Ok (pin_in_config key (match file with Ok c => c | Err _ => wd_config d end))
    /\ cc_peer_fingerprint c = key /\ cc_peer_trusted c = true
    /\ initial_screen_info initial = Some info.
Proof.
  destruct Hway. unfold windows_line_of, at_once. cbn [fmap list_fmap]. do 3 eexists. split.
  { unfold connect_and_initialize. eapply bind_runs.
    { unfold connect_session. rewrite way_addr0, way_socket0, way_key0, way_armed0. cbn [negb].
      eapply bind_runs; [by apply timed_runs|]. eapply bind_runs; [reflexivity|].
      eapply bind_runs; [reflexivity|]. eapply bind_runs; [reflexivity|].
      eapply bind_runs; [by apply timed_runs|]. eapply bind_runs; [reflexivity|].
      eapply bind_runs; [reflexivity|]. rewrite andb_false_r. eapply bind_runs; [reflexivity|].
      eapply bind_runs; [apply write_runs|]. reflexivity. }
    eapply bind_runs; [by apply await_runs|]. eapply bind_runs; [reflexivity|]. cbn [cc_peer_fingerprint].
    unfold validate_receiver_hello. change (protocol_version (linux_hello config key) =? _) with true.
    change (public_key_fingerprint (linux_hello config key)) with key. rewrite str_eqb_refl.
    eapply bind_runs; [reflexivity|].
    eapply bind_runs.
    { unfold pair_windows. change (has_extension (linux_hello config key) PAIRING_CONFIRMATION_EXTENSION) with true.
      cbv iota. cbn [cc_peer_trusted cc_pairing_armed].
      eapply bind_runs; [apply write_runs|].
      eapply bind_runs; [apply read_status_runs|]. cbv beta iota. rewrite orb_true_r. cbn [negb orb].
      eapply bind_runs; [apply consumed_runs|].
      eapply bind_runs; [apply ask_runs, Hu|].
      eapply bind_runs; [apply write_runs|]. eapply bind_runs; [reflexivity|].
      eapply bind_runs; [apply read_decision_runs|]. eapply bind_runs; [reflexivity|].
      unfold save_peer_key. rewrite way_config0.
      eapply bind_runs. { eapply bind_runs; [reflexivity|]. apply save_config_runs. } reflexivity. }
    rewrite way_role0. eapply bind_runs; [apply choose_runs|].
    eapply bind_runs; [apply write_runs|]. eapply bind_runs; [apply write_runs|].
    eapply bind_runs; [reflexivity|]. eapply bind_runs; [apply initial_frames_runs|]. reflexivity. }
  repeat split.
Qed.
End Completion.

(** C15. Pairing gets there: a new or a reset Windows computer and a Linux one that can reach each other
    and whose users both accept do pair.  There is a conversation of the two in which the
    Windows computer connects, trusts the Linux one and has its key saved, and the Linux computer
    starts the session with the Windows key pinned under its name, in memory and on disk. *)
Theorem new_computers_pair `{Hashing} (debug debug' : Frame -> string)
    (user user' : PairingConfirmationInput -> confirmation) (d : WindowsDial) (config : AppConfig)
    (key : string) (show_addr : Z -> string) (port : Z) (env : SetUp) (n : Node) (addr0 : string)
    (info : ScreenInfo) (file : file_of AppConfig) (stored : file_of (option CommittedRole))
    (Hway : nothing_in_the_way d key env n addr0 info)
    (Hu : forall input, user input = Answers true) (Hu' : forall input, user' input = Answers true) :
  let peer := windows_peer d port in
  exists a a',
    connected_sides (dialler_side debug user (Windows_dials d) a)
                    (listener_side debug' user' config key show_addr peer env a' n)
    /\ (exists w c initial, connect_and_initialize debug user d a = (w, Ok (c, initial))
         /\ cc_peer_fingerprint c = key /\ cc_peer_trusted c = true
         /\ config_file w = Ok (pin_in_config key (match file with Ok c => c | Err _ => wd_config d end)))
    /\ (exists l session, set_up_computer debug' user' config key show_addr env peer (a', n) = (l, Ok session)
         /\ pins (n_receiver l.2)
            = pin (Config.device_name (wd_config d)) (wd_fingerprint d) (pins (n_receiver n))
         /\ disk (n_receiver l.2) = pins (n_receiver l.2)).
Proof.
  intros peer.
  exists (windows_line_of config key info file stored), (linux_line_of d port (trusts_windows d key)).
  destruct (windows_completes debug d config key port env n addr0 info file stored user Hway Hu)
    as (w & c & initial & E1 & E2 & E3 & E4 & E5 & E6 & _).
  destruct (listener_completes debug' d config key show_addr port env n addr0 info (trusts_windows d key)
    user' Hway (Hu' _)) as (l & session & F1 & F2 & F3 & F4 & F5).
  assert (proved_key (wd_network d) = key) as Ek by (unfold proved_key; by rewrite (way_key _ _ _ _ _ _ Hway)).
  split_and!.
  - unfold dialler_side, windows_side, listener_side. subst peer. rewrite E1, F1.
    split; cbn [side_heard side_said side_peer side_key fst]; [by rewrite E3, F2| |done..].
    rewrite F3, E2. by eexists.
  - by exists w, c, initial.
  - by exists l, session.
Qed.

Lemma new_computers_pair_witness :
  exists a a', connected_sides
    (dialler_side sample_debug agreeable (Windows_dials sample_windows_dial) a)
    (listener_side sample_debug agreeable receiver_default "bb" (fun _ => "192.168.0.12:50000")
       (windows_peer sample_windows_dial 7) sample_set_up a' sample_node).
Proof.
  destruct (new_computers_pair sample_debug sample_debug agreeable agreeable sample_windows_dial
    receiver_default "bb" (fun _ => "192.168.0.12:50000") 7 sample_set_up sample_node
    "192.168.0.11:42420" sample_screens (Ok controller_default) (Ok None)) as (a & a' & Hc & _).
  - split; first [reflexivity|vm_compute; discriminate].
  - done.
  - done.
  - by exists a, a'.
Defined.

(** ** What a failed attempt leaves on Windows *)

Section Failures.
Context `{Hashing}.
Context (debug : Frame -> string) (confirm : PairingConfirmationInput -> confirmation).
Context (d : WindowsDial) (config0 : file_of AppConfig).

Lemma hoare_assoc {S E A B C} (P X : S -> Prop) (Q : C -> S -> Prop) (m : stateful S E A)
    (k : A -> stateful S E B) (l : B -> stateful S E C) :
  hoare P (st_bind (st_bind m k) l) Q X -> hoare P (st_bind m (fun a => st_bind (k a) l)) Q X.
Proof.
  intros Hm s Hs. specialize (Hm s Hs). revert Hm. unfold st_bind. by destruct (m s) as [s1 [a|e]].
Qed.

(** What a step keeps that neither asks the user nor saves the configuration. *)
Definition kept (a a' : Attempt) : Prop :=
  (exists fs, heard a' = heard a ++ fs) /\ prompts a' = prompts a
  /\ pairing_consumed a' = pairing_consumed a /\ config_file a' = config_file a.
Lemma quiet_kept a a' : quiet a a' -> kept a a'.
Proof. by intros [? _ ? ? ?]. Qed.
Lemma write_kept frame : within kept (write_secure_frame frame).
Proof.
  intros a. split; [exists []; by rewrite write_heard, app_nil_r|].
  split_and!; [apply write_prompts|apply write_consumed|apply write_config].
Qed.
Lemma kept_hoare {A} (F : Attempt -> Prop) (m : conversing A) :
  (forall a a', kept a a' -> F a -> F a') -> within kept m -> hoare F m (fun _ => F) F.
Proof. intros HF Hm a Ha. specialize (Hm a). destruct (m a) as [a' [x|e]]; cbn in *; eauto. Qed.
Lemma quiet_keeps {A} (m : conversing A) : within quiet m -> within kept m.
Proof. intros Hm a. apply quiet_kept, Hm. Qed.

(** The user was not asked and nothing is saved. *)
Definition unasked (a : Attempt) : Prop :=
  prompts a = [] /\ pairing_consumed a = false /\ config_file a = config0.
(** The window that opens: the code of this computer's key and the key the peer proved. *)
Definition shows_the_code (input : PairingConfirmationInput) : Prop :=
  conf_local_fingerprint input = wd_fingerprint d
  /\ conf_peer_fingerprint input = proved_key (wd_network d)
  /\ verification_code input = pairing_code (wd_fingerprint d) (proved_key (wd_network d)).
(** Both computers were armed. *)
Definition both_armed (a : Attempt) : Prop :=
  wd_pairing_armed d = true /\ exists trusted, Frame_Pairing (Pairing_Status trusted true) ∈ heard a.
(** The user was asked once, with both computers armed, and the pairing is used up. *)
Definition asked (input : PairingConfirmationInput) (a : Attempt) : Prop :=
  prompts a = [input] /\ shows_the_code input /\ pairing_consumed a = true /\ both_armed a.
(** At any time the user was not asked, or asked once, and what was saved was accepted. *)
Definition asked_rightly (a : Attempt) : Prop :=
  unasked a \/ exists input, asked input a /\ (config_file a <> config0 -> confirm input = Answers true).

Lemma kept_unasked a a' : kept a a' -> unasked a -> unasked a'.
Proof. intros (_ & E1 & E2 & E3) (? & ? & ?). unfold unasked. by rewrite E1, E2, E3. Qed.
Lemma kept_both_armed a a' : kept a a' -> both_armed a -> both_armed a'.
Proof.
  intros ((fs & E) & _) (Ha & trusted & Hin). split; [done|]. exists trusted. rewrite E, elem_of_app. by left.
Qed.
Lemma kept_asked input a a' : kept a a' -> asked input a -> asked input a'.
Proof.
  intros Hk (H1 & H2 & H3 & H4). pose proof (kept_both_armed _ _ Hk H4). destruct Hk as (_ & E1 & E2 & _).
  unfold asked. by rewrite E1, E2.
Qed.
Lemma kept_rightly a a' : kept a a' -> asked_rightly a -> asked_rightly a'.
Proof.
  intros Hk [Hu|(input & Hi & Hc)]; [left; by eapply kept_unasked|right]. exists input.
  split; [by eapply kept_asked|]. destruct Hk as (_ & _ & _ & ->). exact Hc.
Qed.

Lemma read_status_unasked who :
  hoare unasked (read_pairing_status debug who)
    (fun s a => unasked a /\ Frame_Pairing (Pairing_Status s.1 s.2) ∈ heard a) unasked.
Proof.
  intros a Ha. pose proof (kept_unasked _ _ (quiet_kept _ _ (read_status_quiet debug who a)) Ha) as Hq. revert Hq.
  unfold read_pairing_status, st_bind, context, await_for.
  pose proof (await_spec any_frame (Some (elapsed a + from_secs 15)) (arrivals a) a) as [_ Hs].
  destruct (await_in _ _ _ _) as [a1 [[frame|]|[e|]]]; cbn [fst snd] in *; try done.
  destruct Hs as (frame' & Hin & [= ->]).
  repeat case_match; cbn [bail st_fail st_ret fst snd]; try done.
  cbn in *. simplify_eq. intros Hq. by split.
Qed.

(** From the question on. *)
Lemma question_asked what input : shows_the_code input ->
  hoare (fun a => unasked a /\ both_armed a)
    (do! (fun a => (set_pairing_consumed true a, Ok tt));; ask_user confirm what input)
    (fun accepted a => asked input a /\ config_file a = config0 /\ (accepted = true -> confirm input = Answers true))
    asked_rightly.
Proof.
  intros Hi a [(E1 & E2 & E3) Ha]. unfold ask_user, st_bind, show_confirmation.
  cbn [fst snd prompts set_pairing_consumed set_prompts]. rewrite E1.
  assert (forall a', a' = set_prompts [input] (set_pairing_consumed true a) ->
    asked input a' /\ config_file a' = config0) as Hd by (intros a' ->; split; [by split_and!|done]).
  pose proof (Hd _ eq_refl) as [H1 H2].
  destruct (confirm input) as [b|e|e] eqn:Ec; cbn [app st_ret st_fail fst snd];
    [split_and!; [done|done|by intros ->]|right; by exists input..].
Qed.

Lemma pair_windows_asked c hello : cc_pairing_armed c = wd_pairing_armed d ->
  cc_peer_fingerprint c = proved_key (wd_network d) ->
  hoare unasked (pair_windows debug confirm d c hello) (fun _ => asked_rightly) asked_rightly.
Proof.
  intros Hc Hk.
  assert (forall a, unasked a -> asked_rightly a) as Hua by (by left).
  assert (forall A (m : conversing A), within kept m -> hoare unasked m (fun _ => unasked) asked_rightly) as HU
    by (intros A m Hm; eapply hoare_weaken; [apply (kept_hoare unasked m kept_unasked Hm)|auto..]).
  unfold pair_windows. destruct (has_extension _ _).
  2:{ destruct (negb _); (eapply hoare_weaken; [apply HU, quiet_keeps; quiet_steps|auto..]). }
  eapply hoare_bind; [apply HU, write_kept|intros ?].
  apply (hoare_bind _ (fun s a => unasked a /\ Frame_Pairing (Pairing_Status s.1 s.2) ∈ heard a));
    [eapply hoare_weaken; [apply read_status_unasked|auto..]|intros [trusted armed]].
  cbn [fst snd]. destruct (negb _ || negb _).
  2:{ apply hoare_ret. intros s [? _]. by left. }
  destruct (negb _ || negb _) eqn:Earmed.
  { eapply hoare_weaken; [apply HU, quiet_keeps; quiet_steps|by intros s [? ?]|auto..]. }
  apply orb_false_iff in Earmed as [Ea1 Ea2]. apply negb_false_iff in Ea1, Ea2.
  set (input := windows_confirmation d c hello).
  assert (shows_the_code input) as Hi by (by unfold input, windows_confirmation, shows_the_code; cbn; rewrite Hk).
  apply (hoare_weaken (fun a => unasked a /\ both_armed a) _ (fun _ => asked_rightly) _ asked_rightly _);
    [|intros s [Hs Hin]; split; [exact Hs|]; split; [by rewrite <- Hc|]; exists trusted; rewrite <- Ea2; exact Hin
     |done|done].
  apply hoare_assoc. eapply hoare_bind; [by apply question_asked|intros accepted].
  set (F := fun a => asked input a /\ config_file a = config0).
  assert (forall s, F s -> asked_rightly s) as HFr.
  { intros s0 [HF0 EF]. right. exists input. by split. }
  assert (forall A (m : conversing A), within kept m -> hoare F m (fun _ => F) asked_rightly) as HF.
  { intros A m Hm. eapply hoare_weaken; [apply (kept_hoare F m); [|done]|auto..].
    intros s1 s2 Hk' [H1 H2]. split; [by eapply kept_asked|]. destruct Hk' as (_ & _ & _ & E). by rewrite E. }
  intros s (Hs & Es & Hacc). revert s Es Hs.
  assert (hoare F (do! write_secure_frame (Frame_Pairing (Pairing_Decision accepted));;
    do! (if accepted then st_ret tt else bail "pairing was cancelled on this computer");;
    approved <-! win_read_pairing_decision debug;;
    do! (if approved then st_ret tt else bail "pairing was declined on the peer");;
    do! save_peer_key d (cc_peer_fingerprint c);; st_ret (set_cc_peer_trusted true c))
    (fun _ => asked_rightly) asked_rightly) as Hh; [|intros s Es Hs; by apply Hh].
  eapply hoare_bind; [apply HF, write_kept|intros ?].
  apply (hoare_bind _ (fun _ a => F a /\ accepted = true)).
  { destruct accepted; [by apply hoare_ret|]. apply hoare_fail. auto. }
  intros _. apply hoare_pure. intros Ht. specialize (Hacc Ht).
  eapply hoare_bind; [apply HF, quiet_keeps, read_decision_quiet|intros ?].
  eapply hoare_bind; [apply HF, quiet_keeps; quiet_steps|intros ?].
  apply (hoare_bind _ (fun _ => asked_rightly)); [|intros ?; by apply hoare_ret].
  intros s [H1 H2]. unfold save_peer_key, st_bind, st_get, save_config. cbn.
  destruct (wd_config_error d) as [[e left_over]|]; cbn; right; exists input; by split.
Qed.

Lemma connect_session_armed a a' c : connect_session d a = (a', Ok c) ->
  cc_pairing_armed c = wd_pairing_armed d.
Proof.
  unfold connect_session. intros E. unbind E s1 x1 E1. unbind E s2 x2 E2. unbind E s3 x3 E3.
  unbind E s4 x4 E4. unbind E s5 x5 E5. unbind E s6 x6 E6. unbind E s7 x7 E7. unbind E s8 x8 E8.
  unbind E s9 x9 E9. by injection E as <- <-.
Qed.

Lemma connect_windows_asked :
  hoare unasked (connect_and_initialize debug confirm d) (fun _ => asked_rightly) asked_rightly.
Proof.
  assert (forall A (m : conversing A), within quiet m -> hoare unasked m (fun _ => unasked) asked_rightly) as HU.
  { intros A m Hm. eapply hoare_weaken; [apply (kept_hoare unasked m kept_unasked), quiet_keeps, Hm|auto..].
    by left. }
  unfold connect_and_initialize. eapply hoare_bind.
  { apply (hoare_result _ _ (fun _ => unasked) (fun c => cc_pairing_armed c = wd_pairing_armed d
      /\ cc_peer_fingerprint c = proved_key (wd_network d))); [apply HU; quiet_steps|].
    intros s s' c E. split; [by eapply connect_session_armed|by eapply connect_session_key]. }
  intros c. apply hoare_pure. intros [Hc Hk].
  eapply hoare_bind; [apply HU; quiet_steps|intros ?].
  eapply hoare_bind; [apply HU; quiet_steps|intros hello].
  eapply hoare_bind; [apply HU; quiet_steps|intros ?].
  eapply hoare_bind; [by apply pair_windows_asked|intros c'].
  apply kept_hoare; [apply kept_rightly|]. apply quiet_keeps. quiet_steps.
Qed.
End Failures.

(** C10. A failed attempt leaves everything as it was unless the user was asked: however an attempt of
    the Windows computer fails, in the network, the handshake, the hellos, the pairing, the files
    or the first frames, either no confirmation window was opened, the configuration is what it was
    and the pairing is not used up; or exactly one was opened, for the code of the two keys, when
    pairing was armed here and the other computer had said that it was armed there, the pairing is
    used up whatever the user did, and the configuration is what it was unless the user accepted
    that code and this computer said and heard an acceptance. *)
Theorem failed_attempts_change_nothing `{Hashing} (debug : Frame -> string)
    (user : PairingConfirmationInput -> confirmation) (d : WindowsDial) (a a' : Attempt)
    (consumed : bool) (status : string) (Ha : said a = []) (Hp : prompts a = [])
    (Hr : connect_for_tray debug user d a = (a', Some (None, consumed, status))) :
  (prompts a' = [] /\ consumed = false /\ config_file a' = config_file a)
  \/ exists input, prompts a' = [input] /\ shows_the_code d input
     /\ wd_pairing_armed d = true
     /\ (exists trusted, Frame_Pairing (Pairing_Status trusted true) ∈ heard a')
     /\ consumed = true
     /\ (config_file a' <> config_file a ->
         user input = Answers true /\ ACCEPT ∈ said a' /\ ACCEPT ∈ heard a').
Proof.
  unfold connect_for_tray in Hr. set (a0 := set_pairing_consumed false a) in Hr.
  pose proof (windows_confirms debug user d a0 Ha) as [_ Hsaves].
  pose proof (connect_windows_asked debug user d (config_file a) a0) as Hasked.
  unfold windows_side in Hsaves. cbn in Hsaves.
  destruct (connect_and_initialize debug user d a0) as [a1 r] eqn:E. cbn [fst snd] in *.
  assert (asked_rightly user d (config_file a) a1) as Hrightly.
  { assert (unasked (config_file a) a0) as H0 by (by split_and!).
    specialize (Hasked H0). by destruct r. }
  destruct r as [[c initial]|[error|]]; try discriminate Hr. injection Hr as <- <- <-.
  destruct Hrightly as [?|(input & (H1 & H2 & H3 & H4 & H5) & H6)]; [by left|right].
  exists input. split_and!; [done..|]. intros Hc. split; [auto|by apply Hsaves].
Qed.

(** A peer that declines. *)
Definition declining_line : Attempt :=
  fresh_attempt [Frame_Hello (linux_hello receiver_default "bb"); Frame_Pairing (Pairing_Status false true);
                 Frame_Pairing (Pairing_Decision false)] [].
Lemma failed_attempts_change_nothing_witness :
  let r := connect_for_tray sample_debug agreeable sample_windows_dial declining_line in
  r.2 = Some (None, true, "Pairing required on both computers")
  /\ exists input, prompts r.1 = [input] /\ conf_peer_fingerprint input = "bb".
Proof.
  intros r. assert (r.2 = Some (None, true, "Pairing required on both computers")) as Hr
    by (vm_compute; reflexivity). split; [exact Hr|].
  destruct (failed_attempts_change_nothing sample_debug agreeable sample_windows_dial declining_line r.1 true
    "Pairing required on both computers" eq_refl eq_refl) as [(_ & E & _)|(input & E & (_ & Ek & _) & _)].
  - rewrite <- Hr. apply surjective_pairing.
  - discriminate E.
  - exists input. split; [exact E|exact Ek].
Defined.

(** ** Where the screens are *)

(** The screens line up whoever dials: after a session that one computer dialled, the configuration of
    the other says where the first sits as seen from it, so that when the other dials with what it
    loads, it announces the opposite edge, and the two saved layouts describe the same arrangement;
    a layout that is right is not written again, and nothing else of the file changes. *)
Theorem layouts_line_up (dialler accepter : AppConfig) :
  let announced := peer_position_to_edge (Config.listener_position (cfg_layout dialler)) in
  let loaded := default accepter (remember_peer_position (Ok accepter) announced) in
  peer_position_to_edge (Config.listener_position (cfg_layout loaded)) = opposite_edge announced
  /\ remember_peer_position (Ok loaded) announced = None
  /\ remember_peer_position (Ok dialler) (opposite_edge announced) = None
  /\ with_layout (Config.listener_position (cfg_layout accepter)) loaded = accepter.
Proof.
  cbn zeta. unfold remember_peer_position.
  destruct dialler as [? ? ? ? ? ? [p] ? ? ? ? ?], accepter as [? ? ? ? ? ? [q] ? ? ? ? ?]. cbn.
  destruct p, q; vm_compute; split_and!; reflexivity.
Qed.
