(* ===== verification/LinuxNodeSafety.v ===== *)
(** * What the receiver loop guarantees

    The invariant of the loop of [LinuxNode] over every run: it dials exactly when it should and
    never while the user has disconnected it, one session at a time, and the pins in memory are
    those on disk.  Two nodes that dial each other keep the same connection.  A computer's key is
    pinned only after the user accepted it.  The last theorems are about defects. *)
From S2P Require Import Acceptor.
From S2P Require Import Tray.
From S2P Require Export PairingSafety.
#[local] Open Scope string_scope.
#[local] Open Scope Z_scope.
#[local] Open Scope list_scope.

(** ** What setting up a computer leaves alone *)

(** The variables of the loop that a set-up does not write. *)
Record same_loop (n n' : Node) : Prop := {
  same_enabled : n_connection_enabled n' = n_connection_enabled n;
  same_dial_at : n_dial_at n' = n_dial_at n;
  same_dialing : n_dialing n' = n_dialing n;
  same_blocked : n_dial_blocked n' = n_dial_blocked n;
  same_replacement : n_replacement n' = n_replacement n;
  same_session : n_session n' = n_session n;
}.
#[export] Instance same_loop_preorder : PreOrder same_loop.
Proof.
  split; [by intros n; split|]. intros n1 n2 n3 [] []. split; congruence.
Qed.
Definition loop_kept (s s' : Attempt * Node) : Prop := same_loop s.2 s'.2.
#[export] Instance loop_kept_preorder : PreOrder loop_kept.
Proof. split; [by intros s; unfold loop_kept|]. intros s1 s2 s3. unfold loop_kept. by intros ->. Qed.

Create HintDb kept discriminated.
#[local] Hint Constants Opaque : kept.

Lemma converse_kept {A} (m : conversing A) : within loop_kept (converse m).
Proof. intros s. unfold converse, loop_kept. by destruct (m s.1) as [a [x|[e|]]]. Qed.
Lemma at_node_kept f : (forall n, same_loop n (f n)) -> within loop_kept (at_node f).
Proof. intros Hf s. apply Hf. Qed.
Lemma the_node_kept : within loop_kept the_node.
Proof. by intros s. Qed.
Lemma write_or_skip_kept frame : within loop_kept (write_or_skip frame).
Proof.
  unfold write_or_skip. apply within_bind; [apply _|apply converse_kept|]. intros [?|?]; within_step.
Qed.
Lemma reject_pairing_kept code message : within loop_kept (reject_pairing code message).
Proof. unfold reject_pairing. apply within_bind; [apply _|apply converse_kept|]. intros. within_step. Qed.
#[local] Hint Resolve converse_kept the_node_kept write_or_skip_kept reject_pairing_kept : kept.
#[local] Hint Extern 1 (within loop_kept (at_node _)) =>
  (apply at_node_kept; intros ?; repeat case_match; by split) : kept.
Ltac kept_steps := repeat (within_step || solve [auto with kept]).

Section SetUp.
Context `{Hashing}.
Context (debug : Frame -> string) (confirm : PairingConfirmationInput -> confirmation).
Context (config : AppConfig) (local_key : string) (show_addr : Z -> string) (peer : IncomingPeer).

Lemma confirm_pairing_kept e status :
  within loop_kept (confirm_pairing debug confirm local_key show_addr e peer status).
Proof.
  unfold confirm_pairing. kept_steps. intros [line n]. unfold pin_computer. cbn.
  destruct e; by split.
Qed.
Lemma pair_accepted_kept e :
  within loop_kept (pair_accepted debug confirm config local_key show_addr e peer).
Proof. unfold pair_accepted. kept_steps. apply confirm_pairing_kept. Qed.
Lemma set_up_kept env :
  within loop_kept (set_up_computer debug confirm config local_key show_addr env peer).
Proof.
  unfold set_up_computer. kept_steps; try apply pair_accepted_kept.
Qed.

(** A computer is set up only while connections are enabled. *)
Lemma set_up_enabled env a n s x :
  set_up_computer debug confirm config local_key show_addr env peer (a, n) = (s, Ok x) ->
  n_connection_enabled n = true.
Proof.
  unfold set_up_computer. intros E. unbind E s1 n1 E1. injection E1 as <- <-.
  unbind E s2 x2 E2. destruct (n_connection_enabled n); [done|]. discriminate E2.
Qed.

(** The pins in memory are on disk unless the node ends. *)
Definition saved_pins (n : Node) : Prop := pins (n_receiver n) = disk (n_receiver n).
Definition keeps_saved {A} (m : setting_up A) : Prop := forall s, saved_pins s.2 ->
  match (m s).2 with Err (Stops _) => True | _ => saved_pins (m s).1.2 end.

Lemma saved_bind {A B} (m : setting_up A) (k : A -> setting_up B) :
  keeps_saved m -> (forall x, keeps_saved (k x)) -> keeps_saved (st_bind m k).
Proof.
  intros Hm Hk s Hs. specialize (Hm s Hs). unfold st_bind. destruct (m s) as [s1 [x|e]]; cbn in *; [|done].
  by apply Hk.
Qed.
Lemma saved_quiet {A} (m : setting_up A) : within quiet_n m -> keeps_saved m.
Proof.
  intros Hm s Hs. destruct (Hm s) as [_ Hr]. unfold saved_pins in *. rewrite Hr. by repeat case_match.
Qed.
Lemma decision_saved b : keeps_saved (write_or_skip (Frame_Pairing (Pairing_Decision b))).
Proof.
  intros s Hs. unfold write_or_skip, st_bind, converse.
  by destruct (write_secure_frame _ s.1) as [a [x|[e|]]].
Qed.
Lemma confirm_pairing_saved e status :
  keeps_saved (confirm_pairing debug confirm local_key show_addr e peer status).
Proof.
  unfold confirm_pairing. apply saved_bind; [by intros s Hs|intros _].
  apply saved_bind; [apply decision_saved|intros ?].
  apply saved_bind; [apply saved_quiet; quiet_steps|intros b].
  apply saved_bind; [apply saved_quiet; quiet_steps|intros ?].
  destruct (negb _ || negb _); [apply saved_quiet; quiet_steps|].
  intros [line n] Hs. unfold pin_computer. by destruct e.
Qed.
Lemma pair_accepted_saved e :
  keeps_saved (pair_accepted debug confirm config local_key show_addr e peer).
Proof.
  unfold pair_accepted. apply saved_bind; [apply saved_quiet; quiet_steps|intros n].
  apply saved_bind; [apply saved_quiet; quiet_steps|intros ?].
  destruct (has_extension _ _); [|apply saved_quiet; quiet_steps].
  apply saved_bind; [apply saved_quiet; quiet_steps|intros ?].
  apply saved_bind; [apply saved_quiet; quiet_steps|intros [[trusted armed]|e']];
    [|apply saved_quiet; quiet_steps].
  destruct (negb _ || negb _); [|apply saved_quiet; quiet_steps].
  destruct (negb _ || negb _); [apply saved_quiet; quiet_steps|apply confirm_pairing_saved].
Qed.
Lemma set_up_saved env :
  keeps_saved (set_up_computer debug confirm config local_key show_addr env peer).
Proof.
  unfold set_up_computer. do 3 (apply saved_bind; [apply saved_quiet; quiet_steps|intros ?]).
  apply saved_bind; [apply pair_accepted_saved|intros ?]. apply saved_quiet. quiet_steps.
Qed.
End SetUp.

(** ** The invariant of the loop *)

(** A request of the phones keeps the computers' pins, and what is on disk. *)
Lemma request_pins env request r :
  (pins r = disk r -> pins (handle_request env request r).1 = disk (handle_request env request r).1)
  /\ pin_peers (pins (handle_request env request r).1) = pin_peers (pins r).
Proof.
  assert (forall name, (pins r = disk r -> pins (unpair env name r).1 = disk (unpair env name r).1)
            /\ pin_peers (pins (unpair env name r).1) = pin_peers (pins r)) as Hu.
  { intros name. destruct (unpair env name r) as [r' x] eqn:E. cbn [fst].
    destruct (unpair_spec _ _ _ _ _ E) as [(-> & -> & _)|(rm & _ & _ & Hs & Hp & _)]; by split. }
  destruct request; cbn [handle_request fst]; try (by split); [| |apply Hu].
  - destruct (pair env name fingerprint ip token r) as [r' x] eqn:E. cbn [fst].
    destruct (pair_spec _ _ _ _ _ _ _ _ E) as
      [(-> & -> & _)|(phone & w & _ & _ & _ & _ & _ & _ & Hs & _ & _ & Hp & _)]; by split.
  - destruct (phone_status _ _ _); [apply Hu|by split..].
Qed.

Section Invariant.
Context `{Hashing}.
Context (debug : Frame -> string) (confirm : PairingConfirmationInput -> confirmation).
Context (config : AppConfig) (local_key : string) (ip : Z -> IpAddr) (show_addr : Z -> string).

(** At any moment: one session at a time and no dial beside it, both only while connections are
    enabled; the pins in memory are on disk. *)
Record loop_ok (n : Node) : Prop := {
  ok_one : is_Some (n_session n) -> n_dialing n = None /\ n_connection_enabled n = true;
  ok_dialing : is_Some (n_dialing n) ->
    n_connection_enabled n = true /\ n_dial_blocked n = false /\ dials config = true;
  ok_newer : is_Some (n_replacement n) -> n_dialing n = None;
  ok_pins : saved_pins n;
}.
(** Between sessions, when the loop waits: a node that may connect has its next dial set, and no
    newer connection is forgotten. *)
Record node_ok (n : Node) : Prop := {
  ok_loop : loop_ok n;
  ok_due : n_session n = None -> n_connection_enabled n = true -> n_dial_blocked n = false ->
    dials config = true -> n_dialing n = None -> is_Some (n_dial_at n);
  ok_served : n_session n = None -> n_replacement n = None;
}.

(** A change of other variables. *)
Lemma loop_ok_same n n' : same_loop n n' -> saved_pins n' -> loop_ok n -> loop_ok n'.
Proof. intros [E1 E2 E3 E4 E5 E6] Hs [H1 H2 H3 H4]. by split; rewrite ?E1, ?E3, ?E4, ?E5, ?E6. Qed.
Lemma loop_ok_keeps n n' : same_loop n n' -> n_receiver n' = n_receiver n -> loop_ok n -> loop_ok n'.
Proof. intros Hl Hr Hn. apply (loop_ok_same n); [done| |done]. unfold saved_pins. rewrite Hr. apply Hn. Qed.

Lemma loop_top_is now n : exists due,
  loop_top config local_key now n = set_n_dial_at due (set_n_connected_peer None n).
Proof.
  unfold loop_top. destruct (_ && dials config); [by eexists|]. exists (n_dial_at n). by destruct n.
Qed.
Lemma loop_top_ok now n : loop_ok n -> loop_ok (loop_top config local_key now n).
Proof. intros [H1 H2 H3 H4]. destruct (loop_top_is now n) as [due ->]. by split. Qed.
Lemma loop_top_due now n : n_connection_enabled n = true -> n_dial_blocked n = false ->
  dials config = true -> n_dialing n = None -> is_Some (n_dial_at (loop_top config local_key now n)).
Proof.
  intros E1 E2 E3 E4. unfold loop_top. cbn. rewrite E1, E2, E3, E4.
  destruct (n_dial_at n) eqn:E; cbn; [rewrite E|]; done.
Qed.

Lemma loop_top_node now n : loop_ok n -> n_replacement n = None ->
  node_ok (loop_top config local_key now n).
Proof.
  intros Hn Hr. pose proof (loop_top_is now n) as [due E]. split; [by apply loop_top_ok| |].
  - intros _ E4 E5 E6 E7. rewrite E in E4, E5, E7. by apply loop_top_due.
  - intros _. by rewrite E.
Qed.

(** A peer is served between sessions. *)
Lemma accept_peer_ok t peer n n' : loop_ok n -> n_session n = None ->
  (is_phone_hello (hello peer) = true \/ n_dialing n = None) ->
  accept_peer debug confirm config local_key ip show_addr t peer n = (n', Ok tt) ->
  loop_ok n' /\ n_replacement n' = n_replacement n.
Proof.
  intros Hn Hs Hd. unfold accept_peer. destruct (is_phone_hello (hello peer)) eqn:Eh.
  { intros [= <-]. split; [|done]. apply (loop_ok_same n); [by split| |done]. exact (ok_pins _ Hn). }
  destruct Hd as [|Hd]; [done|].
  pose proof (set_up_kept debug confirm config local_key show_addr peer (t_set_up t) (t_line t, n)) as Hk.
  pose proof (set_up_saved debug confirm config local_key show_addr peer (t_set_up t) (t_line t, n)
    (ok_pins _ Hn)) as Hp.
  pose proof (set_up_enabled debug confirm config local_key show_addr peer (t_set_up t) (t_line t) n) as He.
  unfold loop_kept in Hk. destruct (set_up_computer _ _ _ _ _ _ _ _) as [[a n1] [x|[ |e|]]]; cbn [fst snd] in *;
    [| |done|]; intros [= <-].
  - specialize (He _ _ eq_refl). destruct Hk as [E1 E2 E3 E4 E5 E6]. split; [|by cbn].
    split; cbn; [intros _; by rewrite E3, E1|rewrite E3, Hd; by intros []|by rewrite E3|done].
  - split; [by apply (loop_ok_same n)|apply Hk].
  - split; [by apply (loop_ok_same n)|apply Hk].
Qed.

Lemma next_iteration_ok t n n' : loop_ok n ->
  next_iteration debug confirm config local_key ip show_addr t n = (n', Ok tt) -> node_ok n'.
Proof.
  intros Hn. unfold next_iteration, st_bind at 1, st_get at 1. destruct (n_session n) eqn:Es.
  { intros [= <-]. by split; rewrite ?Es. }
  intros E. unbind E n1 u E1. injection E1 as <- _.
  pose proof (loop_top_ok (t_next t) n Hn) as H1.
  assert (n_session (loop_top config local_key (t_next t) n) = None) as Es1
    by (destruct (loop_top_is (t_next t) n) as [? ->]; exact Es).
  assert (n_replacement (loop_top config local_key (t_next t) n) = n_replacement n) as Er
    by (by destruct (loop_top_is (t_next t) n) as [? ->]).
  destruct (n_replacement n) as [peer|] eqn:Ep.
  - unbind E n2 v E2. injection E2 as <- _. unbind E n3 w E3. injection E as <-.
    assert (n_dialing (loop_top config local_key (t_next t) n) = None) as Hd.
    { assert (n_dialing n = None) as Hd by (apply (ok_newer _ Hn); by rewrite Ep).
      by destruct (loop_top_is (t_next t) n) as [? ->]. }
    destruct w. apply accept_peer_ok in E3 as [H3 H4]; [| |done|by right].
    2:{ destruct H1 as [K1 K2 K3 K4]. by split. }
    destruct (n_session n3) as [s|] eqn:E3s; [by split; rewrite ?E3s|].
    apply loop_top_node; [done|]. by rewrite H4.
  - injection E as <-. by apply loop_top_node.
Qed.

Lemma tray_ok now command n n' : loop_ok n -> n_session n = None ->
  on_tray_command config now command n = (n', Ok tt) -> loop_ok n'.
Proof.
  intros [H1 H2 H3 H4] Hs. destruct command; cbn; intros [= <-]; split; cbn; rewrite ?Hs; try done;
    try (by intros []).
  - intros Hd. by destruct (H2 Hd) as (? & _ & ?).
  - intros Hd. by destruct (H2 Hd) as (_ & _ & ?).
Qed.

Lemma incoming_ok t peer n n' : loop_ok n -> n_session n = None ->
  on_incoming debug confirm config local_key ip show_addr t peer n = (n', Ok tt) -> loop_ok n'.
Proof.
  intros Hn Hs. unfold on_incoming, st_bind at 1, st_get at 1.
  destruct (n_dialing n) as [da|] eqn:Ed; cbn [bool_decide decide]; cbn.
  - destruct (is_phone_hello (hello peer)) eqn:Eh; cbn [negb].
    { intros E. apply accept_peer_ok in E; [tauto|done|done|by left]. }
    destruct (keep_own_dial _ _).
    + intros [= <-]. by apply (loop_ok_keeps n).
    + intros E. apply accept_peer_ok in E; [tauto| |done|by right].
      destruct Hn as [H1 H2 H3 H4]. split; cbn; try done; rewrite ?Hs; by intros [].
  - intros E. apply accept_peer_ok in E; [tauto|done|done|by right].
Qed.

Lemma dial_due_ok now n n' : loop_ok n -> n_session n = None -> n_replacement n = None ->
  on_dial_due config now n = (n', Ok tt) -> loop_ok n'.
Proof.
  intros Hn Hs Hr. unfold on_dial_due. destruct (_ && _) eqn:E; intros [= <-]; [|done].
  apply andb_true_iff in E as [_ E]. unfold may_dial in E. reflect_bools.
  destruct Hn as [K1 K2 K3 K4]. split; cbn; rewrite ?Hs, ?Hr; try done; by intros [].
Qed.

Lemma dial_ends_ok t reloaded net role_error n n' : loop_ok n -> n_session n = None ->
  on_dial_ends debug confirm config local_key t reloaded net role_error n = (n', Ok tt) -> loop_ok n'.
Proof.
  intros Hn Hs. unfold on_dial_ends, st_bind at 1, st_get at 1.
  destruct (n_dialing n) as [da|] eqn:Ed; [|by intros [= <-]].
  destruct (ok_dialing _ Hn) as (K1 & K2 & K3); [by rewrite Ed|].
  destruct (connect_linux_peer _ _ _ _).2 as [c|[e|]]; [| |by intros [= <-]].
  - cbn. unfold dial_connected, pin_computer. destruct (lc_newly_paired c), (su_pins_error (t_set_up t)); cbn;
      intros [= <-]; destruct Hn as [H1 H2 H3 H4]; split; cbn; rewrite ?K1; try done; by intros [].
  - cbn. unfold dial_failed. destruct (dial_failure _); intros [= <-];
      destruct Hn as [H1 H2 H3 H4]; split; cbn; rewrite ?Hs; try done; by intros [].
Qed.

Lemma idle_ok t ev n n' : loop_ok n -> n_session n = None -> n_replacement n = None ->
  on_idle_event debug confirm config local_key ip show_addr t ev n = (n', Ok tt) -> loop_ok n'.
Proof.
  intros Hn Hs Hr. destruct ev; cbn [on_idle_event].
  - by apply tray_ok.
  - intros [= <-]. apply (loop_ok_same n); [by split| |done].
    apply request_pins. exact (ok_pins _ Hn).
  - by apply incoming_ok.
  - intros [= <-]. by apply (loop_ok_keeps n).
  - done.
  - by apply dial_due_ok.
  - by apply dial_ends_ok.
  - by intros [= <-].
Qed.

Lemma session_ok t s ev n n' : loop_ok n -> n_session n = Some s ->
  on_session_event local_key ip t s ev n = (n', Ok tt) -> loop_ok n'.
Proof.
  intros Hn Hs. destruct (ok_one _ Hn) as [Hd He]; [by rewrite Hs|].
  destruct Hn as [H1 H2 H3 H4].
  destruct ev; cbn [on_session_event]; try (by intros [= <-]).
  - intros [= <-]. split; cbn; try done. by apply request_pins.
  - destruct (ls_acceptor_open s); [|by intros [= <-]]. intros [= <-].
    unfold on_session_incoming, peer_while_connected, replace_session, start_phone, reject_peer.
    repeat case_match; split; cbn; rewrite ?Hd; try done; by intros [].
  - unfold dialled_session_ends, accepted_session_ends.
    destruct (ls_dialled s), exit; cbn; intros [= <-]; split; cbn; rewrite ?Hd; try done; by intros [].
Qed.

Lemma step_ok t ev n n' : node_ok n ->
  node_step debug confirm config local_key ip show_addr t ev n = (n', Ok tt) -> node_ok n'.
Proof.
  intros [Hn _ Hr]. unfold node_step, st_bind at 1, st_get at 1. intros E. unbind E n1 u E1. destruct u.
  apply next_iteration_ok in E; [done|].
  destruct (n_session n) as [s|] eqn:Es; [by eapply session_ok|by eapply idle_ok; eauto].
Qed.

Lemma start_ok r armed now paused capture : pins r = disk r ->
  node_ok (start_node config local_key r armed now paused capture).
Proof.
  intros Hr. split; [split; cbn; try done; by intros []| |done].
  cbn. intros _ _ _ -> _. by eexists.
Qed.
Lemma run_ok evs : forall n n', node_ok n ->
  node_run debug confirm config local_key ip show_addr evs n = (n', Ok tt) -> node_ok n'.
Proof.
  induction evs as [|[t ev] evs IH]; intros n n' Hn E; cbn [node_run] in E.
  - by injection E as <-.
  - unbind E n1 u E1. destruct u. apply (IH n1); [by eapply step_ok|done].
Qed.
End Invariant.

(** C9. The loop connects when it may, and only then: in every run of a node, while the user has
    disconnected it there is neither a session nor a dial; a session excludes a dial; a node that is
    enabled, has an address, is not blocked by a version mismatch and has no session always has
    a dial in progress or its time set; and the pins in memory are the pins on disk. *)
Theorem loop_connects_when_it_may `{Hashing} (debug : Frame -> string)
    (user : PairingConfirmationInput -> confirmation) (config : AppConfig) (key : string)
    (ip : Z -> IpAddr) (show_addr : Z -> string) (r : Receiver) (armed : bool) (now : Instant)
    (paused capture : bool) (evs : list (Turn * node_event)) (n : Node)
    (Hr : pins r = disk r)
    (Hn : node_run debug user config key ip show_addr evs
            (start_node config key r armed now paused capture) = (n, Ok tt)) :
  (n_connection_enabled n = false -> n_session n = None /\ n_dialing n = None)
  /\ (is_Some (n_session n) -> n_dialing n = None)
  /\ (n_connection_enabled n = true -> dials config = true -> n_dial_blocked n = false ->
      n_session n = None -> is_Some (n_dialing n) \/ is_Some (n_dial_at n))
  /\ pins (n_receiver n) = disk (n_receiver n).
Proof.
  destruct (run_ok debug user config key ip show_addr evs _ n
    (start_ok config key r armed now paused capture Hr) Hn) as [[H1 H2 H3 H4] H5 H6].
  split_and!.
  - intros He. split; apply eq_None_not_Some; intros Hs.
    + destruct (H1 Hs) as [_ K]. congruence.
    + destruct (H2 Hs) as [K _]. congruence.
  - intros Hs. by apply H1.
  - intros He Hd Hb Hs. destruct (n_dialing n) eqn:Ed; [by left|]. right. by apply H5.
  - exact H4.
Qed.

(** ** Both dial at once *)

Lemma keep_own_dial_one a b : a <> b -> keep_own_dial a b = negb (keep_own_dial b a).
Proof.
  intros Hne. unfold keep_own_dial, String.ltb. rewrite (String.compare_antisym a b).
  destruct (String.compare b a) eqn:E; cbn; try done.
  apply String.compare_eq_iff in E. congruence.
Qed.

Section BothDial.
Context `{Hashing}.
(** A node: what it shows of frames, its user, configuration and key. *)
Context (debug debug' : Frame -> string) (user user' : PairingConfirmationInput -> confirmation).
Context (config config' : AppConfig) (key key' : string) (ip : Z -> IpAddr) (show_addr : Z -> string).

Definition meets (dbg : Frame -> string) (usr : PairingConfirmationInput -> confirmation)
    (cfg : AppConfig) (k : string) (t : Turn) (peer : IncomingPeer) (n : Node) : Node :=
  (on_incoming dbg usr cfg k ip show_addr t peer n).1.

Lemma meets_keeps dbg usr cfg k t peer n : is_Some (n_dialing n) ->
  is_phone_hello (hello peer) = false ->
  if keep_own_dial k (Acceptor.fingerprint peer)
  then n_dialing (meets dbg usr cfg k t peer n) = n_dialing n
       /\ n_turned_away (meets dbg usr cfg k t peer n)
          = n_turned_away n ++ [(peer, {| code := DUPLICATE_SESSION; message :=
              "both computers connected at once; keeping the other connection" |})]
  else n_dialing (meets dbg usr cfg k t peer n) = None.
Proof.
  intros Hd Hp. unfold meets.
  assert (on_incoming dbg usr cfg k ip show_addr t peer n
    = (if keep_own_dial k (Acceptor.fingerprint peer)
       then change (reject_peer peer DUPLICATE_SESSION
                      "both computers connected at once; keeping the other connection")
       else do! change (set_n_dialing None);; accept_peer dbg usr cfg k ip show_addr t peer) n) as ->.
  { unfold on_incoming, st_bind at 1, st_get. rewrite bool_decide_eq_true_2 by done. by rewrite Hp. }
  destruct (keep_own_dial _ _); [by split|]. unfold accept_peer. rewrite Hp.
  unfold st_bind, change.
  pose proof (set_up_kept dbg usr cfg k show_addr peer (t_set_up t) (t_line t, set_n_dialing None n)) as Hk.
  unfold loop_kept in Hk.
  destruct (set_up_computer _ _ _ _ _ _ _ _) as [[a n1] [x|[ |e|]]]; cbn [fst snd] in *;
    exact (same_dialing _ _ Hk).
Qed.
End BothDial.

(** The dial [da] of a node hears [e] from the other computer where it waits for its hello. *)
Definition turned_away (config : AppConfig) (key : string) (t : Turn) (reloaded : option AppConfig)
    (net : Network) (role_error : option chain) (da : DialAttempt) (e : RemoteError) : Prop :=
  exists a addr proved w rest,
    dial_linux (linux_dial config key reloaded net role_error (su_screen (t_set_up t)) da) (t_line t)
    = (a, Ok (addr, proved))
    /\ write_errors a = [] /\ arrivals a = {| wait := w; arrived := Ok (Frame_Error e) |} :: rest
    /\ w <= from_secs 15.

(** That ends the dial, with the error. *)
Lemma turned_away_bails `{Hashing} dbg usr config key t reloaded net role_error da e :
  turned_away config key t reloaded net role_error da e ->
  (connect_linux_peer dbg usr (linux_dial config key reloaded net role_error (su_screen (t_set_up t)) da)
     (t_line t)).2 = Err (Bails [peer_error e]).
Proof.
  intros (a & addr & proved & w & rest & Hdial & Hw & Harr & Hle).
  unfold connect_linux_peer, st_bind at 1. rewrite Hdial. cbv beta iota zeta.
  unfold st_bind at 1, write_secure_frame. cbn [write_errors set_said]. rewrite Hw. cbv beta iota.
  unfold st_bind at 1, await_for. cbn [arrivals elapsed set_said]. rewrite Harr. cbn [await_in wait arrived].
  unfold is_some_and. rewrite (proj2 (Z.ltb_ge _ _)) by (cbn [elapsed set_said]; lia). reflexivity.
Qed.

(** The node that was turned away shows nothing, is not held back and dials again later. *)
Definition takes_it_quietly (config : AppConfig) (key : string) (m m' : Node) : Prop :=
  n_tray m' = n_tray m /\ n_dialing m' = None /\ n_dial_at m' = None
  /\ n_dial_blocked m' = n_dial_blocked m /\ n_receiver m' = n_receiver m /\ n_session m' = n_session m
  /\ n_pairing_armed m' = n_pairing_armed m
  /\ forall now, n_connection_enabled m = true -> n_dial_blocked m = false -> dials config = true ->
       n_dial_at (loop_top config key now m') = Some (now + dial_delay key (paired_keys config m) DIAL_RETRY).

Lemma duplicate_is_quiet `{Hashing} dbg usr config key t reloaded net role_error da e m :
  n_dialing m = Some da -> dial_failure (peer_error e) = Duplicate ->
  turned_away config key t reloaded net role_error da e ->
  let r := on_dial_ends dbg usr config key t reloaded net role_error m in
  r.2 = Ok tt /\ takes_it_quietly config key m r.1.
Proof.
  intros Hda Hdup Haway.
  assert (on_dial_ends dbg usr config key t reloaded net role_error m
    = (dial_failed (t_now t) [peer_error e] (set_n_dialing None m), Ok tt)) as ->.
  { unfold on_dial_ends, st_bind at 1, st_get. rewrite Hda.
    by rewrite (turned_away_bails dbg usr _ _ _ _ _ _ _ _ Haway). }
  cbv zeta. cbn [fst snd]. unfold dial_failed. change (display [peer_error e]) with (peer_error e).
  cbv zeta. rewrite Hdup. split; [done|]. split_and!; try done. intros now Hc Hb Hd. unfold loop_top.
  cbn [n_dial_at n_dialing n_dial_blocked n_connection_enabled set_n_connected_peer set_n_dial_at
    set_n_last_dial_error set_n_dialing]. by rewrite Hb, Hc, Hd.
Qed.

(** C26. Both keep the same connection: when two nodes dial each other at once and each hears of the
    other's connection, exactly one keeps its own dial, the one with the lower key, and turns the
    other's connection away.  A node whose dial is turned away with that error shows nothing, is not
    held back and changes no pin and no session: it only forgets the dial, and its loop plans
    the next one after the usual delay. *)
Theorem both_dials_keep_one `{Hashing} (debug debug' : Frame -> string)
    (user user' : PairingConfirmationInput -> confirmation) (config config' : AppConfig)
    (ip : Z -> IpAddr) (show_addr : Z -> string) (t t' : Turn) (n n' : Node) (peer peer' : IncomingPeer)
    (Hd : is_Some (n_dialing n)) (Hd' : is_Some (n_dialing n'))
    (Hp : is_phone_hello (hello peer) = false) (Hp' : is_phone_hello (hello peer') = false)
    (Hne : Acceptor.fingerprint peer <> Acceptor.fingerprint peer') :
  let key := Acceptor.fingerprint peer in
  let key' := Acceptor.fingerprint peer' in
  let after := meets ip show_addr debug user config key t peer' n in
  let after' := meets ip show_addr debug' user' config' key' t' peer n' in
  (is_Some (n_dialing after) <-> n_dialing after' = None)
  /\ (is_Some (n_dialing after) <-> keep_own_dial key key' = true)
  /\ (is_Some (n_dialing after) ->
      exists e, n_turned_away after = n_turned_away n ++ [(peer', e)]
      /\ forall tm reloaded net role_error da m,
         n_dialing m = Some da -> turned_away config' key' tm reloaded net role_error da e ->
         let r := on_dial_ends debug' user' config' key' tm reloaded net role_error m in
         r.2 = Ok tt /\ takes_it_quietly config' key' m r.1).
Proof.
  intros key key' after after'.
  pose proof (meets_keeps ip show_addr debug user config key t peer' n Hd Hp') as H1.
  pose proof (meets_keeps ip show_addr debug' user' config' key' t' peer n' Hd' Hp) as H2.
  unfold key, key' in H1, H2. rewrite (keep_own_dial_one _ _ (not_eq_sym Hne)) in H2.
  fold key key' in H1, H2. fold after in H1. fold after' in H2.
  destruct (keep_own_dial key key'); cbn [negb] in H2.
  - destruct H1 as [E1 E2]. rewrite E1, H2, E2. split_and!; [by split|by split|].
    intros _. eexists. split; [done|]. intros tm rl net re da m Hda Haway.
    by refine (duplicate_is_quiet debug' user' _ _ _ _ _ _ _ _ _ Hda _ Haway).
  - destruct H2 as [E1 _]. rewrite H1, E1. split_and!.
    + split; [by intros []|]. intros E. rewrite E in Hd'. by destruct Hd'.
    + split; [by intros []|done].
    + by intros [].
Qed.

(** ** Whose keys are pinned *)

Section Pinned.
Context `{Hashing}.
Context (debug : Frame -> string) (confirm : PairingConfirmationInput -> confirmation).
Context (config : AppConfig) (local_key : string) (ip : Z -> IpAddr) (show_addr : Z -> string).

(** The computers' keys pinned at a node. *)
Definition computers (n : Node) : gmap string string := pin_peers (pins (n_receiver n)).
(** Every new one was approved by the user. *)
Definition approves_new (n n' : Node) : Prop := forall name key,
  computers n' !! name = Some key -> computers n !! name = Some key \/ approved confirm local_key key.
#[local] Instance approves_preorder : PreOrder approves_new.
Proof.
  split; [by left|]. intros n1 n2 n3 H1 H2 name key E. destruct (H2 _ _ E) as [E2|?]; [|by right].
  by apply H1.
Qed.
Lemma same_computers n n' : computers n' = computers n -> approves_new n n'.
Proof. intros E name key. rewrite E. by left. Qed.

(** The only new key a set-up pins is the peer's. *)
Definition pins_peer (peer : IncomingPeer) (s s' : Attempt * Node) : Prop := forall name key,
  computers s'.2 !! name = Some key ->
  computers s.2 !! name = Some key \/ key = Acceptor.fingerprint peer.
#[local] Instance pins_peer_preorder peer : PreOrder (pins_peer peer).
Proof.
  split; [by left|]. intros n1 n2 n3 H1 H2 name key E. destruct (H2 _ _ E) as [E2|?]; [|by right].
  by apply H1.
Qed.
Lemma quiet_pins_peer peer s s' : quiet_n s s' -> pins_peer peer s s'.
Proof. intros [_ Hr] name key. unfold computers. rewrite Hr. by left. Qed.
Lemma quiet_pins {A} peer (m : setting_up A) : within quiet_n m -> within (pins_peer peer) m.
Proof. intros Hm s. apply quiet_pins_peer, Hm. Qed.
Lemma show_pins peer input : within (pins_peer peer) (converse (show_confirmation input)).
Proof. by left. Qed.
Lemma decision_pins peer b : within (pins_peer peer) (write_or_skip (Frame_Pairing (Pairing_Decision b))).
Proof.
  intros s. unfold write_or_skip, st_bind, converse.
  destruct (write_secure_frame _ s.1) as [a [x|[e|]]]; by left.
Qed.
Lemma set_up_pins env peer :
  within (pins_peer peer) (set_up_computer debug confirm config local_key show_addr env peer).
Proof.
  unfold set_up_computer, pair_accepted, confirm_pairing.
  repeat first [apply decision_pins | apply show_pins | (apply quiet_pins; solve [quiet_steps]) | within_step].
  intros [line n] name key. unfold pin_computer, computers, pin. cbn.
  destruct (su_pins_error env); cbn; rewrite lookup_insert_Some; naive_solver.
Qed.

Lemma accept_approves t peer n : said (t_line t) = [] ->
  approves_new n (accept_peer debug confirm config local_key ip show_addr t peer n).1.
Proof.
  intros Hl. unfold accept_peer. destruct (is_phone_hello _); [by apply same_computers|].
  pose proof (listener_confirms debug confirm config local_key show_addr peer (t_set_up t) (t_line t) n Hl)
    as [Hsay Hsave].
  pose proof (set_up_pins (t_set_up t) peer (t_line t, n)) as Hp. unfold listener_side in *. cbn [side_said side_user side_key side_peer side_saved side_heard] in Hsay, Hsave.
  destruct (set_up_computer _ _ _ _ _ _ _ _) as [[a n1] r]. cbn [fst snd] in *.
  assert (approves_new n n1) as Hn1.
  { intros name key E. destruct (Hp name key E) as [?| ->]; [by left|].
    destruct (decide (computers n1 = computers n)) as [Es|Es]; [left; by rewrite <- Es|].
    right. apply Hsay, Hsave. left. intros Ep. apply Es. unfold computers. by rewrite Ep. }
  destruct r as [x|[ |e|]]; exact Hn1.
Qed.

(** The key of the computer that was dialled. *)
Lemma connect_linux_key d a a' c : connect_linux_peer debug confirm d a = (a', Ok c) ->
  lc_peer_fingerprint c = proved_key (ld_network d).
Proof.
  unfold connect_linux_peer. intros E. unbind E s1 r E1. destruct r as [addr key].
  apply dial_linux_key in E1. unbind E s2 x2 E2. unbind E s3 x3 E3. unbind E s4 x4 E4. unbind E s5 x5 E5.
  unbind E s6 x6 E6. unbind E s7 x7 E7. unbind E s8 x8 E8. unbind E s9 x9 E9. unbind E s10 x10 E10.
  injection E as <- <-. exact E1.
Qed.

Lemma dial_approves t reloaded net role_error n : said (t_line t) = [] ->
  approves_new n (on_dial_ends debug confirm config local_key t reloaded net role_error n).1.
Proof.
  intros Hl. unfold on_dial_ends, st_bind at 1, st_get at 1. destruct (n_dialing n) as [da|]; [|done].
  set (d := linux_dial _ _ _ _ _ _ _).
  pose proof (linux_confirms debug confirm d (t_line t) Hl) as [Hsay Hsave].
  unfold linux_side in *. cbn [side_said side_user side_key side_peer side_saved side_heard] in Hsay, Hsave.
  destruct (connect_linux_peer debug confirm d (t_line t)) as [a' [c|[e|]]] eqn:Ec; cbn [fst snd] in *;
    [|apply same_computers; cbn; unfold dial_failed; by repeat case_match|done].
  apply connect_linux_key in Ec. cbn. unfold dial_connected.
  destruct (lc_newly_paired c); [|by apply same_computers].
  assert (approved confirm local_key (lc_peer_fingerprint c)) as Ha.
  { rewrite Ec. apply Hsay. by apply Hsave. }
  unfold pin_computer, approves_new, computers, pin. destruct (su_pins_error _); cbn;
    intros name key; rewrite lookup_insert_Some; naive_solver.
Qed.

Lemma event_approves t ev n : said (t_line t) = [] ->
  approves_new n (match n_session n with
                  | Some s => on_session_event local_key ip t s ev n
                  | None => on_idle_event debug confirm config local_key ip show_addr t ev n
                  end).1.
Proof.
  intros Hl. assert (forall env request m, approves_new m
    (set_n_receiver (handle_request env request (n_receiver m)).1 m)) as Hreq.
  { intros env request m. apply same_computers. unfold computers. cbn. apply request_pins. }
  destruct (n_session n) as [s|] eqn:Es; destruct ev; cbn [on_session_event on_idle_event];
    try (by apply same_computers); try apply Hreq.
  - destruct (ls_acceptor_open s); [|done]. apply same_computers. cbn.
    unfold on_session_incoming, peer_while_connected, start_phone. by repeat case_match.
  - unfold dialled_session_ends, accepted_session_ends.
    apply same_computers. by destruct (ls_dialled s), exit.
  - destruct command; by apply same_computers.
  - unfold on_incoming, st_bind at 1, st_get at 1. destruct (_ && _); [|by apply accept_approves].
    destruct (keep_own_dial _ _); [by apply same_computers|].
    unfold st_bind, change. etrans; [|by apply accept_approves]. by apply same_computers.
  - apply same_computers. unfold on_dial_due. by destruct (_ && _).
  - by apply dial_approves.
Qed.

Lemma next_approves t n : said (t_line t) = [] ->
  approves_new n (next_iteration debug confirm config local_key ip show_addr t n).1.
Proof.
  intros Hl. assert (forall now m, computers (loop_top config local_key now m) = computers m) as Ht.
  { intros now m. by destruct (loop_top_is config local_key now m) as [due ->]. }
  unfold next_iteration, st_bind at 1, st_get at 1. destruct (n_session n); [done|].
  unfold st_bind at 1, change at 1. destruct (n_replacement n) as [peer|]; [|apply same_computers, Ht].
  unfold st_bind at 1, change at 1.
  set (m := set_n_replacement None _). assert (approves_new n m) as Hm by (by apply same_computers, Ht).
  pose proof (accept_approves t peer m Hl) as Hp. unfold st_bind.
  destruct (accept_peer _ _ _ _ _ _ t peer m) as [m' [u|e]]; cbn [fst] in *; [|by etrans].
  etrans; [exact Hm|]. etrans; [exact Hp|]. cbn. destruct (n_session m'); [done|].
  apply same_computers, Ht.
Qed.
End Pinned.

(** C24. A computer's key is pinned only after the user accepted it: whatever happens at a node, with a
    computer that dials it or one it dials, in one turn of its loop, every key that is pinned for a
    computer afterwards was pinned before, or its user accepted it in a window that showed the code of
    the two keys; phones and the tray never pin a computer. *)
Theorem computers_are_pinned_after_approval `{Hashing} (debug : Frame -> string)
    (user : PairingConfirmationInput -> confirmation) (config : AppConfig) (local_key : string)
    (ip : Z -> IpAddr) (show_addr : Z -> string) (t : Turn) (ev : node_event) (n : Node)
    (name key : string) (Hl : said (t_line t) = [])
    (Hk : computers (node_step debug user config local_key ip show_addr t ev n).1 !! name = Some key) :
  computers n !! name = Some key \/ approved user local_key key.
Proof.
  revert Hk. unfold node_step, st_bind at 1, st_get at 1, st_bind at 1.
  pose proof (event_approves debug user config local_key ip show_addr t ev n Hl) as He.
  destruct (match n_session n with Some _ => _ | None => _ end) as [n1 [u|e]] eqn:E1;
    destruct (n_session n) as [s|]; rewrite E1 in *; cbn [fst] in *; intros Hk; try by apply He.
  all: destruct (next_approves debug user config local_key ip show_addr t n1 Hl _ _ Hk); auto.
Qed.

(** ** Instances *)

Import SampleHash.
(** The Linux computer dials a Windows-like node "aa" named Main PC. *)
Definition sample_turn (line : Attempt) (now : Instant) : Turn :=
  {| t_now := now; t_next := now; t_line := line; t_set_up := sample_set_up |}.
Definition sample_ip (_ : Z) : IpAddr := V4 0.
Definition sample_show (_ : Z) : string := "192.168.0.12:50000".
Definition dialling_node (key : string) (r : Receiver) : Node :=
  start_node controller_default key r false 0 false false.
Abbreviation sample_run user key evs r :=
  (node_run sample_debug user controller_default key sample_ip sample_show evs (dialling_node key r)).
Definition quiet_turn (now : Instant) : Turn := sample_turn (fresh_attempt [] []) now.
(** A peer named Main PC that is armed and accepts. *)
Definition willing_line : Attempt :=
  fresh_attempt [Frame_Hello (linux_hello controller_default "aa"); Frame_Pairing (Pairing_Status false true);
                 ACCEPT; Frame_ScreenInfo sample_screens] [].
Definition dial_to (key : string) : node_event := Ev_dial_ends None (sample_network key) None.

(** A session that the user disconnects. *)
Definition disconnecting_events : list (Turn * node_event) :=
  [(quiet_turn 0, Ev_dial_due); (sample_turn willing_line 1, dial_to "aa");
   (quiet_turn 2, Ev_session_ends Exit_disconnect)].
Definition disconnected_node : Node := (sample_run agreeable "bb" disconnecting_events sample_receiver).1.

Lemma loop_connects_when_it_may_witness :
  n_session disconnected_node = None /\ n_dialing disconnected_node = None.
Proof.
  refine (proj1 (loop_connects_when_it_may sample_debug agreeable controller_default "bb" sample_ip
    sample_show sample_receiver false 0 false false disconnecting_events disconnected_node eq_refl _) _);
    vm_compute; reflexivity.
Defined.

Definition computer_peer (key : string) : IncomingPeer :=
  {| addr := 7; Acceptor.fingerprint := key; hello := linux_hello controller_default key |}.
Definition both_dialling (key : string) : Node :=
  (sample_run agreeable key [(quiet_turn 0, Ev_dial_due)] sample_receiver).1.

Lemma both_dials_keep_one_witness :
  let after := meets sample_ip sample_show sample_debug agreeable controller_default "aa" (quiet_turn 1)
                 (computer_peer "bb") (both_dialling "aa") in
  exists e, n_turned_away after = [(computer_peer "bb", e)]
  /\ let line := fresh_attempt [Frame_Error e] [] in
     let r := on_dial_ends sample_debug agreeable controller_default "bb" (sample_turn line 2) None
                (sample_network "aa") None (both_dialling "bb") in
     r.2 = Ok tt /\ takes_it_quietly controller_default "bb" (both_dialling "bb") r.1.
Proof.
  destruct (both_dials_keep_one sample_debug sample_debug agreeable agreeable controller_default
    controller_default sample_ip sample_show (quiet_turn 1) (quiet_turn 1) (both_dialling "aa")
    (both_dialling "bb") (computer_peer "aa") (computer_peer "bb")) as (_ & _ & Hquiet);
    [vm_compute; by eexists|vm_compute; by eexists|reflexivity|reflexivity|discriminate|].
  destruct Hquiet as (e & He & Hq); [vm_compute; by eexists|]. exists e. split; [exact He|].
  destruct (n_dialing (both_dialling "bb")) as [da|] eqn:Hda; [|vm_compute in Hda; discriminate Hda].
  apply (Hq (sample_turn (fresh_attempt [Frame_Error e] []) 2) None (sample_network "aa") None da); [exact Hda|].
  unfold turned_away. eexists _, _, _, _, []. split_and!; [cbn; reflexivity|reflexivity|reflexivity|].
  vm_compute. discriminate.
Defined.

Lemma computers_are_pinned_after_approval_witness :
  approved agreeable "bb" "aa".
Proof.
  destruct (computers_are_pinned_after_approval sample_debug agreeable controller_default "bb" sample_ip
    sample_show (sample_turn willing_line 1) (dial_to "aa") (both_dialling "bb") "Main PC" "aa" eq_refl
    ltac:(vm_compute; reflexivity)) as [E|Ha]; [|exact Ha].
  exfalso. revert E. vm_compute. discriminate.
Defined.

(** ** Defects *)

(** A user who refuses. *)
Definition unwilling (input : PairingConfirmationInput) : confirmation := Answers false.

(** A defect: a pairing that the user cancels on the computer that dials asks again at once.  A
    dial that fails leaves pairing armed, so the next dial, two or five seconds later, asks both
    users once more; the computer that is dialled, and the Windows one, ask once. *)
Theorem cancelled_pairing_asks_again :
  let n := (sample_run unwilling "bb"
    [(quiet_turn 0, Ev_dial_due); (sample_turn willing_line 1, dial_to "aa");
     (quiet_turn (from_secs 6), Ev_dial_due)] sample_receiver).1 in
  last (n_tray n) = Some (Call_error "pairing was not approved on both computers")
  /\ n_pairing_armed n = true
  /\ n_dialing n = Some {| da_paired := []; da_armed := true; da_paused := false |}.
Proof. vm_compute. split_and!; reflexivity. Qed.

(** A user who refuses when warned that a saved key changed. *)
Definition cautious (input : PairingConfirmationInput) : confirmation :=
  Answers (match previous_peer_fingerprint input with Some _ => false | None => true end).
(** Main PC was paired with another key. *)
Definition paired_receiver : Receiver :=
  let store := {| pin_peers := {["Main PC" := "old"]}; pin_phones := ∅ |} in
  {| phones := phones sample_receiver; pins := store; disk := store |}.

(** A defect: a changed key is shown without the warning by the computer that dials.  It compares
    with the key in its configuration, which only older versions wrote on Linux, instead of the pins: a
    user who refuses changed keys is not warned, and the pinned key of the computer of that name is
    replaced.  The same computer when it is dialled warns. *)
Theorem changed_key_is_not_shown :
  let n := (sample_run cautious "bb"
    [(quiet_turn 0, Ev_tray ArmPairing); (quiet_turn 0, Ev_dial_due); (sample_turn willing_line 1, dial_to "aa")]
    paired_receiver).1 in
  computers n !! "Main PC" = Some "aa"
  /\ previous_peer_fingerprint (accepted_confirmation "bb" sample_show (computer_peer "aa")
       (pin_status (pins paired_receiver) "Main PC" "aa")) = Some "old".
Proof. vm_compute. split; reflexivity. Qed.

(** A defect: "Pair a computer…" after "Disconnect" connects nothing.  The node shows that it listens
    and offers to disconnect, yet connections stay disabled: it does not dial, and it turns every
    computer away, until the user disconnects once more and reconnects. *)
Theorem pairing_while_disconnected_connects_nothing `{Hashing} (debug : Frame -> string)
    (user : PairingConfirmationInput -> confirmation) (config : AppConfig) (key : string)
    (ip : Z -> IpAddr) (show_addr : Z -> string) (t : Turn) (peer : IncomingPeer) (n : Node)
    (tray : ReceiverTray) (Hp : is_phone_hello (hello peer) = false) :
  let n1 := ((do! on_tray_command config (t_now t) Tray_Disconnect;;
              on_tray_command config (t_now t) ArmPairing) n).1 in
  let n2 := (on_incoming debug user config key ip show_addr t peer n1).1 in
  let shown := fold_left (fun tray call => call_update call LiveCounters_new tray)
                 (drop (length (n_tray n)) (n_tray n1)) tray in
  connection_item shown = Standard "Disconnect" true true (Some Tray_Disconnect)
  /\ may_dial config n1 = false
  /\ last (n_turned_away n2)
     = Some (peer, {| code := "receiver_disconnected";
                      message := "the other computer is disconnected from its tray" |}).
Proof.
  intros n1 n2 shown. split_and!.
  - unfold shown, n1. cbn. rewrite <- app_assoc, drop_app_length. reflexivity.
  - unfold may_dial, n1. cbn. by rewrite andb_false_r.
  - unfold n2, on_incoming, st_bind, st_get. cbn [n_dialing n1]. unfold accept_peer. rewrite Hp.
    cbn. by rewrite last_snoc.
Qed.

Lemma pairing_while_disconnected_connects_nothing_witness :
  may_dial controller_default
    ((do! on_tray_command controller_default 1 Tray_Disconnect;;
      on_tray_command controller_default 1 ArmPairing) (dialling_node "bb" sample_receiver)).1 = false.
Proof.
  exact (proj1 (proj2 (pairing_while_disconnected_connects_nothing sample_debug agreeable controller_default
    "bb" sample_ip sample_show (quiet_turn 1) (computer_peer "aa") (dialling_node "bb" sample_receiver)
    (ReceiverTray_new "" "" false) eq_refl))).
Defined.

(** A divergence: a computer that is dialled and one that dials are not checked the same way.  A
    paired computer that took another name is trusted when it is dialled, by its key under any name,
    and is unknown when it dials. *)
Theorem renamed_computer_is_trusted_one_way (old_name new_name key : string) (config : AppConfig)
    (Hne : old_name <> new_name) :
  let store := {| pin_peers := {[old_name := key]}; pin_phones := ∅ |} in
  key ∈ paired_computer_keys store config /\ is_trusted (pin_status store new_name key) = false.
Proof.
  intros store. split.
  - unfold paired_computer_keys, store. cbn [pin_peers]. rewrite map_to_list_singleton. cbn [fmap list_fmap snd].
    destruct (_ && _); cbn; rewrite ?elem_of_cons; auto.
  - unfold pin_status, store. cbn [pin_peers]. by rewrite lookup_singleton_ne.
Qed.

Lemma renamed_computer_is_trusted_one_way_witness :
  "aa" ∈ paired_computer_keys {| pin_peers := {["Main PC" := "aa"]}; pin_phones := ∅ |} controller_default.
Proof. apply (renamed_computer_is_trusted_one_way "Main PC" "Office" "aa" controller_default). discriminate. Defined.
