(* ===== verification/WindowsApplication.v ===== *)
(** * The Windows application between sessions: [run_main] of [apps/edge-controller-win/src/main.rs]

    With a tray the application is a loop: it takes the tray's commands, runs a session when it is
    connected, sleeps a quarter of a second and dials when it is time.  A [Round] is one turn of the
    loop with what the system and a session answer.  The session is [WindowsSession], the attempt to
    connect [WindowsConnect]. *)
From Stdlib Require Import Sorting.Sorted.
From S2P Require Import WindowsSession.
From S2P Require Import WindowsTray.
From S2P Require Export PairingProgress.
#[local] Open Scope string_scope.
#[local] Open Scope Z_scope.
#[local] Open Scope list_scope.

(** ** The command line *)

(** [win/main 86-108 Args] (the flags that choose what the process does) *)
Record Args := {
  arg_settings : bool;
  arg_tray : bool;
  arg_pair : bool;
  arg_dry_run : bool;
  arg_test_input : bool;
  arg_test_clipboard_text : option string;
  arg_test_audio : bool;
}.

(** [win/main 474-481 should_run_tray] *)
Definition should_run_tray (args : Args) : bool :=
  arg_tray args
  || (negb (arg_settings args) && negb (arg_dry_run args) && negb (arg_test_input args)
      && negb (bool_decide (is_Some (arg_test_clipboard_text args)))).

(** ** The loop *)

(** The variables of the loop: whether pairing is armed, the connection that waits for its session,
    the user's switches, the next attempt, the configuration, the commands of the tray.  What was
    shown is recorded, how often the user was asked to pair and when the loop dialled. *)
Record WindowsApp := {
  wa_pairing_armed : bool;
  wa_connection : option (ControllerConnection * InitialReceiverState);
  wa_connection_enabled : bool;
  wa_input_forwarding_enabled : bool;
  wa_next_connect_attempt : Instant;
  wa_config : AppConfig;
  wa_commands : list WindowsTrayCommand;
  wa_statuses : list string;
  wa_audio_statuses : list (bool * string);
  wa_prompts : list PairingConfirmationInput;
  wa_attempts : list Instant;
}.
Definition set_wa_pairing_armed : bool -> WindowsApp -> WindowsApp := ltac:(field_setter wa_pairing_armed).
Definition set_wa_connection :
  option (ControllerConnection * InitialReceiverState) -> WindowsApp -> WindowsApp :=
  ltac:(field_setter wa_connection).
Definition set_wa_connection_enabled : bool -> WindowsApp -> WindowsApp :=
  ltac:(field_setter wa_connection_enabled).
Definition set_wa_input_forwarding_enabled : bool -> WindowsApp -> WindowsApp :=
  ltac:(field_setter wa_input_forwarding_enabled).
Definition set_wa_next_connect_attempt : Instant -> WindowsApp -> WindowsApp :=
  ltac:(field_setter wa_next_connect_attempt).
Definition set_wa_config : AppConfig -> WindowsApp -> WindowsApp := ltac:(field_setter wa_config).
Definition set_wa_commands : list WindowsTrayCommand -> WindowsApp -> WindowsApp :=
  ltac:(field_setter wa_commands).
Definition set_wa_statuses : list string -> WindowsApp -> WindowsApp := ltac:(field_setter wa_statuses).
Definition set_wa_audio_statuses : list (bool * string) -> WindowsApp -> WindowsApp :=
  ltac:(field_setter wa_audio_statuses).
Definition set_wa_attempts : list Instant -> WindowsApp -> WindowsApp := ltac:(field_setter wa_attempts).
Definition set_wa_prompts : list PairingConfirmationInput -> WindowsApp -> WindowsApp :=
  ltac:(field_setter wa_prompts).

(** [config.audio.enabled = ..] *)
Definition enable_audio (enabled : bool) (c : AppConfig) : AppConfig :=
  let audio := cfg_audio c in
  {| Config.device_name := Config.device_name c; start_with_windows := start_with_windows c;
     preferred_role := preferred_role c; transport := transport c; listen := listen c;
     cfg_peer := cfg_peer c; cfg_layout := cfg_layout c; cfg_input := cfg_input c;
     cfg_clipboard := cfg_clipboard c;
     cfg_audio := {| audio_route := audio_route audio; audio_enabled := enabled;
                     local_playback := local_playback audio;
                     jitter_target_ms := jitter_target_ms audio |};
     cfg_phone := cfg_phone c; cfg_notifications := cfg_notifications c |}.

(** [win/main 545-557 update_windows_tray_status] *)
Definition show_status (status : string) (a : WindowsApp) : WindowsApp :=
  set_wa_statuses (wa_statuses a ++ [status]) a.
(** [win/main 559-568 update_windows_tray_audio] *)
Definition show_audio (idle : string) (a : WindowsApp) : WindowsApp :=
  let enabled := audio_enabled (cfg_audio (wa_config a)) in
  set_wa_audio_statuses (wa_audio_statuses a ++ [(enabled, if enabled then idle else "Audio: Off")]) a.

(** The application ends: by the tray, with an error, or never gets to its next turn. *)
Inductive app_end := App_quits | App_fails (error : chain) | App_hangs.
Abbreviation running := (stateful WindowsApp app_end).
Definition update (f : WindowsApp -> WindowsApp) : running unit := fun a => (f a, Ok tt).

(** What a turn meets: the time of its parts, the end of the session it runs with what the session
    leaves of the switches and the commands, the configuration that is loaded, and an attempt to
    connect. *)
Record Round := {
  rd_now : Instant;
  rd_session : result ConnectedSessionExit chain;
  rd_session_forwarding : bool;
  rd_session_commands : list WindowsTrayCommand;
  rd_session_over : Instant;
  rd_awake : Instant;
  rd_config : result AppConfig chain;
  rd_dial : AppConfig -> bool -> WindowsDial;
  rd_line : Attempt;
  rd_attempt_over : Instant;
}.
(** An attempt is made with the configuration and the arming it is given. *)
Definition round_ok (r : Round) : Prop := forall config armed,
  wd_config (rd_dial r config armed) = config /\ wd_pairing_armed (rd_dial r config armed) = armed
  /\ said (rd_line r) = [] /\ prompts (rd_line r) = [].

Section Application.
Context `{Hashing}.
Context (debug : Frame -> string) (confirm : PairingConfirmationInput -> confirmation).

(** [win/main 199-220 run_main]: the first attempt, and what the loop starts with. *)
Definition start_application (config : AppConfig) (pair : bool) (dial : AppConfig -> bool -> WindowsDial)
    (line : Attempt) (now : Instant) : option WindowsApp :=
  let armed := pair || str_is_empty (pinned_fingerprint (cfg_peer config)) in
  let '(line, outcome) := connect_for_tray debug confirm (dial config armed) line in
  match outcome with
  | None => None
  | Some (connection, consumed, status) =>
      Some {| wa_pairing_armed := armed && negb (bool_decide (is_Some connection)) && negb consumed;
              wa_connection := connection;
              wa_connection_enabled := negb (str_eqb status UPGRADE_PEER_STATUS);
              wa_input_forwarding_enabled := true;
              wa_next_connect_attempt := if bool_decide (is_Some connection) then now
                                         else now + from_secs 2;
              wa_config := config; wa_commands := []; wa_statuses := [status];
              wa_audio_statuses := []; wa_prompts := prompts line;
              wa_attempts := [] |}
  end.

(** The commands of the tray.  [win/main 264-324 run_main] *)
Definition take_commands (now : Instant) : running unit := fun a =>
  let '(rest, outcome, _) :=
    handle_pending_windows_tray_commands (wa_commands a) (wa_input_forwarding_enabled a) 0 in
  let a := set_wa_commands rest a in
  match outcome with
  | Outcome_Quit => (a, Err App_quits)
  | Outcome_Disconnect =>
      (show_audio "Audio: Paused" (show_status "Disconnected by user"
         (set_wa_connection None (set_wa_connection_enabled false a))), Ok tt)
  | Outcome_Reconnect =>
      (show_status "Connecting" (set_wa_next_connect_attempt now (set_wa_connection_enabled true a)), Ok tt)
  | Outcome_Pair =>
      (show_status "Pairing: enable pairing on the peer"
         (set_wa_next_connect_attempt now (set_wa_connection None
            (set_wa_connection_enabled true (set_wa_pairing_armed true a)))), Ok tt)
  | Outcome_InputForwardingChanged enabled => (set_wa_input_forwarding_enabled enabled a, Ok tt)
  | Outcome_AudioChanged choice =>
      let on := match choice with Choice_Off => false | _ => true end in
      (show_audio (if wa_connection_enabled a then "Audio: Starting" else "Audio: Paused")
         (set_wa_config (enable_audio on (wa_config a)) a), Ok tt)
  | Outcome_ControllerRequested _ | Outcome_Continue => (a, Ok tt)
  end.

(** The session of a connection, and its end.  [win/main 326-381 run_main] *)
Definition run_session (r : Round) : running unit := fun a =>
  match wa_connection a with
  | None => (a, Ok tt)
  | Some (connection, _) =>
      let a := show_status (connection_status connection) (set_wa_connection None a) in
      let a := set_wa_commands (rd_session_commands r)
                 (set_wa_input_forwarding_enabled (rd_session_forwarding r) a) in
      match rd_session r with
      | Ok Exit_Quit => (a, Err App_quits)
      | Ok Exit_Disconnect =>
          (show_audio "Audio: Paused" (show_status "Disconnected by user"
             (set_wa_connection_enabled false a)), Ok tt)
      | Ok Exit_Pair =>
          (show_status "Pairing: enable pairing on the peer"
             (set_wa_next_connect_attempt (rd_session_over r)
                (set_wa_connection_enabled true (set_wa_pairing_armed true a))), Ok tt)
      | Err _ =>
          (set_wa_next_connect_attempt (rd_session_over r + from_secs 2)
             (show_audio "Audio: Waiting for connection" (show_status "Disconnected" a)), Ok tt)
      end
  end.

(** What an attempt leaves.  [win/main 400-415 run_main] *)
Definition after_attempt (now : Instant) (connection : option (ControllerConnection * InitialReceiverState))
    (consumed : bool) (connect_status : string) (a : WindowsApp) : WindowsApp :=
  let a := set_wa_connection connection a in
  let a := if bool_decide (is_Some connection) || consumed then set_wa_pairing_armed false a else a in
  let a := match connection with
           | Some _ => a
           | None => if str_eqb connect_status UPGRADE_PEER_STATUS
                     then set_wa_connection_enabled false a
                     else set_wa_next_connect_attempt (now + from_secs 2) a
           end in
  show_status (match connection with
               | Some (c, _) => connection_status c
               | None => connect_status
               end) a.

(** After a quarter of a second the application dials, when connections are enabled and it is time.
    [win/main 383-415 run_main] *)
Definition dial_when_due (r : Round) : running unit := fun a =>
  if negb (wa_connection_enabled a) then (set_wa_connection None a, Ok tt)
  else if rd_awake r <? wa_next_connect_attempt a then (a, Ok tt)
  else
    match rd_config r with
    | Err e => (a, Err (App_fails e))
    | Ok config =>
        let a := set_wa_attempts (wa_attempts a ++ [rd_awake r]) (set_wa_config config a) in
        let '(line, outcome) :=
          connect_for_tray debug confirm (rd_dial r config (wa_pairing_armed a)) (rd_line r) in
        let a := set_wa_prompts (wa_prompts a ++ prompts line) a in
        match outcome with
        | None => (a, Err App_hangs)
        | Some (connection, consumed, status) =>
            (after_attempt (rd_attempt_over r) connection consumed status a, Ok tt)
        end
    end.

(** [win/main 263-416 run_main] *)
Definition app_round (r : Round) : running unit :=
  do! take_commands (rd_now r);; do! run_session r;; dial_when_due r.
(** Rounds, each with the commands that the tray sent before it. *)
Fixpoint app_run (rounds : list (list WindowsTrayCommand * Round)) : running unit :=
  match rounds with
  | [] => st_ret tt
  | (commands, r) :: rounds =>
      do! update (fun a => set_wa_commands (wa_commands a ++ commands) a);;
      do! app_round r;; app_run rounds
  end.
End Application.

(** ** Properties *)

Section Properties.
Context `{Hashing}.
Context (debug : Frame -> string) (confirm : PairingConfirmationInput -> confirmation).

(** Rounds in which the user does not choose to pair, and a session does not end to pair. *)
Definition no_pair (commands : list WindowsTrayCommand) : Prop := Tray_Pair ∉ commands.
Definition round_without_pair (r : Round) : Prop :=
  no_pair (rd_session_commands r) /\ rd_session r <> Ok Exit_Pair.

(** How often the user was asked, and may still be asked. *)
Definition asks (a : WindowsApp) : nat := (length (wa_prompts a) + (if wa_pairing_armed a then 1 else 0))%nat.

Lemma pending_spec commands fwd : forall k rest outcome k',
  handle_pending_windows_tray_commands commands fwd k = (rest, outcome, k') ->
  (no_pair commands -> no_pair rest /\ outcome <> Outcome_Pair)
  /\ (Tray_Reconnect ∉ commands -> Tray_Reconnect ∉ rest /\ outcome <> Outcome_Reconnect).
Proof.
  unfold no_pair. induction commands as [|c commands IH]; intros k rest outcome k';
    cbn [handle_pending_windows_tray_commands].
  - intros [= <- <- <-]. split; intros _; (split; [apply not_elem_of_nil|done]).
  - rewrite !not_elem_of_cons. destruct c; try (intros [= <- <- <-]; split; intros [? ?]; done);
      intros E; apply IH in E; tauto.
Qed.

(** An attempt opens at most one window, only when armed, and then counts the pairing as used. *)
Lemma attempt_asks r config armed : round_ok r ->
  let result := connect_for_tray debug confirm (rd_dial r config armed) (rd_line r) in
  (prompts result.1 = [] \/ exists input, prompts result.1 = [input] /\ armed = true
     /\ forall connection consumed status, result.2 = Some (connection, consumed, status) -> consumed = true).
Proof.
  intros Hr. destruct (Hr config armed) as (_ & Ha & _ & Hp). unfold connect_for_tray.
  set (d := rd_dial r config armed) in *. set (a0 := set_pairing_consumed false (rd_line r)).
  pose proof (connect_windows_asked debug confirm d (config_file a0) a0) as Hq.
  assert (unasked (config_file a0) a0) as H0 by (by split_and!). specialize (Hq H0).
  destruct (connect_and_initialize debug confirm d a0) as [a1 res]. cbn [fst snd] in *.
  assert (asked_rightly confirm d (config_file a0) a1) as [[H1 _]|(input & (H1 & _ & H2 & H3 & _) & _)]
    by (by destruct res); cbv zeta; cbn [fst snd]; [by left|right].
  exists input. split_and!; [done|by rewrite <- Ha|]. intros ? ? ?.
  destruct res as [[c i]|[e|]]; by intros [= <- <- <-].
Qed.

(** At most [n] windows, now and later. *)
Definition at_most (n : nat) (a : WindowsApp) : Prop := no_pair (wa_commands a) /\ (asks a <= n)%nat.
Definition shown_at_most (n : nat) (a : WindowsApp) : Prop := (length (wa_prompts a) <= n)%nat.
Lemma at_most_shown n a : at_most n a -> shown_at_most n a.
Proof. unfold at_most, asks, shown_at_most. lia. Qed.

Lemma take_asks n now : hoare (at_most n) (take_commands now) (fun _ => at_most n) (shown_at_most n).
Proof.
  intros a [Hp Ha]. unfold take_commands.
  destruct (handle_pending_windows_tray_commands _ _ _) as [[rest outcome] k] eqn:Eh.
  apply pending_spec in Eh as [Hpend _]. destruct (Hpend Hp) as [Hrest Ho].
  destruct outcome; try done; by apply (at_most_shown n a).
Qed.
Lemma session_asks n r : round_without_pair r ->
  hoare (at_most n) (run_session r) (fun _ => at_most n) (shown_at_most n).
Proof.
  intros [Hc Hs] a [Hp Ha]. unfold run_session. destruct (wa_connection a) as [[c i]|]; [|done].
  destruct (rd_session r) as [[]|e]; try done. by apply (at_most_shown n a).
Qed.
Lemma dial_asks n r : round_ok r ->
  hoare (at_most n) (dial_when_due debug confirm r) (fun _ => at_most n) (shown_at_most n).
Proof.
  intros Hok a [Hp Ha]. unfold dial_when_due. destruct (negb _); [done|]. destruct (_ <? _); [done|].
  destruct (rd_config r) as [config|e]; [|by apply (at_most_shown n a)].
  cbn [wa_pairing_armed set_wa_attempts set_wa_config].
  pose proof (attempt_asks r config (wa_pairing_armed a) Hok) as Hq. cbv zeta in Hq.
  destruct (connect_for_tray _ _ _ _) as [line outcome]. cbn [fst snd] in Hq.
  assert (length (wa_prompts a ++ prompts line) <= n)%nat as Hlen.
  { rewrite length_app. unfold asks in Ha.
    destruct Hq as [->|(input & -> & Harm & _)]; [cbn; lia|rewrite Harm in Ha; cbn; lia]. }
  destruct outcome as [[[connection consumed] status]|]; [|exact Hlen]. cbn [fst snd].
  set (a1 := set_wa_prompts _ _). set (a2 := after_attempt _ _ _ _ _).
  assert (wa_prompts a2 = wa_prompts a ++ prompts line /\ wa_commands a2 = wa_commands a
    /\ wa_pairing_armed a2 = wa_pairing_armed a && negb (bool_decide (is_Some connection) || consumed))
    as (E1 & E2 & E3).
  { unfold a2, after_attempt.
    destruct consumed, connection as [[c i]|], (str_eqb status UPGRADE_PEER_STATUS); cbn;
      by rewrite ?andb_true_r, ?andb_false_r. }
  clearbody a2. unfold at_most, asks. rewrite E1, E2, E3. split; [done|].
  unfold asks in Ha. destruct Hq as [->|(input & _ & _ & Hc)].
  - rewrite app_nil_r. destruct (wa_pairing_armed a), (negb _); cbn [andb]; lia.
  - rewrite (Hc _ _ _ eq_refl), orb_true_r, andb_false_r. lia.
Qed.

Lemma run_asks n rounds :
  Forall (fun p => no_pair p.1 /\ round_ok p.2 /\ round_without_pair p.2) rounds ->
  hoare (at_most n) (app_run debug confirm rounds) (fun _ => at_most n) (shown_at_most n).
Proof.
  induction 1 as [|[commands r] rounds (H1 & H2 & H3) Hall IH]; cbn [app_run]; [by apply hoare_ret|].
  apply (hoare_bind _ (fun _ => at_most n)).
  { intros a [Hp Ha]. split; [|done]. unfold no_pair in *. cbn. rewrite elem_of_app. tauto. }
  intros _. apply (hoare_bind _ (fun _ => at_most n)); [|intros _; apply IH]. unfold app_round.
  apply (hoare_bind _ (fun _ => at_most n)); [apply take_asks|intros _].
  apply (hoare_bind _ (fun _ => at_most n)); [by apply session_asks|intros _]. by apply dial_asks.
Qed.

(** *** When it dials *)

(** Moments that are two seconds apart. *)
Definition apart (x y : Instant) : Prop := x + from_secs 2 <= y.
(** Nothing takes time back. *)
Definition round_in_time (now : Instant) (r : Round) : Prop :=
  now <= rd_now r /\ rd_now r <= rd_session_over r /\ rd_session_over r <= rd_awake r
  /\ rd_awake r <= rd_attempt_over r.
Fixpoint rounds_in_time (now : Instant) (rounds : list (list WindowsTrayCommand * Round)) : Prop :=
  match rounds with
  | [] => True
  | (_, r) :: rounds => round_in_time now r /\ rounds_in_time (rd_attempt_over r) rounds
  end.
(** The user neither pairs nor reconnects. *)
Definition unhurried (commands : list WindowsTrayCommand) : Prop :=
  Tray_Pair ∉ commands /\ Tray_Reconnect ∉ commands.
Definition round_unhurried (r : Round) : Prop :=
  unhurried (rd_session_commands r) /\ rd_session r <> Ok Exit_Pair.

(** The attempts so far are apart, and the next is not due sooner, unless a session comes first. *)
Record paced (now : Instant) (a : WindowsApp) : Prop := {
  paced_attempts : Sorted apart (wa_attempts a);
  paced_past : forall x, last (wa_attempts a) = Some x -> x <= now;
  paced_next : wa_connection a = None -> wa_connection_enabled a = true ->
    forall x, last (wa_attempts a) = Some x -> apart x (wa_next_connect_attempt a);
  paced_commands : unhurried (wa_commands a);
}.

Lemma Sorted_snoc {A} (R : A -> A -> Prop) l y : Sorted R l -> (forall x, last l = Some x -> R x y) ->
  Sorted R (l ++ [y]).
Proof.
  induction l as [|x l IH]; intros Hs Hl; [repeat constructor|].
  apply Sorted_inv in Hs as [Hs Hd]. cbn [app]. constructor.
  - apply IH; [done|]. intros z Hz. apply Hl. destruct l; [done|exact Hz].
  - destruct l as [|z l]; cbn; constructor; [by apply Hl|by inversion Hd].
Qed.

Lemma round_paced now r a a' : round_in_time now r -> round_unhurried r -> paced now a ->
  app_round debug confirm r a = (a', Ok tt) -> paced (rd_attempt_over r) a'.
Proof.
  intros (T1 & T2 & T3 & T4) [[Hc1 Hc2] Hs] Ha E. unfold app_round in E.
  unbind E a1 u1 E1. unbind E a2 u2 E2.
  assert (paced (rd_now r) a1) as H1.
  { destruct Ha as [P1 P2 P3 [P4 P5]]. revert E1. unfold take_commands.
    destruct (handle_pending_windows_tray_commands _ _ _) as [[rest outcome] k] eqn:Eh.
    apply pending_spec in Eh as [Hpend Hrec]. destruct (Hpend P4) as [Hrest Ho], (Hrec P5) as [Hrest' Ho'].
    destruct outcome; intros [= <-]; split; cbn; try done;
      try (intros x Hx; specialize (P2 x Hx); lia). }
  assert (paced (rd_session_over r) a2 /\ wa_connection a2 = None) as [H2 Hn].
  { destruct H1 as [P1 P2 P3 P4]. revert E2. unfold run_session.
    destruct (wa_connection a1) as [[c i]|] eqn:Ec.
    2:{ intros [= <-]. split; [|done]. split; auto. intros x Hx. specialize (P2 x Hx). lia. }
    destruct (rd_session r) as [[]|e]; try done; intros [= <-]; (split; [|done]);
      (split; cbn; [done|intros x Hx; specialize (P2 x Hx); lia| |done]); [done|].
    intros _ _ x Hx. specialize (P2 x Hx). unfold apart. lia. }
  clear E1 E2 H1 Ha. destruct H2 as [P1 P2 P3 P4]. revert E. unfold dial_when_due.
  destruct (wa_connection_enabled a2) eqn:Een; cbn [negb].
  2:{ intros [= <-]. split; cbn; try done; [|by rewrite Een]. intros x Hx. specialize (P2 x Hx). lia. }
  destruct (Z.ltb_spec (rd_awake r) (wa_next_connect_attempt a2)) as [|Hdue].
  { intros [= <-]. split; auto. intros x Hx. specialize (P2 x Hx). lia. }
  destruct (rd_config r) as [config|e]; [|done]. cbn [wa_pairing_armed set_wa_attempts set_wa_config].
  destruct (connect_for_tray _ _ _ _) as [line [[[connection consumed] status]|]]; [|done].
  intros [= <-]. unfold after_attempt.
  assert (Sorted apart (wa_attempts a2 ++ [rd_awake r])) as Hsorted.
  { apply Sorted_snoc; [done|]. intros x Hx. specialize (P3 Hn eq_refl x Hx). unfold apart in *. lia. }
  destruct consumed, connection as [[c i]|], (str_eqb status UPGRADE_PEER_STATUS);
    (split; cbn; [done|intros x; rewrite last_snoc; intros [= <-]; lia| |done]); try done;
    intros _ _ x; rewrite last_snoc; intros [= <-]; unfold apart; lia.
Qed.

Lemma run_paced rounds : forall now a a', rounds_in_time now rounds ->
  Forall (fun p => unhurried p.1 /\ round_unhurried p.2) rounds -> paced now a ->
  app_run debug confirm rounds a = (a', Ok tt) -> Sorted apart (wa_attempts a').
Proof.
  induction rounds as [|[commands r] rounds IH]; intros now a a' Ht Hall Ha E; cbn [app_run] in E.
  - injection E as <-. apply Ha.
  - destruct Ht as [T1 T2]. apply Forall_cons in Hall as [[H1 H2] Hall].
    unbind E a1 u1 E1. injection E1 as <- _. unbind E a2 u2 E2. destruct u2.
    apply (round_paced now) in E2; [by eapply IH|done|done|].
    destruct Ha as [P1 P2 P3 [P4 P5]], H1 as [K1 K2]. split; try done. cbn. unfold unhurried.
    rewrite !elem_of_app. tauto.
Qed.
End Properties.

(** C34. Pairing is one-shot: in every run of the Windows application, from its start on and through all
    its attempts and sessions and however it ends, at most one confirmation window is opened, whatever
    the user does with it and whatever the peers answer, unless the user chose to pair in the tray. *)
Theorem pairing_asks_once `{Hashing} (debug : Frame -> string)
    (user : PairingConfirmationInput -> confirmation) (config : AppConfig) (pair : bool) (first : Round)
    (rounds : list (list WindowsTrayCommand * Round)) (a : WindowsApp)
    (Hfirst : round_ok first)
    (Hall : Forall (fun p => no_pair p.1 /\ round_ok p.2 /\ round_without_pair p.2) rounds)
    (Hstart : start_application debug user config pair (rd_dial first) (rd_line first) (rd_now first) = Some a) :
  (length (wa_prompts (app_run debug user rounds a).1) <= 1)%nat.
Proof.
  unfold start_application in Hstart. set (armed := pair || _) in Hstart.
  pose proof (attempt_asks debug user first config armed Hfirst) as Hq. cbv zeta in Hq.
  destruct (connect_for_tray _ _ _ _) as [line [[[connection consumed] status]|]]; [|done].
  injection Hstart as <-. cbn [fst snd] in Hq. set (a := {| wa_pairing_armed := _ |}).
  assert (at_most 1 a) as Ha.
  { split; [apply not_elem_of_nil|]. unfold a, asks. cbn.
    destruct Hq as [->|(input & -> & _ & Hc)]; [|rewrite (Hc _ _ _ eq_refl), andb_false_r; cbn; lia].
    destruct (armed && _ && _); cbn; lia. }
  pose proof (run_asks debug user 1 rounds Hall a Ha) as Hr.
  destruct (app_run debug user rounds a).2; [by apply at_most_shown|exact Hr].
Qed.

(** No tight loop: while the user neither pairs nor reconnects, the Windows application dials at most
    every two seconds, however its attempts and sessions end. *)
Theorem dials_are_two_seconds_apart `{Hashing} (debug : Frame -> string)
    (user : PairingConfirmationInput -> confirmation) (rounds : list (list WindowsTrayCommand * Round))
    (now : Instant) (a a' : WindowsApp) (Hempty : wa_attempts a = []) (Hcmd : unhurried (wa_commands a))
    (Htime : rounds_in_time now rounds)
    (Hall : Forall (fun p => unhurried p.1 /\ round_unhurried p.2) rounds)
    (Hrun : app_run debug user rounds a = (a', Ok tt)) :
  Sorted apart (wa_attempts a').
Proof.
  apply (run_paced debug user rounds now a a'); [done|done| |done].
  split; rewrite ?Hempty; try done; constructor.
Qed.

(** *** Instances *)

Import SampleHash.
Definition sample_dial (config : AppConfig) (armed : bool) : WindowsDial :=
  {| wd_config := config; wd_fingerprint := "aa"; wd_pairing_armed := armed; wd_session_paused := false;
     wd_network := sample_network "bb"; wd_role_error := None; wd_config_error := None;
     wd_screen := sample_screens |}.
(** A peer that is new and declines, [after] seconds from the start. *)
Definition declined_round (after : Z) : Round :=
  {| rd_now := from_secs after; rd_session := Ok Exit_Disconnect; rd_session_forwarding := true;
     rd_session_commands := []; rd_session_over := from_secs after; rd_awake := from_secs after;
     rd_config := Ok controller_default; rd_dial := sample_dial; rd_line := declining_line;
     rd_attempt_over := from_secs after |}.
Definition declined_rounds : list (list WindowsTrayCommand * Round) :=
  [([], declined_round 3); ([Tray_OpenSettings], declined_round 4); ([], declined_round 6)].
Definition declined_start : option WindowsApp :=
  start_application sample_debug agreeable controller_default false sample_dial declining_line 0.
Definition declined_application : WindowsApp :=
  default {| wa_pairing_armed := false; wa_connection := None; wa_connection_enabled := false;
             wa_input_forwarding_enabled := false; wa_next_connect_attempt := 0;
             wa_config := controller_default; wa_commands := []; wa_statuses := [];
             wa_audio_statuses := []; wa_prompts := []; wa_attempts := [] |} declined_start.
Definition declined_end : WindowsApp :=
  (app_run sample_debug agreeable declined_rounds declined_application).1.

Lemma declined_round_ok after : round_ok (declined_round after).
Proof. by intros config armed. Qed.

Lemma pairing_asks_once_witness :
  length (wa_prompts declined_end) = 1%nat /\ (length (wa_prompts declined_end) <= 1)%nat.
Proof.
  split; [vm_compute; reflexivity|].
  refine (pairing_asks_once sample_debug agreeable controller_default false (declined_round 0)
    declined_rounds declined_application (declined_round_ok 0) _ _).
  - unfold declined_rounds. repeat constructor; cbn; try done; unfold no_pair;
      rewrite ?elem_of_cons; try (by intros ?%not_elem_of_nil); by intros [|?%not_elem_of_nil].
  - vm_compute. reflexivity.
Defined.

Lemma dials_are_two_seconds_apart_witness :
  wa_attempts declined_end = [from_secs 3; from_secs 6] /\ Sorted apart (wa_attempts declined_end).
Proof.
  split; [vm_compute; reflexivity|].
  refine (dials_are_two_seconds_apart sample_debug agreeable declined_rounds 0 declined_application declined_end
    eq_refl _ _ _ _).
  - split; apply not_elem_of_nil.
  - repeat split; vm_compute; discriminate.
  - unfold declined_rounds. repeat constructor; cbn; unfold unhurried;
      rewrite ?elem_of_cons; try done; try (by intros ?%not_elem_of_nil); by intros [|?%not_elem_of_nil].
  - vm_compute. reflexivity.
Defined.
