(* ===== verification/LinuxCapture.v ===== *)
(** * Capturing input on Linux: [crates/edge-linux-input/src/portal_capture.rs]

    The input-capture portal of the desktop hands over the keyboard and the pointer while the
    pointer is beyond a barrier.  A task of its own thread owns the session with the portal
    ([Capture]): it obeys the commands of the receiver, listens to the signals of the portal and
    the events of the captured devices, and gives the input back when the receiver falls silent,
    when the user types the release chord, when the portal is replaced and when it ends.  One
    function per arm of its loop; a [Moment] is what the clock and the portal answer meanwhile.
    The backend's own calls, made by the receiver's task, are steps of their own, so that they
    interleave with the arms in every way.  Errors are their text. *)
From Stdlib Require Import SpecFloat.
From S2P Require Export Float.
#[local] Open Scope string_scope.
#[local] Open Scope Z_scope.
#[local] Open Scope list_scope.

(** [edge-linux-input/portal_capture 41-41 PORTAL_PREFLIGHT_TIMEOUT] *)
Definition PORTAL_PREFLIGHT_TIMEOUT : Duration := from_secs 8.
(** [edge-linux-input/portal_capture 42-42 PORTAL_COMMAND_TIMEOUT] *)
Definition PORTAL_COMMAND_TIMEOUT : Duration := from_secs 2.
(** [edge-linux-input/portal_capture 44-44 PORTAL_OWNER_WAIT_TIMEOUT] *)
Definition PORTAL_OWNER_WAIT_TIMEOUT : Duration := from_secs 3.
(** [edge-linux-input/portal_capture 45-45 PORTAL_OWNER_STABLE_FOR] *)
Definition PORTAL_OWNER_STABLE_FOR : Duration := from_secs 1.
(** [edge-linux-input/portal_capture 46-46 PORTAL_OWNER_POLL_INTERVAL] *)
Definition PORTAL_OWNER_POLL_INTERVAL : Duration := from_millis 100.
(** [edge-linux-input/portal_capture 47-47 CAPTURE_OWNER_LEASE] *)
Definition CAPTURE_OWNER_LEASE : Duration := from_secs 3.
(** [edge-linux-input/portal_capture 48-48 CAPTURE_LEASE_CHECK_INTERVAL] *)
Definition CAPTURE_LEASE_CHECK_INTERVAL : Duration := from_millis 250.

(** The text of [LinuxInputError::LibeiInit]. *)
Definition LibeiInit (detail : string) : string :=
  ("failed to initialize libei backend: " ++ detail)%string.
(** [edge-linux-input/portal_capture 1041-1043 portal_error] *)
Definition portal_error (error : string) : string :=
  LibeiInit ("InputCapture portal: " ++ error)%string.
(** [edge-linux-input/portal_capture 412-414 portal_owner_error] *)
Definition portal_owner_error (context error : string) : string :=
  LibeiInit ("failed to " ++ context ++ ": " ++ error)%string.

(** [edge-linux-input/portal_capture 51-66 CaptureEvent] *)
Inductive CaptureEvent :=
| Activated (activation_id : Z) (edge : Edge) (normalized_position : float)
| Input (event : InputEvent)
| Deactivated
| EmergencyReleased
| LayoutChanged (previous_zone_set current_zone_set : Z)
| BackendFailed (error : string).

(** [edge-linux-input/portal_capture 68-77 CaptureCommand], without the channels of the answers,
    which are recorded by the task in the order of the commands. *)
Inductive CaptureCommand :=
| Arm | Release (cursor_position : option (float * float)) | Disarm | Shutdown.

(** ** The lease of the owner *)

(** [deadline_millis] counts from [epoch], and zero is none.
    [edge-linux-input/portal_capture 254-263 renew] *)
Definition lease_renewed (epoch now : Instant) : Z :=
  Z.max 1 (Z.min u64_max ((now - epoch + CAPTURE_OWNER_LEASE) / 1000000)).
(** [edge-linux-input/portal_capture 269-272 expired] *)
Definition lease_expired (epoch now : Instant) (deadline : Z) : bool :=
  negb (deadline =? 0) && (deadline <=? (now - epoch) / 1000000).

(** ** The portal process *)

(** [edge-linux-input/portal_capture 281-288 ensure_available] *)
Definition ensure_available (generation : string) (poisoned : option string) :
  option string * result unit string :=
  match poisoned with
  | Some owner =>
      if str_eqb owner generation
      then (poisoned, Err (LibeiInit "InputCapture portal process previously stopped responding; restart xdg-desktop-portal before retrying capture"))
      else (None, Ok tt)
  | None => (poisoned, Ok tt)
  end.

(** [edge-linux-input/portal_capture 325-335 observe] *)
Definition observe (owner : string) (now : Instant) (candidate : option (string * Instant)) :
  option (string * Instant) * option string :=
  match candidate with
  | Some (name, since) =>
      if str_eqb name owner
      then (candidate, if PORTAL_OWNER_STABLE_FOR <=? duration_since now since then Some owner else None)
      else (Some (owner, now), None)
  | None => (Some (owner, now), None)
  end.

(** What the bus answers to one query, asked at its time. *)
Inductive owner_answer := Owned (owner : string) | Not_owned | Query_fails (error : string).

(** The polls, a tenth of a second and the duration of a query apart; [None] when the last one is
    never answered.
    [edge-linux-input/portal_capture 363-401 wait_for_stable_portal_owner] *)
Fixpoint poll_owner (deadline : Instant) (polls : list (Instant * owner_answer))
    (candidate : option (string * Instant)) : option (result string string) :=
  match polls with
  | [] => None
  | (now, answer) :: polls =>
      if deadline <=? now
      then Some (Err (LibeiInit "xdg-desktop-portal did not retain one D-Bus owner for 1000 milliseconds"))
      else
        match answer with
        | Owned owner =>
            match observe owner now candidate with
            | (_, Some owner) => Some (Ok owner)
            | (candidate, None) => poll_owner deadline polls candidate
            end
        | Not_owned => poll_owner deadline polls None
        | Query_fails error =>
            Some (Err (portal_owner_error "query the xdg-desktop-portal owner" error))
        end
  end.
Definition wait_for_stable_portal_owner (start : result unit string) (now : Instant)
    (polls : list (Instant * owner_answer)) : option (result string string) :=
  match start with
  | Err error => Some (Err (portal_owner_error "start xdg-desktop-portal" error))
  | Ok _ => poll_owner (now + PORTAL_OWNER_WAIT_TIMEOUT) polls None
  end.

(** ** Barriers *)

(** [edge-linux-input/portal_capture 354-361 BarrierMetadata] *)
Record BarrierMetadata := {
  bm_edge : Edge; bm_x : Z; bm_y : Z; bm_width : Z; bm_height : Z;
}.
(** A region of the portal: [i32] offsets and [u32] sizes. *)
Record Region := { x_offset : Z; y_offset : Z; region_width : Z; region_height : Z }.
(** [i32::saturating_add]. *)
Definition i32_saturating_add (a b : Z) : Z := Z.max i32_min (Z.min i32_max (a + b)).

(** [edge-linux-input/portal_capture 856-863 configure_barriers] *)
Definition barrier_position (edge : Edge) (r : Region) : Z * Z * Z * Z :=
  let x := x_offset r in
  let y := y_offset r in
  let right := i32_saturating_add x (i32_wrap (region_width r)) in
  let bottom := i32_saturating_add y (i32_wrap (region_height r)) in
  match edge with
  | Edge_Left => (x, y, x, i32_saturating_sub bottom 1)
  | Edge_Right => (right, y, right, i32_saturating_sub bottom 1)
  | Edge_Top => (x, y, i32_saturating_sub right 1, y)
  | Edge_Bottom => (x, bottom, i32_saturating_sub right 1, bottom)
  end.

Definition metadata_of (edge : Edge) (r : Region) : BarrierMetadata :=
  {| bm_edge := edge; bm_x := x_offset r; bm_y := y_offset r;
     bm_width := region_width r; bm_height := region_height r |}.

(** One barrier per region, numbered from one.
    [edge-linux-input/portal_capture 846-876 configure_barriers] *)
Definition requested_barriers (edge : Edge) (regions : list Region) :
  list (Z * (Z * Z * Z * Z) * BarrierMetadata) :=
  imap (fun index r => (Z.of_nat index + 1, barrier_position edge r, metadata_of edge r)) regions.

Definition debug_edge (edge : Edge) : string :=
  match edge with
  | Edge_Left => "Left" | Edge_Right => "Right" | Edge_Top => "Top" | Edge_Bottom => "Bottom"
  end.

(** A barrier that was crossed, when the portal says which.
    [edge-linux-input/portal_capture 907-915 barrier_metadata] *)
Definition barrier_metadata (barrier : option Z) (barriers : gmap Z BarrierMetadata) :
  option BarrierMetadata :=
  match barrier with Some id => barriers !! id | None => None end.

(** [f32] arithmetic. *)
Definition f32_of (z : Z) : float := binary_normalize 24 128 z 0 false.
Definition f32_sub : float -> float -> float := SFsub 24 128.
Definition f32_div : float -> float -> float := SFdiv 24 128.
(** [f32::clamp(0.0, 1.0)], which keeps a NaN. *)
Definition f32_one : float := S754_finite false 8388608 (-23).
Definition f32_clamp_unit (x : float) : float :=
  if SFltb x (S754_zero false) then S754_zero false else if SFltb f32_one x then f32_one else x.

(** [edge-linux-input/portal_capture 917-932 normalized_cursor_position] *)
Definition normalized_cursor_position (barrier : BarrierMetadata)
    (cursor_position : option (float * float)) : float :=
  match cursor_position with
  | None => S754_finite false 8388608 (-24)
  | Some (cursor_x, cursor_y) =>
      let '(position, origin, extent) :=
        match bm_edge barrier with
        | Edge_Left | Edge_Right => (cursor_y, f32_of (bm_y barrier), bm_height barrier)
        | Edge_Top | Edge_Bottom => (cursor_x, f32_of (bm_x barrier), bm_width barrier)
        end in
      if extent <=? 1 then S754_zero false
      else f32_clamp_unit (f32_div (f32_sub position origin) (f32_of (extent - 1)))
  end.

(** ** The events of the captured devices *)

(** [edge-linux-input/portal_capture 959-959 CONTROL_KEYS] *)
Definition CONTROL_KEYS : list Z := [29; 97].
Definition ALT_KEYS : list Z := [56; 100].
Definition KEY_PAUSE : Z := 119.
Definition KEY_ESC : Z := 1.

(** The keys held after a key event, and whether it completes the release chord.
    [edge-linux-input/portal_capture 944-956 update_key] *)
Definition update_key (evdev_code : Z) (down : bool) (pressed_keys : gset Z) : gset Z * bool :=
  let pressed := if down then {[evdev_code]} ∪ pressed_keys else pressed_keys ∖ {[evdev_code]} in
  (pressed, down && ((evdev_code =? KEY_PAUSE) || (evdev_code =? KEY_ESC))
            && existsb (fun key => bool_decide (key ∈ pressed)) CONTROL_KEYS
            && existsb (fun key => bool_decide (key ∈ pressed)) ALT_KEYS).

(** [edge-linux-input/portal_capture 964-969 EisAction] *)
Inductive EisAction := Eis_None | Eis_Input (input : InputEvent) | Eis_EmergencyRelease.

(** The events of the EIS connection that matter, with what a flush answers. *)
Inductive EiEvent :=
| SeatAdded (flush : result unit string)
| Ei_PointerMotion (dx dy : float)
| Ei_Button (button : Z) (press : bool)
| ScrollDiscrete (discrete_dx discrete_dy : Z)
| ScrollDelta (dx dy : float)
| KeyboardKey (key : Z) (press : bool)
| DeviceStopEmulating
| Ei_Disconnected
| Ei_other.

(** [edge-linux-input/portal_capture 1030-1039 mouse_button] *)
Definition mouse_button (button : Z) : option MouseButton :=
  if button =? 272 then Some Button_Left
  else if button =? 273 then Some Button_Right
  else if button =? 274 then Some Button_Middle
  else if button =? 277 then Some Button_Forward
  else if button =? 278 then Some Button_Back
  else None.

Definition wheel_step : float := f64_of 120.

(** [edge-linux-input/portal_capture 971-1028 handle_eis_event] *)
Definition handle_eis_event (event : EiEvent) (pressed : gset Z) : gset Z * result EisAction string :=
  match event with
  | SeatAdded flush =>
      (pressed, match flush with Ok _ => Ok Eis_None | Err error => Err (LibeiInit error) end)
  | Ei_PointerMotion dx dy => (pressed, Ok (Eis_Input (PointerMotion (f32_to_f64 dx) (f32_to_f64 dy))))
  | Ei_Button button press =>
      (pressed, Ok match mouse_button button with
                   | Some button => Eis_Input (PointerButton button press)
                   | None => Eis_None
                   end)
  | ScrollDiscrete dx dy =>
      (pressed, Ok (Eis_Input (PointerWheel (f64_div (f64_of dx) wheel_step)
                                            (f64_div (SFopp (f64_of dy)) wheel_step))))
  | ScrollDelta dx dy =>
      (pressed, Ok (Eis_Input (PointerWheel (f64_div (f32_to_f64 dx) wheel_step)
                                            (f64_div (SFopp (f32_to_f64 dy)) wheel_step))))
  | KeyboardKey key press =>
      if 2 ^ 16 <=? key then (pressed, Ok Eis_None)
      else match update_key key press pressed with
           | (_, true) => (∅, Ok Eis_EmergencyRelease)
           | (pressed, false) => (pressed, Ok (Eis_Input (Key key press)))
           end
  | DeviceStopEmulating | Ei_Disconnected => (∅, Ok (Eis_Input AllKeysUp))
  | Ei_other => (pressed, Ok Eis_None)
  end.

(** ** The task *)

(** A call of the portal: how long it takes, and what it says. *)
Record Reply (A : Type) := { reply_takes : Duration; says : result A string }.
Arguments reply_takes {A}.
Arguments says {A}.

(** [edge-linux-input/portal_capture 756-768 portal_command] *)
Definition portal_command {A} (name : string) (reply : Reply A) : result A string :=
  if reply_takes reply <=? PORTAL_COMMAND_TIMEOUT then map_err portal_error (says reply)
  else Err (LibeiInit ("InputCapture portal " ++ name ++ " call timed out after two seconds")%string).

(** The calls that change the session. *)
Inductive portal_call :=
| Call_Enable
| Call_Disable
| Call_Release (activation_id : Z) (cursor_position : option (float * float))
| Call_SetPointerBarriers (barriers : list (Z * (Z * Z * Z * Z))) (zone_set : Z)
| Call_Close.

Record Zones := { zone_set_of : Z; regions : list Region }.

(** What the clock and the portal answer while an arm of the loop runs; the answer of a request
    includes its response. *)
Record Moment := {
  m_now : Instant;
  m_enable : Reply unit;
  m_release : Reply unit;
  m_disable : Reply unit;
  m_zones : Reply Zones;
  m_failed_barriers : Reply (list Z);
}.

(** The variables of the loop with what it shares with the backend: the commands that wait,
    whether the backend was dropped, the lease's deadline.  [cp_zone_set] is also the one the
    backend reads.  The events sent, the calls made and the answers given are recorded. *)
Record Capture := {
  cp_commands : list CaptureCommand;
  cp_dropped : bool;
  cp_deadline : Z;
  cp_zone_set : Z;
  cp_barriers : gmap Z BarrierMetadata;
  cp_activation_id : option Z;
  cp_pressed : gset Z;
  cp_armed : bool;
  cp_owner_valid : bool;
  cp_events : list CaptureEvent;
  cp_calls : list portal_call;
  cp_answers : list (CaptureCommand * result unit string);
}.
Definition set_cp_commands : list CaptureCommand -> Capture -> Capture := ltac:(field_setter cp_commands).
Definition set_cp_dropped : bool -> Capture -> Capture := ltac:(field_setter cp_dropped).
Definition set_cp_deadline : Z -> Capture -> Capture := ltac:(field_setter cp_deadline).
Definition set_cp_zone_set : Z -> Capture -> Capture := ltac:(field_setter cp_zone_set).
Definition set_cp_barriers : gmap Z BarrierMetadata -> Capture -> Capture :=
  ltac:(field_setter cp_barriers).
Definition set_cp_activation_id : option Z -> Capture -> Capture :=
  ltac:(field_setter cp_activation_id).
Definition set_cp_pressed : gset Z -> Capture -> Capture := ltac:(field_setter cp_pressed).
Definition set_cp_armed : bool -> Capture -> Capture := ltac:(field_setter cp_armed).
Definition set_cp_owner_valid : bool -> Capture -> Capture := ltac:(field_setter cp_owner_valid).
Definition set_cp_events : list CaptureEvent -> Capture -> Capture := ltac:(field_setter cp_events).
Definition set_cp_calls : list portal_call -> Capture -> Capture := ltac:(field_setter cp_calls).
Definition set_cp_answers : list (CaptureCommand * result unit string) -> Capture -> Capture :=
  ltac:(field_setter cp_answers).

(** An arm goes on with the loop, or ends it with the result of the task. *)
Abbreviation capturing := (stateful Capture (result unit string)).
Definition alter (f : Capture -> Capture) : capturing unit := fun c => (f c, Ok tt).
Definition tell (event : CaptureEvent) (c : Capture) : Capture :=
  set_cp_events (cp_events c ++ [event]) c.
Definition called (call : portal_call) (c : Capture) : Capture :=
  set_cp_calls (cp_calls c ++ [call]) c.
Definition answered (command : CaptureCommand) (r : result unit string) (c : Capture) : Capture :=
  set_cp_answers (cp_answers c ++ [(command, r)]) c.
(** [input_state.clear()] and the event that follows it. *)
Definition keys_up (c : Capture) : Capture := tell (Input AllKeysUp) (set_cp_pressed ∅ c).
Definition ends_with {A} (error : string) : capturing A := st_fail (Err error).
(** [?] of a call. *)
Definition of_portal {A} (r : result A string) : capturing A :=
  match r with Ok x => st_ret x | Err error => ends_with error end.

(** [edge-linux-input/portal_capture 784-797 force_close_portal_capture]: the answers do not
    matter. *)
Definition force_close (c : Capture) : Capture :=
  let c := match cp_activation_id c with
           | Some id => called (Call_Release id None) (set_cp_activation_id None c)
           | None => c
           end in
  called Call_Close (called Call_Disable c).

(** [edge-linux-input/portal_capture 831-905 configure_barriers] *)
Definition configure_barriers (edge : Edge) (m : Moment) :
  capturing (Z * gmap Z BarrierMetadata) :=
  zones <-! of_portal (portal_command "GetZones" (m_zones m));;
  match regions zones with
  | [] => ends_with (LibeiInit "InputCapture portal returned no pointer-barrier zones")
  | _ :: _ =>
      let requested := requested_barriers edge (regions zones) in
      do! alter (called (Call_SetPointerBarriers requested.*1 (zone_set_of zones)));;
      failed <-! of_portal (portal_command "SetPointerBarriers" (m_failed_barriers m));;
      let accepted := filter (fun b => b.1.1 ∉ failed) requested in
      match accepted with
      | [] => ends_with (LibeiInit ("InputCapture portal rejected every requested "
                                    ++ debug_edge edge ++ " pointer barrier")%string)
      | _ :: _ => st_ret (zone_set_of zones, list_to_map ((fun b => (b.1.1, b.2)) <$> accepted))
      end
  end.

Section Task.
Context (generation : string) (edge : Edge) (epoch : Instant).

(** What the owner watch brings: the end of the watch, a change that cannot be decoded, or the
    new owner. *)
Inductive owner_change := Watch_ends | Undecoded (error : string) | Owner_is (owner : option string).

(** [edge-linux-input/portal_capture 514-545 run_portal_capture] *)
Definition on_owner_change (change : owner_change) : capturing unit :=
  let '(observed, detail) :=
    match change with
    | Owner_is (Some owner) => (Some owner, generation ++ " -> " ++ owner)%string
    | Owner_is None => (None, generation ++ " -> no owner")%string
    | Undecoded error => (None, "could not decode portal owner change: " ++ error)%string
    | Watch_ends => (None, "portal owner-change monitor ended")
    end in
  if bool_decide (observed = Some generation) then st_ret tt
  else
    do! alter (fun c => keys_up (set_cp_deadline 0 (set_cp_owner_valid false c)));;
    ends_with (LibeiInit ("xdg-desktop-portal owner changed while capture was active ("
                          ++ detail ++ "); discarded the stale session")%string).

(** [edge-linux-input/portal_capture 548-555 run_portal_capture] *)
Definition on_arm (m : Moment) : capturing unit := fun c =>
  let r := portal_command "Enable" (m_enable m) in
  let armed := match r with Ok _ => true | Err _ => false end in
  let c := set_cp_armed armed (called Call_Enable c) in
  let c := if armed then c else set_cp_deadline 0 c in
  (answered Arm r c, Ok tt).

(** [edge-linux-input/portal_capture 556-576 run_portal_capture] *)
Definition on_release (m : Moment) (cursor_position : option (float * float)) : capturing unit := fun c =>
  match cp_activation_id c with
  | Some id =>
      let r := portal_command "Release" (m_release m) in
      let c := called (Call_Release id cursor_position) c in
      let c := match r with Ok _ => set_cp_activation_id None c | Err _ => c end in
      (answered (Release cursor_position) r c, Ok tt)
  | None => (answered (Release cursor_position) (Ok tt) c, Ok tt)
  end.

(** [edge-linux-input/portal_capture 577-603 run_portal_capture] *)
Definition on_disarm (m : Moment) : capturing unit := fun c =>
  let c := set_cp_deadline 0 (set_cp_armed false c) in
  let r := portal_command "Disable" (m_disable m) in
  let c := answered Disarm r (called Call_Disable c) in
  match r with
  | Ok _ => (set_cp_activation_id None c, Ok tt)
  | Err detail =>
      (tell EmergencyReleased (force_close (keys_up c)),
       Err (Err (LibeiInit ("failed to disable capture; portal session was closed to restore local input: "
                            ++ detail)%string)))
  end.

(** [edge-linux-input/portal_capture 604-608 run_portal_capture] *)
Definition on_shutdown : capturing unit := fun c =>
  (set_cp_deadline 0 (set_cp_armed false c), Err (Ok tt)).

(** A command, or the end of the commands.
    [edge-linux-input/portal_capture 546-610 run_portal_capture] *)
Definition on_command (m : Moment) : capturing unit := fun c =>
  match cp_commands c with
  | [] => if cp_dropped c then on_shutdown c else (c, Ok tt)
  | command :: commands =>
      let c := set_cp_commands commands c in
      match command with
      | Arm => on_arm m c
      | Release cursor_position => on_release m cursor_position c
      | Disarm => on_disarm m c
      | Shutdown => on_shutdown c
      end
  end.

(** [edge-linux-input/portal_capture 611-628 run_portal_capture] *)
Definition on_lease_tick (now : Instant) : capturing unit := fun c =>
  if cp_armed c && lease_expired epoch now (cp_deadline c) then
    let c := keys_up (set_cp_deadline 0 (set_cp_armed false c)) in
    (tell EmergencyReleased (force_close c),
     Err (Err (LibeiInit "capture owner stopped responding; portal session was closed to restore local input")))
  else (c, Ok tt).

(** [edge-linux-input/portal_capture 629-650 run_portal_capture] *)
Definition on_activated (activation_id barrier : option Z) (cursor_position : option (float * float)) :
  capturing unit := fun c =>
  match activation_id with
  | None => (c, Ok tt)
  | Some id =>
      let c := set_cp_activation_id (Some id) c in
      match barrier_metadata barrier (cp_barriers c) with
      | Some b => (tell (Activated id (bm_edge b) (normalized_cursor_position b cursor_position)) c, Ok tt)
      | None => (c, Ok tt)
      end
  end.

(** The signals that the capture is deactivated, and that it is disabled.
    [edge-linux-input/portal_capture 651-662 run_portal_capture] *)
Definition on_deactivated : capturing unit :=
  alter (fun c => tell Deactivated (keys_up (set_cp_activation_id None c))).

(** [edge-linux-input/portal_capture 663-684 run_portal_capture] *)
Definition on_zones_changed (m : Moment) (zone_set : option Z) : capturing unit :=
  c <-! st_get;;
  let invalidated := default (cp_zone_set c) zone_set in
  do! alter (fun c => called Call_Disable (set_cp_deadline 0 (set_cp_armed false c)));;
  do! of_portal (portal_command "Disable for layout change" (m_disable m));;
  do! alter (fun c => keys_up (set_cp_activation_id None c));;
  current <-! configure_barriers edge m;;
  alter (fun c => tell (LayoutChanged invalidated current.1)
                    (set_cp_barriers current.2 (set_cp_zone_set current.1 c))).

(** [edge-linux-input/portal_capture 685-691 run_portal_capture] *)
Definition on_closed : capturing unit :=
  do! alter keys_up;; ends_with (LibeiInit "InputCapture portal session was revoked").

(** An event of the devices; [None] when their stream ends.
    [edge-linux-input/portal_capture 692-723 run_portal_capture] *)
Definition on_eis (m : Moment) (event : option (result EiEvent string)) : capturing unit :=
  match event with
  | None => do! alter keys_up;; ends_with (LibeiInit "EIS event stream closed")
  | Some (Err error) => ends_with (LibeiInit error)
  | Some (Ok event) =>
      c <-! st_get;;
      let '(pressed, action) := handle_eis_event event (cp_pressed c) in
      do! alter (set_cp_pressed pressed);;
      action <-! of_portal action;;
      match action with
      | Eis_None => st_ret tt
      | Eis_Input input => alter (tell (Input input))
      | Eis_EmergencyRelease =>
          do! alter (tell (Input AllKeysUp));;
          c <-! st_get;;
          do! match cp_activation_id c with
              | Some id =>
                  let r := portal_command "emergency Release" (m_release m) in
                  do! alter (called (Call_Release id None));;
                  do! alter (match r with Ok _ => set_cp_activation_id None | Err _ => fun c => c end);;
                  of_portal r
              | None => st_ret tt
              end;;
          alter (tell EmergencyReleased)
      end
  end.

(** The arms of the loop, and the calls of the backend in the receiver's task: [arm],
    [keep_alive], [release], [disarm] and its drop send a command and renew or clear the lease. *)
Inductive capture_step :=
| Owner_changes (change : owner_change)
| Takes_command (m : Moment)
| Lease_ticks (now : Instant)
| Gets_activated (activation_id barrier : option Z) (cursor_position : option (float * float))
| Gets_deactivated
| Zones_change (m : Moment) (zone_set : option Z)
| Session_closes
| Device_event (m : Moment) (event : option (result EiEvent string))
| Backend_arms (now : Instant)
| Backend_keeps_alive (now : Instant)
| Backend_releases (cursor_position : option (float * float))
| Backend_disarms
| Backend_drops.

Definition sends (command : CaptureCommand) (c : Capture) : Capture :=
  set_cp_commands (cp_commands c ++ [command]) c.

(** [edge-linux-input/portal_capture 179-196 arm].  When [arm] was refused the
    task has cleared the lease before it answered, which the backend repeats. *)
Definition backend_arms (now : Instant) (c : Capture) : Capture :=
  sends Arm (set_cp_deadline (lease_renewed epoch now) c).
(** [edge-linux-input/portal_capture 198-204 keep_alive] *)
Definition backend_keeps_alive (now : Instant) (c : Capture) : Capture :=
  set_cp_deadline (lease_renewed epoch now) c.
(** [edge-linux-input/portal_capture 218-226 disarm] *)
Definition backend_disarms (c : Capture) : Capture := sends Disarm (set_cp_deadline 0 c).
(** Eight commands may wait.
    [edge-linux-input/portal_capture 344-347 drop] *)
Definition backend_drops (c : Capture) : Capture :=
  let c := set_cp_deadline 0 c in
  set_cp_dropped true (if (length (cp_commands c) <? 8)%nat then sends Shutdown c else c).

(** [edge-linux-input/portal_capture 511-727 run_portal_capture] *)
Definition portal_step (step : capture_step) : capturing unit :=
  match step with
  | Owner_changes change => on_owner_change change
  | Takes_command m => on_command m
  | Lease_ticks now => on_lease_tick now
  | Gets_activated id barrier cursor => on_activated id barrier cursor
  | Gets_deactivated => on_deactivated
  | Zones_change m zone_set => on_zones_changed m zone_set
  | Session_closes => on_closed
  | Device_event m event => on_eis m event
  | Backend_arms now => alter (backend_arms now)
  | Backend_keeps_alive now => alter (backend_keeps_alive now)
  | Backend_releases cursor => alter (sends (Release cursor))
  | Backend_disarms => alter backend_disarms
  | Backend_drops => alter backend_drops
  end.

(** What happens when the loop has ended: the session is given up while the portal that made it
    is there, and the receiver is told of an error.
    [edge-linux-input/portal_capture 729-754 run_portal_capture] *)
Definition tear_down (c : Capture) : Capture :=
  if cp_owner_valid c then
    let c := match cp_activation_id c with
             | Some id => called (Call_Release id None) (set_cp_activation_id None c)
             | None => c
             end in
    called Call_Close (called Call_Disable c)
  else c.
(** [edge-linux-input/portal_capture 134-138 preflight] *)
Definition report (outcome : result unit string) (c : Capture) : Capture :=
  match outcome with Ok _ => c | Err error => tell (BackendFailed error) c end.

(** The loop over a sequence of steps, to its end if it ends. *)
Fixpoint portal_run (steps : list capture_step) (c : Capture) : Capture * option (result unit string) :=
  match steps with
  | [] => (c, None)
  | step :: steps =>
      match portal_step step c with
      | (c, Ok _) => portal_run steps c
      | (c, Err outcome) => (report outcome (tear_down c), Some outcome)
      end
  end.
End Task.

(** ** The start of a capture *)

(** What the set-up finds, step by step; a step that is not over after the eight seconds of the
    receiver's patience is one that never answers.  The capabilities granted are whether the
    keyboard and the pointer are among them, and their text; [ps_eis] is the connection of the
    devices with the subscriptions to the signals. *)
Record PortalSetup := {
  ps_bus : option (result unit string);
  ps_start : result unit string;
  ps_now : Instant;
  ps_polls : list (Instant * owner_answer);
  ps_session : option (result (bool * bool * string) string);
  ps_barriers : option Moment;
  ps_eis : option (result unit string);
  ps_owner_after : option (result string string);
}.

(** The gate of the process and the generation of this attempt; a set-up fails, or hangs. *)
Abbreviation setting_capture := (stateful (option string * option string) (option string)).
Definition step_of {A} (r : option (result A string)) : setting_capture A :=
  match r with
  | None => st_fail None
  | Some (Err error) => st_fail (Some error)
  | Some (Ok x) => st_ret x
  end.

Definition fresh_capture (zone_set : Z) (barriers : gmap Z BarrierMetadata) : Capture :=
  {| cp_commands := []; cp_dropped := false; cp_deadline := 0; cp_zone_set := zone_set;
     cp_barriers := barriers; cp_activation_id := None; cp_pressed := ∅; cp_armed := false;
     cp_owner_valid := true; cp_events := []; cp_calls := []; cp_answers := [] |}.

(** [edge-linux-input/portal_capture 416-508 run_portal_capture] *)
Definition set_up_capture (edge : Edge) (s : PortalSetup) : setting_capture Capture :=
  do! step_of (ps_bus s);;
  generation <-! step_of (wait_for_stable_portal_owner (ps_start s) (ps_now s) (ps_polls s));;
  do! (fun g => let '(poisoned, r) := ensure_available generation g.1 in
                ((poisoned, g.2), map_err Some r));;
  do! (fun g => ((g.1, Some generation), Ok tt));;
  granted <-! step_of (ps_session s);;
  let '(keyboard, pointer, granted) := granted in
  do! (if keyboard && pointer then st_ret tt
       else st_fail (Some (LibeiInit ("InputCapture portal granted " ++ granted
                                      ++ "; keyboard and pointer are required")%string)));;
  configured <-! match ps_barriers s with
                 | None => st_fail None
                 | Some m => fun g => (g, match (configure_barriers edge m (fresh_capture 0 ∅)).2 with
                                          | Ok x => Ok x
                                          | Err (Err error) => Err (Some error)
                                          | Err (Ok _) => Err None
                                          end)
                 end;;
  do! step_of (ps_eis s);;
  owner_after_setup <-! step_of (ps_owner_after s);;
  if str_eqb owner_after_setup generation then st_ret (fresh_capture configured.1 configured.2)
  else st_fail (Some (LibeiInit
         ("xdg-desktop-portal restarted during InputCapture setup (" ++ generation ++ " -> "
          ++ owner_after_setup ++ "); discarded the stale session")%string)).

(** [edge-linux-input/portal_capture 88-173 preflight] *)
Definition preflight (edge : Edge) (s : PortalSetup) (poisoned : option string) :
  option string * result Capture string :=
  match set_up_capture edge s (poisoned, None) with
  | ((poisoned, _), Ok c) => (poisoned, Ok c)
  | ((poisoned, _), Err (Some detail)) => (poisoned, Err (LibeiInit detail))
  | ((poisoned, generation), Err None) =>
      (match generation with Some _ => generation | None => poisoned end,
       Err (LibeiInit "InputCapture portal stopped responding during preflight; retries are blocked for this portal process until xdg-desktop-portal is restarted"))
  end.
