(* ===== verification/LinuxCaptureSafety.v ===== *)
(** * What the Linux capture guarantees

    Over [LinuxCapture]: the receiver is told of exactly the keys that are held, the release chord
    and a receiver that falls silent give the input back, a loop that ends leaves no session behind,
    a portal that hung or was replaced is not touched again, and an activation names the monitor it
    happened at. *)
From Stdlib Require Import SpecFloat.
From S2P Require Export LinuxCapture.
#[local] Open Scope string_scope.
#[local] Open Scope Z_scope.
#[local] Open Scope list_scope.

(** ** The keys the receiver was told of *)

(** The keys that are down for who has heard these events, a key at a time. *)
Definition hears (keys : gset Z) (event : CaptureEvent) : gset Z :=
  match event with
  | Input (Key code true) => {[code]} ∪ keys
  | Input (Key code false) => keys ∖ {[code]}
  | Input AllKeysUp => ∅
  | _ => keys
  end.
Definition told (events : list CaptureEvent) : gset Z := foldl hears ∅ events.

Lemma told_snoc events event : told (events ++ [event]) = hears (told events) event.
Proof. apply foldl_snoc. Qed.

(** Steps that keep what was told in step with what is held. *)
Definition truthful (c : Capture) : Prop := told (cp_events c) = cp_pressed c.
Definition stays_truthful (c c' : Capture) : Prop := truthful c -> truthful c'.
#[export] Instance stays_truthful_preorder : PreOrder stays_truthful.
Proof. split; [by intros c Hc|intros x y z H1 H2 Hx; by apply H2, H1]. Qed.

Lemma alter_within (R : Capture -> Capture -> Prop) f : (forall c, R c (f c)) -> within R (alter f).
Proof. intros H c. apply H. Qed.
Lemma ends_within {A} R `{!PreOrder R} error : within R (ends_with error : capturing A).
Proof. by intros c. Qed.
Lemma of_portal_within {A} R `{!PreOrder R} (r : result A string) : within R (of_portal r).
Proof. by destruct r; intros c. Qed.

(** An event that says nothing of keys. *)
Definition keyless (event : CaptureEvent) : bool :=
  match event with Input (Key _ _) | Input AllKeysUp => false | _ => true end.
Lemma tell_truthful event c : keyless event = true -> stays_truthful c (tell event c).
Proof.
  intros Hk Hc. unfold truthful, tell in *. cbn. rewrite told_snoc, <- Hc.
  destruct event as [| [] | | | |]; done.
Qed.
Lemma keys_up_truthful c : truthful (keys_up c).
Proof. unfold truthful, keys_up, tell. cbn. by rewrite told_snoc. Qed.
Lemma force_close_same c : cp_events (force_close c) = cp_events c /\ cp_pressed (force_close c) = cp_pressed c.
Proof. unfold force_close. by destruct (cp_activation_id c). Qed.
Lemma force_close_truthful c : stays_truthful c (force_close c).
Proof. unfold stays_truthful, truthful. by destruct (force_close_same c) as [-> ->]. Qed.

(** A key event is told as it changes what is held, and the release chord as a release of all. *)
Lemma handle_eis_truthful event pressed : forall pressed' action,
  handle_eis_event event pressed = (pressed', action) ->
  match action with
  | Ok Eis_None | Err _ => pressed' = pressed
  | Ok (Eis_Input input) => pressed' = hears pressed (Input input)
  | Ok Eis_EmergencyRelease => pressed' = ∅
  end.
Proof.
  intros pressed' action. destruct event as [[]| |button ?| | |key press| | |]; cbn;
    try (intros ?; by simplify_eq).
  - destruct (mouse_button button); intros ?; by simplify_eq.
  - destruct (_ <=? key); [intros ?; by simplify_eq|].
    case_match; intros ?; simplify_eq; [done|]. by destruct press.
Qed.

Create HintDb truthful discriminated.
#[local] Hint Resolve keys_up_truthful : truthful.
#[local] Hint Extern 1 (truthful (tell _ _)) =>
  apply tell_truthful; [reflexivity|] : truthful.
#[local] Hint Extern 1 (truthful (force_close _)) => apply force_close_truthful : truthful.
(** Following the structure of an arm that tells of no keys. *)
Ltac arm_step :=
  lazymatch goal with
  | |- within _ (alter _) => apply alter_within; intros ? ?; (assumption || auto with truthful)
  | |- within _ (ends_with _) => apply (ends_within _)
  | |- within _ (of_portal _) => apply (of_portal_within _)
  | _ => within_step
  end.

Lemma configure_truthful edge m : within stays_truthful (configure_barriers edge m).
Proof. unfold configure_barriers. repeat arm_step. Qed.

Lemma on_eis_truthful m event : within stays_truthful (on_eis m event).
Proof.
  destruct event as [[event|]|]; cbn [on_eis]; [|repeat arm_step..].
  intros c Hc. unfold st_bind at 1, st_get at 1.
  destruct (handle_eis_event event (cp_pressed c)) as [pressed action] eqn:E.
  apply handle_eis_truthful in E. unfold st_bind at 1, alter at 1.
  destruct action as [[|input|]|]; cbn [of_portal]; unfold st_bind, st_ret, alter.
  - subst. exact Hc.
  - unfold truthful, tell. cbn. by rewrite told_snoc, Hc, E.
  - assert (truthful (tell (Input AllKeysUp) (set_cp_pressed pressed c))) as H1.
    { unfold truthful, tell. cbn. by rewrite told_snoc, E. }
    unfold st_get. destruct (cp_activation_id _); [|by apply tell_truthful].
    destruct (portal_command _ _); [by apply tell_truthful|exact H1].
  - subst. exact Hc.
Qed.

Lemma step_truthful generation edge epoch step : within stays_truthful (portal_step generation edge epoch step).
Proof.
  destruct step; cbn [portal_step].
  - unfold on_owner_change. destruct change as [| |[]]; repeat arm_step.
  - intros c Hc. unfold on_command. destruct (cp_commands c) as [|[] ?].
    + by destruct (cp_dropped c).
    + unfold on_arm. by destruct (portal_command _ _).
    + unfold on_release. cbn. destruct (cp_activation_id c); [|done]. by destruct (portal_command _ _).
    + unfold on_disarm. destruct (portal_command _ _); [done|]. cbn [fst]. apply tell_truthful; [done|]. apply force_close_truthful, keys_up_truthful.
    + done.
  - intros c Hc. unfold on_lease_tick. destruct (_ && _); [|done]. cbn [fst]. auto with truthful.
  - intros c Hc. unfold on_activated. destruct activation_id; [|done].
    destruct (barrier_metadata _ _); [|done]. by apply tell_truthful.
  - unfold on_deactivated. repeat arm_step.
  - unfold on_zones_changed. repeat arm_step. apply configure_truthful.
  - unfold on_closed. repeat arm_step.
  - apply on_eis_truthful.
  - by intros c Hc.
  - by intros c Hc.
  - by intros c Hc.
  - by intros c Hc.
  - intros c Hc. unfold alter, backend_drops. cbn [fst]. by case_match.
Qed.

Lemma tear_down_same c : cp_events (tear_down c) = cp_events c /\ cp_pressed (tear_down c) = cp_pressed c.
Proof. unfold tear_down. destruct (cp_owner_valid c); [|done]. by destruct (cp_activation_id c). Qed.

(** A run, up to the end of its loop. *)
Lemma run_ends generation edge epoch steps : forall c c' outcome,
  portal_run generation edge epoch steps c = (c', Some outcome) -> exists pre step post c1 c2,
    steps = pre ++ step :: post /\ portal_run generation edge epoch pre c = (c1, None)
    /\ portal_step generation edge epoch step c1 = (c2, Err outcome) /\ c' = report outcome (tear_down c2).
Proof.
  induction steps as [|step steps IH]; intros c c' outcome; cbn [portal_run]; [done|].
  destruct (portal_step generation edge epoch step c) as [c1 [[]|r]] eqn:E.
  - intros H. destruct (IH _ _ _ H) as (pre & step' & post & c2 & c3 & -> & H1 & H2 & H3).
    exists (step :: pre), step', post, c2, c3. split_and!; [done| |done|done]. cbn [portal_run]. by rewrite E.
  - intros [= <- <-]. by exists [], step, steps, c, c1.
Qed.
Lemma run_within (R : Capture -> Capture -> Prop) `{!PreOrder R} generation edge epoch steps :
  (forall step, step ∈ steps -> within R (portal_step generation edge epoch step)) -> forall c c',
  portal_run generation edge epoch steps c = (c', None) -> R c c'.
Proof.
  induction steps as [|step steps IH]; intros Hs c c'; cbn [portal_run].
  - by intros [= <-].
  - pose proof (Hs step ltac:(set_solver) c) as H.
    destruct (portal_step generation edge epoch step c) as [c1 [[]|r]]; [|done].
    intros E. etrans; [exact H|]. apply (IH ltac:(set_solver)), E.
Qed.

(** C20. The receiver knows what is held: however signals, device events, commands and failures
    interleave, the keys that are down by the events it was sent are the keys the capture holds, at
    any time and when the loop has ended. *)
Theorem receiver_knows_the_held_keys (generation : string) (edge : Edge) (epoch : Instant)
    (zone_set : Z) (barriers : gmap Z BarrierMetadata) (steps : list capture_step) (c : Capture)
    (ended : option (result unit string))
    (Hr : portal_run generation edge epoch steps (fresh_capture zone_set barriers) = (c, ended)) :
  told (cp_events c) = cp_pressed c.
Proof.
  assert (truthful (fresh_capture zone_set barriers)) as H0 by done.
  destruct ended as [outcome|].
  - apply run_ends in Hr as (pre & step & post & c1 & c2 & -> & H1 & H2 & ->).
    apply (run_within stays_truthful) in H1; [|intros; apply step_truthful].
    pose proof (step_truthful generation edge epoch step c1 (H1 H0)) as H3. rewrite H2 in H3.
    unfold truthful in H3. cbn [fst] in H3. destruct (tear_down_same c2) as [E1 E2].
    destruct outcome; cbn [report]; unfold tell; cbn; rewrite ?told_snoc, E1, E2; exact H3.
  - apply (run_within stays_truthful) in Hr; [|intros; apply step_truthful]. by apply Hr.
Qed.

(** ** The end of the loop *)

(** The arms taken apart, down to the changes of the state. *)
Ltac by_arm close :=
  repeat lazymatch goal with
  | |- within _ (portal_step _ _ _ ?step) => destruct step; cbn [portal_step]
  | |- within _ (alter _) => apply alter_within; intros ?; close
  | |- within _ (ends_with _) => apply (ends_within _)
  | |- within _ (of_portal _) => apply (of_portal_within _)
  | |- within _ (on_owner_change _ ?change) => unfold on_owner_change; destruct change as [| |[]]
  | |- within _ (configure_barriers _ _) => unfold configure_barriers
  | |- within _ on_deactivated => unfold on_deactivated
  | |- within _ (on_zones_changed _ _ _) => unfold on_zones_changed
  | |- within _ on_closed => unfold on_closed
  | |- within _ (on_eis _ ?event) => destruct event as [[]|]; cbn [on_eis]
  | |- within _ (on_command _) =>
      intros ?; unfold on_command, on_arm, on_release, on_disarm, on_shutdown, force_close;
      repeat case_match; close
  | |- within _ (on_lease_tick _ _) =>
      intros ?; unfold on_lease_tick, force_close; repeat case_match; close
  | |- within _ (on_activated _ _ _) => intros ?; unfold on_activated; repeat case_match; close
  | _ => within_step
  end.

(** Steps that keep a part of the state. *)
Definition keeps_part {A} (part : Capture -> A) (c c' : Capture) : Prop := part c' = part c.
#[export] Instance keeps_part_preorder {A} (part : Capture -> A) : PreOrder (keeps_part part).
Proof. split; [done|]. intros x y z H1 H2. unfold keeps_part in *. by rewrite H2. Qed.

Lemma step_keeps_owner generation edge epoch step : (forall change, step <> Owner_changes change) ->
  within (keeps_part cp_owner_valid) (portal_step generation edge epoch step).
Proof.
  intros Hs. destruct step; [by destruct (Hs change)|..]; cbn [portal_step];
    by_arm ltac:(unfold backend_drops; repeat case_match; reflexivity).
Qed.
Lemma owner_change_ends generation change c c' r : on_owner_change generation change c = (c', r) ->
  (c' = c /\ r = Ok tt)
  \/ cp_owner_valid c' = false /\ cp_calls c' = cp_calls c /\ exists error, r = Err (Err error).
Proof.
  unfold on_owner_change. destruct change as [| |[owner|]]; cbn;
    try (case_bool_decide; [by intros [= <- <-]; left|]); intros [= <- <-]; right; eauto.
Qed.

(** A run that goes on, from what its steps do when they go on. *)
Lemma run_goes_on (R : Capture -> Capture -> Prop) `{!PreOrder R} generation edge epoch steps :
  (forall step c c', step ∈ steps -> portal_step generation edge epoch step c = (c', Ok tt) -> R c c') ->
  forall c c', portal_run generation edge epoch steps c = (c', None) -> R c c'.
Proof.
  induction steps as [|step steps IH]; intros Hs c c'; cbn [portal_run]; [by intros [= <-]|].
  destruct (portal_step generation edge epoch step c) as [c1 [[]|r]] eqn:E; [|done].
  intros E1. etrans; [exact (Hs step c c1 ltac:(set_solver) E)|].
  apply (IH ltac:(set_solver)), E1.
Qed.
Lemma run_owner generation edge epoch steps c c' :
  portal_run generation edge epoch steps c = (c', None) -> cp_owner_valid c' = cp_owner_valid c.
Proof.
  apply (run_goes_on (keeps_part cp_owner_valid)). intros step c1 c2 _ E.
  destruct step as [change| | | | | | | | | | | |].
  1: { apply owner_change_ends in E as [[-> _]|(_ & _ & ? & [=])]. done. }
  all: match type of E with portal_step ?g ?e ?p ?s ?c = _ =>
         pose proof (step_keeps_owner g e p s ltac:(done) c) as H; by rewrite E in H end.
Qed.

(** *** What the portal captures

    Told from its signals and from the calls it answered well and in time, not from what the
    program keeps. *)

Definition confirmed {A} (reply : Reply A) : bool :=
  (reply_takes reply <=? PORTAL_COMMAND_TIMEOUT) && match says reply with Ok _ => true | Err _ => false end.
(** Whether a call ends the activation. *)
Definition gives_up (m : Moment) (call : portal_call) : bool :=
  match call with
  | Call_Release _ _ => confirmed (m_release m)
  | Call_Disable => confirmed (m_disable m)
  | _ => false
  end.
Definition captures_after (step : capture_step) (made : list portal_call) (captured : option Z) : option Z :=
  match step with
  | Gets_activated (Some id) _ _ => Some id
  | Gets_deactivated => None
  | Takes_command m | Zones_change m _ | Device_event m _ =>
      if existsb (gives_up m) made then None else captured
  | _ => captured
  end.
Section Captured.
Context (generation : string) (edge : Edge) (epoch : Instant).
(** The activation that the portal holds after these steps. *)
Fixpoint captured (steps : list capture_step) (c : Capture) (before : option Z) : option Z :=
  match steps with
  | [] => before
  | step :: steps =>
      let c' := (portal_step generation edge epoch step c).1 in
      captured steps c' (captures_after step (drop (length (cp_calls c)) (cp_calls c')) before)
  end.
End Captured.

Lemma confirmed_command {A} name (reply : Reply A) :
  confirmed reply = match portal_command name reply with Ok _ => true | Err _ => false end.
Proof. unfold confirmed, portal_command. by destruct (_ <=? _), (says reply). Qed.

(** A part of a step that makes calls and keeps the activation. *)
Definition only_calls (c c' : Capture) : Prop :=
  cp_activation_id c' = cp_activation_id c /\ exists calls, cp_calls c' = cp_calls c ++ calls.
#[export] Instance only_calls_preorder : PreOrder only_calls.
Proof.
  split; [intros c; split; [done|by exists []; rewrite app_nil_r]|].
  intros x y z [E1 [l1 F1]] [E2 [l2 F2]]. split; [congruence|]. exists (l1 ++ l2). by rewrite F2, F1, app_assoc.
Qed.
Lemma same_calls c c' : cp_activation_id c' = cp_activation_id c -> cp_calls c' = cp_calls c -> only_calls c c'.
Proof. intros E1 E2. split; [done|]. exists []. by rewrite app_nil_r. Qed.
Lemma configure_calls edge m : within only_calls (configure_barriers edge m).
Proof. by_arm ltac:(split; [done|by eexists]). Qed.

(** The calls of a step that goes on tell what it keeps. *)
Definition tracks (step : capture_step) (c c' : Capture) : Prop :=
  exists calls, cp_calls c' = cp_calls c ++ calls
  /\ captures_after step calls (cp_activation_id c) = cp_activation_id c'.
Lemma tracks_same step c c' : cp_activation_id c' = cp_activation_id c -> cp_calls c' = cp_calls c ->
  captures_after step [] (cp_activation_id c) = cp_activation_id c -> tracks step c c'.
Proof. intros E1 E2 E3. exists []. by rewrite app_nil_r, E3, E1. Qed.

Lemma command_tracks m c c' : on_command m c = (c', Ok tt) -> tracks (Takes_command m) c c'.
Proof.
  unfold on_command. destruct (cp_commands c) as [|[|cursor| |] commands].
  - destruct (cp_dropped c); [done|]. intros [= <-]. by apply tracks_same.
  - unfold on_arm. destruct (portal_command _ _); intros [= <-]; by exists [Call_Enable].
  - unfold on_release. cbn [cp_activation_id set_cp_commands].
    destruct (cp_activation_id c) as [id|] eqn:E; [|intros [= <-]; by apply tracks_same; cbn; rewrite ?E].
    intros [= <-]. exists [Call_Release id cursor].
    destruct (portal_command "Release" (m_release m)) eqn:Er; (split; [done|]); cbn;
      rewrite (confirmed_command "Release"), Er, ?E; done.
  - unfold on_disarm. destruct (portal_command _ _) eqn:Er; [|done]. intros [= <-].
    exists [Call_Disable]. split; [done|]. cbn. by rewrite (confirmed_command "Disable"), Er.
  - done.
Qed.
Lemma zones_tracks edge m z c c' : on_zones_changed edge m z c = (c', Ok tt) -> tracks (Zones_change m z) c c'.
Proof.
  unfold on_zones_changed. intros E. unbind E s1 x1 E1. injection E1 as <- <-.
  unbind E s2 x2 E2. injection E2 as <- _. unbind E s3 x3 E3. unbind E s4 x4 E4. injection E4 as <- _.
  unbind E s5 x5 E5. injection E as <-.
  destruct (portal_command _ (m_disable m)) eqn:Er; [|done]. injection E3 as <- _.
  match type of E5 with configure_barriers _ _ ?c0 = _ => pose proof (configure_calls edge m c0) as [Ha [l Hl]] end.
  rewrite E5 in Ha, Hl. cbn in Ha, Hl. exists (Call_Disable :: l). cbn. rewrite Hl, Ha, <- (assoc_L (++)).
  split; [done|]. by rewrite (confirmed_command "Disable for layout change"), Er.
Qed.
Lemma device_tracks m event c c' : on_eis m event c = (c', Ok tt) -> tracks (Device_event m event) c c'.
Proof.
  destruct event as [[event|]|]; cbn [on_eis]; [|done..]. intros E. unbind E s1 x1 E1. injection E1 as <- <-.
  destruct (handle_eis_event _ _) as [pressed action]. unbind E s2 x2 E2. injection E2 as <- _.
  unbind E s3 x3 E3. destruct action as [action|]; [|done]. injection E3 as <- <-.
  destruct action as [|input|]; [injection E as <-; by apply tracks_same..|].
  unbind E s4 x4 E4. injection E4 as <- _. unbind E s5 x5 E5. injection E5 as <- <-.
  cbn [cp_activation_id set_cp_events tell set_cp_pressed] in E.
  destruct (cp_activation_id c) as [id|] eqn:Ea.
  2:{ unbind E s6 x6 E6. injection E6 as <- _. injection E as <-. apply tracks_same; cbn; by rewrite ?Ea. }
  unbind E s6 x6 E6. injection E as <-. unbind E6 s7 x7 E7. injection E7 as <- _.
  unbind E6 s8 x8 E8. injection E8 as <- _. destruct (portal_command _ (m_release m)) eqn:Er; [|done].
  injection E6 as <- _. exists [Call_Release id None]. split; [done|]. cbn.
  by rewrite (confirmed_command "emergency Release"), Er.
Qed.
Lemma step_tracks generation edge epoch step c c' :
  portal_step generation edge epoch step c = (c', Ok tt) -> tracks step c c'.
Proof.
  destruct step as [change|m|now|id barrier cursor| |m z| |m event|now|now|cursor| |]; cbn [portal_step].
  - intros E. apply owner_change_ends in E as [[-> _]|(_ & _ & ? & [=])]. by apply tracks_same.
  - apply command_tracks.
  - unfold on_lease_tick. case_match; [done|]. intros [= <-]. by apply tracks_same.
  - unfold on_activated. destruct id as [id|]; [|intros [= <-]; by apply tracks_same].
    destruct (barrier_metadata _ _); intros [= <-]; exists []; by rewrite app_nil_r.
  - intros [= <-]. exists []. by rewrite app_nil_r.
  - apply zones_tracks.
  - done.
  - apply device_tracks.
  - intros [= <-]. by apply tracks_same.
  - intros [= <-]. by apply tracks_same.
  - intros [= <-]. by apply tracks_same.
  - intros [= <-]. by apply tracks_same.
  - intros [= <-]. unfold backend_drops. case_match; by apply tracks_same.
Qed.
(** The program keeps what the portal captures. *)
Lemma run_captured generation edge epoch steps : forall c c',
  portal_run generation edge epoch steps c = (c', None) ->
  captured generation edge epoch steps c (cp_activation_id c) = cp_activation_id c'.
Proof.
  induction steps as [|step steps IH]; intros c c'; cbn [portal_run captured]; [by intros [= <-]|].
  destruct (portal_step generation edge epoch step c) as [c1 [[]|r]] eqn:E; [|done]. intros Hr.
  destruct (step_tracks _ _ _ _ _ _ E) as (calls & Hc & Ht). cbn [fst].
  rewrite Hc, drop_app_length, Ht. by apply IH.
Qed.

(** *** What the step that ends the loop leaves to the tear-down *)

(** An activation is kept, or released by the step, or was disabled by the portal. *)
Definition hands_over (step : capture_step) (c c' : Capture) : Prop :=
  exists calls, cp_calls c' = cp_calls c ++ calls
  /\ forall id, cp_activation_id c = Some id ->
     cp_activation_id c' = Some id \/ Call_Release id None ∈ calls
     \/ exists m z, step = Zones_change m z /\ confirmed (m_disable m) = true.
Lemma hands_over_same step c c' : only_calls c c' -> hands_over step c c'.
Proof. intros [E [l El]]. exists l. split; [done|]. rewrite E. by left. Qed.
Lemma force_close_calls c : exists calls, cp_calls (force_close c) = cp_calls c ++ calls
  /\ forall id, cp_activation_id c = Some id -> Call_Release id None ∈ calls.
Proof.
  unfold force_close. destruct (cp_activation_id c) as [id|]; cbn.
  - exists [Call_Release id None; Call_Disable; Call_Close]. rewrite <- !(assoc_L (++)). split; [done|].
    intros ? [= ->]. left.
  - exists [Call_Disable; Call_Close]. by rewrite <- !(assoc_L (++)).
Qed.
Lemma forced_hands_over step c c0 c' : only_calls c c0 -> cp_calls c' = cp_calls (force_close c0) ->
  hands_over step c c'.
Proof.
  intros [E [l El]] Hc. destruct (force_close_calls c0) as (k & Hk & Hr).
  exists (l ++ k). rewrite Hc, Hk, El, <- (assoc_L (++)). split; [done|].
  intros id Hid. right. left. apply elem_of_app. right. apply Hr. congruence.
Qed.

Lemma command_hands_over m c c' r : on_command m c = (c', Err r) -> hands_over (Takes_command m) c c'.
Proof.
  unfold on_command. destruct (cp_commands c) as [|[|cursor| |] commands].
  - destruct (cp_dropped c); [|done]. intros [= <- _]. by apply hands_over_same, same_calls.
  - done.
  - unfold on_release. by destruct (cp_activation_id _).
  - unfold on_disarm. destruct (portal_command _ _); [done|]. intros [= <- _].
    eapply forced_hands_over; [|reflexivity]. split; [done|]. by eexists.
  - intros [= <- _]. by apply hands_over_same, same_calls.
Qed.
Lemma zones_hands_over edge m z c c' r :
  on_zones_changed edge m z c = (c', Err r) -> hands_over (Zones_change m z) c c'.
Proof.
  unfold on_zones_changed. unfold st_bind at 1, st_get at 1. unfold st_bind at 1, alter at 1.
  unfold st_bind at 1. destruct (portal_command _ (m_disable m)) eqn:Er; cbn [of_portal].
  2:{ intros [= <- _]. apply hands_over_same. split; [done|]. by exists [Call_Disable]. }
  unfold st_ret, st_bind at 1, alter at 1. unfold st_bind at 1.
  match goal with |- context [configure_barriers edge m ?c0] =>
    pose proof (configure_calls edge m c0) as [_ [l Hl]] end.
  destruct (configure_barriers _ _ _) as [c2 [current|e]]; [done|]. intros [= <- _].
  cbn in Hl. exists (Call_Disable :: l). rewrite Hl, <- (assoc_L (++)). split; [done|]. intros id _. right. right.
  exists m, z. split; [done|]. by rewrite (confirmed_command "Disable for layout change"), Er.
Qed.
Lemma device_hands_over m event c c' r : on_eis m event c = (c', Err r) -> hands_over (Device_event m event) c c'.
Proof.
  intros E. apply hands_over_same. destruct event as [[event|]|]; cbn [on_eis] in E.
  2-3: injection E as <- _; by apply same_calls.
  unfold st_bind at 1, st_get at 1 in E. destruct (handle_eis_event _ _) as [pressed action].
  unfold st_bind at 1, alter at 1 in E. unfold st_bind at 1 in E.
  destruct action as [[|input|]|]; cbn [of_portal ends_with st_ret st_fail] in E;
    [done|done| |injection E as <- _; by apply same_calls].
  unfold st_bind, alter, st_get in E. cbn [cp_activation_id set_cp_events tell set_cp_pressed] in E.
  destruct (cp_activation_id c) as [id|] eqn:Ea; [|done].
  destruct (portal_command _ (m_release m)) eqn:Er; [done|]. injection E as <- _.
  split; [done|]. by exists [Call_Release id None].
Qed.
Lemma step_hands_over generation edge epoch step c c' r :
  portal_step generation edge epoch step c = (c', Err r) -> (forall change, step <> Owner_changes change) ->
  hands_over step c c'.
Proof.
  intros E Hs. destruct step as [change|m|now|id barrier cursor| |m z| |m event|now|now|cursor| |];
    cbn [portal_step] in E; try discriminate E.
  - by destruct (Hs change).
  - by eapply command_hands_over.
  - unfold on_lease_tick in E. destruct (_ && _); [|done]. injection E as <- _.
    eapply forced_hands_over; [|reflexivity]. by apply same_calls.
  - unfold on_activated in E. destruct id; [|done]. by destruct (barrier_metadata _ _).
  - by eapply zones_hands_over.
  - injection E as <- _. by apply hands_over_same, same_calls.
  - by eapply device_hands_over.
Qed.

Lemma tear_down_calls c : cp_owner_valid c = true ->
  cp_calls (tear_down c) = cp_calls c
    ++ match cp_activation_id c with Some id => [Call_Release id None] | None => [] end
    ++ [Call_Disable; Call_Close].
Proof.
  intros E. unfold tear_down. rewrite E. destruct (cp_activation_id c) eqn:Ea; cbn;
    by rewrite <- !(assoc_L (++)).
Qed.
Lemma report_calls outcome c : cp_calls (report outcome c) = cp_calls c.
Proof. by destruct outcome. Qed.

(** C31. A loop that ends leaves no capture behind.  Whatever ends it but another owner of the
    portal's name, its last calls disable the capture and close the session, and before that it
    releases the activation that the portal holds, told by the portal's signals and by the calls it
    answered well and in time; the one exception is a change of the zones, where the portal has just
    confirmed that the capture is disabled.  When the portal was replaced, nothing is called any more
    that its successor could take for one of its own sessions.  An error is the last thing the
    receiver is told. *)
Theorem ended_capture_is_given_up (generation : string) (edge : Edge) (epoch : Instant)
    (zone_set : Z) (barriers : gmap Z BarrierMetadata) (steps : list capture_step) (c : Capture)
    (outcome : result unit string)
    (Hr : portal_run generation edge epoch steps (fresh_capture zone_set barriers) = (c, Some outcome)) :
  (exists pre step post c1,
     steps = pre ++ step :: post
     /\ portal_run generation edge epoch pre (fresh_capture zone_set barriers) = (c1, None)
     /\ match step with
        | Owner_changes change => change <> Owner_is (Some generation) /\ cp_calls c = cp_calls c1
        | _ =>
            exists calls, cp_calls c = cp_calls c1 ++ calls ++ [Call_Disable; Call_Close]
            /\ forall id,
                 captured generation edge epoch pre (fresh_capture zone_set barriers) None = Some id ->
                 Call_Release id None ∈ calls
                 \/ exists m z, step = Zones_change m z /\ confirmed (m_disable m) = true
        end)
  /\ (forall error, outcome = Err error -> last (cp_events c) = Some (BackendFailed error)).
Proof.
  apply run_ends in Hr as (pre & step & post & c1 & c2 & -> & H1 & H2 & ->). split.
  2:{ intros error ->. cbn [report]. unfold tell. cbn. by rewrite last_snoc. }
  exists pre, step, post, c1. split_and!; [done|done|]. rewrite report_calls.
  pose proof (run_owner _ _ _ _ _ _ H1) as Ho. cbn in Ho.
  pose proof (run_captured _ _ _ _ _ _ H1) as Hheld. cbn [cp_activation_id fresh_capture] in Hheld.
  assert ((exists change, step = Owner_changes change) \/ forall change, step <> Owner_changes change)
    as [[change ->]|Hne] by (destruct step as [change| | | | | | | | | | | |]; [left; by exists change|by right..]).
  - cbn [portal_step] in H2. split.
    + intros ->. cbn in H2. by rewrite bool_decide_eq_true_2 in H2.
    + apply owner_change_ends in H2 as [[_ [=]]|(Hv & Hc & _)]. unfold tear_down. by rewrite Hv.
  - pose proof (step_keeps_owner generation edge epoch step Hne c1) as Hk. rewrite H2 in Hk.
    unfold keeps_part in Hk. cbn in Hk. rewrite Ho in Hk.
    destruct (step_hands_over _ _ _ _ _ _ _ H2 Hne) as (calls & Hc & Hid).
    pose proof (tear_down_calls c2 Hk) as Ht. rewrite Hc, <- (assoc_L (++)) in Ht.
    enough (exists calls', cp_calls (tear_down c2) = cp_calls c1 ++ calls' ++ [Call_Disable; Call_Close]
      /\ forall id, cp_activation_id c1 = Some id -> Call_Release id None ∈ calls'
           \/ exists m z, step = Zones_change m z /\ confirmed (m_disable m) = true) as Hend.
    { rewrite <- Hheld in Hend. destruct step; [by destruct (Hne change)|exact Hend..]. }
    exists (calls ++ match cp_activation_id c2 with Some id => [Call_Release id None] | None => [] end).
    rewrite Ht, <- (assoc_L (++)). split; [done|]. intros id [->|[Hin|?]]%Hid; [|by left; apply elem_of_app; left|by right].
    left. apply elem_of_app. right. left.
Qed.

(** ** The lease *)

(** The receiver neither arms the capture nor confirms that it is alive. *)
Definition silent (step : capture_step) : bool :=
  match step with Backend_arms _ | Backend_keeps_alive _ => false | _ => true end.

(** No command to arm waits, and while the capture is armed its lease is [P], unless the receiver
    itself has given it up. *)
Definition leased (P : Z -> Prop) (c : Capture) : Prop :=
  Arm ∉ cp_commands c
  /\ (cp_armed c = true -> P (cp_deadline c) \/ Disarm ∈ cp_commands c \/ cp_dropped c = true).

Definition lease_part (c : Capture) := (cp_commands c, cp_armed c, cp_deadline c, cp_dropped c).
Lemma leased_part P c c' : keeps_part lease_part c c' -> leased P c -> leased P c'.
Proof. unfold keeps_part, lease_part, leased. by intros [= -> -> -> ->]. Qed.

Lemma command_leased P m c c' : on_command m c = (c', Ok tt) -> leased P c -> leased P c'.
Proof.
  unfold on_command, leased. destruct (cp_commands c) as [|command commands] eqn:E; intros H [Ha Hl].
  { destruct (cp_dropped c) eqn:Ed; [done|]. injection H as <-. rewrite E, Ed. by split. }
  assert (Arm ∉ commands) as Ha' by set_solver.
  destruct command; [set_solver| | |done].
  - unfold on_release in H. revert H. repeat case_match; intros [= <-]; cbn; (split; [done|]); set_solver.
  - unfold on_disarm in H. destruct (portal_command _ _); [|done]. injection H as <-. by split.
Qed.
Lemma zones_leased P edge m zone_set c c' :
  on_zones_changed edge m zone_set c = (c', Ok tt) -> leased P c -> leased P c'.
Proof.
  unfold on_zones_changed. unfold st_bind at 1, st_get at 1. unfold st_bind at 1, alter at 1. cbv beta iota.
  set (c0 := called _ _). intros E [Ha _]. apply (leased_part P c0); [|by split].
  match type of E with ?m c0 = _ =>
    assert (within (keeps_part lease_part) m) as H by (by_arm ltac:(unfold keeps_part; reflexivity)) end.
  specialize (H c0). by rewrite E in H.
Qed.
Lemma step_leased P generation edge epoch step c c' : silent step = true ->
  portal_step generation edge epoch step c = (c', Ok tt) -> leased P c -> leased P c'.
Proof.
  intros Hs E Hl.
  assert (forall step, within (keeps_part lease_part) (portal_step generation edge epoch step) ->
            portal_step generation edge epoch step c = (c', Ok tt) -> leased P c') as Hk.
  { intros ? H E1. apply (leased_part P c); [|done]. specialize (H c). by rewrite E1 in H. }
  destruct step; cbn [portal_step] in E.
  - apply owner_change_ends in E as [[-> _]|(_ & _ & ? & [=])]. done.
  - by eapply command_leased.
  - unfold on_lease_tick in E. destruct (_ && _); [done|]. by injection E as <-.
  - apply (Hk (Gets_activated activation_id barrier cursor_position)); [|done]. cbn [portal_step]. by_arm ltac:(unfold keeps_part; reflexivity).
  - apply (Hk Gets_deactivated); [|done]. cbn [portal_step]. by_arm ltac:(unfold keeps_part; reflexivity).
  - apply (zones_leased P) in E; done.
  - done.
  - apply (Hk (Device_event m event)); [|done]. cbn [portal_step]. by_arm ltac:(unfold keeps_part; repeat case_match; reflexivity).
  - done.
  - done.
  - injection E as <-. destruct Hl as [Ha Hl]. unfold leased, sends. cbn. set_solver.
  - injection E as <-. destruct Hl as [Ha Hl]. unfold leased, backend_disarms, sends. cbn. set_solver.
  - injection E as <-. destruct Hl as [Ha Hl]. unfold leased, backend_drops, sends. case_match; cbn; set_solver.
Qed.

Lemma portal_run_app generation edge epoch s1 : forall s2 c,
  portal_run generation edge epoch (s1 ++ s2) c
  = match portal_run generation edge epoch s1 c with
    | (c', None) => portal_run generation edge epoch s2 c'
    | r => r
    end.
Proof.
  induction s1 as [|step s1 IH]; intros s2 c; cbn [portal_run app]; [done|].
  destruct (portal_step generation edge epoch step c) as [c1 [|]]; [apply IH|done].
Qed.
Lemma run_leased P generation edge epoch steps c c' : Forall (fun step => silent step = true) steps ->
  portal_run generation edge epoch steps c = (c', None) -> leased P c -> leased P c'.
Proof.
  intros Hs. revert c. induction Hs as [|step steps Hs _ IH]; intros c; cbn [portal_run]; [by intros [= ->]|].
  destruct (portal_step generation edge epoch step c) as [c1 [[]|]] eqn:E; [|done].
  intros Hr Hl. apply (IH c1 Hr). by eapply step_leased.
Qed.

Lemma lease_runs_out epoch t0 now : epoch <= t0 -> (t0 - epoch + CAPTURE_OWNER_LEASE) / 1000000 <= u64_max ->
  t0 + CAPTURE_OWNER_LEASE <= now -> lease_expired epoch now (lease_renewed epoch t0) = true.
Proof.
  intros H1 H2 H3. unfold lease_expired, lease_renewed.
  rewrite (Z.min_r u64_max) by done.
  assert (3000 <= (t0 - epoch + CAPTURE_OWNER_LEASE) / 1000000) as H4.
  { apply Z.div_le_lower_bound; [lia|]. unfold CAPTURE_OWNER_LEASE, from_secs. lia. }
  assert ((t0 - epoch + CAPTURE_OWNER_LEASE) / 1000000 <= (now - epoch) / 1000000) as H5
    by (apply Z.div_le_mono; lia).
  rewrite Z.max_r by lia. apply andb_true_intro. split; [|lia].
  apply negb_true_iff, Z.eqb_neq. lia.
Qed.

(** What the watchdog does with an armed capture whose lease has run out. *)
Lemma tick_takes_back epoch now c : cp_armed c = true -> lease_expired epoch now (cp_deadline c) = true ->
  exists c', on_lease_tick epoch now c
    = (c', Err (Err (LibeiInit "capture owner stopped responding; portal session was closed to restore local input"))).
Proof. intros Ha Hl. unfold on_lease_tick. rewrite Ha, Hl. cbn. eauto. Qed.

(** C19. A receiver that falls silent loses the capture: three seconds after it last armed the capture
    or confirmed that it is alive, the next look of the watchdog ends the loop, and with it the
    capture, unless the receiver had given it up before.  So however the rest interleaves, a
    receiver that hangs cannot keep the keyboard and the pointer. *)
Theorem silent_receiver_loses_the_capture (generation : string) (edge : Edge) (epoch t0 now : Instant)
    (c c' : Capture) (steps : list capture_step) (ended : option (result unit string))
    (Ht : epoch <= t0) (Hmax : (t0 - epoch + CAPTURE_OWNER_LEASE) / 1000000 <= u64_max)
    (Hlease : cp_deadline c = lease_renewed epoch t0) (Harm : Arm ∉ cp_commands c)
    (Hsilent : Forall (fun step => silent step = true) steps)
    (Htick : Lease_ticks now ∈ steps) (Hnow : t0 + CAPTURE_OWNER_LEASE <= now)
    (Hr : portal_run generation edge epoch steps c = (c', ended)) :
  is_Some ended \/ cp_armed c' = false \/ Disarm ∈ cp_commands c' \/ cp_dropped c' = true.
Proof.
  destruct ended as [r|]; [by left; eexists|right].
  apply list_elem_of_split in Htick as (pre & post & ->).
  apply Forall_app in Hsilent as [Hpre [_ Hpost]%Forall_cons].
  rewrite portal_run_app in Hr. destruct (portal_run generation edge epoch pre c) as [c1 [r|]] eqn:E1; [done|].
  cbn [portal_run portal_step] in Hr.
  destruct (on_lease_tick epoch now c1) as [c2 [[]|]] eqn:E2; [|done].
  assert (leased (fun d => d = lease_renewed epoch t0) c1) as [H1 H2].
  { apply (run_leased _ _ _ _ _ _ _ Hpre E1). split; [done|]. intros _. left. done. }
  assert (leased (fun _ => False) c2) as H3.
  { assert (c2 = c1) as ->.
    { unfold on_lease_tick in E2. destruct (_ && _); [done|]. by injection E2 as <-. }
    split; [done|]. intros Ha. destruct (H2 Ha) as [Hd|Hd]; [|auto].
    destruct (tick_takes_back epoch now c1 Ha) as [? E3]; [rewrite Hd; by apply lease_runs_out|].
    rewrite E3 in E2. done. }
  destruct (run_leased _ _ _ _ _ _ _ Hpost Hr H3) as [_ H4].
  destruct (cp_armed c'); [|auto]. destruct (H4 eq_refl); [done|auto].
Qed.

(** ** The release chord *)

Definition holds_chord (pressed : gset Z) : bool :=
  existsb (fun key => bool_decide (key ∈ pressed)) CONTROL_KEYS
  && existsb (fun key => bool_decide (key ∈ pressed)) ALT_KEYS.

Lemma chord_action key pressed : key = KEY_PAUSE \/ key = KEY_ESC -> holds_chord pressed = true ->
  handle_eis_event (KeyboardKey key true) pressed = (∅, Ok Eis_EmergencyRelease).
Proof.
  intros Hk Hc. cbn [handle_eis_event]. replace (2 ^ 16 <=? key) with false by (by destruct Hk as [-> | ->]).
  unfold update_key. cbn [andb].
  replace ((key =? KEY_PAUSE) || (key =? KEY_ESC)) with true by (by destruct Hk as [-> | ->]). cbn [andb].
  unfold holds_chord in Hc. apply andb_true_iff in Hc as [H1 H2].
  assert (forall keys, existsb (fun key => bool_decide (key ∈ pressed)) keys = true ->
            existsb (fun k => bool_decide (k ∈ {[key]} ∪ pressed)) keys = true) as Hmono.
  { intros keys (k & Hi & Hb)%existsb_exists. apply existsb_exists. exists k. split; [done|].
    apply bool_decide_eq_true in Hb. apply bool_decide_eq_true. set_solver. }
  by rewrite (Hmono _ H1), (Hmono _ H2).
Qed.

(** The release chord gives the input back: with a control and an alt key held, Pause or Escape is
    told to the receiver as the release of every key and is itself never told; the captured input
    is released, and then the receiver is told so, or the loop ends, which gives the capture up. *)
Theorem chord_gives_the_input_back (generation : string) (edge : Edge) (epoch : Instant) (m : Moment)
    (key : Z) (c : Capture) (Hk : key = KEY_PAUSE \/ key = KEY_ESC)
    (Hc : holds_chord (cp_pressed c) = true) :
  let step := Device_event m (Some (Ok (KeyboardKey key true))) in
  let after := portal_step generation edge epoch step c in
  cp_pressed after.1 = ∅
  /\ cp_calls after.1
     = cp_calls c ++ match cp_activation_id c with Some id => [Call_Release id None] | None => [] end
  /\ match after.2 with
     | Ok _ => cp_activation_id after.1 = None
               /\ cp_events after.1 = cp_events c ++ [Input AllKeysUp; EmergencyReleased]
     | Err outcome => (exists error, outcome = Err error)
                      /\ cp_events after.1 = cp_events c ++ [Input AllKeysUp]
     end.
Proof.
  intros step after. destruct after as [c' r] eqn:E. subst after step. cbn [portal_step on_eis] in E.
  unfold st_bind at 1, st_get at 1 in E. rewrite (chord_action key _ Hk Hc) in E.
  unfold st_bind, alter, of_portal, st_ret, st_get in E. cbn in E. cbn [fst snd].
  destruct (cp_activation_id c) as [id|] eqn:Ea; [destruct (portal_command _ _) as [|error]|];
    injection E as <- <-; cbn; rewrite <- ?(assoc_L (++)), ?app_nil_r; split_and!; try done.
  by exists error.
Qed.

(** ** Activations *)

Lemma requested_id edge regions id position b :
  (id, position, b) ∈ requested_barriers edge regions ->
  exists index region, regions !! index = Some region /\ id = Z.of_nat index + 1
    /\ position = barrier_position edge region /\ b = metadata_of edge region.
Proof.
  unfold requested_barriers. intros (index & region & H1 & H2)%elem_of_lookup_imap_1. simplify_eq. eauto 10.
Qed.
Lemma requested_ids_unique edge regions (P : Z * (Z * Z * Z * Z) * BarrierMetadata -> Prop)
    `{forall b, Decision (P b)} :
  NoDup ((fun b => (b.1.1, b.2)) <$> filter P (requested_barriers edge regions)).*1.
Proof.
  rewrite <- list_fmap_compose. apply NoDup_fmap_2_strong.
  - intros [[id p] b] [[id' p'] b'] [_ H1]%list_elem_of_filter [_ H2]%list_elem_of_filter E. cbn in E.
    apply requested_id in H1 as (i & r & H1 & -> & -> & ->).
    apply requested_id in H2 as (i' & r' & H2 & -> & -> & ->).
    assert (i = i') as <- by lia. by simplify_eq.
  - apply NoDup_filter, NoDup_alt. intros i j [[id p] b] H1 H2. unfold requested_barriers in *.
    rewrite list_lookup_imap in H1, H2.
    destruct (regions !! i); [|done]. destruct (regions !! j); [|done]. cbn in *. simplify_eq. lia.
Qed.

(** What a configuration accepts: the barriers of the portal's regions that it did not refuse. *)
Lemma configured edge m c c' zone_set barriers :
  configure_barriers edge m c = (c', Ok (zone_set, barriers)) -> exists zones failed,
    says (m_zones m) = Ok zones /\ says (m_failed_barriers m) = Ok failed
    /\ zone_set = zone_set_of zones
    /\ forall id b, barriers !! id = Some b <->
         exists index region, regions zones !! index = Some region /\ id = Z.of_nat index + 1
           /\ id ∉ failed /\ b = metadata_of edge region.
Proof.
  unfold configure_barriers, st_bind, of_portal, portal_command, alter.
  destruct (reply_takes (m_zones m) <=? _); [|done].
  destruct (says (m_zones m)) as [zones|]; [|done]. cbn [map_err].
  unfold st_ret at 1. destruct (regions zones) as [|r rs] eqn:Er; [done|]. rewrite <- Er.
  destruct (reply_takes (m_failed_barriers m) <=? _); [|done].
  destruct (says (m_failed_barriers m)) as [failed|]; [|done]. cbn [map_err]. unfold st_ret at 1.
  destruct (filter _ (requested_barriers edge (regions zones))) as [|x l] eqn:Ef; [done|].
  rewrite <- Ef. intros H. injection H as _ <- <-. exists zones, failed. split_and!; [done..|].
  intros id b. rewrite <- elem_of_list_to_map by apply requested_ids_unique.
  rewrite list_elem_of_fmap. split.
  - intros ([[id' p] b'] & [= -> ->] & [Hf (i & r' & ? & -> & -> & ->)%requested_id]%list_elem_of_filter).
    eauto 10.
  - intros (i & r' & Hr & -> & Hf & ->). exists (Z.of_nat i + 1, barrier_position edge r', metadata_of edge r').
    split; [done|]. apply list_elem_of_filter. split; [done|].
    unfold requested_barriers. apply elem_of_lookup_imap. by exists i, r'.
Qed.

(** A number between zero and one. *)
Definition in_unit (x : float) : bool := SFleb (S754_zero false) x && SFleb x f32_one.
Lemma leb_of_not_ltb x y : is_nan x = false -> is_nan y = false -> SFltb x y = false -> SFleb y x = true.
Proof.
  unfold SFltb, SFleb. destruct x as [s|[]| |s m e], y as [s'|[]| |s' m' e']; try done; cbn;
    repeat match goal with s : bool |- _ => destruct s end; try done.
  - rewrite (Z.compare_antisym e e'). destruct (Z.compare_spec e e') as [->|H|H]; cbn; try done.
    change (Pos.compare_cont Eq ?a ?b) with (a ?= b)%positive. rewrite (Pos.compare_antisym m m').
    by destruct (m ?= m')%positive.
  - rewrite (Z.compare_antisym e e'). destruct (Z.compare_spec e e') as [->|H|H]; cbn; try done.
    change (Pos.compare_cont Eq ?a ?b) with (a ?= b)%positive. rewrite (Pos.compare_antisym m m').
    by destruct (m ?= m')%positive.
Qed.
Lemma clamp_in_unit x : is_nan x = false -> in_unit (f32_clamp_unit x) = true.
Proof.
  intros Hx. unfold f32_clamp_unit. destruct (SFltb x _) eqn:H1; [done|].
  destruct (SFltb f32_one x) eqn:H2; [done|]. unfold in_unit.
  rewrite (leb_of_not_ltb x (S754_zero false)) by done. by rewrite (leb_of_not_ltb f32_one x).
Qed.
Lemma position_in_unit b cursor :
  is_nan (normalized_cursor_position b cursor) = false -> in_unit (normalized_cursor_position b cursor) = true.
Proof.
  unfold normalized_cursor_position. destruct cursor as [[x y]|]; [|done].
  assert (forall v, is_nan (f32_clamp_unit v) = false -> in_unit (f32_clamp_unit v) = true) as Hv.
  { intros v Hn. apply clamp_in_unit. destruct v; done. }
  destruct (bm_edge b); (destruct (_ <=? 1); [done|apply Hv]).
Qed.

(** An activation names the monitor and the place it happened at: with barriers that were
    configured from the portal's regions, crossing the barrier of an accepted region is told as
    the edge that leads to the other computer and the position along that region, between zero
    and one; a barrier that was refused or is unknown tells nothing. *)
Theorem activation_names_its_monitor (edge : Edge) (m : Moment) (c0 c1 c : Capture) (zone_set id barrier : Z)
    (barriers : gmap Z BarrierMetadata) (cursor : option (float * float))
    (Hc : configure_barriers edge m c0 = (c1, Ok (zone_set, barriers)))
    (Hb : cp_barriers c = barriers) :
  let after := (on_activated (Some id) (Some barrier) cursor c).1 in
  cp_activation_id after = Some id
  /\ (cp_events after = cp_events c
      \/ exists zones failed index region position,
           says (m_zones m) = Ok zones /\ says (m_failed_barriers m) = Ok failed
           /\ regions zones !! index = Some region /\ barrier = Z.of_nat index + 1 /\ barrier ∉ failed
           /\ position = normalized_cursor_position (metadata_of edge region) cursor
           /\ (is_nan position = false -> in_unit position = true)
           /\ cp_events after = cp_events c ++ [Activated id edge position])
  /\ (forall zones failed index region, says (m_zones m) = Ok zones ->
       says (m_failed_barriers m) = Ok failed -> regions zones !! index = Some region ->
       barrier = Z.of_nat index + 1 -> barrier ∉ failed -> cp_events after <> cp_events c).
Proof.
  destruct (configured _ _ _ _ _ _ Hc) as (zones & failed & Hz & Hf & -> & Hall).
  intros after. subst after. unfold on_activated, barrier_metadata. cbn [set_cp_activation_id cp_barriers].
  rewrite Hb. destruct (barriers !! barrier) as [b|] eqn:Eb; cbn.
  - apply Hall in Eb as (i & r & Hr & Hi & Hni & ->). split_and!; [done| |].
    + right. exists zones, failed, i, r. eexists. split_and!; try done. apply position_in_unit.
    + intros. intros E. apply (f_equal length) in E. rewrite length_app in E. cbn in E. lia.
  - split_and!; [done|by left|]. intros z' f' i r Hz' Hf' Hr -> Hni. assert (z' = zones) as -> by congruence.
    assert (f' = failed) as -> by congruence. assert (barriers !! (Z.of_nat i + 1) = Some (metadata_of edge r)) as E
      by (apply Hall; eauto 10). congruence.
Qed.

(** ** The start *)

(** The last polls all answered [owner], the first of them at [since]. *)
Definition seen_since (owner : string) (since : Instant) (polls : list (Instant * owner_answer)) : Prop :=
  exists before seen, polls = before ++ seen /\ Forall (fun poll => poll.2 = Owned owner) seen
    /\ head seen.*1 = Some since.
Definition watched (polls : list (Instant * owner_answer)) (candidate : option (string * Instant)) : Prop :=
  match candidate with Some (owner, since) => seen_since owner since polls | None => True end.

Lemma observe_watched polls now owner candidate candidate' found :
  watched polls candidate -> observe owner now candidate = (candidate', found) ->
  watched (polls ++ [(now, Owned owner)]) candidate'
  /\ forall name, found = Some name -> name = owner /\ exists since, candidate' = Some (owner, since)
       /\ PORTAL_OWNER_STABLE_FOR <= now - since.
Proof.
  intros Hw. assert (watched (polls ++ [(now, Owned owner)]) (Some (owner, now))) as Hnew.
  { exists polls, [(now, Owned owner)]. split_and!; [done| |done]. by repeat constructor. }
  unfold observe. destruct candidate as [[name since]|]; [|by intros [= <- <-]].
  destruct (str_eqb name owner) eqn:En; [apply str_eqb_spec in En as ->|by intros [= <- <-]].
  intros [= <- <-]. split.
  - destruct Hw as (before & seen & -> & Hs & Hh). exists before, (seen ++ [(now, Owned owner)]).
    rewrite <- (assoc_L (++)). split_and!; [done| |by destruct seen].
    apply Forall_app. split; [done|by repeat constructor].
  - intros name. destruct (Z.leb_spec PORTAL_OWNER_STABLE_FOR (duration_since now since)) as [H|]; [|done].
    intros [= <-]. split; [done|]. exists since. split; [done|].
    unfold duration_since, PORTAL_OWNER_STABLE_FOR, from_secs in *. lia.
Qed.

Lemma poll_spec deadline polls : forall past candidate owner, watched past candidate ->
  poll_owner deadline polls candidate = Some (Ok owner) ->
  exists now since asked rest, polls = asked ++ (now, Owned owner) :: rest /\ now < deadline
    /\ PORTAL_OWNER_STABLE_FOR <= now - since
    /\ seen_since owner since (past ++ asked ++ [(now, Owned owner)]).
Proof.
  induction polls as [|[now answer] polls IH]; intros past candidate owner Hw; cbn [poll_owner]; [done|].
  destruct (Z.leb_spec deadline now) as [|Hd]; [done|].
  assert (forall candidate', watched (past ++ [(now, answer)]) candidate' ->
    poll_owner deadline polls candidate' = Some (Ok owner) ->
    exists now0 since asked rest, (now, answer) :: polls = asked ++ (now0, Owned owner) :: rest
      /\ now0 < deadline /\ PORTAL_OWNER_STABLE_FOR <= now0 - since
      /\ seen_since owner since (past ++ asked ++ [(now0, Owned owner)])) as Hrec.
  { intros candidate' Hw' H. destruct (IH _ _ _ Hw' H) as (now0 & since & asked & rest & -> & H1 & H2 & H3).
    exists now0, since, ((now, answer) :: asked), rest. split_and!; [done..|].
    by rewrite <- (assoc_L (++)) in H3. }
  destruct answer as [name| |]; [|by apply Hrec|done].
  destruct (observe name now candidate) as [candidate' [found|]] eqn:Eo;
    destruct (observe_watched past now name candidate candidate' _ Hw Eo) as [Hw' Hf]; [|by apply Hrec].
  intros [= ->]. destruct (Hf owner eq_refl) as (-> & since & -> & Hs).
  by exists now, since, [], polls.
Qed.

(** The polls of an attempt end: a query is asked at least every tenth of a second, so thirty-one of
    them reach the limit of three seconds. *)
Lemma polls_end start polls candidate :
  (forall i poll, polls !! i = Some poll -> start + Z.of_nat i * PORTAL_OWNER_POLL_INTERVAL <= poll.1) ->
  (31 <= length polls)%nat -> is_Some (poll_owner (start + PORTAL_OWNER_WAIT_TIMEOUT) polls candidate).
Proof.
  intros Ht Hl. assert (exists poll, polls !! 30%nat = Some poll) as [poll Hp]
    by (apply lookup_lt_is_Some; lia).
  assert (start + PORTAL_OWNER_WAIT_TIMEOUT <= poll.1) as Hlate.
  { specialize (Ht _ _ Hp). unfold PORTAL_OWNER_WAIT_TIMEOUT, PORTAL_OWNER_POLL_INTERVAL, from_secs, from_millis in *. lia. }
  clear Ht Hl. revert Hp candidate. generalize 30%nat. induction polls as [|[now answer] polls IH]; intros n Hp candidate; [done|].
  cbn [poll_owner]. destruct (Z.leb_spec (start + PORTAL_OWNER_WAIT_TIMEOUT) now); [by eexists|].
  destruct n as [|n]; [injection Hp as <-; cbn in Hlate; lia|].
  destruct answer as [name| |]; [|by eapply IH|by eexists].
  destruct (observe name now candidate) as [? [|]]; [by eexists|]. by eapply IH.
Qed.

Lemma step_of_Ok {A} (r : option (result A string)) x x' a :
  step_of r x = (x', Ok a) -> x' = x /\ r = Some (Ok a).
Proof. destruct r as [[]|]; [by intros [= -> ->]|done..]. Qed.

(** The capture is set up only with a portal that stays: the owner it is set up with answered
    every poll of the last second, within three seconds of the start, and is still there when
    the set-up is complete; and the polls end. *)
Theorem capture_needs_a_stable_portal (edge : Edge) (s : PortalSetup) (poisoned : option string) (c : Capture)
    (Hp : (preflight edge s poisoned).2 = Ok c) :
  exists owner now since asked rest, ps_polls s = asked ++ (now, Owned owner) :: rest
    /\ now < ps_now s + PORTAL_OWNER_WAIT_TIMEOUT /\ PORTAL_OWNER_STABLE_FOR <= now - since
    /\ seen_since owner since (asked ++ [(now, Owned owner)])
    /\ ps_owner_after s = Some (Ok owner) /\ poisoned <> Some owner.
Proof.
  unfold preflight in Hp. destruct (set_up_capture edge s (poisoned, None)) as [[g1 g2] [c1|[]]] eqn:E; [|done..].
  unfold set_up_capture in E.
  apply st_bind_Ok in E as (x1 & [] & E1 & E). apply step_of_Ok in E1 as [-> _].
  apply st_bind_Ok in E as (x2 & owner & E2 & E). apply step_of_Ok in E2 as [-> Hw].
  apply st_bind_Ok in E as (x3 & [] & E3 & E). apply st_bind_Ok in E as (x4 & [] & _ & E).
  apply st_bind_Ok in E as (x5 & [[k p] granted] & _ & E). apply st_bind_Ok in E as (x6 & [] & _ & E).
  apply st_bind_Ok in E as (x7 & configured & _ & E). apply st_bind_Ok in E as (x8 & [] & _ & E).
  apply st_bind_Ok in E as (x9 & after & E9 & E). apply step_of_Ok in E9 as [-> Ha].
  destruct (str_eqb after owner) eqn:En; [apply str_eqb_spec in En as ->|done].
  unfold wait_for_stable_portal_owner in Hw. destruct (ps_start s); [|done].
  destruct (poll_spec _ _ [] None owner I Hw) as (now & since & asked & rest & H1 & H2 & H3 & H4).
  exists owner, now, since, asked, rest. split_and!; try done.
  intros ->. cbn in E3. unfold ensure_available in E3. rewrite str_eqb_refl in E3. done.
Qed.

(** The refusal of a portal that hung. *)
Definition refused : string :=
  LibeiInit (LibeiInit "InputCapture portal process previously stopped responding; restart xdg-desktop-portal before retrying capture").

Lemma set_up_gate edge s poisoned owner : ps_bus s = Some (Ok tt) ->
  wait_for_stable_portal_owner (ps_start s) (ps_now s) (ps_polls s) = Some (Ok owner) ->
  exists r, set_up_capture edge s (poisoned, None)
  = match ensure_available owner poisoned with
    | (poisoned, Ok _) => ((poisoned, Some owner), r)
    | (poisoned, Err error) => ((poisoned, None), Err (Some error))
    end.
Proof.
  intros Hb Hw. unfold set_up_capture. rewrite Hb, Hw. cbn [step_of].
  unfold st_bind at 1, st_ret at 1. unfold st_bind at 1, st_ret at 1. unfold st_bind at 1. cbn [fst snd].
  destruct (ensure_available owner poisoned) as [poisoned' [[]|error]]; cbn [map_err]; [|by exists (Err None)].
  unfold st_bind at 1. cbn [fst].
  match goal with |- exists r, ?m ?x = _ => assert (within eq m) as H end.
  { repeat lazymatch goal with
           | |- within _ (step_of ?r) => intros ?; destruct r as [[]|]; reflexivity
           | |- within _ (fun _ => _) => intros ?; reflexivity
           | _ => within_step
           end. }
  match goal with |- exists r, ?m ?x = _ =>
    specialize (H x); destruct (m x) as [y r]; cbn in H; subst y; by exists r end.
Qed.

(** A portal that hung is not asked again: when a set-up hangs after the portal of owner [g] was
    found, its session may still hold the input; every later attempt is refused while [g] owns the
    name, before it touches a session, and the first one that finds another owner forgets it. *)
Theorem hung_portal_is_not_asked_again (edge : Edge) (s s' : PortalSetup) (poisoned : option string)
    (g owner : string) (x : option string * option string)
    (Hh : set_up_capture edge s (poisoned, None) = (x, Err None)) (Hg : x.2 = Some g)
    (Hbus : ps_bus s' = Some (Ok tt))
    (Ho : wait_for_stable_portal_owner (ps_start s') (ps_now s') (ps_polls s') = Some (Ok owner)) :
  let later := preflight edge s' (preflight edge s poisoned).1 in
  (owner = g -> later = (Some g, Err refused))
  /\ (owner <> g -> later.1 = None \/ later.1 = Some owner).
Proof.
  intros later. assert ((preflight edge s poisoned).1 = Some g) as Hgate.
  { unfold preflight. rewrite Hh. destruct x as [x1 x2]. cbn in Hg. by rewrite Hg. }
  subst later. rewrite Hgate. unfold preflight. destruct (set_up_gate edge s' (Some g) owner Hbus Ho) as [r ->].
  unfold ensure_available. split.
  - intros ->. by rewrite str_eqb_refl.
  - intros Hn. rewrite (proj2 (str_eqb_neq g owner)) by congruence. destruct r as [|[]]; cbn; auto.
Qed.

(** ** Samples *)

Definition prompt {A} (r : result A string) : Reply A := {| reply_takes := 0; says := r |}.
Definition laptop_zones : Zones :=
  {| zone_set_of := 7;
     regions := [{| x_offset := 0; y_offset := 0; region_width := 1920; region_height := 1080 |};
                 {| x_offset := 1920; y_offset := 0; region_width := 2560; region_height := 1440 |}] |}.
Definition willing : Moment :=
  {| m_now := 0; m_enable := prompt (Ok tt); m_release := prompt (Ok tt); m_disable := prompt (Ok tt);
     m_zones := prompt (Ok laptop_zones); m_failed_barriers := prompt (Ok [1]) |}.
Definition key_of (key : Z) (down : bool) : capture_step := Device_event willing (Some (Ok (KeyboardKey key down))).
Definition captured_typing : list capture_step :=
  [Backend_arms 0; Takes_command willing; Gets_activated (Some 5) (Some 2) None; key_of 29 true; key_of 56 true].
Definition right_barriers : gmap Z BarrierMetadata :=
  match (configure_barriers Edge_Right willing (fresh_capture 0 ∅)).2 with
  | Ok (_, barriers) => barriers
  | Err _ => ∅
  end.
(** The capture with the pointer away and Control and Alt held. *)
Definition typing : Capture :=
  (portal_run ":1.40" Edge_Right 0 captured_typing (fresh_capture 7 right_barriers)).1.
(** The same, when the receiver falls silent. *)
Definition abandoned : Capture * option (result unit string) :=
  portal_run ":1.40" Edge_Right 0 (captured_typing ++ [Lease_ticks (from_secs 3)])
    (fresh_capture 7 right_barriers).

Lemma receiver_knows_the_held_keys_witness : told (cp_events typing) = cp_pressed typing
  /\ cp_pressed typing = {[29; 56]}.
Proof.
  split; [|vm_compute; reflexivity].
  apply (receiver_knows_the_held_keys ":1.40" Edge_Right 0 7 right_barriers captured_typing typing None).
  vm_compute; reflexivity.
Defined.

(** The same, when the portal revokes the session. *)
Definition revoked : Capture * option (result unit string) :=
  portal_run ":1.40" Edge_Right 0 (captured_typing ++ [Session_closes]) (fresh_capture 7 right_barriers).
Lemma ended_capture_is_given_up_witness :
  revoked.2 = Some (Err (LibeiInit "InputCapture portal session was revoked"))
  /\ last (cp_events revoked.1) = Some (BackendFailed (LibeiInit "InputCapture portal session was revoked")).
Proof.
  split; [vm_compute; reflexivity|].
  refine (proj2 (ended_capture_is_given_up ":1.40" Edge_Right 0 7 right_barriers
    (captured_typing ++ [Session_closes]) revoked.1
    (Err (LibeiInit "InputCapture portal session was revoked")) _) _ eq_refl).
  vm_compute; reflexivity.
Defined.
Example revoked_capture_is_released :
  captured ":1.40" Edge_Right 0 captured_typing (fresh_capture 7 right_barriers) None = Some 5
  /\ cp_calls revoked.1 = [Call_Enable; Call_Release 5 None; Call_Disable; Call_Close].
Proof. vm_compute. split; reflexivity. Qed.

Lemma silent_receiver_loses_the_capture_witness :
  let last_look := portal_run ":1.40" Edge_Right 0 [key_of 30 true; Lease_ticks (from_secs 3)] typing in
  cp_armed typing = true
  /\ (is_Some last_look.2 \/ cp_armed last_look.1 = false \/ Disarm ∈ cp_commands last_look.1
      \/ cp_dropped last_look.1 = true).
Proof.
  intros last_look. split; [vm_compute; reflexivity|].
  apply (silent_receiver_loses_the_capture ":1.40" Edge_Right 0 0 (from_secs 3) typing last_look.1
    [key_of 30 true; Lease_ticks (from_secs 3)] last_look.2).
  - done.
  - vm_compute; discriminate.
  - vm_compute; reflexivity.
  - vm_compute. intros H. inversion H.
  - repeat constructor.
  - right. left.
  - vm_compute; discriminate.
  - apply surjective_pairing.
Defined.

Lemma chord_gives_the_input_back_witness :
  let after := portal_step ":1.40" Edge_Right 0 (Device_event willing (Some (Ok (KeyboardKey KEY_ESC true)))) typing in
  after.2 = Ok tt /\ cp_pressed after.1 = ∅.
Proof.
  intros after. split; [vm_compute; reflexivity|].
  apply (chord_gives_the_input_back ":1.40" Edge_Right 0 willing KEY_ESC typing);
    [right; reflexivity|vm_compute; reflexivity].
Defined.

Lemma activation_names_its_monitor_witness :
  let after := (on_activated (Some 5) (Some 2) None (fresh_capture 7 right_barriers)).1 in
  cp_events after = [Activated 5 Edge_Right (S754_finite false 8388608 (-24))] /\ cp_activation_id after = Some 5.
Proof.
  intros after. split; [vm_compute; reflexivity|].
  refine (proj1 (activation_names_its_monitor Edge_Right willing (fresh_capture 0 ∅) _
    (fresh_capture 7 right_barriers) 7 5 2 right_barriers None _ eq_refl)).
  vm_compute; reflexivity.
Defined.

(** A portal that is there from the start, and hangs when its session is created. *)
Definition hanging : PortalSetup :=
  {| ps_bus := Some (Ok tt); ps_start := Ok tt; ps_now := 0;
     ps_polls := (fun i => (from_millis (100 * Z.of_nat i), Owned ":1.40")) <$> seq 0 12;
     ps_session := None; ps_barriers := Some willing; ps_eis := Some (Ok tt);
     ps_owner_after := Some (Ok ":1.40") |}.
Definition working : PortalSetup :=
  {| ps_bus := Some (Ok tt); ps_start := Ok tt; ps_now := 0; ps_polls := ps_polls hanging;
     ps_session := Some (Ok (true, true, "Keyboard | Pointer")); ps_barriers := Some willing;
     ps_eis := Some (Ok tt); ps_owner_after := Some (Ok ":1.40") |}.

Lemma capture_needs_a_stable_portal_witness : ps_owner_after working = Some (Ok ":1.40")
  /\ exists owner, ps_owner_after working = Some (Ok owner) /\ None <> Some owner.
Proof.
  split; [reflexivity|].
  destruct (capture_needs_a_stable_portal Edge_Right working None (fresh_capture 7 right_barriers))
    as (owner & ? & ? & ? & ? & ? & ? & ? & ? & H1 & H2); [vm_compute; reflexivity|].
  exists owner. split; [exact H1|exact H2].
Defined.

Lemma hung_portal_is_not_asked_again_witness :
  preflight Edge_Right working (preflight Edge_Right hanging None).1 = (Some ":1.40", Err refused).
Proof.
  refine (proj1 (hung_portal_is_not_asked_again Edge_Right hanging working None ":1.40" ":1.40"
    (None, Some ":1.40") _ _ _ _) eq_refl); vm_compute; reflexivity.
Defined.
