(* ===== verification/LinuxInjection.v ===== *)
(** * Playing input on Linux: [crates/edge-linux-input/src]

    Three backends play a peer's input: a virtual device of the kernel ([Uinput]), the virtual
    pointer and keyboard of the compositor ([WaylandInput]) and libei ([LibeiInput]); the receiver
    chooses one ([ReceiverBackend] of main.rs).  This file has what they share and the choice.
    What a backend sends is recorded in its state, so that what the desktop holds down can be
    computed from it.  What the kernel, the compositor and libei answer is a list of answers,
    consumed one by one and willing when it is empty.  Errors are their text. *)
From Stdlib Require Import SpecFloat.
From S2P Require Import Text Config.
From S2P Require Export Float.
#[local] Open Scope string_scope.
#[local] Open Scope Z_scope.
#[local] Open Scope list_scope.

(** [edge-linux-input/wayland_virtual_input 434-442 linux_button_code]; the other two backends
    have the same codes. *)
Definition linux_button_code (button : MouseButton) : Z :=
  match button with
  | Button_Left => 272
  | Button_Right => 273
  | Button_Middle => 274
  | Button_Back => 278
  | Button_Forward => 277
  end.

(** A key or a button goes down or up. *)
Definition press (code : Z) (down : bool) (codes : gset Z) : gset Z :=
  if down then {[code]} ∪ codes else codes ∖ {[code]}.

Lemma minus_all (codes : gset Z) : codes ∖ list_to_set (ascending codes) = ∅.
Proof. apply set_eq. intros x. rewrite elem_of_difference, elem_of_list_to_set, elem_of_ascending. set_solver. Qed.

(** The next answer of a list of errors that may come. *)
Definition next_answer (answers : list (option string)) : option string * list (option string) :=
  match answers with [] => (None, []) | a :: rest => (a, rest) end.

(** ** The choice of a backend *)

(** [rx/main 5876-5882 ReceiverBackend], without the connections themselves. *)
Inductive ReceiverBackend := Libei_backend | Uinput_backend | Hyprland_backend | LogOnly.

(** [rx/main 5885-5892 label] *)
Definition label (b : ReceiverBackend) : string :=
  match b with
  | Libei_backend => "libei" | Uinput_backend => "uinput" | Hyprland_backend => "hyprland"
  | LogOnly => "log"
  end.

(** What the system answers: the desktop's names and socket, and how each connection goes. *)
Record Desktop := {
  desktop_names : list string;
  niri_socket : bool;
  libei_available : bool;
  uinput_connects : result unit string;
  libei_connects : result unit string;
  hyprland_connects : result unit string;
}.

(** The parts between the separators. *)
Definition split_names (value : string) : list string :=
  flat_map (str_split (ascii_of_byte 59)) (str_split (ascii_of_byte 58) value).
(** [rx/main 6027-6031 desktop_names_include_niri] *)
Definition desktop_names_include_niri (value : string) : bool :=
  existsb (fun desktop => str_eqb (str_to_ascii_lowercase desktop) "niri") (split_names value).
(** [rx/main 6018-6025 is_niri_session] *)
Definition is_niri_session (d : Desktop) : bool :=
  existsb desktop_names_include_niri (desktop_names d) || niri_socket d.

(** A text in double quotes. *)
Definition quoted (s : string) : string :=
  String (ascii_of_byte 34) (s ++ String (ascii_of_byte 34) EmptyString)%string.

(** [map_err] with a context: an error of [anyhow] is its messages, outermost first. *)
Definition connected {E} (backend : ReceiverBackend) (context : E) (r : result unit E) :
  result ReceiverBackend (list E) :=
  match r with Ok _ => Ok backend | Err error => Err [context; error] end.

(** [rx/main 5894-5991 from_config] *)
Definition from_config (config : AppConfig) (d : Desktop) : result ReceiverBackend (list string) :=
  let requested := str_to_ascii_lowercase (inject_backend (inject (cfg_input config))) in
  let hyprland context := connected Hyprland_backend context (hyprland_connects d) in
  if str_eqb requested "auto" then
    let others :=
      if libei_available d && is_Ok (libei_connects d) then Ok Libei_backend
      else hyprland ("input.backend is " ++ quoted "auto" ++ ", but no real input backend could be initialized; ensure the receiver starts inside the graphical session or set input.backend = " ++ quoted "log" ++ " explicitly for protocol-only testing")%string in
    if is_niri_session d && is_Ok (uinput_connects d) then Ok Uinput_backend else others
  else if str_eqb requested "hyprland" then
    hyprland ("input.backend is " ++ quoted "hyprland" ++ ", but Hyprland virtual input initialization failed")%string
  else if str_eqb requested "uinput" then
    connected Uinput_backend ("input.backend is " ++ quoted "uinput" ++ ", but /dev/uinput initialization failed")%string
      (uinput_connects d)
  else if str_eqb requested "libei" then
    if libei_available d then
      connected Libei_backend ("input.backend is " ++ quoted "libei" ++ ", but libei initialization failed")%string
        (libei_connects d)
    else Err [("input.backend is " ++ quoted "libei" ++ ", but libei-1.0 is not available through pkg-config")%string]
  else if str_eqb requested "log" || str_eqb requested "mock" || str_eqb requested "none" then Ok LogOnly
  else Err [("unsupported input.backend " ++ quoted requested ++ "; expected auto, uinput, hyprland, libei, or log")%string].

(** Input is thrown away only where the configuration says so: "auto" and the names of real
    backends end with a backend that plays it, or with an error that says what failed. *)
Theorem input_is_dropped_only_on_request (config : AppConfig) (d : Desktop)
    (Hd : from_config config d = Ok LogOnly) :
  str_to_ascii_lowercase (inject_backend (inject (cfg_input config))) ∈ ["log"; "mock"; "none"].
Proof.
  unfold from_config, connected in Hd. set (requested := str_to_ascii_lowercase _) in *.
  destruct (str_eqb requested "auto"); [repeat case_match; done|].
  destruct (str_eqb requested "hyprland"); [repeat case_match; done|].
  destruct (str_eqb requested "uinput"); [repeat case_match; done|].
  destruct (str_eqb requested "libei"); [repeat case_match; done|].
  destruct (str_eqb requested "log") eqn:E1; [apply str_eqb_spec in E1; set_solver|].
  destruct (str_eqb requested "mock") eqn:E2; [apply str_eqb_spec in E2; set_solver|].
  destruct (str_eqb requested "none") eqn:E3; [apply str_eqb_spec in E3; set_solver|]. done.
Qed.

Definition set_cfg_input : InputConfig -> AppConfig -> AppConfig := ltac:(field_setter cfg_input).
Definition set_inject : InputInjectConfig -> InputConfig -> InputConfig := ltac:(field_setter inject).
Definition with_backend (backend : string) : AppConfig :=
  set_cfg_input (set_inject {| inject_backend := backend; inject_output := EmptyString |}
                   (cfg_input receiver_default)) receiver_default.
Definition bare_desktop : Desktop :=
  {| desktop_names := ["Hyprland:niri"]; niri_socket := false; libei_available := false;
     uinput_connects := Err "permission denied"; libei_connects := Err "no session";
     hyprland_connects := Ok tt |}.
Lemma input_is_dropped_only_on_request_witness :
  from_config receiver_default bare_desktop = Ok Hyprland_backend
  /\ str_to_ascii_lowercase "LOG" ∈ ["log"; "mock"; "none"].
Proof.
  split; [vm_compute; reflexivity|].
  apply (input_is_dropped_only_on_request (with_backend "LOG") bare_desktop). vm_compute; reflexivity.
Defined.
