(* ===== verification/Uinput.v ===== *)
(** * The virtual input device of the kernel: [crates/edge-linux-input/src/uinput.rs]

    Key and button events, and motion in whole steps with the fractions kept for later. *)
From Stdlib Require Import SpecFloat.
From S2P Require Import Text.
From S2P Require Export LinuxInjection.
#[local] Open Scope string_scope.
#[local] Open Scope Z_scope.
#[local] Open Scope list_scope.

(** [edge-linux-input/uinput 13-13 EVDEV_KEY_MAX] *)
Definition EVDEV_KEY_MAX : Z := 767.
(** The event types and axes of the kernel. *)
Definition REL_X : Z := 0.
Definition REL_Y : Z := 1.
Definition REL_HWHEEL : Z := 6.
Definition REL_WHEEL : Z := 8.
Inductive kernel_event := EV_KEY (code value : Z) | EV_REL (axis value : Z).

(** The device is the batches it was given with how each ended.
    [edge-linux-input/uinput 39-46 UinputSender] *)
Record UinputSender := {
  device : list (list kernel_event * option string);
  answers : list (option string);
  pressed_keys : gset Z;
  pressed_buttons : gset Z;
  motion_remainder : float * float;
  wheel_remainder : float * float;
}.
Definition set_device : list (list kernel_event * option string) -> UinputSender -> UinputSender :=
  ltac:(field_setter device).
Definition set_answers : list (option string) -> UinputSender -> UinputSender := ltac:(field_setter answers).
Definition set_pressed_keys : gset Z -> UinputSender -> UinputSender := ltac:(field_setter pressed_keys).
Definition set_pressed_buttons : gset Z -> UinputSender -> UinputSender :=
  ltac:(field_setter pressed_buttons).
Definition set_motion_remainder : float * float -> UinputSender -> UinputSender :=
  ltac:(field_setter motion_remainder).
Definition set_wheel_remainder : float * float -> UinputSender -> UinputSender :=
  ltac:(field_setter wheel_remainder).

Definition zero : float := S754_zero false.
(** [edge-linux-input/uinput 49-71 connect] *)
Definition connect (device : result unit string) (answers : list (option string)) :
  result UinputSender string :=
  match device with
  | Err error => Err ("failed to initialize uinput backend: " ++ error)%string
  | Ok _ => Ok {| device := []; answers := answers; pressed_keys := ∅; pressed_buttons := ∅;
                  motion_remainder := (zero, zero); wheel_remainder := (zero, zero) |}
  end.

Abbreviation sending := (stateful UinputSender string).

(** [device.emit(&events)] *)
Definition emit (events : list kernel_event) : sending unit := fun s =>
  let '(a, rest) := next_answer (answers s) in
  (set_answers rest (set_device (device s ++ [(events, a)]) s),
   match a with None => Ok tt | Some error => Err error end).

(** [edge-linux-input/uinput 165-172 integral_delta] *)
Definition integral_delta (remainder : float * float) (x y : float) : (float * float) * (Z * Z) :=
  let rx := f64_add remainder.1 x in
  let ry := f64_add remainder.2 y in
  let integral := (f64_as_i32 (f64_trunc rx), f64_as_i32 (f64_trunc ry)) in
  ((f64_sub rx (f64_of integral.1), f64_sub ry (f64_of integral.2)), integral).

(** [edge-linux-input/uinput 114-132 emit_relative] *)
Definition emit_relative (x y x_axis y_axis : Z) : sending unit :=
  let events := (if x =? 0 then [] else [EV_REL x_axis x]) ++ (if y =? 0 then [] else [EV_REL y_axis y]) in
  match events with [] => st_ret tt | _ :: _ => emit events end.

(** [edge-linux-input/uinput 134-138 emit_key] *)
Definition emit_key (code : Z) (down : bool) : sending unit := emit [EV_KEY code (if down then 1 else 0)].

(** [edge-linux-input/uinput 140-156 release_all] *)
Definition release_all : sending unit := fun s =>
  let events := map (fun code => EV_KEY code 0)
                  (ascending (pressed_keys s) ++ ascending (pressed_buttons s)) in
  let s := set_wheel_remainder (zero, zero) (set_motion_remainder (zero, zero) s) in
  match events with
  | [] => (s, Ok tt)
  | _ :: _ => (do! emit events;;
               fun s => (set_pressed_buttons ∅ (set_pressed_keys ∅ s), Ok tt)) s
  end.

(** [edge-linux-input/uinput 73-112 inject] *)
Definition inject (event : InputEvent) : sending unit := fun s =>
  match event with
  | PointerMotion dx dy =>
      let '(remainder, (x, y)) := integral_delta (motion_remainder s) dx dy in
      emit_relative x y REL_X REL_Y (set_motion_remainder remainder s)
  | PointerWheel x y =>
      let '(remainder, (x, y)) := integral_delta (wheel_remainder s) x y in
      emit_relative x y REL_HWHEEL REL_WHEEL (set_wheel_remainder remainder s)
  | PointerButton button down =>
      let code := linux_button_code button in
      (do! emit_key code down;;
       fun s => (set_pressed_buttons (press code down (pressed_buttons s)) s, Ok tt)) s
  | Key evdev_code down =>
      if EVDEV_KEY_MAX <? evdev_code
      then (s, Err ("evdev key code " ++ print_dec evdev_code
                    ++ " is outside the uinput device's supported range")%string)
      else (do! emit_key evdev_code down;;
            fun s => (set_pressed_keys (press evdev_code down (pressed_keys s)) s, Ok tt)) s
  | AllKeysUp => release_all s
  end.

(** [edge-linux-input/uinput 160-162 drop] *)
Definition drop_sender (s : UinputSender) : UinputSender := (release_all s).1.

(** ** What the kernel holds down *)

Definition key_step (codes : gset Z) (event : kernel_event) : gset Z :=
  match event with EV_KEY code value => press code (negb (value =? 0)) codes | EV_REL _ _ => codes end.
(** The keys and buttons that are down by the batches the kernel took. *)
Definition kernel_holds (batches : list (list kernel_event * option string)) : gset Z :=
  foldl (fun codes batch => match batch.2 with None => foldl key_step codes batch.1 | Some _ => codes end)
    ∅ batches.
(** The events of a peer, whose errors are logged. *)
Definition inject_all (events : list InputEvent) (s : UinputSender) : UinputSender :=
  fold_left (fun s event => (inject event s).1) events s.

Lemma kernel_holds_snoc batches batch : kernel_holds (batches ++ [batch])
  = match batch.2 with None => foldl key_step (kernel_holds batches) batch.1 | Some _ => kernel_holds batches end.
Proof. unfold kernel_holds. by rewrite foldl_snoc. Qed.

Lemma releases_hold codes : forall held, foldl key_step held (map (fun code => EV_KEY code 0) codes)
  = held ∖ list_to_set codes.
Proof.
  induction codes as [|code codes IH]; intros held; cbn; [set_solver|]. rewrite IH. set_solver.
Qed.

(** What is down is remembered. *)
Definition remembers (s : UinputSender) : Prop :=
  kernel_holds (device s) ⊆ pressed_keys s ∪ pressed_buttons s.

Lemma emit_device events s : (emit events s).1
  = set_answers (next_answer (answers s)).2
      (set_device (device s ++ [(events, (next_answer (answers s)).1)]) s)
  /\ ((emit events s).2 = Ok tt <-> (next_answer (answers s)).1 = None).
Proof. unfold emit. destruct (next_answer (answers s)) as [[|] rest]; by split. Qed.
Lemma emit_relative_holds x y x_axis y_axis s :
  kernel_holds (device (emit_relative x y x_axis y_axis s).1) = kernel_holds (device s)
  /\ pressed_keys (emit_relative x y x_axis y_axis s).1 = pressed_keys s
  /\ pressed_buttons (emit_relative x y x_axis y_axis s).1 = pressed_buttons s.
Proof.
  unfold emit_relative.
  destruct (x =? 0), (y =? 0); cbn [app]; [by cbn|..];
    (match goal with |- context [emit ?events s] => destruct (emit_device events s) as [-> _] end;
     cbn; rewrite kernel_holds_snoc; cbn; by destruct (next_answer (answers s)).1).
Qed.

(** Letting everything go: it is gone when the kernel took it, and still remembered otherwise. *)
Lemma release_remembers s : remembers s -> remembers (release_all s).1
  /\ match (release_all s).2 with
     | Ok _ => kernel_holds (device (release_all s).1) = ∅
     | Err _ => pressed_keys (release_all s).1 = pressed_keys s
                /\ pressed_buttons (release_all s).1 = pressed_buttons s
     end.
Proof.
  unfold remembers, release_all. intros Hs.
  set (codes := ascending (pressed_keys s) ++ ascending (pressed_buttons s)).
  assert (kernel_holds (device s) ∖ list_to_set codes = ∅) as Hcodes.
  { apply set_eq. intros x. rewrite elem_of_difference, elem_of_list_to_set. unfold codes.
    rewrite elem_of_app, !elem_of_ascending.
    set_solver. }
  set (s0 := set_wheel_remainder _ _). cbv zeta.
  assert (forall events, events = map (fun code => EV_KEY code 0) codes ->
    let r := match events with
             | [] => (s0, Ok tt)
             | _ :: _ => (do! emit events;; fun s => (set_pressed_buttons ∅ (set_pressed_keys ∅ s), Ok tt)) s0
             end in
    kernel_holds (device r.1) ⊆ pressed_keys r.1 ∪ pressed_buttons r.1
    /\ match r.2 with
       | Ok _ => kernel_holds (device r.1) = ∅
       | Err _ => pressed_keys r.1 = pressed_keys s /\ pressed_buttons r.1 = pressed_buttons s
       end) as H; [|by apply H].
  intros events E. destruct events as [|e l]; cbv zeta.
  - symmetry in E. apply map_eq_nil in E. rewrite E in Hcodes. cbn. cbn in Hcodes.
    rewrite difference_empty_L in Hcodes. split; [exact Hs|exact Hcodes].
  - unfold st_bind. destruct (emit_device (e :: l) s0) as [E1 E2].
    destruct (emit (e :: l) s0) as [s1 [[]|error]]; cbn [fst snd] in *; subst s1; cbn;
      rewrite kernel_holds_snoc; cbn [fst snd].
    + cbn in E2. rewrite (proj1 E2 eq_refl), E, releases_hold, Hcodes. by split.
    + cbn in E2. destruct (next_answer (answers s)).1 eqn:Ea; [by split_and?|]. by pose proof (proj2 E2 eq_refl).
Qed.

Lemma inject_remembers event s : remembers s -> remembers (inject event s).1.
Proof.
  unfold remembers. intros Hs. destruct event as [dx dy|button down|x y|code down|]; cbn [inject].
  - destruct (integral_delta _ _ _) as [remainder [x y]].
    destruct (emit_relative_holds x y REL_X REL_Y (set_motion_remainder remainder s)) as (-> & -> & ->). done.
  - unfold st_bind, emit_key. destruct (emit_device [EV_KEY (linux_button_code button) (if down then 1 else 0)] s) as [E1 E2].
    destruct (emit _ s) as [s1 [[]|e]]; cbn in E1, E2; subst s1; cbn; rewrite kernel_holds_snoc; cbn.
    + rewrite (proj1 E2 eq_refl). destruct down; cbn; set_solver.
    + destruct (next_answer (answers s)).1 eqn:Ea; [by split_and?|]. by pose proof (proj2 E2 eq_refl).
  - destruct (integral_delta _ _ _) as [remainder [x' y']].
    destruct (emit_relative_holds x' y' REL_HWHEEL REL_WHEEL (set_wheel_remainder remainder s)) as (-> & -> & ->). done.
  - destruct (_ <? code); [done|]. unfold st_bind, emit_key.
    destruct (emit_device [EV_KEY code (if down then 1 else 0)] s) as [E1 E2].
    destruct (emit _ s) as [s1 [[]|e]]; cbn in E1, E2; subst s1; cbn; rewrite kernel_holds_snoc; cbn.
    + rewrite (proj1 E2 eq_refl). destruct down; cbn; set_solver.
    + destruct (next_answer (answers s)).1 eqn:Ea; [by split_and?|]. by pose proof (proj2 E2 eq_refl).
  - by apply release_remembers.
Qed.

(** C32. Nothing stays down on the virtual device: whatever a peer's events were and whichever of them
    the kernel refused, the keys and buttons that are down are remembered, so that a release that
    the kernel takes leaves none down, and one that it refuses forgets none and can be repeated. *)
Theorem device_lets_everything_go (events : list InputEvent) (accepts : list (option string)) (s : UinputSender)
    (Hs : connect (Ok tt) accepts = Ok s) :
  let s := inject_all events s in
  kernel_holds (device s) ⊆ pressed_keys s ∪ pressed_buttons s
  /\ match (inject AllKeysUp s).2 with
     | Ok _ => kernel_holds (device (inject AllKeysUp s).1) = ∅
     | Err _ => pressed_keys (inject AllKeysUp s).1 = pressed_keys s
                /\ pressed_buttons (inject AllKeysUp s).1 = pressed_buttons s
     end.
Proof.
  assert (forall s, remembers s -> remembers (inject_all events s)) as Hall.
  { induction events as [|event events IH]; intros s0 H0; cbn; [done|]. by apply IH, inject_remembers. }
  injection Hs as <-. cbn zeta. assert (remembers (inject_all events
    {| device := []; answers := accepts; pressed_keys := ∅; pressed_buttons := ∅;
       motion_remainder := (zero, zero); wheel_remainder := (zero, zero) |})) as H by (by apply Hall).
  split; [exact H|]. exact (proj2 (release_remembers _ H)).
Qed.

(** ** Motion *)

Lemma whole_delta n : in_i32 n -> f64_as_i32 (f64_trunc (f64_add zero (f64_of n))) = n
  /\ f64_sub (f64_add zero (f64_of n)) (f64_of n) = zero.
Proof.
  intros Hn. assert (exact n) as He by (unfold exact, in_i32, i32_min, i32_max in *; lia).
  change zero with (f64_of 0). rewrite f64_add_exact by (done || (rewrite Z.add_0_l; done)).
  rewrite Z.add_0_l, f64_trunc_exact, f64_as_i32_exact by done. split; [done|].
  rewrite f64_sub_exact; [by rewrite Z.sub_diag|done..|by rewrite Z.sub_diag].
Qed.

(** The events a motion in whole steps is. *)
Definition steps (dx dy : Z) : list (list kernel_event) :=
  match (if dx =? 0 then [] else [EV_REL REL_X dx]) ++ (if dy =? 0 then [] else [EV_REL REL_Y dy]) with
  | [] => []
  | events => [events]
  end.

(** Motion in whole steps is played exactly and leaves no fraction behind. *)
Theorem whole_steps_pass_unchanged (moves : list (Z * Z)) (s : UinputSender)
    (Hm : Forall (fun move => in_i32 move.1 /\ in_i32 move.2) moves)
    (Hr : motion_remainder s = (zero, zero)) :
  let s' := inject_all (map (fun move => PointerMotion (f64_of move.1) (f64_of move.2)) moves) s in
  motion_remainder s' = (zero, zero)
  /\ (device s').*1 = (device s).*1 ++ flat_map (fun move => steps move.1 move.2) moves.
Proof.
  revert s Hr. induction Hm as [|[dx dy] moves [Hx Hy] _ IH]; intros s Hr; cbn [map flat_map].
  { by rewrite app_nil_r. }
  cbn [inject_all fold_left fst snd] in *.
  assert (motion_remainder (inject (PointerMotion (f64_of dx) (f64_of dy)) s).1 = (zero, zero)
    /\ (device (inject (PointerMotion (f64_of dx) (f64_of dy)) s).1).*1 = (device s).*1 ++ steps dx dy) as [H1 H2].
  { cbn [inject]. unfold integral_delta. rewrite Hr. cbn [fst snd].
    destruct (whole_delta dx Hx) as [E1 E2], (whole_delta dy Hy) as [E3 E4]. rewrite E1, E2, E3, E4.
    unfold emit_relative, steps. destruct (dx =? 0), (dy =? 0); cbn [app]; [by rewrite app_nil_r|..];
      (match goal with |- context [emit ?events ?s0] => destruct (emit_device events s0) as [-> _] end;
       cbn; by rewrite fmap_app). }
  destruct (IH _ H1) as [H3 H4]. split; [exact H3|]. unfold inject_all in H4. rewrite H4, H2.
  by rewrite <- (assoc_L (++)).
Qed.

(** A sum with a number that is none is none, and none of its steps are whole. *)
Lemma nan_delta r x y : r = (S754_nan, S754_nan) \/ (x = S754_nan /\ y = S754_nan) ->
  integral_delta r x y = ((S754_nan, S754_nan), (0, 0)).
Proof.
  assert (forall v, f64_add v S754_nan = S754_nan) as Hadd by (by intros [[]|[]| |[]]).
  unfold integral_delta. intros [->|[-> ->]]; [done|]. by rewrite !Hadd.
Qed.
Lemma nan_motions moves : forall s, motion_remainder s = (S754_nan, S754_nan) ->
  let s' := inject_all (map (fun m => PointerMotion m.1 m.2) moves) s in
  device s' = device s /\ pressed_keys s' = pressed_keys s.
Proof.
  induction moves as [|[x y] moves IH]; intros s H; [done|]. cbn [map inject_all fold_left fst snd inject].
  rewrite nan_delta by (by left). apply (IH (set_motion_remainder (S754_nan, S754_nan) s)). done.
Qed.

(** A defect: a delta that is no number stays in the remainder.  After one motion event with NaN
    deltas the pointer does not move any more, whatever motion follows, until everything is
    released. *)
Theorem nan_motion_stops_the_pointer (s : UinputSender) (moves : list (float * float)) :
  let s' := inject_all (PointerMotion S754_nan S754_nan :: map (fun m => PointerMotion m.1 m.2) moves) s in
  device s' = device s /\ pressed_keys s' = pressed_keys s.
Proof.
  cbn [inject_all fold_left inject]. rewrite nan_delta by (by right).
  by apply (nan_motions moves (set_motion_remainder (S754_nan, S754_nan) s)).
Qed.

(** ** Samples *)

Definition fresh_device : UinputSender :=
  {| device := []; answers := [None; Some "busy"; None]; pressed_keys := ∅; pressed_buttons := ∅;
     motion_remainder := (zero, zero); wheel_remainder := (zero, zero) |}.
Lemma device_lets_everything_go_witness :
  (inject AllKeysUp (inject_all [Key 29 true; Key 30 true] fresh_device)).2 = Ok tt
  /\ kernel_holds (device (inject AllKeysUp (inject_all [Key 29 true; Key 30 true] fresh_device)).1) = ∅.
Proof.
  split; [vm_compute; reflexivity|].
  exact (proj2 (device_lets_everything_go [Key 29 true; Key 30 true] [None; Some "busy"; None] fresh_device
    eq_refl)).
Defined.
Lemma whole_steps_pass_unchanged_witness :
  (device (inject_all [PointerMotion (f64_of 3) (f64_of (-2))] fresh_device)).*1
  = [[EV_REL REL_X 3; EV_REL REL_Y (-2)]].
Proof.
  refine (proj2 (whole_steps_pass_unchanged [(3, -2)] fresh_device _ eq_refl)).
  repeat constructor; vm_compute; discriminate.
Defined.
