(* ===== verification/WaylandInput.v ===== *)
(** * The virtual pointer and keyboard: [crates/edge-linux-input/src/wayland_virtual_input.rs]

    The compositor is told of keys and buttons, and of the modifiers they amount to, which the
    backend counts itself. *)
From Stdlib Require Import SpecFloat.
From S2P Require Export LinuxInjection.
#[local] Open Scope string_scope.
#[local] Open Scope Z_scope.
#[local] Open Scope list_scope.

(** [edge-linux-input/wayland_virtual_input 52-52 WHEEL_AXIS_STEP] *)
Definition WHEEL_AXIS_STEP : float := f64_of 15.

(** [edge-linux-input/wayland_virtual_input 252-259 ModifierState] *)
Record ModifierState := { shift : Z; control : Z; alt : Z; logo : Z; caps_lock : bool }.
Definition set_shift : Z -> ModifierState -> ModifierState := ltac:(field_setter shift).
Definition set_control : Z -> ModifierState -> ModifierState := ltac:(field_setter control).
Definition set_alt : Z -> ModifierState -> ModifierState := ltac:(field_setter alt).
Definition set_logo : Z -> ModifierState -> ModifierState := ltac:(field_setter logo).
Definition set_caps_lock : bool -> ModifierState -> ModifierState := ltac:(field_setter caps_lock).
Definition modifiers_default : ModifierState :=
  {| shift := 0; control := 0; alt := 0; logo := 0; caps_lock := false |}.

(** The modifiers that are counted, with the keys of each. *)
Inductive Modifier := Shift | Control | Alt | Logo.
Definition keys_of (m : Modifier) : list Z :=
  match m with Shift => [42; 54] | Control => [29; 97] | Alt => [56; 100] | Logo => [125; 126] end.
Definition modifier_of (evdev_code : Z) : option Modifier :=
  List.find (fun m => existsb (Z.eqb evdev_code) (keys_of m)) [Shift; Control; Alt; Logo].
Definition counter (m : Modifier) (s : ModifierState) : Z :=
  match m with Shift => shift s | Control => control s | Alt => alt s | Logo => logo s end.
Definition set_counter (m : Modifier) (n : Z) (s : ModifierState) : ModifierState :=
  match m with
  | Shift => set_shift n s | Control => set_control n s | Alt => set_alt n s | Logo => set_logo n s
  end.

(** [edge-linux-input/wayland_virtual_input 262-291 update] *)
Definition update (evdev_code : Z) (down was_pressed : bool) (s : ModifierState) : ModifierState * bool :=
  if evdev_code =? 58 then
    if down && negb was_pressed then (set_caps_lock (negb (caps_lock s)) s, true) else (s, false)
  else if down && was_pressed then (s, false)
  else
    match modifier_of evdev_code with
    | None => (s, false)
    | Some m =>
        let previous := counter m s in
        let n := if down then saturating_add 255 previous 1 else saturating_sub previous 1 in
        (set_counter m n s, xorb (0 <? previous) (0 <? n))
    end.

(** [edge-linux-input/wayland_virtual_input 302-317 depressed] *)
Definition depressed (s : ModifierState) : Z :=
  let bit (b : bool) n := if b then Z.shiftl 1 n else 0 in
  Z.lor (Z.lor (Z.lor (bit (0 <? shift s) 0) (bit (0 <? control s) 2)) (bit (0 <? alt s) 3))
        (bit (0 <? logo s) 6).
(** [edge-linux-input/wayland_virtual_input 319-321 locked] *)
Definition locked (s : ModifierState) : Z := if caps_lock s then 2 else 0.
(** [edge-linux-input/wayland_virtual_input 293-300 clear_depressed] *)
Definition clear_depressed (s : ModifierState) : ModifierState * bool :=
  ({| shift := 0; control := 0; alt := 0; logo := 0; caps_lock := caps_lock s |},
   negb (depressed s =? 0)).

(** The requests of the two protocols. *)
Inductive Axis := HorizontalScroll | VerticalScroll.
Inductive request :=
| Pointer_motion (time : Z) (dx dy : float)
| Pointer_button (time code : Z) (pressed : bool)
| Pointer_axis_source_wheel
| Pointer_axis_discrete (time : Z) (axis : Axis) (value : float) (discrete : Z)
| Pointer_frame
| Keyboard_key (time key : Z) (pressed : bool)
| Keyboard_modifiers (depressed latched locked group : Z).

(** [edge-linux-input/wayland_virtual_input 79-91 HyprlandVirtualInput] *)
Record HyprlandVirtualInput := {
  requests : list request;
  pressed_keys : gset Z;
  pressed_buttons : gset Z;
  modifiers : ModifierState;
  started_at : Instant;
}.
Definition set_requests : list request -> HyprlandVirtualInput -> HyprlandVirtualInput :=
  ltac:(field_setter requests).
Definition set_pressed_keys : gset Z -> HyprlandVirtualInput -> HyprlandVirtualInput :=
  ltac:(field_setter pressed_keys).
Definition set_pressed_buttons : gset Z -> HyprlandVirtualInput -> HyprlandVirtualInput :=
  ltac:(field_setter pressed_buttons).
Definition set_modifiers : ModifierState -> HyprlandVirtualInput -> HyprlandVirtualInput :=
  ltac:(field_setter modifiers).
Definition connected (now : Instant) : HyprlandVirtualInput :=
  {| requests := []; pressed_keys := ∅; pressed_buttons := ∅; modifiers := modifiers_default;
     started_at := now |}.
Definition requested (rs : list request) (h : HyprlandVirtualInput) : HyprlandVirtualInput :=
  set_requests (requests h ++ rs) h.

(** [edge-linux-input/wayland_virtual_input 246-249 time_ms] *)
Definition time_ms (now : Instant) (h : HyprlandVirtualInput) : Z :=
  Z.min u32_max (duration_since now (started_at h) / 1000000).

(** [f64::signum], which keeps a NaN. *)
Definition f64_signum (x : float) : float :=
  match x with
  | S754_nan => x
  | S754_zero s | S754_infinity s | S754_finite s _ _ => f64_of (if s then -1 else 1)
  end.
Definition f64_ne_zero (x : float) : bool := negb (SFeqb x (S754_zero false)).

(** [edge-linux-input/wayland_virtual_input 223-237 all_keys_up] *)
Definition all_keys_up (now : Instant) (h : HyprlandVirtualInput) : HyprlandVirtualInput :=
  let time := time_ms now h in
  let h := requested (map (fun key => Keyboard_key time key false) (ascending (pressed_keys h)))
             (set_pressed_keys ∅ h) in
  let '(m, had) := clear_depressed (modifiers h) in
  let h := set_modifiers m h in
  let h := if had then requested [Keyboard_modifiers 0 0 (locked m) 0] h else h in
  let h := requested (map (fun button => Pointer_button time button false) (ascending (pressed_buttons h)))
             (set_pressed_buttons ∅ h) in
  requested [Pointer_frame] h.

(** One event, after the queue was read, before the connection is flushed.
    [edge-linux-input/wayland_virtual_input 149-216 inject] *)
Definition play (now : Instant) (event : InputEvent) (h : HyprlandVirtualInput) : HyprlandVirtualInput :=
  let time := time_ms now h in
  match event with
  | PointerMotion dx dy => requested [Pointer_motion time dx dy; Pointer_frame] h
  | PointerButton button down =>
      let code := linux_button_code button in
      set_pressed_buttons (press code down (pressed_buttons h))
        (requested [Pointer_button time code down; Pointer_frame] h)
  | PointerWheel x y =>
      let value := f64_mul (SFopp y) WHEEL_AXIS_STEP in
      requested ((if f64_ne_zero x
                  then [Pointer_axis_source_wheel;
                        Pointer_axis_discrete time HorizontalScroll (f64_mul x WHEEL_AXIS_STEP)
                          (f64_as_i32 (f64_round x))]
                  else [])
                 ++ (if f64_ne_zero y
                     then [Pointer_axis_source_wheel;
                           Pointer_axis_discrete time VerticalScroll value (f64_as_i32 (f64_signum value))]
                     else [])
                 ++ [Pointer_frame]) h
  | Key evdev_code down =>
      let h := requested [Keyboard_key time evdev_code down] h in
      let was_pressed := bool_decide (evdev_code ∈ pressed_keys h) in
      let h := set_pressed_keys (press evdev_code down (pressed_keys h)) h in
      let '(m, changed) := update evdev_code down was_pressed (modifiers h) in
      let h := set_modifiers m h in
      if changed then requested [Keyboard_modifiers (depressed m) 0 (locked m) 0] h else h
  | AllKeysUp => all_keys_up now h
  end.

(** [edge-linux-input/wayland_virtual_input 146-221 inject] *)
Definition inject (now : Instant) (dispatch flush : option string) (event : InputEvent) :
  stateful HyprlandVirtualInput string unit := fun h =>
  let failed error := Err ("failed to initialize Hyprland virtual input backend: " ++ error)%string in
  match dispatch with
  | Some error => (h, failed error)
  | None => (play now event h, match flush with None => Ok tt | Some error => failed error end)
  end.

(** Its drop releases everything before the devices go.
    [edge-linux-input/wayland_virtual_input 325-331 drop] *)
Definition drop_input (now : Instant) (h : HyprlandVirtualInput) : HyprlandVirtualInput := all_keys_up now h.

(** ** What the compositor was told *)

Definition key_told (codes : gset Z) (r : request) : gset Z :=
  match r with Keyboard_key _ code pressed => press code pressed codes | _ => codes end.
Definition button_told (codes : gset Z) (r : request) : gset Z :=
  match r with Pointer_button _ code pressed => press code pressed codes | _ => codes end.
Definition modifiers_told (told : Z * Z) (r : request) : Z * Z :=
  match r with Keyboard_modifiers d _ l _ => (d, l) | _ => told end.
Definition keys_down (rs : list request) : gset Z := foldl key_told ∅ rs.
Definition buttons_down (rs : list request) : gset Z := foldl button_told ∅ rs.
(** The masks of the depressed and the locked modifiers; none to begin with. *)
Definition masks (rs : list request) : Z * Z := foldl modifiers_told (0, 0) rs.

(** How many keys of a modifier are down. *)
Definition down_of (key : Z) (keys : gset Z) : Z := if decide (key ∈ keys) then 1 else 0.
Definition held_of (m : Modifier) (keys : gset Z) : Z :=
  foldr (fun key n => down_of key keys + n) 0 (keys_of m).
(** The bit of a modifier in the mask. *)
Definition bit_of (m : Modifier) : Z := match m with Shift => 0 | Control => 2 | Alt => 3 | Logo => 6 end.

Lemma releases_keys time codes : forall held,
  foldl key_told held (map (fun key => Keyboard_key time key false) codes) = held ∖ list_to_set codes.
Proof. induction codes as [|code codes IH]; intros held; cbn; [set_solver|]. rewrite IH. set_solver. Qed.
Lemma releases_buttons time codes : forall held,
  foldl button_told held (map (fun b => Pointer_button time b false) codes) = held ∖ list_to_set codes.
Proof. induction codes as [|code codes IH]; intros held; cbn; [set_solver|]. rewrite IH. set_solver. Qed.
Lemma other_requests time codes :
  (forall held, foldl button_told held (map (fun key => Keyboard_key time key false) codes) = held)
  /\ (forall held, foldl key_told held (map (fun b => Pointer_button time b false) codes) = held)
  /\ (forall told, foldl modifiers_told told (map (fun key => Keyboard_key time key false) codes) = told)
  /\ forall told, foldl modifiers_told told (map (fun b => Pointer_button time b false) codes) = told.
Proof. induction codes as [|code codes (IH1 & IH2 & IH3 & IH4)]; split_and!; intros; cbn; auto. Qed.

(** The compositor's view is the backend's own: keys, buttons and the modifiers. *)
Definition agrees (h : HyprlandVirtualInput) : Prop :=
  keys_down (requests h) = pressed_keys h /\ buttons_down (requests h) = pressed_buttons h
  /\ masks (requests h) = (depressed (modifiers h), locked (modifiers h)).
(** No modifier counts a key that is not down. *)
Definition counts_held (h : HyprlandVirtualInput) : Prop :=
  forall m, 0 <= counter m (modifiers h) <= held_of m (pressed_keys h).

Lemma masks_snoc rs r : masks (rs ++ r) = foldl modifiers_told (masks rs) r.
Proof. unfold masks. apply foldl_app. Qed.
Lemma keys_down_app rs r : keys_down (rs ++ r) = foldl key_told (keys_down rs) r.
Proof. unfold keys_down. apply foldl_app. Qed.
Lemma buttons_down_app rs r : buttons_down (rs ++ r) = foldl button_told (buttons_down rs) r.
Proof. unfold buttons_down. apply foldl_app. Qed.

#[export] Instance Modifier_eq_dec : EqDecision Modifier.
Proof. solve_decision. Defined.

(** The mask only depends on which counters are positive. *)
Lemma depressed_counters s s' : (forall m, (0 <? counter m s) = (0 <? counter m s')) -> depressed s = depressed s'.
Proof.
  intros H. pose proof (H Shift) as H1. pose proof (H Control) as H2. pose proof (H Alt) as H3.
  pose proof (H Logo) as H4. cbn [counter] in *. unfold depressed. by rewrite H1, H2, H3, H4.
Qed.
Lemma counter_set m m' n s : counter m' (set_counter m n s) = if decide (m = m') then n else counter m' s.
Proof. by destruct m, m'. Qed.

Lemma depressed_bit s m : Z.testbit (depressed s) (bit_of m) = (0 <? counter m s).
Proof.
  unfold depressed. destruct m; cbn [counter bit_of];
    by destruct (0 <? shift s), (0 <? control s), (0 <? alt s), (0 <? logo s).
Qed.
Lemma down_of_press key code down keys :
  down_of key (press code down keys) = if decide (key = code) then (if down then 1 else 0) else down_of key keys.
Proof.
  unfold down_of, press.
  destruct (decide (key = code)) as [->|Hn], down; repeat case_decide; set_solver.
Qed.
Lemma down_of_range key keys : 0 <= down_of key keys <= 1.
Proof. unfold down_of. case_decide; lia. Qed.

Lemma modifier_of_keys code m : modifier_of code = Some m -> code ∈ keys_of m.
Proof.
  unfold modifier_of. intros H. apply List.find_some in H as [_ H].
  apply existsb_exists in H as (k & Hk & ->%Z.eqb_eq). by apply list_elem_of_In.
Qed.
Lemma keys_modifier_of code m : code ∈ keys_of m -> modifier_of code = Some m.
Proof.
  intros H. assert (existsb (Z.eqb code) (keys_of m) = true) as E.
  { apply existsb_exists. exists code. split; [by apply list_elem_of_In|apply Z.eqb_refl]. }
  destruct m; unfold keys_of in H; rewrite !elem_of_cons, elem_of_nil in H;
    destruct H as [->|[->|[]]]; reflexivity.
Qed.
(** What a key event does to the number of held keys of a modifier. *)
Lemma held_of_press m code down keys : held_of m (press code down keys)
  = held_of m keys + (if decide (modifier_of code = Some m)
                      then (if down then 1 else 0) - down_of code keys else 0).
Proof.
  case_decide as Hm.
  - apply modifier_of_keys in Hm. unfold held_of.
    destruct m; cbn [keys_of foldr] in *; rewrite !elem_of_cons, elem_of_nil in Hm; rewrite !down_of_press;
      destruct Hm as [->|[->|[]]]; repeat case_decide; lia.
  - assert (forall key, key ∈ keys_of m -> key <> code) as Hne
      by (intros key Hk ->; by apply Hm, keys_modifier_of).
    unfold held_of. induction (keys_of m) as [|key ks IH]; cbn; [done|].
    rewrite down_of_press, decide_False by (apply Hne; set_solver). rewrite Z.add_0_r in IH.
    rewrite IH by (intros k Hk; apply Hne; set_solver). lia.
Qed.
Lemma held_of_range m keys : 0 <= held_of m keys <= 2.
Proof. unfold held_of, down_of. destruct m; cbn; repeat case_decide; lia. Qed.
Lemma held_of_key m code keys : modifier_of code = Some m -> down_of code keys <= held_of m keys.
Proof.
  intros Hm%modifier_of_keys. unfold held_of.
  destruct m; cbn [keys_of foldr] in *; rewrite !elem_of_cons, elem_of_nil in Hm;
    destruct Hm as [->|[->|[]]]; unfold down_of; repeat case_decide; lia.
Qed.
Lemma held_of_none m : held_of m ∅ = 0.
Proof. by destruct m. Qed.

(** The counters after a key event. *)
Lemma update_counter code down was s m : counter m (update code down was s).1
  = if decide (modifier_of code = Some m)
    then if down then if was then counter m s else Z.min 255 (counter m s + 1)
         else Z.max 0 (counter m s - 1)
    else counter m s.
Proof.
  unfold update. destruct (Z.eqb_spec code 58) as [->|Hn].
  { destruct (down && negb was); [|done]. by destruct m. }
  destruct down, was; cbn [andb]; [by case_decide| | |];
    (destruct (modifier_of code) as [m'|]; [|done]; cbv zeta; cbn [fst]; rewrite counter_set;
     destruct (decide (m' = m)) as [->|]; [by rewrite decide_True|by rewrite decide_False by congruence]).
Qed.
Lemma update_told code down was s : let r := update code down was s in
  r.2 = false -> depressed r.1 = depressed s /\ locked r.1 = locked s.
Proof.
  unfold update. destruct (code =? 58); [by destruct (down && negb was)|].
  destruct (down && was); [done|]. destruct (modifier_of code) as [m|]; [|done]. cbv zeta. cbn [fst snd]. intros H.
  split; [|by destruct m]. apply depressed_counters. intros m'. rewrite counter_set.
  destruct (decide (m = m')) as [<-|]; [|done]. by apply xorb_eq in H.
Qed.

Lemma key_agrees now code down h : agrees h -> agrees (play now (Key code down) h)
  /\ pressed_keys (play now (Key code down) h) = press code down (pressed_keys h)
  /\ modifiers (play now (Key code down) h)
     = (update code down (bool_decide (code ∈ pressed_keys h)) (modifiers h)).1.
Proof.
  intros (H1 & H2 & H3). cbn [play pressed_keys requested set_requests modifiers set_pressed_keys].
  pose proof (update_told code down (bool_decide (code ∈ pressed_keys h)) (modifiers h)) as Ht.
  destruct (update code down _ (modifiers h)) as [m [|]]; cbn [fst snd] in *; unfold agrees, requested; cbn;
    rewrite !keys_down_app, !buttons_down_app, !masks_snoc; cbn; rewrite H1, H2, ?H3; split_and!; try done.
  by destruct (Ht eq_refl) as [-> ->].
Qed.

Lemma all_up_agrees now h : agrees h -> agrees (all_keys_up now h)
  /\ pressed_keys (all_keys_up now h) = ∅ /\ pressed_buttons (all_keys_up now h) = ∅
  /\ (forall m, counter m (modifiers (all_keys_up now h)) = 0).
Proof.
  intros (H1 & H2 & H3). unfold all_keys_up, requested. cbn [modifiers set_requests set_pressed_keys].
  destruct (clear_depressed (modifiers h)) as [m had] eqn:E.
  assert (locked m = locked (modifiers h) /\ depressed m = 0 /\ (forall k, counter k m = 0)
          /\ (had = false -> depressed (modifiers h) = 0)) as (E1 & E2 & E3 & E4).
  { injection E as <- <-. split_and!; try done; [by intros []|]. intros Hd. by destruct (Z.eqb_spec (depressed (modifiers h)) 0). }
  destruct had; cbn [modifiers requested set_requests set_modifiers set_pressed_keys set_pressed_buttons
    requests pressed_keys pressed_buttons]; unfold agrees; cbn [modifiers requested set_requests set_modifiers
    set_pressed_keys set_pressed_buttons requests pressed_keys pressed_buttons];
    rewrite !keys_down_app, !buttons_down_app, !masks_snoc, releases_keys; cbn [foldl key_told button_told modifiers_told];
    destruct (other_requests (time_ms now h) (ascending (pressed_keys h))) as (O1 & _ & O3 & _);
    destruct (other_requests (time_ms now h) (ascending (pressed_buttons h))) as (_ & O2 & _ & O4);
    rewrite ?O1, ?O2, ?O3, ?O4, H1, H2, ?H3, releases_buttons, !minus_all, E2; split_and!; try done.
  by rewrite (E4 eq_refl), E1.
Qed.

Lemma play_agrees now event h : agrees h -> agrees (play now event h).
Proof.
  intros H. destruct event as [dx dy|b down|x y|code down|].
  - destruct H as (H1 & H2 & H3). unfold agrees. cbn. rewrite keys_down_app, buttons_down_app, masks_snoc. done.
  - destruct H as (H1 & H2 & H3). unfold agrees. cbn. rewrite keys_down_app, buttons_down_app, masks_snoc. cbn.
    by rewrite H2.
  - destruct H as (H1 & H2 & H3). unfold agrees. cbn. rewrite keys_down_app, buttons_down_app, masks_snoc.
    by destruct (f64_ne_zero x), (f64_ne_zero y).
  - by apply key_agrees.
  - by apply all_up_agrees.
Qed.

Lemma play_counts now event h : agrees h -> counts_held h -> counts_held (play now event h).
Proof.
  intros Ha Hc. destruct event as [dx dy|b down|x y|code down|]; [done..| |].
  - destruct (key_agrees now code down h Ha) as (_ & E1 & E2). intros m. rewrite E1, E2, update_counter, held_of_press.
    pose proof (Hc m). pose proof (held_of_key m code (pressed_keys h)) as Hk. unfold down_of in *.
    repeat (case_decide || case_bool_decide); try specialize (Hk ltac:(done)); destruct down; try done; lia.
  - destruct (all_up_agrees now h Ha) as (_ & E1 & _ & E2). intros m. cbn [play]. rewrite E1, E2, held_of_none. lia.
Qed.

(** What a peer has the backend play, from when it connected; the errors of the connection are
    logged, and an event that could not be played is lost. *)
Definition play_all (events : list (Instant * InputEvent)) (h : HyprlandVirtualInput) : HyprlandVirtualInput :=
  fold_left (fun h e => (inject e.1 None None e.2 h).1) events h.
Lemma play_all_invariant events : forall h, agrees h -> counts_held h ->
  agrees (play_all events h) /\ counts_held (play_all events h).
Proof.
  induction events as [|[now event] events IH]; intros h Ha Hc; cbn; [done|].
  apply IH; [by apply play_agrees|by apply play_counts].
Qed.
Lemma connected_agrees now : agrees (connected now) /\ counts_held (connected now).
Proof. split; [by split_and!|]. by intros []. Qed.
Lemma held_positive m keys : 0 < held_of m keys -> exists key, key ∈ keys_of m /\ key ∈ keys.
Proof.
  unfold held_of. induction (keys_of m) as [|key ks IH]; cbn; [lia|]. unfold down_of at 1.
  case_decide; [intros _; exists key; set_solver|]. intros Hp. destruct IH as (k & ? & ?); [lia|]. exists k. set_solver.
Qed.

(** C18. The compositor sees what was played: the keys and buttons that are down by the requests are
    the backend's own; a modifier is on only while one of its keys is down; and everything is up,
    with no modifier left on, when the peer releases everything. *)
Theorem compositor_sees_what_was_played (now0 now : Instant) (events : list (Instant * InputEvent)) :
  let h := play_all events (connected now0) in
  let released := play now AllKeysUp h in
  keys_down (requests h) = pressed_keys h /\ buttons_down (requests h) = pressed_buttons h
  /\ (forall m, Z.testbit (masks (requests h)).1 (bit_of m) = true ->
       exists key, key ∈ keys_of m /\ key ∈ keys_down (requests h))
  /\ keys_down (requests released) = ∅ /\ buttons_down (requests released) = ∅
  /\ (masks (requests released)).1 = 0.
Proof.
  intros h released. destruct (connected_agrees now0) as [Ha0 Hc0].
  destruct (play_all_invariant events _ Ha0 Hc0) as [(H1 & H2 & H3) Hc]. fold h in H1, H2, H3, Hc.
  destruct (all_up_agrees now h (conj H1 (conj H2 H3))) as ((R1 & R2 & R3) & E1 & E2 & E3).
  subst released. cbn [play].
  split_and!; [done|done| |by rewrite R1|by rewrite R2|].
  - intros m Hm. rewrite H3 in Hm. cbn in Hm. rewrite depressed_bit in Hm. rewrite H1. apply held_positive.
    specialize (Hc m). lia.
  - rewrite R3. cbn. change 0 with (depressed modifiers_default). apply depressed_counters. intros m.
    rewrite E3. by destruct m.
Qed.

(** Events in which a key that goes up is down. *)
Fixpoint paired (keys : gset Z) (events : list InputEvent) : bool :=
  match events with
  | [] => true
  | Key code down :: events =>
      (down || bool_decide (code ∈ keys)) && paired (press code down keys) events
  | AllKeysUp :: events => paired ∅ events
  | _ :: events => paired keys events
  end.

(** While every release is that of a key that is down, a modifier is on exactly when one of its
    keys is down. *)
Theorem modifiers_follow_their_keys (now0 : Instant) (events : list (Instant * InputEvent))
    (Hp : paired ∅ events.*2 = true) :
  let h := play_all events (connected now0) in
  forall m, Z.testbit (masks (requests h)).1 (bit_of m) = true
    <-> exists key, key ∈ keys_of m /\ key ∈ keys_down (requests h).
Proof.
  destruct (connected_agrees now0) as [Ha0 _].
  assert (forall events h, agrees h -> (forall m, counter m (modifiers h) = held_of m (pressed_keys h)) ->
    paired (pressed_keys h) events.*2 = true -> agrees (play_all events h)
    /\ forall m, counter m (modifiers (play_all events h)) = held_of m (pressed_keys (play_all events h))) as H.
  { clear. induction events as [|[now event] events IH]; intros h Ha Hc Hp; cbn; [done|].
    assert (agrees (play now event h)) as Ha' by (by apply play_agrees).
    destruct event as [dx dy|b down|x y|code down|]; cbn in Hp; [by apply IH..| |].
    - destruct (key_agrees now code down h Ha) as (_ & E1 & E2). apply andb_true_iff in Hp as [Hd Hp].
      apply IH; [done| |by rewrite E1]. intros m. rewrite E1, E2, update_counter, held_of_press.
      pose proof (Hc m). pose proof (held_of_range m (pressed_keys h)).
      pose proof (held_of_key m code (pressed_keys h)) as Hk. unfold down_of in *.
      destruct down; cbn in Hd; repeat (case_decide || case_bool_decide);
        try specialize (Hk ltac:(done)); try done; lia.
    - destruct (all_up_agrees now h Ha) as (_ & E1 & _ & E2).
      apply IH; [done| |cbn [play]; by rewrite E1]. intros m. cbn [play]. by rewrite E1, E2, held_of_none. }
  intros h m. destruct (H events (connected now0) Ha0) as [(H1 & H2 & H3) Hc]; [by intros []|done|].
  subst h. rewrite H3, H1. cbn [fst]. rewrite depressed_bit, (Hc m). split.
  - intros Hm. apply held_positive. lia.
  - intros (key & Hk & Hd). apply Z.ltb_lt. unfold held_of.
    destruct m; cbn [keys_of foldr] in *; rewrite !elem_of_cons, elem_of_nil in Hk;
      destruct Hk as [->|[->|[]]]; unfold down_of; repeat case_decide; done || lia.
Qed.

(** A defect: the release of a key that is not down lowers the count of its modifier.  With the
    left Control held, a release of the right one, which a peer sends when its user lets go of a
    key that was down before everything was released, turns Control off in the compositor. *)
Theorem stray_release_turns_a_modifier_off :
  let h := play_all [(0, Key 97 true); (0, AllKeysUp); (0, Key 29 true); (0, Key 97 false)] (connected 0) in
  keys_down (requests h) = {[29]} /\ masks (requests h) = (0, 0).
Proof. split; vm_compute; reflexivity. Qed.

Lemma modifiers_follow_their_keys_witness :
  let h := play_all [(0, Key 29 true); (0, Key 97 true); (0, Key 29 false)] (connected 0) in
  masks (requests h) = (4, 0)
  /\ (Z.testbit (masks (requests h)).1 (bit_of Control) = true
      <-> exists key, key ∈ keys_of Control /\ key ∈ keys_down (requests h)).
Proof.
  intros h. split; [vm_compute; reflexivity|].
  apply (modifiers_follow_their_keys 0 [(0, Key 29 true); (0, Key 97 true); (0, Key 29 false)]).
  vm_compute; reflexivity.
Defined.
