(* ===== verification/LibeiInput.v ===== *)
(** * libei: [LibeiSender] of [crates/edge-linux-input/src/lib.rs]

    Devices come and go as events of the connection; an event is played on the device that has the
    capability, which is started first.  The library's own calls are recorded. *)
From S2P Require Export LinuxInjection.
#[local] Open Scope string_scope.
#[local] Open Scope Z_scope.
#[local] Open Scope list_scope.

(** A device of the EIS connection, with its capabilities. *)
Record Device := {
  device_id : Z; can_point : bool; can_click : bool; can_scroll : bool; can_type : bool;
}.
Inductive ei_event :=
| Seat_added (seat : bool)
| Device_added (device : option Device)
| Device_resumed (device : option Z)
| Device_paused (device : option Z)
| Other_event.
Inductive ei_call :=
| Bind_and_request_capabilities
| Start_emulating (device sequence : Z)
| Pointer_motion (device : Z) (dx dy : float)
| Button_button (device code : Z) (down : bool)
| Scroll_delta (device : Z) (x y : float)
| Keyboard_key (device code : Z) (down : bool)
| Device_frame (device : Z).

(** [edge-linux-input 236-249 LibeiSender] *)
Record LibeiSender := {
  pointer : option Z;
  button : option Z;
  scroll : option Z;
  keyboard : option Z;
  started : gset Z;
  pressed_keys : gset Z;
  pressed_buttons : gset Z;
  sequence : Z;
  calls : list ei_call;
}.
Definition set_pointer : option Z -> LibeiSender -> LibeiSender := ltac:(field_setter pointer).
Definition set_button : option Z -> LibeiSender -> LibeiSender := ltac:(field_setter button).
Definition set_scroll : option Z -> LibeiSender -> LibeiSender := ltac:(field_setter scroll).
Definition set_keyboard : option Z -> LibeiSender -> LibeiSender := ltac:(field_setter keyboard).
Definition set_started : gset Z -> LibeiSender -> LibeiSender := ltac:(field_setter started).
Definition set_pressed_keys : gset Z -> LibeiSender -> LibeiSender := ltac:(field_setter pressed_keys).
Definition set_pressed_buttons : gset Z -> LibeiSender -> LibeiSender := ltac:(field_setter pressed_buttons).
Definition set_sequence : Z -> LibeiSender -> LibeiSender := ltac:(field_setter sequence).
Definition set_calls : list ei_call -> LibeiSender -> LibeiSender := ltac:(field_setter calls).
(** [edge-linux-input 264-297 connect_ei] (the state it begins with) *)
Definition connect_ei : LibeiSender :=
  {| pointer := None; button := None; scroll := None; keyboard := None; started := ∅;
     pressed_keys := ∅; pressed_buttons := ∅; sequence := 1; calls := [] |}.
Definition call (c : ei_call) (s : LibeiSender) : LibeiSender := set_calls (calls s ++ [c]) s.

(** [edge-linux-input 531-539 start] *)
Definition start (device : Z) (s : LibeiSender) : LibeiSender :=
  if decide (device ∈ started s) then s
  else call (Start_emulating device (sequence s))
         (set_sequence (Z.max 1 ((sequence s + 1) mod 2 ^ 32)) (set_started ({[device]} ∪ started s) s)).

(** [edge-linux-input 495-529 register_device] *)
Definition register_device (d : Device) (s : LibeiSender) : LibeiSender :=
  let slot (can : bool) (old : option Z) :=
    match old with Some _ => old | None => if can then Some (device_id d) else None end in
  set_keyboard (slot (can_type d) (keyboard s))
    (set_scroll (slot (can_scroll d) (scroll s))
       (set_button (slot (can_click d) (button s))
          (set_pointer (slot (can_point d) (pointer s)) s))).

(** [edge-linux-input 444-493 handle_event] *)
Definition handle_event (event : ei_event) (s : LibeiSender) : LibeiSender :=
  match event with
  | Seat_added true => call Bind_and_request_capabilities s
  | Device_added (Some d) => register_device d s
  | Device_resumed (Some d) => start d s
  | Device_paused (Some d) => set_started (started s ∖ {[d]}) s
  | Seat_added false | Device_added None | Device_resumed None | Device_paused None | Other_event => s
  end.
(** [edge-linux-input 427-442 dispatch_events] *)
Definition dispatch_events (events : list ei_event) (s : LibeiSender) : LibeiSender :=
  fold_left (fun s event => handle_event event s) events s.

(** What reading the connection brings: batches of events, until a look finds none, or fails. *)
Record Reading := { batches : list (list ei_event); look_fails : option string }.
Abbreviation sending := (stateful LibeiSender string).

(** [edge-linux-input 403-412 dispatch_available] *)
Definition dispatch_available (r : Reading) : sending unit := fun s =>
  (fold_left (fun s events => dispatch_events events s) (batches r) s,
   match look_fails r with None => Ok tt | Some error => Err error end).

(** The looks of half a second until the deadline: each fails, finds nothing, or finds events.
    [edge-linux-input 299-318 wait_for_devices] *)
Fixpoint wait_for_devices (looks : list (result (list ei_event) string)) (s : LibeiSender) :
  LibeiSender * result unit string :=
  match looks with
  | [] => (s, Err "failed to initialize libei backend: timed out waiting for libei devices")
  | Err error :: _ => (s, Err error)
  | Ok events :: looks =>
      let s := dispatch_events events s in
      if bool_decide (is_Some (pointer s)) || bool_decide (is_Some (button s))
         || bool_decide (is_Some (keyboard s))
      then (s, Ok tt)
      else wait_for_devices looks s
  end.

(** The slot is passed by value.  [edge-linux-input 541-551 device_for] *)
Definition device_for (device : option Z) (capability : string)
    (looks : list (result (list ei_event) string)) : sending Z :=
  match device with
  | Some d => st_ret d
  | None =>
      do! wait_for_devices looks;;
      match device with
      | Some d => st_ret d
      | None => st_fail ("libei backend has no device for " ++ capability)%string
      end
  end.

Definition calling (f : LibeiSender -> LibeiSender) : sending unit := fun s => (f s, Ok tt).

(** [edge-linux-input 375-401 all_keys_up] *)
Definition all_keys_up (s : LibeiSender) : LibeiSender :=
  let s := match keyboard s with
           | Some d =>
               let s := start d s in
               let keys := ascending (pressed_keys s) in
               call (Device_frame d)
                 (set_calls (calls s ++ map (fun key => Keyboard_key d key false) keys)
                    (set_pressed_keys ∅ s))
           | None => s
           end in
  match button s with
  | Some d =>
      let s := start d s in
      let buttons := ascending (pressed_buttons s) in
      call (Device_frame d)
        (set_calls (calls s ++ map (fun code => Button_button d code false) buttons)
           (set_pressed_buttons ∅ s))
  | None => s
  end.

(** [edge-linux-input 320-373 inject] *)
Definition inject (r : Reading) (looks : list (result (list ei_event) string)) (event : InputEvent) :
  sending unit :=
  do! dispatch_available r;;
  s <-! st_get;;
  match event with
  | PointerMotion dx dy =>
      d <-! device_for (pointer s) "pointer" looks;;
      calling (fun s => call (Device_frame d) (call (Pointer_motion d dx dy) (start d s)))
  | PointerButton b down =>
      let code := linux_button_code b in
      d <-! device_for (button s) "button" looks;;
      calling (fun s => let s := call (Device_frame d) (call (Button_button d code down) (start d s)) in
                        set_pressed_buttons (press code down (pressed_buttons s)) s)
  | PointerWheel x y =>
      d <-! device_for (scroll s) "scroll" looks;;
      calling (fun s => call (Device_frame d) (call (Scroll_delta d x y) (start d s)))
  | Key evdev_code down =>
      d <-! device_for (keyboard s) "keyboard" looks;;
      calling (fun s => let s := call (Device_frame d) (call (Keyboard_key d evdev_code down) (start d s)) in
                        set_pressed_keys (press evdev_code down (pressed_keys s)) s)
  | AllKeysUp => calling all_keys_up
  end.

(** ** What the desktop holds down *)

Definition key_told (keys : gset Z) (c : ei_call) : gset Z :=
  match c with Keyboard_key _ code down => press code down keys | _ => keys end.
Definition button_told (codes : gset Z) (c : ei_call) : gset Z :=
  match c with Button_button _ code down => press code down codes | _ => codes end.
Definition keys_down (cs : list ei_call) : gset Z := foldl key_told ∅ cs.
Definition buttons_down (cs : list ei_call) : gset Z := foldl button_told ∅ cs.

(** The desktop's view is the backend's own, no key is held without the device that releases it,
    and a sequence number is one of 32 bits other than zero. *)
Definition agrees (s : LibeiSender) : Prop :=
  keys_down (calls s) = pressed_keys s /\ buttons_down (calls s) = pressed_buttons s
  /\ (keyboard s = None -> pressed_keys s = ∅) /\ (button s = None -> pressed_buttons s = ∅)
  /\ 1 <= sequence s < 2 ^ 32.

(** A call that is no key and no button changes nothing of the view. *)
Definition silent (c : ei_call) : bool :=
  match c with Keyboard_key _ _ _ | Button_button _ _ _ => false | _ => true end.
Lemma call_agrees c s : silent c = true -> agrees s -> agrees (call c s).
Proof.
  intros Hc (H1 & H2 & H). unfold agrees, keys_down, buttons_down in *. cbn.
  rewrite !foldl_app. cbn. rewrite H1, H2. by destruct c.
Qed.
Lemma start_agrees d s : agrees s -> agrees (start d s)
  /\ keyboard (start d s) = keyboard s /\ button (start d s) = button s
  /\ pressed_keys (start d s) = pressed_keys s /\ pressed_buttons (start d s) = pressed_buttons s.
Proof.
  intros H. unfold start. destruct (decide _); [done|]. split; [|done]. apply call_agrees; [done|].
  destruct H as (H1 & H2 & H3 & H4 & H5). repeat split; try done; cbn [sequence set_sequence set_started]; [lia|].
  pose proof (Z.mod_pos_bound (sequence s + 1) (2 ^ 32)). lia.
Qed.
Lemma event_agrees e s : agrees s -> agrees (handle_event e s).
Proof.
  intros H. destruct e as [[]|[d|]|[d|]|[d|]|]; cbn [handle_event]; try done.
  - by apply call_agrees.
  - destruct H as (H1 & H2 & H3 & H4 & H5). unfold agrees, register_device. cbn.
    destruct (keyboard s), (button s); split_and!; first [done|lia|intros; by (apply H3 || apply H4)].
  - by apply start_agrees.
Qed.
Lemma events_agree es : forall s, agrees s -> agrees (dispatch_events es s).
Proof. induction es as [|e es IH]; intros s H; [done|]. by apply IH, event_agrees. Qed.
Lemma wait_agrees looks : forall s, agrees s -> agrees (wait_for_devices looks s).1.
Proof.
  induction looks as [|[es|error] looks IH]; intros s H; cbn [wait_for_devices]; [done| |done]. cbv zeta.
  destruct (_ || _); [by apply events_agree|by apply IH, events_agree].
Qed.
Lemma device_agrees slot capability looks s : agrees s -> agrees (device_for slot capability looks s).1.
Proof.
  intros H. unfold device_for. destruct slot; [done|]. apply (wait_agrees looks) in H. unfold st_bind.
  by destruct (wait_for_devices looks s) as [s' [[]|e]].
Qed.
Lemma available_agrees r s : agrees s -> agrees (dispatch_available r s).1.
Proof.
  unfold dispatch_available. cbn [fst]. revert s. induction (batches r) as [|es bs IH]; intros s H; [done|].
  by apply IH, events_agree.
Qed.
(** A device is found only in the slot that was handed over. *)
Lemma device_for_slot slot capability looks s :
  match (device_for slot capability looks s).2 with
  | Ok d => slot = Some d /\ (device_for slot capability looks s).1 = s
  | Err _ => slot = None
  end.
Proof.
  unfold device_for, st_bind. destruct slot; [done|]. by destruct (wait_for_devices looks s) as [s' [[]|e]].
Qed.

(** The part of an event that plays it on a device. *)
Lemma play_on slot capability looks s (f : Z -> LibeiSender -> LibeiSender) : agrees s ->
  (forall d, slot = Some d -> agrees (f d s)) ->
  agrees ((d <-! device_for slot capability looks;; calling (f d)) s).1.
Proof.
  intros H Hf. pose proof (device_for_slot slot capability looks s) as Hd.
  pose proof (device_agrees slot capability looks s H) as Ha. unfold st_bind.
  destruct (device_for slot capability looks s) as [s' [d|e]]; cbn [fst snd] in *; [|done].
  destruct Hd as [-> ->]. by apply Hf.
Qed.

Lemma ei_releases_keys d keys held : foldl key_told held (map (fun key => Keyboard_key d key false) keys)
  = held ∖ list_to_set keys.
Proof. revert held. induction keys as [|k keys IH]; intros held; cbn; [set_solver|]. rewrite IH. set_solver. Qed.
Lemma ei_releases_buttons d codes held : foldl button_told held (map (fun code => Button_button d code false) codes)
  = held ∖ list_to_set codes.
Proof. revert held. induction codes as [|k codes IH]; intros held; cbn; [set_solver|]. rewrite IH. set_solver. Qed.
Lemma keys_leave_buttons d keys held : foldl button_told held (map (fun key => Keyboard_key d key false) keys) = held.
Proof. revert held. by induction keys. Qed.
Lemma buttons_leave_keys d codes held : foldl key_told held (map (fun code => Button_button d code false) codes) = held.
Proof. revert held. by induction codes. Qed.

(** The two halves of a release. *)
Lemma keyboard_released d s : agrees s -> let s := start d s in
  let s' := call (Device_frame d)
    (set_calls (calls s ++ map (fun key => Keyboard_key d key false) (ascending (pressed_keys s)))
       (set_pressed_keys ∅ s)) in
  agrees s' /\ pressed_keys s' = ∅ /\ button s' = button s /\ pressed_buttons s' = pressed_buttons s.
Proof.
  intros H. destruct (start_agrees d s H) as [(H1 & H2 & H3 & H4 & H5) _]. cbv zeta.
  split; [|done]. apply call_agrees; [done|]. unfold agrees, keys_down, buttons_down in *. cbn.
  rewrite !foldl_app, ei_releases_keys, keys_leave_buttons, H1, minus_all. split_and!; done || lia.
Qed.
Lemma buttons_released d s : agrees s -> let s := start d s in
  let s' := call (Device_frame d)
    (set_calls (calls s ++ map (fun code => Button_button d code false) (ascending (pressed_buttons s)))
       (set_pressed_buttons ∅ s)) in
  agrees s' /\ pressed_buttons s' = ∅ /\ pressed_keys s' = pressed_keys s.
Proof.
  intros H. destruct (start_agrees d s H) as [(H1 & H2 & H3 & H4 & H5) _]. cbv zeta.
  split; [|done]. apply call_agrees; [done|]. unfold agrees, keys_down, buttons_down in *. cbn.
  rewrite !foldl_app, ei_releases_buttons, buttons_leave_keys, H2, minus_all. split_and!; done || lia.
Qed.
Lemma ei_release_agrees s : agrees s ->
  agrees (all_keys_up s) /\ pressed_keys (all_keys_up s) = ∅ /\ pressed_buttons (all_keys_up s) = ∅.
Proof.
  intros H. unfold all_keys_up.
  assert (forall s', agrees s' -> pressed_keys s' = ∅ ->
    let r := match button s' with
             | Some d => call (Device_frame d) (set_calls (calls (start d s') ++ map (fun code => Button_button d code false)
                           (ascending (pressed_buttons (start d s')))) (set_pressed_buttons ∅ (start d s')))
             | None => s'
             end in
    agrees r /\ pressed_keys r = ∅ /\ pressed_buttons r = ∅) as Hb.
  { clear s H. intros s H Hk. destruct (button s) as [d|] eqn:E; cbv zeta.
    - destruct (buttons_released d s H) as (B1 & B2 & B3). destruct (start_agrees d s H) as (_ & _ & _ & S3 & _).
      split; [exact B1|]. split; [|exact B2]. etrans; [exact B3|]. by rewrite S3.
    - destruct H as (H1 & H2 & H3 & H4 & H5). split_and!; try done; try lia. by apply H4. }
  destruct (keyboard s) as [d|] eqn:E; cbv zeta.
  - destruct (keyboard_released d s H) as (K1 & K2 & _). by apply Hb.
  - apply Hb; [done|]. destruct H as (H1 & H2 & H3 & _). by apply H3.
Qed.

Lemma ei_inject_agrees r looks event s : agrees s -> agrees (inject r looks event s).1.
Proof.
  intros H. apply (available_agrees r) in H. unfold inject. unfold st_bind at 1.
  destruct (dispatch_available r s) as [s1 [[]|e]]; cbn [fst] in H; [|done].
  unfold st_bind at 1, st_get. cbv beta iota.
  assert (forall d c s0, silent c = true -> agrees s0 -> agrees (call (Device_frame d) (call c (start d s0)))) as Hs
    by (intros d c s0 Hc H0; apply call_agrees, call_agrees; [done..|by apply start_agrees]).
  destruct event as [dx dy|b down|x y|code down|]; [apply play_on; [done|]..|].
  - intros d _. by apply Hs.
  - intros d Hd. cbv zeta. destruct (start_agrees d s1 H) as [(H1 & H2 & H3 & H4 & H5) (_ & E & _)].
    unfold agrees, keys_down, buttons_down in *. cbn. rewrite !foldl_app. cbn. rewrite H1, H2.
    split_and!; try done; try lia. rewrite E, Hd. done.
  - intros d _. by apply Hs.
  - intros d Hd. cbv zeta. destruct (start_agrees d s1 H) as [(H1 & H2 & H3 & H4 & H5) (E & _ & _)].
    unfold agrees, keys_down, buttons_down in *. cbn. rewrite !foldl_app. cbn. rewrite H1, H2.
    split_and!; try done; try lia. rewrite E, Hd. done.
  - by apply ei_release_agrees.
Qed.

(** What is played from when the sender connected, each event with what the connection brings;
    the errors are logged. *)
Definition play_all (events : list (Reading * list (result (list ei_event) string) * InputEvent))
    (s : LibeiSender) : LibeiSender :=
  fold_left (fun s e => (inject e.1.1 e.1.2 e.2 s).1) events s.

(** Devices may come, pause and resume between any two events, and reading the connection may
    fail: the desktop holds down what the sender remembers, and when everything is released nothing
    stays down.  No emulation is started with the sequence number zero, although it wraps. *)
Theorem released_desktop_holds_nothing
    (events : list (Reading * list (result (list ei_event) string) * InputEvent)) :
  let s := play_all events connect_ei in
  keys_down (calls s) = pressed_keys s /\ buttons_down (calls s) = pressed_buttons s
  /\ keys_down (calls (all_keys_up s)) = ∅ /\ buttons_down (calls (all_keys_up s)) = ∅
  /\ 1 <= sequence s < 2 ^ 32.
Proof.
  intros s. assert (agrees s) as H.
  { subst s. assert (agrees connect_ei) as H0 by by split_and!. revert H0. generalize connect_ei.
    induction events as [|e events IH]; intros s H0; [done|]. by apply IH, ei_inject_agrees. }
  destruct (ei_release_agrees s H) as ((A1 & A2 & _) & E1 & E2).
  destruct H as (H1 & H2 & _ & _ & H5). by rewrite A1, A2.
Qed.

(** A defect: the slot of a device is read before the wait for devices and not after.  An event
    whose device was missing fails even when the wait brings the device. *)
Theorem late_device_is_still_missing (capability : string) (looks : list (result (list ei_event) string))
    (s : LibeiSender) :
  (exists error, (device_for None capability looks s).2 = Err error)
  /\ let keyboard_comes := [Ok [Device_added (Some {| device_id := 7; can_point := true; can_click := true;
                                                      can_scroll := true; can_type := true |})]] in
     let r := inject {| batches := []; look_fails := None |} keyboard_comes (Key 30 true) connect_ei in
     r.2 = Err "libei backend has no device for keyboard" /\ keyboard r.1 = Some 7.
Proof.
  split; [|by split]. pose proof (device_for_slot None capability looks s) as H.
  destruct (device_for None capability looks s).2 as [d|e]; [by destruct H|by exists e].
Qed.
