(* ===== verification/Pcm.v ===== *)
(** * Samples: [PcmCodec] and [PcmConcealer] of [crates/edge-audio/src/lib.rs]

    A frame is five milliseconds of two channels, as floats in the computer and as 16-bit integers
    on the network; a frame that is lost is replaced by the fade of the last sample. *)
From Stdlib Require Import SpecFloat.
From S2P Require Import Audio.
From S2P Require Export Float.

(** [edge-audio 8-8 CHANNELS] *)
Definition CHANNELS : nat := 2.
(** [edge-audio 10-10 SAMPLES_PER_CHANNEL] *)
Definition SAMPLES_PER_CHANNEL : nat := 240.
(** [edge-audio 11-11 SAMPLES_PER_FRAME] *)
Definition SAMPLES_PER_FRAME : nat := 480.
(** [edge-audio 13-13 PCM_BYTES_PER_FRAME] *)
Definition PCM_BYTES_PER_FRAME : nat := 960.

(** ** The operations of [f32] and [i16] *)

Definition f32_of (z : Z) : float := binary_normalize 24 128 z 0 false.
Definition f32_add : float -> float -> float := SFadd 24 128.
Definition f32_sub : float -> float -> float := SFsub 24 128.
Definition f32_mul : float -> float -> float := SFmul 24 128.
Definition f32_div : float -> float -> float := SFdiv 24 128.
(** [f32::clamp] *)
Definition f32_clamp (lo hi x : float) : float :=
  let x := if f64_lt x lo then lo else x in if f64_lt hi x then hi else x.
(** [f32::round] *)
Definition f32_round (x : float) : float :=
  match x with
  | S754_finite s m e =>
      if 0 <=? e then x
      else match magnitude_round m e with
           | Z0 => S754_zero s
           | n => f32_of (if s then - n else n)
           end
  | _ => x
  end.
(** [x as i16] *)
Definition as_i16 (x : float) : Z := Z.max (- 2 ^ 15) (Z.min (2 ^ 15 - 1) (f64_as_i32 x)).

(** The two bytes of an [i16], the lower one first. *)
Definition i16_to_le (z : Z) : bytes := [z mod 256; (z / 256) mod 256].
Definition i16_from_le (low high : Z) : Z := let n := low + 256 * high in if n <? 2 ^ 15 then n else n - 2 ^ 16.
(** The float of 32 bits. *)
Definition f32_from_bits (n : Z) : float :=
  let s := Z.testbit n 31 in
  let e := Z.land (Z.shiftr n 23) 255 in
  let m := Z.land n (2 ^ 23 - 1) in
  if e =? 255 then (if m =? 0 then S754_infinity s else S754_nan)
  else match (if e =? 0 then m else m + 2 ^ 23) with
       | Zpos m => S754_finite s m (Z.max 1 e - 150)
       | _ => S754_zero s
       end.

(** ** The codec *)

(** [edge-audio 177-177 encode] *)
Definition encode_sample (sample : float) : Z :=
  as_i16 (f32_round (f32_mul (f32_clamp (f32_of (-1)) (f32_of 1) sample) (f32_of 32767))).
(** [edge-audio 207-207 decode] *)
Definition decode_sample (value : Z) : float := f32_div (f32_of value) (f32_of 32767).

(** [edge-audio 171-181 encode] *)
Definition pcm_encode (pcm : list float) : result bytes AudioError :=
  if negb (length pcm =? SAMPLES_PER_FRAME)%nat then Err InvalidPacket
  else Ok (flat_map (fun sample => i16_to_le (encode_sample sample)) pcm).

(** The whole chunks of four, and of two. *)
Fixpoint chunks4 (l : bytes) : list float :=
  match l with
  | a :: b :: c :: d :: l => f32_from_bits (a + 2 ^ 8 * b + 2 ^ 16 * c + 2 ^ 24 * d) :: chunks4 l
  | _ => []
  end.
Fixpoint chunks2 (l : bytes) : list Z :=
  match l with low :: high :: l => i16_from_le low high :: chunks2 l | _ => [] end.

(** [edge-audio 183-195 encode_f32le_into] *)
Definition encode_f32le_into (input : bytes) : result bytes AudioError :=
  if negb (length input =? SAMPLES_PER_FRAME * 4)%nat then Err InvalidPacket
  else Ok (flat_map (fun sample => i16_to_le (encode_sample sample)) (chunks4 input)).

(** [edge-audio 197-210 decode] *)
Definition pcm_decode (packet : option bytes) : result (list float) AudioError :=
  match packet with
  | None => Ok (replicate SAMPLES_PER_FRAME (S754_zero false))
  | Some packet =>
      if negb (length packet =? PCM_BYTES_PER_FRAME)%nat then Err InvalidPacket
      else Ok (map decode_sample (chunks2 packet))
  end.

(** ** Concealment *)

(** [edge-audio 215-219 PcmConcealer] *)
Record PcmConcealer := { last_sample : float * float; recovering : bool }.
Definition PcmConcealer_default : PcmConcealer :=
  {| last_sample := (S754_zero false, S754_zero false); recovering := false |}.

(** The gain of a frame that fades out. *)
Definition fade_out (frame : nat) : float :=
  f32_sub (f32_of 1) (f32_div (f32_of (Z.of_nat frame + 1)) (f32_of (Z.of_nat SAMPLES_PER_CHANNEL))).
(** The first 48 frames after a loss, faded in. *)
Fixpoint fade_in (frame : nat) (pcm : list float) : list float :=
  match pcm with
  | l :: r :: pcm =>
      if (frame <? 48)%nat then
        let gain := f32_div (f32_of (Z.of_nat frame + 1)) (f32_of 48) in
        f32_mul l gain :: f32_mul r gain :: fade_in (S frame) pcm
      else l :: r :: pcm
  | _ => pcm
  end.
(** The last two samples. *)
Definition last_pair (pcm : list float) : float * float :=
  (nth (length pcm - 2) pcm (S754_zero false), nth (length pcm - 1) pcm (S754_zero false)).

(** [edge-audio 222-247 decode] *)
Definition concealer_decode (packet : option bytes) (self : PcmConcealer) :
  PcmConcealer * result (list float) AudioError :=
  match packet with
  | None =>
      ({| last_sample := (S754_zero false, S754_zero false); recovering := true |},
       Ok (flat_map (fun frame => [f32_mul (last_sample self).1 (fade_out frame);
                                   f32_mul (last_sample self).2 (fade_out frame)])
             (seq 0 SAMPLES_PER_CHANNEL)))
  | Some packet =>
      match pcm_decode (Some packet) with
      | Err error => (self, Err error)
      | Ok pcm =>
          let pcm := if recovering self then fade_in 0 pcm else pcm in
          ({| last_sample := last_pair pcm; recovering := false |}, Ok pcm)
      end
  end.

(** ** What is lost on the way *)

Lemma binary_round_aux_opp prec emax m e l :
  binary_round_aux prec emax true m e l = SFopp (binary_round_aux prec emax false m e l).
Proof.
  unfold binary_round_aux. destruct (shr_fexp prec emax m e l) as [mrs e'].
  destruct (shr_fexp prec emax _ e' loc_Exact) as [mrs' e'']. destruct (shr_m mrs'); [done| |done].
  by destruct (_ <=? _).
Qed.
Lemma binary_round_opp prec emax m e :
  binary_round prec emax true m e = SFopp (binary_round prec emax false m e).
Proof. unfold binary_round. destruct (shl_align _ _ _). apply binary_round_aux_opp. Qed.
Lemma f32_of_opp p : f32_of (Zneg p) = SFopp (f32_of (Zpos p)).
Proof. apply binary_round_opp. Qed.
Lemma f32_div_opp x y : f32_div (SFopp x) y = SFopp (f32_div x y).
Proof.
  unfold f32_div, SFdiv. destruct x as [[]|[]| |[] m e], y as [[]|[]| |[] m' e']; try done; cbn [SFopp xorb negb];
    destruct (SFdiv_core_binary _ _ _ _ _ _) as [[mz ez] lz]; rewrite ?binary_round_aux_opp; try done;
    by destruct (binary_round_aux _ _ _ _ _ _) as [[]|[]| |[]].
Qed.
Lemma f32_mul_opp x y : f32_mul (SFopp x) y = SFopp (f32_mul x y).
Proof.
  unfold f32_mul, SFmul. destruct x as [[]|[]| |[] m e], y as [[]|[]| |[] m' e']; try done; cbn [SFopp xorb negb];
    rewrite ?binary_round_aux_opp; try done; by destruct (binary_round_aux _ _ _ _ _ _) as [[]|[]| |[]].
Qed.
Lemma f32_round_opp x : f32_round (SFopp x) = SFopp (f32_round x).
Proof.
  destruct x as [| | |s m e]; try done. cbn [f32_round SFopp]. destruct (0 <=? e); [done|].
  assert (0 <= magnitude_round m e) as H.
  { unfold magnitude_round. destruct (0 <=? e); [by apply Z.shiftl_nonneg|].
    apply Z.shiftr_nonneg. pose proof (Z.pow_nonneg 2 (- e - 1)). lia. }
  destruct (magnitude_round m e) as [|n|n]; [done| |lia].
  change (- Z.pos n) with (Z.neg n).
  destruct s; cbn [negb]; rewrite f32_of_opp; by destruct (f32_of (Zpos n)) as [[]|[]| |[]].
Qed.

(** The value of a sample before it is brought into the range of 16 bits. *)
Definition whole (x : float) : Z :=
  f64_as_i32 (f32_round (f32_mul (f32_clamp (f32_of (-1)) (f32_of 1) x) (f32_of 32767))).
Fixpoint all_survive (n : nat) (i : Z) : bool :=
  match n with O => true | S n => (whole (decode_sample i) =? i) && all_survive n (i + 1) end.
Lemma all_survive_spec n : forall i, all_survive n i = true ->
  forall j, i <= j < i + Z.of_nat n -> whole (decode_sample j) = j.
Proof.
  induction n as [|n IH]; intros i H j Hj; [lia|]. cbn [all_survive] in H.
  apply andb_true_iff in H as [H1 H2]. destruct (decide (j = i)) as [->|]; [by apply Z.eqb_eq|].
  apply (IH (i + 1) H2). lia.
Qed.
Lemma positive_survive i : 0 <= i < 32768 -> whole (decode_sample i) = i.
Proof.
  intros Hi. apply (all_survive_spec (Z.to_nat 32768) 0); [vm_compute; reflexivity|lia].
Qed.
(** The sample of a negative float is the negative of the sample. *)
Lemma decode_opp p : decode_sample (Zneg p) = SFopp (decode_sample (Zpos p)).
Proof. unfold decode_sample. by rewrite f32_of_opp, f32_div_opp. Qed.
Lemma SFcompare_opp x y : SFcompare (SFopp x) (SFopp y) = SFcompare y x.
Proof.
  rewrite (SFcompare_antisym x y).
  destruct x as [[]|[]| |[] m e], y as [[]|[]| |[] m' e']; try done; cbn [SFopp negb SFcompare option_map];
    destruct (e ?= e'); try done; by rewrite ?CompOpp_involutive.
Qed.
Lemma clamp_opp x : f32_clamp (f32_of (-1)) (f32_of 1) (SFopp x) = SFopp (f32_clamp (f32_of (-1)) (f32_of 1) x).
Proof.
  change (f32_of (-1)) with (SFopp (f32_of 1)). unfold f32_clamp.
  assert (f64_lt (SFopp x) (SFopp (f32_of 1)) = f64_lt (f32_of 1) x) as ->
    by (unfold f64_lt, SFltb; by rewrite SFcompare_opp).
  assert (f64_lt (f32_of 1) (SFopp x) = f64_lt x (SFopp (f32_of 1))) as E.
  { unfold f64_lt, SFltb. rewrite <- (SFcompare_opp (SFopp (f32_of 1)) x).
    by change (SFopp (SFopp (f32_of 1))) with (f32_of 1). }
  destruct (f64_lt (f32_of 1) x) eqn:E1, (f64_lt x (SFopp (f32_of 1))) eqn:E2; rewrite ?E, ?E1; try done.
  by destruct x as [[]|[]| |[] m e].
Qed.
Lemma whole_opp x : -32768 < whole x < 32768 -> whole (SFopp x) = - whole x.
Proof.
  intros H. unfold whole in *. rewrite clamp_opp, f32_mul_opp, f32_round_opp.
  set (y := f32_round _) in *. destruct y as [s|s| |s m e]; cbn [SFopp f64_as_i32] in *; try done;
    unfold i32_min, i32_max in *; destruct s; cbn [negb] in *; cbv iota in *; lia.
Qed.
(** A sample that is played and recorded again is the same, the lowest one apart, which a float of
    the frame cannot be. *)
Lemma sample_survives i : -32768 <= i < 32768 -> encode_sample (decode_sample i) = Z.max (-32767) i.
Proof.
  intros Hi. change (encode_sample (decode_sample i))
    with (Z.max (- 2 ^ 15) (Z.min (2 ^ 15 - 1) (whole (decode_sample i)))).
  destruct i as [|p|p]; [rewrite positive_survive; lia|rewrite positive_survive; lia|].
  destruct (decide (p = 32768%positive)) as [->|]; [vm_compute; reflexivity|].
  rewrite decode_opp, whole_opp; rewrite positive_survive; lia.
Qed.

(** *** The bytes of a frame *)

Lemma chunks2_ind (P : bytes -> Prop) : P [] -> (forall a, P [a]) ->
  (forall a b l, P l -> P (a :: b :: l)) -> forall l, P l.
Proof.
  intros H0 H1 H2 l. assert (P l /\ forall a, P (a :: l)) as [H _]; [|done].
  induction l as [|a l [IH1 IH2]]; [done|]. split; [done|]. intros b. by apply H2.
Qed.
Lemma chunks2_length l : length (chunks2 l) = Nat.div2 (length l).
Proof. induction l as [| |a b l IH] using chunks2_ind; cbn; congruence. Qed.
Lemma i16_from_le_range a b : 0 <= a < 256 -> 0 <= b < 256 -> -32768 <= i16_from_le a b < 32768.
Proof. intros. unfold i16_from_le. cbv zeta. destruct (Z.ltb_spec (a + 256 * b) (2 ^ 15)); lia. Qed.
Lemma i16_to_from a b : 0 <= a < 256 -> 0 <= b < 256 -> i16_to_le (i16_from_le a b) = [a; b].
Proof.
  intros. unfold i16_to_le, i16_from_le. cbv zeta.
  destruct (Z.ltb_spec (a + 256 * b) (2 ^ 15)); f_equal; [|f_equal| |f_equal];
    Z.to_euclidean_division_equations; lia.
Qed.

(** What a frame becomes when it is played and recorded again: its lowest samples are raised by one. *)
Definition without_lowest (packet : bytes) : bytes :=
  flat_map (fun z => i16_to_le (Z.max (-32767) z)) (chunks2 packet).

(** Nothing is lost in the conversion: a frame from the network that is decoded and encoded again is
    the same bytes, but for the one value of 16 bits below the range of a float of the frame, which
    is raised by one; a frame of another size is refused, by both directions. *)
Theorem frames_survive_conversion (packet : bytes) (Hb : is_bytes packet) :
  match pcm_decode (Some packet) with
  | Ok pcm => length packet = 960%nat /\ length pcm = 480%nat /\ pcm_encode pcm = Ok (without_lowest packet)
              /\ (-32768 ∉ chunks2 packet -> without_lowest packet = packet)
  | Err error => length packet <> 960%nat /\ error = InvalidPacket
  end.
Proof.
  unfold pcm_decode, PCM_BYTES_PER_FRAME. destruct (Nat.eqb_spec (length packet) 960) as [Hl|]; cbn [negb]; [|done].
  assert (length (map decode_sample (chunks2 packet)) = 480%nat) as Hp
    by (rewrite length_map, chunks2_length, Hl; done).
  split_and!; [done|done| |].
  - unfold pcm_encode. rewrite Hp. cbn [Nat.eqb negb SAMPLES_PER_FRAME]. f_equal. unfold without_lowest. clear Hl Hp.
    induction packet as [| |a b l IH] using chunks2_ind; [done..|]. cbn [chunks2 map flat_map].
    apply Forall_cons in Hb as [Ha [Hb Hl]%Forall_cons]. rewrite IH by done. f_equal. f_equal.
    apply (sample_survives (i16_from_le a b)). apply i16_from_le_range; unfold in_range, u8_max in *; lia.
  - intros Hn. assert (Nat.even (length packet) = true) as He by (by rewrite Hl). clear Hl Hp. unfold without_lowest.
    induction packet as [|a|a b l IH] using chunks2_ind; [done..|]. cbn [chunks2 flat_map] in *.
    apply Forall_cons in Hb as [Ha [Hb Hl]%Forall_cons]. apply not_elem_of_cons in Hn as [Hn1 Hn2].
    rewrite IH by done. pose proof (i16_from_le_range a b ltac:(unfold in_range, u8_max in *; lia) ltac:(unfold in_range, u8_max in *; lia)).
    rewrite Z.max_r by lia. rewrite i16_to_from by (unfold in_range, u8_max in *; lia); done.
Qed.

(** ** Concealment *)

Lemma fade_in_length pcm : forall frame, length (fade_in frame pcm) = length pcm.
Proof.
  assert (forall pcm, (forall frame, length (fade_in frame pcm) = length pcm)
          /\ forall x frame, length (fade_in frame (x :: pcm)) = S (length pcm)) as H; [|apply H].
  clear pcm. induction pcm as [|r pcm [IH1 IH2]]; [done|]. split; [done|]. intros l frame. cbn [fade_in].
  destruct (frame <? 48)%nat; cbn; [|done]. by rewrite IH1.
Qed.

(** The sound never stops short and a gap is not repeated: for every datagram that is in time or
    lost the concealment gives a whole frame, unless the payload has another size, which changes
    nothing; and when two frames in a row are lost the second is silence. *)
Theorem gaps_become_silence (self : PcmConcealer) (packet : option bytes) :
  match concealer_decode packet self with
  | (self', Ok pcm) => length pcm = 480%nat /\ recovering self' = bool_decide (packet = None)
      /\ (packet = None -> (concealer_decode None self').2 = Ok (replicate 480 (S754_zero false)))
  | (self', Err _) => self' = self /\ exists p, packet = Some p /\ length p <> 960%nat
  end.
Proof.
  destruct packet as [p|]; cbn [concealer_decode].
  - unfold pcm_decode, PCM_BYTES_PER_FRAME. destruct (Nat.eqb_spec (length p) 960) as [Hl|]; cbn [negb].
    + split_and!; [|done|done]. assert (length (map decode_sample (chunks2 p)) = 480%nat) as Hp
        by (rewrite length_map, chunks2_length, Hl; done).
      destruct (recovering self); [by rewrite fade_in_length|done].
    + split; [done|]. by exists p.
  - split_and!; [by rewrite length_flat_map|done|]. intros _. vm_compute. reflexivity.
Qed.

Lemma frames_survive_conversion_witness :
  is_bytes (replicate 960 255) /\ exists pcm, pcm_decode (Some (replicate 960 255)) = Ok pcm
  /\ pcm_encode pcm = Ok (without_lowest (replicate 960 255)).
Proof.
  assert (is_bytes (replicate 960 255)) as H by (apply Forall_replicate; unfold in_range, u8_max; lia). split; [done|].
  pose proof (frames_survive_conversion (replicate 960 255) H) as P. eexists. split; [reflexivity|]. apply P.
Defined.
