(* ===== verification/FloatAbove.v ===== *)
(** * Rounding from below: a rounded result is not below a number the exact one is not below

    The counterpart of the bounds of [Float], for the loops whose progress rests on it. *)
From Stdlib Require Import SpecFloat.
From S2P Require Export Float.

Section Above.
Variables prec emax : Z.

(** A positive number that is at least the bound, in the shape an operation leaves it. *)
Definition at_least (bm be : Z) (x : float) : Prop :=
  match x with
  | S754_infinity s => s = false
  | S754_finite s m e => s = false /\ be <= e /\ bm <= Zpos m * 2 ^ (e - be)
  | _ => False
  end.

Lemma fexp_reflects a b : fexp prec emax a < fexp prec emax b -> a < b.
Proof. unfold fexp. lia. Qed.
Lemma value_le_log a e b e' : 0 < a -> 0 < b -> value_le a e b e' -> Z.log2 a + e <= Z.log2 b + e'.
Proof.
  intros Ha Hb (z & H1 & H2 & H). apply Z.log2_le_mono in H. rewrite !Z.log2_mul_pow2 in H by lia. lia.
Qed.

(** Shifting to the format's exponent keeps a magnitude above a number of the format. *)
Lemma shr_fexp_above m e l bm be :
  1 <= prec -> canonical prec emax bm be -> 0 < m -> value_le bm be m e ->
  let '(mrs, e') := shr_fexp prec emax m e l in
  0 < shr_m mrs /\ be <= e' /\ bm <= shr_m mrs * 2 ^ (e' - be).
Proof.
  intros Hprec (Hbm & Hbe & _) Hm Hv. unfold shr_fexp.
  assert (shr_m (shr_record_of_loc m l) = m) as Em by (by destruct l as [|[]]).
  pose proof (value_le_log _ _ _ _ Hbm Hm Hv) as Hlog. rewrite Zdigits2_log2 by lia.
  assert (be <= fexp prec emax (Z.log2 m + 1 + e)) as Hfe by (rewrite Hbe; apply fexp_mono; lia).
  assert (be <= e -> bm <= m * 2 ^ (e - be)) as Hsame.
  { intros He. pose proof (value_le_at _ _ _ _ be Hv ltac:(lia) He) as H. rewrite Z.sub_diag in H. lia. }
  destruct (fexp prec emax (Z.log2 m + 1 + e) - e) as [|d|d] eqn:Hd; cbn [shr];
    try (rewrite Em; split_and!; [lia..|apply Hsame; lia]).
  destruct (iter_shr_1_spec d (shr_record_of_loc m l)) as [Hq _]; [by rewrite Em; lia|].
  rewrite Em in Hq. rewrite Hq. assert (0 < 2 ^ Zpos d) as Hp by lia.
  assert (0 < m / 2 ^ Zpos d /\ bm <= m / 2 ^ Zpos d * 2 ^ (e + Zpos d - be)) as [H1 H2]; [|split_and!; lia].
  pose proof (Z.log2_spec m Hm) as [Hm1 Hm2]. pose proof (Z.log2_spec bm Hbm) as [_ Hb2].
  destruct (decide (e + Zpos d = be)) as [Ed|Hne].
  - replace (e + Zpos d - be) with 0 by lia.
    pose proof (value_le_at _ _ _ _ e Hv ltac:(lia) ltac:(lia)) as H. rewrite Z.sub_diag in H.
    replace (be - e) with (Zpos d) in H by lia.
    assert (bm <= m / 2 ^ Zpos d) by (apply Z.div_le_lower_bound; lia). lia.
  - assert (Zpos d <= Z.log2 m) as Hdm by (unfold fexp in *; lia).
    assert (2 ^ (Z.log2 m - Zpos d) <= m / 2 ^ Zpos d) as Hlow.
    { apply Z.div_le_lower_bound; [lia|]. rewrite <- Z.pow_add_r by lia.
      replace (Zpos d + (Z.log2 m - Zpos d)) with (Z.log2 m) by lia. lia. }
    assert (0 < 2 ^ (Z.log2 m - Zpos d)) by lia. split; [lia|].
    assert (Z.log2 bm + be < Z.log2 m + e) as Hlt.
    { assert (fexp prec emax (Z.log2 bm + 1 + be) < fexp prec emax (Z.log2 m + 1 + e)) as Hf by lia.
      apply fexp_reflects in Hf. lia. }
    assert (2 ^ Z.succ (Z.log2 bm) <= 2 ^ (Z.log2 m - Zpos d) * 2 ^ (e + Zpos d - be)) as Hle.
    { rewrite <- Z.pow_add_r by lia. apply Z.pow_le_mono_r; lia. }
    assert (0 < 2 ^ (e + Zpos d - be)) by lia. nia.
Qed.

Lemma round_nearest_up m l : m <= round_nearest_even m l.
Proof. unfold round_nearest_even. destruct l as [|[]]; try destruct (Z.even m); lia. Qed.

Lemma round_above m e l bm be :
  1 <= prec -> canonical prec emax bm be -> 0 < m -> value_le bm be m e ->
  at_least bm be (binary_round_aux prec emax false m e l).
Proof.
  intros Hprec Hc Hm Hv. pose proof (shr_fexp_above m e l bm be Hprec Hc Hm Hv) as H1.
  unfold binary_round_aux. destruct (shr_fexp prec emax m e l) as [mrs e1]. destruct H1 as (P1 & E1 & V1).
  pose proof (round_nearest_up (shr_m mrs) (loc_of_shr_record mrs)) as Hr.
  set (r := round_nearest_even _ _) in *.
  pose proof (shr_fexp_above r e1 loc_Exact bm be Hprec Hc ltac:(lia)) as H2.
  destruct (shr_fexp prec emax r e1 loc_Exact) as [mrs2 e2].
  destruct H2 as (P2 & E2 & V2).
  { exists be. split_and!; [lia..|]. rewrite Z.sub_diag. assert (0 < 2 ^ (e1 - be)) by lia. nia. }
  destruct (shr_m mrs2) as [|p|p]; [lia| |lia].
  destruct (e2 <=? _); cbn; [by split_and!|done].
Qed.

Lemma binary_round_above m e bm be :
  1 <= prec -> canonical prec emax bm be -> value_le bm be (Zpos m) e ->
  at_least bm be (binary_round prec emax false m e).
Proof.
  intros Hprec Hc Hv. unfold binary_round, shl_align.
  destruct (fexp prec emax (Zpos (digits2_pos m) + e) - e) as [|d|d] eqn:Hd; apply round_above; try done.
  rewrite pos_iter_xO. replace (fexp prec emax (Zpos (digits2_pos m) + e)) with (e - Zpos d) by lia.
  destruct Hv as (z & H1 & H2 & H3). exists (Z.min z (e - Zpos d)). split_and!; [lia..|].
  replace (e - Zpos d - Z.min z (e - Zpos d)) with (e - z + (z - Z.min z (e - Zpos d)) - Zpos d) by lia.
  replace (be - Z.min z (e - Zpos d)) with (be - z + (z - Z.min z (e - Zpos d))) by lia.
  set (k := z - Z.min z (e - Zpos d)). assert (0 <= k) by lia.
  rewrite (Z.pow_add_r 2 (be - z) k) by lia.
  replace (Zpos m * 2 ^ Zpos d * 2 ^ (e - z + k - Zpos d)) with (Zpos m * (2 ^ Zpos d * 2 ^ (e - z + k - Zpos d))) by lia.
  rewrite <- (Z.pow_add_r 2 (Zpos d)) by lia. replace (Zpos d + (e - z + k - Zpos d)) with (e - z + k) by lia.
  rewrite (Z.pow_add_r 2 (e - z) k) by lia. assert (0 < 2 ^ k) by lia. nia.
Qed.
End Above.

(** ** The sixty-fourths, as lower bounds *)

Definition grid_m (k : Z) : Z := k * 2 ^ (52 - Z.log2 k).
Definition grid_e (k : Z) : Z := Z.log2 k - 58.
(** No number is negative that is at least zero; a positive bound is one of the format. *)
Definition nonneg (x : float) : Prop :=
  match x with S754_zero s | S754_infinity s | S754_finite s _ _ => s = false | S754_nan => False end.
Definition ge_grid (k : Z) (x : float) : Prop :=
  if k =? 0 then nonneg x else at_least (grid_m k) (grid_e k) x.

Lemma grid_log k : 0 < k < 2 ^ 53 -> 0 <= Z.log2 k < 53.
Proof. intros. split; [apply Z.log2_nonneg|]. apply Z.log2_lt_pow2; lia. Qed.
Lemma canonical_grid k : 0 < k < 2 ^ 53 -> canonical 53 1024 (grid_m k) (grid_e k).
Proof.
  intros Hk. pose proof (grid_log k Hk). unfold canonical, grid_m, grid_e, fexp, emin.
  rewrite Z.log2_mul_pow2 by lia. assert (0 < 2 ^ (52 - Z.log2 k)) by lia. split_and!; [nia|lia..].
Qed.
(** The value of a bound is [k] sixty-fourths. *)
Lemma grid_value k m e : 0 < k < 2 ^ 53 -> value_le k (-6) m e <-> value_le (grid_m k) (grid_e k) m e.
Proof.
  intros Hk. pose proof (grid_log k Hk). unfold value_le, grid_m, grid_e. split; intros (z & H1 & H2 & H3).
  - exists (Z.min z (Z.log2 k - 58)). split_and!; [lia..|].
    set (y := Z.min z (Z.log2 k - 58)) in *.
    rewrite <- Z.mul_assoc, <- Z.pow_add_r by lia.
    replace (52 - Z.log2 k + (Z.log2 k - 58 - y)) with (-6 - z + (z - y)) by lia.
    replace (e - y) with (e - z + (z - y)) by lia. rewrite !Z.pow_add_r by lia. assert (0 < 2 ^ (z - y)) by lia. nia.
  - exists z. split_and!; [lia..|]. rewrite <- Z.mul_assoc, <- Z.pow_add_r in H3 by lia.
    by replace (52 - Z.log2 k + (Z.log2 k - 58 - z)) with (-6 - z) in H3 by lia.
Qed.
Lemma at_least_value bm be s m e : at_least bm be (S754_finite s m e) -> value_le bm be (Zpos m) e.
Proof. intros (_ & H1 & H2). exists be. rewrite Z.sub_diag. split_and!; lia. Qed.
Lemma ge_grid_value k s m e : 0 <= k < 2 ^ 53 -> ge_grid k (S754_finite s m e) -> value_le k (-6) (Zpos m) e.
Proof.
  intros Hk. unfold ge_grid. destruct (Z.eqb_spec k 0) as [->|].
  - intros _. exists (Z.min (-6) e). split_and!; [lia..|]. assert (0 < 2 ^ (e - Z.min (-6) e)) by lia. lia.
  - intros H%at_least_value. apply grid_value; [lia|done].
Qed.
Lemma ge_grid_nonneg k x : 0 <= k < 2 ^ 53 -> ge_grid k x -> nonneg x.
Proof. unfold ge_grid. destruct (k =? 0); [done|]. intros _. destruct x as [| | |]; cbn; try tauto. Qed.

Lemma shr_fexp_nonneg prec emax m e l : 0 <= m -> 0 <= shr_m (shr_fexp prec emax m e l).1.
Proof.
  intros Hm. unfold shr_fexp. assert (shr_m (shr_record_of_loc m l) = m) as Em by (by destruct l as [|[]]).
  destruct (_ - e) as [|d|d]; cbn [shr fst]; [by rewrite Em| |by rewrite Em].
  destruct (iter_shr_1_spec d (shr_record_of_loc m l)) as [-> _]; rewrite Em; [done|]. apply Z.div_pos; lia.
Qed.
Lemma round_nonneg prec emax m e l : 0 <= m -> nonneg (binary_round_aux prec emax false m e l).
Proof.
  intros Hm. unfold binary_round_aux. pose proof (shr_fexp_nonneg prec emax m e l Hm) as H1.
  destruct (shr_fexp prec emax m e l) as [mrs e1]. cbn [fst] in H1.
  pose proof (round_nearest_up (shr_m mrs) (loc_of_shr_record mrs)) as Hr.
  pose proof (shr_fexp_nonneg prec emax (round_nearest_even (shr_m mrs) (loc_of_shr_record mrs)) e1 loc_Exact ltac:(lia)) as H2.
  destruct (shr_fexp prec emax _ e1 loc_Exact) as [mrs2 e2]. cbn [fst] in H2.
  destruct (shr_m mrs2); [done| |lia]. by destruct (_ <=? _).
Qed.
Lemma binary_round_nonneg prec emax m e : nonneg (binary_round prec emax false m e).
Proof. unfold binary_round. destruct (shl_align _ _ _). by apply round_nonneg. Qed.

Lemma round_grid k m e : 0 <= k < 2 ^ 53 -> value_le k (-6) (Zpos m) e ->
  ge_grid k (binary_round 53 1024 false m e).
Proof.
  intros Hk Hv. unfold ge_grid. destruct (Z.eqb_spec k 0) as [->|]; [apply binary_round_nonneg|].
  apply binary_round_above; [done|apply canonical_grid; lia|by apply grid_value; [lia|]].
Qed.

(** A number whose value is at least [k] sixty-fourths, in whatever shape it is. *)
Definition ge_value (k : Z) (x : float) : Prop :=
  match x with
  | S754_zero s => s = false /\ k = 0
  | S754_infinity s => s = false
  | S754_finite s m e => s = false /\ value_le k (-6) (Zpos m) e
  | S754_nan => False
  end.
Lemma ge_grid_ge_value k x : 0 <= k < 2 ^ 53 -> ge_grid k x -> ge_value k x.
Proof.
  intros Hk Hx. pose proof (ge_grid_nonneg k x Hk Hx) as Hn.
  destruct x as [s|s| |s m e]; cbn in *; try done; [|split; [done|by apply (ge_grid_value k s)]].
  split; [done|]. unfold ge_grid in Hx. destruct (Z.eqb_spec k 0); done.
Qed.

(** Sums grow by what is added, at least. *)
Lemma f64_add_grid j k x y : 0 <= j -> 0 < k -> j + k < 2 ^ 53 -> ge_value j x -> ge_grid k y ->
  ge_grid (j + k) (f64_add x y).
Proof.
  intros Hj Hk Hjk Hx Hy. assert (at_least (grid_m k) (grid_e k) y) as Hy'
    by (unfold ge_grid in Hy; by rewrite (proj2 (Z.eqb_neq k 0)) in Hy by lia).
  assert (nonneg x) as Hn by (destruct x; cbn in *; tauto).
  assert (forall z, z = S754_infinity false -> ge_grid (j + k) z) as Hinf
    by (intros z ->; unfold ge_grid; by destruct (j + k =? 0)).
  destruct y as [|s'| |s' m' e']; [done|apply Hinf; cbn in Hy'; subst s'; by destruct x as [|[]| |]|done|].
  destruct x as [s|s| |s m e]; [|apply Hinf; cbn in Hn; by subst s|done|].
  - destruct Hx as [_ ->], Hy' as (-> & _). done.
  - destruct Hx as [_ Hx]. apply ge_grid_value in Hy; [|lia]. destruct Hy' as (-> & _). cbn in Hn. subst s.
    unfold f64_add, SFadd. cbn [cond_Zopp].
    set (ez := Z.min e e').
    pose proof (shl_align_down m e ez ltac:(lia)) as E1. pose proof (shl_align_down m' e' ez ltac:(lia)) as E2.
    destruct (shl_align m e ez) as [p1 ?], (shl_align m' e' ez) as [p2 ?]. cbn [fst] in *.
    change (Zpos p1 + Zpos p2) with (Zpos (p1 + p2)). cbn [binary_normalize]. apply round_grid; [lia|].
    exists (Z.min (-6) ez). split_and!; [lia..|].
    pose proof (value_le_at _ _ _ _ (Z.min (-6) ez) Hx ltac:(lia) ltac:(lia)) as V1.
    pose proof (value_le_at _ _ _ _ (Z.min (-6) ez) Hy ltac:(lia) ltac:(lia)) as V2.
    rewrite Pos2Z.inj_add, E1, E2, !Z.mul_add_distr_r, <- !Z.mul_assoc, <- !Z.pow_add_r by lia.
    replace (e - ez + (ez - Z.min (-6) ez)) with (e - Z.min (-6) ez) by lia.
    replace (e' - ez + (ez - Z.min (-6) ez)) with (e' - Z.min (-6) ez) by lia. lia.
Qed.

(** A smaller bound holds too. *)
Lemma ge_grid_mono j k x : 0 <= j <= k -> k < 2 ^ 53 -> ge_grid k x -> ge_grid j x.
Proof.
  intros Hjk Hk Hx. destruct (decide (j = 0)) as [->|Hj]; [by apply (ge_grid_nonneg k); [lia|]|].
  unfold ge_grid in *. rewrite (proj2 (Z.eqb_neq j 0)) by lia. rewrite (proj2 (Z.eqb_neq k 0)) in Hx by lia.
  destruct x as [| | |s m e]; cbn [at_least] in *; try done. pose proof (Z.log2_le_mono j k ltac:(lia)) as Hl.
  pose proof (grid_log k ltac:(lia)). pose proof (grid_log j ltac:(lia)).
  destruct Hx as (-> & H1 & H2). split; [done|]. unfold grid_e, grid_m in *. split; [lia|].
  replace (e - (Z.log2 j - 58)) with (e - (Z.log2 k - 58) + (Z.log2 k - Z.log2 j)) by lia.
  rewrite Z.pow_add_r by lia. assert (0 < 2 ^ (Z.log2 k - Z.log2 j)) by lia.
  assert (j * 2 ^ (52 - Z.log2 j) <= k * 2 ^ (52 - Z.log2 k) * 2 ^ (Z.log2 k - Z.log2 j)); [|nia].
  rewrite <- Z.mul_assoc, <- Z.pow_add_r by lia.
  replace (52 - Z.log2 k + (Z.log2 k - Z.log2 j)) with (52 - Z.log2 j) by lia.
  assert (0 < 2 ^ (52 - Z.log2 j)) by lia. nia.
Qed.

(** An integer is its own bound. *)
Lemma grid_integer n : 0 < n < 2 ^ 47 ->
  exists m, f64_of n = S754_finite false m (grid_e (64 * n)) /\ Zpos m = grid_m (64 * n).
Proof.
  intros Hn. rewrite f64_of_shape by (unfold exact; lia). rewrite (proj2 (Z.ltb_ge n 0)), Z.abs_eq by lia.
  assert (Z.log2 (64 * n) = Z.log2 n + 6) as E
    by (change 64 with (2 ^ 6); rewrite Z.mul_comm, Z.log2_mul_pow2 by lia; lia).
  unfold grid_e, grid_m. rewrite E. eexists. split; [f_equal; lia|].
  assert (Z.log2 n < 47) by (apply Z.log2_lt_pow2; lia). pose proof (Z.log2_nonneg n).
  assert (0 < 2 ^ (52 - Z.log2 n)) by lia. rewrite Z2Pos.id by nia.
  replace (52 - Z.log2 n) with (6 + (52 - (Z.log2 n + 6))) by lia. rewrite Z.pow_add_r by lia. lia.
Qed.
Lemma f64_of_grid n : 0 <= n < 2 ^ 47 -> ge_grid (64 * n) (f64_of n).
Proof.
  intros Hn. unfold ge_grid. destruct (Z.eqb_spec (64 * n) 0); [by replace n with 0 by lia|].
  destruct (grid_integer n) as (m & -> & Hm); [lia|]. cbn. rewrite Z.sub_diag. split_and!; [done|lia..].
Qed.
(** What is at least an integer is not below it. *)
Lemma grid_not_lt n x : 0 < n < 2 ^ 47 -> ge_grid (64 * n) x -> f64_lt x (f64_of n) = false.
Proof.
  intros Hn Hx. unfold ge_grid in Hx. rewrite (proj2 (Z.eqb_neq _ 0)) in Hx by lia.
  destruct (grid_integer n Hn) as (m & -> & Hm). unfold f64_lt, SFltb.
  destruct x as [|s| |s m' e']; cbn [at_least] in Hx; try done; [by subst s|]. destruct Hx as (-> & H1 & H2).
  cbn [SFcompare]. destruct (Z.compare_spec e' (grid_e (64 * n))) as [->|Hlt|]; [|lia|done].
  rewrite Z.sub_diag in H2. change (Pos.compare_cont Eq m' m) with (Zpos m' ?= Zpos m).
  destruct (Z.compare_spec (Zpos m') (Zpos m)); done || lia.
Qed.
Lemma grid_not_below_zero x : nonneg x -> f64_lt x (f64_of 0) = false.
Proof. by destruct x as [|[]| |[]]. Qed.

(** ** Floors *)

(** [x.floor() as usize] *)
Definition floor_as_usize (x : float) : Z :=
  match x with
  | S754_zero _ | S754_nan => 0
  | S754_infinity s => if s then 0 else usize_max
  | S754_finite s m e => if s then 0 else Z.min usize_max (magnitude_floor m e)
  end.
Lemma magnitude_floor_value m e n : 0 <= n -> n <= magnitude_floor m e -> value_le (64 * n) (-6) (Zpos m) e.
Proof.
  intros Hn. unfold magnitude_floor. destruct (Z.le_gt_cases 0 e) as [He|He].
  - rewrite Z.shiftl_mul_pow2 by lia. intros H. exists (-6). split_and!; [lia..|].
    rewrite Z.sub_diag. replace (e - -6) with (e + 6) by lia. rewrite Z.pow_add_r by lia. lia.
  - rewrite <- (Z.opp_involutive e) at 1. rewrite Z.shiftl_opp_r, Z.shiftr_div_pow2 by lia. intros H.
    assert (0 < 2 ^ (- e)) by lia.
    assert (n * 2 ^ (- e) <= Zpos m) as Hm
      by (pose proof (Z.mul_div_le (Zpos m) (2 ^ (- e)) ltac:(lia)); nia).
    exists (Z.min e (-6)). split_and!; [lia..|].
    replace (64 * n * 2 ^ (-6 - Z.min e (-6))) with (n * (2 ^ 6 * 2 ^ (-6 - Z.min e (-6)))) by lia.
    rewrite <- Z.pow_add_r by lia.
    replace (6 + (-6 - Z.min e (-6))) with (- e + (e - Z.min e (-6))) by lia.
    rewrite Z.pow_add_r by lia. assert (0 < 2 ^ (e - Z.min e (-6))) by lia. nia.
Qed.
Lemma floor_value n x : 0 <= n -> nonneg x -> n <= floor_as_usize x -> n = 0 /\ nonneg x \/ ge_value (64 * n) x.
Proof.
  intros Hn Hx H. destruct x as [s|s| |s m e]; cbn in *; try done; subst; [left; lia|by right|].
  right. split; [done|]. apply magnitude_floor_value; lia.
Qed.
Lemma floor_nonneg x : 0 <= floor_as_usize x.
Proof.
  destruct x as [|[]| |[] m e]; cbn; unfold usize_max, u64_max; try lia.
  assert (0 <= magnitude_floor m e) by (by apply Z.shiftl_nonneg). lia.
Qed.
(** Where the next position is inside, so are both neighbours. *)
Lemma floor_in_range n x : 0 <= n < 2 ^ 40 -> nonneg x -> f64_lt (f64_add x (f64_of 1)) (f64_of n) = true ->
  floor_as_usize x + 1 < n.
Proof.
  intros Hn Hx Hlt. apply Z.nle_gt. intros Hge.
  assert (exists k, 0 <= k < 2 ^ 40 /\ n <= k + 1 /\ ge_value (64 * k) x) as (k & Hk1 & Hk2 & Hv).
  { pose proof (floor_nonneg x). destruct (floor_value (Z.max 0 (n - 1)) x) as [[E _]|H']; [lia|done|lia| |exists (Z.max 0 (n - 1)); split_and!; [lia..|done]].
    exists 0. split_and!; [lia..|]. destruct x as [| | |s m e]; cbn in *; try done. split; [done|].
    exists (Z.min e (-6)). split_and!; [lia..|]. assert (0 < 2 ^ (e - Z.min e (-6))) by lia. lia. }
  pose proof (f64_add_grid (64 * k) 64 x (f64_of 1) ltac:(lia) ltac:(lia) ltac:(lia) Hv (f64_of_grid 1 ltac:(lia))) as Ha.
  destruct (decide (n = 0)) as [->|].
  - rewrite grid_not_below_zero in Hlt; [done|]. apply (ge_grid_nonneg (64 * k + 64)); [lia|done].
  - rewrite grid_not_lt in Hlt; [done|lia|]. apply (ge_grid_mono _ (64 * k + 64)); [lia..|done].
Qed.
(** What is left of a position after whole steps of it. *)
Lemma rest_nonneg n x : 0 <= n < 2 ^ 40 -> nonneg x -> n <= floor_as_usize x -> nonneg (f64_sub x (f64_of n)).
Proof.
  intros Hn Hx H. destruct (decide (n = 0)) as [->|]; [by destruct x as [s|s| |s m e]; cbn in *; subst|].
  destruct (grid_integer n) as (mc & E & Hmc); [lia|]. rewrite E.
  destruct x as [s|s| |s m e]; cbn in Hx; subst; [cbn in H; lia|done|done|].
  assert (value_le (64 * n) (-6) (Zpos m) e) as Hv by (apply magnitude_floor_value; cbn in H; lia).
  apply grid_value in Hv; [|lia]. unfold f64_sub, SFsub. cbn [cond_Zopp].
  set (ec := grid_e (64 * n)) in *. set (ez := Z.min e ec).
  pose proof (shl_align_down m e ez ltac:(lia)) as E1. pose proof (shl_align_down mc ec ez ltac:(lia)) as E2.
  destruct (shl_align m e ez) as [p1 ?], (shl_align mc ec ez) as [p2 ?]. cbn [fst] in *.
  pose proof (value_le_at _ _ _ _ ez Hv ltac:(lia) ltac:(lia)) as V. rewrite <- Hmc, <- E1, <- E2 in V.
  destruct (Zpos p1 - Zpos p2) as [|q|q] eqn:Eq; [done| |lia]. apply binary_round_nonneg.
Qed.
