(* ===== verification/Resample.v ===== *)
(** * Resampling: [OutputConverter] of [crates/edge-audio-output/src/lib.rs]

    Frames of 48 kHz become frames of the device by linear interpolation, a little faster or slower
    so that the queue of the output keeps its depth.  The position is a [f64]; that the loop ends and
    reads only frames it has rests on the rounding of its sums ([FloatAbove]). *)
From Stdlib Require Import SpecFloat.
From S2P Require Export Pcm FloatAbove.

(** [edge-audio 7-7 SAMPLE_RATE] *)
Definition SAMPLE_RATE : Z := 48000.
(** [edge-audio-output 33-33 MAX_CLOCK_CORRECTION] *)
Definition MAX_CLOCK_CORRECTION : float := f64_div (f64_of 5) (f64_of 1000).
(** [edge-audio-output 35-35 CLOCK_CORRECTION_GAIN] *)
Definition CLOCK_CORRECTION_GAIN : float := f64_of 4.
(** [edge-audio-output 40-40 QUEUE_SMOOTHING] *)
Definition QUEUE_SMOOTHING : float := f64_div (f64_of 1) (f64_of 100).

(** ** The correction of the rate *)

(** [f64::clamp] *)
Definition f64_clamp (lo hi x : float) : float :=
  let x := if f64_lt x lo then lo else x in if f64_lt hi x then hi else x.

(** [edge-audio-output 319-324 clock_correction] *)
Definition clock_correction (queued_samples : float) (target_samples : Z) : float :=
  let target := f64_of (Z.max 1 target_samples) in
  let error := f64_div (f64_sub target queued_samples) target in
  f64_add (f64_of 1)
    (f64_clamp (SFopp MAX_CLOCK_CORRECTION) MAX_CLOCK_CORRECTION
       (f64_mul (f64_mul error CLOCK_CORRECTION_GAIN) MAX_CLOCK_CORRECTION)).

(** [edge-audio-output 333-341 QueueAverage::update] *)
Definition queue_average_update (queued_samples : Z) (value : option float) : float :=
  let queued := f64_of queued_samples in
  match value with
  | Some value => f64_add value (f64_mul QUEUE_SMOOTHING (f64_sub queued value))
  | None => queued
  end.

(** ** The conversion *)

(** [edge-audio-output 258-263 OutputConverter] *)
Record OutputConverter := {
  output_rate : Z;
  output_channels : nat;
  source_position : float;
  input_frames : list (float * float);
}.
(** [edge-audio-output 266-273 OutputConverter::new] *)
Definition OutputConverter_new (rate : Z) (channels : nat) : OutputConverter :=
  {| output_rate := rate; output_channels := channels; source_position := S754_zero false;
     input_frames := [] |}.

(** [as_chunks::<2>().0] *)
Fixpoint pairs (input : list float) : list (float * float) :=
  match input with l :: r :: input => (l, r) :: pairs input | _ => [] end.

Definition mix (left right : float * float) (fraction : float) : float * float :=
  (f32_add left.1 (f32_mul (f32_sub right.1 left.1) fraction),
   f32_add left.2 (f32_mul (f32_sub right.2 left.2) fraction)).
Definition channel_sample (stereo : float * float) (channel : nat) : float :=
  match channel with
  | O => stereo.1
  | 1%nat => stereo.2
  | _ => f32_mul (f32_add stereo.1 stereo.2) (f32_div (f32_of 1) (f32_of 2))
  end.

(** How the loop ends: with its position and what it made, with an index out of range, or not
    within the fuel. *)
Inductive loop_end := Done (position : float) (output : list float) | Out_of_range | Out_of_fuel.

(** [edge-audio-output 290-307 convert] *)
Fixpoint convert_loop (fuel : nat) (frames : list (float * float)) (channels : nat) (step position : float) :
  loop_end :=
  if f64_lt (f64_add position (f64_of 1)) (f64_of (len frames)) then
    match fuel with
    | O => Out_of_fuel
    | S fuel =>
        let left_index := floor_as_usize position in
        let fraction := f64_to_f32 (f64_sub position (f64_of left_index)) in
        match frames !! Z.to_nat left_index, frames !! Z.to_nat (left_index + 1) with
        | Some l, Some r =>
            let made := map (channel_sample (mix l r fraction)) (seq 0 channels) in
            match convert_loop fuel frames channels step (f64_add position step) with
            | Done position output => Done position (made ++ output)
            | other => other
            end
        | _, _ => Out_of_range
        end
    end
  else Done position [].

(** Sixty-four passes per frame are enough ([conversion_ends]); [None] would be a panic or a loop
    that goes on.  [edge-audio-output 279-314 convert] *)
Definition convert (input : list float) (rate_scale : float) (self : OutputConverter) :
  option (OutputConverter * list float) :=
  match input with
  | [] => Some (self, [])
  | _ :: _ =>
      if (output_channels self =? 0)%nat || (output_rate self =? 0) then Some (self, [])
      else
        let frames := input_frames self ++ pairs input in
        let step := f64_div (f64_of SAMPLE_RATE) (f64_mul (f64_of (output_rate self)) rate_scale) in
        match convert_loop (64 * S (length frames)) frames (output_channels self) step (source_position self) with
        | Done position output =>
            let consumed := Z.min (floor_as_usize position) (len frames) in
            Some ({| output_rate := output_rate self; output_channels := output_channels self;
                     source_position := f64_sub position (f64_of consumed);
                     input_frames := drop (Z.to_nat consumed) frames |}, output)
        | _ => None
        end
  end.

(** ** The loop ends, within its frames *)

Lemma convert_loop_done fuel frames channels step : forall k position,
  len frames < 2 ^ 40 -> 0 <= k < 2 ^ 50 -> ge_grid 1 step -> ge_grid k position ->
  64 * len frames < Z.of_nat fuel + k ->
  exists position' passes output, convert_loop fuel frames channels step position = Done position' output
    /\ nonneg position' /\ length output = (passes * channels)%nat.
Proof.
  induction fuel as [|fuel IH]; intros k position Hl Hk Hs Hp Hf; cbn [convert_loop];
    pose proof (len_nonneg frames) as H0; pose proof (ge_grid_nonneg k position ltac:(lia) Hp) as Hn;
    destruct (f64_lt (f64_add position (f64_of 1)) (f64_of (len frames))) eqn:Hlt;
    try (by exists position, 0%nat, []).
  - exfalso. pose proof (f64_add_grid k 64 position (f64_of 1) ltac:(lia) ltac:(lia) ltac:(lia)
      (ge_grid_ge_value k position ltac:(lia) Hp) (f64_of_grid 1 ltac:(lia))) as Ha.
    destruct (decide (len frames = 0)) as [E|].
    + rewrite E, grid_not_below_zero in Hlt; [done|]. by apply (ge_grid_nonneg (k + 64)); [lia|].
    + rewrite grid_not_lt in Hlt; [done|lia|]. apply (ge_grid_mono _ (k + 64)); [lia..|done].
  - pose proof (floor_in_range (len frames) position ltac:(lia) Hn Hlt) as Hr.
    pose proof (floor_nonneg position). unfold len in Hr.
    destruct (lookup_lt_is_Some_2 frames (Z.to_nat (floor_as_usize position)) ltac:(lia)) as [l ->].
    destruct (lookup_lt_is_Some_2 frames (Z.to_nat (floor_as_usize position + 1)) ltac:(lia)) as [r ->].
    destruct (decide (64 * len frames < k)) as [Hover|].
    + exfalso. pose proof (f64_add_grid k 64 position (f64_of 1) ltac:(lia) ltac:(lia) ltac:(lia)
        (ge_grid_ge_value k position ltac:(lia) Hp) (f64_of_grid 1 ltac:(lia))) as Ha.
      rewrite grid_not_lt in Hlt; [done|unfold len in *; lia|]. apply (ge_grid_mono _ (k + 64)); [lia..|done].
    + destruct (IH (k + 1) (f64_add position step)) as (p & passes & output & -> & Hp' & Ho); try (done || lia).
      * apply f64_add_grid; try (done || lia). by apply ge_grid_ge_value; [lia|].
      * exists p, (S passes), (map (channel_sample (mix l r (f64_to_f32 (f64_sub position
          (f64_of (floor_as_usize position)))))) (seq 0 channels) ++ output).
        split_and!; [done..|]. rewrite length_app, length_map, length_seq, Ho. lia.
Qed.

(** ** The step of a device *)

(** A number between a half and two. *)
Definition near_one (x : float) : Prop :=
  at_least (2 ^ 52) (-53) x /\ between_zero_and (2 ^ 52) (-51) x.

(** Mantissas of results fit the format. *)
Lemma mantissa_fits s m e l : 0 <= m ->
  match binary_round_aux 53 1024 s m e l with S754_finite _ m' _ => Zpos m' < 2 ^ 53 | _ => True end.
Proof.
  intros Hm. unfold binary_round_aux. pose proof (shr_fexp_nonneg 53 1024 m e l Hm) as H1.
  destruct (shr_fexp 53 1024 m e l) as [mrs e1]. cbn [fst] in H1.
  pose proof (round_nearest_up (shr_m mrs) (loc_of_shr_record mrs)) as Hr.
  set (r := round_nearest_even _ _) in *. assert (0 <= r) as Hr0 by lia. clearbody r. clear Hr H1.
  unfold shr_fexp. destruct (decide (r = 0)) as [->|Hz].
  { destruct (_ - e1) as [|d|d]; cbn [shr shr_record_of_loc shr_m]; try done.
    destruct (iter_shr_1_spec d {| shr_m := 0; shr_r := false; shr_s := false |}) as [E _]; [done|].
    cbn [shr_m] in E. rewrite E, Z.div_0_l by lia. done. }
  rewrite Zdigits2_log2 by lia. pose proof (Z.log2_spec r ltac:(lia)) as [_ Hlog].
  destruct (fexp 53 1024 (Z.log2 r + 1 + e1) - e1) as [|d|d] eqn:Hd; cbn [shr shr_record_of_loc shr_m].
  1, 3: assert (Z.log2 r < 53) as Hl by (unfold fexp in Hd; lia);
    assert (2 ^ Z.succ (Z.log2 r) <= 2 ^ 53) by (apply Z.pow_le_mono_r; lia);
    destruct r as [|p|p]; [done| |lia]; destruct (_ <=? _); [lia|done].
  destruct (iter_shr_1_spec d {| shr_m := r; shr_r := false; shr_s := false |}) as [E _]; [done|].
  cbn [shr_m] in E. rewrite E.
  assert (r / 2 ^ Zpos d < 2 ^ 53) as Hq.
  { apply Z.div_lt_upper_bound; [lia|]. rewrite <- Z.pow_add_r by lia.
    assert (2 ^ Z.succ (Z.log2 r) <= 2 ^ (Zpos d + 53)) by (apply Z.pow_le_mono_r; unfold fexp in Hd; lia). lia. }
  destruct (r / 2 ^ Zpos d); [done| |done]. by destruct (_ <=? _).
Qed.

(** What is added to one is small: it is one of the bounds, or lies between them. *)
Definition small (x : float) : Prop :=
  match x with
  | S754_zero _ => True
  | S754_finite _ m e => Zpos m < 2 ^ 53 /\ e <= -60
  | _ => False
  end.
Lemma clamp_small a b : is_nan (f64_mul a b) = false ->
  small (f64_clamp (SFopp MAX_CLOCK_CORRECTION) MAX_CLOCK_CORRECTION (f64_mul a b)).
Proof.
  intros Hn. assert (match f64_mul a b with S754_finite _ m _ => Zpos m < 2 ^ 53 | _ => True end) as Hm.
  { destruct a as [| | |s m e], b as [| | |s' m' e']; try done. apply mantissa_fits. lia. }
  assert (MAX_CLOCK_CORRECTION = S754_finite false 5764607523034235 (-60)) as -> by (vm_compute; reflexivity).
  unfold f64_clamp. set (x := f64_mul a b) in *. clearbody x.
  destruct (f64_lt x _) eqn:E1; [by vm_compute|]. destruct (f64_lt _ x) eqn:E2; [by vm_compute|].
  unfold f64_lt, SFltb in E1, E2.
  destruct x as [s|s| |s m e]; [exact I|destruct s; discriminate|discriminate|]. split; [exact Hm|].
  destruct s; cbn [SFopp negb SFcompare] in E1, E2.
  - destruct (Z.compare_spec e (-60)) as [->|He|He]; [reflexivity|lia|discriminate].
  - destruct (Z.compare_spec (-60) e) as [<-|He|He]; [reflexivity|discriminate|lia].
Qed.

Lemma canonical_pow k : -1074 <= k <= 971 -> canonical 53 1024 (2 ^ 52) k.
Proof. intros. unfold canonical, fexp, emin. change (Z.log2 (2 ^ 52)) with 52. lia. Qed.

Lemma one_plus_small x : small x -> near_one (f64_add (f64_of 1) x).
Proof.
  change (f64_of 1) with (S754_finite false 4503599627370496 (-52)).
  destruct x as [s|s| |s m e]; [intros _; vm_compute; split_and!; done|by intros []|by intros []|].
  intros [Hm He]. unfold f64_add, SFadd. rewrite Z.min_r by lia.
  pose proof (shl_align_down 4503599627370496 (-52) e ltac:(lia)) as E1.
  pose proof (shl_align_down m e e ltac:(lia)) as E2. rewrite Z.sub_diag in E2.
  destruct (shl_align 4503599627370496 (-52) e) as [p1 ?], (shl_align m e e) as [p2 ?]. cbn [fst cond_Zopp] in *.
  assert (Zpos p1 = 2 ^ 52 * 2 ^ (-52 - e)) as Hp1 by (rewrite E1; done). clear E1.
  replace (-52 - e) with (8 + (-60 - e)) in Hp1 by lia. rewrite Z.pow_add_r in Hp1 by lia.
  assert (0 < 2 ^ (-60 - e)) as Hpow by lia.
  assert (exists q, Zpos p1 + cond_Zopp s (Zpos p2) = Zpos q /\ 2 ^ 59 * 2 ^ (-60 - e) <= Zpos q <= 2 ^ 61 * 2 ^ (-60 - e))
    as (q & -> & Hq).
  { exists (Z.to_pos (Zpos p1 + cond_Zopp s (Zpos p2))). destruct s; cbn [cond_Zopp Z.opp]; rewrite Z2Pos.id; nia. }
  cbn [binary_normalize]. split.
  - apply binary_round_above; [done|by apply canonical_pow|]. exists e. split_and!; [lia..|].
    rewrite Z.sub_diag. replace (-53 - e) with (7 + (-60 - e)) by lia. rewrite Z.pow_add_r by lia. lia.
  - apply binary_round_below; [by apply canonical_pow|]. exists e. split_and!; [lia..|].
    rewrite Z.sub_diag. replace (-51 - e) with (9 + (-60 - e)) by lia. rewrite Z.pow_add_r by lia. lia.
Qed.

Lemma round_not_nan prec emax s m e l : 0 <= m -> is_nan (binary_round_aux prec emax s m e l) = false.
Proof.
  intros Hm. pose proof (round_nonneg prec emax m e l Hm) as H.
  destruct s; rewrite ?binary_round_aux_opp; by destruct (binary_round_aux prec emax false m e l).
Qed.
Lemma f64_mul_not_nan x s m e : is_nan x = false -> is_nan (f64_mul x (S754_finite s m e)) = false.
Proof. destruct x as [| | |s' m' e']; try done. intros _. apply round_not_nan. lia. Qed.
Lemma f64_div_not_nan x s m e : is_nan x = false -> is_nan (f64_div x (S754_finite s m e)) = false.
Proof.
  destruct x as [| | |s' m' e']; try done. intros _. unfold f64_div, SFdiv, SFdiv_core_binary.
  set (e'' := Z.min _ _). set (a := match _ with Z0 => _ | _ => _ end).
  assert (0 <= a) as Ha by (subst a; destruct (_ - e''); [lia|by apply Z.shiftl_nonneg|lia]).
  pose proof (Z.div_eucl_eq a (Zpos m) ltac:(lia)) as H1. pose proof (Z.div_pos a (Zpos m) Ha ltac:(lia)) as H2.
  unfold Z.div in H2. destruct (Z.div_eucl a (Zpos m)) as [q r]. by apply round_not_nan.
Qed.
Lemma f64_sub_not_nan s m e y : is_nan y = false -> is_nan (f64_sub (S754_finite s m e) y) = false.
Proof.
  destruct y as [| | |s' m' e']; try done. intros _. unfold f64_sub, SFsub.
  destruct (_ - _) as [|p|p]; cbn [binary_normalize]; [done|..]; unfold binary_round;
    destruct (shl_align _ _ _); by apply round_not_nan.
Qed.

(** The correction stays near one, whatever the depth of the queue, if it is a number at all. *)
Lemma clock_correction_near_one queued target : is_nan queued = false -> 0 <= target < 2 ^ 53 ->
  near_one (clock_correction queued target).
Proof.
  intros Hq Ht. unfold clock_correction. apply one_plus_small, clamp_small.
  destruct (f64_of_inv (Z.max 1 target)) as (m & e & E & _); [unfold exact; lia|lia|]. rewrite E.
  assert (MAX_CLOCK_CORRECTION = S754_finite false 5764607523034235 (-60)) as -> by (vm_compute; reflexivity).
  change CLOCK_CORRECTION_GAIN with (S754_finite false 4503599627370496 (-50)).
  by apply f64_mul_not_nan, f64_mul_not_nan, f64_div_not_nan, f64_sub_not_nan.
Qed.

(** A device of at most 2^20 samples a second advances by a sixty-fourth of a frame, at least. *)
Lemma rate_product rate scale : 1 <= rate <= 2 ^ 20 -> near_one scale ->
  at_least (2 ^ 52) (-53) (f64_mul (f64_of rate) scale) /\ between_zero_and (2 ^ 52) (-31) (f64_mul (f64_of rate) scale).
Proof.
  intros Hr [Hs1 Hs2]. destruct (f64_of_inv rate) as (m1 & e1 & E & He1 & Hm1 & _); [unfold exact; lia|lia|].
  rewrite (proj2 (Z.ltb_ge _ 0)) in E by lia. rewrite E, Z.abs_eq in * by lia.
  destruct scale as [| | |s m e]; try done. destruct Hs1 as (-> & B1 & B2), Hs2 as (_ & _ & B3 & B4 & _).
  unfold f64_mul, SFmul. cbn [xorb].
  assert (0 < 2 ^ (- e1)) as Hp1 by lia.
  assert (2 ^ 52 * 2 ^ (- e1) <= Zpos (m1 * m) * 2 ^ (e + 53)) as Hlow.
  { rewrite Pos2Z.inj_mul, Hm1. replace (e - -53) with (e + 53) in B2 by lia.
    assert (0 < 2 ^ (e + 53)) by lia. nia. }
  assert (Zpos (m1 * m) <= 2 ^ 72 * (2 ^ (-51 - e) * 2 ^ (- e1))) as Hup.
  { rewrite Pos2Z.inj_mul, Hm1. assert (0 < 2 ^ (-51 - e)) by lia. assert (0 < 2 ^ (- e1) * 2 ^ (-51 - e)) by nia. nia. }
  split.
  - apply round_above; [done|by apply canonical_pow|lia|]. exists (e1 - 53). split_and!; [lia..|].
    replace (-53 - (e1 - 53)) with (- e1) by lia. by replace (e1 + e - (e1 - 53)) with (e + 53) by lia.
  - apply round_below; [by apply canonical_pow|]. split_and!; [lia..| |done].
    replace (-31 - (e1 + e)) with (20 + ((-51 - e) + - e1)) by lia. rewrite !Z.pow_add_r by lia. lia.
Qed.
Lemma device_step rate scale : 1 <= rate <= 2 ^ 20 -> near_one scale ->
  ge_grid 1 (f64_div (f64_of SAMPLE_RATE) (f64_mul (f64_of rate) scale)).
Proof.
  intros Hr Hs. destruct (rate_product rate scale Hr Hs) as [H1 H2].
  destruct (f64_mul (f64_of rate) scale) as [| | |s m2 e2]; try done.
  destruct H1 as (-> & B1 & B2), H2 as (_ & _ & B3 & B4 & _).
  assert (f64_of SAMPLE_RATE = S754_finite false (Z.to_pos (48000 * 2 ^ 37)) (-37)) as -> by (vm_compute; reflexivity).
  unfold f64_div, SFdiv, SFdiv_core_binary. rewrite !Zdigits2_log2 by lia. cbn [xorb].
  change (Z.log2 (Zpos (Z.to_pos (48000 * 2 ^ 37)))) with 52.
  assert (-1 <= Z.log2 (Zpos m2) + e2 <= 21) as Hl.
  { split.
    - apply Z.log2_le_mono in B2. rewrite Z.log2_mul_pow2 in B2 by lia. change (Z.log2 (2 ^ 52)) with 52 in B2. lia.
    - apply Z.log2_le_mono in B4. rewrite Z.log2_mul_pow2 in B4 by lia. change (Z.log2 (2 ^ 52)) with 52 in B4. lia. }
  set (e' := Z.min _ _). assert (-60 <= e' <= -36 /\ e' < -37 - e2) as He' by (subst e'; unfold fexp, emin; lia).
  clearbody e'. destruct (-37 - e2 - e') as [|d|d] eqn:Hd; [lia| |lia].
  rewrite Z.shiftl_mul_pow2 by lia. rewrite Z2Pos.id by lia.
  set (a := 48000 * 2 ^ 37 * 2 ^ Zpos d).
  assert (2 ^ (-6 - e') <= a / Zpos m2) as Hq.
  { apply Z.div_le_lower_bound; [lia|]. subst a.
    replace (Zpos d) with ((-31 - e2) + (-6 - e')) by lia. rewrite Z.pow_add_r by lia.
    assert (0 < 2 ^ (-6 - e')) by lia. nia. }
  unfold Z.div in Hq. destruct (Z.div_eucl a (Zpos m2)) as [q r].
  unfold ge_grid. cbn [Z.eqb]. assert (0 < 2 ^ (-6 - e')) by lia.
  apply round_above; [done|by apply canonical_grid|lia|]. apply grid_value; [done|].
  exists e'. split_and!; [lia..|]. rewrite Z.sub_diag. lia.
Qed.

(** ** The converter *)

Definition valid (self : OutputConverter) : Prop :=
  1 <= output_rate self <= 2 ^ 20 /\ (0 < output_channels self)%nat /\ nonneg (source_position self).

Lemma pairs_length input : (length (pairs input) <= length input)%nat.
Proof.
  assert ((length (pairs input) <= length input)%nat
          /\ forall x, (length (pairs (x :: input)) <= S (length input))%nat) as [H _]; [|done].
  induction input as [|y input [IH1 IH2]]; [cbn; split; intros; lia|]. split; [apply IH2|].
  intros x. cbn. lia.
Qed.

(** A device always gets its samples: the conversion of a block ends, without reading past the
    frames it has, for every device of up to 2^20 samples a second and every correction of the
    clock, however long the queue is and whatever was converted before; it gives whole frames of the
    device, and keeps the end of the frames for the next block. *)
Theorem conversion_ends (self : OutputConverter) (input : list float) (queued : float) (target : Z)
    (Hv : valid self) (Hq : is_nan queued = false) (Ht : 0 <= target < 2 ^ 53)
    (Hl : len (input_frames self) + len input < 2 ^ 40) :
  exists self' output passes,
    convert input (clock_correction queued target) self = Some (self', output)
    /\ length output = (passes * output_channels self)%nat /\ valid self'
    /\ output_rate self' = output_rate self /\ output_channels self' = output_channels self
    /\ (exists consumed, input_frames self ++ pairs input = consumed ++ input_frames self').
Proof.
  destruct Hv as (Hr & Hc & Hp). destruct input as [|x input'].
  { exists self, [], 0%nat. split_and!; try done; try lia. exists []. by rewrite app_nil_r. }
  unfold convert. set (input := x :: input') in *.
  rewrite (proj2 (Nat.eqb_neq _ 0)), (proj2 (Z.eqb_neq _ 0)) by lia. cbn [orb].
  set (frames := input_frames self ++ pairs input). set (step := f64_div _ _).
  assert (len frames < 2 ^ 40) as Hf.
  { unfold frames. rewrite len_app. pose proof (pairs_length input). unfold len in *. lia. }
  assert (ge_grid 1 step) as Hs by (apply device_step; [done|by apply clock_correction_near_one]).
  destruct (convert_loop_done (64 * S (length frames)) frames (output_channels self) step 0 (source_position self))
    as (p & passes & output & -> & Hpn & Ho); [done|lia|done|done|unfold len in *; lia|].
  eexists _, output, passes. split; [reflexivity|]. cbn [output_channels output_rate source_position input_frames].
  pose proof (floor_nonneg p). pose proof (len_nonneg frames).
  split; [done|]. split.
  { unfold valid. cbn [output_channels output_rate source_position]. split; [lia|]. split; [lia|]. apply rest_nonneg; [lia|done|lia]. }
  split; [done|]. split; [done|].
  exists (take (Z.to_nat (Z.min (floor_as_usize p) (len frames))) frames). by rewrite take_drop.
Qed.

(** ** A sample *)

Definition desktop_device : OutputConverter := OutputConverter_new 48000 2.
Definition tone : list float := map f32_of [1; -1; 2; -2; 3; -3].
Lemma conversion_ends_witness : exists self' output passes,
  convert tone (clock_correction (f64_of 5760) 5760) desktop_device = Some (self', output)
  /\ length output = (passes * 2)%nat /\ output = map f32_of [1; -1; 2; -2].
Proof.
  destruct (conversion_ends desktop_device tone (f64_of 5760) 5760) as (self' & output & passes & E & Hl & _);
    [vm_compute; split_and!; done || lia|done|lia|vm_compute; done|].
  exists self', output, passes. split_and!; [done|done|]. vm_compute in E. by injection E as _ <-.
Defined.
