(* ===== verification/AudioRing.v ===== *)
(** * The ring of samples: [AudioRing] of [crates/edge-audio-output/src/lib.rs]

    One task pushes, the callback of the device pops, and neither waits.  The operations are those
    of the source; [machine_step] interleaves their single loads and stores, which their orderings
    keep in program order. *)
From S2P Require Export Float.

(** [edge-audio-output 48-53 AudioRing] *)
Record AudioRing := { slots : list float; capacity : Z; ring_read : Z; ring_write : Z }.
Definition set_slots : list float -> AudioRing -> AudioRing := ltac:(field_setter slots).
Definition set_ring_read : Z -> AudioRing -> AudioRing := ltac:(field_setter ring_read).
Definition set_ring_write : Z -> AudioRing -> AudioRing := ltac:(field_setter ring_write).

Definition silence : float := SpecFloat.S754_zero false.
(** [edge-audio-output 94-106 AudioRing::new] *)
Definition AudioRing_new (wanted : Z) : AudioRing :=
  let c := Z.max 2 wanted in
  {| slots := replicate (Z.to_nat c) silence; capacity := c; ring_read := 0; ring_write := 0 |}.

Definition used (r : AudioRing) : Z := wrapping_sub usize_max (ring_write r) (ring_read r).
(** [edge-audio-output 108-113 AudioRing::len] *)
Definition ring_len (r : AudioRing) : Z := Z.min (used r) (capacity r).

Definition slot_of (r : AudioRing) (index : Z) : nat := Z.to_nat (index mod capacity r).
(** How many samples are taken.  [edge-audio-output 118-122 AudioRing::push_slice_aligned] *)
Definition accepted (r : AudioRing) (input : list float) (alignment : Z) : Z :=
  let available := saturating_sub (capacity r) (used r) in
  let alignment := Z.max 1 alignment in
  Z.min (len input) available / alignment * alignment.
(** [edge-audio-output 123-128 AudioRing::push_slice_aligned] *)
Definition store_sample (offset : Z) (sample : float) (r : AudioRing) : AudioRing :=
  set_slots (<[slot_of r (wrapping_add usize_max (ring_write r) offset) := sample]> (slots r)) r.
(** [edge-audio-output 123-128 AudioRing::push_slice_aligned] *)
Fixpoint store_samples (offset : Z) (samples : list float) (r : AudioRing) : AudioRing :=
  match samples with
  | [] => r
  | sample :: samples => store_samples (offset + 1) samples (store_sample offset sample r)
  end.
(** [edge-audio-output 129-130 AudioRing::push_slice_aligned] *)
Definition publish (count : Z) (r : AudioRing) : AudioRing :=
  set_ring_write (wrapping_add usize_max (ring_write r) count) r.
(** [edge-audio-output 117-132 AudioRing::push_slice_aligned] *)
Definition push_slice_aligned (input : list float) (alignment : Z) (r : AudioRing) : AudioRing * Z :=
  let count := accepted r input alignment in
  (publish count (store_samples 0 (take (Z.to_nat count) input) r), count).

(** [edge-audio-output 139-142 AudioRing::pop] *)
Definition load_sample (r : AudioRing) : float := nth (slot_of r (ring_read r)) (slots r) silence.
(** [edge-audio-output 143-143 AudioRing::pop] *)
Definition advance (r : AudioRing) : AudioRing := set_ring_read (wrapping_add usize_max (ring_read r) 1) r.
(** [edge-audio-output 134-145 AudioRing::pop] *)
Definition ring_pop (r : AudioRing) : AudioRing * option float :=
  if ring_read r =? ring_write r then (r, None) else (advance r, Some (load_sample r)).

(** ** The interleaving of one producer and one consumer *)

(** A push that has loaded the counters has chosen its samples and has stored some of them; a pop
    that has loaded them may hold its sample.  [sent] and [got] are what was published and taken. *)
Inductive consumer := Idle | Loaded | Holding (sample : float).
Record machine := {
  ring : AudioRing;
  pushing : option (list float * nat);
  popping : consumer;
  sent : list float;
  got : list float;
}.
Definition fresh_machine (wanted : Z) : machine :=
  {| ring := AudioRing_new wanted; pushing := None; popping := Idle; sent := []; got := [] |}.

(** A push loads, stores its samples one by one and publishes; a pop loads, takes its sample and
    publishes.  A push that sees an older counter of the other side takes what it would take of a
    shorter input, and a pop that does takes nothing.
    [edge-audio-output 117-145 AudioRing::push_slice_aligned] *)
Inductive machine_step : machine -> machine -> Prop :=
| Push_loads r p s g input alignment :
    machine_step {| ring := r; pushing := None; popping := p; sent := s; got := g |}
      {| ring := r; pushing := Some (take (Z.to_nat (accepted r input alignment)) input, O);
         popping := p; sent := s; got := g |}
| Push_stores r p s g samples n sample : samples !! n = Some sample ->
    machine_step {| ring := r; pushing := Some (samples, n); popping := p; sent := s; got := g |}
      {| ring := store_sample (Z.of_nat n) sample r; pushing := Some (samples, S n);
         popping := p; sent := s; got := g |}
| Push_publishes r p s g samples :
    machine_step {| ring := r; pushing := Some (samples, length samples); popping := p; sent := s; got := g |}
      {| ring := publish (len samples) r; pushing := None; popping := p; sent := s ++ samples; got := g |}
| Pop_loads r w s g : ring_read r <> ring_write r ->
    machine_step {| ring := r; pushing := w; popping := Idle; sent := s; got := g |}
      {| ring := r; pushing := w; popping := Loaded; sent := s; got := g |}
| Pop_takes r w s g :
    machine_step {| ring := r; pushing := w; popping := Loaded; sent := s; got := g |}
      {| ring := r; pushing := w; popping := Holding (load_sample r); sent := s; got := g |}
| Pop_publishes r w s g sample :
    machine_step {| ring := r; pushing := w; popping := Holding sample; sent := s; got := g |}
      {| ring := advance r; pushing := w; popping := Idle; sent := s; got := g ++ [sample] |}.

(** The samples that a push has chosen. *)
Definition pending (m : machine) : list float := match pushing m with Some (samples, _) => samples | None => [] end.
Definition total (m : machine) : Z := len (sent m) + len (pending m).

(** ** The ring is a queue *)

(** The counters count the samples, the published ones are in their slots, and the stored ones of a
    push behind them. *)
Record sound (m : machine) : Prop := {
  s_capacity : 2 <= capacity (ring m) <= usize_max;
  s_slots : len (slots (ring m)) = capacity (ring m);
  s_write : ring_write (ring m) = len (sent m);
  s_read : ring_read (ring m) = len (got m);
  s_got : got m = take (length (got m)) (sent m);
  s_room : len (got m) <= len (sent m) /\ total m - len (got m) <= capacity (ring m);
  s_published k x : len (got m) <= Z.of_nat k -> sent m !! k = Some x ->
    slots (ring m) !! slot_of (ring m) (Z.of_nat k) = Some x;
  s_stored samples n j x : pushing m = Some (samples, n) -> (j < n)%nat -> samples !! j = Some x ->
    slots (ring m) !! slot_of (ring m) (len (sent m) + Z.of_nat j) = Some x;
  s_progress samples n : pushing m = Some (samples, n) -> (n <= length samples)%nat;
  s_popping : match popping m with
              | Idle => True
              | Loaded => len (got m) < len (sent m)
              | Holding x => sent m !! length (got m) = Some x
              end;
}.

(** Different samples of the ring are in different slots. *)
Lemma slot_inj r i j : 0 < capacity r -> 0 <= i -> 0 <= j -> i - j < capacity r -> j - i < capacity r ->
  slot_of r i = slot_of r j -> i = j.
Proof.
  intros Hc Hi Hj H1 H2 E. unfold slot_of in E.
  pose proof (Z.mod_pos_bound i (capacity r) Hc). pose proof (Z.mod_pos_bound j (capacity r) Hc).
  apply Z2Nat.inj in E; [|lia..].
  pose proof (Z.div_mod i (capacity r) ltac:(lia)). pose proof (Z.div_mod j (capacity r) ltac:(lia)).
  assert (i / capacity r = j / capacity r) by nia. nia.
Qed.
Lemma slot_lt r i : 0 < capacity r -> len (slots r) = capacity r -> (slot_of r i < length (slots r))%nat.
Proof. intros Hc Hl. unfold slot_of, len in *. pose proof (Z.mod_pos_bound i (capacity r) Hc). lia. Qed.

Lemma accepted_fits r input alignment : 0 <= used r <= capacity r ->
  0 <= accepted r input alignment /\ accepted r input alignment <= capacity r - used r
  /\ accepted r input alignment <= len input /\ (Z.max 1 alignment | accepted r input alignment).
Proof.
  intros Hu. unfold accepted, saturating_sub. rewrite Z.max_r by lia. cbv zeta.
  set (a := Z.max 1 alignment). set (b := Z.min _ _). pose proof (len_nonneg input).
  assert (0 <= b) by lia. pose proof (Z.mul_div_le b a ltac:(lia)). pose proof (Z.div_pos b a ltac:(lia) ltac:(lia)).
  split_and!; [nia|lia|lia|]. by exists (b / a).
Qed.
Lemma used_small r : 0 <= ring_read r <= ring_write r -> ring_write r <= usize_max ->
  used r = ring_write r - ring_read r.
Proof. intros. unfold used, wrapping_sub. apply Z.mod_small. lia. Qed.

Lemma len_snoc {A} (l : list A) x : len (l ++ [x]) = len l + 1.
Proof. by rewrite len_app. Qed.

(** Each step keeps the ring sound. *)
Lemma step_push_loads r p s g input alignment :
  let m := {| ring := r; pushing := None; popping := p; sent := s; got := g |} in
  let m' := {| ring := r; pushing := Some (take (Z.to_nat (accepted r input alignment)) input, O);
               popping := p; sent := s; got := g |} in
  total m' <= usize_max -> sound m -> sound m'.
Proof.
  intros m m' Ht [H1 H2 H3 H4 H5 H6 H7 H8 H9 H10]. subst m m'. unfold total, pending in *.
  cbn [ring pushing popping sent got] in *. change (len []) with 0 in *.
  pose proof (len_nonneg g). pose proof (len_nonneg s).
  pose proof (len_nonneg (take (Z.to_nat (accepted r input alignment)) input)).
  assert (used r = len s - len g) as Hu by (rewrite used_small; rewrite ?H3, ?H4; lia).
  destruct (accepted_fits r input alignment) as (A1 & A2 & A3 & _); [lia|].
  assert (len (take (Z.to_nat (accepted r input alignment)) input) <= accepted r input alignment)
    by (unfold len; rewrite length_take; lia).
  constructor; cbn [ring pushing popping sent got]; try done; unfold total, pending; cbn [pushing sent]; try lia.
  - intros ? n j x [= <- <-]. lia.
  - intros ? n [= <- <-]. lia.
Qed.

Lemma step_push_stores r p s g samples n sample : samples !! n = Some sample ->
  let m := {| ring := r; pushing := Some (samples, n); popping := p; sent := s; got := g |} in
  let m' := {| ring := store_sample (Z.of_nat n) sample r; pushing := Some (samples, S n);
               popping := p; sent := s; got := g |} in
  total m <= usize_max -> sound m -> sound m'.
Proof.
  intros Hx m m' Ht [H1 H2 H3 H4 H5 H6 H7 H8 H9 H10]. subst m m'. unfold total, pending in *.
  cbn [ring pushing popping sent got] in *.
  pose proof (len_nonneg g). pose proof (len_nonneg s). apply lookup_lt_Some in Hx as Hn.
  assert (Z.of_nat n < len samples) by (unfold len; lia).
  assert (wrapping_add usize_max (ring_write r) (Z.of_nat n) = len s + Z.of_nat n) as Ew
    by (rewrite H3, wrapping_add_small; lia).
  assert (forall i, slot_of (store_sample (Z.of_nat n) sample r) i = slot_of r i) as Eslot by done.
  assert (forall i x, 0 <= i < len s + Z.of_nat n -> len g <= i -> slots r !! slot_of r i = Some x ->
    slots (store_sample (Z.of_nat n) sample r) !! slot_of r i = Some x) as Hkeep.
  { intros i x Hi Hg E. cbn. rewrite Ew, list_lookup_insert_ne; [done|]. intros Eq.
    apply slot_inj in Eq; lia. }
  constructor; cbn [ring pushing popping sent got]; try done; unfold total, pending; cbn [pushing sent].
  - unfold len in *. cbn. by rewrite length_insert.
  - intros k x Hk Hl. rewrite Eslot. apply lookup_lt_Some in Hl as Hlt. apply Hkeep; [unfold len; lia|done|by apply H7].
  - intros ? ? j x [= <- <-] Hj Hl. rewrite Eslot. destruct (decide (j = n)) as [->|].
    + rewrite Hx in Hl. injection Hl as <-. cbn. rewrite Ew. apply list_lookup_insert_eq, slot_lt; [lia|done].
    + apply Hkeep; [lia..|]. apply (H8 samples n); [done|lia|done].
  - intros ? ? [= <- <-]. lia.
Qed.

Lemma step_push_publishes r p s g samples :
  let m := {| ring := r; pushing := Some (samples, length samples); popping := p; sent := s; got := g |} in
  let m' := {| ring := publish (len samples) r; pushing := None; popping := p; sent := s ++ samples; got := g |} in
  total m <= usize_max -> sound m -> sound m'.
Proof.
  intros m m' Ht [H1 H2 H3 H4 H5 H6 H7 H8 H9 H10]. subst m m'. unfold total, pending in *.
  cbn [ring pushing popping sent got] in *. pose proof (len_nonneg s). pose proof (len_nonneg samples).
  constructor; cbn [ring pushing popping sent got]; try done; unfold total, pending; cbn [pushing sent];
    change (len (@nil float)) with 0; rewrite ?len_app.
  - cbn. by rewrite H3, wrapping_add_small by lia.
  - rewrite take_app_le; [done|]. unfold len in H6. lia.
  - change (capacity (publish (len samples) r)) with (capacity r). lia.
  - intros k x Hk Hl. change (slots (publish (len samples) r)) with (slots r).
    change (slot_of (publish (len samples) r) (Z.of_nat k)) with (slot_of r (Z.of_nat k)).
    apply lookup_app_Some in Hl as [Hl|[Hge Hl]]; [by apply H7|].
    replace (Z.of_nat k) with (len s + Z.of_nat (k - length s)) by (unfold len; lia).
    apply lookup_lt_Some in Hl as Hlt. by apply (H8 samples (length samples)).
  - destruct p as [| |x]; [done|lia|]. by apply lookup_app_l_Some.
Qed.

Lemma step_pops r w p s g p' r' g' :
  let m := {| ring := r; pushing := w; popping := p; sent := s; got := g |} in
  let m' := {| ring := r'; pushing := w; popping := p'; sent := s; got := g' |} in
  total m <= usize_max ->
  p = Idle /\ ring_read r <> ring_write r /\ p' = Loaded /\ r' = r /\ g' = g
  \/ p = Loaded /\ p' = Holding (load_sample r) /\ r' = r /\ g' = g
  \/ (exists x, p = Holding x /\ p' = Idle /\ r' = advance r /\ g' = g ++ [x]) ->
  sound m -> sound m'.
Proof.
  intros m m' Ht Hcase [H1 H2 H3 H4 H5 H6 H7 H8 H9 H10]. subst m m'. unfold total, pending in *.
  cbn [ring pushing popping sent got] in *. pose proof (len_nonneg g).
  assert (0 <= len (match w with Some (samples, _) => samples | None => [] end)) as Hw by apply len_nonneg.
  destruct Hcase as [(-> & Hne & -> & -> & ->)|[(-> & -> & -> & ->)|(x & -> & -> & -> & ->)]];
    constructor; cbn [ring pushing popping sent got]; try done; unfold total, pending; cbn [pushing sent].
  - rewrite H3, H4 in Hne. lia.
  - destruct (lookup_lt_is_Some_2 s (length g)) as [x Hx]; [unfold len in *; lia|].
    pose proof (H7 (length g) x ltac:(unfold len; lia) Hx) as Hl. rewrite Hx. f_equal.
    unfold load_sample. rewrite H4. unfold len. symmetry. by apply nth_lookup_Some.
  - cbn. rewrite H4, len_snoc, wrapping_add_small; try lia. apply lookup_lt_Some in H10. unfold len in *. lia.
  - rewrite length_app, Nat.add_1_r, (take_S_r _ _ x) by done. by rewrite <- H5.
  - rewrite len_snoc. change (capacity (advance r)) with (capacity r). apply lookup_lt_Some in H10. unfold len in *. lia.
  - intros k y Hk Hl. rewrite len_snoc in Hk. apply H7; [lia|done].
Qed.

Lemma sound_step m m' : total m' <= usize_max -> machine_step m m' -> sound m -> sound m'.
Proof.
  intros Ht Hstep. destruct Hstep; unfold total, pending in Ht; cbn [pushing sent] in Ht.
  - by apply step_push_loads.
  - by apply step_push_stores.
  - apply step_push_publishes. unfold total. cbn. rewrite len_app in Ht. change (len []) with 0 in Ht. lia.
  - apply step_pops; [done|]. left. by split_and!.
  - apply step_pops; [done|]. right. left. by split_and!.
  - apply step_pops; [done|]. right. right. eauto.
Qed.
Lemma total_grows m m' : machine_step m m' -> total m <= total m'.
Proof.
  intros []; unfold total, pending; cbn [pushing sent]; rewrite ?len_app; change (len (@nil float)) with 0; try lia.
  pose proof (len_nonneg (take (Z.to_nat (accepted r input alignment)) input)). lia.
Qed.
Lemma fresh_sound wanted : wanted <= usize_max -> sound (fresh_machine wanted).
Proof.
  intros Hw. unfold fresh_machine, AudioRing_new. assert (2 <= usize_max) by (unfold usize_max, u64_max; lia).
  constructor; cbn [ring pushing popping sent got capacity slots ring_read ring_write]; try done.
  - lia.
  - unfold len. rewrite length_replicate. lia.
  - unfold total, pending. cbn [pushing sent]. change (len (@nil float)) with 0. lia.
Qed.

(** C39. The ring is a queue without locks: however the single loads and stores of a pushing task and of
    a popping callback interleave, what was popped is a prefix of what was pushed, in order and each
    sample once; at most the capacity is between them; and while a push stores a sample and a pop
    takes one they use different slots, so no sample is read half written.  (As long as fewer than
    2^64 samples were pushed, which takes millions of years.) *)
Theorem ring_is_a_queue (wanted : Z) (m : machine) (Hw : wanted <= usize_max)
    (Hm : rtc machine_step (fresh_machine wanted) m) (Ht : total m <= usize_max) :
  got m `prefix_of` sent m /\ len (sent m) - len (got m) <= capacity (ring m)
  /\ (forall samples n, pushing m = Some (samples, n) -> (n < length samples)%nat -> popping m <> Idle ->
        slot_of (ring m) (wrapping_add usize_max (ring_write (ring m)) (Z.of_nat n))
        <> slot_of (ring m) (ring_read (ring m))).
Proof.
  assert (sound m) as [H1 H2 H3 H4 H5 H6 H7 H8 H9 H10].
  { revert Ht. pattern m. eapply rtc_ind_r; [| |exact Hm].
    - intros _. by apply fresh_sound.
    - intros m1 m2 _ Hstep IH Ht. apply (sound_step m1); [done|done|]. apply IH.
      pose proof (total_grows m1 m2 Hstep). lia. }
  pose proof (len_nonneg (got m)). pose proof (len_nonneg (pending m)). unfold total in *. split_and!.
  - rewrite H5. apply prefix_take.
  - lia.
  - intros samples n E Hn Hp. unfold pending in *. rewrite E in *. assert (Z.of_nat n < len samples) by (unfold len; lia).
    rewrite H3, H4, wrapping_add_small by lia.
    assert (len (got m) < len (sent m)).
    { destruct (popping m) as [| |x]; [done|done|]. apply lookup_lt_Some in H10. unfold len. lia. }
    intros Eq. apply slot_inj in Eq; lia.
Qed.

(** ** The calls as a whole *)

(** The ring holds these samples, the oldest first. *)
Definition holds (r : AudioRing) (q : list float) : Prop :=
  2 <= capacity r <= usize_max /\ len (slots r) = capacity r
  /\ 0 <= ring_read r /\ ring_write r = ring_read r + len q /\ ring_write r <= usize_max
  /\ len q <= capacity r
  /\ forall k x, q !! k = Some x -> slots r !! slot_of r (ring_read r + Z.of_nat k) = Some x.

Lemma new_holds wanted : wanted <= usize_max -> holds (AudioRing_new wanted) [].
Proof.
  intros Hw. assert (2 <= usize_max) by (unfold usize_max, u64_max; lia). unfold holds, AudioRing_new. cbn.
  change (len (@nil float)) with 0. split_and!; try done; try lia. unfold len. rewrite length_replicate. lia.
Qed.
Lemma holds_used r q : holds r q -> used r = len q /\ ring_len r = len q.
Proof.
  intros (H1 & H2 & H3 & H4 & H5 & H6 & H7). pose proof (len_nonneg q).
  assert (used r = len q) as E by (rewrite used_small; lia). split; [done|]. unfold ring_len. rewrite E. lia.
Qed.
Lemma store_holds r q samples : forall stored,
  holds r q -> len q + len stored + len samples <= capacity r -> ring_write r + len stored + len samples <= usize_max ->
  (forall j x, stored !! j = Some x -> slots r !! slot_of r (ring_write r + Z.of_nat j) = Some x) ->
  let r' := store_samples (len stored) samples r in
  holds r' q /\ ring_write r' = ring_write r /\ capacity r' = capacity r /\ ring_read r' = ring_read r
  /\ forall j x, (stored ++ samples) !! j = Some x -> slots r' !! slot_of r' (ring_write r' + Z.of_nat j) = Some x.
Proof.
  revert r. induction samples as [|x samples IH]; intros r stored Hq Hc Hw Hs; cbn [store_samples].
  { rewrite app_nil_r. by split_and!. }
  destruct Hq as (H1 & H2 & H3 & H4 & H5 & H6 & H7).
  rewrite len_cons in *. pose proof (len_nonneg samples). pose proof (len_nonneg stored). pose proof (len_nonneg q).
  set (r1 := store_sample (len stored) x r).
  assert (wrapping_add usize_max (ring_write r) (len stored) = ring_write r + len stored) as Ew
    by (rewrite wrapping_add_small; lia).
  assert (forall i y, 0 <= i < ring_write r + len stored -> ring_read r <= i ->
    slots r !! slot_of r i = Some y -> slots r1 !! slot_of r i = Some y) as Hkeep.
  { intros i y Hi Hr E. unfold r1. cbn. rewrite Ew, list_lookup_insert_ne; [done|]. intros Eq. apply slot_inj in Eq; lia. }
  destruct (IH r1 (stored ++ [x])) as (I1 & I2 & I3 & I4 & I5).
  - unfold holds. change (capacity r1) with (capacity r). change (ring_read r1) with (ring_read r).
    change (ring_write r1) with (ring_write r). split_and!; try (done || lia).
    + unfold r1, len. cbn. rewrite length_insert. exact H2.
    + intros k y Hk. change (slot_of r1 (ring_read r + Z.of_nat k)) with (slot_of r (ring_read r + Z.of_nat k)).
      apply lookup_lt_Some in Hk as Hlt. apply Hkeep; [unfold len in *; lia|lia|by apply H7].
  - change (capacity r1) with (capacity r). rewrite len_snoc. lia.
  - change (ring_write r1) with (ring_write r). rewrite len_snoc. lia.
  - intros j y Hj. change (slot_of r1 (ring_write r1 + Z.of_nat j)) with (slot_of r (ring_write r + Z.of_nat j)).
    apply lookup_app_Some in Hj as [Hj|[Hge Hj]].
    + apply lookup_lt_Some in Hj as Hlt. apply Hkeep; [unfold len in *; lia|lia|by apply Hs].
    + apply lookup_lt_Some in Hj as Hlt. cbn in Hlt. replace j with (length stored) in * by lia.
      rewrite Nat.sub_diag in Hj. injection Hj as <-. unfold r1. cbn. rewrite Ew. apply list_lookup_insert_eq, slot_lt; lia.
  - rewrite len_snoc in I1, I2, I3, I4, I5. rewrite <- (assoc_L (++)) in I5. by split_and!.
Qed.

(** A push takes as many whole frames as there is room for. *)
Lemma push_holds r q input alignment : holds r q -> ring_write r + len input <= usize_max ->
  let '(r', count) := push_slice_aligned input alignment r in
  holds r' (q ++ take (Z.to_nat count) input) /\ capacity r' = capacity r
  /\ 0 <= count <= len input /\ (Z.max 1 alignment | count) /\ ring_write r' = ring_write r + count.
Proof.
  intros Hq Hw. unfold push_slice_aligned. destruct (holds_used r q Hq) as [Hu _].
  destruct Hq as (H1 & H2 & H3 & H4 & H5 & H6 & H7). pose proof (len_nonneg q).
  destruct (accepted_fits r input alignment) as (A1 & A2 & A3 & A4); [lia|]. rewrite Hu in A2.
  set (count := accepted r input alignment) in *. set (samples := take (Z.to_nat count) input).
  assert (len samples = count) as Hlen by (unfold samples, len in *; rewrite length_take; lia).
  destruct (store_holds r q samples []) as (I1 & I2 & I3 & I4 & I5); try done.
  { change (len (@nil float)) with 0. lia. } { change (len (@nil float)) with 0. lia. }
  change (len (@nil float)) with 0 in *. cbn [app] in I5. set (r1 := store_samples 0 samples r) in *.
  destruct I1 as (J1 & J2 & J3 & J4 & J5 & J6 & J7). unfold publish.
  assert (wrapping_add usize_max (ring_write r1) count = ring_write r + count) as Ew
    by (rewrite I2, wrapping_add_small; lia).
  split_and!; try done.
  unfold holds. cbn. rewrite Ew, len_app, Hlen. rewrite I4 in *. split_and!; try (done || lia).
  intros k x Hk. apply lookup_app_Some in Hk as [Hk|[Hge Hk]]; [by apply J7|].
  replace (ring_read r + Z.of_nat k) with (ring_write r1 + Z.of_nat (k - length q)) by (unfold len in *; lia).
  by apply I5.
Qed.
(** A pop takes the oldest sample. *)
Lemma pop_holds r q : holds r q -> match q with
  | [] => ring_pop r = (r, None)
  | x :: q => exists r', ring_pop r = (r', Some x) /\ holds r' q /\ capacity r' = capacity r /\ ring_write r' = ring_write r
  end.
Proof.
  intros (H1 & H2 & H3 & H4 & H5 & H6 & H7). unfold ring_pop. destruct q as [|x q].
  - change (len (@nil float)) with 0 in *. by rewrite (proj2 (Z.eqb_eq _ _)) by lia.
  - rewrite len_cons in *. pose proof (len_nonneg q). rewrite (proj2 (Z.eqb_neq _ _)) by lia.
    exists (advance r). assert (load_sample r = x) as ->.
    { unfold load_sample. apply nth_lookup_Some. pose proof (H7 O x eq_refl) as E. by rewrite Z.add_0_r in E. }
    split_and!; try done. unfold holds. cbn. rewrite wrapping_add_small by lia. split_and!; try (done || lia).
    intros k y Hk. replace (ring_read r + 1 + Z.of_nat k) with (ring_read r + Z.of_nat (S k)) by lia. by apply H7.
Qed.

(** ** A sample *)

Lemma ring_is_a_queue_witness : exists m,
  rtc machine_step (fresh_machine 4) m /\ got m = [f64_of 1] /\ sent m = [f64_of 1; f64_of 2]
  /\ got m `prefix_of` sent m.
Proof.
  assert (exists m, rtc machine_step (fresh_machine 4) m /\ got m = [f64_of 1] /\ sent m = [f64_of 1; f64_of 2]
                    /\ total m = 2) as (m & Hr & E1 & E2 & Ht).
  { eexists. split.
    - eapply rtc_l; [apply (Push_loads _ _ _ _ [f64_of 1; f64_of 2] 2)|].
      eapply rtc_l; [by apply (Push_stores _ _ _ _ _ 0 (f64_of 1))|].
      eapply rtc_l; [by apply (Push_stores _ _ _ _ _ 1 (f64_of 2))|].
      eapply rtc_l; [apply Push_publishes|].
      eapply rtc_l; [apply Pop_loads; vm_compute; discriminate|].
      eapply rtc_l; [apply Pop_takes|]. eapply rtc_l; [apply Pop_publishes|]. apply rtc_refl.
    - split_and!; vm_compute; reflexivity. }
  exists m. split_and!; [done..|].
  apply (ring_is_a_queue 4 m); [vm_compute; discriminate|done|]. rewrite Ht. vm_compute. discriminate.
Defined.
