(* ===== verification/AudioOutput.v ===== *)
(** * Playback: [crates/edge-audio-output/src/lib.rs] and the queue of [device.rs]

    Decoded frames are converted to the device's rate and pushed into the ring; the callback of the
    device takes one frame of samples after the other, and fades where there is none.  A push comes
    between any two frames of a callback.  What was converted, queued and taken is recorded. *)
From Stdlib Require Import SpecFloat.
From S2P Require Import Audio.
From S2P Require Export Resample AudioRing.

(** [edge-audio-output 27-27 OUTPUT_PREBUFFER_MS] *)
Definition OUTPUT_PREBUFFER_MS : Z := 30.
(** [edge-audio-output 29-29 OUTPUT_TARGET_MS] *)
Definition OUTPUT_TARGET_MS : Z := 60.
(** [edge-audio-output 31-31 OUTPUT_QUEUE_LIMIT_MS] *)
Definition OUTPUT_QUEUE_LIMIT_MS : Z := 180.
(** [edge-audio-output 42-42 FADE_FRAMES] *)
Definition FADE_FRAMES : Z := 48.
(** [edge-audio-output 45-45 AUDIO_LOSS_WARNING_INTERVAL] *)
Definition AUDIO_LOSS_WARNING_INTERVAL : Z := from_millis 250.

(** ** Counters *)

(** [edge-audio-output 149-161 PlaybackStats] *)
Record PlaybackStats := {
  authenticated_packets : Z;
  rejected_packets : Z;
  late_packets : Z;
  concealed_packets : Z;
  output_underruns : Z;
  dropped_output_frames : Z;
  queued_output_samples : Z;
  output_samples_per_ms : Z;
  output_frames_per_ms : Z;
}.
Definition set_authenticated_packets : Z -> PlaybackStats -> PlaybackStats := ltac:(field_setter authenticated_packets).
Definition set_rejected_packets : Z -> PlaybackStats -> PlaybackStats := ltac:(field_setter rejected_packets).
Definition set_late_packets : Z -> PlaybackStats -> PlaybackStats := ltac:(field_setter late_packets).
Definition set_concealed_packets : Z -> PlaybackStats -> PlaybackStats := ltac:(field_setter concealed_packets).
Definition set_output_underruns : Z -> PlaybackStats -> PlaybackStats := ltac:(field_setter output_underruns).
Definition set_dropped_output_frames : Z -> PlaybackStats -> PlaybackStats := ltac:(field_setter dropped_output_frames).
Definition set_queued_output_samples : Z -> PlaybackStats -> PlaybackStats := ltac:(field_setter queued_output_samples).
Definition stats_default : PlaybackStats :=
  {| authenticated_packets := 0; rejected_packets := 0; late_packets := 0; concealed_packets := 0;
     output_underruns := 0; dropped_output_frames := 0; queued_output_samples := 0;
     output_samples_per_ms := 0; output_frames_per_ms := 0 |}.

(** [edge-audio-output 165-175 PlaybackStatsSnapshot] *)
Record PlaybackStatsSnapshot := {
  sn_authenticated_packets : Z;
  sn_rejected_packets : Z;
  sn_late_packets : Z;
  sn_concealed_packets : Z;
  sn_output_underruns : Z;
  sn_dropped_output_frames : Z;
  sn_dropped_output_ms : Z;
  sn_queued_output_ms : Z;
}.
#[export] Instance PlaybackStatsSnapshot_eq_dec : EqDecision PlaybackStatsSnapshot.
Proof. solve_decision. Defined.
Definition snapshot_default : PlaybackStatsSnapshot :=
  {| sn_authenticated_packets := 0; sn_rejected_packets := 0; sn_late_packets := 0; sn_concealed_packets := 0;
     sn_output_underruns := 0; sn_dropped_output_frames := 0; sn_dropped_output_ms := 0; sn_queued_output_ms := 0 |}.
(** [edge-audio-output 178-192 snapshot] *)
Definition snapshot (s : PlaybackStats) : PlaybackStatsSnapshot :=
  let samples_per_ms := Z.max 1 (output_samples_per_ms s) in
  let frames_per_ms := Z.max 1 (output_frames_per_ms s) in
  {| sn_authenticated_packets := authenticated_packets s; sn_rejected_packets := rejected_packets s;
     sn_late_packets := late_packets s; sn_concealed_packets := concealed_packets s;
     sn_output_underruns := output_underruns s; sn_dropped_output_frames := dropped_output_frames s;
     sn_dropped_output_ms := dropped_output_frames s / frames_per_ms;
     sn_queued_output_ms := queued_output_samples s / samples_per_ms |}.

(** ** Warnings of lost audio *)

(** [edge-audio-output 196-205 AudioLossReport] *)
Record AudioLossReport := {
  lost_packets : Z; concealed_ms : Z; dropped_ms : Z; dropped_frames : Z;
}.
(** [edge-audio-output 208-212 AudioLossReporter] *)
Record AudioLossReporter := { reported : PlaybackStatsSnapshot; last_warning : option Instant }.
Definition reporter_default : AudioLossReporter := {| reported := snapshot_default; last_warning := None |}.

(** [edge-audio-output 218-248 check] *)
Definition check (current : PlaybackStatsSnapshot) (now : Instant) (self : AudioLossReporter) :
  AudioLossReporter * option AudioLossReport :=
  let concealed := saturating_sub (sn_concealed_packets current) (sn_concealed_packets (reported self)) in
  let dropped := saturating_sub (sn_dropped_output_frames current) (sn_dropped_output_frames (reported self)) in
  if (concealed =? 0) && (dropped =? 0) then (self, None)
  else if is_some_and (fun last => duration_since now last <? AUDIO_LOSS_WARNING_INTERVAL) (last_warning self)
  then (self, None)
  else ({| reported := current; last_warning := Some now |},
        Some {| lost_packets := concealed; concealed_ms := concealed * FRAME_MS;
                dropped_ms := saturating_sub (sn_dropped_output_ms current) (sn_dropped_output_ms (reported self));
                dropped_frames := dropped |}).

(** ** The callback of the device *)

(** [edge-audio-output 252-254 duration_samples] *)
Definition duration_samples (rate channels duration_ms : Z) : Z := rate * channels * duration_ms / 1000.

(** [edge-audio-output 346-354 PlayoutState], without the ring and the counters it shares. *)
Record PlayoutState := {
  channels : nat;
  prebuffer_samples : Z;
  playing : bool;
  gain : float;
  last_frame : list float;
}.
(** [edge-audio-output 357-373 PlayoutState::new] *)
Definition PlayoutState_new (n : nat) (prebuffer : Z) : PlayoutState :=
  let n := Nat.max 1 n in
  {| channels := n; prebuffer_samples := prebuffer; playing := false; gain := silence;
     last_frame := replicate n silence |}.

(** The player with its device, its converter and its queue, and what it recorded.
    [edge-audio-output/device 25-33 AudioPlayer] *)
Record AudioPlayer := {
  player_ring : AudioRing;
  converter : OutputConverter;
  stats : PlaybackStats;
  target_queue_samples : Z;
  queue_average : option float;
  playout : PlayoutState;
  made : Z;
  queued : list float;
  taken : list float;
}.
Definition set_player_ring : AudioRing -> AudioPlayer -> AudioPlayer := ltac:(field_setter player_ring).
Definition set_converter : OutputConverter -> AudioPlayer -> AudioPlayer := ltac:(field_setter converter).
Definition set_stats : PlaybackStats -> AudioPlayer -> AudioPlayer := ltac:(field_setter stats).
Definition set_queue_average : option float -> AudioPlayer -> AudioPlayer := ltac:(field_setter queue_average).
Definition set_playout : PlayoutState -> AudioPlayer -> AudioPlayer := ltac:(field_setter playout).
Definition set_made : Z -> AudioPlayer -> AudioPlayer := ltac:(field_setter made).
Definition set_queued : list float -> AudioPlayer -> AudioPlayer := ltac:(field_setter queued).
Definition set_taken : list float -> AudioPlayer -> AudioPlayer := ltac:(field_setter taken).

(** What remains of the opened stream: the device's rate and number of channels.
    [edge-audio-output/device 164-230 open_stream] *)
Definition open_player (rate : Z) (device_channels : nat) (queue_limit_ms : Z) : AudioPlayer :=
  let n := Z.of_nat device_channels in
  let queue_limit_ms := Z.max queue_limit_ms OUTPUT_QUEUE_LIMIT_MS in
  {| player_ring := AudioRing_new (duration_samples rate n queue_limit_ms);
     converter := OutputConverter_new rate device_channels;
     stats := {| authenticated_packets := 0; rejected_packets := 0; late_packets := 0; concealed_packets := 0;
                 output_underruns := 0; dropped_output_frames := 0; queued_output_samples := 0;
                 output_samples_per_ms := Z.max 1 (duration_samples rate n 1);
                 output_frames_per_ms := Z.max 1 (duration_samples rate 1 1) |};
     target_queue_samples := duration_samples rate n OUTPUT_TARGET_MS;
     queue_average := None;
     playout := PlayoutState_new device_channels (duration_samples rate n OUTPUT_PREBUFFER_MS);
     made := 0; queued := []; taken := [] |}.

(** [for sample in &mut self.last_frame]: a frame is taken, with zeros where the ring is empty. *)
Fixpoint pop_frame (n : nat) (r : AudioRing) : AudioRing * list float :=
  match n with
  | O => (r, [])
  | S n =>
      let '(r, sample) := ring_pop r in
      let '(r, frame) := pop_frame n r in
      (r, default silence sample :: frame)
  end.

(** One frame of the output, of which the callback asks for [size] samples.
    [edge-audio-output 377-397 render] *)
Definition render_frame (size : nat) (p : AudioPlayer) : AudioPlayer * list float :=
  let o := playout p in
  let n := Z.of_nat (channels o) in
  let step := f32_div (f32_of 1) (f32_of FADE_FRAMES) in
  let on := playing o || (Z.max (prebuffer_samples o) n <=? ring_len (player_ring p)) in
  let '(p, o) :=
    if on && (n <=? ring_len (player_ring p)) then
      let '(r, frame) := pop_frame (channels o) (player_ring p) in
      (set_taken (taken p ++ frame) (set_player_ring r p),
       {| channels := channels o; prebuffer_samples := prebuffer_samples o; playing := on;
          gain := f64_min (f32_add (gain o) step) (f32_of 1); last_frame := frame |})
    else
      (if on then set_stats (set_output_underruns (wrapping_add u64_max (output_underruns (stats p)) 1) (stats p)) p
       else p,
       {| channels := channels o; prebuffer_samples := prebuffer_samples o; playing := false;
          gain := f64_max (f32_sub (gain o) step) (f32_of 0); last_frame := last_frame o |}) in
  (set_playout o p, map (fun sample => f32_mul sample (gain o)) (take size (last_frame o))).
(** [edge-audio-output 398-401 render] *)
Definition end_of_callback (p : AudioPlayer) : AudioPlayer :=
  set_stats (set_queued_output_samples (ring_len (player_ring p)) (stats p)) p.

(** [None] would be a conversion that panics or does not end.
    [edge-audio-output/device 126-142 push_48k_stereo] *)
Definition push_48k_stereo (pcm : list float) (p : AudioPlayer) : option AudioPlayer :=
  let average := queue_average_update (ring_len (player_ring p)) (queue_average p) in
  let rate_scale := clock_correction average (target_queue_samples p) in
  match convert pcm rate_scale (converter p) with
  | None => None
  | Some (c, converted) =>
      let n := Z.max 1 (Z.of_nat (output_channels c)) in
      let '(r, pushed) := push_slice_aligned converted n (player_ring p) in
      let p := set_made (made p + len converted)
                 (set_queued (queued p ++ take (Z.to_nat pushed) converted)
                    (set_queue_average (Some average) (set_converter c (set_player_ring r p)))) in
      let p := if pushed <? len converted then
                 set_stats (set_dropped_output_frames
                   (wrapping_add u64_max (dropped_output_frames (stats p)) ((len converted - pushed) / n)) (stats p)) p
               else p in
      Some (end_of_callback p)
  end.

(** A step of the two tasks. *)
Inductive player_step := Push (pcm : list float) | Frame (size : nat) | Callback_ends.
Definition step_player (step : player_step) (p : AudioPlayer) : option AudioPlayer :=
  match step with
  | Push pcm => push_48k_stereo pcm p
  | Frame size => Some (render_frame size p).1
  | Callback_ends => Some (end_of_callback p)
  end.
Fixpoint run_player (steps : list player_step) (p : AudioPlayer) : option AudioPlayer :=
  match steps with
  | [] => Some p
  | step :: steps => match step_player step p with Some p => run_player steps p | None => None end
  end.

(** ** What becomes of the samples *)

Lemma loop_whole fuel frames n step : forall position position' output,
  convert_loop fuel frames n step position = Done position' output -> exists passes, length output = (passes * n)%nat.
Proof.
  induction fuel as [|fuel IH]; intros position position' output; cbn [convert_loop];
    destruct (f64_lt _ _); try done; try (intros [= _ <-]; by exists 0%nat).
  destruct (frames !! Z.to_nat (floor_as_usize position)), (frames !! Z.to_nat (floor_as_usize position + 1)); try done.
  destruct (convert_loop fuel frames n step _) as [last out| |] eqn:E; try done. intros [= _ <-].
  destruct (IH _ _ _ E) as [passes Hp]. exists (S passes). rewrite length_app, length_map, length_seq, Hp. lia.
Qed.
Lemma convert_whole input scale self self' output : convert input scale self = Some (self', output) ->
  output_channels self' = output_channels self /\ exists passes, length output = (passes * output_channels self)%nat.
Proof.
  unfold convert. destruct input as [|x input]; [intros [= <- <-]; split; [done|by exists 0%nat]|].
  destruct (_ || _); [intros [= <- <-]; split; [done|by exists 0%nat]|]. cbv zeta.
  destruct (convert_loop _ _ _ _ _) as [p out| |] eqn:E; try done. intros [= <- <-]. split; [done|].
  by apply loop_whole in E.
Qed.

Lemma pop_frame_holds n : forall r q, holds r q -> (n <= length q)%nat ->
  exists r', pop_frame n r = (r', take n q) /\ holds r' (drop n q) /\ ring_write r' = ring_write r.
Proof.
  induction n as [|n IH]; intros r q Hq Hn; [by exists r|]. destruct q as [|x q]; cbn in Hn; [lia|].
  destruct (pop_holds r (x :: q) Hq) as (r1 & E1 & H1 & _ & W1).
  destruct (IH r1 q H1 ltac:(lia)) as (r2 & E2 & H2 & W2). exists r2. cbn [pop_frame]. rewrite E1, E2.
  split_and!; [done|done|congruence].
Qed.

(** Every sample that was made is taken, waits in the ring or belongs to a counted frame; frames
    stay whole. *)
Record healthy (n : Z) (p : AudioPlayer) (waiting : list float) : Prop := {
  h_channels : Z.of_nat (channels (playout p)) = n /\ Z.max 1 (Z.of_nat (output_channels (converter p))) = n;
  h_holds : holds (player_ring p) waiting;
  h_write : ring_write (player_ring p) = len (queued p);
  h_queued : queued p = taken p ++ waiting;
  h_whole : (n | len (taken p)) /\ (n | len waiting);
  h_made : made p = len (queued p) + n * dropped_output_frames (stats p);
  h_dropped : 0 <= dropped_output_frames (stats p);
}.

Lemma frame_healthy n size p waiting : 1 <= n -> healthy n p waiting ->
  exists waiting', healthy n (render_frame size p).1 waiting'.
Proof.
  intros Hn [[H1 H1'] H2 H3 H4 [H5 H6] H7 H8]. unfold render_frame. cbv zeta. rewrite H1.
  destruct (holds_used _ _ H2) as [_ ->].
  set (on := playing (playout p) || _). destruct (on && (n <=? len waiting)) eqn:E.
  - apply andb_true_iff in E as [_ E%Z.leb_le].
    destruct (pop_frame_holds (channels (playout p)) (player_ring p) waiting H2) as (r & -> & Hr & Hw).
    { unfold len in E. lia. }
    exists (drop (channels (playout p)) waiting).
    assert (len (take (channels (playout p)) waiting) = n) as Hl by (unfold len in *; rewrite length_take; lia).
    assert (len waiting = n + len (drop (channels (playout p)) waiting)) as Hd
      by (rewrite <- Hl, <- len_app; by rewrite take_drop).
    constructor; cbn [fst playout set_playout converter player_ring queued taken made stats channels set_taken set_player_ring]; try done.
    + congruence.
    + rewrite H4. rewrite <- (assoc_L (++)). by rewrite take_drop.
    + rewrite len_app, Hl. split; [apply Z.divide_add_r; [done|apply Z.divide_refl]|].
      replace (len (drop (channels (playout p)) waiting)) with (len waiting - n) by lia.
      apply Z.divide_sub_r; [done|apply Z.divide_refl].
  - exists waiting. destruct on; constructor; cbn; done.
Qed.

Lemma push_healthy n pcm p p' waiting : 1 <= n -> healthy n p waiting ->
  push_48k_stereo pcm p = Some p' -> made p' <= usize_max -> made p <= made p' /\ exists waiting', healthy n p' waiting'.
Proof.
  intros Hn [[H1 H1'] H2 H3 H4 [H5 H6] H7 H8]. unfold push_48k_stereo. cbv zeta.
  destruct (convert _ _ _) as [[c converted]|] eqn:Ec; [|done].
  destruct (convert_whole _ _ _ _ _ Ec) as [Ech [passes Hpasses]]. rewrite Ech, H1'.
  destruct (push_slice_aligned converted n (player_ring p)) as [r pushed] eqn:Ep.
  intros Hp' Hmade. assert (made p' = made p + len converted) as Em by (injection Hp' as <-; by destruct (_ <? _)).
  pose proof (len_nonneg converted). split; [lia|].
  assert (made p + len converted <= usize_max) as Hb by lia. clear Em.
  pose proof (len_nonneg (queued p)).
  pose proof (push_holds (player_ring p) waiting converted n H2) as Hpush. rewrite Ep in Hpush.
  destruct Hpush as (P1 & P2 & P3 & P4 & P5); [nia|]. rewrite Z.max_r in P4 by lia.
  assert ((n | len converted)) as Hdiv.
  { rewrite <- H1'. unfold len. rewrite Hpasses. destruct (output_channels (converter p)) as [|m] eqn:Eo.
    - rewrite Nat.mul_0_r. apply Z.divide_0_r.
    - exists (Z.of_nat passes). rewrite Nat2Z.inj_mul. lia. }
  exists (waiting ++ take (Z.to_nat pushed) converted).
  assert (len (take (Z.to_nat pushed) converted) = pushed) as Hl by (unfold len in *; rewrite length_take; lia).
  assert (Z.of_nat (channels (playout p)) = n /\ Z.max 1 (Z.of_nat (output_channels c)) = n) as Hc
    by (rewrite Ech; done).
  destruct (Z.ltb_spec pushed (len converted)) as [Hlt|Hge]; injection Hp' as <-;
    constructor; cbn [end_of_callback playout converter player_ring queued taken made stats set_stats set_made
      set_queued set_queue_average set_converter set_player_ring set_queued_output_samples
      dropped_output_frames set_dropped_output_frames]; try done.
  - rewrite P5, H3, len_app, Hl. done.
  - by rewrite H4, (assoc_L (++)).
  - split; [done|]. rewrite len_app, Hl. by apply Z.divide_add_r.
  - assert ((n | len converted - pushed)) as [k Hk] by (by apply Z.divide_sub_r).
    assert ((len converted - pushed) / n = k) as -> by (rewrite Hk; apply Z.div_mul; lia).
    rewrite len_app, Hl, H7. assert (0 <= k) by nia.
    unfold usize_max in Hb. rewrite wrapping_add_small; [nia|done|done|nia].
  - unfold wrapping_add. apply Z.mod_pos_bound. done.
  - rewrite P5, H3, len_app, Hl. done.
  - by rewrite H4, (assoc_L (++)).
  - split; [done|]. rewrite len_app, Hl. by apply Z.divide_add_r.
  - rewrite len_app, Hl, H7. lia.
Qed.

Lemma step_made step p p' : step_player step p = Some p' -> made p <= made p'.
Proof.
  destruct step as [pcm|size|]; cbn [step_player].
  - unfold push_48k_stereo. cbv zeta. destruct (convert _ _ _) as [[c converted]|]; [|done].
    destruct (push_slice_aligned _ _ _) as [r pushed]. pose proof (len_nonneg converted).
    destruct (_ <? _); intros [= <-]; cbn; lia.
  - intros [= <-]. unfold render_frame. cbv zeta. destruct (_ && _) eqn:E.
    + by destruct (pop_frame _ _).
    + destruct (_ || _); cbn; lia.
  - intros [= <-]. cbn. lia.
Qed.
Lemma run_made steps : forall p p', run_player steps p = Some p' -> made p <= made p'.
Proof.
  induction steps as [|step steps IH]; intros p p'; cbn [run_player]; [intros [= <-]; lia|].
  destruct (step_player step p) as [p1|] eqn:E; [|done]. intros H%IH. apply step_made in E. lia.
Qed.
Lemma run_healthy n steps : forall p p' waiting, 1 <= n -> healthy n p waiting ->
  run_player steps p = Some p' -> made p' <= usize_max -> exists waiting', healthy n p' waiting'.
Proof.
  induction steps as [|step steps IH]; intros p p' waiting Hn Hp; cbn [run_player].
  { intros [= <-] _. by exists waiting. }
  destruct (step_player step p) as [p1|] eqn:E; [|done]. intros Hrun Hm. pose proof (run_made _ _ _ Hrun).
  assert (exists waiting1, healthy n p1 waiting1) as [waiting1 H1]; [|by apply (IH p1 p' waiting1)].
  destruct step as [pcm|size|]; cbn [step_player] in E.
  - apply (push_healthy n pcm p p1 waiting) in E as [_ ?]; [done..|lia].
  - injection E as <-. by apply (frame_healthy n size p waiting).
  - injection E as <-. exists waiting. destruct Hp. by constructor.
Qed.

(** No sound is lost without being counted, and channels never change places: however pushes and
    the frames of the callback interleave, the samples that were made for the device are those that
    it took, in their order, then those that wait in the ring, and the frames counted as dropped;
    and what was taken and what waits are whole frames.  (The samples fit [usize], as they do for
    millions of years.) *)
Theorem samples_are_played_or_counted (rate : Z) (device_channels : nat) (limit : Z)
    (steps : list player_step) (p : AudioPlayer)
    (Hc : capacity (player_ring (open_player rate device_channels limit)) <= usize_max)
    (Hr : run_player steps (open_player rate device_channels limit) = Some p) (Hm : made p <= usize_max) :
  let n := Z.max 1 (Z.of_nat device_channels) in
  exists waiting, queued p = taken p ++ waiting /\ ring_len (player_ring p) = len waiting
    /\ (n | len (taken p)) /\ (n | len waiting)
    /\ made p = len (taken p) + len waiting + n * dropped_output_frames (stats p).
Proof.
  intros n. destruct (run_healthy n steps (open_player rate device_channels limit) p []) as [waiting Hp]; try done.
  - lia.
  - constructor; cbn [open_player playout converter player_ring queued taken made stats dropped_output_frames]; try done.
    + unfold PlayoutState_new, OutputConverter_new. cbn [channels output_channels]. lia.
    + apply new_holds. unfold open_player, AudioRing_new in Hc. cbn [player_ring capacity] in Hc. lia.
    + split; apply Z.divide_0_r.
    + change (len (@nil float)) with 0. lia.
  - destruct Hp as [_ H2 _ H4 [H5 H6] H7 _]. exists waiting. destruct (holds_used _ _ H2) as [_ ->].
    split_and!; try done. rewrite H7, H4, len_app. lia.
Qed.

(** ** Warnings *)

(** The warnings of a sequence of looks at the counters, with their times. *)
Fixpoint warnings (looks : list (PlaybackStatsSnapshot * Instant)) (self : AudioLossReporter) :
  AudioLossReporter * list (Instant * AudioLossReport) :=
  match looks with
  | [] => (self, [])
  | (current, now) :: looks =>
      let '(self, report) := check current now self in
      let '(self, reports) := warnings looks self in
      (self, match report with Some r => (now, r) :: reports | None => reports end)
  end.
(** Each warning comes the interval after the one before it, at least. *)
Fixpoint spaced (last : option Instant) (reports : list (Instant * AudioLossReport)) : Prop :=
  match reports with
  | [] => True
  | (now, _) :: reports =>
      (match last with Some t => t + AUDIO_LOSS_WARNING_INTERVAL <= now | None => True end)
      /\ spaced (Some now) reports
  end.
Definition total_of (f : AudioLossReport -> Z) (reports : list (Instant * AudioLossReport)) : Z :=
  foldr (fun r n => f r.2 + n) 0 reports.
(** Counters that only grow from what was reported on. *)
Fixpoint grows (from : PlaybackStatsSnapshot) (looks : list (PlaybackStatsSnapshot * Instant)) : Prop :=
  match looks with
  | [] => True
  | (current, _) :: looks =>
      sn_concealed_packets from <= sn_concealed_packets current
      /\ sn_dropped_output_frames from <= sn_dropped_output_frames current /\ grows current looks
  end.

Lemma grows_from from from' looks : sn_concealed_packets from <= sn_concealed_packets from' ->
  sn_dropped_output_frames from <= sn_dropped_output_frames from' -> grows from' looks -> grows from looks.
Proof. destruct looks as [|[current now] looks]; [done|]. cbn. intros ? ? (? & ? & ?). split_and!; [lia..|done]. Qed.

Lemma warnings_add_up looks : forall self, grows (reported self) looks ->
  let '(self', reports) := warnings looks self in
  total_of lost_packets reports = sn_concealed_packets (reported self') - sn_concealed_packets (reported self)
  /\ total_of dropped_frames reports = sn_dropped_output_frames (reported self') - sn_dropped_output_frames (reported self)
  /\ spaced (last_warning self) reports.
Proof.
  induction looks as [|[current now] looks IH]; intros self; cbn [warnings grows]; [intros _; cbn; split_and!; lia || done|].
  intros (Hc & Hd & Hg). unfold check. cbv zeta. unfold saturating_sub.
  assert (forall self', reported self' = reported self -> last_warning self' = last_warning self ->
    let '(self1, reports) := warnings looks self' in
    total_of lost_packets reports = sn_concealed_packets (reported self1) - sn_concealed_packets (reported self)
    /\ total_of dropped_frames reports = sn_dropped_output_frames (reported self1) - sn_dropped_output_frames (reported self)
    /\ spaced (last_warning self) reports) as Hskip.
  { intros self' E1 E2. pose proof (IH self') as H. rewrite E1, E2 in H. apply H. by apply (grows_from _ current). }
  destruct (_ && _) eqn:E1; [pose proof (Hskip self eq_refl eq_refl) as H; by destruct (warnings looks self)|].
  destruct (is_some_and _ _) eqn:E2; [pose proof (Hskip self eq_refl eq_refl) as H; by destruct (warnings looks self)|].
  pose proof (IH {| reported := current; last_warning := Some now |} Hg) as H.
  destruct (warnings looks _) as [self' reports]. cbn [reported last_warning] in H. destruct H as (H1 & H2 & H3).
  cbn [total_of foldr snd lost_packets dropped_frames spaced].
  fold (total_of lost_packets reports) (total_of dropped_frames reports). rewrite H1, H2. split_and!; [lia..| |done].
  destruct (last_warning self) as [t|]; [|done]. cbn in E2. unfold duration_since in E2. apply Z.ltb_ge in E2.
  unfold AUDIO_LOSS_WARNING_INTERVAL, from_millis in *. lia.
Qed.

(** Every loss is in one warning: whatever the looks at the counters are, what the warnings say adds
    up to the counters at the last of them, nothing twice and nothing left out, and two warnings are
    a quarter of a second apart. *)
Theorem losses_are_warned_of_once (looks : list (PlaybackStatsSnapshot * Instant))
    (Hg : grows snapshot_default looks) :
  let '(self, reports) := warnings looks reporter_default in
  total_of lost_packets reports = sn_concealed_packets (reported self)
  /\ total_of dropped_frames reports = sn_dropped_output_frames (reported self)
  /\ spaced None reports.
Proof.
  pose proof (warnings_add_up looks reporter_default Hg) as H. destruct (warnings looks reporter_default) as [self reports].
  cbn in H. destruct H as (H1 & H2 & H3). split_and!; [lia..|done].
Qed.

(** ** Samples *)

Definition some_losses (lost dropped : Z) : PlaybackStatsSnapshot :=
  {| sn_authenticated_packets := 9; sn_rejected_packets := 0; sn_late_packets := 0; sn_concealed_packets := lost;
     sn_output_underruns := 0; sn_dropped_output_frames := dropped; sn_dropped_output_ms := 0; sn_queued_output_ms := 0 |}.
Lemma losses_are_warned_of_once_witness :
  let looks := [(some_losses 1 0, from_millis 5); (some_losses 2 7, from_millis 10); (some_losses 3 7, from_millis 300)] in
  grows snapshot_default looks /\ spaced None (warnings looks reporter_default).2
  /\ map (fun r => lost_packets r.2) (warnings looks reporter_default).2 = [1; 2].
Proof.
  intros looks. assert (grows snapshot_default looks) as H by (vm_compute; split_and!; discriminate || done).
  pose proof (losses_are_warned_of_once looks H) as W. split; [done|].
  split; [|vm_compute; reflexivity]. destruct (warnings looks reporter_default). apply W.
Defined.
Lemma samples_are_played_or_counted_witness : exists p waiting,
  run_player [Push tone; Frame 2; Callback_ends] (open_player 2000 2 180) = Some p
  /\ queued p = taken p ++ waiting /\ made p = len (taken p) + len waiting + 2 * dropped_output_frames (stats p).
Proof.
  destruct (run_player [Push tone; Frame 2; Callback_ends] (open_player 2000 2 180)) as [p|] eqn:E;
    [|vm_compute in E; discriminate].
  exists p. assert (made p <= usize_max) as Hm.
  { assert (E' := E). vm_compute in E'. injection E' as <-. vm_compute. discriminate. }
  destruct (samples_are_played_or_counted 2000 2 180 _ p ltac:(vm_compute; discriminate) E Hm) as (w & H1 & _ & _ & _ & H2).
  exists w. by split_and!.
Defined.
