(* ===== verification/AudioRouting.v ===== *)
(** * The routing of audio on Linux: [AudioRoutingGuard] of [crates/edge-linux-audio/src/lib.rs]

    The audio of the computer is redirected into a virtual sink while it is sent to a peer; a file,
    the journal, names the sink to go back to, so that a receiver that crashed is undone by the next
    one.  What [pactl] and the file system answer are lists of answers; every call is recorded with
    the journal as it was then, which is what a crash at that call would leave. *)
From S2P Require Import Text.
From S2P Require Export Prelude.
#[local] Open Scope string_scope.
#[local] Open Scope Z_scope.
#[local] Open Scope list_scope.

(** [edge-linux-audio 31-35 VirtualSink] *)
Record VirtualSink := { sink_name : string; sink_description : string; journal_file : string }.
(** [edge-linux-audio 38-42 REMOTE_SINK] *)
Definition REMOTE_SINK : VirtualSink :=
  {| sink_name := "edge_kvm_remote"; sink_description := "edge-kvm-remote"; journal_file := "audio-routing.toml" |}.
(** [edge-linux-audio 45-49 PHONE_SINK] *)
Definition PHONE_SINK : VirtualSink :=
  {| sink_name := "edge_kvm_phone"; sink_description := "edge-kvm-phone"; journal_file := "audio-routing-phone.toml" |}.
(** [edge-linux-audio 52-52 SINKS] *)
Definition SINKS : list VirtualSink := [PHONE_SINK; REMOTE_SINK].

(** [edge-linux-audio 57-60 RoutingJournal] *)
Record RoutingJournal := { previous_sink : string; module_id : Z }.
#[export] Instance RoutingJournal_eq_dec : EqDecision RoutingJournal.
Proof. solve_decision. Defined.

(** The TOML crate on a journal: what is printed parses back, and an empty text, without the two
    keys, does not. *)
Class JournalText := {
  journal_print : RoutingJournal -> result string string;
  journal_parse : string -> result RoutingJournal string;
}.
Class JournalTextLaws `{JournalText} := {
  journal_parse_print j text : journal_print j = Ok text -> journal_parse text = Ok j;
  journal_parse_empty : exists error, journal_parse EmptyString = Err error;
}.

(** ** The computer *)

(** A file operation is done or fails; a write that fails may have truncated the file. *)
Inductive file_answer := Done | Fails (error : string) | Fails_truncated (error : string).
Inductive host_call :=
| Pactl (arguments : list string)
| Create_state_dir
| Write_journal (file text : string)
| Remove_journal (file : string).
(** The journals by file name; a call is recorded with the journals before it. *)
Record Host := {
  pactl_answers : list (result string string);
  file_answers : list file_answer;
  journals : gmap string string;
  calls : list (host_call * gmap string string);
}.
Definition set_pactl_answers : list (result string string) -> Host -> Host := ltac:(field_setter pactl_answers).
Definition set_file_answers : list file_answer -> Host -> Host := ltac:(field_setter file_answers).
Definition set_journals : gmap string string -> Host -> Host := ltac:(field_setter journals).
Definition set_calls : list (host_call * gmap string string) -> Host -> Host := ltac:(field_setter calls).
Abbreviation hosted := (stateful Host string).

Definition called (c : host_call) (h : Host) : Host := set_calls (calls h ++ [(c, journals h)]) h.
(** The next answer; none is a command that cannot be run, and a file operation that is done. *)
Definition pactl_answer (h : Host) : Host * result string string :=
  match pactl_answers h with
  | [] => (h, Err "failed to run pactl")
  | a :: rest => (set_pactl_answers rest h, a)
  end.
Definition file_answer_of (h : Host) : Host * file_answer :=
  match file_answers h with [] => (h, Done) | a :: rest => (set_file_answers rest h, a) end.

(** The standard output, or that the command fails.  [edge-linux-audio 246-260 pactl] *)
Definition pactl (arguments : list string) : hosted string := fun h => pactl_answer (called (Pactl arguments) h).
Definition create_dir_all : hosted unit := fun h =>
  match file_answer_of (called Create_state_dir h) with
  | (h, Done) => (h, Ok tt)
  | (h, Fails error) | (h, Fails_truncated error) => (h, Err error)
  end.
Definition write_journal (file text : string) : hosted unit := fun h =>
  match file_answer_of (called (Write_journal file text) h) with
  | (h, Done) => (set_journals (<[file := text]> (journals h)) h, Ok tt)
  | (h, Fails error) => (h, Err error)
  | (h, Fails_truncated error) => (set_journals (<[file := EmptyString]> (journals h)) h, Err error)
  end.
(** [edge-linux-audio 238-244 remove_if_exists] *)
Definition remove_if_exists (file : string) : hosted unit := fun h =>
  match file_answer_of (called (Remove_journal file) h) with
  | (h, Done) => (set_journals (delete file (journals h)) h, Ok tt)
  | (h, Fails error) | (h, Fails_truncated error) => (h, Err error)
  end.

(** The result is not looked at. *)
Definition ignoring {A} (m : hosted A) : hosted unit := fun h => ((m h).1, Ok tt).
Fixpoint each {A} (f : A -> hosted unit) (l : list A) : hosted unit :=
  match l with [] => st_ret tt | x :: l => do! f x;; each f l end.

(** The numbers of the streams of [pactl list short sink-inputs]. *)
Definition first_words (text : string) : list string :=
  omap (fun line => head (split_whitespace line)) (str_lines text).

(** ** The guard *)

Section Guard.
Context `{JournalText}.

(** [edge-linux-audio 156-166 route_to_virtual_sink] *)
Definition route_to_virtual_sink (sink : string) : hosted unit :=
  do! pactl ["set-default-sink"; sink];;
  inputs <-! pactl ["list"; "short"; "sink-inputs"];;
  each (fun input => do! pactl ["move-sink-input"; input; sink];; st_ret tt) (first_words inputs).

(** [edge-linux-audio 168-180 restore] *)
Definition restore (journal : RoutingJournal) : hosted unit :=
  do! ignoring (pactl ["set-default-sink"; previous_sink journal]);;
  do! (fun h => match pactl ["list"; "short"; "sink-inputs"] h with
                | (h, Ok inputs) =>
                    each (fun input => ignoring (pactl ["move-sink-input"; input; previous_sink journal]))
                      (first_words inputs) h
                | (h, Err _) => (h, Ok tt)
                end);;
  ignoring (pactl ["unload-module"; print_dec (module_id journal)]).

(** [edge-linux-audio 227-236 recover_routing] *)
Definition recover_routing (file : string) : hosted unit := fun h =>
  match journals h !! file with
  | None => (h, Ok tt)
  | Some text =>
      match journal_parse text with
      | Err error => (h, Err error)
      | Ok journal => (do! restore journal;; remove_if_exists file) h
      end
  end.
(** [edge-linux-audio 182-187 recover_portable_routing] *)
Definition recover_portable_routing : hosted unit := each (fun sink => recover_routing (journal_file sink)) SINKS.

(** [edge-linux-audio 62-66 AudioRoutingGuard] *)
Record AudioRoutingGuard := {
  journal_path : string;
  guard_journal : option RoutingJournal;
  capture_source : string;
}.

(** [edge-linux-audio 73-127 activate_sink] *)
Definition activate_sink (redirect : bool) (sink : VirtualSink) : hosted AudioRoutingGuard :=
  do! recover_routing (journal_file sink);;
  answer <-! pactl ["get-default-sink"];;
  let previous := trim answer in
  do! st_ensure (negb (str_eqb previous EmptyString)) "PipeWire has no default audio sink";;
  if negb redirect then
    st_ret {| journal_path := journal_file sink; guard_journal := None; capture_source := (previous ++ ".monitor")%string |}
  else
    answer <-! pactl ["load-module"; "module-null-sink"; ("sink_name=" ++ sink_name sink)%string; "format=float32le";
                      "rate=48000"; "channels=2"; "channel_map=front-left,front-right";
                      ("sink_properties=device.description=" ++ sink_description sink)%string];;
    id <-! st_lift (ok_or (parse_dec u32_max (trim answer)) "pactl returned an invalid module id");;
    let journal := {| previous_sink := previous; module_id := id |} in
    do! create_dir_all;;
    text <-! st_lift (journal_print journal);;
    do! write_journal (journal_file sink) text;;
    do! (fun h => match route_to_virtual_sink (sink_name sink) h with
                  | (h, Ok _) => (h, Ok tt)
                  | (h, Err error) => (do! restore journal;; do! ignoring (remove_if_exists (journal_file sink));;
                                       st_fail error) h
                  end);;
    st_ret {| journal_path := journal_file sink; guard_journal := Some journal;
              capture_source := (sink_name sink ++ ".monitor")%string |}.

(** [edge-linux-audio 133-138 restore_now] *)
Definition restore_now (guard : AudioRoutingGuard) : hosted unit :=
  do! match guard_journal guard with Some journal => restore journal | None => st_ret tt end;;
  remove_if_exists (journal_path guard).

(** The task that the drop spawns; [None] after [restore_now].
    [edge-linux-audio 142-153 AudioRoutingGuard::drop] *)
Definition drop_guard (guard : AudioRoutingGuard) : hosted unit :=
  match guard_journal guard with
  | None => st_ret tt
  | Some journal => do! restore journal;; ignoring (remove_if_exists (journal_path guard))
  end.

(** [edge-linux-audio 207-216 choose_phone_sink] *)
Definition choose_phone_sink (default_sink : string) (phone_previous : option string) (available : list string) : string :=
  if negb (str_eqb default_sink (sink_name PHONE_SINK)) then default_sink
  else
    default default_sink
      (List.find (fun sink => negb (str_eqb sink (sink_name PHONE_SINK)) && existsb (str_eqb sink) available)
         (option_list phone_previous ++ available)).
(** [edge-linux-audio 192-205 phone_playback_sink] *)
Definition phone_playback_sink : hosted string :=
  answer <-! pactl ["get-default-sink"];;
  h <-! st_get;;
  let previous := match journals h !! journal_file PHONE_SINK with
                  | Some text => match journal_parse text with Ok j => Some (previous_sink j) | Err _ => None end
                  | None => None
                  end in
  sinks <-! pactl ["list"; "short"; "sinks"];;
  let available := omap (fun line => nth_error (split_whitespace line) 1) (str_lines sinks) in
  st_ret (choose_phone_sink (trim answer) previous available).
End Guard.

(** ** Redirects can be undone *)

Section Undone.
Context `{JournalTextLaws}.
Context (file sink : string).

(** The default sink changes only to the journal's, or to the virtual one while a journal is there. *)
Definition journaled (call : host_call * gmap string string) : Prop :=
  match call.1 with
  | Pactl ["set-default-sink"; s] =>
      exists text j, call.2 !! file = Some text /\ journal_parse text = Ok j /\ (s = previous_sink j \/ s = sink)
  | _ => True
  end.
Definition clean (h : Host) : Prop := Forall journaled (calls h).
Definition marked (text : string) (j : RoutingJournal) (h : Host) : Prop :=
  clean h /\ journals h !! file = Some text /\ journal_parse text = Ok j.

Lemma pactl_clean arguments : (forall s, arguments <> ["set-default-sink"; s]) ->
  hoare clean (pactl arguments) (fun _ => clean) clean.
Proof.
  intros Ha h Hh. unfold pactl, pactl_answer, called, clean in *. cbn.
  assert (Forall journaled (calls h ++ [(Pactl arguments, journals h)])) as Hc.
  { apply Forall_app. split; [done|]. apply Forall_singleton. unfold journaled. cbn.
    destruct arguments as [|a [|b [|]]]; try done; repeat case_match; try done. subst. by destruct (Ha b). }
  destruct (pactl_answers h) as [|[a|e] rest]; cbn; exact Hc.
Qed.
Lemma pactl_marked text j arguments :
  (forall s, arguments = ["set-default-sink"; s] -> s = previous_sink j \/ s = sink) ->
  hoare (marked text j) (pactl arguments) (fun _ => marked text j) (marked text j).
Proof.
  intros Ha h (Hh & Hf & Hj). unfold pactl, pactl_answer, called, marked, clean in *. cbn.
  assert (Forall journaled (calls h ++ [(Pactl arguments, journals h)])) as Hc.
  { apply Forall_app. split; [done|]. apply Forall_singleton. unfold journaled. cbn.
    destruct arguments as [|a [|b [|]]]; try done; repeat case_match; try done. subst.
    exists text, j. split_and!; [done..|]. by apply Ha. }
  destruct (pactl_answers h) as [|[a|e] rest]; cbn; by split_and!.
Qed.
Lemma ignoring_marked {A} text j (m : hosted A) : hoare (marked text j) m (fun _ => marked text j) (marked text j) ->
  hoare (marked text j) (ignoring m) (fun _ => marked text j) (marked text j).
Proof. intros Hm h Hh. specialize (Hm h Hh). cbn. by destruct (m h) as [h' [a|e]]. Qed.
Lemma each_hoare {A} (P : Host -> Prop) (f : A -> hosted unit) l : (forall x, hoare P (f x) (fun _ => P) P) ->
  hoare P (each f l) (fun _ => P) P.
Proof.
  intros Hf. induction l as [|x l IH]; [by apply hoare_ret|]. cbn [each].
  apply (hoare_bind _ (fun _ => P)); [apply Hf|]. by intros _.
Qed.

Lemma restore_marked text j : hoare (marked text j) (restore j) (fun _ => marked text j) (marked text j).
Proof.
  unfold restore. apply (hoare_bind _ (fun _ => marked text j)).
  { apply ignoring_marked, pactl_marked. intros s [= <-]. by left. }
  intros _. apply (hoare_bind _ (fun _ => marked text j)).
  - intros h Hh. pose proof (pactl_marked text j ["list"; "short"; "sink-inputs"] ltac:(done) h Hh) as Hp.
    destruct (pactl _ h) as [h1 [inputs|e]]; cbn in Hp; [|done].
    apply (each_hoare (marked text j)); [|done]. intros input. by apply ignoring_marked, pactl_marked.
  - intros _. by apply ignoring_marked, pactl_marked.
Qed.
Lemma route_marked text j : hoare (marked text j) (route_to_virtual_sink sink) (fun _ => marked text j) (marked text j).
Proof.
  unfold route_to_virtual_sink. apply (hoare_bind _ (fun _ => marked text j)).
  { apply pactl_marked. intros s [= <-]. by right. }
  intros _. apply (hoare_bind _ (fun _ => marked text j)); [by apply pactl_marked|].
  intros inputs. apply each_hoare. intros input. apply (hoare_bind _ (fun _ => marked text j)); [by apply pactl_marked|].
  intros _. by apply hoare_ret.
Qed.
Lemma file_call_clean c h : (match c with Pactl _ => False | _ => True end) -> clean h -> clean (called c h).
Proof.
  intros Hc Hh. unfold clean, called in *. cbn. apply Forall_app. split; [done|]. apply Forall_singleton. by destruct c.
Qed.
Lemma file_answer_same h : journals (file_answer_of h).1 = journals h /\ calls (file_answer_of h).1 = calls h.
Proof. unfold file_answer_of. by destruct (file_answers h). Qed.
Lemma remove_clean : hoare clean (remove_if_exists file) (fun _ => clean) clean.
Proof.
  intros h Hh. unfold remove_if_exists. pose proof (file_call_clean (Remove_journal file) h I Hh) as Hc.
  destruct (file_answer_same (called (Remove_journal file) h)) as [_ E]. unfold clean in *.
  destruct (file_answer_of _) as [h1 [|e|e]]; cbn in *; by rewrite E.
Qed.
Lemma create_clean : hoare clean create_dir_all (fun _ => clean) clean.
Proof.
  intros h Hh. unfold create_dir_all. pose proof (file_call_clean Create_state_dir h I Hh) as Hc.
  destruct (file_answer_same (called Create_state_dir h)) as [_ E]. unfold clean in *.
  destruct (file_answer_of _) as [h1 [|e|e]]; cbn in *; by rewrite E.
Qed.
Lemma write_marks text j : journal_parse text = Ok j ->
  hoare clean (write_journal file text) (fun _ => marked text j) clean.
Proof.
  intros Hj h Hh. unfold write_journal. pose proof (file_call_clean (Write_journal file text) h I Hh) as Hc.
  destruct (file_answer_same (called (Write_journal file text) h)) as [_ E]. unfold marked, clean in *.
  destruct (file_answer_of _) as [h1 [|e|e]]; cbn in *; rewrite E; split_and?; try done. by rewrite lookup_insert_eq.
Qed.
Lemma marked_clean text j h : marked text j h -> clean h.
Proof. by intros []. Qed.

Lemma recover_clean : hoare clean (recover_routing file) (fun _ => clean) clean.
Proof.
  intros h Hh. unfold recover_routing. destruct (journals h !! file) as [text|] eqn:Et; [|done].
  destruct (journal_parse text) as [j|e] eqn:Ej; [|done].
  apply (hoare_bind (marked text j) (fun _ => marked text j)).
  - eapply hoare_weaken; [apply (restore_marked text j)|done|done|]. apply marked_clean.
  - intros _. eapply hoare_weaken; [apply remove_clean|apply marked_clean|done|done].
  - done.
Qed.
End Undone.

Section Activation.
Context `{JournalTextLaws}.

Lemma activate_clean redirect sink :
  hoare (clean (journal_file sink) (sink_name sink)) (activate_sink redirect sink)
    (fun _ => clean (journal_file sink) (sink_name sink)) (clean (journal_file sink) (sink_name sink)).
Proof.
  set (C := clean (journal_file sink) (sink_name sink)). unfold activate_sink.
  apply (hoare_bind _ (fun _ => C)); [apply recover_clean|intros _].
  apply (hoare_bind _ (fun _ => C)); [by apply pactl_clean|intros answer]. cbv zeta.
  apply (hoare_bind _ (fun _ => C)); [by destruct (negb (str_eqb (trim answer) _)); [apply hoare_ret|apply hoare_fail]|intros _].
  destruct (negb redirect); [by apply hoare_ret|].
  apply (hoare_bind _ (fun _ => C)); [by apply pactl_clean|intros module].
  apply (hoare_bind _ (fun _ => C)); [intros h Hh; cbn; by destruct (ok_or _ _)|intros id].
  apply (hoare_bind _ (fun _ => C)); [apply create_clean|intros _].
  set (j := {| previous_sink := trim answer; module_id := id |}).
  apply (hoare_bind _ (fun text h => C h /\ journal_parse text = Ok j)).
  { intros h Hh. cbn. destruct (journal_print j) as [text|e] eqn:E; [|done].
    split; [done|]. by apply journal_parse_print. }
  intros text h [Hh Hj]. revert h Hh. change (hoare C (do! write_journal (journal_file sink) text;;
    do! (fun h => match route_to_virtual_sink (sink_name sink) h with
                  | (h, Ok _) => (h, Ok tt)
                  | (h, Err error) => (do! restore j;; do! ignoring (remove_if_exists (journal_file sink));;
                                       st_fail error) h
                  end);;
    st_ret {| journal_path := journal_file sink; guard_journal := Some j;
              capture_source := (sink_name sink ++ ".monitor")%string |}) (fun _ => C) C).
  set (M := marked (journal_file sink) (sink_name sink) text j).
  assert (forall h, M h -> C h) as HMC by (intros h; apply marked_clean).
  apply (hoare_bind _ (fun _ => M)); [by apply write_marks|intros _].
  apply (hoare_bind _ (fun _ => M)); [|intros _; by apply hoare_ret].
  intros h Hh. pose proof (route_marked (journal_file sink) (sink_name sink) text j h Hh) as Hr.
  destruct (route_to_virtual_sink (sink_name sink) h) as [h1 [[]|e]]; cbn in Hr; [done|].
  assert (hoare M (do! restore j;; do! ignoring (remove_if_exists (journal_file sink));; st_fail e : hosted unit)
    (fun _ => M) C) as Hu; [|exact (Hu h1 Hr)].
  apply (hoare_bind _ (fun _ => M)).
  { eapply hoare_weaken; [apply restore_marked|done|done|done]. }
  intros _. apply (hoare_bind _ (fun _ => C)); [|intros _; by apply hoare_fail].
  intros h2 H2. pose proof (remove_clean (journal_file sink) (sink_name sink) h2 (HMC _ H2)) as H3. cbn.
  by destruct (remove_if_exists _ h2) as [h3 [|]].
Qed.
End Activation.

(** What only adds calls. *)
Definition later (h h' : Host) : Prop :=
  (exists new, calls h' = calls h ++ new) /\ journals h' = journals h /\ file_answers h' = file_answers h.
#[export] Instance later_preorder : PreOrder later.
Proof.
  split.
  - intros h. split_and!; [|done|done]. exists []. by rewrite app_nil_r.
  - intros h1 h2 h3 [[n1 E1] [J1 F1]] [[n2 E2] [J2 F2]]. split_and!; [|congruence|congruence].
    exists (n1 ++ n2). by rewrite E2, E1, (assoc_L (++)).
Qed.
Lemma pactl_calls arguments h : calls (pactl arguments h).1 = calls h ++ [(Pactl arguments, journals h)]
  /\ journals (pactl arguments h).1 = journals h /\ file_answers (pactl arguments h).1 = file_answers h.
Proof. unfold pactl, pactl_answer, called. cbn. by destruct (pactl_answers h) as [|[|] rest]. Qed.
Lemma pactl_later arguments : within later (pactl arguments).
Proof. intros h. destruct (pactl_calls arguments h) as (E1 & E2 & E3). split_and!; [by eexists|done|done]. Qed.
Lemma each_later {A} (f : A -> hosted unit) l : (forall x, within later (f x)) -> within later (each f l).
Proof.
  intros Hf. induction l as [|x l IH]; cbn [each]; [apply within_ret; apply _|]. apply within_bind; [apply _|apply Hf|done].
Qed.
Lemma later_calls h h' c : later h h' -> c ∈ calls h -> c ∈ calls h'.
Proof. intros [[new ->] _] Hc. set_solver. Qed.
Lemma each_ignoring {A} (f : A -> hosted unit) l h : (forall x h, (f x h).2 = Ok tt) -> (each f l h).2 = Ok tt.
Proof.
  intros Hf. revert h. induction l as [|x l IH]; intros h; [done|]. cbn [each]. unfold st_bind.
  specialize (Hf x h). destruct (f x h) as [h' r]. cbn in Hf. subst r. apply IH.
Qed.

(** Restoring goes back to the sink and takes the virtual one away, whatever [pactl] answers. *)
Lemma restore_calls j h : exists new, calls (restore j h).1 = calls h ++ new
  /\ Pactl ["set-default-sink"; previous_sink j] ∈ new.*1 /\ Pactl ["unload-module"; print_dec (module_id j)] ∈ new.*1
  /\ (restore j h).2 = Ok tt /\ journals (restore j h).1 = journals h /\ file_answers (restore j h).1 = file_answers h.
Proof.
  destruct (pactl_calls ["set-default-sink"; previous_sink j] h) as (E1 & J1 & F1).
  set (h1 := (pactl ["set-default-sink"; previous_sink j] h).1) in *.
  set (middle := match pactl ["list"; "short"; "sink-inputs"] h1 with
                 | (h, Ok inputs) => each (fun input => ignoring (pactl ["move-sink-input"; input; previous_sink j]))
                                       (first_words inputs) h
                 | (h, Err _) => (h, Ok tt)
                 end).
  assert (later h1 middle.1 /\ middle.2 = Ok tt) as [Hl Hok].
  { subst middle. pose proof (pactl_later ["list"; "short"; "sink-inputs"] h1) as Hp.
    destruct (pactl _ h1) as [h2 [inputs|e]]; cbn in Hp; [|done]. split.
    - etrans; [exact Hp|]. apply each_later. intros input h'. apply pactl_later.
    - by apply each_ignoring. }
  assert (restore j h = ((pactl ["unload-module"; print_dec (module_id j)] middle.1).1, Ok tt)) as ->.
  { change (restore j h) with (match middle with
                               | (h2, Ok _) => ignoring (pactl ["unload-module"; print_dec (module_id j)]) h2
                               | (h2, Err e) => (h2, Err e)
                               end).
    destruct middle as [h2 r]. cbn in Hok. by subst r. }
  destruct Hl as [[new E2] [J2 F2]]. set (h2 := middle.1) in *.
  destruct (pactl_calls ["unload-module"; print_dec (module_id j)] h2) as (E3 & J3 & F3). cbn [fst snd].
  exists ([(Pactl ["set-default-sink"; previous_sink j], journals h)] ++ new
          ++ [(Pactl ["unload-module"; print_dec (module_id j)], journals h2)]).
  split; [by rewrite E3, E2, E1, <- !(assoc_L (++))|]. rewrite !fmap_app. cbn [fmap list_fmap fst app].
  split; [set_solver|]. split; [set_solver|]. split; [done|]. split; congruence.
Qed.

Section Recovery.
Context `{JournalTextLaws}.

Lemma recover_undoes file text j h : journals h !! file = Some text -> journal_parse text = Ok j ->
  exists new, calls (recover_routing file h).1 = calls h ++ new
  /\ Pactl ["set-default-sink"; previous_sink j] ∈ new.*1 /\ Pactl ["unload-module"; print_dec (module_id j)] ∈ new.*1
  /\ (file_answers h = [] -> journals (recover_routing file h).1 !! file = None).
Proof.
  intros Ht Hj. unfold recover_routing. rewrite Ht, Hj. unfold st_bind.
  destruct (restore_calls j h) as (new & E & H1 & H2 & Hok & J & F). destruct (restore j h) as [h1 r].
  cbn [fst snd] in *. subst r. unfold remove_if_exists.
  destruct (file_answer_same (called (Remove_journal file) h1)) as [J1 E1].
  assert (calls (called (Remove_journal file) h1) = calls h1 ++ [(Remove_journal file, journals h1)]) as E2 by done.
  exists (new ++ [(Remove_journal file, journals h1)]). rewrite fmap_app.
  assert (file_answers h = [] -> file_answer_of (called (Remove_journal file) h1) = (called (Remove_journal file) h1, Done)) as Hd.
  { intros E0. unfold file_answer_of. cbn. by rewrite F, E0. }
  split_and!; [|set_solver|set_solver|].
  - assert (calls (file_answer_of (called (Remove_journal file) h1)).1
            = calls h ++ new ++ [(Remove_journal file, journals h1)]) as E3
      by (rewrite E1, E2, E; by rewrite <- (assoc_L (++))).
    destruct (file_answer_of _) as [h2 [|e|e]]; exact E3.
  - intros E0. rewrite (Hd E0). cbn. apply lookup_delete_eq.
Qed.

(** A redirect outlives no crash: the default sink is changed only while a journal is on disk, and
    from what a crash at that moment leaves, the next start goes back to the sink the journal names
    and unloads the virtual one, whatever [pactl] answers, and then removes the journal. *)
Theorem redirect_is_undone_after_a_crash (redirect : bool) (sink : VirtualSink) (h : Host) (s : string)
    (files : gmap string string) (Hh : calls h = [])
    (Hc : (Pactl ["set-default-sink"; s], files) ∈ calls (activate_sink redirect sink h).1) :
  exists text j, files !! journal_file sink = Some text /\ journal_parse text = Ok j
  /\ (s = previous_sink j \/ s = sink_name sink)
  /\ forall h2, journals h2 = files -> exists new,
       calls (recover_routing (journal_file sink) h2).1 = calls h2 ++ new
       /\ Pactl ["set-default-sink"; previous_sink j] ∈ new.*1
       /\ Pactl ["unload-module"; print_dec (module_id j)] ∈ new.*1
       /\ (file_answers h2 = [] -> journals (recover_routing (journal_file sink) h2).1 !! journal_file sink = None).
Proof.
  assert (clean (journal_file sink) (sink_name sink) (activate_sink redirect sink h).1) as Ha.
  { pose proof (activate_clean redirect sink h ltac:(unfold clean; rewrite Hh; constructor)) as Ha.
    by destruct (activate_sink redirect sink h) as [h' [|]]. }
  unfold clean in Ha. rewrite Forall_forall in Ha. destruct (Ha _ Hc) as (text & j & Hf & Hj & Hs). cbn in Hf.
  exists text, j. split_and!; [done..|]. intros h2 H2. apply (recover_undoes _ text); [by rewrite H2|done].
Qed.

(** A defect: a journal that was cut short stops the audio for good.  [tokio::fs::write] empties the
    file before it writes, so that a crash, or a full disk, may leave it empty; from then on every
    activation and every start of the receiver fails before it does anything, until the user
    deletes the file. *)
Theorem torn_journal_stops_audio (redirect : bool) (sink : VirtualSink) (h : Host)
    (Ht : journals h !! journal_file sink = Some EmptyString) :
  exists error, activate_sink redirect sink h = (h, Err error).
Proof.
  destruct journal_parse_empty as [error E]. exists error. unfold activate_sink, st_bind at 1, recover_routing.
  by rewrite Ht, E.
Qed.
End Recovery.

(** The sound of a phone is never sent back to it while there is another sink. *)
Theorem phone_does_not_hear_itself (default_sink : string) (previous : option string) (available : list string)
    (Ha : exists s, s ∈ available /\ s <> sink_name PHONE_SINK) :
  choose_phone_sink default_sink previous available <> sink_name PHONE_SINK
  /\ (default_sink <> sink_name PHONE_SINK -> choose_phone_sink default_sink previous available = default_sink).
Proof.
  unfold choose_phone_sink. destruct (str_eqb default_sink (sink_name PHONE_SINK)) eqn:E; cbn [negb].
  - apply str_eqb_spec in E. split; [|done]. destruct Ha as (s & Hs & Hne).
    destruct (List.find _ _) as [found|] eqn:Ef.
    + apply List.find_some in Ef as [_ Ef]. cbn. intros ->. by rewrite str_eqb_refl in Ef.
    + exfalso. pose proof (List.find_none _ _ Ef s) as Hn. apply andb_false_iff in Hn as [Hn|Hn].
      * apply negb_false_iff, str_eqb_spec in Hn. done.
      * assert (existsb (str_eqb s) available = true) as He; [|congruence].
        apply existsb_exists. exists s. split; [by apply list_elem_of_In|apply str_eqb_refl].
      * apply List.in_or_app. right. by apply list_elem_of_In.
  - assert (default_sink <> sink_name PHONE_SINK) by (intros ->; by rewrite str_eqb_refl in E). done.
Qed.

(** ** A journal's text, and samples *)

#[export] Instance line_journal : JournalText := {|
  journal_print j :=
    if (0 <=? module_id j) && (module_id j <=? u32_max)
    then Ok (print_dec (module_id j) ++ String newline (previous_sink j))%string else Err "module_id";
  journal_parse text :=
    match split_once (String newline EmptyString) text with
    | Some (id, previous) =>
        match parse_dec u32_max id with
        | Some id => Ok {| previous_sink := previous; module_id := id |}
        | None => Err "module_id"
        end
    | None => Err "missing field"
    end |}.
#[export] Instance line_journal_laws : JournalTextLaws.
Proof.
  split.
  - intros [previous id] text. unfold journal_print, journal_parse, line_journal. cbn [module_id previous_sink].
    destruct (Z.leb_spec 0 id), (Z.leb_spec id u32_max); cbn [andb]; try done.
    intros [= <-]. rewrite split_once_char by (by apply print_dec_contains).
    rewrite parse_print; [done|lia|unfold u32_max, u64_max in *; lia].
  - by eexists.
Qed.

Definition a_host (files : list file_answer) : Host :=
  {| pactl_answers := [Ok "alsa_output"; Ok "536870913"; Ok ""; Ok ""]; file_answers := files; journals := ∅; calls := [] |}.

(** A defect: when the journal cannot be written the activation fails and leaves the virtual sink
    it has just loaded; the next one loads another. *)
Theorem failed_journal_leaves_the_sink :
  let '(h, r) := activate_sink true REMOTE_SINK (a_host [Done; Fails "no space"]) in
  r = Err "no space" /\ map fst (calls h)
    = [Pactl ["get-default-sink"];
       Pactl ["load-module"; "module-null-sink"; "sink_name=edge_kvm_remote"; "format=float32le"; "rate=48000";
              "channels=2"; "channel_map=front-left,front-right"; "sink_properties=device.description=edge-kvm-remote"];
       Create_state_dir;
       Write_journal "audio-routing.toml" (print_dec 536870913 ++ String newline "alsa_output")%string].
Proof. vm_compute. by split. Qed.

Lemma redirect_is_undone_after_a_crash_witness : exists files text j,
  (Pactl ["set-default-sink"; "edge_kvm_remote"], files) ∈ calls (activate_sink true REMOTE_SINK (a_host [])).1
  /\ files !! "audio-routing.toml" = Some text /\ journal_parse text = Ok j.
Proof.
  set (files := {["audio-routing.toml" := (print_dec 536870913 ++ String newline "alsa_output")%string]} : gmap string string).
  assert ((Pactl ["set-default-sink"; "edge_kvm_remote"], files) ∈ calls (activate_sink true REMOTE_SINK (a_host [])).1) as Hc.
  { vm_compute. do 4 right. left. }
  destruct (redirect_is_undone_after_a_crash true REMOTE_SINK (a_host []) _ files eq_refl Hc) as (text & j & H1 & H2 & _).
  by exists files, text, j.
Defined.
Lemma phone_does_not_hear_itself_witness :
  choose_phone_sink "edge_kvm_phone" None ["edge_kvm_phone"; "alsa_output"] <> "edge_kvm_phone".
Proof.
  assert (exists s, s ∈ ["edge_kvm_phone"; "alsa_output"] /\ s <> sink_name PHONE_SINK) as Ha
    by (exists "alsa_output"; split; [set_solver|discriminate]).
  exact (proj1 (phone_does_not_hear_itself "edge_kvm_phone" None ["edge_kvm_phone"; "alsa_output"] Ha)).
Defined.
Lemma torn_journal_stops_audio_witness : exists error,
  activate_sink true REMOTE_SINK (set_journals {["audio-routing.toml" := EmptyString]} (a_host []))
  = (set_journals {["audio-routing.toml" := EmptyString]} (a_host []), Err error).
Proof. apply (torn_journal_stops_audio true REMOTE_SINK). vm_compute; reflexivity. Defined.
